(* ===== verification/_CoqProject ===== *)
-Q . S2P
Prelude.v
Types.v
Oracle.v
TxFee.v
DebtKeeper.v
DebtKeeperSpec.v
DebtKeeperSafety.v
DebtRound.v
DebtStore.v
Trim.v
UsageTracker.v
UsageTrackerSpec.v
PaymentValidator.v
PaymentValidatorSpec.v
ValidatorSafety.v
ValidatorChecks.v
PaymentController.v
PaymentControllerSpec.v
Text.v
IpText.v
Babel.v
BabelSpec.v
TrafficWatcher.v
TrafficWatcherSpec.v
TunnelManager.v
TunnelTable.v
TunnelManagerSpec.v
TunnelEnforcement.v
TunnelSafety.v
NetworkMonitor.v
Loops.v
IpIncrement.v
PeerMessage.v
PeerListener.v
Forwarding.v
ForwardingSpec.v
ForwardingRelay.v
Regions.v
ExitManager.v
ExitSwitcherSpec.v
ExitSwitcherSafety.v
ExitLoop.v
ExitDatabase.v
ExitClients.v
ExitDatabaseSpec.v
ExitEnforcement.v
ExitTraffic.v
ExitTrafficSpec.v
ExitSettlement.v
ExitServerLoop.v
OperatorFee.v
RegistrationDb.v
AltheaDB.v
RegistrationAbi.v
RegistrationQueue.v
RegistrationSpec.v
RegistrationSafety.v
RegistrationTrust.v
RegistrationExits.v
ExitEndpoints.v
KernelShell.v
KernelCounters.v
IpRoute.v
TrafficControl.v
Uci.v
KernelLinks.v
HardwareInfo.v
Wireguard.v
Interfaces.v
RouterUpgrade.v
ContactInfo.v
OperatorUpdate.v
Startup.v
Wifi.v
ClientLoop.v
OperatorUpdateSpec.v
AutoBridge.v
TokenBridge.v
TokenBridgeSpec.v
TokenBridgeSearch.v
