(* ===== verification/Prelude.v ===== *)
(** * Rita: the decisions of a mesh router, its exits and its registry

    Rita runs on every router of an Althea mesh network. Routers carry each
    other's traffic over WireGuard tunnels, babeld finds routes and propagates
    prices, and Rita counts bytes, turns them into debts between neighbours,
    pays and collects those debts on a blockchain and cuts off neighbours that
    do not pay. Some routers are exits: a client reaches the internet through
    one of them, is registered with it, and is billed by it. This library models
    what every router does with money and tunnels (rita_common), how a client
    chooses and pays its exit, follows its operator and configures its hardware
    (rita_client), how an exit hands out addresses, bills and limits its clients
    (rita_exit), how clients and exits get into the registry on the chain
    (rita_client_registration and the contract AltheaDB.sol), the bridge between
    the chains (auto_bridge), the protocol that lets a router forward connections
    to its antenna (antenna_forwarding_protocol), the interfaces to babeld
    (babel_monitor) and to the kernel (althea_kernel_interface), the first start
    (clu), and the types and settings they share (althea_types, settings).

    ** How the parts interact

    Every round of the fast loop (rita_common/src/rita_loop/fast_loop.rs,
    [Loops.FastLoop]) reads routes from babeld ([Babel]) and byte counters from
    the kernel ([KernelCounters]); the traffic watcher ([TrafficWatcher]) turns
    both into an amount per neighbour and adds it to the ledger of the debt
    keeper ([DebtKeeper.traffic_update]). The debt keeper's round
    ([send_debt_update]) decides for every neighbour whether its tunnel stays
    open, is suspended, or is paid. The verdicts on tunnels go to the tunnel
    manager ([TunnelManager]), which opens the tunnels when neighbours say hello
    ([PeerListener]), collects those that died, and limits the interfaces of those
    who do not pay; payments go to the payment controller ([PaymentController]),
    which publishes them on the chain and tells the neighbour; its result goes to
    the payment validator ([PaymentValidator]), together with the payments
    neighbours announce through the HTTP endpoints. The validator checks each
    against the chain and reports it to the debt keeper exactly once
    ([payment_received], [payment_succeeded]) and to the usage tracker
    ([UsageTracker]). The oracle ([Oracle]) caches balance and block height and
    derives the thresholds, the simulated fee manager ([TxFee]) collects a share
    of what is paid. The network monitor ([NetworkMonitor]) watches the links and
    asks the tunnel manager for other speeds, which the slow loop
    ([Loops.SlowLoop]) carries out; it also keeps babeld configured and runs the
    token bridge ([TokenBridge]), which moves money between the chains.

    A client's exit manager ([ExitLoop]) lets the exit switcher ([ExitManager])
    choose among the exits by the metrics babeld reports, registers with them over
    an encrypted channel ([ExitEndpoints]), sets up the tunnel to the chosen one
    ([Wireguard]), and bills itself for what it sent and received there
    ([ExitTraffic]): it asks the exit for its debt and puts the answer into its
    own ledger ([traffic_replace]), or its own estimate when the exit does not
    answer. The exit's loop ([ExitServerLoop]) bills its clients from the
    WireGuard counters into its debt keeper, gives every registered client an
    address ([ExitDatabase]), checks where clients are ([Regions]) and limits
    those who do not pay ([ExitClients], [TrafficControl]). A client becomes known
    to the exits through the registry: it confirms a phone number with the
    registration server, which puts it into a queue and registers the queue in
    batches with the contract ([RegistrationQueue], [AltheaDB]); exits and clients
    read the contract through the parsers of client_db.rs ([RegistrationDb]).

    A client is set up at its first start ([Startup]), looks after its routes and
    name servers and reboots when it is cut off ([ClientLoop]), reports to its
    operator and takes settings, keys and updates from it ([ClientLoop.Heartbeat],
    [OperatorUpdate], [RouterUpgrade]), and has a dashboard for its ports, its
    wireless networks, contacts and devices ([Interfaces], [Wifi], [ContactInfo],
    [HardwareInfo]).

    ** Files

    - [Prelude]: outcomes of Rust calls ([Done], [Fail] with the state left
      behind, [Panic]) and their state and error monad; machine integers with
      the two overflow behaviours of a build ([Profile]); the num256 crate as a
      class with laws ([Num256], [Num256Laws]) and two instances; instants;
      hash sets and maps whose element type has its own equality ([Keyed]).
    - [Types]: althea_types/src/interop.rs (Identity, Denom, SystemChain,
      payments), settings/src/payment.rs, rita_common/src/error.rs.
    - [Oracle]: blockchain_oracle/mod.rs and normalize_payment_amount of
      debt_keeper/mod.rs. [TxFee]: simulated_txfee_manager/mod.rs.
    - [DebtKeeper]: debt_keeper/mod.rs without the file handling, which is
      [DebtStore]. [DebtKeeperSpec] has the invariant, the reference decision in
      unbounded integers and sequences of operations, [DebtKeeperSafety] and
      [DebtRound] the theorems.
    - [Trim], [UsageTracker], [UsageTrackerSpec]: usage_tracker/mod.rs and
      structs.rs, is_router_storage_small of rita_loop/write_to_disk.rs and the
      conversions of althea_types/src/user_info.rs.
    - [PaymentValidator]: payment_validator/mod.rs and the endpoints
      make_payments and make_payments_v2 of network_endpoints/mod.rs.
      [PaymentValidatorSpec] has the invariant and the interface [Validator] the
      tick needs of a check, [ValidatorSafety] discharges it for both chains and
      states safety over any number of ticks, [ValidatorChecks] the decision of
      one check and the loops around it.
    - [PaymentController], [PaymentControllerSpec]: payment_controller/mod.rs and
      get_web3_server of rita_loop/mod.rs.
    - [Text], [IpText]: what is used of the standard library on strings
      (splitting, trimming, numbers, IP addresses) and the text of addresses.
      [Babel], [BabelSpec]: babel_monitor.
    - [TrafficWatcher], [TrafficWatcherSpec]: traffic_watcher/mod.rs.
    - [TunnelManager]: tunnel_manager/mod.rs, gc.rs, id_callback.rs, shaping.rs,
      neighbor_status.rs and create_blank_wg_numbered_wg_interface of
      althea_kernel_interface/src/setup_wg_if.rs, over a class [Kernel] of calls
      to the kernel and to babeld. [TunnelTable] has the invariant of the table,
      [TunnelManagerSpec] opening and garbage collection, [TunnelEnforcement]
      the debt keeper's verdicts down to the calls that limit an interface,
      [TunnelSafety] the invariant over any sequence of events and the WireGuard
      interfaces.
    - [NetworkMonitor]: network_monitor/mod.rs with the statistics of
      althea_types/src/monitoring.rs ([Monitoring]).
    - [Loops]: rita_loop/fast_loop.rs and slow_loop.rs, composed of the parts above.
    - [IpIncrement]: utils/ip_increment.rs. [PeerMessage]:
      peer_listener/message.rs. [PeerListener]: peer_listener/mod.rs, structs.rs,
      tunnel_manager/contact_peers.rs and hello_response.
    - [Forwarding]: antenna_forwarding_protocol/src/lib.rs and the session of
      antenna_forwarding_client/src/lib.rs. [ForwardingSpec] has the lemmas on
      framing and on readers that get their bytes in pieces, [ForwardingRelay]
      the theorems.
    - [Regions]: althea_types/src/regions.rs and rita_exit/src/database/geoip.rs.
    - [ExitManager]: rita_client/src/exit_manager/mod.rs and exit_switcher.rs,
      settings/src/client.rs. [ExitSwitcherSpec] describes a tick of the switcher
      by the candidates it scans, [ExitSwitcherSafety] has the theorems.
      [ExitLoop]: exit_loop.rs and time_sync.rs, with their properties.
    - [ExitDatabase], [ExitClients]: rita_exit/src/database/mod.rs and
      in_memory_database.rs. [ExitDatabaseSpec] has the books of addresses,
      [ExitEnforcement] lookups, set up and limits.
    - [ExitTraffic]: the traffic watchers of rita_exit and rita_client and
      prepare_usage_history of wg_iface_counter.rs. [ExitTrafficSpec] computes the
      bills of a round, [ExitSettlement] has the theorems on both ends of an exit
      tunnel.
    - [ExitServerLoop]: rita_exit/src/rita_loop/mod.rs. [ExitEndpoints]:
      rita_exit/src/network_endpoints/mod.rs and the client's end of the channel.
    - [OperatorFee]: rita_client/src/operator_fee_manager/mod.rs.
    - [RegistrationDb]: rita_client_registration/src/client_db.rs. [AltheaDB]:
      solidity/contracts/AltheaDB.sol, with its books. [RegistrationAbi]: the
      answers of the contract and what the parsers read. [RegistrationQueue]:
      rita_client_registration/src/lib.rs and register_client_batch_loop.rs, and
      the contract behind its requests. [RegistrationSpec], [RegistrationSafety],
      [RegistrationTrust], [RegistrationExits] have the theorems.
    - The kernel interface, althea_kernel_interface/src: [KernelShell] runs
      commands (lib.rs, iptables.rs, netfilter.rs), [KernelCounters] is counter.rs,
      [IpRoute] ip_route.rs, [TrafficControl] traffic_control.rs with the debt
      keeper's verdicts down to the queueing disciplines, [Uci] manipulate_uci.rs, [KernelLinks] the files on links, addresses and sockets
      with the regular expressions they use, [Wireguard] the files on WireGuard and
      both ends of the exit tunnel, [HardwareInfo] hardware_info.rs and ip_neigh.rs
      (with althea_types/src/wifi_info.rs and the list of devices of the
      dashboard). Each machine that answers the commands is part of the file whose
      theorems need it.
    - The dashboard of a client, rita_client/src/dashboard: [Interfaces] is
      interfaces.rs, [Wifi] wifi.rs (and nickname.rs of rita_common),
      [ContactInfo] contact_info.rs with althea_types/src/contact_info.rs.
    - [RouterUpgrade], [OperatorUpdate], [OperatorUpdateSpec]:
      rita_client/src/operator_update and the endpoints of the operator.
    - [ClientLoop]: rita_client/src/rita_loop/mod.rs and, in its module [Heartbeat],
      heartbeat/mod.rs. [Startup]: settings/src/lib.rs ([SettingsStore]),
      clu/src/lib.rs ([Clu]) and rita_common/src/middleware.rs ([Middleware]).
    - [AutoBridge]: auto_bridge/src/lib.rs. [TokenBridge]: token_bridge and the
      withdrawals of the dashboard. [TokenBridgeSpec], [TokenBridgeSearch] have the
      theorems.

    ** What the theorems show

    The ledger: its fields keep their widths and its in flight flag matches its
    start time ([debt_keeper_wf]); every decision is that of the reference
    definition, when the amounts that are computed fit their width
    ([send_update_refines]); the ledger of a neighbour is the sum of
    what happened ([ledger_conservation]); a neighbour is paid at most once
    until the payment settles or times out ([no_double_payment]); what receiving
    and settling a payment change, when a tunnel is suspended, and that a round
    gives each neighbour exactly one verdict ([DebtRound]); debts survive a
    restart ([save_load_roundtrip]).

    Validation: a payment counts at most once however often it is replayed
    ([payment_accepted_once]), the books stay consistent and the panics of
    development builds are unreachable ([tick_keeps_books]), which chain
    transactions are accepted and what that changes ([xdai_acceptance]), and
    that nothing stays pending for ever ([tick_gives_up]).

    Payment: no payment is lost or published twice in a tick
    ([tick_accounts_for_every_payment]) or over any number of rounds of the fast
    loop ([payments_never_lost]), and notifications end ([resends_end]).

    Billing: prices ([destination_prices]), the bill of a round as a sum over
    the raw counters ([watch_bills]), and the income of a relay
    ([relay_earns_fee]). Babeld's dump reads back as written
    ([dump_roundtrip]), also when it arrives in pieces ([answer_in_pieces]);
    reading the counters of the packet filter loses no byte of a WireGuard
    interface ([ipset_read_conserves]).

    Tunnels: whatever the kernel and babeld answer, ports stay distinct, speeds
    within the settings and no event panics ([tunnels_consistent]); what a hello
    changes ([open_tunnel_spec]) and that it leaves no interface behind when it
    fails ([open_tunnel_interfaces]); two routers that exchange hellos agree on
    the tunnel ([hello_exchange_agrees]); which tunnels are collected
    ([gc_exact]); that a round of the debt keeper is enforced by
    the limits traffic_control.rs sets ([verdicts_enforced]); and that the monitor raises a speed only after long
    quiet ([speed_raised_slowly]).

    Exits: what a round bills a client ([exit_round_bills]), over any number of
    rounds each byte once ([every_byte_billed_once]); the client's own estimate
    covers the bill ([estimate_covers_bill]) and the answer of the exit makes
    the two ledgers mirror each other, up to what was paid ([ledgers_mirrored]). A client keeps its
    addresses and shares them with nobody ([addresses_stable_unique]), they lie
    in the networks of the exit ([addresses_in_place]); a client in a region the
    exit does not allow is in no tunnel configuration that is written from the next
    pass on ([region_enforced_next_pass]); limits follow the verdicts
    ([enforcement_verdicts]); the bulk lookup of gateways is the plain one
    ([bulk_lookup_equiv]); WireGuard has exactly the peers of the exit
    ([exit_peers_exact]); and a client reads over the encrypted channel what the
    exit decided ([setup_over_the_wire], [status_end_to_end]). The operator fee
    adds up ([operator_fee_adds_up]).

    Choosing an exit: what is selected is usable ([selected_exit_safe]), a dead
    exit is left for the best one ([failover_to_best]), small differences do not
    move a client ([no_flapping]), and neither the switcher nor the tick around
    it panics ([switcher_never_panics], [exit_tick_total]).

    Forwarding: messages read back as sent ([forwarding_roundtrip]) and the
    antenna gets what the other side's streams sent, once it has all arrived
    ([relay_delivers]).

    Registration: the contract never holds two entries that share a component,
    and its marks match ([contract_books], [access_control]); a pass of the
    server against the contract has the effect it should ([pass_refines]), empties
    a queue the contract can take ([queue_drains]) and registers only clients
    that were confirmed ([registered_only_confirmed]); texts are limited
    ([texts_limited]); exits that are published are read back
    ([exits_published]), clients are found by their key ([client_lookup]), and
    answers of whole words never make a parser panic ([whole_answers_parse]).

    The bridge: an iteration makes exactly the requests it should
    ([conveyor_belt_exact]) and the search for withdrawals finds all of them and
    no others ([search_complete]).

    The router itself: the committed configuration of a port changes as a
    whole or not at all, whichever commands fail, and what else is left behind when
    they do ([mode_change_atomic]); no value that could break the configuration
    gets into the wireless settings, and which values make the check panic
    ([wifi_values_safe]); the kept default route is never the tunnel
    ([kept_route_never_tunnel]), the name servers of a gateway bypass the tunnel
    ([nameservers_bypass_tunnel]), a router reboots at the first failed test
    more than ten minutes after the last contact ([rescue_reboot_exact]), heartbeats are read by the server
    ([heartbeat_received]), what the operator may and may not change
    ([merge_spares_forbidden], [update_applies]), what iw prints of a station is
    read back ([stations_read_back]), a router keeps its identity over restarts
    ([identity_survives]), settings behind an adaptor behave like settings in
    memory ([adaptor_transparent]), and answers of the dashboard need its password
    ([answers_protected]).

    Some theorems describe behaviour the code does not intend: a payment that
    could not be published is both reported as failed and kept in the queue
    ([rejected_payment_paid_twice]); a stale oracle ends a round after marking a
    payment in flight ([aborted_round_blocks_payment]); every eleventh pending
    payment is left out of a tick ([batches_skip_eleventh]); emptying a shared
    queue ([drain_terminates_iff]) and waiting for babeld
    ([read_babel_termination]) need not end; debts in the old file format are
    dropped and its path is changed to a wrong one ([json_debts_discarded],
    [json_path_lost]); an address check can be stepped around
    ([imhere_in_hello_envelope]); the switcher can move to an exit it has not
    tracked ([switch_to_untracked]) and sets up the tunnel of that tick from two
    exits' details ([switch_mixes_details]); an exit forgets what it has set up
    ([setup_forgets]) and limits clients before their flows exist
    ([enforcement_without_flows]); short packets end a session or panic
    ([malformed_packets]); a single client can stop the registration of all
    others ([poisoned_queue]); a withdrawal from xDai to Ethereum is never sent,
    although it is answered that it is on its way ([withdrawals_never_sent],
    [accepted_withdrawal_dropped]); requests of the network monitor are erased
    before they are carried out ([shaping_request_erased]); a hello that fails
    holds up the others ([failed_hello_blocks_rest]); a change of the settings
    between a read and a write of another thread is lost ([stale_write]); a request
    to the dashboard without a password is carried out before it is refused
    ([missing_password_executed]); the check of the local network panics or
    compares single bits ([subnet_check_panics], [subnet_check_release]).

    ** Modelling choices

    Stateful code is state passing in the monad [M] or, where only panics
    matter, a function to [option]. Integers are [Z] with the wrap or panic of
    the build written out ([native]); theorems about exact arithmetic have the
    bounds as hypotheses. A hash map or set is a [gmap] over the key its
    equality looks at; the order a hash map is walked in is an argument where
    it matters and the key order elsewhere, and no theorem depends on it.
    Network and chain answers, clocks and random numbers are arguments; crates
    that are not in the repository (num256, bincode, protobuf decoding, float
    and network parsing, serde_json, the box of sodiumoxide, ipnetwork, clarity,
    web30, phonenumber, lettre, base64, ipgen, mac_address) are parameters or
    classes with named laws. A command of the system is answered by a class
    [Shell] that may look at all commands before it; text is a list of
    bytes, taken for ASCII where a position counts characters, except in the checks
    of the wireless settings, which see characters of several bytes. What code asks
    of a text message service, and of the kernel above that interface, is a list of
    actions. The [f32] arithmetic of the shaper is IEEE binary32 from the Standard
    Library; that of the network monitor is a parameter, with exact arithmetic for
    the theorems on mean and variance. The contract is modelled like the rest of
    the program, with a transaction that reverts leaving it as it was; the layout
    of its answers is the one the comments of the parsers show.

    Fuel appears in emptying the incoming queue, where the length of the queue
    plus one is enough, in reading from babeld, where one more than the number
    of reads is enough (both have a theorem that no fuel helps in the remaining
    case), in looking for a free interface number, where the number of links
    plus one always is ([first_free_total]), in the loops of the forwarding
    protocol, where it counts the reads the stream answers, in cutting an answer
    into words, where its length is enough, in reading what iw prints, where the
    number of words is enough ([stat_loop_fuel]), in walking numbered directories,
    where their number is enough ([sensors_read]), and in drawing a private key,
    where the number of draws up to a valid one is enough ([eth_key_found]).

    ** Not modelled

    Logging; HTTP and TCP plumbing; the endpoints of the dashboards that only show
    what the modelled parts keep; the binaries, which read the command line and
    start threads, and the watchdogs that start a thread again when it panicked;
    finding the antenna; the extender; one time migrations; the integration tests.
    Of the usage tracker the reading of the file at start up is left out, of the
    oracle and the fee manager the requests to the chain, of babel_monitor opening
    the socket, of the client loop cutting the log file, of the registration
    contract its events and the queries the program does not ask. *)
From stdpp Require Export base tactics list gmap strings numbers sorting.
#[export] Set Default Goal Selector "!".
Open Scope Z_scope.

(** * Outcomes of a Rust call

    A method [&mut self -> Result<A, E>] leaves a new [self] behind on both the
    [Ok] and the [Err] path, and may panic instead of returning. *)
Inductive outcome (S E A : Type) : Type :=
| Done (s : S) (a : A)
| Fail (s : S) (e : E)
| Panic.
Arguments Done {S E A} s a.
Arguments Fail {S E A} s e.
Arguments Panic {S E A}.

(** The state and error monad of those calls. *)
Definition M (S E A : Type) : Type := S -> outcome S E A.

Definition ret {S E A} (a : A) : M S E A := fun s => Done s a.
Definition bind {S E A B} (m : M S E A) (k : A -> M S E B) : M S E B :=
  fun s => match m s with
           | Done s' a => k a s'
           | Fail s' e => Fail s' e
           | Panic => Panic
           end.
Definition throw {S E A} (e : E) : M S E A := fun s => Fail s e.
Definition panic {S E A} : M S E A := fun _ => Panic.
Definition get_st {S E} : M S E S := fun s => Done s s.
Definition modify {S E} (f : S -> S) : M S E unit := fun s => Done (f s) tt.

(** [unwrap o] is [o.unwrap()], and also the result of an arithmetic operator
    that panics when it overflows. *)
Definition unwrap {S E A} (o : option A) : M S E A :=
  fun s => match o with Some a => Done s a | None => Panic end.

(** [ok_or o e] is [o.ok_or(e)?]. *)
Definition ok_or {S E A} (o : option A) (e : E) : M S E A :=
  fun s => match o with Some a => Done s a | None => Fail s e end.

(** [let _ = m;] : the error of [m] is discarded, its state is kept. *)
Definition ignore_err {S E A} (m : M S E A) : M S E unit :=
  fun s => match m s with
           | Done s' _ => Done s' tt
           | Fail s' _ => Done s' tt
           | Panic => Panic
           end.

Declare Scope rita_scope.
Delimit Scope rita_scope with rita.
Open Scope rita_scope.
Notation "'let!' x ':=' c 'in' k" := (bind c (fun x => k))
  (at level 10, x pattern, c at level 100, k at level 200) : rita_scope.
Notation "c ';!' k" := (bind c (fun _ => k))
  (at level 199, k at level 200, right associativity) : rita_scope.

(** The state left behind by a call that did not panic. *)
Definition outcome_state {S E A} (r : outcome S E A) : option S :=
  match r with Done s _ => Some s | Fail s _ => Some s | Panic => None end.

Create HintDb rita.

(** Run a monadic body symbolically: unfold the combinators and split every test
    it makes, with the hypotheses simplified on the way. *)
Ltac unfold_monad :=
  unfold bind, ret, throw, panic, get_st, modify, unwrap, ok_or, ignore_err in *.
Ltac run_monad :=
  repeat (unfold_monad; simplify_eq/=; try case_match; try discriminate); simplify_eq/=.

(** Inversion of a call that returned [Ok]. *)
Lemma bind_done {S E A B} (m : M S E A) (k : A -> M S E B) s s' b :
  bind m k s = Done s' b -> exists s1 a, m s = Done s1 a /\ k a s1 = Done s' b.
Proof. unfold bind. destruct (m s) as [s1 a| |]; [eauto|done..]. Qed.
Lemma unwrap_done {S E A} (o : option A) (s s' : S) a :
  unwrap (E := E) o s = Done s' a -> s' = s /\ o = Some a.
Proof. unfold unwrap. destruct o; intros [=]; by subst. Qed.

(** * Machine integers *)

Definition U8_MAX : Z := 255.
Definition U16_MAX : Z := 65535.
Definition U32_MAX : Z := 4294967295.
Definition U64_MAX : Z := 18446744073709551615.
Definition U128_MAX : Z := 340282366920938463463374607431768211455.
Definition I128_MAX : Z := 170141183460469231731687303715884105727.
Definition I128_MIN : Z := - I128_MAX - 1.
Definition I256_MAX : Z := 2 ^ 255 - 1.
Definition I256_MIN : Z := - I256_MAX - 1.
Definition U256_MAX : Z := 2 * I256_MAX + 1.

Definition in_range (lo hi x : Z) : bool := (lo <=? x) && (x <=? hi).
Abbreviation is_u32 := (in_range 0 U32_MAX).
Abbreviation is_u64 := (in_range 0 U64_MAX).
Abbreviation is_i128 := (in_range I128_MIN I128_MAX).
Abbreviation is_u256 := (in_range 0 U256_MAX).
Abbreviation is_i256 := (in_range I256_MIN I256_MAX).

Lemma in_range_spec lo hi x : in_range lo hi x = true <-> lo <= x <= hi.
Proof. unfold in_range. rewrite andb_true_iff, !Z.leb_le. done. Qed.

Lemma in_range_false lo hi x : in_range lo hi x = false <-> ~ (lo <= x <= hi).
Proof. rewrite <- in_range_spec. by destruct (in_range lo hi x). Qed.

Lemma I256_MAX_large : I128_MAX < I256_MAX.
Proof. unfold I128_MAX, I256_MAX. reflexivity. Qed.

(** Linear arithmetic with the 256 bit bounds kept symbolic. *)
Ltac lia256 :=
  pose proof I256_MAX_large;
  repeat match goal with
         | H : in_range _ _ _ = true |- _ => apply in_range_spec in H
         | H : in_range _ _ _ = false |- _ => apply in_range_false in H
         | |- in_range _ _ _ = true => apply in_range_spec
         | |- in_range _ _ _ = false => apply in_range_false
         end;
  unfold I128_MAX, U256_MAX, I256_MIN in *; lia.

(** The primitive integers of the language.  A build with overflow checks
    panics when [+], [-] or [*] leaves the type ([None]); a release build, whose
    profile in Cargo.toml does not turn the checks on, wraps.  The other two
    fields are what the [cfg!] tests of the code read: [dev_build] is
    [feature = development], [feature = integration_test] or [test]. *)
Class Profile := {
  overflow_checks : bool;
  dev_build : bool;
  legacy_integration_test : bool;
}.
Definition release_profile : Profile := {|
  overflow_checks := false; dev_build := false; legacy_integration_test := false |}.
Definition debug_profile : Profile := {|
  overflow_checks := true; dev_build := true; legacy_integration_test := false |}.

Definition wrap_i (lo hi x : Z) : Z := (x - lo) mod (hi - lo + 1) + lo.

Definition native (lo hi : Z) `{Profile} (x : Z) : option Z :=
  if in_range lo hi x then Some x
  else if overflow_checks then None else Some (wrap_i lo hi x).

Definition u8_of `{Profile} : Z -> option Z := native 0 U8_MAX.
Definition u32_of `{Profile} : Z -> option Z := native 0 U32_MAX.
Definition u64_of `{Profile} : Z -> option Z := native 0 U64_MAX.
Definition i128_of `{Profile} : Z -> option Z := native I128_MIN I128_MAX.

Lemma native_exact `{Profile} lo hi x : lo <= x <= hi -> native lo hi x = Some x.
Proof. intros Hx. unfold native. by rewrite (proj2 (in_range_spec _ _ _) Hx). Qed.

Lemma wrap_i_range lo hi x : lo <= hi -> lo <= wrap_i lo hi x <= hi.
Proof.
  intros H. unfold wrap_i. pose proof (Z.mod_pos_bound (x - lo) (hi - lo + 1)). lia.
Qed.

Lemma native_range `{Profile} lo hi x y : lo <= hi -> native lo hi x = Some y -> lo <= y <= hi.
Proof.
  unfold native. intros Hlh. destruct (in_range lo hi x) eqn:E.
  - intros [= <-]. by apply in_range_spec.
  - destruct overflow_checks; intros [= <-]. by apply wrap_i_range.
Qed.

(** * The num256 crate

    [Uint256] and [Int256] come from a crate that is not part of the
    repository.  Its operators are a parameter; a [None] is a panic for the
    operators and the documented [None] for the checked operations.  The laws
    are the documented behaviour the code relies on: exact results while they
    fit, results always of the type.  Nothing is assumed about an operator that
    overflows, except for what its result type says. *)
Class Num256 := {
  u_add : Z -> Z -> option Z;
  u_sub : Z -> Z -> option Z;
  u_mul : Z -> Z -> option Z;
  u_div : Z -> Z -> option Z;
  u_checked_mul : Z -> Z -> option Z;
  i_add : Z -> Z -> option Z;
  i_sub : Z -> Z -> option Z;
  i_mul : Z -> Z -> option Z;
  i_abs : Z -> option Z;
  to_int256 : Z -> option Z;
  to_uint256 : Z -> option Z;
}.

Class Num256Laws `(N : Num256) : Prop := {
  u_add_exact x y : is_u256 (x + y) = true -> u_add x y = Some (x + y);
  u_add_range x y z : u_add x y = Some z -> is_u256 z = true;
  u_sub_exact x y : is_u256 (x - y) = true -> u_sub x y = Some (x - y);
  u_sub_range x y z : u_sub x y = Some z -> is_u256 z = true;
  u_mul_exact x y : is_u256 (x * y) = true -> u_mul x y = Some (x * y);
  u_mul_range x y z : u_mul x y = Some z -> is_u256 z = true;
  u_div_exact x y : is_u256 x = true -> 0 < y -> u_div x y = Some (x / y);
  u_div_zero x : u_div x 0 = None;
  u_checked_mul_spec x y :
    is_u256 x = true -> is_u256 y = true ->
    u_checked_mul x y = if is_u256 (x * y) then Some (x * y) else None;
  i_add_exact x y : is_i256 (x + y) = true -> i_add x y = Some (x + y);
  i_add_range x y z : i_add x y = Some z -> is_i256 z = true;
  i_sub_exact x y : is_i256 (x - y) = true -> i_sub x y = Some (x - y);
  i_sub_range x y z : i_sub x y = Some z -> is_i256 z = true;
  i_mul_exact x y : is_i256 (x * y) = true -> i_mul x y = Some (x * y);
  i_mul_range x y z : i_mul x y = Some z -> is_i256 z = true;
  i_abs_exact x : is_i256 x = true -> x <> I256_MIN -> i_abs x = Some (Z.abs x);
  to_int256_spec x : is_u256 x = true -> to_int256 x = if is_i256 x then Some x else None;
  to_uint256_spec x : is_i256 x = true -> to_uint256 x = if 0 <=? x then Some x else None;
}.

Section instances.
(** Two instances: one that panics on overflow and one that wraps.  The laws
    hold of both, so they can be met and do not decide what overflow does. *)
Definition checked (lo hi x : Z) : option Z := if in_range lo hi x then Some x else None.
Definition wrapped (lo hi x : Z) : option Z := Some (wrap_i lo hi x).

Definition num256_of (arith : Z -> Z -> Z -> option Z) : Num256 := {|
  u_add x y := arith 0 U256_MAX (x + y);
  u_sub x y := arith 0 U256_MAX (x - y);
  u_mul x y := arith 0 U256_MAX (x * y);
  u_div x y := if y =? 0 then None else Some (x / y);
  u_checked_mul x y := checked 0 U256_MAX (x * y);
  i_add x y := arith I256_MIN I256_MAX (x + y);
  i_sub x y := arith I256_MIN I256_MAX (x - y);
  i_mul x y := arith I256_MIN I256_MAX (x * y);
  i_abs x := arith I256_MIN I256_MAX (Z.abs x);
  to_int256 x := checked I256_MIN I256_MAX x;
  to_uint256 x := if 0 <=? x then Some x else None;
|}.

Lemma checked_exact lo hi x : in_range lo hi x = true -> checked lo hi x = Some x.
Proof. unfold checked. by intros ->. Qed.
Lemma checked_range lo hi x z : checked lo hi x = Some z -> in_range lo hi z = true.
Proof. unfold checked. destruct (in_range lo hi x) eqn:E; intros [= <-]; done. Qed.
Lemma wrapped_exact lo hi x : in_range lo hi x = true -> wrapped lo hi x = Some x.
Proof.
  intros H%in_range_spec. unfold wrapped, wrap_i. f_equal. rewrite Z.mod_small; lia.
Qed.
Lemma wrapped_range lo hi x z :
  lo <= hi -> wrapped lo hi x = Some z -> in_range lo hi z = true.
Proof. intros H [= <-]. apply in_range_spec, wrap_i_range, H. Qed.

Lemma num256_of_laws arith :
  (forall lo hi x, in_range lo hi x = true -> arith lo hi x = Some x) ->
  (forall lo hi x z, lo <= hi -> arith lo hi x = Some z -> in_range lo hi z = true) ->
  Num256Laws (num256_of arith).
Proof.
  intros Hex Hrg. constructor; simpl; intros;
    try (by apply Hex); try (by eapply Hrg; [|eassumption]; lia256).
  - destruct (Z.eqb_spec y 0); [lia|done].
  - done.
  - done.
  - apply Hex. lia256.
  - done.
  - done.
Qed.
End instances.

Definition Num256_panicking : Num256 := num256_of checked.
Definition Num256_wrapping : Num256 := num256_of wrapped.

#[export] Instance Num256_panicking_laws : Num256Laws Num256_panicking.
Proof. apply num256_of_laws; [apply checked_exact|intros; by eapply checked_range]. Qed.
#[export] Instance Num256_wrapping_laws : Num256Laws Num256_wrapping.
Proof. apply num256_of_laws; [apply wrapped_exact|intros; by eapply wrapped_range]. Qed.

(** * Time

    An [Instant] is a reading of the monotonic clock in nanoseconds.
    [Instant - Instant] saturates at zero; [checked_duration_since] is [None]
    when the other reading is later. *)
Definition NANOS : Z := 1000000000.
Definition secs (n : Z) : Z := n * NANOS.
Definition instant_sub (a b : Z) : Z := Z.max 0 (a - b).
Definition checked_duration_since (a b : Z) : option Z :=
  if a <? b then None else Some (a - b).

(** * Keyed collections

    A [HashSet] or [HashMap] compares its elements with the element type's own
    [Eq], which for some types of the program ignores a field.  Such a type has
    a [key] that decides its equality.  A set keeps the element inserted first,
    a map keeps the key inserted first and replaces the value. *)
Class Keyed (A K : Type) := key : A -> K.
#[export] Hint Mode Keyed ! - : typeclass_instances.

Section keyed.
Context {A K : Type} `{Keyed A K} `{Countable K}.

Definition hs_insert (x : A) (s : gmap K A) : gmap K A :=
  match s !! key x with Some _ => s | None => <[key x := x]> s end.
Definition hs_remove (x : A) (s : gmap K A) : gmap K A := delete (key x) s.
Definition hs_contains (x : A) (s : gmap K A) : bool := bool_decide (is_Some (s !! key x)).
Definition hs_elements (s : gmap K A) : list A := (map_to_list s).*2.

Definition hm_get {V} (x : A) (m : gmap K (A * V)) : option V := snd <$> m !! key x.
Definition hm_insert {V} (x : A) (v : V) (m : gmap K (A * V)) : gmap K (A * V) :=
  <[key x := (match m !! key x with Some (k, _) => k | None => x end, v)]> m.
Definition hm_entries {V} (m : gmap K (A * V)) : list (A * V) := (map_to_list m).*2.
Definition hm_keys {V} (m : gmap K (A * V)) : list A := (hm_entries m).*1.

(** Every entry is stored under the key of the element it holds. *)
Definition hs_wf (s : gmap K A) : Prop := forall k x, s !! k = Some x -> key x = k.
Definition hm_wf {V} (m : gmap K (A * V)) : Prop :=
  forall k x v, m !! k = Some (x, v) -> key x = k.

Lemma hm_get_insert_eq {V} x (v : V) m : hm_get x (hm_insert x v m) = Some v.
Proof. unfold hm_get, hm_insert. by rewrite lookup_insert_eq. Qed.

Lemma hm_get_insert_ne {V} x y (v : V) m :
  key x <> key y -> hm_get y (hm_insert x v m) = hm_get y m.
Proof. intros Hne. unfold hm_get, hm_insert. by rewrite lookup_insert_ne. Qed.

Lemma hm_get_insert_same {V} x y (v : V) m :
  key x = key y -> hm_get y (hm_insert x v m) = Some v.
Proof. intros Hxy. unfold hm_get. rewrite <- Hxy. apply hm_get_insert_eq. Qed.

Lemma hm_get_same {V} x y (m : gmap K (A * V)) : key x = key y -> hm_get x m = hm_get y m.
Proof. unfold hm_get. by intros ->. Qed.

Lemma hm_wf_empty {V} : hm_wf (V := V) ∅.
Proof. intros k x v Hk. by rewrite lookup_empty in Hk. Qed.

Lemma hm_wf_insert {V} x (v : V) m : hm_wf m -> hm_wf (hm_insert x v m).
Proof.
  intros Hm k y w. unfold hm_insert. rewrite lookup_insert.
  case_decide as Hk; [|apply Hm]. intros [= <- <-].
  destruct (m !! key x) as [[z u]|] eqn:Ez; [|done]. rewrite <- Hk. by eapply Hm.
Qed.

Lemma hs_wf_insert x s : hs_wf s -> hs_wf (hs_insert x s).
Proof.
  intros Hs k y. unfold hs_insert. destruct (s !! key x) eqn:E; [apply Hs|].
  rewrite lookup_insert. case_decide as Hk; [|apply Hs]. by intros [= <-].
Qed.

Lemma hs_wf_remove x s : hs_wf s -> hs_wf (hs_remove x s).
Proof.
  intros Hs k y. unfold hs_remove. rewrite lookup_delete_Some. intros [_ Hk]. by apply Hs.
Qed.

Lemma elem_of_hs_elements x s : hs_wf s -> x ∈ hs_elements s <-> s !! key x = Some x.
Proof.
  intros Hs. unfold hs_elements. rewrite list_elem_of_fmap. split.
  - intros ([k y] & -> & Hk). apply elem_of_map_to_list in Hk. simpl.
    by rewrite (Hs _ _ Hk).
  - intros Hx. exists (key x, x). split; [done|]. by apply elem_of_map_to_list.
Qed.
End keyed.
Arguments hs_insert : simpl never.
Arguments hm_insert : simpl never.
