(* ===== verification/Types.v ===== *)
(** The shared data of the program: identities, payments, denominations and
    chains (althea_types/src/interop.rs), the usage records
    (althea_types/src/user_info.rs), the payment settings
    (settings/src/payment.rs) and the error type of rita_common
    (rita_common/src/error.rs). *)
From S2P Require Import Prelude.

(** * Addresses *)

(** [std::net::IpAddr]; an address is its big endian value. *)
Inductive IpAddr := V4 (a : Z) | V6 (a : Z).

#[export] Instance IpAddr_eq_dec : EqDecision IpAddr.
Proof. solve_decision. Defined.
#[export] Program Instance IpAddr_countable : Countable IpAddr :=
  inj_countable' (fun i => match i with V4 a => inl a | V6 a => inr a end)
    (fun s => match s with inl a => V4 a | inr a => V6 a end) _.
Next Obligation. by intros []. Qed.

(** * Identities *)

(** An Ethereum address and a WireGuard key are fixed width byte strings that
    the program only compares; they are kept as their value. *)
Record Identity := {
  mesh_ip : IpAddr;
  eth_address : Z;
  wg_public_key : Z;
  nickname : option string;
}.

(** [impl PartialEq for Identity] and [impl Hash for Identity]: the nickname is
    left out of both. *)
Definition id_key : Type := IpAddr * Z * Z.
Definition identity_key (i : Identity) : id_key := (mesh_ip i, eth_address i, wg_public_key i).
#[export] Instance Identity_keyed : Keyed Identity id_key := identity_key.

Definition identity_eqb (a b : Identity) : bool :=
  bool_decide (mesh_ip a = mesh_ip b) && (eth_address a =? eth_address b)
  && (wg_public_key a =? wg_public_key b).

(** Equality of identities is the equality of their keys, and is an equivalence
    coarser than Leibniz equality. *)
#[export] Instance Identity_equiv : Equiv Identity := fun a b => identity_eqb a b = true.

Lemma identity_eqb_key a b : identity_eqb a b = true <-> identity_key a = identity_key b.
Proof.
  unfold identity_eqb, identity_key.
  rewrite !andb_true_iff, bool_decide_eq_true, !Z.eqb_eq. split.
  - by intros [[-> ->] ->].
  - by intros [= -> -> ->].
Qed.

#[export] Instance Identity_equivalence : Equivalence (≡@{Identity}).
Proof.
  split; red; unfold equiv, Identity_equiv; intros *; rewrite ?identity_eqb_key; congruence.
Qed.

#[export] Instance identity_key_proper : Proper ((≡) ==> (=)) identity_key.
Proof. intros a b Hab. by apply identity_eqb_key. Qed.

#[export] Instance hm_get_proper {V} :
  Proper ((≡) ==> (=) ==> (=)) (hm_get (A := Identity) (K := id_key) (V := V)).
Proof. intros a b Hab m ? <-. apply hm_get_same, identity_key_proper, Hab. Qed.

(** What a neighbour is told to open a WireGuard tunnel; [have_tunnel] is [None]
    when the sender does not know. *)
Record LocalIdentity := { wg_port : Z; have_tunnel : option bool; global : Identity }.

(** The derived [PartialEq], with the identities compared by their own. *)
Definition local_identity_eqb (a b : LocalIdentity) : bool :=
  (wg_port a =? wg_port b) && bool_decide (have_tunnel a = have_tunnel b)
  && identity_eqb (global a) (global b).

(** * Denominations and chains *)

Record Denom := { denom : string; decimal : Z }.

Definition DEBT_KEEPER_DENOM : string := "wei".
Definition DEBT_KEEPER_DENOM_DECIMAL : Z := 1000000000000000000.

Inductive SystemChain := Ethereum | Sepolia | Xdai | AltheaL1.
#[export] Instance SystemChain_eq_dec : EqDecision SystemChain.
Proof. solve_decision. Defined.

Definition chain_to_u8 (value : SystemChain) : Z :=
  match value with AltheaL1 => 1 | Ethereum => 2 | Sepolia => 3 | Xdai => 4 end.

Definition chain_of_u8 (value : Z) : SystemChain :=
  if value =? 1 then AltheaL1
  else if value =? 2 then Ethereum
  else if value =? 3 then Sepolia
  else if value =? 4 then Xdai
  else AltheaL1.

Definition chain_display (c : SystemChain) : string :=
  match c with
  | Ethereum => "Ethereum" | Sepolia => "Rinkeby" | Xdai => "Xdai" | AltheaL1 => "Althea"
  end.

Definition chain_from_str (s : string) : option SystemChain :=
  if String.eqb s "Ethereum" then Some Ethereum
  else if String.eqb s "Rinkeby" then Some Sepolia
  else if String.eqb s "Sepolia" then Some Sepolia
  else if String.eqb s "Testnet" then Some Sepolia
  else if String.eqb s "Test" then Some Sepolia
  else if String.eqb s "Xdai" then Some Xdai
  else if String.eqb s "xdai" then Some Xdai
  else if String.eqb s "gnosis" then Some Xdai
  else if String.eqb s "gnosischain" then Some Xdai
  else if String.eqb s "Althea" then Some AltheaL1
  else if String.eqb s "althea" then Some AltheaL1
  else if String.eqb s "altheachain" then Some AltheaL1
  else if String.eqb s "GnosisChain" then Some Xdai
  else if String.eqb s "Gnosis" then Some Xdai
  else if String.eqb s "AltheaL1" then Some AltheaL1
  else if String.eqb s "altheal1" then Some AltheaL1
  else None.

(** * Payments *)

(** The fields of the two payment records carry a prefix only because Rocq
    projections share one name space. *)
Record PaymentTx := {
  tx_to : Identity;
  tx_from : Identity;
  tx_amount : Z;
  txid : Z;
}.

(** The derived [PartialEq] compares the fields, identities by their own [Eq]. *)
Definition tx_key : Type := id_key * id_key * Z * Z.
Definition paymenttx_key (p : PaymentTx) : tx_key :=
  (identity_key (tx_to p), identity_key (tx_from p), tx_amount p, txid p).
#[export] Instance PaymentTx_keyed : Keyed PaymentTx tx_key := paymenttx_key.

Record UnpublishedPaymentTx := {
  up_to : Identity;
  up_from : Identity;
  up_amount : Z;
}.

Definition publish (p : UnpublishedPaymentTx) (id : Z) : PaymentTx :=
  {| tx_to := up_to p; tx_from := up_from p; tx_amount := up_amount p; txid := id |}.

(** * Settings *)

(** The fields of [PaymentSettings] and of the node's common settings the
    modelled code reads or writes. *)
Record PaymentSettings := {
  max_fee : Z;
  balance_warning_level : Z;
  payment_threshold : Z;
  enable_enforcement : bool;
  settings_eth_private_key : option Z;
  settings_eth_address : option Z;
  althea_l1_accepted_denoms : list Denom;
  althea_l1_payment_denom : Denom;
  system_chain : SystemChain;
  debts_file : string;
  apply_incoming_credit_immediately : bool;
  debt_limit_enabled : bool;
  simulated_transaction_fee_address : Z;
  simulated_transaction_fee : Z;
  forgive_on_reboot : bool;
}.

Definition default_althea_l1_payment_denom : Denom := {| denom := "uUSDC"; decimal := 1000000 |}.

Definition PaymentSettings_default : PaymentSettings := {|
  max_fee := 200000000;
  balance_warning_level := 10000000000000000;
  payment_threshold := 300000000000000000;
  enable_enforcement := true;
  settings_eth_private_key := None;
  settings_eth_address := None;
  althea_l1_accepted_denoms := [default_althea_l1_payment_denom];
  althea_l1_payment_denom := default_althea_l1_payment_denom;
  system_chain := Xdai;
  debts_file := "/etc/rita-debts.bincode";
  apply_incoming_credit_immediately := false;
  debt_limit_enabled := true;
  simulated_transaction_fee_address := 0xee8bba37508cd6f9db7c8ad0ae2b3de0168c1b36;
  simulated_transaction_fee := 10;
  forgive_on_reboot := true;
|}.

(** The settings invariant [DebtKeeper::default] asserts ([get_pay_thresh() >= 0],
    [calculate_close_thresh() <= 0]), with the thresholds far enough from the
    ends of [Int256] for the close threshold and the debt limit to be exact. *)
Definition settings_ok (s : PaymentSettings) : Prop :=
  0 <= payment_threshold s /\ 10 * payment_threshold s + 1 <= I256_MAX.

(** * Errors *)

(** rita_common/src/tunnel_manager/error.rs. *)
Inductive TunnelError :=
| TunnelKernelError (s : string)
| NoFreePortsError.

(** An error of another crate is kept as its message. *)
Inductive RitaCommonError :=
| ConversionError (s : string)
| MiscStringError (s : string)
| DuplicatePayment
| KernelInterfaceError (s : string)
| StdError (s : string)
| BincodeError
| SysTimeError
| BabelMonitorError (s : string)
| TunnelManagerError (e : TunnelError).

(** * Usage records *)

Record Usage := { up : Z; down : Z; price : Z }.
Record IndexedUsageHour := {
  hour_index : Z; hour_up : Z; hour_down : Z; hour_price : Z;
}.

(** The integer a chain is stored as in the database, and the name it is
    printed with, both read back as the chain; every other byte reads as
    Althea L1. *)
Theorem chain_roundtrip (c : SystemChain) :
  chain_of_u8 (chain_to_u8 c) = c
  /\ chain_from_str (chain_display c) = Some c
  /\ forall b, chain_of_u8 b <> AltheaL1 -> 2 <= b <= 4.
Proof.
  split; [by destruct c|]. split; [by destruct c|].
  intros b. unfold chain_of_u8.
  repeat match goal with |- context [?x =? ?y] => destruct (Z.eqb_spec x y) end; lia || done.
Qed.
