(* ===== verification/Oracle.v ===== *)
(** The blockchain oracle (rita_common/src/blockchain_oracle/mod.rs): the
    payment and close thresholds and the cached balance and block height, with
    the currency conversion the oracle and the debt keeper share
    ([normalize_payment_amount] of rita_common/src/debt_keeper/mod.rs). *)
From S2P Require Import Prelude Types.

Module Normalize.
Section normalize.
Context `{N : Num256}.

Definition wei_denom : Denom :=
  {| denom := DEBT_KEEPER_DENOM; decimal := DEBT_KEEPER_DENOM_DECIMAL |}.

(** [None] is the panic of the overflowing multiplication or of the division
    by a zero decimal. *)
Definition normalize_payment_amount (amount : Z) (from_denom to_denom : Denom) : option Z :=
  if negb (String.eqb (denom from_denom) (denom to_denom)) then
    match u_checked_mul amount (decimal to_denom) with
    | Some unit_factor => u_div unit_factor (decimal from_denom)
    | None => None
    end
  else Some amount.

Context {L : Num256Laws N}.

Lemma normalize_same amount d : normalize_payment_amount amount d d = Some amount.
Proof. unfold normalize_payment_amount. by rewrite String.eqb_refl. Qed.

Lemma normalize_exact amount from to :
  denom from <> denom to -> is_u256 amount = true -> 0 < decimal from -> 0 <= decimal to ->
  is_u256 (decimal to) = true -> is_u256 (amount * decimal to) = true ->
  normalize_payment_amount amount from to = Some (amount * decimal to / decimal from).
Proof.
  intros Hne Ha Hf Ht Hto Hm. unfold normalize_payment_amount.
  rewrite (proj2 (String.eqb_neq _ _) Hne). simpl.
  rewrite u_checked_mul_spec, Hm by done. by apply u_div_exact.
Qed.
End normalize.
End Normalize.
Export Normalize.

Module Oracle.
Section oracle.
Context `{N : Num256} `{P : Profile}.

Definition CLOSE_THRESH_MULT : Z := 10.
Definition OUTDATED_TIME : Z := secs 300.

Record BlockchainOracle := {
  balance : option Z;
  last_seen_block : option Z;
  last_updated : option Z;
}.

Definition BlockchainOracle_new : BlockchainOracle :=
  {| balance := None; last_seen_block := None; last_updated := None |}.

Definition get_pay_thresh (s : PaymentSettings) : Z := payment_threshold s.

Definition calculate_close_thresh (s : PaymentSettings) : option Z :=
  let pay_thresh := get_pay_thresh s in
  m ← i_mul (-1) CLOSE_THRESH_MULT; i_mul m pay_thresh.

Definition set_oracle_balance (b : option Z) (o : BlockchainOracle) : BlockchainOracle :=
  {| balance := b; last_seen_block := last_seen_block o; last_updated := last_updated o |}.
Definition set_oracle_last_seen_block (b : Z) (o : BlockchainOracle) : BlockchainOracle :=
  {| balance := balance o; last_seen_block := Some b; last_updated := last_updated o |}.
Definition set_oracle_last_updated (t : Z) (o : BlockchainOracle) : BlockchainOracle :=
  {| balance := balance o; last_seen_block := last_seen_block o; last_updated := Some t |}.

Definition update_balance (new_balance : Z) (o : BlockchainOracle) : BlockchainOracle :=
  set_oracle_balance (Some new_balance) o.

Definition potential_payment_issues_detected (now : Z) (o : BlockchainOracle) : bool :=
  if legacy_integration_test then false
  else match last_updated o with
       | Some time => if OUTDATED_TIME <? instant_sub now time then true else false
       | None => true
       end.

(** The block height check both update functions start with: [None] when the
    new height is stale, and the oracle is then left alone. *)
Definition accept_block (latest_block now : Z) (o : BlockchainOracle) : option BlockchainOracle :=
  if match last_seen_block o with
     | Some seen => latest_block <? seen
     | None => false
     end
  then None
  else Some (set_oracle_last_updated now (set_oracle_last_seen_block latest_block o)).

(** The answers of the full node: [None] is a failed request. *)
Definition update_blockchain_info_gnosis (latest_block : option Z) (node_balance : option Z)
    (now : Z) (o : BlockchainOracle) : BlockchainOracle :=
  match latest_block with
  | None => o
  | Some latest_block =>
      match accept_block latest_block now o with
      | None => o
      | Some o => match node_balance with
                  | Some b => update_balance b o
                  | None => o
                  end
      end
  end.

Inductive ChainStatus := Moving (block_height : Z) | NotMoving.

(** [None] is the panic of [normalize_payment_amount]. The balance request
    answers with an error, with no coin or with an amount of [d]. *)
Definition update_blockchain_info_althea (status : option ChainStatus)
    (node_balance : option (option Z)) (d : Denom) (now : Z) (o : BlockchainOracle)
    : option BlockchainOracle :=
  match status with
  | Some (Moving latest_block) =>
      match accept_block latest_block now o with
      | None => Some o
      | Some o =>
          match node_balance with
          | Some (Some amount) =>
              b ← normalize_payment_amount amount d wei_denom; Some (update_balance b o)
          | Some None => Some (update_balance 0 o)
          | None => Some o
          end
      end
  | Some NotMoving => Some o
  | None => Some o
  end.

Definition low_balance (s : PaymentSettings) (o : BlockchainOracle) : bool :=
  match balance o with
  | Some val => val <? balance_warning_level s
  | None => false
  end.

Context {L : Num256Laws N}.

Lemma close_thresh_exact s :
  settings_ok s -> calculate_close_thresh s = Some (-10 * payment_threshold s).
Proof.
  intros [H0 H1]. unfold calculate_close_thresh, get_pay_thresh, CLOSE_THRESH_MULT.
  rewrite i_mul_exact by lia256. simpl. apply i_mul_exact. lia256.
Qed.

(** One answer of the full node, on either kind of chain. *)
Inductive oracle_step : BlockchainOracle -> BlockchainOracle -> Prop :=
| step_gnosis o blk bal now :
    oracle_step o (update_blockchain_info_gnosis blk bal now o)
| step_althea o st bal d now o' :
    update_blockchain_info_althea st bal d now o = Some o' -> oracle_step o o'.

Definition block_le (a b : option Z) : Prop :=
  match a, b with
  | Some x, Some y => x <= y
  | Some _, None => False
  | None, _ => True
  end.

#[export] Instance block_le_preorder : PreOrder block_le.
Proof.
  split; red; [by intros []; simpl|].
  intros [x|] [y|] [z|]; simpl; lia || done.
Qed.

Lemma accept_block_spec blk now o o' :
  accept_block blk now o = Some o' ->
  block_le (last_seen_block o) (Some blk) /\ last_seen_block o' = Some blk
  /\ last_updated o' = Some now /\ balance o' = balance o.
Proof.
  unfold accept_block. destruct (last_seen_block o) as [seen|]; simpl.
  - destruct (Z.ltb_spec blk seen) as [?|Hge]; intros [= <-]. by simpl.
  - intros [= <-]. by simpl.
Qed.

(** What one update may do: leave the oracle as it is, or move to a block that
    is not older. *)
Definition oracle_advance (o o' : BlockchainOracle) : Prop :=
  o' = o
  \/ (block_le (last_seen_block o) (last_seen_block o')
      /\ is_Some (last_seen_block o') /\ is_Some (last_updated o')).

Lemma accepted_advance blk now o o1 b :
  accept_block blk now o = Some o1 -> oracle_advance o (set_oracle_balance b o1).
Proof. intros (? & E & E' & _)%accept_block_spec. right. simpl. rewrite E, E'. eauto. Qed.

Lemma accepted_advance_self blk now o o1 :
  accept_block blk now o = Some o1 -> oracle_advance o o1.
Proof. intros H%(accepted_advance _ _ _ _ (balance o1)). by destruct o1. Qed.

Hint Resolve accepted_advance accepted_advance_self : rita.

Lemma oracle_step_advance o o' : oracle_step o o' -> oracle_advance o o'.
Proof.
  destruct 1 as [o blk bal now | o st bal d now o' Hst].
  - unfold update_blockchain_info_gnosis, update_balance. destruct blk as [blk|]; [|by left].
    destruct (accept_block blk now o) eqn:E; [|by left]. destruct bal; eauto with rita.
  - revert Hst. unfold update_blockchain_info_althea, update_balance.
    destruct st as [[h|]|]; [|intros [= <-]; by left..].
    destruct (accept_block h now o) eqn:E; [|intros [= <-]; by left].
    destruct bal as [[amt|]|]; [|intros [= <-]; eauto with rita..].
    destruct (normalize_payment_amount amt d wei_denom); intros [= <-]; eauto with rita.
Qed.
End oracle.
End Oracle.
Export Oracle.

(** The block height the oracle holds never goes backwards, whatever
    sequence of answers the full nodes give; and it holds a balance only when
    it holds a block and the time of its last update. *)
Theorem oracle_monotone `{N : Num256} {L : Num256Laws N} o o' :
  rtc oracle_step o o' -> 
  (is_Some (balance o) -> is_Some (last_seen_block o) /\ is_Some (last_updated o)) ->
  block_le (last_seen_block o) (last_seen_block o')
  /\ (is_Some (balance o') -> is_Some (last_seen_block o') /\ is_Some (last_updated o')).
Proof.
  induction 1 as [o|o o1 o2 H1%oracle_step_advance _ IH]; intros Hi; [split; [reflexivity|done]|].
  destruct H1 as [->|(Hle & Hb & Hu)]; [auto|].
  destruct IH as [Hle' Hi']; [auto|]. split; [by etrans|done].
Qed.

Definition oracle_demo : BlockchainOracle :=
  update_blockchain_info_gnosis (Some 7) (Some 5) 1 BlockchainOracle_new.

Lemma oracle_monotone_witness :
  balance oracle_demo = Some 5
  /\ block_le (last_seen_block BlockchainOracle_new) (last_seen_block oracle_demo).
Proof.
  split; [reflexivity|].
  apply (oracle_monotone (N := Num256_panicking) BlockchainOracle_new oracle_demo).
  - apply rtc_once. apply (step_gnosis (N := Num256_panicking)).
  - intros [? [=]].
Defined.

Lemma u256_le x y : 0 <= x <= y -> y <= U256_MAX -> is_u256 x = true.
Proof. intros. lia256. Qed.

(** Converting an amount from a coarser to a finer denomination and back
    returns it exactly; in the other order less than one coarse unit is lost and
    nothing is gained. The amount times the finer decimal has to fit in 256
    bits, or the conversion panics. *)
Theorem normalize_roundtrip `{N : Num256} {L : Num256Laws N} (coarse fine : Denom) k amount :
  denom coarse <> denom fine -> 0 < decimal coarse ->
  decimal fine = k * decimal coarse -> 0 < k -> decimal fine <= U64_MAX ->
  0 <= amount -> amount * decimal fine <= U256_MAX ->
  (x ← normalize_payment_amount amount coarse fine; normalize_payment_amount x fine coarse)
    = Some amount
  /\ exists y, (x ← normalize_payment_amount amount fine coarse;
                normalize_payment_amount x coarse fine) = Some y
     /\ y <= amount < y + k.
Proof.
  intros Hne Hc Hk Hk0 H64 Ha Hfit.
  assert (Hd : amount * decimal fine / decimal coarse = amount * k).
  { rewrite Hk, Z.mul_assoc. apply Z.div_mul. lia. }
  assert (Hd' : amount * decimal coarse / decimal fine = amount / k).
  { rewrite Hk, (Z.mul_comm k), (Z.mul_comm amount), Z.div_mul_cancel_l; lia. }
  pose proof (Z.div_mod amount k ltac:(lia)). pose proof (Z.mod_pos_bound amount k Hk0).
  assert (0 <= amount / k) by (apply Z.div_pos; lia).
  assert (Hu : forall x, 0 <= x <= U64_MAX -> is_u256 x = true).
  { intros x Hx. unfold U64_MAX in Hx. lia256. }
  assert (Hcf : decimal coarse <= decimal fine) by (rewrite Hk; nia).
  assert (Hfine : is_u256 (decimal fine) = true) by (apply Hu; lia).
  assert (Hcoarse : is_u256 (decimal coarse) = true) by (apply Hu; lia).
  assert (Hle : forall x, 0 <= x <= amount * decimal fine -> is_u256 x = true).
  { intros x Hx. by apply (u256_le _ _ Hx). }
  assert (Hamt : is_u256 amount = true) by (apply Hle; nia).
  split; [|exists (amount / k * k); split; [|lia]].
  - rewrite normalize_exact, Hd by (done || lia || (apply Hle; nia)). simpl.
    rewrite normalize_exact by (done || lia || (apply Hle; nia)).
    f_equal. rewrite <- Z.mul_assoc, <- Hk. apply Z.div_mul. lia.
  - rewrite normalize_exact, Hd' by (done || lia || (apply Hle; nia)). simpl.
    rewrite normalize_exact by (done || lia || (apply Hle; nia)).
    f_equal. rewrite Hk, Z.mul_assoc. apply Z.div_mul. lia.
Qed.

Lemma normalize_roundtrip_witness :
  (x ← @normalize_payment_amount Num256_panicking 6000000 default_althea_l1_payment_denom wei_denom;
   @normalize_payment_amount Num256_panicking x wei_denom default_althea_l1_payment_denom)
  = Some 6000000.
Proof.
  apply (normalize_roundtrip (N := Num256_panicking) default_althea_l1_payment_denom wei_denom
           1000000000000 6000000); vm_compute; congruence.
Defined.
