(* ===== verification/TxFee.v ===== *)
(** The simulated transaction fee (rita_common/src/simulated_txfee_manager/mod.rs):
    a fraction of every payment the node makes is owed to the maintainers and
    paid out when it passes the payment threshold. *)
From S2P Require Import Prelude Types Oracle.

Module TxFee.
Section txfee.
Context `{N : Num256}.

(** [AMOUNT_OWED]: one amount per network namespace, zero when there is none. *)
Abbreviation AmountOwed := (gmap Z Z).

Definition get_amount_owed (netns : Z) (g : AmountOwed) : Z := default 0 (g !! netns).

(** [None] is a panic: the fee is the divisor. *)
Definition add_tx_to_total (netns : Z) (s : PaymentSettings) (amount : Z) (g : AmountOwed)
    : option AmountOwed :=
  to_add ← u_div amount (simulated_transaction_fee s);
  owed ← u_add (get_amount_owed netns g) to_add;
  Some (<[netns := owed]> g).

(** [tick_simulated_tx] up to its first await: whether to pay, and how much.
    [None] is a panic, [Some None] the early returns. *)
Definition tick_begin (netns : Z) (s : PaymentSettings) (our_id : option Identity) (g : AmountOwed)
    : option (option Z) :=
  match settings_eth_private_key s with
  | None => None
  | Some _ =>
      match our_id with
      | None => Some None
      | Some _ =>
          let amount_to_pay := get_amount_owed netns g in
          a ← i_abs (get_pay_thresh s);
          threshold ← to_uint256 a;
          Some (if threshold <? amount_to_pay then Some amount_to_pay else None)
      end
  end.

Definition txfee_identity (s : PaymentSettings) : Identity := {|
  mesh_ip := V6 1;
  eth_address := simulated_transaction_fee_address s;
  wg_public_key := 0x60987114fbfe355794e5ef9e066c085c577fa5576093ad63507a23b92b7c214d;
  nickname := None;
|}.

(** The rest of the tick, run when the two requests have been answered:
    [sent] is the txid the full node returned, [None] if either request
    failed. Returns the payment reported to the usage tracker. *)
Definition tick_finish (netns : Z) (s : PaymentSettings) (our_id : Identity) (amount_to_pay : Z)
    (sent : option Z) (g : AmountOwed) : option (AmountOwed * option PaymentTx) :=
  match sent with
  | Some id =>
      let payment := {| tx_to := txfee_identity s; tx_from := our_id;
                        tx_amount := amount_to_pay; txid := id |} in
      let owed := get_amount_owed netns g in
      if amount_to_pay <=? owed then
        owed' ← u_sub owed amount_to_pay;
        Some (<[netns := owed']> g, Some payment)
      else Some (<[netns := owed]> g, Some payment)
  | None => Some (g, None)
  end.

(** The manager at work in one namespace: payments are registered while a fee
    payment may be waiting for the full node. *)
Record fee_state := {
  owed_map : AmountOwed;
  waiting : option Z;
  registered : Z;
  paid : Z;
}.

Inductive fee_step (netns : Z) (s : PaymentSettings) (our_id : Identity)
    : fee_state -> fee_state -> Prop :=
| fee_add st amount g' :
    is_u256 amount = true ->
    add_tx_to_total netns s amount (owed_map st) = Some g' ->
    get_amount_owed netns (owed_map st) + amount / simulated_transaction_fee s <= U256_MAX ->
    fee_step netns s our_id st {| owed_map := g'; waiting := waiting st;
      registered := registered st + amount / simulated_transaction_fee s; paid := paid st |}
| fee_begin st amount :
    waiting st = None ->
    tick_begin netns s (Some our_id) (owed_map st) = Some (Some amount) ->
    fee_step netns s our_id st {| owed_map := owed_map st; waiting := Some amount;
      registered := registered st; paid := paid st |}
| fee_paid st amount id g' p :
    waiting st = Some amount ->
    tick_finish netns s our_id amount (Some id) (owed_map st) = Some (g', p) ->
    fee_step netns s our_id st {| owed_map := g'; waiting := None;
      registered := registered st; paid := paid st + amount |}
| fee_failed st amount g' p :
    waiting st = Some amount ->
    tick_finish netns s our_id amount None (owed_map st) = Some (g', p) ->
    fee_step netns s our_id st {| owed_map := g'; waiting := None;
      registered := registered st; paid := paid st |}.

Definition fee_start : fee_state :=
  {| owed_map := ∅; waiting := None; registered := 0; paid := 0 |}.

Definition fee_inv (netns : Z) (st : fee_state) : Prop :=
  let owed := get_amount_owed netns (owed_map st) in
  is_u256 owed = true /\ paid st + owed = registered st
  /\ forall amount, waiting st = Some amount -> 0 <= amount <= owed.

Context {L : Num256Laws N}.

Lemma get_owed_insert netns v g : get_amount_owed netns (<[netns := v]> g) = v.
Proof. unfold get_amount_owed. by rewrite lookup_insert_eq. Qed.

Lemma fee_inv_step netns s our_id st st' :
  0 <= simulated_transaction_fee s ->
  fee_inv netns st -> fee_step netns s our_id st st' -> fee_inv netns st'.
Proof.
  intros Hfee (Hr & Hsum & Hw) Hst.
  destruct Hst as [st amount g' Ha Hadd Hfit|st amount Hn Hb|st amount id g' p Hn Hf
                  |st amount g' p Hn Hf]; unfold fee_inv; simpl.
  - destruct (decide (simulated_transaction_fee s = 0)) as [Hz|Hz].
    { unfold add_tx_to_total in Hadd. by rewrite Hz, u_div_zero in Hadd. }
    assert (0 <= amount / simulated_transaction_fee s) by (apply Z.div_pos; lia256).
    unfold add_tx_to_total in Hadd. rewrite u_div_exact in Hadd by (done || lia).
    simpl in Hadd. rewrite u_add_exact in Hadd by lia256. simplify_eq/=.
    rewrite get_owed_insert. split_and!; [lia256|lia|]. intros x Hx%Hw. lia.
  - split_and!; [done..|]. intros x [= <-].
    unfold tick_begin in Hb. destruct (settings_eth_private_key s); simplify_eq/=.
    destruct (i_abs _) as [a|]; simplify_eq/=. destruct (to_uint256 a) as [t|]; simplify_eq/=.
    destruct (Z.ltb_spec t (get_amount_owed netns (owed_map st))); simplify_eq/=. lia256.
  - specialize (Hw amount Hn). unfold tick_finish in Hf.
    rewrite (proj2 (Z.leb_le _ _)) in Hf by lia.
    rewrite u_sub_exact in Hf by lia256. simplify_eq/=. rewrite get_owed_insert.
    split_and!; [lia256|lia|done].
  - unfold tick_finish in Hf. simplify_eq/=. done.
Qed.
End txfee.
End TxFee.
Export TxFee.

(** Whatever the order of registered payments, fee payments and failed fee
    payments, what was paid to the maintainers plus what is still owed is
    exactly the fee registered, and a fee payment that is waiting for the full
    node never exceeds what is owed (the overpayment branch of the code cannot
    be reached). *)
Theorem fee_conservation `{N : Num256} {L : Num256Laws N} netns s our_id st :
  0 <= simulated_transaction_fee s ->
  rtc (fee_step netns s our_id) fee_start st ->
  paid st + get_amount_owed netns (owed_map st) = registered st
  /\ forall amount, waiting st = Some amount -> amount <= get_amount_owed netns (owed_map st).
Proof.
  intros Hfee Hrun. cut (fee_inv netns st); [intros (_ & ? & Hw); split; [done|apply Hw]|].
  assert (H0 : fee_inv netns fee_start) by (split_and!; done).
  revert H0. induction Hrun as [|st1 st2 st3 H12 _ IH]; [done|].
  intros H1. apply IH. by eapply fee_inv_step.
Qed.

Definition fee_demo : fee_state := {|
  owed_map := <[7 := 100]> ∅; waiting := None; registered := 100; paid := 0 |}.

Definition demo_identity : Identity :=
  {| mesh_ip := V6 3; eth_address := 1; wg_public_key := 5; nickname := None |}.

Lemma fee_conservation_witness :
  paid fee_demo + get_amount_owed 7 (owed_map fee_demo) = registered fee_demo.
Proof.
  apply (fee_conservation (N := Num256_panicking) 7 PaymentSettings_default demo_identity);
    [vm_compute; congruence|].
  apply rtc_once.
  apply (fee_add (N := Num256_panicking) 7 PaymentSettings_default demo_identity fee_start 1000
           (<[7 := 100]> ∅)); vm_compute; congruence.
Defined.
