(* ===== verification/DebtKeeper.v ===== *)
(** The debt keeper (rita_common/src/debt_keeper/mod.rs): who owes whom, when to
    pay, when to suspend a neighbour. One [Module] holds the data and the
    operations as the source has them; the theorems about them are in
    DebtKeeperSpec.v and their persistence in DebtStore.v. *)
From S2P Require Import Prelude Types Oracle TxFee.

Definition ETH_PAYMENT_SEND_TIMEOUT : Z := secs 600.

Module DebtKeeper.

Inductive DebtAction :=
| SuspendTunnel
| OpenTunnel
| MakePayment (to : Identity) (amount : Z).

Record NodeDebtData := {
  total_payment_received : Z;
  total_payment_sent : Z;
  debt : Z;
  incoming_payments : Z;
  action : DebtAction;
  payment_in_flight : bool;
  payment_in_flight_start : option Z;
  last_successful_payment : option Z;
}.

Definition NodeDebtData_new : NodeDebtData := {|
  total_payment_received := 0;
  total_payment_sent := 0;
  debt := 0;
  incoming_payments := 0;
  action := OpenTunnel;
  payment_in_flight := false;
  payment_in_flight_start := None;
  last_successful_payment := None;
|}.

Abbreviation DebtData := (gmap id_key (Identity * NodeDebtData)).
Abbreviation DebtDataSer := (list (Identity * NodeDebtData)).

Record DebtKeeper := { last_save : option Z; debt_data : DebtData }.

(** Assignments to the fields of a node. *)
Definition set_received (v : Z) (d : NodeDebtData) : NodeDebtData := {|
  total_payment_received := v; total_payment_sent := total_payment_sent d; debt := debt d;
  incoming_payments := incoming_payments d; action := action d;
  payment_in_flight := payment_in_flight d;
  payment_in_flight_start := payment_in_flight_start d;
  last_successful_payment := last_successful_payment d |}.
Definition set_sent (v : Z) (d : NodeDebtData) : NodeDebtData := {|
  total_payment_received := total_payment_received d; total_payment_sent := v; debt := debt d;
  incoming_payments := incoming_payments d; action := action d;
  payment_in_flight := payment_in_flight d;
  payment_in_flight_start := payment_in_flight_start d;
  last_successful_payment := last_successful_payment d |}.
Definition set_debt (v : Z) (d : NodeDebtData) : NodeDebtData := {|
  total_payment_received := total_payment_received d; total_payment_sent := total_payment_sent d;
  debt := v; incoming_payments := incoming_payments d; action := action d;
  payment_in_flight := payment_in_flight d;
  payment_in_flight_start := payment_in_flight_start d;
  last_successful_payment := last_successful_payment d |}.
Definition set_incoming (v : Z) (d : NodeDebtData) : NodeDebtData := {|
  total_payment_received := total_payment_received d; total_payment_sent := total_payment_sent d;
  debt := debt d; incoming_payments := v; action := action d;
  payment_in_flight := payment_in_flight d;
  payment_in_flight_start := payment_in_flight_start d;
  last_successful_payment := last_successful_payment d |}.
Definition set_action (a : DebtAction) (d : NodeDebtData) : NodeDebtData := {|
  total_payment_received := total_payment_received d; total_payment_sent := total_payment_sent d;
  debt := debt d; incoming_payments := incoming_payments d; action := a;
  payment_in_flight := payment_in_flight d;
  payment_in_flight_start := payment_in_flight_start d;
  last_successful_payment := last_successful_payment d |}.
Definition set_in_flight (b : bool) (start : option Z) (d : NodeDebtData) : NodeDebtData := {|
  total_payment_received := total_payment_received d; total_payment_sent := total_payment_sent d;
  debt := debt d; incoming_payments := incoming_payments d; action := action d;
  payment_in_flight := b; payment_in_flight_start := start;
  last_successful_payment := last_successful_payment d |}.
Definition set_last_success (t : option Z) (d : NodeDebtData) : NodeDebtData := {|
  total_payment_received := total_payment_received d; total_payment_sent := total_payment_sent d;
  debt := debt d; incoming_payments := incoming_payments d; action := action d;
  payment_in_flight := payment_in_flight d;
  payment_in_flight_start := payment_in_flight_start d;
  last_successful_payment := t |}.

Section operations.
Context `{N : Num256} `{P : Profile}.

Abbreviation NM A := (M NodeDebtData RitaCommonError A).
Abbreviation DM A := (M DebtKeeper RitaCommonError A).

(** ** Operations on one node's entry *)

(** Both limiting branches log [debt - close_threshold], an argument [info!]
    evaluates: the subtraction is part of the branch, with its overflow. *)
Definition debt_limit (debt close_threshold : Z) : option Z :=
  if debt <? close_threshold then
    _ ← i_sub debt close_threshold;
    i_sub close_threshold 1
  else
    a ← i_abs close_threshold;
    if a <? debt then
      _ ← i_sub debt close_threshold;
      a ← i_abs close_threshold;
      i_add a 1
    else Some debt.

Definition node_payment_failed (d : NodeDebtData) : NodeDebtData := set_in_flight false None d.

Definition node_payment_succeeded (now amount : Z) : NM unit :=
  modify (set_in_flight false None);!
  let! d := get_st in
  let! sent := unwrap (u_add (total_payment_sent d) amount) in
  modify (set_sent sent);!
  modify (set_last_success (Some now));!
  let! val := ok_or (to_int256 amount)
                (ConversionError "Failed to convert amount paid to Int256!") in
  let! new_debt := unwrap (i_sub (debt d) val) in
  modify (set_debt new_debt).

Definition node_payment_received (amount : Z) : NM unit :=
  let! d := get_st in
  let! received := unwrap (u_add (total_payment_received d) amount) in
  modify (set_received received);!
  let! incoming := unwrap (u_add (incoming_payments d) amount) in
  modify (set_incoming incoming);!
  let they_owe_us := debt d <? 0 in
  let! abs_debt := unwrap (a ← i_abs (debt d); to_uint256 a) in
  let incoming_greater_than_debt := abs_debt <? incoming in
  match they_owe_us, incoming_greater_than_debt with
  | true, true =>
      let! rest := unwrap (u_sub incoming abs_debt) in
      modify (set_incoming rest);!
      modify (set_debt 0)
  | true, false =>
      let! signed_incoming := ok_or (to_int256 incoming)
        (MiscStringError "Unsigned payment int too big! You're super rich now") in
      let! new_debt := unwrap (i_add (debt d) signed_incoming) in
      modify (set_debt new_debt);!
      modify (set_incoming 0)
  | false, _ => ret tt
  end.

Definition node_traffic_update (amount : Z) : NM unit :=
  let! d := get_st in
  let! new_debt := unwrap (i_add (debt d) amount) in
  modify (set_debt new_debt).

Definition node_traffic_replace (now amount : Z) (d : NodeDebtData) : NodeDebtData :=
  match payment_in_flight d, last_successful_payment d with
  | true, _ => d
  | false, Some val => if secs 15 <? instant_sub now val then set_debt amount d else d
  | false, None => set_debt amount d
  end.

Definition apply_debt_limit (s : PaymentSettings) (close_threshold : Z) : NM unit :=
  if debt_limit_enabled s then
    let! d := get_st in
    let! limited := unwrap (debt_limit (debt d) close_threshold) in
    modify (set_debt limited)
  else ret tt.

(** Send a zero payment to apply the credit that is waiting. *)
Definition apply_unapplied_credit : NM DebtAction :=
  modify (set_action OpenTunnel);!
  node_payment_received 0;!
  ret OpenTunnel.

(** The match of [send_update] on (should_close, should_pay, payment_in_flight). *)
Definition choose_action (s : PaymentSettings) (now : Z) (ident : Identity)
    (should_close should_pay in_flight : bool) : NM DebtAction :=
  let! d := get_st in
  match should_close, should_pay, in_flight with
  | true, true, _ => panic
  | true, false, _ =>
      if 0 <? incoming_payments d then apply_unapplied_credit
      else if enable_enforcement s then
        modify (set_action SuspendTunnel);! ret SuspendTunnel
      else
        modify (set_action OpenTunnel);! ret OpenTunnel
  | false, true, false =>
      let! to_pay := ok_or (to_uint256 (debt d))
        (ConversionError "Unable to convert debt data into unsigned 256 bit integer") in
      modify (set_in_flight true (Some now));!
      modify (set_action (MakePayment ident to_pay));!
      ret (MakePayment ident to_pay)
  | false, false, _ =>
      if apply_incoming_credit_immediately s && (0 <? incoming_payments d)
      then apply_unapplied_credit
      else modify (set_action OpenTunnel);! ret OpenTunnel
  | false, true, true =>
      match payment_in_flight_start d with
      | Some start_time =>
          if ETH_PAYMENT_SEND_TIMEOUT <? instant_sub now start_time then
            modify (set_in_flight false None)
          else ret tt
      | None => modify (set_in_flight false (payment_in_flight_start d))
      end;!
      modify (set_action OpenTunnel);!
      ret OpenTunnel
  end.

(** [send_update] on the entry of [ident]: the two tests are made before the
    debt is limited, the match runs on the limited debt. *)
Definition node_send_update (s : PaymentSettings) (now : Z) (ident : Identity) : NM DebtAction :=
  let! d := get_st in
  let! close_threshold := unwrap (calculate_close_thresh s) in
  let pay_threshold := get_pay_thresh s in
  let should_close := debt d <? close_threshold in
  let should_pay := pay_threshold <? debt d in
  let in_flight := payment_in_flight d in
  apply_debt_limit s close_threshold;!
  choose_action s now ident should_close should_pay in_flight.

(** ** Operations of the debt keeper *)

(** [get_debt_data_mut]: the entry of [ident], a default one if there is none, then the operation on it. *)
Definition on_entry {A} (ident : Identity) (m : NM A) : DM A :=
  fun dk =>
    let entry := default NodeDebtData_new (hm_get ident (debt_data dk)) in
    let store d := {| last_save := last_save dk;
                      debt_data := hm_insert ident d (debt_data dk) |} in
    match m entry with
    | Done d a => Done (store d) a
    | Fail d e => Fail (store d) e
    | Panic => Panic
    end.

Definition dk_payment_failed (to : Identity) : DM unit :=
  on_entry to (modify node_payment_failed).
Definition dk_payment_succeeded (now : Z) (to : Identity) (amount : Z) : DM unit :=
  on_entry to (node_payment_succeeded now amount).
Definition dk_payment_received (ident : Identity) (amount : Z) : DM unit :=
  on_entry ident (node_payment_received amount).
Definition dk_traffic_update (ident : Identity) (amount : Z) : DM unit :=
  on_entry ident (node_traffic_update amount).
Definition dk_traffic_replace (now : Z) (ident : Identity) (amount : Z) : DM unit :=
  on_entry ident (modify (node_traffic_replace now amount)).
Definition send_update (s : PaymentSettings) (now : Z) (ident : Identity) : DM DebtAction :=
  on_entry ident (node_send_update s now ident).

(** ** The module's functions, over its global state

    [DEBT_DATA] holds one debt keeper per network namespace, made by
    [DebtKeeper::default] on first use ([dflt], [None] if its asserts fail);
    [AMOUNT_OWED] is the state of the simulated fee manager. *)
Record World := { DEBT_DATA : gmap Z DebtKeeper; AMOUNT_OWED : gmap Z Z }.

Abbreviation WM A := (M World RitaCommonError A).

Definition get_debt_keeper_write_ref (netns : Z) (dflt : option DebtKeeper) (w : World)
    : option DebtKeeper :=
  match DEBT_DATA w !! netns with Some dk => Some dk | None => dflt end.

Definition with_debt_keeper {A} (netns : Z) (dflt : option DebtKeeper) (m : DM A) : WM A :=
  fun w =>
    match get_debt_keeper_write_ref netns dflt w with
    | None => Panic
    | Some dk =>
        let store dk := {| DEBT_DATA := <[netns := dk]> (DEBT_DATA w);
                           AMOUNT_OWED := AMOUNT_OWED w |} in
        match m dk with
        | Done dk a => Done (store dk) a
        | Fail dk e => Fail (store dk) e
        | Panic => Panic
        end
    end.

Definition payment_received (netns : Z) (dflt : option DebtKeeper)
    (from : Identity) (amount : Z) (d : Denom) : WM unit :=
  with_debt_keeper netns dflt
    (let! amount := unwrap (normalize_payment_amount amount d wei_denom) in
     dk_payment_received from amount).

Definition payment_failed (netns : Z) (dflt : option DebtKeeper) (to : Identity) : WM unit :=
  with_debt_keeper netns dflt (dk_payment_failed to).

Definition run_add_tx_to_total (netns : Z) (s : PaymentSettings) (amount : Z) : WM unit :=
  fun w => match add_tx_to_total netns s amount (AMOUNT_OWED w) with
           | Some g => Done {| DEBT_DATA := DEBT_DATA w; AMOUNT_OWED := g |} tt
           | None => Panic
           end.

Definition payment_succeeded (netns : Z) (dflt : option DebtKeeper) (s : PaymentSettings)
    (now : Z) (to : Identity) (amount : Z) (d : Denom) : WM unit :=
  with_debt_keeper netns dflt (ret tt);!
  let! amount := unwrap (normalize_payment_amount amount d wei_denom) in
  run_add_tx_to_total netns s amount;!
  with_debt_keeper netns dflt (dk_payment_succeeded now to amount).

Record Traffic := { traffic_from : Identity; traffic_amount : Z }.

Fixpoint traffic_updates (traffic : list Traffic) : DM unit :=
  match traffic with
  | [] => ret tt
  | t :: rest => dk_traffic_update (traffic_from t) (traffic_amount t);! traffic_updates rest
  end.

Definition traffic_update (netns : Z) (dflt : option DebtKeeper) (traffic : list Traffic) : WM unit :=
  with_debt_keeper netns dflt (traffic_updates traffic).

Definition gateway_traffic_update (netns : Z) (dflt : option DebtKeeper) (t : Traffic) : WM unit :=
  with_debt_keeper netns dflt (fun dk =>
    match find (fun id => identity_eqb id (traffic_from t)) (hm_keys (debt_data dk)) with
    | Some id => dk_traffic_update id (traffic_amount t) dk
    | None => Done dk tt
    end).

Definition traffic_replace (netns : Z) (dflt : option DebtKeeper) (now : Z) (t : Traffic) : WM unit :=
  with_debt_keeper netns dflt (dk_traffic_replace now (traffic_from t) (traffic_amount t)).

Inductive TunnelAction := PaymentOverdue | PaidOnTime.
Record TunnelChange := { tc_identity : Identity; tc_action : TunnelAction }.

(** What the environment answers while the debts are walked. *)
Record debt_env := {
  env_settings : PaymentSettings;
  env_now : Z;
  env_oracle : BlockchainOracle;
  env_our_id : option Identity;
}.

(** The loop of [send_debt_update] over [order], the keys of the cloned map in
    the order the hash map yields them. *)
Fixpoint send_updates (e : debt_env) (order : list Identity)
    (debts_message : list TunnelChange) (payments_to_send : list UnpublishedPaymentTx)
    : DM (list TunnelChange * list UnpublishedPaymentTx) :=
  match order with
  | [] => ret (debts_message, payments_to_send)
  | k :: rest =>
      let! a := send_update (env_settings e) (env_now e) k in
      match a with
      | SuspendTunnel =>
          send_updates e rest
            (debts_message ++ [{| tc_identity := k; tc_action := PaymentOverdue |}])
            payments_to_send
      | OpenTunnel =>
          send_updates e rest
            (debts_message ++ [{| tc_identity := k; tc_action := PaidOnTime |}])
            payments_to_send
      | MakePayment to amount =>
          if bool_decide (system_chain (env_settings e) = Xdai)
             && potential_payment_issues_detected (env_now e) (env_oracle e)
          then throw (MiscStringError "Potential payment issue detected")
          else
            match env_our_id e with
            | Some id =>
                send_updates e rest debts_message
                  (payments_to_send ++ [{| up_to := to; up_from := id; up_amount := amount |}])
            | None => throw (MiscStringError "Identity has no mesh IP ready yet")
            end
      end
  end.

(** The pair returned is what is handed to [tm_tunnel_state_change], whose
    error is only logged, and the payments returned to the fast loop. *)
Definition send_debt_update (netns : Z) (dflt : option DebtKeeper) (e : debt_env)
    (order : list Identity) : WM (list TunnelChange * list UnpublishedPaymentTx) :=
  with_debt_keeper netns dflt (send_updates e order [] []).

Definition get_debts_list (netns : Z) (dflt : option DebtKeeper) (w : World)
    : option (list (Identity * NodeDebtData)) :=
  dk ← get_debt_keeper_write_ref netns dflt w; Some (hm_entries (debt_data dk)).
End operations.
End DebtKeeper.
Export DebtKeeper.
