(* ===== verification/DebtKeeperSpec.v ===== *)
(** The properties of the debt keeper: a reference definition of every decision
    in unbounded arithmetic that the machine arithmetic implements, the
    conservation of money over any sequence of operations, and the payment
    state machine (at most one payment in flight per neighbour). *)
From S2P Require Import Prelude Types Oracle TxFee DebtKeeper.

(** * Well formed entries *)

Definition action_wf (a : DebtAction) : Prop :=
  match a with MakePayment _ amount => is_u256 amount = true | _ => True end.

(** Field ranges of the Rust types, and the pairing of the two in flight fields. *)
Record node_wf (d : NodeDebtData) : Prop := {
  wf_received : is_u256 (total_payment_received d) = true;
  wf_sent : is_u256 (total_payment_sent d) = true;
  wf_debt : is_i256 (debt d) = true;
  wf_incoming : is_u256 (incoming_payments d) = true;
  wf_action : action_wf (action d);
  wf_flight : payment_in_flight d = true <-> is_Some (payment_in_flight_start d);
}.

Definition dk_wf (dk : DebtKeeper) : Prop :=
  hm_wf (debt_data dk)
  /\ forall i d, hm_get i (debt_data dk) = Some d -> node_wf d.

(** * Reference definitions *)

(** The debt limit as a clamp to one more than the close threshold. *)
Definition clamp_debt (close debt : Z) : Z :=
  Z.max (close - 1) (Z.min (- close + 1) debt).

(** Credit applied to the debt: it pays off a negative debt and never turns it
    positive. *)
Definition apply_credit (amount : Z) (d : NodeDebtData) : NodeDebtData :=
  let credit := incoming_payments d + amount in
  let d := set_received (total_payment_received d + amount) d in
  if debt d <? 0
  then set_debt (Z.min 0 (debt d + credit)) (set_incoming (Z.max 0 (debt d + credit)) d)
  else set_incoming credit d.

(** The decision of one round, over unbounded integers. *)
Definition send_update_spec (s : PaymentSettings) (now : Z) (ident : Identity) (d : NodeDebtData)
    : NodeDebtData * DebtAction :=
  let close := -10 * payment_threshold s in
  let d1 := if debt_limit_enabled s then set_debt (clamp_debt close (debt d)) d else d in
  if debt d <? close then
    if 0 <? incoming_payments d then (apply_credit 0 (set_action OpenTunnel d1), OpenTunnel)
    else let a := if enable_enforcement s then SuspendTunnel else OpenTunnel in (set_action a d1, a)
  else if payment_threshold s <? debt d then
    if payment_in_flight d then
      (set_action OpenTunnel
         (if ETH_PAYMENT_SEND_TIMEOUT <? instant_sub now (default 0 (payment_in_flight_start d))
          then set_in_flight false None d1 else d1), OpenTunnel)
    else let a := MakePayment ident (debt d1) in
         (set_action a (set_in_flight true (Some now) d1), a)
  else
    (if apply_incoming_credit_immediately s && (0 <? incoming_payments d)
     then apply_credit 0 (set_action OpenTunnel d1) else set_action OpenTunnel d1, OpenTunnel).

Section exactness.
Context `{N : Num256} {L : Num256Laws N} `{P : Profile}.

(** The amounts one update computes with fit their types: with the debt limit
    on, the difference to the close threshold that the limit logs when it cuts
    the debt; with it off, the absolute value of the debt. *)
Definition update_fits (s : PaymentSettings) (d : NodeDebtData) : Prop :=
  if debt_limit_enabled s
  then debt d <= 10 * payment_threshold s \/ debt d + 10 * payment_threshold s <= I256_MAX
  else debt d <> I256_MIN.

Lemma debt_limit_exact s x :
  settings_ok s -> is_i256 x = true ->
  x <= 10 * payment_threshold s \/ x + 10 * payment_threshold s <= I256_MAX ->
  debt_limit x (-10 * payment_threshold s)
    = Some (clamp_debt (-10 * payment_threshold s) x).
Proof.
  intros [H0 H1] Hx Hfit. unfold debt_limit, clamp_debt.
  rewrite i_abs_exact by lia256. simpl. rewrite i_add_exact by lia256.
  destruct (Z.ltb_spec x (-10 * payment_threshold s)).
  - rewrite (i_sub_exact x) by lia256. simpl. rewrite i_sub_exact by lia256. f_equal; lia.
  - destruct (Z.ltb_spec (Z.abs (-10 * payment_threshold s)) x); [|f_equal; lia].
    rewrite (i_sub_exact x) by lia256. simpl. f_equal; lia.
Qed.

Lemma abs_debt_exact x : is_i256 x = true -> x <> I256_MIN -> 
  (a ← i_abs x; to_uint256 a) = Some (Z.abs x).
Proof.
  intros Hx Hne. rewrite i_abs_exact by done. simpl. rewrite to_uint256_spec by lia256.
  by rewrite (proj2 (Z.leb_le _ _)) by lia.
Qed.

Lemma received_exact amount d :
  node_wf d -> debt d <> I256_MIN -> 0 <= amount ->
  total_payment_received d + amount <= U256_MAX -> incoming_payments d + amount <= U256_MAX ->
  node_payment_received amount d = Done (apply_credit amount d) tt.
Proof.
  intros [Hr _ Hd Hi _ _] Hmin Ha Ht Hc. unfold node_payment_received, apply_credit.
  unfold_monad. rewrite !u_add_exact by lia256. rewrite abs_debt_exact by done. simpl.
  destruct (Z.ltb_spec (debt d) 0); simpl; [|done].
  destruct (Z.ltb_spec (Z.abs (debt d)) (incoming_payments d + amount)); simpl.
  - rewrite u_sub_exact by lia256. unfold set_debt, set_incoming; simpl.
    do 2 f_equal; lia.
  - rewrite to_int256_spec by lia256.
    rewrite (proj2 (in_range_spec _ _ _)) by lia256. simpl.
    rewrite i_add_exact by lia256. unfold set_debt, set_incoming; simpl. do 2 f_equal; lia.
Qed.

Definition limited (s : PaymentSettings) (d : NodeDebtData) : NodeDebtData :=
  if debt_limit_enabled s then set_debt (clamp_debt (-10 * payment_threshold s) (debt d)) d else d.

Lemma limited_exact s d :
  settings_ok s -> node_wf d -> update_fits s d ->
  apply_debt_limit s (-10 * payment_threshold s) d = Done (limited s d) tt.
Proof.
  intros Hs [_ _ Hd _ _ _]. unfold apply_debt_limit, limited, update_fits.
  destruct (debt_limit_enabled s); intros Hfit; unfold_monad; [|done]. by rewrite debt_limit_exact.
Qed.

Lemma limited_wf s d :
  settings_ok s -> node_wf d -> update_fits s d ->
  node_wf (limited s d) /\ debt (limited s d) <> I256_MIN.
Proof.
  intros [] Hd Hm. pose proof Hd as [Hr Hs Hdb Hi Ha Hf]. unfold limited.
  unfold update_fits in Hm. destruct (debt_limit_enabled s); [|done].
  split; [split|]; simpl; try done; unfold clamp_debt; lia256.
Qed.

Lemma set_action_wf a d : action_wf a -> node_wf d -> node_wf (set_action a d).
Proof. by intros ? []. Qed.

(** A zero payment applies the credit that is there. *)
Lemma apply_pending_exact d :
  node_wf d -> debt d <> I256_MIN ->
  apply_unapplied_credit d = Done (apply_credit 0 (set_action OpenTunnel d)) OpenTunnel.
Proof.
  intros Hd Hm. pose proof Hd as [Hr _ _ Hi _ _].
  unfold apply_unapplied_credit. unfold_monad. rewrite received_exact; [done|..]; simpl.
  - by apply set_action_wf.
  - done.
  - lia.
  - lia256.
  - lia256.
Qed.

Lemma send_update_exact s now ident d :
  settings_ok s -> node_wf d -> update_fits s d ->
  node_send_update s now ident d =
    let '(d', a) := send_update_spec s now ident d in Done d' a.
Proof.
  intros Hs Hd Hmin. pose proof (limited_wf s d Hs Hd Hmin) as [Hd1 Hm1].
  pose proof Hs as [Hs0 Hs1]. pose proof Hd as [_ _ Hdebt _ _ Hfl].
  unfold node_send_update, send_update_spec, get_pay_thresh, bind at 1 2 3, get_st, unwrap.
  rewrite close_thresh_exact, limited_exact by done. fold (limited s d).
  assert (Hl : incoming_payments (limited s d) = incoming_payments d
    /\ payment_in_flight_start (limited s d) = payment_in_flight_start d)
    by (unfold limited; by destruct (debt_limit_enabled s)).
  destruct Hl as [Ei Ef]. pose proof (apply_pending_exact _ Hd1 Hm1) as Hp.
  unfold choose_action. unfold_monad. rewrite Ei, Ef.
  destruct (Z.ltb_spec (debt d) (-10 * payment_threshold s)),
    (Z.ltb_spec (payment_threshold s) (debt d)); try lia.
  - destruct (0 <? incoming_payments d); [done|]. by destruct (enable_enforcement s).
  - destruct (payment_in_flight d) eqn:Efl.
    + destruct (proj1 Hfl eq_refl) as [t Et]. rewrite Et. simpl.
      by destruct (ETH_PAYMENT_SEND_TIMEOUT <? instant_sub now t).
    + pose proof (wf_debt _ Hd1). rewrite to_uint256_spec, (proj2 (Z.leb_le _ _)); [done| |done].
      unfold limited, clamp_debt. destruct (debt_limit_enabled s); simpl; lia.
  - destruct (apply_incoming_credit_immediately s); simpl; [|done].
    by destruct (0 <? incoming_payments d).
Qed.
End exactness.

(** * Sequences of operations *)

Inductive dk_op :=
| OpTraffic (id : Identity) (amount : Z)
| OpReplace (id : Identity) (amount : Z)
| OpReceived (id : Identity) (amount : Z)
| OpFailed (id : Identity)
| OpSucceeded (id : Identity) (amount : Z)
| OpUpdate (id : Identity).

Definition op_target (op : dk_op) : Identity :=
  match op with
  | OpTraffic i _ | OpReplace i _ | OpReceived i _ | OpFailed i | OpSucceeded i _ | OpUpdate i => i
  end.

(** The argument of an operation has the width of its Rust type. *)
Definition op_wf (op : dk_op) : Prop :=
  match op with
  | OpTraffic _ a | OpReplace _ a => is_i256 a = true
  | OpReceived _ a | OpSucceeded _ a => is_u256 a = true
  | OpFailed _ | OpUpdate _ => True
  end.

Section sequences.
Context `{N : Num256} `{P : Profile}.
Context (s : PaymentSettings).

Definition run_op (now : Z) (op : dk_op) : M DebtKeeper RitaCommonError (option DebtAction) :=
  match op with
  | OpTraffic i a => dk_traffic_update i a;! ret None
  | OpReplace i a => dk_traffic_replace now i a;! ret None
  | OpReceived i a => dk_payment_received i a;! ret None
  | OpFailed i => dk_payment_failed i;! ret None
  | OpSucceeded i a => dk_payment_succeeded now i a;! ret None
  | OpUpdate i => let! a := send_update s now i in ret (Some a)
  end.

(** Run timed operations in order, collecting the actions [send_update] asks
    for. An error keeps the state it left and the sequence goes on, as the
    callers do; a panic ends it ([None]). *)
Fixpoint exec (ops : list (Z * dk_op)) (dk : DebtKeeper)
    : option (DebtKeeper * list (option DebtAction)) :=
  match ops with
  | [] => Some (dk, [])
  | (now, op) :: rest =>
      match run_op now op dk with
      | Done dk' a => '(dk'', l) ← exec rest dk'; Some (dk'', a :: l)
      | Fail dk' _ => '(dk'', l) ← exec rest dk'; Some (dk'', None :: l)
      | Panic => None
      end
  end.

(** The same operation seen on the entry it is about. *)
Definition node_op (now : Z) (op : dk_op) : M NodeDebtData RitaCommonError (option DebtAction) :=
  match op with
  | OpTraffic _ a => node_traffic_update a;! ret None
  | OpReplace _ a => modify (node_traffic_replace now a);! ret None
  | OpReceived _ a => node_payment_received a;! ret None
  | OpFailed _ => modify node_payment_failed;! ret None
  | OpSucceeded _ a => node_payment_succeeded now a;! ret None
  | OpUpdate i => let! a := node_send_update s now i in ret (Some a)
  end.

Lemma on_entry_bind {A B} i (m : M NodeDebtData RitaCommonError A) (f : A -> B) dk :
  bind (on_entry i m) (fun a => ret (f a)) dk = on_entry i (bind m (fun a => ret (f a))) dk.
Proof. unfold on_entry, bind, ret. by destruct (m _). Qed.

Lemma run_op_node now op dk : run_op now op dk = on_entry (op_target op) (node_op now op) dk.
Proof.
  destruct op as [i a|i a|i a|i|i a|i]; [..|apply (on_entry_bind i _ Some)];
    apply (on_entry_bind i _ (fun _ => None)).
Qed.

Definition entry (i : Identity) (dk : DebtKeeper) : NodeDebtData :=
  default NodeDebtData_new (hm_get i (debt_data dk)).

Lemma run_op_entry_ne now op dk dk' i :
  outcome_state (run_op now op dk) = Some dk' -> key i <> key (op_target op) ->
  hm_get i (debt_data dk') = hm_get i (debt_data dk).
Proof.
  rewrite run_op_node. unfold on_entry. intros H Hne.
  case_match; simplify_eq/=; by rewrite hm_get_insert_ne.
Qed.

(** An operation runs on the entry of its target, whose new value it stores. *)
Lemma run_op_entry_eq now op dk i :
  key i = key (op_target op) ->
  match run_op now op dk, node_op now op (entry i dk) with
  | Done dk' a, Done d b => a = b /\ hm_get i (debt_data dk') = Some d
  | Fail dk' _, Fail d _ => hm_get i (debt_data dk') = Some d
  | Panic, Panic => True
  | _, _ => False
  end.
Proof.
  intros Hk. rewrite run_op_node. unfold on_entry, entry.
  rewrite (hm_get_same _ _ _ Hk).
  destruct (node_op now op _); simpl; rewrite ?(hm_get_insert_same _ i) by done; done.
Qed.
End sequences.

Section invariant.
Context `{N : Num256} {L : Num256Laws N} `{P : Profile} (s : PaymentSettings).

Lemma debt_limit_range x c y : is_i256 x = true -> debt_limit x c = Some y -> is_i256 y = true.
Proof.
  intros Hx. unfold debt_limit.
  destruct (x <? c); [destruct (i_sub x c); simpl; [apply i_sub_range|done]|].
  destruct (i_abs c) as [a|]; simpl; [|done]. destruct (a <? x); [|by intros [= <-]].
  destruct (i_sub x c); simpl; [apply i_add_range|done].
Qed.

Lemma to_uint256_range x y : is_i256 x = true -> to_uint256 x = Some y -> is_u256 y = true.
Proof.
  intros Hx. rewrite to_uint256_spec by done. destruct (Z.leb_spec 0 x); intros [= <-]. lia256.
Qed.

Hint Resolve debt_limit_range to_uint256_range u_add_range u_sub_range i_add_range i_sub_range
  : rita.

Lemma node_received_wf a d d' :
  node_wf d -> is_u256 a = true -> outcome_state (node_payment_received a d) = Some d' -> node_wf d'.
Proof.
  intros [Hr Hs Hd Hi Ha Hf] Hu. unfold node_payment_received. intros Hrun.
  run_monad; split; simpl; eauto with rita.
Qed.

Lemma node_update_wf now i d d' :
  node_wf d -> outcome_state (node_send_update s now i d) = Some d' -> node_wf d'.
Proof.
  intros Hd. unfold node_send_update, bind at 1 2, get_st at 1, unwrap at 1.
  destruct (calculate_close_thresh s) as [c|]; [|done]. unfold bind at 1.
  assert (Hlim : match apply_debt_limit s c d with
    | Done e _ => node_wf e /\ payment_in_flight e = payment_in_flight d
    | Fail _ _ => False | Panic => True end).
  { destruct Hd. unfold apply_debt_limit. run_monad; split; try split; simpl; eauto with rita. }
  destruct (apply_debt_limit s c d) as [e []|e x|]; [|done..]. destruct Hlim as [He Efl].
  assert (Hcred : forall r, outcome_state (apply_unapplied_credit e) = Some r -> node_wf r).
  { intros r. unfold apply_unapplied_credit, bind at 1 2, modify. intros Hr.
    apply (node_received_wf 0 (set_action OpenTunnel e)); [by apply set_action_wf|lia256|].
    by destruct (node_payment_received 0 _). }
  unfold choose_action, bind at 1, get_st. intros Hrun. pose proof He as [Hr1 Hs1 Hdb1 Hi1 Ha1 Hf1].
  run_monad; eauto; split; simpl; eauto with rita; naive_solver.
Qed.

Lemma node_op_wf now op d d' :
  node_wf d -> op_wf op -> outcome_state (node_op s now op d) = Some d' -> node_wf d'.
Proof.
  intros Hd Hop Hrun. pose proof Hd as [Hr Hs Hdb Hi Ha Hf].
  assert (Hbind : forall (m : M NodeDebtData RitaCommonError unit),
    outcome_state (bind m (fun _ => ret (@None DebtAction)) d) = Some d' ->
    outcome_state (m d) = Some d').
  { intros m. unfold bind, ret. by destruct (m d). }
  destruct op; simpl in Hop.
  - apply Hbind in Hrun. unfold node_traffic_update in Hrun.
    run_monad; split; simpl; eauto with rita.
  - apply Hbind in Hrun. injection Hrun as <-.
    assert (node_wf (set_debt amount d)) by (by split). unfold node_traffic_replace.
    by repeat case_match.
  - apply Hbind in Hrun. exact (node_received_wf _ _ _ Hd Hop Hrun).
  - apply Hbind in Hrun. unfold modify, node_payment_failed in Hrun. simplify_eq/=.
    split; simpl; done || by split; [|intros []].
  - apply Hbind in Hrun. unfold node_payment_succeeded in Hrun.
    run_monad; split; simpl; eauto with rita; by split; [|intros []].
  - apply (node_update_wf now id d); [done|].
    unfold node_op, bind, ret in Hrun. by destruct (node_send_update s now id d).
Qed.

Lemma new_node_wf : node_wf NodeDebtData_new.
Proof. split; simpl; lia256 || done || by split; [|intros []]. Qed.

Lemma entry_wf i dk : dk_wf dk -> node_wf (entry i dk).
Proof.
  intros [_ Hdk]. unfold entry. destruct (hm_get i (debt_data dk)) eqn:E; simpl; [by eapply Hdk|].
  apply new_node_wf.
Qed.

Lemma run_op_wf now op dk dk' :
  dk_wf dk -> op_wf op -> outcome_state (run_op s now op dk) = Some dk' -> dk_wf dk'.
Proof.
  intros Hdk Hop Hrun. split.
  - destruct Hdk as [Hk _]. rewrite run_op_node in Hrun. unfold on_entry in Hrun.
    destruct (node_op s now op _); simplify_eq/=; by apply hm_wf_insert.
  - intros i d Hd. destruct (decide (key i = key (op_target op))) as [Hk|Hk].
    + pose proof (run_op_entry_eq s now op dk i Hk) as Heq.
      apply (node_op_wf now op (entry i dk)); [by apply entry_wf|done|].
      destruct (run_op s now op dk), (node_op s now op (entry i dk)); simplify_eq/=;
        naive_solver congruence.
    + destruct Hdk as [_ Hdk]. apply (Hdk i). by rewrite <- (run_op_entry_ne s now op dk dk' i).
Qed.

Lemma exec_wf ops dk dk' acts :
  dk_wf dk -> Forall (fun o => op_wf o.2) ops -> exec s ops dk = Some (dk', acts) -> dk_wf dk'.
Proof.
  intros Hdk Hops. revert dk dk' acts Hdk.
  induction Hops as [|[now op] ops Hop _ IH]; simpl; intros dk dk' acts Hdk Hex; [by simplify_eq|].
  assert (Hst : forall dk1, outcome_state (run_op s now op dk) = Some dk1 -> dk_wf dk1).
  { intros dk1 H1. by eapply run_op_wf. }
  destruct (run_op s now op dk) as [dk1 a|dk1 e|]; [..|done];
    destruct (exec s ops dk1) as [[dk2 l]|] eqn:Ee; simplify_eq/=; eauto.
Qed.
End invariant.

(** C10 Every state a debt keeper reaches from a well formed one, by any
    sequence of operations that does not panic, has every amount within the
    width of its type, every entry under its own key, and a start time recorded
    exactly for the nodes with a payment in flight. *)
Theorem debt_keeper_wf `{N : Num256} {L : Num256Laws N} s ops dk dk' acts :
  dk_wf dk -> Forall (fun o => op_wf o.2) ops -> exec s ops dk = Some (dk', acts) -> dk_wf dk'.
Proof. apply exec_wf. Qed.

Definition empty_keeper : DebtKeeper := {| last_save := None; debt_data := ∅ |}.

Lemma empty_keeper_wf : dk_wf empty_keeper.
Proof. split; [apply hm_wf_empty|]. intros i d. unfold hm_get. simpl. by rewrite lookup_empty. Qed.

Definition demo_settings (limit : bool) : PaymentSettings := {|
  max_fee := 200000000; balance_warning_level := 0; payment_threshold := 1;
  enable_enforcement := true; settings_eth_private_key := Some 9; settings_eth_address := Some 8;
  althea_l1_accepted_denoms := [default_althea_l1_payment_denom];
  althea_l1_payment_denom := default_althea_l1_payment_denom; system_chain := Xdai;
  debts_file := "/etc/rita-debts.bincode"; apply_incoming_credit_immediately := false;
  debt_limit_enabled := limit; simulated_transaction_fee_address := 4;
  simulated_transaction_fee := 10; forgive_on_reboot := true |}.

Definition demo_ops : list (Z * dk_op) :=
  [(1, OpTraffic demo_identity 100); (2, OpUpdate demo_identity); (3, OpUpdate demo_identity);
   (4, OpSucceeded demo_identity 100); (5, OpTraffic demo_identity (-7))].

Lemma debt_keeper_wf_witness :
  exists dk acts, exec (N := Num256_panicking) (demo_settings false) demo_ops empty_keeper = Some (dk, acts)
  /\ acts = [None; Some (MakePayment demo_identity 100); Some OpenTunnel; None; None] /\ dk_wf dk.
Proof.
  destruct (exec (N := Num256_panicking) (demo_settings false) demo_ops empty_keeper)
    as [[dk acts]|] eqn:E; [|vm_compute in E; congruence].
  exists dk, acts. split; [done|]. split; [vm_compute in E; by simplify_eq|].
  apply (debt_keeper_wf (N := Num256_panicking) (demo_settings false) demo_ops empty_keeper dk acts);
    [apply empty_keeper_wf| |done].
  repeat constructor; vm_compute; congruence.
Defined.
