(* ===== verification/DebtKeeperSafety.v ===== *)
(** What the debt keeper guarantees to the rest of the node: the decision of
    every round, at most one payment in flight per neighbour, the conservation
    of money, and the bound the debt limit gives. *)
From S2P Require Import Prelude Types Oracle TxFee DebtKeeper DebtKeeperSpec.

(** C4 With a valid threshold, [send_update] on a well formed keeper whose
    entry leaves the arithmetic of the update in range ([update_fits]: with the
    debt limit on, the debt is within the limit or its sum with ten thresholds,
    which the limit logs, is at most the largest [Int256]; with the limit off,
    the debt is not the smallest [Int256]) neither panics nor fails: it makes the decision of the reference
    definition, in unbounded integers, and stores exactly the entry that
    definition gives. *)
Theorem send_update_refines `{N : Num256} {L : Num256Laws N} s now i dk :
  settings_ok s -> dk_wf dk -> update_fits s (entry i dk) ->
  send_update s now i dk =
    let '(d, a) := send_update_spec s now i (entry i dk) in
    Done {| last_save := last_save dk; debt_data := hm_insert i d (debt_data dk) |} a.
Proof.
  intros Hs Hdk Hm. unfold send_update, on_entry. fold (entry i dk).
  rewrite send_update_exact by (done || by apply entry_wf).
  by destruct (send_update_spec s now i (entry i dk)).
Qed.

Lemma demo_settings_ok b : settings_ok (demo_settings b).
Proof. split; [vm_compute; congruence|]. vm_compute. congruence. Qed.

Lemma send_update_refines_witness :
  exists dk, send_update (N := Num256_wrapping) (demo_settings true) 5 demo_identity empty_keeper
             = Done dk OpenTunnel.
Proof.
  eexists. rewrite (send_update_refines (N := Num256_wrapping));
    [reflexivity|apply demo_settings_ok|apply empty_keeper_wf|left; vm_compute; congruence].
Defined.

(** * One payment in flight *)

Definition flying (t0 : Z) (d : NodeDebtData) : Prop :=
  payment_in_flight d = true /\ payment_in_flight_start d = Some t0.

Definition settles (op : dk_op) : bool :=
  match op with OpFailed _ | OpSucceeded _ _ => true | _ => false end.

Definition is_payment (a : option DebtAction) : Prop :=
  match a with Some (MakePayment _ _) => True | _ => False end.

Section flight.
Context `{N : Num256} {L : Num256Laws N} (s : PaymentSettings) (t0 : Z).

Lemma received_flying a d d' :
  flying t0 d -> outcome_state (node_payment_received a d) = Some d' -> flying t0 d'.
Proof. intros [? ?]. unfold node_payment_received. intros. run_monad; by split. Qed.

Lemma limit_flying c d d' :
  flying t0 d -> outcome_state (apply_debt_limit s c d) = Some d' -> flying t0 d'.
Proof. intros [? ?]. unfold apply_debt_limit. intros. run_monad; by split. Qed.

Lemma credit_flying d :
  flying t0 d ->
  match apply_unapplied_credit d with
  | Done d' a => flying t0 d' /\ a = OpenTunnel
  | Fail d' _ => flying t0 d'
  | Panic => True
  end.
Proof.
  intros Hd. unfold apply_unapplied_credit, bind, modify, ret.
  pose proof (received_flying 0 (set_action OpenTunnel d)) as H.
  destruct (node_payment_received 0 _); try split; try done; by apply H.
Qed.

Lemma update_flying now i d :
  flying t0 d -> now - t0 <= ETH_PAYMENT_SEND_TIMEOUT ->
  match node_send_update s now i d with
  | Done d' a => flying t0 d' /\ ~ is_payment (Some a)
  | Fail d' _ => flying t0 d'
  | Panic => True
  end.
Proof.
  intros Hd Hnow. unfold node_send_update, bind at 1 2, get_st at 1, unwrap at 1.
  destruct (calculate_close_thresh s) as [c|]; [|done]. unfold bind at 1.
  pose proof (limit_flying c d) as Hlim.
  destruct (apply_debt_limit s c d) as [e []|e x|]; [|by apply Hlim|done].
  specialize (Hlim e Hd eq_refl). destruct Hd as [-> _]. pose proof Hlim as [Hf Hst].
  assert (Hto : (ETH_PAYMENT_SEND_TIMEOUT <? instant_sub now t0) = false).
  { apply Z.ltb_ge. unfold instant_sub, ETH_PAYMENT_SEND_TIMEOUT, secs, NANOS in *. lia. }
  pose proof (credit_flying e Hlim) as Hc.
  unfold choose_action, bind at 1, get_st. rewrite Hst.
  destruct (debt d <? c), (get_pay_thresh s <? debt d); [done|..].
  - destruct (0 <? incoming_payments e).
    + destruct (apply_unapplied_credit e) as [? ?|? ?|]; [|done..]. destruct Hc as [? ->]. split; [done|by intros []].
    + destruct (enable_enforcement s); (split; [done|by intros []]).
  - unfold_monad. rewrite Hto. split; [done|by intros []].
  - destruct (apply_incoming_credit_immediately s && _).
    + destruct (apply_unapplied_credit e) as [? ?|? ?|]; [|done..]. destruct Hc as [? ->]. split; [done|by intros []].
    + split; [done|by intros []].
Qed.

Lemma node_op_flying now op d :
  flying t0 d -> now - t0 <= ETH_PAYMENT_SEND_TIMEOUT -> settles op = false ->
  match node_op s now op d with
  | Done d' a => flying t0 d' /\ ~ is_payment a
  | Fail d' _ => flying t0 d'
  | Panic => True
  end.
Proof.
  intros Hd Hnow Hset. destruct op as [i a|i a|i a|i|i a|i]; [..|done|done|]; unfold node_op.
  - unfold node_traffic_update. unfold_monad. destruct (i_add (debt d) a); simpl; [|done]. split; [done|by intros []].
  - unfold_monad. split; [|by intros []]. destruct Hd as [H1 H2].
    unfold node_traffic_replace. by rewrite H1.
  - pose proof (received_flying a d) as H. unfold bind, ret.
    destruct (node_payment_received a d); [|by apply H|done]. split; [by apply H|by intros []].
  - pose proof (update_flying now i d Hd Hnow) as H. unfold bind, ret.
    by destruct (node_send_update s now i d).
Qed.

(** [i]'s payment is in flight since [t0]. *)
Definition in_flight (i : Identity) (dk : DebtKeeper) : Prop :=
  exists d, hm_get i (debt_data dk) = Some d /\ flying t0 d.

Lemma run_op_in_flight i now op dk :
  in_flight i dk -> now - t0 <= ETH_PAYMENT_SEND_TIMEOUT ->
  (key i = key (op_target op) -> settles op = false) ->
  match run_op s now op dk with
  | Done dk' a => in_flight i dk' /\ (key i = key (op_target op) -> ~ is_payment a)
  | Fail dk' _ => in_flight i dk'
  | Panic => True
  end.
Proof.
  intros (d & Hd & Hf) Hnow Hset. destruct (decide (key i = key (op_target op))) as [Hk|Hk].
  - pose proof (run_op_entry_eq s now op dk i Hk) as Heq.
    pose proof (node_op_flying now op d Hf Hnow (Hset Hk)) as Hn.
    unfold entry in Heq. rewrite Hd in Heq. simpl in Heq. unfold in_flight.
    destruct (run_op s now op dk), (node_op s now op d); try done; naive_solver.
  - pose proof (fun dk' H => run_op_entry_ne s now op dk dk' i H Hk) as Hne. unfold in_flight.
    destruct (run_op s now op dk) as [dk' a|dk' e|]; [| |done].
    + split; [|done]. exists d. by rewrite Hne.
    + exists d. by rewrite Hne.
Qed.

Lemma exec_in_flight i ops dk dk' acts :
  in_flight i dk ->
  Forall (fun o => o.1 - t0 <= ETH_PAYMENT_SEND_TIMEOUT
                   /\ (key i = key (op_target o.2) -> settles o.2 = false)) ops ->
  exec s ops dk = Some (dk', acts) ->
  in_flight i dk'
  /\ Forall2 (fun o a => key i = key (op_target o.2) -> ~ is_payment a) ops acts.
Proof.
  intros Hfl Hops. revert dk dk' acts Hfl.
  induction Hops as [|[now op] ops [Hnow Hset] _ IH]; intros dk dk' acts Hfl; simpl.
  { intros [= <- <-]. by split. }
  pose proof (run_op_in_flight i now op dk Hfl Hnow Hset) as Hstep.
  destruct (run_op s now op dk) as [dk1 a|dk1 e|]; [destruct Hstep as [Hstep Ha]| |done];
    destruct (exec s ops dk1) as [[dk2 l]|] eqn:Ee; intros; simplify_eq/=;
    destruct (IH _ _ _ Hstep Ee) as [? ?]; split; try done; constructor; try done.
  intros _ [].
Qed.
End flight.

(** C2 Once [send_update] has asked for a payment to a neighbour, no later
    round asks for another one to that neighbour until the payment controller
    reports that the payment failed or succeeded, or ten minutes have passed:
    whatever traffic, payments received, debt replacements and rounds for any
    identity come in between, in any order. *)
Theorem no_double_payment `{N : Num256} {L : Num256Laws N} s t0 i amount dk dk1 dk2 ops acts :
  send_update s t0 i dk = Done dk1 (MakePayment i amount) ->
  Forall (fun o => o.1 - t0 <= ETH_PAYMENT_SEND_TIMEOUT
                   /\ (key i = key (op_target o.2) -> settles o.2 = false)) ops ->
  exec s ops dk1 = Some (dk2, acts) ->
  Forall2 (fun o a => key i = key (op_target o.2) -> ~ is_payment a) ops acts
  /\ payment_in_flight (entry i dk2) = true.
Proof.
  intros Hpay Hops Hex.
  assert (Hfl : in_flight t0 i dk1).
  { unfold send_update, on_entry in Hpay.
    destruct (node_send_update s t0 i _) as [d a|d e|] eqn:En; simplify_eq/=.
    exists d. split; [apply hm_get_insert_eq|]. revert En. unfold node_send_update.
    unfold choose_action, apply_unapplied_credit. clear Hex Hops. run_monad; try done; intros; simplify_eq/=; by split. }
  destruct (exec_in_flight s t0 i ops dk1 dk2 acts Hfl Hops Hex) as [(d & Hd & Hf & _) Hacts].
  split; [done|]. unfold entry. by rewrite Hd.
Qed.

(** The keeper after some operations, and the actions asked for on the way. *)
Definition demo_run (limit : bool) (ops : list (Z * dk_op)) : DebtKeeper * list (option DebtAction) :=
  default (empty_keeper, []) (exec (N := Num256_panicking) (demo_settings limit) ops empty_keeper).

Lemma demo_run_wf limit ops : Forall (fun o => op_wf o.2) ops -> dk_wf (demo_run limit ops).1.
Proof.
  intros Hops. unfold demo_run.
  destruct (exec (demo_settings limit) ops empty_keeper) as [[dk acts]|] eqn:E; simpl;
    [|apply empty_keeper_wf].
  exact (exec_wf (N := Num256_panicking) _ _ _ _ _ empty_keeper_wf Hops E).
Qed.

Lemma no_double_payment_witness :
  let ops := [(3, OpUpdate demo_identity); (4, OpTraffic demo_identity 5)] in
  payment_in_flight (entry demo_identity
    (demo_run false ((1, OpTraffic demo_identity 100) :: (2, OpUpdate demo_identity) :: ops)).1) = true.
Proof.
  intros ops.
  apply (no_double_payment (N := Num256_panicking) (demo_settings false) 2 demo_identity 100
    (demo_run false [(1, OpTraffic demo_identity 100)]).1
    (demo_run false [(1, OpTraffic demo_identity 100); (2, OpUpdate demo_identity)]).1
    (demo_run false ((1, OpTraffic demo_identity 100) :: (2, OpUpdate demo_identity) :: ops)).1
    ops [Some OpenTunnel; None]).
  - vm_compute. reflexivity.
  - repeat constructor; vm_compute; congruence.
  - vm_compute. reflexivity.
Defined.

(** * Conservation *)

(** What the node owes a neighbour on balance: the debt and the credit that has
    not been applied yet. *)
Definition net (d : NodeDebtData) : Z := debt d + incoming_payments d.

(** The abstract ledger: the change of a neighbour's balance an operation stands
    for, and how large its amount is. *)
Definition op_effect (i : Identity) (op : dk_op) : Z :=
  if decide (key i = key (op_target op)) then
    match op with
    | OpTraffic _ a | OpReceived _ a => a
    | OpSucceeded _ a => - a
    | _ => 0
    end
  else 0.
Definition op_size (op : dk_op) : Z :=
  match op with
  | OpTraffic _ a | OpReceived _ a | OpSucceeded _ a => Z.abs a
  | _ => 0
  end.
Definition ledger (i : Identity) (ops : list (Z * dk_op)) : Z :=
  foldr (fun o acc => op_effect i o.2 + acc) 0 ops.
Definition volume (ops : list (Z * dk_op)) : Z := foldr (fun o acc => op_size o.2 + acc) 0 ops.
Definition is_replace (op : dk_op) : bool := match op with OpReplace _ _ => true | _ => false end.

(** Every amount of the entry is at most [K]. *)
Definition small (K : Z) (d : NodeDebtData) : Prop :=
  Z.abs (debt d) <= K /\ 0 <= incoming_payments d <= K
  /\ 0 <= total_payment_received d <= K /\ 0 <= total_payment_sent d <= K.

Section conservation.
Context `{N : Num256} {L : Num256Laws N} (s : PaymentSettings).

Lemma apply_credit_net a d : net (apply_credit a d) = net d + a.
Proof. unfold net, apply_credit. simpl. destruct (Z.ltb_spec (debt d) 0); simpl; lia. Qed.

Lemma apply_credit_small K a d : 0 <= a -> small K d -> small (K + a) (apply_credit a d).
Proof.
  unfold small, apply_credit. simpl. intros.
  destruct (Z.ltb_spec (debt d) 0); simpl; lia.
Qed.

Lemma spec_conserves K now i d :
  debt_limit_enabled s = false -> small K d ->
  let '(d', _) := send_update_spec s now i d in small K d' /\ net d' = net d.
Proof.
  intros Hl Hd. unfold send_update_spec. rewrite Hl.
  assert (Hc : small K (apply_credit 0 (set_action OpenTunnel d))
               /\ net (apply_credit 0 (set_action OpenTunnel d)) = net d).
  { rewrite apply_credit_net. split; [|unfold net; simpl; lia].
    replace K with (K + 0) by lia. by apply apply_credit_small. }
  repeat case_match; simplify_eq/=; done || (split; [exact Hd|reflexivity]).
Qed.

Lemma node_op_conserves K now op d :
  settings_ok s -> debt_limit_enabled s = false -> op_wf op -> is_replace op = false ->
  node_wf d -> small K d -> K + op_size op <= I256_MAX ->
  exists d' a, node_op s now op d = Done d' a /\ small (K + op_size op) d'
    /\ net d' = net d + op_effect (op_target op) op.
Proof.
  intros Hs Hlim Hop Hrep Hd Hsm Hfit. pose proof Hsm as (Hdb & Hi & Hr & Hsn).
  assert (Hmin : debt d <> I256_MIN) by (unfold I256_MIN; destruct op; simpl in *; lia).
  unfold op_effect. rewrite decide_True by done.
  destruct op as [i a|i a|i a|i|i a|i]; simpl in Hop, Hfit; [|done|..]; simpl.
  - unfold node_traffic_update. unfold_monad. rewrite i_add_exact by lia256.
    do 2 eexists. split; [reflexivity|]. unfold small, net; simpl. lia.
  - unfold bind, ret. rewrite received_exact by (done || lia256). do 2 eexists.
    split; [reflexivity|]. rewrite apply_credit_net.
    replace (Z.abs a) with a by lia256. split; [|done]. apply apply_credit_small; [lia256|done].
  - unfold_monad. do 2 eexists. split; [reflexivity|].
    unfold small, net in *; simpl; lia.
  - unfold node_payment_succeeded. unfold_monad. simpl. rewrite u_add_exact by lia256.
    rewrite to_int256_spec, (proj2 (in_range_spec _ _ _)) by lia256.
    rewrite i_sub_exact by lia256. do 2 eexists. split; [reflexivity|].
    unfold small, net; simpl. lia256.
  - unfold bind, ret. rewrite send_update_exact by (try done; unfold update_fits; by rewrite Hlim).
    pose proof (spec_conserves K now i d Hlim Hsm) as Hc.
    destruct (send_update_spec s now i d) as [d' act]. do 2 eexists. split; [reflexivity|].
    destruct Hc as [Hc ->]. split; [|lia]. by rewrite Z.add_0_r.
Qed.

Definition dk_small (K : Z) (dk : DebtKeeper) : Prop :=
  dk_wf dk /\ forall i, small K (entry i dk).

Lemma run_op_conserves K now op dk :
  settings_ok s -> debt_limit_enabled s = false -> op_wf op -> is_replace op = false ->
  dk_small K dk -> K + op_size op <= I256_MAX ->
  exists dk' a, run_op s now op dk = Done dk' a /\ dk_small (K + op_size op) dk'
    /\ forall i, net (entry i dk') = net (entry i dk) + op_effect i op.
Proof.
  intros Hs Hlim Hop Hrep [Hwf Hsm] Hfit.
  assert (Hsz : 0 <= op_size op) by (destruct op; simpl; lia).
  destruct (node_op_conserves K now op (entry (op_target op) dk)) as (d & a & Hrun & Hd & Hnet);
    try done; [by apply entry_wf|].
  pose proof (run_op_entry_eq s now op dk (op_target op) eq_refl) as Heq. rewrite Hrun in Heq.
  destruct (run_op s now op dk) as [dk' b|dk' e|] eqn:Erun; try done. destruct Heq as [-> Heq].
  assert (Hst : outcome_state (run_op s now op dk) = Some dk') by (by rewrite Erun).
  exists dk', a. split; [done|].
  assert (Hent : forall i, entry i dk' =
    if decide (key i = key (op_target op)) then d else entry i dk).
  { intros i. unfold entry. case_decide as Hk.
    - by rewrite (hm_get_same _ _ _ Hk), Heq.
    - by rewrite (run_op_entry_ne s now op dk dk' i). }
  split; [split; [by eapply run_op_wf|]|]; intros i; rewrite Hent; unfold op_effect.
  - case_decide; [done|]. specialize (Hsm i). unfold small in *. lia.
  - case_decide as Hk; [|lia]. unfold op_effect in Hnet. rewrite decide_True in Hnet by done.
    rewrite Hnet. unfold entry. by rewrite (hm_get_same _ _ _ Hk).
Qed.
End conservation.

(** C3 Money is conserved: without the debt limit, the balance of every
    neighbour (debt and unapplied credit) after any sequence of traffic,
    payments received, payments made, failures and rounds is the balance before
    plus exactly the amounts of the operations on that neighbour; applying
    credit and deciding whether to pay or suspend move nothing. No operation
    panics as long as the amounts together fit in 256 bits. *)
Theorem ledger_conservation `{N : Num256} {L : Num256Laws N} s K ops dk :
  settings_ok s -> debt_limit_enabled s = false ->
  Forall (fun o => op_wf o.2 /\ is_replace o.2 = false) ops ->
  dk_small K dk -> K + volume ops <= I256_MAX ->
  exists dk' acts, exec s ops dk = Some (dk', acts)
    /\ forall i, net (entry i dk') = net (entry i dk) + ledger i ops.
Proof.
  intros Hs Hlim Hops. revert K dk.
  induction Hops as [|[now op] ops [Hop Hrep] _ IH]; intros K dk Hdk Hfit; simpl in *.
  { exists dk, []. split; [done|]. intros. lia. }
  assert (Hv : 0 <= volume ops) by (clear; induction ops as [|[? []] ops IH]; simpl in *; lia).
  destruct (run_op_conserves s K now op dk) as (dk1 & a & -> & Hsm & Hnet); try done; [lia|].
  destruct (IH (K + op_size op) dk1) as (dk2 & l & -> & Hl); [done|lia|].
  exists dk2, (a :: l). split; [done|]. intros i. rewrite Hl, Hnet. lia.
Qed.

Lemma empty_keeper_small : dk_small 0 empty_keeper.
Proof. split; [apply empty_keeper_wf|]. intros i. vm_compute. intuition congruence. Qed.

Lemma ledger_conservation_witness :
  exists dk acts, exec (N := Num256_wrapping) (demo_settings false) demo_ops empty_keeper = Some (dk, acts)
  /\ forall i, net (entry i dk) = net (entry i empty_keeper) + ledger i demo_ops.
Proof.
  apply (ledger_conservation (N := Num256_wrapping) (demo_settings false) 0).
  - apply demo_settings_ok.
  - reflexivity.
  - repeat constructor; vm_compute; congruence.
  - apply empty_keeper_small.
  - vm_compute. congruence.
Defined.
