(* ===== verification/DebtRound.v ===== *)
(** The consequences the node relies on in one round: what a payment to or from a
    neighbour does, when a tunnel is suspended, how large a payment can be, and
    what a whole round over all neighbours hands out. *)
From S2P Require Import Prelude Types Oracle TxFee DebtKeeper DebtKeeperSpec DebtKeeperSafety.

(** A payment from a neighbour first joins the credit; credit pays off what
    the neighbour owes and stops at zero, so an overpayment never turns into a
    debt of ours but stays as credit; what we owe is left alone; no other
    neighbour's entry changes. *)
Theorem payment_received_spec `{N : Num256} {L : Num256Laws N} i amount dk :
  let d := entry i dk in
  dk_wf dk -> debt d <> I256_MIN -> 0 <= amount ->
  total_payment_received d + amount <= U256_MAX -> incoming_payments d + amount <= U256_MAX ->
  exists dk', dk_payment_received i amount dk = Done dk' tt
    /\ (forall j, key j <> key i -> hm_get j (debt_data dk') = hm_get j (debt_data dk))
    /\ total_payment_received (entry i dk') = total_payment_received d + amount
    /\ (0 <= debt d -> debt (entry i dk') = debt d
                       /\ incoming_payments (entry i dk') = incoming_payments d + amount)
    /\ (debt d < 0 -> debt (entry i dk') = Z.min 0 (debt d + (incoming_payments d + amount))
                      /\ incoming_payments (entry i dk')
                         = Z.max 0 (debt d + (incoming_payments d + amount))).
Proof.
  intros d Hdk Hm Ha Ht Hi. unfold dk_payment_received, on_entry. fold (entry i dk). fold d.
  rewrite received_exact by (done || by apply entry_wf). eexists. split; [reflexivity|].
  split; [intros j Hj; simpl; by rewrite hm_get_insert_ne|].
  unfold entry. simpl. rewrite hm_get_insert_eq. simpl. unfold apply_credit.
  destruct (Z.ltb_spec (debt d) 0); simpl; destruct (Z.ltb_spec (debt d) 0); try lia;
    split; (done || split; intros; lia || done).
Qed.

Lemma payment_received_witness :
  exists dk, dk_payment_received (N := Num256_panicking) demo_identity 1000
    (demo_run true [(1, OpTraffic demo_identity (-100))]).1 = Done dk tt
  /\ debt (entry demo_identity dk) = 0 /\ incoming_payments (entry demo_identity dk) = 900.
Proof.
  destruct (payment_received_spec (N := Num256_panicking) demo_identity 1000
    (demo_run true [(1, OpTraffic demo_identity (-100))]).1)
    as (dk & E & _ & _ & _ & Hneg).
  - apply demo_run_wf. repeat constructor; vm_compute; congruence.
  - vm_compute. congruence.
  - lia.
  - vm_compute. congruence.
  - vm_compute. congruence.
  - exists dk. split; [done|]. destruct Hneg as [-> ->]; [vm_compute; reflexivity|].
    vm_compute. split; reflexivity.
Defined.

(** * The decisions of one round *)

(** A tunnel is suspended exactly when the neighbour owes more than the
    close threshold (ten payment thresholds), has no credit left to apply and
    enforcement is on; a payment is asked for exactly when we owe more than the
    payment threshold and no payment is in flight, it goes to that neighbour,
    and it is for more than the threshold and, with the debt limit on, for at
    most one wei more than ten thresholds. *)
Theorem round_decision `{N : Num256} {L : Num256Laws N} s now i dk :
  let d := entry i dk in
  settings_ok s -> dk_wf dk -> update_fits s d ->
  exists dk' a, send_update s now i dk = Done dk' a
    /\ (a = SuspendTunnel <->
          debt d < -10 * payment_threshold s /\ incoming_payments d = 0
          /\ enable_enforcement s = true)
    /\ (is_payment (Some a) <-> payment_threshold s < debt d /\ payment_in_flight d = false)
    /\ (forall to amount, a = MakePayment to amount ->
          to = i /\ payment_threshold s < amount <= debt d
          /\ (debt_limit_enabled s = true -> amount <= 10 * payment_threshold s + 1)
          /\ (debt_limit_enabled s = false -> amount = debt d)).
Proof.
  intros d Hs Hdk Hm. pose proof Hs as [Hs0 _]. pose proof (entry_wf i dk Hdk) as [_ _ _ Hi _ _].
  unfold send_update, on_entry. fold (entry i dk). fold d. fold d in Hi.
  rewrite send_update_exact by (done || by apply entry_wf). unfold send_update_spec.
  destruct (Z.ltb_spec (debt d) (-10 * payment_threshold s)).
  - destruct (Z.ltb_spec 0 (incoming_payments d)); do 2 eexists; (split; [reflexivity|]).
    + split_and!; [split; [done|lia]|simpl; split; [done|lia]|done].
    + assert (incoming_payments d = 0) by lia256.
      destruct (enable_enforcement s); split_and!; done || (simpl; split; [done|lia]) || naive_solver.
  - destruct (Z.ltb_spec (payment_threshold s) (debt d)).
    + destruct (payment_in_flight d); do 2 eexists; (split; [reflexivity|]);
        (split_and!; [split; [done|lia]|simpl; naive_solver|]); [done|].
      intros to amount [= <- <-]. unfold clamp_debt.
      destruct (debt_limit_enabled s); simpl; split_and!; try done; lia.
    + do 2 eexists. split; [reflexivity|].
      split_and!; [split; [done|lia]|simpl; split; [done|lia]|done].
Qed.

Lemma round_decision_witness :
  exists dk, send_update (N := Num256_panicking) (demo_settings true) 5 demo_identity
    (demo_run true [(1, OpTraffic demo_identity (-100))]).1 = Done dk SuspendTunnel.
Proof.
  destruct (round_decision (N := Num256_panicking) (demo_settings true) 5 demo_identity
    (demo_run true [(1, OpTraffic demo_identity (-100))]).1) as (dk & a & E & [_ Hsus] & _).
  - apply demo_settings_ok.
  - apply demo_run_wf. repeat constructor; vm_compute; congruence.
  - left. vm_compute. congruence.
  - exists dk. rewrite E, Hsus; [done|]. vm_compute. auto.
Defined.

(** When the payment a round asked for succeeds, with no traffic in
    between, nothing is owed any more, no payment is in flight and the amount is
    counted as sent. *)
Theorem payment_settles `{N : Num256} {L : Num256Laws N} s t0 t1 i amount dk dk1 :
  settings_ok s -> dk_wf dk -> update_fits s (entry i dk) ->
  send_update s t0 i dk = Done dk1 (MakePayment i amount) ->
  total_payment_sent (entry i dk) + amount <= U256_MAX ->
  exists dk2, dk_payment_succeeded t1 i amount dk1 = Done dk2 tt
    /\ debt (entry i dk2) = 0 /\ payment_in_flight (entry i dk2) = false
    /\ payment_in_flight_start (entry i dk2) = None
    /\ total_payment_sent (entry i dk2) = total_payment_sent (entry i dk) + amount
    /\ last_successful_payment (entry i dk2) = Some t1.
Proof.
  intros Hs Hdk Hm Hpay Hfit. pose proof Hs as [Hs0 Hs1].
  pose proof (entry_wf i dk Hdk) as Hd. pose proof Hd as [_ Hsent Hdb _ _ _].
  unfold send_update, on_entry in Hpay. fold (entry i dk) in Hpay.
  rewrite send_update_exact in Hpay by done. unfold send_update_spec in Hpay.
  destruct (debt (entry i dk) <? _); [by repeat case_match; simplify_eq/=|].
  destruct (Z.ltb_spec (payment_threshold s) (debt (entry i dk))); [|by simplify_eq/=].
  destruct (payment_in_flight (entry i dk)); [by simplify_eq/=|].
  set (d := entry i dk) in *. fold (limited s d) in Hpay. simplify_eq/=.
  assert (Hamt : 0 <= debt (limited s d) <= I256_MAX
    /\ total_payment_sent (limited s d) = total_payment_sent d).
  { unfold limited, clamp_debt. destruct (debt_limit_enabled s); simpl; lia256. }
  unfold dk_payment_succeeded, on_entry. simpl. rewrite hm_get_insert_eq. simpl.
  unfold node_payment_succeeded. unfold_monad. simpl.
  rewrite u_add_exact, to_int256_spec, (proj2 (in_range_spec _ _ _)), i_sub_exact by lia256.
  eexists. split; [reflexivity|]. unfold entry. simpl. rewrite hm_get_insert_eq. simpl.
  split_and!; lia || done.
Qed.

Lemma payment_settles_witness :
  exists dk2, dk_payment_succeeded (N := Num256_panicking) 9 demo_identity 11
      (demo_run true [(1, OpTraffic demo_identity 100); (2, OpUpdate demo_identity)]).1 = Done dk2 tt
    /\ debt (entry demo_identity dk2) = 0.
Proof.
  destruct (payment_settles (N := Num256_panicking) (demo_settings true) 2 9 demo_identity 11
    (demo_run true [(1, OpTraffic demo_identity 100)]).1
    (demo_run true [(1, OpTraffic demo_identity 100); (2, OpUpdate demo_identity)]).1)
    as (dk2 & E & Hz & _).
  - apply demo_settings_ok.
  - apply demo_run_wf. repeat constructor; vm_compute; congruence.
  - right. vm_compute. congruence.
  - vm_compute. reflexivity.
  - vm_compute. congruence.
  - eauto.
Defined.

(** * A round over all neighbours *)

Section rounds.
Context `{N : Num256} `{P : Profile} (e : debt_env).

Lemma send_update_target s now i dk dk' to amount :
  send_update s now i dk = Done dk' (MakePayment to amount) -> to = i.
Proof.
  unfold send_update, on_entry, node_send_update, choose_action, apply_unapplied_credit.
  run_monad; intros; by simplify_eq/=.
Qed.

Lemma send_updates_split order dk dk' msgs pays msgs' pays' :
  send_updates e order msgs pays dk = Done dk' (msgs', pays') ->
  exists m p, msgs' = msgs ++ m /\ pays' = pays ++ p
    /\ order ≡ₚ (tc_identity <$> m) ++ (up_to <$> p)
    /\ Forall (fun x => Some (up_from x) = env_our_id e) p.
Proof.
  revert dk msgs pays. induction order as [|k order IH]; intros dk msgs pays; simpl.
  { intros [= <- <- <-]. exists [], []. by rewrite !app_nil_r. }
  unfold bind. destruct (send_update _ _ k dk) as [dk1 a|dk1 x|] eqn:Ek; [|done..].
  destruct a as [| |to amount]; [| |destruct (_ && _); [done|];
    destruct (env_our_id e) as [me|] eqn:Eme; [|done]]; intros H;
    destruct (IH _ _ _ H) as (m & p & -> & -> & Hp & Hf).
  - eexists (_ :: m), p. split_and!; [by rewrite <- app_assoc|done| |done].
    simpl. by rewrite Hp.
  - eexists (_ :: m), p. split_and!; [by rewrite <- app_assoc|done| |done].
    simpl. by rewrite Hp.
  - apply send_update_target in Ek as ->.
    eexists m, (_ :: p). split_and!; [done|by rewrite <- app_assoc| |by constructor].
    simpl. rewrite Hp. apply Permutation_middle.
Qed.

Lemma send_debt_update_split netns dflt order w w' changes payments :
  send_debt_update netns dflt e order w = Done w' (changes, payments) ->
  order ≡ₚ (tc_identity <$> changes) ++ (up_to <$> payments)
  /\ Forall (fun p => Some (up_from p) = env_our_id e) payments.
Proof.
  unfold send_debt_update, with_debt_keeper. intros H.
  destruct (get_debt_keeper_write_ref netns dflt w) as [dk|]; [|done].
  destruct (send_updates e order [] [] dk) as [dk' [m p]|dk' x|] eqn:Es; simplify_eq/=.
  by destruct (send_updates_split _ _ _ _ _ _ _ Es) as (m & p & -> & -> & Hp & Hf).
Qed.
End rounds.

(** A round that succeeds gives every neighbour in the ledger exactly one
    verdict: the neighbours of the tunnel changes and of the payments are a
    permutation of the neighbours walked, so nobody is paid twice or both paid
    and suspended in one round, and every payment comes from this node. *)
Theorem round_one_verdict_each `{N : Num256} `{P : Profile} netns dflt e order w w' changes payments :
  send_debt_update netns dflt e order w = Done w' (changes, payments) ->
  order ≡ₚ (tc_identity <$> changes) ++ (up_to <$> payments)
  /\ (NoDup (key <$> order) -> NoDup (key <$> (tc_identity <$> changes) ++ (up_to <$> payments)))
  /\ Forall (fun p => Some (up_from p) = env_our_id e) payments.
Proof.
  intros H. destruct (send_debt_update_split _ _ _ _ _ _ _ _ H) as [Hp Hf].
  split_and!; [done| |done]. by rewrite Hp.
Qed.

Definition demo_neighbour : Identity :=
  {| mesh_ip := V6 4; eth_address := 2; wg_public_key := 6; nickname := Some "b"%string |}.

Definition demo_oracle (last : option Z) : BlockchainOracle :=
  {| balance := Some 50; last_seen_block := Some 9; last_updated := last |}.

Definition demo_env (last : option Z) : debt_env := {|
  env_settings := demo_settings true; env_now := secs 1000; env_oracle := demo_oracle last;
  env_our_id := Some demo_identity |}.

Definition demo_world : World := {|
  DEBT_DATA := <[0 := (demo_run true [(1, OpTraffic demo_neighbour 100)]).1]> ∅;
  AMOUNT_OWED := ∅ |}.

Lemma round_one_verdict_each_witness :
  [demo_neighbour] ≡ₚ
    up_to <$> [{| up_to := demo_neighbour; up_from := demo_identity; up_amount := 11 |}].
Proof.
  destruct (@send_debt_update Num256_panicking debug_profile 0 None (demo_env (Some (secs 999)))
    [demo_neighbour] demo_world) as [w' [m p]|w' x|] eqn:E; [|vm_compute in E; congruence..].
  pose proof (proj1 (@round_one_verdict_each Num256_panicking debug_profile 0 None
    (demo_env (Some (secs 999))) [demo_neighbour] demo_world w' m p E)) as H.
  vm_compute in E. injection E as _ <- <-. exact H.
Defined.

(** When the oracle is out of date on Xdai, the round that wants to pay a
    neighbour fails without returning the payment, but the neighbour's payment
    is already marked as in flight: for the next ten minutes no round asks for
    it again. *)
Theorem aborted_round_blocks_payment `{N : Num256} {L : Num256Laws N} `{P : Profile} e i rest dk :
  let d := entry i dk in
  settings_ok (env_settings e) -> dk_wf dk -> system_chain (env_settings e) = Xdai ->
  potential_payment_issues_detected (env_now e) (env_oracle e) = true ->
  update_fits (env_settings e) d -> payment_threshold (env_settings e) < debt d -> payment_in_flight d = false ->
  exists dk1, send_updates e (i :: rest) [] [] dk
                = Fail dk1 (MiscStringError "Potential payment issue detected")
    /\ payment_in_flight (entry i dk1) = true
    /\ payment_in_flight_start (entry i dk1) = Some (env_now e)
    /\ forall t, 0 <= t - env_now e <= ETH_PAYMENT_SEND_TIMEOUT ->
       forall dk2 a, send_update (env_settings e) t i dk1 = Done dk2 a -> ~ is_payment (Some a).
Proof.
  intros d Hs Hdk Hx Hstale Hm Hpay Hfl. pose proof Hs as [Hs0 Hs1].
  pose proof (entry_wf i dk Hdk) as Hd. fold d in Hd.
  assert (Hup : send_update (env_settings e) (env_now e) i dk =
    let d1 := limited (env_settings e) d in
    let a := MakePayment i (debt d1) in
    Done {| last_save := last_save dk; debt_data := hm_insert i
              (set_action a (set_in_flight true (Some (env_now e)) d1)) (debt_data dk) |} a).
  { unfold send_update, on_entry. fold (entry i dk). fold d.
    rewrite send_update_exact by done. unfold send_update_spec.
    rewrite (proj2 (Z.ltb_ge _ _)), (proj2 (Z.ltb_lt _ _)), Hfl by lia. reflexivity. }
  eexists. simpl. unfold bind. rewrite Hup. simpl. rewrite Hx, Hstale. simpl.
  split; [reflexivity|]. unfold entry. simpl. rewrite hm_get_insert_eq. simpl.
  split_and!; [done..|]. intros t Ht dk2 a. unfold send_update, on_entry. simpl.
  rewrite hm_get_insert_eq. simpl.
  pose proof (update_flying (env_settings e) (env_now e) t i) as Hf.
  match goal with |- context [node_send_update _ _ _ ?x] => specialize (Hf x) end.
  destruct (node_send_update _ t i _); intros H; simplify_eq/=.
  apply Hf; [by split|lia].
Qed.

Lemma aborted_round_blocks_payment_witness :
  exists dk1, @send_updates Num256_panicking debug_profile (demo_env None) [demo_neighbour] [] []
      (demo_run true [(1, OpTraffic demo_neighbour 100)]).1
      = Fail dk1 (MiscStringError "Potential payment issue detected")
    /\ payment_in_flight (entry demo_neighbour dk1) = true.
Proof.
  destruct (@aborted_round_blocks_payment Num256_panicking _ debug_profile (demo_env None)
    demo_neighbour [] (demo_run true [(1, OpTraffic demo_neighbour 100)]).1)
    as (dk1 & E & Hf & _).
  - apply demo_settings_ok.
  - apply demo_run_wf. repeat constructor; vm_compute; congruence.
  - reflexivity.
  - vm_compute. reflexivity.
  - right. vm_compute. congruence.
  - vm_compute. reflexivity.
  - vm_compute. reflexivity.
  - eauto.
Defined.
