(* ===== verification/DebtStore.v ===== *)
(** Saving the debts to disk and loading them at start
    (rita_common/src/debt_keeper/mod.rs: [debt_data_to_ser], [ser_to_debt_data],
    [deserialize_from_binary], [deserialize_from_json], [DebtKeeper::default],
    [save], [save_if_needed]). The bincode and JSON codecs are parameters. *)
From S2P Require Import Prelude Types Oracle TxFee DebtKeeper DebtKeeperSpec.

(** The fields marked [serde(skip)] come back with their default value. *)
Definition strip (d : NodeDebtData) : NodeDebtData :=
  set_in_flight false None (set_last_success None d).

Class DebtCodec (bytes : Type) := {
  bincode_serialize : DebtDataSer -> bytes;
  bincode_deserialize : bytes -> option DebtDataSer;
  read_to_string : bytes -> option string;
  json_from_str : string -> option DebtDataSer;
}.

Class DebtCodecLaws `(C : DebtCodec bytes) : Prop := {
  bincode_roundtrip l :
    bincode_deserialize (bincode_serialize l) = Some ((fun x => (x.1, strip x.2)) <$> l);
}.

Module DebtStore.
Section store.
Context `{C : DebtCodec bytes} `{N : Num256}.

(** A hash map yields its entries in some order. *)
Definition debt_data_to_ser (input : DebtData) : DebtDataSer := hm_entries input.

Definition load_entry (forgive : bool) (ret : DebtData) (x : Identity * NodeDebtData) : DebtData :=
  let '(i, d) := x in
  if forgive then
    if (debt d <=? 0) && (incoming_payments d =? 0) then ret
    else if debt d <=? 0 then hm_insert i (set_debt 0 d) ret
    else hm_insert i d ret
  else hm_insert i d ret.

Definition ser_to_debt_data (s : PaymentSettings) (input : DebtDataSer) : DebtData :=
  foldl (load_entry (forgive_on_reboot s)) ∅ input.

(** The argument is the content of the file, [None] if it cannot be read. *)
Definition deserialize_from_binary (file : option bytes) : option DebtDataSer :=
  match file with
  | Some file => Some (match bincode_deserialize file with Some value => value | None => [] end)
  | None => None
  end.

Definition deserialize_from_json (file : option bytes) : option DebtDataSer :=
  match file with
  | Some file =>
      match read_to_string file with
      | Some contents =>
          Some (match json_from_str contents with Some value => value | None => [] end)
      | None => None
      end
  | None => None
  end.

(** [None] when an assert fails. *)
Definition DebtKeeper_default (s : PaymentSettings) (fs : gmap string bytes) : option DebtKeeper :=
  close ← calculate_close_thresh s;
  if (0 <=? get_pay_thresh s) && (close <=? 0) then
    match deserialize_from_binary (fs !! debts_file s), deserialize_from_json (fs !! debts_file s) with
    | None, None => Some {| last_save := None; debt_data := ∅ |}
    | None, Some val => Some {| last_save := None; debt_data := ser_to_debt_data s val |}
    | Some val, None => Some {| last_save := None; debt_data := ser_to_debt_data s val |}
    | Some val, Some _ => Some {| last_save := None; debt_data := ser_to_debt_data s val |}
    end
  else None.

Definition ends_with (suffix s : string) : bool :=
  (String.length suffix <=? String.length s)%nat
  && String.eqb (String.substring (String.length s - String.length suffix) (String.length suffix) s) suffix.

(** [file_path.drain(0..file_path.len() - 4)] keeps the last four bytes. *)
Definition saved_path (file_path : string) : string :=
  if ends_with "json" file_path
  then (String.substring (String.length file_path - 4) 4 file_path ++ "bincode")%string
  else file_path.

Definition set_debts_file (p : string) (s : PaymentSettings) : PaymentSettings := {|
  max_fee := max_fee s; balance_warning_level := balance_warning_level s;
  payment_threshold := payment_threshold s; enable_enforcement := enable_enforcement s;
  settings_eth_private_key := settings_eth_private_key s;
  settings_eth_address := settings_eth_address s;
  althea_l1_accepted_denoms := althea_l1_accepted_denoms s;
  althea_l1_payment_denom := althea_l1_payment_denom s; system_chain := system_chain s;
  debts_file := p; apply_incoming_credit_immediately := apply_incoming_credit_immediately s;
  debt_limit_enabled := debt_limit_enabled s;
  simulated_transaction_fee_address := simulated_transaction_fee_address s;
  simulated_transaction_fee := simulated_transaction_fee s;
  forgive_on_reboot := forgive_on_reboot s |}.

(** What the operating system does with the file: refuse to create it, write
    only part of the data, or write all of it. *)
Inductive disk := CreateFails | WriteFails (part : bytes) | WriteOk.

(** The settings are rewritten before anything touches the disk. *)
Definition save (d : disk) (dk : DebtKeeper) (s : PaymentSettings) (fs : gmap string bytes)
    : PaymentSettings * gmap string bytes * bool :=
  let path := saved_path (debts_file s) in
  let s := set_debts_file path s in
  let serialized := bincode_serialize (debt_data_to_ser (debt_data dk)) in
  match d with
  | CreateFails => (s, fs, false)
  | WriteFails part => (s, <[path := part]> fs, false)
  | WriteOk => (s, <[path := serialized]> fs, true)
  end.

Definition save_if_needed (d : disk) (save_frequency now : Z) (dk : DebtKeeper)
    (s : PaymentSettings) (fs : gmap string bytes)
    : DebtKeeper * PaymentSettings * gmap string bytes :=
  let run :=
    let '(s, fs, ok) := save d dk s fs in
    (if ok : bool then {| last_save := Some now; debt_data := debt_data dk |} else dk, s, fs) in
  match last_save dk with
  | Some val => if save_frequency <? instant_sub now val then run else (dk, s, fs)
  | None => run
  end.

(** ** Loading *)

(** What loading keeps of an entry. *)
Definition loaded (forgive : bool) (d : NodeDebtData) : option NodeDebtData :=
  if forgive then
    if (debt d <=? 0) && (incoming_payments d =? 0) then None
    else Some (set_debt (Z.max 0 (debt d)) d)
  else Some d.

Lemma load_entry_other forgive acc i j d :
  key j <> key i -> hm_get i (load_entry forgive acc (j, d)) = hm_get i acc.
Proof. intros Hne. unfold load_entry. by repeat case_match; rewrite ?hm_get_insert_ne. Qed.

Lemma load_entry_same forgive acc i j d :
  key j = key i -> hm_get i acc = None -> hm_get i (load_entry forgive acc (j, d)) = loaded forgive d.
Proof.
  intros Hk Hacc. unfold load_entry, loaded. destruct forgive; [|by apply hm_get_insert_same].
  destruct (Z.leb_spec (debt d) 0); simpl.
  - destruct (incoming_payments d =? 0); [done|]. rewrite hm_get_insert_same by done.
    by rewrite Z.max_l.
  - rewrite hm_get_insert_same by done. rewrite Z.max_r by lia. by destruct d.
Qed.

Lemma load_absent forgive l acc i :
  Forall (fun x : Identity * NodeDebtData => key x.1 <> key i) l ->
  hm_get i (foldl (load_entry forgive) acc l) = hm_get i acc.
Proof.
  intros Hl. revert acc. induction Hl as [|[j d] l Hj _ IH]; intros acc; [done|]. simpl.
  rewrite IH. by apply load_entry_other.
Qed.

Lemma load_present forgive l acc i j d :
  NoDup (key <$> l.*1) -> (j, d) ∈ l -> key j = key i -> hm_get i acc = None ->
  hm_get i (foldl (load_entry forgive) acc l) = loaded forgive d.
Proof.
  revert acc. induction l as [|[k e] l IH]; intros acc Hnd Hin Hk Hacc; [by apply not_elem_of_nil in Hin|].
  simpl in Hnd. apply NoDup_cons in Hnd as [Hnot Hnd].
  apply elem_of_cons in Hin as [[= -> ->]|Hin]; cbn [foldl].
  - rewrite load_absent; [by apply load_entry_same|]. apply Forall_forall. intros [a b] Hab Heq.
    apply Hnot. apply list_elem_of_fmap. exists a. split; [simpl in *; congruence|].
    apply list_elem_of_fmap. by exists (a, b).
  - apply IH; try done. rewrite load_entry_other; [done|]. intros Heq. apply Hnot.
    apply list_elem_of_fmap. exists j. split; [simpl in *; congruence|]. apply list_elem_of_fmap. by exists (j, d).
Qed.

Lemma entries_keys (m : DebtData) : hm_wf m -> key <$> (hm_entries m).*1 = (map_to_list m).*1.
Proof.
  intros Hm. unfold hm_entries. rewrite <- !list_fmap_compose. apply list_fmap_ext.
  intros n [k [i d]] Hx. simpl. apply (Hm k i d). apply elem_of_map_to_list.
  by eapply list_elem_of_lookup_2.
Qed.

Lemma entries_elem (m : DebtData) i d :
  hm_get i m = Some d -> exists j, (j, d) ∈ hm_entries m /\ m !! key i = Some (j, d).
Proof.
  unfold hm_get. intros ([j d'] & Hj & [= <-])%fmap_Some. exists j. split; [|done].
  apply list_elem_of_fmap. exists (key i, (j, d)). split; [done|]. by apply elem_of_map_to_list.
Qed.

(** Loading what was saved: entry by entry. *)
Lemma load_saved (forgive : bool) (m : DebtData) (i : Identity) :
  hm_wf m ->
  hm_get i (foldl (load_entry forgive) ∅ ((fun x => (x.1, strip x.2)) <$> debt_data_to_ser m))
    = (hm_get i m) ≫= (fun d => loaded forgive (strip d)).
Proof.
  intros Hm. unfold debt_data_to_ser.
  assert (Hkeys : key <$> ((fun x : Identity * NodeDebtData => (x.1, strip x.2)) <$> hm_entries m).*1
                  = (map_to_list m).*1).
  { rewrite <- (entries_keys m Hm). by rewrite <- !list_fmap_compose. }
  destruct (hm_get i m) as [d|] eqn:Ei; simpl.
  - destruct (entries_elem m i d Ei) as (j & Hj & Hij).
    eapply load_present; [rewrite Hkeys; apply NoDup_fst_map_to_list| | |].
    + apply list_elem_of_fmap. by exists (j, d).
    + by apply Hm in Hij.
    + unfold hm_get. by rewrite lookup_empty.
  - rewrite load_absent; [unfold hm_get; by rewrite lookup_empty|].
    apply Forall_fmap, Forall_forall. intros [j d] Hj Heq. simpl in Heq.
    unfold hm_entries in Hj. apply list_elem_of_fmap in Hj as ([k x] & [= <-] & Hk).
    apply elem_of_map_to_list in Hk. pose proof (Hm _ _ _ Hk). subst k.
    unfold hm_get in Ei. by rewrite <- Heq, Hk in Ei.
Qed.
End store.
End DebtStore.
Export DebtStore.

(** C28 Saving the debts and starting again: if the save succeeds and the
    path does not name a JSON file, the loaded keeper holds for every neighbour
    exactly the saved totals, debt and credit; with forgiveness on, a debt owed
    to us is forgotten (the entry is dropped if it holds no credit, its debt is
    zero otherwise) and what we owe is kept. The fields that are not saved come
    back unset. *)
Theorem save_load_roundtrip `{C : DebtCodec bytes} {CL : DebtCodecLaws C} `{N : Num256}
    {L : Num256Laws N} s fs dk :
  settings_ok s -> dk_wf dk -> ends_with "json" (debts_file s) = false ->
  let '(s', fs', ok) := save WriteOk dk s fs in
  ok = true /\ s' = s /\
  exists dk', DebtKeeper_default s' fs' = Some dk' /\ last_save dk' = None /\
    forall i, hm_get i (debt_data dk') =
      d ← hm_get i (debt_data dk); loaded (forgive_on_reboot s) (strip d).
Proof.
  intros Hs [Hwf _] Hjson. pose proof Hs as [Hs0 _].
  unfold save, saved_path. rewrite Hjson. simpl.
  assert (Hself : set_debts_file (debts_file s) s = s) by (by destruct s).
  rewrite Hself. split_and!; [done..|]. unfold DebtKeeper_default.
  rewrite close_thresh_exact by done. unfold get_pay_thresh. simpl.
  rewrite (proj2 (Z.leb_le _ _)), (proj2 (Z.leb_le _ _)) by lia. simpl.
  rewrite lookup_insert_eq. simpl. rewrite bincode_roundtrip.
  eexists. split; [by destruct (read_to_string _)|]. split; [done|]. intros i. simpl.
  unfold ser_to_debt_data. by apply load_saved.
Qed.

(** A codec that stores the list itself and knows no JSON. *)
Definition demo_codec : DebtCodec (DebtDataSer + string) := {|
  bincode_serialize l := inl l;
  bincode_deserialize b :=
    match b with inl l => Some ((fun x => (x.1, strip x.2)) <$> l) | inr _ => None end;
  read_to_string b := match b with inl _ => None | inr s => Some s end;
  json_from_str s := if String.eqb s "{}" then Some [(demo_identity, set_debt 5 NodeDebtData_new)] else None;
|}.

Lemma demo_codec_laws : DebtCodecLaws demo_codec.
Proof. split. reflexivity. Qed.

Lemma save_load_roundtrip_witness :
  let s := PaymentSettings_default in
  let '(s', fs', ok) := save (C := demo_codec) WriteOk empty_keeper s ∅ in
  ok = true /\ s' = s /\
  exists dk', DebtKeeper_default (C := demo_codec) (N := Num256_panicking) s' fs' = Some dk' /\ last_save dk' = None /\
    forall i, hm_get i (debt_data dk') =
      d ← hm_get i (debt_data empty_keeper); loaded (forgive_on_reboot s) (strip d).
Proof.
  apply (save_load_roundtrip (C := demo_codec) (CL := demo_codec_laws) (N := Num256_panicking)
    PaymentSettings_default ∅ empty_keeper).
  - split; vm_compute; congruence.
  - apply empty_keeper_wf.
  - reflexivity.
Defined.

(** A debts file in the old JSON format is never loaded: the binary reader
    answers with an empty list whenever the file can be read at all, and that
    answer is preferred, so every file bincode rejects gives an empty keeper,
    whatever the JSON in it holds. *)
Theorem json_debts_discarded `{C : DebtCodec bytes} `{N : Num256} s fs file :
  fs !! debts_file s = Some file -> bincode_deserialize file = None ->
  forall dk, DebtKeeper_default s fs = Some dk -> debt_data dk = ∅.
Proof.
  intros Hf Hb dk. unfold DebtKeeper_default, deserialize_from_binary, deserialize_from_json.
  rewrite Hf. simpl. rewrite Hb. destruct (calculate_close_thresh s) as [close|]; simpl; [|done].
  destruct (_ && _); [|done]. by destruct (read_to_string file); intros [= <-].
Qed.

Lemma json_debts_discarded_witness :
  exists dk, DebtKeeper_default (C := demo_codec) (N := Num256_panicking) PaymentSettings_default
      {[ debts_file PaymentSettings_default := inr "{}"%string ]} = Some dk
    /\ json_from_str (DebtCodec := demo_codec) "{}" <> None /\ debt_data dk = ∅.
Proof.
  eexists. split; [vm_compute; reflexivity|]. split; [vm_compute; congruence|].
  apply (json_debts_discarded (C := demo_codec) (N := Num256_panicking) PaymentSettings_default
    {[ debts_file PaymentSettings_default := inr "{}"%string ]} (inr "{}"%string));
    vm_compute; reflexivity.
Defined.

(** When the debts file ends in json, saving does not replace the extension
    but throws the rest of the path away: the debts are written to the relative
    path jsonbincode and the setting is changed to it, whatever directory and
    name were configured. *)
Theorem json_path_lost `{C : DebtCodec bytes} d dk s fs :
  ends_with "json" (debts_file s) = true ->
  debts_file (save d dk s fs).1.1 = "jsonbincode"%string
  /\ forall p, p <> "jsonbincode"%string -> (save d dk s fs).1.2 !! p = fs !! p.
Proof.
  intros Hj. assert (Hp : saved_path (debts_file s) = "jsonbincode"%string).
  { unfold saved_path. rewrite Hj. unfold ends_with in Hj.
    apply andb_true_iff in Hj as [_ Hj%String.eqb_eq]. simpl in Hj. by rewrite Hj. }
  unfold save. rewrite Hp. destruct d; simpl; split; try done; intros p Hne; by rewrite lookup_insert_ne.
Qed.

Lemma json_path_lost_witness :
  debts_file (save (C := demo_codec) WriteOk empty_keeper
    (set_debts_file "/etc/rita-debts.json" PaymentSettings_default) ∅).1.1 = "jsonbincode"%string.
Proof.
  apply (json_path_lost (C := demo_codec) WriteOk empty_keeper
    (set_debts_file "/etc/rita-debts.json" PaymentSettings_default) ∅).
  reflexivity.
Defined.
