(* ===== verification/Trim.v ===== *)
(** Bounded histories: the loop that removes the entry with the smallest index
    until a map is no larger than its limit. The usage tracker runs it on the
    hourly usage and on the payments; the lemmas are shared by both. *)
From S2P Require Import Prelude.

(** [iter().min_by(..)]: the first element with the smallest measure. *)
Fixpoint min_by {A} (f : A -> Z) (l : list A) : option A :=
  match l with
  | [] => None
  | x :: rest =>
      match min_by f rest with
      | None => Some x
      | Some y => if f x <=? f y then Some x else Some y
      end
  end.

Lemma min_by_None {A} (f : A -> Z) l : min_by f l = None -> l = [].
Proof. destruct l as [|a l]; simpl; [done|]. destruct (min_by f l); [case_match|]; done. Qed.

Lemma min_by_spec {A} (f : A -> Z) l x :
  min_by f l = Some x -> x ∈ l /\ forall y, y ∈ l -> f x <= f y.
Proof.
  revert x. induction l as [|a l IH]; intros x; simpl; [done|].
  destruct (min_by f l) as [b|] eqn:Eb.
  - destruct (IH b eq_refl) as [Hin Hmin].
    destruct (Z.leb_spec (f a) (f b)); intros [= <-]; (split; [set_solver|]);
      intros y [->|Hy]%elem_of_cons; try lia; specialize (Hmin y Hy); lia.
  - intros [= <-]. apply min_by_None in Eb as ->. split; [set_solver|]. intros y [->|Hy]%elem_of_cons; [lia|by apply not_elem_of_nil in Hy].
Qed.

Section trim.
Context {K A : Type} `{Countable K} (f : K * A -> Z).

(** [while map.len() > max { remove the smallest }], at most [fuel] times. *)
Fixpoint trim (max fuel : nat) (m : gmap K A) : gmap K A :=
  match fuel with
  | O => m
  | S fuel =>
      if (size m <=? max)%nat then m
      else match min_by f (map_to_list m) with
           | Some (k, _) => trim max fuel (delete k m)
           | None => m
           end
  end.

(** The loop as the code runs it: the size of the map is enough rounds. *)
Definition trim_to (max : nat) (m : gmap K A) : gmap K A := trim max (size m) m.

Lemma trim_spec max fuel m :
  (size m <= fuel)%nat ->
  size (trim max fuel m) = Nat.min (size m) max
  /\ trim max fuel m ⊆ m
  /\ forall k x k' x', m !! k = Some x -> trim max fuel m !! k = None ->
     trim max fuel m !! k' = Some x' -> f (k, x) <= f (k', x').
Proof.
  revert m. induction fuel as [|fuel IH]; intros m Hfuel; simpl.
  { split_and!; [lia|done|]. intros. congruence. }
  destruct (Nat.leb_spec (size m) max) as [Hle|Hgt].
  { split_and!; [lia|done|]. intros. congruence. }
  destruct (min_by f (map_to_list m)) as [[k0 x0]|] eqn:Emin.
  - apply min_by_spec in Emin as [Hin Hmin]. apply elem_of_map_to_list in Hin.
    assert (Hsz : size (delete k0 m) = pred (size m)) by (by apply map_size_delete_Some).
    destruct (IH (delete k0 m)) as (Hs & Hsub & Hord); [lia|].
    assert (Hdel : delete k0 m ⊆ m) by apply delete_subseteq.
    split_and!; [lia|by etrans|]. intros k x k' x' Hk Hn Hk'.
    destruct (decide (k = k0)) as [->|Hne].
    + rewrite Hin in Hk. injection Hk as <-. apply Hmin, elem_of_map_to_list.
      eapply lookup_weaken; [exact Hk'|by etrans].
    + eapply Hord; [by rewrite lookup_delete_ne|done..].
  - apply min_by_None in Emin. exfalso.
    rewrite <- length_map_to_list, Emin in Hgt. simpl in Hgt. lia.
Qed.

Lemma trim_to_spec max m :
  size (trim_to max m) = Nat.min (size m) max
  /\ trim_to max m ⊆ m
  /\ forall k x k' x', m !! k = Some x -> trim_to max m !! k = None ->
     trim_to max m !! k' = Some x' -> f (k, x) <= f (k', x').
Proof. by apply trim_spec. Qed.

Lemma trim_to_small max m : (size m <= max)%nat -> trim_to max m = m.
Proof.
  intros Hle. unfold trim_to. destruct (size m) eqn:E; simpl; [done|].
  by rewrite E, (proj2 (Nat.leb_le _ _)).
Qed.

(** The entry with the largest measure survives. *)
Lemma trim_to_keeps_max max m k v :
  (0 < max)%nat -> m !! k = Some v ->
  (forall k' v', m !! k' = Some v' -> k' <> k -> f (k', v') < f (k, v)) ->
  trim_to max m !! k = Some v.
Proof.
  intros Hmax Hk Hlt. destruct (trim_to_spec max m) as (Hs & Hsub & Hord).
  destruct (trim_to max m !! k) as [w|] eqn:Ew.
  { pose proof (lookup_weaken _ _ _ _ Ew Hsub). congruence. }
  exfalso. assert (Hall : trim_to max m = ∅).
  { apply map_empty. intros k'. destruct (trim_to max m !! k') as [x'|] eqn:E'; [|done].
    pose proof (lookup_weaken _ _ _ _ E' Hsub) as Hin.
    specialize (Hlt k' x' Hin ltac:(congruence)). specialize (Hord k v k' x' Hk Ew E'). lia. }
  rewrite Hall, map_size_empty in Hs.
  assert (size m <> 0)%nat by (intros H0%map_size_empty_inv; by rewrite H0, lookup_empty in Hk).
  lia.
Qed.
End trim.
