(* ===== verification/UsageTracker.v ===== *)
(** The usage tracker (rita_common/src/usage_tracker/mod.rs and structs.rs, the
    conversions of althea_types/src/user_info.rs and the storage test of
    rita_common/src/rita_loop/write_to_disk.rs): bounded hourly usage histories,
    the payment history that detects replayed payments, throughput, and saving
    to disk. *)
From S2P Require Import Prelude Types Trim.

Module UsageTracker.

Definition MAX_USAGE_ENTRIES : nat := Z.to_nat 8760.
Definition MAX_TX_ENTRIES : nat := Z.to_nat 5000.
Definition MINIMUM_NUMBER_OF_TRANSACTIONS_LARGE_STORAGE : Z := 5.
Definition MINIMUM_NUMBER_OF_TRANSACTIONS_SMALL_STORAGE : Z := 75.
Definition MAX_UNSAVED_USAGE : Z := 10 * 1000 ^ 3.

Inductive UsageType := Client | Relay | Exit.

(** The derived [PartialEq] compares the hour too; only the hash leaves it out. *)
Record UsageTrackerPayment := {
  utp_to : Identity; utp_from : Identity; utp_amount : Z; utp_txid : Z; utp_index : Z;
}.
Definition utp_key : Type := id_key * id_key * Z * Z * Z.
Definition payment_key (p : UsageTrackerPayment) : utp_key :=
  (identity_key (utp_to p), identity_key (utp_from p), utp_amount p, utp_txid p, utp_index p).
#[export] Instance UsageTrackerPayment_keyed : Keyed UsageTrackerPayment utp_key := payment_key.

Definition from_payment_tx (input : PaymentTx) (index : Z) : UsageTrackerPayment := {|
  utp_to := tx_to input; utp_from := tx_from input; utp_amount := tx_amount input;
  utp_txid := txid input; utp_index := index |}.

Record UsageTrackerStorage := {
  last_save_hour : Z;
  client_bandwidth : gmap Z Usage;
  relay_bandwidth : gmap Z Usage;
  exit_bandwidth : gmap Z Usage;
  payments : gmap utp_key UsageTrackerPayment;
}.

Definition blank_usage_tracker : UsageTrackerStorage := {|
  last_save_hour := 0; client_bandwidth := ∅; relay_bandwidth := ∅; exit_bandwidth := ∅;
  payments := ∅ |}.

Definition set_payments (p : gmap utp_key UsageTrackerPayment) (u : UsageTrackerStorage)
    : UsageTrackerStorage := {|
  last_save_hour := last_save_hour u; client_bandwidth := client_bandwidth u;
  relay_bandwidth := relay_bandwidth u; exit_bandwidth := exit_bandwidth u; payments := p |}.

Definition bandwidth (k : UsageType) (u : UsageTrackerStorage) : gmap Z Usage :=
  match k with
  | Client => client_bandwidth u | Relay => relay_bandwidth u | Exit => exit_bandwidth u
  end.
Definition set_bandwidth (k : UsageType) (h : gmap Z Usage) (u : UsageTrackerStorage)
    : UsageTrackerStorage := {|
  last_save_hour := last_save_hour u;
  client_bandwidth := match k with Client => h | _ => client_bandwidth u end;
  relay_bandwidth := match k with Relay => h | _ => relay_bandwidth u end;
  exit_bandwidth := match k with Exit => h | _ => exit_bandwidth u end;
  payments := payments u |}.

Record UpdateUsage := { kind : UsageType; msg_up : Z; msg_down : Z; msg_price : Z }.

Record ThroughputData := {
  last_sample_time : option Z;
  duration_of_this_sample : Z;
  bytes_used : Z;
}.

Section operations.
Context `{P : Profile}.

(** ** Usage *)

Definition process_usage_update (current_hour : Z) (msg : UpdateUsage) (u : UsageTrackerStorage)
    : option UsageTrackerStorage :=
  let history := bandwidth (kind msg) u in
  history ←
    match history !! current_hour with
    | None =>
        Some (<[current_hour := {| up := msg_up msg; down := msg_down msg;
                                   price := msg_price msg |}]> history)
    | Some entry =>
        new_up ← u64_of (up entry + msg_up msg);
        new_down ← u64_of (down entry + msg_down msg);
        Some (<[current_hour := {| up := new_up; down := new_down; price := price entry |}]> history)
    end;
  Some (set_bandwidth (kind msg) (trim_to fst MAX_USAGE_ENTRIES history) u).

(** The three readings of the clock the method makes. *)
Definition throughput_update (now1 now2 now3 : Z) (msg : UpdateUsage) (data : ThroughputData)
    : option ThroughputData :=
  let duration :=
    match last_sample_time data with
    | Some last => if last <? now1 then instant_sub now2 last else duration_of_this_sample data
    | None => duration_of_this_sample data
    end in
  used ← match kind msg with
         | Client => u64_of (msg_up msg + msg_down msg)
         | Relay | Exit => Some (msg_up msg)
         end;
  Some {| last_sample_time := Some now3; duration_of_this_sample := duration; bytes_used := used |}.

(** [USAGE_TRACKER_STORAGE]: the history and the three throughput trackers. *)
Record UsageState := {
  usage_tracker : UsageTrackerStorage;
  tp_client : ThroughputData; tp_relay : ThroughputData; tp_exit : ThroughputData }.

Definition throughput_of (k : UsageType) (s : UsageState) : ThroughputData :=
  match k with Client => tp_client s | Relay => tp_relay s | Exit => tp_exit s end.

(** [curr_hour] is [None] if the clock is before the epoch. *)
Definition update_usage_data (curr_hour : option Z) (now1 now2 now3 : Z) (msg : UpdateUsage)
    (s : UsageState) : option UsageState :=
  match curr_hour with
  | None => Some s
  | Some hour =>
      u ← process_usage_update hour msg (usage_tracker s);
      d ← throughput_update now1 now2 now3 msg (throughput_of (kind msg) s);
      Some {| usage_tracker := u;
              tp_client := match kind msg with Client => d | _ => tp_client s end;
              tp_relay := match kind msg with Relay => d | _ => tp_relay s end;
              tp_exit := match kind msg with Exit => d | _ => tp_exit s end |}
  end.

Definition get_current_throughput (data : ThroughputData) : option Z :=
  let s := duration_of_this_sample data / NANOS in
  if bool_decide (is_Some (last_sample_time data)) && (0 <? s)
  then Some (bytes_used data / s)
  else None.

(** ** Payments *)

Definition get_txids (u : UsageTrackerStorage) : gset Z :=
  list_to_set (utp_txid <$> hs_elements (payments u)).

Definition payment_index (x : utp_key * UsageTrackerPayment) : Z := utp_index x.2.

Definition remove_oldest_payment_history_entry (u : UsageTrackerStorage) : UsageTrackerStorage :=
  match min_by payment_index (map_to_list (payments u)) with
  | Some (k, _) => set_payments (delete k (payments u)) u
  | None => u
  end.

(** [current_hour] is [None] when the clock is before the epoch. *)
Definition handle_payments (current_hour : option Z) (payment : PaymentTx) (u : UsageTrackerStorage)
    : UsageTrackerStorage :=
  match current_hour with
  | None => u
  | Some hour =>
      set_payments
        (trim_to payment_index MAX_TX_ENTRIES (hs_insert (from_payment_tx payment hour) (payments u))) u
  end.

Definition update_payments (current_hour : option Z) (payment : PaymentTx) (u : UsageTrackerStorage)
    : UsageTrackerStorage :=
  if bool_decide (txid payment ∈ get_txids u) then u
  else handle_payments current_hour payment u.

(** ** Saving *)

Definition usage_bytes (last : Z) (acc : option Z) (x : Z * Usage) : option Z :=
  total ← acc;
  if last <? x.1 then
    t ← u64_of (total + up x.2); u64_of (t + down x.2)
  else Some total.

Definition check_unsaved_usage (u : UsageTrackerStorage) : option bool :=
  total ← foldl (usage_bytes (last_save_hour u)) (Some 0)
            (map_to_list (client_bandwidth u) ++ map_to_list (relay_bandwidth u)
             ++ map_to_list (exit_bandwidth u));
  Some (MAX_UNSAVED_USAGE <? total).

Definition ascii_to_lowercase (c : Ascii.ascii) : Ascii.ascii :=
  let n := Ascii.nat_of_ascii c in
  if ((65 <=? n) && (n <=? 90))%nat then Ascii.ascii_of_nat (n + 32) else c.
Fixpoint to_lowercase (s : string) : string :=
  match s with
  | EmptyString => EmptyString
  | String c s => String (ascii_to_lowercase c) (to_lowercase s)
  end.
Fixpoint contains (pattern s : string) : bool :=
  String.prefix pattern s
  || match s with EmptyString => false | String _ s => contains pattern s end.

Definition nl : string := String (Ascii.ascii_of_nat 10) "    ".
Definition small_routers : string :=
  ("linksys_e5600|" ++ nl ++ "tplink_archer-a6-v3|" ++ nl ++ "cudy_wr2100|" ++ nl
   ++ "mikrotik_hap-ac2|" ++ nl ++ "mikrotik_routerboard-750gr3|" ++ nl
   ++ "mikrotik_routerboard-760igs|" ++ nl ++ "netgear_ex6100v2")%string.

(** Device names are ASCII; [matches(..).count() != 0] is a substring test. *)
Definition is_router_storage_small (router_model : string) : bool :=
  contains (to_lowercase router_model) small_routers.

Definition get_minimum_number_of_transactions_to_store (device : option string) : Z :=
  if is_router_storage_small (default "x86_64"%string device)
  then MINIMUM_NUMBER_OF_TRANSACTIONS_SMALL_STORAGE
  else MINIMUM_NUMBER_OF_TRANSACTIONS_LARGE_STORAGE.

Definition unsaved_payments (u : UsageTrackerStorage) : Z :=
  Z.of_nat (length (filter (fun p => last_save_hour u < utp_index p) (hs_elements (payments u)))).

Definition check_unsaved_payments (device : option string) (u : UsageTrackerStorage) : bool :=
  get_minimum_number_of_transactions_to_store device <? unsaved_payments u.
End operations.

Section save.
Context `{P : Profile} {bytes : Type} (serialize : UsageTrackerStorage -> option bytes)
        (compress_serialized : bytes -> option bytes) (app_bytes : bytes -> bytes -> bytes)
        (no_bytes : bytes).

(** A [write_all] succeeds, or fails after writing part of the data. *)
Inductive write_result := Written | Partly (part : bytes).

(** The retry loop, with [attempt] the result of the n-th write. The file is
    opened once, so what a failed write left in it stays in front. The result
    is the tracker, the content of the file and whether the data was written;
    [None] when the fuel runs out. *)
Fixpoint save_loop (fuel n : nat) (attempt : nat -> write_result) (newsize : Z)
    (file compressed : bytes) (u : UsageTrackerStorage)
    : option (UsageTrackerStorage * bytes * (RitaCommonError + unit)) :=
  match fuel with
  | O => None
  | S fuel =>
      match attempt n with
      | Written => Some (u, app_bytes file compressed, inr tt)
      | Partly part =>
          let file := app_bytes file part in
          if 1000 <=? newsize then
            let newsize := newsize / 2 in
            let u := set_payments (trim_to payment_index (Z.to_nat newsize) (payments u)) u in
            match serialize u with
            | None => Some (u, file, inl BincodeError)
            | Some serialized =>
                match compress_serialized serialized with
                | None => Some (u, file, inl (StdError "compress"))
                | Some compressed => save_loop fuel (S n) attempt newsize file compressed u
                end
            end
          else Some (u, file, inl (StdError "write"))
      end
  end.

(** [created] is whether [File::create] succeeds; it truncates the file. The
    outer [None] is the overflow panic of the byte count. *)
Definition save (device : option string) (created : bool) (attempt : nat -> write_result)
    (old_file : bytes) (u : UsageTrackerStorage)
    : option (UsageTrackerStorage * bytes * (RitaCommonError + unit)) :=
  heavy ← (if check_unsaved_payments device u then Some true else check_unsaved_usage u);
  if heavy : bool then Some (u, old_file, inl (StdError "Too little data for writing"))
  else match serialize u with
       | None => Some (u, old_file, inl BincodeError)
       | Some serialized =>
           if created then
             match compress_serialized serialized with
             | None => Some (u, no_bytes, inl (StdError "compress"))
             | Some compressed =>
                 save_loop 4 0 attempt (Z.of_nat MAX_TX_ENTRIES) no_bytes compressed u
             end
           else Some (u, old_file, inl (StdError "create"))
       end.
End save.

(** ** Converting between the flat and the indexed format *)

Definition usage_of_hour (h : IndexedUsageHour) : Usage :=
  {| up := hour_up h; down := hour_down h; price := hour_price h |}.
Definition hour_of_usage (i : Z) (u : Usage) : IndexedUsageHour :=
  {| hour_index := i; hour_up := up u; hour_down := down u; hour_price := price u |}.

Definition add_flat_hour (out : gmap Z Usage) (hour : IndexedUsageHour) : gmap Z Usage :=
  match out !! hour_index hour with
  | Some to_edit =>
      <[hour_index hour := {| up := Z.max (up to_edit) (hour_up hour);
                              down := Z.max (down to_edit) (hour_down hour);
                              price := Z.max (price to_edit) (hour_price hour) |}]> out
  | None => <[hour_index hour := usage_of_hour hour]> out
  end.
Definition convert_flat_to_map_usage_data (input : list IndexedUsageHour) : gmap Z Usage :=
  foldl add_flat_hour ∅ input.

(** [sort_by(|a, b| a.index.cmp(&b.index))] *)
Definition index_le (a b : IndexedUsageHour) : Prop := hour_index a <= hour_index b.
#[export] Instance index_le_dec : RelDecision index_le.
Proof. intros a b. unfold index_le. apply _. Defined.
Definition convert_map_to_flat_usage_data (input : gmap Z Usage) : list IndexedUsageHour :=
  merge_sort index_le ((fun x => hour_of_usage x.1 x.2) <$> map_to_list input).

End UsageTracker.
Export UsageTracker.
