(* ===== verification/UsageTrackerSpec.v ===== *)
(** The properties of the usage tracker: bounded histories that forget the
    oldest entries, the payment history as a replay filter, the behaviour of
    saving, and the conversion between the storage formats. *)
From S2P Require Import Prelude Types Trim UsageTracker.

#[local] Arguments trim_to : simpl never.
#[local] Arguments hs_insert : simpl never.

(** Recording usage touches one history only; the history never holds more
    than a year of hours, only hours older than the ones kept are forgotten, and
    when the hour recorded is the newest one its entry holds the sum of what was
    there and the new traffic, with the price of the hour's first sample. *)
Theorem usage_history_bounded `{P : Profile} hour msg u u' :
  process_usage_update hour msg u = Some u' ->
  let old := bandwidth (kind msg) u in
  let new := bandwidth (kind msg) u' in
  (size new <= MAX_USAGE_ENTRIES)%nat
  /\ (forall k, k <> kind msg -> bandwidth k u' = bandwidth k u)
  /\ payments u' = payments u
  /\ (forall h x h' x', old !! h = Some x -> new !! h = None -> new !! h' = Some x' -> h <= h')
  /\ ((forall h, is_Some (old !! h) -> h <= hour) ->
      match old !! hour with
      | None => new !! hour = Some {| up := msg_up msg; down := msg_down msg; price := msg_price msg |}
      | Some e =>
          up e + msg_up msg <= U64_MAX -> down e + msg_down msg <= U64_MAX ->
          0 <= up e + msg_up msg -> 0 <= down e + msg_down msg ->
          new !! hour = Some {| up := up e + msg_up msg; down := down e + msg_down msg;
                                price := price e |}
      end).
Proof.
  unfold process_usage_update. set (old := bandwidth (kind msg) u).
  destruct (match old !! hour with None => _ | Some _ => _ end) as [h1|] eqn:Eh; simpl; [|done].
  intros [= <-].
  assert (Hb : bandwidth (kind msg) (set_bandwidth (kind msg) (trim_to fst MAX_USAGE_ENTRIES h1) u)
               = trim_to fst MAX_USAGE_ENTRIES h1) by (by destruct (kind msg)).
  rewrite Hb.
  destruct (trim_to_spec (fst (A := Z) (B := Usage)) MAX_USAGE_ENTRIES h1) as (Hs & Hsub & Hord).
  assert (Hlook : exists v, h1 = <[hour := v]> old).
  { destruct (old !! hour) as [e|]; [|simplify_eq; eauto].
    destruct (u64_of (up e + msg_up msg)); simplify_eq/=.
    destruct (u64_of (down e + msg_down msg)); simplify_eq/=. eauto. }
  destruct Hlook as [v ->]. split_and!; [lia| |done| |].
  - intros k Hk. by destruct k, (kind msg).
  - intros h x h' x' Hx Hn Hx'. destruct (decide (h = hour)) as [->|Hne].
    + eapply (Hord hour v); [apply lookup_insert_eq|done..].
    + eapply (Hord h x); [by rewrite lookup_insert_ne|done..].
  - intros Hnew.
    assert (Hkept : trim_to fst MAX_USAGE_ENTRIES (<[hour := v]> old) !! hour = Some v).
    { apply trim_to_keeps_max; [unfold MAX_USAGE_ENTRIES; lia|apply lookup_insert_eq|].
      intros h x Hh Hne. rewrite lookup_insert_ne in Hh by done. simpl.
      pose proof (Hnew h (mk_is_Some _ _ Hh)). lia. }
    rewrite Hkept. destruct (old !! hour) as [e|] eqn:Eo.
    + intros H1 H2 H3 H4. unfold u64_of in Eh. rewrite !native_exact in Eh by lia. simpl in Eh.
      injection Eh as Eh. pose proof (lookup_insert_eq old hour v) as E.
      rewrite <- Eh, lookup_insert_eq in E. by rewrite E.
    + injection Eh as Eh. pose proof (lookup_insert_eq old hour v) as E.
      rewrite <- Eh, lookup_insert_eq in E. by rewrite E.
Qed.

Definition demo_usage (a b : Z) : UpdateUsage :=
  {| kind := Relay; msg_up := a; msg_down := b; msg_price := 3 |}.

Lemma usage_history_bounded_witness :
  exists u, @process_usage_update debug_profile 10 (demo_usage 5 6) blank_usage_tracker = Some u
  /\ (size (bandwidth Relay u) <= MAX_USAGE_ENTRIES)%nat.
Proof.
  destruct (@process_usage_update debug_profile 10 (demo_usage 5 6) blank_usage_tracker)
    as [u|] eqn:E; [|vm_compute in E; congruence].
  exists u. split; [done|].
  exact (proj1 (@usage_history_bounded debug_profile 10 (demo_usage 5 6) blank_usage_tracker u E)).
Defined.

(** * The payment history *)

(** Sound histories: entries under their own key, one entry per txid. *)
Definition txids_unique (u : UsageTrackerStorage) : Prop :=
  hs_wf (payments u)
  /\ forall k k' p p', payments u !! k = Some p -> payments u !! k' = Some p' ->
     utp_txid p = utp_txid p' -> k = k'.

Lemma elem_of_get_txids u x :
  hs_wf (payments u) ->
  x ∈ get_txids u <-> exists k p, payments u !! k = Some p /\ utp_txid p = x.
Proof.
  intros Hwf. unfold get_txids. rewrite elem_of_list_to_set, list_elem_of_fmap. split.
  - intros (p & -> & Hp). apply elem_of_hs_elements in Hp; [|done]. eauto.
  - intros (k & p & Hp & <-). exists p. split; [done|]. apply elem_of_hs_elements; [done|].
    by rewrite (Hwf _ _ Hp).
Qed.

(** The payment history filters replays: a payment whose txid is already
    there changes nothing, txids stay unique, no more than 5000 payments are
    kept, and those forgotten are no newer than those kept. *)
Theorem payment_history_filters_replays hour p u :
  txids_unique u ->
  txids_unique (update_payments hour p u)
  /\ (txid p ∈ get_txids u -> update_payments hour p u = u)
  /\ (txid p ∉ get_txids u -> hour <> None ->
      (size (payments (update_payments hour p u)) <= MAX_TX_ENTRIES)%nat)
  /\ (forall k x k' x', payments u !! k = Some x ->
      payments (update_payments hour p u) !! k = None ->
      payments (update_payments hour p u) !! k' = Some x' -> utp_index x <= utp_index x')
  /\ (forall k x, payments (update_payments hour p u) !! k = Some x ->
      payments u !! k = Some x \/ Some x = from_payment_tx p <$> hour).
Proof.
  intros [Hwf Huniq]. unfold update_payments.
  case_bool_decide as Hin; [split_and!; try done; naive_solver|].
  destruct hour as [hour|]; simpl; [|split_and!; try done; naive_solver].
  set (new := from_payment_tx p hour).
  assert (Hfresh : forall k x, payments u !! k = Some x -> utp_txid x <> utp_txid new).
  { intros k x Hx Heq. apply Hin, elem_of_get_txids; eauto. }
  assert (Hins : hs_insert new (payments u) = <[key new := new]> (payments u)).
  { unfold hs_insert. destruct (payments u !! key new) as [x|] eqn:E; [|done].
    pose proof (Hwf _ _ E) as Hk. injection Hk as _ _ _ Ht _. by destruct (Hfresh _ _ E). }
  destruct (trim_to_spec payment_index MAX_TX_ENTRIES (hs_insert new (payments u)))
    as (Hs & Hsub & Hord). rewrite Hins in *.
  assert (Hof : forall k x, trim_to payment_index MAX_TX_ENTRIES (<[key new := new]> (payments u)) !! k = Some x ->
    (k = key new /\ x = new) \/ payments u !! k = Some x).
  { intros k x Hx. pose proof (lookup_weaken _ _ _ _ Hx Hsub) as H.
    apply lookup_insert_Some in H as [[<- <-]|[_ H]]; auto. }
  split_and!; simpl.
  - split; simpl.
    + intros k x [[-> ->]|Hx]%Hof; [done|by apply Hwf].
    + intros k k' x x' [[-> ->]|Hx]%Hof [[-> ->]|Hx']%Hof Ht; [done| | |by eapply Huniq];
        [by destruct (Hfresh _ _ Hx')|by destruct (Hfresh _ _ Hx)].
  - done.
  - intros _ _. lia.
  - intros k x k' x' Hx Hn Hx'. destruct (decide (k = key new)) as [->|Hne].
    + pose proof (Hwf _ _ Hx) as Hk. injection Hk as _ _ _ Ht _. by destruct (Hfresh _ _ Hx).
    + apply (Hord k x k' x'); [by rewrite lookup_insert_ne|done..].
  - intros k x [[-> ->]|Hx]%Hof; auto.
Qed.

Definition demo_tx (id : Z) : PaymentTx := {|
  tx_to := {| mesh_ip := V6 3; eth_address := 1; wg_public_key := 5; nickname := None |};
  tx_from := {| mesh_ip := V6 4; eth_address := 2; wg_public_key := 6; nickname := None |};
  tx_amount := 10; txid := id |}.

Lemma payment_history_filters_replays_witness :
  txids_unique (update_payments (Some 4) (demo_tx 77) blank_usage_tracker).
Proof.
  apply (payment_history_filters_replays (Some 4) (demo_tx 77) blank_usage_tracker).
  split; [intros k x Hx|intros k k' x x' Hx]; simpl in Hx; by rewrite lookup_empty in Hx.
Defined.

(** * Saving *)

Section saving.
Context `{P : Profile} {bytes : Type} (serialize : UsageTrackerStorage -> option bytes)
        (compress : bytes -> option bytes) (app_bytes : bytes -> bytes -> bytes)
        (no_bytes : bytes).

(** Each failed write halves the limit, so the fuel bounds the number of writes. *)
Lemma save_loop_enough fuel n attempt newsize file c u :
  newsize < 500 * 2 ^ Z.of_nat fuel -> (1 <= fuel)%nat ->
  save_loop serialize compress app_bytes fuel n attempt newsize file c u <> None.
Proof.
  revert n newsize file c u. induction fuel as [|fuel IH]; intros n newsize file c u Hb H1; [lia|].
  rewrite Nat2Z.inj_succ, Z.pow_succ_r in Hb by lia.
  simpl. destruct (attempt n) as [|part]; [done|].
  destruct (Z.leb_spec 1000 newsize); [|done].
  destruct (serialize _) as [b|]; [|done]. destruct (compress b) as [c'|]; [|done].
  apply IH; [apply Z.div_lt_upper_bound; lia|]. destruct fuel; simpl in Hb; lia.
Qed.

Lemma save_loop_tracker fuel n attempt newsize file c u u' f r :
  save_loop serialize compress app_bytes fuel n attempt newsize file c u = Some (u', f, r) ->
  payments u' ⊆ payments u /\ client_bandwidth u' = client_bandwidth u
  /\ relay_bandwidth u' = relay_bandwidth u /\ exit_bandwidth u' = exit_bandwidth u
  /\ last_save_hour u' = last_save_hour u
  /\ r <> inl (StdError "Too little data for writing").
Proof.
  revert n newsize file c u. induction fuel as [|fuel IH]; intros n newsize file c u; simpl; [done|].
  destruct (attempt n) as [|part]; [intros [= <- <- <-]; by split_and!|].
  destruct (1000 <=? newsize); [|intros [= <- <- <-]; by split_and!].
  destruct (trim_to_spec payment_index (Z.to_nat (newsize / 2)) (payments u)) as (_ & Hsub & _).
  destruct (serialize _) as [b|]; [|intros [= <- <- <-]; by split_and!].
  destruct (compress b) as [c'|]; [|intros [= <- <- <-]; by split_and!].
  intros (? & ? & ? & ? & ? & ?)%IH. split_and!; try done. by etrans.
Qed.
End saving.

(** Saving always comes to an end: four writes are enough for the retry
    loop, whatever the disk does, and the bandwidth history is never touched by
    it; payments are only ever dropped. The save is refused with the message
    that there is too little data exactly when there are more unsaved payments
    than the minimum, or more than ten gigabytes of unsaved usage. The time of
    the last save is never advanced. *)
Theorem save_terminates `{P : Profile} {bytes} serialize compress (app_bytes : bytes -> bytes -> bytes)
    no_bytes device created attempt old_file u total :
  check_unsaved_usage u = Some total ->
  exists u' file r,
    save serialize compress app_bytes no_bytes device created attempt old_file u = Some (u', file, r)
    /\ payments u' ⊆ payments u /\ client_bandwidth u' = client_bandwidth u
    /\ relay_bandwidth u' = relay_bandwidth u /\ exit_bandwidth u' = exit_bandwidth u
    /\ last_save_hour u' = last_save_hour u
    /\ (get_minimum_number_of_transactions_to_store device < unsaved_payments u \/ total = true <->
        r = inl (StdError "Too little data for writing")).
Proof.
  intros Hu. unfold save. rewrite Hu.
  assert (Hheavy : check_unsaved_payments device u = true <->
    get_minimum_number_of_transactions_to_store device < unsaved_payments u) by apply Z.ltb_lt.
  replace (if check_unsaved_payments device u then Some true else Some total)
    with (Some (check_unsaved_payments device u || total))
    by (by destruct (check_unsaved_payments device u)).
  cbn -[save_loop]. destruct (check_unsaved_payments device u || total) eqn:Eh.
  { do 3 eexists. split; [reflexivity|]. split_and!; try done. split; [done|]. intros _.
    apply orb_true_iff in Eh as [?%Hheavy| ->]; auto. }
  apply orb_false_iff in Eh as [Ep ->].
  assert (Hr : forall r : RitaCommonError + unit, r <> inl (StdError "Too little data for writing") ->
    (get_minimum_number_of_transactions_to_store device < unsaved_payments u \/ false = true <->
     r = inl (StdError "Too little data for writing"))).
  { intros r Hr. split; [|done]. intros [H%Hheavy|[=]]. congruence. }
  destruct (serialize u) as [b|]; [|do 3 eexists; split; [reflexivity|]; split_and!; by try apply Hr].
  destruct created; [|do 3 eexists; split; [reflexivity|]; split_and!; by try apply Hr].
  destruct (compress b) as [c|]; [|do 3 eexists; split; [reflexivity|]; split_and!; by try apply Hr].
  destruct (save_loop serialize compress app_bytes 4 0 attempt (Z.of_nat MAX_TX_ENTRIES) no_bytes c u)
    as [[[u' f] r]|] eqn:E.
  - pose proof (save_loop_tracker _ _ _ _ _ _ _ _ _ _ _ _ _ E) as (? & ? & ? & ? & ? & ?).
    exists u', f, r. split_and!; try done; by apply Hr.
  - exfalso. revert E. apply save_loop_enough; [reflexivity|lia].
Qed.

Lemma save_terminates_witness :
  exists r, @save debug_profile Z (fun _ => Some 1) Some Z.add 0 None true
              (fun _ => Partly 7) 0 blank_usage_tracker = Some r.
Proof.
  destruct (@save_terminates debug_profile Z (fun _ => Some 1) Some Z.add 0 None true (fun _ => Partly 7)
    0 blank_usage_tracker false) as (u & f & r & E & _); [vm_compute; reflexivity|eauto].
Defined.

(** * Formats *)

Lemma flat_fold_lookup l m h :
  NoDup (hour_index <$> l) -> Forall (fun x => m !! hour_index x = None) l ->
  foldl add_flat_hour m l !! h =
    match find (fun x => hour_index x =? h) l with
    | Some x => Some (usage_of_hour x)
    | None => m !! h
    end.
Proof.
  revert m. induction l as [|x l IH]; intros m Hnd Hm; simpl; [done|].
  apply NoDup_cons in Hnd as [Hx Hnd]. apply Forall_cons in Hm as [Hm0 Hm].
  assert (Hadd : add_flat_hour m x = <[hour_index x := usage_of_hour x]> m)
    by (unfold add_flat_hour; by rewrite Hm0).
  assert (Hne : forall y, y ∈ l -> hour_index y <> hour_index x).
  { intros y Hy Heq. apply Hx. rewrite <- Heq. by apply list_elem_of_fmap_2. }
  rewrite Hadd, IH; [|done|].
  - destruct (Z.eqb_spec (hour_index x) h) as [<-|Hh]; [|by rewrite lookup_insert_ne].
    destruct (find _ l) as [y|] eqn:Ef; [|by rewrite lookup_insert_eq].
    apply find_some in Ef as [Hy%list_elem_of_In Heq%Z.eqb_eq]. by destruct (Hne y Hy).
  - rewrite Forall_forall in Hm |- *. intros y Hy. rewrite lookup_insert_ne by (symmetry; eauto). auto.
Qed.

(** The flat format holds the hours in ascending order, one element per
    hour, and reading it back gives the same history. *)
Theorem flat_roundtrip (m : gmap Z Usage) :
  StronglySorted index_le (convert_map_to_flat_usage_data m)
  /\ convert_flat_to_map_usage_data (convert_map_to_flat_usage_data m) = m.
Proof.
  set (pairs := (fun x : Z * Usage => hour_of_usage x.1 x.2) <$> map_to_list m).
  assert (Hperm : convert_map_to_flat_usage_data m ≡ₚ pairs) by apply merge_sort_Permutation.
  split.
  { apply StronglySorted_merge_sort.
    - intros a b c. unfold index_le. lia.
    - intros a b. unfold index_le. lia. }
  assert (Hnd : NoDup (hour_index <$> convert_map_to_flat_usage_data m)).
  { rewrite Hperm. unfold pairs. rewrite <- list_fmap_compose. apply (NoDup_fst_map_to_list m). }
  apply map_eq. intros h. unfold convert_flat_to_map_usage_data.
  rewrite flat_fold_lookup; [|done|apply Forall_forall; intros; apply lookup_empty].
  destruct (find _ _) as [x|] eqn:Ef.
  - apply find_some in Ef as [Hx%list_elem_of_In Hh%Z.eqb_eq]. rewrite Hperm in Hx.
    apply list_elem_of_fmap in Hx as ([k u] & -> & Hin%elem_of_map_to_list). simpl in Hh. subst k.
    rewrite Hin. by destruct u.
  - rewrite lookup_empty. symmetry. apply eq_None_not_Some. intros [u Hu].
    assert (Hin : hour_of_usage h u ∈ convert_map_to_flat_usage_data m).
    { rewrite Hperm. apply list_elem_of_fmap. exists (h, u). split; [done|]. by apply elem_of_map_to_list. }
    pose proof (find_none _ _ Ef _ (proj1 (list_elem_of_In _ _) Hin)) as Hn. simpl in Hn. lia.
Qed.
