(* ===== verification/PaymentValidator.v ===== *)
(** The payment validator (rita_common/src/payment_validator/mod.rs) and the
    endpoints that feed it (rita_common/src/network_endpoints/mod.rs): the queue
    of payments waiting for validation, the checks against the chain, the
    histories that keep a payment from being counted twice. *)
From S2P Require Import Prelude Types Oracle TxFee DebtKeeper Trim UsageTracker.

Definition PAYMENT_RECEIVE_TIMEOUT : Z := secs 259200.
Definition BLOCKS_TO_CONFIRM : Z := 4.
Definition BLOCKS_TO_OLD : Z := 1440.
Definition VALIDATE_BATCH_SIZE : nat := 10.

Module PaymentValidator.

Record ToValidate := {
  payment : PaymentTx;
  received : Z;
  timeout_block : option Z;
}.
(** The derived [PartialEq] compares all three fields. *)
Definition tv_key : Type := tx_key * Z * option Z.
Definition tovalidate_key (t : ToValidate) : tv_key :=
  (paymenttx_key (payment t), received t, timeout_block t).
#[export] Instance ToValidate_keyed : Keyed ToValidate tv_key := tovalidate_key.

Definition tv_txid (t : ToValidate) : Z := txid (payment t).

(** ** The incoming queue *)

(** [INCOMING_TRANSACTIONS]: a queue shared by all network namespaces. *)
Abbreviation IncomingQueue := (list (Z * ToValidate)).

Definition add_to_incoming_transaction_queue (netns : Z) (tx : ToValidate) (q : IncomingQueue)
    : IncomingQueue := q ++ [(netns, tx)].

(** [make_payments] and [make_payments_v2]; both always answer Ok. *)
Definition make_payments (netns now : Z) (pmt : PaymentTx) (q : IncomingQueue) : IncomingQueue :=
  add_to_incoming_transaction_queue netns
    {| payment := pmt; received := now; timeout_block := None |} q.
Definition make_payments_v2 (netns now : Z) (pmt_list : list PaymentTx) (q : IncomingQueue) : IncomingQueue :=
  foldl (fun q pmt => make_payments netns now pmt q) q pmt_list.

(** The drain loop: pop, keep what is ours, push the rest back. [None] when the
    fuel runs out before the queue is empty. *)
Fixpoint drain (fuel : nat) (our_netns : Z) (q : IncomingQueue) (acc : list ToValidate)
    : option (list ToValidate * IncomingQueue) :=
  match fuel with
  | O => None
  | S fuel =>
      match q with
      | [] => Some (acc, [])
      | (tx_netns, ts) :: q =>
          if tx_netns =? our_netns then drain fuel our_netns q (acc ++ [ts])
          else drain fuel our_netns (q ++ [(tx_netns, ts)]) acc
      end
  end.
Definition get_incoming_transaction_queue (fuel : nat) (our_netns : Z) (q : IncomingQueue)
    : option (list ToValidate * IncomingQueue) := drain fuel our_netns q [].

(** ** The validator's state *)

Record PaymentValidator := {
  unvalidated_transactions : gmap tv_key ToValidate;
  previously_sent_payments : gmap id_key (Identity * gmap tx_key PaymentTx);
  successful_transactions : gmap tx_key PaymentTx;
}.

Definition PaymentValidator_new : PaymentValidator := {|
  unvalidated_transactions := ∅; previously_sent_payments := ∅; successful_transactions := ∅ |}.

Definition pending_txids (v : PaymentValidator) : list Z :=
  tv_txid <$> hs_elements (unvalidated_transactions v).
Definition sent_txids (v : PaymentValidator) : list Z :=
  hm_entries (previously_sent_payments v) ≫= (fun x => txid <$> hs_elements x.2).
Definition successful_txids (v : PaymentValidator) : list Z :=
  txid <$> hs_elements (successful_transactions v).

(** The scan of [is_consistent]: [None] at the first txid already seen. *)
Fixpoint scan_txids (seen : gset Z) (l : list Z) : option (gset Z) :=
  match l with
  | [] => Some seen
  | x :: rest => if bool_decide (x ∈ seen) then None else scan_txids ({[x]} ∪ seen) rest
  end.

Definition is_consistent (v : PaymentValidator) : bool :=
  match scan_txids ∅ (pending_txids v) with
  | None => false
  | Some seen =>
      match scan_txids seen (sent_txids v) with
      | None => false
      | Some seen =>
          match scan_txids seen (successful_txids v) with
          | None => false
          | Some _ => true
          end
      end
  end.

Definition check_for_duplicates (tx : ToValidate) (v : PaymentValidator) : bool :=
  let txids : gset Z :=
    list_to_set (pending_txids v) ∪ list_to_set (sent_txids v) ∪ list_to_set (successful_txids v) in
  bool_decide (tv_txid tx ∈ txids).

Section state.
Context `{P : Profile}.

(** [None] is the panic of a development build. *)
Definition remove (tx : ToValidate) (our_address : Z) (success : bool) (v : PaymentValidator)
    : option PaymentValidator :=
  let was_present := hs_contains tx (unvalidated_transactions v) in
  let from_us := eth_address (tx_from (payment tx)) =? our_address in
  let v := {|
    unvalidated_transactions := hs_remove tx (unvalidated_transactions v);
    previously_sent_payments :=
      if success && from_us then
        let txs := default ∅ (hm_get (tx_to (payment tx)) (previously_sent_payments v)) in
        hm_insert (tx_to (payment tx)) (hs_insert (payment tx) txs) (previously_sent_payments v)
      else previously_sent_payments v;
    successful_transactions :=
      if success && negb from_us then hs_insert (payment tx) (successful_transactions v)
      else successful_transactions v |} in
  if was_present && is_consistent v then Some v
  else if dev_build then None else Some v.

Definition add_to_validation_queue (ts : ToValidate) (v : PaymentValidator)
    : PaymentValidator * (RitaCommonError + unit) :=
  if negb (check_for_duplicates ts v) then
    ({| unvalidated_transactions := hs_insert ts (unvalidated_transactions v);
        previously_sent_payments := previously_sent_payments v;
        successful_transactions := successful_transactions v |}, inr tt)
  else (v, inl DuplicatePayment).
End state.

(** ** Checks against the chain *)

(** Answers about one transaction of an Ethereum chain; the three kinds of
    transaction carry the same fields here. *)
Inductive TransactionResponse :=
| Eip1559 (to : option Z) (from value : Z) (block_number : option Z)
| Eip2930 (to : option Z) (from value : Z) (block_number : option Z)
| Legacy (to : option Z) (from value : Z) (block_number : option Z).

Definition get_xdai_transaction_details (t : TransactionResponse)
    : option Z * Z * Z * option Z :=
  match t with
  | Eip1559 to from value block_number => (to, from, value, block_number)
  | Eip2930 to from value block_number => (to, from, value, block_number)
  | Legacy to from value block_number => (to, from, value, block_number)
  end.

(** The subtraction is only reached when it cannot underflow. *)
Definition payment_in_chain_xdai (chain_height : Z) (tx_height : option Z) : bool :=
  match tx_height with
  | Some tx_block =>
      if chain_height <? tx_block then false else BLOCKS_TO_CONFIRM <=? chain_height - tx_block
  | None => false
  end.

Definition payment_is_old (chain_height : Z) (tx_height : option Z) : bool :=
  match tx_height with
  | Some tx_block =>
      if chain_height <? tx_block then false else BLOCKS_TO_OLD <? chain_height - tx_block
  | None => false
  end.

Record Coin := { coin_amount : Z; coin_denom : string }.
Record MsgMicrotx := { sender : string; receiver : string; msg_amount : option Coin }.

(** What validation changes outside the validator. *)
Record VWorld := { vw_debts : World; vw_usage : UsageTrackerStorage }.
Abbreviation VM A := (M VWorld RitaCommonError A).

Definition on_debts {A} (m : M World RitaCommonError A) : VM A :=
  fun w => match m (vw_debts w) with
           | Done d a => Done {| vw_debts := d; vw_usage := vw_usage w |} a
           | Fail d e => Fail {| vw_debts := d; vw_usage := vw_usage w |} e
           | Panic => Panic
           end.
Definition on_usage (f : UsageTrackerStorage -> UsageTrackerStorage) : VM unit :=
  modify (fun w => {| vw_debts := vw_debts w; vw_usage := f (vw_usage w) |}).

(** The node as validation sees it. *)
Record venv := {
  ve_netns : Z;
  ve_default : option DebtKeeper;
  ve_settings : PaymentSettings;
  ve_now : Z;
  ve_hour : option Z;
  ve_our_id : option Identity;
}.

Section validation.
Context `{N : Num256} `{P : Profile} (e : venv).

Definition handle_tx_messaging_xdai (transaction : TransactionResponse) (ts : ToValidate)
    (current_block : Z) : VM (option (ToValidate * bool)) :=
  let pmt := payment ts in
  let amount := tx_amount pmt in
  let! our_address := unwrap (settings_eth_address (ve_settings e)) in
  let '(tx_to', tx_from', tx_value, tx_block_number) := get_xdai_transaction_details transaction in
  match tx_to' with
  | None => ret (Some (ts, false))
  | Some to =>
      let to_us := to =? our_address in
      let from_us := tx_from' =? our_address in
      let value_correct := tx_value =? amount in
      let is_in_chain := payment_in_chain_xdai current_block tx_block_number in
      let is_old := payment_is_old current_block tx_block_number in
      if negb value_correct then ret (Some (ts, false))
      else if is_old then ret (Some (ts, false))
      else
        match to_us, from_us, is_in_chain with
        | true, false, true =>
            ignore_err (on_debts (payment_received (ve_netns e) (ve_default e)
                                    (tx_from pmt) (tx_amount pmt) wei_denom));!
            on_usage (update_payments (ve_hour e) pmt);!
            ret (Some (ts, true))
        | false, true, true =>
            ignore_err (on_debts (payment_succeeded (ve_netns e) (ve_default e) (ve_settings e)
                                    (ve_now e) (tx_to pmt) (tx_amount pmt) wei_denom));!
            on_usage (update_payments (ve_hour e) pmt);!
            ret (Some (ts, true))
        | true, true, _ => ret (Some (ts, false))
        | false, false, _ => ret (Some (ts, false))
        | _, _, false => ret None
        end
  end.

(** The answers of the full node: block height and transaction, [None] for a
    failed request. *)
Definition handle_xdai_tx_checking (eth_transaction : Z -> option (option TransactionResponse))
    (eth_block_num : option Z) (ts : ToValidate) : VM (option (ToValidate * bool)) :=
  match eth_transaction (tv_txid ts), eth_block_num with
  | Some (Some transaction), Some block_num => handle_tx_messaging_xdai transaction ts block_num
  | _, _ => ret None
  end.

(** ** Althea L1 *)

(** Decoding the protobuf messages, parsing an address and deriving the Althea
    address of an Ethereum address are code of other crates. *)
Context {bytes : Type} (decode_tx_raw : bytes -> option bytes)
        (decode_tx_body : bytes -> option (list bytes)) (decode_msg : bytes -> option MsgMicrotx)
        (parse_address : string -> option Z) (althea_address : Z -> Z).

Record GetTxResponse := { tx_response : option (option bytes) }.

(** A development build panics where a release build gives up on the message. *)
Definition dev_panic_or {A} (a : A) : VM A := if dev_build then panic else ret a.

Definition decode_althea_microtx (response : GetTxResponse) : VM (list MsgMicrotx) :=
  match tx_response response with
  | Some tx_resp =>
      match tx_resp with
      | None => dev_panic_or []
      | Some tx =>
          match decode_tx_raw tx with
          | None => dev_panic_or []
          | Some body =>
              match decode_tx_body body with
              | None => dev_panic_or []
              | Some messages => ret (omap decode_msg messages)
              end
          end
      end
  | None => dev_panic_or []
  end.

Definition handle_tx_messaging_althea (transactions : list MsgMicrotx) (ts : ToValidate)
    : VM (option (ToValidate * bool)) :=
  let rejected := Some (ts, false) in
  match transactions with
  | [] => dev_panic_or rejected
  | transaction :: _ =>
      match msg_amount transaction with
      | None => dev_panic_or rejected
      | Some amount =>
          match parse_address (receiver transaction) with
          | None => dev_panic_or rejected
          | Some receiver_address =>
              match parse_address (sender transaction) with
              | None => dev_panic_or rejected
              | Some sender_address =>
                  match find (fun d => String.eqb (coin_denom amount) (denom d))
                             (althea_l1_accepted_denoms (ve_settings e)) with
                  | None => ret rejected
                  | Some d =>
                      let! our_id := unwrap (ve_our_id e) in
                      let our_address := althea_address (eth_address our_id) in
                      let to_us := receiver_address =? our_address in
                      let from_us := sender_address =? our_address in
                      let pmt := payment ts in
                      if negb (coin_amount amount =? tx_amount pmt) then ret rejected
                      else
                        match to_us, from_us with
                        | true, false =>
                            ignore_err (on_debts (payment_received (ve_netns e) (ve_default e)
                                                    (tx_from pmt) (tx_amount pmt) d));!
                            on_usage (update_payments (ve_hour e) pmt);!
                            ret (Some (ts, true))
                        | false, true =>
                            (fun w => match on_debts (payment_succeeded (ve_netns e) (ve_default e)
                                               (ve_settings e) (ve_now e) (tx_to pmt)
                                               (tx_amount pmt) d) w with
                                      | Fail _ _ => Panic
                                      | r => r
                                      end);!
                            on_usage (update_payments (ve_hour e) pmt);!
                            ret (Some (ts, true))
                        | true, true => ret rejected
                        | false, false => ret rejected
                        end
                  end
              end
          end
      end
  end.

Definition handle_althea_tx_checking (get_tx : Z -> option GetTxResponse)
    (status : option ChainStatus) (ts : ToValidate) : VM (option (ToValidate * bool)) :=
  match get_tx (tv_txid ts), status with
  | Some transaction, _ =>
      let! txs := decode_althea_microtx transaction in
      handle_tx_messaging_althea txs ts
  | None, Some (Moving block_height) =>
      match timeout_block ts with
      | Some timeout_block =>
          if timeout_block <? block_height then ret (Some (ts, false)) else ret None
      | None => ret None
      end
  | None, _ => ret None
  end.
End validation.

(** ** One tick *)

(** The batching loop: the batches that are run, in order. The future at which a
    full batch is flushed is not put into the next one. *)
Fixpoint batches {A} (buf futs : list A) : list (list A) :=
  match futs with
  | [] => [buf]
  | f :: rest =>
      if (length buf <? VALIDATE_BATCH_SIZE)%nat then batches (buf ++ [f]) rest
      else buf :: batches [] rest
  end.

Section tick.
Context `{N : Num256} `{P : Profile} (e : venv).
Context (validate : ToValidate -> VM (option (ToValidate * bool))).

(** The futures of the batches run one after the other. *)
Fixpoint run_validations (futs : list ToValidate) : VM (list (ToValidate * bool)) :=
  match futs with
  | [] => ret []
  | ts :: rest =>
      let! r := validate ts in
      let! rs := run_validations rest in
      ret (match r with Some x => x :: rs | None => rs end)
  end.

Definition timed_out (chain : SystemChain) (our_address : Z) (item : ToValidate) : bool :=
  match checked_duration_since (ve_now e) (received item) with
  | None => false
  | Some elapsed =>
      (PAYMENT_RECEIVE_TIMEOUT <? elapsed)
      || ((eth_address (tx_from (payment item)) =? our_address)
          && (ETH_PAYMENT_SEND_TIMEOUT <? elapsed) && negb (bool_decide (chain = AltheaL1)))
  end.

Fixpoint remove_all (our_address : Z) (to_delete : list (ToValidate * bool)) (v : PaymentValidator)
    : option PaymentValidator :=
  match to_delete with
  | [] => Some v
  | (tx, success) :: rest =>
      v ← remove tx our_address success v; remove_all our_address rest v
  end.

Definition add_all (payments : list ToValidate) (v : PaymentValidator) : PaymentValidator :=
  foldl (fun v pmt => (add_to_validation_queue pmt v).1) v payments.

(** [order] is the order in which the hash set yields the pending payments;
    the second component of the result is what the tick decided. *)
Definition tick_payment_validator (outgoing incoming : list ToValidate)
    (order : list ToValidate -> list ToValidate) (chain : SystemChain) (v : PaymentValidator)
    : VM (PaymentValidator * list (ToValidate * bool)) :=
  if negb (is_consistent v) && dev_build then panic
  else
    let v := add_all (outgoing ++ incoming) v in
    let! our_address := unwrap (settings_eth_address (ve_settings e)) in
    match hs_elements (unvalidated_transactions v) with
    | [] => ret (v, [])
    | pending =>
        let items := order pending in
        let expired := filter (fun i => timed_out chain our_address i = true) items in
        let futs := filter (fun i => timed_out chain our_address i = false) items in
        let! results := run_validations (concat (batches [] futs)) in
        let to_delete := ((fun i => (i, false)) <$> expired) ++ results in
        let! v := unwrap (remove_all our_address to_delete v) in
        ret (v, to_delete)
    end.
End tick.

Section dispatch.
Context `{N : Num256} `{P : Profile} (e : venv).
Context {bytes : Type} (decode_tx_raw : bytes -> option bytes)
        (decode_tx_body : bytes -> option (list bytes)) (decode_msg : bytes -> option MsgMicrotx)
        (parse_address : string -> option Z) (althea_address : Z -> Z)
        (eth_transaction : Z -> option (option TransactionResponse)) (eth_block_num : option Z)
        (get_tx : Z -> option (GetTxResponse (bytes := bytes))) (status : option ChainStatus).

Definition validate_transaction (chain : SystemChain) (ts : ToValidate)
    : VM (option (ToValidate * bool)) :=
  match chain with
  | AltheaL1 => handle_althea_tx_checking e decode_tx_raw decode_tx_body decode_msg parse_address
                  althea_address get_tx status ts
  | Xdai | Ethereum | Sepolia => handle_xdai_tx_checking e eth_transaction eth_block_num ts
  end.
End dispatch.
End PaymentValidator.
Export PaymentValidator.
