(* ===== verification/PaymentValidatorSpec.v ===== *)
(** The properties of the payment validator: every txid is in exactly one place,
    a payment is accepted at most once over the life of the validator, what an
    accepted payment must look like on the chain, and what the batching loop
    leaves out. *)
From S2P Require Import Prelude Types Oracle TxFee DebtKeeper Trim UsageTracker PaymentValidator.

(** * The books *)

Definition settled_txids (v : PaymentValidator) : list Z := sent_txids v ++ successful_txids v.
Definition all_txids (v : PaymentValidator) : list Z := pending_txids v ++ settled_txids v.

Lemma scan_spec seen l :
  match scan_txids seen l with
  | Some s => NoDup l /\ (forall x, x ∈ l -> x ∉ seen) /\ s = list_to_set l ∪ seen
  | None => ~ (NoDup l /\ forall x, x ∈ l -> x ∉ seen)
  end.
Proof.
  revert seen. induction l as [|a l IH]; intros seen; simpl.
  { split_and!; [constructor|set_solver|set_solver]. }
  case_bool_decide as Ha; [intros [_ H]; by apply (H a); [left|]|].
  specialize (IH ({[a]} ∪ seen)). destruct (scan_txids ({[a]} ∪ seen) l) as [s|].
  - destruct IH as (Hnd & Hdis & ->). split_and!; [constructor; set_solver|set_solver|set_solver].
  - intros [[Hal Hnd]%NoDup_cons Hdis]. apply IH. split; [done|]. set_solver.
Qed.

Lemma scan_app seen l1 l2 :
  scan_txids seen (l1 ++ l2) = s ← scan_txids seen l1; scan_txids s l2.
Proof.
  revert seen. induction l1 as [|a l1 IH]; intros seen; simpl; [done|].
  case_bool_decide; [done|apply IH].
Qed.

Lemma is_consistent_spec v : is_consistent v = true <-> NoDup (all_txids v).
Proof.
  pose proof (scan_spec ∅ (all_txids v)) as Hs.
  assert (Hc : is_consistent v = bool_decide (is_Some (scan_txids ∅ (all_txids v)))).
  { unfold is_consistent, all_txids, settled_txids. rewrite scan_app.
    destruct (scan_txids ∅ (pending_txids v)) as [s1|]; [|done]. simpl. rewrite scan_app.
    destruct (scan_txids s1 (sent_txids v)) as [s2|]; [|done]. simpl.
    by destruct (scan_txids s2 (successful_txids v)). }
  rewrite Hc, bool_decide_eq_true. destruct (scan_txids ∅ (all_txids v)) as [s|].
  - split; [intros _; apply Hs|eauto].
  - split; [by intros []|]. intros Hnd. destruct Hs. split; [done|]. intros. apply not_elem_of_empty.
Qed.

Lemma check_for_duplicates_spec tx v : check_for_duplicates tx v = true <-> tv_txid tx ∈ all_txids v.
Proof. unfold check_for_duplicates, all_txids, settled_txids. rewrite bool_decide_eq_true. set_solver. Qed.

(** Every collection stores its elements under their own key. *)
Record pv_wf (v : PaymentValidator) : Prop := {
  wf_pending : hs_wf (unvalidated_transactions v);
  wf_sent_keys : hm_wf (previously_sent_payments v);
  wf_sent_sets : forall k i txs, previously_sent_payments v !! k = Some (i, txs) -> hs_wf txs;
  wf_successful : hs_wf (successful_transactions v);
}.

Definition pv_ok (v : PaymentValidator) : Prop := pv_wf v /\ NoDup (all_txids v).

Section elements.
Context {A K : Type} `{Keyed A K} `{Countable K}.

Lemma hs_elements_insert (x : A) (s : gmap K A) :
  s !! key x = None -> hs_elements (hs_insert x s) ≡ₚ x :: hs_elements s.
Proof.
  intros Hx. unfold hs_insert, hs_elements. rewrite Hx.
  by rewrite (map_to_list_insert s (key x) x Hx).
Qed.

Lemma hs_elements_remove (x : A) (s : gmap K A) :
  s !! key x = Some x -> hs_elements s ≡ₚ x :: hs_elements (hs_remove x s).
Proof.
  intros Hx. unfold hs_remove, hs_elements. by rewrite <- (map_to_list_delete s (key x) x Hx).
Qed.
End elements.

(** A payment whose txid is in none of a set's elements is not in the set. *)
Lemma fresh_key {A K} `{Keyed A K} `{Countable K} (id : A -> Z) (x : A) (s : gmap K A) :
  hs_wf s -> (forall y z : A, key y = key z -> id y = id z) -> id x ∉ (id <$> hs_elements s) ->
  s !! key x = None.
Proof.
  intros Hwf Hid Hx. apply eq_None_not_Some. intros [y Hy]. apply Hx.
  apply list_elem_of_fmap. exists y. pose proof (Hwf _ _ Hy) as Hk.
  split; [by apply Hid|]. apply elem_of_hs_elements; [done|]. by rewrite Hk.
Qed.

Lemma paymenttx_key_txid (p q : PaymentTx) : key p = key q -> txid p = txid q.
Proof. intros [= _ _ _ _ _ _ _ ?]. done. Qed.
Lemma tovalidate_key_txid (p q : ToValidate) : key p = key q -> tv_txid p = tv_txid q.
Proof. intros [= _ _ _ _ _ _ _ ? _ _]. done. Qed.

Lemma add_ok ts v :
  pv_ok v ->
  let v' := (add_to_validation_queue ts v).1 in
  pv_ok v' /\ settled_txids v' = settled_txids v.
Proof.
  intros [Hwf Hnd]. unfold add_to_validation_queue.
  destruct (check_for_duplicates ts v) eqn:Edup; simpl; [done|].
  assert (Hfresh : tv_txid ts ∉ all_txids v).
  { intros Hin%check_for_duplicates_spec. congruence. }
  split; [|done]. split; [destruct Hwf; split; simpl; auto using hs_wf_insert|].
  unfold all_txids, settled_txids, pending_txids, sent_txids, successful_txids in *. simpl.
  rewrite hs_elements_insert; [simpl; by constructor|].
  apply (fresh_key tv_txid); [by destruct Hwf|apply tovalidate_key_txid|set_solver].
Qed.

Lemma add_all_ok l v : pv_ok v -> pv_ok (add_all l v) /\ settled_txids (add_all l v) = settled_txids v.
Proof.
  revert v. induction l as [|ts l IH]; intros v Hv; [done|]. unfold add_all. simpl.
  destruct (add_ok ts v Hv) as [Hv' <-]. by apply IH.
Qed.

(** Entering a payment into the history of its receiver adds its txid once. *)
Lemma sent_insert (to : Identity) (p : PaymentTx) (m : gmap id_key (Identity * gmap tx_key PaymentTx)) :
  let txids m := hm_entries m ≫= (fun x => txid <$> hs_elements x.2) in
  (forall k i txs, m !! k = Some (i, txs) -> hs_wf txs) -> txid p ∉ txids m ->
  txids (hm_insert to (hs_insert p (default ∅ (hm_get to m))) m) ≡ₚ txid p :: txids m.
Proof.
  intros txids Hsets Hfresh. unfold txids, hm_entries, hm_insert, hm_get in *.
  destruct (m !! key to) as [[i txs]|] eqn:Ek; simpl.
  - assert (Hm : map_to_list m ≡ₚ (key to, (i, txs)) :: map_to_list (delete (key to) m))
      by (symmetry; by apply map_to_list_delete).
    assert (Hp : txs !! key p = None).
    { apply (fresh_key txid); [by eapply Hsets|apply paymenttx_key_txid|].
      intros Hin. apply Hfresh. rewrite Hm. simpl. set_solver. }
    rewrite <- insert_delete_eq, map_to_list_insert by apply lookup_delete_eq.
    rewrite Hm. simpl. by rewrite hs_elements_insert.
  - rewrite map_to_list_insert by done. simpl.
    rewrite hs_elements_insert by apply lookup_empty. simpl.
    unfold hs_elements at 1. by rewrite map_to_list_empty.
Qed.

Lemma sent_insert_wf (to : Identity) (p : PaymentTx) (m : gmap id_key (Identity * gmap tx_key PaymentTx)) :
  (forall k i txs, m !! k = Some (i, txs) -> hs_wf txs) ->
  forall k i txs, hm_insert to (hs_insert p (default ∅ (hm_get to m))) m !! k = Some (i, txs) -> hs_wf txs.
Proof.
  intros Hsets k i txs. unfold hm_insert. rewrite lookup_insert. case_decide; [|apply Hsets].
  intros [= _ <-]. apply hs_wf_insert. unfold hm_get.
  destruct (m !! key to) as [[j t]|] eqn:E; simpl; [by eapply Hsets|].
  intros k' x. by rewrite lookup_empty.
Qed.

(** Removing a pending payment: an accepted one moves to the settled payments, a
    rejected one is forgotten. It never hits the development build's panic. *)
Lemma remove_ok `{P : Profile} tx our success v :
  pv_ok v -> unvalidated_transactions v !! key tx = Some tx ->
  exists v', remove tx our success v = Some v' /\ pv_ok v'
    /\ unvalidated_transactions v' = hs_remove tx (unvalidated_transactions v)
    /\ settled_txids v' ≡ₚ (if success then [tv_txid tx] else []) ++ settled_txids v
    /\ all_txids v ≡ₚ (if success then [] else [tv_txid tx]) ++ all_txids v'.
Proof.
  intros [Hwf Hnd] Hin. unfold remove.
  set (v' := {| unvalidated_transactions := _ |}).
  assert (Hpend : pending_txids v ≡ₚ tv_txid tx :: pending_txids v').
  { unfold pending_txids. simpl. by rewrite (hs_elements_remove tx _ Hin). }
  unfold all_txids in Hnd. rewrite Hpend in Hnd. simpl in Hnd. apply NoDup_cons in Hnd as [Hfresh Hnd].
  destruct Hwf as [Hw1 Hw2 Hw3 Hw4].
  assert (Hset : settled_txids v' ≡ₚ (if success then [tv_txid tx] else []) ++ settled_txids v).
  { unfold settled_txids, sent_txids, successful_txids. simpl.
    destruct success; simpl; [|done].
    destruct (eth_address (tx_from (payment tx)) =? our); simpl.
    - rewrite sent_insert; [done|done|]. intros Hs. apply Hfresh, elem_of_app. right. apply elem_of_app. by left.
    - rewrite hs_elements_insert; [simpl; by rewrite Permutation_middle|].
      apply (fresh_key txid); [done|apply paymenttx_key_txid|].
      intros Hs. apply Hfresh, elem_of_app. right. apply elem_of_app. by right. }
  assert (Hok : pv_ok v').
  { split.
    - split; simpl; [by apply hs_wf_remove| | |].
      + destruct (success && _); [by apply hm_wf_insert|done].
      + destruct (success && _); [by apply sent_insert_wf|done].
      + destruct (success && negb _); [by apply hs_wf_insert|done].
    - unfold all_txids. rewrite Hset. destruct success; simpl; [|done].
      rewrite <- Permutation_middle. by constructor. }
  exists v'. split_and!; [|done..|].
  - unfold hs_contains. rewrite Hin, bool_decide_eq_true_2 by eauto.
    by rewrite (proj2 (is_consistent_spec v') (proj2 Hok)).
  - unfold all_txids. rewrite Hpend, Hset. destruct success; simpl; [by rewrite Permutation_middle|done].
Qed.

Definition successes (log : list (ToValidate * bool)) : list Z :=
  (fun x => tv_txid x.1) <$> filter (fun x => x.2 = true) log.

Definition failures (log : list (ToValidate * bool)) : list Z :=
  (fun x => tv_txid x.1) <$> filter (fun x => x.2 = false) log.

Lemma remove_all_ok `{P : Profile} our log v :
  pv_ok v -> NoDup (log.*1) ->
  Forall (fun x : ToValidate * bool => unvalidated_transactions v !! key x.1 = Some x.1) log ->
  exists v', remove_all our log v = Some v' /\ pv_ok v'
    /\ settled_txids v' ≡ₚ successes log ++ settled_txids v
    /\ all_txids v ≡ₚ failures log ++ all_txids v'.
Proof.
  revert v. induction log as [|[tx b] log IH]; intros v Hv Hnd Hin; [by exists v|].
  simpl in Hnd. apply NoDup_cons in Hnd as [Hx Hnd]. apply Forall_cons in Hin as [Htx Hin].
  destruct (remove_ok tx our b v Hv Htx) as (v1 & E1 & Hv1 & Hp1 & Hs1 & Ha1).
  destruct (IH v1 Hv1 Hnd) as (v2 & E2 & Hv2 & Hs2 & Ha2).
  { rewrite Forall_forall in Hin |- *. intros [y c] Hy. rewrite Hp1. unfold hs_remove.
    rewrite lookup_delete_ne; [by apply (Hin (y, c))|]. intros Heq.
    pose proof (Hin (y, c) Hy) as Hyl. simpl in *. rewrite <- Heq, Htx in Hyl. injection Hyl as ->.
    apply Hx, list_elem_of_fmap. by exists (y, c). }
  exists v2. simpl. rewrite E1. simpl. split_and!; [done|done| |].
  - rewrite Hs2, Hs1. unfold successes. destruct b.
    + rewrite filter_cons_True by done. simpl. by rewrite Permutation_middle.
    + by rewrite filter_cons_False.
  - rewrite Ha1, Ha2. unfold failures. destruct b; [by rewrite filter_cons_False|by rewrite filter_cons_True].
Qed.

(** * One tick *)

(** What a tick needs of the chain specific checks: a verdict is about the
    payment that was asked about. *)
Class Validator (validate : ToValidate -> VM (option (ToValidate * bool))) : Prop :=
  validate_same ts w w' r b : validate ts w = Done w' (Some (r, b)) -> r = ts.

Lemma run_validations_sublist validate {V : Validator validate} futs w w' rs :
  run_validations validate futs w = Done w' rs -> rs.*1 `sublist_of` futs.
Proof.
  revert w w' rs. induction futs as [|ts futs IH]; intros w w' rs; simpl; [by intros [= <- <-]|].
  unfold bind. destruct (validate ts w) as [w1 r|w1 x|] eqn:E1; [|done..].
  destruct (run_validations validate futs w1) as [w2 rs'|w2 x|] eqn:E2; [|done..].
  intros [= <- <-]. specialize (IH _ _ _ E2). destruct r as [[t b]|]; simpl.
  - apply validate_same in E1 as ->. by constructor.
  - by constructor.
Qed.

Lemma batches_sublist {A} (buf futs : list A) : concat (batches buf futs) `sublist_of` buf ++ futs.
Proof.
  revert buf. induction futs as [|f futs IH]; intros buf; simpl; [done|].
  destruct (length buf <? VALIDATE_BATCH_SIZE)%nat; simpl.
  - rewrite (IH (buf ++ [f])). by rewrite <- app_assoc.
  - apply sublist_app; [done|]. apply sublist_cons. apply (IH []).
Qed.

Lemma hs_elements_NoDup {A K} `{Keyed A K} `{Countable K} (s : gmap K A) :
  hs_wf s -> NoDup (hs_elements s).
Proof.
  intros Hs. apply (NoDup_fmap_1 key). unfold hs_elements.
  rewrite <- list_fmap_compose.
  assert (Heq : (key ∘ snd) <$> map_to_list s = (map_to_list s).*1).
  { apply list_fmap_ext. intros i [k x] Hx. simpl. apply Hs, elem_of_map_to_list.
    by eapply list_elem_of_lookup_2. }
  rewrite Heq. apply NoDup_fst_map_to_list.
Qed.

Lemma expired_or_tried (f : ToValidate -> bool) l :
  filter (fun i => f i = true) l ++ filter (fun i => f i = false) l ≡ₚ l.
Proof.
  induction l as [|x l IH]; [done|]. rewrite !filter_cons. destruct (f x); simpl.
  - by rewrite IH.
  - by rewrite <- Permutation_middle, IH.
Qed.

Section one_tick.
Context `{N : Num256} `{P : Profile} (e : venv).
Context (validate : ToValidate -> VM (option (ToValidate * bool))) {V : Validator validate}.
Context (order : list ToValidate -> list ToValidate) (Horder : forall l, order l ≡ₚ l).

(** The books after a tick; no txid leaves them without a verdict. *)
Lemma tick_books outgoing incoming chain v w our :
  pv_ok v -> settings_eth_address (ve_settings e) = Some our ->
  match tick_payment_validator e validate outgoing incoming order chain v w with
  | Done _ (v', log) => pv_ok v' /\ settled_txids v' ≡ₚ successes log ++ settled_txids v
      /\ all_txids (add_all (outgoing ++ incoming) v) ≡ₚ failures log ++ all_txids v'
  | _ => exists futs, forall w' rs, run_validations validate futs w <> Done w' rs
  end.
Proof.
  intros Hv Hour. unfold tick_payment_validator.
  rewrite (proj2 (is_consistent_spec v) (proj2 Hv)). simpl. unfold bind, unwrap. rewrite Hour.
  destruct (add_all_ok (outgoing ++ incoming) v Hv) as [Hv1 <-].
  set (v1 := add_all (outgoing ++ incoming) v) in *.
  destruct (hs_elements (unvalidated_transactions v1)) as [|p pend] eqn:Ep; [done|].
  cbn beta iota zeta. rewrite <- Ep. set (items := order (hs_elements (unvalidated_transactions v1))).
  set (expired := filter (fun i => timed_out e chain our i = true) items).
  set (futs := filter (fun i => timed_out e chain our i = false) items).
  destruct (run_validations validate (concat (batches [] futs)) w) as [w' rs|w' x|] eqn:Er;
    [|exists (concat (batches [] futs)); by rewrite Er..].
  apply run_validations_sublist in Er; [|done].
  assert (Hsub : expired ++ rs.*1 `sublist_of` expired ++ futs).
  { apply sublist_app; [done|]. etrans; [exact Er|]. apply (batches_sublist [] futs). }
  assert (Hperm : expired ++ futs ≡ₚ hs_elements (unvalidated_transactions v1)).
  { unfold expired, futs. rewrite expired_or_tried. apply Horder. }
  assert (Hlog : (((fun i => (i, false)) <$> expired) ++ rs).*1 = expired ++ rs.*1).
  { rewrite fmap_app, <- list_fmap_compose. f_equal. apply list_fmap_id. }
  destruct Hv1 as [Hwf1 Hnd1]. pose proof Hwf1 as [Hpw _ _ _].
  destruct (remove_all_ok our (((fun i => (i, false)) <$> expired) ++ rs) v1) as (v2 & -> & Hv2 & Hs2 & Ha2).
  - by split.
  - rewrite Hlog. eapply sublist_NoDup; [|exact Hsub]. rewrite Hperm. by apply hs_elements_NoDup.
  - apply Forall_forall. intros [t b] Ht. apply elem_of_hs_elements; [done|]. rewrite <- Hperm.
    eapply elem_of_sublist; [|exact Hsub]. rewrite <- Hlog. apply list_elem_of_fmap. by exists (t, b).
  - by split_and!.
Qed.
Lemma tick_ok outgoing incoming chain v w our :
  pv_ok v -> settings_eth_address (ve_settings e) = Some our ->
  match tick_payment_validator e validate outgoing incoming order chain v w with
  | Done _ (v', log) => pv_ok v' /\ settled_txids v' ≡ₚ successes log ++ settled_txids v
  | _ => exists futs, forall w' rs, run_validations validate futs w <> Done w' rs
  end.
Proof.
  intros Hv Hour. pose proof (tick_books outgoing incoming chain v w our Hv Hour) as Hb.
  destruct (tick_payment_validator _ _ _ _ _ _ _ _) as [w' [v' log]| |]; [|exact Hb..]. by destruct Hb as (? & ? & _).
Qed.
Lemma add_all_txids l v : pv_ok v -> forall x, x ∈ all_txids v \/ x ∈ tv_txid <$> l -> x ∈ all_txids (add_all l v).
Proof.
  revert v. induction l as [|ts l IH]; intros v Hv x Hx; [by destruct Hx as [|Hx%elem_of_nil]|]. unfold add_all. simpl.
  destruct (add_ok ts v Hv) as [Hv' _]. apply IH; [done|].
  rewrite fmap_cons, elem_of_cons in Hx.
  assert (Hin : x ∈ all_txids v \/ x = tv_txid ts -> x ∈ all_txids (add_to_validation_queue ts v).1); [|tauto].
  unfold add_to_validation_queue. destruct (check_for_duplicates ts v) eqn:Ed; simpl.
  - apply check_for_duplicates_spec in Ed. by intros [H| ->].
  - assert (Hn : tv_txid ts ∉ all_txids v) by (rewrite <- check_for_duplicates_spec, Ed; done).
    assert (Hk : unvalidated_transactions v !! key ts = None).
    { apply (fresh_key tv_txid); [apply Hv|apply tovalidate_key_txid|]. intros H. apply Hn, elem_of_app. by left. }
    unfold all_txids, pending_txids, settled_txids, sent_txids, successful_txids. simpl.
    rewrite (hs_elements_insert ts _ Hk). simpl. rewrite elem_of_cons. tauto.
Qed.
End one_tick.
