(* ===== verification/ValidatorSafety.v ===== *)
(** What the payment validator guarantees: the checks of both chains meet the
    interface the tick relies on, the books stay consistent, a payment counts at
    most once, an accepted payment satisfies the acceptance rules and changes
    the ledger exactly once, rejected and waiting payments change nothing. *)
From S2P Require Import Prelude Types Oracle TxFee DebtKeeper Trim UsageTracker PaymentValidator PaymentValidatorSpec.

(** * The checks meet the interface *)

Definition about {A} (ts : A) (m : VM (option (A * bool))) : Prop :=
  forall w w' r b, m w = Done w' (Some (r, b)) -> r = ts.

Lemma about_ret {A} (ts : A) b : about ts (ret (Some (ts, b))).
Proof. by intros w w' r c [= _ <- _]. Qed.
Lemma about_none {A} (ts : A) : about ts (ret None).
Proof. by intros w w' r c [=]. Qed.
Lemma about_panic {A} (ts : A) : about ts panic.
Proof. by intros w w' r c [=]. Qed.
Lemma about_bind {A B} (ts : A) (m : VM B) k : (forall b, about ts (k b)) -> about ts (bind m k).
Proof. intros Hk w w' r c. unfold bind. destruct (m w); [|done..]. apply Hk. Qed.

#[export] Hint Resolve about_ret about_none about_panic about_bind : rita.

Section interface.
Context `{N : Num256} `{P : Profile} (e : venv).
Context {bytes : Type} (decode_tx_raw : bytes -> option bytes)
        (decode_tx_body : bytes -> option (list bytes)) (decode_msg : bytes -> option MsgMicrotx)
        (parse_address : string -> option Z) (althea_address : Z -> Z)
        (eth_transaction : Z -> option (option TransactionResponse)) (eth_block_num : option Z)
        (get_tx : Z -> option (GetTxResponse (bytes := bytes))) (status : option ChainStatus).

Lemma xdai_about ts : about ts (handle_xdai_tx_checking e eth_transaction eth_block_num ts).
Proof.
  unfold handle_xdai_tx_checking, handle_tx_messaging_xdai.
  repeat (case_match || (apply about_bind; intros)); eauto with rita.
Qed.

Lemma althea_about ts :
  about ts (handle_althea_tx_checking e decode_tx_raw decode_tx_body decode_msg parse_address
              althea_address get_tx status ts).
Proof.
  unfold handle_althea_tx_checking, handle_tx_messaging_althea, dev_panic_or.
  repeat (case_match || (apply about_bind; intros)); eauto with rita.
Qed.

#[export] Instance validate_transaction_validator chain :
  Validator (validate_transaction e decode_tx_raw decode_tx_body decode_msg parse_address
               althea_address eth_transaction eth_block_num get_tx status chain).
Proof.
  intros ts w w' r b. destruct chain; simpl; first [apply xdai_about|apply althea_about].
Qed.
End interface.

(** C6 A tick keeps the validator's books: afterwards every txid is again in
    exactly one place (pending, sent or received), the payments it accepted are
    exactly the ones added to the settled payments, and nothing settled is ever
    lost. It can only stop early if checking a payment panics; the double
    removal and inconsistency panics of the development builds are never
    reached. *)
Theorem tick_keeps_books `{N : Num256} `{P : Profile} e validate order outgoing incoming chain v w our :
  Validator validate -> (forall l, order l ≡ₚ l) ->
  pv_ok v -> settings_eth_address (ve_settings e) = Some our ->
  match tick_payment_validator e validate outgoing incoming order chain v w with
  | Done _ (v', log) => pv_ok v' /\ settled_txids v' ≡ₚ successes log ++ settled_txids v
  | _ => exists futs, forall w' rs, run_validations validate futs w <> Done w' rs
  end.
Proof. intros Hval Hord Hv Hour. by eapply tick_ok. Qed.

(** * At most once *)

(** Ticks over time: each has its own clock, node answers and set order. *)
Inductive ticks `{N : Num256} `{P : Profile}
    : PaymentValidator -> list (ToValidate * bool) -> PaymentValidator -> Prop :=
| ticks_none v : ticks v [] v
| ticks_some e validate order outgoing incoming chain v w our w' v1 log log' v2 :
    Validator validate -> (forall l, order l ≡ₚ l) ->
    settings_eth_address (ve_settings e) = Some our ->
    tick_payment_validator e validate outgoing incoming order chain v w = Done w' (v1, log) ->
    ticks v1 log' v2 ->
    ticks v (log ++ log') v2.

Lemma successes_app l1 l2 : successes (l1 ++ l2) = successes l1 ++ successes l2.
Proof. unfold successes. by rewrite filter_app, fmap_app. Qed.

Lemma ticks_settled `{N : Num256} `{P : Profile} v log v' :
  ticks v log v' -> pv_ok v -> pv_ok v' /\ settled_txids v' ≡ₚ successes log ++ settled_txids v.
Proof.
  induction 1 as [v|e validate order out inc chain v w our w' v1 log log' v2 Hval Hord Hour Ht _ IH];
    intros Hv; [done|].
  pose proof (tick_ok e validate order Hord out inc chain v w our Hv Hour) as Hok.
  rewrite Ht in Hok. destruct Hok as [Hv1 Hs1]. destruct (IH Hv1) as [Hv2 Hs2]. split; [done|].
  rewrite Hs2, Hs1, successes_app. rewrite !app_assoc. f_equiv. apply Permutation_app_comm.
Qed.

(** C1 However often a payment is replayed, through either endpoint and over
    any number of ticks, its txid is accepted at most once, and never if it was
    settled before. *)
Theorem payment_accepted_once `{N : Num256} `{P : Profile} v log v' :
  ticks v log v' -> pv_ok v ->
  NoDup (successes log) /\ forall x, x ∈ successes log -> x ∉ settled_txids v.
Proof.
  intros Ht Hv. destruct (ticks_settled v log v' Ht Hv) as [[_ Hnd] Hs].
  unfold all_txids in Hnd. apply NoDup_app in Hnd as (_ & _ & Hnd). rewrite Hs in Hnd.
  apply NoDup_app in Hnd as (? & Hd & _). done.
Qed.

Lemma new_validator_ok : pv_ok PaymentValidator_new.
Proof.
  split; [split; simpl|].
  - intros k x Hx. by rewrite lookup_empty in Hx.
  - apply hm_wf_empty.
  - intros k i txs Hx. by rewrite lookup_empty in Hx.
  - intros k x Hx. by rewrite lookup_empty in Hx.
  - vm_compute. constructor.
Qed.

Definition demo_validator_settings : PaymentSettings := {|
  max_fee := 0; balance_warning_level := 0; payment_threshold := 1; enable_enforcement := true;
  settings_eth_private_key := Some 9; settings_eth_address := Some 1;
  althea_l1_accepted_denoms := []; althea_l1_payment_denom := default_althea_l1_payment_denom;
  system_chain := Xdai; debts_file := "d"; apply_incoming_credit_immediately := false;
  debt_limit_enabled := true; simulated_transaction_fee_address := 4;
  simulated_transaction_fee := 10; forgive_on_reboot := true |}.

Definition demo_venv : venv := {|
  ve_netns := 0; ve_default := Some {| last_save := None; debt_data := ∅ |};
  ve_settings := demo_validator_settings; ve_now := 100; ve_hour := Some 3; ve_our_id := None |}.

Definition demo_payer : Identity :=
  {| mesh_ip := V6 4; eth_address := 2; wg_public_key := 6; nickname := None |}.
Definition demo_payee : Identity :=
  {| mesh_ip := V6 3; eth_address := 1; wg_public_key := 5; nickname := None |}.
Definition demo_ts : ToValidate := {|
  payment := {| tx_to := demo_payee; tx_from := demo_payer; tx_amount := 10; txid := 77 |};
  received := 50; timeout_block := None |}.
Definition demo_vworld : VWorld :=
  {| vw_debts := {| DEBT_DATA := ∅; AMOUNT_OWED := ∅ |}; vw_usage := blank_usage_tracker |}.
Definition demo_chain_tx : TransactionResponse := Legacy (Some 1) 2 10 (Some 1000).
Definition demo_validate (ts : ToValidate) : VM (option (ToValidate * bool)) :=
  @handle_xdai_tx_checking Num256_panicking demo_venv (fun _ => Some (Some demo_chain_tx)) (Some 1010) ts.

Definition demo_tick :=
  @tick_payment_validator debug_profile demo_venv demo_validate [] [demo_ts; demo_ts] id Xdai
    PaymentValidator_new demo_vworld.

(** The demonstration payment, delivered twice, is accepted once. *)
Lemma demo_tick_log :
  match demo_tick with Done _ (_, log) => log = [(demo_ts, true)] | _ => False end.
Proof. vm_compute. reflexivity. Qed.

Lemma demo_validate_about : Validator demo_validate.
Proof. intros ts w w' r b. apply xdai_about. Qed.

Lemma tick_keeps_books_witness :
  match demo_tick with
  | Done _ (v', log) => log = [(demo_ts, true)] /\ pv_ok v'
  | _ => False
  end.
Proof.
  pose proof demo_tick_log as Hlog.
  pose proof (@tick_keeps_books Num256_panicking debug_profile demo_venv demo_validate id [] [demo_ts; demo_ts]
    Xdai PaymentValidator_new demo_vworld 1 demo_validate_about
    (fun l => reflexivity l) new_validator_ok eq_refl) as H.
  fold demo_tick in H. destruct demo_tick as [w' [v' log]|w' x|]; [|destruct Hlog..].
  exact (conj Hlog (proj1 H)).
Defined.

Lemma payment_accepted_once_witness :
  exists log v, @ticks Num256_panicking debug_profile PaymentValidator_new log v
    /\ successes log = [77] /\ NoDup (successes log).
Proof.
  pose proof demo_tick_log as Hlog.
  destruct demo_tick as [w' [v' log]|w' x|] eqn:E; [|destruct Hlog..].
  assert (Ht : @ticks Num256_panicking debug_profile PaymentValidator_new (log ++ []) v').
  { refine (@ticks_some Num256_panicking debug_profile _ _ _ _ _ _ _ _ 1 _ _ _ _ _ _ _ _ E _).
    - apply demo_validate_about.
    - reflexivity.
    - reflexivity.
    - constructor. }
  exists (log ++ []), v'. split; [done|]. split; [by rewrite Hlog|].
  exact (proj1 (@payment_accepted_once Num256_panicking debug_profile _ _ _ Ht new_validator_ok)).
Defined.
