(* ===== verification/ValidatorChecks.v ===== *)
(** What one check of the payment validator decides, and the two loops around
    it: which chain transactions are accepted and what acceptance changes, when
    a pending payment is given up, which pending payments a tick looks at, and
    when emptying the incoming queue comes to an end. *)
From S2P Require Import Prelude Types Oracle TxFee DebtKeeper Trim UsageTracker PaymentValidator PaymentValidatorSpec ValidatorSafety.

(** * Acceptance on an Ethereum chain *)

(** The block of the transaction is confirmed and not too old. *)
Definition in_window (height : Z) (blk : option Z) : Prop :=
  exists b, blk = Some b /\ b + 4 <= height <= b + 1440.

Lemma in_window_spec height blk :
  in_window height blk <->
  payment_in_chain_xdai height blk = true /\ payment_is_old height blk = false.
Proof.
  unfold in_window, payment_in_chain_xdai, payment_is_old, BLOCKS_TO_CONFIRM, BLOCKS_TO_OLD.
  destruct blk as [b|]; [|naive_solver].
  destruct (Z.ltb_spec height b); [split; [intros (? & [= <-] & ?); lia|naive_solver]|].
  rewrite Z.leb_le, Z.ltb_ge. split; [intros (? & [= <-] & ?); lia|]. intros ?. exists b. split; [done|lia].
Qed.

Section xdai.
Context `{N : Num256} (e : venv).

(** The one change an accepted payment makes: the ledger gets it once, as
    received or as sent, and the payment history gets it once. *)
Definition credited (our to from : Z) (pmt : PaymentTx) (w w' : VWorld) : Prop :=
  vw_usage w' = update_payments (ve_hour e) pmt (vw_usage w)
  /\ ((to = our /\ from <> our
       /\ outcome_state (payment_received (ve_netns e) (ve_default e) (tx_from pmt) (tx_amount pmt)
                           wei_denom (vw_debts w)) = Some (vw_debts w'))
      \/ (to <> our /\ from = our
          /\ outcome_state (payment_succeeded (ve_netns e) (ve_default e) (ve_settings e) (ve_now e)
                              (tx_to pmt) (tx_amount pmt) wei_denom (vw_debts w)) = Some (vw_debts w'))).

Lemma run_credit (m : M World RitaCommonError unit) f (ts : ToValidate) w w' :
  (ignore_err (on_debts m);! on_usage f;! ret (Some (ts, true))) w = Done w' (Some (ts, true)) <->
  outcome_state (m (vw_debts w)) = Some (vw_debts w') /\ vw_usage w' = f (vw_usage w).
Proof.
  unfold bind, ignore_err, on_debts, on_usage, modify, ret, outcome_state.
  destruct (m (vw_debts w)); simpl; (split; [intros [= <-]; done|]);
    destruct w'; simpl; naive_solver congruence.
Qed.

Lemma credit_only (m : M World RitaCommonError unit) f (ts : ToValidate) w w' r :
  (ignore_err (on_debts m);! on_usage f;! ret (Some (ts, true))) w = Done w' r -> r = Some (ts, true).
Proof.
  unfold bind, ignore_err, on_debts, on_usage, modify, ret.
  destruct (m (vw_debts w)); simpl; congruence.
Qed.

Lemma xdai_accepts our tx ts height to from value blk w w' :
  settings_eth_address (ve_settings e) = Some our ->
  get_xdai_transaction_details tx = (Some to, from, value, blk) ->
  handle_tx_messaging_xdai e tx ts height w = Done w' (Some (ts, true)) <->
  value = tx_amount (payment ts) /\ in_window height blk /\ credited our to from (payment ts) w w'.
Proof.
  intros Hour Hd. unfold handle_tx_messaging_xdai. rewrite Hd, in_window_spec.
  unfold bind at 1, unwrap. rewrite Hour. unfold credited.
  destruct (Z.eqb_spec value (tx_amount (payment ts))); simpl; [|unfold ret; naive_solver].
  destruct (payment_is_old height blk); [unfold ret; naive_solver|].
  destruct (Z.eqb_spec to our), (Z.eqb_spec from our), (payment_in_chain_xdai height blk);
    try (unfold ret; naive_solver); rewrite run_credit; naive_solver.
Qed.

Lemma xdai_otherwise_unchanged tx ts height w w' r :
  handle_tx_messaging_xdai e tx ts height w = Done w' r -> r <> Some (ts, true) -> w' = w.
Proof.
  unfold handle_tx_messaging_xdai. intros E Hr. unfold bind at 1, unwrap in E.
  destruct (settings_eth_address (ve_settings e)); [|done].
  destruct (get_xdai_transaction_details tx) as [[[to from] value] blk].
  repeat case_match; try (by injection E); try done; by apply credit_only in E.
Qed.
End xdai.

(** C7 A payment is accepted exactly when the chain's transaction carries
    the amount of the payment, is between 4 and 1440 blocks old and either goes
    to this node from somebody else or from this node to somebody else; then the
    ledger and the payment history are changed by this one payment. In every
    other case (wrong value, too old, not confirmed yet, contract creation,
    transaction to oneself, unrelated transaction) nothing changes. *)
Theorem xdai_acceptance `{N : Num256} e our tx ts height w :
  settings_eth_address (ve_settings e) = Some our ->
  (forall w', handle_tx_messaging_xdai e tx ts height w = Done w' (Some (ts, true)) <->
     exists to from blk,
       get_xdai_transaction_details tx = (Some to, from, tx_amount (payment ts), blk)
       /\ in_window height blk /\ credited e our to from (payment ts) w w')
  /\ (forall w' r, handle_tx_messaging_xdai e tx ts height w = Done w' r ->
        r <> Some (ts, true) -> w' = w).
Proof.
  intros Hour. split; [|intros w' r; apply xdai_otherwise_unchanged]. intros w'.
  destruct (get_xdai_transaction_details tx) as [[[[to|] from] value] blk] eqn:Hd.
  - rewrite (xdai_accepts e our tx ts height to from value blk w w' Hour Hd). naive_solver.
  - split; [|naive_solver]. unfold handle_tx_messaging_xdai. rewrite Hd.
    unfold bind, unwrap. rewrite Hour. unfold ret. naive_solver.
Qed.

Definition demo_check (height : Z) :=
  handle_tx_messaging_xdai (N := Num256_panicking) demo_venv demo_chain_tx demo_ts height demo_vworld.

Lemma demo_check_accepts :
  match demo_check 1010 with Done _ r => r = Some (demo_ts, true) | _ => False end.
Proof. vm_compute. reflexivity. Qed.

Lemma xdai_acceptance_witness :
  (exists w', demo_check 1010 = Done w' (Some (demo_ts, true)) /\ credited (N := Num256_panicking) demo_venv 1 1 2 (payment demo_ts) demo_vworld w')
  /\ (forall w', demo_check 1003 <> Done w' (Some (demo_ts, true))).
Proof.
  pose proof (fun height => xdai_acceptance (N := Num256_panicking) demo_venv 1 demo_chain_tx demo_ts height
    demo_vworld eq_refl) as H. fold (demo_check 1010) in H. split.
  - pose proof demo_check_accepts as Ha. destruct (demo_check 1010) as [w' r|w' x|] eqn:E; [|destruct Ha..].
    exists w'. rewrite Ha. split; [reflexivity|].
    destruct (proj1 (proj1 (H 1010) w')) as (to & from & blk & Hd & _ & Hc).
    + unfold demo_check in E. by rewrite E, Ha.
    + simpl in Hd. injection Hd as <- <- <-. exact Hc.
  - intros w' E.
    destruct (proj1 (proj1 (H 1003) w') E) as (to & from & blk & Hd & (b & Hb & Hw) & _).
    simpl in Hd. injection Hd as _ _ Hblk. rewrite Hb in Hblk. injection Hblk as Hblk. lia.
Defined.

(** * Giving up on a payment *)

Lemma remove_pending `{P : Profile} tx our success v v' :
  remove tx our success v = Some v' ->
  unvalidated_transactions v' = hs_remove tx (unvalidated_transactions v).
Proof. unfold remove. repeat case_match; intros [= <-]; done. Qed.

Lemma remove_all_pending `{P : Profile} our log v v' k t :
  remove_all our log v = Some v' ->
  unvalidated_transactions v' !! k = Some t ->
  unvalidated_transactions v !! k = Some t /\ forall x, x ∈ log.*1 -> key x <> k.
Proof.
  revert v. induction log as [|[x b] log IH]; intros v; simpl.
  { intros [= <-] Hk. split; [done|]. intros x Hx. by apply not_elem_of_nil in Hx. }
  destruct (remove x our b v) as [v1|] eqn:E; [simpl; intros Hv Hk|done].
  destruct (IH v1 Hv Hk) as [H1 H2]. rewrite (remove_pending _ _ _ _ _ E) in H1.
  unfold hs_remove in H1. apply lookup_delete_Some in H1 as [Hne H1]. split; [done|].
  intros y [->|Hy]%elem_of_cons; [done|by apply H2].
Qed.

(** A tick that completes leaves no stale payment behind: nothing still
    pending is older than three days, and on an Ethereum chain nothing this
    node sent is pending for more than ten minutes. *)
Theorem tick_gives_up `{N : Num256} `{P : Profile} e validate order outgoing incoming chain v w our w' v' log :
  (forall l, order l ≡ₚ l) -> pv_ok v -> settings_eth_address (ve_settings e) = Some our ->
  tick_payment_validator e validate outgoing incoming order chain v w = Done w' (v', log) ->
  forall t, t ∈ hs_elements (unvalidated_transactions v') ->
    ve_now e - received t <= secs 259200
    /\ (chain <> AltheaL1 -> eth_address (tx_from (payment t)) = our -> ve_now e - received t <= secs 600).
Proof.
  intros Hord Hv Hour E t Ht. destruct (add_all_ok (outgoing ++ incoming) v Hv) as [[[Hwf _ _ _] _] _].
  assert (Hto : timed_out e chain our t = false).
  { revert E Ht Hwf. unfold tick_payment_validator. generalize (add_all (outgoing ++ incoming) v). intros v1.
    case_match; [done|]. unfold bind, unwrap. rewrite Hour.
    destruct (hs_elements (unvalidated_transactions v1)) as [|p pend] eqn:Ep.
    { intros [= <- <- <-]. rewrite Ep. by intros ?%not_elem_of_nil. }
    cbn beta iota zeta. rewrite <- Ep. destruct (run_validations _ _ w); [|done..].
    destruct (remove_all _ _ _) eqn:Er; [|done].
    intros [= <- <- <-] Ht Hwf. apply not_true_is_false. intros Hto.
    apply list_elem_of_fmap in Ht as ([k t'] & -> & Hk%elem_of_map_to_list). simpl in *.
    destruct (remove_all_pending _ _ _ _ _ _ Er Hk) as [Hk1 Hne].
    apply (Hne t'); [|by apply (Hwf k)]. rewrite fmap_app, elem_of_app, <- list_fmap_compose. left.
    apply list_elem_of_fmap. exists t'. split; [done|]. apply list_elem_of_filter. split; [done|].
    rewrite Hord. apply elem_of_hs_elements; [done|]. by rewrite (Hwf _ _ Hk1). }
  revert Hto. unfold timed_out, checked_duration_since, PAYMENT_RECEIVE_TIMEOUT, ETH_PAYMENT_SEND_TIMEOUT.
  unfold secs, NANOS. destruct (Z.ltb_spec (ve_now e) (received t)); [lia|].
  rewrite orb_false_iff, Z.ltb_ge. intros [Ha Hb]. split; [done|]. intros Hc Hf.
  rewrite Hf, Z.eqb_refl in Hb. rewrite bool_decide_eq_false_2 in Hb by done. simpl in Hb.
  rewrite andb_true_r, Z.ltb_ge in Hb. done.
Qed.

Definition demo_late_env : venv := {|
  ve_netns := 0; ve_default := ve_default demo_venv; ve_settings := demo_validator_settings;
  ve_now := secs 259300; ve_hour := Some 80; ve_our_id := None |}.
Definition demo_late_tick :=
  @tick_payment_validator debug_profile demo_late_env (fun _ => ret None) [] [demo_ts] id Xdai
    PaymentValidator_new demo_vworld.
Lemma demo_late_tick_log :
  match demo_late_tick with Done _ (_, log) => log = [(demo_ts, false)] | _ => False end.
Proof. vm_compute. reflexivity. Qed.

Lemma tick_gives_up_witness :
  match demo_late_tick with
  | Done _ (v', log) => log = [(demo_ts, false)] /\ demo_ts ∉ hs_elements (unvalidated_transactions v')
  | _ => False
  end.
Proof.
  pose proof demo_late_tick_log as Hlog.
  destruct demo_late_tick as [w' [v' log]|w' x|] eqn:E; [|destruct Hlog..]. split; [exact Hlog|].
  intros Ht. unfold demo_late_tick in E.
  destruct (@tick_gives_up Num256_panicking debug_profile demo_late_env (fun _ => ret None) id [] [demo_ts]
    Xdai PaymentValidator_new demo_vworld 1 w' v' log (fun l => reflexivity l) new_validator_ok eq_refl E demo_ts Ht) as [Hold _].
  unfold demo_late_env, demo_ts, secs, NANOS in Hold. simpl in Hold. lia.
Defined.

(** * The batches *)

Lemma batches_fill {A} (buf l rest : list A) :
  (length buf + length l <= 10)%nat -> batches buf (l ++ rest) = batches (buf ++ l) rest.
Proof.
  revert buf. induction l as [|x l IH]; intros buf Hlen; simpl in *; [by rewrite app_nil_r|].
  destruct (Nat.ltb_spec (length buf) VALIDATE_BATCH_SIZE) as [_|H]; [|unfold VALIDATE_BATCH_SIZE in H; lia].
  rewrite IH; [by rewrite <- app_assoc|]. rewrite length_app. simpl. lia.
Qed.

(** Up to ten pending payments are all checked; after every full batch of
    ten the next pending payment is left out of the tick. *)
Theorem batches_skip_eleventh {A} (l1 l2 : list A) (x : A) :
  (length l1 <= 10)%nat ->
  concat (batches [] l1) = l1
  /\ (length l1 = 10%nat -> concat (batches [] (l1 ++ x :: l2)) = l1 ++ concat (batches [] l2)).
Proof.
  intros Hlen. split.
  - rewrite <- (app_nil_r l1) at 1. rewrite batches_fill by (simpl; lia). simpl. apply app_nil_r.
  - intros H10. rewrite batches_fill by (simpl; lia). simpl. by rewrite H10.
Qed.

Lemma batches_skip_eleventh_witness : concat (batches [] (seq 0 12)) = seq 0 10 ++ [11%nat].
Proof.
  exact (proj2 (batches_skip_eleventh (seq 0 10) [11%nat] 10%nat (le_n 10)) eq_refl).
Defined.

(** * Emptying the incoming queue *)

Definition foreign (netns : Z) (q : IncomingQueue) : Prop := exists x, x ∈ q /\ x.1 <> netns.

Lemma drain_own netns q acc :
  ~ foreign netns q -> drain (S (length q)) netns q acc = Some (acc ++ q.*2, []).
Proof.
  revert acc. induction q as [|[n ts] q IH]; intros acc Hq; [by rewrite app_nil_r|].
  cbn [length]. change (drain (S (S (length q))) netns ((n, ts) :: q) acc)
    with (if n =? netns then drain (S (length q)) netns q (acc ++ [ts])
          else drain (S (length q)) netns (q ++ [(n, ts)]) acc).
  destruct (Z.eqb_spec n netns) as [->|Hne].
  - rewrite IH; [by rewrite <- app_assoc|]. intros (x & Hx & ?). apply Hq. exists x. split; [by right|done].
  - destruct Hq. exists (n, ts). split; [left|done].
Qed.

Lemma drain_foreign fuel netns q acc : foreign netns q -> drain fuel netns q acc = None.
Proof.
  revert q acc. induction fuel as [|fuel IH]; intros q acc Hq; [done|]. simpl.
  destruct q as [|[n ts] q]; [by destruct Hq as (x & Hx%not_elem_of_nil & _)|].
  destruct Hq as (x & Hx & Hne).
  destruct (Z.eqb_spec n netns) as [->|Hn]; apply IH.
  - exists x. split; [|done]. apply elem_of_cons in Hx as [->|Hx]; [by destruct Hne|done].
  - exists (n, ts). split; [|done]. apply elem_of_app. right. by apply list_elem_of_singleton.
Qed.

(** Emptying the incoming queue returns every payment in the order of
    arrival when all of them belong to this node's namespace; as soon as one
    belongs to another namespace the loop never ends. *)
Theorem drain_terminates_iff (netns : Z) (q : IncomingQueue) :
  (~ foreign netns q ->
     get_incoming_transaction_queue (S (length q)) netns q = Some (q.*2, []))
  /\ (foreign netns q -> forall fuel, get_incoming_transaction_queue fuel netns q = None).
Proof.
  split; [intros Hq; apply (drain_own netns q [] Hq)|]. intros Hq fuel. by apply drain_foreign.
Qed.

Lemma drain_terminates_iff_witness :
  get_incoming_transaction_queue 2 0 [(0, demo_ts)] = Some ([demo_ts], [])
  /\ forall fuel, get_incoming_transaction_queue fuel 0 [(0, demo_ts); (1, demo_ts)] = None.
Proof.
  split.
  - apply (proj1 (drain_terminates_iff 0 [(0, demo_ts)])).
    intros (x & ->%list_elem_of_singleton & Hx). by apply Hx.
  - apply (proj2 (drain_terminates_iff 0 [(0, demo_ts); (1, demo_ts)])).
    exists (1, demo_ts). split; [right; left|done].
Defined.
