(* ===== verification/PaymentController.v ===== *)
(** The payment controller (rita_common/src/payment_controller/mod.rs): the
    queue of payments to put on a chain, the queue of neighbours still to be
    told about a payment, and one tick over both. *)
From S2P Require Import Prelude Types Oracle TxFee DebtKeeper Trim UsageTracker PaymentValidator.

Definition MAX_TXID_RETRIES : Z := 15.
Definition ALTHEA_L1_MICROTX_TIMEOUT : Z := 25.

Module PaymentController.

Record ResendInfo := { full_node : string; pmt : PaymentTx; attempt : Z }.

Record PaymentController := {
  outgoing_queue : list UnpublishedPaymentTx;
  resend_queue : list ResendInfo;
}.
Definition PaymentController_new : PaymentController := {| outgoing_queue := []; resend_queue := [] |}.

Inductive PaymentControllerError :=
| ResendFailed
| InsufficientFunds (amount balance : Z)
| ZeroPayment
| FailedToSendPayment.

(** Why a prepared transaction could not be sent: the full node answered with an
    error, or anything else. *)
Inductive Web3Error := JsonRpcError | OtherWeb3Error.

(** What the outside answers to one attempt to pay: the Althea node on balance,
    chain state and the MicroTx (its hash), the Ethereum node on preparing (the
    txid) and sending a transaction, the neighbour on make_payment_v2 and
    make_payment ([None] a network error, else whether the status is a
    success), and the random pick of a full node. *)
Record answers := {
  an_balance : option (option Z);
  an_status : option ChainStatus;
  an_microtx : option string;
  an_prepare : option Z;
  an_send : Web3Error + Z;
  an_acks : option bool * option bool;
  an_pick : nat;
}.

(** The node as the controller sees it. *)
Record pay_env := {
  pe_netns : Z;
  pe_default : option DebtKeeper;
  pe_settings : PaymentSettings;
  pe_eth_node_list : list string;
  pe_althea_grpc_list : list string;
  pe_oracle : BlockchainOracle;
  pe_now : Z;
}.

Section controller.
Context `{N : Num256} `{P : Profile} (e : pay_env).
(** Parsing a hash as [Uint256] and building a gRPC contact are code of other
    crates. *)
Context (parse_txhash : string -> option Z) (contact_new : string -> bool).
(** [previously_sent_payments], as the validator returned it. *)
Context (previously_sent : gmap id_key (Identity * gmap tx_key PaymentTx)).

Abbreviation PM A := (M World PaymentControllerError A).

(** A full node of the list, chosen by the random number [val]. *)
Definition get_web3_server (val : nat) : option string :=
  pe_eth_node_list e !! (val mod length (pe_eth_node_list e))%nat.

Definition report_failed (to : Identity) : PM unit :=
  fun w => match payment_failed (pe_netns e) (pe_default e) to w with
           | Done w _ => Done w tt
           | Fail w _ => Done w tt
           | Panic => Panic
           end.

(** What is posted to the neighbour: the payment, and the history with it. *)
Definition txid_history (p : PaymentTx) : gmap tx_key PaymentTx :=
  hs_insert p (default ∅ (hm_get (tx_to p) previously_sent)).

(** [None] inside is a neighbour that knows; the result is [None] if the
    attempt counter overflows a [u8]. *)
Definition send_make_payment_endpoints (p : PaymentTx) (node : string) (att : Z)
    (acks : option bool * option bool) : option (option ResendInfo) :=
  next ← u8_of (att + 1);
  let resend_info := {| full_node := node; pmt := p; attempt := next |} in
  Some match acks with
       | (Some v2, Some v1) => if v2 || v1 then None else Some resend_info
       | (None, Some v1) => if v1 then None else Some resend_info
       | (Some v2, None) => if v2 then None else Some resend_info
       | (None, None) => Some resend_info
       end.

Definition sanity_check_balance (bal : option Z) (p : UnpublishedPaymentTx) : PM unit :=
  match bal with
  | Some value =>
      if value <? up_amount p then
        report_failed (up_to p);! throw (InsufficientFunds (up_amount p) value)
      else if up_amount p =? 0 then throw ZeroPayment
      else ret tt
  | None => throw (InsufficientFunds (up_amount p) 0)
  end.

Definition make_xdai_payment (p : UnpublishedPaymentTx) (an : answers)
    : PM (ToValidate * option ResendInfo) :=
  let bal := balance (pe_oracle e) in
  let! _ := unwrap (settings_eth_private_key (pe_settings e)) in
  sanity_check_balance bal p;!
  let! node := unwrap (get_web3_server (an_pick an)) in
  match an_prepare an with
  | Some prepared_txid =>
      let! tx_id :=
        match an_send an with
        | inr tx_id => ret tx_id
        | inl JsonRpcError => report_failed (up_to p);! throw FailedToSendPayment
        | inl OtherWeb3Error => ret prepared_txid
        end in
      let p := publish p tx_id in
      let! resend := unwrap (send_make_payment_endpoints p node 0 (an_acks an)) in
      ret ({| payment := p; received := pe_now e; timeout_block := None |}, resend)
  | None => report_failed (up_to p);! throw FailedToSendPayment
  end.

Definition make_althea_payment (p : UnpublishedPaymentTx) (an : answers)
    : PM (ToValidate * option ResendInfo) :=
  let payment_denom := althea_l1_payment_denom (pe_settings e) in
  match settings_eth_private_key (pe_settings e) with
  | None => throw FailedToSendPayment
  | Some _ =>
      let! node := unwrap (pe_althea_grpc_list e !! 0%nat) in
      let! amount := unwrap (normalize_payment_amount (up_amount p) wei_denom payment_denom) in
      let p := {| up_to := up_to p; up_from := up_from p; up_amount := amount |} in
      if negb (contact_new node) then panic else
      match an_balance an with
      | Some (Some bal) =>
          match an_status an with
          | Some (Moving block_height) =>
              sanity_check_balance (Some bal) p;!
              match an_microtx an with
              | Some txhash =>
                  let! tx_id := unwrap (parse_txhash txhash) in
                  let p := publish p tx_id in
                  let! retry := unwrap (send_make_payment_endpoints p node 0 (an_acks an)) in
                  let! timeout := unwrap (t ← u64_of (block_height + ALTHEA_L1_MICROTX_TIMEOUT);
                                          u64_of (t + 5)) in
                  ret ({| payment := p; received := pe_now e; timeout_block := Some timeout |}, retry)
              | None => report_failed (up_to p);! throw FailedToSendPayment
              end
          | _ => throw FailedToSendPayment
          end
      | Some None => throw FailedToSendPayment
      | None => throw FailedToSendPayment
      end
  end.

Definition make_payment (p : UnpublishedPaymentTx) (an : answers)
    : PM (ToValidate * option ResendInfo) :=
  match system_chain (pe_settings e) with
  | AltheaL1 => make_althea_payment p an
  | Xdai | Sepolia | Ethereum => make_xdai_payment p an
  end.

(** ** One tick *)

(** The payments in the order they are popped; [ans i] answers the [i]th. The
    result: payments sent, resends pushed, payments to requeue. *)
Fixpoint send_payments (popped : list UnpublishedPaymentTx) (i : nat) (ans : nat -> answers)
    (sent : list ToValidate) (resend : list ResendInfo) (requeue : list UnpublishedPaymentTx)
    (w : World) : option (World * list ToValidate * list ResendInfo * list UnpublishedPaymentTx) :=
  match popped with
  | [] => Some (w, sent, resend, requeue)
  | p :: rest =>
      match make_payment p (ans i) w with
      | Done w (ts, retry) =>
          send_payments rest (S i) ans (sent ++ [ts])
            (match retry with Some r => resend ++ [r] | None => resend end) requeue w
      | Fail w _ => send_payments rest (S i) ans sent resend (requeue ++ [p]) w
      | Panic => None
      end
  end.

(** The resends in the order they are popped, each with the neighbour's answer;
    the ones that are to be tried again. *)
Fixpoint run_resends (popped : list ResendInfo) (i : nat) (acks : nat -> option bool * option bool)
    : option (list ResendInfo) :=
  match popped with
  | [] => Some []
  | r :: rest =>
      if MAX_TXID_RETRIES <=? attempt r then run_resends rest (S i) acks
      else
        again ← send_make_payment_endpoints (pmt r) (full_node r) (attempt r) (acks i);
        more ← run_resends rest (S i) acks;
        Some (match again with Some x => x :: more | None => more end)
  end.

Definition tick_payment_controller (new_outgoing_payments : list UnpublishedPaymentTx)
    (ans : nat -> answers) (acks : nat -> option bool * option bool)
    (c : PaymentController) (w : World) : option (World * PaymentController * list ToValidate) :=
  let outgoing := outgoing_queue c ++ new_outgoing_payments in
  match outgoing, resend_queue c with
  | [], [] => Some (w, c, [])
  | _, _ =>
      match send_payments (rev outgoing) 0 ans [] (resend_queue c) [] w with
      | None => None
      | Some (w, sent, resend, requeue) =>
          resend ← run_resends (rev resend) 0 acks;
          Some (w, {| outgoing_queue := requeue; resend_queue := resend |}, sent)
      end
  end.
End controller.
End PaymentController.
Export PaymentController.
