(* ===== verification/PaymentControllerSpec.v ===== *)
(** What the payment controller guarantees: a tick accounts for every payment
    (published once with the right amount, or back in the queue), notifications
    of neighbours are retried a bounded number of times, and what becomes of a
    payment that could not be published. *)
From S2P Require Import Prelude Types Oracle TxFee DebtKeeper DebtKeeperSpec DebtKeeperSafety Trim UsageTracker PaymentValidator PaymentController.

(** * One payment *)

(** The amount the chain's transaction carries. *)
Definition chain_amount `{N : Num256} (e : pay_env) (p : UnpublishedPaymentTx) : option Z :=
  match system_chain (pe_settings e) with
  | AltheaL1 => normalize_payment_amount (up_amount p) wei_denom (althea_l1_payment_denom (pe_settings e))
  | _ => Some (up_amount p)
  end.

(** [ts] is what is validated after [p] has been published. *)
Definition published `{N : Num256} (e : pay_env) (p : UnpublishedPaymentTx) (ts : ToValidate) : Prop :=
  exists amount id, chain_amount e p = Some amount /\ amount <> 0
    /\ payment ts = {| tx_to := up_to p; tx_from := up_from p; tx_amount := amount; txid := id |}
    /\ received ts = pe_now e
    /\ (is_Some (timeout_block ts) <-> system_chain (pe_settings e) = AltheaL1).

Section one_payment.
Context `{N : Num256} `{P : Profile} (e : pay_env).
Context (parse_txhash : string -> option Z) (contact_new : string -> bool).

Lemma sanity_ok bal p w w' u :
  sanity_check_balance e bal p w = Done w' u ->
  w' = w /\ up_amount p <> 0 /\ exists b, bal = Some b /\ up_amount p <= b.
Proof.
  unfold sanity_check_balance, report_failed. destruct bal as [b|]; [|done].
  destruct (Z.ltb_spec b (up_amount p)).
  - unfold bind, throw. by case_match.
  - destruct (Z.eqb_spec (up_amount p) 0); [done|]. intros [= <- <-]. eauto.
Qed.

Lemma resend_attempt p node acks r :
  send_make_payment_endpoints p node 0 acks = Some (Some r) -> attempt r = 1 /\ pmt r = p.
Proof.
  unfold send_make_payment_endpoints. rewrite (native_exact 0 U8_MAX) by (unfold U8_MAX; lia). simpl.
  intros Hr. destruct acks as [[v2|] [v1|]]; repeat case_match; by simplify_eq.
Qed.

Lemma report_then_fail {A} to x w w' (a : A) : (report_failed e to;! throw x) w = Done w' a -> False.
Proof. by intros (w1 & u & _ & [=])%bind_done. Qed.

Lemma xdai_published p an w w' ts retry :
  system_chain (pe_settings e) <> AltheaL1 ->
  make_xdai_payment e p an w = Done w' (ts, retry) ->
  w' = w /\ published e p ts /\ forall r, retry = Some r -> attempt r = 1 /\ pmt r = payment ts.
Proof.
  intros Hc (w1 & k & [-> Hk]%unwrap_done & E)%bind_done.
  apply bind_done in E as (w2 & u & (-> & Hnz & _)%sanity_ok & E).
  apply bind_done in E as (w3 & node & [-> _]%unwrap_done & E).
  destruct (an_prepare an); [|by apply report_then_fail in E].
  apply bind_done in E as (w4 & id & Es & E).
  assert (w4 = w) as ->.
  { destruct (an_send an) as [[]|]; [|by injection Es..]. by apply report_then_fail in Es. }
  apply bind_done in E as (w5 & r & [-> Er]%unwrap_done & [= <- <- <-]).
  split; [done|]. split; [|intros r' ->; by eapply resend_attempt].
  exists (up_amount p), id. split; [by unfold chain_amount; destruct (system_chain (pe_settings e))|].
  split; [done|split; [done|split; [done|]]]. simpl. split; [by intros [? ?]|done].
Qed.

Lemma althea_published p an w w' ts retry :
  system_chain (pe_settings e) = AltheaL1 ->
  make_althea_payment e parse_txhash contact_new p an w = Done w' (ts, retry) ->
  w' = w /\ published e p ts /\ forall r, retry = Some r -> attempt r = 1 /\ pmt r = payment ts.
Proof.
  intros Hc. unfold make_althea_payment. destruct (settings_eth_private_key _); [|done].
  intros (w1 & node & [-> _]%unwrap_done & E)%bind_done.
  apply bind_done in E as (w2 & amount & [-> Ea]%unwrap_done & E). revert E. cbn zeta.
  destruct (negb _); [done|]. destruct (an_balance an) as [[bal|]|]; [|done..].
  destruct (an_status an) as [[h|]|]; [|done..].
  intros (w3 & u & (-> & Hnz & _)%sanity_ok & E)%bind_done. simpl in Hnz.
  destruct (an_microtx an); [|by apply report_then_fail in E].
  apply bind_done in E as (w4 & id & [-> _]%unwrap_done & E).
  apply bind_done in E as (w5 & r & [-> Er]%unwrap_done & E).
  apply bind_done in E as (w6 & t & [-> _]%unwrap_done & [= <- <- <-]).
  split; [done|]. split; [|intros r' ->; by eapply resend_attempt].
  exists amount, id. split; [by unfold chain_amount; rewrite Hc|].
  split; [done|split; [reflexivity|split; [done|]]]. simpl. split; [done|eauto].
Qed.

Lemma make_payment_published p an w w' ts retry :
  make_payment e parse_txhash contact_new p an w = Done w' (ts, retry) ->
  w' = w /\ published e p ts /\ forall r, retry = Some r -> attempt r = 1 /\ pmt r = payment ts.
Proof.
  unfold make_payment. destruct (system_chain (pe_settings e)) eqn:Hc;
    [intros E; eapply xdai_published; [congruence|exact E]..|].
  intros E. by eapply althea_published.
Qed.

Lemma send_payments_spec popped i ans sent resend requeue w w' sent' resend' requeue' :
  send_payments e parse_txhash contact_new popped i ans sent resend requeue w
    = Some (w', sent', resend', requeue') ->
  exists done back new, popped ≡ₚ done ++ back /\ requeue' = requeue ++ back
    /\ (exists tss, sent' = sent ++ tss /\ Forall2 (published e) done tss
        /\ resend' = resend ++ new /\ Forall (fun r => attempt r = 1 /\ pmt r ∈ payment <$> tss) new).
Proof.
  revert i sent resend requeue w. induction popped as [|p popped IH]; intros i sent resend requeue w; simpl.
  { intros [= <- <- <- <-]. exists [], [], []. rewrite !app_nil_r. split; [done|]. split; [done|].
    exists []. rewrite app_nil_r. auto. }
  destruct (make_payment _ _ _ p (ans i) w) as [w1 [ts retry]|w1 x|] eqn:Em; [| |done].
  - destruct (make_payment_published _ _ _ _ _ _ Em) as (_ & Hp & Hr). intros E.
    destruct (IH _ _ _ _ _ E) as (dn & back & new & Hpm & -> & tss & -> & Hf & -> & Hn).
    exists (p :: dn), back, (option_list retry ++ new).
    split; [by rewrite Hpm|]. split; [done|]. exists (ts :: tss).
    split; [by rewrite <- app_assoc|]. split; [by constructor|].
    split; [destruct retry; simpl; [by rewrite <- app_assoc|done]|].
    assert (Forall (fun r => attempt r = 1 /\ pmt r ∈ payment <$> ts :: tss) new).
    { eapply Forall_impl; [exact Hn|]. intros r [? ?]. split; [done|]. simpl. by right. }
    destruct retry as [r|]; simpl; [|done]. constructor; [|done].
    destruct (Hr r eq_refl) as [? ->]. split; [done|left].
  - intros E. destruct (IH _ _ _ _ _ E) as (dn & back & new & Hpm & -> & H).
    exists dn, (p :: back), new. split; [by rewrite Hpm, <- Permutation_middle|].
    split; [by rewrite <- app_assoc|done].
Qed.
End one_payment.

(** The accounts of one tick. *)
Lemma tick_accounts `{N : Num256} `{P : Profile} e parse_txhash contact_new new
    ans acks c w w' c' sent :
  tick_payment_controller e parse_txhash contact_new new ans acks c w = Some (w', c', sent) ->
  exists paid, outgoing_queue c ++ new ≡ₚ paid ++ outgoing_queue c' /\ Forall2 (published e) paid sent.
Proof.
  unfold tick_payment_controller. intros E.
  destruct (outgoing_queue c ++ new) as [|p l] eqn:Eq.
  - assert (outgoing_queue c = []) as Hc by (by apply app_eq_nil in Eq as [-> _]).
    exists []. destruct (resend_queue c); [simplify_eq; by rewrite Hc|].
    simpl in E. destruct (run_resends _ _ _); by simplify_eq/=.
  - destruct (send_payments _ _ _ _ _ _ _ _ _ _) as [[[[w1 s1] r1] q1]|] eqn:Es; [|done].
    destruct (run_resends _ _ _); simplify_eq/=.
    apply send_payments_spec in Es as (paid & back & rs & Hp & -> & tss & -> & Hf & _).
    exists paid. split; [|done]. change (rev l ++ [p]) with (rev (p :: l)) in Hp. simpl.
    by rewrite <- Hp, <- Permutation_rev.
Qed.

(** C8 A tick loses no payment and pays none twice: the payments it was given
    are, up to order, the ones it published and the ones it puts back into the
    queue; each published one goes to its recipient with its amount in the
    chain's currency, never zero, and is handed to the validator once. *)
Theorem tick_accounts_for_every_payment `{N : Num256} `{P : Profile} e parse_txhash contact_new new
    ans acks c w w' c' sent :
  tick_payment_controller e parse_txhash contact_new new ans acks c w = Some (w', c', sent) ->
  exists paid, outgoing_queue c ++ new ≡ₚ paid ++ outgoing_queue c' /\ Forall2 (published e) paid sent.
Proof. intros H. by eapply tick_accounts. Qed.

Definition demo_payment : UnpublishedPaymentTx :=
  {| up_to := demo_identity; up_from := demo_identity; up_amount := 100 |}.
Definition demo_pay_env : pay_env := {|
  pe_netns := 0; pe_default := Some empty_keeper; pe_settings := demo_settings false;
  pe_eth_node_list := ["https://node"]; pe_althea_grpc_list := [];
  pe_oracle := {| balance := Some 1000; last_seen_block := None; last_updated := None |};
  pe_now := 7 |}.
Definition demo_answers : answers := {|
  an_balance := None; an_status := None; an_microtx := None; an_prepare := Some 77; an_send := inr 78;
  an_acks := (Some true, None); an_pick := 3 |}.
Definition demo_world : World := {| DEBT_DATA := ∅; AMOUNT_OWED := ∅ |}.

Lemma tick_accounts_for_every_payment_witness :
  exists w' c' sent paid,
    tick_payment_controller (N := Num256_panicking) (P := release_profile) demo_pay_env
      (fun _ => None) (fun _ => true) [demo_payment] (fun _ => demo_answers) (fun _ => (None, None))
      PaymentController_new demo_world = Some (w', c', sent)
    /\ [demo_payment] ≡ₚ paid ++ outgoing_queue c' /\ Forall2 (published (N := Num256_panicking) demo_pay_env) paid sent
    /\ (fun t => txid (payment t)) <$> sent = [78].
Proof.
  destruct (tick_payment_controller (N := Num256_panicking) (P := release_profile) demo_pay_env
    (fun _ => None) (fun _ => true) [demo_payment] (fun _ => demo_answers) (fun _ => (None, None))
    PaymentController_new demo_world) as [[[w' c'] sent]|] eqn:E; [|vm_compute in E; congruence].
  destruct (tick_accounts_for_every_payment (N := Num256_panicking) (P := release_profile) _ _ _ _ _ _ _ _ _ _ _ E)
    as (paid & Hp & Hf).
  exists w', c', sent, paid. split; [reflexivity|]. split; [exact Hp|]. split; [exact Hf|].
  vm_compute in E. injection E as _ _ <-. reflexivity.
Defined.

(** * Telling the neighbours *)

Definition resend_ok (r : ResendInfo) : Prop := 0 <= attempt r <= 255.

Section resends.
Context `{P : Profile}.

(** What one attempt leaves: nothing, or the same payment with one more attempt. *)
Lemma endpoints_again p node att acks :
  0 <= att < 255 ->
  send_make_payment_endpoints p node att acks
  = Some (if bool_decide (acks.1 = Some true \/ acks.2 = Some true) then None
          else Some {| full_node := node; pmt := p; attempt := att + 1 |}).
Proof.
  intros Ha. unfold send_make_payment_endpoints.
  rewrite (native_exact 0 U8_MAX) by (unfold U8_MAX; lia). simpl.
  destruct acks as [[[]|] [[]|]]; case_bool_decide as Hb; simpl in *; try done; naive_solver.
Qed.

Lemma run_resends_spec popped i acks :
  Forall resend_ok popped ->
  exists rest, run_resends popped i acks = Some rest
    /\ rest `sublist_of` ((fun r => {| full_node := full_node r; pmt := pmt r; attempt := attempt r + 1 |})
                          <$> filter (fun r => attempt r < 15) popped).
Proof.
  revert i. induction popped as [|r popped IH]; intros i Hok; simpl; [by exists []|].
  inversion_clear Hok as [|? ? Hr Hok']. destruct (IH (S i) Hok') as (rest & E & Hs).
  unfold MAX_TXID_RETRIES. rewrite filter_cons. destruct (Z.leb_spec 15 (attempt r)).
  - rewrite decide_False by lia. eauto.
  - rewrite decide_True by lia. unfold resend_ok in Hr. rewrite endpoints_again by lia. simpl.
    rewrite E. simpl. case_bool_decide; eexists; (split; [reflexivity|]); by constructor.
Qed.

(** Ticks in which no payment is waiting to be published. *)
Context `{N : Num256} (e : pay_env) (parse_txhash : string -> option Z) (contact_new : string -> bool).
Fixpoint idle_ticks (n : nat) (ans : nat -> nat -> answers) (acks : nat -> nat -> option bool * option bool)
    (c : PaymentController) (w : World) : option (World * PaymentController) :=
  match n with
  | O => Some (w, c)
  | S n =>
      match tick_payment_controller e parse_txhash contact_new [] (ans n) (acks n) c w with
      | Some (w, c, _) => idle_ticks n ans acks c w
      | None => None
      end
  end.

Lemma idle_tick ans acks c w :
  outgoing_queue c = [] -> Forall resend_ok (resend_queue c) ->
  exists q, tick_payment_controller e parse_txhash contact_new [] ans acks c w
            = Some (w, {| outgoing_queue := []; resend_queue := q |}, [])
    /\ Forall (fun r => exists r0, r0 ∈ resend_queue c /\ attempt r0 < 15 /\ attempt r = attempt r0 + 1) q.
Proof.
  intros Ho Hr. unfold tick_payment_controller. rewrite Ho. simpl.
  destruct (resend_queue c) as [|r q] eqn:Eq.
  { exists []. destruct c. simpl in *. by subst. }
  destruct (run_resends_spec (rev (r :: q)) 0 acks) as (rest & E & Hs); [by apply Forall_rev|].
  cbn [send_payments rev app] in *. rewrite E. exists rest. split; [done|]. apply Forall_forall. intros x Hx.
  eapply elem_of_sublist in Hs; [|exact Hx].
  apply list_elem_of_fmap in Hs as (r0 & -> & [Hlt Hin]%list_elem_of_filter).
  exists r0. split; [|done]. by rewrite Permutation_rev.
Qed.

Lemma idle_drain n ans acks c w :
  outgoing_queue c = [] -> Forall (fun r => 0 <= attempt r <= 255 /\ (15 < attempt r + Z.of_nat n)) (resend_queue c) ->
  idle_ticks (S n) ans acks c w = Some (w, PaymentController_new).
Proof.
  assert (Hok : forall c m, Forall (fun r => 0 <= attempt r <= 255 /\ 15 < attempt r + m) (resend_queue c) ->
    Forall resend_ok (resend_queue c)).
  { intros c' m H. eapply Forall_impl; [exact H|]. by intros r [? _]. }
  revert c. induction n as [|n IH]; intros c Ho Hr.
  - destruct (idle_tick (ans O) (acks O) c w Ho) as (q & E & Hq); [by eapply Hok|].
    cbn [idle_ticks]. rewrite E. assert (q = []) as ->; [|done]. destruct q as [|r q]; [done|].
    apply Forall_cons in Hq as [(r0 & Hin & ? & ?) _]. rewrite Forall_forall in Hr.
    specialize (Hr _ Hin). lia.
  - destruct (idle_tick (ans (S n)) (acks (S n)) c w Ho) as (q & E & Hq); [by eapply Hok|].
    change (match tick_payment_controller e parse_txhash contact_new [] (ans (S n)) (acks (S n)) c w with
            | Some (w, c, _) => idle_ticks (S n) ans acks c w | None => None end
            = Some (w, PaymentController_new)).
    rewrite E. apply IH; [done|]. eapply Forall_impl; [exact Hq|].
    intros r (r0 & Hin & ? & ->). rewrite Forall_forall in Hr. specialize (Hr _ Hin). lia.
Qed.
End resends.

(** Telling a neighbour about a payment is retried a bounded number of
    times: whatever the neighbours answer, sixteen ticks with no payment to
    publish empty the controller, without panicking and without touching the
    ledger. *)
Theorem resends_end `{N : Num256} `{P : Profile} e parse_txhash contact_new ans acks c w :
  outgoing_queue c = [] -> Forall (fun r => 1 <= attempt r <= 15) (resend_queue c) ->
  idle_ticks e parse_txhash contact_new 16 ans acks c w = Some (w, PaymentController_new).
Proof.
  intros Ho Hr. apply idle_drain; [done|]. eapply Forall_impl; [exact Hr|]. simpl. lia.
Qed.

Definition demo_resend : ResendInfo :=
  {| full_node := "https://node"; pmt := publish demo_payment 78; attempt := 1 |}.

Lemma resends_end_witness :
  idle_ticks (N := Num256_panicking) (P := debug_profile) demo_pay_env (fun _ => None) (fun _ => true) 16
    (fun _ _ => demo_answers) (fun _ _ => (None, Some false))
    {| outgoing_queue := []; resend_queue := [demo_resend; demo_resend] |} demo_world
  = Some (demo_world, PaymentController_new).
Proof.
  apply (resends_end (N := Num256_panicking) (P := debug_profile)); [reflexivity|].
  repeat constructor; simpl; lia.
Defined.

(** * A payment that could not be published *)

Section rejected.
Context `{N : Num256} {L : Num256Laws N} `{P : Profile} (e : pay_env).
Context (parse_txhash : string -> option Z) (contact_new : string -> bool).
Context (k b : Z) (Hkey : settings_eth_private_key (pe_settings e) = Some k)
        (Hchain : system_chain (pe_settings e) <> AltheaL1) (Hnode : pe_eth_node_list e <> [])
        (Hbal : balance (pe_oracle e) = Some b).

Lemma some_node val : exists node, get_web3_server e val = Some node.
Proof.
  unfold get_web3_server. destruct (lookup_lt_is_Some_2 (pe_eth_node_list e)
    (val mod length (pe_eth_node_list e))%nat) as [node ->]; [|eauto].
  apply Nat.mod_upper_bound. by destruct (pe_eth_node_list e).
Qed.

Lemma make_payment_eth p an w : make_payment e parse_txhash contact_new p an w = make_xdai_payment e p an w.
Proof. unfold make_payment. by destruct (system_chain (pe_settings e)). Qed.

Lemma sanity_pass p w : 0 < up_amount p <= b -> sanity_check_balance e (Some b) p w = Done w tt.
Proof.
  intros Hp. unfold sanity_check_balance. destruct (Z.ltb_spec b (up_amount p)); [lia|].
  by destruct (Z.eqb_spec (up_amount p) 0); [lia|].
Qed.

Lemma pay_published p an w prepared id :
  0 < up_amount p <= b -> an_prepare an = Some prepared -> an_send an = inr id ->
  exists retry, make_payment e parse_txhash contact_new p an w
    = Done w ({| payment := publish p id; received := pe_now e; timeout_block := None |}, retry)
    /\ forall r, retry = Some r -> resend_ok r.
Proof.
  intros Hp Ha Hs. rewrite make_payment_eth. unfold make_xdai_payment, bind.
  rewrite Hkey, Hbal. cbn [unwrap]. rewrite sanity_pass by done. cbn beta iota.
  destruct (some_node (an_pick an)) as [node ->]. cbn [unwrap]. rewrite Ha, Hs. unfold ret, unwrap.
  rewrite endpoints_again by lia. eexists. split; [reflexivity|].
  intros r. case_bool_decide; [done|]. intros [= <-]. unfold resend_ok. simpl. lia.
Qed.

Lemma pay_rejected p an w dk :
  0 < up_amount p <= b -> an_prepare an = None -> DEBT_DATA w !! pe_netns e = Some dk ->
  make_payment e parse_txhash contact_new p an w
  = Fail {| DEBT_DATA := <[pe_netns e := {| last_save := last_save dk;
              debt_data := hm_insert (up_to p) (set_in_flight false None (entry (up_to p) dk)) (debt_data dk) |}]>
              (DEBT_DATA w);
            AMOUNT_OWED := AMOUNT_OWED w |} FailedToSendPayment.
Proof.
  intros Hp Ha Hdk. rewrite make_payment_eth. unfold make_xdai_payment, bind.
  rewrite Hkey, Hbal. cbn [unwrap]. rewrite sanity_pass by done. cbn beta iota.
  destruct (some_node (an_pick an)) as [node ->]. simpl. rewrite Ha. unfold report_failed.
  unfold payment_failed, with_debt_keeper, get_debt_keeper_write_ref. by rewrite Hdk.
Qed.

Lemma due_again s now i dk :
  settings_ok s -> dk_wf dk -> payment_in_flight (entry i dk) = false ->
  payment_threshold s < debt (entry i dk) <= 10 * payment_threshold s ->
  exists dk', send_update s now i dk = Done dk' (MakePayment i (debt (entry i dk))).
Proof.
  intros Hs Hdk Hf Hd. pose proof Hs as [H0 H1]. unfold send_update, on_entry. fold (entry i dk).
  rewrite send_update_exact; [|done|by apply entry_wf|].
  2: { unfold update_fits. destruct (debt_limit_enabled s); lia256. }
  unfold send_update_spec. rewrite Hf.
  destruct (Z.ltb_spec (debt (entry i dk)) (-10 * payment_threshold s)); [lia|].
  destruct (Z.ltb_spec (payment_threshold s) (debt (entry i dk))); [|lia].
  eexists. destruct (debt_limit_enabled s); simpl; [|reflexivity].
  assert (clamp_debt (-10 * payment_threshold s) (debt (entry i dk)) = debt (entry i dk)) as ->; [|reflexivity].
  unfold clamp_debt. lia.
Qed.
End rejected.

(** A payment the full node would not prepare is reported as failed to
    the debt keeper and nevertheless stays in the queue. The next debt round
    finds the debt still there and asks for the payment again, and as soon as
    the full node works both are published: the neighbour is paid twice. *)
Theorem rejected_payment_paid_twice `{N : Num256} {L : Num256Laws N} `{P : Profile} e parse_txhash contact_new
    k b p w dk ans acks prepared id ans2 acks2 :
  let s := pe_settings e in
  settings_eth_private_key s = Some k -> system_chain s <> AltheaL1 -> pe_eth_node_list e <> [] ->
  balance (pe_oracle e) = Some b -> settings_ok s -> dk_wf dk -> DEBT_DATA w !! pe_netns e = Some dk ->
  payment_threshold s < up_amount p <= 10 * payment_threshold s -> up_amount p <= b ->
  debt (entry (up_to p) dk) = up_amount p -> an_prepare (ans 0%nat) = None ->
  (forall i, an_prepare (ans2 i) = Some (prepared i) /\ an_send (ans2 i) = inr (id i)) ->
  let c := {| outgoing_queue := [p]; resend_queue := [] |} in
  exists w1 dk1,
    tick_payment_controller e parse_txhash contact_new [] ans acks c w = Some (w1, c, [])
    /\ DEBT_DATA w1 !! pe_netns e = Some dk1
    /\ (forall now, exists dk2, send_update s now (up_to p) dk1 = Done dk2 (MakePayment (up_to p) (up_amount p)))
    /\ (forall w2, exists c3, tick_payment_controller e parse_txhash contact_new [p] ans2 acks2 c w2
          = Some (w2, c3, [{| payment := publish p (id 0%nat); received := pe_now e; timeout_block := None |};
                           {| payment := publish p (id 1%nat); received := pe_now e; timeout_block := None |}])).
Proof.
  intros s Hkey Hchain Hnode Hbal Hs Hdk Hw Hamt Hb Hd Hrej Hok c. pose proof Hs as [H0 _].
  eexists _, _. split; [|split; [|split]].
  - unfold tick_payment_controller. simpl.
    by rewrite (pay_rejected e parse_txhash contact_new k b Hkey Hchain Hnode Hbal p (ans 0%nat) w dk)
      by (done || lia).
  - apply lookup_insert_eq.
  - intros now. rewrite <- Hd.
    set (dk1 := {| last_save := last_save dk; debt_data := _ |}).
    assert (He : entry (up_to p) dk1 = set_in_flight false None (entry (up_to p) dk)).
    { unfold entry at 1. unfold dk1. simpl. by rewrite hm_get_insert_eq. }
    destruct (due_again s now (up_to p) dk1 Hs) as [dk2 E].
    + by eapply (run_op_wf s now (OpFailed (up_to p)) dk).
    + by rewrite He.
    + rewrite He. simpl. lia.
    + exists dk2. rewrite E, He. done.
  - intros w2. unfold tick_payment_controller. simpl.
    destruct (Hok 0%nat) as [Hp0 Hs0], (Hok 1%nat) as [Hp1 Hs1].
    destruct (pay_published e parse_txhash contact_new k b Hkey Hchain Hnode Hbal p (ans2 0%nat) w2 _ _
      ltac:(lia) Hp0 Hs0) as (r0 & -> & Hr0).
    destruct (pay_published e parse_txhash contact_new k b Hkey Hchain Hnode Hbal p (ans2 1%nat) w2 _ _
      ltac:(lia) Hp1 Hs1) as (r1 & -> & Hr1). simpl.
    edestruct run_resends_spec as (rest & -> & _); [|eexists; reflexivity].
    apply Forall_rev. destruct r0, r1; repeat constructor; simpl; naive_solver.
Qed.

Definition demo_due : UnpublishedPaymentTx :=
  {| up_to := demo_identity; up_from := demo_identity; up_amount := 5 |}.
Definition demo_owing : DebtKeeper := (demo_run false [(1, OpTraffic demo_identity 5)]).1.
Definition demo_owing_world : World := {| DEBT_DATA := {[0 := demo_owing]}; AMOUNT_OWED := ∅ |}.
Definition demo_down : answers := {|
  an_balance := None; an_status := None; an_microtx := None; an_prepare := None; an_send := inr 0;
  an_acks := (None, None); an_pick := 0 |}.

Lemma rejected_payment_paid_twice_witness :
  exists w1 dk1 dk2,
    tick_payment_controller (N := Num256_panicking) (P := release_profile) demo_pay_env (fun _ => None)
      (fun _ => true) [] (fun _ => demo_down) (fun _ => (None, None))
      {| outgoing_queue := [demo_due]; resend_queue := [] |} demo_owing_world
    = Some (w1, {| outgoing_queue := [demo_due]; resend_queue := [] |}, [])
    /\ DEBT_DATA w1 !! 0 = Some dk1
    /\ send_update (N := Num256_panicking) (demo_settings false) 9 demo_identity dk1
       = Done dk2 (MakePayment demo_identity 5).
Proof.
  destruct (rejected_payment_paid_twice (N := Num256_panicking) (P := release_profile) demo_pay_env
    (fun _ => None) (fun _ => true) 9 1000 demo_due demo_owing_world demo_owing (fun _ => demo_down)
    (fun _ => (None, None)) (fun _ => 77) (fun _ => 78) (fun _ => demo_answers) (fun _ => (None, None)))
    as (w1 & dk1 & E & Hw & Hu & _); [reflexivity|done|done|reflexivity| | |reflexivity|simpl; lia|simpl; lia| |reflexivity|done|].
  - apply demo_settings_ok.
  - apply demo_run_wf. repeat constructor; vm_compute; congruence.
  - vm_compute. reflexivity.
  - destruct (Hu 9) as [dk2 Hd]. exists w1, dk1, dk2. split; [exact E|]. split; [exact Hw|]. exact Hd.
Defined.
