(* ===== verification/Text.v ===== *)
(** Text as the language's standard library handles it: splitting, trimming and
    searching strings, parsing integers and IP addresses, and the round trips
    of splitting and of decimal numbers. Strings are lists of ASCII characters,
    the alphabet of the protocols that use them. *)
From Stdlib Require Export Ascii.
From S2P Require Import Prelude Types.

Definition text : Type := list ascii.
(** A string literal as text. *)
Definition lit (s : string) : text := String.list_ascii_of_string s.

#[export] Instance ascii_eq_dec : EqDecision ascii := Ascii.ascii_dec.

Definition space : ascii := " "%char.
Definition newline : ascii := Ascii.ascii_of_nat 10.
Definition text_eqb (a b : text) : bool := bool_decide (a = b).

(** * Searching and splitting *)

(** [str::split(c)]: always at least one piece. *)
Fixpoint split_on (c : ascii) (l : text) : list text :=
  match l with
  | [] => [[]]
  | x :: rest =>
      if Ascii.eqb x c then [] :: split_on c rest
      else match split_on c rest with
           | h :: t => (x :: h) :: t
           | [] => [[x]]
           end
  end.

Fixpoint join (c : ascii) (ls : list text) : text :=
  match ls with
  | [] => []
  | [a] => a
  | a :: rest => a ++ c :: join c rest
  end.

Fixpoint starts_with (p l : text) : bool :=
  match p, l with
  | [], _ => true
  | a :: p, b :: l => Ascii.eqb a b && starts_with p l
  | _ :: _, [] => false
  end.
(** [str::contains(p)]. *)
Fixpoint contains (p l : text) : bool :=
  starts_with p l || match l with [] => false | _ :: rest => contains p rest end.

(** [str::lines]: pieces between line ends, a final empty piece left out, and a
    carriage return before the line end removed. *)
Definition strip_cr (l : text) : text :=
  match rev l with
  | c :: r => if Ascii.eqb c (Ascii.ascii_of_nat 13) then rev r else l
  | [] => l
  end.
Definition lines (l : text) : list text :=
  let ps := split_on newline l in
  match rev ps with
  | [] :: r => strip_cr <$> rev r
  | lst :: r => (strip_cr <$> rev r) ++ [lst]
  | [] => []
  end.

(** [str::trim] and [str::trim_matches]. *)
Definition is_whitespace (c : ascii) : bool :=
  let n := Ascii.nat_of_ascii c in ((9 <=? n) && (n <=? 13) || (n =? 32))%nat.
Fixpoint drop_while (f : ascii -> bool) (l : text) : text :=
  match l with [] => [] | x :: rest => if f x then drop_while f rest else l end.
Definition trim_by (f : ascii -> bool) (l : text) : text := rev (drop_while f (rev (drop_while f l))).
Definition trim_text (l : text) : text := trim_by is_whitespace l.

(** * Numbers *)

Definition digit_value (c : ascii) : option Z :=
  let n := Z.of_nat (Ascii.nat_of_ascii c) in
  if (48 <=? n) && (n <=? 57) then Some (n - 48)
  else if (97 <=? n) && (n <=? 122) then Some (n - 87)
  else if (65 <=? n) && (n <=? 90) then Some (n - 55)
  else None.
Definition digit (radix : Z) (c : ascii) : option Z :=
  d ← digit_value c; if d <? radix then Some d else None.

Fixpoint parse_digits (radix max acc : Z) (l : text) : option Z :=
  match l with
  | [] => Some acc
  | c :: rest =>
      d ← digit radix c;
      let acc := acc * radix + d in
      if acc <=? max then parse_digits radix max acc rest else None
  end.
(** [from_str_radix] of an unsigned type with maximum [max]. *)
Definition parse_uint (radix max : Z) (l : text) : option Z :=
  match l with
  | [] => None
  | c :: rest =>
      let body := if Ascii.eqb c "+"%char then rest else l in
      match body with [] => None | _ => parse_digits radix max 0 body end
  end.

Definition parse_bool (l : text) : option bool :=
  if text_eqb l (lit "true") then Some true
  else if text_eqb l (lit "false") then Some false else None.

(** * IP addresses

    The parser of [std::net]: each function returns what it read and the rest. *)
Definition reader (A : Type) : Type := text -> option (A * text).

Definition read_char (c : ascii) : reader unit := fun l =>
  match l with x :: rest => if Ascii.eqb x c then Some (tt, rest) else None | [] => None end.

(** The longest run of digits; a number of more than [digits] of them, or over
    [max], is refused. *)
Fixpoint read_digits (radix : Z) (l : text) : list Z * text :=
  match l with
  | [] => ([], [])
  | c :: rest =>
      match digit radix c with
      | Some d => let '(ds, r) := read_digits radix rest in (d :: ds, r)
      | None => ([], l)
      end
  end.
Definition number_of (radix : Z) (ds : list Z) : Z := foldl (fun acc d => acc * radix + d) 0 ds.
Definition read_number (radix : Z) (digits : nat) (allow_zero_prefix : bool) (max : Z) : reader Z := fun l =>
  let '(ds, rest) := read_digits radix l in
  match ds with
  | [] => None
  | d :: more =>
      if (digits <? length ds)%nat || (max <? number_of radix ds) then None
      else if negb allow_zero_prefix && (d =? 0) && negb (bool_decide (more = [])) then None
      else Some (number_of radix ds, rest)
  end.

(** [read_separator]: the separator before every element but the first. *)
Definition read_separator {A} (c : ascii) (i : nat) (r : reader A) : reader A := fun l =>
  match i with
  | O => r l
  | S _ => match read_char c l with Some (_, rest) => r rest | None => None end
  end.

Fixpoint read_octets (n i : nat) (acc : Z) (l : text) : option (Z * text) :=
  match n with
  | O => Some (acc, l)
  | S n =>
      match read_separator "."%char i (read_number 10 3 false 255) l with
      | Some (x, rest) => read_octets n (S i) (acc * 256 + x) rest
      | None => None
      end
  end.
Definition read_ipv4_addr : reader Z := read_octets 4 0 0.

(** Up to [n] groups from index [i] on, the groups read, whether the last two
    came from a dotted quad, and the rest. *)
Fixpoint read_groups (n i : nat) (l : text) : list Z * bool * text :=
  match n with
  | O => ([], false, l)
  | S m =>
      match (if (1 <? n)%nat then read_separator ":"%char i read_ipv4_addr l else None) with
      | Some (v4, rest) => ([v4 / 65536; v4 mod 65536], true, rest)
      | None =>
          match read_separator ":"%char i (read_number 16 4 true 65535) l with
          | Some (g, rest) => let '(gs, v4, r) := read_groups m (S i) rest in (g :: gs, v4, r)
          | None => ([], false, l)
          end
      end
  end.
Definition of_groups (gs : list Z) : Z := number_of 65536 gs.
Definition read_ipv6_addr : reader Z := fun l =>
  let '(head, head_ipv4, rest) := read_groups 8 0 l in
  if bool_decide (length head = 8%nat) then Some (of_groups head, rest)
  else if head_ipv4 then None
  else
    '(_, rest) ← read_char ":"%char rest;
    '(_, rest) ← read_char ":"%char rest;
    let '(tail, _, rest) := read_groups (7 - length head) 0 rest in
    Some (of_groups (head ++ replicate (8 - length head - length tail) 0 ++ tail), rest).

Definition parse_ip (l : text) : option IpAddr :=
  match read_ipv4_addr l with
  | Some (a, rest) => match rest with [] => Some (V4 a) | _ => None end
  | None =>
      match read_ipv6_addr l with
      | Some (a, []) => Some (V6 a)
      | _ => None
      end
  end.

Example parse_ip_v4 : parse_ip (lit "192.168.1.254") = Some (V4 3232236030).
Proof. vm_compute. reflexivity. Qed.
Example parse_ip_v6 : parse_ip (lit "fe80::16cc:20ff:feb1:86e9")
  = Some (V6 0xfe80000000000000_16cc20fffeb186e9).
Proof. vm_compute. reflexivity. Qed.
Example parse_ip_bad : parse_ip (lit "1:2:3:4:5:6:7:8:9") = None.
Proof. vm_compute. reflexivity. Qed.

(** * Round trips *)

Lemma split_on_single c l : c ∉ l -> split_on c l = [l].
Proof.
  induction l as [|x l IH]; intros Hc; simpl; [done|].
  apply not_elem_of_cons in Hc as [Hx Hl]. rewrite (proj2 (Ascii.eqb_neq x c)) by done. by rewrite IH.
Qed.

Lemma split_on_app c a l : c ∉ a -> split_on c (a ++ c :: l) = a :: split_on c l.
Proof.
  induction a as [|x a IH]; intros Hc; simpl; [by rewrite Ascii.eqb_refl|].
  apply not_elem_of_cons in Hc as [Hx Hl]. rewrite (proj2 (Ascii.eqb_neq x c)) by done. by rewrite IH.
Qed.

Lemma split_join c ls : ls <> [] -> Forall (fun l => c ∉ l) ls -> split_on c (join c ls) = ls.
Proof.
  induction ls as [|a ls IH]; intros Hne Hc; [done|]. apply Forall_cons in Hc as [Ha Hc].
  destruct ls as [|b ls]; [by apply split_on_single|].
  change (join c (a :: b :: ls)) with (a ++ c :: join c (b :: ls)).
  rewrite split_on_app by done. by rewrite IH.
Qed.

Lemma starts_with_app p l : starts_with p (p ++ l) = true.
Proof. induction p as [|x p IH]; simpl; [done|]. by rewrite Ascii.eqb_refl, IH. Qed.

Lemma contains_app p a l : contains p (a ++ p ++ l) = true.
Proof.
  induction a as [|x a IH]; simpl.
  - destruct (p ++ l) eqn:E; simpl; rewrite <- E, starts_with_app; done.
  - by rewrite IH, orb_true_r.
Qed.

(** Decimal numbers, most significant digit first. *)
Definition digit_char (d : Z) : ascii := Ascii.ascii_of_nat (Z.to_nat (48 + d)).

Lemma digit_digit_char d : 0 <= d < 10 -> digit 10 (digit_char d) = Some d.
Proof.
  intros Hd. assert (d = 0 \/ d = 1 \/ d = 2 \/ d = 3 \/ d = 4 \/ d = 5 \/ d = 6 \/ d = 7 \/ d = 8 \/ d = 9) as H
    by lia.
  by repeat destruct H as [->|H]; [..|subst].
Qed.

Fixpoint decimal_digits (fuel : nat) (n : Z) : text :=
  match fuel with
  | O => []
  | S fuel => if n <? 10 then [digit_char n] else decimal_digits fuel (n / 10) ++ [digit_char (n mod 10)]
  end.
(** [to_string] of an unsigned number of at most 39 digits. *)
Definition show_uint (n : Z) : text := decimal_digits 40 n.

Lemma parse_digits_app max acc l c d v :
  parse_digits 10 max acc l = Some v -> digit 10 c = Some d -> v * 10 + d <= max ->
  parse_digits 10 max acc (l ++ [c]) = Some (v * 10 + d).
Proof.
  revert acc. induction l as [|x l IH]; intros acc; simpl.
  - intros [= ->] -> Hm. simpl. by rewrite (proj2 (Z.leb_le _ _) Hm).
  - destruct (digit 10 x) as [dx|]; [simpl|done]. case_match; [|done]. apply IH.
Qed.

Lemma parse_decimal_digits fuel n max :
  0 <= n <= max -> n < 10 ^ Z.of_nat fuel -> parse_digits 10 max 0 (decimal_digits fuel n) = Some n.
Proof.
  revert n. induction fuel as [|fuel IH]; intros n Hn Hf.
  { simpl. f_equal. change (10 ^ Z.of_nat 0) with 1 in Hf. lia. }
  rewrite Nat2Z.inj_succ, Z.pow_succ_r in Hf by lia.
  cbn [decimal_digits]. destruct (Z.ltb_spec n 10).
  - cbn [parse_digits]. rewrite digit_digit_char by lia. cbn [mbind option_bind]. change (0 * 10 + n) with n.
    by rewrite (proj2 (Z.leb_le n max)) by lia.
  - pose proof (Z.div_mod n 10 ltac:(lia)) as Hdm. pose proof (Z.mod_pos_bound n 10 ltac:(lia)).
    replace n with (n / 10 * 10 + n mod 10) at 3 by lia.
    apply parse_digits_app; [|apply digit_digit_char; lia|lia].
    apply IH; [lia|]. apply Z.div_lt_upper_bound; lia.
Qed.

Lemma decimal_digits_cons fuel n : exists d rest, 0 <= n -> 
  decimal_digits (S fuel) n = digit_char d :: rest /\ 0 <= d < 10.
Proof.
  revert n. induction fuel as [|fuel IH]; intros n.
  - destruct (Z.ltb_spec n 10) as [Hl|Hl].
    + exists n, []. intros Hn. simpl. rewrite (proj2 (Z.ltb_lt _ _) Hl). split; [done|lia].
    + exists (n mod 10), []. intros Hn. simpl. rewrite (proj2 (Z.ltb_ge _ _) Hl).
      split; [done|]. apply Z.mod_pos_bound. lia.
  - destruct (Z.ltb_spec n 10) as [Hl|Hl].
    + exists n, []. intros Hn. cbn [decimal_digits]. rewrite (proj2 (Z.ltb_lt _ _) Hl). split; [done|lia].
    + destruct (IH (n / 10)) as (d & rest & Hd). exists d, (rest ++ [digit_char (n mod 10)]).
      intros Hn. destruct Hd as [Hd ?]; [apply Z.div_pos; lia|].
      change (decimal_digits (S (S fuel)) n) with
        (if n <? 10 then [digit_char n] else decimal_digits (S fuel) (n / 10) ++ [digit_char (n mod 10)]).
      rewrite (proj2 (Z.ltb_ge _ _) Hl), Hd. done.
Qed.

Lemma digit_char_plain d c : 0 <= d < 10 -> digit 10 c = None -> digit_char d <> c.
Proof. intros Hd Hc <-. by rewrite digit_digit_char in Hc. Qed.

(** Parsing what was printed. *)
Lemma parse_show_uint max n :
  0 <= n <= max -> max < 10 ^ 40 -> parse_uint 10 max (show_uint n) = Some n.
Proof.
  intros Hn Hm. pose proof (parse_decimal_digits 40 n max Hn ltac:(lia)) as Hp.
  unfold show_uint in *. destruct (decimal_digits_cons 39 n) as (d & rest & Hd).
  destruct Hd as [Hd Hdr]; [lia|]. rewrite Hd in *. unfold parse_uint.
  rewrite (proj2 (Ascii.eqb_neq _ _)) by (by apply digit_char_plain). done.
Qed.

Lemma show_uint_plain n c : 0 <= n -> digit 10 c = None -> c ∉ show_uint n.
Proof.
  intros Hn Hc. unfold show_uint. generalize 40%nat. intros fuel. revert n Hn.
  induction fuel as [|fuel IH]; intros n Hn; simpl; [apply not_elem_of_nil|].
  destruct (Z.ltb_spec n 10).
  - intros Hin%list_elem_of_singleton. by apply (digit_char_plain n c); [lia|done|].
  - rewrite not_elem_of_app. split; [apply IH, Z.div_pos; lia|].
    intros Hin%list_elem_of_singleton. apply (digit_char_plain (n mod 10) c); [|done|done].
    apply Z.mod_pos_bound. lia.
Qed.

(** * Lines and parts of text *)

(** The carriage return. *)
Definition cr : ascii := Ascii.ascii_of_nat 13.
Lemma strip_cr_plain l : cr ∉ l -> strip_cr l = l.
Proof.
  intros Hl. unfold strip_cr. destruct (rev l) as [|c r] eqn:E; [done|].
  destruct (Ascii.eqb_spec c (Ascii.ascii_of_nat 13)) as [->|]; [|done]. exfalso. apply Hl.
  rewrite <- (rev_involutive l), E. cbn [rev]. apply elem_of_app. right. by left.
Qed.
Lemma lines_join ls :
  Forall (fun l => l <> [] /\ (newline ∉ l) /\ cr ∉ l) ls -> lines (join newline ls) = ls.
Proof.
  intros Hls. destruct ls as [|l0 ls0] eqn:E; [done|]. rewrite <- E in *. unfold lines. cbv zeta.
  rewrite split_join; [|by subst|eapply Forall_impl; [exact Hls|]; by intros l (_ & ? & _)].
  assert (Hs : forall r, Forall (fun l => l <> [] /\ (newline ∉ l) /\ cr ∉ l) r -> (strip_cr <$> r) = r).
  { induction 1 as [|l r (_ & _ & Hl) _ IH]; [done|]. cbn [fmap list_fmap]. f_equal; [by apply strip_cr_plain|done]. }
  match goal with |- context [match ?x with _ => _ end] => destruct x as [|lst r] eqn:Er end.
  { apply (f_equal (@length _)) in Er. rewrite length_rev in Er. by subst. }
  assert (Hd : ls = rev r ++ [lst]) by (apply (f_equal (@rev _)) in Er; by rewrite rev_involutive in Er).
  rewrite Hd in Hls. apply Forall_app in Hls as [Hr (Hne & _ & _)%Forall_singleton].
  destruct lst as [|c lst]; [done|]. rewrite Hs by done. done.
Qed.
Lemma elem_of_join c x ws : x ∈ join c ws -> x = c \/ exists w, w ∈ ws /\ x ∈ w.
Proof.
  induction ws as [|w ws IH]; [by intros ?%elem_of_nil|]. destruct ws as [|w' ws].
  - intros H. right. exists w. split; [by left|done].
  - change (join c (w :: w' :: ws)) with (w ++ c :: join c (w' :: ws)). rewrite elem_of_app, elem_of_cons.
    intros [H|[H|H]]; [right; exists w; split; [by left|done]|by left|].
    destruct (IH H) as [?|(v & Hv & Hx)]; [by left|]. right. exists v. split; [by right|done].
Qed.
Lemma contains_char p l c : c ∈ p -> contains p l = true -> c ∈ l.
Proof.
  intros Hc. assert (Hs : forall l, starts_with p l = true -> c ∈ l).
  { clear l. induction p as [|a p IH]; intros l; [by apply elem_of_nil in Hc|]. destruct l as [|b l]; [done|].
    cbn [starts_with]. intros [->%Ascii.eqb_eq Hp]%andb_true_iff. apply elem_of_cons in Hc as [->|Hc]; [by left|].
    right. by apply IH. }
  induction l as [|b l IH]; cbn [contains]; intros [H|H]%orb_true_iff; [by apply Hs|done|by apply Hs|]. right. by apply IH.
Qed.
Lemma starts_with_app_l p a b : starts_with p a = true -> starts_with p (a ++ b) = true.
Proof.
  revert a. induction p as [|x p IH]; intros [|y l]; cbn; try done. intros [? ?]%andb_true_iff. apply andb_true_iff. auto.
Qed.
Lemma contains_app_l p a b : contains p a = true -> contains p (a ++ b) = true.
Proof.
  induction a as [|x a IH]; cbn [contains app].
  - rewrite orb_false_r. intros H%(starts_with_app_l p [] b). cbn in H. destruct b; cbn [contains]; by rewrite H.
  - intros [H|H]%orb_true_iff; [apply (starts_with_app_l p (x :: a) b) in H; cbn in H; by rewrite H|]. by rewrite IH, orb_true_r.
Qed.
Lemma contains_app_r p a b : contains p b = true -> contains p (a ++ b) = true.
Proof. intros H. induction a as [|x a IH]; [done|]. cbn [app contains]. by rewrite IH, orb_true_r. Qed.
Lemma contains_refl p : contains p p = true.
Proof. rewrite <- (app_nil_r p) at 2. apply (contains_app p [] []). Qed.
