(* ===== verification/IpText.v ===== *)
(** The text of IP addresses: [Display] of the addresses of [std::net] (dotted
    quads, groups with the longest run of zeros left out, mapped addresses), and
    the proof that reading a printed address gives it back. *)
From S2P Require Import Prelude Types Text.

(** * Printing *)

(** Digits in a radix, most significant first. *)
Fixpoint digits_of (radix : Z) (chr : Z -> ascii) (fuel : nat) (n : Z) : text :=
  match fuel with
  | O => []
  | S fuel => if n <? radix then [chr n] else digits_of radix chr fuel (n / radix) ++ [chr (n mod radix)]
  end.
Definition hex_char (d : Z) : ascii := Ascii.ascii_of_nat (Z.to_nat (if d <? 10 then 48 + d else 87 + d)).
Definition show_hex (n : Z) : text := digits_of 16 hex_char 4 n.

(** The [n] digits of [a] in base [b], most significant first. *)
Fixpoint places (b : Z) (n : nat) (a : Z) : list Z :=
  match n with O => [] | S n => places b n (a / b) ++ [a mod b] end.
Definition show_v4 (a : Z) : text := join "."%char (show_uint <$> places 256 4 a).

Definition segments (a : Z) : list Z := places 65536 8 a.
Fixpoint longest_zeros (i : nat) (current longest : nat * nat) (gs : list Z) : nat * nat :=
  match gs with
  | [] => longest
  | g :: gs =>
      if g =? 0 then
        let current := (if (current.2 =? 0)%nat then i else current.1, S current.2) in
        longest_zeros (S i) current (if (longest.2 <? current.2)%nat then current else longest) gs
      else longest_zeros (S i) (0%nat, 0%nat) longest gs
  end.
Definition show_groups (gs : list Z) : text := join ":"%char (show_hex <$> gs).
Definition show_v6 (a : Z) : text :=
  if a / 2 ^ 32 =? 65535 then lit "::ffff:" ++ show_v4 (a mod 2 ^ 32)
  else
    let '(start, len) := longest_zeros 0 (0%nat, 0%nat) (0%nat, 0%nat) (segments a) in
    if (1 <? len)%nat
    then show_groups (take start (segments a)) ++ lit "::" ++ show_groups (drop (start + len) (segments a))
    else show_groups (segments a).
Definition show_ip (ip : IpAddr) : text := match ip with V4 a => show_v4 a | V6 a => show_v6 a end.

Definition ip_ok (ip : IpAddr) : Prop :=
  match ip with V4 a => 0 <= a < 2 ^ 32 | V6 a => 0 <= a < 2 ^ 128 end.

Example show_v4_ex : show_ip (V4 3232236030) = lit "192.168.1.254". Proof. vm_compute. reflexivity. Qed.
Example show_v6_ex : show_ip (V6 0xfe80000000000000_16cc20fffeb186e9) = lit "fe80::16cc:20ff:feb1:86e9".
Proof. vm_compute. reflexivity. Qed.
Example show_v6_mapped : show_ip (V6 0xffff01020304) = lit "::ffff:1.2.3.4". Proof. vm_compute. reflexivity. Qed.

(** * Reading digits *)

(** The text goes on with something that is not a digit. *)
Definition stops (radix : Z) (rest : text) : Prop :=
  match rest with [] => True | c :: _ => digit radix c = None end.

Lemma read_digits_app radix l rest ds :
  mapM (digit radix) l = Some ds -> stops radix rest -> read_digits radix (l ++ rest) = (ds, rest).
Proof.
  revert ds. induction l as [|c l IH]; intros ds; cbn [mapM mbind option_bind].
  - intros [= <-]. destruct rest as [|c rest]; [done|]. cbn [stops app read_digits]. by intros ->.
  - intros Hm Hs. destruct (digit radix c) as [d|] eqn:Ed; [|done]. cbn [mbind option_bind] in Hm.
    destruct (mapM (digit radix) l) as [ds'|] eqn:El; [|done]. injection Hm as <-.
    cbn [app read_digits]. by rewrite Ed, (IH ds').
Qed.

Section digits.
Context (radix : Z) (chr : Z -> ascii) (Hr : 2 <= radix)
  (Hchr : forall d, 0 <= d < radix -> digit radix (chr d) = Some d).

Lemma number_of_snoc ds d : number_of radix (ds ++ [d]) = number_of radix ds * radix + d.
Proof. unfold number_of. by rewrite foldl_app. Qed.
Lemma mapM_snoc l c ds d :
  mapM (digit radix) l = Some ds -> digit radix c = Some d -> mapM (digit radix) (l ++ [c]) = Some (ds ++ [d]).
Proof.
  intros Hl%mapM_Some_1 Hc. apply mapM_Some_2, Forall2_app; [done|]. by repeat constructor.
Qed.

(** The digits printed: they make the number, there are no more of them than
    needed, and the first is zero only for zero. *)
Lemma digits_of_read fuel n :
  0 <= n -> n < radix ^ Z.of_nat fuel -> (0 < fuel)%nat ->
  exists ds, mapM (digit radix) (digits_of radix chr fuel n) = Some ds /\ number_of radix ds = n
    /\ ds <> [] /\ (forall k, (1 <= k)%nat -> n < radix ^ Z.of_nat k -> (length ds <= k)%nat)
    /\ (forall more, ds = 0 :: more -> more = []).
Proof.
  revert n. induction fuel as [|fuel IH]; intros n Hn Hb Hf; [lia|]. cbn [digits_of].
  destruct (Z.ltb_spec n radix) as [Hl|Hl].
  { exists [n]. cbn. rewrite Hchr by lia. split_and!; [done|unfold number_of; cbn; lia|done|intros; cbn; lia|].
    by intros more [= _ <-]. }
  rewrite Nat2Z.inj_succ, Z.pow_succ_r in Hb by lia.
  assert (Hd : 0 < n / radix < radix ^ Z.of_nat fuel).
  { split; [apply Z.div_str_pos; lia|]. apply Z.div_lt_upper_bound; lia. }
  destruct fuel as [|fuel]; [cbn in Hd; lia|].
  destruct (IH (n / radix)) as (ds & Hm & Hnum & Hne & Hlen & Hz); [lia|lia|lia|].
  exists (ds ++ [n mod radix]). split_and!.
  - apply mapM_snoc; [done|]. apply Hchr, Z.mod_pos_bound. lia.
  - rewrite number_of_snoc, Hnum. pose proof (Z.div_mod n radix). lia.
  - by destruct ds.
  - intros k Hk Hkb. destruct k as [|[|k]]; [lia| |].
    + change (Z.of_nat 1) with 1 in Hkb. rewrite Z.pow_1_r in Hkb. lia.
    + rewrite length_app. cbn [length]. specialize (Hlen (S k) ltac:(lia)).
      rewrite (Nat2Z.inj_succ (S k)), Z.pow_succ_r in Hkb by lia.
      enough (length ds <= S k)%nat by lia. apply Hlen, Z.div_lt_upper_bound; lia.
  - intros more. destruct ds as [|d ds]; [done|]. cbn [app]. intros [= -> _].
    rewrite (Hz ds eq_refl) in Hnum. cbn in Hnum. lia.
Qed.
End digits.

Lemma decimal_digits_of fuel n : decimal_digits fuel n = digits_of 10 digit_char fuel n.
Proof. revert n. induction fuel as [|fuel IH]; intros n; cbn; [done|]. by rewrite IH. Qed.
Lemma digit_hex_char d : 0 <= d < 16 -> digit 16 (hex_char d) = Some d.
Proof.
  intros Hd. assert (H : Forall (fun d => digit 16 (hex_char d) = Some d) (seqZ 0 16)) by (vm_compute; repeat constructor).
  rewrite Forall_forall in H. apply H, elem_of_seqZ. lia.
Qed.

Lemma read_octet n rest :
  0 <= n < 256 -> stops 10 rest -> read_number 10 3 false 255 (show_uint n ++ rest) = Some (n, rest).
Proof.
  intros Hn Hs. unfold show_uint. rewrite decimal_digits_of.
  destruct (digits_of_read 10 digit_char ltac:(lia) digit_digit_char 40 n) as (ds & Hm & Hnum & Hne & Hlen & Hz); [lia..|].
  unfold read_number. rewrite (read_digits_app 10 _ rest ds Hm Hs). specialize (Hlen 3%nat ltac:(lia) ltac:(lia)).
  destruct ds as [|d more]; [done|]. rewrite Hnum. cbn [length] in *.
  rewrite (proj2 (Nat.ltb_ge _ _)), (proj2 (Z.ltb_ge _ _)) by lia. cbn [orb negb andb].
  destruct (Z.eqb_spec d 0) as [->|]; [|done]. by rewrite (Hz more eq_refl).
Qed.
Lemma read_hex g rest :
  0 <= g < 65536 -> stops 16 rest -> read_number 16 4 true 65535 (show_hex g ++ rest) = Some (g, rest).
Proof.
  intros Hg Hs. unfold show_hex.
  destruct (digits_of_read 16 hex_char ltac:(lia) digit_hex_char 4 g) as (ds & Hm & Hnum & Hne & Hlen & Hz); [lia..|].
  unfold read_number. rewrite (read_digits_app 16 _ rest ds Hm Hs). specialize (Hlen 4%nat ltac:(lia) ltac:(lia)).
  destruct ds as [|d more]; [done|]. rewrite Hnum. cbn [length] in *.
  by rewrite (proj2 (Nat.ltb_ge _ _)), (proj2 (Z.ltb_ge _ _)) by lia.
Qed.
Lemma mapM_digit_plain radix l ds c : mapM (digit radix) l = Some ds -> digit radix c = None -> c ∉ l.
Proof.
  intros Hm Hc Hin. apply mapM_Some_1 in Hm. apply list_elem_of_lookup in Hin as [i Hi].
  destruct (Forall2_lookup_l _ _ _ _ _ Hm Hi) as (d & _ & Hd). congruence.
Qed.
Lemma show_hex_plain g c : 0 <= g < 65536 -> digit 16 c = None -> c ∉ show_hex g.
Proof.
  intros Hg Hc. destruct (digits_of_read 16 hex_char ltac:(lia) digit_hex_char 4 g) as (ds & Hm & _); [lia..|].
  by apply (mapM_digit_plain 16 _ ds).
Qed.

(** * Places *)

Lemma places_range b n a : 0 < b -> Forall (fun x => 0 <= x < b) (places b n a).
Proof.
  intros Hb. revert a. induction n as [|n IH]; intros a; cbn [places]; [done|].
  apply Forall_app. split; [apply IH|]. constructor; [|done]. by apply Z.mod_pos_bound.
Qed.
Lemma places_length b n a : length (places b n a) = n.
Proof. revert a. induction n as [|n IH]; intros a; cbn [places]; [done|]. rewrite length_app, IH. cbn. lia. Qed.
Lemma places_number b n a : 0 < b -> 0 <= a < b ^ Z.of_nat n -> number_of b (places b n a) = a.
Proof.
  intros Hb. revert a. induction n as [|n IH]; intros a Ha; cbn [places].
  - change (b ^ Z.of_nat 0) with 1 in Ha. cbn. lia.
  - rewrite Nat2Z.inj_succ, Z.pow_succ_r in Ha by lia. rewrite number_of_snoc, IH.
    + pose proof (Z.div_mod a b). lia.
    + split; [apply Z.div_pos; lia|]. apply Z.div_lt_upper_bound; lia.
Qed.

(** * Dotted quads *)

Lemma join_cons c x xs : join c (x :: xs) = x ++ concat ((c ::.) <$> xs).
Proof.
  revert x. induction xs as [|y xs IH]; intros x; [cbn; by rewrite app_nil_r|].
  change (join c (x :: y :: xs)) with (x ++ c :: join c (y :: xs)). by rewrite IH.
Qed.

Lemma read_octets_sep os i acc rest :
  Forall (fun o => 0 <= o < 256) os -> stops 10 rest ->
  read_octets (length os) (S i) acc (concat (("."%char ::.) <$> (show_uint <$> os)) ++ rest)
  = Some (foldl (fun acc o => acc * 256 + o) acc os, rest).
Proof.
  intros Hos Hs. revert i acc. induction os as [|o os IH]; intros i acc; [done|].
  apply Forall_cons in Hos as [Ho Hos]. cbn [length read_octets fmap list_fmap concat app read_separator read_char].
  rewrite Ascii.eqb_refl, <- app_assoc, read_octet; [by rewrite IH|done|]. destruct os; [by destruct rest|done].
Qed.
Lemma read_v4 a rest : 0 <= a < 2 ^ 32 -> stops 10 rest -> read_ipv4_addr (show_v4 a ++ rest) = Some (a, rest).
Proof.
  intros Ha Hs. unfold show_v4, read_ipv4_addr. pose proof (places_range 256 4 a ltac:(lia)) as Hr.
  pose proof (places_number 256 4 a ltac:(lia) Ha) as Hn. pose proof (places_length 256 4 a) as Hlen.
  destruct (places 256 4 a) as [|o os]; [done|]. apply Forall_cons in Hr as [Ho Hr].
  rewrite <- Hlen, fmap_cons, join_cons, <- app_assoc. cbn [length read_octets read_separator].
  rewrite read_octet; [|done|by destruct os, rest]. rewrite read_octets_sep by done. unfold number_of in Hn. cbn [foldl] in Hn. by rewrite <- Hn.
Qed.

Lemma read_digits_suffix radix l ds rest : read_digits radix l = (ds, rest) -> exists p, l = p ++ rest.
Proof.
  revert ds. induction l as [|c l IH]; intros ds; cbn [read_digits]; [intros [= _ <-]; by exists []|].
  destruct (digit radix c); [|intros [= _ <-]; by exists []].
  destruct (read_digits radix l) as [ds' r] eqn:E. intros [= _ <-]. destruct (IH ds' eq_refl) as [p ->].
  by exists (c :: p).
Qed.
Lemma read_number_suffix radix n z m l v rest : read_number radix n z m l = Some (v, rest) -> exists p, l = p ++ rest.
Proof.
  unfold read_number. destruct (read_digits radix l) as [ds r] eqn:E. destruct ds; [done|].
  do 2 (case_match; [done|]). intros [= _ <-]. by apply (read_digits_suffix radix l (z0 :: ds)).
Qed.
(** Text without a dot is not read as a dotted quad. *)
Lemma read_v4_no_dot l : "."%char ∉ l -> read_ipv4_addr l = None.
Proof.
  intros Hd. unfold read_ipv4_addr. cbn [read_octets read_separator].
  destruct (read_number 10 3 false 255 l) as [[v rest]|] eqn:E; [|done].
  destruct (read_number_suffix _ _ _ _ _ _ _ E) as [p ->].
  destruct rest as [|c rest]; [done|]. cbn [read_char].
  destruct (Ascii.eqb_spec c "."%char) as [->|]; [|done]. exfalso. apply Hd, elem_of_app. right. by left.
Qed.

(** * Groups *)

Definition sep_groups (gs : list Z) : text := concat ((":"%char ::.) <$> (show_hex <$> gs)).
(** What follows the groups read: nothing, or the two colons. *)
Definition group_end (rest : text) : Prop := rest = [] \/ exists r, rest = lit "::" ++ r.

Lemma sep_groups_plain gs : Forall (fun g => 0 <= g < 65536) gs -> "."%char ∉ sep_groups gs.
Proof.
  induction 1 as [|g gs Hg _ IH]; [apply not_elem_of_nil|]. cbn [sep_groups fmap list_fmap concat].
  rewrite <- app_comm_cons, not_elem_of_cons, not_elem_of_app. split; [done|]. split; [by apply show_hex_plain|done].
Qed.
Lemma stops_sep gs rest : group_end rest -> stops 16 (sep_groups gs ++ rest).
Proof. intros [->|[r ->]]; by destruct gs. Qed.

Lemma read_groups_end n i rest : group_end rest -> read_groups n i rest = ([], false, rest).
Proof. intros [->|[r ->]]; destruct n as [|[|n]], i; reflexivity. Qed.
Lemma read_groups_step n i g gs rest :
  0 <= g < 65536 -> Forall (fun g => 0 <= g < 65536) gs -> "."%char ∉ rest -> group_end rest ->
  forall l, (l = show_hex g ++ sep_groups gs ++ rest /\ i = 0%nat)
            \/ (l = ":"%char :: show_hex g ++ sep_groups gs ++ rest /\ (0 < i)%nat) ->
  read_groups (S n) i l = (let '(hs, v4, r) := read_groups n (S i) (sep_groups gs ++ rest) in (g :: hs, v4, r)).
Proof.
  intros Hg Hgs Hr He l Hl.
  assert (Hp : "."%char ∉ show_hex g ++ sep_groups gs ++ rest).
  { rewrite !not_elem_of_app. split_and!; [by apply show_hex_plain|by apply sep_groups_plain|done]. }
  assert (Hsep : forall (A : Type) (rd : reader A), read_separator ":"%char i rd l = rd (show_hex g ++ sep_groups gs ++ rest)).
  { intros A rd. by destruct Hl as [[-> ->]|[-> Hi]]; [|destruct i; [lia|]]. }
  cbn [read_groups]. rewrite !Hsep, read_v4_no_dot by done. rewrite read_hex by (done || by apply stops_sep).
  by destruct (1 <? S n)%nat.
Qed.
Lemma read_groups_sep gs n i rest :
  Forall (fun g => 0 <= g < 65536) gs -> "."%char ∉ rest -> group_end rest -> (length gs <= n)%nat ->
  read_groups n (S i) (sep_groups gs ++ rest) = (gs, false, rest).
Proof.
  intros Hgs Hr He. revert n i. induction gs as [|g gs IH]; intros n i Hn; [by apply read_groups_end|].
  apply Forall_cons in Hgs as [Hg Hgs]. destruct n as [|n]; [cbn in Hn; lia|].
  rewrite (read_groups_step n (S i) g gs rest) by (done || (right; split; [cbn; by rewrite <- app_assoc|lia])).
  rewrite IH by (done || (cbn in Hn; lia)). done.
Qed.
Lemma read_groups_shown gs n rest :
  Forall (fun g => 0 <= g < 65536) gs -> "."%char ∉ rest -> group_end rest -> (length gs <= n)%nat ->
  read_groups n 0 (show_groups gs ++ rest) = (gs, false, rest).
Proof.
  intros Hgs Hr He Hn. destruct gs as [|g gs]; [by apply read_groups_end|].
  apply Forall_cons in Hgs as [Hg Hgs]. destruct n as [|n]; [cbn in Hn; lia|].
  unfold show_groups. rewrite fmap_cons, join_cons, <- app_assoc. change (concat _) with (sep_groups gs).
  rewrite (read_groups_step n 0 g gs rest) by (done || by left).
  by rewrite read_groups_sep by (done || (cbn in Hn; lia)).
Qed.

(** * The longest run of zeros *)

(** A span of zeros of a list. *)
Definition zeros_at (gs : list Z) (sp : nat * nat) : Prop :=
  (sp.1 + sp.2 <= length gs)%nat /\ forall j, (sp.1 <= j < sp.1 + sp.2)%nat -> gs !! j = Some 0.

Lemma longest_zeros_at pre gs current longest :
  zeros_at (pre ++ gs) longest ->
  (current.2 = 0%nat \/ (zeros_at pre current /\ (current.1 + current.2 = length pre)%nat)) ->
  zeros_at (pre ++ gs) (longest_zeros (length pre) current longest gs).
Proof.
  revert pre current longest. induction gs as [|g gs IH]; intros pre current longest Hl Hc; [done|].
  cbn [longest_zeros]. replace (S (length pre)) with (length (pre ++ [g])) by (rewrite length_app; cbn; lia).
  rewrite cons_middle, app_assoc in Hl |- *.
  destruct (Z.eqb_spec g 0) as [->|Hg]; [|apply IH; [done|by left]].
  set (cur := (if (current.2 =? 0)%nat then length pre else current.1, S current.2)).
  assert (Hcur : zeros_at (pre ++ [0]) cur /\ (cur.1 + cur.2)%nat = length (pre ++ [0])).
  { unfold cur, zeros_at. rewrite length_app. cbn [length fst snd].
    destruct Hc as [Hc|[[Hc1 Hc2] Hc3]]; [rewrite Hc|destruct (Nat.eqb_spec current.2 0) as [E|E]; [rewrite E|]];
      cbn [Nat.eqb].
    1,2: (split; [split; [lia|]|lia]; intros j Hj; replace j with (length pre) by lia; by apply list_lookup_middle).
    split; [split; [lia|]|lia]. intros j Hj. destruct (decide (j = length pre)) as [->|].
    - by apply list_lookup_middle.
    - rewrite lookup_app_l by lia. apply Hc2. lia. }
  apply IH; [|by right]. case_match; [|done]. destruct Hcur as [[H1 H2] _]. split; [rewrite length_app; lia|].
  intros j Hj. rewrite lookup_app_l by lia. by apply H2.
Qed.

Lemma zeros_split gs sp :
  zeros_at gs sp -> gs = take sp.1 gs ++ replicate sp.2 0 ++ drop (sp.1 + sp.2) gs.
Proof.
  intros [Hl Hz]. rewrite <- (take_drop sp.1 gs) at 1. f_equal. rewrite <- drop_drop.
  rewrite <- (take_drop sp.2 (drop sp.1 gs)) at 1. f_equal.
  apply list_eq_same_length with sp.2; [by rewrite length_replicate|rewrite length_take, length_drop; lia|].
  intros i x y Hi. rewrite lookup_take_lt, lookup_drop, Hz by lia. rewrite lookup_replicate_2 by done. congruence.
Qed.

(** * The round trip *)

Lemma show_groups_plain gs : Forall (fun g => 0 <= g < 65536) gs -> "."%char ∉ show_groups gs.
Proof.
  destruct 1 as [|g gs Hg Hgs]; [apply not_elem_of_nil|]. unfold show_groups. rewrite fmap_cons, join_cons.
  rewrite not_elem_of_app. split; [by apply show_hex_plain|]. by apply sep_groups_plain.
Qed.

Lemma read_colons {B} (k : text -> option B) l :
  ('(_, rest) ← read_char ":"%char (lit "::" ++ l); '(_, rest) ← read_char ":"%char rest; k rest) = k l.
Proof. reflexivity. Qed.

Lemma read_v6_full gs :
  Forall (fun g => 0 <= g < 65536) gs -> length gs = 8%nat ->
  read_ipv6_addr (show_groups gs) = Some (of_groups gs, []).
Proof.
  intros Hg Hlen. unfold read_ipv6_addr. rewrite <- (app_nil_r (show_groups gs)).
  rewrite read_groups_shown by (done || apply not_elem_of_nil || (by left) || lia).
  by rewrite bool_decide_eq_true_2.
Qed.
Lemma read_v6_short hd tl n :
  Forall (fun g => 0 <= g < 65536) hd -> Forall (fun g => 0 <= g < 65536) tl ->
  (length hd + n + length tl = 8)%nat -> (1 < n)%nat ->
  read_ipv6_addr (show_groups hd ++ lit "::" ++ show_groups tl) = Some (of_groups (hd ++ replicate n 0 ++ tl), []).
Proof.
  intros Hh Ht Hlen Hn. unfold read_ipv6_addr.
  rewrite read_groups_shown; [|done| |by right; eexists|lia].
  2: { rewrite not_elem_of_app. split; [|by apply show_groups_plain]. apply (bool_decide_unpack _). by vm_compute. }
  rewrite bool_decide_eq_false_2, read_colons by lia.
  rewrite <- (app_nil_r (show_groups tl)).
  rewrite read_groups_shown by (done || apply not_elem_of_nil || (by left) || lia).
  by replace (8 - length hd - length tl)%nat with n by lia.
Qed.

Lemma read_v6_mapped v :
  0 <= v < 2 ^ 32 -> read_ipv6_addr (lit "::ffff:" ++ show_v4 v) = Some (65535 * 2 ^ 32 + v, []).
Proof.
  intros Hv. unfold read_ipv6_addr. rewrite read_groups_end by (right; by eexists).
  assert (Ht : read_groups 7 0 (lit "ffff:" ++ show_v4 v) = ([65535; v / 65536; v mod 65536], true, [])).
  { assert (Hh : read_number 16 4 true 65535 (lit "ffff:" ++ show_v4 v) = Some (65535, ":"%char :: show_v4 v))
      by apply (read_hex 65535 (":"%char :: show_v4 v) ltac:(lia) eq_refl).
    assert (Hq : read_groups 6 1 (":"%char :: show_v4 v) = ([v / 65536; v mod 65536], true, [])).
    { generalize 4%nat as n. intros n. cbn [read_groups read_separator read_char Nat.ltb Nat.leb].
      rewrite Ascii.eqb_refl. rewrite <- (app_nil_r (show_v4 v)), read_v4 by done. done. }
    change 7%nat with (S 6). revert Hq. generalize 6%nat as n. intros n Hq. cbn [read_groups read_separator]. rewrite Hh, Hq. by destruct n. }
  rewrite bool_decide_eq_false_2 by done. change (lit "::ffff:" ++ show_v4 v) with (lit "::" ++ lit "ffff:" ++ show_v4 v).
  rewrite read_colons. change (7 - length [])%nat with 7%nat. rewrite Ht.
  cbn. do 2 f_equal. pose proof (Z.div_mod v 65536). lia.
Qed.

Lemma show_v4_plain a c : digit 10 c = None -> c <> "."%char -> 0 <= a -> c ∉ show_v4 a.
Proof.
  intros Hc Hd Ha. unfold show_v4. pose proof (places_range 256 4 a ltac:(lia)) as Hr.
  destruct (places 256 4 a) as [|o os]; [apply not_elem_of_nil|]. rewrite fmap_cons, join_cons, not_elem_of_app.
  apply Forall_cons in Hr as [Ho Hr]. split; [apply show_uint_plain; [lia|done]|].
  induction Hr as [|p os Hp _ IH]; [apply not_elem_of_nil|]. cbn [fmap list_fmap concat].
  rewrite <- app_comm_cons, not_elem_of_cons, not_elem_of_app. split_and!; [done|apply show_uint_plain; [lia|done]|done].
Qed.

Lemma read_v6 a : 0 <= a < 2 ^ 128 -> read_ipv6_addr (show_v6 a) = Some (a, []).
Proof.
  intros Ha. unfold show_v6. destruct (Z.eqb_spec (a / 2 ^ 32) 65535) as [Hm|Hm].
  { rewrite read_v6_mapped by (apply Z.mod_pos_bound; lia). do 2 f_equal. pose proof (Z.div_mod a (2 ^ 32)). lia. }
  pose proof (places_range 65536 8 a ltac:(lia)) as Hr. pose proof (places_length 65536 8 a) as Hlen.
  pose proof (places_number 65536 8 a ltac:(lia) Ha) as Hn. fold (segments a) in *. set (gs := segments a) in *.
  assert (Hz : zeros_at gs (longest_zeros 0 (0%nat, 0%nat) (0%nat, 0%nat) gs)).
  { apply (longest_zeros_at [] gs); [split; cbn; [lia|lia]|by left]. }
  destruct (longest_zeros 0 _ _ gs) as [st len]. destruct (Nat.ltb_spec 1 len) as [Hl|_].
  - pose proof (zeros_split gs (st, len) Hz) as Hs. destruct Hz as [Hb _]. cbn [fst snd] in *.
    rewrite (read_v6_short _ _ len), <- Hs.
    + unfold of_groups. by rewrite Hn.
    + by apply Forall_take.
    + by apply Forall_drop.
    + rewrite length_take, length_drop. lia.
    + done.
  - rewrite read_v6_full by done. unfold of_groups. by rewrite Hn.
Qed.

(** A printed version 6 address does not start as a dotted quad. *)
Lemma read_v4_of_v6 a : 0 <= a -> read_ipv4_addr (show_v6 a) = None.
Proof.
  intros Ha. unfold show_v6. case_match; [reflexivity|]. pose proof (places_range 65536 8 a ltac:(lia)) as Hr.
  fold (segments a) in Hr. destruct (longest_zeros _ _ _ _) as [st len]. apply read_v4_no_dot.
  case_match; [|by apply show_groups_plain]. rewrite !not_elem_of_app.
  split_and!; [by apply show_groups_plain, Forall_take| |by apply show_groups_plain, Forall_drop].
  apply (bool_decide_unpack _). by vm_compute.
Qed.

(** Reading the text of an address gives the address back. *)
Theorem parse_show_ip ip : ip_ok ip -> parse_ip (show_ip ip) = Some ip.
Proof.
  destruct ip as [a|a]; cbn [ip_ok show_ip]; intros Ha; unfold parse_ip.
  - rewrite <- (app_nil_r (show_v4 a)). by rewrite read_v4.
  - rewrite read_v4_of_v6 by lia. by rewrite read_v6.
Qed.

(** The characters of a printed address. *)
Lemma show_ip_plain ip c :
  ip_ok ip -> digit 16 c = None -> c <> ":"%char -> c <> "."%char -> c ∉ show_ip ip.
Proof.
  intros Hip Hc Hcol Hdot.
  assert (Hc10 : digit 10 c = None).
  { unfold digit in *. destruct (digit_value c) as [d|]; [|done]. cbn [mbind option_bind] in *.
    destruct (Z.ltb_spec d 16); [done|]. by rewrite (proj2 (Z.ltb_ge d 10)) by lia. }
  assert (Hg : forall gs, Forall (fun g => 0 <= g < 65536) gs -> c ∉ show_groups gs).
  { destruct 1 as [|g gs Hg Hgs]; [apply not_elem_of_nil|]. unfold show_groups. rewrite fmap_cons, join_cons, not_elem_of_app.
    split; [by apply show_hex_plain|]. induction Hgs as [|g' gs Hg' _ IH]; [apply not_elem_of_nil|].
    cbn [fmap list_fmap concat]. rewrite <- app_comm_cons, not_elem_of_cons, not_elem_of_app.
    split_and!; [done|by apply show_hex_plain|done]. }
  destruct ip as [a|a]; cbn [show_ip ip_ok] in *; [apply show_v4_plain; [done..|lia]|].
  pose proof (places_range 65536 8 a ltac:(lia)) as Hr. fold (segments a) in Hr.
  assert (Hcc : c ∉ lit "::") by (cbn; rewrite !not_elem_of_cons; by split_and!; [..|apply not_elem_of_nil]).
  unfold show_v6. case_match.
  - change (lit "::ffff:") with (lit "::" ++ show_hex 65535 ++ [":"%char]).
    rewrite !not_elem_of_app, not_elem_of_cons. split_and!; [done|apply show_hex_plain; [lia|done]|done|apply not_elem_of_nil|].
    apply show_v4_plain; [done..|]. apply Z.mod_pos_bound. lia.
  - destruct (longest_zeros _ _ _ _) as [st len]. case_match; [|by apply Hg]. rewrite !not_elem_of_app.
    split_and!; [by apply Hg, Forall_take|done|by apply Hg, Forall_drop].
Qed.
Lemma show_ip_nonempty ip : ip_ok ip -> show_ip ip <> [].
Proof. intros Hip He. pose proof (parse_show_ip ip Hip) as H. by rewrite He in H. Qed.
