(* ===== verification/Babel.v ===== *)
(** The interface to the routing daemon (babel_monitor/src/lib.rs, parsing.rs
    and structs.rs): reading an answer from the management socket in pieces,
    parsing the dump into interfaces, neighbours and routes, and the searches
    in the route table. *)
From S2P Require Import Prelude Types Text.

Inductive BabelMonitorError :=
| VariableNotFound (v line : text)
| InvalidPreamble (p : text)
| LocalFeeNotFound (l : text)
| CommandFailed (cmd : text)
| ReadFailed (t : text)
| NoTerminator (t : text)
| NoNeighbor (ip : IpAddr)
| TcpError
| BabelParseError (t : text)
| ReadFunctionError
| BoolParseError
| ParseAddrError
| IntParseError
| FloatParseError
| NetworkError
| NoRoute (t : text).

Abbreviation BResult A := (BabelMonitorError + A)%type.

(** [IpNetwork] of the ipnetwork crate: an address and a prefix length. *)
Inductive IpNetwork := NetV4 (ip prefix : Z) | NetV6 (ip prefix : Z).

Record Interface := {
  if_name : text; if_up : bool; if_ipv6 : option IpAddr; if_ipv4 : option IpAddr }.

(** A round trip time is an [f32], kept as its bit pattern. *)
Record Route := {
  rt_id : text;
  rt_iface : text;
  xroute : bool;
  installed : bool;
  neigh_ip : IpAddr;
  prefix : IpNetwork;
  metric : Z;
  refmetric : Z;
  full_path_rtt : Z;
  rt_price : Z;
  rt_fee : Z;
}.

Record BabelNeighbor := {
  bn_id : text; bn_address : IpAddr; bn_iface : text; bn_reach : Z; bn_txcost : Z;
  bn_rxcost : Z; bn_rtt : Z; bn_rttcost : Z; bn_cost : Z;
}.

(** [T: FromStr] with the error it is converted to. *)
Class FromStr (A : Type) := { from_str : text -> option A; parse_error : BabelMonitorError }.
#[export] Instance FromStr_bool : FromStr bool := {| from_str := parse_bool; parse_error := BoolParseError |}.
#[export] Instance FromStr_ip : FromStr IpAddr := {| from_str := parse_ip; parse_error := ParseAddrError |}.
Definition FromStr_u16 : FromStr Z := {| from_str := parse_uint 10 U16_MAX; parse_error := IntParseError |}.
Definition FromStr_u32 : FromStr Z := {| from_str := parse_uint 10 U32_MAX; parse_error := IntParseError |}.

(** * Parsing *)

(** The loop of [find_babel_val] over the words of the line. *)
Fixpoint find_word (val : text) (words : list text) : option text :=
  match words with
  | [] => None
  | entry :: rest =>
      if text_eqb entry val then
        match rest with
        | v :: _ => Some v
        | [] => None
        end
      else find_word val rest
  end.
Definition find_babel_val (val : string) (line : text) : BResult text :=
  match find_word (lit val) (split_on space line) with
  | Some v => inr v
  | None => inl (VariableNotFound (lit val) line)
  end.

Definition find_and_parse_babel_val {A} (F : FromStr A) (val : string) (line : text) : BResult A :=
  match find_babel_val val line with
  | inr string_val =>
      match from_str string_val with
      | Some parsed_val => inr parsed_val
      | None => inl parse_error
      end
  | inl e => inl e
  end.

(** The loop of [read_babel_sync]; [ret] holds the lines read so far. *)
Fixpoint scan_answer (ls : list text) (ret : text) : BResult text :=
  match ls with
  | [] => inl (NoTerminator ret)
  | line :: rest =>
      let ret := ret ++ line ++ [newline] in
      let l := trim_text line in
      if text_eqb l (lit "ok") then inr ret
      else if text_eqb l (lit "bad") || text_eqb l (lit "no") then inl (ReadFailed ret)
      else scan_answer rest ret
  end.
Definition read_babel_sync (output : text) : BResult text := scan_answer (lines output) [].

Definition validate_preamble (preamble : text) : BResult unit :=
  if contains (lit "ALTHEA 0.1") preamble then inr tt else inl (InvalidPreamble preamble).

(** [Err(_) => continue] turns every error into a skipped entry. *)
Definition ok {A} (r : BResult A) : option A := match r with inr a => Some a | inl _ => None end.

(** The loops over the lines of a dump: entries that parse, and whether any
    entry was seen. *)
Definition collect_entries {A} (marker : string) (parse : text -> option A) (output : text)
    : list A * bool :=
  foldl (fun '(vector, found) entry =>
           if contains (lit marker) entry then
             (match parse entry with Some a => vector ++ [a] | None => vector end, true)
           else (vector, found))
        ([], false) (split_on newline output).
Definition finish_entries {A} (msg : string) (r : list A * bool) : BResult (list A) :=
  let '(vector, found) := r in
  if bool_decide (length vector = 0%nat) && found then inl (BabelParseError (lit msg)) else inr vector.

Section parsing.
(** Parsing an [f32] and an [IpNetwork]. *)
Context (F_f32 : FromStr Z) (F_net : FromStr IpNetwork).

Definition parse_interface (entry : text) : option Interface :=
  name ← ok (find_babel_val "interface" entry);
  up ← ok (find_and_parse_babel_val FromStr_bool "up" entry);
  Some {| if_name := name; if_up := up;
          if_ipv4 := ok (find_and_parse_babel_val FromStr_ip "ipv4" entry);
          if_ipv6 := ok (find_and_parse_babel_val FromStr_ip "ipv6" entry) |}.
Definition parse_interfaces_sync (output : text) : BResult (list Interface) :=
  finish_entries "All Babel Interface parsing failed!" (collect_entries "add interface" parse_interface output).

Definition get_local_fee_sync (babel_output : text) : BResult Z :=
  match split_on newline babel_output with
  | [] => inl (LocalFeeNotFound (lit "<Babel output is None>"))
  | fee_entry :: _ =>
      if contains (lit "local fee") fee_entry then
        find_and_parse_babel_val FromStr_u32 "fee" fee_entry
      else inl (LocalFeeNotFound fee_entry)
  end.

Definition parse_neigh (entry : text) : option BabelNeighbor :=
  id ← ok (find_babel_val "neighbour" entry);
  address ← ok (find_and_parse_babel_val FromStr_ip "address" entry);
  iface ← ok (find_babel_val "if" entry);
  reach_text ← ok (find_babel_val "reach" entry);
  reach ← parse_uint 16 U16_MAX reach_text;
  txcost ← ok (find_and_parse_babel_val FromStr_u16 "txcost" entry);
  rxcost ← ok (find_and_parse_babel_val FromStr_u16 "rxcost" entry);
  let rtt := default 0 (ok (find_and_parse_babel_val F_f32 "rtt" entry)) in
  let rttcost := default 0 (ok (find_and_parse_babel_val FromStr_u16 "rttcost" entry)) in
  cost ← ok (find_and_parse_babel_val FromStr_u16 "cost" entry);
  Some {| bn_id := id; bn_address := address; bn_iface := iface; bn_reach := reach;
          bn_txcost := txcost; bn_rxcost := rxcost; bn_rtt := rtt; bn_rttcost := rttcost;
          bn_cost := cost |}.
Definition parse_neighs_sync (output : text) : BResult (list BabelNeighbor) :=
  finish_entries "All Babel neigh parsing failed!" (collect_entries "add neighbour" parse_neigh output).

Definition parse_route (entry : text) : option Route :=
  id ← ok (find_babel_val "route" entry);
  iface ← ok (find_babel_val "if" entry);
  inst ← ok (find_babel_val "installed" entry);
  via ← ok (find_and_parse_babel_val FromStr_ip "via" entry);
  pfx ← ok (find_and_parse_babel_val F_net "prefix" entry);
  metric ← ok (find_and_parse_babel_val FromStr_u16 "metric" entry);
  refmetric ← ok (find_and_parse_babel_val FromStr_u16 "refmetric" entry);
  rtt ← ok (find_and_parse_babel_val F_f32 "full-path-rtt" entry);
  price ← ok (find_and_parse_babel_val FromStr_u32 "price" entry);
  fee ← ok (find_and_parse_babel_val FromStr_u32 "fee" entry);
  Some {| rt_id := id; rt_iface := iface; xroute := false; installed := contains (lit "yes") inst;
          neigh_ip := via; prefix := pfx; metric := metric; refmetric := refmetric;
          full_path_rtt := rtt; rt_price := price; rt_fee := fee |}.
Definition parse_routes_sync (babel_out : text) : BResult (list Route) :=
  finish_entries "All Babel route parsing failed!" (collect_entries "add route" parse_route babel_out).
End parsing.

(** * The route table *)

(** The inner loop: a route to the destination by way of [neigh_local_ip]. *)
Definition via_neigh (dest_mesh_ip neigh_local_ip : IpAddr) (r : Route) : bool :=
  match prefix r with
  | NetV6 ip _ => bool_decide (V6 ip = dest_mesh_ip) && bool_decide (neigh_ip r = neigh_local_ip)
  | NetV4 _ _ => false
  end.
Fixpoint route_via (neigh_mesh_ip dest_mesh_ip : IpAddr) (outer routes : list Route) : option Route :=
  match outer with
  | [] => None
  | neigh_route :: rest =>
      match prefix neigh_route with
      | NetV6 ip _ =>
          if bool_decide (V6 ip = neigh_mesh_ip) then
            match find (via_neigh dest_mesh_ip (neigh_ip neigh_route)) routes with
            | Some route => Some route
            | None => route_via neigh_mesh_ip dest_mesh_ip rest routes
            end
          else route_via neigh_mesh_ip dest_mesh_ip rest routes
      | NetV4 _ _ => route_via neigh_mesh_ip dest_mesh_ip rest routes
      end
  end.
Definition get_route_via_neigh (neigh_mesh_ip dest_mesh_ip : IpAddr) (routes : list Route) : BResult Route :=
  match route_via neigh_mesh_ip dest_mesh_ip routes routes with
  | Some r => inr r
  | None => inl (NoNeighbor neigh_mesh_ip)
  end.

Definition get_neigh_given_route (route : Route) (neighs : list BabelNeighbor) : option BabelNeighbor :=
  find (fun n => bool_decide (neigh_ip route = bn_address n)) neighs.

Definition do_we_have_route (mesh_ip : IpAddr) (routes : list Route) : bool :=
  existsb (fun r => match prefix r with
                    | NetV6 ip _ => bool_decide (V6 ip = mesh_ip) && installed r
                    | NetV4 _ _ => false
                    end) routes.

Definition get_installed_route (mesh_ip : IpAddr) (routes : list Route) : BResult Route :=
  match find (fun r => match prefix r with
                       | NetV6 ip len => (len =? 128) && installed r && bool_decide (V6 ip = mesh_ip)
                       | NetV4 _ _ => false
                       end) routes with
  | Some v => inr v
  | None => inl (NoRoute (lit "No installed route to that destination!"))
  end.

(** * The management socket *)

Definition BUFFER_SIZE : Z := 500000.

(** One [read] of the stream: a read that would block (also a read timeout), any
    other error, or bytes. *)
Inductive read_event := WouldBlock | IoError | Bytes (b : text).

(** [String::from_utf8] succeeds on well formed UTF-8 only. *)
Definition byte_in (lo hi : Z) (c : ascii) : bool := in_range lo hi (Z.of_nat (Ascii.nat_of_ascii c)).
Fixpoint valid_utf8 (l : text) : bool :=
  match l with
  | [] => true
  | a :: r =>
      if byte_in 0 127 a then valid_utf8 r
      else
        match r with
        | b :: r2 =>
            if byte_in 0xC2 0xDF a then byte_in 0x80 0xBF b && valid_utf8 r2
            else
              match r2 with
              | c :: r3 =>
                  if byte_in 0xE0 0xEF a then
                    byte_in (if byte_in 0xE0 0xE0 a then 0xA0 else 0x80)
                            (if byte_in 0xED 0xED a then 0x9F else 0xBF) b
                    && byte_in 0x80 0xBF c && valid_utf8 r3
                  else
                    match r3 with
                    | d :: r4 =>
                        byte_in 0xF0 0xF4 a
                        && byte_in (if byte_in 0xF0 0xF0 a then 0x90 else 0x80)
                                   (if byte_in 0xF4 0xF4 a then 0x8F else 0xBF) b
                        && byte_in 0x80 0xBF c && byte_in 0x80 0xBF d && valid_utf8 r4
                    | [] => false
                    end
              | [] => false
              end
        | [] => false
        end
  end.

Definition is_nul (c : ascii) : bool := byte_in 0 0 c.

(** [read_babel]: event [i] of the stream answers the next read. The zeros that
    pad the buffer are trimmed away again; the text of the last error, a debug
    print of the first one, is left out. [None] when the fuel runs out. *)
Fixpoint read_babel (fuel : nat) (stream : nat -> read_event) (i : nat) (previous_contents : text)
    (depth : Z) : option (BResult text) :=
  match fuel with
  | O => None
  | S fuel =>
      match stream i with
      | WouldBlock => read_babel fuel stream (S i) previous_contents (depth + 1)
      | IoError => Some (inl ReadFunctionError)
      | Bytes b =>
          let full_buffer := Z.of_nat (length b) =? BUFFER_SIZE in
          if negb (valid_utf8 b) then Some (inl TcpError)
          else
            let output := trim_by is_nul b in
            let full_message := previous_contents ++ output in
            let babel_data := read_babel_sync full_message in
            if 50 <? depth then Some (inl (ReadFailed (lit "Babel read timed out!")))
            else if full_buffer then read_babel fuel stream (S i) full_message depth
            else
              match babel_data with
              | inl (NoTerminator _) => read_babel fuel stream (S i) full_message (depth + 1)
              | inl _ => Some (inl (ReadFailed []))
              | inr data => Some (inr data)
              end
      end
  end.

(** A command: written in full, then the answer is read. The commands differ in
    their text only. *)
Definition run_command (fuel : nat) (cmd : text) (written : bool) (stream : nat -> read_event)
    : option (BResult text) :=
  if written then read_babel fuel stream 0 [] 0 else Some (inl (CommandFailed (cmd ++ [newline]))).

Definition bmap {A B} (f : A -> BResult B) (r : option (BResult A)) : option (BResult B) :=
  match r with
  | Some (inr a) => Some (f a)
  | Some (inl e) => Some (inl e)
  | None => None
  end.
Definition get_local_fee fuel written stream := bmap get_local_fee_sync (run_command fuel (lit "dump") written stream).
Definition parse_interfaces fuel written stream :=
  bmap parse_interfaces_sync (run_command fuel (lit "dump") written stream).
Definition parse_neighs F fuel written stream :=
  bmap (parse_neighs_sync F) (run_command fuel (lit "dump") written stream).
Definition parse_routes F1 F2 fuel written stream :=
  bmap (parse_routes_sync F1 F2) (run_command fuel (lit "dump") written stream).

(** ** Commands *)

Record BabeldInterfaceConfig := {
  link_quality : bool; max_rtt_penalty : Z; rtt_min : Z; rtt_max : Z; hello_interval : Z;
  update_interval : Z; split_horizon : bool }.

Definition yes_no (b : bool) : string := if b then "yes" else "no".
Definition build_interface_config_string (config : BabeldInterfaceConfig) : text :=
  lit "link-quality " ++ lit (yes_no (link_quality config)) ++ [space]
  ++ lit "split-horizon " ++ lit (yes_no (split_horizon config)) ++ [space]
  ++ lit "max-rtt-penalty " ++ show_uint (max_rtt_penalty config) ++ [space]
  ++ lit "rtt-min " ++ show_uint (rtt_min config) ++ [space]
  ++ lit "rtt-max " ++ show_uint (rtt_max config) ++ [space]
  ++ lit "hello-interval " ++ show_uint (hello_interval config) ++ [space]
  ++ lit "update-interval " ++ show_uint (update_interval config) ++ [space]
  ++ lit "enable-timestamps true".

Definition local_fee_command (new_fee : Z) : text := lit "fee " ++ show_uint new_fee.
Definition metric_factor_command (new_factor : Z) : text := lit "metric-factor " ++ show_uint new_factor.
(** The duration is in nanoseconds; [as u16] keeps the low 16 bits. *)
Definition kernel_check_interval (d : option Z) : Z :=
  match d with
  | Some d => (d / 1000000 / 100) mod 65536
  | None => 0
  end.
Definition kernel_check_interval_command (d : option Z) : text :=
  lit "kernel-check-interval " ++ show_uint (kernel_check_interval d).
Definition interface_defaults_command (defaults : BabeldInterfaceConfig) : text :=
  lit "default " ++ build_interface_config_string defaults.
Definition monitor_command (iface : text) (options : option BabeldInterfaceConfig) : text :=
  lit "interface " ++ iface ++ [space]
  ++ match options with Some o => build_interface_config_string o | None => [] end.
Definition unmonitor_command (iface : text) : text := lit "flush interface " ++ iface.
