(* ===== verification/BabelSpec.v ===== *)
(** What the interface to the routing daemon guarantees: a dump reads back as
    the routes it was written from, an answer that arrives in pieces is put
    together again, and when reading an answer comes to an end. *)
From S2P Require Import Prelude Types Text Babel.

(** * Words of a line *)

(** Key and value words, one after the other. *)
Fixpoint flatten (kvs : list (text * text)) : list text :=
  match kvs with
  | [] => []
  | (k, v) :: rest => k :: v :: flatten rest
  end.
Fixpoint assoc (k : text) (kvs : list (text * text)) : option text :=
  match kvs with
  | [] => None
  | (k', v) :: rest => if text_eqb k' k then Some v else assoc k rest
  end.

Lemma find_word_flatten k kvs :
  Forall (fun kv => kv.2 <> k) kvs -> find_word k (flatten kvs) = assoc k kvs.
Proof.
  induction 1 as [|[k' v] kvs Hv _ IH]; simpl; [done|]. destruct (text_eqb k' k); [done|].
  simpl in Hv. unfold text_eqb at 1. by rewrite bool_decide_eq_false_2.
Qed.

Lemma find_val_line k first kvs :
  first <> lit k -> space ∉ first -> Forall (fun kv => (space ∉ kv.1) /\ (space ∉ kv.2) /\ kv.2 <> lit k) kvs ->
  find_babel_val k (join space (first :: flatten kvs))
  = match assoc (lit k) kvs with
    | Some v => inr v
    | None => inl (VariableNotFound (lit k) (join space (first :: flatten kvs)))
    end.
Proof.
  intros Hf Hs Hk. unfold find_babel_val. rewrite split_join; [|done|].
  - simpl. unfold text_eqb at 1. rewrite bool_decide_eq_false_2 by done.
    rewrite find_word_flatten; [done|]. eapply Forall_impl; [exact Hk|]. naive_solver.
  - constructor; [done|]. induction Hk as [|[k' v] kvs (? & ? & ?) _ IH]; simpl; [constructor|].
    by repeat constructor.
Qed.

(** * Route lines *)

(** The words the route parser looks for. *)
Definition route_keys : list text :=
  lit <$> ["route"; "if"; "installed"; "via"; "prefix"; "metric"; "refmetric"; "full-path-rtt"; "price"; "fee"].

(** A line of the dump as babeld writes it, with the texts of the values that are
    not plain numbers. *)
Record route_row := {
  row_id : text; row_prefix : text; row_from : text; row_installed : bool; row_router : text;
  row_metric : Z; row_price : Z; row_fee : Z; row_refmetric : Z; row_rtt : text;
  row_via : text; row_iface : text }.
Definition row_words (r : route_row) : list (text * text) :=
  [(lit "route", row_id r); (lit "prefix", row_prefix r); (lit "from", row_from r);
   (lit "installed", lit (yes_no (row_installed r))); (lit "id", row_router r);
   (lit "metric", show_uint (row_metric r)); (lit "price", show_uint (row_price r));
   (lit "fee", show_uint (row_fee r)); (lit "refmetric", show_uint (row_refmetric r));
   (lit "full-path-rtt", row_rtt r); (lit "via", row_via r); (lit "if", row_iface r)].
Definition route_line (r : route_row) : text := join space (lit "add" :: flatten (row_words r)).

Definition plain (v : text) : Prop := (space ∉ v) /\ (newline ∉ v) /\ (v ∉ route_keys).

(** [v] is the route the line of [r] stands for. *)
Record row_ok (F_f32 : FromStr Z) (F_net : FromStr IpNetwork) (r : route_row) (v : Route) : Prop := {
  ok_plain : Forall plain [row_id r; row_prefix r; row_from r; row_router r; row_rtt r; row_via r; row_iface r];
  ok_id : rt_id v = row_id r;
  ok_iface : rt_iface v = row_iface r;
  ok_xroute : xroute v = false;
  ok_installed : installed v = row_installed r;
  ok_via : parse_ip (row_via r) = Some (neigh_ip v);
  ok_prefix : from_str (FromStr := F_net) (row_prefix r) = Some (prefix v);
  ok_metric : metric v = row_metric r /\ 0 <= row_metric r <= U16_MAX;
  ok_refmetric : refmetric v = row_refmetric r /\ 0 <= row_refmetric r <= U16_MAX;
  ok_rtt : from_str (FromStr := F_f32) (row_rtt r) = Some (full_path_rtt v);
  ok_price : rt_price v = row_price r /\ 0 <= row_price r <= U32_MAX;
  ok_fee : rt_fee v = row_fee r /\ 0 <= row_fee r <= U32_MAX;
}.

Lemma digits_plain n : 0 <= n -> plain (show_uint n).
Proof.
  intros Hn. split; [by apply show_uint_plain|]. split; [by apply show_uint_plain|].
  unfold show_uint. destruct (decimal_digits_cons 39 n) as (d & rest & Hd). destruct (Hd Hn) as [-> Hr].
  intros Hin.
  assert (Hk : Forall (fun k => match k with c :: _ => digit 10 c = None | [] => True end) route_keys)
    by (repeat constructor; done).
  rewrite Forall_forall in Hk. specialize (Hk _ Hin). simpl in Hk. by rewrite digit_digit_char in Hk.
Qed.

Lemma yes_no_plain b : plain (lit (yes_no b)).
Proof. split; [|split]; destruct b; apply (bool_decide_unpack _); vm_compute; exact I. Qed.

Section routes.
Context (F_f32 : FromStr Z) (F_net : FromStr IpNetwork).

Lemma row_plain r v : row_ok F_f32 F_net r v -> Forall (fun kv => plain kv.2) (row_words r).
Proof.
  intros []. repeat match goal with H : Forall _ (_ :: _) |- _ => apply Forall_cons in H as [? ?] end.
  destruct ok_metric0, ok_refmetric0, ok_price0, ok_fee0.
  repeat apply Forall_cons_2; simpl; auto using Forall_nil_2, yes_no_plain; apply digits_plain; lia.
Qed.

(** Looking a key of the parser up in the line finds the value of the row. *)
Lemma row_lookup r v k :
  row_ok F_f32 F_net r v -> lit k ∈ route_keys ->
  find_babel_val k (route_line r)
  = match assoc (lit k) (row_words r) with
    | Some x => inr x
    | None => inl (VariableNotFound (lit k) (route_line r))
    end.
Proof.
  intros Hr%row_plain Hk. apply find_val_line.
  - intros He. rewrite <- He in Hk. revert Hk. apply (bool_decide_unpack _). vm_compute. exact I.
  - apply (bool_decide_unpack _). vm_compute. exact I.
  - apply Forall_forall. intros kv Hin. rewrite Forall_forall in Hr. destruct (Hr _ Hin) as (Hs & _ & Hnk).
    split; [|split; [done|intros He; rewrite He in Hnk; done]].
    assert (Hkeys : Forall (fun kv => space ∉ kv.1) (row_words r)).
    { repeat apply Forall_cons_2; try apply Forall_nil_2; simpl; apply (bool_decide_unpack _); vm_compute; exact I. }
    rewrite Forall_forall in Hkeys. by apply Hkeys.
Qed.

Lemma parse_route_line r v : row_ok F_f32 F_net r v -> parse_route F_f32 F_net (route_line r) = Some v.
Proof.
  intros Hr. assert (Hl : forall k, bool_decide (lit k ∈ route_keys) = true ->
    find_babel_val k (route_line r)
    = match assoc (lit k) (row_words r) with
      | Some x => inr x | None => inl (VariableNotFound (lit k) (route_line r)) end).
  { intros k Hk%bool_decide_eq_true. by eapply row_lookup. }
  unfold parse_route, find_and_parse_babel_val. rewrite !Hl by (vm_compute; reflexivity).
  destruct Hr as [_ Hid Hif Hx Hin Hvia Hpfx [Hm Hmr] [Hrm Hrmr] Hrtt [Hp Hpr] [Hf Hfr]].
  simpl. rewrite Hvia, Hpfx, Hrtt. simpl.
  rewrite !parse_show_uint by (unfold U16_MAX, U32_MAX in *; lia). simpl.
  rewrite <- Hid, <- Hif, <- Hm, <- Hrm, <- Hp, <- Hf. destruct v; simpl in *. subst.
  by destruct (row_installed r).
Qed.
End routes.

(** * Whole dumps *)

Lemma collect_entries_spec {A} marker (parse : text -> option A) output :
  let entries := filter (fun l => contains (lit marker) l = true) (split_on newline output) in
  collect_entries marker parse output = (omap parse entries, negb (bool_decide (entries = []))).
Proof.
  unfold collect_entries. generalize (split_on newline output). intros ls.
  assert (H : forall vec found,
    foldl (fun '(vector, found) entry =>
             if contains (lit marker) entry then
               (match parse entry with Some a => vector ++ [a] | None => vector end, true)
             else (vector, found)) (vec, found) ls
    = (vec ++ omap parse (filter (fun l => contains (lit marker) l = true) ls),
       found || negb (bool_decide (filter (fun l => contains (lit marker) l = true) ls = [])))).
  { induction ls as [|l ls IH]; intros vec found; [by simpl; rewrite app_nil_r, orb_false_r|].
    simpl. rewrite filter_cons. destruct (contains (lit marker) l) eqn:E; simpl.
    - rewrite IH. destruct (parse l); [rewrite <- app_assoc|]; by rewrite orb_true_r.
    - rewrite IH. done. }
  rewrite H. done.
Qed.

(** A line of a dump: a route with its meaning, or any other line. *)
Definition dump_line (d : text + route_row * Route) : text :=
  match d with inl l => l | inr (r, _) => route_line r end.
Definition dump_line_ok F_f32 F_net (d : text + route_row * Route) : Prop :=
  match d with
  | inl l => contains (lit "add route") l = false /\ newline ∉ l
  | inr (r, v) => row_ok F_f32 F_net r v
  end.
Definition dump_routes (ds : list (text + route_row * Route)) : list Route :=
  omap (fun d => match d with inl _ => None | inr (_, v) => Some v end) ds.

Lemma join_elem c x ls : x ∈ join c ls -> x = c \/ exists l, l ∈ ls /\ x ∈ l.
Proof.
  induction ls as [|a ls IH]; [by intros ?%not_elem_of_nil|]. destruct ls as [|b ls].
  - intros Hx. right. exists a. split; [left|done].
  - change (join c (a :: b :: ls)) with (a ++ c :: join c (b :: ls)).
    intros [Hx|[->|Hx]%elem_of_cons]%elem_of_app; [right; exists a; split; [left|done]|by left|].
    destruct (IH Hx) as [?|(l & Hl & ?)]; [by left|]. right. exists l. split; [by right|done].
Qed.

Lemma flatten_elem l kvs : l ∈ flatten kvs -> exists kv, kv ∈ kvs /\ (l = kv.1 \/ l = kv.2).
Proof.
  induction kvs as [|[k v] kvs IH]; simpl; [by intros ?%not_elem_of_nil|].
  intros [->|[->|Hl]%elem_of_cons]%elem_of_cons; [exists (k, v); split; [left|auto]..|].
  destruct (IH Hl) as (kv & Hkv & ?). exists kv. split; [by right|done].
Qed.

Lemma route_line_oneline F_f32 F_net r v : row_ok F_f32 F_net r v -> newline ∉ route_line r.
Proof.
  intros Hr%row_plain. intros [?|(l & Hl & Hn)]%join_elem; [done|].
  apply elem_of_cons in Hl as [->|Hl].
  { revert Hn. apply (bool_decide_unpack _). vm_compute. exact I. }
  assert (Hkeys : Forall (fun kv => newline ∉ kv.1) (row_words r)).
  { repeat apply Forall_cons_2; try apply Forall_nil_2; simpl; apply (bool_decide_unpack _); vm_compute; exact I. }
  apply flatten_elem in Hl as (kv & Hkv & [->| ->]); rewrite Forall_forall in Hr, Hkeys.
  - by apply (Hkeys kv).
  - destruct (Hr kv Hkv) as (_ & Hx & _). done.
Qed.

Lemma route_line_marked r : contains (lit "add route") (route_line r) = true.
Proof. reflexivity. Qed.

Lemma dump_entries F_f32 F_net ds :
  Forall (dump_line_ok F_f32 F_net) ds ->
  omap (parse_route F_f32 F_net) (filter (fun l => contains (lit "add route") l = true) (dump_line <$> ds))
  = dump_routes ds
  /\ (filter (fun l => contains (lit "add route") l = true) (dump_line <$> ds) = [] <-> dump_routes ds = []).
Proof.
  induction 1 as [|[l|[r v]] ds Hd _ [IH1 IH2]]; [done|..].
  - destruct Hd as [Hd _]. rewrite fmap_cons, filter_cons_False by (cbn [dump_line]; rewrite Hd; done). by split.
  - rewrite fmap_cons, filter_cons_True by (apply route_line_marked).
    change (dump_line (inr (r, v))) with (route_line r). cbn [omap list_omap].
    rewrite (parse_route_line F_f32 F_net r v Hd). unfold dump_routes in *. cbn [omap list_omap].
    split; [by f_equal|done].
Qed.

(** C29 Whatever routes babeld has, reading its dump gives them back: every
    line babeld writes for a route is read as that route, the other lines of
    the dump are passed over, and the routes come in the order of the lines. *)
Theorem dump_roundtrip (F_f32 : FromStr Z) (F_net : FromStr IpNetwork) ds :
  ds <> [] -> Forall (dump_line_ok F_f32 F_net) ds ->
  parse_routes_sync F_f32 F_net (join newline (dump_line <$> ds)) = inr (dump_routes ds).
Proof.
  intros Hne Hds. unfold parse_routes_sync. rewrite collect_entries_spec.
  rewrite split_join; [|by destruct ds|].
  - destruct (dump_entries F_f32 F_net ds Hds) as [E1 E2]. cbn zeta. rewrite E1. unfold finish_entries.
    destruct (dump_routes ds) eqn:Er; [|done]. rewrite (proj2 E2 eq_refl). done.
  - apply Forall_fmap. eapply Forall_impl; [exact Hds|]. intros [l|[r v]]; simpl; [by intros [_ ?]|].
    apply route_line_oneline.
Qed.

Definition demo_f32 : FromStr Z := {| from_str := fun _ => Some 0; parse_error := FloatParseError |}.
Definition demo_net : FromStr IpNetwork :=
  {| from_str l := match split_on "/"%char l with
                   | [a; len] => match parse_ip a, parse_uint 10 128 len with
                                 | Some (V6 ip), Some n => Some (NetV6 ip n)
                                 | Some (V4 ip), Some n => Some (NetV4 ip n)
                                 | _, _ => None
                                 end
                   | _ => None
                   end;
     parse_error := NetworkError |}.
Definition demo_row : route_row := {|
  row_id := lit "241fee0"; row_prefix := lit "fd00::1/128"; row_from := lit "::/0"; row_installed := true;
  row_router := lit "e6:95:6e:ff:fe:44:c4:12"; row_metric := 331; row_price := 426000; row_fee := 354600;
  row_refmetric := 220; row_rtt := lit "38.286"; row_via := lit "fe80::9971"; row_iface := lit "wg36" |}.
Definition demo_route : Route := {|
  rt_id := lit "241fee0"; rt_iface := lit "wg36"; xroute := false; installed := true;
  neigh_ip := V6 0xfe80000000000000_0000000000009971; prefix := NetV6 0xfd000000000000000000000000000001 128;
  metric := 331; refmetric := 220; full_path_rtt := 0; rt_price := 426000; rt_fee := 354600 |}.

Lemma dump_roundtrip_witness :
  parse_routes_sync demo_f32 demo_net
    (join newline [lit "local fee 1024"; route_line demo_row; lit "ok"; []]) = inr [demo_route].
Proof.
  apply (dump_roundtrip demo_f32 demo_net [inl (lit "local fee 1024"); inr (demo_row, demo_route); inl (lit "ok"); inl []]);
    [done|].
  repeat apply Forall_cons_2; try apply Forall_nil_2.
  - split; [reflexivity|]. apply (bool_decide_unpack _). vm_compute. exact I.
  - constructor; try (vm_compute; done).
    repeat apply Forall_cons_2; try apply Forall_nil_2;
      (split; [|split]; apply (bool_decide_unpack _); vm_compute; exact I).
  - split; [reflexivity|]. apply (bool_decide_unpack _). vm_compute. exact I.
  - split; [reflexivity|]. apply not_elem_of_nil.
Defined.

(** * Reading an answer *)

(** A piece of text that one read delivers as it is. *)
Definition piece_ok (b : text) : Prop :=
  valid_utf8 b = true /\ trim_by is_nul b = b /\ Z.of_nat (length b) <> BUFFER_SIZE.
(** The events of an answer: reads that would block, and pieces. *)
Definition event_of (e : option text) : read_event := match e with None => WouldBlock | Some b => Bytes b end.
Definition pieces (evs : list (option text)) : text := concat (default [] <$> evs).

Lemma pieces_snoc evs e : pieces (evs ++ [e]) = pieces evs ++ default [] e.
Proof. unfold pieces. rewrite fmap_app, concat_app. simpl. by rewrite app_nil_r. Qed.

Lemma read_babel_pieces stream before evs last out :
  (forall k e, evs !! k = Some e -> stream (length before + k)%nat = event_of e) ->
  stream (length before + length evs)%nat = Bytes last ->
  Forall (fun e => forall b, e = Some b -> piece_ok b) evs -> piece_ok last ->
  (length before + length evs <= 50)%nat ->
  (forall k, (k < length evs)%nat -> exists t,
     read_babel_sync (pieces (before ++ take (S k) evs)) = inl (NoTerminator t)) ->
  read_babel_sync (pieces (before ++ evs) ++ last) = inr out ->
  read_babel (S (length evs)) stream (length before) (pieces before) (Z.of_nat (length before)) = Some (inr out).
Proof.
  revert before. induction evs as [|e evs IH]; intros before Hst Hlast Hok [Hu [Ht Hf]] Hlen Hpre Hout.
  - rewrite Nat.add_0_r in Hlast. rewrite app_nil_r in Hout. cbn [read_babel length] in *.
    rewrite Hlast, Hu, Ht. simpl. rewrite (proj2 (Z.eqb_neq _ _) Hf), Hout.
    destruct (Z.ltb_spec 50 (Z.of_nat (length before))); [lia|done].
  - assert (Hnext : read_babel (S (length evs)) stream (S (length before)) (pieces (before ++ [e]))
        (Z.of_nat (length before) + 1) = Some (inr out)).
    { specialize (IH (before ++ [e])). rewrite length_app in IH. simpl in IH.
      rewrite Nat.add_1_r, Nat2Z.inj_succ in IH. apply IH.
      - intros k e' Hk. rewrite <- (Hst (S k) e' Hk). f_equal. lia.
      - rewrite <- Hlast. f_equal. simpl. lia.
      - by apply Forall_cons in Hok as [_ ?].
      - by split.
      - simpl in Hlen. lia.
      - intros k Hk. destruct (Hpre (S k)) as [t Htt]; [simpl; lia|]. exists t. rewrite <- app_assoc. exact Htt.
      - rewrite <- app_assoc. exact Hout. }
    apply Forall_cons in Hok as [He _].
    pose proof (Hst 0%nat e eq_refl) as Hs. rewrite Nat.add_0_r in Hs.
    cbn [length] in *. revert Hnext. generalize (S (length evs)). intros fuel Hnext. cbn [read_babel].
    rewrite Hs. rewrite pieces_snoc in Hnext. destruct e as [b|]; simpl in Hnext |- *.
    + destruct (He b eq_refl) as (Hub & Htb & Hfb). rewrite Hub, Htb. cbn [negb]. 
      rewrite (proj2 (Z.eqb_neq _ _) Hfb). destruct (Hpre 0%nat) as [t Htt]; [simpl; lia|].
      simpl in Htt. rewrite take_0, pieces_snoc in Htt. simpl in Htt. rewrite Htt.
      destruct (Z.ltb_spec 50 (Z.of_nat (length before))); [simpl in Hlen; lia|done].
    + by rewrite app_nil_r in Hnext.
Qed.

(** An answer of the daemon that arrives in pieces, with reads that find
    nothing in between, is read completely: as long as at most fifty reads come
    before the last piece and no beginning of it looks finished, the result is
    that of the whole answer. *)
Theorem answer_in_pieces stream evs last out :
  (forall k e, evs !! k = Some e -> stream k = event_of e) ->
  stream (length evs) = Bytes last ->
  Forall (fun e => forall b, e = Some b -> piece_ok b) evs -> piece_ok last ->
  (length evs <= 50)%nat ->
  (forall k, (k < length evs)%nat -> exists t, read_babel_sync (pieces (take (S k) evs)) = inl (NoTerminator t)) ->
  read_babel_sync (pieces evs ++ last) = inr out ->
  run_command (S (length evs)) (lit "dump") true stream = Some (inr out).
Proof. intros. by apply (read_babel_pieces stream [] evs last out). Qed.

Definition demo_stream (k : nat) : read_event :=
  match k with
  | 0%nat => WouldBlock
  | 1%nat => Bytes (lit "local fe")
  | 2%nat => WouldBlock
  | _ => Bytes (lit "e 7" ++ [newline] ++ lit "ok" ++ [newline])
  end.

Lemma answer_in_pieces_witness :
  run_command 4 (lit "dump") true demo_stream = Some (inr (lit "local fee 7" ++ [newline] ++ lit "ok" ++ [newline])).
Proof.
  apply (answer_in_pieces demo_stream [None; Some (lit "local fe"); None]
    (lit "e 7" ++ [newline] ++ lit "ok" ++ [newline])).
  - intros [|[|[|k]]] e [= <-]; reflexivity.
  - reflexivity.
  - apply Forall_cons_2; [by intros b [=]|]. apply Forall_cons_2; [|apply Forall_cons_2; [by intros b [=]|done]].
    intros b [= <-]. split; [reflexivity|]. split; [reflexivity|]. vm_compute. congruence.
  - split; [reflexivity|]. split; [reflexivity|]. vm_compute. congruence.
  - simpl. lia.
  - intros [|[|[|k]]] Hk; [eexists; vm_compute; reflexivity..|]. simpl in Hk. lia.
  - vm_compute. reflexivity.
Defined.

(** The reads before the [i]th that did not fill the buffer. *)
Definition fills (e : read_event) : bool :=
  match e with Bytes b => Z.of_nat (length b) =? BUFFER_SIZE | _ => false end.
Fixpoint short_reads (stream : nat -> read_event) (i : nat) : nat :=
  match i with
  | O => O
  | S i => (short_reads stream i + if fills (stream i) then 0 else 1)%nat
  end.

(** Their number is the depth of the recursion. *)
Lemma read_babel_ends stream n i prev :
  (51 <= short_reads stream (i + n))%nat -> stream (i + n)%nat <> WouldBlock ->
  read_babel (S n) stream i prev (Z.of_nat (short_reads stream i)) <> None.
Proof.
  revert i prev. induction n as [|n IH]; intros i prev Hi Hw.
  - rewrite Nat.add_0_r in *. cbn [read_babel]. destruct (stream i) as [| |b]; [done|done|].
    destruct (negb (valid_utf8 b)); [done|]. by destruct (Z.ltb_spec 50 (Z.of_nat (short_reads stream i))); [|lia].
  - rewrite Nat.add_succ_r in *.
    assert (Hnext : forall prev', read_babel (S n) stream (S i) prev' (Z.of_nat (short_reads stream (S i))) <> None)
      by (intros prev'; by apply IH).
    revert Hnext. generalize (S n). intros fuel Hnext. cbn [read_babel short_reads] in *.
    destruct (stream i) as [| |b] eqn:E; cbn [fills] in Hnext.
    + by replace (Z.of_nat (short_reads stream i) + 1) with (Z.of_nat (short_reads stream i + 1)) by lia.
    + done.
    + destruct (negb (valid_utf8 b)); [done|]. cbn zeta. destruct (50 <? _); [done|].
      destruct (Z.of_nat (length b) =? BUFFER_SIZE); [by rewrite Nat.add_0_r in Hnext|].
      destruct (read_babel_sync _) as [[]|]; try done.
      by replace (Z.of_nat (short_reads stream i) + 1) with (Z.of_nat (short_reads stream i + 1)) by lia.
Qed.

Lemma read_babel_blocked stream fuel i prev depth :
  (forall k, stream k = WouldBlock) -> read_babel fuel stream i prev depth = None.
Proof.
  intros Hs. revert i prev depth. induction fuel as [|fuel IH]; intros i prev depth; cbn [read_babel]; [done|].
  by rewrite Hs.
Qed.

Lemma read_babel_flooded stream fuel i prev depth :
  (forall k, exists b, stream k = Bytes b /\ fills (Bytes b) = true /\ valid_utf8 b = true) -> depth <= 50 ->
  read_babel fuel stream i prev depth = None.
Proof.
  intros Hs Hd. revert i prev. induction fuel as [|fuel IH]; intros i prev; cbn [read_babel]; [done|].
  destruct (Hs i) as (b & -> & Hf & ->). cbn [fills] in Hf. rewrite Hf. cbn.
  rewrite (proj2 (Z.ltb_ge _ _)) by done. apply IH.
Qed.

(** C30 Reading an answer ends with the first read that does not time out, once
    fifty-one reads have not filled the buffer of 500000 bytes: whatever that
    read delivers, bytes or an error, there is a result by then. There is no
    other limit: reads that time out, and reads that fill the buffer with text,
    are repeated without end. *)
Theorem read_babel_termination stream :
  (forall j, (51 <= short_reads stream j)%nat -> stream j <> WouldBlock -> read_babel (S j) stream 0 [] 0 <> None)
  /\ ((forall k, stream k = WouldBlock) -> forall fuel, read_babel fuel stream 0 [] 0 = None)
  /\ ((forall k, exists b, stream k = Bytes b /\ fills (Bytes b) = true /\ valid_utf8 b = true) ->
       forall fuel, read_babel fuel stream 0 [] 0 = None).
Proof.
  split_and!.
  - intros j Hj Hw. by apply (read_babel_ends stream j 0 []).
  - intros Hb fuel. by apply read_babel_blocked.
  - intros Hb fuel. by apply read_babel_flooded.
Qed.

(** A daemon that is silent for 51 reads and then answers. *)
Definition late_stream (k : nat) : read_event := if (k <? 51)%nat then WouldBlock else Bytes (lit "ok" ++ [newline]).
Lemma read_babel_termination_witness :
  read_babel 52 late_stream 0 [] 0 <> None
  /\ forall fuel, read_babel fuel (fun _ => WouldBlock) 0 [] 0 = None.
Proof.
  split.
  - apply (proj1 (read_babel_termination late_stream) 51%nat); [vm_compute; lia|vm_compute; discriminate].
  - apply (proj1 (proj2 (read_babel_termination (fun _ => WouldBlock)))). reflexivity.
Defined.

(** The kernel check interval babeld is given, in units of a hundredth
    of a second, is a tenth of the configured one. *)
Lemma kernel_check_interval_tenth (ms : Z) :
  0 <= ms -> ms / 10 < 65536 ->
  kernel_check_interval (Some (ms * 1000000)) = ms / 10 / 10.
Proof.
  intros H0 H1. unfold kernel_check_interval. rewrite Z.div_mul by lia.
  rewrite Z.div_div by lia. change (10 * 10) with 100.
  apply Z.mod_small. split; [apply Z.div_pos; lia|].
  apply Z.le_lt_trans with (ms / 10); [|done]. apply Z.div_le_compat_l; lia.
Qed.
