(* ===== verification/TrafficWatcher.v ===== *)
(** The traffic watcher (rita_common/src/traffic_watcher/mod.rs): the prices of
    the destinations from the route table, the byte counters of the kernel, and
    the bill each neighbour gets from both. *)
From S2P Require Import Prelude Types Oracle TxFee DebtKeeper Trim UsageTracker Text Babel.

Module TrafficWatcher.

(** A neighbour as the tunnel manager reports it. *)
Record Neighbor := {
  nb_identity : LocalIdentity;
  iface_name : text;
  tunnel_ip : IpAddr;
  speed_limit : option Z;
}.

(** The part of the settings read here. *)
Record net_settings := { ns_local_fee : Z; ns_max_fee : Z; ns_mesh_ip : option IpAddr }.

(** [is_link_local] and [IpAddr::is_multicast]. *)
Definition is_link_local (ip : IpAddr) : bool :=
  match ip with
  | V6 a => Z.land (Z.shiftr a 112) 0xffc0 =? 0xfe80
  | V4 _ => false
  end.
Definition is_multicast (ip : IpAddr) : bool :=
  match ip with
  | V6 a => Z.shiftr a 120 =? 0xff
  | V4 a => in_range 224 239 (Z.shiftr a 24)
  end.

Abbreviation ckey := (IpAddr * text)%type.
Abbreviation Counters := (gmap ckey Z).

Definition prepare_helper_maps (neighbors : list Neighbor) : gmap IpAddr Identity * gmap text Identity :=
  foldl (fun '(identities, if_to_id) neigh =>
           (<[mesh_ip (global (nb_identity neigh)) := global (nb_identity neigh)]> identities,
            <[iface_name neigh := global (nb_identity neigh)]> if_to_id))
        (∅, ∅) neighbors.

Section watcher.
Context `{N : Num256} `{P : Profile}.

(** Adding up, with the overflow behaviour of the type; [None] is a panic. *)
Fixpoint sum_with (wrap : Z -> option Z) (acc : Z) (l : list Z) : option Z :=
  match l with
  | [] => Some acc
  | x :: rest => a ← wrap (acc + x); sum_with wrap a rest
  end.

(** The loop of [get_babel_info] over the routes. *)
Fixpoint add_destinations (s : net_settings) (routes : list Route) (dest : gmap IpAddr Z)
    : option (gmap IpAddr Z) :=
  match routes with
  | [] => Some dest
  | route :: rest =>
      match prefix route with
      | NetV6 ip len =>
          if (len =? 128) && installed route then
            let price := if ns_max_fee s <? rt_price route then ns_max_fee s else rt_price route in
            total ← u32_of (price + ns_local_fee s);
            add_destinations s rest (<[V6 ip := total]> dest)
          else add_destinations s rest dest
      | NetV4 _ _ => add_destinations s rest dest
      end
  end.

Definition get_babel_info {W : Type} (s : net_settings) (routes : list Route)
    : M W RitaCommonError (gmap IpAddr Z * Z) :=
  let! destinations := unwrap (add_destinations s routes ∅) in
  match ns_mesh_ip s with
  | Some ip => ret (<[ip := 0]> destinations, ns_local_fee s)
  | None => throw (MiscStringError "No mesh IP configured yet")
  end.

(** [entry(k).or_insert(0) += v], for the entries that are billable. *)
Fixpoint add_counters (billable : IpAddr -> bool) (l : list (ckey * Z)) (total : Counters) : option Counters :=
  match l with
  | [] => Some total
  | (k, v) :: rest =>
      if billable k.1 then
        x ← u64_of (default 0 (total !! k) + v);
        add_counters billable rest (<[k := x]> total)
      else add_counters billable rest total
  end.

(** The two counter functions differ in the targets they read: [own] for the
    packets to or from this node, [fwd] for forwarded ones, [None] if reading
    failed. The order of a hash map is that of the map's key order here. *)
Definition billable (ip : IpAddr) : bool := negb (is_link_local ip || is_multicast ip).
Definition get_counters {W : Type} (own fwd : option Counters) : M W RitaCommonError Counters :=
  let! own := ok_or own (KernelInterfaceError "read_counters") in
  let! fwd := ok_or fwd (KernelInterfaceError "read_counters") in
  let! total := unwrap (add_counters billable (map_to_list own) ∅) in
  let! total := unwrap (add_counters (fun _ => true) (map_to_list fwd) total) in
  unwrap (sum_with u64_of 0 (map_to_list total).*2);!
  ret total.

(** What the kernel answers to the four reads. *)
Record kernel_counters := {
  kc_input : option Counters; kc_fwd_input : option Counters;
  kc_output : option Counters; kc_fwd_output : option Counters }.
Definition get_input_counters {W : Type} (k : kernel_counters) : M W RitaCommonError Counters :=
  get_counters (kc_input k) (kc_fwd_input k).
Definition get_output_counters {W : Type} (k : kernel_counters) : M W RitaCommonError Counters :=
  get_counters (kc_output k) (kc_fwd_output k).

(** ** The bill *)

Abbreviation Debts := (gmap id_key (Identity * Z)).

(** One counter of the input or output table; [price] is what a byte to the
    destination is worth, with its sign. *)
Definition bill (price : Z -> option Z) (apply : Z -> Z -> Z) (destinations : gmap IpAddr Z)
    (if_to_id : gmap text Identity) (debts : Debts) (c : ckey * Z) : option Debts :=
  let '((ip, interface), bytes) := c in
  match destinations !! ip, if_to_id !! interface with
  | Some dest, Some id_from_if =>
      match hm_get id_from_if debts with
      | Some debt =>
          p ← price dest;
          amount ← i128_of (p * bytes);
          debt ← i128_of (apply debt amount);
          Some (hm_insert id_from_if debt debts)
      | None => Some debts
      end
  | None, Some _ => Some debts
  | Some _, None => Some debts
  | None, None => Some debts
  end.
Fixpoint bill_all (step : Debts -> ckey * Z -> option Debts) (l : list (ckey * Z)) (debts : Debts) : option Debts :=
  match l with
  | [] => Some debts
  | c :: rest => d ← step debts c; bill_all step rest d
  end.

Definition empty_debts (identities : gmap IpAddr Identity) : Debts :=
  foldl (fun debts ident => hm_insert ident 0 debts) ∅ (map_to_list identities).*2.

Definition compute_debts (destinations : gmap IpAddr Z) (local_fee : Z) (if_to_id : gmap text Identity)
    (input output : Counters) (debts : Debts) : option Debts :=
  debts ← bill_all (bill Some (fun debt amount => debt - amount) destinations if_to_id)
            (map_to_list input) debts;
  debts ← bill_all (bill (fun dest => i128_of (dest - local_fee)) (fun debt amount => debt + amount)
                      destinations if_to_id) (map_to_list output) debts;
  _ ← sum_with i128_of 0 (hm_entries debts).*2;
  Some debts.

(** ** One round *)

Record WatchWorld := { ww_debts : World; ww_usage : UsageState }.
Abbreviation WWM A := (M WatchWorld RitaCommonError A).

Record watch_env := {
  we_netns : Z;
  we_default : option DebtKeeper;
  we_settings : net_settings;
  we_counters : kernel_counters;
  we_hour : option Z;
  we_now : Z * Z * Z;
}.

Definition update_usage (e : watch_env) (input output : Counters) (our_fee : Z) : WWM unit :=
  let! total_in := unwrap (sum_with u64_of 0 (map_to_list input).*2) in
  let! total_out := unwrap (sum_with u64_of 0 (map_to_list output).*2) in
  fun w =>
    let '(now1, now2, now3) := we_now e in
    match update_usage_data (we_hour e) now1 now2 now3
            {| kind := Relay; msg_up := total_out; msg_down := total_in; msg_price := our_fee |} (ww_usage w) with
    | Some u => Done {| ww_debts := ww_debts w; ww_usage := u |} tt
    | None => Panic
    end.

Definition watch (e : watch_env) (routes : list Route) (neighbors : list Neighbor) : WWM unit :=
  let '(identities, if_to_id) := prepare_helper_maps neighbors in
  let! (destinations, local_fee) := get_babel_info (we_settings e) routes in
  let! total_input_counters := get_input_counters (we_counters e) in
  let! total_output_counters := get_output_counters (we_counters e) in
  update_usage e total_input_counters total_output_counters local_fee;!
  let! debts := unwrap (compute_debts destinations local_fee if_to_id total_input_counters
                          total_output_counters (empty_debts identities)) in
  let traffic_vec := (fun x => {| traffic_from := x.1; traffic_amount := x.2 |}) <$> hm_entries debts in
  fun w =>
    match traffic_update (we_netns e) (we_default e) traffic_vec (ww_debts w) with
    | Done d _ => Done {| ww_debts := d; ww_usage := ww_usage w |} tt
    | Fail d _ => Done {| ww_debts := d; ww_usage := ww_usage w |} tt
    | Panic => Panic
    end.
End watcher.
End TrafficWatcher.
Export TrafficWatcher.
