(* ===== verification/TrafficWatcherSpec.v ===== *)
(** What the traffic watcher guarantees: the price of a destination, the bill of
    a neighbour as a sum over the raw counters of the kernel, the change one
    round makes to the ledger, and what a relay earns. *)
From S2P Require Import Prelude Types Oracle TxFee DebtKeeper DebtKeeperSpec Trim UsageTracker Text Babel TrafficWatcher.

(** * Sums *)

Definition zsum (l : list Z) : Z := foldr Z.add 0 l.

Lemma zsum_cons x l : zsum (x :: l) = x + zsum l.
Proof. done. Qed.
Lemma zsum_app a b : zsum (a ++ b) = zsum a + zsum b.
Proof. unfold zsum. induction a as [|x a IH]; simpl; lia. Qed.
Lemma zsum_perm a b : a ≡ₚ b -> zsum a = zsum b.
Proof. unfold zsum. induction 1; simpl; lia. Qed.
#[export] Instance zsum_proper : Proper ((≡ₚ) ==> (=)) zsum.
Proof. exact zsum_perm. Qed.
Lemma zsum_le {A} (f g : A -> Z) l : (forall x, x ∈ l -> f x <= g x) -> zsum (f <$> l) <= zsum (g <$> l).
Proof.
  induction l as [|x l IH]; intros H; [done|]. rewrite !fmap_cons, !zsum_cons.
  pose proof (H x ltac:(left)). assert (forall y, y ∈ l -> f y <= g y) by (intros; apply H; by right).
  specialize (IH ltac:(done)). lia.
Qed.
Lemma zsum_ext {A} (f g : A -> Z) l : (forall x, x ∈ l -> f x = g x) -> zsum (f <$> l) = zsum (g <$> l).
Proof.
  intros H. apply Z.le_antisymm; apply zsum_le; intros x Hx; rewrite (H x Hx); lia.
Qed.
Lemma zsum_nonneg l : Forall (fun x => 0 <= x) l -> 0 <= zsum l.
Proof. unfold zsum. induction 1; simpl; lia. Qed.

(** A sum over counters, each weighted by a rate that depends on its key. *)
Definition flow (f : ckey -> Z) (l : list (ckey * Z)) : Z := zsum ((fun c => f c.1 * c.2) <$> l).

Lemma flow_cons f k v l : flow f ((k, v) :: l) = f k * v + flow f l.
Proof. done. Qed.
Lemma flow_perm f a b : a ≡ₚ b -> flow f a = flow f b.
Proof. intros H. apply zsum_perm. by rewrite H. Qed.
Lemma flow_sub f g l : flow (fun k => f k - g k) l = flow f l - flow g l.
Proof. induction l as [|[k v] l IH]; [done|]. rewrite !flow_cons, IH. lia. Qed.

Definition mflow (f : ckey -> Z) (m : Counters) : Z := flow f (map_to_list m).

Lemma mflow_empty f : mflow f ∅ = 0.
Proof. unfold mflow. by rewrite map_to_list_empty. Qed.
Lemma mflow_delete f m k x : m !! k = Some x -> mflow f m = f k * x + mflow f (delete k m).
Proof. intros Hk. unfold mflow. rewrite <- (flow_perm f _ _ (map_to_list_delete m k x Hk)). apply flow_cons. Qed.
(** Adding to one counter is linear, whatever was there before. *)
Lemma mflow_add f m k v : mflow f (<[k := default 0 (m !! k) + v]> m) = mflow f m + f k * v.
Proof.
  rewrite (mflow_delete f (<[k := _]> m) k (default 0 (m !! k) + v)) by apply lookup_insert_eq.
  rewrite delete_insert_eq. destruct (m !! k) as [x|] eqn:E; simpl.
  - rewrite (mflow_delete f m k x E). lia.
  - rewrite delete_id by done. lia.
Qed.

(** * Reading the counters *)

Definition nonneg (m : Counters) : Prop := forall k x, m !! k = Some x -> 0 <= x.
Abbreviation bytes_of := (mflow (fun _ => 1)).

Lemma lookup_le_bytes m k x : nonneg m -> m !! k = Some x -> x <= bytes_of m.
Proof.
  intros Hm Hk. rewrite (mflow_delete _ _ _ _ Hk). assert (0 <= bytes_of (delete k m)); [|lia].
  apply zsum_nonneg, Forall_fmap, Forall_forall. intros [k' y] Hy%elem_of_map_to_list.
  apply lookup_delete_Some in Hy as [_ Hy]. specialize (Hm _ _ Hy). simpl. lia.
Qed.

Lemma list_nonneg m : nonneg m -> Forall (fun c => 0 <= c.2) (map_to_list m).
Proof. intros Hm. apply Forall_forall. intros [k x] Hx%elem_of_map_to_list. by apply (Hm k). Qed.

Section counters.
Context `{P : Profile}.

Lemma add_counters_exact (ok : IpAddr -> bool) l total :
  nonneg total -> Forall (fun c => 0 <= c.2) l ->
  bytes_of total + flow (fun _ => 1) l <= U64_MAX ->
  exists t, add_counters ok l total = Some t /\ nonneg t
    /\ forall f, mflow f t = mflow f total + flow (fun k => if ok k.1 then f k else 0) l.
Proof.
  revert total. induction l as [|[k v] l IH]; intros total Ht Hl Hs; simpl.
  { exists total. split; [done|]. split; [done|]. intros f. unfold flow, zsum. simpl. lia. }
  apply Forall_cons in Hl as [Hv Hl]. simpl in Hv. rewrite flow_cons in Hs.
  assert (Hfl : 0 <= flow (fun _ => 1) l).
  { apply zsum_nonneg, Forall_fmap. eapply Forall_impl; [exact Hl|]. simpl. lia. }
  destruct (ok k.1) eqn:Ek.
  - assert (Hx : 0 <= default 0 (total !! k) <= bytes_of total).
    { destruct (total !! k) as [x|] eqn:E; simpl; [split; [by eapply Ht|by eapply lookup_le_bytes]|].
      split; [lia|]. apply zsum_nonneg, Forall_fmap. eapply Forall_impl; [by apply list_nonneg|]. simpl. lia. }
    rewrite (native_exact 0 U64_MAX) by lia. simpl.
    destruct (IH (<[k := default 0 (total !! k) + v]> total)) as (t & E & Hnt & Hf); [|done| |].
    + intros k' x. rewrite lookup_insert. case_decide; [intros [= <-]; lia|apply Ht].
    + rewrite mflow_add. lia.
    + exists t. split; [done|]. split; [done|]. intros f. rewrite Hf, mflow_add, flow_cons, Ek. lia.
  - destruct (IH total Ht Hl ltac:(lia)) as (t & E & Hnt & Hf). exists t. split; [done|]. split; [done|].
    intros f. rewrite Hf, flow_cons, Ek. lia.
Qed.

Lemma sum_with_exact lo hi acc l :
  lo <= 0 <= hi -> Forall (fun x => 0 <= x) l -> 0 <= acc -> acc + zsum l <= hi ->
  sum_with (native lo hi) acc l = Some (acc + zsum l).
Proof.
  intros Hr Hl. revert acc. induction Hl as [|x l Hx Hl IH]; intros acc Ha Hs; simpl in *; [by rewrite Z.add_0_r|].
  pose proof (zsum_nonneg _ Hl). rewrite native_exact by lia. simpl. rewrite IH by lia. f_equal. lia.
Qed.

(** The counters that are billed: own traffic without the link local part, and
    everything forwarded. *)
Definition raw_flow (f : ckey -> Z) (own fwd : Counters) : Z :=
  flow (fun k => if billable k.1 then f k else 0) (map_to_list own) + mflow f fwd.

Lemma get_counters_exact {W : Type} own fwd (w : W) :
  nonneg own -> nonneg fwd -> bytes_of own + bytes_of fwd <= U64_MAX ->
  exists t, get_counters (Some own) (Some fwd) w = Done w t /\ nonneg t /\ bytes_of t <= U64_MAX
    /\ forall f, mflow f t = raw_flow f own fwd.
Proof.
  intros Ho Hf Hs. unfold get_counters, bind, ok_or, unwrap.
  assert (H0 : 0 <= bytes_of own /\ 0 <= bytes_of fwd).
  { split; (apply zsum_nonneg, Forall_fmap; eapply Forall_impl; [by apply list_nonneg|]; simpl; lia). }
  destruct (add_counters_exact billable (map_to_list own) ∅) as (t1 & -> & Hn1 & E1).
  { intros k x. by rewrite lookup_empty. } { by apply list_nonneg. } { rewrite mflow_empty. unfold mflow in *. lia. }
  assert (Hb : bytes_of t1 <= bytes_of own).
  { rewrite E1, mflow_empty. unfold flow, mflow. apply zsum_le. intros [k x] Hx%elem_of_map_to_list. simpl.
    specialize (Ho _ _ Hx). destruct (billable k.1); lia. }
  destruct (add_counters_exact (fun _ => true) (map_to_list fwd) t1 Hn1) as (t2 & -> & Hn2 & E2).
  { by apply list_nonneg. } { unfold mflow in *. lia. }
  assert (Hb2 : bytes_of t2 <= U64_MAX) by (rewrite E2; unfold mflow in *; lia).
  assert (Hz : zsum (map_to_list t2).*2 = bytes_of t2).
  { unfold mflow, flow. apply (zsum_ext snd). intros [k x] _. simpl. lia. }
  rewrite (sum_with_exact 0 U64_MAX); [|unfold U64_MAX; lia| |lia|rewrite Hz; lia].
  - exists t2. split; [done|]. split; [done|]. split; [done|]. intros f. rewrite E2, E1, mflow_empty. done.
  - apply Forall_fmap. eapply Forall_impl; [by apply list_nonneg|]. done.
Qed.
End counters.

(** * The bill *)

Section bill.
Context `{P : Profile} (dest : gmap IpAddr Z) (ifs : gmap text Identity).

(** What a byte of the counter [k] adds to the bill of [i]: the price of its
    destination if its interface is that of [i]. *)
Definition rate (price : Z -> Z) (i : Identity) (k : ckey) : Z :=
  match dest !! k.1, ifs !! k.2 with
  | Some p, Some j => if bool_decide (key j = key i) then price p else 0
  | _, _ => 0
  end.

Context (price : Z -> option Z) (pz : Z -> Z) (apply : Z -> Z -> Z) (sgn B : Z).
Context (Hprice : forall ip p, dest !! ip = Some p -> price p = Some (pz p) /\ - B <= pz p <= B).
Context (Happly : forall d a, apply d a = d + sgn * a) (Hsgn : sgn = 1 \/ sgn = -1) (HB : 0 <= B).

Definition within (K : Z) (debts : gmap id_key (Identity * Z)) : Prop :=
  forall i x, hm_get i debts = Some x -> - K <= x <= K.

Lemma bill_exact K debts k b :
  within K debts -> 0 <= b -> K + B * b <= I128_MAX ->
  exists debts', bill price apply dest ifs debts (k, b) = Some debts' /\ within (K + B * b) debts'
    /\ (forall i, hm_get i debts' = (fun x => x + sgn * (rate pz i k * b)) <$> hm_get i debts)
    /\ (hm_wf debts -> hm_wf debts').
Proof.
  intros Hw Hb HK. unfold bill, rate. destruct k as [ip iface]. simpl.
  assert (Hid : within (K + B * b) debts) by (intros i x Hx; specialize (Hw i x Hx); nia).
  assert (Hsame : forall i, hm_get i debts = (fun x => x + sgn * (0 * b)) <$> hm_get i debts).
  { intros i. destruct (hm_get i debts) as [x|]; simpl; [|done]. f_equal. lia. }
  destruct (dest !! ip) as [p|] eqn:Ed, (ifs !! iface) as [j|] eqn:Ei;
    try (exists debts; split; [done|]; split; [done|]; split; done).
  destruct (Hprice _ _ Ed) as [-> Hp].
  destruct (hm_get j debts) as [x|] eqn:Ex.
  - specialize (Hw _ _ Ex). unfold i128_of, I128_MIN. simpl.
    rewrite native_exact by nia. simpl. rewrite Happly. rewrite native_exact by (destruct Hsgn as [-> | ->]; nia). simpl.
    eexists. split; [reflexivity|]. split; [|split].
    + intros i y. destruct (decide (key j = key i)) as [Hk|Hk].
      * rewrite (hm_get_insert_same j i) by done. intros [= <-]. destruct Hsgn as [-> | ->]; nia.
      * rewrite hm_get_insert_ne by done. apply Hid.
    + intros i. case_bool_decide as Hk.
      * rewrite (hm_get_insert_same j i) by done. by rewrite <- (hm_get_same _ _ debts Hk), Ex.
      * rewrite hm_get_insert_ne by done. apply Hsame.
    + apply hm_wf_insert.
  - exists debts. split; [done|]. split; [done|]. split; [|done]. intros i. case_bool_decide as Hk; [|apply Hsame].
    by rewrite <- (hm_get_same _ _ debts Hk), Ex.
Qed.

Lemma bill_all_exact K l debts :
  within K debts -> Forall (fun c => 0 <= c.2) l -> 0 <= K -> K + B * flow (fun _ => 1) l <= I128_MAX ->
  exists debts', bill_all (bill price apply dest ifs) l debts = Some debts'
    /\ within (K + B * flow (fun _ => 1) l) debts'
    /\ (forall i, hm_get i debts' = (fun x => x + sgn * flow (rate pz i) l) <$> hm_get i debts)
    /\ (hm_wf debts -> hm_wf debts').
Proof.
  revert K debts. induction l as [|[k b] l IH]; intros K debts Hw Hl HK0 HK.
  { exists debts. split; [done|]. unfold flow, zsum in *. simpl in *. split; [by rewrite Z.mul_0_r, Z.add_0_r|].
    split; [|done]. intros i. destruct (hm_get i debts); simpl; [f_equal; lia|done]. }
  apply Forall_cons in Hl as [Hb Hl]. simpl in Hb. rewrite flow_cons in HK.
  assert (Hfl : 0 <= flow (fun _ => 1) l).
  { apply zsum_nonneg, Forall_fmap. eapply Forall_impl; [exact Hl|]. simpl. lia. }
  destruct (bill_exact K debts k b Hw Hb ltac:(nia)) as (d1 & E1 & Hw1 & Hg1 & Hf1).
  destruct (IH (K + B * b) d1 Hw1 Hl ltac:(nia) ltac:(nia)) as (d2 & E2 & Hw2 & Hg2 & Hf2).
  exists d2. cbn [bill_all]. rewrite E1. split; [exact E2|]. rewrite flow_cons. split; [|split].
  - intros i x Hx. specialize (Hw2 i x Hx). nia.
  - intros i. rewrite Hg2, Hg1, flow_cons. destruct (hm_get i debts); simpl; [f_equal; lia|done].
  - auto.
Qed.
End bill.

(** * The debts table *)

(** A table with an entry of zero for everybody in a list. *)
Definition zero_debts (l : list Identity) : gmap id_key (Identity * Z) :=
  foldl (fun debts ident => hm_insert ident 0 debts) ∅ l.
Definition listed (l : list Identity) (i : Identity) : bool := existsb (fun j => bool_decide (key j = key i)) l.

Lemma zero_debts_snoc l j : zero_debts (l ++ [j]) = hm_insert j 0 (zero_debts l).
Proof. unfold zero_debts. by rewrite foldl_app. Qed.

Lemma zero_debts_get l i : hm_get i (zero_debts l) = if listed l i then Some 0 else None.
Proof.
  unfold listed. induction l as [|j l IH] using rev_ind; [unfold hm_get, zero_debts; simpl; by rewrite lookup_empty|].
  rewrite zero_debts_snoc, existsb_app. simpl. destruct (decide (key j = key i)) as [Hk|Hk].
  - by rewrite (hm_get_insert_same j i), bool_decide_eq_true_2, orb_true_r by done.
  - by rewrite hm_get_insert_ne, bool_decide_eq_false_2, orb_false_r by done.
Qed.

Lemma zero_debts_wf l : hm_wf (zero_debts l).
Proof.
  induction l as [|j l IH] using rev_ind; [apply hm_wf_empty|]. rewrite zero_debts_snoc. by apply hm_wf_insert.
Qed.

Lemma hm_size_insert (i : Identity) (x : Z) (m : gmap id_key (Identity * Z)) :
  (size (hm_insert i x m) <= S (size m))%nat.
Proof. unfold hm_insert. rewrite map_size_insert. destruct (m !! key i); simpl; lia. Qed.

Lemma zero_debts_size l : (size (zero_debts l) <= length l)%nat.
Proof.
  induction l as [|j l IH] using rev_ind; [done|]. rewrite zero_debts_snoc, length_app. simpl.
  pose proof (hm_size_insert j 0 (zero_debts l)). lia.
Qed.

(** The neighbours that have an entry. *)
Definition billed (ids : gmap IpAddr Identity) (i : Identity) : bool := listed (map_to_list ids).*2 i.

Lemma empty_debts_get ids i : hm_get i (empty_debts ids) = if billed ids i then Some 0 else None.
Proof. apply zero_debts_get. Qed.

Lemma empty_debts_wf ids : hm_wf (empty_debts ids).
Proof. apply zero_debts_wf. Qed.

Lemma empty_debts_size ids : (size (empty_debts ids) <= size ids)%nat.
Proof. rewrite <- (length_map_to_list ids), <- (length_fmap snd (map_to_list ids)). apply zero_debts_size. Qed.

Lemma same_dom_size {V W : Type} (m : gmap id_key (Identity * V)) (m' : gmap id_key (Identity * W)) (f : Identity -> V -> W) :
  (forall i, hm_get i m' = f i <$> hm_get i m) -> size m' = size m.
Proof.
  intros H. rewrite <- !(size_dom (D := gset id_key)). f_equal. apply set_eq. intros [[a b] c].
  set (i := {| mesh_ip := a; eth_address := b; wg_public_key := c; nickname := None |}).
  change (a, b, c) with (key i). rewrite !elem_of_dom.
  assert (Hs : forall (U : Type) (m : gmap id_key (Identity * U)), is_Some (m !! key i) <-> is_Some (hm_get i m))
    by (intros; unfold hm_get; by rewrite fmap_is_Some).
  rewrite !Hs, H, fmap_is_Some. done.
Qed.

Lemma entry_sum (m : gmap id_key (Identity * Z)) (i : Identity) :
  hm_wf m ->
  zsum ((fun x => if bool_decide (key x.1 = key i) then x.2 else 0) <$> hm_entries m) = default 0 (hm_get i m).
Proof.
  intros Hm. unfold hm_entries, hm_get. rewrite <- list_fmap_compose.
  assert (Hz : forall l, (forall kv, kv ∈ l -> m !! kv.1 = Some kv.2) -> (forall kv, kv ∈ l -> kv.1 <> key i) ->
    zsum (((fun x => if bool_decide (key x.1 = key i) then x.2 else 0) ∘ snd) <$> l) = 0).
  { induction l as [|[k [j x]] l IH]; intros H1 H2; [done|]. rewrite fmap_cons, zsum_cons. simpl.
    pose proof (H1 _ ltac:(left)) as Hk. simpl in Hk. apply Hm in Hk.
    rewrite bool_decide_eq_false_2 by (rewrite Hk; apply (H2 (k, (j, x))); left).
    rewrite IH; [done|intros; apply H1; by right|intros; apply H2; by right]. }
  destruct (m !! key i) as [[j x]|] eqn:E.
  - rewrite <- (zsum_perm _ _ (fmap_Permutation _ _ _ (map_to_list_delete m (key i) (j, x) E))).
    rewrite fmap_cons, zsum_cons. simpl. rewrite (bool_decide_eq_true_2 (key j = key i)) by (by eapply Hm).
    rewrite Hz; [lia|..]; intros [k y] Hk%elem_of_map_to_list; apply lookup_delete_Some in Hk as [Hne Hk]; [done|].
    simpl. congruence.
  - simpl. apply Hz; intros [k y] Hk%elem_of_map_to_list; [done|]. simpl. intros ->. congruence.
Qed.

Section debts.
Context `{P : Profile} (dest : gmap IpAddr Z) (ifs : gmap text Identity) (fee : Z).
Context (Hfee : 0 <= fee <= U32_MAX) (Hdest : forall ip p, dest !! ip = Some p -> 0 <= p <= U32_MAX).

(** The bill of [i]: what it carries for this node at the price of the rest of
    the path, less what this node carries for it. *)
Definition bill_of (i : Identity) (input output : (ckey -> Z) -> Z) : Z :=
  output (rate dest ifs (fun p => p - fee) i) - input (rate dest ifs (fun p => p) i).

Lemma sum_with_signed K acc l :
  0 <= K -> - K <= acc <= K -> Forall (fun x => - K <= x <= K) l ->
  K * (1 + Z.of_nat (length l)) <= I128_MAX -> sum_with i128_of acc l <> None.
Proof.
  intros HK Ha Hl Hn. assert (Hgen : forall n acc, Forall (fun x => - K <= x <= K) l ->
    - (K * n) <= acc <= K * n -> K * (n + Z.of_nat (length l)) <= I128_MAX -> sum_with i128_of acc l <> None).
  { clear - HK. induction l as [|x l IH]; intros n acc Hl Ha Hn; simpl; [done|].
    apply Forall_cons in Hl as [Hx Hl]. simpl length in Hn.
    unfold i128_of. rewrite native_exact by (unfold I128_MIN; nia). simpl. apply (IH (n + 1)); [done|nia|nia]. }
  apply (Hgen 1); [done|lia|lia].
Qed.

Lemma compute_debts_exact input output ids :
  nonneg input -> nonneg output -> bytes_of input <= U64_MAX -> bytes_of output <= U64_MAX ->
  Z.of_nat (size ids) <= 1048576 ->
  exists debts, compute_debts dest fee ifs input output (empty_debts ids) = Some debts
    /\ (forall i, hm_get i debts = if billed ids i
          then Some (bill_of i (fun f => mflow f input) (fun f => mflow f output)) else None)
    /\ hm_wf debts /\ within (2 * U32_MAX * U64_MAX) debts /\ size debts = size (empty_debts ids).
Proof.
  intros Hi Ho Hbi Hbo Hn. unfold compute_debts.
  assert (H0 : within 0 (empty_debts ids)).
  { intros i x. rewrite empty_debts_get. destruct (billed ids i); [intros [= <-]; lia|done]. }
  destruct (bill_all_exact dest ifs Some (fun p => p) (fun debt amount => debt - amount) (-1) U32_MAX)
    with (K := 0) (l := map_to_list input) (debts := empty_debts ids) as (d1 & -> & Hw1 & Hg1 & Hf1).
  { intros ip p Hp. apply Hdest in Hp. split; [done|lia]. } { intros; lia. } { by right. } { done. }
  { done. } { by apply list_nonneg. } { done. } { unfold mflow, U32_MAX, U64_MAX, I128_MAX in *. lia. }
  simpl. fold (bytes_of input) in Hw1. 
  destruct (bill_all_exact dest ifs (fun dest => i128_of (dest - fee)) (fun p => p - fee)
    (fun debt amount => debt + amount) 1 U32_MAX)
    with (K := U32_MAX * U64_MAX) (l := map_to_list output) (debts := d1) as (d2 & -> & Hw2 & Hg2 & Hf2).
  { intros ip p Hp. apply Hdest in Hp. split; [|lia]. unfold i128_of. apply native_exact.
    unfold I128_MIN, I128_MAX, U32_MAX in *. lia. }
  { intros; lia. } { by left. } { done. }
  { intros i x Hx. specialize (Hw1 i x Hx). change (flow _ (map_to_list input)) with (bytes_of input) in Hw1.
    unfold U32_MAX, U64_MAX in *. lia. }
  { by apply list_nonneg. } { done. } { unfold mflow, U32_MAX, U64_MAX, I128_MAX in *. lia. }
  simpl. change (flow _ (map_to_list output)) with (bytes_of output) in Hw2.
  assert (Hg : forall i, hm_get i d2 = (fun x => x - mflow (rate dest ifs (fun p => p) i) input
      + mflow (rate dest ifs (fun p => p - fee) i) output) <$> hm_get i (empty_debts ids)).
  { intros i. rewrite Hg2, Hg1. destruct (hm_get i (empty_debts ids)); simpl; [f_equal; unfold mflow; lia|done]. }
  assert (Hw : within (2 * U32_MAX * U64_MAX) d2).
  { intros i x Hx. specialize (Hw2 i x Hx). unfold U32_MAX, U64_MAX in *. lia. }
  assert (Hwf : hm_wf d2) by (apply Hf2, Hf1, empty_debts_wf).
  assert (Hsz : size d2 = size (empty_debts ids)) by (by eapply (same_dom_size _ _ (fun i x => _))).
  destruct (sum_with i128_of 0 (hm_entries d2).*2) eqn:Es.
  - exists d2. split; [done|]. split; [|done]. intros i. rewrite Hg, empty_debts_get.
    destruct (billed ids i); [|done]. simpl. f_equal. unfold bill_of. lia.
  - exfalso. eapply (sum_with_signed (2 * U32_MAX * U64_MAX)); [..|exact Es].
    + done.
    + done.
    + apply Forall_fmap, Forall_forall. intros [j x] Hj. unfold hm_entries in Hj.
      apply list_elem_of_fmap in Hj as ([k [j' x']] & [= -> ->] & Hk%elem_of_map_to_list). simpl.
      apply (Hw j'). unfold hm_get. by rewrite (Hwf _ _ _ Hk), Hk.
    + unfold hm_entries. rewrite !length_fmap, length_map_to_list, Hsz.
      pose proof (empty_debts_size ids). unfold U32_MAX, U64_MAX, I128_MAX in *. lia.
Qed.
End debts.

(** * Prices *)

(** The price of the last installed host route to [ip]. *)
Definition host_route (ip : IpAddr) (r : Route) : bool :=
  match prefix r with NetV6 a len => (len =? 128) && installed r && bool_decide (V6 a = ip) | NetV4 _ _ => false end.
Definition last_route (ip : IpAddr) (routes : list Route) : option Route := last (filter (fun r => host_route ip r = true) routes).

Lemma last_route_cons ip r routes :
  last_route ip (r :: routes)
  = match last_route ip routes with Some x => Some x | None => if host_route ip r then Some r else None end.
Proof.
  unfold last_route. rewrite filter_cons. destruct (host_route ip r) eqn:E; simpl.
  - rewrite last_cons. done.
  - by destruct (last _).
Qed.

Section prices.
Context `{P : Profile} (s : net_settings).
Context (Hs : 0 <= ns_local_fee s /\ 0 <= ns_max_fee s /\ ns_max_fee s + ns_local_fee s <= U32_MAX).

Definition capped (r : Route) : Z := Z.min (rt_price r) (ns_max_fee s) + ns_local_fee s.

Lemma add_destinations_exact routes d :
  Forall (fun r => 0 <= rt_price r) routes ->
  exists d', add_destinations s routes d = Some d'
    /\ forall ip, d' !! ip = match last_route ip routes with Some r => Some (capped r) | None => d !! ip end.
Proof.
  intros Hr. revert d. induction Hr as [|r routes Hr _ IH]; intros d; [by exists d|]. simpl.
  assert (Hskip : (forall ip, host_route ip r = false) -> exists d', add_destinations s routes d = Some d'
    /\ forall ip, d' !! ip = match last_route ip (r :: routes) with Some r => Some (capped r) | None => d !! ip end).
  { intros Hno. destruct (IH d) as (d' & E & H). exists d'. split; [done|]. intros ip.
    rewrite H, last_route_cons, Hno. by destruct (last_route ip routes). }
  destruct (prefix r) as [a len|a len] eqn:Ep; [apply Hskip; unfold host_route; by rewrite Ep|].
  destruct ((len =? 128) && installed r) eqn:Ei; [|apply Hskip; unfold host_route; by rewrite Ep, Ei].
  assert (Hcap : (if ns_max_fee s <? rt_price r then ns_max_fee s else rt_price r) + ns_local_fee s = capped r).
  { unfold capped. destruct (Z.ltb_spec (ns_max_fee s) (rt_price r)); lia. }
  rewrite Hcap. unfold u32_of. rewrite native_exact by (unfold capped; lia). simpl.
  destruct (IH (<[V6 a := capped r]> d)) as (d' & E & H). exists d'. split; [done|]. intros ip.
  rewrite H, last_route_cons. destruct (last_route ip routes); [done|].
  unfold host_route. rewrite Ep, Ei. simpl. rewrite lookup_insert.
  case_decide; [rewrite bool_decide_eq_true_2 by done|rewrite bool_decide_eq_false_2 by done]; done.
Qed.
End prices.

(** With fees that fit, the price of a destination is never more than the
    configured maximum plus this node's own fee and never less than the fee:
    it is the price of the last installed host route, capped, plus the fee. The
    node itself costs nothing, and destinations with no installed host route
    have no price. *)
Theorem destination_prices `{P : Profile} {W : Type} (w : W) s routes our :
  0 <= ns_local_fee s -> 0 <= ns_max_fee s -> ns_max_fee s + ns_local_fee s <= U32_MAX ->
  Forall (fun r => 0 <= rt_price r) routes -> ns_mesh_ip s = Some our ->
  exists d, get_babel_info s routes w = Done w (d, ns_local_fee s)
    /\ d !! our = Some 0
    /\ forall ip, ip <> our ->
         d !! ip = (fun r => Z.min (rt_price r) (ns_max_fee s) + ns_local_fee s) <$> last_route ip routes.
Proof.
  intros H1 H2 H3 Hr Hip. destruct (add_destinations_exact s ltac:(auto) routes ∅ Hr) as (d & E & Hd).
  exists (<[our := 0]> d). unfold get_babel_info, bind, unwrap. rewrite E, Hip. split; [done|].
  split; [apply lookup_insert_eq|]. intros ip Hne. rewrite lookup_insert_ne by done. rewrite Hd, lookup_empty.
  by destruct (last_route ip routes).
Qed.

Definition demo_net_settings : net_settings :=
  {| ns_local_fee := 1000; ns_max_fee := 400000; ns_mesh_ip := Some (V6 7) |}.
Definition demo_host_route (ip price : Z) : Route := {|
  rt_id := []; rt_iface := []; xroute := false; installed := true; neigh_ip := V6 0;
  prefix := NetV6 ip 128; metric := 0; refmetric := 0; full_path_rtt := 0; rt_price := price; rt_fee := 0 |}.

Lemma destination_prices_witness :
  exists d, get_babel_info (P := release_profile) demo_net_settings [demo_host_route 9 500000] tt = Done tt (d, 1000)
    /\ d !! V6 9 = Some 401000.
Proof.
  destruct (destination_prices (P := release_profile) tt demo_net_settings [demo_host_route 9 500000] (V6 7))
    as (d & E & _ & H); [simpl; lia|simpl; lia|vm_compute; congruence|repeat constructor; simpl; lia|reflexivity|].
  exists d. split; [exact E|]. rewrite H by done. reflexivity.
Defined.

(** * One round *)

Section ledger.
Context `{N : Num256} {L : Num256Laws N}.

Lemma traffic_updates_exact K traffic dk :
  (forall i, - K <= debt (entry i dk) <= K) ->
  K + zsum ((fun t => Z.abs (traffic_amount t)) <$> traffic) <= I256_MAX ->
  exists dk', traffic_updates traffic dk = Done dk' tt
    /\ forall i, debt (entry i dk') = debt (entry i dk)
         + zsum ((fun t => if bool_decide (key (traffic_from t) = key i) then traffic_amount t else 0) <$> traffic).
Proof.
  revert K dk. induction traffic as [|t traffic IH]; intros K dk Hd Hs.
  { exists dk. split; [done|]. intros i. rewrite fmap_nil. unfold zsum. simpl. lia. }
  rewrite fmap_cons, zsum_cons in Hs.
  assert (0 <= zsum ((fun t => Z.abs (traffic_amount t)) <$> traffic)).
  { apply zsum_nonneg, Forall_fmap, Forall_forall. intros. simpl. lia. }
  set (d := entry (traffic_from t) dk).
  set (dk1 := {| last_save := last_save dk;
    debt_data := hm_insert (traffic_from t) (set_debt (debt d + traffic_amount t) d) (debt_data dk) |}).
  assert (E : dk_traffic_update (traffic_from t) (traffic_amount t) dk = Done dk1 tt).
  { unfold dk_traffic_update, on_entry, node_traffic_update. fold (entry (traffic_from t) dk). fold d. unfold_monad.
    specialize (Hd (traffic_from t)). fold d in Hd. rewrite i_add_exact by lia256. done. }
  assert (He : forall i, debt (entry i dk1) = debt (entry i dk)
    + (if bool_decide (key (traffic_from t) = key i) then traffic_amount t else 0)).
  { intros i. unfold entry at 1, dk1. simpl. case_bool_decide as Hk.
    - rewrite (hm_get_insert_same (traffic_from t) i) by done. simpl. unfold d, entry. by rewrite (hm_get_same _ _ _ Hk).
    - rewrite hm_get_insert_ne by done. unfold entry. lia. }
  destruct (IH (K + Z.abs (traffic_amount t)) dk1) as (dk' & E' & Hg).
  - intros i. rewrite He. specialize (Hd i). case_bool_decide; lia.
  - lia.
  - exists dk'. split; [simpl; unfold bind; by rewrite E|]. intros i. rewrite Hg, He, fmap_cons, zsum_cons. lia.
Qed.
End ledger.

(** A round in which no machine integer overflows: the counters of the round and
    of the hour fit 64 bits, there are at most 2^20 neighbours, and no debt is
    beyond 2^200. *)
Record round_ok (e : watch_env) (w : WatchWorld) (dk : DebtKeeper) (inp fin out fout : Counters)
    (neighbors : list Neighbor) : Prop := {
  ro_counters : we_counters e = {| kc_input := Some inp; kc_fwd_input := Some fin;
                                   kc_output := Some out; kc_fwd_output := Some fout |};
  ro_nonneg : nonneg inp /\ nonneg fin /\ nonneg out /\ nonneg fout;
  ro_input : bytes_of inp + bytes_of fin <= U64_MAX;
  ro_output : bytes_of out + bytes_of fout <= U64_MAX;
  ro_usage : forall h u, we_hour e = Some h -> bandwidth Relay (usage_tracker (ww_usage w)) !! h = Some u ->
    0 <= up u <= U64_MAX - raw_flow (fun _ => 1) out fout
    /\ 0 <= down u <= U64_MAX - raw_flow (fun _ => 1) inp fin;
  ro_neighbors : Z.of_nat (size (prepare_helper_maps neighbors).1) <= 1048576;
  ro_keeper : get_debt_keeper_write_ref (we_netns e) (we_default e) (ww_debts w) = Some dk;
  ro_debts : forall i, - 2 ^ 200 <= debt (entry i dk) <= 2 ^ 200;
}.

Section round.
Context `{N : Num256} {L : Num256Laws N} `{P : Profile}.

Lemma bytes_sum m : zsum (map_to_list m).*2 = bytes_of m.
Proof. unfold mflow, flow. apply (zsum_ext snd). intros [k x] _. simpl. lia. Qed.

Lemma bytes_nonneg m : nonneg m -> 0 <= bytes_of m.
Proof.
  intros Hm. apply zsum_nonneg, Forall_fmap. eapply Forall_impl; [by apply list_nonneg|]. simpl. lia.
Qed.

Lemma update_usage_done e w tin tout fee :
  nonneg tin -> nonneg tout -> bytes_of tin <= U64_MAX -> bytes_of tout <= U64_MAX ->
  (forall h u, we_hour e = Some h -> bandwidth Relay (usage_tracker (ww_usage w)) !! h = Some u ->
     0 <= up u <= U64_MAX - bytes_of tout /\ 0 <= down u <= U64_MAX - bytes_of tin) ->
  exists u, update_usage e tin tout fee w = Done {| ww_debts := ww_debts w; ww_usage := u |} tt.
Proof.
  intros Hi Ho Hbi Hbo Hu. unfold update_usage, bind, unwrap.
  assert (Hs : forall m, nonneg m -> bytes_of m <= U64_MAX ->
    sum_with u64_of 0 (map_to_list m).*2 = Some (bytes_of m)).
  { intros m Hm Hb. unfold u64_of. rewrite (sum_with_exact 0 U64_MAX); rewrite ?bytes_sum; try (unfold U64_MAX in *; lia); [done|].
    apply Forall_fmap. eapply Forall_impl; [by apply list_nonneg|]. done. }
  rewrite !Hs by done. destruct (we_now e) as [[n1 n2] n3]. unfold update_usage_data.
  destruct (we_hour e) as [h|]; [|eauto]. unfold process_usage_update. simpl.
  pose proof (bytes_nonneg _ Hi). pose proof (bytes_nonneg _ Ho).
  destruct (relay_bandwidth (usage_tracker (ww_usage w)) !! h) as [u|] eqn:E; simpl; [|eauto].
  destruct (Hu h u eq_refl E). unfold u64_of. rewrite !native_exact by lia. simpl. eauto.
Qed.

Lemma entries_abs (m : gmap id_key (Identity * Z)) K :
  hm_wf m -> within K m -> 0 <= K ->
  zsum ((fun x => Z.abs x.2) <$> hm_entries m) <= K * Z.of_nat (size m).
Proof.
  intros Hm Hw HK. etrans; [apply (zsum_le _ (fun _ => K))|].
  - intros [j x] Hj. apply list_elem_of_fmap in Hj as ([k [j' x']] & [= -> ->] & Hk%elem_of_map_to_list). simpl.
    assert (hm_get j' m = Some x') as Hg by (unfold hm_get; by rewrite (Hm _ _ _ Hk), Hk). specialize (Hw _ _ Hg). lia.
  - unfold hm_entries. rewrite <- length_map_to_list, <- (length_fmap snd). generalize (map_to_list m).*2.
    intros l. induction l as [|y l IH]; [rewrite fmap_nil; unfold zsum; simpl; lia|].
    rewrite fmap_cons, zsum_cons. simpl length. lia.
Qed.

(** A table of debts goes into the ledger entry by entry. *)
Lemma table_update_exact (debts : gmap id_key (Identity * Z)) K dk :
  hm_wf debts -> within K debts -> 0 <= K -> K * Z.of_nat (size debts) <= 2 ^ 150 ->
  (forall i, - 2 ^ 200 <= debt (entry i dk) <= 2 ^ 200) ->
  exists dk', traffic_updates ((fun x => {| traffic_from := x.1; traffic_amount := x.2 |}) <$> hm_entries debts) dk = Done dk' tt
    /\ forall i, debt (entry i dk') = debt (entry i dk) + default 0 (hm_get i debts).
Proof.
  intros Hwf Hw HK Hs Hd. pose proof (entries_abs debts K Hwf Hw HK) as Habs.
  edestruct (traffic_updates_exact (2 ^ 200)
    ((fun x => {| traffic_from := x.1; traffic_amount := x.2 |}) <$> hm_entries debts) dk) as (dk' & Et & He); [exact Hd| |].
  - rewrite <- list_fmap_compose. etrans; [apply Z.add_le_mono_l; exact Habs|]. unfold I256_MAX. lia.
  - exists dk'. split; [done|]. intros i. rewrite He. f_equal. rewrite <- list_fmap_compose. exact (entry_sum debts i Hwf).
Qed.

Lemma watch_exact e routes neighbors w dk inp fin out fout dest fee :
  let ids := (prepare_helper_maps neighbors).1 in
  let ifs := (prepare_helper_maps neighbors).2 in
  round_ok e w dk inp fin out fout neighbors ->
  get_babel_info (we_settings e) routes w = Done w (dest, fee) ->
  0 <= fee <= U32_MAX -> (forall ip p, dest !! ip = Some p -> 0 <= p <= U32_MAX) ->
  exists w' dk', watch e routes neighbors w = Done w' tt
    /\ DEBT_DATA (ww_debts w') !! we_netns e = Some dk'
    /\ forall i, debt (entry i dk') = debt (entry i dk)
         + (if billed ids i then bill_of dest ifs fee i (fun f => raw_flow f inp fin) (fun f => raw_flow f out fout) else 0).
Proof.
  intros ids ifs [Hc (Hn1 & Hn2 & Hn3 & Hn4) Hbi Hbo Hu Hn Hk Hd] Hb Hfee Hdest.
  unfold watch. subst ids ifs. destruct (prepare_helper_maps neighbors) as [ids ifs]. simpl in *.
  unfold bind at 1. rewrite Hb. unfold get_input_counters, get_output_counters. rewrite Hc. simpl.
  destruct (get_counters_exact inp fin w Hn1 Hn2 Hbi) as (ti & Eti & Hni & Hbti & Hfi).
  unfold bind at 1. rewrite Eti.
  destruct (get_counters_exact out fout w Hn3 Hn4 Hbo) as (tu & Eto & Hno & Hbto & Hfo).
  unfold bind at 1. rewrite Eto.
  destruct (update_usage_done e w ti tu fee Hni Hno Hbti Hbto) as [u Eu]; [by rewrite Hfi, Hfo|].
  unfold bind at 1. rewrite Eu.
  destruct (compute_debts_exact dest ifs fee Hfee Hdest ti tu ids Hni Hno Hbti Hbto Hn)
    as (debts & Ed & Hg & Hwf & Hw & Hsz).
  unfold bind, unwrap. rewrite Ed. unfold traffic_update, with_debt_keeper. simpl. rewrite Hk.
  pose proof (empty_debts_size ids) as Hes. rewrite <- Hsz in Hes.
  destruct (table_update_exact debts (2 * U32_MAX * U64_MAX) dk Hwf Hw) as (dk' & Et & He); [done| |exact Hd|].
  { unfold U32_MAX, U64_MAX. lia. }
  rewrite Et. eexists _, dk'. split; [reflexivity|]. simpl. split; [apply lookup_insert_eq|].
  intros i. rewrite He. f_equal. rewrite Hg. destruct (billed ids i); [|done]. simpl.
  unfold bill_of. by rewrite Hfi, Hfo.
Qed.
End round.

Lemma watch_prices_and_bills `{N : Num256} {L : Num256Laws N} `{P : Profile} e routes neighbors w dk inp fin out fout our :
  let s := we_settings e in
  let ids := (prepare_helper_maps neighbors).1 in
  let ifs := (prepare_helper_maps neighbors).2 in
  round_ok e w dk inp fin out fout neighbors ->
  0 <= ns_local_fee s -> 0 <= ns_max_fee s -> ns_max_fee s + ns_local_fee s <= U32_MAX ->
  Forall (fun r => 0 <= rt_price r) routes -> ns_mesh_ip s = Some our ->
  exists dest w' dk',
    (forall ip, dest !! ip = if bool_decide (ip = our) then Some 0 else capped s <$> last_route ip routes)
    /\ watch e routes neighbors w = Done w' tt
    /\ DEBT_DATA (ww_debts w') !! we_netns e = Some dk'
    /\ forall i, debt (entry i dk') = debt (entry i dk)
         + (if billed ids i
            then raw_flow (rate dest ifs (fun p => p - ns_local_fee s) i) out fout
                 - raw_flow (rate dest ifs (fun p => p) i) inp fin
            else 0).
Proof.
  intros s ids ifs Hok H1 H2 H3 Hr Hip.
  destruct (add_destinations_exact s ltac:(auto) routes ∅ Hr) as (d & E & Hd).
  assert (Hb : get_babel_info s routes w = Done w (<[our := 0]> d, ns_local_fee s)).
  { unfold get_babel_info, bind, unwrap. by rewrite E, Hip. }
  destruct (watch_exact e routes neighbors w dk inp fin out fout _ _ Hok Hb) as (w' & dk' & Hw & Hk & Hi).
  - lia.
  - intros ip p. rewrite lookup_insert. case_decide; [intros [= <-]; done|]. rewrite Hd, lookup_empty.
    destruct (last_route ip routes) as [r|] eqn:El; [|done]. intros [= <-]. unfold capped.
    assert (0 <= rt_price r); [|lia]. rewrite Forall_forall in Hr. apply Hr.
    unfold last_route in El. apply last_Some in El as [l' El].
    assert (r ∈ filter (fun r => host_route ip r = true) routes) as Hin by (rewrite El; set_solver).
    by apply list_elem_of_filter in Hin as [_ ?].
  - exists (<[our := 0]> d), w', dk'. split; [|split; [done|]; split; [done|exact Hi]].
    intros ip. case_bool_decide; [subst; apply lookup_insert_eq|].
    rewrite lookup_insert_ne, Hd, lookup_empty by done. by destruct (last_route ip routes).
Qed.

(** * The bill of a round, from the route table and the neighbours *)

(** The price of a destination: this node itself is free; anything else costs
    what its last installed host route asks, at most [max_fee], plus the fee of
    this node. *)
Definition route_price (s : net_settings) (our : IpAddr) (routes : list Route) (ip : IpAddr) : option Z :=
  if bool_decide (ip = our) then Some 0 else capped s <$> last_route ip routes.

(** The last neighbour listed with an interface, and with a mesh address. *)
Definition iface_owner (neighbors : list Neighbor) (iface : text) : option Identity :=
  (fun n => global (nb_identity n)) <$> last (filter (fun n => iface_name n = iface) neighbors).
Definition ip_owner (neighbors : list Neighbor) (ip : IpAddr) : option Identity :=
  (fun n => global (nb_identity n)) <$> last (filter (fun n => mesh_ip (global (nb_identity n)) = ip) neighbors).
Definition has_entry (neighbors : list Neighbor) (i : Identity) : bool :=
  match ip_owner neighbors (mesh_ip i) with Some j => bool_decide (key j = key i) | None => false end.

(** What a byte of the counter [k] is worth on the bill of [i]. *)
Definition byte_rate (price : IpAddr -> option Z) (owner : text -> option Identity) (pz : Z -> Z)
    (i : Identity) (k : ckey) : Z :=
  match price k.1, owner k.2 with
  | Some p, Some j => if bool_decide (key j = key i) then pz p else 0
  | _, _ => 0
  end.

Lemma helper_maps_snoc neighbors n :
  prepare_helper_maps (neighbors ++ [n])
  = (<[mesh_ip (global (nb_identity n)) := global (nb_identity n)]> (prepare_helper_maps neighbors).1,
     <[iface_name n := global (nb_identity n)]> (prepare_helper_maps neighbors).2).
Proof. unfold prepare_helper_maps. rewrite foldl_app. simpl. by destruct (foldl _ _ _). Qed.

(** The helper maps keep the last neighbour of each interface and address. *)
Lemma helper_maps_owners neighbors :
  (forall ip, (prepare_helper_maps neighbors).1 !! ip = ip_owner neighbors ip)
  /\ (forall f, (prepare_helper_maps neighbors).2 !! f = iface_owner neighbors f).
Proof.
  unfold ip_owner, iface_owner. induction neighbors as [|n l [IH1 IH2]] using rev_ind; [done|].
  rewrite helper_maps_snoc. simpl. split; intros x; rewrite lookup_insert, filter_app, filter_cons, filter_nil;
    case_decide; try done; [by rewrite last_snoc|by rewrite app_nil_r|by rewrite last_snoc|by rewrite app_nil_r].
Qed.

Lemma ip_owner_ip neighbors ip i : ip_owner neighbors ip = Some i -> mesh_ip i = ip.
Proof.
  unfold ip_owner. intros (n & [l Hl]%last_Some & ->)%fmap_Some.
  assert (n ∈ filter (fun n => mesh_ip (global (nb_identity n)) = ip) neighbors) as Hin by (rewrite Hl; set_solver).
  by apply list_elem_of_filter in Hin as [? _].
Qed.

Lemma billed_has_entry neighbors i : billed (prepare_helper_maps neighbors).1 i = has_entry neighbors i.
Proof.
  destruct (helper_maps_owners neighbors) as [Hids _]. apply Bool.eq_iff_eq_true. unfold billed, listed, has_entry.
  rewrite existsb_exists. split.
  - intros (j & Hj%list_elem_of_In & Hk%bool_decide_eq_true).
    apply list_elem_of_fmap in Hj as ([ip j'] & -> & Hj%elem_of_map_to_list). simpl in Hk.
    rewrite Hids in Hj. pose proof (ip_owner_ip _ _ _ Hj) as <-.
    assert (mesh_ip i = mesh_ip j') as -> by (pose proof (f_equal (fun k : id_key => k.1.1) Hk) as Hm; by simpl in Hm).
    rewrite Hj. by apply bool_decide_eq_true_2.
  - destruct (ip_owner neighbors (mesh_ip i)) as [j|] eqn:E; [|done]. intros Hk%bool_decide_eq_true.
    exists j. split; [|by apply bool_decide_eq_true_2]. apply list_elem_of_In, list_elem_of_fmap.
    exists (mesh_ip i, j). split; [done|]. apply elem_of_map_to_list. by rewrite Hids.
Qed.

Lemma raw_flow_ext f g own fwd : (forall k, f k = g k) -> raw_flow f own fwd = raw_flow g own fwd.
Proof.
  intros H. unfold raw_flow, mflow, flow. f_equal; apply zsum_ext; intros [k x] _; simpl; by rewrite H.
Qed.

(** C5 One round of the traffic watcher that could read its counters, with
    sums of bytes that fit 64 bits and prices that fit 32 bits, does not fail
    and changes the ledger by exactly the bill of each neighbour: the bytes
    sent to it at the price of the rest of the path, less the bytes received
    from it at the full price. The full price of a destination is what its last
    installed host route asks, at most the node's [max_fee], plus the node's
    own fee; the price of the rest is that less the own fee; this node itself
    costs nothing. Link local and multicast packets of this node, destinations
    without a route and interfaces without a neighbour are not billed; nobody
    else's entry changes. *)
Theorem watch_bills `{N : Num256} {L : Num256Laws N} `{P : Profile} e routes neighbors w dk inp fin out fout our :
  let s := we_settings e in
  let worth := byte_rate (route_price s our routes) (iface_owner neighbors) in
  round_ok e w dk inp fin out fout neighbors ->
  0 <= ns_local_fee s -> 0 <= ns_max_fee s -> ns_max_fee s + ns_local_fee s <= U32_MAX ->
  Forall (fun r => 0 <= rt_price r) routes -> ns_mesh_ip s = Some our ->
  exists w' dk',
    watch e routes neighbors w = Done w' tt
    /\ DEBT_DATA (ww_debts w') !! we_netns e = Some dk'
    /\ forall i, debt (entry i dk') = debt (entry i dk)
         + (if has_entry neighbors i
            then raw_flow (worth (fun p => p - ns_local_fee s) i) out fout
                 - raw_flow (worth (fun p => p) i) inp fin
            else 0).
Proof.
  intros s worth Hok H1 H2 H3 Hr Hip.
  destruct (watch_prices_and_bills e routes neighbors w dk inp fin out fout our Hok H1 H2 H3 Hr Hip)
    as (dest & w' & dk' & Hd & Hw & Hk & Hi). exists w', dk'. split; [done|]. split; [done|].
  destruct (helper_maps_owners neighbors) as [_ Hifs].
  assert (E : forall pz i own fwd, raw_flow (rate dest (prepare_helper_maps neighbors).2 pz i) own fwd
                                   = raw_flow (worth pz i) own fwd).
  { intros. apply raw_flow_ext. intros k. unfold worth, byte_rate, rate. by rewrite Hd, Hifs. }
  intros i. rewrite Hi, billed_has_entry, !E. done.
Qed.

(** * What a relay earns *)

(** A forwarded packet: destination, interface it came from, interface it left
    by, bytes. *)
Record packet := { pk_dest : IpAddr; pk_in : text; pk_out : text; pk_bytes : Z }.

(** The kernel's counters for a list of packets. *)
Definition tally (k : packet -> ckey) (ps : list packet) : Counters :=
  foldr (fun p m => <[k p := default 0 (m !! k p) + pk_bytes p]> m) ∅ ps.

Lemma tally_flow f k ps : mflow f (tally k ps) = zsum ((fun p => f (k p) * pk_bytes p) <$> ps).
Proof.
  induction ps as [|p ps IH]; [apply mflow_empty|]. rewrite fmap_cons, zsum_cons, <- IH.
  unfold tally at 1. cbn [foldr]. fold (tally k ps). rewrite mflow_add. lia.
Qed.

Lemma zsum_swap {A B : Type} (f : A -> B -> Z) (la : list A) (lb : list B) :
  zsum ((fun a => zsum ((fun b => f a b) <$> lb)) <$> la) = zsum ((fun b => zsum ((fun a => f a b) <$> la)) <$> lb).
Proof.
  induction la as [|a la IH].
  - rewrite fmap_nil. induction lb as [|b lb IH]; [done|]. rewrite fmap_cons, zsum_cons, <- IH. done.
  - rewrite fmap_cons, zsum_cons, IH. clear IH. induction lb as [|b lb IH]; [done|].
    rewrite !fmap_cons, !zsum_cons, <- IH. lia.
Qed.

Lemma helper_ids_keyed neighbors ip i :
  (prepare_helper_maps neighbors).1 !! ip = Some i -> mesh_ip i = ip.
Proof.
  unfold prepare_helper_maps.
  assert (H : forall (m : gmap IpAddr Identity) (f : gmap text Identity),
    (forall ip i, m !! ip = Some i -> mesh_ip i = ip) ->
    forall ip i, (foldl (fun '(identities, if_to_id) neigh =>
           (<[mesh_ip (global (nb_identity neigh)) := global (nb_identity neigh)]> identities,
            <[iface_name neigh := global (nb_identity neigh)]> if_to_id)) (m, f) neighbors).1 !! ip = Some i -> mesh_ip i = ip).
  { induction neighbors as [|n neighbors IH]; intros m f Hm; simpl; [done|]. apply IH.
    intros ip' i'. rewrite lookup_insert. case_decide; [by intros [= <-]|apply Hm]. }
  apply H. intros ? ?. by rewrite lookup_empty.
Qed.

(** The neighbours of the debts table. *)
Abbreviation billed_list ids := ((map_to_list (ids : gmap IpAddr Identity)).*2).

Lemma billed_list_NoDup neighbors : NoDup (identity_key <$> billed_list (prepare_helper_maps neighbors).1).
Proof.
  pose proof (helper_ids_keyed neighbors) as Hk. revert Hk. generalize (prepare_helper_maps neighbors).1. intros ids Hk.
  apply (NoDup_fmap_1 (fun k : id_key => k.1.1)).
  assert ((fun k : id_key => k.1.1) <$> (identity_key <$> billed_list ids) = (map_to_list ids).*1) as ->.
  { rewrite <- !list_fmap_compose. apply list_fmap_ext. intros n [ip i] Hn. simpl. apply Hk. apply elem_of_map_to_list. by eapply list_elem_of_lookup_2. }
  apply NoDup_fst_map_to_list.
Qed.

(** Over the whole table, exactly one neighbour has the rate of a counter. *)
Lemma rate_total dest ifs pz k p j (l : list Identity) :
  dest !! k.1 = Some p -> ifs !! k.2 = Some j ->
  NoDup (identity_key <$> l) -> existsb (fun x => bool_decide (key x = key j)) l = true ->
  zsum ((fun i => rate dest ifs pz i k) <$> l) = pz p.
Proof.
  intros Hd Hi. unfold rate. rewrite Hd, Hi.
  assert (Hz : forall l : list Identity, identity_key j ∉ identity_key <$> l ->
    zsum ((fun i => if bool_decide (key j = key i) then pz p else 0) <$> l) = 0).
  { intros l0. induction l0 as [|x l' IH]; intros Hn; [done|]. rewrite fmap_cons, zsum_cons.
    rewrite fmap_cons, not_elem_of_cons in Hn. destruct Hn as [Hn1 Hn2].
    rewrite bool_decide_eq_false_2 by done. by rewrite IH. }
  induction l as [|x l IH]; intros Hnd He; [done|]. rewrite fmap_cons in Hnd. apply NoDup_cons in Hnd as [Hx Hnd].
  rewrite fmap_cons, zsum_cons. simpl in He. destruct (decide (key j = key x)) as [Hk|Hk].
  - rewrite bool_decide_eq_true_2 by done. rewrite Hz; [lia|]. by change (identity_key j) with (key j); rewrite Hk.
  - rewrite bool_decide_eq_false_2 by done.
    rewrite bool_decide_eq_false_2 in He by (intros E; by apply Hk). simpl in He. rewrite IH by done. lia.
Qed.

(** C9 A node that only forwards earns exactly its fee: over any set of
    forwarded packets with a known destination and known neighbours on both
    sides, the debts of all neighbours together fall by the local fee times the
    bytes forwarded, whatever the prices of the routes are. *)
Theorem relay_earns_fee `{N : Num256} {L : Num256Laws N} `{P : Profile} e routes neighbors w dk ps our :
  let s := we_settings e in
  let ids := (prepare_helper_maps neighbors).1 in
  let ifs := (prepare_helper_maps neighbors).2 in
  let known iface := exists j, ifs !! iface = Some j /\ billed ids j = true in
  round_ok e w dk ∅ (tally (fun p => (pk_dest p, pk_in p)) ps) ∅ (tally (fun p => (pk_dest p, pk_out p)) ps) neighbors ->
  0 <= ns_local_fee s -> 0 <= ns_max_fee s -> ns_max_fee s + ns_local_fee s <= U32_MAX ->
  Forall (fun r => 0 <= rt_price r) routes -> ns_mesh_ip s = Some our ->
  Forall (fun p => pk_dest p <> our /\ is_Some (last_route (pk_dest p) routes) /\ known (pk_in p) /\ known (pk_out p)) ps ->
  exists w' dk',
    watch e routes neighbors w = Done w' tt
    /\ DEBT_DATA (ww_debts w') !! we_netns e = Some dk'
    /\ zsum ((fun i => debt (entry i dk') - debt (entry i dk)) <$> billed_list ids)
       = - ns_local_fee s * zsum (pk_bytes <$> ps).
Proof.
  intros s ids ifs known Hok H1 H2 H3 Hr Hip Hps.
  destruct (watch_prices_and_bills e routes neighbors w dk _ _ _ _ our Hok H1 H2 H3 Hr Hip)
    as (dest & w' & dk' & Hdest & Hw & Hk & Hbill).
  exists w', dk'. split; [done|]. split; [done|]. fold s ids ifs in Hdest, Hbill.
  pose proof (billed_list_NoDup neighbors) as Hnd. fold ids in Hnd.
  assert (Hraw : forall f k, raw_flow f ∅ (tally k ps) = zsum ((fun p => f (k p) * pk_bytes p) <$> ps)).
  { intros f k. unfold raw_flow. rewrite map_to_list_empty, tally_flow. unfold flow. rewrite fmap_nil. done. }
  rewrite (zsum_ext _ (fun i => zsum ((fun p =>
    (rate dest ifs (fun p => p - ns_local_fee s) i (pk_dest p, pk_out p)
     - rate dest ifs (fun p => p) i (pk_dest p, pk_in p)) * pk_bytes p) <$> ps))).
  2:{ intros i Hin. rewrite Hbill.
      assert (billed ids i = true) as ->.
      { unfold billed. apply existsb_exists. exists i. split; [by apply list_elem_of_In|by apply bool_decide_eq_true_2]. }
      rewrite !Hraw. clear. induction ps as [|p ps IH]; [rewrite !fmap_nil; unfold zsum; simpl; lia|].
      rewrite !fmap_cons, !zsum_cons. lia. }
  rewrite zsum_swap. clear Hraw Hbill Hok.
  induction Hps as [|p ps (Hne & [r Hlr] & (j & Hj & Hbj) & (j' & Hj' & Hbj')) _ IH];
    [rewrite !fmap_nil; unfold zsum; simpl; lia|].
  rewrite !fmap_cons, !zsum_cons, IH.
  specialize (Hdest (pk_dest p)). rewrite bool_decide_eq_false_2, Hlr in Hdest by done. simpl in Hdest.
  pose proof (rate_total dest ifs (fun p => p - ns_local_fee s) (pk_dest p, pk_out p) _ j' (billed_list ids) Hdest Hj' Hnd Hbj') as E1.
  pose proof (rate_total dest ifs (fun p => p) (pk_dest p, pk_in p) _ j (billed_list ids) Hdest Hj Hnd Hbj) as E2.
  rewrite (zsum_ext _ (fun i => pk_bytes p * rate dest ifs (fun p => p - ns_local_fee s) i (pk_dest p, pk_out p)
     - pk_bytes p * rate dest ifs (fun p => p) i (pk_dest p, pk_in p))) by (intros; lia).
  assert (Hlin : forall (f g : Identity -> Z) l, zsum ((fun i => pk_bytes p * f i - pk_bytes p * g i) <$> l)
    = pk_bytes p * zsum (f <$> l) - pk_bytes p * zsum (g <$> l)).
  { intros f g l. induction l as [|x l IHl]; [rewrite !fmap_nil; unfold zsum; simpl; lia|].
    rewrite !fmap_cons, !zsum_cons, IHl. lia. }
  rewrite Hlin, E1, E2. lia.
Qed.

Lemma tally_nonneg k ps : Forall (fun p => 0 <= pk_bytes p) ps -> nonneg (tally k ps).
Proof.
  induction 1 as [|p ps Hp _ IH]; intros c x; simpl; [by rewrite lookup_empty|].
  rewrite lookup_insert. case_decide; [|apply IH]. intros [= <-].
  destruct (tally k ps !! k p) as [y|] eqn:E; simpl; [specialize (IH _ _ E); lia|lia].
Qed.

Definition demo_neighbor (n : Z) (iface : string) : Neighbor := {|
  nb_identity := {| wg_port := 60000; have_tunnel := None;
    global := {| mesh_ip := V6 n; eth_address := n; wg_public_key := n; nickname := None |} |};
  iface_name := lit iface; tunnel_ip := V6 1; speed_limit := None |}.
Definition demo_neighbors : list Neighbor := [demo_neighbor 3 "wg0"; demo_neighbor 4 "wg1"].
Definition demo_packets : list packet :=
  [{| pk_dest := V6 9; pk_in := lit "wg0"; pk_out := lit "wg1"; pk_bytes := 100 |};
   {| pk_dest := V6 9; pk_in := lit "wg1"; pk_out := lit "wg0"; pk_bytes := 7 |}].
Definition demo_in : Counters := tally (fun p => (pk_dest p, pk_in p)) demo_packets.
Definition demo_out : Counters := tally (fun p => (pk_dest p, pk_out p)) demo_packets.
Definition demo_keeper : DebtKeeper := {| last_save := None; debt_data := ∅ |}.
Definition demo_watch_env : watch_env := {|
  we_netns := 0; we_default := Some demo_keeper; we_settings := demo_net_settings;
  we_counters := {| kc_input := Some ∅; kc_fwd_input := Some demo_in;
                    kc_output := Some ∅; kc_fwd_output := Some demo_out |};
  we_hour := None; we_now := (1, 2, 3) |}.
Definition demo_throughput : ThroughputData :=
  {| last_sample_time := None; duration_of_this_sample := 0; bytes_used := 0 |}.
Definition demo_watch_world : WatchWorld := {|
  ww_debts := {| DEBT_DATA := ∅; AMOUNT_OWED := ∅ |};
  ww_usage := {| usage_tracker := blank_usage_tracker; tp_client := demo_throughput;
                 tp_relay := demo_throughput; tp_exit := demo_throughput |} |}.

Lemma demo_round_ok :
  round_ok demo_watch_env demo_watch_world demo_keeper ∅ demo_in ∅ demo_out demo_neighbors.
Proof.
  assert (Hp : Forall (fun p => 0 <= pk_bytes p) demo_packets) by (repeat constructor; simpl; lia).
  constructor.
  - reflexivity.
  - split; [|split; [|split]]; try (by apply tally_nonneg); intros k x; by rewrite lookup_empty.
  - vm_compute. congruence.
  - vm_compute. congruence.
  - done.
  - vm_compute. congruence.
  - reflexivity.
  - intros i. unfold entry, demo_keeper, hm_get. simpl. rewrite lookup_empty. simpl. lia.
Qed.

Lemma watch_bills_witness :
  exists w' dk', watch (N := Num256_panicking) (P := debug_profile) demo_watch_env [demo_host_route 9 5000] demo_neighbors demo_watch_world = Done w' tt
    /\ DEBT_DATA (ww_debts w') !! 0 = Some dk'
    /\ debt (entry (global (nb_identity (demo_neighbor 3 "wg0"))) dk') = 5000 * 7 - 6000 * 100.
Proof.
  destruct (watch_bills (N := Num256_panicking) (P := debug_profile) demo_watch_env [demo_host_route 9 5000]
    demo_neighbors demo_watch_world demo_keeper ∅ demo_in ∅ demo_out (V6 7) demo_round_ok)
    as (w' & dk' & Hw & Hk & Hd);
    [simpl; lia|simpl; lia|vm_compute; congruence|repeat constructor; simpl; lia|reflexivity|].
  exists w', dk'. split; [exact Hw|]. split; [exact Hk|]. rewrite Hd.
  vm_compute. reflexivity.
Defined.

Lemma relay_earns_fee_witness :
  exists w' dk', watch (N := Num256_panicking) (P := debug_profile) demo_watch_env [demo_host_route 9 5000] demo_neighbors demo_watch_world = Done w' tt
    /\ DEBT_DATA (ww_debts w') !! 0 = Some dk'
    /\ zsum ((fun i => debt (entry i dk') - debt (entry i demo_keeper))
             <$> billed_list (prepare_helper_maps demo_neighbors).1) = - 1000 * 107.
Proof.
  destruct (relay_earns_fee (N := Num256_panicking) (P := debug_profile) demo_watch_env [demo_host_route 9 5000]
    demo_neighbors demo_watch_world demo_keeper demo_packets (V6 7) demo_round_ok)
    as (w' & dk' & Hw & Hk & Hd);
    [simpl; lia|simpl; lia|vm_compute; congruence|repeat constructor; simpl; lia|reflexivity| |].
  - repeat apply Forall_cons_2; [| |apply Forall_nil_2].
    + split; [done|]. split; [by eexists|]. split; (eexists; split; [vm_compute; reflexivity|vm_compute; reflexivity]).
    + split; [done|]. split; [by eexists|]. split; (eexists; split; [vm_compute; reflexivity|vm_compute; reflexivity]).
  - exists w', dk'. split; [exact Hw|]. split; [exact Hk|]. exact Hd.
Defined.
