(* ===== verification/TunnelManager.v ===== *)
(** The tunnel manager (rita_common/src/tunnel_manager): the WireGuard tunnels to
    the neighbours, their ports, their garbage collection, the enforcement of
    the debt keeper's verdicts and the traffic shaper.  Calls to the kernel and to
    babeld go through the class [Kernel], so that everything here holds whatever
    they answer. *)
From Stdlib Require SpecFloat.
From S2P Require Import Prelude Types Oracle DebtKeeper Text Babel TrafficWatcher.

Module TunnelManager.

(** * Data *)

Inductive PaymentState := Paid | Overdue.
#[export] Instance PaymentState_eq_dec : EqDecision PaymentState.
Proof. solve_decision. Defined.

(** The prefix [t_] keeps the fields apart from those of [Neighbor]. *)
Record Tunnel := {
  t_ip : IpAddr;
  t_iface_name : text;
  listen_ifidx : Z;
  listen_port : Z;
  neigh_id : LocalIdentity;
  last_contact : Z;
  created : Z;
  t_speed_limit : option Z;
  payment_state : PaymentState;
}.

(** The derived [PartialEq]. *)
Definition tunnel_eqb (a b : Tunnel) : bool :=
  bool_decide (t_ip a = t_ip b) && text_eqb (t_iface_name a) (t_iface_name b)
  && (listen_ifidx a =? listen_ifidx b) && (listen_port a =? listen_port b)
  && local_identity_eqb (neigh_id a) (neigh_id b)
  && (last_contact a =? last_contact b) && (created a =? created b)
  && bool_decide (t_speed_limit a = t_speed_limit b)
  && bool_decide (payment_state a = payment_state b).

Inductive ShapingAdjustAction := IncreaseSpeed | ReduceSpeed.
Record ShapingAdjust := { sa_iface : text; sa_action : ShapingAdjustAction }.
Record Shaper := { reset_flag : bool; to_shape : list ShapingAdjust }.

Abbreviation Tunnels := (gmap id_key (Identity * list Tunnel)).
Record TunnelManager := { tunnels : Tunnels; shaper : Shaper }.

Definition TunnelManager_new : TunnelManager :=
  {| tunnels := ∅; shaper := {| reset_flag := false; to_shape := [] |} |}.

(** The peer a hello came from, with the address of its socket. *)
Record Peer := { ifidx : Z; contact_ip : IpAddr }.

(** The fields of the settings the tunnel manager reads. *)
Record ShaperSettings := { shaper_enabled : bool; max_speed : Z; min_speed : Z }.
Record tm_settings := {
  ts_mesh_ip : option IpAddr;
  ts_mesh_ip_v2 : option IpAddr;
  ts_external_nic : option text;
  wg_private_key_path : text;
  wg_start_port : Z;
  free_tier_throughput : Z;
  shaper_settings : ShaperSettings;
}.

(** Field updates. *)
Definition set_payment (s : PaymentState) (limit : option Z) (t : Tunnel) : Tunnel :=
  {| t_ip := t_ip t; t_iface_name := t_iface_name t; listen_ifidx := listen_ifidx t;
     listen_port := listen_port t; neigh_id := neigh_id t; last_contact := last_contact t;
     created := created t; t_speed_limit := limit; payment_state := s |}.
Definition set_nickname (n : option string) (i : Identity) : Identity :=
  {| mesh_ip := mesh_ip i; eth_address := eth_address i; wg_public_key := wg_public_key i;
     nickname := n |}.
Definition set_contact (now : Z) (n : option string) (t : Tunnel) : Tunnel :=
  {| t_ip := t_ip t; t_iface_name := t_iface_name t; listen_ifidx := listen_ifidx t;
     listen_port := listen_port t;
     neigh_id := {| wg_port := wg_port (neigh_id t); have_tunnel := have_tunnel (neigh_id t);
                    global := set_nickname n (global (neigh_id t)) |};
     last_contact := now; created := created t; t_speed_limit := t_speed_limit t;
     payment_state := payment_state t |}.
Definition set_tunnels (m : Tunnels) (x : TunnelManager) : TunnelManager :=
  {| tunnels := m; shaper := shaper x |}.

(** Every tunnel of the table, in the order the table is walked. *)
Definition all_tunnels (m : Tunnels) : list Tunnel := hm_entries m ≫= snd.

(** * The kernel and babeld *)

Inductive KernelError := WgExistsError | RuntimeError (s : string).

(** The field [settings_default_route] points into a copy of the settings that is
    dropped afterwards and is left out. *)
Record TunnelOpenArgs := {
  ta_interface : text;
  ta_port : Z;
  ta_endpoint : IpAddr * Z;
  ta_remote_pub_key : Z;
  ta_private_key_path : text;
  ta_own_ip : IpAddr;
  ta_own_ip_v2 : option IpAddr;
  ta_external_nic : option text;
}.

(** What the tunnel manager asks of althea_kernel_interface and of babeld, over
    a state [W] of the outside world: each call may fail and leaves a new state.
    [k_babel] opens a connection to babeld and runs one command. A call does not
    panic; the one that could, [set_classless_limit] with a rate whose burst
    leaves 32 bits, is taken up with the code of the limits (TrafficControl). *)
Class Kernel (W : Type) := {
  k_now : W -> Z;
  k_used_ports : W -> KernelError + gset Z;
  k_get_interfaces : W -> KernelError + list text;
  k_create_blank_wg_interface : text -> W -> W * (KernelError + unit);
  k_open_tunnel : TunnelOpenArgs -> W -> W * (KernelError + unit);
  k_del_interface : text -> W -> W * (KernelError + unit);
  k_set_codel_shaping : text -> option Z -> W -> W * (KernelError + unit);
  k_has_limit : text -> W -> W * (KernelError + bool);
  k_set_classless_limit : text -> Z -> W -> W * (KernelError + unit);
  k_babel : text -> W -> W * (string + unit);
}.

(** A kernel has fewer interfaces than an [i32] can number. *)
Class KernelSane {W} (K : Kernel W) : Prop :=
  links_bounded w links : k_get_interfaces w = inr links -> Z.of_nat (length links) < 2 ^ 31 - 8.

(** The node: the tunnel manager and the world it acts on. *)
Record Node (W : Type) := { tm : TunnelManager; sys : W }.
Arguments tm {W}.
Arguments sys {W}.
Arguments Build_Node {W}.

Definition kernel_error (e : KernelError) : string :=
  match e with WgExistsError => "WgExistsError" | RuntimeError s => s end.

Section calls.
Context {W : Type} `{K : Kernel W}.
Abbreviation TM := (M (Node W) RitaCommonError).

(** [KI.f(..)?], for a call that changes the world and for one that reads it. *)
Definition kcall {A} (f : W -> W * (KernelError + A)) : TM A := fun n =>
  match f (sys n) with
  | (w, inr a) => Done (Build_Node (tm n) w) a
  | (w, inl e) => Fail (Build_Node (tm n) w) (KernelInterfaceError (kernel_error e))
  end.
Definition kread {A} (f : W -> KernelError + A) : TM A := kcall (fun w => (w, f w)).
Definition now : TM Z := fun n => Done n (k_now (sys n)).
Definition babel (command : text) : TM unit := fun n =>
  match k_babel command (sys n) with
  | (w, inr a) => Done (Build_Node (tm n) w) a
  | (w, inl e) => Fail (Build_Node (tm n) w) (Types.BabelMonitorError e)
  end.
Definition modify_tunnels (f : Tunnels -> Tunnels) : TM unit :=
  modify (fun n => Build_Node (set_tunnels (f (tunnels (tm n))) (tm n)) (sys n)).
Definition read_tunnels : TM Tunnels := fun n => Done n (tunnels (tm n)).

(** [if let Err(e) = m { error!(..); cleanup; return Err(e) }]: the cleanup's own
    error wins. *)
Definition or_cleanup {A} (m : TM A) (cleanup : TM unit) : TM A := fun n =>
  match m n with
  | Done n1 a => Done n1 a
  | Fail n1 e => (cleanup;! throw e) n1
  | Panic => Panic
  end.

(** * Interface names

    [create_blank_wg_numbered_wg_interface] of
    althea_kernel_interface/src/setup_wg_if.rs. *)
Definition wg_name (n : Z) : text := lit "wg" ++ show_uint n.

(** The first number from [n] whose name is not in use; the fuel is the number
    of links plus one.  The number is an [i32] in the code, which is enough for
    fewer than [2^31 - 8] links. *)
Fixpoint first_free (fuel : nat) (links : list text) (n : Z) : option Z :=
  match fuel with
  | O => None
  | S fuel => if decide (wg_name n ∈ links) then first_free fuel links (n + 1) else Some n
  end.

(** The retries, with [retries] the number of times [count] may still grow
    before it exceeds [MAX_RETRY]. *)
Definition MAX_RETRY : nat := 5.
Fixpoint create_with_retries (retries : nat) (n : Z) (w : W) : W * (KernelError + Z) :=
  match k_create_blank_wg_interface (wg_name n) w with
  | (w, inr _) => (w, inr n)
  | (w, inl WgExistsError) =>
      match retries with
      | O => (w, inl WgExistsError)
      | S r => create_with_retries r (n + 1) w
      end
  | (w, inl e) => (w, inl e)
  end.

Definition create_blank_wg_numbered_wg_interface : TM text :=
  let! links := kread k_get_interfaces in
  let! if_num := unwrap (first_free (S (length links)) links 0) in
  let! n := kcall (create_with_retries (S MAX_RETRY) if_num) in
  ret (wg_name n).

(** * A tunnel *)

Definition monitor (t : Tunnel) : TM unit := babel (monitor_command (t_iface_name t) None).

Definition unmonitor (t : Tunnel) : TM unit :=
  babel (unmonitor_command (t_iface_name t));!
  kcall (k_del_interface (t_iface_name t)).

Definition Tunnel_new (s : tm_settings) (ip : IpAddr) (our_listen_port ifidx : Z)
    (neigh : LocalIdentity) : TM Tunnel :=
  let! own_ip := ok_or (ts_mesh_ip s) (MiscStringError "No mesh IP configured yet") in
  let! iface := create_blank_wg_numbered_wg_interface in
  or_cleanup
    (kcall (k_open_tunnel {|
       ta_interface := iface; ta_port := our_listen_port; ta_endpoint := (ip, wg_port neigh);
       ta_remote_pub_key := wg_public_key (global neigh);
       ta_private_key_path := wg_private_key_path s; ta_own_ip := own_ip;
       ta_own_ip_v2 := ts_mesh_ip_v2 s; ta_external_nic := ts_external_nic s |}))
    (kcall (k_del_interface iface));!
  ignore_err (kcall (k_set_codel_shaping iface None));!
  let! now := now in
  let t := {| t_ip := ip; t_iface_name := iface; listen_ifidx := ifidx;
              listen_port := our_listen_port; neigh_id := neigh; last_contact := now;
              created := now; t_speed_limit := None; payment_state := Paid |} in
  or_cleanup (monitor t) (kcall (k_del_interface iface));!
  ret t.

(** * The table *)

(** [cfg_test] is the test [cfg!(test) || cfg!(integration_test) ||
    cfg!(legacy_integration_test)]; [None] is the panic on a duplicate. *)
Context (cfg_test : bool).

Fixpoint collect_ports (l : list Tunnel) (ports : gset Z) : option (gset Z) :=
  match l with
  | [] => Some ports
  | t :: rest =>
      if decide (listen_port t ∈ ports) then
        if cfg_test then None else collect_ports rest ports
      else collect_ports rest ({[listen_port t]} ∪ ports)
  end.
Definition get_all_used_ports (m : Tunnels) : option (gset Z) := collect_ports (all_tunnels m) ∅.

(** [for port in start..65535]. *)
Definition candidate_ports (start : Z) : list Z := seqZ start (65535 - start).

Definition get_next_available_port (s : tm_settings) : TM Z := fun n =>
  match k_used_ports (sys n) with
  | inl e => Fail n (TunnelManagerError (TunnelKernelError (kernel_error e)))
  | inr udp_table =>
      match get_all_used_ports (tunnels (tm n)) with
      | None => Panic
      | Some used_ports =>
          match find (fun port => bool_decide (port ∉ udp_table) && bool_decide (port ∉ used_ports))
                  (candidate_ports (wg_start_port s)) with
          | Some port => Done n port
          | None => Fail n (TunnelManagerError NoFreePortsError)
          end
      end
  end.

Definition insert_into_tunnel_list (input : Tunnel) (m : Tunnels) : Tunnels :=
  let identity := global (neigh_id input) in
  match hm_get identity m with
  | None => hm_insert identity [input] m
  | Some v => hm_insert identity (v ++ [input]) m
  end.

Definition tunnel_matches (ifidx : Z) (ip : IpAddr) (id index_id : Identity) (t : Tunnel) : bool :=
  (listen_ifidx t =? ifidx) && identity_eqb (global (neigh_id t)) id
  && identity_eqb index_id id && bool_decide (t_ip t = ip).

(** [get_tunnel_mut] returns a reference: the place of the tunnel in the table. *)
Fixpoint first_match (ifidx : Z) (ip : IpAddr) (id : Identity)
    (l : list (id_key * (Identity * list Tunnel))) : option (id_key * nat * Tunnel) :=
  match l with
  | [] => None
  | (k, (index_id, tunnel_list)) :: rest =>
      match list_find (fun t => tunnel_matches ifidx ip id index_id t = true) tunnel_list with
      | Some (n, t) => Some (k, n, t)
      | None => first_match ifidx ip id rest
      end
  end.
Definition get_tunnel_mut (ifidx : Z) (ip : IpAddr) (id : Identity) (m : Tunnels)
    : option (id_key * nat * Tunnel) := first_match ifidx ip id (map_to_list m).

(** Writing through that reference. *)
Definition write_tunnel (k : id_key) (n : nat) (t : Tunnel) (m : Tunnels) : Tunnels :=
  alter (fun '(i, l) => (i, <[n := t]> l)) k m.

Definition same_tunnel (target t : Tunnel) : bool :=
  (listen_ifidx target =? listen_ifidx t) && bool_decide (t_ip target = t_ip t)
  && identity_eqb (global (neigh_id target)) (global (neigh_id t)).

(** The two loops of [del_tunnel] over one list: collect, then retain. *)
Definition del_from_list (target : Tunnel) (l : list Tunnel) : list Tunnel :=
  foldl (fun l to_del => filter (fun val => tunnel_eqb val to_del = false) l) l
    (filter (fun t => same_tunnel target t = true) l).
Definition del_tunnel (target : Tunnel) (m : Tunnels) : Tunnels :=
  (fun e => (e.1, del_from_list target e.2)) <$> m.

Definition add_new_tunnel_to_list (s : tm_settings) (peer_ip : IpAddr) (ifidx : Z)
    (their_localid : LocalIdentity) : TM Tunnel :=
  let! our_port := get_next_available_port s in
  let! t := Tunnel_new s peer_ip our_port ifidx their_localid in
  modify_tunnels (insert_into_tunnel_list t);!
  ret t.

Definition open_tunnel (s : tm_settings) (their_localid : LocalIdentity) (peer : Peer)
    : TM (Tunnel * bool) :=
  let! m := read_tunnels in
  let they_have_tunnel := default true (have_tunnel their_localid) in
  match get_tunnel_mut (ifidx peer) (contact_ip peer) (global their_localid) m with
  | Some (k, n, t) =>
      let! now := now in
      let our_tunnel := set_contact now (nickname (global their_localid)) t in
      modify_tunnels (write_tunnel k n our_tunnel);!
      if they_have_tunnel then ret (our_tunnel, true)
      else
        ignore_err (unmonitor our_tunnel);!
        modify_tunnels (del_tunnel our_tunnel);!
        let! t := add_new_tunnel_to_list s (contact_ip peer) (ifidx peer) their_localid in
        ret (t, true)
  | None =>
      let! t := add_new_tunnel_to_list s (contact_ip peer) (ifidx peer) their_localid in
      ret (t, false)
  end.

(** [tm_identity_callback]; the port of the message is not used. *)
Record IdentityCallback := {
  cb_local_identity : LocalIdentity; cb_peer : Peer; cb_our_port : option Z }.
Definition tm_identity_callback (s : tm_settings) (msg : IdentityCallback) : TM (Tunnel * bool) :=
  open_tunnel s (cb_local_identity msg) (cb_peer msg).

Definition tm_get_neighbors (x : TunnelManager) : list Neighbor :=
  (fun t => {| nb_identity := neigh_id t; iface_name := t_iface_name t; tunnel_ip := t_ip t;
               speed_limit := t_speed_limit t |}) <$> all_tunnels (tunnels x).

(** * Garbage collection (gc.rs) *)

Definition TUNNEL_TIMEOUT : Z := secs 900.
Definition TUNNEL_HANDSHAKE_TIMEOUT : Z := TUNNEL_TIMEOUT.

(** What is read while one tunnel is looked at: the two clock readings, and the
    answer of [get_last_handshake_time], with each time as the result of
    [elapsed] ([None] for a time in the future). *)
Record gc_view := {
  now_for_created : Z;
  now_for_contact : Z;
  handshakes : option (list (option Z));
}.

Definition check_handshake_time (handshake_timeout : Z) (v : gc_view) : bool :=
  match handshakes v with
  | Some l => existsb (fun time => match time with
                                   | Some elapsed => elapsed <? handshake_timeout
                                   | None => true
                                   end) l
  | None => false
  end.

Definition into_interfaces_hashmap (interfaces : list Interface) : gmap text bool :=
  foldl (fun ret i => <[if_name i := if_up i]> ret) ∅ interfaces.

Definition tunnel_up (interfaces : gmap text bool) (tunnel_name : text) : bool :=
  match interfaces !! tunnel_name with
  | Some up => if negb up then false else true
  | None => true
  end.

Definition tunnel_should_be_kept (category_id : Identity) (tunnel : Tunnel)
    (tunnel_handshake_timeout tunnel_timeout : Z) (interfaces : gmap text bool) (v : gc_view) : bool :=
  if negb (identity_eqb category_id (global (neigh_id tunnel))) then false
  else match checked_duration_since (now_for_created v) (created tunnel),
             checked_duration_since (now_for_contact v) (last_contact tunnel) with
       | Some since_created, Some since_last_contact =>
           let handshake_timeout := negb (check_handshake_time tunnel_handshake_timeout v) in
           let created_recently := since_created <? tunnel_timeout in
           let tunnel_up := tunnel_up interfaces (t_iface_name tunnel) in
           let contact_timeout := tunnel_timeout <? since_last_contact in
           match created_recently, contact_timeout, handshake_timeout, tunnel_up with
           | true, _, _, _ => true
           | false, false, false, true => true
           | false, true, false, true => true
           | false, true, true, _ => false
           | false, false, true, _ => false
           | false, false, false, false => false
           | false, true, false, false => false
           end
       | _, _ => true
       end.

(** The split into the tunnels to keep and those to delete. *)
Definition gc_tunnel (keep : Identity -> Tunnel -> bool) (identity : Identity)
    (acc : Tunnels * Tunnels) (t : Tunnel) : Tunnels * Tunnels :=
  if keep identity t then (insert_into_tunnel_list t acc.1, acc.2)
  else (acc.1, insert_into_tunnel_list t acc.2).
Definition gc_split (keep : Identity -> Tunnel -> bool) (m : Tunnels) : Tunnels * Tunnels :=
  foldl (fun acc '(identity, l) => foldl (gc_tunnel keep identity) acc l) (∅, ∅) (hm_entries m).

Fixpoint unmonitor_tunnels (to_delete : list Tunnel) : TM unit :=
  match to_delete with
  | [] => ret tt
  | t :: rest => ignore_err (unmonitor t);! unmonitor_tunnels rest
  end.

Definition tunnel_gc (tunnel_timeout tunnel_handshake_timeout : Z)
    (babel_interfaces : list Interface) (view : Tunnel -> gc_view) : TM unit :=
  let interfaces := into_interfaces_hashmap babel_interfaces in
  let keep identity t :=
    tunnel_should_be_kept identity t tunnel_handshake_timeout tunnel_timeout interfaces (view t) in
  let! m := read_tunnels in
  let '(good, to_delete) := gc_split keep m in
  modify_tunnels (fun _ => good);!
  unmonitor_tunnels (all_tunnels to_delete).

Fixpoint monitor_missing (interface_map : gset text) (l : list Tunnel) : TM unit :=
  match l with
  | [] => ret tt
  | t :: rest =>
      (if decide (t_iface_name t ∉ interface_map) then ignore_err (monitor t) else ret tt);!
      monitor_missing interface_map rest
  end.
Definition monitor_check (interface_list : list Interface) : TM unit :=
  let! m := read_tunnels in
  monitor_missing (list_to_set (if_name <$> interface_list)) (all_tunnels m).

Definition tm_common_slow_loop_helper (babel_interfaces : list Interface) (view : Tunnel -> gc_view)
    : TM unit :=
  monitor_check babel_interfaces;!
  tunnel_gc TUNNEL_TIMEOUT TUNNEL_HANDSHAKE_TIMEOUT babel_interfaces view.

(** * Enforcement *)

Fixpoint tunnel_bw_limit_update `{P : Profile} (s : tm_settings) (o : BlockchainOracle)
    (l : list Tunnel) : TM unit :=
  match l with
  | [] => ret tt
  | t :: rest =>
      let! has_limit := kcall (k_has_limit (t_iface_name t)) in
      let! now := now in
      (if bool_decide (payment_state t = Overdue) && negb has_limit
          && negb (potential_payment_issues_detected now o)
       then kcall (k_set_classless_limit (t_iface_name t) (free_tier_throughput s))
       else if bool_decide (payment_state t = Paid) && has_limit
       then kcall (k_set_codel_shaping (t_iface_name t) None)
       else ret tt);!
      tunnel_bw_limit_update s o rest
  end.

(** One tunnel of the loop of [tunnel_payment_state_change]. *)
Definition change_payment_state (action : TunnelAction) (t : Tunnel) : Tunnel :=
  match action, payment_state t with
  | PaidOnTime, Paid => t
  | PaidOnTime, Overdue => set_payment Paid None t
  | PaymentOverdue, Paid => set_payment Overdue (t_speed_limit t) t
  | PaymentOverdue, Overdue => t
  end.

Definition tunnel_payment_state_change `{P : Profile} (s : tm_settings) (o : BlockchainOracle)
    (msg : TunnelChange) : TM unit :=
  let! m := read_tunnels in
  match hm_get (tc_identity msg) m with
  | Some l =>
      let l := change_payment_state (tc_action msg) <$> l in
      modify_tunnels (hm_insert (tc_identity msg) l);!
      ignore_err (tunnel_bw_limit_update s o l)
  | None => ret tt
  end.

Fixpoint tm_tunnel_state_change `{P : Profile} (s : tm_settings) (o : BlockchainOracle)
    (msg : list TunnelChange) : TM unit :=
  match msg with
  | [] => ret tt
  | c :: rest => tunnel_payment_state_change s o c;! tm_tunnel_state_change s o rest
  end.

(** * The shaper (shaping.rs) *)

(** [f32] arithmetic as IEEE binary32, and the saturating [as usize]; [usize_max]
    depends on the machine. *)
Definition f32_of_usize (n : Z) : SpecFloat.spec_float := SpecFloat.binary_normalize 24 128 n 0 false.
Definition f32_mul : SpecFloat.spec_float -> SpecFloat.spec_float -> SpecFloat.spec_float :=
  SpecFloat.SFmul 24 128.
Definition f32_as_usize (usize_max : Z) (f : SpecFloat.spec_float) : Z :=
  match f with
  | SpecFloat.S754_finite false m e =>
      Z.min usize_max (if 0 <=? e then Z.pos m * 2 ^ e else Z.pos m / 2 ^ (- e))
  | SpecFloat.S754_infinity false => usize_max
  | _ => 0
  end.
(** The literals [0.8f32] and [1.05f32]. *)
Definition F32_0_8 : SpecFloat.spec_float := SpecFloat.S754_finite false 13421773 (-24).
Definition F32_1_05 : SpecFloat.spec_float := SpecFloat.S754_finite false 8808038 (-23).

Definition reduce_speed (usize_max val : Z) : Z :=
  f32_as_usize usize_max (f32_mul (f32_of_usize val) F32_0_8).
Definition increase_speed `{P : Profile} (usize_max input : Z) : option Z :=
  let new := f32_as_usize usize_max (f32_mul (f32_of_usize input) F32_1_05) in
  if new =? input then native 0 usize_max (input + 1) else Some new.

Definition set_speed (l : option Z) (t : Tunnel) : Tunnel := set_payment (payment_state t) l t.
Definition set_shaping_or_error (iface : text) (limit : option Z) : TM unit :=
  ignore_err (kcall (k_set_codel_shaping iface limit)).

(** A loop over every tunnel of the table that changes it in place. *)
Fixpoint each_in_list (f : Tunnel -> TM Tunnel) (l : list Tunnel) : TM (list Tunnel) :=
  match l with
  | [] => ret []
  | t :: rest => let! t := f t in let! rest := each_in_list f rest in ret (t :: rest)
  end.
Fixpoint each_list (f : Tunnel -> TM Tunnel) (entries : list (id_key * (Identity * list Tunnel)))
    : TM unit :=
  match entries with
  | [] => ret tt
  | (k, (i, l)) :: rest =>
      let! l := each_in_list f l in
      modify_tunnels (<[k := (i, l)]>);!
      each_list f rest
  end.
Definition each_tunnel (f : Tunnel -> TM Tunnel) : TM unit :=
  let! m := read_tunnels in each_list f (map_to_list m).

(** One command on one tunnel. *)
Definition shape_tunnel `{P : Profile} (s : ShaperSettings) (usize_max : Z) (c : ShapingAdjust)
    (t : Tunnel) : TM Tunnel :=
  if text_eqb (t_iface_name t) (sa_iface c) then
    match t_speed_limit t, sa_action c with
    | None, IncreaseSpeed => ret t
    | None, ReduceSpeed =>
        set_shaping_or_error (sa_iface c) (Some (max_speed s));!
        ret (set_speed (Some (max_speed s)) t)
    | Some val, ReduceSpeed =>
        let new_val := reduce_speed usize_max val in
        if new_val <? min_speed s then ret t
        else set_shaping_or_error (sa_iface c) (Some new_val);! ret (set_speed (Some new_val) t)
    | Some val, IncreaseSpeed =>
        let! new_val := unwrap (increase_speed usize_max val) in
        if new_val <? max_speed s then
          set_shaping_or_error (sa_iface c) (Some new_val);! ret (set_speed (Some new_val) t)
        else ret t
    end
  else ret t.

Definition clear_speed (t : Tunnel) : TM Tunnel :=
  match t_speed_limit t with
  | Some _ => set_shaping_or_error (t_iface_name t) None;! ret (set_speed None t)
  | None => ret t
  end.

Fixpoint shape_all `{P : Profile} (s : ShaperSettings) (usize_max : Z) (l : list ShapingAdjust) : TM unit :=
  match l with
  | [] => ret tt
  | c :: rest => each_tunnel (shape_tunnel s usize_max c);! shape_all s usize_max rest
  end.

Definition set_shaper (f : Shaper -> Shaper) (n : Node W) : Node W :=
  Build_Node {| tunnels := tunnels (tm n); shaper := f (shaper (tm n)) |} (sys n).
Definition flag_reset_shaper : TM unit :=
  modify (set_shaper (fun x => {| reset_flag := true; to_shape := to_shape x |})).
Definition set_to_shape (input : list ShapingAdjust) : TM unit :=
  modify (set_shaper (fun x => {| reset_flag := reset_flag x; to_shape := input |})).

Definition handle_shaping `{P : Profile} (s : tm_settings) (usize_max : Z) : TM unit :=
  let! n := get_st in
  if negb (shaper_enabled (shaper_settings s)) || reset_flag (shaper (tm n)) then
    each_tunnel clear_speed;!
    modify (set_shaper (fun x => {| reset_flag := false; to_shape := to_shape x |}))
  else shape_all (shaper_settings s) usize_max (to_shape (shaper (tm n))).

(** * Neighbour status (neighbor_status.rs) *)

Record NeighborStatus := { status_id : Identity; shaper_speed : option Z; enforced : bool }.

Definition lowest_speed (lowest : option Z) (t : Tunnel) : option Z :=
  match t_speed_limit t, lowest with
  | Some new, Some current => if new <? current then Some new else lowest
  | Some new, None => Some new
  | None, Some _ => lowest
  | None, None => lowest
  end.
Definition get_neighbor_status (x : TunnelManager) : gmap id_key (Identity * NeighborStatus) :=
  foldl (fun external_list '(id, l) =>
           hm_insert id
             {| status_id := id; shaper_speed := foldl lowest_speed None l;
                enforced := existsb (fun t => bool_decide (payment_state t = Overdue)) l |}
             external_list)
        ∅ (hm_entries (tunnels x)).

End calls.
End TunnelManager.
Export TunnelManager.
