(* ===== verification/TunnelTable.v ===== *)
(** The tunnel table: its invariant (own identity, distinct ports, one tunnel
    per place), and that every handler of the tunnel manager keeps it, whatever
    the kernel and babeld answer. *)
From S2P Require Import Prelude Types Oracle DebtKeeper Text Babel TrafficWatcher TunnelManager.

(** * Reading the table *)

Definition tunnels_of (k : id_key) (m : Tunnels) : list Tunnel := default [] (snd <$> m !! k).

(** The port and the place of a tunnel, which the invariant is about, and its
    speed. *)
Definition slot (t : Tunnel) : Z * IpAddr := (listen_ifidx t, t_ip t).
Definition core (t : Tunnel) : id_key * Z * (Z * IpAddr) :=
  (identity_key (global (neigh_id t)), listen_port t, slot t).

(** A tunnel is filed under its own identity, no two tunnels share a port, no two
    tunnels of an identity share interface and address, and ports come from the
    range of the settings. *)
Record table_wf (start : Z) (m : Tunnels) : Prop := {
  wf_keys : hm_wf m;
  wf_filed : forall k, Forall (fun t => identity_key (global (neigh_id t)) = k) (tunnels_of k m);
  wf_ports : NoDup (listen_port <$> all_tunnels m);
  wf_range : Forall (fun t => start <= listen_port t < 65535) (all_tunnels m);
  wf_slots : forall k, NoDup (slot <$> tunnels_of k m);
}.

Lemma tunnels_of_insert k k' e m :
  tunnels_of k (<[k' := e]> m) = if decide (k' = k) then e.2 else tunnels_of k m.
Proof. unfold tunnels_of. rewrite lookup_insert. by case_decide. Qed.

Lemma all_tunnels_insert k e m :
  m !! k = None -> all_tunnels (<[k := e]> m) ≡ₚ e.2 ++ all_tunnels m.
Proof.
  intros Hk. unfold all_tunnels, hm_entries. by rewrite (map_to_list_insert _ _ _ Hk).
Qed.

Lemma all_tunnels_split k m : all_tunnels m ≡ₚ tunnels_of k m ++ all_tunnels (delete k m).
Proof.
  unfold tunnels_of. destruct (m !! k) as [e|] eqn:Hk; simpl.
  - rewrite <- (all_tunnels_insert k e) by apply lookup_delete_eq.
    by rewrite insert_delete_eq, insert_id.
  - by rewrite delete_id.
Qed.

Lemma tunnels_of_delete k k' m :
  tunnels_of k (delete k' m) = if decide (k' = k) then [] else tunnels_of k m.
Proof. unfold tunnels_of. rewrite lookup_delete. by case_decide. Qed.

Lemma elem_of_all_tunnels t m : t ∈ all_tunnels m <-> exists k, t ∈ tunnels_of k m.
Proof.
  unfold all_tunnels, hm_entries, tunnels_of. rewrite list_elem_of_bind. split.
  - intros (e & Ht & He). apply list_elem_of_fmap in He as ([k e'] & -> & Hk).
    apply elem_of_map_to_list in Hk. exists k. by rewrite Hk.
  - intros [k Ht]. destruct (m !! k) as [e|] eqn:Hk; [|by apply not_elem_of_nil in Ht].
    exists e. split; [done|]. apply list_elem_of_fmap. exists (k, e). split; [done|].
    by apply elem_of_map_to_list.
Qed.

(** A table each of whose lists is part of the other's. *)
Lemma all_tunnels_dominated {B} (f : Tunnel -> B) m m' :
  (forall k, f <$> tunnels_of k m' ⊆+ f <$> tunnels_of k m) ->
  f <$> all_tunnels m' ⊆+ f <$> all_tunnels m.
Proof.
  revert m. induction m' as [|k e m' Hk IH] using map_ind; intros m Hd.
  - apply submseteq_nil_l.
  - rewrite (all_tunnels_insert k e m' Hk), (all_tunnels_split k m), !fmap_app.
    apply submseteq_app.
    + specialize (Hd k). rewrite tunnels_of_insert in Hd. by case_decide.
    + apply IH. intros k'. specialize (Hd k').
      rewrite tunnels_of_insert in Hd. rewrite tunnels_of_delete. case_decide; [|done].
      subst. unfold tunnels_of. rewrite Hk. apply submseteq_nil_l.
Qed.

Lemma NoDup_part {A} (l k : list A) : l ⊆+ k -> NoDup k -> NoDup l.
Proof. intros [r ->]%submseteq_Permutation [H _]%NoDup_app. done. Qed.

Lemma Forall_core (P : id_key * Z * (Z * IpAddr) -> Prop) l l' :
  core <$> l' ⊆+ core <$> l -> Forall (fun t => P (core t)) l -> Forall (fun t => P (core t)) l'.
Proof.
  intros [r Hp]%submseteq_Permutation Hl. apply (Forall_fmap core P). apply (Forall_fmap core P) in Hl.
  rewrite Hp in Hl. by apply Forall_app in Hl as [Hl _].
Qed.

(** Dropping tunnels, and changing tunnels without touching what the invariant
    is about, keeps it. *)
Lemma table_wf_part start m m' :
  table_wf start m -> hm_wf m' ->
  (forall k, core <$> tunnels_of k m' ⊆+ core <$> tunnels_of k m) -> table_wf start m'.
Proof.
  intros [_ Hf Hp Hr Hs] Hk Hd.
  pose proof (all_tunnels_dominated core m m' Hd) as Ha. split; [done|..].
  - intros k. by apply (Forall_core (fun c => c.1.1 = k) (tunnels_of k m)).
  - eapply NoDup_part; [|exact Hp].
    pose proof (fmap_submseteq (fun c => c.1.2) _ _ Ha) as H. by rewrite <- !list_fmap_compose in H.
  - by apply (Forall_core (fun c => start <= c.1.2 < 65535) (all_tunnels m)).
  - intros k. eapply NoDup_part; [|exact (Hs k)].
    pose proof (fmap_submseteq snd _ _ (Hd k)) as H. by rewrite <- !list_fmap_compose in H.
Qed.

(** ** Inserting *)

Lemma tunnels_of_inserted t k m :
  tunnels_of k (insert_into_tunnel_list t m)
  = if decide (identity_key (global (neigh_id t)) = k) then tunnels_of k m ++ [t] else tunnels_of k m.
Proof.
  unfold insert_into_tunnel_list, hm_get, hm_insert, key, Identity_keyed.
  destruct (m !! _) as [[i l]|] eqn:E; simpl; rewrite tunnels_of_insert; case_decide; try done;
    subst; unfold tunnels_of; by rewrite E.
Qed.

Lemma hm_wf_inserted t m : hm_wf m -> hm_wf (insert_into_tunnel_list t m).
Proof. unfold insert_into_tunnel_list. intros. case_match; by apply hm_wf_insert. Qed.

Lemma delete_inserted t m :
  delete (identity_key (global (neigh_id t))) (insert_into_tunnel_list t m)
  = delete (identity_key (global (neigh_id t))) m.
Proof.
  unfold insert_into_tunnel_list, hm_insert, key, Identity_keyed.
  case_match; apply delete_insert_eq.
Qed.

Lemma all_tunnels_inserted t m : all_tunnels (insert_into_tunnel_list t m) ≡ₚ t :: all_tunnels m.
Proof.
  rewrite (all_tunnels_split (identity_key (global (neigh_id t))) (insert_into_tunnel_list t m)).
  rewrite (all_tunnels_split (identity_key (global (neigh_id t))) m), delete_inserted, tunnels_of_inserted.
  rewrite decide_True by done. rewrite <- app_assoc. simpl. symmetry. apply Permutation_middle.
Qed.

Lemma table_wf_inserted start t m :
  table_wf start m -> start <= listen_port t < 65535 ->
  listen_port t ∉ listen_port <$> all_tunnels m ->
  slot t ∉ slot <$> tunnels_of (identity_key (global (neigh_id t))) m ->
  table_wf start (insert_into_tunnel_list t m).
Proof.
  intros [Hk Hf Hp Hr Hs] Hrange Hport Hslot. split.
  - by apply hm_wf_inserted.
  - intros k. rewrite tunnels_of_inserted. case_decide; [|done].
    apply Forall_app. split; [done|]. by apply Forall_singleton.
  - rewrite all_tunnels_inserted. simpl. by constructor.
  - rewrite all_tunnels_inserted. by constructor.
  - intros k. rewrite tunnels_of_inserted. case_decide; [subst|done].
    rewrite fmap_app. apply NoDup_app. split; [done|]. split; [|apply NoDup_singleton].
    intros x Hx ->%list_elem_of_singleton. done.
Qed.

Lemma table_wf_empty start : table_wf start ∅.
Proof.
  split; [apply hm_wf_empty|intros k|..|intros k]; try constructor;
    unfold tunnels_of; rewrite lookup_empty; constructor.
Qed.

(** ** Looking up *)

Lemma tunnel_matches_spec ifidx ip id index_id t :
  tunnel_matches ifidx ip id index_id t = true <->
  slot t = (ifidx, ip) /\ identity_key (global (neigh_id t)) = identity_key id
  /\ identity_key index_id = identity_key id.
Proof.
  unfold tunnel_matches, slot.
  rewrite !andb_true_iff, Z.eqb_eq, !identity_eqb_key, bool_decide_eq_true.
  split; [intros [[[-> ->] ->] ->]|intros ([= -> ->] & -> & ->)]; done.
Qed.

Lemma same_tunnel_spec a t :
  same_tunnel a t = true <->
  slot t = slot a /\ identity_key (global (neigh_id t)) = identity_key (global (neigh_id a)).
Proof.
  unfold same_tunnel, slot. rewrite !andb_true_iff, Z.eqb_eq, identity_eqb_key, bool_decide_eq_true.
  split; [intros [[-> ->] ->]|intros ([= -> ->] & ->)]; done.
Qed.

(** What [get_tunnel_mut] finds is in the list of the identity asked for. *)
Lemma get_tunnel_mut_found ifidx ip id m k n t :
  hm_wf m -> get_tunnel_mut ifidx ip id m = Some (k, n, t) ->
  k = identity_key id /\ tunnels_of k m !! n = Some t /\ slot t = (ifidx, ip)
  /\ identity_key (global (neigh_id t)) = identity_key id.
Proof.
  unfold get_tunnel_mut. intros Hwf.
  assert (Hl : Forall (fun e => m !! e.1 = Some e.2) (map_to_list m)).
  { apply Forall_forall. intros [k' e]. apply elem_of_map_to_list. }
  induction Hl as [|[k' [i l]] rest Hk _ IH]; simpl; [done|].
  destruct (list_find _ l) as [[n' t']|] eqn:E; [|done]. intros [= -> -> ->].
  apply list_find_Some in E as (Hn & Hm & _). apply tunnel_matches_spec in Hm as (Hs & Hi & Hx).
  simpl in Hk. unfold tunnels_of. rewrite Hk. split_and!; try done.
  rewrite <- Hx. symmetry. apply (Hwf _ _ _ Hk).
Qed.

(** When it finds nothing, the identity has no tunnel at that place. *)
Lemma get_tunnel_mut_missing start ifidx ip id m :
  table_wf start m -> get_tunnel_mut ifidx ip id m = None ->
  (ifidx, ip) ∉ slot <$> tunnels_of (identity_key id) m.
Proof.
  intros [Hwf Hf _ _ _]. unfold get_tunnel_mut, tunnels_of. intros H.
  destruct (m !! identity_key id) as [[i l]|] eqn:Hk; simpl; [|apply not_elem_of_nil].
  pose proof (Hwf _ _ _ Hk : identity_key i = _) as Hi.
  pose proof (Hf (identity_key id)) as Hl. unfold tunnels_of in Hl. rewrite Hk in Hl. simpl in Hl.
  apply elem_of_map_to_list in Hk. revert H. induction (map_to_list m) as [|[k' [i' l']] rest IH]; simpl.
  { by apply not_elem_of_nil in Hk. }
  destruct (list_find _ l') as [[n t]|] eqn:E; [done|]. intros H.
  apply elem_of_cons in Hk as [[= <- <- <-]|Hk]; [|by apply IH].
  intros (t & Ht & Hin)%list_elem_of_fmap. apply list_find_None in E.
  rewrite Forall_forall in E, Hl. apply (E t Hin), tunnel_matches_spec. by rewrite Hi, (Hl t Hin).
Qed.

(** ** Updating and deleting *)

Lemma tunnels_of_write k k' n t m :
  tunnels_of k (write_tunnel k' n t m)
  = if decide (k' = k) then <[n := t]> (tunnels_of k m) else tunnels_of k m.
Proof.
  unfold tunnels_of, write_tunnel. rewrite lookup_alter. case_decide; [|done].
  subst. by destruct (m !! k) as [[i l]|].
Qed.

Lemma hm_wf_write k n t m : hm_wf m -> hm_wf (write_tunnel k n t m).
Proof.
  intros Hm k' x v. unfold write_tunnel. rewrite lookup_alter. case_decide; [|apply Hm].
  subst. destruct (m !! k') as [[i l]|] eqn:E; [|done]. intros; simplify_eq/=. by eapply Hm.
Qed.

Lemma tunnel_eqb_refl t : tunnel_eqb t t = true.
Proof.
  unfold tunnel_eqb, local_identity_eqb, text_eqb.
  by rewrite !bool_decide_true, !Z.eqb_refl, (proj2 (identity_eqb_key _ _)).
Qed.

Lemma tunnel_eqb_core a b : tunnel_eqb a b = true -> core a = core b.
Proof.
  unfold tunnel_eqb, local_identity_eqb, core, slot.
  rewrite !andb_true_iff, !Z.eqb_eq, identity_eqb_key, !bool_decide_eq_true.
  intros; destruct_and!; congruence.
Qed.

Lemma filter_iff_in {A} (P Q : A -> Prop) `{forall x, Decision (P x)} `{forall x, Decision (Q x)} (l : list A) :
  (forall x, x ∈ l -> P x <-> Q x) -> filter P l = filter Q l.
Proof.
  induction l as [|x l IH]; intros Hl; [done|]. rewrite !filter_cons.
  pose proof (Hl x (list_elem_of_here _ _)) as Hx.
  rewrite IH by (intros; apply Hl; by right). repeat case_decide; tauto.
Qed.

(** Collecting the matching tunnels and then retaining the tunnels different from
    all of them leaves exactly the tunnels that do not match. *)
Lemma del_from_list_filter target l :
  del_from_list target l = filter (fun t => same_tunnel target t = false) l.
Proof.
  unfold del_from_list.
  assert (Hfold : forall (D l' : list Tunnel), foldl (fun l to_del => filter (fun val => tunnel_eqb val to_del = false) l) l' D
    = filter (fun v => Forall (fun d => tunnel_eqb v d = false) D) l').
  { induction D as [|d D IH]; intros l'; simpl.
    - induction l' as [|x l' IH]; [done|]. rewrite filter_cons_True by constructor. by f_equal.
    - rewrite IH, list_filter_filter. apply list_filter_iff. intros v. rewrite Forall_cons. tauto. }
  rewrite Hfold. apply filter_iff_in. intros v Hv. rewrite Forall_forall. split.
  - intros Hall. destruct (same_tunnel target v) eqn:E; [|done].
    by rewrite <- (Hall v), tunnel_eqb_refl by (by apply list_elem_of_filter).
  - intros Hv' d [Hd _]%list_elem_of_filter. apply not_true_is_false. intros Hc%tunnel_eqb_core.
    apply same_tunnel_spec in Hd as [Hs Hid]. apply not_true_iff_false in Hv'. apply Hv', same_tunnel_spec.
    pose proof (f_equal snd Hc) as H1. pose proof (f_equal (fun c => c.1.1) Hc) as H2.
    simpl in *. split; congruence.
Qed.

Lemma tunnels_of_del target k m :
  tunnels_of k (del_tunnel target m)
  = filter (fun t => same_tunnel target t = false) (tunnels_of k m).
Proof.
  unfold tunnels_of, del_tunnel. rewrite lookup_fmap.
  destruct (m !! k); simpl; [apply del_from_list_filter|done].
Qed.

Lemma hm_wf_fmap (f : list Tunnel -> list Tunnel) (m : Tunnels) :
  hm_wf m -> hm_wf ((fun e => (e.1, f e.2)) <$> m).
Proof.
  intros Hm k x v. rewrite lookup_fmap. destruct (m !! k) as [[i l]|] eqn:E; simpl; [|done].
  intros [= <- <-]. by eapply Hm.
Qed.

Lemma table_wf_del start target m : table_wf start m -> table_wf start (del_tunnel target m).
Proof.
  intros Hm. apply (table_wf_part start m); [done|apply hm_wf_fmap, Hm|].
  intros k. rewrite tunnels_of_del. apply fmap_submseteq, sublist_submseteq, sublist_filter.
Qed.

(** Changing a tunnel in place, outside of what the invariant is about. *)
Lemma table_wf_write start k n t t' m :
  table_wf start m -> tunnels_of k m !! n = Some t -> core t' = core t ->
  table_wf start (write_tunnel k n t' m).
Proof.
  intros Hm Hn Hc. apply (table_wf_part start m); [done|apply hm_wf_write, Hm|].
  intros k'. rewrite tunnels_of_write. case_decide; [subst|done].
  by rewrite list_fmap_insert, Hc, list_insert_id by (by rewrite list_lookup_fmap, Hn).
Qed.

Lemma table_wf_same start m m' :
  table_wf start m -> hm_wf m' ->
  (forall k, core <$> tunnels_of k m' = core <$> tunnels_of k m) -> table_wf start m'.
Proof. intros Hm Hk He. apply (table_wf_part start m); [done..|]. intros k. by rewrite He. Qed.

