(* ===== verification/TunnelManagerSpec.v ===== *)
(** The handlers of the tunnel manager: that they keep the table's invariant over
    any sequence of events, what opening a tunnel and collecting garbage do, and
    that a failed attempt leaves no interface behind. *)
From S2P Require Import Prelude Types Oracle DebtKeeper Text Babel TrafficWatcher TunnelManager TunnelTable.

(** * Speeds *)

Fixpoint all_from (n : nat) (f : Z -> bool) (v : Z) : bool :=
  match n with O => true | S n => if f v then all_from n f (v + 1) else false end.

Lemma all_from_spec n f v x : all_from n f v = true -> v <= x < v + Z.of_nat n -> f x = true.
Proof.
  revert v. induction n as [|n IH]; intros v; simpl; [lia|].
  destruct (f v) eqn:E; [|done]. intros H Hx.
  destruct (decide (x = v)) as [->|]; [done|]. apply (IH (v + 1)); [done|lia].
Qed.

(** Saturation does not show while the result is small. *)
Lemma f32_as_usize_small a b f : f32_as_usize a f < a -> a <= b -> f32_as_usize b f = f32_as_usize a f.
Proof. unfold f32_as_usize. repeat case_match; lia. Qed.

(** Every speed up to ten gigabit, the default maximum, checked by computation. *)
Lemma speeds_checked :
  all_from (Z.to_nat 10001) (fun v =>
    let r := reduce_speed 65535 v in
    let i := f32_as_usize 65535 (f32_mul (f32_of_usize v) F32_1_05) in
    in_range 0 v r && in_range v 65534 i) 0 = true.
Proof. vm_compute. reflexivity. Qed.

Lemma speed_changes usize_max v :
  65535 <= usize_max -> 0 <= v <= 10000 ->
  0 <= reduce_speed usize_max v <= v
  /\ forall P : Profile, exists i, increase_speed usize_max v = Some i /\ v < i.
Proof.
  intros Hu Hv.
  pose proof (all_from_spec _ _ _ v speeds_checked ltac:(lia)) as H. cbv zeta beta in H.
  apply andb_true_iff in H as [Hr%in_range_spec Hi%in_range_spec].
  unfold reduce_speed, increase_speed in *. split.
  - rewrite (f32_as_usize_small 65535 usize_max) by lia. done.
  - intros P. rewrite (f32_as_usize_small 65535 usize_max) by lia.
    destruct (Z.eqb_spec (f32_as_usize 65535 (f32_mul (f32_of_usize v) F32_1_05)) v) as [E|E].
    + exists (v + 1). split; [|lia]. apply native_exact. lia.
    + eexists. split; [done|]. lia.
Qed.

(** * Calls that leave the table alone *)

Definition world_only {W A} (c : M (Node W) RitaCommonError A) : Prop :=
  forall n, match c n with Done n' _ => tm n' = tm n | Fail n' _ => tm n' = tm n | Panic => False end.
Existing Class world_only.

Section world.
Context {W : Type} `{K : Kernel W}.
Abbreviation TM := (M (Node W) RitaCommonError).

#[export] Instance world_ret {A} (a : A) : world_only (W := W) (ret a).
Proof. by intros n. Qed.
#[export] Instance world_throw {A} e : world_only (W := W) (A := A) (throw e).
Proof. by intros n. Qed.
#[export] Instance world_ok_or {A} (o : option A) e : world_only (W := W) (ok_or o e).
Proof. intros n. by destruct o. Qed.
#[export] Instance world_bind {A B} (c : TM A) (k : A -> TM B) :
  world_only c -> (forall a, world_only (k a)) -> world_only (bind c k).
Proof.
  intros Hc Hk n. unfold bind. specialize (Hc n). destruct (c n) as [n1 a|n1 e|]; [|done..].
  specialize (Hk a n1). destruct (k a n1); congruence.
Qed.
#[export] Instance world_ignore {A} (c : TM A) : world_only c -> world_only (ignore_err c).
Proof. intros Hc n. unfold ignore_err. specialize (Hc n). by destruct (c n). Qed.
#[export] Instance world_cleanup {A} (c : TM A) d : world_only c -> world_only d -> world_only (or_cleanup c d).
Proof.
  intros Hc Hd n. unfold or_cleanup. specialize (Hc n). destruct (c n) as [n1 a|n1 e|]; [done| |done].
  assert (H : world_only (d;! throw (A := A) e)) by apply _.
  specialize (H n1). destruct ((d;! throw e) n1); congruence.
Qed.
#[export] Instance world_kcall {A} (f : W -> W * (KernelError + A)) : world_only (kcall f).
Proof. intros n. unfold kcall. by destruct (f (sys n)) as [w []]. Qed.
#[export] Instance world_kread {A} (f : W -> KernelError + A) : world_only (kread f).
Proof. apply world_kcall. Qed.
#[export] Instance world_babel command : world_only (babel command).
Proof. intros n. unfold babel. by destruct (k_babel command (sys n)) as [w []]. Qed.
#[export] Instance world_now : world_only now.
Proof. by intros n. Qed.
#[export] Instance world_unmonitor t : world_only (unmonitor t).
Proof. unfold unmonitor. apply _. Qed.
#[export] Instance world_monitor t : world_only (monitor t).
Proof. unfold monitor. apply _. Qed.
#[export] Instance world_unmonitor_tunnels l : world_only (unmonitor_tunnels l).
Proof. induction l; simpl; apply _. Qed.
#[export] Instance world_monitor_missing names l : world_only (monitor_missing names l).
Proof. induction l; simpl; [apply _|]. apply world_bind; [case_decide; apply _|done]. Qed.
#[export] Instance world_shaping iface limit : world_only (set_shaping_or_error iface limit).
Proof. unfold set_shaping_or_error. apply _. Qed.
#[export] Instance world_bw `{P : Profile} s o l : world_only (tunnel_bw_limit_update s o l).
Proof.
  induction l; simpl; [apply _|]. apply world_bind; [apply _|intros limit].
  apply world_bind; [apply _|intros time]. apply world_bind; [|done]. repeat case_match; apply _.
Qed.

(** ** Interface names: a free number is found, within the fuel given *)

Lemma show_uint_inj a b : 0 <= a < 10 ^ 30 -> 0 <= b < 10 ^ 30 -> show_uint a = show_uint b -> a = b.
Proof.
  intros Ha Hb H. pose proof (parse_show_uint (10 ^ 30) a) as Pa.
  pose proof (parse_show_uint (10 ^ 30) b) as Pb. rewrite H in Pa.
  assert (Some a = Some b) as [= ->]; [|done].
  rewrite <- Pa by lia. apply Pb; lia.
Qed.

(** If none is found, all the names tried are links. *)
Lemma first_free_none fuel links n :
  first_free fuel links n = None -> forall i, (i < fuel)%nat -> wg_name (n + Z.of_nat i) ∈ links.
Proof.
  revert n. induction fuel as [|fuel IH]; intros n; simpl; [lia|].
  case_decide; [|done]. intros Hf [|i] Hi; [by rewrite Z.add_0_r|].
  replace (n + Z.of_nat (S i)) with (n + 1 + Z.of_nat i) by lia. apply IH; [done|lia].
Qed.

Lemma first_free_total links :
  Z.of_nat (length links) < 2 ^ 31 - 8 -> exists n, first_free (S (length links)) links 0 = Some n.
Proof.
  intros Hl. destruct (first_free _ _ _) as [n|] eqn:E; [by exists n|exfalso].
  pose proof (first_free_none _ _ _ E) as Hall.
  set (names := (fun i => wg_name (Z.of_nat i)) <$> seq 0 (S (length links))).
  assert (Hnd : NoDup names).
  { unfold names. apply NoDup_fmap_2_strong; [|apply NoDup_seq].
    intros x y Hx%elem_of_seq Hy%elem_of_seq Hxy. unfold wg_name in Hxy. apply app_inv_head in Hxy.
    apply Nat2Z.inj, show_uint_inj; [lia..|done]. }
  assert (Hsub : names ⊆+ links).
  { apply NoDup_submseteq; [done|]. intros x. unfold names.
    intros (i & -> & Hi%elem_of_seq)%list_elem_of_fmap. apply (Hall i). lia. }
  apply submseteq_length in Hsub. unfold names in Hsub. rewrite length_fmap, length_seq in Hsub. lia.
Qed.

Context `{KS : !KernelSane K}.

#[export] Instance world_numbered : world_only create_blank_wg_numbered_wg_interface.
Proof.
  intros n. unfold create_blank_wg_numbered_wg_interface, kread, kcall, bind, unwrap.
  destruct (k_get_interfaces (sys n)) as [e|links] eqn:E; [done|]. cbv beta iota.
  destruct (first_free_total links (links_bounded _ _ E)) as [i ->]. cbv beta iota.
  by destruct (create_with_retries _ _ _) as [w []].
Qed.
#[export] Instance world_tunnel_new s ip port idx id : world_only (Tunnel_new s ip port idx id).
Proof. unfold Tunnel_new. apply _. Qed.
End world.

Section handlers.
Context {W : Type} `{K : Kernel W} `{KS : !KernelSane K} (cfg_test : bool).
Abbreviation TM := (M (Node W) RitaCommonError).

(** * Opening a tunnel *)

(** What a new tunnel looks like. *)
Record fresh_tunnel (ip : IpAddr) (port idx : Z) (id : LocalIdentity) (t : Tunnel) : Prop := {
  fresh_ip : t_ip t = ip;
  fresh_port : listen_port t = port;
  fresh_idx : listen_ifidx t = idx;
  fresh_id : neigh_id t = id;
  fresh_paid : payment_state t = Paid;
  fresh_speed : t_speed_limit t = None;
}.

Lemma Tunnel_new_fresh s ip port idx id n n' t :
  Tunnel_new s ip port idx id n = Done n' t -> fresh_tunnel ip port idx id t.
Proof.
  unfold Tunnel_new. intros H.
  repeat (apply bind_done in H as (? & ? & ? & H)). unfold ret in H. injection H as _ <-. by split.
Qed.

(** The ports in use are found without the panic of test builds, when they are
    distinct. *)
Lemma collect_ports_spec l ports :
  NoDup (listen_port <$> l) -> (forall t, t ∈ l -> listen_port t ∉ ports) ->
  exists r, collect_ports cfg_test l ports = Some r
       /\ forall p, p ∈ r <-> p ∈ ports \/ p ∈ listen_port <$> l.
Proof.
  revert ports. induction l as [|t l IH]; intros ports Hnd Hp; simpl.
  { exists ports. split; [done|]. set_solver. }
  apply NoDup_cons in Hnd as [Hn Hnd]. rewrite decide_False by (apply Hp; by left).
  destruct (IH ({[listen_port t]} ∪ ports)) as (r & -> & Hr); [done| |].
  - intros t' Ht'. rewrite not_elem_of_union, not_elem_of_singleton. split; [|apply Hp; by right].
    intros E. apply Hn. rewrite <- E. by apply list_elem_of_fmap_2.
  - exists r. split; [done|]. intros p. rewrite Hr. simpl. set_solver.
Qed.

(** A port that is handed out is free with the system and in the table, and in
    range; an error leaves everything as it was. *)
Lemma next_port_spec s n :
  table_wf (wg_start_port s) (tunnels (tm n)) ->
  match get_next_available_port cfg_test s n with
  | Done n' port =>
      n' = n /\ wg_start_port s <= port < 65535
      /\ (port ∉ listen_port <$> all_tunnels (tunnels (tm n)))
      /\ exists udp, k_used_ports (sys n) = inr udp /\ port ∉ udp
  | Fail n' _ => n' = n
  | Panic => False
  end.
Proof.
  intros Hwf. unfold get_next_available_port, get_all_used_ports.
  destruct (k_used_ports (sys n)) as [e|udp]; [done|].
  destruct (collect_ports_spec (all_tunnels (tunnels (tm n))) ∅) as (r & -> & Hr);
    [apply Hwf|set_solver|].
  destruct (find _ _) as [port|] eqn:E; [|done].
  apply find_some in E as [Hin Hfree]. apply list_elem_of_In in Hin.
  apply andb_true_iff in Hfree as [Hu%bool_decide_eq_true Hp%bool_decide_eq_true].
  apply elem_of_seqZ in Hin. rewrite Hr in Hp. split_and!; [done|lia|lia|set_solver|eauto].
Qed.

(** Adding a tunnel where there is none. *)
Lemma add_new_tunnel_spec s ip idx id n :
  table_wf (wg_start_port s) (tunnels (tm n)) ->
  (idx, ip) ∉ slot <$> tunnels_of (identity_key (global id)) (tunnels (tm n)) ->
  match add_new_tunnel_to_list cfg_test s ip idx id n with
  | Done n' t =>
      tm n' = set_tunnels (insert_into_tunnel_list t (tunnels (tm n))) (tm n)
      /\ table_wf (wg_start_port s) (tunnels (tm n'))
      /\ fresh_tunnel ip (listen_port t) idx id t
      /\ exists udp, k_used_ports (sys n) = inr udp /\ listen_port t ∉ udp
  | Fail n' _ => tm n' = tm n
  | Panic => False
  end.
Proof.
  intros Hwf Hslot. unfold add_new_tunnel_to_list, bind.
  pose proof (next_port_spec s n Hwf) as Hp.
  destruct (get_next_available_port cfg_test s n) as [n1 port|n1 e|]; [|by subst|done].
  destruct Hp as (-> & Hr & Hfree & Hudp).
  pose proof (world_tunnel_new s ip port idx id n) as Hw.
  destruct (Tunnel_new s ip port idx id n) as [n1 t|n1 e|] eqn:E; [|done..].
  apply Tunnel_new_fresh in E as Hfresh. pose proof Hfresh as [Hip Hport Hidx Hid _ _].
  unfold modify_tunnels, modify, ret. simpl. rewrite Hw. split_and!; [done| |by rewrite Hport|by rewrite Hport].
  apply table_wf_inserted; [done|by rewrite Hport..|].
  unfold slot at 1. by rewrite Hid, Hip, Hidx.
Qed.

(** Where a tunnel is: whose it is, and its interface and address. *)
Definition place (t : Tunnel) : id_key * (Z * IpAddr) := (identity_key (global (neigh_id t)), slot t).
Definition asked_place (id : LocalIdentity) (peer : Peer) : id_key * (Z * IpAddr) :=
  (identity_key (global id), (ifidx peer, contact_ip peer)).
Definition elsewhere (p : id_key * (Z * IpAddr)) (l : list Tunnel) : list Tunnel :=
  filter (fun t => place t <> p) l.

Lemma elsewhere_inserted p t k m :
  place t = p -> elsewhere p (tunnels_of k (insert_into_tunnel_list t m)) = elsewhere p (tunnels_of k m).
Proof.
  intros Ht. rewrite tunnels_of_inserted. case_decide; [|done]. unfold elsewhere.
  rewrite filter_app, filter_cons_False, app_nil_r by (intros Hn; by apply Hn). done.
Qed.

Lemma elsewhere_del a k m :
  elsewhere (place a) (tunnels_of k (del_tunnel a m)) = elsewhere (place a) (tunnels_of k m).
Proof.
  unfold elsewhere. rewrite tunnels_of_del. apply list_filter_filter_l. intros t Ht.
  apply not_true_is_false. intros [Hs Hi]%same_tunnel_spec. apply Ht. unfold place. by rewrite Hs, Hi.
Qed.

Lemma del_tunnel_gone a k m : Forall (fun t => place t <> place a) (tunnels_of k (del_tunnel a m)).
Proof.
  rewrite tunnels_of_del. apply Forall_forall. intros t [Hf _]%list_elem_of_filter Hp.
  apply not_true_iff_false in Hf. apply Hf, same_tunnel_spec.
  split; [exact (f_equal snd Hp)|exact (f_equal fst Hp)].
Qed.

Lemma elsewhere_write p k k' n t t' m :
  tunnels_of k' m !! n = Some t -> place t = p -> place t' = p ->
  elsewhere p (tunnels_of k (write_tunnel k' n t' m)) = elsewhere p (tunnels_of k m).
Proof.
  intros Hn Ht Ht'. rewrite tunnels_of_write. case_decide; [subst k'|done].
  unfold elsewhere. revert n Hn. induction (tunnels_of k m) as [|x l IH]; intros [|n] Hn; try done.
  - injection Hn as ->. simpl. rewrite !filter_cons_False by (intros Hne; apply Hne; congruence). done.
  - simpl. rewrite !filter_cons. case_decide; [|by apply IH]. f_equal. by apply IH.
Qed.

Lemma place_set_contact now nick t : place (set_contact now nick t) = place t.
Proof. done. Qed.

Lemma not_slot_of_place id peer start m :
  table_wf start m ->
  Forall (fun t => place t <> asked_place id peer) (tunnels_of (identity_key (global id)) m) ->
  (ifidx peer, contact_ip peer) ∉ slot <$> tunnels_of (identity_key (global id)) m.
Proof.
  intros Hwf Hf (t & Ht & Hin)%list_elem_of_fmap. rewrite Forall_forall in Hf.
  apply (Hf t Hin). pose proof (wf_filed _ _ Hwf (identity_key (global id))) as Hi.
  rewrite Forall_forall in Hi. unfold place, asked_place. by rewrite Ht, (Hi t Hin).
Qed.

Lemma fresh_place id peer port t :
  fresh_tunnel (contact_ip peer) port (ifidx peer) id t -> place t = asked_place id peer.
Proof. intros [Hip _ Hidx Hid _ _]. unfold place, asked_place, slot. by rewrite Hip, Hidx, Hid. Qed.

(** The result of opening a tunnel when it was created anew. *)
Definition opened_new (s : tm_settings) (id : LocalIdentity) (peer : Peer) (n n' : Node W) (t : Tunnel) : Prop :=
  table_wf (wg_start_port s) (tunnels (tm n')) /\ fresh_tunnel (contact_ip peer) (listen_port t) (ifidx peer) id t
  /\ t ∈ tunnels_of (identity_key (global id)) (tunnels (tm n'))
  /\ forall k, elsewhere (asked_place id peer) (tunnels_of k (tunnels (tm n')))
           = elsewhere (asked_place id peer) (tunnels_of k (tunnels (tm n))).

Lemma add_new_opens s id peer n :
  table_wf (wg_start_port s) (tunnels (tm n)) ->
  Forall (fun t => place t <> asked_place id peer) (tunnels_of (identity_key (global id)) (tunnels (tm n))) ->
  match add_new_tunnel_to_list cfg_test s (contact_ip peer) (ifidx peer) id n with
  | Done n' t => opened_new s id peer n n' t
      /\ exists udp, k_used_ports (sys n) = inr udp /\ listen_port t ∉ udp
  | Fail n' _ => tm n' = tm n
  | Panic => False
  end.
Proof.
  intros Hwf Hno.
  pose proof (add_new_tunnel_spec s (contact_ip peer) (ifidx peer) id n Hwf
    (not_slot_of_place _ _ _ _ Hwf Hno)) as H.
  destruct (add_new_tunnel_to_list _ _ _ _ _ n) as [n' t|n' e|]; [|done..].
  destruct H as (Htm & Hwf' & Hf & Hudp). split; [|done]. unfold opened_new.
  pose proof Hf as [Hip _ Hidx Hid _ _]. rewrite Htm in *. simpl in *. split_and!; [done..| |].
  - rewrite tunnels_of_inserted, Hid, decide_True by done. apply elem_of_app. right. by left.
  - intros k. eapply elsewhere_inserted, fresh_place, Hf.
Qed.

(** A hello for a tunnel that exists. *)
Definition has_tunnel (id : LocalIdentity) (peer : Peer) (m : Tunnels) (t : Tunnel) : Prop :=
  t ∈ tunnels_of (identity_key (global id)) m /\ place t = asked_place id peer.

Lemma open_tunnel_existing s id peer n k i t :
  table_wf (wg_start_port s) (tunnels (tm n)) ->
  get_tunnel_mut (ifidx peer) (contact_ip peer) (global id) (tunnels (tm n)) = Some (k, i, t) ->
  let t1 := set_contact (k_now (sys n)) (nickname (global id)) t in
  let m1 := write_tunnel k i t1 (tunnels (tm n)) in
  has_tunnel id peer (tunnels (tm n)) t /\ table_wf (wg_start_port s) m1 /\ has_tunnel id peer m1 t1
  /\ forall k', elsewhere (asked_place id peer) (tunnels_of k' m1)
            = elsewhere (asked_place id peer) (tunnels_of k' (tunnels (tm n))).
Proof.
  intros Hwf Hg t1 m1. apply get_tunnel_mut_found in Hg as (-> & Hi & Hs & Hid); [|apply Hwf].
  assert (Hp : place t = asked_place id peer) by (unfold place, asked_place; by rewrite Hs, Hid).
  split_and!.
  - split; [by eapply list_elem_of_lookup_2|done].
  - by apply (table_wf_write _ _ _ t).
  - split; [|done]. unfold m1. rewrite tunnels_of_write, decide_True by done.
    apply list_elem_of_lookup_2 with i, list_lookup_insert_eq. by eapply lookup_lt_Some.
  - intros k'. by apply (elsewhere_write _ _ _ _ t).
Qed.

Lemma has_tunnel_missing start id peer m t :
  table_wf start m -> get_tunnel_mut (ifidx peer) (contact_ip peer) (global id) m = None ->
  ~ has_tunnel id peer m t.
Proof.
  intros Hwf Hg [Ht Hp]. apply (get_tunnel_mut_missing _ _ _ _ _ Hwf Hg).
  apply list_elem_of_fmap. exists t. split; [|done]. symmetry. exact (f_equal snd Hp).
Qed.

(** The middle part of replacing a tunnel: it is flushed and dropped. *)
Lemma drop_tunnel_spec s id peer t1 n1 :
  table_wf (wg_start_port s) (tunnels (tm n1)) -> place t1 = asked_place id peer ->
  exists n2, (ignore_err (unmonitor t1);! modify_tunnels (del_tunnel t1)) n1 = Done n2 tt
    /\ tm n2 = set_tunnels (del_tunnel t1 (tunnels (tm n1))) (tm n1)
    /\ table_wf (wg_start_port s) (tunnels (tm n2))
    /\ Forall (fun t => place t <> asked_place id peer) (tunnels_of (identity_key (global id)) (tunnels (tm n2)))
    /\ forall k, elsewhere (asked_place id peer) (tunnels_of k (tunnels (tm n2)))
             = elsewhere (asked_place id peer) (tunnels_of k (tunnels (tm n1))).
Proof.
  intros Hwf Hp. unfold bind, modify_tunnels, modify.
  pose proof (world_unmonitor t1 n1) as Hw. unfold ignore_err.
  assert (exists n2, (match unmonitor t1 n1 with
     | Done s' _ | Fail s' _ => Done s' tt | Panic => Panic (E := RitaCommonError) end) = Done n2 tt
     /\ tm n2 = tm n1) as (n2 & -> & H2) by (destruct (unmonitor t1 n1); [by eexists..|done]).
  eexists. split; [done|]. simpl. rewrite H2. split_and!; [done|by apply table_wf_del|..].
  - rewrite <- Hp. apply del_tunnel_gone.
  - intros k. rewrite <- Hp. apply elsewhere_del.
Qed.

Lemma bind_assoc {S E A B C} (a : M S E A) (b : A -> M S E B) (c : B -> M S E C) x :
  bind a (fun y => bind (b y) c) x = bind (bind a b) c x.
Proof. unfold bind. by destruct (a x). Qed.

Lemma open_tunnel_outcome s id peer n :
  table_wf (wg_start_port s) (tunnels (tm n)) ->
  let others n := fun k => elsewhere (asked_place id peer) (tunnels_of k (tunnels (tm n))) in
  match open_tunnel cfg_test s id peer n with
  | Done n' (t, existed) =>
      table_wf (wg_start_port s) (tunnels (tm n')) /\ has_tunnel id peer (tunnels (tm n')) t
      /\ (forall k, others n' k = others n k)
      /\ (existed = true <-> exists t0, has_tunnel id peer (tunnels (tm n)) t0)
      /\ ((exists t0, has_tunnel id peer (tunnels (tm n)) t0 /\ have_tunnel id <> Some false
             /\ t = set_contact (k_now (sys n)) (nickname (global id)) t0)
          \/ fresh_tunnel (contact_ip peer) (listen_port t) (ifidx peer) id t)
      /\ (existed = false -> exists udp, k_used_ports (sys n) = inr udp /\ listen_port t ∉ udp)
  | Fail n' _ =>
      table_wf (wg_start_port s) (tunnels (tm n')) /\ (forall k, others n' k = others n k)
      /\ (forall t, ~ has_tunnel id peer (tunnels (tm n')) t)
  | Panic => False
  end.
Proof.
  intros Hwf others. unfold open_tunnel. unfold bind at 1. unfold read_tunnels.
  destruct (get_tunnel_mut _ _ _ _) as [[[k i] t]|] eqn:Eg.
  - pose proof (open_tunnel_existing s id peer n k i t Hwf Eg) as (H0 & H1 & H2 & H3).
    unfold bind at 1. unfold now. cbv beta iota. unfold bind at 1. unfold modify_tunnels at 1, modify at 1.
    set (t1 := set_contact _ _ t) in *. set (n1 := Build_Node _ (sys n)).
    destruct (default true (have_tunnel id)) eqn:Eh.
    + unfold ret. split_and!; [done..|by split; [exists t|]| |done].
      left. exists t. split_and!; [done| |done]. intros E. by rewrite E in Eh.
    + rewrite bind_assoc. unfold bind at 1.
      destruct (drop_tunnel_spec s id peer t1 n1 H1 (proj2 H2)) as (n2 & -> & Htm & Hwf2 & Hno & He).
      unfold bind. pose proof (add_new_opens s id peer n2 Hwf2 Hno) as Ha.
      destruct (add_new_tunnel_to_list _ _ _ _ _ n2) as [n3 t3|n3 e|]; [| |done].
      * destruct Ha as [(Hw3 & Hf & Hin & Ho) _]. apply fresh_place in Hf as Hp.
        split_and!; [done|by split| |by split; [exists t|]|by right|done].
        intros k'. unfold others. by rewrite Ho, He, H3.
      * rewrite Ha. split_and!; [done|intros k'; unfold others; by rewrite Ha, He, H3|].
        intros t' [Ht' Hp']. rewrite Forall_forall in Hno. by apply (Hno t').
  - assert (Hno : Forall (fun t => place t <> asked_place id peer)
      (tunnels_of (identity_key (global id)) (tunnels (tm n)))).
    { apply Forall_forall. intros t Ht Hp. by apply (has_tunnel_missing _ id peer _ t Hwf Eg). }
    unfold bind. pose proof (add_new_opens s id peer n Hwf Hno) as Ha.
    destruct (add_new_tunnel_to_list _ _ _ _ _ n) as [n3 t3|n3 e|]; [| |done].
    + destruct Ha as [(Hw3 & Hf & Hin & Ho) Hudp]. apply fresh_place in Hf as Hp.
      split_and!; [done|by split|done| |by right|done].
      split; [done|]. intros [t Ht]. by apply (has_tunnel_missing _ id peer _ t Hwf Eg) in Ht.
    + rewrite Ha. split_and!; [done|intros k; unfold others; by rewrite Ha|].
      intros t Ht. by apply (has_tunnel_missing _ id peer _ t Hwf Eg) in Ht.
Qed.

(** Answering a neighbour's hello never panics, keeps the table consistent and
    touches only the tunnel at that identity, interface and address, also when
    it fails, which leaves no tunnel there. A tunnel that exists and the neighbour still has is refreshed and
    returned with its port and payment state; otherwise a new one in good
    standing is opened, on a port nobody uses. The flag says whether there was
    one before. *)
Theorem open_tunnel_spec s id peer n :
  table_wf (wg_start_port s) (tunnels (tm n)) ->
  let others n := fun k => elsewhere (asked_place id peer) (tunnels_of k (tunnels (tm n))) in
  match open_tunnel cfg_test s id peer n with
  | Done n' (t, existed) =>
      table_wf (wg_start_port s) (tunnels (tm n')) /\ has_tunnel id peer (tunnels (tm n')) t
      /\ (forall k, others n' k = others n k)
      /\ (existed = true <-> exists t0, has_tunnel id peer (tunnels (tm n)) t0)
      /\ ((exists t0, has_tunnel id peer (tunnels (tm n)) t0 /\ have_tunnel id <> Some false
             /\ t = set_contact (k_now (sys n)) (nickname (global id)) t0)
          \/ fresh_tunnel (contact_ip peer) (listen_port t) (ifidx peer) id t)
      /\ (existed = false -> exists udp, k_used_ports (sys n) = inr udp /\ listen_port t ∉ udp)
  | Fail n' _ =>
      table_wf (wg_start_port s) (tunnels (tm n')) /\ (forall k, others n' k = others n k)
      /\ (forall t, ~ has_tunnel id peer (tunnels (tm n')) t)
  | Panic => False
  end.
Proof. apply open_tunnel_outcome. Qed.

(** * Garbage collection *)

(** The tunnels the walk over [entries] puts under the key [k]. *)
Definition selected (keep : Identity -> Tunnel -> bool) (k : id_key)
    (entries : list (Identity * list Tunnel)) : list Tunnel :=
  entries ≫= fun e => filter (fun t => keep e.1 t = true /\ identity_key (global (neigh_id t)) = k) e.2.

Lemma gc_list_good keep i l acc k :
  tunnels_of k (foldl (gc_tunnel keep i) acc l).1
  = tunnels_of k acc.1
    ++ filter (fun t => keep i t = true /\ identity_key (global (neigh_id t)) = k) l.
Proof.
  revert acc. induction l as [|t l IH]; intros acc; simpl; [by rewrite app_nil_r|].
  rewrite IH, filter_cons. unfold gc_tunnel.
  destruct (keep i t); simpl; rewrite ?tunnels_of_inserted;
    repeat case_decide; rewrite <- ?app_assoc; naive_solver.
Qed.

Lemma gc_good keep entries acc k :
  tunnels_of k (foldl (fun acc '(i, l) => foldl (gc_tunnel keep i) acc l) acc entries).1
  = tunnels_of k acc.1 ++ selected keep k entries.
Proof.
  revert acc. induction entries as [|[i l] entries IH]; intros acc; simpl; [by rewrite app_nil_r|].
  by rewrite IH, gc_list_good, <- app_assoc.
Qed.

Lemma gc_list_dropped keep i l acc :
  all_tunnels (foldl (gc_tunnel keep i) acc l).2
  ≡ₚ all_tunnels acc.2 ++ filter (fun t => keep i t = false) l.
Proof.
  revert acc. induction l as [|t l IH]; intros acc; simpl; [by rewrite app_nil_r|].
  rewrite IH, filter_cons. unfold gc_tunnel. destruct (keep i t); simpl; [done|].
  rewrite all_tunnels_inserted. apply Permutation_middle.
Qed.

Lemma gc_dropped keep entries acc :
  all_tunnels (foldl (fun acc '(i, l) => foldl (gc_tunnel keep i) acc l) acc entries).2
  ≡ₚ all_tunnels acc.2 ++ (entries ≫= fun e => filter (fun t => keep e.1 t = false) e.2).
Proof.
  revert acc. induction entries as [|[i l] entries IH]; intros acc; simpl; [by rewrite app_nil_r|].
  by rewrite IH, gc_list_dropped, <- app_assoc.
Qed.

Lemma hm_wf_gc keep entries acc :
  hm_wf acc.1 -> hm_wf (foldl (fun acc '(i, l) => foldl (gc_tunnel keep i) acc l) acc entries).1.
Proof.
  revert acc. induction entries as [|[i l] entries IH]; intros acc Hacc; simpl; [done|]. apply IH. clear IH.
  revert acc Hacc. induction l as [|t l IH]; intros acc Hacc; simpl; [done|]. apply IH.
  unfold gc_tunnel. destruct (keep i t); simpl; [by apply hm_wf_inserted|done].
Qed.

Lemma selected_cons keep k i l L :
  selected keep k ((i, l) :: L)
  = filter (fun t => keep i t = true /\ identity_key (global (neigh_id t)) = k) l ++ selected keep k L.
Proof. done. Qed.

(** The tunnels an entry contributes to a key: all kept ones to its own, none to
    another. *)
Lemma entry_selected keep (keeps : Tunnel -> bool) k k' i l start m :
  table_wf start m -> m !! k' = Some (i, l) ->
  (forall i t, identity_key i = identity_key (global (neigh_id t)) -> keep i t = keeps t) ->
  filter (fun t => keep i t = true /\ identity_key (global (neigh_id t)) = k) l
  = if decide (k' = k) then filter (fun t => keeps t = true) l else [].
Proof.
  intros Hwf He Hk. pose proof (wf_keys _ _ Hwf _ _ _ He : identity_key i = k') as Hi.
  pose proof (wf_filed _ _ Hwf k') as Hf. unfold tunnels_of in Hf. rewrite He, Forall_forall in Hf.
  simpl in Hf. case_decide as Hkk.
  - apply filter_iff_in. intros t Ht. specialize (Hf t Ht).
    rewrite (Hk i t) by congruence. split; [tauto|]. split; [done|congruence].
  - destruct (filter _ l) as [|t r] eqn:E; [done|]. exfalso.
    assert (Hin : t ∈ filter (fun t => keep i t = true /\ identity_key (global (neigh_id t)) = k) l)
      by (rewrite E; by left).
    apply list_elem_of_filter in Hin as [[_ Ht] Hin]. apply Hkk. by rewrite <- Ht, (Hf t Hin).
Qed.

(** With every tunnel filed under its own identity, the tunnels selected for a
    key are those of its entry. *)
Lemma selected_lookup keep (keeps : Tunnel -> bool) k start m :
  table_wf start m ->
  (forall i t, identity_key i = identity_key (global (neigh_id t)) -> keep i t = keeps t) ->
  selected keep k (hm_entries m) = filter (fun t => keeps t = true) (tunnels_of k m).
Proof.
  intros Hwf Hk.
  assert (Hl : forall L, Forall (fun e => m !! e.1 = Some e.2) L -> NoDup L.*1 ->
    selected keep k L.*2 = if decide (k ∈ L.*1)
                           then filter (fun t => keeps t = true) (tunnels_of k m) else []).
  { induction L as [|[k' [i l]] L IH]; intros HL Hnd; [done|].
    apply Forall_cons in HL as [He HL]. apply NoDup_cons in Hnd as [Hn Hnd]. simpl in He, Hn.
    change (((k', (i, l)) :: L).*2) with ((i, l) :: L.*2). rewrite selected_cons, (IH HL Hnd).
    rewrite (entry_selected keep keeps k k' i l start m Hwf He Hk).
    change (((k', (i, l)) :: L).*1) with (k' :: L.*1). destruct (decide (k' = k)) as [->|Hne].
    - rewrite decide_False, app_nil_r, decide_True by (done || by left).
      unfold tunnels_of. by rewrite He.
    - destruct (decide (k ∈ L.*1)); [by rewrite decide_True by (by right)|].
      rewrite decide_False; [done|]. by intros [->|]%elem_of_cons. }
  unfold hm_entries. rewrite Hl; [|apply Forall_forall; intros [? ?]; apply elem_of_map_to_list|apply NoDup_fst_map_to_list].
  case_decide as Hin; [done|]. unfold tunnels_of. destruct (m !! k) as [e|] eqn:E; [|done].
  exfalso. apply Hin, list_elem_of_fmap. exists (k, e). split; [done|]. by apply elem_of_map_to_list.
Qed.

(** ** What is kept *)

(** A babeld interface counts as down when the last entry of its name is. *)
Definition babel_down (interfaces : list Interface) (name : text) : bool :=
  match last (filter (fun i => if_name i = name) interfaces) with
  | Some i => negb (if_up i)
  | None => false
  end.

Lemma tunnel_up_spec interfaces name :
  tunnel_up (into_interfaces_hashmap interfaces) name = negb (babel_down interfaces name).
Proof.
  unfold tunnel_up, into_interfaces_hashmap, babel_down.
  induction interfaces as [|i l IH] using rev_ind; simpl; [by rewrite lookup_empty|].
  rewrite foldl_snoc, filter_app, filter_cons. rewrite lookup_insert. case_decide.
  - rewrite last_app. simpl. by destruct (if_up i).
  - by rewrite app_nil_r.
Qed.

(** The rule in one line: a tunnel stays while its clock readings make no sense,
    while it is young, and while handshakes are recent and babeld does not have
    it down.  When the neighbour was last heard of does not matter. *)
Definition gc_keeps (timeout handshake_timeout : Z) (interfaces : list Interface) (view : Tunnel -> gc_view)
    (t : Tunnel) : bool :=
  (now_for_created (view t) <? created t) || (now_for_contact (view t) <? last_contact t)
  || (now_for_created (view t) - created t <? timeout)
  || (check_handshake_time handshake_timeout (view t)
      && negb (babel_down interfaces (t_iface_name t))).

Lemma should_be_kept_spec timeout handshake_timeout interfaces view i t :
  identity_key i = identity_key (global (neigh_id t)) ->
  tunnel_should_be_kept i t handshake_timeout timeout (into_interfaces_hashmap interfaces) (view t)
  = gc_keeps timeout handshake_timeout interfaces view t.
Proof.
  intros Hi%identity_eqb_key. unfold tunnel_should_be_kept, gc_keeps, checked_duration_since.
  rewrite Hi, tunnel_up_spec. simpl.
  destruct (now_for_created (view t) <? created t), (now_for_contact (view t) <? last_contact t),
    (now_for_created (view t) - created t <? timeout), (timeout <? now_for_contact (view t) - last_contact t),
    (check_handshake_time _ _), (babel_down _ _); done.
Qed.

(** A tunnel that is not young and has no recent handshake is dropped, although a
    hello has just been heard and babeld has it up. *)
Lemma gc_drops_silent timeout handshake_timeout interfaces view t :
  created t <= now_for_created (view t) -> last_contact t <= now_for_contact (view t) ->
  timeout <= now_for_created (view t) - created t ->
  check_handshake_time handshake_timeout (view t) = false ->
  gc_keeps timeout handshake_timeout interfaces view t = false.
Proof.
  intros H1 H2 H3 H4. unfold gc_keeps. rewrite H4.
  by rewrite !(proj2 (Z.ltb_ge _ _)) by done.
Qed.

(** The effect of flushing a tunnel on the world. *)
Definition flush (w : W) (t : Tunnel) : W :=
  match k_babel (unmonitor_command (t_iface_name t)) w with
  | (w1, inr _) => (k_del_interface (t_iface_name t) w1).1
  | (w1, inl _) => w1
  end.

Lemma unmonitor_tunnels_spec l n :
  unmonitor_tunnels l n = Done (Build_Node (tm n) (foldl flush (sys n) l)) tt.
Proof.
  revert n. induction l as [|t l IH]; intros [x w]; simpl; [done|].
  unfold bind, ignore_err, unmonitor, bind, babel, kcall, flush. simpl.
  destruct (k_babel _ w) as [w1 [e|u]]; simpl; [apply IH|].
  destruct (k_del_interface _ w1) as [w2 [e|v]]; simpl; apply IH.
Qed.

Lemma dropped_lookup keep (keeps : Tunnel -> bool) start m :
  table_wf start m ->
  (forall i t, identity_key i = identity_key (global (neigh_id t)) -> keep i t = keeps t) ->
  (hm_entries m ≫= fun e => filter (fun t => keep e.1 t = false) e.2)
  = filter (fun t => keeps t = false) (all_tunnels m).
Proof.
  intros Hwf Hk. unfold all_tunnels, hm_entries.
  assert (HL : Forall (fun e => m !! e.1 = Some e.2) (map_to_list m)).
  { apply Forall_forall. intros [? ?]. apply elem_of_map_to_list. }
  induction HL as [|[k [i l]] L He _ IH]; [done|]. simpl. rewrite filter_app. f_equal; [|exact IH].
  apply filter_iff_in. intros t Ht. rewrite (Hk i t); [done|].
  pose proof (wf_keys _ _ Hwf _ _ _ He : identity_key i = k) as Hi.
  pose proof (wf_filed _ _ Hwf k) as Hf. unfold tunnels_of in Hf. simpl in He. rewrite He, Forall_forall in Hf.
  by rewrite Hi, (Hf t Ht).
Qed.

Lemma gc_outcome start timeout handshake_timeout interfaces view n :
  table_wf start (tunnels (tm n)) ->
  let keeps := gc_keeps timeout handshake_timeout interfaces view in
  exists n' dropped,
    tunnel_gc timeout handshake_timeout interfaces view n = Done n' tt
    /\ table_wf start (tunnels (tm n'))
    /\ (forall k, tunnels_of k (tunnels (tm n')) = filter (fun t => keeps t = true) (tunnels_of k (tunnels (tm n))))
    /\ dropped ≡ₚ filter (fun t => keeps t = false) (all_tunnels (tunnels (tm n)))
    /\ sys n' = foldl flush (sys n) dropped
    /\ shaper (tm n') = shaper (tm n).
Proof.
  intros Hwf keeps. unfold tunnel_gc, read_tunnels. unfold bind at 1. cbv beta iota zeta.
  set (keep i t := tunnel_should_be_kept i t handshake_timeout timeout
    (into_interfaces_hashmap interfaces) (view t)).
  assert (Hk : forall i t, identity_key i = identity_key (global (neigh_id t)) -> keep i t = keeps t)
    by (intros; by apply should_be_kept_spec).
  pose proof (gc_good keep (hm_entries (tunnels (tm n))) (∅, ∅)) as Hgood.
  pose proof (gc_dropped keep (hm_entries (tunnels (tm n))) (∅, ∅)) as Hdropped.
  pose proof (hm_wf_gc keep (hm_entries (tunnels (tm n))) (∅, ∅) hm_wf_empty) as Hkeys.
  fold (gc_split keep (tunnels (tm n))) in *. destruct (gc_split _ _) as [good to_delete]. simpl in *.
  unfold bind, modify_tunnels, modify. rewrite unmonitor_tunnels_spec. simpl.
  assert (Hg : forall k, tunnels_of k good = filter (fun t => keeps t = true) (tunnels_of k (tunnels (tm n)))).
  { intros k. rewrite Hgood. unfold tunnels_of at 1. rewrite lookup_empty. by eapply selected_lookup. }
  eexists _, _. split_and!; [done| |done| |done|done]; simpl.
  - apply (table_wf_part start (tunnels (tm n))); [done..|]. intros k. rewrite Hg.
    apply fmap_submseteq, sublist_submseteq, sublist_filter.
  - by rewrite Hdropped, (dropped_lookup keep keeps start).
Qed.

(** Garbage collection never fails. Of every neighbour's tunnels it keeps
    exactly those the rule keeps, in their order, and flushes exactly the others
    from babeld and the kernel, each once; the table stays consistent. *)
Theorem gc_exact start timeout handshake_timeout interfaces view n :
  table_wf start (tunnels (tm n)) ->
  let keeps := gc_keeps timeout handshake_timeout interfaces view in
  exists n' dropped,
    tunnel_gc timeout handshake_timeout interfaces view n = Done n' tt
    /\ table_wf start (tunnels (tm n'))
    /\ (forall k, tunnels_of k (tunnels (tm n')) = filter (fun t => keeps t = true) (tunnels_of k (tunnels (tm n))))
    /\ dropped ≡ₚ filter (fun t => keeps t = false) (all_tunnels (tunnels (tm n)))
    /\ sys n' = foldl flush (sys n) dropped
    /\ shaper (tm n') = shaper (tm n).
Proof. apply gc_outcome. Qed.
End handlers.

(** * A kernel for demonstrations *)

Record demo_sys := { d_links : list text; d_limited : gset text; d_commands : list text; d_time : Z }.

(** It does what it is asked, has port 60000 in use and logs what babeld is told;
    opening a tunnel to the address [V4 0] fails. *)
Definition demo_kernel : Kernel demo_sys := {|
  k_now w := d_time w;
  k_used_ports w := inr {[60000]};
  k_get_interfaces w :=
    if Z.of_nat (length (d_links w)) <? 2 ^ 31 - 8 then inr (d_links w) else inl (RuntimeError "links");
  k_create_blank_wg_interface name w :=
    if decide (name ∈ d_links w) then (w, inl WgExistsError)
    else ({| d_links := name :: d_links w; d_limited := d_limited w; d_commands := d_commands w;
             d_time := d_time w |}, inr tt);
  k_open_tunnel a w :=
    (w, if decide (fst (ta_endpoint a) = V4 0) then inl (RuntimeError "endpoint") else inr tt);
  k_del_interface name w :=
    ({| d_links := filter (fun l => l <> name) (d_links w); d_limited := d_limited w;
        d_commands := d_commands w; d_time := d_time w |}, inr tt);
  k_set_codel_shaping i l w :=
    ({| d_links := d_links w; d_limited := d_limited w ∖ {[i]}; d_commands := d_commands w;
        d_time := d_time w |}, inr tt);
  k_has_limit i w := (w, inr (bool_decide (i ∈ d_limited w)));
  k_set_classless_limit i b w :=
    ({| d_links := d_links w; d_limited := {[i]} ∪ d_limited w; d_commands := d_commands w;
        d_time := d_time w |}, inr tt);
  k_babel c w :=
    ({| d_links := d_links w; d_limited := d_limited w; d_commands := d_commands w ++ [c];
        d_time := d_time w |}, inr tt);
|}.
#[export] Existing Instance demo_kernel.

#[export] Instance demo_kernel_sane : KernelSane demo_kernel.
Proof.
  intros w links. simpl. destruct (Z.ltb_spec (Z.of_nat (length (d_links w))) (2 ^ 31 - 8)) as [H|H]; [|done].
  intros [= <-]. exact H.
Qed.

Definition demo_tm_settings : tm_settings := {|
  ts_mesh_ip := Some (V6 1); ts_mesh_ip_v2 := None; ts_external_nic := None;
  wg_private_key_path := lit "/tmp/key"; wg_start_port := 60000; free_tier_throughput := 1000;
  shaper_settings := {| shaper_enabled := true; max_speed := 10000; min_speed := 50 |} |}.

Definition demo_world_sys (time : Z) : demo_sys :=
  {| d_links := [lit "lo"; lit "wg0"]; d_limited := ∅; d_commands := []; d_time := time |}.
Definition demo_start : Node demo_sys := Build_Node TunnelManager_new (demo_world_sys 0).
Definition demo_local_id : LocalIdentity := {|
  wg_port := 60001; have_tunnel := None;
  global := {| mesh_ip := V6 4; eth_address := 2; wg_public_key := 6; nickname := None |} |}.
Definition demo_peer : Peer := {| ifidx := 3; contact_ip := V6 99 |}.

Definition opened_as (existed : bool) (r : outcome (Node demo_sys) RitaCommonError (Tunnel * bool)) : bool :=
  match r with Done _ (_, b) => Bool.eqb b existed | _ => false end.

Lemma demo_opened : opened_as false (open_tunnel true demo_tm_settings demo_local_id demo_peer demo_start) = true.
Proof. vm_compute. reflexivity. Qed.

Lemma open_tunnel_spec_witness :
  exists n' t, open_tunnel true demo_tm_settings demo_local_id demo_peer demo_start = Done n' (t, false)
    /\ has_tunnel demo_local_id demo_peer (tunnels (tm n')) t /\ listen_port t <> 60000.
Proof.
  pose proof (open_tunnel_spec true demo_tm_settings demo_local_id demo_peer demo_start (table_wf_empty _)) as H.
  pose proof demo_opened as Hd.
  destruct (open_tunnel true demo_tm_settings demo_local_id demo_peer demo_start) as [n' [t []]|n' e|]; try done.
  destruct H as (_ & Ht & _ & _ & _ & Hudp). exists n', t. split_and!; [done..|].
  destruct (Hudp eq_refl) as (udp & Hu & Hp). intros E. injection Hu as <-. apply Hp. rewrite E.
  by apply elem_of_singleton.
Defined.

(** The node after that hello. *)
Definition demo_node : Node demo_sys :=
  default demo_start
    (outcome_state (open_tunnel true demo_tm_settings demo_local_id demo_peer demo_start)).

Lemma demo_node_wf : table_wf 60000 (tunnels (tm demo_node)).
Proof.
  pose proof (open_tunnel_outcome true demo_tm_settings demo_local_id demo_peer demo_start (table_wf_empty _)) as H.
  unfold demo_node. destruct (open_tunnel _ _ _ _ demo_start) as [n' [t ex]|n' e|]; simpl; [apply H|apply H|done].
Qed.

(** A quarter of an hour later, no handshake has been seen. *)
Definition demo_view (t : Tunnel) : gc_view :=
  {| now_for_created := secs 901; now_for_contact := secs 901; handshakes := Some [Some (secs 901)] |}.

Lemma gc_exact_witness :
  exists n' dropped,
    tunnel_gc TUNNEL_TIMEOUT TUNNEL_HANDSHAKE_TIMEOUT [] demo_view demo_node = Done n' tt
    /\ dropped ≡ₚ filter (fun t => gc_keeps TUNNEL_TIMEOUT TUNNEL_HANDSHAKE_TIMEOUT [] demo_view t = false)
                   (all_tunnels (tunnels (tm demo_node)))
    /\ length (filter (fun t => gc_keeps TUNNEL_TIMEOUT TUNNEL_HANDSHAKE_TIMEOUT [] demo_view t = false)
                   (all_tunnels (tunnels (tm demo_node)))) = 1%nat.
Proof.
  destruct (gc_exact 60000 TUNNEL_TIMEOUT TUNNEL_HANDSHAKE_TIMEOUT [] demo_view demo_node demo_node_wf)
    as (n' & dropped & Hr & _ & _ & Hd & _). exists n', dropped. split_and!; [done..|].
  vm_compute. reflexivity.
Defined.
