(* ===== verification/TunnelEnforcement.v ===== *)
(** Enforcement of the debt keeper's verdicts by the tunnel manager: the payment
    state of every tunnel after a round, and the limits of the kernel. *)
From S2P Require Import Prelude Types Oracle TxFee DebtKeeper DebtKeeperSpec DebtKeeperSafety DebtRound.
From S2P Require Import Text Babel TrafficWatcher TunnelManager TunnelTable TunnelManagerSpec.

(** What one verdict does to a tunnel of the neighbour with key [k]. *)
Definition apply_verdict (k : id_key) (t : Tunnel) (c : TunnelChange) : Tunnel :=
  if decide (identity_key (tc_identity c) = k) then change_payment_state (tc_action c) t else t.

Definition verdict_state (a : TunnelAction) : PaymentState :=
  match a with PaymentOverdue => Overdue | PaidOnTime => Paid end.

Lemma change_payment_state_state a t : payment_state (change_payment_state a t) = verdict_state a.
Proof. unfold change_payment_state. destruct a, (payment_state t) eqn:E; done. Qed.
Lemma change_payment_state_core a t : core (change_payment_state a t) = core t.
Proof. unfold change_payment_state. by destruct a, (payment_state t). Qed.
Lemma change_payment_state_iface a t : t_iface_name (change_payment_state a t) = t_iface_name t.
Proof. unfold change_payment_state. by destruct a, (payment_state t). Qed.
Lemma change_payment_state_id a t : neigh_id (change_payment_state a t) = neigh_id t.
Proof. unfold change_payment_state. by destruct a, (payment_state t). Qed.

Section enforcement.
Context {W : Type} `{K : Kernel W} `{P : Profile}.

Definition verdict_table (c : TunnelChange) (m : Tunnels) : Tunnels :=
  match hm_get (tc_identity c) m with
  | Some l => hm_insert (tc_identity c) (change_payment_state (tc_action c) <$> l) m
  | None => m
  end.

Lemma tunnels_of_verdict c k m :
  tunnels_of k (verdict_table c m) = (fun t => apply_verdict k t c) <$> tunnels_of k m.
Proof.
  unfold verdict_table, hm_get, hm_insert, apply_verdict, key, Identity_keyed.
  destruct (m !! identity_key (tc_identity c)) as [[i l]|] eqn:E; simpl.
  - rewrite tunnels_of_insert. case_decide; [subst; unfold tunnels_of; by rewrite E|].
    symmetry. apply list_fmap_id.
  - case_decide; [subst; unfold tunnels_of; by rewrite E|]. symmetry. apply list_fmap_id.
Qed.

Lemma hm_wf_verdict c m : hm_wf m -> hm_wf (verdict_table c m).
Proof. unfold verdict_table. intros. case_match; [by apply hm_wf_insert|done]. Qed.

(** A verdict changes the table as described, whatever the kernel answers. *)
Lemma payment_state_change_spec s o c n :
  exists w, tunnel_payment_state_change s o c n
    = Done (Build_Node (set_tunnels (verdict_table c (tunnels (tm n))) (tm n)) w) tt.
Proof.
  unfold tunnel_payment_state_change, read_tunnels, verdict_table. unfold bind at 1. cbv beta iota.
  destruct (hm_get (tc_identity c) (tunnels (tm n))) as [l|].
  - unfold bind, modify_tunnels, modify.
    set (n1 := Build_Node _ _). set (l1 := _ <$> l).
    pose proof (world_ignore _ (world_bw s o l1) n1) as H.
    destruct (ignore_err _ n1) as [n2 []|n2 e|] eqn:E; [| |done].
    + exists (sys n2). destruct n2 as [x w]. simpl in *. by rewrite H.
    + unfold ignore_err in E. by destruct (tunnel_bw_limit_update _ _ _ n1).
  - exists (sys n). by destruct n as [[] ?].
Qed.

Lemma state_change_spec s o msg n :
  exists w m, tm_tunnel_state_change s o msg n = Done (Build_Node (set_tunnels m (tm n)) w) tt
    /\ m = foldl (fun m c => verdict_table c m) (tunnels (tm n)) msg.
Proof.
  revert n. induction msg as [|c rest IH]; intros n; simpl.
  - exists (sys n), (tunnels (tm n)). by destruct n as [[] ?].
  - unfold bind. destruct (payment_state_change_spec s o c n) as [w ->].
    destruct (IH (Build_Node (set_tunnels (verdict_table c (tunnels (tm n))) (tm n)) w)) as (w' & m & -> & ->).
    by eexists _, _.
Qed.

Lemma tunnels_of_verdicts msg k m :
  tunnels_of k (foldl (fun m c => verdict_table c m) m msg)
  = (fun t => foldl (apply_verdict k) t msg) <$> tunnels_of k m.
Proof.
  revert m. induction msg as [|c rest IH]; intros m; simpl; [by rewrite list_fmap_id|].
  by rewrite IH, tunnels_of_verdict, <- list_fmap_compose.
Qed.

Lemma no_verdict k t msg :
  k ∉ (identity_key ∘ tc_identity <$> msg) -> foldl (apply_verdict k) t msg = t.
Proof.
  induction msg as [|d rest IH]; [done|]. rewrite fmap_cons, not_elem_of_cons. intros [Hne Hn].
  simpl. unfold apply_verdict at 2. rewrite decide_False by (intros E; by apply Hne). by apply IH.
Qed.

(** With one verdict per neighbour, the verdict decides. *)
Lemma one_verdict k t msg c :
  NoDup (identity_key ∘ tc_identity <$> msg) -> c ∈ msg -> identity_key (tc_identity c) = k ->
  foldl (apply_verdict k) t msg = change_payment_state (tc_action c) t.
Proof.
  revert t. induction msg as [|d rest IH]; intros t Hnd Hc Hk; [by apply not_elem_of_nil in Hc|].
  rewrite fmap_cons in Hnd. apply NoDup_cons in Hnd as [Hn Hnd]. simpl in *.
  apply elem_of_cons in Hc as [<-|Hc].
  - unfold apply_verdict at 2. rewrite decide_True by done. apply no_verdict. by rewrite <- Hk.
  - unfold apply_verdict at 2. rewrite decide_False; [by apply IH|].
    intros E. apply Hn, list_elem_of_fmap. exists c. simpl. by rewrite Hk, E.
Qed.

(** * The limits of the kernel *)

(** What the tunnel manager needs of the code that sets limits, for the rate
    [bw] and the interfaces that are [live]: [limited] are those with a limit;
    looking does not change them, setting one succeeds, and removing one either
    succeeds or changes nothing, the latter only where limits cannot be lifted
    ([~ lifts]). None of it takes time. *)
Class LimitLaws (bw : Z) (live : text -> Prop) (limited : W -> gset text) (lifts : Prop) : Prop := {
  has_limit_law i w : live i -> exists w', k_has_limit i w = (w', inr (bool_decide (i ∈ limited w)))
    /\ limited w' = limited w /\ k_now w' = k_now w;
  set_limit_law i w : live i -> exists w', k_set_classless_limit i bw w = (w', inr tt)
    /\ limited w' = {[i]} ∪ limited w /\ k_now w' = k_now w;
  unset_limit_law i w : live i -> i ∈ limited w -> exists w' r, k_set_codel_shaping i None w = (w', r) /\ k_now w' = k_now w
    /\ ((r = inr tt /\ limited w' = limited w ∖ {[i]}) \/ (~ lifts /\ (exists e, r = inl e) /\ limited w' = limited w));
}.

Context (s : tm_settings) (live : text -> Prop) (limited : W -> gset text) (lifts : Prop).
Context `{LL : !LimitLaws (free_tier_throughput s) live limited lifts}.

(** The limits [w'] after an update of tunnels in the state [st] on the
    interfaces [l], from the limits [w]. *)
Definition limits_moved (st : PaymentState) (l : list text) (w w' : W) : Prop :=
  k_now w' = k_now w
  /\ (forall i, i ∉ l -> (i ∈ limited w' <-> i ∈ limited w))
  /\ (st = Overdue -> forall i, i ∈ l -> i ∈ limited w')
  /\ (st = Paid -> lifts -> forall i, i ∈ l -> i ∉ limited w').

Lemma bw_update_step o t l n :
  live (t_iface_name t) -> potential_payment_issues_detected (k_now (sys n)) o = false ->
  exists w1, limits_moved (payment_state t) [t_iface_name t] (sys n) w1
    /\ ((tunnel_bw_limit_update s o (t :: l) n = tunnel_bw_limit_update s o l (Build_Node (tm n) w1))
        \/ (~ lifts /\ payment_state t = Paid
            /\ exists e, tunnel_bw_limit_update s o (t :: l) n = Fail (Build_Node (tm n) w1) e)).
Proof.
  intros Hlive Ho. simpl. unfold bind, kcall, now.
  destruct (has_limit_law (t_iface_name t) (sys n) Hlive) as (w0 & E0 & Hl0 & Hn0). rewrite E0. simpl. rewrite Hn0, Ho.
  destruct (payment_state t) eqn:Et, (decide (t_iface_name t ∈ limited (sys n))) as [Hin|Hin];
    rewrite ?(bool_decide_true (_ ∈ _)), ?(bool_decide_false (_ ∈ _)) by done; simpl.
  - destruct (unset_limit_law (t_iface_name t) w0 Hlive) as (w' & r & -> & Hnow & [(-> & Hl)|(Hno & [e ->] & Hl)]);
      [by rewrite Hl0| |]; exists w'.
    + split; [|by left]. split_and!; [congruence| |done|]; [intros i|intros _ _ i]; rewrite Hl, Hl0; set_solver.
    + split; [|right; eauto]. split_and!; [congruence| |done|done]. intros i. by rewrite Hl, Hl0.
  - exists w0. split; [|by left]. split_and!; [done| |done|]; [intros i|intros _ _ i]; rewrite Hl0; set_solver.
  - exists w0. split; [|by left]. split_and!; [done| | |done]; [intros i|intros _ i]; rewrite Hl0; set_solver.
  - destruct (set_limit_law (t_iface_name t) w0 Hlive) as (w' & -> & Hl & Hnow). exists w'.
    split; [|by left]. split_and!; [congruence| | |done]; [intros i|intros _ i]; rewrite Hl, Hl0; set_solver.
Qed.

(** The limits after the update of a list of tunnels in one payment state, whose
    error the caller ignores. *)
Lemma bw_update_spec o st l n :
  Forall (fun t => payment_state t = st /\ live (t_iface_name t)) l ->
  potential_payment_issues_detected (k_now (sys n)) o = false ->
  exists w, ignore_err (tunnel_bw_limit_update s o l) n = Done (Build_Node (tm n) w) tt
    /\ limits_moved st (t_iface_name <$> l) (sys n) w.
Proof.
  intros Hl. revert n. induction Hl as [|t l [Ht Hlive] Hl IH]; intros n Ho.
  { exists (sys n). destruct n. split; [done|]. split_and!; [done|done|intros _ i Hi|intros _ _ i Hi]; set_solver. }
  destruct (bw_update_step o t l n Hlive Ho) as (w1 & (Hnow & Hout & Hov & Hpd) & [E|(Hno & Hp & e & E)]);
    unfold ignore_err; rewrite E.
  - destruct (IH (Build_Node (tm n) w1)) as (w & E2 & Hnow2 & Hout2 & Hov2 & Hpd2); [simpl; by rewrite Hnow|].
    unfold ignore_err in E2. rewrite E2. exists w. split; [done|]. rewrite Ht in Hov, Hpd. cbn [sys] in *.
    rewrite fmap_cons. split_and!; [congruence| | |].
    + intros i [Hi1 Hi2]%not_elem_of_cons. rewrite Hout2, Hout by set_solver. done.
    + intros Hst i. destruct (decide (i ∈ t_iface_name <$> l)) as [Hi|Hi]; [by intros; apply Hov2|].
      intros [->|?]%elem_of_cons; [|done]. rewrite Hout2 by done. apply Hov; [done|by left].
    + intros Hst Hlift i. destruct (decide (i ∈ t_iface_name <$> l)) as [Hi|Hi]; [by intros; apply Hpd2|].
      intros [->|?]%elem_of_cons; [|done]. rewrite Hout2 by done. apply Hpd; [done|done|by left].
  - exists w1. split; [done|]. split_and!; [done| |congruence|done].
    intros i Hi. apply Hout. set_solver.
Qed.

Definition all_live (m : Tunnels) : Prop := forall k t, t ∈ tunnels_of k m -> live (t_iface_name t).

(** One verdict: the table, and the limits of the neighbour's interfaces. *)
Lemma verdict_limits o c n :
  all_live (tunnels (tm n)) -> potential_payment_issues_detected (k_now (sys n)) o = false ->
  exists w, tunnel_payment_state_change s o c n
      = Done (Build_Node (set_tunnels (verdict_table c (tunnels (tm n))) (tm n)) w) tt
    /\ limits_moved (verdict_state (tc_action c))
         (t_iface_name <$> tunnels_of (identity_key (tc_identity c)) (tunnels (tm n))) (sys n) w.
Proof.
  intros Hall Ho. unfold tunnel_payment_state_change, read_tunnels, verdict_table. unfold bind at 1. cbv beta iota.
  specialize (Hall (identity_key (tc_identity c))). revert Hall. unfold tunnels_of, hm_get, key, Identity_keyed.
  destruct (tunnels (tm n) !! identity_key (tc_identity c)) as [[i l]|]; simpl; intros Hall.
  - unfold bind, modify_tunnels, modify.
    match goal with |- context [ignore_err (tunnel_bw_limit_update s o ?l') ?n'] =>
      destruct (bw_update_spec o (verdict_state (tc_action c)) l' n') as (w & -> & Hm) end; [|done|].
    { apply Forall_fmap, Forall_forall. intros t Ht. simpl. rewrite change_payment_state_state, change_payment_state_iface. auto. }
    exists w. split; [done|]. rewrite <- list_fmap_compose in Hm.
    rewrite (list_fmap_ext _ t_iface_name l) in Hm; [exact Hm|]. intros j t _. apply change_payment_state_iface.
  - exists (sys n). split; [by destruct n as [[] ?]|]. split_and!; [done|done|intros _ j Hj|intros _ _ j Hj]; set_solver.
Qed.

(** An interface belongs to the tunnels of one neighbour. *)
Definition one_owner (m : Tunnels) : Prop :=
  forall k1 k2 t1 t2, t1 ∈ tunnels_of k1 m -> t2 ∈ tunnels_of k2 m ->
  t_iface_name t1 = t_iface_name t2 -> k1 = k2.

(** The limits of a neighbour's interfaces are those of its tunnels' states. *)
Definition limits_match (k : id_key) (m : Tunnels) (w : W) : Prop :=
  forall t, t ∈ tunnels_of k m ->
    (payment_state t = Overdue -> t_iface_name t ∈ limited w)
    /\ (payment_state t = Paid -> lifts -> t_iface_name t ∉ limited w).

Lemma apply_verdict_iface k t c : t_iface_name (apply_verdict k t c) = t_iface_name t.
Proof. unfold apply_verdict. case_decide; [apply change_payment_state_iface|done]. Qed.

Lemma one_owner_verdict c m : one_owner m -> one_owner (verdict_table c m).
Proof.
  intros Hm k1 k2 t1 t2. rewrite !tunnels_of_verdict.
  intros (u1 & -> & H1)%list_elem_of_fmap (u2 & -> & H2)%list_elem_of_fmap.
  rewrite !apply_verdict_iface. by apply Hm.
Qed.

Lemma all_live_verdict c m : all_live m -> all_live (verdict_table c m).
Proof.
  intros Hm k t. rewrite tunnels_of_verdict. intros (u & -> & Hu)%list_elem_of_fmap.
  rewrite apply_verdict_iface. by apply (Hm k).
Qed.

Lemma limits_match_verdict o c n k :
  one_owner (tunnels (tm n)) -> all_live (tunnels (tm n)) -> potential_payment_issues_detected (k_now (sys n)) o = false ->
  exists w, tunnel_payment_state_change s o c n
      = Done (Build_Node (set_tunnels (verdict_table c (tunnels (tm n))) (tm n)) w) tt
    /\ k_now w = k_now (sys n)
    /\ (identity_key (tc_identity c) = k \/ limits_match k (tunnels (tm n)) (sys n) ->
        limits_match k (verdict_table c (tunnels (tm n))) w).
Proof.
  intros Hone Hall Ho. destruct (verdict_limits o c n Hall Ho) as (w & -> & Hnow & Hout & Hov & Hpd).
  exists w. split_and!; [done..|]. intros Hk t.
  rewrite tunnels_of_verdict. intros (u & -> & Hu)%list_elem_of_fmap.
  rewrite apply_verdict_iface. unfold apply_verdict.
  destruct (decide (identity_key (tc_identity c) = k)) as [<-|Hne].
  - assert (t_iface_name u ∈ t_iface_name <$> tunnels_of (identity_key (tc_identity c)) (tunnels (tm n)))
      by (by apply list_elem_of_fmap_2). rewrite change_payment_state_state. auto.
  - rewrite Hout; [destruct Hk as [|Hk]; [done|by apply Hk]|].
    intros (u' & Hi & Hu')%list_elem_of_fmap. by apply Hne, (Hone _ _ u' u Hu' Hu).
Qed.

Lemma limits_match_verdicts o msg n k :
  one_owner (tunnels (tm n)) -> all_live (tunnels (tm n)) -> potential_payment_issues_detected (k_now (sys n)) o = false ->
  k ∈ (identity_key ∘ tc_identity <$> msg) \/ limits_match k (tunnels (tm n)) (sys n) ->
  exists w, tm_tunnel_state_change s o msg n
      = Done (Build_Node (set_tunnels (foldl (fun m c => verdict_table c m) (tunnels (tm n)) msg) (tm n)) w) tt
    /\ limits_match k (foldl (fun m c => verdict_table c m) (tunnels (tm n)) msg) w.
Proof.
  revert n. induction msg as [|c rest IH]; intros n Hone Hall Ho Hk; simpl.
  { exists (sys n). destruct Hk as [Hk|Hk]; [by apply not_elem_of_nil in Hk|].
    by split; [destruct n as [[] ?]|]. }
  destruct (limits_match_verdict o c n k Hone Hall Ho) as (w & E & Hnow & Hw). unfold bind. rewrite E.
  destruct (IH (Build_Node (set_tunnels (verdict_table c (tunnels (tm n))) (tm n)) w)) as (w' & -> & Hm).
  - by apply one_owner_verdict.
  - by apply all_live_verdict.
  - simpl. by rewrite Hnow.
  - destruct Hk as [Hk|Hk]; [|right; apply Hw; by right].
    apply elem_of_cons in Hk as [Hk|Hk]; [right; apply Hw; by left|by left].
  - by exists w'.
Qed.
End enforcement.

(** The payment states a round leads to, whatever the kernel answers. *)
Lemma verdicts_recorded `{N : Num256} `{P : Profile} {W : Type} `{K : Kernel W}
    netns dflt e order dw dw' changes payments s o (n : Node W) :
  send_debt_update netns dflt e order dw = Done dw' (changes, payments) -> NoDup (key <$> order) ->
  exists n', tm_tunnel_state_change s o changes n = Done n' tt
    /\ (forall c t, c ∈ changes -> t ∈ tunnels_of (identity_key (tc_identity c)) (tunnels (tm n')) ->
         payment_state t = verdict_state (tc_action c))
    /\ (forall k, k ∉ (identity_key ∘ tc_identity <$> changes) ->
         tunnels_of k (tunnels (tm n')) = tunnels_of k (tunnels (tm n))).
Proof.
  intros Hr Hnd. apply send_debt_update_split in Hr as [Hp _].
  assert (Hkeys : NoDup (identity_key ∘ tc_identity <$> changes)).
  { rewrite Hp, fmap_app in Hnd. apply NoDup_app in Hnd as [Hnd _]. by rewrite <- list_fmap_compose in Hnd. }
  destruct (state_change_spec s o changes n) as (w & m & E & ->). rewrite E. eexists.
  split_and!; [done| |]; simpl.
  - intros c t Hc Ht. rewrite tunnels_of_verdicts in Ht. apply list_elem_of_fmap in Ht as (u & -> & _).
    rewrite (one_verdict _ u changes c) by done. apply change_payment_state_state.
  - intros k Hk. rewrite tunnels_of_verdicts.
    rewrite (list_fmap_ext _ id); [by rewrite list_fmap_id|]. intros i t _. by apply no_verdict.
Qed.

(** With code that sets limits as [LimitLaws] says, the limits follow. *)
Lemma verdicts_limited `{N : Num256} `{P : Profile} {W : Type} `{K : Kernel W} (live : text -> Prop)
    (limited : W -> gset text) (lifts : Prop) netns dflt e order dw dw' changes payments s
    `{LL : !LimitLaws (free_tier_throughput s) live limited lifts} o (n : Node W) :
  send_debt_update netns dflt e order dw = Done dw' (changes, payments) -> NoDup (key <$> order) ->
  one_owner (tunnels (tm n)) -> all_live live (tunnels (tm n)) ->
  potential_payment_issues_detected (k_now (sys n)) o = false ->
  exists n', tm_tunnel_state_change s o changes n = Done n' tt
    /\ (forall c t, c ∈ changes -> t ∈ tunnels_of (identity_key (tc_identity c)) (tunnels (tm n')) ->
         payment_state t = verdict_state (tc_action c)
         /\ (tc_action c = PaymentOverdue -> t_iface_name t ∈ limited (sys n'))
         /\ (tc_action c = PaidOnTime -> lifts -> t_iface_name t ∉ limited (sys n')))
    /\ (forall k, k ∉ (identity_key ∘ tc_identity <$> changes) ->
         tunnels_of k (tunnels (tm n')) = tunnels_of k (tunnels (tm n))).
Proof.
  intros Hr Hnd Hone Hall Ho.
  destruct (verdicts_recorded netns dflt e order dw dw' changes payments s o n Hr Hnd) as (n' & E & Hst & Hrest).
  exists n'. split_and!; [done| |done]. intros c t Hc Ht. pose proof (Hst c t Hc Ht) as Hs. split; [done|].
  destruct (limits_match_verdicts s live limited lifts o changes n (identity_key (tc_identity c)) Hone Hall Ho) as (w' & E' & Hm).
  { left. by apply (list_elem_of_fmap_2 (identity_key ∘ tc_identity)). }
  rewrite E in E'. injection E' as ->. destruct (Hm t Ht) as [H1 H2]. rewrite Hs in H1, H2.
  split; intros Hact; rewrite Hact in *; auto.
Qed.

(** The neighbour of [demo_local_id] owes a lot, so the round suspends it. *)
Definition demo_debtor_world : World := {|
  DEBT_DATA := <[0 := (demo_run true [(1, OpTraffic demo_neighbour (-1000))]).1]> ∅;
  AMOUNT_OWED := ∅ |}.
Definition demo_round :=
  @send_debt_update Num256_panicking debug_profile 0 None (demo_env (Some (secs 999))) [demo_neighbour]
    demo_debtor_world.

Lemma demo_round_suspends :
  match demo_round with
  | Done _ (changes, payments) => changes = [{| tc_identity := demo_neighbour; tc_action := PaymentOverdue |}]
  | _ => False
  end.
Proof. vm_compute. reflexivity. Qed.

Lemma demo_one_owner : one_owner (tunnels (tm demo_node)).
Proof.
  assert (Hk : forall k t, t ∈ tunnels_of k (tunnels (tm demo_node)) -> k = (V6 4, 2, 6)).
  { intros k t Ht. pose proof (wf_filed _ _ demo_node_wf k) as Hf. rewrite Forall_forall in Hf.
    rewrite <- (Hf t Ht). assert (Hall : forall u, u ∈ all_tunnels (tunnels (tm demo_node)) ->
      identity_key (global (neigh_id u)) = (V6 4, 2, 6)).
    { apply Forall_forall. vm_compute. by repeat constructor. }
    apply Hall, elem_of_all_tunnels. by exists k. }
  intros k1 k2 t1 t2 H1 H2 _. by rewrite (Hk _ _ H1), (Hk _ _ H2).
Qed.

Lemma demo_has_tunnel : length (tunnels_of (identity_key demo_neighbour) (tunnels (tm demo_node))) = 1%nat.
Proof. vm_compute. reflexivity. Qed.
