(* ===== verification/TunnelSafety.v ===== *)
(** The tunnel manager over any sequence of events: the table stays consistent,
    speeds stay within the settings, nothing panics; and a failed attempt to open
    a tunnel leaves no interface behind. *)
From S2P Require Import Prelude Types Oracle DebtKeeper Text Babel TrafficWatcher TunnelManager TunnelTable.
From S2P Require Import TunnelManagerSpec TunnelEnforcement.
(** * Changing every tunnel in place *)

Section each.
Context {W : Type} `{K : Kernel W}.
Abbreviation TM := (M (Node W) RitaCommonError).
Context (Pre : Tunnel -> Prop) (R : Tunnel -> Tunnel -> Prop) (f : Tunnel -> TM Tunnel).
Hypothesis f_step : forall t n, Pre t -> exists w t', f t n = Done (Build_Node (tm n) w) t' /\ R t t'.

Lemma each_in_list_spec l n :
  Forall Pre l -> exists w l', each_in_list f l n = Done (Build_Node (tm n) w) l' /\ Forall2 R l l'.
Proof.
  intros Hl. revert n. induction Hl as [|t l Ht _ IH]; intros n; simpl.
  { exists (sys n), []. by destruct n. }
  unfold bind. destruct (f_step t n Ht) as (w1 & t' & -> & HR).
  destruct (IH (Build_Node (tm n) w1)) as (w2 & l' & -> & HR2).
  exists w2, (t' :: l'). by split; [|constructor].
Qed.

Lemma each_list_spec L n :
  NoDup L.*1 -> Forall (fun e => tunnels (tm n) !! e.1 = Some e.2) L -> Forall (fun e => Forall Pre e.2.2) L ->
  hm_wf (tunnels (tm n)) ->
  exists m w, each_list f L n = Done (Build_Node (set_tunnels m (tm n)) w) tt /\ hm_wf m
    /\ forall k, if decide (k ∈ L.*1) then Forall2 R (tunnels_of k (tunnels (tm n))) (tunnels_of k m)
            else tunnels_of k m = tunnels_of k (tunnels (tm n)).
Proof.
  revert n. induction L as [|[k [i l]] L IH]; intros n Hnd HL HP Hwf.
  { exists (tunnels (tm n)), (sys n). split_and!; [by destruct n as [[] ?]|done|]. intros k.
    by rewrite decide_False by apply not_elem_of_nil. }
  apply NoDup_cons in Hnd as [Hn Hnd]. apply Forall_cons in HL as [He HL].
  apply Forall_cons in HP as [Hp HP]. simpl in He, Hp, Hn. simpl. unfold bind at 1.
  destruct (each_in_list_spec l n Hp) as (w1 & l' & -> & HR). unfold bind, modify_tunnels, modify. simpl.
  set (n1 := Build_Node _ w1).
  destruct (IH n1) as (m & w & E & Hm & Hk); [done| |done| |].
  - apply Forall_forall. intros [k' e'] Hin. simpl. rewrite Forall_forall in HL.
    rewrite lookup_insert_ne; [by apply (HL (k', e'))|]. intros <-. apply Hn, list_elem_of_fmap. by exists (k, e').
  - simpl. intros k' x v. rewrite lookup_insert. case_decide; [|apply Hwf]. intros [= <- <-]. subst. by eapply Hwf.
  - exists m, w. split_and!; [exact E|done|]. intros k'. specialize (Hk k'). simpl in Hk.
    rewrite tunnels_of_insert in Hk. simpl in Hk.
    destruct (decide (k = k')) as [<-|Hne].
    + rewrite decide_True by (by left). rewrite decide_False in Hk by done. rewrite Hk.
      unfold tunnels_of. by rewrite He.
    + destruct (decide (k' ∈ L.*1)); [by rewrite decide_True by (by right)|].
      rewrite decide_False; [done|]. by intros [->|?]%elem_of_cons.
Qed.

Lemma each_tunnel_spec n :
  (forall k, Forall Pre (tunnels_of k (tunnels (tm n)))) -> hm_wf (tunnels (tm n)) ->
  exists m w, each_tunnel f n = Done (Build_Node (set_tunnels m (tm n)) w) tt /\ hm_wf m
    /\ forall k, Forall2 R (tunnels_of k (tunnels (tm n))) (tunnels_of k m).
Proof.
  intros HP Hwf. unfold each_tunnel, bind, read_tunnels.
  destruct (each_list_spec (map_to_list (tunnels (tm n))) n) as (m & w & -> & Hm & Hk); [..|done|].
  - apply NoDup_fst_map_to_list.
  - apply Forall_forall. intros [k e]. apply elem_of_map_to_list.
  - apply Forall_forall. intros [k e] He%elem_of_map_to_list. specialize (HP k).
    unfold tunnels_of in HP. by rewrite He in HP.
  - exists m, w. split_and!; [done..|]. intros k. specialize (Hk k). case_decide as Hin; [done|].
    rewrite Hk. unfold tunnels_of. destruct (tunnels (tm n) !! k) as [e|] eqn:E; [|constructor].
    exfalso. apply Hin, list_elem_of_fmap. exists (k, e). split; [done|]. by apply elem_of_map_to_list.
Qed.
End each.

(** * The invariant *)

Definition speed_ok (s : ShaperSettings) (t : Tunnel) : Prop :=
  match t_speed_limit t with Some v => min_speed s <= v <= max_speed s | None => True end.

Definition tunnels_ok (s : tm_settings) (x : TunnelManager) : Prop :=
  table_wf (wg_start_port s) (tunnels x)
  /\ forall k, Forall (speed_ok (shaper_settings s)) (tunnels_of k (tunnels x)).

(** The shaper may start at ten gigabit at most, its default. *)
Definition good_settings (s : tm_settings) (usize_max : Z) : Prop :=
  0 <= min_speed (shaper_settings s) <= max_speed (shaper_settings s)
  /\ max_speed (shaper_settings s) <= 10000 /\ 65535 <= usize_max.

(** Tunnels that changed without touching place, port or identity, and whose
    speed is within the settings. *)
Definition reshaped (s : ShaperSettings) (t t' : Tunnel) : Prop := core t' = core t /\ speed_ok s t'.

Lemma tunnels_ok_reshaped s x m :
  tunnels_ok s x -> hm_wf m ->
  (forall k, Forall2 (reshaped (shaper_settings s)) (tunnels_of k (tunnels x)) (tunnels_of k m)) ->
  tunnels_ok s (set_tunnels m x).
Proof.
  intros [Hwf Hs] Hm Hr. split; simpl.
  - apply (table_wf_same _ (tunnels x)); [done..|]. intros k. specialize (Hr k).
    induction Hr as [|t t' l l' [Ht _] _ IH]; [done|]. rewrite !fmap_cons, Ht. by f_equal.
  - intros k. specialize (Hr k). induction Hr as [|t t' l l' [_ Ht] _ IH]; constructor; done.
Qed.

Section shaping.
Context {W : Type} `{K : Kernel W} `{P : Profile} (s : tm_settings) (usize_max : Z).
Hypothesis Hs : good_settings s usize_max.

Lemma set_shaping_done iface limit n :
  exists w, set_shaping_or_error iface limit n = Done (Build_Node (tm n) w) tt.
Proof.
  unfold set_shaping_or_error, ignore_err, kcall.
  destruct (k_set_codel_shaping iface limit (sys n)) as [w []]; by exists w.
Qed.

(** A shaper command on a tunnel, and its reset. *)
Lemma shape_tunnel_step c t n :
  speed_ok (shaper_settings s) t ->
  exists w t', shape_tunnel (shaper_settings s) usize_max c t n = Done (Build_Node (tm n) w) t'
    /\ reshaped (shaper_settings s) t t'.
Proof.
  intros Ht. destruct Hs as (Hmin & Hmax & Hu). unfold shape_tunnel.
  assert (Hsame : exists w t', ret t n = Done (E := RitaCommonError) (Build_Node (tm n) w) t'
    /\ reshaped (shaper_settings s) t t') by (exists (sys n), t; by destruct n).
  assert (Hnew : forall v, min_speed (shaper_settings s) <= v <= max_speed (shaper_settings s) ->
    exists w t', (set_shaping_or_error (sa_iface c) (Some v);! ret (set_speed (Some v) t)) n
      = Done (Build_Node (tm n) w) t' /\ reshaped (shaper_settings s) t t').
  { intros v Hv. unfold bind. destruct (set_shaping_done (sa_iface c) (Some v) n) as [w ->].
    by exists w, (set_speed (Some v) t). }
  destruct (text_eqb _ _); [|done].
  unfold speed_ok in Ht. destruct (t_speed_limit t) as [v|], (sa_action c); [| |done|by apply Hnew; lia].
  - destruct (proj2 (speed_changes usize_max v Hu ltac:(lia)) P) as (i & -> & Hi). unfold bind at 1, unwrap.
    destruct (Z.ltb_spec i (max_speed (shaper_settings s))); [apply Hnew; lia|done].
  - pose proof (proj1 (speed_changes usize_max v Hu ltac:(lia))) as Hr.
    destruct (Z.ltb_spec (reduce_speed usize_max v) (min_speed (shaper_settings s))); [done|apply Hnew; lia].
Qed.

Lemma clear_speed_step t (n : Node W) :
  speed_ok (shaper_settings s) t ->
  exists w t', clear_speed t n = Done (Build_Node (tm n) w) t' /\ reshaped (shaper_settings s) t t'.
Proof.
  intros Ht. unfold clear_speed. destruct (t_speed_limit t) eqn:E.
  - unfold bind. destruct (set_shaping_done (t_iface_name t) None n) as [w ->]. by exists w, (set_speed None t).
  - exists (sys n), t. by destruct n.
Qed.

Lemma each_tunnel_ok f (n : Node W) :
  (forall t n, speed_ok (shaper_settings s) t ->
     exists w t', f t n = Done (Build_Node (tm n) w) t' /\ reshaped (shaper_settings s) t t') ->
  tunnels_ok s (tm n) ->
  exists n', each_tunnel f n = Done n' tt /\ tunnels_ok s (tm n').
Proof.
  intros Hf Hok. destruct (each_tunnel_spec _ _ f Hf n) as (m & w & -> & Hm & Hk); [apply Hok|apply Hok|].
  eexists. split; [done|]. by apply tunnels_ok_reshaped.
Qed.

Lemma handle_shaping_ok (n : Node W) :
  tunnels_ok s (tm n) -> exists n', handle_shaping s usize_max n = Done n' tt /\ tunnels_ok s (tm n').
Proof.
  intros Hok. unfold handle_shaping. unfold bind at 1, get_st. destruct (_ || _).
  - unfold bind. destruct (each_tunnel_ok clear_speed n clear_speed_step Hok) as (n1 & -> & Hn1).
    eexists. split; [done|]. exact Hn1.
  - generalize (to_shape (shaper (tm n))) as l. intros l. revert n Hok.
    induction l as [|c l IH]; intros n Hok; simpl; [by exists n|]. unfold bind.
    by destruct (each_tunnel_ok _ n (shape_tunnel_step c) Hok) as (n1 & -> & Hn1); [apply IH].
Qed.
End shaping.

(** * Events *)

Inductive tm_event :=
| EvHello (msg : IdentityCallback)
| EvSlowLoop (babel_interfaces : list Interface) (view : Tunnel -> gc_view)
| EvVerdicts (o : BlockchainOracle) (msg : list TunnelChange)
| EvShape
| EvResetShaper
| EvToShape (l : list ShapingAdjust).

Section events.
Context {W : Type} `{K : Kernel W} `{KS : !KernelSane K} `{P : Profile}.
Context (cfg_test : bool) (s : tm_settings) (usize_max : Z).

Definition run_event (e : tm_event) : M (Node W) RitaCommonError unit :=
  match e with
  | EvHello msg => let! _ := tm_identity_callback cfg_test s msg in ret tt
  | EvSlowLoop interfaces view => tm_common_slow_loop_helper interfaces view
  | EvVerdicts o msg => tm_tunnel_state_change s o msg
  | EvShape => handle_shaping s usize_max
  | EvResetShaper => flag_reset_shaper
  | EvToShape l => set_to_shape l
  end.

(** The node runs from an empty table; between events the world moves on. *)
Inductive reachable : Node W -> Prop :=
| reach_start w : reachable (Build_Node TunnelManager_new w)
| reach_event n e n' : reachable n -> outcome_state (run_event e n) = Some n' -> reachable n'
| reach_world n w : reachable n -> reachable (Build_Node (tm n) w).

(** A call that keeps the invariant and does not panic. *)
Definition keeps_ok {A} (c : M (Node W) RitaCommonError A) : Prop :=
  forall n, tunnels_ok s (tm n) ->
  match c n with Done n' _ => tunnels_ok s (tm n') | Fail n' _ => tunnels_ok s (tm n') | Panic => False end.

Lemma elsewhere_elem p t l : t ∈ elsewhere p l <-> place t <> p /\ t ∈ l.
Proof. unfold elsewhere. by rewrite list_elem_of_filter. Qed.

(** Speeds after a hello: of the tunnel asked for, and of the others. *)
Lemma hello_speeds (id : LocalIdentity) (peer : Peer) (m m' : Tunnels) :
  (forall k, elsewhere (asked_place id peer) (tunnels_of k m') = elsewhere (asked_place id peer) (tunnels_of k m)) ->
  (forall k, Forall (speed_ok (shaper_settings s)) (tunnels_of k m)) ->
  table_wf (wg_start_port s) m' ->
  (forall t, has_tunnel id peer m' t -> speed_ok (shaper_settings s) t) ->
  forall k, Forall (speed_ok (shaper_settings s)) (tunnels_of k m').
Proof.
  intros He Hm Hwf Hh k. apply Forall_forall. intros t Ht.
  destruct (decide (place t = asked_place id peer)) as [Hp|Hp].
  - apply Hh. split; [|done]. pose proof (wf_filed _ _ Hwf k) as Hf. rewrite Forall_forall in Hf.
    rewrite <- (f_equal fst Hp : identity_key (global (neigh_id t)) = identity_key (global id)).
    by rewrite (Hf t Ht).
  - assert (Hin : t ∈ elsewhere (asked_place id peer) (tunnels_of k m')) by (by apply elsewhere_elem).
    rewrite He in Hin. apply elsewhere_elem in Hin as [_ Hin]. specialize (Hm k).
    rewrite Forall_forall in Hm. by apply Hm.
Qed.

(** There is only one tunnel at a place. *)
Lemma has_tunnel_unique start id peer m t t' :
  table_wf start m -> has_tunnel id peer m t -> has_tunnel id peer m t' -> t = t'.
Proof.
  intros Hwf [Ht Hp] [Ht' Hp']. pose proof (wf_slots _ _ Hwf (identity_key (global id))) as Hnd.
  apply list_elem_of_lookup in Ht as [i Hi]. apply list_elem_of_lookup in Ht' as [j Hj].
  assert (i = j) as <-; [|congruence].
  apply (NoDup_lookup _ i j (slot t) Hnd); rewrite list_lookup_fmap; [by rewrite Hi|rewrite Hj; simpl].
  apply (f_equal snd) in Hp, Hp'. simpl in *. congruence.
Qed.

Lemma hello_ok msg : keeps_ok (tm_identity_callback cfg_test s msg).
Proof.
  intros n [Hwf Hsp]. unfold tm_identity_callback.
  pose proof (open_tunnel_outcome cfg_test s (cb_local_identity msg) (cb_peer msg) n Hwf) as H.
  cbv zeta in H. destruct (open_tunnel _ _ _ _ n) as [n' [t ex]|n' e|]; [| |done].
  - destruct H as (Hwf' & Ht & He & _ & Hcase & _). split; [done|].
    eapply hello_speeds; [exact He|exact Hsp|exact Hwf'|].
    intros t' Ht'. rewrite <- (has_tunnel_unique _ _ _ _ _ _ Hwf' Ht Ht').
    destruct Hcase as [(t0 & [Ht0 _] & _ & ->)|Hf].
    + specialize (Hsp (identity_key (global (cb_local_identity msg)))). rewrite Forall_forall in Hsp.
      exact (Hsp t0 Ht0).
    + unfold speed_ok. by rewrite (fresh_speed _ _ _ _ _ Hf).
  - destruct H as (Hwf' & He & Hno). split; [done|].
    eapply hello_speeds; [exact He|exact Hsp|exact Hwf'|]. intros t Ht. by apply Hno in Ht.
Qed.

Lemma slow_loop_ok interfaces view : keeps_ok (tm_common_slow_loop_helper interfaces view).
Proof.
  intros n [Hwf Hsp]. unfold tm_common_slow_loop_helper. unfold bind at 1.
  assert (Hw : world_only (W := W) (monitor_check interfaces)).
  { unfold monitor_check. apply world_bind; [|intros m; apply _]. by intros n'. }
  specialize (Hw n). destruct (monitor_check interfaces n) as [n1 u|n1 e|];
    [|by rewrite Hw; split|done]. rewrite <- Hw in *.
  destruct (gc_outcome (wg_start_port s) TUNNEL_TIMEOUT TUNNEL_HANDSHAKE_TIMEOUT interfaces view n1 Hwf)
    as (n2 & dropped & -> & Hwf2 & Hk & _ & _ & _).
  split; [done|]. intros k. rewrite Hk. specialize (Hsp k). rewrite Forall_forall in *.
  intros t [_ Ht]%list_elem_of_filter. by apply Hsp.
Qed.

Lemma verdicts_ok o msg : keeps_ok (tm_tunnel_state_change s o msg).
Proof.
  intros n Hok. destruct (state_change_spec s o msg n) as (w & m & -> & ->). simpl.
  revert n Hok. induction msg as [|c rest IH]; intros n Hok; simpl; [by destruct n as [[] ?]|].
  set (n1 := Build_Node (set_tunnels (verdict_table c (tunnels (tm n))) (tm n)) w).
  apply (IH n1). apply tunnels_ok_reshaped; [done|apply hm_wf_verdict, Hok|]. intros k.
  rewrite tunnels_of_verdict. apply Forall2_fmap_r. apply Forall_Forall2_diag.
  eapply Forall_impl; [apply Hok|]. intros t Ht. simpl. unfold apply_verdict. case_decide; [|done].
  split; [apply change_payment_state_core|]. unfold change_payment_state, speed_ok in *.
  by destruct (tc_action c), (payment_state t).
Qed.

Lemma event_ok e : good_settings s usize_max -> keeps_ok (run_event e).
Proof.
  intros Hs. destruct e as [msg|interfaces view|o msg| | |l]; simpl.
  - intros n Hok. pose proof (hello_ok msg n Hok) as H. unfold bind.
    by destruct (tm_identity_callback _ _ _ n).
  - apply slow_loop_ok.
  - apply verdicts_ok.
  - intros n Hok. by destruct (handle_shaping_ok s usize_max Hs n Hok) as (n' & -> & H).
  - by intros n Hok.
  - by intros n Hok.
Qed.

Lemma reachable_ok n : good_settings s usize_max -> reachable n -> tunnels_ok s (tm n).
Proof.
  intros Hs. induction 1 as [w|n e n' _ IH He|n w _ IH].
  - split; [apply table_wf_empty|]. intros k. unfold tunnels_of. simpl. rewrite lookup_empty. constructor.
  - pose proof (event_ok e Hs n IH) as H. destruct (run_event e n); by simplify_eq/=.
  - done.
Qed.
End events.


Lemma demo_good_settings : good_settings demo_tm_settings U64_MAX.
Proof. by split_and!. Qed.

(** The node of the demonstration is reached by one hello. *)
Lemma demo_node_reachable :
  reachable (K := demo_kernel) (P := debug_profile) true demo_tm_settings U64_MAX demo_node.
Proof.
  eapply (reach_event _ _ _ demo_start (EvHello
    {| cb_local_identity := demo_local_id; cb_peer := demo_peer; cb_our_port := None |})); [constructor|].
  pose proof demo_opened as Hd. unfold demo_node. simpl. unfold bind, tm_identity_callback. simpl.
  by destruct (open_tunnel true demo_tm_settings demo_local_id demo_peer demo_start) as [n' [t b]| |].
Qed.


(** * Names of interfaces

    The WireGuard interfaces behind the tunnels: with a kernel that keeps its
    interfaces as documented, opening a tunnel leaves nothing behind when it
    fails, and every tunnel of the table has an interface of its own. *)

(** The interfaces of a kernel: [links w] are those that exist in the world [w].
    Creating one fails when it exists, deleting works, and the other calls do
    not change which exist. *)
Class LinkLaws {W : Type} (K : Kernel W) (links : W -> gset text) : Prop := {
  create_link name w w' : k_create_blank_wg_interface name w = (w', inr tt) ->
    (name ∉ links w) /\ links w' = {[name]} ∪ links w;
  create_link_fails name w w' e : k_create_blank_wg_interface name w = (w', inl e) -> links w' = links w;
  del_link name w : exists w', k_del_interface name w = (w', inr tt) /\ links w' = links w ∖ {[name]};
  open_links a w : links (k_open_tunnel a w).1 = links w;
  codel_links i l w : links (k_set_codel_shaping i l w).1 = links w;
  babel_links c w : links (k_babel c w).1 = links w;
}.

Section interfaces.
Context {W : Type} `{K : Kernel W} `{KS : !KernelSane K} (links : W -> gset text) `{LL : !LinkLaws K links}.
Context (cfg_test : bool).
Abbreviation TM := (M (Node W) RitaCommonError).

Lemma create_with_retries_links r n w :
  match create_with_retries r n w with
  | (w', inr i) => (wg_name i ∉ links w) /\ links w' = {[wg_name i]} ∪ links w
  | (w', inl _) => links w' = links w
  end.
Proof.
  revert n w. induction r as [|r IH]; intros n w; simpl;
    destruct (k_create_blank_wg_interface (wg_name n) w) as [w1 [e|[]]] eqn:E;
    try (by apply create_link); apply create_link_fails in E as Hl; destruct e; try done.
  specialize (IH (n + 1) w1). by rewrite Hl in IH.
Qed.

(** What creating a numbered interface does to the links. *)
Definition adds_link (n : Node W) (r : outcome (Node W) RitaCommonError text) : Prop :=
  match r with
  | Done n' i => (i ∉ links (sys n)) /\ links (sys n') = {[i]} ∪ links (sys n)
  | Fail n' _ => links (sys n') = links (sys n)
  | Panic => True
  end.

Lemma numbered_links n : adds_link n (create_blank_wg_numbered_wg_interface n).
Proof.
  unfold create_blank_wg_numbered_wg_interface, kread, kcall, bind, unwrap.
  destruct (k_get_interfaces (sys n)) as [e|l]; [done|]. cbv beta iota.
  destruct (first_free _ l 0) as [i|]; [|done]. cbv beta iota. simpl sys.
  pose proof (create_with_retries_links (S MAX_RETRY) i (sys n)) as H.
  by destruct (create_with_retries (S MAX_RETRY) i (sys n)) as [w [e|j]].
Qed.

(** Calls that leave the links alone, and cleaning up an interface. *)
Definition keeps_links {A} (c : TM A) : Prop :=
  forall n, match c n with
       | Done n' _ => links (sys n') = links (sys n)
       | Fail n' _ => links (sys n') = links (sys n)
       | Panic => True
       end.

Lemma kcall_links {A} (f : W -> W * (KernelError + A)) :
  (forall w, links (f w).1 = links w) -> keeps_links (kcall f).
Proof. intros Hf n. unfold kcall. specialize (Hf (sys n)). by destruct (f (sys n)) as [w []]. Qed.
Lemma babel_keeps_links c : keeps_links (babel c).
Proof. intros n. unfold babel. pose proof (babel_links c (sys n)) as H. by destruct (k_babel c (sys n)) as [w []]. Qed.
Lemma ignore_links {A} (c : TM A) : keeps_links c -> keeps_links (ignore_err c).
Proof. intros Hc n. unfold ignore_err. specialize (Hc n). by destruct (c n). Qed.

Lemma or_cleanup_links {A} (c : TM A) i n :
  keeps_links c ->
  match or_cleanup c (kcall (k_del_interface i)) n with
  | Done n' _ => links (sys n') = links (sys n)
  | Fail n' _ => links (sys n') = links (sys n) ∖ {[i]}
  | Panic => True
  end.
Proof.
  intros Hc. unfold or_cleanup. specialize (Hc n). destruct (c n) as [n1 a|n1 e|]; [done| |done].
  unfold bind, kcall. destruct (del_link i (sys n1)) as (w & -> & Hw). simpl. by rewrite Hw, Hc.
Qed.

(** A tunnel that was opened added its interface; an attempt that failed at any
    point left none behind. *)
Lemma Tunnel_new_links s ip port idx id n :
  match Tunnel_new s ip port idx id n with
  | Done n' t => (t_iface_name t ∉ links (sys n)) /\ links (sys n') = {[t_iface_name t]} ∪ links (sys n)
  | Fail n' _ => links (sys n') = links (sys n)
  | Panic => True
  end.
Proof.
  unfold Tunnel_new. destruct (ts_mesh_ip s) as [own|]; [|done]. unfold bind at 1, ok_or.
  pose proof (numbered_links n) as Hc. unfold bind at 1.
  destruct (create_blank_wg_numbered_wg_interface n) as [n1 i|n1 e|]; [|done..].
  destruct Hc as [Hi Hc]. assert (Hback : links (sys n1) ∖ {[i]} = links (sys n)) by (rewrite Hc; set_solver).
  unfold bind at 1. match goal with |- context [or_cleanup (kcall ?f) _ n1] =>
    pose proof (or_cleanup_links (kcall f) i n1 (kcall_links f (open_links _))) as H1 end.
  destruct (or_cleanup _ _ n1) as [n2 []|n2 e|]; [|by rewrite H1|done].
  pose proof (ignore_links _ (kcall_links _ (codel_links i None)) n2) as H2. unfold bind at 1.
  destruct (ignore_err _ n2) as [n3 []|n3 e|] eqn:E3; [| |done].
  2:{ unfold ignore_err in E3. by destruct (kcall _ n2). }
  unfold bind at 1, now. unfold bind at 1. match goal with |- context [or_cleanup (monitor ?t) _ n3] =>
    pose proof (or_cleanup_links (monitor t) i n3 (babel_keeps_links _)) as H4 end.
  destruct (or_cleanup _ _ n3) as [n4 []|n4 e|]; simpl; [|by rewrite H4, H2, H1|done].
  split; [done|]. by rewrite H4, H2, H1.
Qed.

(** * The interfaces of the table *)

(** Every tunnel has an existing interface, and no two share one. *)
Definition interfaces_ok (n : Node W) : Prop :=
  NoDup (t_iface_name <$> all_tunnels (tunnels (tm n)))
  /\ forall t, t ∈ all_tunnels (tunnels (tm n)) -> t_iface_name t ∈ links (sys n).

Lemma NoDup_fmap_inj {A B} (f : A -> B) l x y :
  NoDup (f <$> l) -> x ∈ l -> y ∈ l -> f x = f y -> x = y.
Proof.
  intros Hnd [i Hi]%list_elem_of_lookup [j Hj]%list_elem_of_lookup Hxy.
  assert (i = j) as <-; [|congruence].
  apply (NoDup_lookup _ i j (f x) Hnd); rewrite list_lookup_fmap; [by rewrite Hi|by rewrite Hj, Hxy].
Qed.

Lemma add_new_links s ip idx id n :
  match add_new_tunnel_to_list cfg_test s ip idx id n with
  | Done n' t => (t_iface_name t ∉ links (sys n)) /\ links (sys n') = {[t_iface_name t]} ∪ links (sys n)
      /\ tunnels (tm n') = insert_into_tunnel_list t (tunnels (tm n))
  | Fail n' _ => links (sys n') = links (sys n) /\ tm n' = tm n
  | Panic => True
  end.
Proof.
  unfold add_new_tunnel_to_list. unfold bind at 1.
  destruct (get_next_available_port cfg_test s n) as [n1 port|n1 e|] eqn:E; [| |done].
  - assert (n1 = n) as ->.
    { unfold get_next_available_port in E. by repeat (case_match; try done); simplify_eq. }
    unfold bind. pose proof (Tunnel_new_links s ip port idx id n) as H.
    pose proof (world_tunnel_new s ip port idx id n) as Hw.
    destruct (Tunnel_new s ip port idx id n) as [n2 t|n2 e|]; [|done..].
    simpl. rewrite Hw. by destruct H.
  - unfold get_next_available_port in E. by repeat (case_match; try done); simplify_eq.
Qed.

(** Adding to a table whose interfaces are in order. *)
Lemma add_new_interfaces s ip idx id n :
  interfaces_ok n ->
  match add_new_tunnel_to_list cfg_test s ip idx id n with
  | Done n' t => interfaces_ok n' /\ links (sys n') = {[t_iface_name t]} ∪ links (sys n)
  | Fail n' _ => interfaces_ok n' /\ links (sys n') = links (sys n)
  | Panic => True
  end.
Proof.
  intros [Hnd Hin]. pose proof (add_new_links s ip idx id n) as H.
  destruct (add_new_tunnel_to_list _ _ _ _ _ n) as [n' t|n' e|]; [| |done].
  - destruct H as (Hf & Hl & Ht). split; [|done]. unfold interfaces_ok. rewrite Ht, Hl. split.
    + rewrite all_tunnels_inserted. constructor; [|done].
      intros (u & E & Hu)%list_elem_of_fmap. apply Hf. rewrite E. by apply Hin.
    + intros u. rewrite all_tunnels_inserted. intros [->|Hu]%elem_of_cons; [set_solver|].
      apply elem_of_union_r. by apply Hin.
  - destruct H as [Hl Ht]. split; [|done]. unfold interfaces_ok. by rewrite Ht, Hl.
Qed.

(** Refreshing a tunnel does not change interfaces. *)
Lemma ifaces_write start k i t t' m :
  table_wf start m -> tunnels_of k m !! i = Some t -> t_iface_name t' = t_iface_name t ->
  t_iface_name <$> all_tunnels (write_tunnel k i t' m) ≡ₚ t_iface_name <$> all_tunnels m.
Proof.
  intros Hwf Hi Ht.
  assert (He : forall k', t_iface_name <$> tunnels_of k' (write_tunnel k i t' m) = t_iface_name <$> tunnels_of k' m).
  { intros k'. rewrite tunnels_of_write. case_decide; [subst|done].
    by rewrite list_fmap_insert, Ht, list_insert_id by (by rewrite list_lookup_fmap, Hi). }
  apply (anti_symm submseteq); apply all_tunnels_dominated; intros k'; by rewrite He.
Qed.

(** Flushing a tunnel removes at most its interface. *)
Lemma unmonitor_links t n :
  exists n', ignore_err (unmonitor t) n = Done n' tt /\ tm n' = tm n
    /\ links (sys n') ⊆ links (sys n) /\ links (sys n) ∖ {[t_iface_name t]} ⊆ links (sys n').
Proof.
  unfold ignore_err, unmonitor, bind, babel, kcall.
  pose proof (babel_links (unmonitor_command (t_iface_name t)) (sys n)) as Hb.
  destruct (k_babel _ (sys n)) as [w1 [e|[]]]; simpl in *.
  - eexists. split; [done|]. simpl. rewrite Hb. set_solver.
  - destruct (del_link (t_iface_name t) w1) as (w2 & -> & Hw). eexists. split; [done|]. simpl.
    rewrite Hw, Hb. set_solver.
Qed.

Lemma del_interfaces t n w :
  interfaces_ok n -> t ∈ all_tunnels (tunnels (tm n)) ->
  links (sys n) ∖ {[t_iface_name t]} ⊆ links w ->
  interfaces_ok (Build_Node (set_tunnels (del_tunnel t (tunnels (tm n))) (tm n)) w).
Proof.
  intros [Hnd Hin] Ht Hw. split; simpl.
  - eapply NoDup_part; [|exact Hnd]. apply all_tunnels_dominated. intros k. rewrite tunnels_of_del.
    apply fmap_submseteq, sublist_submseteq, sublist_filter.
  - intros u [k Hu]%elem_of_all_tunnels. pose proof (del_tunnel_gone t k (tunnels (tm n))) as Hg.
    rewrite Forall_forall in Hg. specialize (Hg u Hu). rewrite tunnels_of_del in Hu.
    apply list_elem_of_filter in Hu as [_ Hu].
    assert (Hu' : u ∈ all_tunnels (tunnels (tm n))) by (apply elem_of_all_tunnels; by exists k).
    apply Hw, elem_of_difference. split; [by apply Hin|]. rewrite elem_of_singleton. intros E.
    apply Hg. by rewrite (NoDup_fmap_inj _ _ _ _ Hnd Hu' Ht E).
Qed.

(** Opening a tunnel, with what [open_tunnel_outcome] says about panics left out. *)
Lemma open_tunnel_links s id peer n :
  table_wf (wg_start_port s) (tunnels (tm n)) -> interfaces_ok n ->
  match open_tunnel cfg_test s id peer n with
  | Done n' (t, _) => interfaces_ok n' /\ links (sys n') ⊆ {[t_iface_name t]} ∪ links (sys n)
  | Fail n' _ => interfaces_ok n' /\ links (sys n') ⊆ links (sys n)
  | Panic => True
  end.
Proof.
  intros Hwf Hok. unfold open_tunnel. unfold bind at 1, read_tunnels. cbv beta iota.
  destruct (get_tunnel_mut _ _ _ _) as [[[k i] t]|] eqn:Eg.
  - destruct (get_tunnel_mut_found _ _ _ _ _ _ _ (wf_keys _ _ Hwf) Eg) as (_ & Hi & _ & _).
    unfold bind at 1, now. cbv beta iota. unfold bind at 1, modify_tunnels at 1, modify at 1.
    set (t1 := set_contact _ _ t). set (n1 := Build_Node _ (sys n)).
    pose proof (ifaces_write _ k i t t1 _ Hwf Hi eq_refl) as Hperm.
    assert (Hok1 : interfaces_ok n1).
    { destruct Hok as [Hnd Hin]. split; simpl; [by rewrite Hperm|]. intros u Hu.
      apply (list_elem_of_fmap_2 t_iface_name) in Hu. rewrite Hperm in Hu.
      apply list_elem_of_fmap in Hu as (v & -> & Hv). by apply Hin. }
    destruct (default true (have_tunnel id)); [unfold ret; split; [done|simpl; set_solver]|].
    unfold bind at 1. destruct (unmonitor_links t1 n1) as (n2 & -> & Htm & Hsub & Hsup).
    unfold bind at 1, modify_tunnels, modify. rewrite Htm.
    assert (Ht1 : t1 ∈ all_tunnels (tunnels (tm n1))).
    { apply elem_of_all_tunnels. exists k. simpl. rewrite tunnels_of_write, decide_True by done.
      apply list_elem_of_lookup_2 with i, list_lookup_insert_eq. by eapply lookup_lt_Some. }
    pose proof (add_new_interfaces s (contact_ip peer) (ifidx peer) id _
      (del_interfaces t1 n1 (sys n2) Hok1 Ht1 Hsup)) as Ha. unfold bind.
    destruct (add_new_tunnel_to_list _ _ _ _ _ _) as [n3 t3|n3 e|]; [| |done];
      destruct Ha as [Ha Hl]; (split; [done|]); rewrite Hl; simpl; set_solver.
  - unfold bind. pose proof (add_new_interfaces s (contact_ip peer) (ifidx peer) id n Hok) as Ha.
    destruct (add_new_tunnel_to_list _ _ _ _ _ n) as [n3 t3|n3 e|]; [| |done];
      destruct Ha as [Ha Hl]; (split; [done|]); by rewrite Hl.
Qed.
End interfaces.

(** Opening a tunnel leaks no interface: when it fails, at whatever step, no
    interface exists that did not exist before; when it succeeds, at most the
    interface of the tunnel returned is new. Every tunnel of the table keeps an
    interface of its own that exists. *)
Theorem open_tunnel_interfaces {W : Type} `{K : Kernel W} `{KS : !KernelSane K} (links : W -> gset text)
    `{LL : !LinkLaws K links} cfg_test s id peer (n : Node W) :
  table_wf (wg_start_port s) (tunnels (tm n)) -> interfaces_ok links n ->
  match open_tunnel cfg_test s id peer n with
  | Done n' (t, _) => interfaces_ok links n' /\ links (sys n') ⊆ {[t_iface_name t]} ∪ links (sys n)
  | Fail n' _ => interfaces_ok links n' /\ links (sys n') ⊆ links (sys n)
  | Panic => False
  end.
Proof.
  intros Hwf Hok. pose proof (open_tunnel_outcome cfg_test s id peer n Hwf) as Hp.
  pose proof (open_tunnel_links links cfg_test s id peer n Hwf Hok) as Hl. cbv zeta in Hp.
  by destruct (open_tunnel cfg_test s id peer n).
Qed.

#[export] Instance demo_link_laws : LinkLaws demo_kernel (fun w => list_to_set (d_links w)).
Proof.
  split; simpl; intros; try done.
  - case_decide; simplify_eq/=. split; [by rewrite elem_of_list_to_set|done].
  - case_decide; by simplify_eq/=.
  - eexists. split; [done|]. simpl. apply set_eq. intros x.
    rewrite elem_of_difference, !elem_of_list_to_set, list_elem_of_filter, elem_of_singleton. tauto.
Qed.

(** The endpoint refuses, so the interface that was created is gone again. *)
Definition demo_bad_peer : Peer := {| ifidx := 3; contact_ip := V4 0 |}.

Lemma demo_open_fails :
  match open_tunnel true demo_tm_settings demo_local_id demo_bad_peer demo_start with
  | Fail _ _ => true | _ => false end = true.
Proof. vm_compute. reflexivity. Qed.

Lemma open_tunnel_interfaces_witness :
  exists n' e, open_tunnel true demo_tm_settings demo_local_id demo_bad_peer demo_start = Fail n' e
    /\ (list_to_set (d_links (sys n')) : gset text) ⊆ list_to_set (d_links (sys demo_start)).
Proof.
  pose proof (open_tunnel_interfaces (fun w => list_to_set (d_links w)) true demo_tm_settings demo_local_id
    demo_bad_peer demo_start (table_wf_empty _)) as H.
  pose proof demo_open_fails as Hd.
  destruct (open_tunnel _ _ _ _ demo_start) as [n' [t b]|n' e|]; try done.
  exists n', e. split; [done|]. apply H. split; [constructor|]. intros t Ht. by apply not_elem_of_nil in Ht.
Defined.
