(* ===== verification/NetworkMonitor.v ===== *)
(** Watching the links to the neighbours (rita_common/src/network_monitor/mod.rs)
    with the running statistics it keeps (althea_types/src/monitoring.rs): latency,
    packet loss and the requests to change the speed of a tunnel.  The arithmetic of
    [f32] is a parameter; the statistics are then shown to be mean and variance in
    exact arithmetic. *)
From Stdlib Require Import Qcanon Field.
From S2P Require Import Prelude Types Text Babel TrafficWatcher Oracle DebtKeeper TrafficWatcherSpec TunnelManager.
Open Scope Z_scope.

(** The operations on floating point numbers that are used; [of_bits] reads the bit
    pattern babel's answer was parsed to. *)
Class Float (F : Type) := {
  f_of_Z : Z -> F;
  f_add : F -> F -> F; f_sub : F -> F -> F; f_mul : F -> F -> F; f_div : F -> F -> F;
  f_lt : F -> F -> bool; f_eq : F -> F -> bool;
  of_bits : Z -> F;
}.

Module Monitoring.

Definition SAMPLE_PERIOD : Z := 5.
Definition SAMPLES_IN_FIVE_MINUTES : nat := 60.
Definition LATENCY_HISTORY : nat := 100.

(** * Latency *)

Section latency.
Context {F : Type} `{FL : Float F}.

Record RunningLatencyStats := {
  count : Z;
  mean : F;
  m2 : F;
  lowest : option F;
  last_value : option F;
  last_changed : option Z;
  front : nat;
  history : list F;
}.
(** [now] is an [Instant]. *)
Definition latency_new (now : Z) : RunningLatencyStats :=
  {| count := 0; mean := f_of_Z 0; m2 := f_of_Z 0; lowest := None; last_value := None; last_changed := Some now;
     front := 0; history := replicate LATENCY_HISTORY (f_of_Z 0) |}.
Definition get_avg (s : RunningLatencyStats) : option F := if 2 <? count s then Some (mean s) else None.
Definition get_std_dev (s : RunningLatencyStats) : option F :=
  if 2 <? count s then Some (f_div (m2 s) (f_of_Z (count s))) else None.
Definition reset (now : Z) (s : RunningLatencyStats) : RunningLatencyStats :=
  {| count := 0; mean := f_of_Z 0; m2 := f_of_Z 0; lowest := lowest s; last_value := last_value s; last_changed := Some now;
     front := front s; history := history s |}.
Definition set_last_changed (now : Z) (s : RunningLatencyStats) : RunningLatencyStats :=
  {| count := count s; mean := mean s; m2 := m2 s; lowest := lowest s; last_value := last_value s; last_changed := Some now;
     front := front s; history := history s |}.
Definition new_lowest (sample : F) (l : option F) : option F :=
  match l with
  | Some low => if f_lt sample low || f_eq low (f_of_Z 0) then Some sample else Some low
  | None => Some sample
  end.
(** When the count is at its largest value it starts again, at 0: the mean is then
    divided by 0 once.  An index beyond the history panics. *)
Definition add_sample (now : Z) (sample : F) (s : RunningLatencyStats) : option RunningLatencyStats :=
  let hist := match history s with [] => replicate LATENCY_HISTORY (f_of_Z 0) | h => h end in
  let s := if count s + 1 <=? U32_MAX
           then {| count := count s + 1; mean := mean s; m2 := m2 s; lowest := lowest s; last_value := last_value s;
                   last_changed := last_changed s; front := front s; history := hist |}
           else reset now {| count := count s; mean := mean s; m2 := m2 s; lowest := lowest s; last_value := last_value s;
                             last_changed := last_changed s; front := front s; history := hist |} in
  let delta := f_sub sample (mean s) in
  let mean' := f_add (mean s) (f_div delta (f_of_Z (count s))) in
  let delta2 := f_sub sample mean' in
  if (front s <? length (history s))%nat then
    Some {| count := count s; mean := mean'; m2 := f_add (m2 s) (f_mul delta delta2); lowest := new_lowest sample (lowest s);
            last_value := Some sample; last_changed := last_changed s;
            front := (front s + 1) mod LATENCY_HISTORY; history := <[front s := sample]> (history s) |}
  else None.
Definition is_bloated (s : RunningLatencyStats) : bool :=
  match get_std_dev s, get_avg s with
  | Some std_dev, Some avg => f_lt (f_mul (f_of_Z 10) avg) std_dev && f_lt (f_of_Z 10) avg
  | _, _ => false
  end.
Definition is_good (s : RunningLatencyStats) : bool :=
  match get_std_dev s, get_avg s, lowest s with
  | Some std_dev, Some avg, Some low => f_lt std_dev (f_of_Z 100) || f_lt avg (f_mul (f_of_Z 2) low) || f_lt avg (f_of_Z 10)
  | _, _, _ => false
  end.
End latency.
Arguments RunningLatencyStats : clear implicits.

(** * Packet loss *)

Record RunningPacketLossStats := {
  five_minute_loss : list Z;
  pl_front : nat;
  total_packets : Z;
  total_lost : Z;
}.
Definition loss_new : RunningPacketLossStats :=
  {| five_minute_loss := replicate SAMPLES_IN_FIVE_MINUTES 0; pl_front := 0; total_packets := 0; total_lost := 0 |}.

(** The loop over [i] from 15 down to [16 - n], with the mask moving along. *)
Fixpoint count_bits (steps : nat) (i : Z) (sample mask total_set_bits : Z) : Z :=
  match steps with
  | O => total_set_bits
  | S steps => count_bits steps (i - 1) sample (Z.shiftr mask 1) (total_set_bits + Z.shiftr (Z.land sample mask) i)
  end.
Definition get_first_n_set_bits (sample n : Z) : option Z :=
  if n <=? 16 then Some (count_bits (Z.to_nat n) 15 sample 32768 0) else None.
Definition lost_packets (sample : Z) : option Z := bits ← get_first_n_set_bits sample SAMPLE_PERIOD; Some (SAMPLE_PERIOD - bits).
Definition has_packet_loss (sample : Z) : option bool := lost ← lost_packets sample; Some (0 <? lost).
Definition loss_add_sample (sample : Z) (s : RunningPacketLossStats) : option RunningPacketLossStats :=
  let loss := match five_minute_loss s with [] => replicate SAMPLES_IN_FIVE_MINUTES 0 | l => l end in
  lost ← lost_packets sample;
  let '(packets, total) :=
    if total_lost s + lost <=? U32_MAX then (total_packets s, total_lost s + lost) else (0, 0) in
  let '(packets, total) :=
    if packets + SAMPLE_PERIOD <=? U32_MAX then (packets + SAMPLE_PERIOD, total) else (0, 0) in
  if (pl_front s <? length loss)%nat then
    Some {| five_minute_loss := <[pl_front s := lost]> loss; pl_front := (pl_front s + 1) mod SAMPLES_IN_FIVE_MINUTES;
            total_packets := packets; total_lost := total |}
  else None.
Definition loss_avg {F} `{Float F} (s : RunningPacketLossStats) : option F :=
  if 0 <? total_packets s then Some (f_div (f_of_Z (total_lost s)) (f_of_Z (total_packets s))) else None.
Definition sum_loss (s : RunningPacketLossStats) : Z := foldr Z.add 0 (five_minute_loss s).
Definition get_five_min_average {F} `{Float F} (s : RunningPacketLossStats) : F :=
  f_div (f_of_Z (sum_loss s)) (f_of_Z (Z.of_nat SAMPLES_IN_FIVE_MINUTES * SAMPLE_PERIOD)).
End Monitoring.

Module NetworkMonitor.
Import Monitoring.
Section monitor.
Context {F : Type} `{FL : Float F}.

(** In nanoseconds. *)
Definition second : Z := 1000000000.
Definition BACK_OFF_TIME : Z := 600 * second.
Definition WINDOW_TIME : Z := 43200 * second.
Definition FAST_LOOP_SPEED : Z := 5.

Record NetworkInfo := { babel_neighbors : list BabelNeighbor; babel_routes : list Route; rita_neighbors : list Neighbor }.
Record NetworkMonitor := {
  latency_history : gmap text (RunningLatencyStats F);
  packet_loss_history : gmap text RunningPacketLossStats;
  last_babel_dump : option NetworkInfo;
}.
Definition monitor_new : NetworkMonitor := {| latency_history := ∅; packet_loss_history := ∅; last_babel_dump := None |}.

Record IfaceStats := { lat_avg : option F; lat_std_dev : option F; loss_average : option F; loss_five_min_avg : F }.
Definition get_stats (m : NetworkMonitor) : gmap text IfaceStats :=
  map_imap (fun iface l =>
    match packet_loss_history m !! iface with
    | Some p => Some {| lat_avg := get_avg l; lat_std_dev := get_std_dev l; loss_average := loss_avg p;
                        loss_five_min_avg := get_five_min_average p |}
    | None => None
    end) (latency_history m).
Definition get_network_info (m : NetworkMonitor) : RitaCommonError + NetworkInfo :=
  match last_babel_dump m with Some dump => inr dump | None => inl (MiscStringError "No babel info ready!") end.

Definition get_wg_key_by_ifname (neigh : BabelNeighbor) (rita_neighbors : list Neighbor) : option Z :=
  (fun n => wg_public_key (global (nb_identity n))) <$> List.find (fun n => contains (bn_iface neigh) (iface_name n)) rita_neighbors.

Definition exceeded (now changed limit : Z) : bool := (changed <? now) && (limit <? now - changed).
(** One neighbour: the request its statistics lead to, then the new sample; the clock
    is read once. *)
Definition judge (now : Z) (rita_neighbors : list Neighbor) (neigh : BabelNeighbor) (s : RunningLatencyStats F)
    : option (RunningLatencyStats F * list ShapingAdjust) :=
  let adjust a := {| sa_iface := bn_iface neigh; sa_action := a |} in
  match get_wg_key_by_ifname neigh rita_neighbors, get_avg s, get_std_dev s with
  | Some _, Some _, Some _ =>
      if is_bloated s then Some (reset now s, [adjust ReduceSpeed])
      else
        changed ← last_changed s;
        if exceeded now changed BACK_OFF_TIME && is_good s then Some (set_last_changed now s, [adjust IncreaseSpeed])
        else Some (s, [])
  | _, _, _ => Some (s, [])
  end.
Definition observe_latency (now : Z) (rita_neighbors : list Neighbor) (neigh : BabelNeighbor) (s : RunningLatencyStats F)
    : option (RunningLatencyStats F * list ShapingAdjust) :=
  '(s, shape) ← judge now rita_neighbors neigh s;
  s ← add_sample now (of_bits (bn_rtt neigh)) s;
  changed ← last_changed s;
  Some (if exceeded now changed WINDOW_TIME then reset now s else s, shape).
Fixpoint observe_latencies (now : Z) (rita_neighbors : list Neighbor) (neighs : list BabelNeighbor)
    (h : gmap text (RunningLatencyStats F)) (to_shape : list ShapingAdjust)
    : option (gmap text (RunningLatencyStats F) * list ShapingAdjust) :=
  match neighs with
  | [] => Some (h, to_shape)
  | neigh :: neighs =>
      '(s, shape) ← observe_latency now rita_neighbors neigh (default (latency_new now) (h !! bn_iface neigh));
      observe_latencies now rita_neighbors neighs (<[bn_iface neigh := s]> h) (to_shape ++ shape)
  end.
Fixpoint observe_losses (neighs : list BabelNeighbor) (h : gmap text RunningPacketLossStats) : option (gmap text RunningPacketLossStats) :=
  match neighs with
  | [] => Some h
  | neigh :: neighs =>
      s ← loss_add_sample (bn_reach neigh) (default loss_new (h !! bn_iface neigh));
      observe_losses neighs (<[bn_iface neigh := s]> h)
  end.
(** [!SAMPLE_PERIOD <= 16] is the complement of the bits of a [u8]. *)
Definition too_slow : bool := Z.lxor 255 SAMPLE_PERIOD <=? 16.
Definition observe_network (now : Z) (babel_neighbors : list BabelNeighbor) (rita_neighbors : list Neighbor) (m : NetworkMonitor)
    : option (NetworkMonitor * list ShapingAdjust) :=
  if negb (SAMPLE_PERIOD =? FAST_LOOP_SPEED) then None
  else if too_slow then None
  else
    '(latency, to_shape) ← observe_latencies now rita_neighbors babel_neighbors (latency_history m) [];
    loss ← observe_losses babel_neighbors (packet_loss_history m);
    Some ({| latency_history := latency; packet_loss_history := loss; last_babel_dump := last_babel_dump m |}, to_shape).
(** The averages [network_stats] logs; the sum of the standard library runs from the
    left. *)
Definition extract_rtt (neighbors : list BabelNeighbor) : list F := (fun n => of_bits (bn_rtt n)) <$> neighbors.
Definition extract_fp_rtt (routes : list Route) : list F :=
  (fun r => of_bits (full_path_rtt r)) <$> List.filter installed routes.
Definition data_mean (data : list F) : option F :=
  if (0 <? length data)%nat then Some (f_div (foldl f_add (f_of_Z 0) data) (f_of_Z (Z.of_nat (length data)))) else None.
Definition network_stats (routes : list Route) (neighbors : list BabelNeighbor) : option (F * nat) * option (F * nat) :=
  ((fun a => (a, length neighbors)) <$> data_mean (extract_rtt neighbors),
   (fun a => (a, length routes)) <$> data_mean (extract_fp_rtt routes)).
(** The requests are left with [set_to_shape]; [network_stats] only logs. *)
Definition update_network_info (now : Z) (msg : NetworkInfo) (m : NetworkMonitor) : option (NetworkMonitor * list ShapingAdjust) :=
  '(m, to_shape) ← observe_network now (babel_neighbors msg) (rita_neighbors msg) m;
  Some ({| latency_history := latency_history m; packet_loss_history := packet_loss_history m; last_babel_dump := Some msg |}, to_shape).
End monitor.
Arguments NetworkMonitor : clear implicits.
End NetworkMonitor.

(** * Packet loss: what the counters hold *)

Module PacketLoss.
Import Monitoring.

(** The first [n] bits of a sample, the most significant one first. *)
Definition top_bits (sample : Z) (n : nat) : list bool := (fun j => Z.testbit sample (15 - Z.of_nat j)) <$> seq 0 n.
Definition set_bits (bs : list bool) : Z := foldr (fun b n => Z.b2z b + n) 0 bs.
(** The packets of a sample that were lost: the zeros among the first five bits. *)
Definition lost (sample : Z) : Z := set_bits (negb <$> top_bits sample 5).

Fixpoint feed (samples : list Z) (s : RunningPacketLossStats) : option RunningPacketLossStats :=
  match samples with [] => Some s | x :: samples => s ← loss_add_sample x s; feed samples s end.

Lemma masked_bit sample i : 0 <= i -> Z.shiftr (Z.land sample (2 ^ i)) i = Z.b2z (Z.testbit sample i).
Proof.
  intros Hi. apply Z.bits_inj'. intros k Hk.
  rewrite Z.shiftr_spec, Z.land_spec, Z.pow2_bits_eqb by lia.
  destruct (Z.eqb_spec i (k + i)) as [E | E].
  - replace k with 0 by lia. rewrite Z.b2z_bit0, Z.add_0_l. apply andb_true_r.
  - rewrite andb_false_r. destruct (Z.testbit sample i); [| by rewrite Z.bits_0].
    symmetry. apply (Z.pow2_bits_false 0 k). lia.
Qed.

Lemma count_bits_spec sample steps : forall i acc, Z.of_nat steps <= i + 1 ->
  count_bits steps i sample (2 ^ i) acc = acc + set_bits ((fun j => Z.testbit sample (i - Z.of_nat j)) <$> seq 0 steps).
Proof.
  induction steps as [| steps IH]; intros i acc Hi; simpl; [lia |].
  rewrite masked_bit by lia. rewrite <- fmap_S_seq, <- list_fmap_compose.
  destruct (decide (i = 0)) as [-> | Hn].
  { destruct steps; [| lia]. simpl. lia. }
  replace (Z.shiftr (2 ^ i) 1) with (2 ^ (i - 1)).
  2: { rewrite Z.shiftr_div_pow2 by lia. rewrite Z.pow_sub_r by lia. done. }
  rewrite IH by lia. rewrite Z.sub_0_r.
  rewrite (list_fmap_ext (fun j => Z.testbit sample (i - 1 - Z.of_nat j)) ((fun j => Z.testbit sample (i - Z.of_nat j)) ∘ S)); [lia |].
  intros j x _. simpl. f_equal. lia.
Qed.

Lemma set_bits_cons b bs : set_bits (b :: bs) = Z.b2z b + set_bits bs.
Proof. done. Qed.
Lemma set_bits_negb bs : set_bits (negb <$> bs) = Z.of_nat (length bs) - set_bits bs.
Proof.
  induction bs as [| b bs IH]; [done |]. rewrite fmap_cons, !set_bits_cons, IH. destruct b; simpl length; simpl Z.b2z; lia.
Qed.
Lemma set_bits_bounds bs : 0 <= set_bits bs <= Z.of_nat (length bs).
Proof. induction bs as [| b bs IH]; [done |]. rewrite set_bits_cons. destruct b; simpl length; simpl Z.b2z; lia. Qed.

Lemma lost_packets_spec sample : lost_packets sample = Some (lost sample).
Proof.
  unfold lost_packets, get_first_n_set_bits, lost.
  change (if _ <=? 16 then _ else _) with (Some (count_bits 5 15 sample (2 ^ 15) 0)).
  rewrite (count_bits_spec sample 5 15 0), set_bits_negb by lia. done.
Qed.
Lemma lost_bounds sample : 0 <= lost sample <= 5.
Proof. pose proof (set_bits_bounds (negb <$> top_bits sample 5)) as H. rewrite length_fmap in H. exact H. Qed.

(** The window of the last sixty samples, oldest first, is the ring read from its
    front. *)
Definition window (losses : list Z) : list Z := drop (length losses) (replicate SAMPLES_IN_FIVE_MINUTES 0 ++ losses).
Record loss_ok (losses : list Z) (s : RunningPacketLossStats) : Prop := {
  lo_front : (pl_front s < SAMPLES_IN_FIVE_MINUTES)%nat;
  lo_length : length (five_minute_loss s) = SAMPLES_IN_FIVE_MINUTES;
  lo_window : drop (pl_front s) (five_minute_loss s) ++ take (pl_front s) (five_minute_loss s) = window losses;
  lo_totals : 0 <= total_lost s <= total_packets s /\ total_packets s <= U32_MAX;
}.

Lemma window_snoc losses x : window (losses ++ [x]) = tail (window losses) ++ [x].
Proof.
  unfold window. rewrite length_app, app_assoc. change (length [x]) with 1%nat.
  assert (Hl : (S (length losses) <= length (replicate SAMPLES_IN_FIVE_MINUTES 0%Z ++ losses))%nat)
    by (rewrite length_app, length_replicate; unfold SAMPLES_IN_FIVE_MINUTES; lia).
  rewrite drop_app_le by lia. f_equal.
  rewrite <- drop_drop. by destruct (drop (length losses) _).
Qed.

Lemma loss_ok_new : loss_ok [] loss_new.
Proof. split; [vm_compute; lia | done | done | vm_compute; split; [split |]; discriminate]. Qed.

Lemma ring_step f (l : list Z) x n : (f < n)%nat -> length l = n ->
  drop ((f + 1) mod n) (<[f := x]> l) ++ take ((f + 1) mod n) (<[f := x]> l) = tail (drop f l ++ take f l) ++ [x].
Proof.
  intros Hf Hl. destruct (lookup_lt_is_Some_2 l f) as [y Hy]; [lia |].
  rewrite (drop_S l y f Hy). simpl.
  rewrite insert_take_drop by lia.
  assert (Ht : length (take f l) = f) by (rewrite length_take; lia).
  destruct (decide (f + 1 = n)%nat) as [<- | Hn].
  - rewrite Nat.Div0.mod_same. rewrite drop_0, take_0, app_nil_r.
    rewrite (drop_ge l) by lia. done.
  - rewrite Nat.mod_small by lia.
    rewrite drop_app_ge, take_app_ge by lia. rewrite Ht.
    replace (f + 1 - f)%nat with 1%nat by lia. simpl. by rewrite drop_0, take_0, app_assoc.
Qed.

Lemma totals_step packets total lost : 0 <= total <= packets /\ packets <= U32_MAX -> 0 <= lost <= 5 ->
  let '(packets, total) := if total + lost <=? U32_MAX then (packets, total + lost) else (0, 0) in
  let '(packets, total) := if packets + SAMPLE_PERIOD <=? U32_MAX then (packets + SAMPLE_PERIOD, total) else (0, 0) in
  0 <= total <= packets /\ packets <= U32_MAX.
Proof.
  unfold SAMPLE_PERIOD. intros [Ht Hp] Hl. destruct (Z.leb_spec (total + lost) U32_MAX);
    [destruct (Z.leb_spec (packets + 5) U32_MAX) | destruct (Z.leb_spec (0 + 5) U32_MAX)]; unfold U32_MAX in *; lia.
Qed.

Lemma loss_step losses s x : loss_ok losses s ->
  exists s', loss_add_sample x s = Some s' /\ loss_ok (losses ++ [lost x]) s'.
Proof.
  intros [Hf Hl Hw Ht]. unfold loss_add_sample.
  replace (match five_minute_loss s with [] => _ | l => l end) with (five_minute_loss s)
    by (destruct (five_minute_loss s); [discriminate Hl | done]).
  rewrite lost_packets_spec. cbn [mbind option_bind]. pose proof (totals_step (total_packets s) (total_lost s) (lost x) Ht (lost_bounds x)) as Hn.
  destruct (if total_lost s + lost x <=? U32_MAX then _ else _) as [packets total].
  destruct (if packets + SAMPLE_PERIOD <=? U32_MAX then _ else _) as [packets' total'].
  rewrite (proj2 (Nat.ltb_lt _ _)) by lia. eexists. split; [reflexivity |].
  split; cbn [pl_front five_minute_loss total_packets total_lost]; [| by rewrite length_insert | | exact Hn].
  - by apply Nat.mod_upper_bound.
  - rewrite window_snoc, <- Hw. by apply ring_step.
Qed.

Lemma feed_ok samples : forall losses s, loss_ok losses s ->
  exists s', feed samples s = Some s' /\ loss_ok (losses ++ (lost <$> samples)) s'.
Proof.
  induction samples as [| x samples IH]; intros losses s Hs; simpl.
  { exists s. by rewrite app_nil_r. }
  destruct (loss_step losses s x Hs) as (s1 & -> & H1). simpl.
  destruct (IH _ _ H1) as (s2 & Hs2 & H2). exists s2. by rewrite cons_middle, app_assoc.
Qed.

Lemma zsum_zeros n : zsum (replicate n 0) = 0.
Proof. induction n; done. Qed.
Lemma zsum_window losses : zsum (window losses) = zsum (drop (length losses - SAMPLES_IN_FIVE_MINUTES) losses).
Proof.
  unfold window. rewrite drop_app, zsum_app, drop_replicate, zsum_zeros, length_replicate. done.
Qed.

(** After any samples since the start the five-minute counter of a link holds the
    packets lost in the last sixty of them, that is the zeros among the first five bits
    of each, and the totals stay within 32 bits with no more lost than seen.  No sample
    panics or underflows. *)
Theorem five_minutes_exact samples :
  exists s, feed samples loss_new = Some s /\
    sum_loss s = zsum (lost <$> drop (length samples - SAMPLES_IN_FIVE_MINUTES) samples) /\
    0 <= total_lost s <= total_packets s /\ total_packets s <= U32_MAX.
Proof.
  destruct (feed_ok samples [] loss_new loss_ok_new) as (s & Hs & [_ _ Hw Ht]).
  exists s. split; [done |]. split; [| exact Ht].
  change (sum_loss s) with (zsum (five_minute_loss s)).
  rewrite <- (take_drop (pl_front s) (five_minute_loss s)), zsum_app, Z.add_comm, <- zsum_app, Hw, zsum_window.
  by rewrite app_nil_l, length_fmap, fmap_drop.
Qed.
End PacketLoss.

(** * Latency: the rounds of the monitor *)

Module Rounds.
Import Monitoring.
Export NetworkMonitor.
Section rounds.
Context {F : Type} `{FL : Float F}.

(** The rounds, each at its time; the requests with the time they were made. *)
Fixpoint observe_rounds (rounds : list (Z * NetworkInfo)) (m : NetworkMonitor F) : option (NetworkMonitor F * list (Z * ShapingAdjust)) :=
  match rounds with
  | [] => Some (m, [])
  | (now, info) :: rounds =>
      '(m, shape) ← update_network_info now info m;
      '(m, out) ← observe_rounds rounds m;
      Some (m, (pair now <$> shape) ++ out)
  end.

(** What the statistics of an interface guarantee: it was changed at some time in the
    past and the history has room. *)
Record stats_ok (now : Z) (s : RunningLatencyStats F) : Prop := {
  so_changed : exists c, last_changed s = Some c /\ c <= now;
  so_front : (front s < LATENCY_HISTORY)%nat;
  so_history : length (history s) = LATENCY_HISTORY;
}.
Lemma stats_ok_new now : stats_ok now (latency_new now).
Proof. split; [exists now; done | vm_compute; lia | done]. Qed.
Lemma stats_ok_mono t now s : t <= now -> stats_ok t s -> stats_ok now s.
Proof. intros H [(c & Hc & Hle) Hf Hh]. split; [exists c; split; [done | lia] | done | done]. Qed.
Lemma stats_ok_reset t now s : stats_ok t s -> stats_ok now (reset now s).
Proof. intros [_ Hf Hh]. split; [by exists now | done | done]. Qed.
Lemma stats_ok_set t now s : stats_ok t s -> stats_ok now (set_last_changed now s).
Proof. intros [_ Hf Hh]. split; [by exists now | done | done]. Qed.

Lemma add_sample_ok now x s : stats_ok now s ->
  exists s', add_sample now x s = Some s' /\ stats_ok now s' /\
    (last_changed s' = last_changed s \/ last_changed s' = Some now).
Proof.
  intros [(c & Hc & Hle) Hf Hh]. unfold add_sample.
  replace (match history s with [] => _ | l => l end) with (history s) by (destruct (history s); [discriminate Hh | done]).
  destruct (count s + 1 <=? U32_MAX); cbn [reset front history count last_changed];
    (rewrite (proj2 (Nat.ltb_lt _ _)) by lia); eexists; (split; [reflexivity |]);
    (split; [split; cbn [reset front history count last_changed] | auto]);
    try (by rewrite length_insert); try (by apply Nat.mod_upper_bound); by eexists.
Qed.

(** When an interface was last changed, and what a round may ask for it. *)
Definition changed_at (h : gmap text (RunningLatencyStats F)) (iface : text) : option Z := s ← h !! iface; last_changed s.
Definition increase (iface : text) : ShapingAdjust := {| sa_iface := iface; sa_action := IncreaseSpeed |}.

(** A step of one interface at [now]: the mark moves to [now] or stays, a request moves
    it, and speed is only asked for when the mark is old enough. *)
Record step_ok (now : Z) (iface : text) (s s' : RunningLatencyStats F) (shape : list ShapingAdjust) : Prop := {
  st_ok : stats_ok now s';
  st_changed : last_changed s' = last_changed s \/ last_changed s' = Some now;
  st_iface : forall a, a ∈ shape -> sa_iface a = iface /\ last_changed s' = Some now;
  st_increase : increase iface ∈ shape -> forall c, last_changed s = Some c -> BACK_OFF_TIME < now - c;
  st_one : (length shape <= 1)%nat;
}.
Lemma judge_ok now rn neigh s : stats_ok now s ->
  exists s' shape, judge now rn neigh s = Some (s', shape) /\ step_ok now (bn_iface neigh) s s' shape.
Proof.
  intros Hs. pose proof Hs as [(c & Hc & Hle) _ _].
  assert (Hkeep : step_ok now (bn_iface neigh) s s []) by (split; [done | by left | | | simpl; lia]; intros; set_solver).
  unfold judge. destruct (get_wg_key_by_ifname neigh rn), (get_avg s), (get_std_dev s); eauto.
  destruct (is_bloated s).
  { do 2 eexists. split; [reflexivity |]. split; [by eapply stats_ok_reset | by right | | | done].
    - intros a ->%list_elem_of_singleton. done.
    - intros H%list_elem_of_singleton. discriminate H. }
  rewrite Hc. cbn [mbind option_bind]. destruct (exceeded now c BACK_OFF_TIME && is_good s) eqn:E; [| eauto].
  apply andb_true_iff in E as [E _]. unfold exceeded in E. apply andb_true_iff in E as [_ E%Z.ltb_lt].
  do 2 eexists. split; [reflexivity |]. split; [by eapply stats_ok_set | by right | | | done].
  - intros a ->%list_elem_of_singleton. done.
  - intros _ c' Hc'. congruence.
Qed.

Lemma observe_latency_ok now rn neigh s : stats_ok now s ->
  exists s' shape, observe_latency now rn neigh s = Some (s', shape) /\ step_ok now (bn_iface neigh) s s' shape.
Proof.
  intros Hs. unfold observe_latency.
  destruct (judge_ok now rn neigh s Hs) as (s1 & shape & -> & [H1 C1 I1 U1 L1]). cbn [mbind option_bind].
  destruct (add_sample_ok now (of_bits (bn_rtt neigh)) s1 H1) as (s2 & -> & H2 & C2). cbn [mbind option_bind].
  pose proof H2 as [(c & Hc & _) _ _]. rewrite Hc. cbn [mbind option_bind].
  do 2 eexists. split; [reflexivity |].
  destruct (exceeded now c WINDOW_TIME).
  - split; [by eapply stats_ok_reset | by right | | done | done]. intros a Ha. by split; [apply I1 |].
  - split; [done | | | done | done].
    + destruct C1 as [<- | C1], C2 as [-> | C2]; auto.
    + intros a Ha. destruct (I1 a Ha) as [-> Hm]. split; [done |]. destruct C2 as [-> | C2]; done.
Qed.

(** ** A round *)

Definition hist_ok (now : Z) (h : gmap text (RunningLatencyStats F)) : Prop := map_Forall (fun _ s => stats_ok now s) h.
Lemma hist_ok_insert now h iface s : hist_ok now h -> stats_ok now s -> hist_ok now (<[iface := s]> h).
Proof. intros Hh Hs. by apply map_Forall_insert_2. Qed.
Lemma hist_ok_default now h iface : hist_ok now h -> stats_ok now (default (latency_new now) (h !! iface)).
Proof. intros Hh. destruct (h !! iface) as [s |] eqn:E; simpl; [by apply (Hh iface) | apply stats_ok_new]. Qed.
(** [t] is no later than the mark of the interface, if there is one. *)
Definition marked (h : gmap text (RunningLatencyStats F)) (iface : text) (t : Z) : Prop :=
  exists c, changed_at h iface = Some c /\ t <= c.

(** The speed of an interface is only raised a good while after it was last changed. *)
Definition apart (x y : Z * ShapingAdjust) : Prop :=
  sa_iface x.2 = sa_iface y.2 -> sa_action y.2 = IncreaseSpeed -> BACK_OFF_TIME < y.1 - x.1.
Lemma apart_app l k : ForallOrdPairs apart l -> ForallOrdPairs apart k ->
  (forall x y, x ∈ l -> y ∈ k -> apart x y) -> ForallOrdPairs apart (l ++ k).
Proof.
  intros Hl Hk. induction Hl as [| x l Hx Hl IH]; intros H; simpl; [done |].
  constructor; [| apply IH; intros; apply H; [by right | done]].
  apply Forall_app. split; [done |]. apply Forall_forall. intros y Hy. apply H; [by left | done].
Qed.
Lemma increase_eq (a : ShapingAdjust) : sa_action a = IncreaseSpeed -> a = increase (sa_iface a).
Proof. destruct a; simpl. by intros ->. Qed.

(** What a stretch of rounds from [h] to [h'] ending at [now] did. *)
Record stretch (now : Z) (h h' : gmap text (RunningLatencyStats F)) (out : list (Z * ShapingAdjust)) : Prop := {
  sr_ok : hist_ok now h';
  sr_marks : forall iface t, marked h iface t -> marked h' iface t;
  sr_out : forall x, x ∈ out -> marked h' (sa_iface x.2) x.1;
  sr_old : forall y t, y ∈ out -> sa_action y.2 = IncreaseSpeed -> marked h (sa_iface y.2) t -> BACK_OFF_TIME < y.1 - t;
  sr_apart : ForallOrdPairs apart out;
}.
Lemma stretch_nil now h : hist_ok now h -> stretch now h h [].
Proof. intros H. split; [done | done | set_solver | set_solver | constructor]. Qed.
Lemma stretch_app now1 now2 h h1 h2 o1 o2 : stretch now1 h h1 o1 -> stretch now2 h1 h2 o2 -> stretch now2 h h2 (o1 ++ o2).
Proof.
  intros [K1 M1 O1 P1 A1] [K2 M2 O2 P2 A2]. split; [done | by auto | | |].
  - intros x [Hx | Hx]%elem_of_app; auto.
  - intros y t [Hy | Hy]%elem_of_app Ha Hm; [by apply P1 | apply P2; auto].
  - apply apart_app; [done | done |]. intros x y Hx Hy Hi Ha. apply P2; [done | done |]. rewrite <- Hi. by apply O1.
Qed.

Lemma changed_insert h iface s i : changed_at (<[iface := s]> h) i = if decide (iface = i) then last_changed s else changed_at h i.
Proof. unfold changed_at. case_decide; simplify_map_eq; done. Qed.

Lemma stretch_step now rn neigh h : hist_ok now h ->
  exists s' shape, observe_latency now rn neigh (default (latency_new now) (h !! bn_iface neigh)) = Some (s', shape) /\
    stretch now h (<[bn_iface neigh := s']> h) (pair now <$> shape).
Proof.
  intros Hh. destruct (observe_latency_ok now rn neigh _ (hist_ok_default now h (bn_iface neigh) Hh)) as (s' & shape & -> & [K C I U L]).
  exists s', shape. split; [done |]. set (iface := bn_iface neigh) in *.
  assert (Hold : forall t, marked h iface t -> exists c, last_changed (default (latency_new now) (h !! iface)) = Some c /\ t <= c <= now).
  { intros t (c & Hc & Ht). unfold changed_at in Hc. destruct (h !! iface) as [s |] eqn:E; [| done].
    destruct (Hh iface s E) as [(c' & Hc' & Hle) _ _]. exists c'. simpl in *. split; [done |]. replace c' with c by congruence. split; [done |]. congruence. }
  split; [by apply hist_ok_insert | | | |].
  - intros i t Hm. destruct (decide (iface = i)) as [<- | Hn].
    + destruct (Hold t Hm) as (c & Hc & Ht). unfold marked. rewrite changed_insert, decide_True by done.
      destruct C as [-> | ->]; [exists c | exists now]; (split; [done | lia]).
    + unfold marked. rewrite changed_insert, decide_False by done. exact Hm.
  - intros x (a & -> & Ha)%list_elem_of_fmap. destruct (I a Ha) as [Ei Hc]. simpl. exists now.
    rewrite changed_insert, decide_True by done. done.
  - intros y t (a & -> & Ha)%list_elem_of_fmap Hinc Hm. simpl in *. destruct (I a Ha) as [Ei _].
    rewrite Ei in Hm. destruct (Hold t Hm) as (c & Hc & Ht).
    rewrite (increase_eq a Hinc), Ei in Ha. specialize (U Ha c Hc). lia.
  - destruct shape as [| a [| b shape]]; simpl in L; [constructor | repeat constructor | lia].
Qed.

Lemma observe_latencies_ok now rn neighs : forall h out, hist_ok now h ->
  exists h' shape, observe_latencies now rn neighs h out = Some (h', out ++ shape) /\ stretch now h h' (pair now <$> shape).
Proof.
  induction neighs as [| neigh neighs IH]; intros h out Hh; simpl.
  { exists h, []. rewrite app_nil_r. split; [done | by apply stretch_nil]. }
  destruct (stretch_step now rn neigh h Hh) as (s & shape & -> & H1). cbn [mbind option_bind].
  destruct (IH _ (out ++ shape) (sr_ok _ _ _ _ H1)) as (h2 & shape2 & -> & H2).
  exists h2, (shape ++ shape2). rewrite app_assoc. split; [done |]. rewrite fmap_app. by eapply stretch_app.
Qed.

(** ** All rounds *)

Definition losses_ok (m : NetworkMonitor F) : Prop :=
  map_Forall (fun _ s => exists losses, PacketLoss.loss_ok losses s) (packet_loss_history m).
Lemma observe_losses_ok neighs : forall h, map_Forall (fun _ s => exists losses, PacketLoss.loss_ok losses s) h ->
  exists h', observe_losses neighs h = Some h' /\ map_Forall (fun _ s => exists losses, PacketLoss.loss_ok losses s) h'.
Proof.
  induction neighs as [| neigh neighs IH]; intros h Hh; simpl; [by exists h |].
  assert (Hs : exists losses, PacketLoss.loss_ok losses (default loss_new (h !! bn_iface neigh))).
  { destruct (h !! bn_iface neigh) eqn:E; [by apply (Hh _ _ E) | exists []; apply PacketLoss.loss_ok_new]. }
  destruct Hs as [losses Hs]. destruct (PacketLoss.loss_step _ _ (bn_reach neigh) Hs) as (s & -> & Hs'). cbn [mbind option_bind].
  apply IH. apply map_Forall_insert_2; eauto.
Qed.

Lemma update_ok now info m : hist_ok now (latency_history m) -> losses_ok m ->
  exists m' shape, update_network_info now info m = Some (m', shape) /\ losses_ok m' /\ last_babel_dump m' = Some info /\
    stretch now (latency_history m) (latency_history m') (pair now <$> shape).
Proof.
  intros Hh Hl. unfold update_network_info, observe_network.
  change (negb (SAMPLE_PERIOD =? FAST_LOOP_SPEED)) with false. change too_slow with false. cbv iota.
  destruct (observe_latencies_ok now (rita_neighbors info) (babel_neighbors info) _ [] Hh) as (h & shape & -> & H1).
  destruct (observe_losses_ok (babel_neighbors info) _ Hl) as (l & Hl' & H2). cbn [mbind option_bind]. rewrite Hl'.
  do 2 eexists. split; [reflexivity |]. done.
Qed.

Fixpoint clock (now : Z) (rounds : list (Z * NetworkInfo)) : Prop :=
  match rounds with [] => True | (t, _) :: rounds => now <= t /\ clock t rounds end.
Lemma observe_rounds_ok rounds : forall now m, clock now rounds -> hist_ok now (latency_history m) -> losses_ok m ->
  exists m' out now', observe_rounds rounds m = Some (m', out) /\ losses_ok m' /\ stretch now' (latency_history m) (latency_history m') out.
Proof.
  induction rounds as [| [t info] rounds IH]; intros now m Hc Hh Hl; simpl.
  { exists m, [], now. split; [done |]. split; [done |]. by apply stretch_nil. }
  destruct Hc as [Ht Hc].
  assert (Hh' : hist_ok t (latency_history m)) by (eapply map_Forall_impl; [exact Hh |]; intros; by eapply stats_ok_mono).
  destruct (update_ok t info m Hh' Hl) as (m1 & shape & -> & Hl1 & _ & H1). cbn [mbind option_bind].
  destruct (IH t m1 Hc (sr_ok _ _ _ _ H1) Hl1) as (m2 & out & now' & -> & Hl2 & H2). cbn [mbind option_bind].
  do 3 eexists. split; [reflexivity |]. split; [done |]. by eapply stretch_app.
Qed.

(** C37 Whatever babel reports, the monitor never panics, and as long as the clock does
    not go back the speed of an interface is only raised more than [BACK_OFF_TIME] after
    the last request, up or down, for that interface. *)
Theorem speed_raised_slowly rounds start : clock start rounds ->
  exists m out, observe_rounds rounds monitor_new = Some (m, out) /\ ForallOrdPairs apart out.
Proof.
  intros Hc. destruct (observe_rounds_ok rounds start monitor_new Hc) as (m & out & now' & Hw & _ & Hs);
    [apply map_Forall_empty | apply map_Forall_empty |].
  exists m, out. split; [done |]. apply Hs.
Qed.
End rounds.
End Rounds.

(** * Exact arithmetic: Welford's recurrence *)

Module Welford.
Import Monitoring.
Local Open Scope Qc_scope.

Abbreviation qz := Qc_of_Z.
#[export] Instance exact_float : Float Qc := {|
  f_of_Z := qz; f_add := Qcplus; f_sub := Qcminus; f_mul := Qcmult; f_div := Qcdiv;
  f_lt := fun a b => bool_decide (a < b); f_eq := fun a b => bool_decide (a = b); of_bits := qz |}.

Definition qsum (f : Qc -> Qc) (l : list Qc) : Qc := foldr (fun x a => f x + a) 0 l.
Definition average (l : list Qc) : Qc := qsum (fun x => x) l / qz (Z.of_nat (length l)).
Definition variance (l : list Qc) : Qc := qsum (fun x => (x - average l) * (x - average l)) l / qz (Z.of_nat (length l)).

Fixpoint sample_all (now : Z) (samples : list Qc) (s : RunningLatencyStats Qc) : option (RunningLatencyStats Qc) :=
  match samples with [] => Some s | x :: samples => s ← add_sample now x s; sample_all now samples s end.

Lemma qz_nonzero z : (z <> 0)%Z -> qz z <> 0.
Proof. intros Hz E. apply Hz, Z2Qc_inj. by rewrite E, Z2Qc_inj_0. Qed.
Lemma qz_succ n : qz (Z.of_nat (S n)) = qz (Z.of_nat n) + 1.
Proof. by rewrite Nat2Z.inj_succ, <- Z.add_1_r, Z2Qc_inj_add, Z2Qc_inj_1. Qed.
Lemma qsum_cons f x l : qsum f (x :: l) = f x + qsum f l.
Proof. done. Qed.
Lemma qsum_snoc f l x : qsum f (l ++ [x]) = qsum f l + f x.
Proof. induction l as [| y l IH]; simpl; [ring |]. rewrite IH. ring. Qed.
Lemma qsum_square c l :
  qsum (fun x => (x - c) * (x - c)) l = qsum (fun x => x * x) l - qz 2 * c * qsum (fun x => x) l + qz (Z.of_nat (length l)) * c * c.
Proof.
  induction l as [| x l IH]; [change (qz (Z.of_nat (length []))) with (qz 0); rewrite Z2Qc_inj_0; cbn [qsum foldr]; ring |].
  change (length (x :: l)) with (S (length l)). rewrite qz_succ.
  rewrite !qsum_cons, IH, (Z2Qc_inj_add 1 1 : qz 2 = _), Z2Qc_inj_1. ring.
Qed.

(** The state after the samples [l]: their mean and the sum of the squared distances
    to it. *)
Record welford (l : list Qc) (s : RunningLatencyStats Qc) : Prop := {
  wf_count : count s = Z.of_nat (length l);
  wf_mean : mean s * qz (Z.of_nat (length l)) = qsum (fun x => x) l;
  wf_m2 : m2 s = qsum (fun x => x * x) l - mean s * qsum (fun x => x) l;
  wf_front : (front s < LATENCY_HISTORY)%nat;
  wf_history : length (history s) = LATENCY_HISTORY;
}.
Lemma welford_new now : welford [] (latency_new now).
Proof. split; [done | simpl; rewrite Z2Qc_inj_0; ring | simpl; rewrite Z2Qc_inj_0; ring | vm_compute; lia | done]. Qed.
Lemma welford_mean_step m n s x : qz (Z.of_nat (S n)) <> 0 -> m * qz (Z.of_nat n) = s ->
  (m + (x - m) / qz (Z.of_nat (S n))) * qz (Z.of_nat (S n)) = s + x.
Proof. intros Hn <-. rewrite qz_succ in *. field. exact Hn. Qed.
Lemma welford_m2_step m n s q x : qz (Z.of_nat (S n)) <> 0 -> m * qz (Z.of_nat n) = s ->
  let m' := m + (x - m) / qz (Z.of_nat (S n)) in
  q - m * s + (x - m) * (x - m') = q + x * x - m' * (s + x).
Proof. intros Hn <-. cbv zeta. rewrite qz_succ in *. field. exact Hn. Qed.

Lemma welford_step now x l s : (Z.of_nat (length l) < U32_MAX)%Z -> welford l s ->
  exists s', add_sample now x s = Some s' /\ welford (l ++ [x]) s'.
Proof.
  intros Hb [Hc Hm H2 Hf Hh]. unfold add_sample.
  replace (match history s with [] => _ | l => l end) with (history s) by (destruct (history s); [discriminate Hh | done]).
  rewrite (proj2 (Z.leb_le _ _)) by (rewrite Hc; lia). cbn [front history count mean m2].
  rewrite (proj2 (Nat.ltb_lt _ _)) by lia. eexists. split; [reflexivity |].
  assert (Hl : length (l ++ [x]) = S (length l)) by (rewrite length_app; simpl; lia).
  assert (Hn : qz (Z.of_nat (S (length l))) <> 0) by (apply qz_nonzero; lia).
  assert (Hc' : (count s + 1)%Z = Z.of_nat (S (length l))) by lia.
  split; cbn [count mean m2 front history]; rewrite ?Hl, ?qsum_snoc, ?Hc'; cbn [f_add f_sub f_mul f_div f_of_Z exact_float].
  - done.
  - by apply welford_mean_step.
  - rewrite H2. by apply welford_m2_step.
  - by apply Nat.mod_upper_bound.
  - by rewrite length_insert.
Qed.

Lemma sample_all_ok now samples : forall l s, (Z.of_nat (length (l ++ samples)) <= U32_MAX)%Z -> welford l s ->
  exists s', sample_all now samples s = Some s' /\ welford (l ++ samples) s'.
Proof.
  induction samples as [| x samples IH]; intros l s Hb Hw; simpl.
  { exists s. by rewrite app_nil_r. }
  destruct (welford_step now x l s) as (s1 & -> & H1); [rewrite length_app in Hb; simpl in Hb; lia | done |].
  cbn [mbind option_bind]. rewrite cons_middle, app_assoc. apply IH; [by rewrite cons_middle, app_assoc in Hb | done].
Qed.

(** In exact arithmetic the running statistics of a link are the arithmetic mean of
    the samples and, under the name of a standard deviation, their variance: no square
    root is taken. *)
Theorem std_dev_is_variance now samples :
  (2 < length samples)%nat -> (Z.of_nat (length samples) <= U32_MAX)%Z ->
  exists s, sample_all now samples (latency_new now) = Some s /\
    get_avg s = Some (average samples) /\ get_std_dev s = Some (variance samples).
Proof.
  intros Hn Hb. destruct (sample_all_ok now samples [] (latency_new now) Hb (welford_new now)) as (s & Hs & [Hc Hm H2 _ _]).
  exists s. split; [done |]. simpl app in *.
  assert (H0 : qz (Z.of_nat (length samples)) <> 0) by (apply qz_nonzero; lia).
  assert (Ha : mean s = average samples) by (unfold average; rewrite <- Hm; field; exact H0).
  unfold get_avg, get_std_dev. rewrite Hc, (proj2 (Z.ltb_lt _ _)) by lia. rewrite Ha. split; [done |].
  unfold variance. rewrite qsum_square. do 2 f_equal. rewrite H2, Ha, <- Hm, Ha.
  rewrite (Z2Qc_inj_add 1 1 : qz 2 = _), Z2Qc_inj_1. cbn. ring.
Qed.
End Welford.

Module MonitorDemo.
Import Monitoring Rounds Welford.

Definition demo_babel_neighbor (rtt : Z) : BabelNeighbor := {|
  bn_id := lit "1"; bn_address := V6 1; bn_iface := lit "wg0"; bn_reach := 63488; bn_txcost := 96; bn_rxcost := 96;
  bn_rtt := rtt; bn_rttcost := 0; bn_cost := 96 |}.
Definition demo_info (rtt : Z) : NetworkInfo :=
  {| babel_neighbors := [demo_babel_neighbor rtt]; babel_routes := []; rita_neighbors := [demo_neighbor 3 "wg0"] |}.
(** A quiet link, a spike of two seconds, and a quiet link again. *)
Definition demo_rounds : list (Z * NetworkInfo) :=
  (fun '(t, rtt) => (t * second, demo_info rtt)) <$>
    [(0, 20); (5, 20); (10, 20); (15, 20); (700, 20); (705, 20); (1400, 2000); (1405, 20); (1410, 20); (1415, 20); (1420, 20); (2100, 20)]%Z.
Example demo_requests :
  option_map (fun r => List.map (fun x => (x.1 / second, sa_action x.2)) r.2) (observe_rounds demo_rounds monitor_new)
  = Some [(700, IncreaseSpeed); (1400, IncreaseSpeed); (1405, ReduceSpeed); (2100, IncreaseSpeed)]%Z.
Proof. vm_compute. reflexivity. Qed.
Lemma speed_raised_slowly_witness : clock 0 demo_rounds /\
  exists m out, observe_rounds demo_rounds monitor_new = Some (m, out) /\ ForallOrdPairs apart out.
Proof.
  assert (Hc : clock 0 demo_rounds) by (cbn; unfold second; lia).
  split; [exact Hc | exact (speed_raised_slowly demo_rounds 0 Hc)].
Defined.

Definition demo_samples : list Qc := qz <$> [1; 2; 3; 6]%Z.
Example demo_variance : bool_decide (variance demo_samples = Qcdiv (qz 7) (qz 2)) = true.
Proof. vm_compute. reflexivity. Qed.
Lemma std_dev_is_variance_witness :
  exists s, sample_all 0 demo_samples (latency_new 0) = Some s /\
    get_avg s = Some (average demo_samples) /\ get_std_dev s = Some (variance demo_samples).
Proof. apply (std_dev_is_variance 0 demo_samples); [vm_compute; lia | vm_compute; discriminate]. Defined.

(** The tests of the source. *)
Example first_bits : get_first_n_set_bits 57344 5 = Some 3 /\ get_first_n_set_bits 64512 5 = Some 5 /\
  get_first_n_set_bits 57356 5 = Some 3 /\ get_first_n_set_bits 0 5 = Some 0.
Proof. vm_compute. auto. Qed.
End MonitorDemo.
