(* ===== verification/Loops.v ===== *)
(** The two loops every node runs (rita_common/src/rita_loop/fast_loop.rs, slow_loop.rs).
    The fast loop joins traffic watcher, network monitor, debt keeper, oracle, payment
    validator and payment controller; the slow loop carries out the shaping, looks after
    the tunnels and restarts a babeld that does not answer. *)
From Stdlib Require Import Qcanon.
From S2P Require Import Prelude Types Oracle TxFee DebtKeeper DebtKeeperSpec Trim UsageTracker PaymentValidator.
From S2P Require Import PaymentValidatorSpec ValidatorSafety PaymentController PaymentControllerSpec Text Babel TrafficWatcher TunnelManager TunnelManagerSpec TunnelEnforcement TrafficWatcherSpec DebtRound NetworkMonitor.
Open Scope Z_scope.

Module FastLoop.
Import NetworkMonitor.
Section loop.
Context {W : Type} `{K : Kernel W} `{N : Num256} `{P : Profile} {F : Type} `{FL : Float F}.
(** Code of other crates: reading the hash of a transaction and making a contact. *)
Context (parse_txhash : string -> option Z) (contact_new : string -> bool).

(** What one round meets outside of the node: the settings, the clocks, the answers of
    babeld ([None] when the stream could not be opened or read), of the kernel and of the
    full nodes, and the payments that were announced to us since the last round. *)
Record round_env := {
  re_routes : option (list Route);
  re_neighs : option (list BabelNeighbor);
  re_counters : kernel_counters;
  re_hour : option Z;
  re_now : Z;
  re_nows : Z * Z * Z;
  re_netns : Z;
  re_default : option DebtKeeper;
  re_net : net_settings;
  re_settings : PaymentSettings;
  re_tm : tm_settings;
  re_our_id : option Identity;
  re_eth_nodes : list string;
  re_grpc : list string;
  re_pick : nat;
  re_block : option Z;
  re_balance : option Z;
  re_status : option ChainStatus;
  re_althea_balance : option (option Z);
  re_debt_order : list Identity -> list Identity;
  re_incoming : list ToValidate;
  re_order : list ToValidate -> list ToValidate;
  re_validate : SystemChain -> ToValidate -> VM (option (ToValidate * bool));
  re_answers : nat -> answers;
  re_acks : nat -> option bool * option bool;
}.
Definition watch_env_of (e : round_env) : watch_env := {|
  we_netns := re_netns e; we_default := re_default e; we_settings := re_net e; we_counters := re_counters e;
  we_hour := re_hour e; we_now := re_nows e |}.
Definition debt_env_of (e : round_env) (o : BlockchainOracle) : debt_env := {|
  env_settings := re_settings e; env_now := re_now e; env_oracle := o; env_our_id := re_our_id e |}.
Definition venv_of (e : round_env) : venv := {|
  ve_netns := re_netns e; ve_default := re_default e; ve_settings := re_settings e; ve_now := re_now e;
  ve_hour := re_hour e; ve_our_id := re_our_id e |}.
Definition pay_env_of (e : round_env) (o : BlockchainOracle) : pay_env := {|
  pe_netns := re_netns e; pe_default := re_default e; pe_settings := re_settings e; pe_eth_node_list := re_eth_nodes e;
  pe_althea_grpc_list := re_grpc e; pe_oracle := o; pe_now := re_now e |}.

(** The statics of the crate. *)
Record Shared := {
  sh_node : Node W;
  sh_debts : World;
  sh_usage : UsageState;
  sh_monitor : NetworkMonitor F;
  sh_oracle : BlockchainOracle;
}.
(** The variables of the thread; the chain is read once, when the thread starts. *)
Record Local := {
  l_chain : SystemChain;
  l_validator : PaymentValidator;
  l_controller : PaymentController;
  l_outgoing : list ToValidate;
}.
Definition thread_start (chain : SystemChain) : Local :=
  {| l_chain := chain; l_validator := PaymentValidator_new; l_controller := PaymentController_new; l_outgoing := [] |}.

Definition with_debts (w : World) (u : UsageState) (s : Shared) : Shared :=
  {| sh_node := sh_node s; sh_debts := w; sh_usage := u; sh_monitor := sh_monitor s; sh_oracle := sh_oracle s |}.
Definition with_node (n : Node W) (s : Shared) : Shared :=
  {| sh_node := n; sh_debts := sh_debts s; sh_usage := sh_usage s; sh_monitor := sh_monitor s; sh_oracle := sh_oracle s |}.
Definition set_tracker (t : UsageTrackerStorage) (u : UsageState) : UsageState :=
  {| usage_tracker := t; tp_client := tp_client u; tp_relay := tp_relay u; tp_exit := tp_exit u |}.

(** An error is only logged: [outcome_state] is what was done before it, [None] after a
    panic. *)
Definition watch_traffic (e : round_env) (s : Shared) : option Shared :=
  match re_routes e with
  | None => Some s
  | Some routes =>
      w ← outcome_state (watch (watch_env_of e) routes (tm_get_neighbors (tm (sh_node s)))
                    {| ww_debts := sh_debts s; ww_usage := sh_usage s |});
      Some (with_debts (ww_debts w) (ww_usage w) s)
  end.
Definition watch_network (e : round_env) (s : Shared) : option Shared :=
  match re_routes e, re_neighs e with
  | Some routes, Some neighs =>
      '(m, shape) ← update_network_info (re_now e)
        {| babel_neighbors := neighs; babel_routes := routes; rita_neighbors := tm_get_neighbors (tm (sh_node s)) |}
        (sh_monitor s);
      n ← outcome_state (set_to_shape shape (sh_node s));
      Some {| sh_node := n; sh_debts := sh_debts s; sh_usage := sh_usage s; sh_monitor := m; sh_oracle := sh_oracle s |}
  | _, _ => Some s
  end.
(** The keys of the cloned map, in the order it yields them. *)
Definition debt_keys (e : round_env) (s : Shared) : list Identity :=
  re_debt_order e (from_option (fun l => l.*1) [] (get_debts_list (re_netns e) (re_default e) (sh_debts s))).
Definition update_debts (e : round_env) (s : Shared) : option (Shared * list UnpublishedPaymentTx) :=
  match send_debt_update (re_netns e) (re_default e) (debt_env_of e (sh_oracle s)) (debt_keys e s) (sh_debts s) with
  | Done w (changes, payments) =>
      n ← outcome_state (tm_tunnel_state_change (re_tm e) (sh_oracle s) changes (sh_node s));
      Some (with_node n (with_debts w (sh_usage s) s), payments)
  | Fail w _ => Some (with_debts w (sh_usage s) s, [])
  | Panic => None
  end.
(** [blockchain_oracle::update]. *)
Definition update_oracle (e : round_env) (o : BlockchainOracle) : option BlockchainOracle :=
  _ ← settings_eth_address (re_settings e);
  _ ← re_our_id e;
  match system_chain (re_settings e) with
  | AltheaL1 =>
      full_node ← re_grpc e !! (re_pick e mod length (re_grpc e))%nat;
      if contact_new full_node
      then update_blockchain_info_althea (re_status e) (re_althea_balance e) (althea_l1_payment_denom (re_settings e)) (re_now e) o
      else None
  | Ethereum | Sepolia | Xdai =>
      _ ← re_eth_nodes e !! (re_pick e mod length (re_eth_nodes e))%nat;
      Some (update_blockchain_info_gnosis (re_block e) (re_balance e) (re_now e) o)
  end.

(** What a round did with payments: asked for, decided by the validator, put on a
    chain. *)
Record round_log := { rl_asked : list UnpublishedPaymentTx; rl_verdicts : list (ToValidate * bool); rl_sent : list ToValidate }.

Definition fast_tick (e : round_env) (s : Shared) (l : Local) : option (Shared * Local * round_log) :=
  s ← watch_traffic e s;
  s ← watch_network e s;
  '(s, payments_to_send) ← update_debts e s;
  o ← update_oracle e (sh_oracle s);
  let vw := {| vw_debts := sh_debts s; vw_usage := usage_tracker (sh_usage s) |} in
  match tick_payment_validator (venv_of e) (re_validate e (l_chain l)) (l_outgoing l) (re_incoming e) (re_order e)
          (l_chain l) (l_validator l) vw with
  | Done vw (v, verdicts) =>
      '(w, c, sent) ← tick_payment_controller (pay_env_of e o) parse_txhash contact_new
        payments_to_send (re_answers e) (re_acks e) (l_controller l) (vw_debts vw);
      Some ({| sh_node := sh_node s; sh_debts := w; sh_usage := set_tracker (vw_usage vw) (sh_usage s);
               sh_monitor := sh_monitor s; sh_oracle := o |},
            {| l_chain := l_chain l; l_validator := v; l_controller := c; l_outgoing := sent |},
            {| rl_asked := payments_to_send; rl_verdicts := verdicts; rl_sent := sent |})
  | _ => None
  end.

Fixpoint fast_loop (es : list round_env) (s : Shared) (l : Local) : option (Shared * Local * list round_log) :=
  match es with
  | [] => Some (s, l, [])
  | e :: es =>
      '(s, l, log) ← fast_tick e s l;
      '(s, l, logs) ← fast_loop es s l;
      Some (s, l, log :: logs)
  end.

(** ** Where every payment is *)

(** What a tick hands from one part to the next. *)
Lemma fast_tick_inv e s l s' l' log :
  fast_tick e s l = Some (s', l', log) ->
  exists our o vw vw' w w',
    settings_eth_address (re_settings e) = Some our /\
    tick_payment_validator (venv_of e) (re_validate e (l_chain l)) (l_outgoing l) (re_incoming e) (re_order e)
      (l_chain l) (l_validator l) vw = Done vw' (l_validator l', rl_verdicts log) /\
    tick_payment_controller (pay_env_of e o) parse_txhash contact_new (rl_asked log) (re_answers e) (re_acks e)
      (l_controller l) w = Some (w', l_controller l', rl_sent log) /\
    l_outgoing l' = rl_sent log.
Proof.
  unfold fast_tick. intros H.
  destruct (watch_traffic e s) as [s1 |]; [| done]. cbn [mbind option_bind] in H.
  destruct (watch_network e s1) as [s2 |]; [| done]. cbn [mbind option_bind] in H.
  destruct (update_debts e s2) as [[s3 payments] |]; [| done]. cbn [mbind option_bind] in H.
  destruct (update_oracle e (sh_oracle s3)) as [o |] eqn:Eo; [| done]. cbn [mbind option_bind] in H.
  destruct (tick_payment_validator _ _ _ _ _ _ _ _) as [vw' [v verdicts] | |] eqn:Ev; [| done..].
  destruct (tick_payment_controller _ _ _ _ _ _ _ _) as [[[w' c] sent] |] eqn:Ec; [| done].
  injection H as <- <- <-. unfold update_oracle in Eo.
  destruct (settings_eth_address (re_settings e)) as [our |]; [| done].
  exists our, o. do 4 eexists. split; [reflexivity |]. split; [exact Ev |]. split; [exact Ec | done].
Qed.

(** A sound environment: verdicts are about the payment that was asked about, and a hash
    set yields its elements. *)
Definition env_ok (e : round_env) : Prop := (forall c, Validator (re_validate e c)) /\ (forall l, re_order e l ≡ₚ l).

Definition asked (logs : list round_log) : list UnpublishedPaymentTx := logs ≫= rl_asked.
Definition sent (logs : list round_log) : list ToValidate := logs ≫= rl_sent.
Definition refused (logs : list round_log) : list Z := logs ≫= (fun log => failures (rl_verdicts log)).
(** A published payment is on its way to the validator, in its books, or was refused. *)
Definition accounted (l : Local) (logs : list round_log) (ts : ToValidate) : Prop :=
  ts ∈ l_outgoing l \/ tv_txid ts ∈ all_txids (l_validator l) \/ tv_txid ts ∈ refused logs.

Record books (es : list round_env) (l : Local) (logs : list round_log) : Prop := {
  bk_ok : pv_ok (l_validator l);
  bk_paid : exists paid, asked logs ≡ₚ paid ++ outgoing_queue (l_controller l) /\
      Forall2 (fun p ts => exists e o, e ∈ es /\ published (pay_env_of e o) p ts) paid (sent logs);
  bk_known : forall ts, ts ∈ sent logs -> accounted l logs ts;
}.

Lemma books_start chain : books [] (thread_start chain) [].
Proof.
  split; [apply new_validator_ok | exists []; by split; [| constructor] |]. intros ts H%elem_of_nil. done.
Qed.

Lemma asked_snoc logs log : asked (logs ++ [log]) = asked logs ++ rl_asked log.
Proof. unfold asked. rewrite bind_app. simpl. by rewrite app_nil_r. Qed.
Lemma sent_snoc logs log : sent (logs ++ [log]) = sent logs ++ rl_sent log.
Proof. unfold sent. rewrite bind_app. simpl. by rewrite app_nil_r. Qed.
Lemma refused_snoc logs log : refused (logs ++ [log]) = refused logs ++ failures (rl_verdicts log).
Proof. unfold refused. rewrite bind_app. simpl. by rewrite app_nil_r. Qed.

Lemma books_step es e s l logs s' l' log :
  env_ok e -> books es l logs -> fast_tick e s l = Some (s', l', log) -> books (es ++ [e]) l' (logs ++ [log]).
Proof.
  intros [Hval Hord] [Hok (paid & Hpm & Hpub) Hknown] Ht.
  destruct (fast_tick_inv _ _ _ _ _ _ Ht) as (our & o & vw & vw' & w & w' & Hour & Hv & Hc & Hout).
  pose proof (tick_books (venv_of e) (re_validate e (l_chain l)) (re_order e) Hord (l_outgoing l) (re_incoming e)
    (l_chain l) (l_validator l) vw our Hok Hour) as Hb. rewrite Hv in Hb. destruct Hb as (Hok' & _ & Htx).
  destruct (tick_accounts _ _ _ _ _ _ _ _ _ _ _ Hc) as (paid' & Hpm' & Hpub').
  split; [done | |].
  - exists (paid ++ paid'). rewrite asked_snoc, sent_snoc. split.
    + rewrite Hpm, <- !app_assoc. by rewrite Hpm'.
    + apply Forall2_app.
      * eapply Forall2_impl; [exact Hpub |]. intros p ts (e' & o' & He & Hp). exists e', o'. split; [| done]. apply elem_of_app. by left.
      * eapply Forall2_impl; [exact Hpub' |]. intros p ts Hp. exists e, o. split; [| done]. apply elem_of_app. right. by left.
  - intros ts. rewrite sent_snoc. unfold accounted. rewrite refused_snoc, Hout.
    intros [Hts | Hts]%elem_of_app; [| by left]. right.
    assert (Hin : tv_txid ts ∈ all_txids (add_all (l_outgoing l ++ re_incoming e) (l_validator l)) \/ tv_txid ts ∈ refused logs).
    { destruct (Hknown ts Hts) as [H | [H | H]]; [left | left | by right].
      - apply (add_all_txids _ _ Hok). right. rewrite fmap_app. apply elem_of_app. left. by apply list_elem_of_fmap_2.
      - apply (add_all_txids _ _ Hok). by left. }
    destruct Hin as [Hin | Hin]; [| right; apply elem_of_app; by left].
    rewrite Htx in Hin. apply elem_of_app in Hin as [Hin | Hin]; [right; apply elem_of_app; by right | by left].
Qed.

Lemma books_run es : forall es0 s l logs s' l' logs', Forall env_ok es -> books es0 l logs ->
  fast_loop es s l = Some (s', l', logs') -> books (es0 ++ es) l' (logs ++ logs').
Proof.
  induction es as [| e es IH]; intros es0 s l logs s' l' logs' He Hb H; simpl in H.
  { injection H as <- <- <-. by rewrite !app_nil_r. }
  apply Forall_cons in He as [He1 He].
  destruct (fast_tick e s l) as [[[s1 l1] log] |] eqn:E1; [| done]. cbn [mbind option_bind] in H.
  destruct (fast_loop es s1 l1) as [[[s2 l2] logs2] |] eqn:E2; [| done]. injection H as <- <- <-.
  rewrite (cons_middle e), (cons_middle log), !app_assoc. eapply IH; [done | | exact E2]. by eapply books_step.
Qed.

(** C16 Over any number of rounds of the fast loop no payment is lost or made twice: the
    payments the debt keeper asked for are, up to order, the ones still in the queue of
    the controller and the ones published, each once and with its amount; and a published
    one is on its way to the validator, in the books of the validator, or was refused by
    it. *)
Theorem payments_never_lost es chain s s' l logs :
  Forall env_ok es -> fast_loop es s (thread_start chain) = Some (s', l, logs) ->
  exists paid, asked logs ≡ₚ paid ++ outgoing_queue (l_controller l) /\
    Forall2 (fun p ts => exists e o, e ∈ es /\ published (pay_env_of e o) p ts) paid (sent logs) /\
    forall ts, ts ∈ sent logs -> accounted l logs ts.
Proof.
  intros He H. destruct (books_run es [] s _ [] s' l logs He (books_start chain) H) as [_ (paid & Hp & Hf) Hk].
  exists paid. by split_and!.
Qed.

(** ** What reaches the shaper *)

Lemma update_debts_node e s s' payments : update_debts e s = Some (s', payments) ->
  sh_monitor s' = sh_monitor s /\ shaper (tm (sh_node s')) = shaper (tm (sh_node s)).
Proof.
  unfold update_debts. destruct (send_debt_update _ _ _ _ _) as [w [changes pays] | w x |]; [| by intros [= <- <-] | done].
  destruct (state_change_spec (re_tm e) (sh_oracle s) changes (sh_node s)) as (w' & m & -> & _). simpl. by intros [= <- <-].
Qed.

Lemma fast_tick_shaper e s l s' l' log routes neighs :
  fast_tick e s l = Some (s', l', log) -> re_routes e = Some routes -> re_neighs e = Some neighs ->
  exists shape, update_network_info (re_now e)
      {| babel_neighbors := neighs; babel_routes := routes; rita_neighbors := tm_get_neighbors (tm (sh_node s)) |} (sh_monitor s)
      = Some (sh_monitor s', shape) /\
    shaper (tm (sh_node s')) = {| reset_flag := reset_flag (shaper (tm (sh_node s))); to_shape := shape |}.
Proof.
  unfold fast_tick, watch_traffic, watch_network. intros H Hr Hn. rewrite Hr, Hn in H. cbv iota in H.
  destruct (outcome_state (watch _ _ _ _)) as [ww |]; [| done]. cbn [mbind option_bind] in H.
  cbn [with_debts sh_node sh_monitor] in H.
  destruct (update_network_info _ _ _) as [[m shape] |]; [| done].
  cbn [mbind option_bind outcome_state set_to_shape modify] in H.
  destruct (update_debts e _) as [[s3 payments] |] eqn:E3; [| done]. apply update_debts_node in E3 as [Hm Hs].
  cbn [mbind option_bind] in H. destruct (update_oracle e (sh_oracle s3)) as [o |]; [| done]. cbn [mbind option_bind] in H.
  destruct (tick_payment_validator _ _ _ _ _ _ _ _) as [vw' [v verdicts] | |]; [| done..].
  destruct (tick_payment_controller _ _ _ _ _ _ _ _) as [[[w' c] sent'] |]; [| done].
  injection H as <- <- <-. exists shape. cbn [sh_monitor sh_node]. rewrite Hm, Hs. done.
Qed.

(** Only the requests of the last round reach the shaper: whatever earlier rounds
    asked for, a round in which babeld answers and that asks for nothing leaves the pass
    of the shaper without anything to do.  Since the shaper runs far less often than the
    rounds, most requests are dropped. *)
Theorem shaping_request_erased ts usize_max e s l s' l' log routes neighs m :
  fast_tick e s l = Some (s', l', log) -> re_routes e = Some routes -> re_neighs e = Some neighs ->
  update_network_info (re_now e)
    {| babel_neighbors := neighs; babel_routes := routes; rita_neighbors := tm_get_neighbors (tm (sh_node s)) |} (sh_monitor s)
    = Some (m, []) ->
  shaper_enabled (shaper_settings ts) = true -> reset_flag (shaper (tm (sh_node s))) = false ->
  handle_shaping ts usize_max (sh_node s') = Done (sh_node s') tt.
Proof.
  intros Ht Hr Hn Hu He Hf. destruct (fast_tick_shaper _ _ _ _ _ _ _ _ Ht Hr Hn) as (shape & Hu' & Hs).
  rewrite Hu in Hu'. injection Hu' as _ <-.
  unfold handle_shaping, get_st, bind. by rewrite He, Hs, Hf.
Qed.
End loop.
End FastLoop.

(** * The slow loop *)

Module SlowLoop.
Section loop.
Context {W : Type} `{K : Kernel W} `{P : Profile}.

Definition BABEL_RESTART_COUNT : Z := 10.

(** What babeld answers in one pass: whether the stream opens, whether each command is
    accepted, and the interfaces. *)
Record babel_answers := { ba_open : bool; ba_fee : bool; ba_factor : bool; ba_interfaces : option (list Interface) }.
Definition update_babel_price_and_metric_factor (a : babel_answers) : bool := ba_fee a && ba_factor a.

Record SlowState := { ss_node : Node W; num_babel_failures : Z }.
(** One pass; the second component says whether babeld is restarted.  The token bridge
    and the simulated fee, which also run here, share nothing with the rest. *)
Definition slow_tick (ts : tm_settings) (usize_max : Z) (view : Tunnel -> gc_view) (a : babel_answers) (s : SlowState)
    : option (SlowState * bool) :=
  n ← outcome_state (handle_shaping ts usize_max (ss_node s));
  '(n, failures) ←
    (if ba_open a then
       let failures := num_babel_failures s + (if update_babel_price_and_metric_factor a then 0 else 1) in
       match ba_interfaces a with
       | Some interfaces => n ← outcome_state (tm_common_slow_loop_helper interfaces view n); Some (n, 0)
       | None => Some (n, failures + 1)
       end
     else Some (n, num_babel_failures s + 1));
  let failures := failures + 1 in
  Some ({| ss_node := n; num_babel_failures := failures |}, BABEL_RESTART_COUNT <? failures).

(** A pass that heard nothing useful from babeld. *)
Definition failed (a : babel_answers) : bool := negb (ba_open a && bool_decide (is_Some (ba_interfaces a))).
(** The failures in a row at the end of a history. *)
Fixpoint in_a_row (n : Z) (history : list babel_answers) : Z :=
  match history with [] => n | a :: rest => in_a_row (if failed a then n + 1 else 0) rest end.

Fixpoint slow_loop (ts : tm_settings) (usize_max : Z) (view : Tunnel -> gc_view) (history : list babel_answers) (s : SlowState)
    : option (SlowState * list bool) :=
  match history with
  | [] => Some (s, [])
  | a :: rest =>
      '(s, restarted) ← slow_tick ts usize_max view a s;
      '(s, l) ← slow_loop ts usize_max view rest s;
      Some (s, restarted :: l)
  end.

(** The counter against the failures in a row. *)
Definition counts (k n : Z) : Prop := 0 <= k /\ 2 * k <= n <= 3 * k + 1.
Lemma slow_tick_counts ts usize_max view a s s' r k :
  slow_tick ts usize_max view a s = Some (s', r) -> counts k (num_babel_failures s) ->
  counts (if failed a then k + 1 else 0) (num_babel_failures s') /\ r = (BABEL_RESTART_COUNT <? num_babel_failures s').
Proof.
  unfold slow_tick, failed, counts. intros H Hk.
  destruct (outcome_state (handle_shaping _ _ _)) as [n |]; [| done]. cbn [mbind option_bind] in H.
  destruct (ba_open a); [destruct (ba_interfaces a) as [ifs |] |]; simpl.
  - destruct (outcome_state _) as [n' |]; [| done]. injection H as <- <-. simpl. split; [lia | done].
  - injection H as <- <-. simpl. split; [destruct (update_babel_price_and_metric_factor a); lia | done].
  - injection H as <- <-. simpl. split; [lia | done].
Qed.
Lemma slow_loop_counts ts usize_max view history : forall s s' l k,
  slow_loop ts usize_max view history s = Some (s', l) -> counts k (num_babel_failures s) ->
  length l = length history /\
  forall i b, l !! i = Some b -> exists c, counts (in_a_row k (take (S i) history)) c /\ b = (BABEL_RESTART_COUNT <? c).
Proof.
  induction history as [| a rest IH]; intros s s' l k H Hk; simpl in H.
  { injection H as <- <-. by split; [| intros i b Hi]. }
  destruct (slow_tick _ _ _ a s) as [[s1 r] |] eqn:E; [| done]. cbn [mbind option_bind] in H.
  destruct (slow_loop _ _ _ rest s1) as [[s2 l2] |] eqn:E2; [| done]. injection H as <- <-.
  destruct (slow_tick_counts _ _ _ _ _ _ _ _ E Hk) as [Hk1 Hr].
  destruct (IH _ _ _ _ E2 Hk1) as [Hlen Hl]. simpl. split; [by f_equal |].
  intros [| i] b Hi; [| by apply Hl]. injection Hi as <-. by eexists.
Qed.

(** babeld is restarted in a pass only if at least four passes in a row, this one
    included, failed to read its interfaces, and it is restarted if six did: every pass
    adds one to the counter by itself, so the ten failures of [BABEL_RESTART_COUNT] are
    never needed. *)
Theorem babel_restart_bounds ts usize_max view history n s' l :
  slow_loop ts usize_max view history {| ss_node := n; num_babel_failures := 0 |} = Some (s', l) ->
  length l = length history /\
  forall i b, l !! i = Some b ->
    (b = true -> 4 <= in_a_row 0 (take (S i) history)) /\ (6 <= in_a_row 0 (take (S i) history) -> b = true).
Proof.
  intros H. destruct (slow_loop_counts _ _ _ _ _ _ _ 0 H) as [Hlen Hl]; [unfold counts; simpl; lia |].
  split; [done |]. intros i b Hi. destruct (Hl i b Hi) as (c & Hc & ->). unfold counts, BABEL_RESTART_COUNT in *.
  rewrite Z.ltb_lt. lia.
Qed.
End loop.
End SlowLoop.

Module LoopDemo.
Import FastLoop NetworkMonitor Welford.

Definition no_counters : kernel_counters :=
  {| kc_input := Some ∅; kc_fwd_input := Some ∅; kc_output := Some ∅; kc_fwd_output := Some ∅ |}.
(** A round at a time in seconds; babeld reports the round trip time of one link. *)
Definition demo_round_env (t rtt : Z) : round_env := {|
  re_routes := Some []; re_neighs := Some [MonitorDemo.demo_babel_neighbor rtt]; re_counters := no_counters; re_hour := Some 1;
  re_now := secs t; re_nows := (1, 2, 3); re_netns := 0; re_default := None; re_net := demo_net_settings;
  re_settings := demo_settings true; re_tm := demo_tm_settings; re_our_id := Some TxFee.demo_identity;
  re_eth_nodes := ["https://node"]; re_grpc := []; re_pick := 5; re_block := Some 10; re_balance := Some 1000;
  re_status := None; re_althea_balance := None; re_debt_order := id; re_incoming := []; re_order := id;
  re_validate := fun _ _ => ret None; re_answers := fun _ => demo_answers; re_acks := fun _ => (None, None) |}.
Definition demo_shared : Shared (W := demo_sys) (F := Qc) := {|
  sh_node := demo_start; sh_debts := DebtRound.demo_world; sh_usage := ww_usage demo_watch_world; sh_monitor := monitor_new;
  sh_oracle := demo_oracle (Some (secs 999)) |}.
Definition demo_es : list round_env := [demo_round_env 1000 20; demo_round_env 1005 20].
Abbreviation demo_fast := (@fast_loop demo_sys demo_kernel Num256_panicking debug_profile Qc exact_float
  (fun _ => None) (fun _ => true) demo_es demo_shared (thread_start Xdai)).
Example demo_fast_payment :
  option_map (fun r => (length (asked r.2), length (sent r.2), pending_txids (l_validator r.1.2))) demo_fast = Some (1%nat, 1%nat, [78]).
Proof. vm_compute. reflexivity. Qed.
Lemma demo_env_ok : Forall env_ok demo_es.
Proof.
  assert (H : forall t rtt, env_ok (demo_round_env t rtt)) by (intros; split; [intros c ts w w' r b; discriminate | done]).
  apply Forall_forall. intros e [-> | [-> | []%elem_of_nil]%elem_of_cons]%elem_of_cons; apply H.
Qed.
Lemma payments_never_lost_witness :
  match demo_fast with
  | Some (_, l, logs) => exists paid, asked logs ≡ₚ paid ++ outgoing_queue (l_controller l) /\
      Forall2 (fun p ts => exists e o, e ∈ demo_es /\ published (N := Num256_panicking) (pay_env_of e o) p ts) paid (sent logs) /\
      forall ts, ts ∈ sent logs -> accounted l logs ts
  | None => False
  end.
Proof.
  pose proof demo_fast_payment as H.
  destruct demo_fast as [[[s' l] logs] |] eqn:E; [| discriminate H].
  exact (payments_never_lost _ _ demo_es Xdai demo_shared s' l logs demo_env_ok E).
Defined.

(** A round that asks for nothing, so nothing is shaped. *)
Abbreviation demo_tick := (@fast_tick demo_sys demo_kernel Num256_panicking debug_profile Qc exact_float (fun _ => None)
  (fun _ => true) (demo_round_env 1000 20) demo_shared (thread_start Xdai)).
Example demo_tick_runs : bool_decide (is_Some demo_tick) = true.
Proof. vm_compute. reflexivity. Qed.
Example demo_quiet :
  option_map snd (update_network_info (secs 1000)
    {| babel_neighbors := [MonitorDemo.demo_babel_neighbor 20]; babel_routes := [];
       rita_neighbors := tm_get_neighbors (tm (sh_node demo_shared)) |} (sh_monitor demo_shared)) = Some [].
Proof. vm_compute. reflexivity. Qed.
Lemma shaping_request_erased_witness :
  match demo_tick with
  | Some (s', _, _) => handle_shaping (P := debug_profile) demo_tm_settings (2 ^ 64 - 1) (sh_node s') = Done (sh_node s') tt
  | None => False
  end.
Proof.
  pose proof demo_tick_runs as H. destruct demo_tick as [[[s' l'] log] |] eqn:E; [| discriminate H].
  pose proof demo_quiet as Hq.
  destruct (update_network_info (F := Qc) _ _ _) as [[m shape] |] eqn:Eu; [| discriminate Hq]. injection Hq as ->.
  exact (shaping_request_erased _ _ demo_tm_settings (2 ^ 64 - 1) _ _ _ _ _ _ _ _ _ E eq_refl eq_refl Eu eq_refl eq_refl).
Defined.

(** A daemon that never answers is restarted in the sixth pass. *)
Definition silent : SlowLoop.babel_answers :=
  {| SlowLoop.ba_open := false; SlowLoop.ba_fee := false; SlowLoop.ba_factor := false; SlowLoop.ba_interfaces := None |}.
Abbreviation demo_slow := (SlowLoop.slow_loop (P := debug_profile) demo_tm_settings (2 ^ 64 - 1)
  (fun _ => {| now_for_created := 0; now_for_contact := 0; handshakes := None |}) (replicate 7 silent)
  {| SlowLoop.ss_node := demo_start; SlowLoop.num_babel_failures := 0 |}).
Example demo_restarts : option_map snd demo_slow = Some [false; false; false; false; false; true; true].
Proof. vm_compute. reflexivity. Qed.
Lemma babel_restart_bounds_witness :
  match demo_slow with
  | Some (_, l) => length l = 7%nat /\ forall i b, l !! i = Some b ->
      (b = true -> 4 <= SlowLoop.in_a_row 0 (take (S i) (replicate 7 silent))) /\
      (6 <= SlowLoop.in_a_row 0 (take (S i) (replicate 7 silent)) -> b = true)
  | None => False
  end.
Proof.
  pose proof demo_restarts as H. destruct demo_slow as [[s' l] |] eqn:E; [| discriminate H].
  exact (SlowLoop.babel_restart_bounds _ _ _ _ _ s' l E).
Defined.
End LoopDemo.
