(* ===== verification/IpIncrement.v ===== *)
(** Handing out addresses (rita_common/src/utils/ip_increment.rs): the next
    address of a subnet. An address is its big endian value; the two copies of
    the code for 32 and 128 bits are one definition with the width [w]. *)
From S2P Require Import Prelude Types.

Module IpIncrement.
Section increment.
Context `{P : Profile}.

(** A shift by at least the width panics with overflow checks on, and uses the
    shift modulo the width otherwise. *)
Definition shl_one (w shift : Z) : option Z :=
  if shift <? w then Some (Z.shiftl 1 shift)
  else if overflow_checks then None else Some (Z.shiftl 1 (shift mod w)).

Definition flip_bit_at_index (w : Z) (input bit : Z) : option Z :=
  shift ← u8_of (w - 1 - bit);
  mask ← shl_one w shift;
  Some (Z.lxor input mask).
Definition flip_bit_at_index_u32 := flip_bit_at_index 32.
Definition flip_bit_at_index_u128 := flip_bit_at_index 128.

(** The loop [for i in 0..netmask]. *)
Fixpoint mask_loop (w : Z) (n : nat) (i mask : Z) : option Z :=
  match n with
  | O => Some mask
  | S n => m ← flip_bit_at_index w mask i; mask_loop w n (i + 1) m
  end.
Definition mask_of (w netmask : Z) : option Z := mask_loop w (Z.to_nat netmask) 0 0.

(** The result: an address or the error that the space is exhausted; [None] is
    a panic. *)
Definition increment_w (w address netmask : Z) : option (RitaCommonError + Z) :=
  mask ← mask_of w netmask;
  new_ip ← native 0 (2 ^ w - 1) (address + 1);
  if Z.land new_ip (2 ^ w - 1 - mask) =? 0
  then Some (inl (MiscStringError "Address space exhausted!"))
  else Some (inr new_ip).
Definition incrementv4 := increment_w 32.
Definition incrementv6 := increment_w 128.

Definition increment (address : IpAddr) (netmask : Z) : option (RitaCommonError + IpAddr) :=
  if negb (netmask mod 8 =? 0) then None
  else
    match address with
    | V4 address =>
        r ← incrementv4 address netmask;
        Some (match r with inr addr => inr (V4 addr) | inl e => inl e end)
    | V6 address =>
        r ← incrementv6 address netmask;
        Some (match r with inr addr => inr (V6 addr) | inl e => inl e end)
    end.
End increment.
End IpIncrement.
Export IpIncrement.

(** * Correctness *)

(** The prefix mask: the [n] highest of [w] bits. *)
Definition prefix_mask (w n : Z) : Z := 2 ^ w - 2 ^ (w - n).

Section correct.
Context `{P : Profile}.

Lemma flip_next w n :
  0 <= n < w -> w <= 128 -> flip_bit_at_index w (prefix_mask w n) n = Some (prefix_mask w (n + 1)).
Proof.
  intros Hn Hw. unfold flip_bit_at_index, u8_of. rewrite native_exact by (unfold U8_MAX; lia). simpl.
  unfold shl_one. rewrite (proj2 (Z.ltb_lt _ _)) by lia. simpl. f_equal.
  rewrite Z.shiftl_1_l. unfold prefix_mask. replace (w - (n + 1)) with (w - 1 - n) by lia.
  assert (E : 2 ^ (w - n) = 2 * 2 ^ (w - 1 - n)) by (rewrite <- Z.pow_succ_r by lia; f_equal; lia).
  rewrite <- Z.add_nocarry_lxor; [lia|].
  replace (2 ^ w - 2 ^ (w - n)) with (Z.shiftl (2 ^ n - 1) (w - n)).
  2:{ rewrite Z.shiftl_mul_pow2, Z.mul_sub_distr_r, <- Z.pow_add_r by lia.
      replace (n + (w - n)) with w by lia. lia. }
  apply Z.bits_inj'. intros k Hk. rewrite Z.land_spec, Z.bits_0, Z.shiftl_spec, Z.pow2_bits_eqb by lia.
  destruct (Z.eqb_spec (w - 1 - n) k); [|apply andb_false_r].
  rewrite Z.testbit_neg_r by lia. done.
Qed.

Lemma mask_loop_exact w k n :
  0 <= n -> n + Z.of_nat k <= w -> w <= 128 ->
  mask_loop w k n (prefix_mask w n) = Some (prefix_mask w (n + Z.of_nat k)).
Proof.
  revert n. induction k as [|k IH]; intros n Hn Hk Hw; simpl; [by rewrite Z.add_0_r|].
  rewrite flip_next by lia. simpl. rewrite IH by lia. do 2 f_equal. lia.
Qed.

Lemma mask_of_exact w n : 0 <= n <= w -> w <= 128 -> mask_of w n = Some (prefix_mask w n).
Proof.
  intros Hn Hw. unfold mask_of. replace 0 with (prefix_mask w 0) at 2 by (unfold prefix_mask; rewrite Z.sub_0_r; lia).
  rewrite mask_loop_exact by lia. do 2 f_equal. lia.
Qed.

Lemma increment_w_exact w a n :
  0 <= n <= w -> 0 < w <= 128 -> 0 <= a < 2 ^ w - 1 ->
  increment_w w a n = Some (if (a + 1) mod 2 ^ (w - n) =? 0
                            then inl (MiscStringError "Address space exhausted!") else inr (a + 1)).
Proof.
  intros Hn Hw Ha. unfold increment_w. rewrite mask_of_exact by lia. simpl.
  rewrite native_exact by lia. simpl. unfold prefix_mask.
  replace (2 ^ w - 1 - (2 ^ w - 2 ^ (w - n))) with (Z.ones (w - n)) by (rewrite Z.ones_equiv; lia).
  rewrite Z.land_ones by lia. by destruct (_ =? 0).
Qed.
End correct.

(** Network prefix of an address. *)
Definition network (w netmask a : Z) : Z := a / 2 ^ (w - netmask).

Lemma next_in_network w n a :
  0 <= n <= w -> 0 <= a ->
  (network w n (a + 1) = network w n a <-> (a + 1) mod 2 ^ (w - n) <> 0).
Proof.
  intros Hn Ha. unfold network. set (m := 2 ^ (w - n)).
  assert (Hm : 0 < m) by (apply Z.pow_pos_nonneg; lia).
  pose proof (Z.div_mod a m ltac:(lia)). pose proof (Z.mod_pos_bound a m Hm).
  pose proof (Z.div_mod (a + 1) m ltac:(lia)). pose proof (Z.mod_pos_bound (a + 1) m Hm).
  split; [intros E1 E; nia|]. intros E. nia.
Qed.

(** The next address is handed out exactly as long as it lies in the same
    network: the result is the address plus one, and the error comes exactly
    when the host part of the address is all ones, for both address families
    and every mask length of whole bytes. *)
Theorem increment_stays_in_network `{P : Profile} (a netmask : Z) :
  netmask mod 8 = 0 ->
  (0 <= netmask <= 32 -> 0 <= a < 2 ^ 32 - 1 ->
     (network 32 netmask (a + 1) = network 32 netmask a -> increment (V4 a) netmask = Some (inr (V4 (a + 1))))
     /\ (network 32 netmask (a + 1) <> network 32 netmask a -> exists err, increment (V4 a) netmask = Some (inl err)))
  /\ (0 <= netmask <= 128 -> 0 <= a < 2 ^ 128 - 1 ->
     (network 128 netmask (a + 1) = network 128 netmask a -> increment (V6 a) netmask = Some (inr (V6 (a + 1))))
     /\ (network 128 netmask (a + 1) <> network 128 netmask a -> exists err, increment (V6 a) netmask = Some (inl err))).
Proof.
  intros H8. unfold increment, incrementv4, incrementv6. rewrite (proj2 (Z.eqb_eq _ _) H8). simpl.
  split; intros Hn Ha; (rewrite increment_w_exact by lia); (rewrite next_in_network by lia); simpl;
    destruct (Z.eqb_spec ((a + 1) mod 2 ^ (32 - netmask)) 0), (Z.eqb_spec ((a + 1) mod 2 ^ (128 - netmask)) 0);
    simpl; eauto; naive_solver.
Qed.

Lemma increment_stays_in_network_witness :
  increment (P := release_profile) (V4 (2 ^ 24 + 255)) 16 = Some (inr (V4 (2 ^ 24 + 256)))
  /\ exists err, increment (P := release_profile) (V4 (2 ^ 24 + 65535)) 16 = Some (inl err).
Proof.
  split.
  - apply (proj1 (proj1 (increment_stays_in_network (P := release_profile) (2 ^ 24 + 255) 16 eq_refl) ltac:(lia) ltac:(lia))).
    vm_compute. reflexivity.
  - apply (proj2 (proj1 (increment_stays_in_network (P := release_profile) (2 ^ 24 + 65535) 16 eq_refl) ltac:(lia) ltac:(lia))).
    vm_compute. congruence.
Defined.
