(* ===== verification/PeerMessage.v ===== *)
(** The neighbour discovery packets (rita_common/src/peer_listener/message.rs):
    encoding and decoding of ImHere and Hello. A byte is a number below 256;
    the bincode encoding of a Hello is code of another crate. *)
From S2P Require Import Prelude Types.

Definition byte_list : Type := list Z.
Definition is_byte (b : Z) : bool := in_range 0 255 b.

Module PeerMessage.

Inductive PeerMessage :=
| ImHere (addr : Z)
| Hello (my_id : LocalIdentity) (response : bool) (sender_wgport : Z).

Inductive MessageError :=
| InvalidPayloadError
| BufferUnderflow
| InvalidMagic
| IoError
| InvalidIpAddress
| DeserializationError.

Definition MSG_IM_HERE : Z := 0x5b.
Definition MSG_IM_HERE_LEN : Z := 19.
Definition MSG_HELLO : Z := 0x6c.

(** Big endian numbers. *)
Definition put_u16 (x : Z) : byte_list := [x / 256; x mod 256].
Fixpoint octets (n : nat) (a : Z) : byte_list :=
  match n with O => [] | S n => octets n (a / 256) ++ [a mod 256] end.
Definition read_u8 (buf : byte_list) : option (Z * byte_list) :=
  match buf with b :: rest => Some (b, rest) | [] => None end.
Definition read_u16 (buf : byte_list) : option (Z * byte_list) :=
  match buf with a :: b :: rest => Some (a * 256 + b, rest) | _ => None end.

(** The bincode crate: encoding may fail, and what it writes it reads back, also
    with nothing known about what it does with other input. *)
Class Bincode := {
  serialize : PeerMessage -> option byte_list;
  deserialize : byte_list -> option PeerMessage;
}.
Class BincodeLaws (B : Bincode) : Prop :=
  bincode_roundtrip m b : serialize m = Some b -> deserialize b = Some m.

Section codec.
Context `{B : Bincode} `{P : Profile}.

(** [None] is a panic: the sum of the lengths is a [u16]. *)
Definition encode (m : PeerMessage) : option byte_list :=
  match m with
  | ImHere addr => Some ([MSG_IM_HERE] ++ put_u16 MSG_IM_HERE_LEN ++ octets 16 addr)
  | Hello _ _ _ =>
      match serialize m with
      | None => Some []
      | Some encoded_hello =>
          buf_len ← native 0 U16_MAX (3 + Z.of_nat (length encoded_hello) mod 65536);
          Some ([MSG_HELLO] ++ put_u16 buf_len ++ encoded_hello)
      end
  end.

(** The eight groups, most significant first. *)
Fixpoint read_groups_u16 (n : nat) (acc : Z) (buf : byte_list) : option Z :=
  match n with
  | O => Some acc
  | S n =>
      match read_u16 buf with
      | Some (g, rest) => read_groups_u16 n (acc * 65536 + g) rest
      | None => None
      end
  end.

Definition is_unspecified (a : Z) : bool := a =? 0.
Definition is_loopback (a : Z) : bool := a =? 1.
Definition is_multicast_v6 (a : Z) : bool := Z.shiftr a 120 =? 0xff.
Definition unusable (a : Z) : bool := is_unspecified a || is_loopback a || is_multicast_v6 a.

Definition decode (buf : byte_list) : MessageError + PeerMessage :=
  match buf with
  | [] => inl InvalidPayloadError
  | packet_magic :: rest =>
      if packet_magic =? MSG_IM_HERE then
        match read_u16 rest with
        | None => inl IoError
        | Some (packet_size, rest) =>
            if packet_size <? MSG_IM_HERE_LEN then inl BufferUnderflow
            else
              match read_groups_u16 8 0 rest with
              | None => inl IoError
              | Some peer_address =>
                  if unusable peer_address then inl InvalidIpAddress else inr (ImHere peer_address)
              end
        end
      else if packet_magic =? MSG_HELLO then
        match read_u16 rest with
        | None => inl IoError
        | Some (_, _) =>
            match deserialize (drop 3 buf) with
            | Some a => inr a
            | None => inl DeserializationError
            end
        end
      else inl InvalidMagic
  end.
End codec.
End PeerMessage.
Export PeerMessage.

(** * Round trip *)

Lemma octets_snoc n a : octets (S n) a = octets n (a / 256) ++ [a mod 256].
Proof. done. Qed.
Lemma octets_length n a : length (octets n a) = n.
Proof. revert a. induction n as [|n IH]; intros a; [done|]. rewrite octets_snoc, length_app, IH. simpl. lia. Qed.

(** Reading big endian groups of two bytes. *)
Lemma read_groups_octets n a acc :
  0 <= a < 65536 ^ Z.of_nat n ->
  read_groups_u16 n acc (octets (2 * n) a) = Some (acc * 65536 ^ Z.of_nat n + a).
Proof.
  assert (Hsplit : forall m n acc l1 l2, length l1 = (2 * n)%nat ->
    read_groups_u16 (n + m) acc (l1 ++ l2)
    = match read_groups_u16 n acc l1 with Some x => read_groups_u16 m x l2 | None => None end).
  { intros m k. induction k as [|k IH]; intros acc' l1 l2 Hl.
    - destruct l1; [done|simpl in Hl; lia].
    - destruct l1 as [|x [|y l1]]; [simpl in Hl; lia|simpl in Hl; lia|]. simpl in Hl. simpl.
      apply IH. lia. }
  revert a acc. induction n as [|n IH]; intros a acc Ha.
  { simpl. f_equal. change (65536 ^ Z.of_nat 0) with 1 in *. lia. }
  rewrite Nat2Z.inj_succ, Z.pow_succ_r in * by lia.
  replace (2 * S n)%nat with (S (S (2 * n))) by lia. rewrite !octets_snoc, <- app_assoc.
  replace (S n) with (n + 1)%nat at 1 by lia. rewrite Hsplit by (by rewrite octets_length).
  rewrite Z.div_div by lia. change (256 * 256) with 65536.
  rewrite IH by (split; [apply Z.div_pos; lia|apply Z.div_lt_upper_bound; lia]).
  simpl. f_equal. pose proof (Z.div_mod a 65536 ltac:(lia)) as E.
  assert (Em : a mod 65536 = (a / 256) mod 256 * 256 + a mod 256).
  { pose proof (Z.rem_mul_r a 256 256 ltac:(lia) ltac:(lia)) as Em. change (256 * 256) with 65536 in Em. lia. }
  lia.
Qed.

Lemma decode_imhere `{B : Bincode} addr :
  0 <= addr < 2 ^ 128 ->
  decode ([MSG_IM_HERE] ++ put_u16 MSG_IM_HERE_LEN ++ octets 16 addr)
  = if unusable addr then inl InvalidIpAddress else inr (ImHere addr).
Proof.
  intros Ha. unfold decode. cbn [app]. rewrite Z.eqb_refl.
  cbn [read_u16 put_u16 app]. change (MSG_IM_HERE_LEN / 256 * 256 + MSG_IM_HERE_LEN mod 256) with 19.
  change (19 <? MSG_IM_HERE_LEN) with false. cbn match.
  change (octets 16 addr) with (octets (2 * 8) addr).
  rewrite read_groups_octets by (change (65536 ^ Z.of_nat 8) with (2 ^ 128); done).
  by rewrite Z.mul_0_l, Z.add_0_l.
Qed.

(** What one node sends, its neighbour reads: every ImHere with a usable
    address and every Hello that bincode can write decode to the message that
    was encoded. *)
Theorem message_roundtrip `{B : Bincode} {L : BincodeLaws B} `{P : Profile} m :
  match m with
  | ImHere addr => 0 <= addr < 2 ^ 128 /\ unusable addr = false
  | Hello _ _ _ => exists b, serialize m = Some b /\ Z.of_nat (length b) <= 65532
  end ->
  exists buf, encode m = Some buf /\ decode buf = inr m.
Proof.
  destruct m as [addr|id r p].
  - intros [Ha Hu]. eexists. split; [reflexivity|]. rewrite decode_imhere by done. by rewrite Hu.
  - intros (b & Hb & Hl). unfold encode. rewrite Hb. rewrite Z.mod_small by lia.
    rewrite native_exact by (unfold U16_MAX; lia). eexists. split; [reflexivity|].
    unfold decode. cbn. by rewrite drop_0, (bincode_roundtrip _ _ Hb).
Qed.

(** A codec for the demonstrations: a table of one Hello and one ImHere. *)
Definition demo_local : LocalIdentity := {|
  wg_port := 60000; have_tunnel := None;
  global := {| mesh_ip := V6 3; eth_address := 1; wg_public_key := 5; nickname := None |} |}.
Definition demo_bincode : Bincode := {|
  serialize m := match m with
                 | ImHere a => if a =? 1 then Some [0; 0; 0; 0; 1] else None
                 | Hello id r p =>
                     if bool_decide (p = 60001) then
                       match wg_port id =? 60000, have_tunnel id, global id, r with
                       | true, None, {| mesh_ip := V6 3; eth_address := 1; wg_public_key := 5; nickname := None |}, true =>
                           Some [1; 0; 0; 0; 7]
                       | _, _, _, _ => None
                       end
                     else None
                 end;
  deserialize b := match b with
                   | [0; 0; 0; 0; 1] => Some (ImHere 1)
                   | [1; 0; 0; 0; 7] => Some (Hello demo_local true 60001)
                   | _ => None
                   end |}.
Lemma demo_bincode_laws : BincodeLaws demo_bincode.
Proof.
  intros [a|[port tun g] r p] b; simpl.
  - destruct (Z.eqb_spec a 1) as [->|]; by intros [= <-].
  - case_bool_decide; [|done]. destruct (Z.eqb_spec port 60000); [|done].
    destruct tun; [done|]. destruct g as [[?|ip] ea wk nn]. 
    + done.
    + repeat (case_match; try done); simplify_eq/=; try done.
Qed.

Lemma message_roundtrip_witness :
  exists buf, encode (B := demo_bincode) (P := debug_profile) (Hello demo_local true 60001) = Some buf
    /\ decode (B := demo_bincode) buf = inr (Hello demo_local true 60001).
Proof.
  apply (message_roundtrip (B := demo_bincode) (L := demo_bincode_laws) (P := debug_profile) (Hello demo_local true 60001)).
  exists [1; 0; 0; 0; 7]. split; [reflexivity|]. simpl. lia.
Defined.

(** The address check of ImHere can be stepped around: an ImHere that
    bincode writes is accepted inside the envelope of a Hello, whatever its
    address, while the same message in its own envelope is refused when the
    address is unspecified, loopback or multicast. *)
Theorem imhere_in_hello_envelope `{B : Bincode} {L : BincodeLaws B} (addr hi lo : Z) b :
  0 <= addr < 2 ^ 128 -> unusable addr = true -> serialize (ImHere addr) = Some b ->
  decode ([MSG_HELLO; hi; lo] ++ b) = inr (ImHere addr)
  /\ forall `{P : Profile} buf, encode (ImHere addr) = Some buf -> decode buf = inl InvalidIpAddress.
Proof.
  intros Ha Hu Hb. split.
  - unfold decode. cbn. by rewrite drop_0, (bincode_roundtrip _ _ Hb).
  - intros P buf E. pose proof (decode_imhere addr Ha) as D. rewrite Hu in D. rewrite <- D. f_equal.
    by injection E.
Qed.

Lemma imhere_in_hello_envelope_witness :
  decode (B := demo_bincode) ([MSG_HELLO; 0; 8] ++ [0; 0; 0; 0; 1]) = inr (ImHere 1).
Proof.
  exact (proj1 (imhere_in_hello_envelope (B := demo_bincode) (L := demo_bincode_laws) 1 0 8 [0; 0; 0; 0; 1]
    ltac:(lia) eq_refl eq_refl)).
Defined.
