(* ===== verification/PeerListener.v ===== *)
(** Finding neighbours (rita_common/src/peer_listener/mod.rs and structs.rs,
    rita_common/src/tunnel_manager/contact_peers.rs, hello_response of
    rita_common/src/network_endpoints/mod.rs): the announcements over multicast, the hellos
    that agree on a tunnel, and the peers that are configured by hand. *)
From S2P Require Import Prelude Types DebtKeeper TrafficWatcher Text Babel TunnelManager TunnelTable TunnelManagerSpec PeerMessage.
Open Scope Z_scope.

Module PeerListener.

Record SocketAddr := { so_ip : IpAddr; so_port : Z; so_scope : Z }.
#[export] Instance SocketAddr_eq_dec : EqDecision SocketAddr.
Proof. solve_decision. Defined.
#[export] Instance SocketAddr_countable : Countable SocketAddr.
Proof.
  refine (inj_countable' (fun s => (so_ip s, so_port s, so_scope s)) (fun '(a, b, c) => {| so_ip := a; so_port := b; so_scope := c |}) _).
  by intros [].
Qed.

Record FoundPeer := { fp_ifidx : Z; contact_socket : SocketAddr }.
(** What the tunnel manager reads of a peer. *)
Definition as_peer (p : FoundPeer) : Peer := {| ifidx := fp_ifidx p; contact_ip := so_ip (contact_socket p) |}.

(** The sockets of an interface are named after it; what has arrived on them and was not
    read yet is part of the state of the world. *)
Record ListenInterface := { ifname : text; li_ifidx : Z; multicast_socketaddr : SocketAddr; linklocal_ip : Z }.
Record PeerListener := {
  interfaces : gmap text ListenInterface;
  peers : gmap IpAddr FoundPeer;
  interface_map : gmap SocketAddr text;
}.
Definition PeerListener_new : PeerListener := {| interfaces := ∅; peers := ∅; interface_map := ∅ |}.

Definition Datagram : Type := byte_list * SocketAddr.
Abbreviation Queues := (gmap text (list Datagram)).

(** The settings and answers of the system a tick reads. *)
Record pl_env := {
  pe_peer_interfaces : list text;
  pe_hello_port : Z;
  pe_discovery_ip : Z;
  pe_link_ip : text -> option Z;
  pe_ifindex : text -> option Z;
  pe_can_bind : text -> bool;
  pe_identity : option Identity;
  pe_can_send : text -> bool;
  pe_order : list text -> list text;
}.

Section listener.
Context (e : pl_env).

Definition peer_new (ip idx : Z) : FoundPeer :=
  {| fp_ifidx := idx; contact_socket := {| so_ip := V6 ip; so_port := pe_hello_port e; so_scope := idx |} |}.

(** ** Interfaces *)

Definition listen_interface_new (name : text) : option ListenInterface :=
  link_ip ← pe_link_ip e name;
  let iface_index := default 0 (pe_ifindex e name) in
  if pe_can_bind e name then
    Some {| ifname := name; li_ifidx := iface_index; linklocal_ip := link_ip;
            multicast_socketaddr := {| so_ip := V6 (pe_discovery_ip e); so_port := pe_hello_port e; so_scope := iface_index |} |}
  else None.
Definition listen_on (m : gmap text ListenInterface) (iface : text) : gmap text ListenInterface :=
  match m !! iface with
  | Some _ => m
  | None => match listen_interface_new iface with Some l => <[ifname l := l]> m | None => m end
  end.
Definition listen_to_available_ifaces (pl_interfaces : gmap text ListenInterface) : gmap text ListenInterface :=
  foldl listen_on pl_interfaces (pe_peer_interfaces e).
Definition check_and_unlisten_interfaces (pl : PeerListener) : PeerListener :=
  {| interfaces := filter (fun x => x.1 ∈ pe_peer_interfaces e) (interfaces pl); peers := peers pl; interface_map := interface_map pl |}.

(** The interfaces in the order the hash map yields them. *)
Definition iface_list (pl : PeerListener) : list ListenInterface :=
  omap (fun name => interfaces pl !! name) (pe_order e (map_to_list (interfaces pl)).*1).

(** ** Announcements *)

Context `{B : Bincode} `{P : Profile}.

(** What is sent: the interface, the address and the bytes. *)
Definition Sent : Type := text * SocketAddr * byte_list.
Definition send_im_here (pl : PeerListener) : list Sent :=
  omap (fun l => buf ← encode (ImHere (linklocal_ip l));
                 if pe_can_send e (ifname l) then Some (ifname l, multicast_socketaddr l, buf) else None) (iface_list pl).

(** [recv_from] into a buffer of zeros. *)
Definition received_in (size : nat) (d : byte_list) : byte_list := take size d ++ replicate (size - length d) 0.
Definition handle_im_here (l : ListenInterface) (d : Datagram) (acc : gmap IpAddr FoundPeer * gmap SocketAddr text)
    : gmap IpAddr FoundPeer * gmap SocketAddr text :=
  match decode (received_in 100 d.1) with
  | inr (ImHere ipaddr) =>
      if ipaddr =? linklocal_ip l then acc
      else if bool_decide (is_Some (acc.1 !! V6 ipaddr)) then acc
      else
        let peer := peer_new ipaddr (li_ifidx l) in
        (<[so_ip (contact_socket peer) := peer]> acc.1, <[contact_socket peer := ifname l]> acc.2)
  | _ => acc
  end.
Definition receive_im_here (pl : PeerListener) (multicast : Queues) : gmap IpAddr FoundPeer * gmap SocketAddr text :=
  foldl (fun acc l => foldl (fun acc d => handle_im_here l d acc) acc (default [] (multicast !! ifname l))) (∅, ∅) (iface_list pl).

(** ** Hellos *)

Context {W : Type} `{K : Kernel W} (cfg_test : bool) (s : tm_settings).
Abbreviation TM := (M (Node W) RitaCommonError).

(** Encoding panics on a message that is too long; [None] inside is a send that failed. *)
Definition send_hello (iface : text) (my_id : LocalIdentity) (response : bool) (send_addr : SocketAddr) (sender_wgport : Z)
    : option (option Sent) :=
  buf ← encode (Hello my_id response sender_wgport);
  Some (if pe_can_send e iface then Some (iface, send_addr, buf) else None).

(** What one datagram on the link local socket leads to. [Stop] is the early return after
    an error, [Next] the next turn of the loop. *)
Inductive step := Next (sent : option Sent) | Stop.
Definition answer_hello (l : ListenInterface) (sock_addr : SocketAddr) (their_id : LocalIdentity) (sender_wgport : Z) : TM step := fun n =>
  let peer := {| fp_ifidx := 0; contact_socket := sock_addr |} in
  match tm_identity_callback cfg_test s {| cb_local_identity := their_id; cb_peer := as_peer peer; cb_our_port := None |} n with
  | Panic => Panic
  | Fail n _ => Done n Stop
  | Done n (tunnel, existed) =>
      match pe_identity e with
      | None => Done n Stop
      | Some id =>
          let our_id := {| wg_port := listen_port tunnel; have_tunnel := Some existed; global := id |} in
          match send_hello (ifname l) our_id true sock_addr sender_wgport with
          | None => Panic
          | Some sent => Done n (Next sent)
          end
      end
  end.
Definition accept_response (l : ListenInterface) (sock_addr : SocketAddr) (their_id : LocalIdentity) (sender_wgport : Z) : TM step := fun n =>
  let peer := {| fp_ifidx := li_ifidx l; contact_socket := sock_addr |} in
  match tm_identity_callback cfg_test s {| cb_local_identity := their_id; cb_peer := as_peer peer; cb_our_port := Some sender_wgport |} n with
  | Panic => Panic
  | Fail n _ => Done n (Next None)
  | Done n _ => Done n (Next None)
  end.
Definition BUFFER_SIZE : nat := 500.
Definition handle_hello (l : ListenInterface) (d : Datagram) : TM step :=
  if bool_decide (BUFFER_SIZE <= length d.1)%nat then ret (Next None)
  else
    match decode (received_in BUFFER_SIZE d.1) with
    | inr (Hello my_id response sender_wgport) =>
        if negb response then answer_hello l d.2 my_id sender_wgport else accept_response l d.2 my_id sender_wgport
    | _ => ret (Next None)
    end.
(** The sender is remembered before the datagram is looked at, unless it filled the
    buffer. *)
Definition remember (l : ListenInterface) (d : Datagram) (m : gmap SocketAddr text) : gmap SocketAddr text :=
  if bool_decide (BUFFER_SIZE <= length d.1)%nat then m else <[d.2 := ifname l]> m.

(** The datagrams of one interface; what is left when the loop is left early stays in the
    socket. *)
Fixpoint hello_loop (l : ListenInterface) (ds : list Datagram) (m : gmap SocketAddr text)
    : TM (gmap SocketAddr text * list Sent * option (list Datagram)) :=
  match ds with
  | [] => ret (m, [], None)
  | d :: ds =>
      let! r := handle_hello l d in
      let m := remember l d m in
      match r with
      | Stop => ret (m, [], Some ds)
      | Next sent => let! (m, out, rest) := hello_loop l ds m in ret (m, option_list sent ++ out, rest)
      end
  end.
Fixpoint receive_hellos (ls : list ListenInterface) (q : Queues) (m : gmap SocketAddr text)
    : TM (gmap SocketAddr text * list Sent * Queues) :=
  match ls with
  | [] => ret (m, [], q)
  | l :: ls =>
      let! (m, out, rest) := hello_loop l (default [] (q !! ifname l)) m in
      match rest with
      | Some ds => ret (m, out, <[ifname l := ds]> q)
      | None => let! (m, out', q) := receive_hellos ls (delete (ifname l) q) m in ret (m, out ++ out', q)
      end
  end.

(** ** One tick *)

Definition peerlistener_tick (multicast linklocal : Queues) (pl : PeerListener) : TM (PeerListener * list Sent * Queues) :=
  let announced := send_im_here pl in
  let '(found, found_map) := receive_im_here pl multicast in
  let! (m, out, rest) := receive_hellos (iface_list pl) linklocal (found_map ∪ interface_map pl) in
  ret (check_and_unlisten_interfaces
         {| interfaces := listen_to_available_ifaces (interfaces pl); peers := found ∪ peers pl; interface_map := m |},
       announced ++ out, rest).

(** ** Contacting peers *)

Definition no_identity : RitaCommonError := MiscStringError "Identity has no mesh IP ready yet".
Definition tm_neighbor_inquiry_udp_peer (peer : FoundPeer) (pl : PeerListener) : TM (option Sent) :=
  let! our_port := get_next_available_port cfg_test s in
  let! iface_name := ok_or (interface_map pl !! contact_socket peer) (MiscStringError "No interface in the hashmap to send a message") in
  let! l := ok_or (interfaces pl !! iface_name) (MiscStringError "No udp socket present for given interface") in
  let! id := ok_or (pe_identity e) no_identity in
  unwrap (send_hello (ifname l) {| wg_port := our_port; have_tunnel := None; global := id |} false (contact_socket peer) our_port).

(** The http hello of a peer configured by hand, up to the request and from its answer
    on: [route] is whether [manual_peers_route] succeeds and [response] what the peer
    answers to our identity. *)
Definition announce_manual (route : bool) : TM LocalIdentity :=
  let! our_port := get_next_available_port cfg_test s in
  if negb route then throw (KernelInterfaceError "manual_peers_route") else
  let! id := ok_or (pe_identity e) no_identity in
  ret {| wg_port := our_port; have_tunnel := None; global := id |}.
Definition finish_manual (response : LocalIdentity -> option LocalIdentity) (peer : FoundPeer) (my_id : LocalIdentity) : TM (Tunnel * bool) :=
  let! their_id := ok_or (response my_id) (MiscStringError "Got error deserializing Hello") in
  tm_identity_callback cfg_test s {| cb_local_identity := their_id; cb_peer := as_peer peer; cb_our_port := Some (wg_port my_id) |}.
Definition tm_neighbor_inquiry_manual_peer (route : bool) (response : LocalIdentity -> option LocalIdentity) (peer : FoundPeer)
    : TM (Tunnel * bool) :=
  let! my_id := announce_manual route in finish_manual response peer my_id.

(** The other side: [hello_response]; [None] is the answer with status 400. *)
Definition hello_response (socket : option SocketAddr) (their_id : LocalIdentity) : TM (option LocalIdentity) := fun n =>
  match socket with
  | None => Done n None
  | Some socket =>
      match tm_identity_callback cfg_test s {| cb_local_identity := their_id;
              cb_peer := as_peer {| fp_ifidx := 0; contact_socket := socket |}; cb_our_port := None |} n with
      | Panic => Panic
      | Fail n _ => Done n None
      | Done n (tunnel, existed) =>
          Done n ((fun id => {| wg_port := listen_port tunnel; have_tunnel := Some existed; global := id |}) <$> pe_identity e)
      end
  end.

(** The peers configured by hand: addresses, and names only on a gateway, each with all
    its addresses. *)
Definition at_ip (ip : IpAddr) : FoundPeer :=
  {| fp_ifidx := 0; contact_socket := {| so_ip := ip; so_port := pe_hello_port e; so_scope := 0 |} |}.
Definition manual_ips (manual_peers : list text) : list FoundPeer := at_ip <$> omap parse_ip manual_peers.
Definition manual_names (is_gateway : bool) (manual_peers : list text) : list text :=
  if is_gateway then filter (fun p => parse_ip p = None) manual_peers else [].
Definition tm_neighbor_inquiry_hostname (resolve : text -> option (list IpAddr)) (their_hostname : text) : list FoundPeer :=
  at_ip <$> default [] (resolve their_hostname).
(** Errors are logged; the hellos over UDP go out first. *)
Fixpoint inquire_udp (ps : list FoundPeer) (pl : PeerListener) : TM (list Sent) :=
  match ps with
  | [] => ret []
  | p :: ps => fun n =>
      match tm_neighbor_inquiry_udp_peer p pl n with
      | Panic => Panic
      | Fail n _ => inquire_udp ps pl n
      | Done n sent => match inquire_udp ps pl n with
                       | Done n out => Done n (option_list sent ++ out)
                       | Fail n x => Fail n x
                       | Panic => Panic
                       end
      end
  end.
(** The requests of several peers run side by side: each is sent at an [Announce] and
    continues at an [Answer], in the order of the list. *)
Inductive event := Announce (p : FoundPeer) | Answer (p : FoundPeer).
Section manual.
Context (route : FoundPeer -> bool) (response : FoundPeer -> LocalIdentity -> option LocalIdentity).
Fixpoint run_events (es : list event) (waiting : list (FoundPeer * LocalIdentity)) : TM unit :=
  match es with
  | [] => ret tt
  | Announce p :: es => fun n =>
      match announce_manual (route p) n with
      | Panic => Panic
      | Fail n _ => run_events es waiting n
      | Done n my_id => run_events es ((p, my_id) :: waiting) n
      end
  | Answer p :: es =>
      match List.find (fun x => bool_decide (contact_socket x.1 = contact_socket p)) waiting with
      | Some (_, my_id) => ignore_err (finish_manual (response p) p my_id);! run_events es waiting
      | None => run_events es waiting
      end
  end.
(** [schedule] orders the events of a list of futures, each a list of peers contacted one
    after the other. *)
Definition tm_contact_peers (is_gateway : bool) (resolve : text -> option (list IpAddr)) (manual_peers : list text)
    (schedule : list (list FoundPeer) -> list event) (pl : PeerListener) : TM (list Sent) :=
  let! out := inquire_udp (map_to_list (peers pl)).*2 pl in
  run_events (schedule ((fun p => [p]) <$> manual_ips manual_peers)) [];!
  run_events (schedule (tm_neighbor_inquiry_hostname resolve <$> manual_names is_gateway manual_peers)) [];!
  ret out.
End manual.
End listener.
End PeerListener.
Export PeerListener.

(** * Properties *)

(** ** Tunnels agreed on by two nodes *)

(** Bytes behind a message do not change how bincode reads it. *)
Class BincodeTrailing (B : Bincode) : Prop :=
  bincode_trailing m b rest : serialize m = Some b -> deserialize (b ++ rest) = Some m.

Section exchange.
Context `{B : Bincode} {T : BincodeTrailing B} `{P : Profile}.

(** A hello that fits the buffer is read as it was written. *)
Lemma hello_received id r p buf : serialize (Hello id r p) <> None -> encode (Hello id r p) = Some buf -> (length buf < BUFFER_SIZE)%nat ->
  decode (received_in BUFFER_SIZE buf) = inr (Hello id r p).
Proof.
  intros Hs He Hl. unfold received_in. rewrite take_ge by lia. unfold encode in He.
  destruct (serialize (Hello id r p)) as [b |] eqn:Eb; [| done].
  destruct (native _ _ _) as [len |]; [| done]. injection He as <-. unfold decode. cbn -[BUFFER_SIZE].
  by rewrite drop_0, (bincode_trailing _ _ _ Eb).
Qed.

Context {W : Type} `{K : Kernel W} `{KS : !KernelSane K} (cfg_test : bool).

(** [b] sends to the port [a] listens on. *)
Definition knows (b a : Tunnel) : Prop := wg_port (neigh_id b) = listen_port a.
(** The ports of a tunnel did not change. *)
Definition same_ports (t t0 : Tunnel) : Prop := listen_port t = listen_port t0 /\ wg_port (neigh_id t) = wg_port (neigh_id t0).

Lemma open_tunnel_ports s id peer n n' t existed : table_wf (wg_start_port s) (tunnels (tm n)) ->
  open_tunnel cfg_test s id peer n = Done n' (t, existed) ->
  has_tunnel id peer (tunnels (tm n')) t /\
  (existed = true <-> exists t0, has_tunnel id peer (tunnels (tm n)) t0) /\
  (existed = false -> neigh_id t = id) /\
  (have_tunnel id = Some false -> neigh_id t = id) /\
  (existed = true -> have_tunnel id <> Some false ->
   exists t0, has_tunnel id peer (tunnels (tm n)) t0 /\ same_ports t t0).
Proof.
  intros Hwf H. pose proof (open_tunnel_outcome cfg_test s id peer n Hwf) as Ho. rewrite H in Ho.
  destruct Ho as (_ & Ht & _ & Hex & Hold & _). split; [done |]. split; [done |]. split_and!.
  - intros ->. destruct Hold as [(t0 & H0 & _) | Hf]; [| by destruct Hf]. exfalso. by assert (false = true) by (apply Hex; eauto).
  - intros Hn. destruct Hold as [(t0 & _ & Hc & _) | Hf]; [done | by destruct Hf].
  - intros -> Hn. unfold open_tunnel in H. unfold bind at 1, read_tunnels in H.
    destruct (get_tunnel_mut _ _ _ _) as [[[k i] t0] |] eqn:Eg.
    + destruct (open_tunnel_existing s id peer n k i t0 Hwf Eg) as (H0 & _).
      unfold bind at 1, now in H. cbv beta iota in H. unfold bind at 1, modify_tunnels, modify in H.
      replace (default true (have_tunnel id)) with true in H by (destruct (have_tunnel id) as [[] |]; done).
      injection H as _ <-. exists t0. split; [done | by split].
    + apply bind_done in H as (n1 & t1 & _ & H). unfold ret in H. discriminate H.
Qed.

(** The answer to a first hello: a tunnel to the sender, and its port in the answer. *)
Lemma answer_spec e s l from id p n n' sent : have_tunnel id = None ->
  table_wf (wg_start_port s) (tunnels (tm n)) ->
  answer_hello e cfg_test s l from id p n = Done n' (Next sent) ->
  exists t existed our, has_tunnel id {| ifidx := 0; contact_ip := so_ip from |} (tunnels (tm n')) t /\
    pe_identity e = Some our /\
    send_hello e (ifname l) {| wg_port := listen_port t; have_tunnel := Some existed; global := our |} true from p = Some sent /\
    (existed = true <-> exists t0, has_tunnel id {| ifidx := 0; contact_ip := so_ip from |} (tunnels (tm n)) t0) /\
    (existed = false -> neigh_id t = id) /\
    (existed = true -> exists t0, has_tunnel id {| ifidx := 0; contact_ip := so_ip from |} (tunnels (tm n)) t0 /\ same_ports t t0).
Proof.
  intros Hh Hwf H. unfold answer_hello, tm_identity_callback, as_peer in H. cbn [cb_local_identity cb_peer fp_ifidx contact_socket] in H.
  set (peer := {| ifidx := 0; contact_ip := so_ip from |}) in *.
  destruct (open_tunnel cfg_test s id peer n) as [n1 [t existed] | n1 x |] eqn:Eo; [| done..].
  destruct (open_tunnel_ports _ _ _ _ _ _ _ Hwf Eo) as (Ht & Hex & Hf & _ & Hk).
  destruct (pe_identity e) as [our |] eqn:Ei; [| done].
  destruct (send_hello _ _ _ _ _ _) as [snt |] eqn:Es; [| done]. injection H as <- <-.
  exists t, existed, our. do 5 (split; [done |]). intros ->. apply Hk; [done | by rewrite Hh].
Qed.

Definition hello_bytes (m : PeerMessage) (buf : byte_list) : Prop :=
  serialize m <> None /\ encode m = Some buf /\ (length buf < BUFFER_SIZE)%nat.
Lemma handle_read e s l id r p buf from : hello_bytes (Hello id r p) buf ->
  handle_hello e cfg_test s l (buf, from) =
    if negb r then answer_hello e cfg_test s l from id p else accept_response cfg_test s l from id p.
Proof.
  intros (Hs & He & Hl). unfold handle_hello. cbn [fst snd]. rewrite bool_decide_false by lia. by rewrite (hello_received _ _ _ _ Hs He Hl).
Qed.

(** C38 Two nodes agree on a tunnel.  Node B has sent a first hello with its identity and
    the port [p]; node A answers it, and B reads the answer, which fits its buffer, at any
    later time.  Then A has a tunnel to B, and the answer carries A's identity, the port
    that tunnel listens on and whether A had one before; if it had none, the new tunnel is
    one to the identity and port B announced.  On B's side either no tunnel to A could be
    opened, or there is one, and it sends to the port A's tunnel listens on, always so when
    A had none before or B had none before; otherwise both had a tunnel before and none of
    the four ports has changed. *)
Theorem hello_exchange_agrees eA eB sA sB lA lB fromA fromB idB p buf nA nA' iface to answer nB nB' r :
  have_tunnel idB = None ->
  table_wf (wg_start_port sA) (tunnels (tm nA)) -> table_wf (wg_start_port sB) (tunnels (tm nB)) ->
  hello_bytes (Hello idB false p) buf ->
  handle_hello eA cfg_test sA lA (buf, fromB) nA = Done nA' (Next (Some (iface, to, answer))) ->
  (forall id, encode (Hello id true p) = Some answer -> hello_bytes (Hello id true p) answer) ->
  handle_hello eB cfg_test sB lB (answer, fromA) nB = Done nB' r ->
  let peerA := {| ifidx := li_ifidx lB; contact_ip := so_ip fromA |} in
  let peerB := {| ifidx := 0; contact_ip := so_ip fromB |} in
  exists tA our hadA,
    let idA := {| wg_port := listen_port tA; have_tunnel := Some hadA; global := our |} in
    to = fromB /\ pe_identity eA = Some our /\ encode (Hello idA true p) = Some answer /\
    has_tunnel idB peerB (tunnels (tm nA')) tA /\
    (hadA = true <-> exists tA0, has_tunnel idB peerB (tunnels (tm nA)) tA0) /\
    (hadA = false -> neigh_id tA = idB) /\
    ((forall tB, ~ has_tunnel idA peerA (tunnels (tm nB')) tB) \/
     exists tB, has_tunnel idA peerA (tunnels (tm nB')) tB /\
       (hadA = false \/ (forall tB0, ~ has_tunnel idA peerA (tunnels (tm nB)) tB0) -> knows tB tA) /\
       (knows tB tA \/
        exists tA0 tB0, has_tunnel idB peerB (tunnels (tm nA)) tA0 /\ has_tunnel idA peerA (tunnels (tm nB)) tB0 /\
          same_ports tA tA0 /\ same_ports tB tB0)).
Proof.
  intros Hn HwA HwB Hb HA Hfit HB peerA peerB.
  rewrite (handle_read _ _ _ _ _ _ _ _ Hb) in HA. cbn [negb] in HA.
  destruct (answer_spec _ _ _ _ _ _ _ _ _ Hn HwA HA) as (tA & existed & our & HtA & Hour & Hsend & Hex & Hfresh & Hkept).
  exists tA, our, existed. set (idA := {| wg_port := listen_port tA; have_tunnel := Some existed; global := our |}) in *.
  unfold send_hello in Hsend. destruct (encode (Hello idA true p)) as [b |] eqn:Ee; [| done]. cbn [mbind option_bind] in Hsend.
  destruct (pe_can_send eA (ifname lA)); [| done]. injection Hsend as _ <- <-.
  rewrite (handle_read _ _ _ _ _ _ _ _ (Hfit idA Ee)) in HB. cbn [negb] in HB.
  do 6 (split; [done |]).
  unfold accept_response, tm_identity_callback, as_peer in HB. cbn [cb_local_identity cb_peer fp_ifidx contact_socket] in HB.
  fold peerA in HB. pose proof (open_tunnel_outcome cfg_test sB idA peerA nB HwB) as Ho.
  destruct (open_tunnel cfg_test sB idA peerA nB) as [n1 [tB exB] | n1 x |] eqn:Eo; [| left | done].
  2: { injection HB as <- _. by destruct Ho as (_ & _ & Hno). }
  right. injection HB as <- _. destruct (open_tunnel_ports _ _ _ _ _ _ _ HwB Eo) as (HtB & HexB & HfB & HdB & HkB).
  exists tB. split; [done |].
  assert (HknowB : exB = false -> knows tB tA) by (intros E; unfold knows; by rewrite (HfB E)).
  assert (HknowA : existed = false -> knows tB tA) by (intros E; unfold knows; rewrite HdB; [done | by subst]).
  split.
  - intros [E | Hno]; [by apply HknowA |]. apply HknowB. destruct exB; [| done].
    destruct (proj1 HexB eq_refl) as [tB0 H0]. by destruct (Hno tB0).
  - destruct existed; [| left; by apply HknowA]. destruct exB; [right | left; by apply HknowB].
    destruct (Hkept eq_refl) as (tA0 & HtA0 & HpA). destruct (HkB eq_refl) as (tB0 & HtB0 & HpB); [done |].
    exists tA0, tB0. by split_and!.
Qed.
End exchange.

(** ** Interfaces, announcements and queues *)

Section tick.
Context (e : pl_env).

Lemma listen_step m iface i :
  is_Some (listen_on e m iface !! i) <-> is_Some (m !! i) \/ (i = iface /\ is_Some (listen_interface_new e iface)).
Proof.
  unfold listen_on. destruct (m !! iface) as [l0 |] eqn:Em.
  - split; [tauto |]. intros [H | [-> _]]; [done | by rewrite Em].
  - destruct (listen_interface_new e iface) as [l |] eqn:El; [| split; [tauto | intros [H | [_ [? [=]]]]; done]].
    assert (Hn : ifname l = iface).
    { unfold listen_interface_new in El. destruct (pe_link_ip e iface); [| done]. cbn [mbind option_bind] in El.
      destruct (pe_can_bind e iface); [| done]. by injection El as <-. }
    rewrite Hn. destruct (decide (i = iface)) as [-> | Hi].
    + rewrite lookup_insert_eq. split; eauto.
    + rewrite lookup_insert_ne by done. split; [tauto |]. intros [H | [H _]]; done.
Qed.
Lemma listened l : forall m i,
  is_Some (foldl (listen_on e) m l !! i) <-> is_Some (m !! i) \/ (i ∈ l /\ is_Some (listen_interface_new e i)).
Proof.
  induction l as [| iface l IH]; intros m i; cbn [foldl].
  - rewrite elem_of_nil. tauto.
  - rewrite IH, listen_step, elem_of_cons. naive_solver.
Qed.

(** After a tick the node listens exactly on the configured interfaces that it already
    listened on or could open now. *)
Theorem listens_as_configured pl i :
  is_Some (interfaces (check_and_unlisten_interfaces e
    {| interfaces := listen_to_available_ifaces e (interfaces pl); peers := peers pl; interface_map := interface_map pl |}) !! i) <->
  i ∈ pe_peer_interfaces e /\ (is_Some (interfaces pl !! i) \/ is_Some (listen_interface_new e i)).
Proof.
  unfold check_and_unlisten_interfaces. cbn [interfaces]. unfold listen_to_available_ifaces.
  pose proof (listened (pe_peer_interfaces e) (interfaces pl) i) as Hl.
  set (m := foldl _ _ _) in *. split.
  - intros [l [Hm Hi]%map_lookup_filter_Some]. split; [done |].
    destruct (proj1 Hl) as [H | [_ H]]; [by exists l | by left | by right].
  - intros [Hi H]. destruct (proj2 Hl) as [l Hm]; [destruct H; [by left | by right] |].
    exists l. by apply map_lookup_filter_Some.
Qed.

Context `{B : Bincode}.

(** A node never finds itself: every peer of a round was announced on one of the
    interfaces by an address other than the own one of that interface. *)
Definition announced (pl : PeerListener) (q : Queues) (ip : IpAddr) (p : FoundPeer) : Prop :=
  exists l d a, l ∈ iface_list e pl /\ d ∈ default [] (q !! ifname l) /\ decode (received_in 100 d.1) = inr (ImHere a) /\
    a <> linklocal_ip l /\ ip = V6 a /\ p = peer_new e a (li_ifidx l).
Lemma handle_im_here_found l d acc ip p : (handle_im_here e l d acc).1 !! ip = Some p ->
  acc.1 !! ip = Some p \/ exists a, decode (received_in 100 d.1) = inr (ImHere a) /\ a <> linklocal_ip l /\ ip = V6 a /\ p = peer_new e a (li_ifidx l).
Proof.
  unfold handle_im_here. destruct (decode _) as [x | [a |]]; [by left | | by left].
  destruct (Z.eqb_spec a (linklocal_ip l)); [by left |]. case_bool_decide; [by left |]. cbn -[peer_new].
  rewrite lookup_insert. case_decide; [| by left]. intros [= <-]. right. exists a. by split_and!.
Qed.
Theorem peers_announced pl q ip p : (receive_im_here e pl q).1 !! ip = Some p -> announced pl q ip p.
Proof.
  unfold receive_im_here, announced. set (ls := iface_list e pl).
  assert (Hin : forall l ds acc, (foldl (fun acc d => handle_im_here e l d acc) acc ds).1 !! ip = Some p ->
    acc.1 !! ip = Some p \/ exists d a, d ∈ ds /\ decode (received_in 100 d.1) = inr (ImHere a) /\ a <> linklocal_ip l /\ ip = V6 a /\ p = peer_new e a (li_ifidx l)).
  { intros l ds. induction ds as [| d ds IH]; intros acc H; cbn [foldl] in H; [by left |].
    destruct (IH _ H) as [H1 | (d' & a & Hd & Hr)]; [| right; exists d', a; split; [by right | done]].
    destruct (handle_im_here_found _ _ _ _ _ H1) as [H2 | (a & Hr)]; [by left |]. right. exists d, a. split; [by left | done]. }
  assert (Hout : forall ks acc, (foldl (fun acc l => foldl (fun acc d => handle_im_here e l d acc) acc (default [] (q !! ifname l))) acc ks).1 !! ip = Some p ->
    acc.1 !! ip = Some p \/ exists l d a, l ∈ ks /\ d ∈ default [] (q !! ifname l) /\ decode (received_in 100 d.1) = inr (ImHere a) /\
      a <> linklocal_ip l /\ ip = V6 a /\ p = peer_new e a (li_ifidx l)).
  { induction ks as [| l ks IH]; intros acc H; cbn [foldl] in H; [by left |].
    destruct (IH _ H) as [H1 | (l' & d & a & Hl & Hr)]; [| right; exists l', d, a; split; [by right | done]].
    destruct (Hin _ _ _ H1) as [H2 | (d & a & Hr)]; [by left |]. right. exists l, d, a. split; [by left | done]. }
  intros H. destruct (Hout ls (∅, ∅) H) as [H1 | H1]; [cbn in H1; by rewrite lookup_empty in H1 | done].
Qed.

Context `{P : Profile} {W : Type} `{K : Kernel W} (cfg_test : bool) (s : tm_settings).

(** A hello for which no tunnel can be opened ends the reading of hellos on every
    interface: it is the last one that was looked at, and all behind it wait. *)
Theorem failed_hello_blocks_rest l ds : forall m n n' m' out rest,
  hello_loop e cfg_test s l ds m n = Done n' (m', out, Some rest) ->
  exists before d n0, ds = before ++ d :: rest /\ handle_hello e cfg_test s l d n0 = Done n' Stop.
Proof.
  induction ds as [| d ds IH]; intros m n n' m' out rest H; cbn [hello_loop] in H; [done |].
  apply bind_done in H as (n1 & r & H1 & H). destruct r as [snt |].
  - apply bind_done in H as (n2 & [[m2 out2] rest2] & H2 & H). injection H as -> -> <- ->.
    destruct (IH _ _ _ _ _ _ H2) as (before & d' & n0 & -> & Hd). by exists (d :: before), d', n0.
  - injection H as -> <- <- ->. by exists [], d, n.
Qed.
Theorem blocked_interfaces_wait l ls q m n n' m' out rest :
  hello_loop e cfg_test s l (default [] (q !! ifname l)) m n = Done n' (m', out, Some rest) ->
  receive_hellos e cfg_test s (l :: ls) q m n = Done n' (m', out, <[ifname l := rest]> q).
Proof. intros H. cbn [receive_hellos]. unfold bind at 1. by rewrite H. Qed.

(** An announced port is the port of the tunnel if nothing happened in between. *)
Lemma idle_port sB id peer n port n' t existed :
  get_next_available_port cfg_test sB n = Done n port ->
  get_tunnel_mut (ifidx peer) (contact_ip peer) (global id) (tunnels (tm n)) = None ->
  open_tunnel cfg_test sB id peer n = Done n' (t, existed) -> listen_port t = port.
Proof.
  intros Hp Hg H. unfold open_tunnel in H. unfold bind at 1, read_tunnels in H. rewrite Hg in H.
  apply bind_done in H as (n1 & t1 & H1 & H). injection H as _ <- _.
  unfold add_new_tunnel_to_list in H1. unfold bind at 1 in H1. rewrite Hp in H1.
  apply bind_done in H1 as (n2 & t2 & H2 & H1). apply Tunnel_new_fresh in H2 as [_ Hl _ _ _ _].
  apply bind_done in H1 as (n3 & [] & _ & H1). by injection H1 as _ <-.
Qed.
End tick.

Module PeerDemo.

(** A codec for identities without a nickname. *)
Definition bool_code (b : option bool) : Z := match b with None => 2 | Some true => 1 | Some false => 0 end.
Definition code_bool (z : Z) : option bool := if z =? 2 then None else Some (z =? 1).
Definition plain_bincode : Bincode := {|
  serialize m := match m with
                 | ImHere a => Some [0; a]
                 | Hello id r p =>
                     match nickname (global id) with
                     | None => Some ([1; wg_port id; bool_code (have_tunnel id)] ++
                         match mesh_ip (global id) with V4 a => [4; a] | V6 a => [6; a] end ++
                         [eth_address (global id); wg_public_key (global id); Z.b2z r; p])
                     | Some _ => None
                     end
                 end;
  deserialize b := match b with
                   | 0 :: a :: _ => Some (ImHere a)
                   | 1 :: w :: h :: tag :: ip :: eth :: key :: r :: p :: _ =>
                       Some (Hello {| wg_port := w; have_tunnel := code_bool h;
                         global := {| mesh_ip := if tag =? 4 then V4 ip else V6 ip; eth_address := eth; wg_public_key := key; nickname := None |} |}
                         (r =? 1) p)
                   | _ => None
                   end |}.
#[export] Instance plain_trailing : BincodeTrailing plain_bincode.
Proof.
  intros [a | [w h [ip eth key nick]] r p] b rest; simpl; [by intros [= <-] |].
  destruct nick; [done |]. intros [= <-]. destruct ip, h as [[] |], r; done.
Qed.

Definition demo_pl_env (me : Identity) : pl_env := {|
  pe_peer_interfaces := [lit "eth0"]; pe_hello_port := 4876; pe_discovery_ip := 0xff02 * 2 ^ 112 + 8;
  pe_link_ip := fun _ => Some 77; pe_ifindex := fun _ => Some 3; pe_can_bind := fun _ => true; pe_identity := Some me;
  pe_can_send := fun _ => true; pe_order := id |}.
Definition node_id (n : Z) : Identity := {| mesh_ip := V6 n; eth_address := n; wg_public_key := n; nickname := None |}.
Definition demo_li : ListenInterface := {| ifname := lit "eth0"; li_ifidx := 3; linklocal_ip := 77;
  multicast_socketaddr := {| so_ip := V6 8; so_port := 4876; so_scope := 3 |} |}.
Definition from_node (n : Z) : SocketAddr := {| so_ip := V6 (0xfe80 * 2 ^ 112 + n); so_port := 4876; so_scope := 3 |}.
Definition first_hello : PeerMessage := Hello {| wg_port := 60001; have_tunnel := None; global := node_id 2 |} false 60001.
#[local] Existing Instance plain_bincode.
#[local] Existing Instance debug_profile.
Definition hello_buf : byte_list := default [] (encode first_hello).
Abbreviation demo_answer := (handle_hello (demo_pl_env (node_id 1)) true demo_tm_settings demo_li (hello_buf, from_node 2) demo_start).
Definition answer_buf : byte_list :=
  match demo_answer with Done _ (Next (Some (_, _, b))) => b | _ => [] end.
Abbreviation demo_accept := (handle_hello (demo_pl_env (node_id 2)) true demo_tm_settings demo_li (answer_buf, from_node 1) demo_start).
(** Both open their tunnel; B sends to the port A listens on. *)
Definition ports (m : Tunnels) : list (Z * Z) := (fun t => (listen_port t, wg_port (neigh_id t))) <$> all_tunnels m.
Example demo_ports :
  match demo_answer, demo_accept with
  | Done nA _, Done nB _ => ports (tunnels (tm nA)) = [(60001, 60001)] /\ ports (tunnels (tm nB)) = [(60001, 60001)]
  | _, _ => False
  end.
Proof. vm_compute. split; reflexivity. Qed.
Lemma demo_answer_ok : match demo_answer with Done _ (Next (Some (_, to, b))) => b = answer_buf /\ to = from_node 2 | _ => False end.
Proof. vm_compute. split; reflexivity. Qed.
Lemma demo_accept_ok : match demo_accept with Done _ (Next None) => True | _ => False end.
Proof. vm_compute. exact I. Qed.
Lemma demo_fits id : encode (Hello id true 60001) = Some answer_buf -> hello_bytes (Hello id true 60001) answer_buf.
Proof.
  intros H. split_and!; [| done | apply Nat.ltb_lt; vm_compute; reflexivity].
  intros Hs. unfold encode in H. rewrite Hs in H. vm_compute in H. discriminate H.
Qed.
Lemma no_demo_tunnel id peer t : ~ has_tunnel id peer (tunnels (tm demo_start)) t.
Proof. intros [H _]. vm_compute in H. by apply elem_of_nil in H. Qed.
Lemma hello_exchange_agrees_witness :
  match demo_answer, demo_accept with
  | Done nA _, Done nB _ =>
      let idB := {| wg_port := 60001; have_tunnel := None; global := node_id 2 |} in
      exists tA, has_tunnel idB {| ifidx := 0; contact_ip := so_ip (from_node 2) |} (tunnels (tm nA)) tA /\ neigh_id tA = idB
  | _, _ => False
  end.
Proof.
  pose proof demo_answer_ok as HA. pose proof demo_accept_ok as HB.
  destruct demo_answer as [nA' [[[[i to] b] |] |] | |] eqn:EA; try done. destruct HA as [-> ->].
  destruct demo_accept as [nB' r | |] eqn:EB; try done.
  destruct (hello_exchange_agrees true (demo_pl_env (node_id 1)) (demo_pl_env (node_id 2)) demo_tm_settings demo_tm_settings demo_li demo_li
    (from_node 1) (from_node 2) {| wg_port := 60001; have_tunnel := None; global := node_id 2 |} 60001 hello_buf demo_start nA' i (from_node 2) answer_buf
    demo_start nB' r eq_refl (table_wf_empty _) (table_wf_empty _)) as (tA & our & hadA & _ & _ & _ & HtA & Hhad & Hnew & _);
    [split_and!; [done | reflexivity | apply Nat.ltb_lt; vm_compute; reflexivity] | exact EA | exact demo_fits | exact EB |].
  exists tA. split; [exact HtA |]. apply Hnew. destruct hadA; [| done].
  destruct (proj1 Hhad eq_refl) as [t0 H0]. by apply no_demo_tunnel in H0.
Defined.
End PeerDemo.
