(* ===== verification/Forwarding.v ===== *)
(** The antenna forwarding protocol (antenna_forwarding_protocol/src/lib.rs):
    framing, encryption of the forward message, reading messages off a stream
    that delivers bytes in pieces, writing to one that accepts them in pieces,
    and multiplexing streams; with the client's handling of messages
    (antenna_forwarding_client/src/lib.rs).  A byte is a number below 256, a
    [usize] has 64 bits.  The serde_json and sodiumoxide crates are classes with
    the laws the protocol relies on. *)
From S2P Require Import Prelude Types PeerMessage.

Module Forwarding.

(** * Data *)

Definition HEADER_LEN : nat := 22.
Definition NONCEBYTES : nat := 24.
Definition MAGIC : Z := 266244417876907680150892848205622258774.

Inductive ForwardingProtocolError :=
| SliceTooSmall (expected actual : Z)
| SerdeError
| BadMagic
| InvalidLen
| WrongPacketType
| UnknownPacketType
| DecryptionFailed.

Inductive ForwardingProtocolMessage :=
| IdentificationMessage (id : Identity)
| ForwardMessage (ip : IpAddr) (server_port antenna_port : Z)
| ErrorMessage (error : string)
| ConnectionCloseMessage (stream_id : Z)
| ConnectionDataMessage (stream_id : Z) (payload : byte_list)
| ForwardingCloseMessage
| KeepAliveMessage.

Definition IDENTIFICATION_MESSAGE_TYPE : Z := 0.
Definition FORWARD_MESSAGE_TYPE : Z := 1.
Definition ERROR_MESSAGE_TYPE : Z := 2.
Definition CONNECTION_CLOSE_MESSAGE_TYPE : Z := 3.
Definition CONNECTION_DATA_MESSAGE_TYPE : Z := 4.
Definition FORWARDING_CLOSE_MESSAGE_TYPE : Z := 5.
Definition KEEPALIVE_MESSAGE_TYPE : Z := 6.

Inductive AntennaForwardingError :=
| SpaceAllocationError
| ConnectionDownError
| EndNotFoundError
| DoubleReadFailure (a b : ForwardingProtocolError)
| ImpossibleError
| UnparsedBytesError (messages : list ForwardingProtocolMessage) (remaining_bytes : byte_list)
| MessageWriteError.

(** The serde_json crate: it reads back what it writes. *)
Class Json := {
  to_vec : ForwardingProtocolMessage -> byte_list;
  from_slice : byte_list -> option ForwardingProtocolMessage;
}.
Class JsonLaws (J : Json) : Prop :=
  json_roundtrip m : from_slice (to_vec m) = Some m.

(** The boxes of sodiumoxide: what is sealed for a public key with a secret key
    is opened with the other halves of the two key pairs. *)
Class SecretBox := {
  seal : byte_list -> byte_list -> Z -> Z -> byte_list;
  box_open : byte_list -> byte_list -> Z -> Z -> option byte_list;
  key_pair : Z -> Z -> Prop;
}.
Class SecretBoxLaws (B : SecretBox) : Prop :=
  box_opens plain nonce pk1 sk1 pk2 sk2 : key_pair pk1 sk1 -> key_pair pk2 sk2 ->
    box_open (seal plain nonce pk1 sk2) nonce pk2 sk1 = Some plain.

(** * Bytes *)

(** [from_be_bytes]. *)
Definition be_value (l : byte_list) : Z := foldl (fun acc b => acc * 256 + b) 0 l.

(** [&l[a..b]]; [None] is the panic of a slice out of range. *)
Definition slice (a b : Z) (l : byte_list) : option byte_list :=
  if (0 <=? a) && (a <=? b) && (b <=? Z.of_nat (length l))
  then Some (take (Z.to_nat (b - a)) (drop (Z.to_nat a) l)) else None.

Definition usize_of `{Profile} : Z -> option Z := native 0 U64_MAX.
Definition as_u32 (x : Z) : Z := x mod 2 ^ 32.

(** The header: magic, type and length of the payload. *)
Definition header (message_type len : Z) : byte_list :=
  octets 16 MAGIC ++ octets 2 message_type ++ octets 4 len.
Definition len_of (l : byte_list) : Z := Z.of_nat (length l).

Section protocol.
Context `{J : Json} `{B : SecretBox} `{P : Profile}.

(** * Writing messages *)

Definition make_serde_packet (message_type : Z) (payload : ForwardingProtocolMessage) : byte_list :=
  let payload := to_vec payload in
  header message_type (as_u32 (len_of payload)) ++ payload.

(** [nonce] is what [box_::gen_nonce] returns. *)
Definition get_encrypted_forward_message (nonce : byte_list) (server_secretkey client_publickey : Z)
    (m : ForwardingProtocolMessage) : ForwardingProtocolError + byte_list :=
  match m with
  | ForwardMessage _ _ _ =>
      let ciphertext := seal (to_vec m) nonce client_publickey server_secretkey in
      let payload := nonce ++ ciphertext in
      inr (header FORWARD_MESSAGE_TYPE (as_u32 (len_of payload)) ++ payload)
  | _ => inl WrongPacketType
  end.

(** [None] is a panic: [unimplemented!()] for a forward message, or the overflow
    of the length. *)
Definition get_message (m : ForwardingProtocolMessage) : option byte_list :=
  match m with
  | IdentificationMessage _ => Some (make_serde_packet IDENTIFICATION_MESSAGE_TYPE m)
  | ForwardMessage _ _ _ => None
  | ErrorMessage _ => Some (make_serde_packet ERROR_MESSAGE_TYPE m)
  | ConnectionCloseMessage stream_id =>
      Some (header CONNECTION_CLOSE_MESSAGE_TYPE 8 ++ octets 8 stream_id)
  | ConnectionDataMessage stream_id payload =>
      len_bytes ← u32_of (as_u32 (len_of payload) + 8);
      Some (header CONNECTION_DATA_MESSAGE_TYPE len_bytes ++ octets 8 stream_id ++ payload)
  | ForwardingCloseMessage => Some (make_serde_packet FORWARDING_CLOSE_MESSAGE_TYPE m)
  | KeepAliveMessage => Some (make_serde_packet KEEPALIVE_MESSAGE_TYPE m)
  end.

(** * Reading a message

    The outer [option] is a panic, the pair the number of bytes read and the
    message. *)
Abbreviation reading := (option (ForwardingProtocolError + (Z * ForwardingProtocolMessage))).

(** The arms that hold a serialized struct. *)
Definition read_serde (payload : byte_list) (packet_len : Z) : reading :=
  let bytes_read := 22 + packet_len in
  body ← slice 22 bytes_read payload;
  Some match from_slice body with
       | Some message => inr (bytes_read, message)
       | None => inl SerdeError
       end.

(** The three fields of the header of a payload that has one. *)
Definition packet_magic (payload : byte_list) : Z := be_value (take 16 payload).
Definition packet_type (payload : byte_list) : Z := be_value (take 2 (drop 16 payload)).
Definition packet_length (payload : byte_list) : Z := be_value (take 4 (drop 18 payload)).

Definition read_message (payload : byte_list) : reading :=
  if len_of payload <? 22 then Some (inl InvalidLen)
  else
    let packet_magic := packet_magic payload in
    let packet_type := packet_type payload in
    let packet_len := packet_length payload in
    if negb (packet_magic =? MAGIC) then Some (inl BadMagic)
    else if 6 <? packet_type then Some (inl WrongPacketType)
    else if len_of payload <? packet_len + 22 then
      if (packet_type =? IDENTIFICATION_MESSAGE_TYPE) && (10000 <? packet_len) then
        Some (inl WrongPacketType)
      else
        expected ← u32_of (packet_len + 22);
        Some (inl (SliceTooSmall expected (as_u32 (len_of payload))))
    else if packet_type =? IDENTIFICATION_MESSAGE_TYPE then read_serde payload packet_len
    else if packet_type =? FORWARD_MESSAGE_TYPE then Some (inl WrongPacketType)
    else if packet_type =? ERROR_MESSAGE_TYPE then read_serde payload packet_len
    else if packet_type =? CONNECTION_CLOSE_MESSAGE_TYPE then
      if negb (packet_len =? 8) then Some (inl InvalidLen)
      else
        connection_id ← slice 22 30 payload;
        Some (inr (30, ConnectionCloseMessage (be_value connection_id)))
    else if packet_type =? CONNECTION_DATA_MESSAGE_TYPE then
      connection_id ← slice 22 30 payload;
      payload_bytes ← usize_of (packet_len - 8);
      end_ ← usize_of (30 + payload_bytes);
      message_value ← slice 30 end_ payload;
      Some (inr (end_, ConnectionDataMessage (be_value connection_id) message_value))
    else if packet_type =? FORWARDING_CLOSE_MESSAGE_TYPE then read_serde payload packet_len
    else if packet_type =? KEEPALIVE_MESSAGE_TYPE then read_serde payload packet_len
    else Some (inl UnknownPacketType).

Definition read_encrypted_forward_message (payload : byte_list) (server_publickey client_secretkey : Z)
    : reading :=
  if len_of payload <? 22 then Some (inl InvalidLen)
  else
    let packet_magic := packet_magic payload in
    let packet_type := packet_type payload in
    let packet_len := packet_length payload in
    if negb (packet_magic =? MAGIC) then Some (inl BadMagic)
    else if negb (packet_type =? FORWARD_MESSAGE_TYPE) then Some (inl WrongPacketType)
    else if len_of payload <? packet_len + 22 then
      expected ← u32_of (packet_len + 22);
      Some (inl (SliceTooSmall expected (as_u32 (len_of payload))))
    else
      let nonce_end := 22 + Z.of_nat NONCEBYTES in
      nonce ← slice 22 nonce_end payload;
      let end_bytes := 22 + packet_len in
      ciphertext ← slice nonce_end end_bytes payload;
      Some match box_open ciphertext nonce server_publickey client_secretkey with
           | Some plaintext =>
               match from_slice plaintext with
               | Some forward_message => inr (end_bytes, forward_message)
               | None => inl SerdeError
               end
           | None => inl DecryptionFailed
           end.

(** * Reading from a stream

    [stream i] is what the [i]-th call of [read_till_block] returns, [None] for
    an error of the socket; a call that finds nothing returns no bytes.  The
    outer [option] is fuel or a panic: [None] for no fuel, [Some None] for a
    panic.  The third component counts the calls made. *)
Definition rstream : Type := nat -> option byte_list.
Abbreviation messages_result :=
  (option (option (AntennaForwardingError + (list ForwardingProtocolMessage * nat)))).

Definition READ_WAIT_TIME : Z := 600.
Definition START_WAIT_TIME : Z := 10.

Fixpoint read_messages_internal (fuel : nat) (input : rstream) (i : nat) (remaining_bytes : byte_list)
    (messages : list ForwardingProtocolMessage) (depth : Z) (last_read_bytes : option Z) : messages_result :=
  match fuel with
  | O => None
  | S fuel =>
      if READ_WAIT_TIME <? depth then Some (Some (inl EndNotFoundError))
      else
        match input i with
        | None => Some (Some (inl MessageWriteError))
        | Some bytes =>
            let remaining_bytes := remaining_bytes ++ bytes in
            match read_message remaining_bytes with
            | None => Some None
            | Some (inr (bytes, msg)) =>
                let messages := messages ++ [msg] in
                let num_remaining_bytes := len_of remaining_bytes - bytes in
                if negb (num_remaining_bytes =? 0) then
                  read_messages_internal fuel input (S i) (drop (Z.to_nat bytes) remaining_bytes)
                    messages (depth + 1) None
                else Some (Some (inr (messages, S i)))
            | Some (inl (SliceTooSmall expected actual)) =>
                match last_read_bytes with
                | Some last_actual =>
                    if last_actual <? actual then
                      read_messages_internal fuel input (S i) remaining_bytes messages 0 (Some actual)
                    else
                      read_messages_internal fuel input (S i) remaining_bytes messages (depth + 1) (Some actual)
                | None =>
                    read_messages_internal fuel input (S i) remaining_bytes messages (depth + 1) (Some actual)
                end
            | Some (inl _) =>
                match remaining_bytes with
                | _ :: _ => Some (Some (inl (UnparsedBytesError messages remaining_bytes)))
                | [] => Some (Some (inr (messages, S i)))
                end
            end
        end
  end.

Definition read_messages (fuel : nat) (input : rstream) : messages_result :=
  read_messages_internal fuel input 0 [] [] 0 None.

Fixpoint read_messages_start_internal (fuel : nat) (input : rstream) (i : nat)
    (server_publickey client_secretkey : Z) (bytes : byte_list) (depth : Z) : messages_result :=
  match fuel with
  | O => None
  | S fuel =>
      if START_WAIT_TIME <? depth then Some (Some (inl EndNotFoundError))
      else
        match input i with
        | None => Some (Some (inl MessageWriteError))
        | Some read =>
            let bytes := bytes ++ read in
            let again := read_messages_start_internal fuel input (S i) server_publickey client_secretkey
                           bytes (depth + 1) in
            match read_message bytes,
                  read_encrypted_forward_message bytes server_publickey client_secretkey with
            | None, _ => Some None
            | _, None => Some None
            | Some (inr (_, ForwardingCloseMessage)), _ =>
                Some (Some (inr ([ForwardingCloseMessage], S i)))
            | _, Some (inr (bytes_read, msg)) =>
                read_messages_internal fuel input (S i) (drop (Z.to_nat bytes_read) bytes) [msg] 0 None
            | Some (inl (SliceTooSmall _ _)), _ => again
            | _, Some (inl (SliceTooSmall _ _)) => again
            | Some (inl a), Some (inl b) => Some (Some (inl (DoubleReadFailure a b)))
            | _, _ => Some (Some (inl ImpossibleError))
            end
        end
  end.

Definition read_messages_start (fuel : nat) (input : rstream) (server_publickey client_secretkey : Z)
    : messages_result :=
  read_messages_start_internal fuel input 0 server_publickey client_secretkey [] 0.
End protocol.

(** * Writing to a stream

    An attempt of [stream.write]: the time when the loop comes round, and how
    many bytes the socket takes (of those there are), or that it would block, or
    another error.  The result is the bytes taken and what is returned; [None]
    when there are no more attempts in the list. *)
Inductive write_attempt := Wrote (n : nat) | WouldBlock | WriteFailed.
Inductive write_error := TimedOut | ConnectionDown | SocketError.
Definition SPINLOCK_TIMEOUT : Z := secs 600.

Fixpoint write_loop (start : Z) (attempts : list (Z * write_attempt)) (buffer : byte_list)
    : option (byte_list * (write_error + unit)) :=
  match attempts with
  | [] => None
  | (now, a) :: rest =>
      if SPINLOCK_TIMEOUT <? instant_sub now start then Some ([], inl TimedOut)
      else
        match a with
        | Wrote n =>
            let n := Nat.min n (length buffer) in
            let taken := take n buffer in
            if Nat.eqb (length buffer) n then Some (taken, inr tt)
            else if Nat.eqb n 0 then Some ([], inl ConnectionDown)
            else
              match write_loop start rest (drop n buffer) with
              | Some (more, r) => Some (taken ++ more, r)
              | None => None
              end
        | WouldBlock => write_loop start rest buffer
        | WriteFailed => Some ([], inl SocketError)
        end
  end.

(** The inner [option] is the panic of the assertion. *)
Definition write_all_spinlock (start : Z) (attempts : list (Z * write_attempt)) (buffer : byte_list)
    : option (option (byte_list * (write_error + unit))) :=
  match buffer with
  | [] => Some None
  | _ => Some <$> write_loop start attempts buffer
  end.

(** * Multiplexing

    The streams to antennas or clients, each with the time of its last message. *)
Definition STREAM_TIMEOUT : Z := secs 60.
Definition FORWARD_TIMEOUT : Z := secs 600.
Record ExternalStream := { last_message : Z }.

(** What one pass finds for a stream: the result of [read_till_block] ([None]
    for an error), and the clock readings. *)
Record stream_view := {
  sv_read : option byte_list;
  sv_now_read : Z;
  sv_now_later : Z;
  sv_now_since : Z;
}.

(** The messages one stream gives rise to, the stream afterwards and whether it
    is removed. *)
Definition process_stream (v : stream_view) (stream_id : Z) (s : ExternalStream)
    : list ForwardingProtocolMessage * ExternalStream * bool :=
  let '(sent, s, failed) :=
    match sv_read v with
    | Some [] => ([], s, false)
    | Some bytes => ([ConnectionDataMessage stream_id bytes], {| last_message := sv_now_read v |}, false)
    | None => ([ConnectionCloseMessage stream_id], s, true)
    end in
  if (last_message s <? sv_now_later v) && (STREAM_TIMEOUT <? instant_sub (sv_now_since v) (last_message s))
  then (sent ++ [ConnectionCloseMessage stream_id], s, true)
  else (sent, s, failed).

(** The loop over the streams, in the order the map yields them, and the removal. *)
Definition process_streams (view : Z -> stream_view) (streams : gmap Z ExternalStream)
    : list ForwardingProtocolMessage * gmap Z ExternalStream :=
  let results := (fun '(id, s) => (id, process_stream (view id) id s)) <$> map_to_list streams in
  let streams := foldl (fun m '(id, (_, s, _)) => <[id := s]> m) streams results in
  let streams_to_remove := (filter (fun r => r.2.2 = true) results).*1 in
  (results ≫= (fun r => r.2.1.1), foldl (fun m i => delete i m) streams streams_to_remove).

(** * The client's side (antenna_forwarding_client/src/lib.rs)

    [written] is what has been written to the antenna on behalf of each stream,
    in order. *)
Record client_state := {
  cl_streams : gmap Z ExternalStream;
  cl_last_message : Z;
  written : list (Z * byte_list);
}.

(** What happens around one message: whether connecting works, when writing
    starts and what the socket does with each attempt to write, and the time. *)
Record message_view := {
  mv_connects : bool;
  mv_write_start : Z;
  mv_attempts : list (Z * write_attempt);
  mv_now : Z;
}.

(** The two calls of [write_all_spinlock]: what got through, and whether it was
    all. *)
Definition write_antenna (v : message_view) (payload : byte_list) : option (byte_list * bool) :=
  match write_all_spinlock (mv_write_start v) (mv_attempts v) payload with
  | Some (Some (out, inr _)) => Some (out, true)
  | Some (Some (out, inl _)) => Some (out, false)
  | Some None | None => None
  end.

(** One message; [None] is the panic of an empty write, or that the attempts of
    the view are used up; the flag is that the forwarder should shut down. *)
Definition process_message (v : message_view) (item : ForwardingProtocolMessage) (st : client_state)
    : option (client_state * bool) :=
  match item with
  | IdentificationMessage _ => Some (st, false)
  | ForwardMessage _ _ _ => Some (st, false)
  | ErrorMessage _ => Some (st, false)
  | ConnectionCloseMessage stream_id =>
      Some ({| cl_streams := delete stream_id (cl_streams st); cl_last_message := mv_now v;
               written := written st |}, false)
  | ConnectionDataMessage stream_id payload =>
      match cl_streams st !! stream_id with
      | Some _ =>
          match write_antenna v payload with
          | Some (out, _) =>
              Some ({| cl_streams := cl_streams st; cl_last_message := mv_now v;
                       written := written st ++ [(stream_id, out)] |}, false)
          | None => None
          end
      | None =>
          if mv_connects v then
            match write_antenna v payload with
            | Some (out, ok) =>
                Some ({| cl_streams := if ok then <[stream_id := {| last_message := mv_now v |}]> (cl_streams st)
                                       else cl_streams st;
                         cl_last_message := mv_now v; written := written st ++ [(stream_id, out)] |}, false)
            | None => None
            end
          else Some ({| cl_streams := cl_streams st; cl_last_message := mv_now v; written := written st |}, false)
      end
  | ForwardingCloseMessage => Some (st, true)
  | KeepAliveMessage => Some (st, false)
  end.

Fixpoint process_messages (view : nat -> message_view) (i : nat) (input : list ForwardingProtocolMessage)
    (st : client_state) : option (client_state * bool) :=
  match input with
  | [] => Some (st, false)
  | item :: rest =>
      match process_message (view i) item st with
      | Some (st, stop) => if stop then Some (st, true) else process_messages view (S i) rest st
      | None => None
      end
  end.

(** The forwarding session.  A round sees the clock and the streams through its
    view; the bytes of the server's socket are one stream, which each round
    reads on from where the last one stopped.  [sent] is what goes to the
    server, in order. *)
Record round_view := {
  rv_streams : Z -> stream_view;
  rv_messages : nat -> message_view;
  rv_now : Z;
}.
Inductive session_end :=
| ReadFailed (e : AntennaForwardingError)
| ServerClosed
| SessionTimedOut
| StillOpen.
Record session := {
  se_state : client_state;
  se_calls : nat;
  sent : list ForwardingProtocolMessage;
}.

(** The [while let] loop; [None] when a panic ends the thread or the fuel of a
    read is used up. *)
Fixpoint forward_rounds `{Json} `{Profile} (fuel : nat) (input : rstream) (rounds : list round_view)
    (s : session) : option (session * session_end) :=
  match rounds with
  | [] => Some (s, StillOpen)
  | v :: rounds =>
      match read_messages_internal fuel input (se_calls s) [] [] 0 None with
      | None | Some None => None
      | Some (Some (inl e)) => Some (s, ReadFailed e)
      | Some (Some (inr (vec, calls))) =>
          let '(out, streams) := process_streams (rv_streams v) (cl_streams (se_state s)) in
          let st := {| cl_streams := streams; cl_last_message := cl_last_message (se_state s);
                       written := written (se_state s) |} in
          match process_messages (rv_messages v) 0 vec st with
          | None => None
          | Some (st, should_shutdown) =>
              let s := {| se_state := st; se_calls := calls; sent := sent s ++ out |} in
              if should_shutdown then Some (s, ServerClosed)
              else if FORWARD_TIMEOUT <? instant_sub (rv_now v) (cl_last_message st)
              then Some (s, SessionTimedOut)
              else forward_rounds fuel input rounds s
          end
      end
  end.

Definition forward_connections `{Json} `{Profile} (fuel : nat) (input : rstream) (start : Z) (calls : nat)
    (first_round : nat -> message_view) (first_round_input : list ForwardingProtocolMessage)
    (rounds : list round_view) : option (session * session_end) :=
  match process_messages first_round 0 first_round_input
          {| cl_streams := ∅; cl_last_message := start; written := [] |} with
  | None => None
  | Some (st, _) => forward_rounds fuel input rounds {| se_state := st; se_calls := calls; sent := [] |}
  end.

(** The address checks before an antenna is looked for. *)
Definition IP_BLACKLIST : list Z := [0xc0a80a00; 0x7f000000].
Definition compare_ipv4_octets (mask to_compare : Z) : bool :=
  mask =? Z.land to_compare 0xffffff00.
Definition check_blacklist (ip : IpAddr) : bool :=
  match ip with
  | V4 address => negb (existsb (fun ip => compare_ipv4_octets ip address) IP_BLACKLIST)
  | V6 _ => true
  end.
(** [get_local_ip] with the random bytes it draws; [None] for an address it does
    not support, [Some None] when the bytes run out. *)
Fixpoint draw_other (last : Z) (bytes : list Z) : option Z :=
  match bytes with [] => None | b :: rest => if b =? last then draw_other last rest else Some b end.
Definition get_local_ip (bytes : list Z) (target_ip : IpAddr) : option (option IpAddr) :=
  match target_ip with
  | V4 a => Some match draw_other (a mod 256) bytes with
                 | Some b => Some (V4 (a - a mod 256 + b))
                 | None => None
                 end
  | V6 _ => None
  end.
End Forwarding.
Export Forwarding.
