(* ===== verification/ForwardingSpec.v ===== *)
(** What the antenna forwarding protocol promises (Forwarding.v): messages read
    back as they were sent, a reader that loses and reorders nothing whatever
    pieces the bytes arrive in, when reading ends, what a write that fails has
    written, and that the antenna gets what the other side's streams sent. *)
From S2P Require Import Prelude Types PeerMessage Forwarding.

(** * Bytes and headers *)

Lemma be_value_snoc l b : be_value (l ++ [b]) = be_value l * 256 + b.
Proof. unfold be_value. by rewrite foldl_app. Qed.

Lemma be_value_octets n a : 0 <= a < 256 ^ Z.of_nat n -> be_value (octets n a) = a.
Proof.
  revert a. induction n as [|n IH]; intros a Ha.
  { change (256 ^ Z.of_nat 0) with 1 in Ha. cbn. lia. }
  rewrite Nat2Z.inj_succ, Z.pow_succ_r in Ha by lia.
  rewrite octets_snoc, be_value_snoc, IH by (split; [apply Z.div_pos; lia|apply Z.div_lt_upper_bound; lia]).
  pose proof (Z.div_mod a 256 ltac:(lia)). lia.
Qed.

Lemma len_of_app a b : len_of (a ++ b) = len_of a + len_of b.
Proof. unfold len_of. rewrite length_app. lia. Qed.
Lemma len_of_octets n a : len_of (octets n a) = Z.of_nat n.
Proof. unfold len_of. by rewrite octets_length. Qed.
Lemma len_of_nonneg l : 0 <= len_of l.
Proof. unfold len_of. lia. Qed.
Lemma len_of_pos l : l <> [] -> 0 < len_of l.
Proof. destruct l; [done|]. unfold len_of. simpl. lia. Qed.
Lemma len_of_header t l : len_of (header t l) = 22.
Proof. unfold header. by rewrite !len_of_app, !len_of_octets. Qed.
Create Rewrite HintDb fwd.
#[export] Hint Rewrite len_of_app len_of_octets len_of_header : fwd.

Lemma take_octets n k a l : n = k -> take k (octets n a ++ l) = octets n a.
Proof. intros <-. apply take_app_length'. by rewrite octets_length. Qed.
Lemma drop_octets n k a l : n = k -> drop k (octets n a ++ l) = l.
Proof. intros <-. apply drop_app_length'. by rewrite octets_length. Qed.

Lemma magic_of_header t l rest : packet_magic (header t l ++ rest) = MAGIC.
Proof.
  unfold packet_magic, header. rewrite <- app_assoc, take_octets by done. by rewrite be_value_octets.
Qed.
Lemma type_of_header t l rest : 0 <= t < 65536 -> packet_type (header t l ++ rest) = t.
Proof.
  intros Ht. unfold packet_type, header. rewrite <- !app_assoc, drop_octets, take_octets by done.
  by rewrite be_value_octets.
Qed.
Lemma length_of_header t l rest : 0 <= l < 2 ^ 32 -> packet_length (header t l ++ rest) = l.
Proof.
  intros Hl. unfold packet_length, header. rewrite <- !app_assoc, (app_assoc (octets 16 _) (octets 2 _)).
  rewrite drop_app_length' by (by rewrite length_app, !octets_length).
  rewrite take_octets by done. by rewrite be_value_octets.
Qed.

(** A slice that is there is not moved by what comes after it. *)
Lemma slice_grow a b l m x : slice a b l = Some x -> slice a b (l ++ m) = Some x.
Proof.
  unfold slice. rewrite length_app.
  destruct ((0 <=? a) && (a <=? b) && (b <=? Z.of_nat (length l))) eqn:E; [|done].
  apply andb_true_iff in E as [E Eb%Z.leb_le]. apply andb_true_iff in E as [Ea%Z.leb_le Eab%Z.leb_le].
  rewrite (proj2 (Z.leb_le 0 a)), (proj2 (Z.leb_le a b)), (proj2 (Z.leb_le b _)) by lia. cbn [andb].
  intros [= <-]. f_equal. rewrite drop_app_le by lia. apply take_app_le. rewrite length_drop. lia.
Qed.

Lemma slice_middle l1 l2 l3 :
  slice (len_of l1) (len_of l1 + len_of l2) (l1 ++ l2 ++ l3) = Some l2.
Proof.
  unfold slice, len_of. rewrite !length_app.
  rewrite (proj2 (Z.leb_le 0 _)), (proj2 (Z.leb_le _ (_ + _))), (proj2 (Z.leb_le _ (Z.of_nat (_ + _)))) by lia.
  cbn [andb]. f_equal. rewrite drop_app_length' by lia. apply take_app_length'. lia.
Qed.

Lemma slice_at a b l1 l2 l3 :
  a = len_of l1 -> b = len_of l1 + len_of l2 -> slice a b (l1 ++ l2 ++ l3) = Some l2.
Proof. intros -> ->. apply slice_middle. Qed.

Section codec.
Context `{J : Json} `{P : Profile}.

(** * One message *)

(** What a message has to satisfy to fit the fields of its packet; a forward
    message is only sent encrypted. *)
Definition sendable (m : ForwardingProtocolMessage) : Prop :=
  match m with
  | ForwardMessage _ _ _ => False
  | ConnectionCloseMessage id => 0 <= id < 2 ^ 64
  | ConnectionDataMessage id payload => 0 <= id < 2 ^ 64 /\ len_of payload + 8 <= U32_MAX
  | _ => len_of (to_vec m) <= U32_MAX
  end.

Lemma read_message_framed t l body rest :
  0 <= t <= 6 -> 0 <= l < 2 ^ 32 -> len_of body = l ->
  read_message (header t l ++ body ++ rest) =
  let payload := header t l ++ body ++ rest in
  if t =? IDENTIFICATION_MESSAGE_TYPE then read_serde payload l
  else if t =? FORWARD_MESSAGE_TYPE then Some (inl WrongPacketType)
  else if t =? ERROR_MESSAGE_TYPE then read_serde payload l
  else if t =? CONNECTION_CLOSE_MESSAGE_TYPE then
    if negb (l =? 8) then Some (inl InvalidLen)
    else
      connection_id ← slice 22 30 payload;
      Some (inr (30, ConnectionCloseMessage (be_value connection_id)))
  else if t =? CONNECTION_DATA_MESSAGE_TYPE then
    connection_id ← slice 22 30 payload;
    payload_bytes ← usize_of (l - 8);
    end_ ← usize_of (30 + payload_bytes);
    message_value ← slice 30 end_ payload;
    Some (inr (end_, ConnectionDataMessage (be_value connection_id) message_value))
  else if t =? FORWARDING_CLOSE_MESSAGE_TYPE then read_serde payload l
  else if t =? KEEPALIVE_MESSAGE_TYPE then read_serde payload l
  else Some (inl UnknownPacketType).
Proof.
  intros Ht Hl Hb. pose proof (len_of_nonneg rest). unfold read_message.
  rewrite magic_of_header, type_of_header, length_of_header, Z.eqb_refl by lia.
  autorewrite with fwd. rewrite !(proj2 (Z.ltb_ge _ _)) by lia. done.
Qed.

Lemma read_serde_framed t l body rest m :
  len_of body = l -> from_slice body = Some m ->
  read_serde (header t l ++ body ++ rest) l = Some (inr (22 + l, m)).
Proof.
  intros Hb Hm. unfold read_serde. rewrite (slice_at _ _ (header t l) body rest).
  - cbn. by rewrite Hm.
  - by rewrite len_of_header.
  - rewrite len_of_header. lia.
Qed.

Lemma as_u32_small x : 0 <= x <= U32_MAX -> as_u32 x = x.
Proof. unfold U32_MAX, as_u32. intros. apply Z.mod_small. lia. Qed.

Lemma serde_roundtrip `{L : !JsonLaws J} t m rest :
  In t [0; 2; 5; 6] -> len_of (to_vec m) <= U32_MAX ->
  read_message (make_serde_packet t m ++ rest) = Some (inr (len_of (make_serde_packet t m), m)).
Proof.
  intros Ht Hl. pose proof (len_of_nonneg (to_vec m)) as Hp. unfold make_serde_packet.
  rewrite as_u32_small by done. autorewrite with fwd. rewrite <- app_assoc.
  rewrite read_message_framed; [|simpl in Ht; lia|unfold U32_MAX in Hl; lia|done]. cbv zeta.
  rewrite (read_serde_framed _ _ _ _ m) by (done || apply json_roundtrip).
  destruct Ht as [<-|[<-|[<-|[<-|[]]]]]; reflexivity.
Qed.

Lemma close_roundtrip id rest :
  0 <= id < 2 ^ 64 ->
  read_message (header CONNECTION_CLOSE_MESSAGE_TYPE 8 ++ octets 8 id ++ rest)
  = Some (inr (30, ConnectionCloseMessage id)).
Proof.
  intros Hid. rewrite read_message_framed by (autorewrite with fwd; done). cbn -[slice header octets].
  rewrite (slice_at _ _ (header 3 8) (octets 8 id) rest) by (autorewrite with fwd; done).
  cbn -[octets be_value]. by rewrite be_value_octets.
Qed.

Lemma data_roundtrip id payload rest :
  0 <= id < 2 ^ 64 -> len_of payload + 8 <= U32_MAX ->
  read_message (header CONNECTION_DATA_MESSAGE_TYPE (len_of payload + 8) ++ (octets 8 id ++ payload) ++ rest)
  = Some (inr (30 + len_of payload, ConnectionDataMessage id payload)).
Proof.
  intros Hid Hl. pose proof (len_of_nonneg payload) as Hp. unfold U32_MAX in Hl.
  rewrite read_message_framed by (autorewrite with fwd; lia || done).
  set (h := header _ _). cbn -[slice octets].
  rewrite <- app_assoc.
  rewrite (slice_at _ _ h (octets 8 id) (payload ++ rest)) by (unfold h; autorewrite with fwd; done).
  cbn -[slice octets]. unfold usize_of.
  rewrite native_exact by (unfold U64_MAX; lia). cbn -[slice octets].
  rewrite native_exact by (unfold U64_MAX; lia). cbn -[slice octets].
  rewrite app_assoc, (slice_at _ _ (h ++ octets 8 id) payload rest).
  - cbn -[octets be_value]. rewrite be_value_octets by done. do 3 f_equal. lia.
  - unfold h. by autorewrite with fwd.
  - unfold h. autorewrite with fwd. lia.
Qed.

Lemma sendable_roundtrip `{L : !JsonLaws J} m :
  sendable m ->
  exists w, get_message m = Some w /\ 22 <= len_of w /\
            forall rest, read_message (w ++ rest) = Some (inr (len_of w, m)).
Proof.
  assert (Hserde : forall t m, In t [0; 2; 5; 6] -> len_of (to_vec m) <= U32_MAX ->
    exists w, Some (make_serde_packet t m) = Some w /\ 22 <= len_of w /\
              forall rest, read_message (w ++ rest) = Some (inr (len_of w, m))).
  { intros t m' Ht Hl. eexists. split; [reflexivity|]. split.
    - unfold make_serde_packet. autorewrite with fwd. pose proof (len_of_nonneg (to_vec m')). lia.
    - intros rest. by apply serde_roundtrip. }
  destruct m as [id|ip sp ap|e|id|id payload| |]; unfold sendable; intros Hs;
    [by apply Hserde; [left|]|done|by apply Hserde; [right; left|]| |
    |by apply Hserde; [right; right; left|]|by apply Hserde; [right; right; right; left|]].
  - eexists. split; [reflexivity|]. autorewrite with fwd. split; [lia|]. intros rest. rewrite <- app_assoc.
    by apply close_roundtrip.
  - destruct Hs as [Hid Hl]. pose proof (len_of_nonneg payload). unfold get_message.
    rewrite as_u32_small by (unfold U32_MAX in *; lia). unfold u32_of.
    rewrite native_exact by lia. eexists. split; [reflexivity|]. autorewrite with fwd. split; [lia|].
    intros rest. rewrite <- app_assoc, data_roundtrip by done. do 3 f_equal. lia.
Qed.
End codec.

(** * Reading does not look past the message *)

Section reading.
Context `{J : Json} `{P : Profile}.

Lemma fields_grow b c : 22 <= len_of b ->
  packet_magic (b ++ c) = packet_magic b /\ packet_type (b ++ c) = packet_type b
  /\ packet_length (b ++ c) = packet_length b.
Proof.
  unfold len_of, packet_magic, packet_type, packet_length. intros Hb.
  rewrite !drop_app_le, !take_app_le by (rewrite ?length_drop; lia). done.
Qed.

Lemma slice_bounds a b l x : slice a b l = Some x -> 0 <= a <= b /\ b <= len_of l.
Proof.
  unfold slice. destruct (_ && _) eqn:E; [|done]. apply andb_true_iff in E as [E Eb%Z.leb_le].
  apply andb_true_iff in E as [Ea%Z.leb_le Eab%Z.leb_le]. done.
Qed.

Lemma read_serde_grow b c n r :
  read_serde b n = Some (inr r) -> read_serde (b ++ c) n = Some (inr r) /\ 22 <= r.1 <= len_of b.
Proof.
  unfold read_serde. destruct (slice 22 (22 + n) b) as [body|] eqn:E; [|done].
  rewrite (slice_grow _ _ _ c _ E). apply slice_bounds in E. cbn -[Z.add].
  destruct (from_slice body); [|done]. intros [= <-]. split; [done|cbn [fst]; lia].
Qed.

(** The arms of the match on the type, once the guards are passed. *)
Lemma read_message_grow b c r :
  read_message b = Some (inr r) -> read_message (b ++ c) = Some (inr r) /\ 22 <= r.1 <= len_of b.
Proof.
  unfold read_message. pose proof (len_of_nonneg c).
  destruct (Z.ltb_spec (len_of b) 22); [done|].
  destruct (fields_grow b c) as (-> & -> & ->); [done|].
  rewrite len_of_app, (proj2 (Z.ltb_ge _ 22)) by lia.
  destruct (negb (packet_magic b =? MAGIC)); [done|].
  destruct (6 <? packet_type b); [done|].
  destruct (Z.ltb_spec (len_of b) (packet_length b + 22)) as [|Hlen].
  { destruct (_ && _); [done|]. by destruct (u32_of _). }
  rewrite (proj2 (Z.ltb_ge _ _)) by lia.
  destruct (packet_type b =? IDENTIFICATION_MESSAGE_TYPE); [apply read_serde_grow|].
  destruct (packet_type b =? FORWARD_MESSAGE_TYPE); [done|].
  destruct (packet_type b =? ERROR_MESSAGE_TYPE); [apply read_serde_grow|].
  destruct (packet_type b =? CONNECTION_CLOSE_MESSAGE_TYPE).
  { destruct (negb _); [done|]. destruct (slice 22 30 b) as [x|] eqn:E; [|done].
    rewrite (slice_grow _ _ _ c _ E). apply slice_bounds in E. cbn. intros [= <-]. split; [done|cbn [fst]; lia]. }
  destruct (packet_type b =? CONNECTION_DATA_MESSAGE_TYPE).
  { destruct (slice 22 30 b) as [x|] eqn:E; [|done]. rewrite (slice_grow _ _ _ c _ E). cbn -[slice].
    destruct (usize_of (packet_length b - 8)) as [n|]; [|done]. cbn -[slice].
    destruct (usize_of (30 + n)) as [e|]; [|done]. cbn -[slice].
    destruct (slice 30 e b) as [v|] eqn:Ev; [|done]. rewrite (slice_grow _ _ _ c _ Ev).
    apply slice_bounds in Ev. cbn. intros [= <-]. split; [done|cbn [fst]; lia]. }
  destruct (packet_type b =? FORWARDING_CLOSE_MESSAGE_TYPE); [apply read_serde_grow|].
  destruct (packet_type b =? KEEPALIVE_MESSAGE_TYPE); [apply read_serde_grow|done].
Qed.

(** * A stream of frames *)

(** [framed b ms rest]: [b] starts with exactly the packets of [ms], and [rest]
    comes after them. *)
Inductive framed : byte_list -> list ForwardingProtocolMessage -> byte_list -> Prop :=
| framed_nil b : framed b [] b
| framed_cons b n m ms rest :
    read_message b = Some (inr (n, m)) -> framed (drop (Z.to_nat n) b) ms rest -> framed b (m :: ms) rest.

Lemma drop_grow n b c : n <= len_of b -> drop (Z.to_nat n) (b ++ c) = drop (Z.to_nat n) b ++ c.
Proof. unfold len_of. intros. apply drop_app_le. lia. Qed.

Lemma framed_grow b ms rest c : framed b ms rest -> framed (b ++ c) ms (rest ++ c).
Proof.
  induction 1 as [|b n m ms rest Hr Hf IH]; [constructor|].
  destruct (read_message_grow b c _ Hr) as [Hr' Hn]. eapply framed_cons; [done|].
  simpl in Hn. by rewrite drop_grow by lia.
Qed.

Lemma framed_app b ms1 rest ms2 rest' :
  framed b ms1 rest -> framed rest ms2 rest' -> framed b (ms1 ++ ms2) rest'.
Proof. induction 1; [done|]. intros. eapply framed_cons; eauto. Qed.

Lemma read_message_nil : read_message [] = Some (inl InvalidLen).
Proof. done. Qed.

(** What is read off a part of a stream of packets is the first of them. *)
Lemma framed_prefix b out rest c ms :
  framed b out rest -> framed (b ++ c) ms [] -> exists ms', ms = out ++ ms' /\ framed (rest ++ c) ms' [].
Proof.
  intros Hf. revert ms. induction Hf as [|b n m out rest Hr Hf IH]; intros ms Hm; [by exists ms|].
  destruct (read_message_grow b c _ Hr) as [Hr' Hn]. simpl in Hn.
  inversion Hm as [b' Hb|b' n' m' ms' rest' Hr'' Hm']; subst.
  { destruct b; [|done]. by rewrite read_message_nil in Hr. }
  rewrite Hr' in Hr''. injection Hr'' as <- <-. rewrite drop_grow in Hm' by lia.
  destruct (IH _ Hm') as (ms'' & -> & Hrest). by exists ms''.
Qed.

Fixpoint encode_all (ms : list ForwardingProtocolMessage) : option byte_list :=
  match ms with
  | [] => Some []
  | m :: ms => match get_message m, encode_all ms with
               | Some w, Some ws => Some (w ++ ws)
               | _, _ => None
               end
  end.

Lemma encode_all_framed `{L : !JsonLaws J} ms :
  Forall sendable ms -> exists wire, encode_all ms = Some wire /\ framed wire ms [].
Proof.
  induction 1 as [|m ms Hm _ (wire & Hw & Hf)]; [by exists []; split; [|constructor]|].
  destruct (sendable_roundtrip m Hm) as (w & Hg & _ & Hr). exists (w ++ wire). simpl. rewrite Hg, Hw.
  split; [done|]. eapply framed_cons; [apply Hr|]. unfold len_of. rewrite Nat2Z.id, drop_app_length. done.
Qed.

(** * The reader *)

(** What [n] calls of [read_till_block] from the [i]-th on deliver. *)
Fixpoint received (input : rstream) (i n : nat) : byte_list :=
  match n with O => [] | S n => default [] (input i) ++ received input (S i) n end.

(** The messages and the bytes left over of a result that gives them. *)
Definition read_outcome (r : AntennaForwardingError + (list ForwardingProtocolMessage * nat))
    : option (list ForwardingProtocolMessage * byte_list) :=
  match r with
  | inr (ms, _) => Some (ms, [])
  | inl (UnparsedBytesError ms rest) => Some (ms, rest)
  | inl _ => None
  end.

Lemma read_messages_internal_sound fuel input i remaining msgs depth last r :
  read_messages_internal fuel input i remaining msgs depth last = Some (Some r) ->
  forall out rest, read_outcome r = Some (out, rest) ->
  exists n new, out = msgs ++ new /\ framed (remaining ++ received input i n) new rest.
Proof.
  revert i remaining msgs depth last.
  induction fuel as [|fuel IH]; intros i remaining msgs depth last Hr out rest Ho; [done|].
  cbn [read_messages_internal] in Hr. destruct (_ <? depth); [by simplify_eq|].
  destruct (input i) as [c|] eqn:Ei; [|by simplify_eq].
  assert (Hgo : forall b msgs' depth' last' pre, msgs' = msgs ++ pre -> framed (remaining ++ c) pre b ->
    read_messages_internal fuel input (S i) b msgs' depth' last' = Some (Some r) ->
    exists n new, out = msgs ++ new /\ framed (remaining ++ received input i n) new rest).
  { intros b msgs' depth' last' pre -> Hpre Hrec. destruct (IH _ _ _ _ _ Hrec _ _ Ho) as (n & new & -> & Hf).
    exists (S n), (pre ++ new). cbn [received]. rewrite Ei, !app_assoc. split; [done|].
    eapply framed_app; [by apply framed_grow|done]. }
  assert (Hstop : forall pre b, out = msgs ++ pre -> rest = b -> framed (remaining ++ c) pre b ->
    exists n new, out = msgs ++ new /\ framed (remaining ++ received input i n) new rest).
  { intros pre b Hout <- Hpre. exists 1%nat, pre. cbn [received]. rewrite Ei, app_nil_r. done. }
  destruct (read_message (remaining ++ c)) as [[e|[n m]]|] eqn:Em; [| |done].
  - assert (Hnil : forall r', (match remaining ++ c with
        | [] => Some (Some (inr (msgs, S i)))
        | _ :: _ => Some (Some (inl (UnparsedBytesError msgs (remaining ++ c))))
        end = Some (Some r')) -> r' = r ->
        exists n new, out = msgs ++ new /\ framed (remaining ++ received input i n) new rest).
    { intros r' Hr' ->. destruct (remaining ++ c) eqn:Ec; simplify_eq/=;
        eapply (Hstop []); rewrite ?app_nil_r; try done; rewrite Ec; constructor. }
    destruct e; try by eapply Hnil.
    assert (Hwait : framed (remaining ++ c) [] (remaining ++ c)) by constructor.
    destruct last as [last|]; [destruct (_ <? actual)|]; by eapply (Hgo _ _ _ _ []); rewrite ?app_nil_r.
  - destruct (read_message_grow _ [] _ Em) as [_ Hn]. simpl in Hn.
    destruct (Z.eqb_spec (len_of (remaining ++ c) - n) 0) as [E|E]; cbn [negb] in Hr.
    + simplify_eq/=. eapply (Hstop [m] []); [done|done|]. eapply framed_cons; [exact Em|].
      rewrite drop_ge by (unfold len_of in *; lia). constructor.
    + eapply (Hgo _ _ _ _ [m]); [done| |exact Hr]. eapply framed_cons; [exact Em|constructor].
Qed.

Lemma framed_done b rest : framed b [] rest -> b = rest.
Proof. by inversion 1. Qed.

(** Several messages that are there at once: one more level of depth each. *)
Lemma read_batch_internal ms m wire fuel input i remaining c msgs depth last :
  framed wire (m :: ms) [] -> input i = Some c -> remaining ++ c = wire ->
  (forall k, (i < k)%nat -> input k = Some []) -> (S (length ms) < fuel)%nat ->
  read_messages_internal fuel input i remaining msgs depth last
  = if depth + Z.of_nat (length ms) <=? READ_WAIT_TIME
    then Some (Some (inr (msgs ++ m :: ms, (S i + length ms)%nat)))
    else Some (Some (inl EndNotFoundError)).
Proof.
  revert m wire fuel i remaining c msgs depth last.
  induction ms as [|m' ms IH]; intros m wire fuel i remaining c msgs depth last Hf Hc Hw Hq Hfuel;
    (destruct fuel as [|fuel]; [lia|]); cbn [read_messages_internal length];
    inversion Hf as [|b n ? ? rest Hr Hrest]; subst.
  - rewrite Hc, Hr. destruct (read_message_grow _ [] _ Hr) as [_ Hn]. simpl in Hn.
    apply framed_done in Hrest as Hb.
    assert (E : len_of (remaining ++ c) - n = 0).
    { apply (f_equal length) in Hb. rewrite length_drop in Hb. simpl in Hb. unfold len_of in *. lia. }
    rewrite E, Z.add_0_r. cbn [negb Z.eqb].
    destruct (Z.ltb_spec READ_WAIT_TIME depth), (Z.leb_spec depth READ_WAIT_TIME); try lia; [done|].
    by rewrite Nat.add_0_r.
  - rewrite Hc, Hr. inversion Hrest as [|b n' ? ? rest' Hr' Hrest']; subst.
    destruct (Z.eqb_spec (len_of (remaining ++ c) - n) 0) as [E|E].
    { rewrite drop_ge in Hr' by (unfold len_of in E; lia). done. }
    cbn [negb]. rewrite (IH m' _ fuel (S i) _ [] (msgs ++ [m]) (depth + 1) None Hrest);
      [|apply Hq; lia|by rewrite app_nil_r|intros; apply Hq; lia|simpl in Hfuel; lia].
    rewrite <- app_assoc. cbn [app]. rewrite Nat2Z.inj_succ.
    replace (depth + Z.succ (Z.of_nat (length ms))) with (depth + 1 + Z.of_nat (length ms)) by lia.
    replace (S (S i) + length ms)%nat with (S i + S (length ms))%nat by lia.
    destruct (Z.ltb_spec READ_WAIT_TIME depth); [|done].
    by rewrite (proj2 (Z.leb_gt _ _)) by lia.
Qed.

Lemma slice_too_small b e a : read_message b = Some (inl (SliceTooSmall e a)) -> a = as_u32 (len_of b).
Proof.
  assert (Hs : forall n, read_serde b n <> Some (inl (SliceTooSmall e a))).
  { intros n. unfold read_serde. destruct (slice _ _ b) as [x|]; [|done]. cbn. by destruct (from_slice x). }
  unfold read_message.
  repeat (case_match; try (intros Hr; by destruct (Hs _ Hr)); try done).
  all: try (by destruct (u32_of _); intros [=]).
  all: try (by destruct (slice _ _ b); intros [=]).
  destruct (slice 22 30 b); cbn; [|done]. destruct (usize_of _); cbn; [|done].
  destruct (usize_of _); cbn; [|done]. by destruct (slice 30 _ b).
Qed.

(** One call: it returns, or goes on with the next one; without new bytes the
    depth grows. *)
Lemma read_step fuel input i remaining msgs depth last :
  (forall a, last = Some a -> a = as_u32 (len_of remaining)) -> 0 <= depth <= READ_WAIT_TIME + 1 ->
  (exists r, read_messages_internal (S fuel) input i remaining msgs depth last = Some r) \/
  depth <= READ_WAIT_TIME /\
  exists remaining' msgs' depth' last',
    read_messages_internal (S fuel) input i remaining msgs depth last
    = read_messages_internal fuel input (S i) remaining' msgs' depth' last'
    /\ (forall a, last' = Some a -> a = as_u32 (len_of remaining'))
    /\ 0 <= depth' <= READ_WAIT_TIME + 1
    /\ (input i = Some [] -> depth' = depth + 1).
Proof.
  intros Hlast Hd. cbn [read_messages_internal].
  destruct (Z.ltb_spec READ_WAIT_TIME depth); [eauto|]. assert (0 <= READ_WAIT_TIME) by done.
  destruct (input i) as [c|]; [|eauto].
  destruct (read_message (remaining ++ c)) as [[e|[n m]]|] eqn:Em; [| |eauto].
  - destruct e; try (left; destruct (remaining ++ c); eauto; fail).
    apply slice_too_small in Em as ->. right. split; [done|].
    destruct last as [last|]; [destruct (Z.ltb_spec last (as_u32 (len_of (remaining ++ c))))|];
      (eexists _, _, _, _; split_and!; [reflexivity|by intros ? [= <-]|lia|lia|]); intros [= ->]; try done.
    rewrite app_nil_r, (Hlast last) in * by done. lia.
  - destruct (negb _); [|eauto]. right. split; [done|].
    eexists _, _, _, _; split_and!; [reflexivity|done|lia|lia|done].
Qed.

Lemma read_quiet_returns fuel input i remaining msgs depth last :
  (forall k, (i <= k)%nat -> input k = Some []) -> 0 <= depth <= READ_WAIT_TIME + 1 ->
  (forall a, last = Some a -> a = as_u32 (len_of remaining)) ->
  READ_WAIT_TIME + 1 - depth < Z.of_nat fuel ->
  exists r, read_messages_internal fuel input i remaining msgs depth last = Some r.
Proof.
  revert i remaining msgs depth last.
  induction fuel as [|fuel IH]; intros i remaining msgs depth last Hq Hd Hlast Hfuel; [lia|].
  destruct (read_step fuel input i remaining msgs depth last Hlast Hd)
    as [Hr|(Hle & r' & m' & d' & l' & -> & Hl' & Hd' & Hgrow)]; [done|].
  rewrite (Hgrow (Hq i ltac:(lia))) in *. apply IH; [intros; apply Hq; lia|done|done|lia].
Qed.

Lemma read_returns n fuel input i remaining msgs depth last :
  (forall k, (i + n <= k)%nat -> input k = Some []) -> 0 <= depth <= READ_WAIT_TIME + 1 ->
  (forall a, last = Some a -> a = as_u32 (len_of remaining)) ->
  Z.of_nat n + READ_WAIT_TIME + 1 < Z.of_nat fuel ->
  exists r, read_messages_internal fuel input i remaining msgs depth last = Some r.
Proof.
  revert fuel i remaining msgs depth last.
  induction n as [|n IH]; intros fuel i remaining msgs depth last Hq Hd Hlast Hfuel.
  { apply read_quiet_returns; [intros; apply Hq; lia|done|done|lia]. }
  assert (0 <= READ_WAIT_TIME) by done. destruct fuel as [|fuel]; [lia|].
  destruct (read_step fuel input i remaining msgs depth last Hlast Hd)
    as [Hr|(Hle & r' & m' & d' & l' & -> & Hl' & Hd' & _)]; [done|].
  apply IH; [intros; apply Hq; lia|done|done|lia].
Qed.

(** * A message that arrives in pieces *)

(** Identification packets are refused while they are incomplete and claim more
    than 10,000 bytes; an incomplete packet's size has to fit a [u32]. *)
Definition waits_for (m : ForwardingProtocolMessage) : Prop :=
  match m with
  | IdentificationMessage _ => len_of (to_vec m) <= 10000
  | ConnectionDataMessage _ payload => len_of payload + 30 <= U32_MAX
  | _ => len_of (to_vec m) + 22 <= U32_MAX
  end.

Lemma message_shape m w :
  sendable m -> waits_for m -> get_message m = Some w ->
  exists t l body, w = header t l ++ body /\ len_of body = l /\ 0 <= t <= 6 /\ l + 22 <= U32_MAX
                   /\ (t = IDENTIFICATION_MESSAGE_TYPE -> l <= 10000).
Proof.
  assert (Hserde : forall t, 0 <= t <= 6 -> len_of (to_vec m) + 22 <= U32_MAX ->
    (t = IDENTIFICATION_MESSAGE_TYPE -> len_of (to_vec m) <= 10000) ->
    make_serde_packet t m = w ->
    exists t l body, w = header t l ++ body /\ len_of body = l /\ 0 <= t <= 6 /\ l + 22 <= U32_MAX
                     /\ (t = IDENTIFICATION_MESSAGE_TYPE -> l <= 10000)).
  { intros t Ht Hl Hi <-. pose proof (len_of_nonneg (to_vec m)). unfold make_serde_packet.
    rewrite as_u32_small by lia. eauto 10. }
  destruct m as [id|ip sp ap|e|id|id payload| |]; unfold sendable, waits_for, get_message; intros Hs Hw Hg;
    try apply (inj Some) in Hg.
  - apply (Hserde 0); try done. unfold U32_MAX in *. lia.
  - done.
  - by apply (Hserde 2).
  - exists 3, 8, (octets 8 id). rewrite len_of_octets. by subst.
  - pose proof (len_of_nonneg payload). rewrite as_u32_small in Hg by (unfold U32_MAX in *; lia).
    unfold u32_of in Hg. rewrite native_exact in Hg by lia. apply (inj Some) in Hg as <-.
    eexists 4, _, _. split_and!; [reflexivity|autorewrite with fwd; lia|done|done|lia|done].
  - by apply (Hserde 5).
  - by apply (Hserde 6).
Qed.

Lemma read_partial m w p q :
  sendable m -> waits_for m -> get_message m = Some w -> w = p ++ q -> q <> [] -> 22 <= len_of p ->
  read_message p = Some (inl (SliceTooSmall (len_of w) (len_of p))) 
  /\ len_of p < len_of w.
Proof.
  intros Hs Hwait Hg Hw Hq Hp.
  destruct (message_shape m w Hs Hwait Hg) as (t & l & body & Hwb & Hl & Ht & Hmax & Hid).
  assert (Hlw : len_of w = l + 22) by (rewrite Hwb; autorewrite with fwd; lia).
  assert (Hlp : len_of p < len_of w).
  { rewrite Hw, len_of_app. apply len_of_pos in Hq. lia. }
  pose proof (len_of_nonneg body). pose proof (len_of_nonneg p).
  destruct (fields_grow p q Hp) as (Em & Et & El). rewrite <- Hw, Hwb in Em, Et, El.
  rewrite magic_of_header in Em. rewrite type_of_header in Et by lia.
  rewrite length_of_header in El by (unfold U32_MAX in Hmax; lia).
  split; [|lia]. unfold read_message.
  rewrite (proj2 (Z.ltb_ge (len_of p) 22)) by lia. rewrite <- Em, <- Et, <- El, Z.eqb_refl. cbn [negb].
  rewrite (proj2 (Z.ltb_ge 6 t)), (proj2 (Z.ltb_lt (len_of p) (l + 22))) by lia.
  destruct ((t =? IDENTIFICATION_MESSAGE_TYPE) && (10000 <? l)) eqn:E.
  { apply andb_true_iff in E as [E1%Z.eqb_eq E2%Z.ltb_lt]. specialize (Hid E1). lia. }
  unfold u32_of. rewrite native_exact by lia. cbn -[Z.add]. rewrite as_u32_small, Hlw by lia. done.
Qed.

(** No spell without bytes is longer than the reader's patience. *)
Fixpoint patient (depth : Z) (pieces : list byte_list) : Prop :=
  match pieces with
  | [] => depth <= READ_WAIT_TIME
  | c :: pieces => depth <= READ_WAIT_TIME /\
                   patient (match c with [] => depth + 1 | _ => 0 end) pieces
  end.

Definition arrives (input : rstream) (i : nat) (pieces : list byte_list) : Prop :=
  forall k c, pieces !! k = Some c -> input (i + k)%nat = Some c.

Lemma arrives_cons input i c pieces :
  arrives input i (c :: pieces) -> input i = Some c /\ arrives input (S i) pieces.
Proof.
  intros Ha. split; [by rewrite <- (Nat.add_0_r i); apply Ha|].
  intros k c' Hk. rewrite Nat.add_succ_comm. by apply Ha.
Qed.
#[global] Arguments arrives_cons {_ _ _ _} _.

Lemma read_pieces_internal `{L : !JsonLaws J} m w last_piece pieces fuel input i p depth :
  sendable m -> waits_for m -> get_message m = Some w -> last_piece <> [] ->
  w = p ++ concat pieces ++ last_piece -> 22 <= len_of p -> arrives input i (pieces ++ [last_piece]) ->
  patient depth pieces -> (length pieces < fuel)%nat ->
  read_messages_internal fuel input i p [] depth (Some (len_of p))
  = Some (Some (inr ([m], (S i + length pieces)%nat))).
Proof.
  intros Hs Hwait Hg Hlast. revert fuel i p depth.
  induction pieces as [|c pieces IH]; intros fuel i p depth Hw Hp Ha Hpat Hfuel;
    (destruct fuel as [|fuel]; [simpl in Hfuel; lia|]); cbn [read_messages_internal].
  - destruct (arrives_cons Ha) as [Hin _]. cbn [app concat patient length] in *. rewrite (proj2 (Z.ltb_ge _ _)), Hin by done.
    destruct (sendable_roundtrip m Hs) as (w' & Hg' & _ & Hr). rewrite Hg in Hg'. injection Hg' as <-.
    specialize (Hr []). rewrite app_nil_r, Hw in Hr. rewrite Hr, Z.sub_diag. cbn. by rewrite Nat.add_0_r.
  - destruct (arrives_cons Ha) as [Hin Ha']. cbn [app concat patient length] in *. destruct Hpat as [Hd Hpat].
    rewrite <- app_assoc, app_assoc in Hw. rewrite (proj2 (Z.ltb_ge _ _)), Hin by done.
    assert (Hq : concat pieces ++ last_piece <> []) by (by intros [_ ?]%app_nil).
    assert (Hp' : 22 <= len_of (p ++ c)) by (rewrite len_of_app; pose proof (len_of_nonneg c); lia).
    destruct (read_partial m w (p ++ c) _ Hs Hwait Hg Hw Hq Hp') as [-> Hlen].
    rewrite Nat.add_succ_r, <- Nat.add_succ_l.
    rewrite len_of_app in Hlen |- * at 1.
    destruct c as [|x c].
    + rewrite app_nil_r in *. rewrite (proj2 (Z.ltb_ge _ _)) by (unfold len_of; simpl; lia).
      by apply IH; [..|lia].
    + rewrite (proj2 (Z.ltb_lt _ _)) by (pose proof (len_of_pos (x :: c) ltac:(done)); lia).
      by apply IH; [..|lia].
Qed.
End reading.

(** * The properties of the codec and the reader *)

(** A codec and a box for the demonstrations.  Messages are written as the bits
    of a number; a box carries the sum of the keys' numbers, a key pair is a
    number and its opposite. *)
Definition message_code : Type :=
  (IpAddr * Z * Z * option string) + (IpAddr * Z * Z) + string + Z + (Z * list Z) + unit + unit.
Definition code_of (m : ForwardingProtocolMessage) : message_code :=
  match m with
  | IdentificationMessage i =>
      inl (inl (inl (inl (inl (inl (mesh_ip i, eth_address i, wg_public_key i, nickname i))))))
  | ForwardMessage ip s a => inl (inl (inl (inl (inl (inr (ip, s, a))))))
  | ErrorMessage e => inl (inl (inl (inl (inr e))))
  | ConnectionCloseMessage i => inl (inl (inl (inr i)))
  | ConnectionDataMessage i p => inl (inl (inr (i, p)))
  | ForwardingCloseMessage => inl (inr tt)
  | KeepAliveMessage => inr tt
  end.
Definition of_code (c : message_code) : ForwardingProtocolMessage :=
  match c with
  | inl (inl (inl (inl (inl (inl (m, e, w, n)))))) =>
      IdentificationMessage {| mesh_ip := m; eth_address := e; wg_public_key := w; nickname := n |}
  | inl (inl (inl (inl (inl (inr (ip, s, a)))))) => ForwardMessage ip s a
  | inl (inl (inl (inl (inr e)))) => ErrorMessage e
  | inl (inl (inl (inr i))) => ConnectionCloseMessage i
  | inl (inl (inr (i, p))) => ConnectionDataMessage i p
  | inl (inr _) => ForwardingCloseMessage
  | inr _ => KeepAliveMessage
  end.
Fixpoint to_bits (p : positive) : list Z :=
  match p with xH => [2] | xO p => 0 :: to_bits p | xI p => 1 :: to_bits p end.
Fixpoint of_bits (l : list Z) : positive :=
  match l with [] => xH | b :: l => if b =? 2 then xH else if b =? 0 then xO (of_bits l) else xI (of_bits l) end.
Lemma of_to_bits p : of_bits (to_bits p) = p.
Proof. induction p; simpl; congruence. Qed.
Lemma of_code_of m : of_code (code_of m) = m.
Proof. by destruct m as [[]| | | | | |]. Qed.

Definition demo_json : Json := {|
  to_vec m := to_bits (countable.encode (code_of m));
  from_slice b := of_code <$> countable.decode (A := message_code) (of_bits b) |}.
Lemma demo_json_laws : JsonLaws demo_json.
Proof. intros m. cbn -[countable.encode countable.decode]. rewrite of_to_bits, decode_encode. cbn -[code_of of_code]. by rewrite of_code_of. Qed.

Definition demo_box : SecretBox := {|
  seal plain nonce pk sk := (pk + sk) :: plain;
  box_open cipher nonce pk sk :=
    match cipher with
    | k :: plain => if k =? - (pk + sk) then Some plain else None
    | [] => None
    end;
  key_pair pk sk := sk = - pk |}.
Lemma demo_box_laws : SecretBoxLaws demo_box.
Proof.
  intros plain nonce pk1 sk1 pk2 sk2 H1 H2. simpl in *. subst.
  by replace (pk1 + - pk2 =? - (pk2 + - pk1)) with true by (symmetry; apply Z.eqb_eq; lia).
Qed.
