(* ===== verification/ForwardingRelay.v ===== *)
(** The properties of the antenna forwarding protocol: what is sent is read, in
    order and without loss, whatever the pieces; when the reader gives up; which
    packets end the session or the thread; and that a client writes to its
    antenna exactly what the streams of the other side sent. *)
From S2P Require Import Prelude Types PeerMessage Forwarding ForwardingSpec.

(** * The codec *)

Lemma encrypted_roundtrip `{J : Json} {L : JsonLaws J} `{B : SecretBox} {LB : SecretBoxLaws B} `{P : Profile}
    ip sp ap nonce server_pk server_sk client_pk client_sk rest :
  let m := ForwardMessage ip sp ap in
  let payload := nonce ++ seal (to_vec m) nonce client_pk server_sk in
  length nonce = NONCEBYTES -> len_of payload <= U32_MAX ->
  key_pair server_pk server_sk -> key_pair client_pk client_sk ->
  exists w, get_encrypted_forward_message nonce server_sk client_pk m = inr w
    /\ read_encrypted_forward_message (w ++ rest) server_pk client_sk = Some (inr (len_of w, m)).
Proof.
  intros m payload Hn Hl Hs Hc. eexists. split; [reflexivity|]. fold m payload.
  pose proof (len_of_nonneg payload) as Hp. pose proof (len_of_nonneg rest). rewrite as_u32_small by done.
  autorewrite with fwd. rewrite <- app_assoc. unfold read_encrypted_forward_message.
  rewrite magic_of_header, type_of_header, length_of_header by (unfold U32_MAX in Hl; done || lia).
  rewrite !Z.eqb_refl. autorewrite with fwd. rewrite !(proj2 (Z.ltb_ge _ _)) by lia. cbn [negb].
  assert (Hnl : len_of nonce = 24) by (unfold len_of; by rewrite Hn).
  set (ct := seal (to_vec m) nonce client_pk server_sk).
  replace (payload ++ rest) with (nonce ++ ct ++ rest) by (unfold payload; by rewrite <- app_assoc).
  rewrite (slice_at 22 (22 + Z.of_nat NONCEBYTES) (header _ _) nonce) by (rewrite len_of_header, ?Hnl; reflexivity).
  cbn -[slice header Z.add to_vec].
  rewrite app_assoc, (slice_at _ _ (header _ _ ++ nonce) ct).
  - cbn -[to_vec Z.add]. unfold ct. rewrite (box_opens _ _ _ _ _ _ Hc Hs), json_roundtrip. done.
  - autorewrite with fwd. by rewrite Hnl.
  - unfold payload. rewrite !len_of_app, len_of_header. unfold ct. lia.
Qed.

(** C25 What is sent is what is read, whatever follows it on the stream: a message
    of any of the six plain kinds that fits its packet comes back with the
    number of bytes it took, and an encrypted forward message comes back for
    the holder of the matching keys. *)
Theorem forwarding_roundtrip `{J : Json} {L : JsonLaws J} `{B : SecretBox} {LB : SecretBoxLaws B} `{P : Profile} :
  (forall m rest, sendable m -> exists w, get_message m = Some w
     /\ read_message (w ++ rest) = Some (inr (len_of w, m)))
  /\ (forall ip sp ap nonce server_pk server_sk client_pk client_sk rest,
     let m := ForwardMessage ip sp ap in
     length nonce = NONCEBYTES -> len_of (nonce ++ seal (to_vec m) nonce client_pk server_sk) <= U32_MAX ->
     key_pair server_pk server_sk -> key_pair client_pk client_sk ->
     exists w, get_encrypted_forward_message nonce server_sk client_pk m = inr w
       /\ read_encrypted_forward_message (w ++ rest) server_pk client_sk = Some (inr (len_of w, m))).
Proof.
  split.
  - intros m rest (w & Hg & _ & Hr)%sendable_roundtrip. eauto.
  - intros. by apply encrypted_roundtrip.
Qed.

Lemma forwarding_roundtrip_witness :
  exists w, get_message (J := demo_json) (P := release_profile) (ConnectionDataMessage 7 [72; 105]) = Some w
    /\ read_message (J := demo_json) (P := release_profile) (w ++ [1; 2; 3])
       = Some (inr (len_of w, ConnectionDataMessage 7 [72; 105])).
Proof.
  apply (proj1 (@forwarding_roundtrip demo_json demo_json_laws demo_box demo_box_laws release_profile)).
  split; [lia|]. unfold len_of, U32_MAX. simpl. lia.
Defined.

(** * The reader *)

(** The reader loses, reorders and invents nothing: whatever pieces the bytes
    of the sent messages arrive in, the messages it returns are the first of
    them, in order; and when it stops at bytes it cannot parse, what it hands
    back are again the first messages and the bytes right behind them. *)
Theorem reader_keeps_order `{J : Json} {L : JsonLaws J} `{P : Profile} sent_messages wire fuel input r out rest :
  Forall sendable sent_messages -> encode_all sent_messages = Some wire ->
  (forall n, received input 0 n `prefix_of` wire) ->
  read_messages fuel input = Some (Some r) -> read_outcome r = Some (out, rest) ->
  exists later n, sent_messages = out ++ later /\ framed (received input 0 n) out rest.
Proof.
  intros Hs Hw Hin Hr Ho. destruct (encode_all_framed _ Hs) as (wire' & Hw' & Hf).
  rewrite Hw in Hw'. injection Hw' as <-.
  destruct (read_messages_internal_sound _ _ _ _ _ _ _ _ Hr _ _ Ho) as (n & new & -> & Hnew).
  destruct (Hin n) as [c ->]. destruct (framed_prefix _ _ _ _ _ Hnew Hf) as (later & -> & _). eauto.
Qed.

(** The reader always comes back: from a stream that goes quiet after [n] calls
    it returns (messages, an error or a panic) after at most 602 more, for it
    waits only while the depth is at most 600 and starts again only on new
    bytes. *)
Theorem read_messages_total `{J : Json} `{P : Profile} n input :
  (forall k, (n <= k)%nat -> input k = Some []) ->
  exists r, read_messages (n + 603) input = Some r.
Proof.
  intros Hq. assert (READ_WAIT_TIME = 600) by done. apply (read_returns n); [done|lia|done|lia].
Qed.
Lemma read_messages_total_witness :
  exists r, read_messages (J := demo_json) (P := release_profile) (2 + 603)
              (fun k => if (k <? 2)%nat then Some [0] else Some []) = Some r.
Proof.
  apply read_messages_total. intros k Hk. by rewrite (proj2 (Nat.ltb_ge k 2) Hk).
Defined.

(** Messages that are all there on the first read are all returned if they are
    at most 601; from 602 on every one of them is lost, for the depth that
    limits how long the reader waits counts the messages of a batch as well. *)
Theorem batch_read `{J : Json} {L : JsonLaws J} `{P : Profile} ms wire fuel input :
  ms <> [] -> Forall sendable ms -> encode_all ms = Some wire -> input O = Some wire ->
  (forall k, (0 < k)%nat -> input k = Some []) -> (length ms < fuel)%nat ->
  read_messages fuel input
  = if (length ms <=? 601)%nat then Some (Some (inr (ms, length ms))) else Some (Some (inl EndNotFoundError)).
Proof.
  intros Hne Hs Hw Hin Hq Hfuel. destruct (encode_all_framed _ Hs) as (wire' & Hw' & Hf).
  rewrite Hw in Hw'. injection Hw' as <-. destruct ms as [|m ms]; [done|]. unfold read_messages.
  rewrite (read_batch_internal ms m wire fuel input 0 [] wire [] 0 None) by done.
  assert (READ_WAIT_TIME = 600) by done. cbn [length app].
  by destruct (Z.leb_spec (0 + Z.of_nat (length ms)) READ_WAIT_TIME), (Nat.leb_spec (S (length ms)) 601); try lia.
Qed.

(** A message cut anywhere behind its header is waited for: if the first piece
    holds the header, no spell without bytes outlasts the reader's patience and
    the last piece completes it, it is returned whole. *)
Theorem read_in_pieces `{J : Json} {L : JsonLaws J} `{P : Profile} m w first pieces last_piece fuel input :
  sendable m -> waits_for m -> get_message m = Some w -> last_piece <> [] ->
  w = first ++ concat pieces ++ last_piece -> 22 <= len_of first ->
  arrives input 0 (first :: pieces ++ [last_piece]) -> patient 1 pieces -> (length pieces + 1 < fuel)%nat ->
  read_messages fuel input = Some (Some (inr ([m], (2 + length pieces)%nat))).
Proof.
  intros Hs Hwait Hg Hl Hw Hf Ha Hp Hfuel. destruct (arrives_cons Ha) as [Hin Ha'].
  destruct fuel as [|fuel]; [lia|]. unfold read_messages. cbn [read_messages_internal]. cbn [app].
  change (READ_WAIT_TIME <? 0) with false. rewrite Hin. cbn match.
  assert (Hq : concat pieces ++ last_piece <> []) by (by intros [_ ?]%app_nil).
  destruct (read_partial m w first _ Hs Hwait Hg Hw Hq Hf) as [-> _].
  rewrite Z.add_0_l. apply (read_pieces_internal m w last_piece); try done. lia.
Qed.

Lemma slice_backwards a b l : b < a -> slice a b l = None.
Proof. intros H. unfold slice. by rewrite (proj2 (Z.leb_gt a b) H), andb_false_r. Qed.

Lemma usize_back_and_forth `{P : Profile} l n e :
  0 <= l < 8 -> usize_of (l - 8) = Some n -> usize_of (30 + n) = Some e -> e = 22 + l.
Proof.
  unfold usize_of, native, in_range, wrap_i, U64_MAX. intros Hl.
  rewrite (proj2 (Z.leb_gt 0 (l - 8))) by lia. cbn [andb]. destruct overflow_checks; [done|].
  intros [= <-]. rewrite (Z.mod_eq (l - 8 - 0)) by lia.
  replace ((l - 8 - 0) / (18446744073709551615 - 0 + 1)) with (-1)
    by (apply (Z.div_unique _ _ _ (l - 8 + 18446744073709551616)); lia).
  destruct (_ && _) eqn:E; [apply andb_true_iff in E as [_ E%Z.leb_le]; lia|].
  intros [= <-]. rewrite Z.mod_eq by lia.
  rewrite <- (Z.div_unique _ (18446744073709551615 - 0 + 1) 1 (22 + l)) by lia. lia.
Qed.

Lemma short_data_slice `{J : Json} `{P : Profile} l p :
  0 <= l < 8 ->
  (connection_id ← slice 22 30 p; payload_bytes ← usize_of (l - 8); end_ ← usize_of (30 + payload_bytes);
   message_value ← slice 30 end_ p;
   Some (inr (A := ForwardingProtocolError) (end_, ConnectionDataMessage (be_value connection_id) message_value)))
  = None.
Proof.
  intros Hl. destruct (slice 22 30 p); [|done]. cbn -[slice Z.add].
  destruct (usize_of (l - 8)) as [n|] eqn:En; [|done]. cbn -[slice Z.add].
  destruct (usize_of (30 + n)) as [e|] eqn:Ee; [|done]. cbn -[slice Z.add].
  rewrite (usize_back_and_forth l n e Hl En Ee). by rewrite slice_backwards by lia.
Qed.

(** Two ways a peer ends the session with a few bytes.  A data packet whose
    length field is below 8 makes the reader panic, in every build, although
    its length is checked against the bytes there are; so does an encrypted
    packet with a length below 24.  And when a read catches the first one to
    twenty-one bytes of a message, the session is closed at once, although the
    rest is on its way. *)
Theorem malformed_packets `{J : Json} `{B : SecretBox} `{P : Profile} :
  (forall l body, 0 <= l < 8 -> l <= len_of body ->
     read_message (header CONNECTION_DATA_MESSAGE_TYPE l ++ body) = None)
  /\ (forall l body pk sk, 0 <= l < 24 -> l <= len_of body ->
     read_encrypted_forward_message (header FORWARD_MESSAGE_TYPE l ++ body) pk sk = None)
  /\ (forall fuel input v rounds s c, input (se_calls s) = Some c -> 0 < len_of c < 22 ->
     forward_rounds (S fuel) input (v :: rounds) s = Some (s, ReadFailed (UnparsedBytesError [] c))).
Proof.
  split_and!.
  - intros l body Hl Hb. rewrite <- (take_drop (Z.to_nat l) body).
    rewrite read_message_framed; [|done|lia|unfold len_of in *; rewrite length_take; lia].
    cbn -[slice header take drop]. rewrite take_drop. apply short_data_slice. lia.
  - intros l body pk sk Hl Hb. unfold read_encrypted_forward_message. pose proof (len_of_nonneg body).
    rewrite magic_of_header, type_of_header, length_of_header, !Z.eqb_refl by done || lia.
    autorewrite with fwd. rewrite !(proj2 (Z.ltb_ge _ _)) by lia. cbn [negb].
    change (Z.of_nat NONCEBYTES) with 24. destruct (slice 22 _ _); [|done]. cbn -[slice header Z.add]. by rewrite slice_backwards by lia.
  - intros fuel input v rounds s c Hc Hlen. cbn [forward_rounds read_messages_internal].
    change (READ_WAIT_TIME <? 0) with false. rewrite Hc. cbn [app]. unfold read_message.
    rewrite (proj2 (Z.ltb_lt _ 22)) by lia. destruct c; [unfold len_of in Hlen; simpl in Hlen; lia|done].
Qed.

(** * Writing *)

Lemma write_loop_prefix start attempts buffer out r :
  buffer <> [] -> write_loop start attempts buffer = Some (out, r) ->
  (r = inr tt /\ out = buffer) \/ (exists e rest, r = inl e /\ buffer = out ++ rest /\ rest <> []).
Proof.
  revert buffer out r. induction attempts as [|[now a] attempts IH]; intros buffer out r Hb Hw; [done|].
  cbn [write_loop] in Hw. destruct (_ <? _); [simplify_eq; right; by eexists _, _|].
  destruct a as [n| |]; [|by apply IH in Hw|simplify_eq; right; by eexists _, _].
  destruct (Nat.eqb_spec (length buffer) (n `min` length buffer)) as [<-|Hn].
  { simplify_eq. left. by rewrite take_ge. }
  destruct (Nat.eqb_spec (n `min` length buffer) 0); [simplify_eq; right; by eexists _, _|].
  set (k := (n `min` length buffer)%nat) in *.
  destruct (write_loop start attempts (drop k buffer)) as [[more r']|] eqn:E; [|done]. simplify_eq.
  assert (Hd : drop k buffer <> []).
  { intros H%(f_equal length). rewrite length_drop in H. simpl in H. lia. }
  destruct (IH _ _ _ Hd E) as [[-> ->]|(e & rest & -> & Hr & Hne)].
  - left. by rewrite take_drop.
  - right. exists e, rest. by rewrite <- app_assoc, <- Hr, take_drop.
Qed.

(** The deadline: an attempt after it ends the loop. *)
Lemma write_loop_ends start attempts buffer :
  Exists (fun a => SPINLOCK_TIMEOUT < instant_sub a.1 start) attempts ->
  is_Some (write_loop start attempts buffer).
Proof.
  intros Hex. revert buffer. induction Hex as [[now a] attempts Hnow|[now a] attempts _ IH]; intros buffer;
    cbn [write_loop].
  - simpl in Hnow. rewrite (proj2 (Z.ltb_lt _ _) Hnow). eauto.
  - destruct (_ <? _); [eauto|]. destruct a as [n| |]; [|apply IH|eauto].
    destruct (Nat.eqb _ _); [eauto|]. destruct (Nat.eqb _ _); [eauto|].
    destruct (IH (drop (n `min` length buffer) buffer)) as [[more r] ->]. eauto.
Qed.

(** [write_all_spinlock] of a buffer that is not empty returns at the latest
    with the first attempt that comes more than ten minutes after the start;
    success means that every byte was written, in order, an error that a proper
    prefix of them was. *)
Theorem write_all_complete start attempts buffer :
  buffer <> [] -> Exists (fun a => SPINLOCK_TIMEOUT < instant_sub a.1 start) attempts ->
  exists out r, write_all_spinlock start attempts buffer = Some (Some (out, r)) /\
    match r with
    | inr _ => out = buffer
    | inl _ => exists rest, buffer = out ++ rest /\ rest <> []
    end.
Proof.
  intros Hb Hex. destruct (write_loop_ends start attempts buffer Hex) as [[out r] Hw]. exists out, r.
  unfold write_all_spinlock. destruct buffer as [|b buffer]; [done|]. rewrite Hw. split; [done|].
  destruct (write_loop_prefix _ _ _ _ _ Hb Hw) as [[-> ->]|(e & rest & -> & Hr)]; eauto.
Qed.
Lemma write_all_complete_witness :
  exists out r, write_all_spinlock 0 [(1, Wrote 2); (2, WouldBlock); (secs 601, Wrote 1)] [5; 6; 7]
    = Some (Some (out, r)) /\
    match r with inr _ => out = [5; 6; 7] | inl _ => exists rest, [5; 6; 7] = out ++ rest /\ rest <> [] end.
Proof.
  apply write_all_complete; [done|]. apply Exists_cons_tl, Exists_cons_tl, Exists_cons_hd.
  cbv. reflexivity.
Defined.

(** * From the streams of one side to the antenna of the other *)

(** The bytes messages carry for a stream, and those written for it. *)
Definition carried (stream_id : Z) (m : ForwardingProtocolMessage) : byte_list :=
  match m with
  | ConnectionDataMessage i payload => if i =? stream_id then payload else []
  | _ => []
  end.
Definition written_for (stream_id : Z) (st : client_state) : byte_list :=
  written st ≫= (fun w => if w.1 =? stream_id then w.2 else []).

(** A socket that takes at least [n] bytes, in as many attempts as it likes,
    before the deadline. *)
Definition attempt_ok (start : Z) (a : Z * write_attempt) : Prop :=
  instant_sub a.1 start <= SPINLOCK_TIMEOUT
  /\ match a.2 with Wrote n => (0 < n)%nat | WouldBlock => True | WriteFailed => False end.
Definition taken (a : Z * write_attempt) : nat := match a.2 with Wrote n => n | _ => O end.
Definition takes (n : nat) (start : Z) (attempts : list (Z * write_attempt)) : Prop :=
  Forall (attempt_ok start) attempts /\ (n <= sum_list (taken <$> attempts))%nat.

Lemma write_loop_all start attempts buffer :
  takes (length buffer) start attempts -> buffer <> [] -> write_loop start attempts buffer = Some (buffer, inr tt).
Proof.
  intros [Hok Hn] Hb. revert buffer Hn Hb.
  induction Hok as [|[now a] attempts [Hnow Ha] _ IH]; intros buffer Hn Hb; [destruct buffer; [done|simpl in Hn; lia]|].
  cbn [write_loop fmap list_fmap sum_list taken fst snd] in *. rewrite (proj2 (Z.ltb_ge _ _)) by done.
  destruct a as [n| |]; [|by apply IH|done].
  destruct (Nat.eqb_spec (length buffer) (n `min` length buffer)) as [<-|Hne]; [by rewrite firstn_all|].
  assert (0 < length buffer)%nat by (destruct buffer; [done|simpl; lia]).
  destruct (Nat.eqb_spec (n `min` length buffer) 0) as [|_]; [lia|].
  rewrite IH; [by rewrite take_drop|rewrite length_drop; change (id (taken (now, Wrote n))) with n in Hn; lia|].
  intros Hd%(f_equal length). rewrite length_drop in Hd. simpl in Hd. lia.
Qed.

(** The sockets of a client that works, and messages that keep it going. *)
Definition antenna_works (n : nat) (view : nat -> message_view) : Prop :=
  forall i, mv_connects (view i) = true /\ takes n (mv_write_start (view i)) (mv_attempts (view i)).
Definition keeps_going (n : nat) (m : ForwardingProtocolMessage) : Prop :=
  match m with
  | ConnectionDataMessage _ payload => payload <> [] /\ (length payload <= n)%nat
  | ForwardingCloseMessage => False
  | _ => True
  end.

Lemma write_antenna_all n v payload :
  takes n (mv_write_start v) (mv_attempts v) -> (length payload <= n)%nat -> payload <> [] ->
  write_antenna v payload = Some (payload, true).
Proof.
  intros [Ho Hn] Hl Hp. unfold write_antenna, write_all_spinlock.
  assert (takes (length payload) (mv_write_start v) (mv_attempts v)) by (split; [done|lia]).
  rewrite write_loop_all by done. by destruct payload.
Qed.

Lemma process_message_writes n v m st :
  mv_connects v = true -> takes n (mv_write_start v) (mv_attempts v) -> keeps_going n m ->
  exists st', process_message v m st = Some (st', false)
    /\ forall id, written_for id st' = written_for id st ++ carried id m.
Proof.
  intros Hc Hw Hk. destruct m as [i|ip s a|e|i|i payload| |]; simpl in *;
    try (eexists; split; [reflexivity|]; intros id; by rewrite app_nil_r).
  - rewrite Hc, (write_antenna_all n v payload Hw) by apply Hk.
    destruct (cl_streams st !! i); eexists; (split; [reflexivity|]); intros id; unfold written_for; cbn [written];
      rewrite bind_app; cbn; by rewrite app_nil_r.
  - done.
Qed.

Lemma process_messages_writes n view ms i st :
  antenna_works n view -> Forall (keeps_going n) ms ->
  exists st', process_messages view i ms st = Some (st', false)
    /\ forall id, written_for id st' = written_for id st ++ (ms ≫= carried id).
Proof.
  intros Hv Hk. revert i st. induction Hk as [|m ms Hm _ IH]; intros i st; cbn [process_messages].
  { exists st. split; [done|]. intros id. by rewrite app_nil_r. }
  destruct (Hv i) as [Hc Hw]. destruct (process_message_writes n _ m st Hc Hw Hm) as (st1 & -> & H1).
  destruct (IH (S i) st1) as (st2 & -> & H2). exists st2. split; [done|]. intros id.
  by rewrite H2, H1, <- app_assoc, bind_cons.
Qed.

(** One pass over the streams: what it sends for a stream is what it read. *)
Lemma process_stream_carries v i s id :
  ((process_stream v i s).1.1 ≫= carried id) = if i =? id then default [] (sv_read v) else [].
Proof.
  unfold process_stream. destruct (sv_read v) as [[|b bytes]|]; cbn;
    destruct (_ && _); cbn; rewrite ?app_nil_r; by destruct (i =? id).
Qed.

Lemma bind_carried_one id (view : Z -> stream_view) (l : list (Z * ExternalStream)) :
  NoDup l.*1 ->
  (l ≫= (fun r => (process_stream (view r.1) r.1 r.2).1.1 ≫= carried id))
  = if bool_decide (id ∈ l.*1) then default [] (sv_read (view id)) else [].
Proof.
  induction l as [|[i s] l IH]; [done|]. rewrite fmap_cons, NoDup_cons. intros [Hi Hl].
  rewrite bind_cons, IH by done. cbn [fst snd]. rewrite process_stream_carries.
  destruct (Z.eqb_spec i id) as [->|Hne].
  - rewrite (bool_decide_eq_false_2 _ Hi), bool_decide_eq_true_2, app_nil_r by set_solver. done.
  - rewrite app_nil_l. erewrite bool_decide_ext; [done|]. cbn [fst]. set_solver.
Qed.

(** The messages of a pass can be sent and keep the other side going. *)
Lemma process_stream_sendable `{J : Json} n v i s :
  0 <= i < 2 ^ 64 -> Z.of_nat n + 8 <= U32_MAX -> (forall b, sv_read v = Some b -> (length b <= n)%nat) ->
  Forall (fun m => sendable m /\ keeps_going n m) (process_stream v i s).1.1
  /\ (length (process_stream v i s).1.1 <= 2)%nat.
Proof.
  intros Hi Hn Hb. unfold process_stream. destruct (sv_read v) as [[|b bytes]|] eqn:E;
    [|assert (len_of (b :: bytes) + 8 <= U32_MAX) by (pose proof (Hb _ eq_refl); unfold len_of; lia);
      pose proof (Hb _ eq_refl)|]; cbn -[sendable]; destruct (_ && _); cbn -[sendable];
    (split; [repeat constructor; cbn -[Z.pow len_of length]; try done; try lia|lia]).
Qed.

Lemma process_streams_sent view streams :
  (process_streams view streams).1
  = map_to_list streams ≫= (fun r => (process_stream (view r.1) r.1 r.2).1.1).
Proof.
  unfold process_streams. cbn [fst]. induction (map_to_list streams) as [|[i s] l IH]; [done|].
  rewrite fmap_cons, !bind_cons. by rewrite IH.
Qed.

Lemma process_streams_sendable `{J : Json} n view streams :
  (forall i s, streams !! i = Some s -> 0 <= i < 2 ^ 64) -> Z.of_nat n + 8 <= U32_MAX ->
  (forall i b, sv_read (view i) = Some b -> (length b <= n)%nat) ->
  let out := (process_streams view streams).1 in
  Forall sendable out /\ Forall (keeps_going n) out /\ (length out <= 2 * size streams)%nat.
Proof.
  intros Hi Hn Hb. cbv zeta. rewrite process_streams_sent, <- length_map_to_list.
  enough (Hout : forall l, Forall (fun r => 0 <= r.1 < 2 ^ 64) l ->
    let out := l ≫= (fun r => (process_stream (view r.1) r.1 r.2).1.1) in
    Forall (fun m => sendable m /\ keeps_going n m) out /\ (length out <= 2 * length l)%nat).
  { destruct (Hout (map_to_list streams)) as [[? ?]%Forall_and ?]; [|done].
    apply Forall_forall. intros [i s] Hin%elem_of_map_to_list. cbn. eauto. }
  intros l Hl. cbv zeta.
  induction Hl as [|[i s] l Hr _ [IHf IHl]]; [done|]. rewrite bind_cons, length_app, Forall_app.
  destruct (process_stream_sendable n (view i) i s Hr Hn (Hb i)). cbn [fst snd length] in *.
  split; [done|lia].
Qed.

Lemma process_streams_carries view streams id :
  ((process_streams view streams).1 ≫= carried id)
  = match streams !! id with Some _ => default [] (sv_read (view id)) | None => [] end.
Proof.
  rewrite process_streams_sent.
  assert (Hassoc : forall l : list (Z * ExternalStream),
    ((l ≫= (fun r => (process_stream (view r.1) r.1 r.2).1.1)) ≫= carried id)
    = l ≫= (fun r => (process_stream (view r.1) r.1 r.2).1.1 ≫= carried id)).
  { induction l as [|r l IH]; [done|]. by rewrite !bind_cons, bind_app, IH. }
  rewrite Hassoc, bind_carried_one by apply NoDup_fst_map_to_list.
  destruct (streams !! id) as [s|] eqn:E.
  - rewrite bool_decide_eq_true_2; [done|]. apply list_elem_of_fmap. exists (id, s).
    by rewrite elem_of_map_to_list.
  - rewrite bool_decide_eq_false_2; [done|]. intros ([i s] & -> & Hin%elem_of_map_to_list)%list_elem_of_fmap.
    cbn in E. congruence.
Qed.

Lemma read_nothing `{J : Json} `{P : Profile} fuel input :
  input O = Some [] -> read_messages (S fuel) input = Some (Some (inr ([], 1%nat))).
Proof. intros H. unfold read_messages. cbn [read_messages_internal]. by rewrite H. Qed.

(** C26 From end to end, for a pass over at most 300 streams with reads of at most
    [n] bytes, whose messages have all arrived when the other side reads: the
    messages written to the wire, read by the other side and processed by a client
    that can connect to its antenna and whose sockets take [n] bytes, in whatever
    pieces, before the write deadline, lead to writes of exactly the bytes that
    were read from each stream, behind what was written before, and for no other
    stream anything. *)
Theorem relay_delivers `{J : Json} {L : JsonLaws J} `{P : Profile} n view streams wire input mview st :
  (forall i s, streams !! i = Some s -> 0 <= i < 2 ^ 64) -> Z.of_nat n + 8 <= U32_MAX ->
  (forall i b, sv_read (view i) = Some b -> (length b <= n)%nat) ->
  (size streams <= 300)%nat -> antenna_works n mview ->
  encode_all (process_streams view streams).1 = Some wire ->
  input O = Some wire -> (forall k, (0 < k)%nat -> input k = Some []) ->
  exists ms calls st',
    read_messages 602 input = Some (Some (inr (ms, calls)))
    /\ process_messages mview 0 ms st = Some (st', false)
    /\ forall id, written_for id st'
         = written_for id st ++ match streams !! id with
                                | Some _ => default [] (sv_read (view id))
                                | None => []
                                end.
Proof.
  intros Hi Hn Hb Hsize Hv Hw Hin Hq.
  destruct (process_streams_sendable n view streams Hi Hn Hb) as (Hs & Hk & Hl).
  destruct (process_messages_writes n mview _ 0 st Hv Hk) as (st' & Hp & Hwr).
  assert (Hread : exists calls, read_messages 602 input = Some (Some (inr ((process_streams view streams).1, calls)))).
  { destruct (process_streams view streams).1 as [|m ms] eqn:E.
    - injection Hw as <-. rewrite read_nothing by done. eauto.
    - destruct (encode_all_framed _ Hs) as (wire' & Hw' & Hf). rewrite Hw in Hw'. injection Hw' as <-.
      unfold read_messages. rewrite (read_batch_internal ms m wire 602 input 0 [] wire [] 0 None);
        [|done|done|done|done|simpl in Hl; lia].
      rewrite (proj2 (Z.leb_le _ READ_WAIT_TIME)); [eauto|]. unfold READ_WAIT_TIME. simpl in Hl. lia. }
  destruct Hread as [calls Hr]. exists (process_streams view streams).1, calls, st'.
  split_and!; [done|done|]. intros id. by rewrite Hwr, process_streams_carries.
Qed.

(** * Demonstrations *)

#[local] Existing Instances demo_json demo_json_laws release_profile.

(** A stream that delivers some bytes at once and then nothing. *)
Definition once (b : byte_list) : rstream := fun k => if (k =? 0)%nat then Some b else Some [].
Lemma once_quiet b k : (0 < k)%nat -> once b k = Some [].
Proof. intros Hk. unfold once. by destruct (Nat.eqb_spec k 0); [lia|]. Qed.
Lemma received_quiet input n i : (forall k, (i <= k)%nat -> input k = Some []) -> received input i n = [].
Proof.
  revert i. induction n as [|n IH]; intros i Hq; [done|]. cbn [received]. rewrite Hq by lia.
  apply IH. intros. apply Hq. lia.
Qed.
Lemma received_once b n : received (once b) 0 n `prefix_of` b.
Proof.
  destruct n as [|n]; [apply prefix_nil|]. cbn [received once Nat.eqb default].
  rewrite received_quiet, app_nil_r; [done|]. intros. by apply once_quiet.
Qed.

Definition demo_messages : list ForwardingProtocolMessage :=
  [ConnectionDataMessage 7 [72; 105]; ConnectionCloseMessage 7].
Definition demo_wire : byte_list := default [] (encode_all demo_messages).
Lemma demo_wire_eq : encode_all demo_messages = Some demo_wire.
Proof. vm_compute. reflexivity. Qed.
Lemma demo_sendable : Forall sendable demo_messages.
Proof. repeat constructor; vm_compute; done. Qed.
Lemma demo_read : read_messages 10 (once demo_wire) = Some (Some (inr (demo_messages, 2%nat))).
Proof. vm_compute. reflexivity. Qed.

Lemma reader_keeps_order_witness :
  exists later n, demo_messages = demo_messages ++ later
    /\ framed (received (once demo_wire) 0 n) demo_messages [].
Proof.
  apply (reader_keeps_order demo_messages demo_wire 10 (once demo_wire) (inr (demo_messages, 2%nat)));
    [exact demo_sendable|exact demo_wire_eq|apply received_once|exact demo_read|reflexivity].
Defined.

Lemma batch_read_witness : read_messages 10 (once demo_wire) = Some (Some (inr (demo_messages, 2%nat))).
Proof.
  apply (batch_read demo_messages demo_wire 10 (once demo_wire));
    [done|exact demo_sendable|exact demo_wire_eq|done|apply once_quiet|simpl; lia].
Defined.

(** A data message in three pieces with a pause before the last. *)
Definition demo_pieces (k : nat) : option byte_list :=
  [take 25 demo_wire; take 3 (drop 25 demo_wire); []; take 4 (drop 28 demo_wire)] !! k.
Lemma demo_piece : get_message (ConnectionDataMessage 7 [72; 105]) = Some (take 32 demo_wire).
Proof. vm_compute. reflexivity. Qed.
Lemma demo_split :
  take 32 demo_wire = take 25 demo_wire ++ concat [take 3 (drop 25 demo_wire); []] ++ take 4 (drop 28 demo_wire).
Proof. vm_compute. reflexivity. Qed.

Lemma read_in_pieces_witness :
  read_messages 10 demo_pieces = Some (Some (inr ([ConnectionDataMessage 7 [72; 105]], 4%nat))).
Proof.
  apply (read_in_pieces _ (take 32 demo_wire) (take 25 demo_wire) [take 3 (drop 25 demo_wire); []] (take 4 (drop 28 demo_wire)) 10
           demo_pieces); [|vm_compute; done|exact demo_piece|vm_compute; done|exact demo_split
                          |vm_compute; done| |vm_compute; done|simpl; lia].
  - vm_compute. done.
  - intros k c Hk. exact Hk.
Defined.

Lemma malformed_packets_witness :
  read_message (header CONNECTION_DATA_MESSAGE_TYPE 3 ++ [1; 2; 3]) = None.
Proof. apply (proj1 (malformed_packets (B := demo_box))); [lia|vm_compute; done]. Defined.

Definition demo_streams : gmap Z ExternalStream := {[ 7 := {| last_message := 0 |}; 9 := {| last_message := 0 |} ]}.
Definition demo_view (id : Z) : stream_view := {|
  sv_read := if id =? 7 then Some [72; 105] else None; sv_now_read := 5; sv_now_later := 6; sv_now_since := 7 |}.
Definition demo_client : client_state := {| cl_streams := ∅; cl_last_message := 0; written := [(7, [1])] |}.
(** A socket that takes one byte, is full once, and takes the rest. *)
Definition demo_mview (_ : nat) : message_view := {|
  mv_connects := true; mv_write_start := 5; mv_attempts := [(5, Wrote 1); (6, WouldBlock); (7, Wrote 9)]; mv_now := 8 |}.
Definition demo_out : byte_list := default [] (encode_all (process_streams demo_view demo_streams).1).
Lemma demo_out_eq : encode_all (process_streams demo_view demo_streams).1 = Some demo_out.
Proof. vm_compute. reflexivity. Qed.

Lemma relay_delivers_witness :
  exists ms n st',
    read_messages 602 (once demo_out) = Some (Some (inr (ms, n)))
    /\ process_messages demo_mview 0 ms demo_client = Some (st', false)
    /\ forall id, written_for id st'
         = written_for id demo_client ++ match demo_streams !! id with
                                         | Some _ => default [] (sv_read (demo_view id))
                                         | None => []
                                         end.
Proof.
  apply (relay_delivers 2 demo_view demo_streams demo_out (once demo_out) demo_mview demo_client);
    [|vm_compute; congruence| |vm_compute; lia| |exact demo_out_eq|done|apply once_quiet].
  - intros i s Hi. unfold demo_streams in Hi.
    apply lookup_insert_Some in Hi as [[<- _]|[_ [<- _]%lookup_singleton_Some]]; lia.
  - intros i b. simpl. destruct (i =? 7); [|done]. intros [= <-]. simpl. lia.
  - intros i. split; [done|]. split; [|simpl; lia]. repeat constructor; simpl; try lia; vm_compute; congruence.
Defined.
