(* ===== verification/Regions.v ===== *)
(** The regions of exits (althea_types/src/regions.rs) and the check of a client's
    country against them (rita_exit/src/database/geoip.rs).  Reading a region
    back from its number or its name, and which regions cannot be read back. *)
From S2P Require Import Prelude Types Text.

Module Regions.

(** * The enum and its conversions *)

Inductive Regions :=
| UnitedStates | Canada | Mexico | Argentina | Bolivia | Brazil | Chile | Colombia | Ecuador | Guyana
| Paraguay | Peru | Suriname | Uruguay | Venezuela | Albania | Andorra | Armenia | Austria | Azerbaijan
| Belarus | Belgium | BosniaAndHerzegovina | Bulgaria | Croatia | Cyprus | CzechRepublic | Denmark | Estonia
| Finland | France | Georgia | Germany | Greece | Hungary | Iceland | Ireland | Italy | Kazakhstan | Kosovo
| Latvia | Liechtenstein | Lithuania | Luxembourg | Malta | Moldova | Monaco | Montenegro | Netherlands
| NorthMacedonia | Norway | Poland | Portugal | Romania | Russia | SanMarino | Serbia | Slovakia | Slovenia
| Spain | Sweden | Switzerland | Turkey | Ukraine | UnitedKingdom | VaticanCity | UnkownRegion | Algeria
| Angola | Benin | Botswana | BurkinaFaso | Burundi | CaboVerde | Cameroon | CentralAfricanRepublic | Chad
| Comoros | Congo | DemocraticRepublicOfTheCongo | Djibouti | Egypt | EquatorialGuinea | Eritrea | Eswatini
| Ethiopia | Gabon | Gambia | Ghana | Guinea | GuineaBissau | IvoryCoast | Kenya | Lesotho | Liberia | Libya
| Madagascar | Malawi | Mali | Mauritania | Mauritius | Morocco | Mozambique | Namibia | Niger | Nigeria
| Rwanda | SaoTomeAndPrincipe | Senegal | Seychelles | SierraLeone | Somalia | SouthAfrica | SouthSudan | Sudan
| Tanzania | Togo | Tunisia | Uganda | Zambia | Zimbabwe | Afghanistan | Bahrain | Bangladesh | Bhutan | Brunei
| Cambodia | China | EastTimor | India | Indonesia | Iran | Iraq | Israel | Japan | Jordan | Kuwait
| Kyrgyzstan | Laos | Lebanon | Malaysia | Maldives | Mongolia | Myanmar | Nepal | NorthKorea | Oman | Pakistan
| Palestine | Philippines | Qatar | SaudiArabia | Singapore | SouthKorea | SriLanka | Syria | Taiwan
| Tajikistan | Thailand | Turkmenistan | UnitedArabEmirates | Uzbekistan | Vietnam | Yemen | Australia
| NewZealand | AntiguaAndBarbuda | Bahamas | Barbados | Belize | Cuba | Dominica | DominicanRepublic | Grenada
| Haiti | Jamaica | SaintKittsAndNevis | SaintLucia | SaintVincentAndTheGrenadines | TrinidadAndTobago.
(** [impl From<Regions> for u8]. *)
Definition u8_of_region (value : Regions) : Z :=
  match value with
  | UnitedStates => 1 | Canada => 2 | Ghana => 3 | Mexico => 4 | Nigeria => 5 | Colombia => 6 | Senegal => 7
  | Seychelles => 8 | SierraLeone => 9 | Somalia => 10 | SouthAfrica => 11 | SouthSudan => 12 | Sudan => 13
  | Tanzania => 14 | Togo => 15 | Tunisia => 16 | Uganda => 17 | Zambia => 18 | Zimbabwe => 19
  | Afghanistan => 20 | Bahrain => 21 | Bangladesh => 22 | Bhutan => 23 | Brunei => 24 | Cambodia => 25
  | China => 26 | EastTimor => 27 | India => 28 | Indonesia => 29 | Iran => 30 | Iraq => 31 | Israel => 32
  | Japan => 33 | Jordan => 34 | Kuwait => 35 | Kyrgyzstan => 36 | Laos => 37 | Lebanon => 38 | Malaysia => 39
  | Maldives => 40 | Mongolia => 41 | Myanmar => 42 | Nepal => 43 | NorthKorea => 44 | Oman => 45
  | Pakistan => 46 | Palestine => 47 | Philippines => 48 | Qatar => 49 | SaudiArabia => 50 | Singapore => 51
  | SouthKorea => 52 | SriLanka => 53 | Syria => 54 | Taiwan => 55 | Tajikistan => 56 | Thailand => 57
  | Turkmenistan => 58 | UnitedArabEmirates => 59 | Uzbekistan => 60 | Vietnam => 61 | Yemen => 62
  | Australia => 63 | NewZealand => 64 | AntiguaAndBarbuda => 65 | Bahamas => 66 | Barbados => 67
  | Belize => 68 | Cuba => 69 | Dominica => 70 | DominicanRepublic => 71 | Grenada => 72 | Haiti => 73
  | Jamaica => 74 | SaintKittsAndNevis => 75 | SaintLucia => 76 | SaintVincentAndTheGrenadines => 77
  | TrinidadAndTobago => 78 | UnkownRegion => 0 | Argentina => 79 | Bolivia => 80 | Brazil => 81 | Chile => 82
  | Ecuador => 83 | Guyana => 84 | Paraguay => 85 | Peru => 86 | Suriname => 87 | Uruguay => 88
  | Venezuela => 89 | Albania => 90 | Andorra => 91 | Armenia => 92 | Austria => 93 | Azerbaijan => 94
  | Belarus => 95 | Belgium => 96 | BosniaAndHerzegovina => 97 | Bulgaria => 98 | Croatia => 99 | Cyprus => 100
  | CzechRepublic => 101 | Denmark => 102 | Estonia => 103 | Finland => 104 | France => 105 | Georgia => 106
  | Germany => 107 | Greece => 108 | Hungary => 109 | Iceland => 110 | Ireland => 111 | Italy => 112
  | Kazakhstan => 113 | Kosovo => 114 | Latvia => 115 | Liechtenstein => 116 | Lithuania => 117
  | Luxembourg => 118 | Malta => 119 | Moldova => 120 | Monaco => 121 | Montenegro => 122 | Netherlands => 123
  | NorthMacedonia => 124 | Norway => 125 | Poland => 126 | Portugal => 127 | Romania => 128 | Russia => 129
  | SanMarino => 130 | Serbia => 131 | Slovakia => 132 | Slovenia => 133 | Spain => 134 | Sweden => 135
  | Switzerland => 136 | Turkey => 137 | Ukraine => 138 | UnitedKingdom => 139 | VaticanCity => 140
  | Algeria => 141 | Angola => 142 | Benin => 143 | Botswana => 144 | BurkinaFaso => 145 | Burundi => 146
  | CaboVerde => 147 | Cameroon => 148 | CentralAfricanRepublic => 149 | Chad => 150 | Comoros => 151
  | Congo => 152 | DemocraticRepublicOfTheCongo => 153 | Djibouti => 154 | Egypt => 155
  | EquatorialGuinea => 156 | Eritrea => 157 | Eswatini => 158 | Ethiopia => 159 | Gabon => 160 | Gambia => 161
  | Guinea => 162 | GuineaBissau => 163 | IvoryCoast => 164 | Kenya => 165 | Lesotho => 166 | Liberia => 167
  | Libya => 168 | Madagascar => 169 | Malawi => 170 | Mali => 171 | Mauritania => 172 | Mauritius => 173
  | Morocco => 174 | Mozambique => 175 | Namibia => 176 | Niger => 177 | Rwanda => 178
  | SaoTomeAndPrincipe => 179
  end.

(** [impl From<u8> for Regions], the arms in order. *)
Definition region_numbers : list (Z * Regions) :=
  [(1, UnitedStates); (2, Canada); (3, Ghana); (4, Mexico); (5, Nigeria); (6, Colombia); (7, Senegal);
   (8, Seychelles); (9, SierraLeone); (10, Somalia); (11, SouthAfrica); (12, SouthSudan); (13, Sudan);
   (14, Tanzania); (15, Togo); (16, Tunisia); (17, Uganda); (18, Zambia); (19, Zimbabwe); (20, Afghanistan);
   (21, Bahrain); (22, Bangladesh); (23, Bhutan); (24, Brunei); (25, Cambodia); (26, China); (27, EastTimor);
   (28, India); (29, Indonesia); (30, Iran); (31, Iraq); (32, Israel); (33, Japan); (34, Jordan); (35, Kuwait);
   (36, Kyrgyzstan); (37, Laos); (38, Lebanon); (39, Malaysia); (40, Maldives); (41, Mongolia); (42, Myanmar);
   (43, Nepal); (44, NorthKorea); (45, Oman); (46, Pakistan); (47, Palestine); (48, Philippines); (49, Qatar);
   (50, SaudiArabia); (51, Singapore); (52, SouthKorea); (53, SriLanka); (54, Syria); (55, Taiwan);
   (56, Tajikistan); (57, Thailand); (58, Turkmenistan); (59, UnitedArabEmirates); (60, Uzbekistan);
   (61, Vietnam); (62, Yemen); (63, Australia); (64, NewZealand); (65, AntiguaAndBarbuda); (66, Bahamas);
   (67, Barbados); (68, Belize); (69, Cuba); (70, Dominica); (71, DominicanRepublic); (72, Grenada);
   (73, Haiti); (74, Jamaica); (75, SaintKittsAndNevis); (76, SaintLucia); (77, SaintVincentAndTheGrenadines);
   (78, TrinidadAndTobago); (79, Argentina); (80, Bolivia); (81, Brazil); (82, Chile); (83, Ecuador);
   (84, Guyana); (85, Paraguay); (86, Peru); (87, Suriname); (88, Uruguay); (89, Venezuela); (90, Albania);
   (91, Andorra); (92, Armenia); (93, Austria); (94, Azerbaijan); (95, Belarus); (96, Belgium);
   (97, BosniaAndHerzegovina); (98, Bulgaria); (99, Croatia); (100, Cyprus); (101, CzechRepublic);
   (102, Denmark); (103, Estonia); (104, Finland); (105, France); (106, Georgia); (107, Germany);
   (108, Greece); (109, Hungary); (110, Iceland); (111, Ireland); (112, Italy); (113, Kazakhstan);
   (114, Kosovo); (115, Latvia); (116, Liechtenstein); (117, Lithuania); (118, Luxembourg); (119, Malta);
   (120, Moldova); (121, Monaco); (122, Montenegro); (123, Netherlands); (124, NorthMacedonia); (125, Norway);
   (126, Poland); (127, Portugal); (128, Romania); (129, Russia); (130, SanMarino); (131, Serbia);
   (132, Slovakia); (133, Slovenia); (134, Spain); (135, Sweden); (136, Switzerland); (137, Turkey);
   (138, Ukraine); (139, UnitedKingdom); (140, VaticanCity); (141, Algeria); (142, Angola); (143, Benin);
   (144, Botswana); (145, BurkinaFaso); (146, Burundi); (147, CaboVerde); (148, Cameroon);
   (149, CentralAfricanRepublic); (150, Chad); (151, Comoros); (152, Congo);
   (153, DemocraticRepublicOfTheCongo); (154, Djibouti); (155, Egypt); (156, EquatorialGuinea); (157, Eritrea);
   (158, Eswatini); (159, Ethiopia); (160, Gabon); (161, Gambia); (162, Guinea); (163, GuineaBissau);
   (164, IvoryCoast); (165, Kenya); (166, Lesotho); (167, Liberia); (168, Libya); (169, Madagascar);
   (170, Malawi); (171, Mali); (172, Mauritania); (173, Mauritius); (174, Morocco); (175, Mozambique);
   (176, Namibia); (177, Niger); (178, Rwanda); (179, SaoTomeAndPrincipe)].
Fixpoint arm {A B} (eqb : A -> A -> bool) (value : A) (arms : list (A * B)) : option B :=
  match arms with
  | [] => None
  | (k, r) :: arms => if eqb value k then Some r else arm eqb value arms
  end.
Definition region_of_u8 (value : Z) : Regions := default UnkownRegion (arm Z.eqb value region_numbers).

(** A region's number determines it. *)
Lemma region_of_u8_of_region r : region_of_u8 (u8_of_region r) = r.
Proof. by destruct r. Qed.
#[export] Instance u8_of_region_inj : Inj (=) (=) u8_of_region.
Proof. intros a b H. rewrite <- (region_of_u8_of_region a), <- (region_of_u8_of_region b). by f_equal. Qed.
#[export] Instance Regions_eq_dec : EqDecision Regions := fun a b =>
  match decide (u8_of_region a = u8_of_region b) with
  | left H => left (inj u8_of_region a b H)
  | right H => right (fun e => H (f_equal u8_of_region e))
  end.

(** [impl Display for Regions]. *)
Definition region_name (r : Regions) : string :=
  match r with
  | UnitedStates => "United States" | Canada => "Canada" | Ghana => "Ghana" | Nigeria => "Nigeria"
  | Colombia => "Colombia" | Mexico => "Mexico" | UnkownRegion => "Unknown Region" | Argentina => "Argentina"
  | Bolivia => "Bolivia" | Brazil => "Brazil" | Chile => "Chile" | Ecuador => "Ecuador" | Guyana => "Guyana"
  | Paraguay => "Paraguay" | Peru => "Peru" | Suriname => "Suriname" | Uruguay => "Uruguay"
  | Venezuela => "Venezuela" | Albania => "Albania" | Andorra => "Andorra" | Armenia => "Armenia"
  | Austria => "Austria" | Azerbaijan => "Azerbaijan" | Belarus => "Belarus" | Belgium => "Belgium"
  | BosniaAndHerzegovina => "Bosnia and Herzegovina" | Bulgaria => "Bulgaria" | Croatia => "Croatia"
  | Cyprus => "Cyprus" | CzechRepublic => "Czech Republic" | Denmark => "Denmark" | Estonia => "Estonia"
  | Finland => "Finland" | France => "France" | Georgia => "Georgia" | Germany => "Germany"
  | Greece => "Greece" | Hungary => "Hungary" | Iceland => "Iceland" | Ireland => "Ireland" | Italy => "Italy"
  | Kazakhstan => "Kazakhstan" | Kosovo => "Kosovo" | Latvia => "Latvia" | Liechtenstein => "Liechtenstein"
  | Lithuania => "Lithuania" | Luxembourg => "Luxembourg" | Malta => "Malta" | Moldova => "Moldova"
  | Monaco => "Monaco" | Montenegro => "Montenegro" | Netherlands => "Netherlands"
  | NorthMacedonia => "North Macedonia" | Norway => "Norway" | Poland => "Poland" | Portugal => "Portugal"
  | Romania => "Romania" | Russia => "Russia" | SanMarino => "San Marino" | Serbia => "Serbia"
  | Slovakia => "Slovakia" | Slovenia => "Slovenia" | Spain => "Spain" | Sweden => "Sweden"
  | Switzerland => "Switzerland" | Turkey => "Turkey" | Ukraine => "Ukraine"
  | UnitedKingdom => "United Kingdom" | VaticanCity => "Vatican City" | Algeria => "Algeria"
  | Angola => "Angola" | Benin => "Benin" | Botswana => "Botswana" | BurkinaFaso => "Burkina Faso"
  | Burundi => "Burundi" | CaboVerde => "Cabo Verde" | Cameroon => "Cameroon"
  | CentralAfricanRepublic => "Central African Republic" | Chad => "Chad" | Comoros => "Comoros"
  | Congo => "Congo" | DemocraticRepublicOfTheCongo => "Democratic Republic of the Congo"
  | Djibouti => "Djibouti" | Egypt => "Egypt" | EquatorialGuinea => "Equatorial Guinea" | Eritrea => "Eritrea"
  | Eswatini => "Eswatini" | Ethiopia => "Ethiopia" | Gabon => "Gabon" | Gambia => "Gambia"
  | Guinea => "Guinea" | GuineaBissau => "Guinea-Bissau" | IvoryCoast => "Ivory Coast" | Kenya => "Kenya"
  | Lesotho => "Lesotho" | Liberia => "Liberia" | Libya => "Libya" | Madagascar => "Madagascar"
  | Malawi => "Malawi" | Mali => "Mali" | Mauritania => "Mauritania" | Mauritius => "Mauritius"
  | Morocco => "Morocco" | Mozambique => "Mozambique" | Namibia => "Namibia" | Niger => "Niger"
  | Rwanda => "Rwanda" | SaoTomeAndPrincipe => "Sao Tome and Principe" | Senegal => "Senegal"
  | Seychelles => "Seychelles" | SierraLeone => "Sierra Leone" | Somalia => "Somalia"
  | SouthAfrica => "South Africa" | SouthSudan => "South Sudan" | Sudan => "Sudan" | Tanzania => "Tanzania"
  | Togo => "Togo" | Tunisia => "Tunisia" | Uganda => "Uganda" | Zambia => "Zambia" | Zimbabwe => "Zimbabwe"
  | Afghanistan => "Afghanistan" | Bahrain => "Bahrain" | Bangladesh => "Bangladesh" | Bhutan => "Bhutan"
  | Brunei => "Brunei" | Cambodia => "Cambodia" | China => "China" | EastTimor => "East Timor"
  | India => "India" | Indonesia => "Indonesia" | Iran => "Iran" | Iraq => "Iraq" | Israel => "Israel"
  | Japan => "Japan" | Jordan => "Jordan" | Kuwait => "Kuwait" | Kyrgyzstan => "Kyrgyzstan" | Laos => "Laos"
  | Lebanon => "Lebanon" | Malaysia => "Malaysia" | Maldives => "Maldives" | Mongolia => "Mongolia"
  | Myanmar => "Myanmar" | Nepal => "Nepal" | NorthKorea => "North Korea" | Oman => "Oman"
  | Pakistan => "Pakistan" | Palestine => "Palestine" | Philippines => "Philippines" | Qatar => "Qatar"
  | SaudiArabia => "Saudi Arabia" | Singapore => "Singapore" | SouthKorea => "South Korea"
  | SriLanka => "Sri Lanka" | Syria => "Syria" | Taiwan => "Taiwan" | Tajikistan => "Tajikistan"
  | Thailand => "Thailand" | Turkmenistan => "Turkmenistan" | UnitedArabEmirates => "United Arab Emirates"
  | Uzbekistan => "Uzbekistan" | Vietnam => "Vietnam" | Yemen => "Yemen" | Australia => "Australia"
  | NewZealand => "New Zealand" | AntiguaAndBarbuda => "Antigua and Barbuda" | Bahamas => "Bahamas"
  | Barbados => "Barbados" | Belize => "Belize" | Cuba => "Cuba" | Dominica => "Dominica"
  | DominicanRepublic => "Dominican Republic" | Grenada => "Grenada" | Haiti => "Haiti" | Jamaica => "Jamaica"
  | SaintKittsAndNevis => "Saint Kitts and Nevis" | SaintLucia => "Saint Lucia"
  | SaintVincentAndTheGrenadines => "Saint Vincent and the Grenadines"
  | TrinidadAndTobago => "Trinidad and Tobago"
  end.

(** [impl FromStr for Regions], the arms in order. *)
Definition region_spellings : list (string * Regions) :=
  [("united states", UnitedStates); ("us", UnitedStates); ("canada", Canada); ("ca", Canada);
   ("mexico", Mexico); ("mx", Mexico); ("ghana", Ghana); ("gh", Ghana); ("nigeria", Nigeria); ("ng", Nigeria);
   ("colombia", Colombia); ("co", Colombia); ("lr", Liberia); ("libya", Libya); ("ly", Libya);
   ("madagascar", Madagascar); ("mg", Madagascar); ("malawi", Malawi); ("mw", Malawi); ("mali", Mali);
   ("ml", Mali); ("mauritania", Mauritania); ("mr", Mauritania); ("mauritius", Mauritius); ("mu", Mauritius);
   ("morocco", Morocco); ("ma", Morocco); ("mozambique", Mozambique); ("mz", Mozambique); ("namibia", Namibia);
   ("na", Namibia); ("niger", Niger); ("ne", Niger); ("rwanda", Rwanda); ("rw", Rwanda);
   ("sao tome and principe", SaoTomeAndPrincipe); ("st", SaoTomeAndPrincipe); ("senegal", Senegal);
   ("sn", Senegal); ("seychelles", Seychelles); ("sc", Seychelles); ("sierra leone", SierraLeone);
   ("sl", SierraLeone); ("somalia", Somalia); ("so", Somalia); ("south africa", SouthAfrica);
   ("za", SouthAfrica); ("south sudan", SouthSudan); ("ss", SouthSudan); ("sudan", Sudan); ("sd", Sudan);
   ("tanzania", Tanzania); ("tz", Tanzania); ("togo", Togo); ("tg", Togo); ("tunisia", Tunisia);
   ("tn", Tunisia); ("uganda", Uganda); ("ug", Uganda); ("zambia", Zambia); ("zm", Zambia);
   ("zimbabwe", Zimbabwe); ("zw", Zimbabwe); ("afghanistan", Afghanistan); ("af", Afghanistan);
   ("bahrain", Bahrain); ("bh", Bahrain); ("bangladesh", Bangladesh); ("bd", Bangladesh); ("bhutan", Bhutan);
   ("bt", Bhutan); ("brunei", Brunei); ("bn", Brunei); ("cambodia", Cambodia); ("kh", Cambodia);
   ("china", China); ("cn", China); ("east timor", EastTimor); ("tl", EastTimor); ("india", India);
   ("in", India); ("indonesia", Indonesia); ("id", Indonesia); ("iran", Iran); ("ir", Iran); ("iraq", Iraq);
   ("iq", Iraq); ("israel", Israel); ("il", Israel); ("japan", Japan); ("jp", Japan); ("jordan", Jordan);
   ("jo", Jordan); ("kuwait", Kuwait); ("kw", Kuwait); ("kyrgyzstan", Kyrgyzstan); ("kg", Kyrgyzstan);
   ("eswatini", Eswatini); ("ethiopia", Ethiopia); ("gabon", Gabon); ("gambia", Gambia); ("guinea", Guinea);
   ("guinea-bissau", GuineaBissau); ("ivory coast", IvoryCoast); ("kenya", Kenya); ("lesotho", Lesotho);
   ("liberia", Liberia); ("laos", Laos); ("la", Laos); ("lebanon", Lebanon); ("lb", Lebanon);
   ("malaysia", Malaysia); ("my", Malaysia); ("maldives", Maldives); ("mv", Maldives); ("mongolia", Mongolia);
   ("mn", Mongolia); ("myanmar", Myanmar); ("mm", Myanmar); ("nepal", Nepal); ("np", Nepal);
   ("north korea", NorthKorea); ("kp", NorthKorea); ("oman", Oman); ("om", Oman); ("pakistan", Pakistan);
   ("pk", Pakistan); ("palestine", Palestine); ("ps", Palestine); ("philippines", Philippines);
   ("ph", Philippines); ("qatar", Qatar); ("qa", Qatar); ("saudi arabia", SaudiArabia); ("sa", SaudiArabia);
   ("singapore", Singapore); ("sg", Singapore); ("south korea", SouthKorea); ("kr", SouthKorea);
   ("sri lanka", SriLanka); ("lk", SriLanka); ("syria", Syria); ("sy", Syria); ("taiwan", Taiwan);
   ("tw", Taiwan); ("tajikistan", Tajikistan); ("tj", Tajikistan); ("thailand", Thailand); ("th", Thailand);
   ("turkmenistan", Turkmenistan); ("tm", Turkmenistan); ("united arab emirates", UnitedArabEmirates);
   ("uae", UnitedArabEmirates); ("uzbekistan", Uzbekistan); ("uz", Uzbekistan); ("vietnam", Vietnam);
   ("vn", Vietnam); ("yemen", Yemen); ("ye", Yemen); ("australia", Australia); ("au", Australia);
   ("new zealand", NewZealand); ("nz", NewZealand); ("antigua and barbuda", AntiguaAndBarbuda);
   ("ag", AntiguaAndBarbuda); ("bahamas", Bahamas); ("bs", Bahamas); ("barbados", Barbados); ("bb", Barbados);
   ("belize", Belize); ("bz", Belize); ("cuba", Cuba); ("cu", Cuba); ("dominica", Dominica); ("dm", Dominica);
   ("dominican republic", DominicanRepublic); ("do", DominicanRepublic); ("grenada", Grenada); ("gd", Grenada);
   ("haiti", Haiti); ("ht", Haiti); ("jamaica", Jamaica); ("jm", Jamaica);
   ("saint kitts and nevis", SaintKittsAndNevis); ("kn", SaintKittsAndNevis); ("saint lucia", SaintLucia);
   ("lc", SaintLucia); ("saint vincent and the grenadines", SaintVincentAndTheGrenadines);
   ("vc", SaintVincentAndTheGrenadines); ("trinidad and tobago", TrinidadAndTobago); ("tt", TrinidadAndTobago)].
(** [str::to_lowercase] of ASCII. *)
Definition lower_ascii (c : Ascii.ascii) : Ascii.ascii :=
  let n := Ascii.nat_of_ascii c in
  if Nat.leb 65 n && Nat.leb n 90 then Ascii.ascii_of_nat (n + 32) else c.
Fixpoint to_lowercase (s : string) : string :=
  match s with
  | EmptyString => EmptyString
  | String.String c s => String.String (lower_ascii c) (to_lowercase s)
  end.
Definition region_from_str (s : string) : option Regions := arm String.eqb (to_lowercase s) region_spellings.

(** * The country of a client

    The settings the check reads; [api] is what the geoip service answers: no
    answer, one that is no JSON, or an ISO code. *)
Record geo_settings := { allowed_countries : list Regions; api_configured : bool }.
Inductive geo_answer := NoAnswer | BadJson | IsoCode (code : string).
Definition geoip_cache : Type := gmap IpAddr Regions.

Definition is_unicast_link_local (a : Z) : bool := Z.land (Z.shiftr a 112) 0xffc0 =? 0xfe80.

(** [None] is the panic for a missing API key. *)
Definition get_country (s : geo_settings) (api : IpAddr -> geo_answer) (ip : IpAddr) (cache : geoip_cache)
    : option (geoip_cache * option Regions) :=
  match allowed_countries s with
  | [] => Some (cache, Some UnkownRegion)
  | first :: _ =>
      if match ip with V6 val => is_unicast_link_local val | V4 _ => false end then Some (cache, Some first)
      else if negb (api_configured s) then None
      else
        match cache !! ip with
        | Some code => Some (cache, Some code)
        | None =>
            match api ip with
            | IsoCode iso =>
                let code := default UnkownRegion (region_from_str iso) in
                Some (<[ip := code]> cache, Some code)
            | NoAnswer | BadJson => Some (cache, None)
            end
        end
  end.

(** The inner [option] is the error of the service. *)
Definition verify_ip (s : geo_settings) (api : IpAddr -> geo_answer) (request_ip : IpAddr) (cache : geoip_cache)
    : option (geoip_cache * option bool) :=
  if match request_ip with V6 val => is_unicast_link_local val | V4 _ => false end then Some (cache, Some true)
  else
    match allowed_countries s with
    | [] => Some (cache, Some true)
    | _ =>
        match get_country s api request_ip cache with
        | None => None
        | Some (cache, None) => Some (cache, None)
        | Some (cache, Some country) => Some (cache, Some (bool_decide (country ∈ allowed_countries s)))
        end
    end.
End Regions.
Export Regions.

(** * What can be read back *)

(** The regions [FromStr] has an arm for. *)
Definition spelled (r : Regions) : bool := existsb (fun p => bool_decide (p.2 = r)) region_spellings.
(** The spellings of two letters, as a geoip service answers. *)
Definition has_iso_code (r : Regions) : bool :=
  existsb (fun p => (String.length p.1 =? 2)%nat && bool_decide (p.2 = r)) region_spellings.
Definition all_regions : list Regions := UnkownRegion :: region_numbers.*2.

Lemma all_regions_complete r : r ∈ all_regions.
Proof. apply (bool_decide_unpack _). destruct r; vm_compute; exact I. Qed.

Lemma forall_regions (f : Regions -> bool) : forallb f all_regions = true -> forall r, f r = true.
Proof.
  intros Hf r. rewrite forallb_forall in Hf. apply Hf, list_elem_of_In, all_regions_complete.
Qed.

Definition name_reads_back (r : Regions) : bool :=
  bool_decide (region_from_str (region_name r) = if spelled r then Some r else None).
Lemma names_read_back : forallb name_reads_back all_regions = true.
Proof. vm_compute. reflexivity. Qed.

Lemma unspelled_unread r s : spelled r = false -> region_from_str s <> Some r.
Proof.
  intros Hs Hr. unfold region_from_str in Hr.
  assert (Harm : forall arms, arm String.eqb (to_lowercase s) arms = Some r ->
    existsb (fun p => bool_decide (p.2 = r)) arms = true).
  { induction arms as [|[k x] arms IH]; [done|]. cbn [arm existsb]. destruct (String.eqb _ k).
    - intros [= ->]. cbn [snd]. by rewrite bool_decide_eq_true_2.
    - intros H%IH. by rewrite H, orb_true_r. }
  apply Harm in Hr. unfold spelled in Hs. congruence.
Qed.

(** A region's number reads back as the region, for all 180 of them; its name
    reads back exactly for the hundred regions that [FromStr] has an arm for
    (whatever the case), and for the other eighty, all of Europe and nearly all
    of South America among them, no spelling at all reads as them. *)
Theorem regions_roundtrip r :
  region_of_u8 (u8_of_region r) = r
  /\ region_from_str (region_name r) = (if spelled r then Some r else None)
  /\ (spelled r = false -> forall s, region_from_str s <> Some r)
  /\ length (filter (fun r => spelled r = false) all_regions) = 80%nat.
Proof.
  split_and!; [apply region_of_u8_of_region| | |vm_compute; reflexivity].
  - by apply (bool_decide_eq_true _), (forall_regions name_reads_back), names_read_back.
  - intros Hs s. by apply unspelled_unread.
Qed.
Lemma regions_roundtrip_witness : region_from_str (region_name Ghana) = Some Ghana.
Proof. exact (proj1 (proj2 (regions_roundtrip Ghana))). Defined.

Lemma get_country_fresh s api ip cache iso :
  allowed_countries s <> [] -> api_configured s = true -> cache !! ip = None ->
  (forall v, ip = V6 v -> is_unicast_link_local v = false) -> api ip = IsoCode iso ->
  get_country s api ip cache
  = Some (<[ip := default UnkownRegion (region_from_str iso)]> cache, Some (default UnkownRegion (region_from_str iso))).
Proof.
  intros Hne Hk Hc Hl Hapi. unfold get_country. destruct (allowed_countries s); [done|].
  assert (Hll : match ip with V6 val => is_unicast_link_local val | V4 _ => false end = false)
    by (destruct ip; [done|by apply Hl]).
  by rewrite Hll, Hk, Hc, Hapi.
Qed.

(** A geolocked exit turns away the clients of a country it allows when
    [FromStr] has no ISO code for it: whatever code the service answers for
    them, the country is taken for another one or for unknown, and the client is
    refused unless that one is allowed. *)
Theorem allowed_region_refused s api ip cache iso r :
  allowed_countries s = [r] -> r <> UnkownRegion -> spelled r = false -> api_configured s = true ->
  cache !! ip = None -> (forall v, ip = V6 v -> is_unicast_link_local v = false) -> api ip = IsoCode iso ->
  exists cache', verify_ip s api ip cache = Some (cache', Some false).
Proof.
  intros Ha Hu Hs Hk Hc Hl Hapi. unfold verify_ip.
  assert (Hll : match ip with V6 val => is_unicast_link_local val | V4 _ => false end = false)
    by (destruct ip; [done|by apply Hl]).
  rewrite Hll, Ha, (get_country_fresh s api ip cache iso) by (rewrite ?Ha; done). eexists. do 3 f_equal.
  apply bool_decide_eq_false_2. rewrite list_elem_of_singleton. intros E.
  destruct (region_from_str iso) as [x|] eqn:Ei; cbn in E; [|congruence]. subst x.
  by apply (unspelled_unread r iso).
Qed.
Lemma allowed_region_refused_witness :
  exists cache', verify_ip {| allowed_countries := [Germany]; api_configured := true |} (fun _ => IsoCode "DE")
                   (V4 134744072) ∅ = Some (cache', Some false).
Proof. by apply (allowed_region_refused _ _ _ _ "DE" Germany). Defined.
