(* ===== verification/ExitManager.v ===== *)
(** The client's exit manager: what it keeps about exits
    (rita_client/src/exit_manager/mod.rs, settings/src/client.rs, the exit types
    of althea_types/src/interop.rs) and the exit switcher that chooses one
    (exit_switcher.rs).  The statics SELECTED_EXIT_DETAILS, METRIC_VALUES and
    EXIT_TRACKER and the client's settings are the fields of one state. *)
From S2P Require Import Prelude Types Text Babel Regions.

Module ExitManager.

(** * Exits *)

Inductive ExitVerifMode := Phone | Email | Off.
Record ExitDetails := {
  server_internal_ip : IpAddr;
  netmask : Z;
  wg_exit_port : Z;
  exit_price : Z;
  exit_currency : SystemChain;
  description : string;
  verif_mode : ExitVerifMode;
}.
Record ExitClientDetails := { client_internal_ip : IpAddr; internet_ipv6_subnet : option IpNetwork }.

Inductive ExitState :=
| New
| GotInfo (g : ExitDetails) (message : string)
| Pending (g : ExitDetails) (message : string) (email_code phone_code : option string)
| Registered (g : ExitDetails) (o : ExitClientDetails) (message : string)
| Denied (message : string).
#[export] Instance IpNetwork_eq_dec : EqDecision IpNetwork.
Proof. solve_decision. Defined.
#[export] Instance ExitVerifMode_eq_dec : EqDecision ExitVerifMode.
Proof. solve_decision. Defined.
#[export] Instance ExitDetails_eq_dec : EqDecision ExitDetails.
Proof. solve_decision. Defined.
#[export] Instance ExitClientDetails_eq_dec : EqDecision ExitClientDetails.
Proof. solve_decision. Defined.
#[export] Instance ExitState_eq_dec : EqDecision ExitState.
Proof. solve_decision. Defined.

Definition general_details (s : ExitState) : option ExitDetails :=
  match s with
  | GotInfo g _ => Some g
  | Pending g _ _ _ => Some g
  | Registered g _ _ => Some g
  | _ => None
  end.
Definition our_details (s : ExitState) : option ExitClientDetails :=
  match s with Registered _ o _ => Some o | _ => None end.

Record ExitIdentity := {
  ei_mesh_ip : IpAddr;
  ei_wg_key : Z;
  ei_eth_addr : Z;
  ei_registration_port : Z;
  ei_wg_exit_listen_port : Z;
  allowed_regions : list Regions;
  payment_types : list SystemChain;
}.
Definition exit_identity_to_id (e : ExitIdentity) : Identity := {|
  mesh_ip := ei_mesh_ip e; eth_address := ei_eth_addr e; wg_public_key := ei_wg_key e; nickname := None |}.

Record ExitServer := {
  exit_id : Identity;
  registration_port : Z;
  wg_exit_listen_port : Z;
  info : ExitState;
}.
Record SelectedExit := {
  selected_id : option IpAddr;
  selected_id_metric : option Z;
  selected_id_degradation : option Z;
  tracking_exit : option IpAddr;
}.
Record ExitBlacklist := {
  blacklisted_exits : gset IpAddr;
  potential_blacklists : gmap IpAddr Z;
}.
Record ExitTracker := { last_added_metric : Z; running_total : Z; ticker_len : Z }.

Inductive RitaClientError :=
| MiscStringError (s : string)
| NoExitError (ip : IpAddr)
| ExitNotFound (ip : IpAddr)
| SendRequestError
| JsonPayloadError.

(** The state: [exits] is the map of the settings, [METRIC_VALUES] and
    [EXIT_TRACKER] the statics of the switcher. *)
Record ExitWorld := {
  selected_exit : SelectedExit;
  exit_blacklist : ExitBlacklist;
  METRIC_VALUES : list Z;
  EXIT_TRACKER : gmap IpAddr ExitTracker;
  exits : gmap IpAddr ExitServer;
}.

Definition set_selected_exit (s : SelectedExit) (w : ExitWorld) : ExitWorld := {|
  selected_exit := s; exit_blacklist := exit_blacklist w; METRIC_VALUES := METRIC_VALUES w;
  EXIT_TRACKER := EXIT_TRACKER w; exits := exits w |}.
Definition with_blacklist (b : ExitBlacklist) (w : ExitWorld) : ExitWorld := {|
  selected_exit := selected_exit w; exit_blacklist := b; METRIC_VALUES := METRIC_VALUES w;
  EXIT_TRACKER := EXIT_TRACKER w; exits := exits w |}.
Definition with_tracking (v : list Z) (t : gmap IpAddr ExitTracker) (w : ExitWorld) : ExitWorld := {|
  selected_exit := selected_exit w; exit_blacklist := exit_blacklist w; METRIC_VALUES := v;
  EXIT_TRACKER := t; exits := exits w |}.
Definition with_exits (e : gmap IpAddr ExitServer) (w : ExitWorld) : ExitWorld := {|
  selected_exit := selected_exit w; exit_blacklist := exit_blacklist w; METRIC_VALUES := METRIC_VALUES w;
  EXIT_TRACKER := EXIT_TRACKER w; exits := e |}.

Definition get_current_exit (w : ExitWorld) : option IpAddr := selected_id (selected_exit w).

(** * The blacklist *)

Definition MAX_BLACKLIST_STRIKES : Z := 100.
Inductive WarningType := HardWarning | SoftWarning.

Definition blacklist_strike_ip (ip : IpAddr) (warning : WarningType) (b : ExitBlacklist) : ExitBlacklist :=
  match warning with
  | SoftWarning =>
      match potential_blacklists b !! ip with
      | Some warning_count =>
          if MAX_BLACKLIST_STRIKES <=? warning_count then
            {| blacklisted_exits := {[ ip ]} ∪ blacklisted_exits b;
               potential_blacklists := delete ip (potential_blacklists b) |}
          else
            {| blacklisted_exits := blacklisted_exits b;
               potential_blacklists := <[ip := warning_count + 1]> (potential_blacklists b) |}
      | None =>
          {| blacklisted_exits := blacklisted_exits b;
             potential_blacklists := <[ip := 1]> (potential_blacklists b) |}
      end
  | HardWarning =>
      {| blacklisted_exits := {[ ip ]} ∪ blacklisted_exits b;
         potential_blacklists := potential_blacklists b |}
  end.

Definition reset_blacklist_warnings (ip : IpAddr) (b : ExitBlacklist) : ExitBlacklist := {|
  blacklisted_exits := blacklisted_exits b ∖ {[ ip ]};
  potential_blacklists := delete ip (potential_blacklists b) |}.

Definition reset_exit_blacklist : ExitBlacklist := {|
  blacklisted_exits := ∅; potential_blacklists := ∅ |}.

(** The answer to a request to an exit: what [awc] and the decryption make of
    it. *)
Inductive exit_answer (A : Type) :=
| AnswerTimeout
| AnswerSendError
| AnswerNotJson
| AnswerUndecryptable
| Answer (a : A).
#[global] Arguments AnswerTimeout {A}.
#[global] Arguments AnswerSendError {A}.
#[global] Arguments AnswerNotJson {A}.
#[global] Arguments AnswerUndecryptable {A}.
#[global] Arguments Answer {A} a.

(** [send_exit_setup_request], [send_exit_status_request] and the request of
    [get_exit_list]: the strikes and resets of the three are the same. *)
Definition send_exit_request {A} (to_ip : IpAddr) (answer : exit_answer A) (b : ExitBlacklist)
    : ExitBlacklist * (RitaClientError + A) :=
  match answer with
  | AnswerTimeout => (blacklist_strike_ip to_ip SoftWarning b, inl SendRequestError)
  | AnswerSendError => (b, inl SendRequestError)
  | AnswerNotJson => (reset_blacklist_warnings to_ip b, inl JsonPayloadError)
  | AnswerUndecryptable =>
      (blacklist_strike_ip to_ip HardWarning (reset_blacklist_warnings to_ip b),
       inl (MiscStringError "Could not decrypt"))
  | Answer a => (reset_blacklist_warnings to_ip (reset_blacklist_warnings to_ip b), inr a)
  end.

(** * Requests to exits

    What the requests read of the settings besides the exits. *)
Record client_settings := { contact_info : option string; our_identity : option Identity }.

Definition set_exit_info (ip : IpAddr) (i : ExitState) (m : gmap IpAddr ExitServer) : gmap IpAddr ExitServer :=
  match m !! ip with
  | Some e => <[ip := {| exit_id := exit_id e; registration_port := registration_port e;
                         wg_exit_listen_port := wg_exit_listen_port e; info := i |}]> m
  | None => m
  end.

(** The loop of [exit_setup_request] over the exits in the map's order: the
    first one that is new or pending is asked, and that is all. *)
Fixpoint exit_setup_loop (s : client_settings) (answer : IpAddr -> exit_answer ExitState)
    (l : list (IpAddr * ExitServer)) : M ExitWorld RitaClientError unit :=
  match l with
  | [] => throw (MiscStringError "Could not find a valid exit to register to!")
  | (_, exit) :: l =>
      match info exit with
      | New | Pending _ _ _ _ =>
          match contact_info s with
          | None => throw (MiscStringError "No registration info set!")
          | Some _ =>
              match our_identity s with
              | None => throw (MiscStringError "Identity has no mesh IP ready yet")
              | Some _ =>
                  let ip := mesh_ip (exit_id exit) in
                  let! w := get_st in
                  let '(b, r) := send_exit_request ip (answer ip) (exit_blacklist w) in
                  modify (with_blacklist b) ;!
                  match r with
                  | inl e => throw e
                  | inr i => modify (fun w => with_exits (set_exit_info ip i (exits w)) w)
                  end
              end
          end
      | Denied _ | Registered _ _ _ | GotInfo _ _ => exit_setup_loop s answer l
      end
  end.
Definition exit_setup_request (s : client_settings) (answer : IpAddr -> exit_answer ExitState)
    : M ExitWorld RitaClientError unit :=
  let! w := get_st in exit_setup_loop s answer (map_to_list (exits w)).

Definition exit_status_request (s : client_settings) (answer : IpAddr -> exit_answer ExitState)
    (exit : IpAddr) : M ExitWorld RitaClientError unit :=
  let! w := get_st in
  match exits w !! exit with
  | None => throw (NoExitError exit)
  | Some current_exit =>
      match contact_info s with
      | None => throw (MiscStringError "No valid details")
      | Some _ =>
          match our_identity s with
          | None => throw (MiscStringError "Identity has no mesh IP ready yet")
          | Some _ =>
              let ip := mesh_ip (exit_id current_exit) in
              let '(b, r) := send_exit_request ip (answer ip) (exit_blacklist w) in
              modify (with_blacklist b) ;!
              match r with
              | inl e => throw e
              | inr i =>
                  let! w := get_st in
                  match exits w !! exit with
                  | None => throw (ExitNotFound exit)
                  | Some _ => modify (fun w => with_exits (set_exit_info exit i (exits w)) w)
                  end
              end
          end
      end
  end.

Definition get_exit_list (s : client_settings) (answer : IpAddr -> exit_answer (list ExitIdentity))
    (exit : IpAddr) : M ExitWorld RitaClientError (list ExitIdentity) :=
  let! w := get_st in
  match exits w !! exit with
  | None => throw (NoExitError exit)
  | Some current_exit =>
      match contact_info s with
      | None => throw (MiscStringError "No valid details")
      | Some _ =>
          match our_identity s with
          | None => throw (MiscStringError "Identity has no mesh IP ready yet")
          | Some _ =>
              let exit_server := mesh_ip (exit_id current_exit) in
              let '(b, r) := send_exit_request exit_server (answer exit_server) (exit_blacklist w) in
              modify (with_blacklist b) ;!
              match r with inl e => throw e | inr l => ret l end
          end
      end
  end.

(** [entry(..).or_insert(..)] for each exit of the list. *)
Definition add_exits_to_exit_server_list (l : list ExitIdentity) (m : gmap IpAddr ExitServer)
    : gmap IpAddr ExitServer :=
  foldl (fun m e => match m !! ei_mesh_ip e with
                    | Some _ => m
                    | None => <[ei_mesh_ip e := {|
                                 exit_id := exit_identity_to_id e;
                                 registration_port := ei_registration_port e;
                                 wg_exit_listen_port := ei_wg_exit_listen_port e;
                                 info := New |}]> m
                    end) m l.

Fixpoint get_ready_to_switch_exits (exits : gmap IpAddr ExitServer) (l : list ExitIdentity) : list Identity :=
  match l with
  | [] => []
  | exit :: l =>
      match exits !! ei_mesh_ip exit with
      | Some server =>
          match info server with
          | Registered _ _ _ => exit_identity_to_id exit :: get_ready_to_switch_exits exits l
          | _ => get_ready_to_switch_exits exits l
          end
      | None => get_ready_to_switch_exits exits l
      end
  end.

(** [IpNetwork::ip]. *)
Definition net_ip (n : IpNetwork) : IpAddr := match n with NetV4 ip _ => V4 ip | NetV6 ip _ => V6 ip end.

Definition get_routes_hashmap (routes : list Route) : gmap IpAddr Route :=
  foldl (fun m r => <[net_ip (prefix r) := r]> m) ∅ routes.

Definition get_client_pub_ipv6 (w : ExitWorld) : option IpNetwork :=
  match get_current_exit w with
  | Some exit =>
      match exits w !! exit with
      | Some exit_ser => match info exit_ser with
                         | Registered _ our_details _ => internet_ipv6_subnet our_details
                         | _ => None
                         end
      | None => None
      end
  | None => None
  end.

(** * The exit switcher *)

Definition METRIC_ENTRIES : nat := 180.

Record ExitMetrics := {
  is_exit_down : bool;
  cur_exit : option IpAddr;
  cur_exit_babel_met : Z;
  em_tracking_exit : option IpAddr;
  tracking_met : Z;
  best_exit : option IpAddr;
  best_exit_met : Z;
}.
Inductive ExitSwitchingCode :=
| InitialExitSetup
| ContinueCurrentReset
| ContinueCurrent
| SwitchExit
| ContinueTracking
| ResetTracking.

Section switcher.
(** [capacity] is what [Vec::with_capacity(METRIC_ENTRIES)] allocates. *)
Context `{P : Profile} (capacity : nat).

Definition u16_of : Z -> option Z := native 0 U16_MAX.

Definition observe_cluster_metrics (exit_map : gmap IpAddr ExitTracker) (ip : IpAddr) (met : Z)
    : option (gmap IpAddr ExitTracker) :=
  match exit_map !! ip with
  | None => Some (<[ip := {| last_added_metric := met; running_total := met; ticker_len := 1 |}]> exit_map)
  | Some exit =>
      if last_added_metric exit =? 0 then
        running_total ← u64_of (running_total exit + met);
        ticker_len ← u16_of (ticker_len exit + 1);
        Some (<[ip := {| last_added_metric := met; running_total := running_total;
                         ticker_len := ticker_len |}]> exit_map)
      else if met <? last_added_metric exit then
        less ← u64_of (running_total exit - last_added_metric exit);
        running_total ← u64_of (less + met);
        Some (<[ip := {| last_added_metric := met; running_total := running_total;
                         ticker_len := ticker_len exit |}]> exit_map)
      else Some exit_map
  end.

Definition set_last_added_to_zero (exit_map : gmap IpAddr ExitTracker) : gmap IpAddr ExitTracker :=
  (fun v => {| last_added_metric := 0; running_total := running_total v; ticker_len := ticker_len v |})
    <$> exit_map.

Definition reset_exit_tracking (exit_map : gmap IpAddr ExitTracker) : gmap IpAddr ExitTracker :=
  (fun _ => {| last_added_metric := 0; running_total := 0; ticker_len := 0 |}) <$> exit_map.

(** The loop of [get_exit_metrics] with its mutable variables. *)
Record scan := {
  sc_best_exit : option IpAddr;
  sc_best_metric : Z;
  current_exit_down : bool;
  current_exit_metric : Z;
  tracking_metric : Z;
  all_exits_blacklisted : bool;
  sc_map : gmap IpAddr ExitTracker;
}.

Definition scan_exit (route_hashmap : gmap IpAddr Route) (blacklisted : gset IpAddr)
    (current_exit_ip tracking_exit : option IpAddr) (initial_best_metric : Z) (id : Identity) (s : scan)
    : option scan :=
  match route_hashmap !! mesh_ip id with
  | None => Some s
  | Some route =>
      let ip := net_ip (prefix route) in
      if bool_decide (ip ∈ blacklisted) then Some s
      else
        let up := bool_decide (current_exit_ip = Some ip) && negb (metric route =? U16_MAX)
                  && negb (initial_best_metric =? U16_MAX) in
        let tracked := bool_decide (tracking_exit = Some ip) && negb (metric route =? U16_MAX) in
        exit_map ← observe_cluster_metrics (sc_map s) ip (metric route);
        Some {|
          sc_best_exit := if metric route <? sc_best_metric s then Some ip else sc_best_exit s;
          sc_best_metric := if metric route <? sc_best_metric s then metric route else sc_best_metric s;
          current_exit_down := if up then false else current_exit_down s;
          current_exit_metric := if up then Z.min (metric route) (current_exit_metric s)
                                 else current_exit_metric s;
          tracking_metric := if tracked then Z.min (metric route) (tracking_metric s) else tracking_metric s;
          all_exits_blacklisted := false;
          sc_map := exit_map |}
  end.

Fixpoint scan_exits (route_hashmap : gmap IpAddr Route) (blacklisted : gset IpAddr)
    (current_exit_ip tracking_exit : option IpAddr) (initial_best_metric : Z) (l : list Identity) (s : scan)
    : option scan :=
  match l with
  | [] => Some s
  | id :: l =>
      match scan_exit route_hashmap blacklisted current_exit_ip tracking_exit initial_best_metric id s with
      | Some s => scan_exits route_hashmap blacklisted current_exit_ip tracking_exit initial_best_metric l s
      | None => None
      end
  end.

Definition scan_start (exit_map : gmap IpAddr ExitTracker) : scan := {|
  sc_best_exit := None; sc_best_metric := U16_MAX; current_exit_down := true; current_exit_metric := U16_MAX;
  tracking_metric := U16_MAX; all_exits_blacklisted := true; sc_map := exit_map |}.

Definition get_exit_metrics (route_hashmap : gmap IpAddr Route) (current_exit_ip tracking_exit initial_best_exit
    : option IpAddr) (initial_best_metric : Z) (exit_list : list Identity)
    : M ExitWorld RitaClientError ExitMetrics :=
  let! w := get_st in
  let! s := unwrap (scan_exits route_hashmap (blacklisted_exits (exit_blacklist w)) current_exit_ip
                      tracking_exit initial_best_metric exit_list (scan_start (EXIT_TRACKER w))) in
  (if all_exits_blacklisted s then modify (with_blacklist reset_exit_blacklist) else ret tt) ;!
  let keep := negb (current_exit_down s) && (initial_best_metric <? sc_best_metric s) in
  modify (fun w => with_tracking (METRIC_VALUES w) (set_last_added_to_zero (sc_map s)) w) ;!
  ret {| is_exit_down := current_exit_down s; cur_exit := current_exit_ip;
         cur_exit_babel_met := current_exit_metric s; em_tracking_exit := tracking_exit;
         tracking_met := tracking_metric s;
         best_exit := if keep then initial_best_exit else sc_best_exit s;
         best_exit_met := if keep then initial_best_metric else sc_best_metric s |}.

(** [None] is the panic on an empty vector. *)
Definition calculate_average (vals : list Z) : option Z :=
  match vals with
  | [] => None
  | _ => Some ((foldl Z.add 0 vals / Z.of_nat (length vals)) mod 65536)
  end.

(** The comparison of doubles [(a - b) / a > 0.5], for integers of sixteen bits:
    rounding is monotone and leaves 0.5 alone, and the quotients above it are at
    least [2^-17] away, so it is [2 * (a - b) > a]. *)
Definition exceeds_flapping_thresh (a b : Z) : bool := a <? 2 * (a - b).

Definition worth_switching_tracking_exit (metric_vec : list Z) (best_ip : IpAddr)
    (exit_map : gmap IpAddr ExitTracker) : option bool :=
  match metric_vec with
  | [] => Some false
  | _ =>
      avg_tracking_metric ← calculate_average metric_vec;
      exit_tracker ← exit_map !! best_ip;
      if ticker_len exit_tracker =? 0 then Some false
      else
        let avg_best_metric := (running_total exit_tracker / ticker_len exit_tracker) mod 65536 in
        if (avg_tracking_metric <? avg_best_metric) || (avg_best_metric =? 0) then Some false
        else Some (exceeds_flapping_thresh avg_tracking_metric avg_best_metric)
  end.

(** [update_metric_value] where the best exit is the tracking exit. *)
Definition update_tracking (cur tracking : IpAddr) (best_metric : Z) (metric_vec : list Z)
    (exit_map : gmap IpAddr ExitTracker) : ExitSwitchingCode * list Z * gmap IpAddr ExitTracker :=
  let is_full := Nat.eqb (length metric_vec) capacity in
  if bool_decide (cur = tracking) then
    if is_full then (ContinueCurrentReset, [best_metric], reset_exit_tracking exit_map)
    else (ContinueCurrent, metric_vec ++ [best_metric], exit_map)
  else
    if is_full then (SwitchExit, [best_metric], reset_exit_tracking exit_map)
    else (ContinueTracking, metric_vec ++ [best_metric], exit_map).

(** The recursive call puts the tracking exit in the place of the best one, with
    its metric, so it is the first case. *)
Definition update_metric_value (m : ExitMetrics) (metric_vec : list Z) (exit_map : gmap IpAddr ExitTracker)
    : option (ExitSwitchingCode * list Z * gmap IpAddr ExitTracker) :=
  match cur_exit m with
  | None => match metric_vec with [] => Some (InitialExitSetup, metric_vec, exit_map) | _ => None end
  | Some cur =>
      match best_exit m with
      | None => None
      | Some best =>
          let tracking := default best (em_tracking_exit m) in
          if bool_decide (best = tracking) then
            Some (update_tracking cur tracking (best_exit_met m) metric_vec exit_map)
          else
            match worth_switching_tracking_exit metric_vec best exit_map with
            | None => None
            | Some true => Some (ResetTracking, [best_exit_met m], reset_exit_tracking exit_map)
            | Some false => Some (update_tracking cur tracking (tracking_met m) metric_vec exit_map)
            end
      end
  end.

(** [checked_sub] of [u16]. *)
Definition checked_sub (a b : Z) : option Z := if b <=? a then Some (a - b) else None.

Definition set_exit_state (exit_code : ExitSwitchingCode) (m : ExitMetrics) (metric_vec : list Z)
    : M ExitWorld RitaClientError IpAddr :=
  let! w := get_st in
  let full := selected_exit w in
  match exit_code with
  | InitialExitSetup => panic
  | ContinueCurrentReset =>
      let! selected_metric := unwrap (selected_id_metric full) in
      modify (set_selected_exit {|
        selected_id := selected_id full; selected_id_metric := selected_id_metric full;
        selected_id_degradation := checked_sub (cur_exit_babel_met m) selected_metric;
        tracking_exit := tracking_exit full |}) ;!
      unwrap (cur_exit m)
  | ContinueCurrent =>
      match selected_id_degradation full with
      | None =>
          let! average_metric := unwrap (calculate_average metric_vec) in
          let! selected_metric := unwrap (selected_id_metric full) in
          modify (set_selected_exit {|
            selected_id := selected_id full; selected_id_metric := selected_id_metric full;
            selected_id_degradation := checked_sub average_metric selected_metric;
            tracking_exit := tracking_exit full |})
      | Some degradation =>
          match checked_sub (cur_exit_babel_met m) degradation with
          | None => ret tt
          | Some res =>
              modify (set_selected_exit {|
                selected_id := selected_id full; selected_id_metric := Some res;
                selected_id_degradation := selected_id_degradation full;
                tracking_exit := tracking_exit full |})
          end
      end ;!
      unwrap (cur_exit m)
  | SwitchExit =>
      modify (set_selected_exit {|
        selected_id := best_exit m; selected_id_metric := Some (best_exit_met m);
        selected_id_degradation := None; tracking_exit := best_exit m |}) ;!
      unwrap (best_exit m)
  | ContinueTracking => unwrap (cur_exit m)
  | ResetTracking =>
      modify (set_selected_exit {|
        selected_id := selected_id full; selected_id_metric := selected_id_metric full;
        selected_id_degradation := selected_id_degradation full; tracking_exit := best_exit m |}) ;!
      unwrap (cur_exit m)
  end.

Definition set_best_exit (exit_list : list Identity) (route_hashmap : gmap IpAddr Route)
    : M ExitWorld RitaClientError IpAddr :=
  if bool_decide (route_hashmap = ∅) then throw (MiscStringError "No routes are found")
  else
    let! w := get_st in
    let full := selected_exit w in
    let current_adjusted_metric := default U16_MAX (selected_id_metric full) in
    let! m := get_exit_metrics route_hashmap (selected_id full) (tracking_exit full) (selected_id full)
                current_adjusted_metric exit_list in
    match best_exit m with
    | None => throw (MiscStringError "No exit routes found, likely because routing table is empty")
    | Some a =>
        let! w := get_st in
        let! (exit_code, metric_vec, exit_map) :=
          unwrap (update_metric_value m (METRIC_VALUES w) (EXIT_TRACKER w)) in
        modify (with_tracking metric_vec exit_map) ;!
        if is_exit_down m then
          modify (set_selected_exit {|
            selected_id := best_exit m; selected_id_metric := Some (best_exit_met m);
            selected_id_degradation := None; tracking_exit := best_exit m |}) ;!
          modify (with_tracking [] (reset_exit_tracking exit_map)) ;!
          ret a
        else set_exit_state exit_code m metric_vec
    end.
End switcher.

(** [select_exit] of the dashboard (rita_client/src/dashboard/exits.rs). *)
Definition select_exit (exit_name : IpAddr) (w : ExitWorld) : option ExitWorld :=
  match exits w !! exit_name with
  | Some _ => Some (set_selected_exit {| selected_id := Some exit_name; selected_id_metric := None;
                                         selected_id_degradation := None; tracking_exit := None |} w)
  | None => None
  end.
End ExitManager.
Export ExitManager.
