(* ===== verification/ExitSwitcherSpec.v ===== *)
(** The exit switcher as a decision on candidates: the scan of the exits finds
    the candidate with the least metric, whether the current exit is up and
    whether every exit is blacklisted; from these follow what one tick does in
    each situation, and that it never panics. *)
From S2P Require Import Prelude Types Text Babel ExitManager.

(** * Candidates

    The exits of a list that have a route and are not blacklisted, with the
    metric of the route. *)
Definition candidate (routes : gmap IpAddr Route) (blacklisted : gset IpAddr) (id : Identity)
    : option (IpAddr * Z) :=
  match routes !! mesh_ip id with
  | None => None
  | Some r => if bool_decide (net_ip (prefix r) ∈ blacklisted) then None
              else Some (net_ip (prefix r), metric r)
  end.
Definition candidates (routes : gmap IpAddr Route) (blacklisted : gset IpAddr) (l : list Identity)
    : list (IpAddr * Z) := omap (candidate routes blacklisted) l.

Definition is_up (cur : option IpAddr) (initial_metric : Z) (cs : list (IpAddr * Z)) : Prop :=
  exists ip m, cur = Some ip /\ (ip, m) ∈ cs /\ m <> U16_MAX /\ initial_metric <> U16_MAX.

(** What a scan of candidates has found. *)
Record scanned (cur : option IpAddr) (initial_metric : Z) (cs : list (IpAddr * Z))
    (exit_map : gmap IpAddr ExitTracker) (s : scan) : Prop := {
  sd_best : match sc_best_exit s with
            | Some a => (a, sc_best_metric s) ∈ cs /\ sc_best_metric s < U16_MAX
            | None => sc_best_metric s = U16_MAX
            end;
  sd_least : forall a m, (a, m) ∈ cs -> sc_best_metric s <= m;
  sd_up : current_exit_down s = false <-> is_up cur initial_metric cs;
  sd_black : all_exits_blacklisted s = true <-> cs = [];
  sd_dom : dom (sc_map s) = dom exit_map ∪ list_to_set cs.*1;
}.

Section scanning.
Context `{P : Profile}.

Lemma scan_exits_app routes bl cur tr i l1 l2 s :
  scan_exits routes bl cur tr i (l1 ++ l2) s
  = match scan_exits routes bl cur tr i l1 s with
    | Some s => scan_exits routes bl cur tr i l2 s
    | None => None
    end.
Proof.
  revert s. induction l1 as [|id l1 IH]; intros s; [done|]. cbn [app scan_exits].
  destruct (scan_exit _ _ _ _ _ id s); [apply IH|done].
Qed.

Lemma observe_dom exit_map ip met exit_map' :
  observe_cluster_metrics exit_map ip met = Some exit_map' -> dom exit_map' = {[ ip ]} ∪ dom exit_map.
Proof.
  unfold observe_cluster_metrics. destruct (exit_map !! ip) as [t|] eqn:E.
  2: { intros [= <-]. apply dom_insert_L. }
  assert (Hip : ip ∈ dom exit_map) by (apply elem_of_dom; eauto).
  destruct (_ =? 0).
  { destruct (u64_of _); [|done]. simpl. destruct (u16_of _); [|done]. simpl. intros [= <-]. apply dom_insert_L. }
  destruct (met <? _).
  { destruct (u64_of _); [|done]. simpl. destruct (u64_of _); [|done]. simpl. intros [= <-]. apply dom_insert_L. }
  intros [= <-]. set_solver.
Qed.

Lemma scan_exit_none routes bl cur tr i id s :
  candidate routes bl id = None -> scan_exit routes bl cur tr i id s = Some s.
Proof.
  unfold candidate, scan_exit. destruct (routes !! mesh_ip id) as [r|]; [|done]. by case_bool_decide.
Qed.

Lemma is_up_snoc cur i cs ip m :
  is_up cur i (cs ++ [(ip, m)]) <-> is_up cur i cs \/ (cur = Some ip /\ m <> U16_MAX /\ i <> U16_MAX).
Proof.
  unfold is_up. setoid_rewrite elem_of_app. setoid_rewrite list_elem_of_singleton. naive_solver.
Qed.

Lemma scan_exit_some routes bl cur tr i id ip m cs exit_map s s' :
  candidate routes bl id = Some (ip, m) -> scanned cur i cs exit_map s ->
  scan_exit routes bl cur tr i id s = Some s' -> scanned cur i (cs ++ [(ip, m)]) exit_map s'.
Proof.
  unfold candidate, scan_exit. destruct (routes !! mesh_ip id) as [r|]; [|done].
  case_bool_decide; [done|]. intros [= <- <-] [Hbest Hleast Hup Hblack Hdom].
  destruct (observe_cluster_metrics _ _ _) as [exit_map'|] eqn:E; [|done]. apply observe_dom in E.
  cbn -[U16_MAX]. intros [= <-]. constructor; cbn -[U16_MAX].
  - destruct (Z.ltb_spec (metric r) (sc_best_metric s)) as [Hlt|_].
    + split; [set_solver|]. destruct (sc_best_exit s); [destruct Hbest|]; lia.
    + destruct (sc_best_exit s); [|done]. set_solver.
  - intros a m. rewrite elem_of_app, list_elem_of_singleton. intros [Ha%Hleast|[= -> ->]];
      destruct (Z.ltb_spec (metric r) (sc_best_metric s)); lia.
  - rewrite is_up_snoc, <- Hup.
    destruct (bool_decide_reflect (cur = Some (net_ip (prefix r)))) as [Hc|Hc];
      destruct (Z.eqb_spec (metric r) U16_MAX) as [Hm|Hm]; destruct (Z.eqb_spec i U16_MAX); cbn [negb andb];
      naive_solver.
  - split; [done|]. by intros [_ ?]%app_nil.
  - rewrite E, Hdom, fmap_app, list_to_set_app_L. set_solver.
Qed.

Lemma scan_exits_scanned routes bl cur tr i l exit_map s :
  scan_exits routes bl cur tr i l (scan_start exit_map) = Some s ->
  scanned cur i (candidates routes bl l) exit_map s.
Proof.
  revert s. induction l as [|id l IH] using rev_ind; intros s.
  { intros [= <-]. constructor; cbn -[U16_MAX]; [done|set_solver| |done|set_solver].
    split; [done|]. intros (? & ? & _ & ?%not_elem_of_nil & _). done. }
  rewrite scan_exits_app. destruct (scan_exits routes bl cur tr i l _) as [s1|]; [|done].
  cbn [scan_exits]. destruct (scan_exit routes bl cur tr i id s1) as [s2|] eqn:E; [|done]. intros [= <-].
  unfold candidates. rewrite omap_app. cbn [omap list_omap].
  destruct (candidate routes bl id) as [[ip m]|] eqn:Ec.
  - by eapply scan_exit_some; [exact Ec|apply IH|exact E].
  - rewrite (scan_exit_none _ _ _ _ _ _ _ Ec) in E. injection E as <-. rewrite app_nil_r. by apply IH.
Qed.

Lemma scan_exits_total routes bl cur tr i l s :
  overflow_checks = false -> is_Some (scan_exits routes bl cur tr i l s).
Proof.
  intros Hov. revert s. induction l as [|id l IH]; intros s; cbn [scan_exits]; [eauto|].
  assert (Hobs : forall m ip met, is_Some (observe_cluster_metrics m ip met)).
  { intros. unfold observe_cluster_metrics, u64_of, u16_of, native. rewrite Hov.
    repeat (case_match; simpl; eauto). }
  assert (Hs : is_Some (scan_exit routes bl cur tr i id s)).
  { unfold scan_exit. destruct (routes !! mesh_ip id); [|eauto]. case_bool_decide; [eauto|].
    destruct (Hobs (sc_map s) (net_ip (prefix r)) (metric r)) as [m ->]. simpl. eauto. }
  destruct Hs as [s1 ->]. apply IH.
Qed.
End scanning.

(** * One tick *)

Definition found_metrics (full : SelectedExit) (s : scan) : ExitMetrics :=
  let initial := default U16_MAX (selected_id_metric full) in
  let keep := negb (current_exit_down s) && (initial <? sc_best_metric s) in
  {| is_exit_down := current_exit_down s; cur_exit := selected_id full;
     cur_exit_babel_met := current_exit_metric s; em_tracking_exit := tracking_exit full;
     tracking_met := tracking_metric s;
     best_exit := if keep then selected_id full else sc_best_exit s;
     best_exit_met := if keep then initial else sc_best_metric s |}.
Definition scanned_world (s : scan) (w : ExitWorld) : ExitWorld :=
  with_tracking (METRIC_VALUES w) (set_last_added_to_zero (sc_map s))
    (if all_exits_blacklisted s then with_blacklist reset_exit_blacklist w else w).
Definition failed_over (a : IpAddr) (met : Z) (exit_map : gmap IpAddr ExitTracker) (w : ExitWorld) : ExitWorld :=
  with_tracking [] (reset_exit_tracking exit_map)
    (set_selected_exit {| selected_id := Some a; selected_id_metric := Some met;
                          selected_id_degradation := None; tracking_exit := Some a |} w).

Section tick.
Context `{P : Profile} (capacity : nat).

(** The candidates of a tick, and whether its current exit is up. *)
Definition tick_candidates (l : list Identity) (routes : gmap IpAddr Route) (w : ExitWorld) : list (IpAddr * Z) :=
  candidates routes (blacklisted_exits (exit_blacklist w)) l.
Definition exit_up (l : list Identity) (routes : gmap IpAddr Route) (w : ExitWorld) : Prop :=
  is_up (selected_id (selected_exit w)) (default U16_MAX (selected_id_metric (selected_exit w)))
    (tick_candidates l routes w).

Definition tick_scan (l : list Identity) (routes : gmap IpAddr Route) (w : ExitWorld) : option scan :=
  let full := selected_exit w in
  scan_exits routes (blacklisted_exits (exit_blacklist w)) (selected_id full) (tracking_exit full)
    (default U16_MAX (selected_id_metric full)) l (scan_start (EXIT_TRACKER w)).

Lemma set_best_exit_run l routes w :
  set_best_exit capacity l routes w
  = if bool_decide (routes = ∅) then Fail w (MiscStringError "No routes are found")
    else match tick_scan l routes w with
         | None => Panic
         | Some s =>
             let m := found_metrics (selected_exit w) s in
             let w1 := scanned_world s w in
             match best_exit m with
             | None => Fail w1 (MiscStringError "No exit routes found, likely because routing table is empty")
             | Some a =>
                 match update_metric_value capacity m (METRIC_VALUES w) (set_last_added_to_zero (sc_map s)) with
                 | None => Panic
                 | Some (code, vec, exit_map) =>
                     if is_exit_down m then Done (failed_over a (best_exit_met m) exit_map w1) a
                     else set_exit_state code m vec (with_tracking vec exit_map w1)
                 end
             end
         end.
Proof.
  unfold set_best_exit. case_bool_decide; [done|].
  unfold get_exit_metrics, tick_scan. unfold_monad. cbn -[U16_MAX scan_exits update_metric_value set_exit_state].
  destruct (scan_exits _ _ _ _ _ _ _) as [s|]; [|done].
  unfold found_metrics, scanned_world. destruct (all_exits_blacklisted s);
    cbn -[U16_MAX update_metric_value set_exit_state];
    (destruct (if _ && _ then _ else _) as [a|] eqn:Ea; [|done]);
    (destruct (update_metric_value _ _ _ _) as [[[code vec] exit_map]|]; [|done]);
    cbn -[U16_MAX set_exit_state]; (destruct (current_exit_down s); [|done]); by rewrite ?Ea.
Qed.

(** What the scan of a tick tells. *)
Lemma tick_scan_facts l routes w s :
  tick_scan l routes w = Some s ->
  let m := found_metrics (selected_exit w) s in
  (is_exit_down m = false <-> exit_up l routes w)
  /\ (all_exits_blacklisted s = true <-> tick_candidates l routes w = [])
  /\ (forall a, best_exit m = Some a -> exists met, (a, met) ∈ tick_candidates l routes w /\ met <> U16_MAX)
  /\ (is_exit_down m = true -> forall a, best_exit m = Some a ->
        (a, best_exit_met m) ∈ tick_candidates l routes w /\ best_exit_met m < U16_MAX
        /\ forall b mb, (b, mb) ∈ tick_candidates l routes w -> best_exit_met m <= mb)
  /\ (best_exit m = None -> forall a met, (a, met) ∈ tick_candidates l routes w -> U16_MAX <= met)
  /\ (forall a, best_exit m = Some a -> a ∈ dom (sc_map s)).
Proof.
  intros Hs. apply scan_exits_scanned in Hs as [Hbest Hleast Hup Hblack Hdom]. fold (tick_candidates l routes w) in *.
  cbn -[U16_MAX]. unfold exit_up. fold (is_up) in Hup.
  assert (Hcand : forall a, (if negb (current_exit_down s)
        && (default U16_MAX (selected_id_metric (selected_exit w)) <? sc_best_metric s)
      then selected_id (selected_exit w) else sc_best_exit s) = Some a ->
      exists met, (a, met) ∈ tick_candidates l routes w /\ met <> U16_MAX).
  { intros a. destruct (_ && _) eqn:Ek.
    - apply andb_true_iff in Ek as [Hd _]. apply negb_true_iff, Hup in Hd as (ip & m & -> & Hin & Hm & _).
      intros [= <-]. eauto.
    - intros Ea. rewrite Ea in Hbest. exists (sc_best_metric s). split; [apply Hbest|lia]. }
  split_and!; [exact Hup|exact Hblack|exact Hcand| | |].
  - intros Hd a. rewrite Hd. cbn [negb andb]. intros Ea. rewrite Ea in Hbest. destruct Hbest. auto.
  - destruct (_ && _) eqn:Ek.
    + apply andb_true_iff in Ek as [Hd _]. apply negb_true_iff, Hup in Hd as (ip & m & -> & _). done.
    + intros Ea. rewrite Ea in Hbest. intros a met Hin. rewrite <- Hbest. eauto.
  - intros a (met & Hin & _)%Hcand. rewrite Hdom, elem_of_union, elem_of_list_to_set, list_elem_of_fmap.
    right. by exists (a, met).
Qed.

(** The decision for an exit that is up. *)
Lemma set_exit_state_facts code m vec w w' a :
  cur_exit m = selected_id (selected_exit w) -> set_exit_state code m vec w = Done w' a ->
  selected_id (selected_exit w') = Some a /\ METRIC_VALUES w' = METRIC_VALUES w
  /\ EXIT_TRACKER w' = EXIT_TRACKER w /\ exit_blacklist w' = exit_blacklist w /\ exits w' = exits w
  /\ match code with
     | SwitchExit => best_exit m = Some a /\ selected_id_metric (selected_exit w') = Some (best_exit_met m)
     | _ => selected_id (selected_exit w) = Some a
     end.
Proof.
  unfold set_exit_state. run_monad; intros Hcur Hr; simplify_eq/=; by rewrite <- ?Hcur.
Qed.

Lemma update_metric_value_length m vec exit_map code vec' exit_map' :
  (length vec <= capacity)%nat -> (0 < capacity)%nat ->
  update_metric_value capacity m vec exit_map = Some (code, vec', exit_map') ->
  (length vec' <= capacity)%nat /\ (length vec' <= S (length vec))%nat
  /\ (code = SwitchExit -> length vec = capacity /\ length vec' = 1%nat).
Proof.
  intros Hlen Hcap.
  assert (Htr : forall cur tr met, update_tracking capacity cur tr met vec exit_map = (code, vec', exit_map') ->
    (length vec' <= capacity)%nat /\ (length vec' <= S (length vec))%nat
    /\ (code = SwitchExit -> length vec = capacity /\ length vec' = 1%nat)).
  { intros cur tr met. unfold update_tracking.
    case_bool_decide; destruct (Nat.eqb_spec (length vec) capacity); intros [= <- <- _];
      rewrite ?length_app; simpl; split_and!; try lia; done. }
  unfold update_metric_value. destruct (cur_exit m) as [cur|].
  2: { destruct vec; [|done]. intros [= <- <- <-]. simpl. split_and!; [lia|lia|done]. }
  destruct (best_exit m) as [best|]; [|done]. case_bool_decide.
  { intros [= Hu]. by eapply Htr. }
  destruct (worth_switching_tracking_exit _ _ _) as [[|]|]; [| |done].
  - intros [= <- <- _]. simpl. split_and!; [lia|lia|done].
  - intros [= Hu]. by eapply Htr.
Qed.
End tick.
