(* ===== verification/ExitSwitcherSafety.v ===== *)
(** The properties of the exit switcher: what it selects, when it fails over,
    that it does not flap, what happens to the blacklist, and where it switches
    to an exit that it has not been tracking. *)
From S2P Require Import Prelude Types Text Babel ExitManager ExitSwitcherSpec.
(** * Routes *)

Lemma get_routes_hashmap_keyed rs k r :
  get_routes_hashmap rs !! k = Some r -> net_ip (prefix r) = k /\ r ∈ rs.
Proof.
  unfold get_routes_hashmap. induction rs as [|x rs IH] using rev_ind; [done|].
  rewrite foldl_app. cbn [foldl]. intros [[<- <-]|[_ H]]%lookup_insert_Some; [set_solver|].
  apply IH in H. set_solver.
Qed.

Lemma candidates_spec rs bl l a met :
  (a, met) ∈ candidates (get_routes_hashmap rs) bl l ->
  (a ∉ bl) /\ a ∈ mesh_ip <$> l /\ exists r, get_routes_hashmap rs !! a = Some r /\ metric r = met.
Proof.
  unfold candidates. rewrite list_elem_of_omap. intros (id & Hid & Hc). unfold candidate in Hc.
  destruct (get_routes_hashmap rs !! mesh_ip id) as [r|] eqn:E; [|done].
  case_bool_decide as Hbl; [done|]. injection Hc as <- <-.
  rewrite (proj1 (get_routes_hashmap_keyed _ _ _ E)) in *. split_and!; [done| |eauto].
  apply list_elem_of_fmap. eauto.
Qed.

Section safety.
Context `{P : Profile} (capacity : nat).

(** * What is selected *)

Lemma set_best_exit_done l rs w w' a :
  set_best_exit capacity l (get_routes_hashmap rs) w = Done w' a ->
  exists s code vec exit_map,
    let m := found_metrics (selected_exit w) s in
    tick_scan l (get_routes_hashmap rs) w = Some s
    /\ update_metric_value capacity m (METRIC_VALUES w) (set_last_added_to_zero (sc_map s)) = Some (code, vec, exit_map)
    /\ exit_blacklist w' = exit_blacklist (scanned_world s w) /\ exits w' = exits w
    /\ selected_id (selected_exit w') = Some a
    /\ ((is_exit_down m = true /\ best_exit m = Some a /\ METRIC_VALUES w' = []
         /\ w' = failed_over a (best_exit_met m) exit_map (scanned_world s w))
        \/ (is_exit_down m = false /\ METRIC_VALUES w' = vec
            /\ match code with
               | SwitchExit => best_exit m = Some a /\ selected_id_metric (selected_exit w') = Some (best_exit_met m)
               | _ => selected_id (selected_exit w) = Some a
               end)).
Proof.
  rewrite set_best_exit_run. case_bool_decide; [done|].
  destruct (tick_scan l (get_routes_hashmap rs) w) as [s|]; [|done]. cbv zeta.
  destruct (best_exit _) as [b|] eqn:Eb; [|done].
  destruct (update_metric_value _ _ _ _) as [[[code vec] exit_map]|] eqn:Eu; [|done].
  assert (Hexits : exits (scanned_world s w) = exits w) by (unfold scanned_world; by destruct (all_exits_blacklisted s)).
  destruct (is_exit_down _) eqn:Ed.
  - intros [= <- <-]. exists s, code, vec, exit_map. cbv zeta. rewrite Eu. split_and!; try done. left. by rewrite Ed, Eb.
  - intros Hr.
    assert (Hsel : selected_exit (with_tracking vec exit_map (scanned_world s w)) = selected_exit w)
      by (unfold scanned_world; by destruct (all_exits_blacklisted s)).
    apply set_exit_state_facts in Hr as (Ha & Hvec & _ & Hbl & Hex & Hcode); [|by rewrite Hsel].
    rewrite Hsel in Hcode. exists s, code, vec, exit_map. cbv zeta. rewrite Eu. split_and!; try done.
    + by rewrite Hex, <- Hexits.
    + right. by rewrite Ed.
Qed.

Lemma selected_candidate l rs w w' a :
  set_best_exit capacity l (get_routes_hashmap rs) w = Done w' a ->
  exists met, (a, met) ∈ tick_candidates l (get_routes_hashmap rs) w /\ met <> U16_MAX.
Proof.
  intros (s & code & vec & exit_map & Hs & _ & _ & _ & _ & Hcase)%set_best_exit_done. cbv zeta in Hcase.
  destruct (tick_scan_facts _ _ _ _ Hs) as (Hup & _ & Hbest & _).
  destruct Hcase as [(_ & Hb & _)|(Hd & _ & Hcode)]; [by apply Hbest|].
  apply Hup in Hd as (ip & met & Hcur & Hin & Hmet & _).
  destruct code; try (rewrite Hcode in Hcur; injection Hcur as <-; eauto).
  by apply Hbest, Hcode.
Qed.

(** C24 Whatever the tick decides, the exit it returns is the one that is selected
    afterwards, it is in the list of exits, babel has a route to it of finite
    metric, and it was not on the blacklist. *)
Theorem selected_exit_safe l rs w w' a :
  set_best_exit capacity l (get_routes_hashmap rs) w = Done w' a ->
  selected_id (selected_exit w') = Some a
  /\ a ∈ mesh_ip <$> l
  /\ (exists r, get_routes_hashmap rs !! a = Some r /\ metric r <> U16_MAX)
  /\ (a ∉ blacklisted_exits (exit_blacklist w)).
Proof.
  intros Hr. destruct (selected_candidate _ _ _ _ _ Hr) as (met & Hin & Hmet).
  apply candidates_spec in Hin as (Hbl & Hl & r & Hrt & <-).
  destruct (set_best_exit_done _ _ _ _ _ Hr) as (s & code & vec & exit_map & _ & _ & _ & _ & Hsel & _).
  split_and!; eauto.
Qed.

(** * Never a panic *)

(** Nothing is tracked before an exit is selected. *)
Definition switcher_inv (w : ExitWorld) : Prop :=
  selected_id (selected_exit w) = None -> METRIC_VALUES w = [].

Lemma worth_total vec best exit_map :
  best ∈ dom exit_map -> is_Some (worth_switching_tracking_exit vec best exit_map).
Proof.
  intros [t Ht]%elem_of_dom. unfold worth_switching_tracking_exit. destruct vec as [|v vec]; [eauto|].
  cbn. rewrite Ht. cbn. destruct (_ =? 0); [eauto|]. destruct (_ || _); eauto.
Qed.

Lemma update_total m vec exit_map best :
  (cur_exit m = None -> vec = []) -> best_exit m = Some best -> best ∈ dom exit_map ->
  is_Some (update_metric_value capacity m vec exit_map).
Proof.
  intros Hinit Hb Hdom. unfold update_metric_value. destruct (cur_exit m) as [cur|].
  2: { rewrite Hinit by done. eauto. }
  rewrite Hb. case_bool_decide; [eauto|]. destruct (worth_total vec best exit_map Hdom) as [[|] ->]; eauto.
Qed.

Lemma update_code m cur vec exit_map code vec' exit_map' :
  cur_exit m = Some cur -> update_metric_value capacity m vec exit_map = Some (code, vec', exit_map') ->
  code <> InitialExitSetup /\ vec' <> [].
Proof.
  intros Hc. unfold update_metric_value, update_tracking. rewrite Hc.
  repeat (case_match; try done); intros [= <- <- _]; (split; [done|]); try done; by intros [_ ?]%app_nil.
Qed.

Lemma set_exit_state_total code m vec w ip sm best :
  cur_exit m = Some ip -> selected_id (selected_exit w) = Some ip ->
  selected_id_metric (selected_exit w) = Some sm -> best_exit m = Some best ->
  code <> InitialExitSetup -> vec <> [] ->
  exists w' a, set_exit_state code m vec w = Done w' a /\ selected_id (selected_exit w') <> None.
Proof.
  intros Hc Hs Hm Hb Hcode Hvec. unfold set_exit_state. unfold_monad.
  destruct code; [done| | | | |]; rewrite ?Hc, ?Hs, ?Hm, ?Hb; try by (eexists _, _; split; [reflexivity|]; cbn; rewrite ?Hs).
  destruct (selected_id_degradation (selected_exit w)) as [d|].
  - destruct (checked_sub _ d); eexists _, _; (split; [reflexivity|]); cbn; by rewrite ?Hs.
  - destruct vec as [|v vec]; [done|]. cbn. eexists _, _; (split; [reflexivity|]); done.
Qed.

Lemma set_best_exit_total l rs w :
  overflow_checks = false -> switcher_inv w ->
  exists w', outcome_state (set_best_exit capacity l (get_routes_hashmap rs) w) = Some w' /\ switcher_inv w'.
Proof.
  intros Hov Hinv. rewrite set_best_exit_run. case_bool_decide; [by exists w|].
  destruct (scan_exits_total (get_routes_hashmap rs) (blacklisted_exits (exit_blacklist w))
    (selected_id (selected_exit w)) (tracking_exit (selected_exit w))
    (default U16_MAX (selected_id_metric (selected_exit w))) l (scan_start (EXIT_TRACKER w)) Hov) as [s Hs].
  assert (Hts : tick_scan l (get_routes_hashmap rs) w = Some s) by exact Hs. rewrite Hts. cbv zeta.
  destruct (tick_scan_facts _ _ _ _ Hts) as (Hup & _ & _ & _ & _ & Hdom). cbv zeta in *.
  assert (Hsel : forall v e, selected_exit (with_tracking v e (scanned_world s w)) = selected_exit w)
    by (intros; unfold scanned_world; by destruct (all_exits_blacklisted s)).
  destruct (best_exit (found_metrics _ s)) as [b|] eqn:Eb.
  2: { eexists. split; [reflexivity|]. unfold switcher_inv, scanned_world in *. by destruct (all_exits_blacklisted s). }
  destruct (update_total (found_metrics (selected_exit w) s) (METRIC_VALUES w) (set_last_added_to_zero (sc_map s)) b)
    as [[[code vec] exit_map] Hu]; [exact Hinv|done|by unfold set_last_added_to_zero; rewrite dom_fmap_L; apply Hdom|].
  rewrite Hu. destruct (is_exit_down (found_metrics _ s)) eqn:Ed; [by eexists|].
  destruct (proj1 Hup eq_refl) as (ip & met & Hcur & _ & _ & Hmet).
  destruct (update_code (found_metrics (selected_exit w) s) ip _ _ _ _ _ Hcur Hu) as [Hcode Hvec].
  destruct (selected_id_metric (selected_exit w)) as [sm|] eqn:Esm; [|done].
  destruct (set_exit_state_total code (found_metrics (selected_exit w) s) vec
    (with_tracking vec exit_map (scanned_world s w)) ip sm b) as (w' & a & -> & Hne); try done; try by rewrite Hsel.
  exists w'. split; [done|]. intros Hnone. by destruct Hne.
Qed.

(** The switcher never panics (the builds that are shipped do not check
    overflow): from every state that tracks nothing before an exit is selected
    a tick returns, and the invariant holds again. *)
Theorem switcher_never_panics l rs w :
  overflow_checks = false -> switcher_inv w ->
  exists w', outcome_state (set_best_exit capacity l (get_routes_hashmap rs) w) = Some w' /\ switcher_inv w'.
Proof. apply set_best_exit_total. Qed.

(** * Failing over *)

(** Failover: when the current exit is not up (none is selected, it is
    blacklisted, or no route of finite metric leads to it) and some exit of the
    list can be used, the tick selects one, at once: a candidate of least
    metric, which becomes the selected and the tracked exit with that metric,
    and everything tracked so far is dropped. *)
Theorem failover_to_best l rs w :
  overflow_checks = false -> switcher_inv w ->
  ~ exit_up l (get_routes_hashmap rs) w ->
  (exists b mb, (b, mb) ∈ tick_candidates l (get_routes_hashmap rs) w /\ mb < U16_MAX) ->
  exists w' a met,
    set_best_exit capacity l (get_routes_hashmap rs) w = Done w' a
    /\ (a, met) ∈ tick_candidates l (get_routes_hashmap rs) w
    /\ (forall b mb, (b, mb) ∈ tick_candidates l (get_routes_hashmap rs) w -> met <= mb)
    /\ selected_exit w' = {| selected_id := Some a; selected_id_metric := Some met;
                             selected_id_degradation := None; tracking_exit := Some a |}
    /\ METRIC_VALUES w' = []
    /\ (forall ip t, EXIT_TRACKER w' !! ip = Some t -> t = {| last_added_metric := 0; running_total := 0; ticker_len := 0 |}).
Proof.
  intros Hov Hinv Hdown (b & mb & Hb & Hmb). rewrite set_best_exit_run. case_bool_decide as Hempty.
  { exfalso. apply candidates_spec in Hb as (_ & _ & r & Hr & _). by rewrite Hempty in Hr. }
  destruct (scan_exits_total (get_routes_hashmap rs) (blacklisted_exits (exit_blacklist w))
    (selected_id (selected_exit w)) (tracking_exit (selected_exit w))
    (default U16_MAX (selected_id_metric (selected_exit w))) l (scan_start (EXIT_TRACKER w)) Hov) as [s Hs].
  assert (Hts : tick_scan l (get_routes_hashmap rs) w = Some s) by exact Hs. rewrite Hts. cbv zeta.
  destruct (tick_scan_facts _ _ _ _ Hts) as (Hup & _ & _ & Hleast & Hnone & Hdom). cbv zeta in *.
  assert (Ed : is_exit_down (found_metrics (selected_exit w) s) = true).
  { destruct (is_exit_down _); [done|]. by destruct Hdown; apply Hup. }
  destruct (best_exit (found_metrics _ s)) as [a|] eqn:Ea; [|specialize (Hnone eq_refl _ _ Hb); lia].
  destruct (update_total (found_metrics (selected_exit w) s) (METRIC_VALUES w) (set_last_added_to_zero (sc_map s)) a)
    as [[[code vec] exit_map] Hu]; [exact Hinv|done|by unfold set_last_added_to_zero; rewrite dom_fmap_L; apply Hdom|].
  rewrite Hu, Ed. destruct (Hleast Ed a eq_refl) as (Hin & _ & Hle).
  eexists _, _, _. split_and!; [reflexivity|exact Hin|exact Hle|reflexivity|reflexivity|].
  intros ip t. cbn. unfold reset_exit_tracking. rewrite lookup_fmap. intros (t' & _ & <-)%fmap_Some. done.
Qed.

(** * No flapping *)

(** What can happen between ticks. *)
Inductive switch_event :=
| Tick (l : list Identity) (rs : list Route)
| Select (ip : IpAddr)
| Strike (ip : IpAddr) (warning : WarningType)
| Answered (ip : IpAddr).
Definition switch_step (e : switch_event) (w : ExitWorld) : option ExitWorld :=
  match e with
  | Tick l rs => outcome_state (set_best_exit capacity l (get_routes_hashmap rs) w)
  | Select ip => Some (default w (select_exit ip w))
  | Strike ip warning => Some (with_blacklist (blacklist_strike_ip ip warning (exit_blacklist w)) w)
  | Answered ip => Some (with_blacklist (reset_blacklist_warnings ip (exit_blacklist w)) w)
  end.
Fixpoint switch_run (es : list switch_event) (w : ExitWorld) : option ExitWorld :=
  match es with
  | [] => Some w
  | e :: es => match switch_step e w with Some w => switch_run es w | None => None end
  end.
Definition is_tick (e : switch_event) : bool := match e with Tick _ _ => true | _ => false end.
Definition count_ticks (es : list switch_event) : nat := length (filter (fun e => is_tick e = true) es).

(** A switch away from an exit that is up. *)
Definition voluntary_switch (l : list Identity) (rs : list Route) (w w' : ExitWorld) : Prop :=
  exit_up l (get_routes_hashmap rs) w /\
  exists a, set_best_exit capacity l (get_routes_hashmap rs) w = Done w' a /\ selected_id (selected_exit w) <> Some a.

Hypothesis capacity_pos : (0 < capacity)%nat.

Lemma tick_length l rs w w' :
  (length (METRIC_VALUES w) <= capacity)%nat ->
  outcome_state (set_best_exit capacity l (get_routes_hashmap rs) w) = Some w' ->
  (length (METRIC_VALUES w') <= capacity)%nat
  /\ (length (METRIC_VALUES w') <= S (length (METRIC_VALUES w)))%nat.
Proof.
  intros Hlen. destruct (set_best_exit capacity l (get_routes_hashmap rs) w) as [w1 a|w1 e|] eqn:E; [| |done].
  - intros [= <-]. apply set_best_exit_done in E as (s & code & vec & exit_map & _ & Hu & _ & _ & _ & Hcase).
    apply update_metric_value_length in Hu as (H1 & H2 & _); [|done|done].
    destruct Hcase as [(_ & _ & -> & _)|(_ & -> & _)]; simpl; lia.
  - intros [= <-]. rewrite set_best_exit_run in E. case_bool_decide; [injection E as <- _; lia|].
    destruct (tick_scan _ _ _) as [s|]; [|done]. cbv zeta in E. destruct (best_exit _).
    + destruct (update_metric_value _ _ _ _) as [[[code vec] exit_map]|]; [|done].
      destruct (is_exit_down _); [done|]. by unfold set_exit_state in E; run_monad.
    + injection E as <- _. unfold scanned_world. destruct (all_exits_blacklisted s); simpl; lia.
Qed.

Lemma step_length e w w' :
  (length (METRIC_VALUES w) <= capacity)%nat -> switch_step e w = Some w' ->
  (length (METRIC_VALUES w') <= capacity)%nat
  /\ (length (METRIC_VALUES w') <= (if is_tick e then 1 else 0) + length (METRIC_VALUES w))%nat.
Proof.
  intros Hlen. destruct e as [l rs|ip|ip wt|ip]; cbn [switch_step is_tick].
  - by apply tick_length.
  - intros [= <-]. unfold select_exit. destruct (exits w !! ip); simpl; lia.
  - intros [= <-]. simpl. lia.
  - intros [= <-]. simpl. lia.
Qed.

Lemma run_length es w w' :
  (length (METRIC_VALUES w) <= capacity)%nat -> switch_run es w = Some w' ->
  (length (METRIC_VALUES w') <= capacity)%nat
  /\ (length (METRIC_VALUES w') <= count_ticks es + length (METRIC_VALUES w))%nat.
Proof.
  revert w. induction es as [|e es IH]; intros w Hlen; cbn [switch_run]; [intros [= <-]; cbn; lia|].
  destruct (switch_step e w) as [w1|] eqn:E; [|done]. intros Hr.
  destruct (step_length _ _ _ Hlen E) as [H1 H2]. destruct (IH _ H1 Hr) as [H3 H4]. split; [done|].
  unfold count_ticks in *. rewrite filter_cons. destruct (is_tick e) eqn:Et; [rewrite decide_True by done|
    rewrite decide_False by done]; simpl; lia.
Qed.

Lemma voluntary_switch_length l rs w w' :
  (length (METRIC_VALUES w) <= capacity)%nat -> voluntary_switch l rs w w' ->
  length (METRIC_VALUES w) = capacity /\ length (METRIC_VALUES w') = 1%nat.
Proof.
  intros Hlen (Hup & a & Hr & Hne).
  apply set_best_exit_done in Hr as (s & code & vec & exit_map & Hs & Hu & _ & _ & _ & Hcase). cbv zeta in *.
  destruct (tick_scan_facts _ _ _ _ Hs) as (Hd & _). apply Hd in Hup. rewrite Hup in Hcase.
  destruct Hcase as [(? & _)|(_ & -> & Hcode)]; [done|].
  apply update_metric_value_length in Hu as (_ & _ & Hsw); [|done|done]. destruct code; try done. by apply Hsw.
Qed.
End safety.

(** No flapping: between two switches away from exits that are up there are at
    least 180 ticks, that is fifteen minutes, whatever the metrics do and
    whatever else happens in between: selections from the dashboard, strikes,
    failovers. *)
Theorem no_flapping `{P : Profile} capacity l rs w w1 es w2 l' rs' w3 :
  (METRIC_ENTRIES <= capacity)%nat -> (length (METRIC_VALUES w) <= capacity)%nat ->
  voluntary_switch capacity l rs w w1 -> switch_run capacity es w1 = Some w2 ->
  voluntary_switch capacity l' rs' w2 w3 ->
  (180 <= S (count_ticks es))%nat.
Proof.
  intros Hcap Hlen Hsw Hrun Hsw'. assert (Hpos : (0 < capacity)%nat) by (unfold METRIC_ENTRIES in Hcap; lia).
  destruct (voluntary_switch_length capacity Hpos _ _ _ _ Hlen Hsw) as [_ H1].
  destruct (run_length capacity Hpos es w1 w2) as [H2 H3]; [lia|done|].
  destruct (voluntary_switch_length capacity Hpos _ _ _ _ H2 Hsw') as [H4 _]. unfold METRIC_ENTRIES in Hcap. lia.
Qed.

(** * Switching to an exit that was not tracked *)

(** When the fifteen minutes of the tracked exit are full, the switch goes to
    whatever exit is the best in that tick: if another exit is better just then,
    though not by half, that one is selected and the tracked exit, which has
    been the best throughout, is not. *)
Theorem switch_to_untracked `{P : Profile} capacity l rs w s b t :
  get_routes_hashmap rs <> ∅ -> tick_scan l (get_routes_hashmap rs) w = Some s ->
  exit_up l (get_routes_hashmap rs) w ->
  best_exit (found_metrics (selected_exit w) s) = Some b ->
  tracking_exit (selected_exit w) = Some t -> b <> t -> selected_id (selected_exit w) <> Some t ->
  length (METRIC_VALUES w) = capacity ->
  worth_switching_tracking_exit (METRIC_VALUES w) b (set_last_added_to_zero (sc_map s)) = Some false ->
  exists w', set_best_exit capacity l (get_routes_hashmap rs) w = Done w' b
    /\ selected_id (selected_exit w') = Some b /\ tracking_exit (selected_exit w') = Some b.
Proof.
  intros Hne Hs Hup Hb Ht Hbt Hct Hlen Hworth. rewrite set_best_exit_run, bool_decide_eq_false_2 by done.
  rewrite Hs. cbv zeta. rewrite Hb. destruct (tick_scan_facts _ _ _ _ Hs) as (Hd & _).
  pose proof (proj2 Hd Hup) as Hdown. destruct Hup as (ip & met & Hcur & _).
  unfold update_metric_value. cbn [cur_exit found_metrics]. rewrite Hcur, Hb. cbn [em_tracking_exit found_metrics].
  rewrite Ht. cbn [default]. rewrite bool_decide_eq_false_2 by done. rewrite Hworth.
  unfold update_tracking. rewrite Hlen, Nat.eqb_refl, (bool_decide_eq_false_2 (ip = t)) by congruence. rewrite Hdown.
  unfold set_exit_state. unfold_monad. rewrite Hb. by eexists.
Qed.

(** * The blacklist *)

(** A tick leaves the blacklist alone unless no exit of the list is a candidate,
    and then drops all of it, the counted strikes too.  That is the case when
    every exit is blacklisted, but as well when the list is empty or babel has
    no route to any exit of it. *)
Theorem blacklist_after_tick `{P : Profile} capacity l rs w w' :
  get_routes_hashmap rs <> ∅ ->
  outcome_state (set_best_exit capacity l (get_routes_hashmap rs) w) = Some w' ->
  exit_blacklist w' = if bool_decide (tick_candidates l (get_routes_hashmap rs) w = [])
                      then reset_exit_blacklist else exit_blacklist w.
Proof.
  intros Hne. rewrite set_best_exit_run, bool_decide_eq_false_2 by done.
  destruct (tick_scan l (get_routes_hashmap rs) w) as [s|] eqn:Hs; [|done]. cbv zeta.
  destruct (tick_scan_facts _ _ _ _ Hs) as (_ & Hall & _).
  assert (Hbl : exit_blacklist (scanned_world s w) = if bool_decide (tick_candidates l (get_routes_hashmap rs) w = [])
                      then reset_exit_blacklist else exit_blacklist w).
  { unfold scanned_world. case_bool_decide as Hc.
    - by rewrite (proj2 Hall Hc).
    - destruct (all_exits_blacklisted s); [by destruct Hc; apply Hall|done]. }
  destruct (best_exit _) as [b|]; [|by intros [= <-]].
  destruct (update_metric_value _ _ _ _) as [[[code vec] exit_map]|]; [|done].
  destruct (is_exit_down _); [by intros [= <-]|].
  destruct (set_exit_state _ _ _ _) as [w1 a|w1 e|] eqn:Hst; [| |done]; intros [= <-]; rewrite <- Hbl.
  - by unfold set_exit_state in Hst; run_monad.
  - by unfold set_exit_state in Hst; run_monad.
Qed.

Definition strikes (n : nat) (ip : IpAddr) (b : ExitBlacklist) : ExitBlacklist :=
  Nat.iter n (blacklist_strike_ip ip SoftWarning) b.

Lemma strikes_S n ip b : strikes (S n) ip b = blacklist_strike_ip ip SoftWarning (strikes n ip b).
Proof. done. Qed.

Lemma strikes_count n ip b :
  potential_blacklists b !! ip = None -> (0 < n <= 100)%nat ->
  potential_blacklists (strikes n ip b) !! ip = Some (Z.of_nat n)
  /\ blacklisted_exits (strikes n ip b) = blacklisted_exits b.
Proof.
  intros Hb. induction n as [|n IH]; intros Hn; [lia|].
  rewrite strikes_S. destruct (decide (n = 0)%nat) as [->|Hn0].
  { cbn. rewrite Hb. cbn. by rewrite lookup_insert_eq. }
  destruct IH as [Hc Hbl]; [lia|]. unfold blacklist_strike_ip. rewrite Hc.
  rewrite (proj2 (Z.leb_gt MAX_BLACKLIST_STRIKES _)) by (unfold MAX_BLACKLIST_STRIKES; lia). cbn.
  rewrite lookup_insert_eq. split; [f_equal; lia|done].
Qed.

(** An exit that fails to answer is blacklisted with its hundred and first
    strike: a hundred strikes without an answer in between only count up, one
    answer forgets them all, and an answer that does not decrypt blacklists at
    once. *)
Theorem strikes_blacklist ip b :
  potential_blacklists b !! ip = None -> ip ∉ blacklisted_exits b ->
  (forall n, (n <= 100)%nat -> ip ∉ blacklisted_exits (strikes n ip b))
  /\ ip ∈ blacklisted_exits (strikes 101 ip b)
  /\ (forall n, potential_blacklists (reset_blacklist_warnings ip (strikes n ip b)) !! ip = None)
  /\ (forall A, ip ∈ blacklisted_exits (send_exit_request (A := A) ip AnswerUndecryptable b).1).
Proof.
  intros Hb Hbl. split_and!.
  - intros n Hn. destruct (decide (n = 0)%nat) as [->|]; [done|].
    destruct (strikes_count n ip b Hb) as [_ ->]; [lia|done].
  - destruct (strikes_count 100 ip b Hb) as [Hc _]; [lia|]. rewrite strikes_S. revert Hc.
    generalize (strikes 100 ip b). intros x Hc. unfold blacklist_strike_ip. rewrite Hc. simpl. set_solver.
  - intros n. cbn. apply lookup_delete_eq.
  - intros A. cbn. set_solver.
Qed.

(** An exit chosen on the dashboard is held for one tick: the selection has no
    metric, so the next tick takes the chosen exit for down and selects the
    candidate of least metric, whichever that is. *)
Theorem selection_overridden `{P : Profile} capacity l rs w ip w1 w2 a :
  select_exit ip w = Some w1 -> set_best_exit capacity l (get_routes_hashmap rs) w1 = Done w2 a ->
  exists met, (a, met) ∈ tick_candidates l (get_routes_hashmap rs) w
    /\ forall b mb, (b, mb) ∈ tick_candidates l (get_routes_hashmap rs) w -> met <= mb.
Proof.
  unfold select_exit. destruct (exits w !! ip); [|done]. intros [= <-] Hr.
  apply set_best_exit_done in Hr as (s & code & vec & exit_map & Hs & _ & _ & _ & _ & Hcase). cbv zeta in *.
  destruct (tick_scan_facts _ _ _ _ Hs) as (Hup & _ & _ & Hleast & _).
  destruct Hcase as [(Hd & Hb & _)|(Hd & _)].
  - destruct (Hleast Hd a Hb) as (Hin & _ & Hle). eauto.
  - apply Hup in Hd as (? & ? & _ & _ & _ & Hm). by destruct Hm.
Qed.

(** * Concrete exits

    Demonstrations of the exit switcher's properties on three exits. *)

#[local] Existing Instance release_profile.

Definition exit_ident (n : Z) : Identity := {|
  mesh_ip := V6 n; eth_address := n; wg_public_key := n; nickname := None |}.
Definition exit_route (n met : Z) : Route := {|
  rt_id := []; rt_iface := []; xroute := false; installed := true; neigh_ip := V6 9; prefix := NetV6 n 128;
  metric := met; refmetric := 0; full_path_rtt := 0; rt_price := 0; rt_fee := 0 |}.
Definition demo_exits : list Identity := [exit_ident 1; exit_ident 2; exit_ident 3].
Definition demo_server (n : Z) : ExitServer := {|
  exit_id := exit_ident n; registration_port := 4875; wg_exit_listen_port := 59998; info := New |}.

(** Connected to exit 1 and tracking exit 2 for fifteen minutes. *)
Definition tracking_world : ExitWorld := {|
  selected_exit := {| selected_id := Some (V6 1); selected_id_metric := Some 1000;
                      selected_id_degradation := None; tracking_exit := Some (V6 2) |};
  exit_blacklist := {| blacklisted_exits := {[ V6 7 ]}; potential_blacklists := {[ V6 3 := 5 ]} |};
  METRIC_VALUES := repeat 500 180;
  EXIT_TRACKER := ∅;
  exits := {[ V6 1 := demo_server 1; V6 2 := demo_server 2 ]} |}.
Definition world_of (o : outcome ExitWorld RitaClientError IpAddr) : ExitWorld :=
  default tracking_world (outcome_state o).

Definition routes12 : list Route := [exit_route 1 1000; exit_route 2 500].
Definition routes21 : list Route := [exit_route 1 100; exit_route 2 800].
Definition after_switch : ExitWorld := world_of (set_best_exit 180 demo_exits (get_routes_hashmap routes12) tracking_world).
Lemma first_switch :
  set_best_exit 180 demo_exits (get_routes_hashmap routes12) tracking_world = Done after_switch (V6 2).
Proof. vm_compute. reflexivity. Qed.

Lemma selected_exit_safe_witness :
  selected_id (selected_exit after_switch) = Some (V6 2)
  /\ V6 2 ∈ mesh_ip <$> demo_exits
  /\ (exists r, get_routes_hashmap routes12 !! V6 2 = Some r /\ metric r <> U16_MAX)
  /\ (V6 2 ∉ blacklisted_exits (exit_blacklist tracking_world)).
Proof. exact (selected_exit_safe 180 _ _ _ _ _ first_switch). Defined.

Lemma switcher_never_panics_witness :
  exists w', outcome_state (set_best_exit 180 demo_exits (get_routes_hashmap routes12) tracking_world) = Some w'
             /\ switcher_inv w'.
Proof. apply switcher_never_panics; [reflexivity|discriminate]. Defined.

(** Exit 1 is lost. *)
Definition routes_lost : list Route := [exit_route 1 U16_MAX; exit_route 2 500; exit_route 3 480].
Lemma candidates_lost :
  tick_candidates demo_exits (get_routes_hashmap routes_lost) tracking_world
  = [(V6 1, U16_MAX); (V6 2, 500); (V6 3, 480)].
Proof. vm_compute. reflexivity. Qed.

Lemma failover_to_best_witness :
  exists w' a met,
    set_best_exit 180 demo_exits (get_routes_hashmap routes_lost) tracking_world = Done w' a
    /\ (a, met) ∈ tick_candidates demo_exits (get_routes_hashmap routes_lost) tracking_world
    /\ (forall b mb, (b, mb) ∈ tick_candidates demo_exits (get_routes_hashmap routes_lost) tracking_world -> met <= mb)
    /\ selected_exit w' = {| selected_id := Some a; selected_id_metric := Some met;
                             selected_id_degradation := None; tracking_exit := Some a |}
    /\ METRIC_VALUES w' = []
    /\ (forall ip t, EXIT_TRACKER w' !! ip = Some t -> t = {| last_added_metric := 0; running_total := 0; ticker_len := 0 |}).
Proof.
  apply failover_to_best; [reflexivity|discriminate| |].
  - intros (ip & m & [= <-] & Hin & Hm & _). rewrite candidates_lost in Hin.
    apply elem_of_cons in Hin as [[= ->]|[Hin|[Hin|Hin%elem_of_nil]%elem_of_cons]%elem_of_cons]; [|discriminate..|done].
    by destruct Hm.
  - exists (V6 2), 500. rewrite candidates_lost. split; [|reflexivity]. right. left.
Defined.

(** Two switches: exit 2 first, and when exit 1 has become better back again. *)
Definition back_ticks : list switch_event := repeat (Tick demo_exits routes21) 180.
Definition before_back : ExitWorld := default tracking_world (switch_run 180 back_ticks after_switch).
Definition after_back : ExitWorld := world_of (set_best_exit 180 demo_exits (get_routes_hashmap routes21) before_back).
Lemma back_run : switch_run 180 back_ticks after_switch = Some before_back.
Proof. vm_compute. reflexivity. Qed.
Lemma second_switch :
  set_best_exit 180 demo_exits (get_routes_hashmap routes21) before_back = Done after_back (V6 1).
Proof. vm_compute. reflexivity. Qed.
Lemma up_by l rs w ip m :
  selected_id (selected_exit w) = Some ip ->
  bool_decide ((ip, m) ∈ tick_candidates l (get_routes_hashmap rs) w) = true ->
  (m =? U16_MAX) || (default U16_MAX (selected_id_metric (selected_exit w)) =? U16_MAX) = false ->
  exit_up l (get_routes_hashmap rs) w.
Proof.
  intros Hs Hin%bool_decide_eq_true Hm. apply orb_false_iff in Hm as [H1%Z.eqb_neq H2%Z.eqb_neq]. by exists ip, m.
Qed.
Lemma first_voluntary : voluntary_switch 180 demo_exits routes12 tracking_world after_switch.
Proof.
  split; [|exists (V6 2); split; [exact first_switch|done]].
  apply (up_by _ _ _ (V6 1) 1000); vm_compute; reflexivity.
Qed.
Lemma second_voluntary : voluntary_switch 180 demo_exits routes21 before_back after_back.
Proof.
  split; [|exists (V6 1); split; [exact second_switch|vm_compute; discriminate]].
  apply (up_by _ _ _ (V6 2) 800); vm_compute; reflexivity.
Qed.

Lemma no_flapping_witness : (180 <= S (count_ticks back_ticks))%nat.
Proof.
  apply (no_flapping 180 demo_exits routes12 tracking_world after_switch back_ticks before_back demo_exits routes21
           after_back); [unfold METRIC_ENTRIES; lia|vm_compute; lia|exact first_voluntary|exact back_run
                        |exact second_voluntary].
Defined.

(** Exit 3 is a little better than the tracked exit 2 in the tick of the switch. *)
Definition routes_third : list Route := [exit_route 1 1000; exit_route 2 500; exit_route 3 480].
Definition third_scan : scan :=
  default (scan_start ∅) (tick_scan demo_exits (get_routes_hashmap routes_third) tracking_world).
Lemma third_scan_eq : tick_scan demo_exits (get_routes_hashmap routes_third) tracking_world = Some third_scan.
Proof. vm_compute. reflexivity. Qed.
Lemma third_up : exit_up demo_exits (get_routes_hashmap routes_third) tracking_world.
Proof. apply (up_by _ _ _ (V6 1) 1000); vm_compute; reflexivity. Qed.
Lemma third_not_worth :
  worth_switching_tracking_exit (METRIC_VALUES tracking_world) (V6 3) (set_last_added_to_zero (sc_map third_scan))
  = Some false.
Proof. vm_compute. reflexivity. Qed.
Lemma third_best : best_exit (found_metrics (selected_exit tracking_world) third_scan) = Some (V6 3).
Proof. vm_compute. reflexivity. Qed.

Lemma switch_to_untracked_witness :
  exists w', set_best_exit 180 demo_exits (get_routes_hashmap routes_third) tracking_world = Done w' (V6 3)
    /\ selected_id (selected_exit w') = Some (V6 3) /\ tracking_exit (selected_exit w') = Some (V6 3).
Proof.
  apply (switch_to_untracked 180 demo_exits routes_third tracking_world third_scan (V6 3) (V6 2));
    [vm_compute; discriminate|exact third_scan_eq|exact third_up|exact third_best|reflexivity|discriminate
    |discriminate|reflexivity|exact third_not_worth].
Defined.

(** Babel knows a route, but to none of the exits: the blacklist is gone. *)
Definition routes_elsewhere : list Route := [exit_route 40 10].
Definition after_elsewhere : ExitWorld :=
  world_of (set_best_exit 180 demo_exits (get_routes_hashmap routes_elsewhere) tracking_world).
Lemma elsewhere_run :
  outcome_state (set_best_exit 180 demo_exits (get_routes_hashmap routes_elsewhere) tracking_world)
  = Some after_elsewhere.
Proof. vm_compute. reflexivity. Qed.
Lemma elsewhere_none : tick_candidates demo_exits (get_routes_hashmap routes_elsewhere) tracking_world = [].
Proof. vm_compute. reflexivity. Qed.

Lemma blacklist_after_tick_witness : exit_blacklist after_elsewhere = reset_exit_blacklist.
Proof.
  rewrite (blacklist_after_tick 180 demo_exits routes_elsewhere tracking_world after_elsewhere);
    [by rewrite elsewhere_none|vm_compute; discriminate|exact elsewhere_run].
Defined.

Lemma strikes_blacklist_witness :
  V6 4 ∈ blacklisted_exits (strikes 101 (V6 4) reset_exit_blacklist).
Proof.
  exact (proj1 (proj2 (strikes_blacklist (V6 4) reset_exit_blacklist eq_refl (not_elem_of_empty (V6 4))))).
Defined.

Definition chosen : ExitWorld := default tracking_world (select_exit (V6 2) tracking_world).
Definition after_chosen : ExitWorld := world_of (set_best_exit 180 demo_exits (get_routes_hashmap routes_third) chosen).
Lemma chosen_run :
  set_best_exit 180 demo_exits (get_routes_hashmap routes_third) chosen = Done after_chosen (V6 3).
Proof. vm_compute. reflexivity. Qed.
Lemma selection_overridden_witness :
  exists met, (V6 3, met) ∈ tick_candidates demo_exits (get_routes_hashmap routes_third) tracking_world
    /\ forall b mb, (b, mb) ∈ tick_candidates demo_exits (get_routes_hashmap routes_third) tracking_world -> met <= mb.
Proof.
  apply (selection_overridden 180 demo_exits routes_third tracking_world (V6 2) chosen after_chosen (V6 3));
    [reflexivity|exact chosen_run].
Defined.
