(* ===== verification/ExitLoop.v ===== *)
(** The tick of the client's exit manager (rita_client/src/exit_manager/exit_loop.rs,
    with [has_exit_changed], [linux_setup_exit_tunnel] and the nat helpers of
    mod.rs and the clock of time_sync.rs): it connects to the selected exit,
    lets the switcher choose, sets up the tunnel and the nat rules, runs the
    billing and asks the exits for their state.  What it does to the kernel is a
    list of actions; what it hears from outside is the view of the tick. *)
From S2P Require Import Prelude Types Text Babel ExitManager ExitSwitcherSpec ExitSwitcherSafety.
Module ExitLoop.

(** * State, view and actions *)

Definition STATUS_REQUEST_QUERY : Z := secs 600.

(** [ExitManager], with the fields of [LastExitStates]. *)
Record ManagerState := {
  nat_setup : bool;
  cluster_exits : list ExitIdentity;
  last_exit : option IpAddr;
  last_exit_details : option ExitState;
  last_status_request : option Z;
}.
Definition manager_default : ManagerState := {|
  nat_setup := false; cluster_exits := []; last_exit := None; last_exit_details := None;
  last_status_request := None |}.
Definition with_nat (b : bool) (em : ManagerState) : ManagerState := {|
  nat_setup := b; cluster_exits := cluster_exits em; last_exit := last_exit em;
  last_exit_details := last_exit_details em; last_status_request := last_status_request em |}.

(** [set_exit_list]. *)
Definition set_exit_list (l : list ExitIdentity) (em : ManagerState) : ManagerState * bool :=
  match l with
  | [] => (em, false)
  | _ => ({| nat_setup := nat_setup em; cluster_exits := l; last_exit := last_exit em;
             last_exit_details := last_exit_details em; last_status_request := last_status_request em |}, true)
  end.
Definition set_last_states (a : IpAddr) (i : ExitState) (em : ManagerState) : ManagerState := {|
  nat_setup := nat_setup em; cluster_exits := cluster_exits em; last_exit := Some a;
  last_exit_details := Some i; last_status_request := last_status_request em |}.

Inductive exit_action :=
| SetupTunnel (endpoint : IpAddr) (port pubkey : Z) (local_ip : IpAddr) (mask : Z) (server_ip : IpAddr)
| RemoveNat
| RestoreNat
| QueryDebts (id : Identity) (price : Z) (routes : list Route) (addr : IpAddr) (port : Z)
| SetupSlaac (n : IpNetwork).

(** The default route: only the interface of it is read. *)
Definition DefaultRoute : Type := text.
Definition to_lower (c : ascii) : ascii :=
  let n := Ascii.nat_of_ascii c in
  if Nat.leb 65 n && Nat.leb n 90 then Ascii.ascii_of_nat (n + 32) else c.
Definition is_althea_default_route (nic : DefaultRoute) : bool := contains (lit "wg_exit") (to_lower <$> nic).
Definition correct_default_route (input : option DefaultRoute) : bool :=
  match input with Some v => is_althea_default_route v | None => false end.

Record tick_view := {
  tv_settings : client_settings;
  tv_free_tier : bool;
  tv_routes : option (list Route);
  tv_exit_list : IpAddr -> exit_answer (list ExitIdentity);
  tv_default_route : option (option DefaultRoute);
  tv_kernel_ok : bool;
  tv_low_balance : bool;
  tv_routes_billing : option (list Route);
  tv_status : IpAddr -> exit_answer ExitState;
  tv_now : Z;
}.

Definition has_exit_changed (last : option IpAddr) (last_details : option ExitState)
    (selected : option IpAddr) (cluster : ExitServer) : bool :=
  let instance_has_changed :=
    negb (match last, selected with Some a, Some b => bool_decide (a = b) | _, _ => false end) in
  let exit_reg_has_changed :=
    negb (match last_details with Some d => bool_decide (d = info cluster) | None => false end) in
  instance_has_changed || exit_reg_has_changed.

(** [get_selected_exit_server] of heartbeat/mod.rs. *)
Definition get_selected_exit_server (w : ExitWorld) : option ExitServer :=
  match get_current_exit w with Some ip => exits w !! ip | None => None end.

(** [None] is the panic of either [expect]. *)
Definition linux_setup_exit_tunnel (kernel_ok : bool) (general : ExitDetails) (ours : ExitClientDetails)
    (w : ExitWorld) : option exit_action :=
  if kernel_ok then
    match get_selected_exit_server w with
    | None => None
    | Some selected =>
        Some (SetupTunnel (mesh_ip (exit_id selected)) (wg_exit_listen_port selected)
                (wg_public_key (exit_id selected)) (client_internal_ip ours) (netmask general)
                (server_internal_ip general))
    end
  else None.

(** The match on the balance. *)
Definition nat_step (low_balance client_can_use_free_tier : bool) (em : ManagerState)
    : ManagerState * list exit_action :=
  match low_balance, client_can_use_free_tier, nat_setup em with
  | true, false, true => (with_nat false em, [RemoveNat])
  | false, _, false => (with_nat true em, [RestoreNat])
  | true, true, false => (with_nat true em, [RestoreNat])
  | _, _, _ => (em, [])
  end.

(** * The tick *)

Section tick.
Context `{P : Profile} (capacity : nat).

(** The branch for a selected exit that has details, once the switcher has
    chosen [a].  The flag says that the rest of the tick is left out. *)
Definition after_selection (v : tick_view) (last : option IpAddr) (last_details : option ExitState)
    (exit : ExitServer) (general : ExitDetails) (a : IpAddr) (w : ExitWorld) (em : ManagerState)
    : option (ManagerState * list exit_action * bool) :=
  let em := set_last_states a (info exit) em in
  let exit_has_changed := has_exit_changed last last_details (Some a) exit in
  match tv_default_route v with
  | None => Some (em, [], true)
  | Some default_route =>
      let correct := correct_default_route default_route in
      match (match our_details (info exit), exit_has_changed, correct with
             | Some ours, true, _ | Some ours, false, false =>
                 match linux_setup_exit_tunnel (tv_kernel_ok v) general ours w with
                 | Some act => Some (with_nat true em, [act])
                 | None => None
                 end
             | _, _, _ => Some (em, [])
             end) with
      | None => None
      | Some (em, setup) =>
          let '(em, nat) := nat_step (tv_low_balance v) (tv_free_tier v) em in
          match our_details (info exit) with
          | Some _ =>
              match tv_routes_billing v with
              | None => Some (em, setup ++ nat, true)
              | Some routes =>
                  Some (em, setup ++ nat ++ [QueryDebts (exit_id exit) (exit_price general) routes
                                               (server_internal_ip general) (registration_port exit)], false)
              end
          | None => Some (em, setup ++ nat, false)
          end
      end
  end.

Definition connect_current (v : tick_view) (w : ExitWorld) (em : ManagerState)
    : option (ExitWorld * ManagerState * list exit_action * bool) :=
  match get_current_exit w with
  | None => Some (w, em, [], false)
  | Some current_exit_id =>
      match exits w !! current_exit_id with
      | None => Some (w, em, [], false)
      | Some exit =>
          match general_details (info exit) with
          | None => Some (w, em, [], false)
          | Some general =>
              let last := last_exit em in
              let last_details := last_exit_details em in
              let routes := default [] (tv_routes v) in
              match get_exit_list (tv_settings v) (tv_exit_list v) current_exit_id w with
              | Panic => None
              | Done w1 _ | Fail w1 _ =>
                  let exit_list := match get_exit_list (tv_settings v) (tv_exit_list v) current_exit_id w with
                                   | Done _ l => l
                                   | _ => []
                                   end in
                  let w2 := with_exits (add_exits_to_exit_server_list exit_list (exits w1)) w1 in
                  let '(em, _) := set_exit_list exit_list em in
                  match set_best_exit capacity (get_ready_to_switch_exits (exits w2) (cluster_exits em))
                          (get_routes_hashmap routes) w2 with
                  | Panic => None
                  | Fail w3 _ => Some (w3, em, [], true)
                  | Done w3 a =>
                      match after_selection v last last_details exit general a w3 em with
                      | None => None
                      | Some (em, acts, stop) => Some (w3, em, acts, stop)
                      end
                  end
              end
          end
      end
  end.

(** Whether an exit is asked for its state, and whether that counts for the
    registered exits' timer. *)
Definition asks (now : Z) (last_status_request : option Z) (s : ExitServer) : bool * bool :=
  match info s with
  | New => (true, false)
  | Pending _ _ _ _ => (true, false)
  | Registered _ _ _ =>
      match last_status_request with
      | Some last_query => if STATUS_REQUEST_QUERY <? instant_sub now last_query then (true, true) else (false, false)
      | None => (true, true)
      end
  | _ => (false, false)
  end.

Fixpoint run_status_requests (s : client_settings) (answer : IpAddr -> exit_answer ExitState)
    (l : list IpAddr) (w : ExitWorld) : option ExitWorld :=
  match l with
  | [] => Some w
  | k :: l => match outcome_state (exit_status_request s answer k w) with
              | Some w => run_status_requests s answer l w
              | None => None
              end
  end.

Definition request_states (v : tick_view) (w : ExitWorld) (em : ManagerState)
    : option (ExitWorld * ManagerState * list exit_action) :=
  let servers := map_to_list (exits w) in
  let asked := filter (fun ks => (asks (tv_now v) (last_status_request em) ks.2).1 = true) servers in
  let exit_status_requested := existsb (fun ks => (asks (tv_now v) (last_status_request em) ks.2).2) servers in
  let em := {| nat_setup := nat_setup em; cluster_exits := cluster_exits em; last_exit := last_exit em;
               last_exit_details := last_exit_details em;
               last_status_request := if exit_status_requested then Some (tv_now v)
                                      else last_status_request em |} in
  match run_status_requests (tv_settings v) (tv_status v) asked.*1 w with
  | None => None
  | Some w => Some (w, em, match get_client_pub_ipv6 w with Some n => [SetupSlaac n] | None => [] end)
  end.

(** One pass of the loop; [None] is a panic of its thread. *)
Definition exit_manager_tick (v : tick_view) (w : ExitWorld) (em : ManagerState)
    : option (ExitWorld * ManagerState * list exit_action) :=
  match connect_current v w em with
  | None => None
  | Some (w, em, acts, true) => Some (w, em, acts)
  | Some (w, em, acts, false) =>
      match request_states v w em with
      | None => None
      | Some (w, em, more) => Some (w, em, acts ++ more)
      end
  end.
End tick.

(** * The clock (time_sync.rs)

    [handshake] is the last handshake of the exit tunnel, [0] being the epoch;
    [exit_time] what the exit answers.  The result is the time the clock is set
    to. *)
Definition MAX_DIFF_LOCAL_EXIT_TIME : Z := secs 60.
Definition MAX_EXIT_TUNNEL_HANDSHAKE : Z := secs (60 * 3).

Definition maybe_set_local_to_exit_time (now : Z) (handshake exit_time : option Z) : option Z :=
  let ask := match exit_time with
             | Some exit_time =>
                 if (now <=? exit_time) && (MAX_DIFF_LOCAL_EXIT_TIME <? exit_time - now)
                 then Some exit_time else None
             | None => None
             end in
  match handshake with
  | Some last_handshake =>
      if last_handshake =? 0 then ask
      else if last_handshake <=? now then
        if now - last_handshake <? MAX_EXIT_TUNNEL_HANDSHAKE then None else ask
      else ask
  | None => ask
  end.
End ExitLoop.
Export ExitLoop.

(** * Properties of the loop

    The exit manager's tick (ExitLoop.v): it does not panic, keeps every exit of
    the settings, its flag says whether the nat rules are in place, and sets the
    clock only forward; and the tick of a switch mixes two exits' details. *)

(** * The settings' exits *)

(** Every exit of [m] is still in [m'], the same server. *)
Definition exits_kept (m m' : gmap IpAddr ExitServer) : Prop :=
  forall ip e, m !! ip = Some e ->
  exists e', m' !! ip = Some e' /\ exit_id e' = exit_id e /\ registration_port e' = registration_port e
             /\ wg_exit_listen_port e' = wg_exit_listen_port e.
#[export] Instance exits_kept_preorder : PreOrder exits_kept.
Proof.
  split.
  - intros m ip e He. by exists e.
  - intros m1 m2 m3 H12 H23 ip e He. destruct (H12 _ _ He) as (e2 & H2 & E1 & E2 & E3).
    destruct (H23 _ _ H2) as (e3 & H3 & F1 & F2 & F3). exists e3. split_and!; congruence.
Qed.

Lemma set_exit_info_kept ip i m : exits_kept m (set_exit_info ip i m).
Proof.
  unfold set_exit_info. destruct (m !! ip) as [e|] eqn:E; [|done]. intros ip' e' He'.
  destruct (decide (ip' = ip)) as [->|Hne].
  - rewrite lookup_insert_eq. rewrite E in He'. injection He' as <-. by eexists.
  - rewrite lookup_insert_ne by done. by exists e'.
Qed.

Lemma add_exits_kept l m : exits_kept m (add_exits_to_exit_server_list l m).
Proof.
  unfold add_exits_to_exit_server_list. revert m. induction l as [|x l IH]; intros m; [done|]. cbn [foldl].
  etrans; [|apply IH]. destruct (m !! ei_mesh_ip x) eqn:E; [done|]. intros ip e He. exists e.
  rewrite lookup_insert_ne; [done|]. intros Heq. rewrite Heq in E. congruence.
Qed.

(** The parts of the state a request or a tick of the switcher leaves alone. *)
Lemma status_request_facts s answer k w :
  exists w', outcome_state (exit_status_request s answer k w) = Some w'
    /\ selected_exit w' = selected_exit w /\ METRIC_VALUES w' = METRIC_VALUES w
    /\ exits_kept (exits w) (exits w').
Proof.
  unfold exit_status_request. unfold_monad. destruct (exits w !! k) as [e|] eqn:E; [|by exists w].
  destruct (contact_info s); [|by exists w]. destruct (our_identity s); [|by exists w].
  destruct (send_exit_request _ _ _) as [b r]. destruct r as [err|st]; [by eexists|].
  cbn. rewrite E. eexists. split_and!; [reflexivity|done|done|apply set_exit_info_kept].
Qed.

Lemma get_exit_list_facts s answer k w :
  exists w', outcome_state (get_exit_list s answer k w) = Some w'
    /\ selected_exit w' = selected_exit w /\ METRIC_VALUES w' = METRIC_VALUES w /\ exits w' = exits w.
Proof.
  unfold get_exit_list. unfold_monad. destruct (exits w !! k) as [e|] eqn:E; [|by exists w].
  destruct (contact_info s); [|by exists w]. destruct (our_identity s); [|by exists w].
  destruct (send_exit_request _ _ _) as [b [err|st]]; by eexists.
Qed.

Lemma run_status_facts s answer l w :
  exists w', run_status_requests s answer l w = Some w'
    /\ selected_exit w' = selected_exit w /\ METRIC_VALUES w' = METRIC_VALUES w
    /\ exits_kept (exits w) (exits w').
Proof.
  revert w. induction l as [|k l IH]; intros w; cbn [run_status_requests]; [by exists w|].
  destruct (status_request_facts s answer k w) as (w1 & -> & Hs1 & Hm1 & Hk1).
  destruct (IH w1) as (w2 & -> & Hs2 & Hm2 & Hk2). exists w2. split_and!; [done|congruence|congruence|by etrans].
Qed.

Lemma set_best_exit_exits `{P : Profile} capacity l rs w w' :
  outcome_state (set_best_exit capacity l (get_routes_hashmap rs) w) = Some w' -> exits w' = exits w.
Proof.
  destruct (set_best_exit capacity l (get_routes_hashmap rs) w) as [w1 a|w1 e|] eqn:E; [| |done]; intros [= <-].
  - by apply set_best_exit_done in E as (? & ? & ? & ? & _ & _ & _ & -> & _).
  - rewrite set_best_exit_run in E. case_bool_decide; [by injection E as <- _|].
    destruct (tick_scan _ _ _) as [s|]; [|done]. cbv zeta in E. destruct (best_exit _).
    + destruct (update_metric_value _ _ _ _) as [[[code vec] exit_map]|]; [|done].
      destruct (is_exit_down _); [done|]. by unfold set_exit_state in E; run_monad.
    + injection E as <- _. unfold scanned_world. by destruct (all_exits_blacklisted s).
Qed.

(** * The switcher only returns exits of the settings *)

Lemma ready_exits_known m l a :
  a ∈ mesh_ip <$> get_ready_to_switch_exits m l ->
  exists e, m !! a = Some e /\ our_details (info e) <> None.
Proof.
  induction l as [|x l IH]; cbn [get_ready_to_switch_exits]; [by intros ?%elem_of_nil|].
  destruct (m !! ei_mesh_ip x) as [e|] eqn:E; [|done]. destruct (info e) eqn:Ei; try done.
  cbn. intros [->|H]%elem_of_cons; [exists e; by rewrite Ei|by apply IH].
Qed.

Lemma after_selection_total v last details exit general a w em :
  tv_kernel_ok v = true -> is_Some (get_selected_exit_server w) ->
  is_Some (after_selection v last details exit general a w em).
Proof.
  intros Hk [e He]. unfold after_selection. destruct (tv_default_route v) as [dr|]; [|eauto].
  unfold linux_setup_exit_tunnel. rewrite Hk, He. cbv zeta.
  destruct (our_details (info exit));
    [destruct (has_exit_changed _ _ _ _), (correct_default_route dr)|];
    destruct (nat_step _ _ _); destruct (tv_routes_billing v); eauto.
Qed.

(** A tick that selects finds the selected exit in the settings. *)
Lemma selected_known `{P : Profile} capacity m l rs w w' a :
  exits w = m -> set_best_exit capacity (get_ready_to_switch_exits m l) (get_routes_hashmap rs) w = Done w' a ->
  exists e, exits w' !! a = Some e /\ get_current_exit w' = Some a /\ our_details (info e) <> None.
Proof.
  intros Hm Hr. destruct (selected_candidate _ _ _ _ _ _ Hr) as (met & Hin & _).
  apply candidates_spec in Hin as (_ & Hin & _). apply ready_exits_known in Hin as (e & He & Ho).
  apply set_best_exit_done in Hr as (? & ? & ? & ? & _ & _ & _ & Hex & Hsel & _).
  exists e. rewrite Hex, Hm. done.
Qed.

Lemma connect_current_facts `{P : Profile} capacity v w em :
  overflow_checks = false -> switcher_inv w -> tv_kernel_ok v = true ->
  exists w' em' acts stop, connect_current capacity v w em = Some (w', em', acts, stop)
    /\ switcher_inv w' /\ exits_kept (exits w) (exits w').
Proof.
  intros Hov Hinv Hk. unfold connect_current.
  destruct (get_current_exit w) as [id|]; [|by eexists _, _, _, _].
  destruct (exits w !! id) as [exit|]; [|by eexists _, _, _, _].
  destruct (general_details (info exit)) as [general|]; [|by eexists _, _, _, _].
  destruct (get_exit_list_facts (tv_settings v) (tv_exit_list v) id w) as (w1 & Ho & Hs1 & Hm1 & He1).
  assert (Hrest : forall l, exists w' em' acts stop,
    (let w2 := with_exits (add_exits_to_exit_server_list l (exits w1)) w1 in
     let '(em, _) := set_exit_list l em in
     match set_best_exit capacity (get_ready_to_switch_exits (exits w2) (cluster_exits em))
             (get_routes_hashmap (default [] (tv_routes v))) w2 with
     | Panic => None
     | Fail w3 _ => Some (w3, em, [], true)
     | Done w3 a =>
         match after_selection v (last_exit em) (last_exit_details em) exit general a w3 em with
         | None => None
         | Some (em, acts, stop) => Some (w3, em, acts, stop)
         end
     end) = Some (w', em', acts, stop) /\ switcher_inv w' /\ exits_kept (exits w) (exits w')).
  { intros l. cbv zeta. set (w2 := with_exits _ w1). destruct (set_exit_list l em) as [em1 ok].
    assert (Hinv2 : switcher_inv w2) by (unfold switcher_inv; cbn; by rewrite Hs1, Hm1).
    assert (Hk2 : exits_kept (exits w) (exits w2)) by (cbn; rewrite He1; apply add_exits_kept).
    destruct (set_best_exit_total capacity (get_ready_to_switch_exits (exits w2) (cluster_exits em1))
      (default [] (tv_routes v)) w2 Hov Hinv2) as (w3 & Hw3 & Hinv3).
    pose proof (set_best_exit_exits _ _ _ _ _ Hw3) as He3. rewrite <- He3 in Hk2.
    destruct (set_best_exit _ _ _ w2) as [w4 a|w4 e|] eqn:Er; [| |done]; injection Hw3 as ->.
    - destruct (selected_known _ _ _ _ _ _ _ eq_refl Er) as (e & Hea & Hcur & _).
      destruct (after_selection_total v (last_exit em1) (last_exit_details em1) exit general a w3 em1 Hk)
        as [[[em2 acts] stop] ->]; [unfold get_selected_exit_server; rewrite Hcur; eauto|].
      eexists _, _, _, _. split_and!; [reflexivity|done|done].
    - eexists _, _, _, _. split_and!; [reflexivity|done|done]. }
  assert (Hset : forall l, last_exit (set_exit_list l em).1 = last_exit em
    /\ last_exit_details (set_exit_list l em).1 = last_exit_details em) by (intros []; done).
  destruct (get_exit_list _ _ id w) as [w1' l|w1' e|]; [| |done]; injection Ho as ->.
  - specialize (Hrest l). cbv zeta in *. destruct (Hset l) as [Hl1 Hl2].
    destruct (set_exit_list l em) as [em1 ok]. cbn in Hl1, Hl2. rewrite <- Hl1, <- Hl2. exact Hrest.
  - specialize (Hrest []). cbv zeta in *. exact Hrest.
Qed.

(** The exit manager's loop does not die: a tick of a build without overflow
    checks, with a kernel that sets the tunnel up, ends without a panic,
    whatever the exits, babel and the chain answer, and every exit of the
    settings is still there, with its identity and ports. *)
Theorem exit_tick_total `{P : Profile} capacity v w em :
  overflow_checks = false -> switcher_inv w -> tv_kernel_ok v = true ->
  exists w' em' acts, exit_manager_tick capacity v w em = Some (w', em', acts)
    /\ switcher_inv w' /\ exits_kept (exits w) (exits w').
Proof.
  intros Hov Hinv Hk. unfold exit_manager_tick.
  destruct (connect_current_facts capacity v w em Hov Hinv Hk) as (w1 & em1 & acts & stop & -> & Hinv1 & Hk1).
  destruct stop; [by eexists _, _, _|]. unfold request_states.
  destruct (run_status_facts (tv_settings v) (tv_status v)
    (filter (fun ks => (asks (tv_now v) (last_status_request em1) ks.2).1 = true) (map_to_list (exits w1))).*1 w1)
    as (w2 & -> & Hs & Hm & Hk2).
  eexists _, _, _. split_and!; [reflexivity| |by etrans]. unfold switcher_inv. by rewrite Hs, Hm.
Qed.

(** * The nat rules *)

(** What a list of actions leaves of the client's nat rules. *)
Definition nat_after (acts : list exit_action) (before : bool) : bool :=
  foldl (fun b a => match a with
                    | SetupTunnel _ _ _ _ _ _ | RestoreNat => true
                    | RemoveNat => false
                    | _ => b
                    end) before acts.

Lemma nat_step_after low free em em' acts :
  nat_step low free em = (em', acts) ->
  nat_after acts (nat_setup em) = nat_setup em' /\ nat_setup em' = negb low || free.
Proof.
  unfold nat_step. destruct low, free, (nat_setup em) eqn:E; intros [= <- <-]; cbn; by rewrite ?E.
Qed.

Lemma after_selection_nat v last details exit general a w em em' acts stop :
  after_selection v last details exit general a w em = Some (em', acts, stop) ->
  nat_after acts (nat_setup em) = nat_setup em'
  /\ (acts <> [] -> nat_setup em' = negb (tv_low_balance v) || tv_free_tier v).
Proof.
  unfold after_selection. destruct (tv_default_route v) as [dr|]; [|by intros [= <- <- _]]. cbv zeta.
  set (choice := match our_details (info exit) with Some _ => _ | None => _ end).
  assert (Hc : forall em1 setup, choice = Some (em1, setup) -> nat_after setup (nat_setup em) = nat_setup em1).
  { unfold choice, linux_setup_exit_tunnel. intros em1 setup. repeat case_match; intros [= <- <-]; by simplify_eq/=. }
  destruct choice as [[em1 setup]|]; [|done]. specialize (Hc em1 setup eq_refl).
  destruct (nat_step _ _ em1) as [em2 nat] eqn:En. apply nat_step_after in En as [Hn Hb]. intros Hr.
  assert (Hem : em' = em2) by (repeat case_match; by simplify_eq/=). subst em'. split; [|done].
  assert (Hacts : exists q, acts = setup ++ nat ++ q /\ forall b, nat_after q b = b).
  { repeat case_match; simplify_eq/=; [eexists; split; [reflexivity|done]|
      exists []; by rewrite app_nil_r|exists []; by rewrite app_nil_r]. }
  destruct Hacts as (q & -> & Hq). unfold nat_after in *. rewrite !foldl_app, Hc, Hn. apply Hq.
Qed.

Lemma set_exit_list_nat l em : nat_setup (set_exit_list l em).1 = nat_setup em.
Proof. by destruct l. Qed.

Lemma connect_current_nat `{P : Profile} capacity v w em w' em' acts stop :
  connect_current capacity v w em = Some (w', em', acts, stop) ->
  nat_after acts (nat_setup em) = nat_setup em'
  /\ (acts <> [] -> nat_setup em' = negb (tv_low_balance v) || tv_free_tier v).
Proof.
  unfold connect_current. cbv zeta.
  destruct (get_current_exit w) as [id|]; [|by intros [= _ <- <- _]].
  destruct (exits w !! id) as [exit|]; [|by intros [= _ <- <- _]].
  destruct (general_details (info exit)) as [general|]; [|by intros [= _ <- <- _]].
  destruct (get_exit_list _ _ id w) as [w1 l|w1 e|]; [pose proof (set_exit_list_nat l em) as Hl;
    destruct (set_exit_list l em) as [em1 ok]|pose proof (set_exit_list_nat [] em) as Hl;
    destruct (set_exit_list [] em) as [em1 ok]|done]; cbn in Hl; rewrite <- Hl;
    (destruct (set_best_exit _ _ _ _) as [w3 a|w3 e'|]; [|by intros [= _ <- <- _]|done]);
    (destruct (after_selection _ _ _ _ _ _ _ _) as [[[em2 acts'] stop']|] eqn:Ea; [|done]);
    intros [= _ <- <- _]; by apply after_selection_nat in Ea.
Qed.

(** Whether a tick's actions include the billing. *)
Definition bills (acts : list exit_action) : Prop :=
  exists id p rs ip port, QueryDebts id p rs ip port ∈ acts.

(** The flag [nat_setup] tells the truth: after every tick it says whether the
    nat rules are in place, counting what the tick did; and after every tick
    that bills the exit they are in place exactly if the balance is not low or
    there is a free tier. *)
Theorem nat_follows_balance `{P : Profile} capacity v w em w' em' acts :
  exit_manager_tick capacity v w em = Some (w', em', acts) ->
  nat_after acts (nat_setup em) = nat_setup em'
  /\ (bills acts -> nat_setup em' = negb (tv_low_balance v) || tv_free_tier v).
Proof.
  unfold exit_manager_tick. intros Hr.
  destruct (connect_current capacity v w em) as [[[[w1 em1] acts1] stop]|] eqn:Ec; [|done].
  apply connect_current_nat in Ec as [Hn Hb].
  assert (Hne : bills acts1 -> acts1 <> []) by (intros (?&?&?&?&?&Hin) ->; by apply elem_of_nil in Hin).
  destruct stop; [injection Hr as _ <- <-; auto|].
  destruct (request_states v w1 em1) as [[[w2 em2] more]|] eqn:Er; [|done]. injection Hr as _ <- <-.
  unfold request_states in Er. cbv zeta in Er. destruct (run_status_requests _ _ _ _) as [w3|]; [|done].
  injection Er as _ <- <-. cbn [nat_setup]. split.
  - unfold nat_after in *. rewrite foldl_app, Hn. by destruct (get_client_pub_ipv6 w3).
  - intros (id & p & rs & ip & port & [Hin|Hin]%elem_of_app); [apply Hb, Hne; by eexists _, _, _, _, _|].
    destruct (get_client_pub_ipv6 w3); [by apply list_elem_of_singleton in Hin|by apply elem_of_nil in Hin].
Qed.

(** * The tick of a switch *)

(** The tunnel of a switch is set up with the details of two exits: endpoint,
    port and key are those of the exit switched to, the addresses inside the
    tunnel, the netmask and the server's internal address those of the exit
    switched away from. *)
Theorem switch_mixes_details v last exit general ours message a e w em dr :
  info exit = Registered general ours message -> get_current_exit w = Some a -> exits w !! a = Some e ->
  last <> Some a -> tv_default_route v = Some dr -> tv_kernel_ok v = true ->
  forall details, exists em' acts stop,
    after_selection v last details exit general a w em = Some (em', acts, stop)
    /\ SetupTunnel (mesh_ip (exit_id e)) (wg_exit_listen_port e) (wg_public_key (exit_id e))
         (client_internal_ip ours) (netmask general) (server_internal_ip general) ∈ acts.
Proof.
  intros Hi Hcur He Hlast Hdr Hk details. unfold after_selection. rewrite Hdr, Hi. cbn [our_details].
  assert (Hch : has_exit_changed last details (Some a) exit = true).
  { unfold has_exit_changed. destruct last as [l|]; [|done]. by rewrite bool_decide_eq_false_2 by congruence. }
  rewrite Hch. unfold linux_setup_exit_tunnel, get_selected_exit_server. rewrite Hk, Hcur, He. cbv zeta.
  destruct (nat_step _ _ _) as [em2 nat]. destruct (tv_routes_billing v); eexists _, _, _; (split; [reflexivity|]);
    apply elem_of_app; left; apply list_elem_of_singleton; reflexivity.
Qed.

(** * The clock *)

(** The clock is set only forward, to the exit's time and by more than a minute,
    and not while the tunnel's last handshake is less than three minutes old;
    a clock that is ahead of the exit's is never corrected. *)
Theorem clock_only_forward now handshake exit_time :
  match maybe_set_local_to_exit_time now handshake exit_time with
  | Some t => exit_time = Some t /\ now + secs 60 < t
              /\ forall h, handshake = Some h -> h <> 0 -> h <= now -> secs 180 <= now - h
  | None => forall t, exit_time = Some t -> now + secs 60 < t ->
            exists h, handshake = Some h /\ h <> 0 /\ 0 <= now - h < secs 180
  end.
Proof.
  unfold maybe_set_local_to_exit_time, MAX_EXIT_TUNNEL_HANDSHAKE, MAX_DIFF_LOCAL_EXIT_TIME.
  change (60 * 3) with 180. assert (0 < secs 60 /\ 0 < secs 180) as [H60 H180] by done.
  destruct exit_time as [t|].
  - destruct (Z.leb_spec now t), (Z.ltb_spec (secs 60) (t - now)); cbn [andb]; destruct handshake as [h|];
      try (destruct (Z.eqb_spec h 0)); try (destruct (Z.leb_spec h now));
      try (destruct (Z.ltb_spec (now - h) (secs 180))); naive_solver lia.
  - destruct handshake as [h|]; [|done]. by destruct (h =? 0), (h <=? now), (now - h <? secs 180).
Qed.

(** * Demonstrations *)

#[local] Existing Instance release_profile.

Definition demo_details (n : Z) : ExitDetails := {|
  server_internal_ip := V4 n; netmask := 16; wg_exit_port := 59999; exit_price := 10; exit_currency := Xdai;
  description := ""; verif_mode := Off |}.
Definition registered (n : Z) : ExitServer := {|
  exit_id := exit_ident n; registration_port := 4875; wg_exit_listen_port := 59998;
  info := Registered (demo_details n) {| client_internal_ip := V4 (100 + n); internet_ipv6_subnet := None |} "" |}.
Definition exit_entry (n : Z) : ExitIdentity := {|
  ei_mesh_ip := V6 n; ei_wg_key := n; ei_eth_addr := n; ei_registration_port := 4875;
  ei_wg_exit_listen_port := 59998; allowed_regions := []; payment_types := [Xdai] |}.

(** A tick in which the selected exit 1 is lost and exit 2 takes over. *)
Definition loop_world : ExitWorld := with_exits {[ V6 1 := registered 1; V6 2 := registered 2 ]} tracking_world.
Definition loop_state : ManagerState := {|
  nat_setup := true; cluster_exits := []; last_exit := Some (V6 1); last_exit_details := None;
  last_status_request := None |}.
Definition loop_view : tick_view := {|
  tv_settings := {| contact_info := Some "c"; our_identity := Some (exit_ident 50) |};
  tv_free_tier := false;
  tv_routes := Some [exit_route 1 U16_MAX; exit_route 2 500];
  tv_exit_list := fun _ => Answer [exit_entry 1; exit_entry 2];
  tv_default_route := Some (Some (lit "wg_exit"));
  tv_kernel_ok := true;
  tv_low_balance := true;
  tv_routes_billing := Some [];
  tv_status := fun _ => AnswerTimeout;
  tv_now := 0 |}.

Lemma exit_tick_total_witness :
  exists w' em' acts, exit_manager_tick 180 loop_view loop_world loop_state = Some (w', em', acts)
    /\ switcher_inv w' /\ exits_kept (exits loop_world) (exits w').
Proof. apply exit_tick_total; [reflexivity|discriminate|reflexivity]. Defined.

Definition loop_result : ExitWorld * ManagerState * list exit_action :=
  default (loop_world, loop_state, []) (exit_manager_tick 180 loop_view loop_world loop_state).
Lemma loop_run :
  exit_manager_tick 180 loop_view loop_world loop_state
  = Some (loop_result.1.1, loop_result.1.2, loop_result.2).
Proof. vm_compute. reflexivity. Qed.
Lemma loop_bills : bills loop_result.2.
Proof. eexists _, _, _, _, _. vm_compute. right. right. left. Qed.

Lemma nat_follows_balance_witness :
  nat_after loop_result.2 (nat_setup loop_state) = nat_setup loop_result.1.2 /\ nat_setup loop_result.1.2 = false.
Proof.
  destruct (nat_follows_balance 180 loop_view loop_world loop_state _ _ _ loop_run) as [H1 H2].
  split; [exact H1|exact (H2 loop_bills)].
Defined.

Lemma switch_mixes_details_witness :
  exists em' acts stop,
    after_selection loop_view (Some (V6 1)) None (registered 1) (demo_details 1) (V6 2)
      (set_selected_exit {| selected_id := Some (V6 2); selected_id_metric := Some 500;
                            selected_id_degradation := None; tracking_exit := Some (V6 2) |} loop_world) loop_state
    = Some (em', acts, stop)
    /\ SetupTunnel (V6 2) 59998 2 (V4 101) 16 (V4 1) ∈ acts.
Proof.
  eapply (switch_mixes_details loop_view (Some (V6 1)) (registered 1) (demo_details 1)
            {| client_internal_ip := V4 101; internet_ipv6_subnet := None |} "" (V6 2) (registered 2));
    [reflexivity|reflexivity|reflexivity|discriminate|reflexivity|reflexivity].
Defined.
