(* ===== verification/ExitDatabase.v ===== *)
(** The exit server's clients (rita_exit/src/database/mod.rs and
    in_memory_database.rs): handing out addresses, registration and status,
    the tunnels of the clients and the enforcement of debts.  The ipnetwork
    crate and the hash of the standard library, whose algorithm is left open,
    are classes; the kernel's answers are arguments and what is asked of it is a
    list of actions. *)
From S2P Require Import Prelude Types Text Babel Oracle DebtKeeper Regions ExitManager.

(** The ipnetwork crate. *)
Class IpNets := {
  v4_network : Z -> Z -> Z;
  v4_broadcast : Z -> Z -> Z;
  v4_nth : Z -> Z -> Z -> option Z;
  v6_network : Z -> Z -> Z;
  v6_size : Z -> Z;
}.
Class IpNetsLaws (N : IpNets) : Prop := {
  v4_network_spec ip p : 0 <= p <= 32 -> v4_network ip p = ip - ip mod 2 ^ (32 - p);
  v4_broadcast_spec ip p : 0 <= p <= 32 -> v4_broadcast ip p = v4_network ip p + 2 ^ (32 - p) - 1;
  v4_nth_spec ip p n : 0 <= p <= 32 -> 0 <= n ->
    v4_nth ip p n = if n <? 2 ^ (32 - p) then Some (v4_network ip p + n) else None;
  v6_network_spec ip p : 0 <= p <= 128 -> v6_network ip p = ip - ip mod 2 ^ (128 - p);
  v6_size_spec p : 0 < p <= 128 -> v6_size p = 2 ^ (128 - p);
}.
(** [hash_wgkey]: the default hasher on the text of the key. *)
Class WgHash := hash_wgkey : Z -> Z.
Class WgHashLaws (H : WgHash) : Prop := hash_wgkey_range k : 0 <= hash_wgkey k <= U64_MAX.

Module ExitDatabase.

(** * Addresses *)

Definition CLIENT_WG_PORT : Z := 59999.
Definition MAX_IP_RETRIES : nat := 10.
Definition DEFAULT_CLIENT_SUBNET_SIZE : Z := 56.

(** The errors the modelled code returns; [ExitMisc] is [MiscStringError]. *)
Inductive RitaExitError := ExitMisc (s : string) | IpAddrError (ip : IpAddr) | ExitKernelError | NoClientError.

Record IpAssignmentMap := {
  ipv6_assignments : gmap IpAddr Z;
  internal_ip_assignments : gmap IpAddr Z;
}.
Definition add_new_ipv6_assignment (addr : IpAddr) (key : Z) (m : IpAssignmentMap) : IpAssignmentMap := {|
  ipv6_assignments := <[addr := key]> (ipv6_assignments m);
  internal_ip_assignments := internal_ip_assignments m |}.
Definition add_new_internal_ip_assignement (addr : IpAddr) (key : Z) (m : IpAssignmentMap) : IpAssignmentMap := {|
  ipv6_assignments := ipv6_assignments m;
  internal_ip_assignments := <[addr := key]> (internal_ip_assignments m) |}.

Section addresses.
Context `{N : IpNets} `{H : WgHash} `{P : Profile}.

(** [1u64 << n]: a shift by 64 or more panics with the checks and is masked
    without. *)
Definition one_shl (n : Z) : option Z :=
  if n <? 64 then Some (2 ^ n) else if overflow_checks then None else Some (2 ^ (n mod 64)).

(** A function that may panic ([None]) or return an error. *)
Abbreviation fallible A := (option (RitaExitError + A)).

Definition generate_iterative_client_subnet (exit_sub : IpNetwork) (ind subprefix : Z) : fallible IpNetwork :=
  match exit_sub with
  | NetV4 _ _ => Some (inl (ExitMisc "Exit subnet expected to be ipv6!!"))
  | NetV6 ip exit_prefix =>
      let addr := v6_network ip exit_prefix in
      if 128 <? subprefix then None
      else if subprefix <? exit_prefix then Some (inl (ExitMisc "Client subnet larger than exit subnet"))
      else
        match one_shl (subprefix - exit_prefix) with
        | None => None
        | Some total =>
            if ind <? total then Some (inr (NetV6 (addr + ind * v6_size subprefix) subprefix))
            else Some (inl (ExitMisc "Index larger than available subnets"))
        end
  end.

Definition net_prefix (n : IpNetwork) : Z := match n with NetV4 _ p | NetV6 _ p => p end.

Definition validate_internet_ipv6 (client_subnet : IpNetwork) (our_wgkey : Z) (m : IpAssignmentMap) : bool :=
  match ipv6_assignments m !! net_ip client_subnet with
  | Some a => a =? our_wgkey
  | None => true
  end.

(** The loop of [get_client_ipv6]; [attempts] are the passes that are left. *)
Fixpoint ipv6_loop (exit_sub : IpNetwork) (client_subnet_size key total_subnets : Z) (attempts : nat)
    (generative_index : Z) (m : IpAssignmentMap) : fallible (IpAssignmentMap * option IpNetwork) :=
  match attempts with
  | O => Some (inl (ExitMisc "Unable to get internet ipv6"))
  | S attempts =>
      match generate_iterative_client_subnet exit_sub generative_index client_subnet_size with
      | None => None
      | Some (inl e) => Some (inl e)
      | Some (inr client_subnet) =>
          if validate_internet_ipv6 client_subnet key m then
            Some (inr (add_new_ipv6_assignment (net_ip client_subnet) key m, Some client_subnet))
          else ipv6_loop exit_sub client_subnet_size key total_subnets attempts
                 ((generative_index + 1) mod total_subnets) m
      end
  end.

Definition get_client_ipv6 (their_record : Identity) (exit_sub : option IpNetwork) (client_subnet_size : Z)
    (m : IpAssignmentMap) : fallible (IpAssignmentMap * option IpNetwork) :=
  match exit_sub with
  | None => Some (inr (m, None))
  | Some exit_sub =>
      match u8_of (client_subnet_size - net_prefix exit_sub) with
      | None => None
      | Some bits =>
          match one_shl bits with
          | None => None
          | Some total_subnets =>
              ipv6_loop exit_sub client_subnet_size (wg_public_key their_record) total_subnets
                (S MAX_IP_RETRIES) (hash_wgkey (wg_public_key their_record) mod total_subnets) m
          end
      end
  end.

Definition validate_internal_ip (gateway netmask assigned_ip our_ip our_wgkey : Z) (m : IpAssignmentMap) : bool :=
  if assigned_ip =? our_ip then false
  else if assigned_ip =? v4_network gateway netmask then false
  else if assigned_ip =? v4_broadcast gateway netmask then false
  else
    match internal_ip_assignments m !! V4 assigned_ip with
    | Some a => a =? our_wgkey
    | None => true
    end.

(** The loop of [get_client_internal_ip]. *)
Fixpoint internal_ip_loop (netmask gateway_ip key total_addresses : Z) (attempts : nat) (generative_index : Z)
    (m : IpAssignmentMap) : RitaExitError + (IpAssignmentMap * IpAddr) :=
  match attempts with
  | O => inl (ExitMisc "Unable to get internal ip")
  | S attempts =>
      let again := internal_ip_loop netmask gateway_ip key total_addresses attempts
                     ((generative_index + 1) mod total_addresses) m in
      if U32_MAX <? generative_index then again
      else
        match v4_nth gateway_ip netmask generative_index with
        | None => again
        | Some internal_ip =>
            if validate_internal_ip gateway_ip netmask internal_ip gateway_ip key m then
              inr (add_new_internal_ip_assignement (V4 internal_ip) key m, V4 internal_ip)
            else again
        end
  end.

(** [2_u64.pow(e)]. *)
Definition pow2_u64 (e : Z) : option Z :=
  if e <? 64 then Some (2 ^ e) else if overflow_checks then None else Some 0.

Definition get_client_internal_ip (their_record : Identity) (netmask gateway_ip : Z) (m : IpAssignmentMap)
    : fallible (IpAssignmentMap * IpAddr) :=
  match u8_of (32 - netmask) with
  | None => None
  | Some host_bits =>
      match pow2_u64 host_bits with
      | None => None
      | Some total_addresses =>
          if total_addresses =? 0 then None
          else if 32 <? netmask then Some (inl (ExitMisc "Unable to setup and ipnetwork to generate internal ip"))
          else Some (internal_ip_loop netmask gateway_ip (wg_public_key their_record) total_addresses
                       (S MAX_IP_RETRIES) (hash_wgkey (wg_public_key their_record) mod total_addresses) m)
      end
  end.

(** * Clients *)

Record ExitClient := {
  ec_internal_ip : IpAddr;
  ec_internet_ipv6 : option IpNetwork;
  ec_public_key : Z;
  ec_mesh_ip : IpAddr;
  ec_port : Z;
}.

Record exit_settings := {
  es_subnet : option IpNetwork;
  es_client_subnet_size : option Z;
  es_netmask : Z;
  es_own_internal_ip : Z;
  es_wg_tunnel_port : Z;
  es_wg_v2_tunnel_port : Z;
  es_exit_price : Z;
  es_chain : SystemChain;
  es_description : string;
  es_geo : geo_settings;
  es_free_tier : Z;
}.

Definition to_exit_client (s : exit_settings) (client : Identity) (m : IpAssignmentMap)
    : option (IpAssignmentMap * (RitaExitError + ExitClient)) :=
  match get_client_ipv6 client (es_subnet s) (default DEFAULT_CLIENT_SUBNET_SIZE (es_client_subnet_size s)) m with
  | None => None
  | Some (inl e) => Some (m, inl e)
  | Some (inr (m, internet_ipv6)) =>
      match get_client_internal_ip client (es_netmask s) (es_own_internal_ip s) m with
      | None => None
      | Some (inl e) => Some (m, inl e)
      | Some (inr (m, internal_ip)) =>
          Some (m, inr {| ec_internal_ip := internal_ip; ec_internet_ipv6 := internet_ipv6;
                          ec_public_key := wg_public_key client; ec_mesh_ip := mesh_ip client;
                          ec_port := CLIENT_WG_PORT |})
      end
  end.

Definition get_exit_info (s : exit_settings) : ExitDetails := {|
  server_internal_ip := V4 (es_own_internal_ip s); netmask := es_netmask s;
  wg_exit_port := es_wg_tunnel_port s; exit_price := es_exit_price s; exit_currency := es_chain s;
  description := es_description s; verif_mode := Phone |}.

(** What the registration server answers; a failed request is an
    [InternalServerError] as well. *)
Inductive ExitSignupReturn := RegistrationOk | PendingRegistration | BadPhoneNumber | InternalServerError (e : string).

(** The state of the exit: addresses and the cache of countries. *)
Record RitaExitState := { ip_assignment_map : IpAssignmentMap; exit_geoip : geoip_cache }.

(** [gateway] is what [get_gateway_ip_single] finds for the client. *)
Definition signup_client (s : exit_settings) (gateway : RitaExitError + IpAddr) (api : IpAddr -> geo_answer)
    (registration : ExitSignupReturn) (client : Identity) (st : RitaExitState)
    : option (RitaExitState * (RitaExitError + ExitState)) :=
  match gateway with
  | inl e => Some (st, inl e)
  | inr gateway_ip =>
      match verify_ip (es_geo s) api gateway_ip (exit_geoip st) with
      | None => None
      | Some (cache, None) => Some ({| ip_assignment_map := ip_assignment_map st; exit_geoip := cache |}, inl (ExitMisc "geoip"))
      | Some (cache, Some false) =>
          Some ({| ip_assignment_map := ip_assignment_map st; exit_geoip := cache |},
                inr (Denied "This exit only accepts connections from"))
      | Some (cache, Some true) =>
          match to_exit_client s client (ip_assignment_map st) with
          | None => None
          | Some (m, r) =>
              let st := {| ip_assignment_map := m; exit_geoip := cache |} in
              Some (st, inr match r with
                            | inl _ => Denied "Error parsing client details with"
                            | inr exit_client =>
                                match registration with
                                | RegistrationOk =>
                                    Registered (get_exit_info s)
                                      {| client_internal_ip := ec_internal_ip exit_client;
                                         internet_ipv6_subnet := ec_internet_ipv6 exit_client |} "Registration OK"
                                | PendingRegistration =>
                                    Pending (get_exit_info s) "awaiting email verification" None None
                                | BadPhoneNumber => Denied "Error parsing client phone number"
                                | InternalServerError e => Denied "Internal Error from registration server"
                                end
                            end)
          end
      end
  end.

(** [record] is what the contract holds under the client's key. *)
Definition client_status (s : exit_settings) (record : option Identity) (m : IpAssignmentMap)
    : option (IpAssignmentMap * (RitaExitError + ExitState)) :=
  match record with
  | None => Some (m, inl NoClientError)
  | Some their_record =>
      match get_client_internal_ip their_record (es_netmask s) (es_own_internal_ip s) m with
      | None => None
      | Some (inl e) => Some (m, inl e)
      | Some (inr (m, current_ip)) =>
          match get_client_ipv6 their_record (es_subnet s)
                  (default DEFAULT_CLIENT_SUBNET_SIZE (es_client_subnet_size s)) m with
          | None => None
          | Some (inl e) => Some (m, inl e)
          | Some (inr (m, current_internet_ipv6)) =>
              Some (m, inr (Registered (get_exit_info s)
                              {| client_internal_ip := current_ip; internet_ipv6_subnet := current_internet_ipv6 |}
                              "Registration OK"))
          end
      end
  end.

(** * Where clients are (geoip.rs)

    [remote_ip iface] is what [get_wg_remote_ip] answers. *)
Definition host_route (mesh : IpAddr) (r : Route) : bool :=
  match prefix r with
  | NetV6 ip len => (len =? 128) && installed r && bool_decide (V6 ip = mesh)
  | NetV4 _ _ => false
  end.
Definition get_gateway_ip_single (routes : list Route) (remote_ip : text -> option IpAddr) (mesh : IpAddr)
    : RitaExitError + IpAddr :=
  match last (filter (fun r => host_route mesh r = true) routes) with
  | Some route => match remote_ip (rt_iface route) with
                  | Some a => inr a
                  | None => inl ExitKernelError
                  end
  | None => inl (IpAddrError mesh)
  end.

Record IpPair := { ip_mesh : IpAddr; ip_gateway : IpAddr }.
Definition remote_cache : Type := list (text * IpAddr).
Fixpoint cache_get (k : text) (c : remote_cache) : option IpAddr :=
  match c with [] => None | (k', v) :: c => if text_eqb k k' then Some v else cache_get k c end.

Fixpoint bulk_routes (remote_ip : text -> option IpAddr) (mesh : IpAddr) (routes : list Route)
    (c : remote_cache) (results : list IpPair) : remote_cache * list IpPair :=
  match routes with
  | [] => (c, results)
  | route :: routes =>
      if host_route mesh route then
        match cache_get (rt_iface route) c with
        | Some ip => bulk_routes remote_ip mesh routes c (results ++ [{| ip_mesh := mesh; ip_gateway := ip |}])
        | None =>
            match remote_ip (rt_iface route) with
            | Some ip => bulk_routes remote_ip mesh routes ((rt_iface route, ip) :: c)
                           (results ++ [{| ip_mesh := mesh; ip_gateway := ip |}])
            | None => bulk_routes remote_ip mesh routes c results
            end
        end
      else bulk_routes remote_ip mesh routes c results
  end.
Fixpoint bulk_clients (remote_ip : text -> option IpAddr) (routes : list Route) (mesh_ip_list : list IpAddr)
    (c : remote_cache) (results : list IpPair) : list IpPair :=
  match mesh_ip_list with
  | [] => results
  | mesh :: rest =>
      let '(c, results) := bulk_routes remote_ip mesh routes c results in
      bulk_clients remote_ip routes rest c results
  end.
Definition get_gateway_ip_bulk (remote_ip : text -> option IpAddr) (routes : list Route)
    (mesh_ip_list : list IpAddr) : list IpPair :=
  bulk_clients remote_ip routes mesh_ip_list [] [].

(** The clients that are in no allowed country; the error of a lookup leaves the
    client alone. *)
Fixpoint check_pairs (s : geo_settings) (api : IpAddr -> geo_answer) (client_map : gmap IpAddr Identity)
    (l : list IpPair) (cache : geoip_cache) (blacklist : list Identity)
    : option (geoip_cache * list Identity) :=
  match l with
  | [] => Some (cache, blacklist)
  | item :: l =>
      match verify_ip s api (ip_gateway item) cache with
      | None => None
      | Some (cache, Some false) =>
          match client_map !! ip_mesh item with
          | None => None
          | Some client => check_pairs s api client_map l cache (blacklist ++ [client])
          end
      | Some (cache, _) => check_pairs s api client_map l cache blacklist
      end
  end.
Definition validate_clients_region (s : geo_settings) (api : IpAddr -> geo_answer)
    (remote_ip : text -> option IpAddr) (routes : list Route) (clients_list : list Identity) (cache : geoip_cache)
    : option (geoip_cache * list Identity) :=
  let client_map := foldl (fun m item => <[mesh_ip item := item]> m) ∅ clients_list in
  check_pairs s api client_map (get_gateway_ip_bulk remote_ip routes (mesh_ip <$> clients_list)) cache [].
End addresses.
End ExitDatabase.
Export ExitDatabase.
