(* ===== verification/ExitClients.v ===== *)
(** The tunnels of an exit's clients and the enforcement of their debts
    (rita_exit/src/database/mod.rs), with what is asked of the kernel as a list
    of actions. *)
From S2P Require Import Prelude Types Text Babel Oracle DebtKeeper Regions ExitManager ExitDatabase.

#[export] Program Instance IpNetwork_countable : Countable IpNetwork :=
  inj_countable' (fun n => match n with NetV4 i p => inl (i, p) | NetV6 i p => inr (i, p) end)
                 (fun s => match s with inl (i, p) => NetV4 i p | inr (i, p) => NetV6 i p end) _.
Next Obligation. by intros []. Qed.
#[export] Instance ExitClient_eq_dec : EqDecision ExitClient.
Proof. solve_decision. Defined.
#[export] Program Instance ExitClient_countable : Countable ExitClient :=
  inj_countable' (fun c => (ec_internal_ip c, ec_internet_ipv6 c, ec_public_key c, ec_mesh_ip c, ec_port c))
                 (fun '(a, b, c, d, e) => {| ec_internal_ip := a; ec_internet_ipv6 := b; ec_public_key := c;
                                             ec_mesh_ip := d; ec_port := e |}) _.
Next Obligation. by intros []. Qed.

Module ExitClients.

Inductive exit_interface := LEGACY_INTERFACE | EXIT_INTERFACE.
Inductive kernel_action :=
| SetWgConfig (clients : gset ExitClient) (port : Z) (iface : exit_interface)
| SetupRoutes (client_ip exit_ip : IpAddr) (iface : exit_interface)
| TeardownRoutes (client_ip : IpAddr)
| CreateFlow (iface : exit_interface) (ip : Z)
| CreateFlow6 (iface : exit_interface) (net : IpNetwork) (ip : Z)
| SetClassLimit (iface : exit_interface) (min_bw max_bw : Z) (ip : Z)
| DeleteClass (iface : exit_interface) (ip : Z).

Record ExitClientSetupStates := {
  old_clients : gset ExitClient;
  wg_exit_clients : gset Z;
  wg_exit_v2_clients : gset Z;
}.
Record CurrentExitClientState := { new_v2 : gset Z; new_v1 : gset Z; all_v2 : gset Z; all_v1 : gset Z }.
Inductive ClientInterfaceType := LegacyInterface | ExitInterface.
#[export] Instance ClientInterfaceType_eq_dec : EqDecision ClientInterfaceType.
Proof. solve_decision. Defined.

Section clients.
Context `{N : IpNets} `{H : WgHash} `{P : Profile} (s : exit_settings).

(** * Tunnels *)

Definition get_client_interface (c : Identity) (new_wg_exit_clients wg_exit_clients : gmap Z Z)
    : ClientInterfaceType :=
  match new_wg_exit_clients !! wg_public_key c, wg_exit_clients !! wg_public_key c with
  | Some _, None => ExitInterface
  | None, Some _ => LegacyInterface
  | Some new, Some old => if old <? new then ExitInterface else LegacyInterface
  | None, None => LegacyInterface
  end.

Definition find_changed_clients (client_states : ExitClientSetupStates) (all_v2 all_v1 : gmap Z Z)
    (clients_list : list Identity) : CurrentExitClientState :=
  let on i : gset Z := list_to_set (wg_public_key <$> filter (fun c => get_client_interface c all_v2 all_v1 = i) clients_list) in
  let v1_clients : gset Z := on LegacyInterface in
  let v2_clients : gset Z := on ExitInterface in
  {| new_v2 := v2_clients ∖ wg_exit_v2_clients client_states;
     new_v1 := v1_clients ∖ wg_exit_clients client_states;
     all_v2 := v2_clients; all_v1 := v1_clients |}.

(** The loops that convert the clients of a list. *)
Fixpoint exit_clients_of (l : list Identity) (m : IpAssignmentMap) (out : gset ExitClient)
    : option (IpAssignmentMap * gset ExitClient) :=
  match l with
  | [] => Some (m, out)
  | c :: l =>
      match to_exit_client s c m with
      | None => None
      | Some (m, inr a) => exit_clients_of l m ({[ a ]} ∪ out)
      | Some (m, inl _) => exit_clients_of l m out
      end
  end.

(** The loops that set up or tear down the routes of clients. *)
Fixpoint client_routes (act : IpAddr -> kernel_action) (key_to_client_map : gmap Z Identity) (keys : list Z)
    (m : IpAssignmentMap) : option (IpAssignmentMap * list kernel_action) :=
  match keys with
  | [] => Some (m, [])
  | c_key :: keys =>
      match key_to_client_map !! c_key with
      | None => client_routes act key_to_client_map keys m
      | Some c =>
          match get_client_internal_ip c (es_netmask s) (es_own_internal_ip s) m with
          | None => None
          | Some (inl _) => client_routes act key_to_client_map keys m
          | Some (inr (m, ip)) =>
              match client_routes act key_to_client_map keys m with
              | Some (m, acts) => Some (m, act ip :: acts)
              | None => None
              end
          end
      end
  end.

(** [handshakes] are the latest handshakes of an interface, [None] when it is
    missing, on which the code panics. *)
Definition setup_clients (handshakes : exit_interface -> option (gmap Z Z)) (clients_list geoip_blacklist : list Identity)
    (client_states : ExitClientSetupStates) (m : IpAssignmentMap)
    : option (IpAssignmentMap * list kernel_action * ExitClientSetupStates) :=
  let key_to_client_map : gmap Z Identity := ∅ in
  match exit_clients_of clients_list m ∅ with
  | None => None
  | Some (m, wg_clients) =>
      match exit_clients_of geoip_blacklist m ∅ with
      | None => None
      | Some (m, geoip_blacklist_map) =>
          let wg_clients := wg_clients ∖ geoip_blacklist_map in
          let configured :=
            if bool_decide ((wg_clients ∖ old_clients client_states) ∪ (old_clients client_states ∖ wg_clients) = ∅)
            then []
            else [SetWgConfig wg_clients (es_wg_tunnel_port s) LEGACY_INTERFACE;
                  SetWgConfig wg_clients (es_wg_v2_tunnel_port s) EXIT_INTERFACE] in
          match handshakes EXIT_INTERFACE, handshakes LEGACY_INTERFACE with
          | Some new_timestamps, Some timestamps =>
              let client_list_for_setup :=
                filter (fun v => (bool_decide (is_Some (new_timestamps !! wg_public_key v))
                                  || bool_decide (is_Some (timestamps !! wg_public_key v))) = true)
                  (map_to_list key_to_client_map).*2 in
              let changed := find_changed_clients client_states new_timestamps timestamps client_list_for_setup in
              let client_states := {| old_clients := old_clients client_states;
                                      wg_exit_clients := all_v1 changed;
                                      wg_exit_v2_clients := all_v2 changed |} in
              match client_routes (fun ip => SetupRoutes ip (V4 (es_own_internal_ip s)) LEGACY_INTERFACE)
                      key_to_client_map (elements (new_v1 changed)) m with
              | None => None
              | Some (m, setups) =>
                  match client_routes TeardownRoutes key_to_client_map (elements (new_v2 changed)) m with
                  | None => None
                  | Some (m, teardowns) => Some (m, configured ++ setups ++ teardowns, client_states)
                  end
              end
          | _, _ => None
          end
      end
  end.

(** * Enforcement *)

(** What the kernel says about the flows and classes of an address, [None] for
    an error. *)
Record enforce_view := {
  has_flow : Z -> exit_interface -> option bool;
  has_class : Z -> exit_interface -> option bool;
}.

Definition flow_setup_required (v : enforce_view) (ip : Z) : bool :=
  match has_flow v ip EXIT_INTERFACE, has_flow v ip LEGACY_INTERFACE with
  | Some true, Some true | Some true, Some false | Some false, Some true => true
  | Some false, Some false => false
  | _, None => false
  | None, _ => false
  end.
Definition unenforce_required (v : enforce_view) (ip : Z) : bool :=
  match has_class v ip LEGACY_INTERFACE, has_class v ip EXIT_INTERFACE with
  | Some a, Some b => a || b
  | Some a, None => a
  | None, Some a => a
  | None, None => false
  end.

(** One entry of the debt list for a client with the address [ip]. *)
Definition enforce_client (v : enforce_view) (identity : Identity) (act : DebtAction) (ip : Z) (m : IpAssignmentMap)
    : option (IpAssignmentMap * list kernel_action) :=
  match act with
  | SuspendTunnel =>
      let limits := [SetClassLimit LEGACY_INTERFACE (es_free_tier s) (es_free_tier s) ip;
                     SetClassLimit EXIT_INTERFACE (es_free_tier s) (es_free_tier s) ip] in
      if flow_setup_required v ip then
        match get_client_ipv6 identity (es_subnet s) (default DEFAULT_CLIENT_SUBNET_SIZE (es_client_subnet_size s)) m with
        | None => None
        | Some (inr (m, Some client_ipv6)) =>
            Some (m, [CreateFlow LEGACY_INTERFACE ip; CreateFlow EXIT_INTERFACE ip;
                      CreateFlow6 EXIT_INTERFACE client_ipv6 ip] ++ limits)
        | Some (inr (m, None)) => Some (m, [CreateFlow LEGACY_INTERFACE ip; CreateFlow EXIT_INTERFACE ip] ++ limits)
        | Some (inl _) => Some (m, [CreateFlow LEGACY_INTERFACE ip; CreateFlow EXIT_INTERFACE ip] ++ limits)
        end
      else Some (m, limits)
  | _ =>
      if unenforce_required v ip then Some (m, [DeleteClass LEGACY_INTERFACE ip; DeleteClass EXIT_INTERFACE ip])
      else Some (m, [])
  end.

(** [clients_by_id]; the map is indexed by identities, which are equal when
    their keys are. *)
Fixpoint clients_by_id (l : list Identity) (m : IpAssignmentMap) (out : gmap id_key ExitClient)
    : option (IpAssignmentMap * gmap id_key ExitClient) :=
  match l with
  | [] => Some (m, out)
  | c :: l =>
      match to_exit_client s c m with
      | None => None
      | Some (m, inr a) => clients_by_id l m (<[identity_key c := a]> out)
      | Some (m, inl _) => clients_by_id l m out
      end
  end.

Fixpoint enforce_entries (v : enforce_view) (by_id : gmap id_key ExitClient) (l : list (Identity * NodeDebtData))
    (m : IpAssignmentMap) : option (IpAssignmentMap * list kernel_action) :=
  match l with
  | [] => Some (m, [])
  | (identity, d) :: l =>
      match (match by_id !! identity_key identity with
             | Some client =>
                 match ec_internal_ip client with
                 | V4 ip => enforce_client v identity (action d) ip m
                 | V6 _ => Some (m, [])
                 end
             | None => Some (m, [])
             end) with
      | None => None
      | Some (m, acts) =>
          match enforce_entries v by_id l m with
          | Some (m, more) => Some (m, acts ++ more)
          | None => None
          end
      end
  end.

(** The pairs of an identity and its action, as a set. *)
Definition debt_actions_of (l : list (Identity * NodeDebtData)) : list (Identity * DebtAction) :=
  (fun '(i, d) => (i, action d)) <$> l.
Definition same_actions (a b : list (Identity * DebtAction)) (eqb : DebtAction -> DebtAction -> bool) : bool :=
  let mem x l := existsb (fun y => identity_eqb x.1 y.1 && eqb x.2 y.2) l in
  forallb (fun x => mem x b) a && forallb (fun x => mem x a) b.
Definition debt_action_eqb (a b : DebtAction) : bool :=
  match a, b with
  | SuspendTunnel, SuspendTunnel => true
  | OpenTunnel, OpenTunnel => true
  | MakePayment t x, MakePayment t' x' => identity_eqb t t' && (x =? x')
  | _, _ => false
  end.

Definition enforce_exit_clients (v : enforce_view) (clients_list : list Identity)
    (old_debt_actions : list (Identity * DebtAction)) (debts : list (Identity * NodeDebtData)) (m : IpAssignmentMap)
    : option (IpAssignmentMap * list kernel_action * (list (Identity * DebtAction))) :=
  match clients_by_id clients_list m ∅ with
  | None => None
  | Some (m, by_id) =>
      let new_debt_actions := debt_actions_of debts in
      if same_actions new_debt_actions old_debt_actions debt_action_eqb then Some (m, [], new_debt_actions)
      else
        match enforce_entries v by_id debts m with
        | None => None
        | Some (m, acts) => Some (m, acts, new_debt_actions)
        end
  end.
End clients.
End ExitClients.
Export ExitClients.
