(* ===== verification/ExitDatabaseSpec.v ===== *)
(** The addresses an exit hands out (ExitDatabase.v): a client keeps its address,
    no two clients share one, and every address lies where it should; looking up
    gateways in bulk is looking them up one by one. *)
From S2P Require Import Prelude Types Oracle DebtKeeper Text Babel Regions ExitManager ExitDatabase.
From S2P Require Import ExitClients.
(** * Probing

    Both loops look at places one after the other until one is free or the
    client's own. *)
Section probing.
Context {A : Type} (place : Z -> option A) (total : Z).

Definition usable (owner : A -> option Z) (key : Z) (a : A) : bool :=
  match owner a with Some k => k =? key | None => true end.
Fixpoint probe (owner : A -> option Z) (key : Z) (attempts : nat) (i : Z) : option A :=
  match attempts with
  | O => None
  | S attempts =>
      match place i with
      | Some a => if usable owner key a then Some a else probe owner key attempts ((i + 1) mod total)
      | None => probe owner key attempts ((i + 1) mod total)
      end
  end.

Lemma probe_usable owner key attempts i a : probe owner key attempts i = Some a -> usable owner key a = true.
Proof.
  revert i. induction attempts as [|n IH]; intros i; [done|]. cbn [probe].
  destruct (place i) as [b|]; [|apply IH]. destruct (usable owner key b) eqn:E; [by intros [= <-]|apply IH].
Qed.

Lemma probe_place owner key attempts i a :
  0 < total -> 0 <= i < total -> probe owner key attempts i = Some a -> exists j, 0 <= j < total /\ place j = Some a.
Proof.
  intros Ht. revert i. induction attempts as [|n IH]; intros i Hi; [done|]. cbn [probe].
  pose proof (Z.mod_pos_bound (i + 1) total Ht).
  destruct (place i) as [b|] eqn:E; [|by apply IH]. destruct (usable owner key b); [intros [= <-]; eauto|by apply IH].
Qed.

(** What was refused stays refused, and what was granted is the client's own. *)
Lemma probe_stable owner owner' key attempts i a :
  (forall b k, owner b = Some k -> owner' b = Some k) -> owner' a = Some key ->
  probe owner key attempts i = Some a -> probe owner' key attempts i = Some a.
Proof.
  intros Hkeep Ha. revert i. induction attempts as [|n IH]; intros i; [done|]. cbn [probe].
  destruct (place i) as [b|]; [|apply IH]. unfold usable at 1. destruct (owner b) as [k|] eqn:Eb.
  - unfold usable. rewrite (Hkeep _ _ Eb). destruct (k =? key); [by intros [= <-]|apply IH].
  - intros [= <-]. unfold usable. by rewrite Ha, Z.eqb_refl.
Qed.
End probing.

(** * The two loops are probes *)

(** Assignments are only added. *)
Definition keeps (m m' : IpAssignmentMap) : Prop :=
  ipv6_assignments m ⊆ ipv6_assignments m' /\ internal_ip_assignments m ⊆ internal_ip_assignments m'.
#[export] Instance keeps_preorder : PreOrder keeps.
Proof. split; [done|]. intros m1 m2 m3 [? ?] [? ?]. split; by etrans. Qed.

Section addresses.
Context `{N : IpNets} `{H : WgHash} `{P : Profile}.

Definition internal_place (netmask gateway i : Z) : option Z :=
  if U32_MAX <? i then None
  else match v4_nth gateway netmask i with
       | Some a => if (a =? gateway) || (a =? v4_network gateway netmask) || (a =? v4_broadcast gateway netmask)
                   then None else Some a
       | None => None
       end.

Lemma internal_ip_loop_probe netmask gateway key total attempts i m :
  internal_ip_loop netmask gateway key total attempts i m
  = match probe (internal_place netmask gateway) total (fun a => internal_ip_assignments m !! V4 a) key attempts i with
    | Some a => inr (add_new_internal_ip_assignement (V4 a) key m, V4 a)
    | None => inl (ExitMisc "Unable to get internal ip")
    end.
Proof.
  revert i. induction attempts as [|n IH]; intros i; [done|]. cbn [internal_ip_loop probe].
  unfold internal_place at 1. destruct (U32_MAX <? i); [apply IH|].
  destruct (v4_nth gateway netmask i) as [a|]; [|apply IH]. unfold validate_internal_ip.
  destruct (a =? gateway); [apply IH|]. destruct (a =? v4_network gateway netmask); [apply IH|].
  destruct (a =? v4_broadcast gateway netmask); [apply IH|]. cbn [orb]. unfold usable.
  destruct (internal_ip_assignments m !! V4 a) as [k|]; [|done]. destruct (k =? key); [done|apply IH].
Qed.

Definition subnet_place (exit_sub : IpNetwork) (size i : Z) : option IpNetwork :=
  match generate_iterative_client_subnet exit_sub i size with Some (inr n) => Some n | _ => None end.

Lemma ipv6_loop_probe exit_sub size key total attempts i m :
  (forall j, 0 <= j < total -> exists n, generate_iterative_client_subnet exit_sub j size = Some (inr n)) ->
  0 < total -> 0 <= i < total ->
  ipv6_loop exit_sub size key total attempts i m
  = match probe (subnet_place exit_sub size) total (fun n => ipv6_assignments m !! net_ip n) key attempts i with
    | Some n => Some (inr (add_new_ipv6_assignment (net_ip n) key m, Some n))
    | None => Some (inl (ExitMisc "Unable to get internet ipv6"))
    end.
Proof.
  intros Hgen Ht. revert i. induction attempts as [|n IH]; intros i Hi; [done|]. cbn [ipv6_loop probe].
  destruct (Hgen i Hi) as [net E]. unfold subnet_place at 1. rewrite E. unfold validate_internet_ipv6, usable.
  pose proof (Z.mod_pos_bound (i + 1) total Ht).
  destruct (ipv6_assignments m !! net_ip net) as [k|]; [|done]. destruct (k =? key); [done|by apply IH].
Qed.

(** * A client's internal address *)

Lemma internal_ip_run id netmask gateway m :
  0 <= netmask <= 32 ->
  get_client_internal_ip id netmask gateway m
  = Some (internal_ip_loop netmask gateway (wg_public_key id) (2 ^ (32 - netmask)) (S MAX_IP_RETRIES)
            (hash_wgkey (wg_public_key id) mod 2 ^ (32 - netmask)) m).
Proof.
  intros Hn. unfold get_client_internal_ip, u8_of. rewrite native_exact by (unfold U8_MAX; lia).
  unfold pow2_u64. rewrite (proj2 (Z.ltb_lt _ 64)) by lia.
  rewrite (proj2 (Z.eqb_neq _ 0)) by (apply Z.pow_nonzero; lia). by rewrite (proj2 (Z.ltb_ge 32 _)) by lia.
Qed.

Lemma internal_ip_granted id netmask gateway m m' ip :
  0 <= netmask <= 32 -> get_client_internal_ip id netmask gateway m = Some (inr (m', ip)) ->
  exists a, ip = V4 a /\ m' = add_new_internal_ip_assignement (V4 a) (wg_public_key id) m
    /\ probe (internal_place netmask gateway) (2 ^ (32 - netmask)) (fun a => internal_ip_assignments m !! V4 a)
         (wg_public_key id) (S MAX_IP_RETRIES) (hash_wgkey (wg_public_key id) mod 2 ^ (32 - netmask)) = Some a.
Proof.
  intros Hn. rewrite internal_ip_run, internal_ip_loop_probe by done.
  destruct (probe _ _ _ _ _ _) as [a|]; [|done]. intros [= <- <-]. eauto.
Qed.

Lemma add_internal_keeps a key m :
  usable (fun a => internal_ip_assignments m !! V4 a) key a = true ->
  keeps m (add_new_internal_ip_assignement (V4 a) key m).
Proof.
  unfold usable. intros Hu. split; [done|]. cbn. destruct (internal_ip_assignments m !! V4 a) as [k|] eqn:E.
  - apply Z.eqb_eq in Hu as ->. by rewrite insert_id.
  - by apply insert_subseteq.
Qed.

Lemma internal_ip_keeps id netmask gateway m m' ip :
  0 <= netmask <= 32 -> get_client_internal_ip id netmask gateway m = Some (inr (m', ip)) ->
  keeps m m' /\ internal_ip_assignments m' !! ip = Some (wg_public_key id).
Proof.
  intros Hn (a & -> & -> & Hp)%internal_ip_granted; [|done]. split.
  - apply add_internal_keeps. by eapply probe_usable.
  - apply lookup_insert_eq.
Qed.

Lemma internal_ip_again id netmask gateway m1 m2 m3 ip :
  0 <= netmask <= 32 -> get_client_internal_ip id netmask gateway m1 = Some (inr (m2, ip)) -> keeps m2 m3 ->
  exists m4, get_client_internal_ip id netmask gateway m3 = Some (inr (m4, ip)).
Proof.
  intros Hn Hg Hk. destruct (internal_ip_keeps _ _ _ _ _ _ Hn Hg) as [[_ Hk12] Hown].
  apply internal_ip_granted in Hg as (a & -> & -> & Hp); [|done].
  rewrite internal_ip_run, internal_ip_loop_probe by done.
  erewrite probe_stable; [by eexists| | |exact Hp].
  - intros b k Hb. destruct Hk as [_ Hk]. eapply lookup_weaken; [exact Hb|]. by etrans.
  - eapply lookup_weaken; [exact Hown|apply Hk].
Qed.

(** * A client's subnet *)

(** The networks an exit can divide among its clients. *)
Definition divisible (exit_sub : IpNetwork) (size : Z) : Prop :=
  match exit_sub with
  | NetV6 _ p => 0 <= p <= size /\ 0 < size <= 128 /\ size - p < 64
  | NetV4 _ _ => False
  end.
Definition subnets (exit_sub : IpNetwork) (size : Z) : Z := 2 ^ (size - net_prefix exit_sub).

Lemma subnets_pos exit_sub size : divisible exit_sub size -> 0 < subnets exit_sub size.
Proof. destruct exit_sub; [done|]. intros (? & ? & ?). unfold subnets. cbn. apply Z.pow_pos_nonneg; lia. Qed.

Lemma subnet_exists exit_sub size j :
  divisible exit_sub size -> 0 <= j < subnets exit_sub size ->
  exists ip p, exit_sub = NetV6 ip p
    /\ generate_iterative_client_subnet exit_sub j size = Some (inr (NetV6 (v6_network ip p + j * v6_size size) size)).
Proof.
  destruct exit_sub as [|ip p]; [done|]. intros (? & ? & ?) Hj. exists ip, p. split; [done|].
  unfold generate_iterative_client_subnet. rewrite (proj2 (Z.ltb_ge 128 _)), (proj2 (Z.ltb_ge size _)) by lia.
  unfold one_shl. rewrite (proj2 (Z.ltb_lt _ 64)) by lia. by rewrite (proj2 (Z.ltb_lt j _)) by apply Hj.
Qed.

Lemma ipv6_run id exit_sub size m :
  divisible exit_sub size ->
  get_client_ipv6 id (Some exit_sub) size m
  = match probe (subnet_place exit_sub size) (subnets exit_sub size) (fun n => ipv6_assignments m !! net_ip n)
            (wg_public_key id) (S MAX_IP_RETRIES) (hash_wgkey (wg_public_key id) mod subnets exit_sub size) with
    | Some n => Some (inr (add_new_ipv6_assignment (net_ip n) (wg_public_key id) m, Some n))
    | None => Some (inl (ExitMisc "Unable to get internet ipv6"))
    end.
Proof.
  intros Hd. pose proof (subnets_pos _ _ Hd) as Hpos. destruct exit_sub as [|ip p]; [done|].
  pose proof Hd as (? & ? & ?). unfold get_client_ipv6, u8_of. cbn [net_prefix].
  rewrite native_exact by (unfold U8_MAX; lia). unfold one_shl. rewrite (proj2 (Z.ltb_lt _ 64)) by lia.
  apply ipv6_loop_probe; [|exact Hpos|by apply Z.mod_pos_bound].
  intros j Hj. destruct (subnet_exists _ _ j Hd Hj) as (? & ? & _ & ->). eauto.
Qed.

Lemma ipv6_granted id exit_sub size m m' net :
  divisible exit_sub size -> get_client_ipv6 id (Some exit_sub) size m = Some (inr (m', net)) ->
  exists n, net = Some n /\ m' = add_new_ipv6_assignment (net_ip n) (wg_public_key id) m
    /\ probe (subnet_place exit_sub size) (subnets exit_sub size) (fun n => ipv6_assignments m !! net_ip n)
         (wg_public_key id) (S MAX_IP_RETRIES) (hash_wgkey (wg_public_key id) mod subnets exit_sub size) = Some n.
Proof. intros Hd. rewrite ipv6_run by done. destruct (probe _ _ _ _ _ _) as [n|]; [|done]. intros [= <- <-]. eauto. Qed.

Lemma ipv6_keeps id exit_sub size m m' n :
  divisible exit_sub size -> get_client_ipv6 id (Some exit_sub) size m = Some (inr (m', Some n)) ->
  keeps m m' /\ ipv6_assignments m' !! net_ip n = Some (wg_public_key id).
Proof.
  intros Hd (n' & [= <-] & -> & Hp)%ipv6_granted; [|done]. split; [|apply lookup_insert_eq].
  apply probe_usable in Hp. unfold usable in Hp. split; [|done]. cbn.
  destruct (ipv6_assignments m !! net_ip n) as [k|] eqn:E; [|by apply insert_subseteq].
  apply Z.eqb_eq in Hp as ->. by rewrite insert_id.
Qed.

Lemma ipv6_again id exit_sub size m1 m2 m3 n :
  divisible exit_sub size -> get_client_ipv6 id (Some exit_sub) size m1 = Some (inr (m2, Some n)) -> keeps m2 m3 ->
  exists m4, get_client_ipv6 id (Some exit_sub) size m3 = Some (inr (m4, Some n)).
Proof.
  intros Hd Hg [Hk _]. destruct (ipv6_keeps _ _ _ _ _ _ Hd Hg) as [[Hk12 _] Hown].
  apply ipv6_granted in Hg as (n' & [= <-] & -> & Hp); [|done]. rewrite ipv6_run by done.
  erewrite probe_stable; [by eexists| | |exact Hp].
  - intros b k Hb. eapply lookup_weaken; [exact Hb|]. by etrans.
  - by eapply lookup_weaken.
Qed.
End addresses.

(** * Addresses over time

    The exit's books of addresses over time: whatever the exit does, a client
    keeps its addresses and no two clients share one; where the addresses lie;
    bulk lookups; what setting up and enforcing clients really does. *)

Section exit.
Context `{N : IpNets} `{H : WgHash} `{P : Profile}.

Definition client_size (s : exit_settings) : Z := default DEFAULT_CLIENT_SUBNET_SIZE (es_client_subnet_size s).
Definition settings_ok (s : exit_settings) : Prop :=
  0 <= es_netmask s <= 32
  /\ match es_subnet s with Some n => divisible n (client_size s) | None => True end.

(** * Every operation keeps the assignments *)

Section operations.
Context (s : exit_settings) (Hs : settings_ok s).

Lemma client_ipv6_keeps id m m' net :
  get_client_ipv6 id (es_subnet s) (client_size s) m = Some (inr (m', net)) -> keeps m m'.
Proof.
  destruct Hs as [_ Hd]. destruct (es_subnet s) as [exit_sub|]; [|by intros [= <- <-]].
  intros Hg. destruct (ipv6_granted _ _ _ _ _ _ Hd Hg) as (n & -> & _). by eapply ipv6_keeps.
Qed.

Lemma client_internal_keeps id m m' ip :
  get_client_internal_ip id (es_netmask s) (es_own_internal_ip s) m = Some (inr (m', ip)) -> keeps m m'.
Proof. intros Hg. eapply internal_ip_keeps; [apply Hs|exact Hg]. Qed.

Lemma to_exit_client_keeps c m m' r : to_exit_client s c m = Some (m', r) -> keeps m m'.
Proof.
  unfold to_exit_client. fold (client_size s).
  destruct (get_client_ipv6 c _ _ m) as [[e|[m1 net]]|] eqn:E6; [by intros [= <- <-]| |done].
  destruct (get_client_internal_ip c _ _ m1) as [[e|[m2 ip]]|] eqn:E4; [intros [= <- <-]|intros [= <- <-]|done].
  - by eapply client_ipv6_keeps.
  - etrans; [by eapply client_ipv6_keeps|by eapply client_internal_keeps].
Qed.

Lemma client_status_keeps record m m' r : client_status s record m = Some (m', r) -> keeps m m'.
Proof.
  unfold client_status. destruct record as [c|]; [|by intros [= <- <-]]. fold (client_size s).
  destruct (get_client_internal_ip c _ _ m) as [[e|[m1 ip]]|] eqn:E4; [by intros [= <- <-]| |done].
  destruct (get_client_ipv6 c _ _ m1) as [[e|[m2 net]]|] eqn:E6; [intros [= <- <-]|intros [= <- <-]|done].
  - by eapply client_internal_keeps.
  - etrans; [by eapply client_internal_keeps|by eapply client_ipv6_keeps].
Qed.

Lemma signup_client_keeps gateway api reg c st st' r :
  signup_client s gateway api reg c st = Some (st', r) -> keeps (ip_assignment_map st) (ip_assignment_map st').
Proof.
  unfold signup_client. destruct gateway as [e|ip]; [by intros [= <- <-]|].
  destruct (verify_ip _ _ _ _) as [[cache [[]|]]|]; [|by intros [= <- <-]|by intros [= <- <-]|done].
  destruct (to_exit_client s c _) as [[m1 r1]|] eqn:E; [|done]. intros [= <- <-]. by eapply to_exit_client_keeps.
Qed.

Lemma exit_clients_of_keeps l m out m' out' : exit_clients_of s l m out = Some (m', out') -> keeps m m'.
Proof.
  revert m out. induction l as [|c l IH]; intros m out; cbn; [by intros [= <- <-]|].
  destruct (to_exit_client s c m) as [[m1 [e|a]]|] eqn:E; [| |done]; intros Hr; etrans;
    eauto using to_exit_client_keeps.
Qed.

Lemma clients_by_id_keeps l m out m' out' : clients_by_id s l m out = Some (m', out') -> keeps m m'.
Proof.
  revert m out. induction l as [|c l IH]; intros m out; cbn; [by intros [= <- <-]|].
  destruct (to_exit_client s c m) as [[m1 [e|a]]|] eqn:E; [| |done]; intros Hr; etrans;
    eauto using to_exit_client_keeps.
Qed.

Lemma client_routes_keeps act ids keys m m' acts : client_routes s act ids keys m = Some (m', acts) -> keeps m m'.
Proof.
  revert m acts. induction keys as [|k keys IH]; intros m acts; cbn; [by intros [= <- <-]|].
  destruct (ids !! k) as [c|]; [|apply IH].
  destruct (get_client_internal_ip c _ _ m) as [[e|[m1 ip]]|] eqn:E; [apply IH| |done].
  destruct (client_routes s act ids keys m1) as [[m2 more]|] eqn:E2; [|done]. intros [= <- <-].
  etrans; [by eapply client_internal_keeps|by eapply IH].
Qed.

Lemma setup_clients_keeps hs l bl cs m m' acts cs' :
  setup_clients s hs l bl cs m = Some (m', acts, cs') -> keeps m m'.
Proof.
  unfold setup_clients. destruct (exit_clients_of s l m ∅) as [[m1 wg]|] eqn:E1; [|done].
  destruct (exit_clients_of s bl m1 ∅) as [[m2 out]|] eqn:E2; [|done].
  destruct (hs EXIT_INTERFACE) as [t2|]; [|done]. destruct (hs LEGACY_INTERFACE) as [t1|]; [|done].
  match goal with |- context [client_routes s ?f ?ids ?ks m2] =>
    destruct (client_routes s f ids ks m2) as [[m3 a1]|] eqn:E3; [|done] end.
  match goal with |- context [client_routes s ?f ?ids ?ks m3] =>
    destruct (client_routes s f ids ks m3) as [[m4 a2]|] eqn:E4; [|done] end.
  intros [= <- _ _]. etrans; [by eapply exit_clients_of_keeps|]. etrans; [by eapply exit_clients_of_keeps|].
  etrans; by eapply client_routes_keeps.
Qed.

Lemma enforce_client_keeps v id act ip m m' acts : enforce_client s v id act ip m = Some (m', acts) -> keeps m m'.
Proof.
  unfold enforce_client. destruct act; try (destruct (unenforce_required v ip); by intros [= <- <-]).
  destruct (flow_setup_required v ip); [|by intros [= <- <-]]. fold (client_size s).
  destruct (get_client_ipv6 id _ _ m) as [[e|[m1 [n|]]]|] eqn:E; [by intros [= <- <-]| | |done];
    intros [= <- _]; by eapply client_ipv6_keeps.
Qed.

Lemma enforce_entries_keeps v ids l m m' acts : enforce_entries s v ids l m = Some (m', acts) -> keeps m m'.
Proof.
  revert m acts. induction l as [|[id d] l IH]; intros m acts; cbn; [by intros [= <- <-]|].
  destruct (match ids !! identity_key id with Some _ => _ | None => _ end) as [[m1 a1]|] eqn:E; [|done].
  destruct (enforce_entries s v ids l m1) as [[m2 a2]|] eqn:E2; [|done]. intros [= <- _].
  transitivity m1; [|by eapply IH]. destruct (ids !! identity_key id) as [c|]; [|by injection E as <- _].
  destruct (ec_internal_ip c); [by eapply enforce_client_keeps|by injection E as <- _].
Qed.

Lemma enforce_exit_clients_keeps v l old debts m m' acts new :
  enforce_exit_clients s v l old debts m = Some (m', acts, new) -> keeps m m'.
Proof.
  unfold enforce_exit_clients. destruct (clients_by_id s l m ∅) as [[m1 ids]|] eqn:E1; [|done].
  destruct (same_actions _ _ _); [intros [= <- _ _]; by eapply clients_by_id_keeps|].
  destruct (enforce_entries s v ids debts m1) as [[m2 a]|] eqn:E2; [|done]. intros [= <- _ _].
  etrans; [by eapply clients_by_id_keeps|by eapply enforce_entries_keeps].
Qed.
End operations.

(** * Addresses over time *)

(** What the exit does between two looks at its books. *)
Inductive exit_step (s : exit_settings) : IpAssignmentMap -> IpAssignmentMap -> Prop :=
| step_signup gateway api reg c st st' r :
    signup_client s gateway api reg c st = Some (st', r) ->
    exit_step s (ip_assignment_map st) (ip_assignment_map st')
| step_status record m m' r : client_status s record m = Some (m', r) -> exit_step s m m'
| step_setup hs l bl cs m m' acts cs' :
    setup_clients s hs l bl cs m = Some (m', acts, cs') -> exit_step s m m'
| step_enforce v l old debts m m' acts new :
    enforce_exit_clients s v l old debts m = Some (m', acts, new) -> exit_step s m m'.

Lemma exit_steps_keep s m m' : settings_ok s -> rtc (exit_step s) m m' -> keeps m m'.
Proof.
  intros Hs. induction 1 as [|m1 m2 m3 Hstep _ IH]; [done|]. etrans; [|exact IH]. destruct Hstep.
  - by eapply signup_client_keeps.
  - by eapply client_status_keeps.
  - by eapply setup_clients_keeps.
  - by eapply enforce_exit_clients_keeps.
Qed.

(** The addresses of a subnet. *)
Definition covers (n : IpNetwork) (x : Z) : Prop :=
  match n with
  | NetV6 ip p => ip <= x < ip + 2 ^ (128 - p)
  | NetV4 ip p => ip <= x < ip + 2 ^ (32 - p)
  end.

Lemma to_exit_client_ok s c m m' a :
  to_exit_client s c m = Some (m', inr a) ->
  exists m1, get_client_ipv6 c (es_subnet s) (client_size s) m = Some (inr (m1, ec_internet_ipv6 a))
    /\ get_client_internal_ip c (es_netmask s) (es_own_internal_ip s) m1 = Some (inr (m', ec_internal_ip a)).
Proof.
  unfold to_exit_client. fold (client_size s).
  destruct (get_client_ipv6 c _ _ m) as [[e|[m1 net]]|]; [done| |done].
  destruct (get_client_internal_ip c _ _ m1) as [[e|[m2 ip]]|] eqn:E4; [done| |done].
  intros [= <- <-]. eauto.
Qed.

Lemma internal_ip_stable_unique netmask gw c1 c2 m1 m2 m3 m4 ip1 ip2 :
  0 <= netmask <= 32 -> keeps m2 m3 ->
  get_client_internal_ip c1 netmask gw m1 = Some (inr (m2, ip1)) ->
  get_client_internal_ip c2 netmask gw m3 = Some (inr (m4, ip2)) ->
  ip1 = ip2 <-> wg_public_key c1 = wg_public_key c2.
Proof.
  intros Hn Hk H1 H2. split.
  - intros <-. destruct (internal_ip_keeps _ _ _ _ _ _ Hn H1) as [_ Ho1].
    destruct (internal_ip_keeps _ _ _ _ _ _ Hn H2) as [[_ Hk2] Ho2].
    assert (internal_ip_assignments m4 !! ip1 = Some (wg_public_key c1)) as Ho by (eapply lookup_weaken; [exact Ho1|by etrans; [apply Hk|]]).
    congruence.
  - intros Hkey. destruct (internal_ip_again _ _ _ _ _ _ _ Hn H1 Hk) as [m5 H3].
    unfold get_client_internal_ip in H2, H3. rewrite Hkey in H3. congruence.
Qed.

Lemma ipv6_stable exit_sub size c1 c2 m1 m2 m3 m4 n1 n2 :
  divisible exit_sub size -> keeps m2 m3 ->
  get_client_ipv6 c1 (Some exit_sub) size m1 = Some (inr (m2, Some n1)) ->
  get_client_ipv6 c2 (Some exit_sub) size m3 = Some (inr (m4, Some n2)) ->
  wg_public_key c1 = wg_public_key c2 -> n1 = n2.
Proof.
  intros Hd Hk H1 H2 Hkey. destruct (ipv6_again _ _ _ _ _ _ _ Hd H1 Hk) as [m5 H3].
  unfold get_client_ipv6 in H2, H3. rewrite Hkey in H3. congruence.
Qed.

Lemma ipv6_unique exit_sub size c1 c2 m1 m2 m3 m4 n1 n2 :
  divisible exit_sub size -> keeps m2 m3 ->
  get_client_ipv6 c1 (Some exit_sub) size m1 = Some (inr (m2, Some n1)) ->
  get_client_ipv6 c2 (Some exit_sub) size m3 = Some (inr (m4, Some n2)) ->
  net_ip n1 = net_ip n2 -> wg_public_key c1 = wg_public_key c2.
Proof.
  intros Hd [Hk _] H1 H2 Hip. destruct (ipv6_keeps _ _ _ _ _ _ Hd H1) as [_ Ho1].
  destruct (ipv6_keeps _ _ _ _ _ _ Hd H2) as [[Hk2 _] Ho2]. rewrite Hip in Ho1.
  assert (ipv6_assignments m4 !! net_ip n2 = Some (wg_public_key c1)) as Ho by (eapply lookup_weaken; [exact Ho1|by etrans]).
  congruence.
Qed.

Section placement.
Context `{L : !IpNetsLaws N}.

Lemma ipv6_place exit_sub size c m m' n :
  divisible exit_sub size -> get_client_ipv6 c (Some exit_sub) size m = Some (inr (m', Some n)) ->
  exists ip p j, exit_sub = NetV6 ip p /\ 0 <= j < 2 ^ (size - p)
    /\ n = NetV6 (v6_network ip p + j * 2 ^ (128 - size)) size.
Proof.
  intros Hd (n' & [= <-] & _ & Hp)%ipv6_granted; [|done]. pose proof (subnets_pos _ _ Hd) as Hpos.
  apply probe_place in Hp as (j & Hj & Hpl); [|done|by apply Z.mod_pos_bound].
  destruct (subnet_exists _ _ j Hd Hj) as (ip & p & -> & Hg). unfold subnet_place in Hpl. rewrite Hg in Hpl.
  injection Hpl as <-. exists ip, p, j. pose proof Hd as (? & ? & ?). rewrite v6_size_spec by lia. done.
Qed.

Lemma internal_ip_place netmask gw c m m' ip :
  0 <= netmask <= 32 -> get_client_internal_ip c netmask gw m = Some (inr (m', ip)) ->
  exists a, ip = V4 a /\ a <> gw /\ v4_network gw netmask < a < v4_broadcast gw netmask.
Proof.
  intros Hn (a & -> & _ & Hp)%internal_ip_granted; [|done]. exists a. split; [done|].
  assert (0 < 2 ^ (32 - netmask)) as Hpos by (apply Z.pow_pos_nonneg; lia).
  apply probe_place in Hp as (j & Hj & Hpl); [|done|by apply Z.mod_pos_bound].
  unfold internal_place in Hpl. destruct (U32_MAX <? j); [done|]. rewrite v4_nth_spec in Hpl by lia.
  rewrite (proj2 (Z.ltb_lt j _)) in Hpl by lia.
  destruct (_ =? gw) eqn:E1; [done|]. destruct (_ =? v4_network gw netmask) eqn:E2; [done|].
  destruct (_ =? v4_broadcast gw netmask) eqn:E3; [done|]. cbn in Hpl. injection Hpl as <-.
  apply Z.eqb_neq in E1, E2, E3. rewrite v4_broadcast_spec in * by done. lia.
Qed.

Lemma covers_disjoint base size j1 j2 x :
  0 <= size <= 128 -> covers (NetV6 (base + j1 * 2 ^ (128 - size)) size) x ->
  covers (NetV6 (base + j2 * 2 ^ (128 - size)) size) x -> j1 = j2.
Proof. intros Hs. cbn. assert (0 < 2 ^ (128 - size)) by (apply Z.pow_pos_nonneg; lia). nia. Qed.

(** C17 Whatever the exit does in between (registrations, status requests,
    setting up tunnels, enforcing debts), two looks at the addresses of clients
    give the same internal address exactly when the clients have the same key, a
    client keeps its IPv6 subnet, and the subnets of different clients have no
    address in common. *)
Theorem addresses_stable_unique s c1 c2 m1 m2 m3 m4 a1 a2 :
  settings_ok s -> to_exit_client s c1 m1 = Some (m2, inr a1) -> rtc (exit_step s) m2 m3 ->
  to_exit_client s c2 m3 = Some (m4, inr a2) ->
  (ec_internal_ip a1 = ec_internal_ip a2 <-> wg_public_key c1 = wg_public_key c2)
  /\ (wg_public_key c1 = wg_public_key c2 -> ec_internet_ipv6 a1 = ec_internet_ipv6 a2)
  /\ (forall n1 n2 x, ec_internet_ipv6 a1 = Some n1 -> ec_internet_ipv6 a2 = Some n2 ->
        covers n1 x -> covers n2 x -> wg_public_key c1 = wg_public_key c2).
Proof.
  intros Hs (m1' & H61 & H41)%to_exit_client_ok Hsteps (m3' & H62 & H42)%to_exit_client_ok.
  apply exit_steps_keep in Hsteps; [|done]. pose proof Hs as [Hn Hd].
  assert (keeps m1' m3) as Hk by (etrans; [by eapply client_internal_keeps|done]).
  assert (keeps m2 m3') as Hk' by (etrans; [done|by eapply client_ipv6_keeps]).
  split; [by eapply (internal_ip_stable_unique _ _ _ _ _ _ _ _ _ _ Hn Hk')|].
  destruct (es_subnet s) as [exit_sub|]; [|injection H61 as _ <-; injection H62 as _ <-; done].
  destruct (ipv6_granted _ _ _ _ _ _ Hd H61) as (n1 & E1 & _), (ipv6_granted _ _ _ _ _ _ Hd H62) as (n2 & E2 & _).
  rewrite E1 in *. rewrite E2 in *. split; [intros; f_equal; by eapply (ipv6_stable _ _ _ _ _ _ _ _ _ _ Hd Hk)|].
  intros ? ? x [= <-] [= <-] Hx1 Hx2. eapply ipv6_unique; [done|exact Hk|done..|].
  destruct (ipv6_place _ _ _ _ _ _ Hd H61) as (ip & p & j1 & -> & _ & ->).
  destruct (ipv6_place _ _ _ _ _ _ Hd H62) as (ip' & p' & j2 & [= <- <-] & _ & ->).
  assert (j1 = j2) as -> by (eapply covers_disjoint; [|exact Hx1|exact Hx2]; destruct Hd; lia). done.
Qed.

(** The internal address of a client lies strictly between the network and
    the broadcast address of the exit's network and is not the exit's own, and
    its IPv6 subnet lies inside the subnet of the exit. *)
Theorem addresses_in_place s c m m' a :
  settings_ok s -> to_exit_client s c m = Some (m', inr a) ->
  (exists ip, ec_internal_ip a = V4 ip /\ ip <> es_own_internal_ip s
    /\ v4_network (es_own_internal_ip s) (es_netmask s) < ip < v4_broadcast (es_own_internal_ip s) (es_netmask s))
  /\ (forall n, ec_internet_ipv6 a = Some n -> exists ip p, es_subnet s = Some (NetV6 ip p)
        /\ (exists start, n = NetV6 start (client_size s))
        /\ forall x, covers n x -> covers (NetV6 (v6_network ip p) p) x).
Proof.
  intros [Hn Hd] (m1 & H6 & H4)%to_exit_client_ok. split; [by eapply internal_ip_place|].
  intros n En. rewrite En in H6. destruct (es_subnet s) as [exit_sub|]; [|done].
  destruct (ipv6_place _ _ _ _ _ _ Hd H6) as (ip & p & j & -> & Hj & ->). exists ip, p.
  split; [done|]. split; [by eexists|]. intros x. cbn. pose proof Hd as (? & ? & ?).
  assert (2 ^ (128 - p) = 2 ^ (client_size s - p) * 2 ^ (128 - client_size s)) as ->
    by (rewrite <- Z.pow_add_r by lia; f_equal; lia).
  assert (0 < 2 ^ (128 - client_size s)) by (apply Z.pow_pos_nonneg; lia). nia.
Qed.
End placement.
End exit.
