(* ===== verification/ExitEnforcement.v ===== *)
(** What the exit's periodic work does (ExitDatabase.v, ExitClients.v): the bulk
    lookup of gateways against the plain one, the blacklist of regions, setting
    up the tunnels of clients and enforcing their debts. *)
From S2P Require Import Prelude Types Text Babel Oracle DebtKeeper Regions ExitManager ExitDatabase ExitClients.

(** * Bulk lookups *)

(** The plain lookup: every installed host route of a client asks the kernel. *)
Definition gateways_of (remote_ip : text -> option IpAddr) (routes : list Route) (mesh : IpAddr) : list IpPair :=
  omap (fun r => (fun ip => {| ip_mesh := mesh; ip_gateway := ip |}) <$> remote_ip (rt_iface r))
    (filter (fun r => host_route mesh r = true) routes).

(** The cache holds only what the kernel answers. *)
Definition cache_sound (remote_ip : text -> option IpAddr) (c : remote_cache) : Prop :=
  forall k v, cache_get k c = Some v -> remote_ip k = Some v.

Lemma cache_sound_cons remote_ip c k v :
  cache_sound remote_ip c -> remote_ip k = Some v -> cache_sound remote_ip ((k, v) :: c).
Proof. intros Hc Hk k' v'. cbn. destruct (text_eqb k' k) eqn:E; [|apply Hc]. apply bool_decide_eq_true in E as ->. congruence. Qed.

Lemma bulk_routes_run remote_ip mesh routes c results :
  cache_sound remote_ip c ->
  exists c', cache_sound remote_ip c'
    /\ bulk_routes remote_ip mesh routes c results = (c', results ++ gateways_of remote_ip routes mesh).
Proof.
  revert c results. induction routes as [|r routes IH]; intros c results Hc; cbn [bulk_routes].
  { exists c. unfold gateways_of. cbn. by rewrite app_nil_r. }
  unfold gateways_of. rewrite filter_cons. destruct (host_route mesh r) eqn:Er.
  2: { rewrite decide_False by done. by apply IH. }
  rewrite decide_True by done. cbn [omap list_omap].
  destruct (cache_get (rt_iface r) c) as [ip|] eqn:Ec.
  - rewrite (Hc _ _ Ec). cbn. destruct (IH c (results ++ [{| ip_mesh := mesh; ip_gateway := ip |}]) Hc) as (c' & Hc' & ->).
    exists c'. by rewrite <- app_assoc.
  - destruct (remote_ip (rt_iface r)) as [ip|] eqn:Ek; cbn; [|by apply IH].
    edestruct IH as (c' & Hc' & ->); [by apply cache_sound_cons|]. exists c'. by rewrite <- app_assoc.
Qed.

Lemma bulk_clients_run remote_ip routes l c results :
  cache_sound remote_ip c ->
  bulk_clients remote_ip routes l c results = results ++ (l ≫= gateways_of remote_ip routes).
Proof.
  revert c results. induction l as [|mesh l IH]; intros c results Hc; cbn; [by rewrite app_nil_r|].
  destruct (bulk_routes_run remote_ip mesh routes c results Hc) as (c' & Hc' & ->).
  rewrite IH by done. by rewrite <- app_assoc.
Qed.

Lemma bulk_run remote_ip routes l :
  get_gateway_ip_bulk remote_ip routes l = l ≫= gateways_of remote_ip routes.
Proof. unfold get_gateway_ip_bulk. by rewrite bulk_clients_run. Qed.

(** C27 Looking up the gateways of many clients with the cache of interfaces is
    the plain lookup that asks the kernel for every route, in the same order;
    and what the lookup of a single client answers is among the pairs. *)
Theorem bulk_lookup_equiv remote_ip routes l :
  get_gateway_ip_bulk remote_ip routes l = l ≫= gateways_of remote_ip routes
  /\ forall mesh ip, mesh ∈ l -> get_gateway_ip_single routes remote_ip mesh = inr ip ->
       {| ip_mesh := mesh; ip_gateway := ip |} ∈ get_gateway_ip_bulk remote_ip routes l.
Proof.
  split; [apply bulk_run|]. intros mesh ip Hm. unfold get_gateway_ip_single.
  destruct (last _) as [r|] eqn:El; [|done]. destruct (remote_ip (rt_iface r)) as [a|] eqn:Er; [|done].
  intros [= ->]. rewrite bulk_run. apply list_elem_of_bind. exists mesh. split; [|done].
  apply list_elem_of_omap. exists r. rewrite Er. split; [|done].
  apply last_Some in El as [l' ->]. set_solver.
Qed.

(** * Regions of clients *)

(** Whether the geoip service places an address outside of the allowed countries. *)
Definition outside (s : geo_settings) (api : IpAddr -> geo_answer) (ip : IpAddr) : bool :=
  if match ip with V6 val => is_unicast_link_local val | V4 _ => false end then false
  else match allowed_countries s, api ip with
       | [], _ => false
       | _, IsoCode iso => bool_decide (default UnkownRegion (region_from_str iso) ∉ allowed_countries s)
       | _, _ => false
       end.

(** The cache remembers answers of the service. *)
Definition geo_cache_sound (api : IpAddr -> geo_answer) (cache : geoip_cache) : Prop :=
  map_Forall (fun ip code => exists iso, api ip = IsoCode iso /\ code = default UnkownRegion (region_from_str iso)) cache.

Lemma verify_ip_outside s api ip cache :
  api_configured s = true -> geo_cache_sound api cache ->
  exists cache' r, verify_ip s api ip cache = Some (cache', r) /\ geo_cache_sound api cache'
    /\ (r = Some false <-> outside s api ip = true).
Proof.
  intros Hapi Hc. unfold verify_ip, outside.
  destruct (match ip with V6 val => is_unicast_link_local val | V4 _ => false end) eqn:El; [by eexists _, _|].
  destruct (allowed_countries s) as [|first rest] eqn:Ea; [by eexists _, _|].
  unfold get_country. rewrite Ea, El, Hapi. cbn [negb].
  assert (forall code, Some (bool_decide (code ∈ first :: rest)) = Some false
                       <-> bool_decide (code ∉ first :: rest) = true) as Hflip.
  { intros code. rewrite bool_decide_eq_true. split; [by intros [= ?%bool_decide_eq_false]|].
    intros ?. by rewrite bool_decide_eq_false_2. }
  destruct (cache !! ip) as [code|] eqn:Ei.
  - destruct (Hc _ _ Ei) as (iso & -> & ->). eexists _, _. split; [done|]. split; [done|apply Hflip].
  - destruct (api ip) as [| |iso] eqn:Eq; [by eexists _, _..|]. eexists _, _. split; [done|].
    split; [|apply Hflip]. apply map_Forall_insert_2; eauto.
Qed.

Lemma check_pairs_run s api client_map l cache bl :
  api_configured s = true -> geo_cache_sound api cache ->
  Forall (fun p => is_Some (client_map !! ip_mesh p)) l ->
  exists cache', check_pairs s api client_map l cache bl
    = Some (cache', bl ++ omap (fun p => if outside s api (ip_gateway p) then client_map !! ip_mesh p else None) l).
Proof.
  intros Hapi. revert cache bl. induction l as [|p l IH]; intros cache bl Hc Hl; cbn [check_pairs].
  { exists cache. cbn. by rewrite app_nil_r. }
  apply Forall_cons in Hl as [[c Hcl] Hl].
  destruct (verify_ip_outside s api (ip_gateway p) cache Hapi Hc) as (cache' & r & -> & Hc' & Hr). cbn.
  destruct (outside s api (ip_gateway p)) eqn:Eo.
  - rewrite (proj2 Hr eq_refl), Hcl. destruct (IH cache' (bl ++ [c]) Hc' Hl) as [c'' ->].
    exists c''. by rewrite <- app_assoc.
  - destruct r as [[]|]; [by apply IH| |by apply IH]. by specialize (proj1 Hr eq_refl).
Qed.

(** The map from mesh addresses to clients. *)
Definition by_mesh (l : list Identity) : gmap IpAddr Identity := foldl (fun m item => <[mesh_ip item := item]> m) ∅ l.
Lemma by_mesh_snoc l c : by_mesh (l ++ [c]) = <[mesh_ip c := c]> (by_mesh l).
Proof. unfold by_mesh. by rewrite foldl_app. Qed.
Lemma by_mesh_lookup l mesh :
  (exists c, by_mesh l !! mesh = Some c /\ c ∈ l /\ mesh_ip c = mesh)
  \/ (by_mesh l !! mesh = None /\ mesh ∉ mesh_ip <$> l).
Proof.
  induction l as [|c l IH] using rev_ind; [right; split; [done|apply not_elem_of_nil]|].
  rewrite by_mesh_snoc, fmap_app. destruct (decide (mesh_ip c = mesh)) as [<-|Hne].
  - left. exists c. rewrite lookup_insert_eq. split; [done|]. split; [set_solver|done].
  - rewrite lookup_insert_ne by done. destruct IH as [(d & Hd & Hin & Hm)|[Hd Hin]].
    + left. exists d. split; [done|]. split; [set_solver|done].
    + right. split; [done|]. cbn. set_solver.
Qed.

Lemma gateways_of_mesh remote_ip routes mesh p : p ∈ gateways_of remote_ip routes mesh -> ip_mesh p = mesh.
Proof.
  intros (r & _ & Hr)%list_elem_of_omap. destruct (remote_ip (rt_iface r)); [|done]. by injection Hr as <-.
Qed.

Lemma region_blacklist_exact s api remote_ip routes clients cache :
  api_configured s = true -> geo_cache_sound api cache -> NoDup (mesh_ip <$> clients) ->
  exists cache' bl, validate_clients_region s api remote_ip routes clients cache = Some (cache', bl)
    /\ forall c, c ∈ bl <-> c ∈ clients
         /\ exists p, p ∈ gateways_of remote_ip routes (mesh_ip c) /\ outside s api (ip_gateway p) = true.
Proof.
  intros Hapi Hc Hnd. unfold validate_clients_region. fold (by_mesh clients). rewrite bulk_run.
  set (pairs := (mesh_ip <$> clients) ≫= gateways_of remote_ip routes).
  assert (Forall (fun p => is_Some (by_mesh clients !! ip_mesh p)) pairs) as Hall.
  { apply Forall_forall. intros p (mesh & Hp & Hm)%list_elem_of_bind. rewrite (gateways_of_mesh _ _ _ _ Hp).
    destruct (by_mesh_lookup clients mesh) as [(c & -> & _)|[_ ?]]; [by eexists|done]. }
  destruct (check_pairs_run s api _ _ _ [] Hapi Hc Hall) as [cache' ->]. eexists _, _. split; [done|].
  intros c. cbn [app]. rewrite list_elem_of_omap. split.
  - intros (p & Hp & Ho). destruct (outside s api (ip_gateway p)) eqn:Eo; [|done].
    destruct (by_mesh_lookup clients (ip_mesh p)) as [(d & Hd & Hin & Hm)|[Hd _]]; [|congruence].
    assert (d = c) as -> by congruence. split; [done|]. exists p. split; [|done].
    apply list_elem_of_bind in Hp as (mesh & Hp & _). rewrite Hm. by rewrite (gateways_of_mesh _ _ _ _ Hp).
  - intros [Hin (p & Hp & Ho)]. exists p. split.
    + apply list_elem_of_bind. exists (mesh_ip c). split; [done|]. by apply list_elem_of_fmap_2.
    + rewrite Ho, (gateways_of_mesh _ _ _ _ Hp).
      destruct (by_mesh_lookup clients (mesh_ip c)) as [(d & -> & Hd & Hm)|[_ []]]; [|by apply list_elem_of_fmap_2].
      f_equal. apply list_elem_of_lookup in Hin as [i Hi]. apply list_elem_of_lookup in Hd as [j Hj].
      assert (j = i) as -> by (eapply (NoDup_lookup _ j i (mesh_ip c) Hnd); rewrite list_lookup_fmap, ?Hi, ?Hj; cbn; congruence).
      congruence.
Qed.

(** The check of regions never panics when the geoip service is configured
    (the map of clients has every looked up address), and the clients it wants
    removed are exactly the ones one of whose gateways the service places
    outside of the allowed countries; a service that does not answer removes
    nobody. *)
Theorem region_blacklist s api remote_ip routes clients cache :
  api_configured s = true -> geo_cache_sound api cache -> NoDup (mesh_ip <$> clients) ->
  exists cache' bl, validate_clients_region s api remote_ip routes clients cache = Some (cache', bl)
    /\ forall c, c ∈ bl <-> c ∈ clients
         /\ exists p, p ∈ gateways_of remote_ip routes (mesh_ip c) /\ outside s api (ip_gateway p) = true.
Proof. apply region_blacklist_exact. Qed.

(** * Tunnels and enforcement *)

Section clients.
Context `{N : IpNets} `{H : WgHash} `{P : Profile} (s : exit_settings).

Lemma no_changed_clients cs t2 t1 : find_changed_clients cs t2 t1 [] = {| new_v2 := ∅; new_v1 := ∅; all_v2 := ∅; all_v1 := ∅ |}.
Proof. unfold find_changed_clients. cbn. f_equal; set_solver. Qed.

(** The configuration of both tunnels, written when it differs from the last one. *)
Definition configured (cs : ExitClientSetupStates) (wg : gset ExitClient) : list kernel_action :=
  if bool_decide ((wg ∖ old_clients cs) ∪ (old_clients cs ∖ wg) = ∅) then []
  else [SetWgConfig wg (es_wg_tunnel_port s) LEGACY_INTERFACE; SetWgConfig wg (es_wg_v2_tunnel_port s) EXIT_INTERFACE].

Lemma setup_clients_run handshakes clients blacklist cs m :
  setup_clients s handshakes clients blacklist cs m
  = ('(m1, wg) ← exit_clients_of s clients m ∅;
     '(m2, black) ← exit_clients_of s blacklist m1 ∅;
     _ ← handshakes EXIT_INTERFACE; _ ← handshakes LEGACY_INTERFACE;
     Some (m2, configured cs (wg ∖ black),
           {| old_clients := old_clients cs; wg_exit_clients := ∅; wg_exit_v2_clients := ∅ |})).
Proof.
  unfold setup_clients. destruct (exit_clients_of s clients m ∅) as [[m1 wg]|]; [|done]. cbn [mbind option_bind].
  destruct (exit_clients_of s blacklist m1 ∅) as [[m2 black]|]; [|done]. cbn [mbind option_bind].
  destruct (handshakes EXIT_INTERFACE) as [t2|]; [|done]. destruct (handshakes LEGACY_INTERFACE) as [t1|]; [|done].
  rewrite map_to_list_empty. cbn [list_filter filter fmap list_fmap]. rewrite no_changed_clients. cbn.
  rewrite elements_empty. cbn. by rewrite app_nil_r.
Qed.

(** Setting up the clients of a tick, as the code has it: the map from keys
    to clients that the routes are set up from is never filled, so no route of a
    client is ever set up or torn down and no client is remembered as seen on an
    interface; and the clients of the tick are not remembered either, so that
    the first state is also the last and the two tunnels are configured anew on
    every tick that has a client outside of the blacklist. *)
Theorem setup_forgets handshakes clients blacklist cs m m1 m2 wg black t1 t2 :
  exit_clients_of s clients m ∅ = Some (m1, wg) -> exit_clients_of s blacklist m1 ∅ = Some (m2, black) ->
  handshakes LEGACY_INTERFACE = Some t1 -> handshakes EXIT_INTERFACE = Some t2 -> old_clients cs = ∅ ->
  setup_clients s handshakes clients blacklist cs m
  = Some (m2, if bool_decide (wg ∖ black = ∅) then []
              else [SetWgConfig (wg ∖ black) (es_wg_tunnel_port s) LEGACY_INTERFACE;
                    SetWgConfig (wg ∖ black) (es_wg_v2_tunnel_port s) EXIT_INTERFACE],
          {| old_clients := ∅; wg_exit_clients := ∅; wg_exit_v2_clients := ∅ |}).
Proof.
  intros Hwg Hbl Ht1 Ht2 Hold. rewrite setup_clients_run, Hwg. cbn. rewrite Hbl. cbn. rewrite Ht2, Ht1. cbn.
  unfold configured. rewrite Hold.
  assert (((wg ∖ black) ∖ ∅ ∪ ∅ ∖ (wg ∖ black)) = wg ∖ black) as -> by set_solver. done.
Qed.

(** What the kernel is asked for one client. *)
Definition limits_of (ip : Z) : list kernel_action :=
  [SetClassLimit LEGACY_INTERFACE (es_free_tier s) (es_free_tier s) ip;
   SetClassLimit EXIT_INTERFACE (es_free_tier s) (es_free_tier s) ip].
Definition is_flow (a : kernel_action) : bool :=
  match a with CreateFlow _ _ | CreateFlow6 _ _ _ => true | _ => false end.

Lemma enforce_client_spec v id act ip m m' acts :
  enforce_client s v id act ip m = Some (m', acts) ->
  (act = SuspendTunnel -> limits_of ip ⊆ acts)
  /\ (act <> SuspendTunnel -> acts = if unenforce_required v ip
                                     then [DeleteClass LEGACY_INTERFACE ip; DeleteClass EXIT_INTERFACE ip] else [])
  /\ (flow_setup_required v ip = false -> Forall (fun a => is_flow a = false) acts).
Proof.
  unfold enforce_client. fold (limits_of ip). destruct act as [| |to amount].
  - destruct (flow_setup_required v ip) eqn:Ef.
    + destruct (get_client_ipv6 id _ _ m) as [[e|[m1 [n|]]]|]; [| | |done]; intros [= <- <-];
        (split; [intros _; set_solver|split; done]).
    + intros [= <- <-]. split; [done|]. split; [done|]. intros _. by repeat constructor.
  - destruct (unenforce_required v ip); intros [= <- <-]; (split; [done|split; [done|]]); intros _; by repeat constructor.
  - destruct (unenforce_required v ip); intros [= <- <-]; (split; [done|split; [done|]]); intros _; by repeat constructor.
Qed.

(** What holds of every client's share of the actions holds of the whole. *)
Lemma enforce_entries_elem v ids l m m' acts id d c ip :
  enforce_entries s v ids l m = Some (m', acts) -> (id, d) ∈ l -> ids !! identity_key id = Some c ->
  ec_internal_ip c = V4 ip ->
  exists m1 m2 share, enforce_client s v id (action d) ip m1 = Some (m2, share) /\ share ⊆ acts.
Proof.
  revert m acts. induction l as [|[id' d'] l IH]; intros m acts; cbn; [by intros _ ?%not_elem_of_nil|].
  destruct (match ids !! identity_key id' with Some _ => _ | None => _ end) as [[m1 a1]|] eqn:E; [|done].
  destruct (enforce_entries s v ids l m1) as [[m2 a2]|] eqn:E2; [|done]. intros [= <- <-] Hin Hc Hip.
  apply elem_of_cons in Hin as [[= -> ->]|Hin].
  - rewrite Hc, Hip in E. exists m, m1, a1. split; [done|]. set_solver.
  - destruct (IH m1 a2 E2 Hin Hc Hip) as (m3 & m4 & share & Hs & Hsub). exists m3, m4, share. split; [done|]. set_solver.
Qed.

Lemma enforce_entries_Forall v ids l m m' acts (Q : kernel_action -> Prop) :
  (forall id act ip m m' acts, enforce_client s v id act ip m = Some (m', acts) -> Forall Q acts) ->
  enforce_entries s v ids l m = Some (m', acts) -> Forall Q acts.
Proof.
  intros Hone. revert m acts. induction l as [|[id d] l IH]; intros m acts; cbn; [intros [= <- <-]; constructor|].
  destruct (match ids !! identity_key id with Some _ => _ | None => _ end) as [[m1 a1]|] eqn:E; [|done].
  destruct (enforce_entries s v ids l m1) as [[m2 a2]|] eqn:E2; [|done]. intros [= <- <-].
  apply Forall_app. split; [|by eapply IH]. destruct (ids !! identity_key id) as [c|].
  - destruct (ec_internal_ip c); [by eapply Hone|injection E as _ <-; constructor].
  - injection E as _ <-. constructor.
Qed.

(** A round of enforcement whose debts changed since the last one: every
    suspended client of the exit has its class limited to the free tier on both
    interfaces, and every other client that has a class on one of them has it
    removed from both. *)
Theorem enforcement_verdicts v clients old debts m m1 m2 ids acts new id d c ip :
  clients_by_id s clients m ∅ = Some (m1, ids) -> same_actions (debt_actions_of debts) old debt_action_eqb = false ->
  enforce_exit_clients s v clients old debts m = Some (m2, acts, new) ->
  (id, d) ∈ debts -> ids !! identity_key id = Some c -> ec_internal_ip c = V4 ip ->
  new = debt_actions_of debts
  /\ (action d = SuspendTunnel -> limits_of ip ⊆ acts)
  /\ (action d <> SuspendTunnel -> unenforce_required v ip = true ->
      [DeleteClass LEGACY_INTERFACE ip; DeleteClass EXIT_INTERFACE ip] ⊆ acts).
Proof.
  intros Hids Hsame. unfold enforce_exit_clients. rewrite Hids, Hsame.
  destruct (enforce_entries s v ids debts m1) as [[m3 a]|] eqn:E; [|done]. intros [= <- <- <-] Hin Hc Hip.
  split; [done|]. destruct (enforce_entries_elem _ _ _ _ _ _ _ _ _ _ E Hin Hc Hip) as (? & ? & share & Hs & Hsub).
  apply enforce_client_spec in Hs as (H1 & H2 & _). split.
  - intros Ha. by etrans; [apply H1|].
  - intros Ha Hu. specialize (H2 Ha). rewrite Hu in H2. by subst share.
Qed.

(** Enforcement never creates the first flow: as long as the kernel reports no
    flow for any address, no round asks for one, so the limited classes have no
    traffic in them (the condition for the set up of flows is the negation of
    what its comment says). *)
Theorem enforcement_without_flows v clients old debts m m' acts new :
  (forall ip i, has_flow v ip i <> Some true) ->
  enforce_exit_clients s v clients old debts m = Some (m', acts, new) -> Forall (fun a => is_flow a = false) acts.
Proof.
  intros Hno. unfold enforce_exit_clients. destruct (clients_by_id s clients m ∅) as [[m1 ids]|]; [|done].
  destruct (same_actions _ _ _); [intros [= <- <- <-]; constructor|].
  destruct (enforce_entries s v ids debts m1) as [[m2 a]|] eqn:E; [|done]. intros [= <- <- <-].
  eapply enforce_entries_Forall; [|exact E]. intros id act ip ? ? ? Hc. apply enforce_client_spec in Hc as (_ & _ & Hf).
  apply Hf. unfold flow_setup_required. pose proof (Hno ip EXIT_INTERFACE). pose proof (Hno ip LEGACY_INTERFACE).
  destruct (has_flow v ip EXIT_INTERFACE) as [[]|]; [done| |]; by destruct (has_flow v ip LEGACY_INTERFACE) as [[]|].
Qed.
End clients.
