(* ===== verification/ExitTraffic.v ===== *)
(** Billing between a client and its exit: the exit's traffic watcher
    (rita_exit/src/traffic_watcher/mod.rs), the client's
    (rita_client/src/traffic_watcher/mod.rs) and the usage history of wireguard
    counters (althea_kernel_interface/src/wg_iface_counter.rs).  What the kernel
    reports and what the exit answers are arguments. *)
From S2P Require Import Prelude Types Oracle TxFee DebtKeeper Trim UsageTracker Text Babel ExitDatabase.

Module ExitTraffic.

Record WgUsage := { upload : Z; download : Z }.
Abbreviation WgUsages := (gmap Z WgUsage).

(** One entry of [prepare_usage_history]. *)
Definition prepare_entry (bytes : WgUsage) (seen : option WgUsage) : WgUsage :=
  match seen with
  | Some history => {|
      upload := if upload bytes <? upload history then 0 else upload history;
      download := if download bytes <? download history then 0 else download history |}
  | None => bytes
  end.
Definition prepare_usage_history (counters usage_history : WgUsages) : WgUsages :=
  foldl (fun h x => <[x.1 := prepare_entry x.2 (h !! x.1)]> h) usage_history (map_to_list counters).

Section watcher.
Context `{N : Num256} `{P : Profile}.

(** A loop whose body may panic. *)
Fixpoint fold_option {A B : Type} (f : B -> A -> option B) (l : list A) (b : B) : option B :=
  match l with
  | [] => Some b
  | a :: l => b ← f b a; fold_option f l b
  end.

(** * The exit *)

(** The settings the exit's billing reads. *)
Record bill_settings := {
  bs_our_id : option Identity;
  bs_local_fee : Z;
  bs_max_fee : Z;
  bs_exit_price : Z;
  bs_tx_fee : Z;
}.

Fixpoint add_client_routes (max_fee : Z) (id_from_ip : gmap IpAddr Identity) (routes : list Route)
    (destinations : gmap Z Z) : gmap Z Z :=
  match routes with
  | [] => destinations
  | route :: rest =>
      add_client_routes max_fee id_from_ip rest
        match prefix route with
        | NetV6 ip len =>
            if (len =? 128) && installed route then
              match id_from_ip !! V6 ip with
              | Some id =>
                  <[wg_public_key id := if max_fee <? rt_price route then max_fee else rt_price route]> destinations
              | None => destinations
              end
            else destinations
        | NetV4 _ _ => destinations
        end
  end.
Definition get_babel_info (s : bill_settings) (routes : list Route) (our_id : Identity)
    (id_from_ip : gmap IpAddr Identity) : gmap Z Z :=
  add_client_routes (bs_max_fee s) id_from_ip routes {[ wg_public_key our_id := bs_local_fee s ]}.

(** The identity of the exit carries its mesh address. *)
Definition generate_helper_maps (our_id : Identity) (clients : list Identity)
    : gmap Z Identity * gmap IpAddr Identity :=
  foldl (fun '(identities, id_from_ip) ident =>
           (<[wg_public_key ident := ident]> identities, <[mesh_ip ident := ident]> id_from_ip))
        (∅, {[ mesh_ip our_id := our_id ]}) clients.

(** The two sums of [counters_logging]. *)
Definition moved (field : WgUsage -> Z) (counters history : WgUsages) : option Z :=
  fold_option (fun total x =>
    match history !! x.1 with
    | Some h => b ← u64_of (field x.2 - field h); u64_of (total + b)
    | None => Some total
    end) (map_to_list counters) 0.

Definition merge_one (ret : WgUsages) (x : Z * WgUsage) : option WgUsages :=
  match ret !! x.1 with
  | Some usage =>
      up ← u64_of (upload usage + upload x.2);
      down ← u64_of (download usage + download x.2);
      Some (<[x.1 := {| upload := up; download := down |}]> ret)
  | None => Some (<[x.1 := x.2]> ret)
  end.
Definition merge_counters (old_counters new_counters : WgUsages) : option WgUsages :=
  fold_option merge_one (map_to_list new_counters) old_counters.

Abbreviation Debts := (gmap id_key (Identity * Z)).

(** What one pass of the two loops does: [field] is the counter it reads and
    [set] the one it records, [value] the price of the used bytes. *)
Definition bill_client (field : WgUsage -> Z) (set : WgUsage -> WgUsage -> WgUsage) (value : Z -> Z -> option Z)
    (identities : gmap Z Identity) (destinations : gmap Z Z) (st : Debts * WgUsages) (x : Z * WgUsage)
    : option (Debts * WgUsages) :=
  let '(debts, usage_history) := st in
  let '(wg_key, bytes) := x in
  match identities !! wg_key, destinations !! wg_key, usage_history !! wg_key with
  | Some id, Some dest, Some history =>
      match hm_get id debts with
      | Some debt =>
          used ← u64_of (field bytes - field history);
          v ← value dest used;
          debt ← i128_of (debt - v);
          Some (hm_insert id debt debts, <[wg_key := set bytes history]> usage_history)
      | None => Some st
      end
  | _, _, _ => Some st
  end.
Definition input_value (our_price : Z) (dest used : Z) : option Z := i128_of (our_price * used).
Definition output_value (our_price tx_fee : Z) (dest used : Z) : option Z :=
  forward ← i128_of (dest * used);
  tx_fee_surcharge ← (if tx_fee =? 0 then None else Some (forward ÷ tx_fee));
  price ← u64_of (dest + our_price);
  v ← i128_of (price * used);
  i128_of (v + tx_fee_surcharge).
Definition bill_input (our_price : Z) : gmap Z Identity -> gmap Z Z -> Debts * WgUsages -> Z * WgUsage -> option (Debts * WgUsages) :=
  bill_client download (fun bytes h => {| upload := upload h; download := download bytes |}) (input_value our_price).
Definition bill_output (our_price tx_fee : Z) : gmap Z Identity -> gmap Z Z -> Debts * WgUsages -> Z * WgUsage -> option (Debts * WgUsages) :=
  bill_client upload (fun bytes h => {| upload := upload bytes; download := download h |}) (output_value our_price tx_fee).

Definition client_debts (identities : gmap Z Identity) : Debts :=
  foldl (fun debts ident => hm_insert ident 0 debts) ∅ (map_to_list identities).*2.

(** The exit's state the watcher writes to. *)
Record ExitTrafficWorld := { xw_history : WgUsages; xw_debts : World; xw_usage : UsageState }.
Record exit_watch_env := {
  xe_settings : bill_settings;
  xe_netns : Z;
  xe_default : option DebtKeeper;
  xe_legacy : option WgUsages;
  xe_exit : option WgUsages;
  xe_hour : option Z;
  xe_now : Z * Z * Z;
}.

(** [counters_logging]: the usage of the round. *)
Definition counters_logging (e : exit_watch_env) (counters history : WgUsages) (exit_fee : Z) (u : UsageState)
    : option UsageState :=
  total_in ← moved download counters history;
  total_out ← moved upload counters history;
  let '(now1, now2, now3) := xe_now e in
  update_usage_data (xe_hour e) now1 now2 now3
    {| kind := Exit; msg_up := total_out; msg_down := total_in; msg_price := exit_fee |} u.

(** [debts_logging] adds the debts up for the log. *)
Definition debts_logging (debts : Debts) : option Z :=
  fold_option (fun total income => i128_of (total + income)) (hm_entries debts).*2 0.

Definition watch_exit_traffic (e : exit_watch_env) (routes : list Route) (clients : list Identity)
    : M ExitTrafficWorld RitaExitError unit :=
  let s := xe_settings e in
  let! our_id := ok_or (bs_our_id s) (ExitMisc "Identity is not ready") in
  let '(identities, id_from_ip) := generate_helper_maps our_id clients in
  let destinations := get_babel_info s routes our_id id_from_ip in
  let! counters := ok_or (xe_legacy e) ExitKernelError in
  let! new_counters := ok_or (xe_exit e) ExitKernelError in
  let! counters := unwrap (merge_counters counters new_counters) in
  fun w =>
    let history := prepare_usage_history counters (xw_history w) in
    match counters_logging e counters history (bs_exit_price s mod 2 ^ 32) (xw_usage w) with
    | None => Panic
    | Some usage =>
        match (st ← fold_option (bill_input (bs_exit_price s) identities destinations)
                      (map_to_list counters) (client_debts identities, history);
               st ← fold_option (bill_output (bs_exit_price s) (bs_tx_fee s) identities destinations)
                      (map_to_list counters) st;
               _ ← debts_logging st.1;
               Some st) with
        | None => Panic
        | Some (debts, history) =>
            let traffic_vec := (fun x => {| traffic_from := x.1; traffic_amount := x.2 |}) <$> hm_entries debts in
            match traffic_update (xe_netns e) (xe_default e) traffic_vec (xw_debts w) with
            | Done d _ => Done {| xw_history := history; xw_debts := d; xw_usage := usage |} tt
            | Fail d _ => Done {| xw_history := history; xw_debts := d; xw_usage := usage |} tt
            | Panic => Panic
            end
        end
    end.

(** * The client *)

Record TrafficWatcher := { last_read_input : Z; last_read_output : Z; last_exit_dest_price : Z }.
Definition TrafficWatcher_default : TrafficWatcher :=
  {| last_read_input := 0; last_read_output := 0; last_exit_dest_price := 0 |}.

Inductive ClientTrafficError := BabelError (e : BabelMonitorError) | NoPeers | CountersError.

Definition set_price (p : Z) (r : Route) : Route := {|
  rt_id := rt_id r; rt_iface := rt_iface r; xroute := xroute r; installed := installed r;
  neigh_ip := neigh_ip r; prefix := prefix r; metric := metric r; refmetric := refmetric r;
  full_path_rtt := full_path_rtt r; rt_price := p; rt_fee := rt_fee r |}.
Definition find_exit_route_capped (max_fee : Z) (exit_mesh_ip : IpAddr) (routes : list Route)
    : BabelMonitorError + Route :=
  match get_installed_route exit_mesh_ip routes with
  | inl e => inl e
  | inr exit_route => inr (if max_fee <? rt_price exit_route then set_price max_fee exit_route else exit_route)
  end.

(** The client's state, and what it reads: [ce_counters] are the counters of
    [wg_exit] in the order the map gives them, the last one is used. *)
Record ClientTrafficWorld := { cw_watcher : TrafficWatcher; cw_debts : World; cw_usage : UsageState }.
Record client_watch_env := {
  ce_max_fee : Z;
  ce_tx_fee : Z;
  ce_counters : option (list WgUsage);
  ce_hour : option Z;
  ce_now : Z * Z * Z;
  ce_netns : Z;
  ce_default : option DebtKeeper;
  ce_gateway : bool;
  ce_instant : Z;
}.

Definition local_traffic_calculation (e : client_watch_env) (exit : Identity) (exit_price : Z) (routes : list Route)
    : M ClientTrafficWorld ClientTrafficError Z :=
  let! exit_route := fun w => match find_exit_route_capped (ce_max_fee e) (mesh_ip exit) routes with
                              | inl err => Fail w (BabelError err)
                              | inr r => Done w r
                              end in
  let! res := ok_or (ce_counters e) CountersError in
  let! counter := ok_or (last res) NoPeers in
  fun w =>
    let history := cw_watcher w in
    let reset := (download counter <? last_read_input history) || (upload counter <? last_read_output history) in
    let last_in := if reset then 0 else last_read_input history in
    let last_out := if reset then 0 else last_read_output history in
    match (input ← u64_of (download counter - last_in);
           output ← u64_of (upload counter - last_out);
           exit_dest_price ← i128_of (rt_price exit_route + exit_price);
           value ← i128_of (input * exit_dest_price);
           surcharge ← (if ce_tx_fee e =? 0 then None else Some (value ÷ ce_tx_fee e));
           value ← i128_of (value + surcharge);
           sent ← u64_of (exit_price * output);
           owes_exit ← i128_of (value + sent);
           Some (input, output, exit_dest_price, owes_exit)) with
    | None => Panic
    | Some (input, output, exit_dest_price, owes_exit) =>
        let watcher := {| last_read_input := download counter; last_read_output := upload counter;
                          last_exit_dest_price := exit_dest_price mod 2 ^ 128 |} in
        let '(now1, now2, now3) := ce_now e in
        match (if 0 <? owes_exit then
                 update_usage_data (ce_hour e) now1 now2 now3
                   {| kind := Client; msg_up := output; msg_down := input; msg_price := exit_dest_price mod 2 ^ 32 |}
                   (cw_usage w)
               else Some (cw_usage w)) with
        | None => Panic
        | Some usage =>
            if 0 <=? owes_exit
            then Done {| cw_watcher := watcher; cw_debts := cw_debts w; cw_usage := usage |} owes_exit
            else Panic
        end
    end.

(** What the exit answers to the request for our debt. *)
Inductive debt_answer := RequestFailed | NotJson | ExitSays (debt : Z).
Record QueryExitDebts := { qe_exit_id : Identity; qe_exit_price : Z; qe_routes : list Route }.

(** A call into the debt keeper; its errors are not looked at. *)
Definition on_debts (f : World -> outcome World RitaCommonError unit) : M ClientTrafficWorld ClientTrafficError unit :=
  fun w => match f (cw_debts w) with
           | Done d _ | Fail d _ => Done {| cw_watcher := cw_watcher w; cw_debts := d; cw_usage := cw_usage w |} tt
           | Panic => Panic
           end.

Definition query_exit_debts (e : client_watch_env) (answer : debt_answer) (msg : QueryExitDebts)
    : M ClientTrafficWorld ClientTrafficError unit :=
  let! local_debt := fun w =>
    match local_traffic_calculation e (qe_exit_id msg) (qe_exit_price msg) (qe_routes msg) w with
    | Done w val => Done w (Some val)
    | Fail w _ => Done w None
    | Panic => Panic
    end in
  let bill_locally :=
    match local_debt with
    | Some val => on_debts (traffic_update (ce_netns e) (ce_default e)
                              [{| traffic_from := qe_exit_id msg; traffic_amount := val |}])
    | None => ret tt
    end in
  match answer with
  | RequestFailed | NotJson => bill_locally
  | ExitSays debt =>
      if negb (ce_gateway e) then
        if 0 <=? debt then
          on_debts (traffic_replace (ce_netns e) (ce_default e) (ce_instant e)
                      {| traffic_from := qe_exit_id msg; traffic_amount := debt |})
        else ret tt
      else
        match local_debt with
        | Some val => on_debts (gateway_traffic_update (ce_netns e) (ce_default e)
                                  {| traffic_from := qe_exit_id msg; traffic_amount := val |})
        | None => ret tt
        end
  end.

(** * The exit's answer *)

(** [get_client_debt] of rita_exit/src/network_endpoints/mod.rs; [debts] is the
    list the debt keeper gives and [issues] what the oracle says. [None] is a
    panic; a client that is not found gets a text that is no number. *)
Fixpoint client_debt_in (client : Identity) (debts : list (Identity * NodeDebtData)) : option debt_answer :=
  match debts with
  | [] => Some NotJson
  | (identity, d) :: rest =>
      if identity_eqb identity client then
        let client_debt := debt d in
        let we_owe_them := 0 <? client_debt in
        if we_owe_them then Some (ExitSays 0)
        else
          negated ← i_mul (-1) client_debt;
          owed ← to_uint256 negated;
          if owed <? incoming_payments d then Some (ExitSays 0)
          else ret ← i_mul client_debt (-1); Some (ExitSays ret)
      else client_debt_in client rest
  end.
Definition get_client_debt (issues : bool) (debts : list (Identity * NodeDebtData)) (client : Identity)
    : option debt_answer :=
  if issues then Some (ExitSays 0) else client_debt_in client debts.
End watcher.
End ExitTraffic.
Export ExitTraffic.
