(* ===== verification/ExitTrafficSpec.v ===== *)
(** What the exit and the client bill (ExitTraffic.v): the passes of the exit over
    its counters, one round of each side, and how the two bills compare. *)
From S2P Require Import Prelude Types Oracle TxFee DebtKeeper DebtKeeperSpec Trim UsageTracker Text Babel.
From S2P Require Import TrafficWatcher TrafficWatcherSpec ExitDatabase ExitTraffic.
(** * Loops over counters *)

Lemma prepare_run l (h : WgUsages) k :
  NoDup l.*1 ->
  foldl (fun h x => <[x.1 := prepare_entry x.2 (h !! x.1)]> h) h l !! k
  = match (list_to_map l : WgUsages) !! k with
    | Some b => Some (prepare_entry b (h !! k))
    | None => h !! k
    end.
Proof.
  revert h. induction l as [|[k' b] l IH]; intros h Hnd; [done|].
  apply NoDup_cons in Hnd as [Hk Hnd]. cbn [foldl fst snd] in *. rewrite IH, list_to_map_cons by done.
  destruct (decide (k' = k)) as [->|Hne].
  - by rewrite not_elem_of_list_to_map_1, !lookup_insert_eq by done.
  - by rewrite !lookup_insert_ne.
Qed.

Lemma prepare_lookup c h k :
  prepare_usage_history c h !! k
  = match c !! k with Some b => Some (prepare_entry b (h !! k)) | None => h !! k end.
Proof.
  unfold prepare_usage_history. rewrite prepare_run by apply NoDup_fst_map_to_list. by rewrite list_to_map_to_list.
Qed.

Section merge.
Context `{P : Profile}.
(** The sum of the counters of both interfaces. *)
Definition merged (a b : option WgUsage) : option WgUsage :=
  match a, b with
  | Some x, Some y => Some {| upload := upload x + upload y; download := download x + download y |}
  | Some x, None => Some x
  | None, y => y
  end.

Lemma merge_run l (m : WgUsages) :
  NoDup l.*1 ->
  (forall k x y, m !! k = Some x -> (k, y) ∈ l ->
     0 <= upload x + upload y <= U64_MAX /\ 0 <= download x + download y <= U64_MAX) ->
  exists m', fold_option merge_one l m = Some m'
    /\ forall k, m' !! k = merged (m !! k) ((list_to_map l : WgUsages) !! k).
Proof.
  revert m. induction l as [|[k y] l IH]; intros m Hnd Hb.
  { exists m. split; [done|]. intros k. cbn. rewrite lookup_empty. by destruct (m !! k). }
  apply NoDup_cons in Hnd as [Hk Hnd]. cbn in Hk.
  assert (exists m1, merge_one m (k, y) = Some m1 /\ m1 !! k = merged (m !! k) (Some y)
                     /\ forall k', k <> k' -> m1 !! k' = m !! k') as (m1 & E & Hk1 & Hne).
  { unfold merge_one. cbn. destruct (m !! k) as [x|] eqn:Ex; cbn.
    - destruct (Hb k x y Ex ltac:(left)) as [? ?]. unfold u64_of. rewrite !native_exact by done. cbn.
      eexists. split; [done|]. split; [apply lookup_insert_eq|]. intros. by apply lookup_insert_ne.
    - eexists. split; [done|]. split; [apply lookup_insert_eq|]. intros. by apply lookup_insert_ne. }
  cbn [fold_option]. rewrite E. cbn. destruct (IH m1 Hnd) as (m' & Hm' & Hget).
  { intros k' x z Hx Hz. destruct (decide (k = k')) as [<-|Hkk].
    - destruct Hk. by apply list_elem_of_fmap_2 with (f := fst) in Hz.
    - rewrite Hne in Hx by done. apply (Hb k' x z Hx). by right. }
  exists m'. split; [done|]. intros k'. rewrite Hget. destruct (decide (k = k')) as [<-|Hkk].
  - rewrite not_elem_of_list_to_map_1, Hk1, lookup_insert_eq by done. by destruct (m !! k).
  - by rewrite Hne, lookup_insert_ne.
Qed.

Lemma merge_exact a b :
  (forall k x y, a !! k = Some x -> b !! k = Some y ->
     0 <= upload x + upload y <= U64_MAX /\ 0 <= download x + download y <= U64_MAX) ->
  exists c, merge_counters a b = Some c /\ forall k, c !! k = merged (a !! k) (b !! k).
Proof.
  intros Hb. destruct (merge_run (map_to_list b) a) as (c & Hc & Hget); [apply NoDup_fst_map_to_list| |].
  - intros k x y Hx Hy%elem_of_map_to_list. eauto.
  - exists c. split; [done|]. intros k. by rewrite Hget, list_to_map_to_list.
Qed.
End merge.

(** * One pass over the counters *)

Section pass.
Context `{P : Profile} (field : WgUsage -> Z) (set : WgUsage -> WgUsage -> WgUsage).
Context (value : Z -> Z -> option Z) (pz : Z -> Z -> Z) (V : Z).
Context (identities : gmap Z Identity) (dests : gmap Z Z).
Hypothesis Hids : forall k id, identities !! k = Some id -> wg_public_key id = k.
Hypothesis Hvalue : forall k d used, dests !! k = Some d -> 0 <= used <= U64_MAX ->
  value d used = Some (pz d used) /\ 0 <= pz d used <= V.

(** Who pays which price for a counter. *)
Definition payer (k : Z) : option (Identity * Z) :=
  match identities !! k, dests !! k with Some id, Some d => Some (id, d) | _, _ => None end.
(** What a client is charged and what is remembered of its counters. *)
Definition charge (c h : WgUsages) (id : Identity) : Z :=
  let k := wg_public_key id in
  match payer k, c !! k, h !! k with
  | Some (j, d), Some b, Some hist => if bool_decide (key j = key id) then pz d (field b - field hist) else 0
  | _, _, _ => 0
  end.
Definition recorded (c h : WgUsages) (k : Z) : option WgUsage :=
  match payer k, c !! k, h !! k with
  | Some _, Some b, Some hist => Some (set b hist)
  | _, _, _ => h !! k
  end.

Lemma key_wg (i j : Identity) : key i = key j -> wg_public_key i = wg_public_key j.
Proof. unfold key, identity_key. by intros [= _ _ ->]. Qed.

(** A pass over one more counter; the counters of the rest have other keys. *)
Lemma charge_insert c h k b id :
  c !! k = None ->
  charge (<[k := b]> c) h id = if decide (wg_public_key id = k) then charge {[k := b]} h id else charge c h id.
Proof.
  intros Hc. unfold charge. destruct (decide (wg_public_key id = k)) as [->|Hne].
  - by rewrite lookup_insert_eq, lookup_singleton_eq.
  - by rewrite lookup_insert_ne.
Qed.

Lemma bill_client_skip debts h k b :
  payer k = None \/ h !! k = None ->
  bill_client field set value identities dests (debts, h) (k, b) = Some (debts, h)
  /\ (forall id, wg_public_key id = k -> charge {[k := b]} h id = 0)
  /\ recorded {[k := b]} h k = h !! k.
Proof.
  unfold bill_client, charge, recorded, payer. intros Hno. split.
  { destruct (identities !! k), (dests !! k), (h !! k); by destruct Hno. }
  split; [intros id ->|]; rewrite lookup_singleton_eq; destruct (identities !! k), (dests !! k), (h !! k);
    by destruct Hno.
Qed.

Lemma bill_client_pay debts h k b id d hist x K :
  payer k = Some (id, d) -> h !! k = Some hist -> hm_get id debts = Some x -> - K <= x <= K ->
  0 <= field b - field hist <= U64_MAX -> 0 <= K -> 0 <= V -> K + V <= I128_MAX ->
  bill_client field set value identities dests (debts, h) (k, b)
  = Some (hm_insert id (x - pz d (field b - field hist)) debts, <[k := set b hist]> h).
Proof.
  unfold bill_client, payer. intros Hp Hh Hx HK Hb H0 HV Hmax.
  destruct (identities !! k) as [j|]; [|done]. destruct (dests !! k) as [d'|] eqn:Ed; [|done].
  injection Hp as -> ->. rewrite Hh, Hx. unfold u64_of. rewrite native_exact by done. cbn.
  destruct (Hvalue k d _ Ed Hb) as [-> Hpz]. cbn.
  unfold i128_of. rewrite native_exact by (unfold I128_MIN; lia). done.
Qed.

Lemma payer_wg k id d : payer k = Some (id, d) -> identities !! k = Some id /\ wg_public_key id = k.
Proof.
  unfold payer. destruct (identities !! k) as [j|] eqn:E; [|done]. destruct (dests !! k); [|done].
  intros [= -> ->]. split; [done|by apply Hids].
Qed.

(** One counter: its client is charged, its entry recorded, nothing else moves. *)
Lemma bill_step k b debts h K :
  0 <= K -> 0 <= V -> K + V <= I128_MAX ->
  (forall id, identities !! k = Some id -> exists x, hm_get id debts = Some x /\ - K <= x <= K) ->
  (forall hist, h !! k = Some hist -> 0 <= field b - field hist <= U64_MAX) ->
  exists debts1 h1, bill_client field set value identities dests (debts, h) (k, b) = Some (debts1, h1)
    /\ (forall id, hm_get id debts1
          = (fun x => x - if decide (wg_public_key id = k) then charge {[k := b]} h id else 0) <$> hm_get id debts)
    /\ h1 !! k = recorded {[k := b]} h k /\ (forall k', k' <> k -> h1 !! k' = h !! k')
    /\ (hm_wf debts -> hm_wf debts1).
Proof.
  intros HK HV Hmax Hd Hb.
  assert (payer k = None \/ h !! k = None ->
    exists debts1 h1, bill_client field set value identities dests (debts, h) (k, b) = Some (debts1, h1)
      /\ (forall id, hm_get id debts1
            = (fun x => x - if decide (wg_public_key id = k) then charge {[k := b]} h id else 0) <$> hm_get id debts)
      /\ h1 !! k = recorded {[k := b]} h k /\ (forall k', k' <> k -> h1 !! k' = h !! k')
      /\ (hm_wf debts -> hm_wf debts1)) as Hskip.
  { intros Hno. destruct (bill_client_skip debts h k b Hno) as (E & Hz & Hr). exists debts, h. split; [done|].
    split; [|by rewrite Hr]. intros id. destruct (hm_get id debts); [|done]. cbn. f_equal.
    case_decide; [rewrite Hz by done|]; lia. }
  destruct (payer k) as [[id d]|] eqn:Ep; [|by apply Hskip; left].
  destruct (h !! k) as [hist|] eqn:Eh; [|by apply Hskip; right]. clear Hskip.
  destruct (payer_wg _ _ _ Ep) as [Eid Ewg]. destruct (Hd id Eid) as (x & Hx & HxK).
  specialize (Hb hist eq_refl). rewrite (bill_client_pay debts h k b id d hist x K) by done.
  eexists _, _. split; [done|]. split; [|split; [|split]].
  - intros j. destruct (decide (key id = key j)) as [Hj|Hj].
    + rewrite hm_get_insert_same, <- (hm_get_same _ _ debts Hj), Hx by done. cbn. f_equal.
      rewrite decide_True by (rewrite <- (key_wg _ _ Hj); done). unfold charge.
      rewrite <- (key_wg _ _ Hj), Ewg, Ep, lookup_singleton_eq, Eh. by rewrite bool_decide_eq_true_2.
    + rewrite hm_get_insert_ne by done. destruct (hm_get j debts); [|done]. cbn. f_equal.
      case_decide as Hw; [|lia]. unfold charge. rewrite Hw, Ep, lookup_singleton_eq, Eh.
      rewrite bool_decide_eq_false_2 by done. lia.
  - unfold recorded. by rewrite Ep, Eh, lookup_singleton_eq, lookup_insert_eq.
  - intros k' Hk'. by rewrite lookup_insert_ne.
  - apply hm_wf_insert.
Qed.

Lemma pass_exact l debts h K :
  NoDup l.*1 -> 0 <= K -> 0 <= V -> K + V <= I128_MAX ->
  (forall k id, k ∈ l.*1 -> identities !! k = Some id -> exists x, hm_get id debts = Some x /\ - K <= x <= K) ->
  (forall k b hist, (k, b) ∈ l -> h !! k = Some hist -> 0 <= field b - field hist <= U64_MAX) ->
  exists debts' h', fold_option (bill_client field set value identities dests) l (debts, h) = Some (debts', h')
    /\ (forall id, hm_get id debts' = (fun x => x - charge (list_to_map l) h id) <$> hm_get id debts)
    /\ (forall k, h' !! k = recorded (list_to_map l) h k)
    /\ (hm_wf debts -> hm_wf debts').
Proof.
  intros Hnd HK HV Hmax. revert debts h. induction l as [|[k b] l IH]; intros debts h Hd Hb.
  { exists debts, h. split; [done|]. unfold charge, recorded. split; [|split; [|done]].
    - intros id. cbn. rewrite lookup_empty. destruct (payer _) as [[]|], (hm_get id debts); cbn; f_equal; lia.
    - intros k. cbn. rewrite lookup_empty. by destruct (payer k). }
  apply NoDup_cons in Hnd as [Hk Hnd]. cbn in Hk. cbn [fold_option].
  assert ((list_to_map l : WgUsages) !! k = None) as Hkl by by apply not_elem_of_list_to_map_1.
  destruct (bill_step k b debts h K HK HV Hmax) as (debts1 & h1 & -> & Hd1 & Hh1 & Hne & Hwf).
  { intros id Hid. apply (Hd k id); [left|done]. }
  { intros hist Hh. apply (Hb k b hist); [left|done]. }
  cbn. destruct (IH Hnd debts1 h1) as (debts' & h' & E & Hdeb & Hh & Hwf').
  - intros k' id Hk' Hid. destruct (Hd k' id) as (x & Hx & HxK); [by right|done|]. exists x.
    rewrite Hd1, Hx. cbn. rewrite decide_False by (rewrite (Hids _ _ Hid); by intros ->). split; [f_equal; lia|done].
  - intros k' b' hist Hin. rewrite Hne by (intros ->; destruct Hk; by apply list_elem_of_fmap_2 with (f := fst) in Hin).
    apply Hb. by right.
  - exists debts', h'. split; [done|]. split; [|split; [|auto]].
    + intros id. rewrite Hdeb, Hd1. destruct (hm_get id debts); [|done]. cbn. f_equal.
      rewrite charge_insert by done. case_decide as Hw.
      * assert (charge (list_to_map l) h1 id = 0) as -> by (unfold charge; rewrite Hw, Hkl; by destruct (payer k) as [[]|]).
        lia.
      * assert (charge (list_to_map l) h1 id = charge (list_to_map l) h id) as -> by (unfold charge; by rewrite Hne).
        lia.
    + intros k'. rewrite Hh. unfold recorded. cbn. destruct (decide (k' = k)) as [->|Hk'].
      * rewrite Hkl, lookup_insert_eq, Hh1. unfold recorded. rewrite lookup_singleton_eq. by destruct (payer k).
      * by rewrite lookup_insert_ne, Hne by done.
Qed.
End pass.

(** * Bills

    The bills of one round on both ends of an exit tunnel (ExitTraffic.v): what
    the exit charges each client, what the client computes for itself, and how
    the two compare. *)

(** * Sums of counters *)

Definition total_of (field : WgUsage -> Z) (c : WgUsages) : Z := zsum ((fun x => field x.2) <$> map_to_list c).
Definition is_usage (u : WgUsage) : Prop := 0 <= upload u /\ 0 <= download u.

Lemma fold_option_sum {A} (f : Z -> A -> option Z) (g : A -> Z) (M : Z) (l : list A) acc :
  (forall t x, x ∈ l -> 0 <= t -> t + g x <= M -> f t x = Some (t + g x)) ->
  (forall x, x ∈ l -> 0 <= g x) -> 0 <= acc -> acc + zsum (g <$> l) <= M ->
  fold_option f l acc = Some (acc + zsum (g <$> l)).
Proof.
  revert acc. induction l as [|x l IH]; intros acc Hf Hg Ha Hs; [cbn; f_equal; unfold zsum; cbn; lia|].
  rewrite fmap_cons, zsum_cons in *. cbn [fold_option].
  assert (0 <= g x) by (apply Hg; left).
  assert (0 <= zsum (g <$> l)) by (apply zsum_nonneg, Forall_fmap, Forall_forall; intros; apply Hg; by right).
  rewrite Hf; [|left|lia|lia]. cbn. rewrite IH; [f_equal; lia| |intros; apply Hg; by right|lia|lia].
  intros. apply Hf; [by right|done..].
Qed.

Section moved.
Context `{P : Profile} (field : WgUsage -> Z).
Context (Hentry : forall b o, 0 <= field b -> (forall h, o = Some h -> 0 <= field h) -> 0 <= field (prepare_entry b o) <= field b).

Lemma moved_exact c h :
  (forall k b, c !! k = Some b -> 0 <= field b) -> (forall k b, h !! k = Some b -> 0 <= field b) ->
  total_of field c <= U64_MAX ->
  exists x, moved field c (prepare_usage_history c h) = Some x /\ 0 <= x <= total_of field c.
Proof.
  intros Hc Hh Ht. set (g := fun x : Z * WgUsage => field x.2 - field (prepare_entry x.2 (h !! x.1))).
  assert (forall x, x ∈ map_to_list c -> 0 <= g x <= field x.2) as Hg.
  { intros [k b] Hx%elem_of_map_to_list. unfold g. cbn.
    pose proof (Hentry b (h !! k) (Hc _ _ Hx) (fun y Hy => Hh k y Hy)). lia. }
  assert (zsum (g <$> map_to_list c) <= total_of field c) as Hle.
  { unfold total_of. apply zsum_le. intros x Hx. apply Hg, Hx. }
  assert (0 <= zsum (g <$> map_to_list c)) as H0.
  { apply zsum_nonneg, Forall_fmap, Forall_forall. intros x Hx. apply Hg, Hx. }
  exists (0 + zsum (g <$> map_to_list c)). split; [|lia]. unfold moved.
  apply (fold_option_sum _ g U64_MAX); [|intros x Hx; apply Hg, Hx|lia|lia].
  intros t [k b] Hx Ht0 Htx. pose proof (Hg _ Hx) as Hgx. unfold g in *. cbn in *.
  apply elem_of_map_to_list in Hx. rewrite prepare_lookup, Hx. cbn. unfold u64_of.
  rewrite native_exact by lia. cbn. by rewrite native_exact by lia.
Qed.
End moved.

Lemma field_le_total field c k b :
  (forall k b, c !! k = Some b -> 0 <= field b) -> c !! k = Some b -> field b <= total_of field c.
Proof.
  intros Hc Hb. unfold total_of. rewrite <- (map_to_list_delete c k b Hb). rewrite fmap_cons, zsum_cons. cbn.
  assert (0 <= zsum ((fun x => field x.2) <$> map_to_list (delete k c))); [|lia].
  apply zsum_nonneg, Forall_fmap, Forall_forall. intros [k' y] Hy%elem_of_map_to_list.
  apply lookup_delete_Some in Hy as [_ Hy]. by eapply Hc.
Qed.

Lemma prepare_entry_upload b o :
  0 <= upload b -> (forall h, o = Some h -> 0 <= upload h) -> 0 <= upload (prepare_entry b o) <= upload b.
Proof.
  intros Hb Ho. destruct o as [h|]; cbn; [|lia]. specialize (Ho h eq_refl). destruct (Z.ltb_spec (upload b) (upload h)); lia.
Qed.
Lemma prepare_entry_download b o :
  0 <= download b -> (forall h, o = Some h -> 0 <= download h) -> 0 <= download (prepare_entry b o) <= download b.
Proof.
  intros Hb Ho. destruct o as [h|]; cbn; [|lia]. specialize (Ho h eq_refl). destruct (Z.ltb_spec (download b) (download h)); lia.
Qed.

(** * The tables of the exit *)

Lemma exit_helper_maps_snoc our clients c :
  generate_helper_maps our (clients ++ [c])
  = (<[wg_public_key c := c]> (generate_helper_maps our clients).1,
     <[mesh_ip c := c]> (generate_helper_maps our clients).2).
Proof.
  unfold generate_helper_maps. rewrite foldl_app. cbn.
  by destruct (foldl _ _ clients) as [a b].
Qed.

Lemma helper_maps_keyed our clients k id :
  (generate_helper_maps our clients).1 !! k = Some id -> wg_public_key id = k /\ id ∈ clients.
Proof.
  induction clients as [|c clients IH] using rev_ind; [cbn; by rewrite lookup_empty|].
  rewrite exit_helper_maps_snoc. cbn. destruct (decide (wg_public_key c = k)) as [<-|Hne].
  - rewrite lookup_insert_eq. intros [= <-]. split; [done|set_solver].
  - rewrite lookup_insert_ne by done. intros [? ?]%IH. split; [done|set_solver].
Qed.

Lemma helper_maps_size our clients : (size (generate_helper_maps our clients).1 <= length clients)%nat.
Proof.
  induction clients as [|c clients IH] using rev_ind; [done|]. rewrite exit_helper_maps_snoc, length_app. cbn.
  rewrite map_size_insert. destruct (_ !! _); cbn; lia.
Qed.

Lemma add_client_routes_range max_fee ips routes d :
  0 <= max_fee -> Forall (fun r => 0 <= rt_price r) routes ->
  (forall k p, d !! k = Some p -> 0 <= p <= U32_MAX) -> max_fee <= U32_MAX ->
  forall k p, add_client_routes max_fee ips routes d !! k = Some p -> 0 <= p <= U32_MAX.
Proof.
  intros Hm Hr. revert d. induction Hr as [|r routes Hr _ IH]; intros d Hd HM; [done|]. cbn [add_client_routes].
  apply IH; [|done]. intros k p. destruct (prefix r) as [|ip len]; [apply Hd|].
  destruct ((len =? 128) && installed r); [|apply Hd]. destruct (ips !! V6 ip) as [id|]; [|apply Hd].
  rewrite lookup_insert. case_decide; [|apply Hd]. intros [= <-]. destruct (Z.ltb_spec max_fee (rt_price r)); lia.
Qed.

Lemma client_debts_get ids id :
  (forall k j, ids !! k = Some j -> wg_public_key j = k) ->
  hm_get id (client_debts ids)
  = match ids !! wg_public_key id with
    | Some j => if bool_decide (key j = key id) then Some 0 else None
    | None => None
    end.
Proof.
  intros Hk. etrans; [exact (zero_debts_get _ _)|].
  assert (listed (map_to_list ids).*2 id
          = match ids !! wg_public_key id with Some j => bool_decide (key j = key id) | None => false end) as ->.
  { unfold listed. destruct (existsb _ _) eqn:E.
    - apply existsb_exists in E as (j & Hj%list_elem_of_In & Hkey%bool_decide_eq_true).
      apply list_elem_of_fmap in Hj as ([k j'] & -> & Hj%elem_of_map_to_list). cbn in *.
      rewrite <- (key_wg _ _ Hkey), (Hk _ _ Hj), Hj. by rewrite bool_decide_eq_true_2.
    - destruct (ids !! wg_public_key id) as [j|] eqn:Ej; [|done]. case_bool_decide as Hkey; [|done].
      rewrite <- E. apply existsb_exists. exists j. split; [|by rewrite bool_decide_eq_true_2].
      apply list_elem_of_In, list_elem_of_fmap. exists (wg_public_key id, j). split; [done|].
      by apply elem_of_map_to_list. }
  destruct (ids !! _) as [j|]; [|done]. by destruct (bool_decide _).
Qed.

Lemma debts_logging_sum `{P : Profile} debts : debts_logging debts = sum_with i128_of 0 (hm_entries debts).*2.
Proof.
  unfold debts_logging. generalize 0. induction (hm_entries debts).*2 as [|x l IH]; intros acc; [done|]. cbn.
  destruct (i128_of (acc + x)); [apply IH|done].
Qed.

(** * A round of the exit *)

(** What a client owes for bytes it got ([up], upload of the exit) and sent. *)
Definition exit_charge (s : bill_settings) (d up down : Z) : Z :=
  bs_exit_price s * down + ((d + bs_exit_price s) * up + d * up ÷ bs_tx_fee s).

Definition exit_clients (our : Identity) (clients : list Identity) : gmap Z Identity := (generate_helper_maps our clients).1.
Definition exit_prices (s : bill_settings) (routes : list Route) (our : Identity) (clients : list Identity) : gmap Z Z :=
  get_babel_info s routes our (generate_helper_maps our clients).2.

(** The bill of a client for a round: its counters against what was remembered,
    which is forgotten when a counter went backwards. *)
Definition client_bill (s : bill_settings) (ids : gmap Z Identity) (dests : gmap Z Z) (c history : WgUsages) (i : Identity) : Z :=
  let k := wg_public_key i in
  match payer ids dests k, c !! k with
  | Some (j, d), Some b =>
      if bool_decide (key j = key i) then
        let h := prepare_entry b (history !! k) in
        exit_charge s d (upload b - upload h) (download b - download h)
      else 0
  | _, _ => 0
  end.
Definition history_after (ids : gmap Z Identity) (dests : gmap Z Z) (c history : WgUsages) (k : Z) : option WgUsage :=
  match c !! k with
  | Some b => Some (match payer ids dests k with Some _ => b | None => prepare_entry b (history !! k) end)
  | None => history !! k
  end.

(** A round in which no machine integer overflows: prices are those of the route
    table, the counters of all clients together fit 64 bits, there are at most
    2^20 clients and no debt is beyond 2^200. *)
Record exit_round_ok (e : exit_watch_env) (w : ExitTrafficWorld) (dk : DebtKeeper) (our : Identity) (a b c : WgUsages)
    (routes : list Route) (clients : list Identity) : Prop := {
  eo_our : bs_our_id (xe_settings e) = Some our;
  eo_fees : 0 <= bs_local_fee (xe_settings e) <= U32_MAX /\ 0 <= bs_max_fee (xe_settings e) <= U32_MAX;
  eo_price : 0 <= bs_exit_price (xe_settings e) <= U32_MAX;
  eo_tx_fee : 0 < bs_tx_fee (xe_settings e);
  eo_routes : Forall (fun r => 0 <= rt_price r) routes;
  eo_legacy : xe_legacy e = Some a;
  eo_exit : xe_exit e = Some b;
  eo_usages : map_Forall (fun _ => is_usage) a /\ map_Forall (fun _ => is_usage) b;
  eo_history : map_Forall (fun _ => is_usage) (xw_history w);
  eo_merged : forall k, c !! k = merged (a !! k) (b !! k);
  eo_totals : total_of upload c <= U64_MAX /\ total_of download c <= U64_MAX;
  eo_usage : forall h u, xe_hour e = Some h -> bandwidth Exit (usage_tracker (xw_usage w)) !! h = Some u ->
    0 <= up u <= U64_MAX - total_of upload c /\ 0 <= down u <= U64_MAX - total_of download c;
  eo_clients : Z.of_nat (length clients) <= 1048576;
  eo_keeper : get_debt_keeper_write_ref (xe_netns e) (xe_default e) (xw_debts w) = Some dk;
  eo_debts : forall i, - 2 ^ 200 <= debt (entry i dk) <= 2 ^ 200;
}.

Section round.
Context `{N : Num256} {L : Num256Laws N} `{P : Profile}.

Lemma merged_usage (a b c : WgUsages) :
  map_Forall (fun _ => is_usage) a -> map_Forall (fun _ => is_usage) b ->
  (forall k, c !! k = merged (a !! k) (b !! k)) -> map_Forall (fun _ => is_usage) c.
Proof.
  intros Ha Hb Hc k u. rewrite Hc. destruct (a !! k) as [x|] eqn:Ex; [|apply Hb].
  destruct (b !! k) as [y|] eqn:Ey; [|intros [= <-]; by apply (Ha k)].
  destruct (Ha _ _ Ex), (Hb _ _ Ey). intros [= <-]. split; cbn; lia.
Qed.

Lemma merge_counters_to (a b c : WgUsages) :
  map_Forall (fun _ => is_usage) c -> map_Forall (fun _ => is_usage) a -> map_Forall (fun _ => is_usage) b ->
  (forall k, c !! k = merged (a !! k) (b !! k)) -> total_of upload c <= U64_MAX -> total_of download c <= U64_MAX ->
  merge_counters a b = Some c.
Proof.
  intros Hc Ha Hb Hm Hu Hd. destruct (merge_exact a b) as (c' & -> & Hc').
  - intros k x y Hx Hy. assert (c !! k = merged (Some x) (Some y)) as E by by rewrite Hm, Hx, Hy.
    pose proof (field_le_total upload c k _ (fun k b Hb => proj1 (Hc k b Hb)) E).
    pose proof (field_le_total download c k _ (fun k b Hb => proj2 (Hc k b Hb)) E).
    destruct (Ha _ _ Hx), (Hb _ _ Hy). cbn in *. lia.
  - f_equal. apply map_eq. intros k. by rewrite Hc', Hm.
Qed.

Lemma counters_logging_done e c h fee u :
  map_Forall (fun _ => is_usage) c -> map_Forall (fun _ => is_usage) h ->
  total_of upload c <= U64_MAX -> total_of download c <= U64_MAX ->
  (forall hr x, xe_hour e = Some hr -> bandwidth Exit (usage_tracker u) !! hr = Some x ->
     0 <= up x <= U64_MAX - total_of upload c /\ 0 <= down x <= U64_MAX - total_of download c) ->
  exists u', counters_logging e c (prepare_usage_history c h) fee u = Some u'.
Proof.
  intros Hc Hh Hu Hd Hb. unfold counters_logging.
  destruct (moved_exact download prepare_entry_download c h) as (x & -> & Hx);
    [intros k y Hy; apply (Hc k y Hy)|intros k y Hy; apply (Hh k y Hy)|done|]. cbn.
  destruct (moved_exact upload prepare_entry_upload c h) as (y & -> & Hy);
    [intros k z Hz; apply (Hc k z Hz)|intros k z Hz; apply (Hh k z Hz)|done|]. cbn.
  destruct (xe_now e) as [[n1 n2] n3]. unfold update_usage_data. destruct (xe_hour e) as [hr|]; [|eauto].
  unfold process_usage_update. cbn. destruct (exit_bandwidth (usage_tracker u) !! hr) as [v|] eqn:E; cbn; [|eauto].
  destruct (Hb hr v eq_refl E). unfold u64_of. rewrite !native_exact by lia. cbn. eauto.
Qed.

(** The prices of the two passes do not overflow. *)
Definition input_price (s : bill_settings) (d used : Z) : Z := bs_exit_price s * used.
Definition output_price (s : bill_settings) (d used : Z) : Z :=
  (d + bs_exit_price s) * used + d * used ÷ bs_tx_fee s.

Lemma input_value_exact s d used :
  0 <= bs_exit_price s <= U32_MAX -> 0 <= used <= U64_MAX ->
  input_value (bs_exit_price s) d used = Some (input_price s d used)
  /\ 0 <= input_price s d used <= U32_MAX * U64_MAX.
Proof.
  intros Hp Hu. unfold input_value, input_price, i128_of.
  assert (0 <= bs_exit_price s * used <= U32_MAX * U64_MAX) by nia.
  rewrite native_exact by (unfold I128_MIN, I128_MAX, U32_MAX, U64_MAX in *; lia). done.
Qed.

Lemma output_value_exact s d used :
  0 <= bs_exit_price s <= U32_MAX -> 0 < bs_tx_fee s -> 0 <= d <= U32_MAX -> 0 <= used <= U64_MAX ->
  output_value (bs_exit_price s) (bs_tx_fee s) d used = Some (output_price s d used)
  /\ 0 <= output_price s d used <= 3 * (U32_MAX * U64_MAX).
Proof.
  intros Hp Hf Hd Hu. unfold output_value, output_price, i128_of, u64_of.
  assert (0 <= d * used <= U32_MAX * U64_MAX) as H1 by nia.
  assert (0 <= (d + bs_exit_price s) * used <= 2 * (U32_MAX * U64_MAX)) as H2 by nia.
  assert (0 <= d * used ÷ bs_tx_fee s <= d * used) as H3.
  { rewrite Z.quot_div_nonneg by lia. split; [apply Z.div_pos; lia|]. apply Z.div_le_upper_bound; nia. }
  rewrite (proj2 (Z.eqb_neq (bs_tx_fee s) 0)) by lia.
  repeat (rewrite native_exact by (unfold I128_MIN, I128_MAX, U32_MAX, U64_MAX in *; lia); cbn). split; [done|lia].
Qed.

Section passes.
Context (s : bill_settings) (ids : gmap Z Identity) (dests : gmap Z Z) (c history : WgUsages).
Context (Hids : forall k id, ids !! k = Some id -> wg_public_key id = k).
Context (Hd : forall k p, dests !! k = Some p -> 0 <= p <= U32_MAX).
Context (Hp : 0 <= bs_exit_price s <= U32_MAX) (Hf : 0 < bs_tx_fee s).
Context (Hc : map_Forall (fun _ => is_usage) c) (Hh : map_Forall (fun _ => is_usage) history).
Context (Hu : total_of upload c <= U64_MAX) (Hdn : total_of download c <= U64_MAX).
#[local] Definition h0 : WgUsages := prepare_usage_history c history.

Lemma used_range k b hist :
  c !! k = Some b -> h0 !! k = Some hist ->
  0 <= upload b - upload hist <= U64_MAX /\ 0 <= download b - download hist <= U64_MAX.
Proof.
  intros Hb. unfold h0. rewrite prepare_lookup, Hb. intros [= <-]. destruct (Hc _ _ Hb) as [Hb1 Hb2].
  pose proof (prepare_entry_upload b (history !! k) Hb1 (fun x Hx => proj1 (Hh k x Hx))).
  pose proof (prepare_entry_download b (history !! k) Hb2 (fun x Hx => proj2 (Hh k x Hx))).
  pose proof (field_le_total upload c k b (fun k b Hb => proj1 (Hc k b Hb)) Hb).
  pose proof (field_le_total download c k b (fun k b Hb => proj2 (Hc k b Hb)) Hb). lia.
Qed.

Lemma client_has_debt k id : ids !! k = Some id -> hm_get id (client_debts ids) = Some 0.
Proof.
  intros Hk. rewrite client_debts_get by done. rewrite (Hids _ _ Hk), Hk. by rewrite bool_decide_eq_true_2.
Qed.

Lemma input_pass :
  exists d1 h1, fold_option (bill_input (bs_exit_price s) ids dests) (map_to_list c) (client_debts ids, h0) = Some (d1, h1)
    /\ (forall i, hm_get i d1 = (fun x => x - charge download (input_price s) ids dests c h0 i) <$> hm_get i (client_debts ids))
    /\ (forall k, h1 !! k = recorded (fun bytes h => {| upload := upload h; download := download bytes |}) ids dests c h0 k)
    /\ hm_wf d1.
Proof.
  edestruct (pass_exact download (fun bytes h => {| upload := upload h; download := download bytes |})
    (input_value (bs_exit_price s)) (input_price s) (U32_MAX * U64_MAX) ids dests Hids)
    with (l := map_to_list c) (debts := client_debts ids) (h := h0) (K := 0) as (d1 & h1 & E & H1 & H2 & H3).
  - intros k d used _ Hused. by apply input_value_exact.
  - apply NoDup_fst_map_to_list.
  - done.
  - done.
  - done.
  - intros k id _ Hid. exists 0. split; [by eapply client_has_debt|lia].
  - intros k b hist Hb%elem_of_map_to_list Hhist. by apply (used_range k b hist).
  - rewrite list_to_map_to_list in *. exists d1, h1. split; [done|]. split; [done|]. split; [done|].
    apply H3, (zero_debts_wf (map_to_list ids).*2).
Qed.

(** What the first pass charges, for the entry of a client. *)
Lemma input_charge_range i : 0 <= charge download (input_price s) ids dests c h0 i <= U32_MAX * U64_MAX.
Proof.
  unfold charge. destruct (payer ids dests (wg_public_key i)) as [[j d]|]; [|done].
  destruct (c !! wg_public_key i) as [b|] eqn:Eb; [|done]. destruct (h0 !! wg_public_key i) as [hist|] eqn:Eh; [|done].
  destruct (bool_decide (key j = key i)); [|done].
  destruct (used_range _ _ _ Eb Eh) as [_ Hused]. by apply (input_value_exact s d _ Hp Hused).
Qed.

Lemma passes_exact :
  exists debts h,
    (st ← fold_option (bill_input (bs_exit_price s) ids dests) (map_to_list c) (client_debts ids, h0);
     fold_option (bill_output (bs_exit_price s) (bs_tx_fee s) ids dests) (map_to_list c) st) = Some (debts, h)
    /\ (forall i, hm_get i debts = (fun x => x - client_bill s ids dests c history i) <$> hm_get i (client_debts ids))
    /\ (forall k, h !! k = history_after ids dests c history k)
    /\ hm_wf debts.
Proof.
  destruct input_pass as (d1 & h1 & -> & Hd1 & Hh1 & Hwf1). cbn.
  assert (forall k b, c !! k = Some b -> h0 !! k = Some (prepare_entry b (history !! k))) as H0.
  { intros k b Hb. unfold h0. by rewrite prepare_lookup, Hb. }
  assert (forall k b, c !! k = Some b -> exists hist, h1 !! k = Some hist
            /\ upload hist = upload (prepare_entry b (history !! k))
            /\ download hist = match payer ids dests k with Some _ => download b | None => download (prepare_entry b (history !! k)) end) as H1.
  { intros k b Hb. rewrite Hh1. unfold recorded. rewrite Hb, (H0 k b Hb). destruct (payer ids dests k); by eexists. }
  edestruct (pass_exact upload (fun bytes h => {| upload := upload bytes; download := download h |})
    (output_value (bs_exit_price s) (bs_tx_fee s)) (output_price s) (3 * (U32_MAX * U64_MAX)) ids dests Hids)
    with (l := map_to_list c) (debts := d1) (h := h1) (K := U32_MAX * U64_MAX) as (d2 & h2 & E & H2 & H3 & H4).
  - intros k d used Hk Hused. apply output_value_exact; [done..| |done]. by apply (Hd k).
  - apply NoDup_fst_map_to_list.
  - done.
  - done.
  - done.
  - intros k id _ Hid. rewrite Hd1, (client_has_debt k id Hid). eexists. split; [done|].
    pose proof (input_charge_range id). lia.
  - intros k b hist Hb%elem_of_map_to_list Hhist. destruct (H1 k b Hb) as (hist' & E' & Eup & _).
    assert (hist' = hist) as -> by congruence. rewrite Eup. by apply (used_range k b _ Hb), H0.
  - rewrite list_to_map_to_list in *. exists d2, h2. split; [done|]. split; [|split; [|auto]].
    + intros i. rewrite H2, Hd1. destruct (hm_get i (client_debts ids)) as [x|]; [|done]. cbn. f_equal.
      unfold charge, client_bill, exit_charge, input_price, output_price.
      destruct (payer ids dests (wg_public_key i)) as [[j d]|] eqn:Ep; [|lia].
      destruct (c !! wg_public_key i) as [b|] eqn:Eb; [|lia]. rewrite (H0 _ _ Eb).
      destruct (H1 _ _ Eb) as (hist & -> & Eup & _). rewrite Eup. destruct (bool_decide (key j = key i)); lia.
    + intros k. rewrite H3. unfold recorded, history_after. destruct (c !! k) as [b|] eqn:Eb.
      * destruct (H1 _ _ Eb) as (hist & -> & Eup & Edn). destruct (payer ids dests k); [f_equal; destruct b; cbn in *; congruence|].
        f_equal. destruct hist, (prepare_entry b (history !! k)); cbn in *; congruence.
      * assert (h1 !! k = history !! k) as ->
          by (rewrite Hh1; unfold recorded, h0; rewrite Eb, prepare_lookup, Eb; by destruct (payer ids dests k)).
        by destruct (payer ids dests k).
Qed.

Lemma client_bill_range i : 0 <= client_bill s ids dests c history i <= 4 * (U32_MAX * U64_MAX).
Proof.
  unfold client_bill. destruct (payer ids dests (wg_public_key i)) as [[j d]|] eqn:Ep; [|done].
  destruct (c !! wg_public_key i) as [b|] eqn:Eb; [|done]. destruct (bool_decide (key j = key i)); [|done].
  assert (h0 !! wg_public_key i = Some (prepare_entry b (history !! wg_public_key i))) as E0
    by (unfold h0; by rewrite prepare_lookup, Eb).
  destruct (used_range _ _ _ Eb E0) as [Hup Hdown].
  assert (dests !! wg_public_key i = Some d) as Ed
    by (unfold payer in Ep; destruct (ids !! _), (dests !! _); congruence).
  pose proof (proj2 (input_value_exact s d _ Hp Hdown)). pose proof (proj2 (output_value_exact s d _ Hp Hf (Hd _ _ Ed) Hup)).
  unfold exit_charge, input_price, output_price in *. lia.
Qed.
End passes.

Lemma debts_logging_total debts :
  hm_wf debts -> within (4 * (U32_MAX * U64_MAX)) debts -> Z.of_nat (size debts) <= 1048576 -> debts_logging debts <> None.
Proof.
  intros Hwf Hw Hn. rewrite debts_logging_sum. apply (sum_with_signed (4 * (U32_MAX * U64_MAX))); [done|done| |].
  - apply Forall_fmap, Forall_forall. intros [j x] Hj.
    apply list_elem_of_fmap in Hj as ([k [j' x']] & [= -> ->] & Hj%elem_of_map_to_list).
    apply (Hw j' x'). unfold hm_get. by rewrite (Hwf _ _ _ Hj), Hj.
  - unfold hm_entries. rewrite !length_fmap, length_map_to_list. unfold U32_MAX, U64_MAX, I128_MAX. lia.
Qed.

Lemma exit_round_exact e w dk our a b c routes clients :
  let s := xe_settings e in
  let ids := exit_clients our clients in
  let dests := exit_prices s routes our clients in
  exit_round_ok e w dk our a b c routes clients ->
  exists w' dk', watch_exit_traffic e routes clients w = Done w' tt
    /\ DEBT_DATA (xw_debts w') !! xe_netns e = Some dk'
    /\ (forall i, debt (entry i dk') = debt (entry i dk) - client_bill s ids dests c (xw_history w) i)
    /\ (forall k, xw_history w' !! k = history_after ids dests c (xw_history w) k).
Proof.
  intros s ids dests [Hour [Hlf Hmf] Hp Hf Hr Ha Hb [Hua Hub] Hhist Hm [Hu Hd] Husage Hn Hk Hdebts]. fold s in Hour, Hp, Hf, Hlf, Hmf.
  pose proof (merged_usage a b c Hua Hub Hm) as Hc.
  assert (forall k p, dests !! k = Some p -> 0 <= p <= U32_MAX) as Hdests.
  { subst dests. unfold exit_prices, get_babel_info. apply add_client_routes_range; [lia|done| |lia].
    intros k p [<- <-]%lookup_singleton_Some. done. }
  assert (forall k id, ids !! k = Some id -> wg_public_key id = k) as Hids
    by (intros k id Hid; by apply (helper_maps_keyed our clients)).
  unfold watch_exit_traffic. fold s. unfold bind, ok_or, unwrap. rewrite Hour.
  destruct (generate_helper_maps our clients) as [ids' ips] eqn:Emaps.
  assert (ids' = ids) as -> by (subst ids; unfold exit_clients; by rewrite Emaps).
  assert (get_babel_info s routes our ips = dests) as -> by (subst dests; unfold exit_prices; by rewrite Emaps).
  rewrite Ha, Hb, (merge_counters_to a b c Hc Hua Hub Hm Hu Hd).
  edestruct (counters_logging_done e c (xw_history w) (bs_exit_price s mod 2 ^ 32) (xw_usage w)) as [u ->]; [done..|].
  destruct (passes_exact s ids dests c (xw_history w) Hids Hdests Hp Hf Hc Hhist Hu Hd) as (debts & h & E & Hg & Hh & Hwf).
  unfold h0 in E. destruct (fold_option (bill_input _ _ _) _ _) as [st|]; [|done]. cbn in E |- *. rewrite E. cbn.
  assert (within (4 * (U32_MAX * U64_MAX)) debts) as Hw.
  { intros i x. rewrite Hg, client_debts_get by done. destruct (ids !! _) as [j|]; [|done].
    destruct (bool_decide _); [|done]. intros [= <-].
    pose proof (client_bill_range s ids dests c (xw_history w) Hdests Hp Hf Hc Hhist Hu Hd i). lia. }
  assert (size debts <= length clients)%nat as Hsz.
  { rewrite (same_dom_size (client_debts ids) debts (fun i x => x - client_bill s ids dests c (xw_history w) i) Hg).
    etrans; [exact (zero_debts_size (map_to_list ids).*2)|]. rewrite length_fmap, length_map_to_list. apply helper_maps_size. }
  destruct (debts_logging debts) as [total|] eqn:El; [|by destruct (debts_logging_total debts Hwf Hw ltac:(lia))]. cbn.
  unfold traffic_update, with_debt_keeper. rewrite Hk.
  destruct (table_update_exact debts _ dk Hwf Hw) as (dk' & -> & He); [done|unfold U32_MAX, U64_MAX; lia|done|].
  eexists _, dk'. split; [reflexivity|]. cbn. split; [apply lookup_insert_eq|]. split; [|exact Hh].
  intros i. rewrite He, Hg, client_debts_get by done. unfold client_bill, payer.
  destruct (ids !! wg_public_key i) as [j|]; [|cbn; lia].
  destruct (bool_decide (key j = key i)) eqn:Ej; cbn; [lia|].
  destruct (dests !! _); [|lia]. destruct (c !! _); [rewrite Ej; lia|lia].
Qed.
End round.

(** * The bill of a round, from the route table and the client list *)

(** The client with a wireguard key, and the node at a mesh address: the last one
    of the list, the exit itself when no client has its address. *)
Definition client_by_key (clients : list Identity) (k : Z) : option Identity :=
  last (filter (fun j => wg_public_key j = k) clients).
Definition node_at (our : Identity) (clients : list Identity) (ip : IpAddr) : option Identity :=
  match last (filter (fun j => mesh_ip j = ip) clients) with
  | Some j => Some j
  | None => if bool_decide (ip = mesh_ip our) then Some our else None
  end.

(** An installed host route to the node with a wireguard key, and the price of
    the path to it: that of the last such route, at most [max_fee]; the exit's own
    fee for itself. *)
Definition leads_to (our : Identity) (clients : list Identity) (k : Z) (r : Route) : bool :=
  match prefix r with
  | NetV6 ip len => (len =? 128) && installed r && bool_decide (wg_public_key <$> node_at our clients (V6 ip) = Some k)
  | NetV4 _ _ => false
  end.
Definition path_price (s : bill_settings) (our : Identity) (clients : list Identity) (routes : list Route) (k : Z) : option Z :=
  match last (filter (fun r => leads_to our clients k r = true) routes) with
  | Some r => Some (Z.min (rt_price r) (bs_max_fee s))
  | None => if bool_decide (k = wg_public_key our) then Some (bs_local_fee s) else None
  end.

(** The bytes since a reading: all of them when the counter started over. *)
Definition bytes_since (before now : Z) : Z := if now <? before then now else now - before.

(** The bill of a client: nothing on the first reading of its counters, or when
    there is no route to it. *)
Definition round_bill (s : bill_settings) (our : Identity) (clients : list Identity) (routes : list Route)
    (c history : WgUsages) (i : Identity) : Z :=
  let k := wg_public_key i in
  match client_by_key clients k, path_price s our clients routes k, history !! k, c !! k with
  | Some j, Some d, Some before, Some now =>
      if bool_decide (key j = key i)
      then exit_charge s d (bytes_since (upload before) (upload now)) (bytes_since (download before) (download now))
      else 0
  | _, _, _, _ => 0
  end.

(** What is remembered of a counter: the new reading when it is the first one or
    was billed; otherwise the old one, with zero for a counter that started over. *)
Definition restarted (before now : Z) : Z := if now <? before then 0 else before.
Definition remembered (s : bill_settings) (our : Identity) (clients : list Identity) (routes : list Route)
    (c history : WgUsages) (k : Z) : option WgUsage :=
  match history !! k, c !! k with
  | old, None => old
  | None, Some now => Some now
  | Some before, Some now =>
      match client_by_key clients k, path_price s our clients routes k with
      | Some _, Some _ => Some now
      | _, _ => Some {| upload := restarted (upload before) (upload now);
                        download := restarted (download before) (download now) |}
      end
  end.

Section reference.
Context (s : bill_settings) (our : Identity) (clients : list Identity) (routes : list Route).

Lemma exit_clients_ref k : exit_clients our clients !! k = client_by_key clients k.
Proof.
  unfold exit_clients, client_by_key. induction clients as [|j l IH] using rev_ind; [done|].
  rewrite exit_helper_maps_snoc. cbn. rewrite lookup_insert, filter_app, filter_cons, filter_nil.
  case_decide; [by rewrite last_snoc|by rewrite app_nil_r].
Qed.

Lemma node_at_ref ip : (generate_helper_maps our clients).2 !! ip = node_at our clients ip.
Proof.
  unfold node_at. induction clients as [|j l IH] using rev_ind.
  - cbn. case_bool_decide; [subst; apply lookup_singleton_eq|by apply lookup_singleton_ne].
  - rewrite exit_helper_maps_snoc. cbn. rewrite lookup_insert, filter_app, filter_cons, filter_nil.
    destruct (decide (mesh_ip j = ip)); [by rewrite last_snoc|by rewrite app_nil_r].
Qed.

Lemma exit_prices_ref k : exit_prices s routes our clients !! k = path_price s our clients routes k.
Proof.
  unfold exit_prices, get_babel_info, path_price.
  assert (Hd : forall d, add_client_routes (bs_max_fee s) (generate_helper_maps our clients).2 routes d !! k
    = match last (filter (fun r => leads_to our clients k r = true) routes) with
      | Some r => Some (Z.min (rt_price r) (bs_max_fee s)) | None => d !! k end).
  2: { rewrite Hd. destruct (last _); [done|]. case_bool_decide; [subst; apply lookup_singleton_eq|by apply lookup_singleton_ne]. }
  induction routes as [|r l IH]; intros d; [done|]. cbn [add_client_routes]. rewrite IH, filter_cons. clear IH.
  assert (E : leads_to our clients k r = match prefix r with
    | NetV6 ip len => (len =? 128) && installed r && bool_decide (wg_public_key <$> node_at our clients (V6 ip) = Some k)
    | NetV4 _ _ => false end) by done. revert E.
  destruct (prefix r) as [|ip len]; [intros ->; by rewrite decide_False by done|].
  rewrite node_at_ref. destruct ((len =? 128) && installed r); cbn [andb]; [|intros ->; by rewrite decide_False by done].
  destruct (node_at our clients (V6 ip)) as [j|]; cbn [fmap option_fmap option_map]; intros ->.
  2: { rewrite bool_decide_eq_false_2 by done. by rewrite decide_False by done. }
  rewrite lookup_insert. destruct (decide (wg_public_key j = k)) as [<-|Hne].
  - rewrite bool_decide_eq_true_2, decide_True, last_cons by done. destruct (last _); [done|].
    f_equal. destruct (Z.ltb_spec (bs_max_fee s) (rt_price r)); lia.
  - rewrite bool_decide_eq_false_2 by congruence. by rewrite decide_False by done.
Qed.

Lemma client_bill_ref c history i :
  client_bill s (exit_clients our clients) (exit_prices s routes our clients) c history i
  = round_bill s our clients routes c history i.
Proof.
  unfold client_bill, round_bill, payer. rewrite exit_clients_ref, exit_prices_ref.
  destruct (client_by_key clients (wg_public_key i)) as [j|]; [|done].
  destruct (path_price s our clients routes (wg_public_key i)) as [d|]; [|done].
  destruct (c !! wg_public_key i) as [now|], (history !! wg_public_key i) as [before|]; try done.
  - destruct (bool_decide _); [|done]. cbn. unfold bytes_since.
    by destruct (upload now <? upload before), (download now <? download before); cbn; rewrite ?Z.sub_0_r.
  - destruct (bool_decide _); [|done]. cbn. unfold exit_charge. rewrite !Z.sub_diag, !Z.mul_0_r. done.
Qed.

Lemma history_after_ref c history k :
  history_after (exit_clients our clients) (exit_prices s routes our clients) c history k
  = remembered s our clients routes c history k.
Proof.
  unfold history_after, remembered, payer. rewrite exit_clients_ref, exit_prices_ref.
  destruct (c !! k) as [now|], (history !! k) as [before|]; try done;
    destruct (client_by_key clients k), (path_price s our clients routes k); done.
Qed.
End reference.
