(* ===== verification/ExitSettlement.v ===== *)
(** Settling with an exit: every byte is billed once, the client's own estimate
    covers what the exit charges, and the answer of the exit keeps the two
    ledgers in step. *)
From S2P Require Import Prelude Types Oracle TxFee DebtKeeper DebtKeeperSpec Trim UsageTracker Text Babel.
From S2P Require Import TrafficWatcher TrafficWatcherSpec ExitDatabase ExitTraffic ExitTrafficSpec.
(** * The exit over many rounds *)

(** Successive rounds, each with what the kernel reports for the two interfaces. *)
Definition with_counters (e : exit_watch_env) (a b : WgUsages) : exit_watch_env := {|
  xe_settings := xe_settings e; xe_netns := xe_netns e; xe_default := xe_default e;
  xe_legacy := Some a; xe_exit := Some b; xe_hour := xe_hour e; xe_now := xe_now e |}.

Section rounds.
Context `{N : Num256} `{P : Profile}.

Fixpoint exit_rounds (e : exit_watch_env) (routes : list Route) (clients : list Identity)
    (rounds : list (WgUsages * WgUsages)) : M ExitTrafficWorld RitaExitError unit :=
  match rounds with
  | [] => ret tt
  | (a, b) :: rounds =>
      watch_exit_traffic (with_counters e a b) routes clients;! exit_rounds e routes clients rounds
  end.

(** No machine integer overflows in any of the rounds; [counters] are the sums of
    both interfaces. *)
Fixpoint rounds_ok (e : exit_watch_env) (routes : list Route) (clients : list Identity) (our : Identity)
    (rounds : list (WgUsages * WgUsages)) (counters : list WgUsages) (w : ExitTrafficWorld) (dk : DebtKeeper) : Prop :=
  match rounds, counters with
  | [], [] => DEBT_DATA (xw_debts w) !! xe_netns e = Some dk
  | (a, b) :: rounds, c :: counters =>
      exit_round_ok (with_counters e a b) w dk our a b c routes clients
      /\ forall w' dk', watch_exit_traffic (with_counters e a b) routes clients w = Done w' tt ->
           DEBT_DATA (xw_debts w') !! xe_netns e = Some dk' -> rounds_ok e routes clients our rounds counters w' dk'
  | _, _ => False
  end.
End rounds.

(** A counter that grows from one round to the next. *)
Fixpoint grows (k : Z) (from : WgUsage) (counters : list WgUsages) (to : WgUsage) : Prop :=
  match counters with
  | [] => to = from
  | c :: counters =>
      exists u, c !! k = Some u /\ upload from <= upload u /\ download from <= download u /\ grows k u counters to
  end.

Lemma grows_le k from counters to : grows k from counters to -> upload from <= upload to /\ download from <= download to.
Proof.
  revert from. induction counters as [|c counters IH]; intros from; cbn; [intros ->; lia|].
  intros (u & _ & ? & ? & [? ?]%IH). lia.
Qed.

Lemma exit_charge_add s d u1 d1 u2 d2 :
  0 < bs_tx_fee s -> 0 <= d -> 0 <= u1 -> 0 <= u2 ->
  exit_charge s d (u1 + u2) (d1 + d2) - 1 <= exit_charge s d u1 d1 + exit_charge s d u2 d2 <= exit_charge s d (u1 + u2) (d1 + d2).
Proof.
  intros Hf Hd H1 H2. unfold exit_charge. rewrite !Z.quot_div_nonneg by nia.
  assert (d * (u1 + u2) = d * u1 + d * u2) as -> by lia.
  pose proof (Z.div_mod (d * u1) (bs_tx_fee s) ltac:(lia)). pose proof (Z.mod_pos_bound (d * u1) (bs_tx_fee s) Hf).
  pose proof (Z.div_mod (d * u2) (bs_tx_fee s) ltac:(lia)). pose proof (Z.mod_pos_bound (d * u2) (bs_tx_fee s) Hf).
  pose proof (Z.div_mod (d * u1 + d * u2) (bs_tx_fee s) ltac:(lia)).
  pose proof (Z.mod_pos_bound (d * u1 + d * u2) (bs_tx_fee s) Hf). nia.
Qed.

Section settlement.
Context `{N : Num256} {L : Num256Laws N} `{P : Profile}.

Lemma exit_round_ref e w dk our a b c routes clients :
  let s := xe_settings e in
  exit_round_ok e w dk our a b c routes clients ->
  exists w' dk', watch_exit_traffic e routes clients w = Done w' tt
    /\ DEBT_DATA (xw_debts w') !! xe_netns e = Some dk'
    /\ (forall i, debt (entry i dk') = debt (entry i dk) - round_bill s our clients routes c (xw_history w) i)
    /\ (forall k, xw_history w' !! k = remembered s our clients routes c (xw_history w) k).
Proof.
  intros s Hok. destruct (exit_round_exact _ _ _ _ _ _ _ _ _ Hok) as (w' & dk' & E & Hk & Hb & Hh).
  exists w', dk'. split; [done|]. split; [done|]. split.
  - intros i. by rewrite Hb, client_bill_ref.
  - intros k. by rewrite Hh, history_after_ref.
Qed.

(** C13 One round of the exit in which both counters could be read and no
    machine integer overflows changes the ledger by exactly the bill of each
    client and nobody else's entry: for the bytes since the last remembered
    reading (all of them when a counter started over), the exit's price for what
    the client sent, the price of the path and the exit's price for what was sent
    to the client, and the share of the transaction fee on the path. The price of
    the path is that of the last installed host route to the client's address, at
    most [max_fee]. A client read for the first time, and one without a route, is
    billed nothing. The new reading is remembered for a client that is billed and
    for one read for the first time; for the others the old reading stays, with
    zero for a counter that started over. *)
Theorem exit_round_bills e w dk our a b c routes clients :
  let s := xe_settings e in
  exit_round_ok e w dk our a b c routes clients ->
  exists w' dk', watch_exit_traffic e routes clients w = Done w' tt
    /\ DEBT_DATA (xw_debts w') !! xe_netns e = Some dk'
    /\ (forall i, debt (entry i dk') = debt (entry i dk) - round_bill s our clients routes c (xw_history w) i)
    /\ (forall k, xw_history w' !! k = remembered s our clients routes c (xw_history w) k).
Proof. apply exit_round_ref. Qed.

(** Rounds whose counters are fine stay within the machine integers. *)
Definition round_counters_ok (r : WgUsages * WgUsages) (c : WgUsages) : Prop :=
  map_Forall (fun _ => is_usage) r.1 /\ map_Forall (fun _ => is_usage) r.2
  /\ (forall k, c !! k = merged (r.1 !! k) (r.2 !! k))
  /\ total_of upload c <= U64_MAX /\ total_of download c <= U64_MAX.

Lemma history_after_usage ids dests (c h : WgUsages) k u :
  map_Forall (fun _ => is_usage) c -> map_Forall (fun _ => is_usage) h ->
  history_after ids dests c h k = Some u -> is_usage u.
Proof.
  intros Hc Hh. unfold history_after. destruct (c !! k) as [b|] eqn:Eb; [|apply Hh].
  destruct (Hc _ _ Eb) as [Hb1 Hb2]. destruct (payer ids dests k); intros [= <-]; [done|].
  pose proof (prepare_entry_upload b (h !! k) Hb1 (fun x Hx => proj1 (Hh k x Hx))).
  pose proof (prepare_entry_download b (h !! k) Hb2 (fun x Hx => proj2 (Hh k x Hx))). split; lia.
Qed.

Lemma rounds_stay_ok e routes clients our rounds counters w dk K :
  let s := xe_settings e in
  bs_our_id s = Some our -> 0 <= bs_local_fee s <= U32_MAX -> 0 <= bs_max_fee s <= U32_MAX ->
  0 <= bs_exit_price s <= U32_MAX -> 0 < bs_tx_fee s -> Forall (fun r => 0 <= rt_price r) routes ->
  xe_hour e = None -> Z.of_nat (length clients) <= 1048576 ->
  Forall2 round_counters_ok rounds counters ->
  map_Forall (fun _ => is_usage) (xw_history w) -> DEBT_DATA (xw_debts w) !! xe_netns e = Some dk ->
  (forall i, - K <= debt (entry i dk) <= K) -> K + Z.of_nat (length rounds) * (4 * (U32_MAX * U64_MAX)) <= 2 ^ 200 ->
  rounds_ok e routes clients our rounds counters w dk.
Proof.
  intros s Hour Hlf Hmf Hp Hf Hr Hhour Hn Hrounds. revert w dk K.
  induction Hrounds as [|[a b] c rounds counters (Ha & Hb & Hm & Hu & Hd) _ IH]; intros w dk K Hh Hdk HK Hmax; [done|].
  cbn in Ha, Hb, Hm. rewrite length_cons in Hmax.
  assert (exit_round_ok (with_counters e a b) w dk our a b c routes clients) as Hok.
  { split; cbn; try done; [by rewrite Hhour|unfold get_debt_keeper_write_ref; by rewrite Hdk|].
    intros i. specialize (HK i). unfold U32_MAX, U64_MAX in Hmax. lia. }
  split; [done|]. intros w' dk' E Hdk'.
  destruct (exit_round_exact _ _ _ _ _ _ _ _ _ Hok) as (w1 & dk1 & E1 & Hdk1 & Hbill & Hhist).
  assert (w1 = w') as -> by congruence. change (xe_settings (with_counters e a b)) with s in Hbill, Hhist.
  change (xe_netns (with_counters e a b)) with (xe_netns e) in Hdk1. assert (dk1 = dk') as -> by congruence.
  pose proof (merged_usage a b c Ha Hb Hm) as Hc.
  apply (IH w' dk' (K + 4 * (U32_MAX * U64_MAX))); [|done| |unfold U32_MAX, U64_MAX in *; lia].
  - intros k u. rewrite Hhist. by apply history_after_usage.
  - intros i. rewrite Hbill. specialize (HK i).
    assert (forall k p, exit_prices s routes our clients !! k = Some p -> 0 <= p <= U32_MAX) as Hpr.
    { unfold exit_prices, get_babel_info. apply add_client_routes_range; [lia|done| |lia].
      intros k p [<- <-]%lookup_singleton_Some. done. }
    pose proof (client_bill_range s (exit_clients our clients) _ c (xw_history w) Hpr Hp Hf Hc Hh Hu Hd i). lia.
Qed.

(** * The client's estimate *)

(** Bytes received and sent since the last reading; a counter that went backwards
    makes both start over. *)
Definition since (t : TrafficWatcher) (c : WgUsage) : Z * Z :=
  if (download c <? last_read_input t) || (upload c <? last_read_output t)
  then (download c, upload c) else (download c - last_read_input t, upload c - last_read_output t).
Definition client_estimate (p fee d input output : Z) : Z :=
  input * (d + p) + (input * (d + p)) ÷ fee + p * output.

(** A round of the client in which no machine integer overflows. *)
Record client_round_ok (e : client_watch_env) (w : ClientTrafficWorld) (exit : Identity) (p : Z) (routes : list Route)
    (r : Route) (l : list WgUsage) (c : WgUsage) : Prop := {
  co_route : find_exit_route_capped (ce_max_fee e) (mesh_ip exit) routes = inr r;
  co_counters : ce_counters e = Some l;
  co_last : last l = Some c;
  co_price : 0 <= rt_price r <= U32_MAX /\ 0 <= p <= U32_MAX;
  co_fee : 0 < ce_tx_fee e;
  co_usage : 0 <= upload c /\ 0 <= download c /\ upload c + download c <= U64_MAX;
  co_history : 0 <= last_read_input (cw_watcher w) /\ 0 <= last_read_output (cw_watcher w);
  co_sent : p * (since (cw_watcher w) c).2 <= U64_MAX;
  co_hour : forall h u, ce_hour e = Some h -> bandwidth Client (usage_tracker (cw_usage w)) !! h = Some u ->
    0 <= up u <= U64_MAX - upload c /\ 0 <= down u <= U64_MAX - download c;
}.

Lemma since_range t c :
  0 <= upload c -> 0 <= download c -> 0 <= last_read_input t -> 0 <= last_read_output t ->
  0 <= (since t c).1 <= download c /\ 0 <= (since t c).2 <= upload c.
Proof.
  intros. unfold since. destruct (Z.ltb_spec (download c) (last_read_input t)), (Z.ltb_spec (upload c) (last_read_output t));
    cbn; lia.
Qed.

Lemma client_usage_done e w c up_ down_ price :
  (forall h u, ce_hour e = Some h -> bandwidth Client (usage_tracker (cw_usage w)) !! h = Some u ->
    0 <= up u <= U64_MAX - upload c /\ 0 <= down u <= U64_MAX - download c) ->
  0 <= up_ <= upload c -> 0 <= down_ <= download c -> upload c + download c <= U64_MAX ->
  exists u, (let '(now1, now2, now3) := ce_now e in
             update_usage_data (ce_hour e) now1 now2 now3
               {| kind := Client; msg_up := up_; msg_down := down_; msg_price := price |} (cw_usage w)) = Some u.
Proof.
  intros Hb Hu Hd Hs. destruct (ce_now e) as [[n1 n2] n3]. unfold update_usage_data. destruct (ce_hour e) as [h|]; [|eauto].
  unfold process_usage_update. cbn. destruct (client_bandwidth (usage_tracker (cw_usage w)) !! h) as [v|] eqn:E; cbn.
  - destruct (Hb h v eq_refl E). unfold u64_of. repeat (rewrite native_exact by lia; cbn). eauto.
  - unfold u64_of. rewrite native_exact by lia. cbn. eauto.
Qed.

Lemma local_traffic_exact e w exit p routes r l c :
  client_round_ok e w exit p routes r l c ->
  let '(input, output) := since (cw_watcher w) c in
  exists u, local_traffic_calculation e exit p routes w
    = Done {| cw_watcher := {| last_read_input := download c; last_read_output := upload c;
                               last_exit_dest_price := rt_price r + p |};
              cw_debts := cw_debts w; cw_usage := u |} (client_estimate p (ce_tx_fee e) (rt_price r) input output).
Proof.
  intros [Hr Hc Hl [Hd Hp] Hf (Hu & Hdn & Hsum) [Hi Ho] Hs Hh].
  destruct (since_range _ _ Hu Hdn Hi Ho) as [Hin Hout]. destruct (since (cw_watcher w) c) as [input output] eqn:Es.
  cbn in Hin, Hout, Hs. unfold local_traffic_calculation, bind, ok_or. rewrite Hr, Hc, Hl.
  assert (download c - (if (download c <? last_read_input (cw_watcher w)) || (upload c <? last_read_output (cw_watcher w))
                        then 0 else last_read_input (cw_watcher w)) = input
          /\ upload c - (if (download c <? last_read_input (cw_watcher w)) || (upload c <? last_read_output (cw_watcher w))
                        then 0 else last_read_output (cw_watcher w)) = output) as [-> ->].
  { unfold since in Es. destruct (_ || _); injection Es as <- <-; lia. }
  assert (0 <= input * (rt_price r + p) <= U64_MAX * (2 * U32_MAX)) as Hv by nia.
  assert (0 <= (input * (rt_price r + p)) ÷ ce_tx_fee e <= input * (rt_price r + p)) as Hq.
  { rewrite Z.quot_div_nonneg by lia. split; [apply Z.div_pos; lia|]. apply Z.div_le_upper_bound; nia. }
  assert (0 <= p * output) by nia.
  rewrite (proj2 (Z.eqb_neq (ce_tx_fee e) 0)) by lia. unfold u64_of, i128_of.
  repeat (rewrite native_exact by (unfold I128_MIN, I128_MAX, U32_MAX, U64_MAX in *; lia); cbn).
  rewrite (Z.mod_small _ (2 ^ 128)) by (unfold U32_MAX in *; lia). unfold client_estimate.
  destruct (client_usage_done e w c output input ((rt_price r + p) mod 2 ^ 32) Hh Hout Hin Hsum) as [u Eu].
  destruct (ce_now e) as [[n1 n2] n3]. destruct (0 <? _); rewrite ?Eu;
    rewrite (proj2 (Z.leb_le 0 _)) by lia; eauto.
Qed.

Lemma estimate_vs_charge s p d fee input output :
  bs_exit_price s = p -> bs_tx_fee s = fee -> 0 < fee -> 0 <= d -> 0 <= p -> 0 <= input ->
  exit_charge s d input output <= client_estimate p fee d input output
    <= exit_charge s d input output + (p * input) ÷ fee + 1.
Proof.
  intros Hp Hf Hfee Hd Hpp Hin. unfold client_estimate, exit_charge. rewrite Hp, Hf. rewrite !Z.quot_div_nonneg by nia.
  assert (input * (d + p) = d * input + p * input) as -> by lia.
  set (x := d * input). set (y := p * input).
  assert (0 <= x /\ 0 <= y) as [Hx Hy] by (subst x y; nia).
  pose proof (Z.div_mod x fee ltac:(lia)). pose proof (Z.mod_pos_bound x fee Hfee).
  pose proof (Z.div_mod y fee ltac:(lia)). pose proof (Z.mod_pos_bound y fee Hfee).
  pose proof (Z.div_mod (x + y) fee ltac:(lia)). pose proof (Z.mod_pos_bound (x + y) fee Hfee).
  assert ((d + p) * input = x + y) as -> by (subst x y; lia). nia.
Qed.

(** C36 The client's own calculation, which it falls back to when the exit does
    not answer, against a round of the exit over the same bytes: when the exit
    has the client on its list and has read it before, sees the same bytes as the
    client since then, finds a path at the price the client finds, and both use
    the same exit price and transaction fee, neither side fails, and what the
    client computes is never less than what the exit's round takes off the
    client's entry, and more by no more than the transaction fee on the exit's
    own price and one unit: the client adds the fee to the whole price, the exit
    only to what it pays forward. *)
Theorem estimate_covers_bill e w exit p routes r l c xe xw xdk our xa xb xc xroutes clients i before now :
  let s := xe_settings xe in
  let input := (since (cw_watcher w) c).1 in
  let output := (since (cw_watcher w) c).2 in
  client_round_ok e w exit p routes r l c -> exit_round_ok xe xw xdk our xa xb xc xroutes clients ->
  bs_exit_price s = p -> bs_tx_fee s = ce_tx_fee e ->
  client_by_key clients (wg_public_key i) = Some i ->
  path_price s our clients xroutes (wg_public_key i) = Some (rt_price r) ->
  xw_history xw !! wg_public_key i = Some before -> xc !! wg_public_key i = Some now ->
  bytes_since (upload before) (upload now) = input -> bytes_since (download before) (download now) = output ->
  exists w' owes xw' xdk', local_traffic_calculation e exit p routes w = Done w' owes
    /\ watch_exit_traffic xe xroutes clients xw = Done xw' tt
    /\ DEBT_DATA (xw_debts xw') !! xe_netns xe = Some xdk'
    /\ let charged := debt (entry i xdk) - debt (entry i xdk') in
       charged <= owes <= charged + (p * input) ÷ ce_tx_fee e + 1.
Proof.
  intros s. destruct (since (cw_watcher w) c) as [input output] eqn:Es. cbn.
  intros Hok Hxok Hp Hf Hi Hd Hbefore Hnow Hup Hdown.
  pose proof (local_traffic_exact _ _ _ _ _ _ _ _ Hok) as Hl. rewrite Es in Hl. destruct Hl as [u Hl].
  destruct (exit_round_ref _ _ _ _ _ _ _ _ _ Hxok) as (xw' & xdk' & Hw & Hk & Hbill & _).
  eexists _, _, xw', xdk'. split; [exact Hl|]. split; [exact Hw|]. split; [exact Hk|]. cbn zeta.
  destruct Hok as [_ _ _ [Hd0 Hp0] Hfee (Hu & Hdn & _) [Hin Hout] _ _].
  destruct (since_range _ _ Hu Hdn Hin Hout) as [Hr _]. rewrite Es in Hr. cbn in Hr.
  pose proof (estimate_vs_charge s p (rt_price r) (ce_tx_fee e) input output) as Hv.
  rewrite Hbill. unfold round_bill. fold s. rewrite Hi, Hd, Hbefore, Hnow, Hup, Hdown, bool_decide_eq_true_2 by done.
  specialize (Hv Hp Hf ltac:(lia) ltac:(lia) ltac:(lia) ltac:(lia)). lia.
Qed.

(** * Rounds *)

(** C14 Over any number of rounds every byte of a client is billed exactly once:
    with counters that only grow, what the client owes has risen by the charge
    for all bytes between the first and the last reading, less at most one unit
    for the rounding of each round. *)
Theorem every_byte_billed_once e routes clients our rounds counters w dk i d from to :
  let s := xe_settings e in
  rounds_ok e routes clients our rounds counters w dk ->
  payer (exit_clients our clients) (exit_prices s routes our clients) (wg_public_key i) = Some (i, d) ->
  0 < bs_tx_fee s -> 0 <= d ->
  xw_history w !! wg_public_key i = Some from -> grows (wg_public_key i) from counters to ->
  exists w' dk', exit_rounds e routes clients rounds w = Done w' tt
    /\ DEBT_DATA (xw_debts w') !! xe_netns e = Some dk'
    /\ let charged := debt (entry i dk) - debt (entry i dk') in
       let owed := exit_charge s d (upload to - upload from) (download to - download from) in
       owed - Z.of_nat (length rounds) <= charged <= owed.
Proof.
  intros s Hok Hp Hf Hd. revert counters w dk from Hok.
  induction rounds as [|[a b] rounds IH]; intros [|c counters] w dk from Hok Hh Hg; try done.
  - exists w, dk. split; [done|]. split; [done|]. cbn in *. subst to. unfold exit_charge.
    rewrite !Z.sub_diag, !Z.mul_0_r, Z.quot_0_l by lia. lia.
  - destruct Hok as [Hone Hrest]. cbn in Hg. destruct Hg as (u & Hu & Hup & Hdown & Hg).
    destruct (exit_round_exact _ _ _ _ _ _ _ _ _ Hone) as (w1 & dk1 & E1 & Hdk1 & Hbill & Hhist). cbn in Hdk1, Hbill, Hhist.
    assert (xw_history w1 !! wg_public_key i = Some u) as Hh1.
    { rewrite Hhist. unfold history_after. fold s. by rewrite Hu, Hp. }
    destruct (IH counters w1 dk1 u (Hrest _ _ E1 Hdk1) Hh1 Hg) as (w' & dk' & Er & Hdk' & Hch).
    exists w', dk'. split; [cbn; unfold bind; by rewrite E1|]. split; [done|]. cbn in Hch |- *.
    specialize (Hbill i). unfold client_bill in Hbill. fold s in Hbill. rewrite Hp, Hu, Hh in Hbill.
    rewrite bool_decide_eq_true_2 in Hbill by done. cbn in Hbill.
    rewrite (proj2 (Z.ltb_ge _ _) Hup), (proj2 (Z.ltb_ge _ _) Hdown) in Hbill.
    pose proof (grows_le _ _ _ _ Hg) as [Hu1 Hd1].
    pose proof (exit_charge_add s d (upload u - upload from) (download u - download from)
      (upload to - upload u) (download to - download u) Hf Hd ltac:(lia) ltac:(lia)) as Hadd.
    replace (upload u - upload from + (upload to - upload u)) with (upload to - upload from) in Hadd by lia.
    replace (download u - download from + (download to - download u)) with (download to - download from) in Hadd by lia.
    lia.
Qed.

(** * Asking the exit *)

(** What the exit answers from the entry of a client. *)
Definition answer_of (d : NodeDebtData) : Z :=
  if 0 <? debt d then 0 else if - debt d <? incoming_payments d then 0 else - debt d.

Lemma client_debt_in_exact client l d :
  (forall j x, (j, x) ∈ l -> key j = key client -> x = d) -> (exists j, (j, d) ∈ l /\ key j = key client) ->
  - I256_MAX <= debt d <= I256_MAX ->
  client_debt_in client l = Some (ExitSays (answer_of d)).
Proof.
  intros Huniq Hex Hd. induction l as [|[j x] l IH]; [by destruct Hex as (j & ?%not_elem_of_nil & _)|].
  cbn. destruct (identity_eqb j client) eqn:E.
  - apply identity_eqb_key in E. rewrite (Huniq j x) by (done || left). unfold answer_of.
    destruct (Z.ltb_spec 0 (debt d)); [done|]. rewrite (i_mul_exact (-1)) by lia256. cbn [mbind option_bind].
    replace (-1 * debt d) with (- debt d) by lia. rewrite to_uint256_spec by lia256.
    rewrite (proj2 (Z.leb_le _ _)) by lia. cbn [mbind option_bind]. destruct (- debt d <? incoming_payments d); [done|].
    rewrite i_mul_exact by lia256. cbn. f_equal. f_equal. lia.
  - apply IH; [intros j' x' Hin; apply Huniq; by right|].
    destruct Hex as (j' & [Heq|Hin]%elem_of_cons & Hk); [|by exists j'].
    injection Heq as -> ->. apply identity_eqb_key in Hk. congruence.
Qed.

Lemma get_client_debt_exact client dkx d :
  hm_wf (debt_data dkx) -> hm_get client (debt_data dkx) = Some d -> - I256_MAX <= debt d <= I256_MAX ->
  get_client_debt false (hm_entries (debt_data dkx)) client = Some (ExitSays (answer_of d)).
Proof.
  intros Hwf Hg Hd. apply client_debt_in_exact; [| |done].
  - intros j x Hin Hk. apply list_elem_of_fmap in Hin as ([k [j' x']] & [= -> ->] & Hin%elem_of_map_to_list).
    unfold hm_get in Hg. rewrite <- Hk, (Hwf _ _ _ Hin), Hin in Hg. by injection Hg.
  - unfold hm_get in Hg. destruct (debt_data dkx !! key client) as [[j x]|] eqn:E; [|done]. injection Hg as ->.
    exists j. split; [|by apply Hwf in E]. apply list_elem_of_fmap. exists (key client, (j, d)). split; [done|].
    by apply elem_of_map_to_list.
Qed.

Lemma local_traffic_debts e exit p routes w :
  local_traffic_calculation e exit p routes w <> Panic ->
  exists w' r, cw_debts w' = cw_debts w
    /\ (local_traffic_calculation e exit p routes w = Done w' r \/ exists err, local_traffic_calculation e exit p routes w = Fail w' err).
Proof.
  unfold local_traffic_calculation, bind, ok_or. intros Hn.
  destruct (find_exit_route_capped _ _ _) as [err|r]; [exists w, 0; eauto|].
  destruct (ce_counters e) as [l|]; [|exists w, 0; eauto]. destruct (last l) as [c|]; [|exists w, 0; eauto].
  destruct (_ ≫= _) as [[[[input output] price] owes]|]; [|done]. destruct (ce_now e) as [[n1 n2] n3].
  destruct (if 0 <? owes then _ else _) as [u|]; [|done]. destruct (0 <=? owes); [|done].
  eexists {| cw_watcher := _; cw_debts := cw_debts w; cw_usage := u |}, owes. split; [done|by left].
Qed.

(** What the exit tells a client it owes: nothing while the exit sees problems
    with payments, when the exit owes the client, or when payments of the client
    that are not applied yet cover more than the debt. *)
Definition owed_to_exit (issues : bool) (d : NodeDebtData) : Z :=
  if issues then 0 else if (debt d <=? 0) && (incoming_payments d <=? - debt d) then - debt d else 0.

Lemma get_client_debt_owed issues client dkx d :
  hm_wf (debt_data dkx) -> hm_get client (debt_data dkx) = Some d -> - I256_MAX <= debt d <= I256_MAX ->
  get_client_debt issues (hm_entries (debt_data dkx)) client = Some (ExitSays (owed_to_exit issues d)).
Proof.
  intros Hwf Hg Hd. destruct issues; [done|]. rewrite (get_client_debt_exact client dkx d) by done.
  unfold answer_of, owed_to_exit. rewrite Z.ltb_antisym. destruct (Z.leb_spec (debt d) 0); [|done].
  rewrite Z.ltb_antisym. by destruct (incoming_payments d <=? - debt d).
Qed.

(** No payment is in flight and none succeeded in the last 15 seconds. *)
Definition payments_settled (now : Z) (d : NodeDebtData) : bool :=
  negb (payment_in_flight d)
  && match last_successful_payment d with Some t => secs 15 <? instant_sub now t | None => true end.

(** C15 The two ledgers are kept in step. The exit answers a client it has an
    entry for with what its ledger says the client owes, or zero while the
    exit's oracle reports payment problems, when the exit owes the client, or
    when unapplied payments exceed the debt. A client that is no gateway, whose
    own calculation does not overflow, and that has no payment in flight nor one
    that succeeded in the last 15 seconds takes the answer over as its debt,
    whatever it had computed itself; with such a payment its debt stays as it
    is. So, outside these cases, the two entries are each other's opposite.
    Nobody else's entry changes. *)
Theorem ledgers_mirrored issues e w dk msg client dkx d :
  let ours := entry (qe_exit_id msg) dk in
  let settled := payments_settled (ce_instant e) ours in
  hm_wf (debt_data dkx) -> hm_get client (debt_data dkx) = Some d -> - I256_MAX <= debt d <= I256_MAX ->
  ce_gateway e = false ->
  local_traffic_calculation e (qe_exit_id msg) (qe_exit_price msg) (qe_routes msg) w <> Panic ->
  get_debt_keeper_write_ref (ce_netns e) (ce_default e) (cw_debts w) = Some dk ->
  exists answer w' dk', get_client_debt issues (hm_entries (debt_data dkx)) client = Some answer
    /\ query_exit_debts e answer msg w = Done w' tt
    /\ DEBT_DATA (cw_debts w') !! ce_netns e = Some dk'
    /\ debt (entry (qe_exit_id msg) dk') = (if settled then owed_to_exit issues d else debt ours)
    /\ (settled = true -> issues = false -> debt d <= 0 -> incoming_payments d <= - debt d ->
          debt (entry (qe_exit_id msg) dk') + debt d = 0)
    /\ forall i, key i <> key (qe_exit_id msg) -> entry i dk' = entry i dk.
Proof.
  intros ours settled Hwf Hg Hd Hgw Hnp Hk. rewrite (get_client_debt_owed issues client dkx d) by done.
  assert (H0 : 0 <= owed_to_exit issues d).
  { unfold owed_to_exit. destruct issues; [done|]. destruct (Z.leb_spec (debt d) 0); [|done].
    destruct (incoming_payments d <=? - debt d); cbn; lia. }
  assert (Hopp : issues = false -> debt d <= 0 -> incoming_payments d <= - debt d -> owed_to_exit issues d = - debt d).
  { intros -> H1 H2. unfold owed_to_exit. by rewrite (proj2 (Z.leb_le _ _) H1), (proj2 (Z.leb_le _ _) H2). }
  set (x := owed_to_exit issues d) in *.
  eexists _. destruct (local_traffic_debts _ _ _ _ _ Hnp) as (w1 & r & Hw1 & Hl).
  assert (query_exit_debts e (ExitSays x) msg w
          = on_debts (traffic_replace (ce_netns e) (ce_default e) (ce_instant e)
                        {| traffic_from := qe_exit_id msg; traffic_amount := x |}) w1) as ->.
  { unfold query_exit_debts, bind. rewrite Hgw, (proj2 (Z.leb_le _ _)) by lia. by destruct Hl as [-> | [err ->]]. }
  unfold on_debts, traffic_replace, with_debt_keeper. rewrite Hw1, Hk. unfold dk_traffic_replace, on_entry, modify.
  cbn [traffic_from traffic_amount]. fold (entry (qe_exit_id msg) dk). fold ours.
  assert (debt (node_traffic_replace (ce_instant e) x ours) = if settled then x else debt ours) as Hn.
  { unfold settled, payments_settled, node_traffic_replace. destruct (payment_in_flight ours); [done|].
    destruct (last_successful_payment ours) as [t|]; [|done]. cbn. by destruct (secs 15 <? _). }
  eexists _, _. split; [done|]. split; [done|]. cbn. split; [apply lookup_insert_eq|].
  assert (debt (entry (qe_exit_id msg) {| last_save := last_save dk;
     debt_data := hm_insert (qe_exit_id msg) (node_traffic_replace (ce_instant e) x ours) (debt_data dk) |})
     = if settled then x else debt ours) as ->.
  { unfold entry at 1. cbn. rewrite hm_get_insert_eq. exact Hn. }
  split_and!; [done|intros ->; intros; rewrite Hopp by done; lia|].
  intros i Hi. unfold entry. cbn. by rewrite hm_get_insert_ne.
Qed.

(** When the exit cannot be reached, or does not know the client, the client
    bills itself: its debt to the exit rises by exactly its own estimate. *)
Theorem unreachable_exit_billed_locally e w dk msg r l c answer :
  client_round_ok e w (qe_exit_id msg) (qe_exit_price msg) (qe_routes msg) r l c ->
  answer = RequestFailed \/ answer = NotJson ->
  get_debt_keeper_write_ref (ce_netns e) (ce_default e) (cw_debts w) = Some dk ->
  (forall i, - 2 ^ 200 <= debt (entry i dk) <= 2 ^ 200) ->
  let '(input, output) := since (cw_watcher w) c in
  exists w' dk', query_exit_debts e answer msg w = Done w' tt
    /\ DEBT_DATA (cw_debts w') !! ce_netns e = Some dk'
    /\ debt (entry (qe_exit_id msg) dk')
       = debt (entry (qe_exit_id msg) dk) + client_estimate (qe_exit_price msg) (ce_tx_fee e) (rt_price r) input output
    /\ forall i, key i <> key (qe_exit_id msg) -> debt (entry i dk') = debt (entry i dk).
Proof.
  intros Hok Hans Hk Hb. pose proof (local_traffic_exact _ _ _ _ _ _ _ _ Hok) as Hl.
  destruct Hok as [_ _ _ [Hd Hpp] Hfee (Hu & Hdn & Hsum) [Hi Ho] Hs _].
  destruct (since_range _ _ Hu Hdn Hi Ho) as [Hin Hout]. destruct (since (cw_watcher w) c) as [input output].
  cbn in Hin, Hout, Hs. destruct Hl as [u Hl].
  set (x := client_estimate (qe_exit_price msg) (ce_tx_fee e) (rt_price r) input output) in *.
  assert (Z.abs x <= 2 ^ 150) as Hx.
  { subst x. unfold client_estimate.
    assert (0 <= input * (rt_price r + qe_exit_price msg) <= U64_MAX * (2 * U32_MAX)) as Hv by nia.
    assert (0 <= (input * (rt_price r + qe_exit_price msg)) ÷ ce_tx_fee e <= input * (rt_price r + qe_exit_price msg)).
    { rewrite Z.quot_div_nonneg by lia. split; [apply Z.div_pos; lia|]. apply Z.div_le_upper_bound; nia. }
    assert (0 <= qe_exit_price msg * output) by nia. unfold U64_MAX, U32_MAX in *. lia. }
  destruct (traffic_updates_exact (2 ^ 200) [{| traffic_from := qe_exit_id msg; traffic_amount := x |}] dk Hb)
    as (dk' & Et & He); [cbn; unfold zsum, I256_MAX; cbn; lia|].
  assert (query_exit_debts e answer msg w
          = Done {| cw_watcher := {| last_read_input := download c; last_read_output := upload c;
                                     last_exit_dest_price := rt_price r + qe_exit_price msg |};
                    cw_debts := {| DEBT_DATA := <[ce_netns e := dk']> (DEBT_DATA (cw_debts w));
                                   AMOUNT_OWED := AMOUNT_OWED (cw_debts w) |}; cw_usage := u |} tt) as ->.
  { unfold query_exit_debts, bind. rewrite Hl.
    destruct Hans as [-> | ->]; unfold on_debts, traffic_update, with_debt_keeper; cbn [cw_debts]; by rewrite Hk, Et. }
  eexists _, dk'. split; [done|]. cbn. split; [apply lookup_insert_eq|].
  split; [|intros i Hi']; rewrite He; cbn; unfold zsum; cbn.
  - rewrite bool_decide_eq_true_2 by done. lia.
  - rewrite bool_decide_eq_false_2 by done. lia.
Qed.
End settlement.

(** * Demonstrations

    Demonstrations of the billing between an exit and its client, on one client
    and two rounds. *)

#[local] Existing Instance debug_profile.
#[local] Existing Instance Num256_panicking.

Definition exit_node : Identity := {| mesh_ip := V6 1; eth_address := 1; wg_public_key := 1; nickname := None |}.
Definition client_node : Identity := {| mesh_ip := V6 2; eth_address := 2; wg_public_key := 2; nickname := None |}.
Definition blank_usage : UsageState := {|
  usage_tracker := blank_usage_tracker; tp_client := demo_throughput; tp_relay := demo_throughput; tp_exit := demo_throughput |}.
Definition demo_bill_settings : bill_settings := {|
  bs_our_id := Some exit_node; bs_local_fee := 1000; bs_max_fee := 400000; bs_exit_price := 10; bs_tx_fee := 10 |}.
Definition usage (u d : Z) : WgUsage := {| upload := u; download := d |}.

Definition exit_env : exit_watch_env := {|
  xe_settings := demo_bill_settings; xe_netns := 0; xe_default := None;
  xe_legacy := Some {[ 2 := usage 100 10 ]}; xe_exit := Some {[ 2 := usage 50 5 ]}; xe_hour := None; xe_now := (1, 2, 3) |}.
Definition exit_world : ExitTrafficWorld := {|
  xw_history := {[ 2 := usage 40 5 ]};
  xw_debts := {| DEBT_DATA := {[ 0 := demo_keeper ]}; AMOUNT_OWED := ∅ |}; xw_usage := blank_usage |}.
Definition demo_client_routes : list Route := [demo_host_route 2 500].

Lemma usages_one k u : is_usage u -> map_Forall (fun _ => is_usage) ({[ k := u ]} : WgUsages).
Proof. intros Hu k' v [<- <-]%lookup_singleton_Some. done. Qed.
Lemma merged_one k x y z i :
  merged (Some x) (Some y) = Some z ->
  ({[ k := z ]} : WgUsages) !! i = merged (({[ k := x ]} : WgUsages) !! i) (({[ k := y ]} : WgUsages) !! i).
Proof.
  intros Hm. destruct (decide (k = i)) as [<-|Hne]; [by rewrite !lookup_singleton_eq|]. by rewrite !lookup_singleton_ne.
Qed.
Lemma demo_keeper_debts i : debt (entry i demo_keeper) = 0.
Proof. unfold entry, demo_keeper, hm_get. cbn. by rewrite lookup_empty. Qed.

Lemma exit_world_ok :
  exit_round_ok exit_env exit_world demo_keeper exit_node {[ 2 := usage 100 10 ]} {[ 2 := usage 50 5 ]} {[ 2 := usage 150 15 ]}
    demo_client_routes [client_node].
Proof.
  split; cbn; first [done|by repeat constructor|by split; apply usages_one|by apply usages_one
    |intros k; by apply merged_one|intros i; rewrite demo_keeper_debts; lia].
Qed.

Lemma exit_round_bills_witness :
  exists w' dk', watch_exit_traffic exit_env demo_client_routes [client_node] exit_world = Done w' tt
    /\ DEBT_DATA (xw_debts w') !! 0 = Some dk'
    /\ debt (entry client_node dk') = - (10 * 10 + 510 * 110 + 500 * 110 / 10)
    /\ xw_history w' !! 2 = Some (usage 150 15).
Proof.
  destruct (exit_round_bills _ _ _ _ _ _ _ _ _ exit_world_ok) as (w' & dk' & E & Hk & Hb & Hh).
  exists w', dk'. split; [exact E|]. split; [exact Hk|]. split.
  - rewrite Hb, demo_keeper_debts. vm_compute. reflexivity.
  - rewrite Hh. vm_compute. reflexivity.
Defined.

Definition demo_rounds : list (WgUsages * WgUsages) :=
  [({[ 2 := usage 100 10 ]}, {[ 2 := usage 50 5 ]}); ({[ 2 := usage 107 12 ]}, {[ 2 := usage 50 9 ]})].
Definition demo_sums : list WgUsages := [{[ 2 := usage 150 15 ]}; {[ 2 := usage 157 21 ]}].

Lemma demo_rounds_ok : rounds_ok exit_env demo_client_routes [client_node] exit_node demo_rounds demo_sums exit_world demo_keeper.
Proof.
  apply (rounds_stay_ok _ _ _ _ _ _ _ _ 0); cbn; try done.
  - by repeat constructor.
  - constructor; [|constructor; [|constructor]]; (split; [by apply usages_one|]); (split; [by apply usages_one|]);
      (split; [|done]); intros k; by apply merged_one.
  - by apply usages_one.
Qed.

Lemma every_byte_billed_once_witness :
  exists w' dk', exit_rounds exit_env demo_client_routes [client_node] demo_rounds exit_world = Done w' tt
    /\ DEBT_DATA (xw_debts w') !! 0 = Some dk'
    /\ let charged := debt (entry client_node demo_keeper) - debt (entry client_node dk') in
       let owed := exit_charge demo_bill_settings 500 (157 - 40) (21 - 5) in
       owed - 2 <= charged <= owed.
Proof.
  refine (every_byte_billed_once exit_env _ _ _ _ _ _ _ client_node 500 (usage 40 5) (usage 157 21) demo_rounds_ok
            eq_refl _ _ eq_refl _); [reflexivity|lia|].
  exists (usage 150 15). repeat split; try (cbn; lia). exists (usage 157 21). repeat split; cbn; lia.
Defined.

(** The client's end of the same tunnel. *)
Definition client_env : client_watch_env := {|
  ce_max_fee := 400000; ce_tx_fee := 10; ce_counters := Some [usage 15 150]; ce_hour := None; ce_now := (1, 2, 3);
  ce_netns := 0; ce_default := None; ce_gateway := false; ce_instant := 100 |}.
Definition client_world : ClientTrafficWorld := {|
  cw_watcher := {| last_read_input := 40; last_read_output := 5; last_exit_dest_price := 0 |};
  cw_debts := {| DEBT_DATA := {[ 0 := demo_keeper ]}; AMOUNT_OWED := ∅ |}; cw_usage := blank_usage |}.
Definition routes_to_exit : list Route := [demo_host_route 1 500].

Lemma client_world_ok :
  client_round_ok client_env client_world exit_node 10 routes_to_exit (demo_host_route 1 500) [usage 15 150] (usage 15 150).
Proof. split; cbn; try done; try lia. Qed.

Lemma estimate_covers_bill_witness :
  exists w' owes xw' xdk', local_traffic_calculation client_env exit_node 10 routes_to_exit client_world = Done w' owes
    /\ watch_exit_traffic exit_env demo_client_routes [client_node] exit_world = Done xw' tt
    /\ DEBT_DATA (xw_debts xw') !! 0 = Some xdk'
    /\ let charged := debt (entry client_node demo_keeper) - debt (entry client_node xdk') in
       charged <= owes <= charged + (10 * 110) ÷ 10 + 1.
Proof.
  exact (estimate_covers_bill _ _ _ _ _ _ _ _ _ _ _ _ _ _ _ _ _ client_node (usage 40 5) (usage 150 15)
           client_world_ok exit_world_ok eq_refl eq_refl eq_refl eq_refl eq_refl eq_refl eq_refl eq_refl).
Defined.

(** The ledger of the exit after its round. *)
Definition exit_entry : NodeDebtData := set_debt (-61700) NodeDebtData_new.
Definition exit_ledger : DebtKeeper := {| last_save := None; debt_data := hm_insert client_node exit_entry ∅ |}.
Definition ask : QueryExitDebts := {| qe_exit_id := exit_node; qe_exit_price := 10; qe_routes := routes_to_exit |}.

Lemma client_calculates : local_traffic_calculation client_env exit_node 10 routes_to_exit client_world <> Panic.
Proof. vm_compute. discriminate. Qed.

Lemma ledgers_mirrored_witness :
  exists answer w' dk', get_client_debt false (hm_entries (debt_data exit_ledger)) client_node = Some answer
    /\ query_exit_debts client_env answer ask client_world = Done w' tt
    /\ DEBT_DATA (cw_debts w') !! 0 = Some dk'
    /\ debt (entry exit_node dk') + -61700 = 0.
Proof.
  destruct (ledgers_mirrored false client_env client_world demo_keeper ask client_node exit_ledger exit_entry)
    as (answer & w' & dk' & Ha & Hq & Hk & _ & Hm & _);
    [apply hm_wf_insert, hm_wf_empty|reflexivity|vm_compute; split; discriminate|reflexivity
    |exact client_calculates|reflexivity|].
  exists answer, w', dk'. split; [exact Ha|]. split; [exact Hq|]. split; [exact Hk|].
  apply Hm; [reflexivity|reflexivity|vm_compute; discriminate|vm_compute; discriminate].
Defined.

Lemma demo_keeper_small i : - 2 ^ 200 <= debt (entry i demo_keeper) <= 2 ^ 200.
Proof. rewrite demo_keeper_debts. lia. Qed.

Lemma unreachable_exit_billed_locally_witness :
  exists w' dk', query_exit_debts client_env RequestFailed ask client_world = Done w' tt
    /\ DEBT_DATA (cw_debts w') !! 0 = Some dk'
    /\ debt (entry exit_node dk') = debt (entry exit_node demo_keeper) + client_estimate 10 10 500 110 10
    /\ forall i, key i <> key exit_node -> debt (entry i dk') = debt (entry i demo_keeper).
Proof.
  exact (unreachable_exit_billed_locally client_env client_world demo_keeper ask _ _ _ RequestFailed client_world_ok
           (or_introl eq_refl) eq_refl demo_keeper_small).
Defined.
