(* ===== verification/ExitServerLoop.v ===== *)
(** The loop of the exit (rita_exit/src/rita_loop/mod.rs): billing, setting up the
    clients, checking their regions and enforcing their debts, one after the
    other on a state that the watchdog keeps. *)
From S2P Require Import Prelude Types Oracle TxFee DebtKeeper Trim UsageTracker Text Babel Regions.
From S2P Require Import ExitManager ExitDatabase ExitClients ExitDatabaseSpec.
From S2P Require Import ExitEnforcement ExitTraffic.
Module ExitServerLoop.

Definition EXIT_LOOP_SPEED : Z := 5.

Record RitaExitCache := {
  wg_clients : gset ExitClient;
  debt_actions : list (Identity * DebtAction);
  successful_setup : bool;
  cache_exit_clients : gset Z;
  cache_exit_v2_clients : gset Z;
  geoip_blacklist : list Identity;
}.
Definition RitaExitCache_default : RitaExitCache := {|
  wg_clients := ∅; debt_actions := []; successful_setup := false; cache_exit_clients := ∅;
  cache_exit_v2_clients := ∅; geoip_blacklist := [] |}.

(** What the world answers during one pass: the routes babeld gives to the
    billing and to the region check ([None] when it cannot be asked), the
    gateways of interfaces, the geoip service, the handshakes and the state of
    the traffic classes. *)
Record pass_inputs := {
  pi_bill_routes : option (list Route);
  pi_region_routes : option (list Route);
  pi_remote_ip : text -> option IpAddr;
  pi_api : IpAddr -> geo_answer;
  pi_handshakes : exit_interface -> option (gmap Z Z);
  pi_view : enforce_view;
  pi_watch : exit_watch_env;
}.

Record ExitServerState := { xs_traffic : ExitTrafficWorld; xs_state : RitaExitState; xs_cache : RitaExitCache }.

Section loop.
Context `{Nm : Num256} `{N : IpNets} `{H : WgHash} `{P : Profile} (s : exit_settings).

(** The list of clients of the contract, or the last one when it cannot be read. *)
Definition update_client_list (contract : option (list Identity)) (reg_clients_list : list Identity) : list Identity :=
  match contract with Some list => list | None => reg_clients_list end.

(** [None] is a panic. *)
Definition bill (i : pass_inputs) (ids : list Identity) (w : ExitTrafficWorld) : option ExitTrafficWorld :=
  match pi_bill_routes i with
  | Some routes => outcome_state (watch_exit_traffic (pi_watch i) routes ids w)
  | None => Some w
  end.

(** The inner [None] is no result. *)
Definition check_regions (i : pass_inputs) (clients_list : list Identity) (cache : geoip_cache)
    : option (geoip_cache * option (list Identity)) :=
  match allowed_countries (es_geo s) with
  | [] => Some (cache, None)
  | _ =>
      match pi_region_routes i with
      | None => Some (cache, None)
      | Some routes =>
          match validate_clients_region (es_geo s) (pi_api i) (pi_remote_ip i) routes clients_list cache with
          | None => None
          | Some (cache, blacklist) => Some (cache, Some blacklist)
          end
      end
  end.

Definition rita_exit_loop (i : pass_inputs) (reg_clients_list : list Identity) (st : ExitServerState)
    : option (ExitServerState * list kernel_action) :=
  let cache := xs_cache st in
  traffic ← bill i reg_clients_list (xs_traffic st);
  '(m, setup, states) ← setup_clients s (pi_handshakes i) reg_clients_list (geoip_blacklist cache)
    {| old_clients := wg_clients cache; wg_exit_clients := cache_exit_clients cache;
       wg_exit_v2_clients := cache_exit_v2_clients cache |} (ip_assignment_map (xs_state st));
  '(geo, regions) ← check_regions i reg_clients_list (exit_geoip (xs_state st));
  debts ← get_debts_list (xe_netns (pi_watch i)) (xe_default (pi_watch i)) (xw_debts traffic);
  '(m, enforcement, actions) ← enforce_exit_clients s (pi_view i) reg_clients_list (debt_actions cache) debts m;
  Some ({| xs_traffic := traffic;
           xs_state := {| ip_assignment_map := m; exit_geoip := geo |};
           xs_cache := {| wg_clients := old_clients states; debt_actions := actions; successful_setup := true;
                          cache_exit_clients := wg_exit_clients states;
                          cache_exit_v2_clients := wg_exit_v2_clients states;
                          geoip_blacklist := default (geoip_blacklist cache) regions |} |},
        setup ++ enforcement).
End loop.
End ExitServerLoop.
Export ExitServerLoop.

(** * Clients in the configuration of the tunnels *)

Section config.
Context `{N : IpNets} `{H : WgHash} `{P : Profile} (s : exit_settings) (Hs : settings_ok s).

(** Only the key of a client matters for its addresses. *)
Lemma get_client_ipv6_key c c' sub size m :
  wg_public_key c' = wg_public_key c -> get_client_ipv6 c' sub size m = get_client_ipv6 c sub size m.
Proof. intros Hwg. unfold get_client_ipv6. by rewrite Hwg. Qed.
Lemma get_client_internal_ip_key c c' mask gw m :
  wg_public_key c' = wg_public_key c -> get_client_internal_ip c' mask gw m = get_client_internal_ip c mask gw m.
Proof. intros Hwg. unfold get_client_internal_ip. by rewrite Hwg. Qed.

Lemma to_exit_client_fields c m m' a :
  to_exit_client s c m = Some (m', inr a) ->
  ec_public_key a = wg_public_key c /\ ec_mesh_ip a = mesh_ip c /\ ec_port a = CLIENT_WG_PORT.
Proof.
  unfold to_exit_client. destruct (get_client_ipv6 _ _ _ _) as [[|[? ?]]|]; [done| |done].
  destruct (get_client_internal_ip _ _ _ _) as [[|[? ?]]|]; [done| |done]. by intros [= _ <-].
Qed.

(** A client that got its addresses gets the same ones again. *)
Lemma to_exit_client_again c c' m1 m2 m3 a :
  to_exit_client s c m1 = Some (m2, inr a) -> keeps m2 m3 ->
  wg_public_key c' = wg_public_key c -> mesh_ip c' = mesh_ip c ->
  exists m4, to_exit_client s c' m3 = Some (m4, inr a).
Proof.
  intros Ha Hk Hwg Hmesh. destruct (to_exit_client_fields _ _ _ _ Ha) as (Hak & Ham & Hap).
  apply to_exit_client_ok in Ha as (m & H6 & H4). pose proof Hs as [Hn Hd].
  assert (keeps m m3) as Hkm by (etrans; [by eapply client_internal_keeps|done]).
  assert (exists m4, get_client_ipv6 c' (es_subnet s) (client_size s) m3 = Some (inr (m4, ec_internet_ipv6 a))) as [m4 E6].
  { rewrite (get_client_ipv6_key c c') by done. destruct (es_subnet s) as [sub|]; [|injection H6 as _ <-; by eexists].
    destruct (ipv6_granted _ _ _ _ _ _ Hd H6) as (n & En & _). rewrite En in H6 |- *. by eapply ipv6_again. }
  assert (keeps m2 m4) as Hk4 by (etrans; [exact Hk|by eapply client_ipv6_keeps]).
  destruct (internal_ip_again _ _ _ _ _ _ _ Hn H4 Hk4) as [m5 E4].
  exists m5. unfold to_exit_client. fold (client_size s). rewrite E6.
  rewrite (get_client_internal_ip_key c c'), E4, Hwg, Hmesh by done. do 3 f_equal. destruct a; cbn in *; congruence.
Qed.

Lemma exit_clients_of_elem l m out m' out' a :
  exit_clients_of s l m out = Some (m', out') -> a ∈ out' ->
  a ∈ out \/ exists c m1 m2, c ∈ l /\ to_exit_client s c m1 = Some (m2, inr a) /\ keeps m2 m'.
Proof.
  revert m out. induction l as [|c l IH]; intros m out; cbn; [intros [= <- <-]; by left|].
  destruct (to_exit_client s c m) as [[m1 [e|b]]|] eqn:E; [| |done]; intros Hr Ha;
    destruct (IH _ _ Hr Ha) as [Hin|(c' & m2 & m3 & Hc & Hto & Hk)].
  - by left.
  - right. exists c', m2, m3. split; [by right|done].
  - apply elem_of_union in Hin as [->%elem_of_singleton|Hin]; [|by left].
    right. exists c, m, m1. split; [left|]. split; [done|]. by eapply exit_clients_of_keeps.
  - right. exists c', m2, m3. split; [by right|done].
Qed.

Lemma exit_clients_of_has l m out m' out' c a :
  exit_clients_of s l m out = Some (m', out') -> c ∈ l ->
  (forall m1, keeps m m1 -> exists m2, to_exit_client s c m1 = Some (m2, inr a)) -> a ∈ out'.
Proof.
  assert (forall l m (out : gset ExitClient) m' out', exit_clients_of s l m out = Some (m', out') -> out ⊆ out') as Hmono.
  { clear. induction l as [|c l IH]; intros m out m' out'; cbn; [by intros [= <- <-]|].
    destruct (to_exit_client s c m) as [[m1 [e|b]]|]; [apply IH| |done]. intros Hr%IH. set_solver. }
  revert m out. induction l as [|c0 l IH]; intros m out; cbn; [by intros _ ?%not_elem_of_nil|].
  destruct (to_exit_client s c0 m) as [[m1 r]|] eqn:E; [|done]. intros Hr Hin Hto.
  pose proof (to_exit_client_keeps s Hs c0 m m1 r E) as Hk.
  assert (forall m2, keeps m1 m2 -> exists m3, to_exit_client s c m2 = Some (m3, inr a)) as Hto1
    by (intros m2 Hk2; apply Hto; by etrans).
  apply elem_of_cons in Hin as [->|Hin].
  - destruct (Hto m) as [m2 E2]; [done|]. rewrite E in E2. injection E2 as -> ->. apply Hmono in Hr. set_solver.
  - destruct r; by eapply IH.
Qed.

(** Two entries for the same client. *)
Definition is_client (a : ExitClient) (c : Identity) : Prop := ec_public_key a = wg_public_key c /\ ec_mesh_ip a = mesh_ip c.

(** The configuration of both tunnels: none when no client is left. *)
Definition tunnel_configs (wg : gset ExitClient) : list kernel_action :=
  if bool_decide (wg = ∅) then []
  else [SetWgConfig wg (es_wg_tunnel_port s) LEGACY_INTERFACE; SetWgConfig wg (es_wg_v2_tunnel_port s) EXIT_INTERFACE].

(** From a cache without clients, the clients of the configuration are registered
    and not on the blacklist, and have everyone whose addresses are known. *)
Lemma setup_respects_blacklist hs clients blacklist cs m m' acts cs' :
  setup_clients s hs clients blacklist cs m = Some (m', acts, cs') -> old_clients cs = ∅ ->
  exists wg, acts = tunnel_configs wg /\ old_clients cs' = ∅
    /\ (forall a, a ∈ wg -> (exists c, c ∈ clients /\ is_client a c) /\ forall c, c ∈ blacklist -> ~ is_client a c)
    /\ (forall c a, c ∈ clients -> (forall b, b ∈ blacklist -> ~ is_client a b) ->
          to_exit_client s c m = Some (m, inr a) -> a ∈ wg).
Proof.
  rewrite setup_clients_run. destruct (exit_clients_of s clients m ∅) as [[m1 wg1]|] eqn:E1; [|done]. cbn.
  destruct (exit_clients_of s blacklist m1 ∅) as [[m2 black]|] eqn:E2; [|done]. cbn.
  destruct (hs EXIT_INTERFACE); [|done]. destruct (hs LEGACY_INTERFACE); [|done]. intros [= <- <- <-] Hold.
  exists (wg1 ∖ black). split; [|split; [done|split]].
  - unfold configured, tunnel_configs. rewrite Hold.
    by assert (((wg1 ∖ black) ∖ ∅ ∪ ∅ ∖ (wg1 ∖ black)) = wg1 ∖ black) as -> by set_solver.
  - intros a [Ha Hnb]%elem_of_difference.
    destruct (exit_clients_of_elem _ _ _ _ _ _ E1 Ha) as [Hemp|(c & m3 & m4 & Hc & Hto & Hk)]; [by apply not_elem_of_empty in Hemp|].
    destruct (to_exit_client_fields _ _ _ _ Hto) as (Hak & Ham & _). split; [by exists c|].
    intros c' Hc' [Hk' Hm']. apply Hnb. eapply exit_clients_of_has; [exact E2|exact Hc'|].
    intros m5 Hk5. eapply to_exit_client_again; [exact Hto|by etrans|congruence|congruence].
  - intros c a Hc Hno Hto. apply elem_of_difference. split.
    + eapply exit_clients_of_has; [exact E1|exact Hc|]. intros m3 Hk3. by eapply to_exit_client_again.
    + intros Hb. destruct (exit_clients_of_elem _ _ _ _ _ _ E2 Hb) as [Hemp|(b & m3 & m4 & Hbl & Htb & _)];
        [by apply not_elem_of_empty in Hemp|].
      destruct (to_exit_client_fields _ _ _ _ Htb) as (Hbk & Hbm & _). by apply (Hno b Hbl).
Qed.
End config.

(** * Two passes of the loop *)

Section passes.
Context `{Nm : Num256} `{N : IpNets} `{H : WgHash} `{P : Profile} (s : exit_settings).

Definition is_config (a : kernel_action) : bool := match a with SetWgConfig _ _ _ => true | _ => false end.

Lemma enforcement_no_config v clients old debts m m' acts new :
  enforce_exit_clients s v clients old debts m = Some (m', acts, new) -> Forall (fun a => is_config a = false) acts.
Proof.
  unfold enforce_exit_clients. destruct (clients_by_id s clients m ∅) as [[m1 ids]|]; [|done].
  destruct (same_actions _ _ _); [intros [= <- <- <-]; constructor|].
  destruct (enforce_entries s v ids debts m1) as [[m2 a]|] eqn:E; [|done]. intros [= <- <- <-].
  eapply enforce_entries_Forall; [|exact E]. intros id act ip m3 m4 acts3. unfold enforce_client.
  destruct act; [destruct (flow_setup_required v ip);
                   [destruct (get_client_ipv6 _ _ _ _) as [[|[? []]]|]; [| | |done]|]
                |destruct (unenforce_required v ip)..]; intros [= <- <-]; by repeat constructor.
Qed.

Lemma pass_parts i clients st st' acts :
  rita_exit_loop s i clients st = Some (st', acts) ->
  exists m setup states geo regions enforcement,
    setup_clients s (pi_handshakes i) clients (geoip_blacklist (xs_cache st))
      {| old_clients := wg_clients (xs_cache st); wg_exit_clients := cache_exit_clients (xs_cache st);
         wg_exit_v2_clients := cache_exit_v2_clients (xs_cache st) |} (ip_assignment_map (xs_state st))
    = Some (m, setup, states)
    /\ check_regions s i clients (exit_geoip (xs_state st)) = Some (geo, regions)
    /\ geoip_blacklist (xs_cache st') = default (geoip_blacklist (xs_cache st)) regions
    /\ wg_clients (xs_cache st') = old_clients states
    /\ acts = setup ++ enforcement /\ Forall (fun a => is_config a = false) enforcement.
Proof.
  unfold rita_exit_loop. destruct (bill i clients (xs_traffic st)) as [traffic|]; [|done]. cbn.
  destruct (setup_clients _ _ _ _ _ _) as [[[m setup] states]|]; [|done]. cbn.
  destruct (check_regions _ _ _ _) as [[geo regions]|]; [|done]. cbn.
  destruct (get_debts_list _ _ _) as [debts|]; [|done]. cbn.
  destruct (enforce_exit_clients _ _ _ _ _ _) as [[[m' enf] actions]|] eqn:E; [|done]. intros [= <- <-].
  apply enforcement_no_config in E. by eexists m, setup, states, geo, regions, enf.
Qed.

Lemma filter_no_config acts : Forall (fun a => is_config a = false) acts -> filter (fun a => is_config a = true) acts = [].
Proof. induction 1 as [|a l Ha _ IH]; [done|]. rewrite filter_cons, Ha. by rewrite decide_False by done. Qed.
Lemma filter_configs wg : filter (fun a => is_config a = true) (tunnel_configs s wg) = tunnel_configs s wg.
Proof. unfold tunnel_configs. by case_bool_decide. Qed.

(** C18 What a pass of the loop writes after a pass in which the geoip service
    placed one of a client's gateways outside of the allowed countries. The cache
    of clients is empty when the loop starts and stays empty, so the second pass
    writes the same configuration to both tunnels whenever a client is left for
    it, and none otherwise. That configuration has only registered clients, not
    the client that is outside, nor anyone else on the blacklist; every
    registered client that is not on the blacklist and whose addresses are known
    is in it. When no client is left nothing is written, and the tunnels keep
    the configuration they have, with the client that is outside. *)
Theorem region_enforced_next_pass i1 i2 clients1 clients2 st st1 st2 acts1 acts2 routes c p :
  settings_ok s -> allowed_countries (es_geo s) <> [] -> api_configured (es_geo s) = true ->
  geo_cache_sound (pi_api i1) (exit_geoip (xs_state st)) -> NoDup (mesh_ip <$> clients1) ->
  pi_region_routes i1 = Some routes -> wg_clients (xs_cache st) = ∅ ->
  rita_exit_loop s i1 clients1 st = Some (st1, acts1) -> rita_exit_loop s i2 clients2 st1 = Some (st2, acts2) ->
  c ∈ clients1 -> p ∈ gateways_of (pi_remote_ip i1) routes (mesh_ip c) ->
  outside (es_geo s) (pi_api i1) (ip_gateway p) = true ->
  let book := ip_assignment_map (xs_state st1) in
  let blacklist := geoip_blacklist (xs_cache st1) in
  exists wg, filter (fun a => is_config a = true) acts2 = tunnel_configs s wg
    /\ wg_clients (xs_cache st2) = ∅ /\ c ∈ blacklist
    /\ (forall a, a ∈ wg -> (exists c', c' ∈ clients2 /\ is_client a c') /\ forall b, b ∈ blacklist -> ~ is_client a b)
    /\ (forall c' a, c' ∈ clients2 -> (forall b, b ∈ blacklist -> ~ is_client a b) ->
          to_exit_client s c' book = Some (book, inr a) -> a ∈ wg).
Proof.
  intros Hs Hal Hapi Hgeo Hnd Hr Hc0 (m1 & set1 & stt1 & geo1 & reg1 & enf1 & Hset1 & Hreg & Hbl & Hcl1 & _)%pass_parts.
  intros (m2 & set2 & stt2 & geo2 & reg2 & enf2 & Hset & _ & _ & Hcl2 & -> & Henf)%pass_parts Hc Hp Ho book blacklist.
  destruct (region_blacklist_exact (es_geo s) (pi_api i1) (pi_remote_ip i1) routes clients1 _ Hapi Hgeo Hnd)
    as (cache & bl & Hv & Hbl').
  unfold check_regions in Hreg. rewrite Hr, Hv in Hreg. destruct (allowed_countries (es_geo s)); [done|].
  injection Hreg as <- <-. cbn in Hbl.
  destruct (setup_respects_blacklist s Hs _ _ _ _ _ _ _ _ Hset1 Hc0) as (_ & _ & Ho1 & _).
  destruct (setup_respects_blacklist s Hs _ _ _ _ _ _ _ _ Hset) as (wg & -> & Ho2 & Hin & Hhas); [cbn; congruence|].
  exists wg. split_and!; [|congruence| |exact Hin|exact Hhas].
  - by rewrite filter_app, filter_configs, (filter_no_config enf2 Henf), app_nil_r.
  - unfold blacklist. rewrite Hbl. apply Hbl'. split; [done|by exists p].
Qed.
End passes.

(** * Demonstrations

    Demonstrations of the exit server's properties on three clients of an exit
    with a /24 of internal addresses and a /48 of IPv6 addresses. *)

#[local] Existing Instance release_profile.

(** Networks by arithmetic, and a hash of 64 bits that collides. *)
#[local] Instance demo_nets : IpNets := {|
  v4_network ip p := ip - ip mod 2 ^ (32 - p);
  v4_broadcast ip p := ip - ip mod 2 ^ (32 - p) + 2 ^ (32 - p) - 1;
  v4_nth ip p n := if n <? 2 ^ (32 - p) then Some (ip - ip mod 2 ^ (32 - p) + n) else None;
  v6_network ip p := ip - ip mod 2 ^ (128 - p);
  v6_size p := 2 ^ (128 - p) |}.
Lemma demo_nets_laws : IpNetsLaws demo_nets.
Proof. by split. Qed.
#[local] Instance demo_hash : WgHash := fun k => k mod 2 + 254.

Definition client (n : Z) : Identity := {|
  mesh_ip := V6 n; eth_address := n; wg_public_key := n; nickname := None |}.
Definition demo_settings : exit_settings := {|
  es_subnet := Some (NetV6 (0x2602 * 2 ^ 112 + 5) 48); es_client_subnet_size := None; es_netmask := 24;
  es_own_internal_ip := 0xac100001; es_wg_tunnel_port := 59998; es_wg_v2_tunnel_port := 59999; es_exit_price := 10;
  es_chain := Xdai; es_description := "exit";
  es_geo := {| allowed_countries := [Canada]; api_configured := true |}; es_free_tier := 1000 |}.
Definition no_assignments : IpAssignmentMap := {| ipv6_assignments := ∅; internal_ip_assignments := ∅ |}.

Lemma exit_settings_ok : settings_ok demo_settings.
Proof. split; [cbn; lia|]. cbn. unfold client_size. cbn. unfold DEFAULT_CLIENT_SUBNET_SIZE. lia. Qed.

Definition books_of (c : Identity) (m : IpAssignmentMap) : IpAssignmentMap :=
  match to_exit_client demo_settings c m with Some (m', _) => m' | None => m end.
Definition client_of (c : Identity) (m : IpAssignmentMap) : ExitClient :=
  match to_exit_client demo_settings c m with
  | Some (_, inr a) => a
  | _ => {| ec_internal_ip := V4 0; ec_internet_ipv6 := None; ec_public_key := 0; ec_mesh_ip := V4 0; ec_port := 0 |}
  end.
Definition books1 : IpAssignmentMap := books_of (client 2) no_assignments.
Definition client2 : ExitClient := client_of (client 2) no_assignments.
Definition status_of (c : Identity) (m : IpAssignmentMap) : IpAssignmentMap :=
  match client_status demo_settings (Some c) m with Some (m', _) => m' | None => m end.
Definition books2 : IpAssignmentMap := status_of (client 6) books1.
Definition books3 : IpAssignmentMap := books_of (client 4) books2.
Definition client4 : ExitClient := client_of (client 4) books2.

Lemma client2_granted : to_exit_client demo_settings (client 2) no_assignments = Some (books1, inr client2).
Proof. vm_compute. reflexivity. Qed.
Lemma client6_served : exists r, client_status demo_settings (Some (client 6)) books1 = Some (books2, r).
Proof. eexists. vm_compute. reflexivity. Qed.
Lemma client4_granted : to_exit_client demo_settings (client 4) books2 = Some (books3, inr client4).
Proof. vm_compute. reflexivity. Qed.

(** The three keys collide, so the second and third client move on. *)
Lemma addresses_stable_unique_witness :
  (ec_internal_ip client2 = ec_internal_ip client4 <-> wg_public_key (client 2) = wg_public_key (client 4))
  /\ (wg_public_key (client 2) = wg_public_key (client 4) -> ec_internet_ipv6 client2 = ec_internet_ipv6 client4)
  /\ (forall n1 n2 x, ec_internet_ipv6 client2 = Some n1 -> ec_internet_ipv6 client4 = Some n2 ->
        covers n1 x -> covers n2 x -> wg_public_key (client 2) = wg_public_key (client 4)).
Proof.
  destruct client6_served as [r Hr].
  exact (addresses_stable_unique (L := demo_nets_laws) _ _ _ _ _ _ _ _ _ exit_settings_ok client2_granted
           (rtc_once _ _ (step_status _ _ _ _ _ Hr)) client4_granted).
Defined.

Lemma addresses_in_place_witness :
  (exists ip, ec_internal_ip client4 = V4 ip /\ ip <> es_own_internal_ip demo_settings
    /\ v4_network (es_own_internal_ip demo_settings) (es_netmask demo_settings) < ip
       < v4_broadcast (es_own_internal_ip demo_settings) (es_netmask demo_settings))
  /\ (forall n, ec_internet_ipv6 client4 = Some n -> exists ip p, es_subnet demo_settings = Some (NetV6 ip p)
        /\ (exists start, n = NetV6 start (client_size demo_settings))
        /\ forall x, covers n x -> covers (NetV6 (v6_network ip p) p) x).
Proof. exact (addresses_in_place (L := demo_nets_laws) _ _ _ _ _ exit_settings_ok client4_granted). Defined.

(** Client 2 behind a gateway in Canada, client 4 behind one in Mexico. *)
Definition gateway_route (n : Z) (iface : string) : Route := {|
  rt_id := []; rt_iface := lit iface; xroute := false; installed := true; neigh_ip := V6 9; prefix := NetV6 n 128;
  metric := 5; refmetric := 0; full_path_rtt := 0; rt_price := 0; rt_fee := 0 |}.
Definition demo_remote (iface : text) : option IpAddr :=
  if text_eqb iface (lit "wg1") then Some (V4 1) else if text_eqb iface (lit "wg2") then Some (V4 2) else None.
Definition demo_api (ip : IpAddr) : geo_answer := if bool_decide (ip = V4 1) then IsoCode "CA" else IsoCode "MX".
Definition demo_routes : list Route := [gateway_route 2 "wg1"; gateway_route 4 "wg2"].
Lemma clients_nodup : NoDup (mesh_ip <$> [client 2; client 4]).
Proof. apply (bool_decide_unpack _). vm_compute. exact I. Qed.

Lemma region_blacklist_witness :
  exists cache' bl,
    validate_clients_region (es_geo demo_settings) demo_api demo_remote demo_routes [client 2; client 4] ∅ = Some (cache', bl)
    /\ forall c, c ∈ bl <-> c ∈ [client 2; client 4]
         /\ exists p, p ∈ gateways_of demo_remote demo_routes (mesh_ip c)
                      /\ outside (es_geo demo_settings) demo_api (ip_gateway p) = true.
Proof. apply region_blacklist; [reflexivity|apply map_Forall_empty|apply clients_nodup]. Defined.

Definition no_states : ExitClientSetupStates := {| old_clients := ∅; wg_exit_clients := ∅; wg_exit_v2_clients := ∅ |}.
Definition demo_handshakes (i : exit_interface) : option (gmap Z Z) :=
  match i with LEGACY_INTERFACE => Some {[ 2 := 7 ]} | EXIT_INTERFACE => Some {[ 2 := 9; 4 := 3 ]} end.
Definition books12 : IpAssignmentMap := books_of (client 4) books1.
Lemma client4_next : to_exit_client demo_settings (client 4) books1 = Some (books12, inr (client_of (client 4) books1)).
Proof. vm_compute. reflexivity. Qed.
Lemma client4_again : to_exit_client demo_settings (client 4) books12 = Some (books12, inr (client_of (client 4) books1)).
Proof. vm_compute. reflexivity. Qed.
Lemma two_clients :
  exit_clients_of demo_settings [client 2; client 4] no_assignments ∅
  = Some (books12, {[ client_of (client 4) books1 ]} ∪ ({[ client2 ]} ∪ ∅)).
Proof. cbn [exit_clients_of]. by rewrite client2_granted, client4_next. Qed.
Lemma one_blacklisted :
  exit_clients_of demo_settings [client 4] books12 ∅ = Some (books12, {[ client_of (client 4) books1 ]} ∪ ∅).
Proof. cbn [exit_clients_of]. by rewrite client4_again. Qed.
Definition demo_wg : gset ExitClient :=
  ({[ client_of (client 4) books1 ]} ∪ ({[ client2 ]} ∪ ∅)) ∖ ({[ client_of (client 4) books1 ]} ∪ ∅).

Lemma setup_forgets_witness :
  setup_clients demo_settings demo_handshakes [client 2; client 4] [client 4] no_states no_assignments
  = Some (books12, if bool_decide (demo_wg = ∅) then []
                   else [SetWgConfig demo_wg (es_wg_tunnel_port demo_settings) LEGACY_INTERFACE;
                         SetWgConfig demo_wg (es_wg_v2_tunnel_port demo_settings) EXIT_INTERFACE], no_states).
Proof. exact (setup_forgets _ demo_handshakes _ _ no_states _ _ _ _ _ _ _ two_clients one_blacklisted eq_refl eq_refl eq_refl). Defined.

(** Client 2 owes, client 4 has paid and still has a class. *)
Definition debt_of (a : DebtAction) : NodeDebtData := {|
  total_payment_received := 0; total_payment_sent := 0; debt := 5; incoming_payments := 0; action := a;
  payment_in_flight := false; payment_in_flight_start := None; last_successful_payment := None |}.
Definition demo_debts : list (Identity * NodeDebtData) :=
  [(client 2, debt_of SuspendTunnel); (client 4, debt_of OpenTunnel)].
Definition demo_view : enforce_view := {| has_flow := fun _ _ => Some false; has_class := fun _ _ => Some true |}.
Definition demo_ids : gmap id_key ExitClient :=
  {[ identity_key (client 4) := client_of (client 4) books1; identity_key (client 2) := client2 ]}.
Definition demo_acts : list kernel_action :=
  match enforce_exit_clients demo_settings demo_view [client 2; client 4] [] demo_debts no_assignments with
  | Some (_, acts, _) => acts
  | None => []
  end.
Lemma demo_by_id : clients_by_id demo_settings [client 2; client 4] no_assignments ∅ = Some (books12, demo_ids).
Proof. cbn [clients_by_id]. by rewrite client2_granted, client4_next. Qed.
Lemma demo_enforced :
  enforce_exit_clients demo_settings demo_view [client 2; client 4] [] demo_debts no_assignments
  = Some (books12, demo_acts, debt_actions_of demo_debts).
Proof. vm_compute. reflexivity. Qed.
Lemma client2_known : demo_ids !! identity_key (client 2) = Some client2.
Proof. vm_compute. reflexivity. Qed.
Lemma client2_ip : ec_internal_ip client2 = V4 0xac1000fe.
Proof. vm_compute. reflexivity. Qed.

Lemma enforcement_verdicts_witness :
  debt_actions_of demo_debts = debt_actions_of demo_debts
  /\ (action (debt_of SuspendTunnel) = SuspendTunnel -> limits_of demo_settings 0xac1000fe ⊆ demo_acts)
  /\ (action (debt_of SuspendTunnel) <> SuspendTunnel -> unenforce_required demo_view 0xac1000fe = true ->
      [DeleteClass LEGACY_INTERFACE 0xac1000fe; DeleteClass EXIT_INTERFACE 0xac1000fe] ⊆ demo_acts).
Proof.
  exact (enforcement_verdicts _ demo_view _ [] demo_debts _ _ _ _ _ _ _ _ _ _ demo_by_id eq_refl demo_enforced
           (list_elem_of_here _ _) client2_known client2_ip).
Defined.

Lemma enforcement_without_flows_witness : Forall (fun a => is_flow a = false) demo_acts.
Proof. apply (enforcement_without_flows _ demo_view _ _ _ _ _ _ _ ltac:(discriminate) demo_enforced). Defined.

(** Two passes of the loop of an exit without IPv6: the first one finds client 4
    in Mexico. *)
Definition plain_settings : exit_settings := {|
  es_subnet := None; es_client_subnet_size := None; es_netmask := 24;
  es_own_internal_ip := 257; es_wg_tunnel_port := 1; es_wg_v2_tunnel_port := 2; es_exit_price := 10;
  es_chain := Xdai; es_description := "exit"; es_geo := es_geo demo_settings; es_free_tier := 1000 |}.
Lemma plain_settings_ok : settings_ok plain_settings.
Proof. split; [cbn; lia|done]. Qed.
Definition no_watch : exit_watch_env := {|
  xe_settings := {| bs_our_id := None; bs_local_fee := 0; bs_max_fee := 0; bs_exit_price := 0; bs_tx_fee := 1 |};
  xe_netns := 0; xe_default := Some {| last_save := None; debt_data := ∅ |};
  xe_legacy := None; xe_exit := None; xe_hour := None; xe_now := (1, 2, 3) |}.
Definition demo_inputs : pass_inputs := {|
  pi_bill_routes := None; pi_region_routes := Some demo_routes; pi_remote_ip := demo_remote; pi_api := demo_api;
  pi_handshakes := demo_handshakes; pi_view := demo_view; pi_watch := no_watch |}.
Definition idle : ThroughputData := {| last_sample_time := None; duration_of_this_sample := 0; bytes_used := 0 |}.
Definition first_state : ExitServerState := {|
  xs_traffic := {| xw_history := ∅; xw_debts := {| DEBT_DATA := ∅; AMOUNT_OWED := ∅ |};
                   xw_usage := {| usage_tracker := blank_usage_tracker; tp_client := idle; tp_relay := idle; tp_exit := idle |} |};
  xs_state := {| ip_assignment_map := no_assignments; exit_geoip := ∅ |}; xs_cache := RitaExitCache_default |}.
#[local] Existing Instance Num256_panicking.
Definition pass (st : ExitServerState) : option (ExitServerState * list kernel_action) :=
  rita_exit_loop plain_settings demo_inputs [client 2; client 4] st.
Definition state_after (st : ExitServerState) : ExitServerState := match pass st with Some (st, _) => st | None => st end.
Definition acts_of (st : ExitServerState) : list kernel_action := match pass st with Some (_, acts) => acts | None => [] end.
Definition second_state : ExitServerState := state_after first_state.

Lemma pass_some st :
  match pass st with Some _ => true | None => false end = true ->
  rita_exit_loop plain_settings demo_inputs [client 2; client 4] st = Some (state_after st, acts_of st).
Proof. unfold state_after, acts_of. fold (pass st). by destruct (pass st) as [[]|]. Qed.
Lemma first_pass :
  rita_exit_loop plain_settings demo_inputs [client 2; client 4] first_state = Some (second_state, acts_of first_state).
Proof. apply pass_some. vm_compute. reflexivity. Qed.
Lemma second_pass :
  rita_exit_loop plain_settings demo_inputs [client 2; client 4] second_state = Some (state_after second_state, acts_of second_state).
Proof. apply pass_some. vm_compute. reflexivity. Qed.
Definition mexican : IpPair := {| ip_mesh := V6 4; ip_gateway := V4 2 |}.
Lemma mexican_gateway : mexican ∈ gateways_of demo_remote demo_routes (mesh_ip (client 4)).
Proof. vm_compute. left. Qed.
Lemma mexican_outside : outside (es_geo plain_settings) demo_api (ip_gateway mexican) = true.
Proof. vm_compute. reflexivity. Qed.
Lemma client4_registered : client 4 ∈ [client 2; client 4].
Proof. right. left. Qed.

(** The configuration the second pass writes, which client 2 is in. *)
Definition plain_client2 : ExitClient := {|
  ec_internal_ip := V4 510; ec_internet_ipv6 := None; ec_public_key := 2; ec_mesh_ip := V6 2; ec_port := CLIENT_WG_PORT |}.
Lemma client2_served :
  to_exit_client plain_settings (client 2) (ip_assignment_map (xs_state second_state))
  = Some (ip_assignment_map (xs_state second_state), inr plain_client2).
Proof. vm_compute. reflexivity. Qed.
Lemma client2_not_blacklisted b : b ∈ geoip_blacklist (xs_cache second_state) -> ~ is_client plain_client2 b.
Proof. revert b. apply Forall_forall. vm_compute. constructor; [|constructor]. by intros [? _]. Qed.

Lemma region_enforced_next_pass_witness :
  exists wg, filter (fun a => is_config a = true) (acts_of second_state)
      = [SetWgConfig wg 1 LEGACY_INTERFACE; SetWgConfig wg 2 EXIT_INTERFACE]
    /\ plain_client2 ∈ wg /\ forall a, a ∈ wg -> ~ is_client a (client 4).
Proof.
  destruct (region_enforced_next_pass plain_settings demo_inputs demo_inputs [client 2; client 4] [client 2; client 4]
            first_state second_state (state_after second_state) (acts_of first_state) (acts_of second_state) demo_routes
            (client 4) mexican plain_settings_ok ltac:(discriminate) eq_refl (map_Forall_empty _) clients_nodup eq_refl eq_refl
            first_pass second_pass client4_registered mexican_gateway mexican_outside)
    as (wg & Hf & _ & Hb & Hin & Hhas).
  assert (Hw : plain_client2 ∈ wg) by (apply (Hhas (client 2)); [left|exact client2_not_blacklisted|exact client2_served]).
  exists wg. split_and!; [|exact Hw|].
  - rewrite Hf. unfold tunnel_configs. rewrite bool_decide_eq_false_2; [reflexivity|]. intros ->. by apply not_elem_of_empty in Hw.
  - intros a Ha. by apply (Hin a Ha).
Defined.
