(* ===== verification/OperatorFee.v ===== *)
(** The operator fee (rita_client/src/operator_fee_manager/mod.rs): a fixed fee per
    second that adds up and is paid to the operator when it passes the payment
    threshold and the balance allows it. *)
From S2P Require Import Prelude Types Oracle TxFee Trim UsageTracker.

Module OperatorFee.

Record OperatorFeeManager := { op_last_updated : Z; operator_debt : Z }.
Definition OperatorFeeManager_new (now : Z) : OperatorFeeManager := {| op_last_updated := now; operator_debt := 0 |}.
Record OperatorSettings := { operator_address : option Z; operator_fee : Z }.

(** What one tick reads: the two readings of the clock, the oracle's balance and
    what became of the transaction ([None] when it was not prepared or not
    sent). *)
Record operator_inputs := {
  oi_elapsed_at : Z;
  oi_now : Z;
  oi_balance : option Z;
  oi_sent : option Z;
  oi_hour : option Z;
}.

Record OperatorWorld := {
  ow_fee : OperatorFeeManager;
  ow_usage : UsageTrackerStorage;
  ow_owed : gmap Z Z;
}.

Section operator.
Context `{N : Num256} (netns : Z) (s : PaymentSettings) (op : OperatorSettings).

Definition operator_identity (address : Z) : Identity := {|
  mesh_ip := V6 1; eth_address := address;
  wg_public_key := 0x60987114fbfe355794e5ef9e066c085c577fa5576093ad63507a23b92b7c214d;
  nickname := None |}.

(** The first half: what is owed by now. *)
Definition accumulate (i : operator_inputs) (st : OperatorFeeManager) : option OperatorFeeManager :=
  accrued ← u_mul (instant_sub (oi_elapsed_at i) (op_last_updated st) / NANOS) (operator_fee op);
  owed ← u_add (operator_debt st) accrued;
  Some {| op_last_updated := oi_now i; operator_debt := owed |}.

Definition should_pay (i : operator_inputs) (amount_to_pay : Z) : bool :=
  (get_pay_thresh s <? default 0 (to_int256 amount_to_pay)) && (amount_to_pay <=? default 0 (oi_balance i)).

(** [None] is a panic; the payment that was made is returned. *)
Definition tick_operator_payments (our_id : option Identity) (i : operator_inputs) (w : OperatorWorld)
    : option (OperatorWorld * option PaymentTx) :=
  match our_id with
  | None => Some (w, None)
  | Some our_id =>
      match settings_eth_private_key s, operator_address op with
      | None, _ => None
      | Some _, None => Some (w, None)
      | Some _, Some address =>
          state ← accumulate i (ow_fee w);
          let amount_to_pay := operator_debt state in
          let waiting := {| ow_fee := state; ow_usage := ow_usage w; ow_owed := ow_owed w |} in
          if should_pay i amount_to_pay then
            match oi_sent i with
            | Some id =>
                let payment := {| tx_to := operator_identity address; tx_from := our_id;
                                  tx_amount := amount_to_pay; txid := id |} in
                let usage := update_payments (oi_hour i) payment (ow_usage w) in
                owed ← add_tx_to_total netns s amount_to_pay (ow_owed w);
                rest ← u_sub (operator_debt state) amount_to_pay;
                Some ({| ow_fee := {| op_last_updated := op_last_updated state; operator_debt := rest |};
                         ow_usage := usage; ow_owed := owed |}, Some payment)
            | None => Some (waiting, None)
            end
          else Some (waiting, None)
      end
  end.

(** Successive ticks, with the payments they made. *)
Fixpoint operator_ticks (our_id : Identity) (l : list operator_inputs) (w : OperatorWorld)
    : option (OperatorWorld * list PaymentTx) :=
  match l with
  | [] => Some (w, [])
  | i :: l =>
      '(w, p) ← tick_operator_payments (Some our_id) i w;
      '(w, ps) ← operator_ticks our_id l w;
      Some (w, match p with Some p => p :: ps | None => ps end)
  end.
End operator.
End OperatorFee.
Export OperatorFee.

(** * What the operator gets *)

Section operator.
Context `{N : Num256} {L : Num256Laws N} (netns : Z) (s : PaymentSettings) (op : OperatorSettings).

(** The whole seconds between the ticks, which is what the fee counts. *)
Fixpoint counted (last : Z) (l : list operator_inputs) : Z :=
  match l with
  | [] => 0
  | i :: l => instant_sub (oi_elapsed_at i) last / NANOS + counted (oi_now i) l
  end.
Definition paid_to (l : list PaymentTx) : Z := foldr (fun p t => tx_amount p + t) 0 l.

Lemma counted_nonneg last l : 0 <= counted last l.
Proof.
  revert last. induction l as [|i l IH]; intros last; cbn; [done|]. specialize (IH (oi_now i)).
  assert (0 <= instant_sub (oi_elapsed_at i) last / NANOS); [|lia].
  apply Z.div_pos; [unfold instant_sub; lia|done].
Qed.

(** No payment overflows the total of fees. *)
Definition fees_fit (w : OperatorWorld) (total : Z) : Prop :=
  0 < simulated_transaction_fee s /\ 0 <= get_amount_owed netns (ow_owed w)
  /\ get_amount_owed netns (ow_owed w) + total <= U256_MAX.

Lemma operator_tick_exact our_id address i w budget :
  settings_eth_private_key s <> None -> operator_address op = Some address ->
  0 <= operator_fee op -> 0 <= get_pay_thresh s -> 0 <= operator_debt (ow_fee w) ->
  let accrued := instant_sub (oi_elapsed_at i) (op_last_updated (ow_fee w)) / NANOS * operator_fee op in
  operator_debt (ow_fee w) + accrued <= budget -> budget <= U256_MAX -> fees_fit w budget ->
  exists w' p, tick_operator_payments netns s op (Some our_id) i w = Some (w', p)
    /\ op_last_updated (ow_fee w') = oi_now i
    /\ operator_debt (ow_fee w') + paid_to (option_list p) = operator_debt (ow_fee w) + accrued
    /\ 0 <= operator_debt (ow_fee w') /\ 0 <= paid_to (option_list p)
    /\ fees_fit w' (budget - paid_to (option_list p))
    /\ (forall q, p = Some q -> tx_to q = operator_identity address
          /\ get_pay_thresh s < tx_amount q <= default 0 (oi_balance i)).
Proof.
  intros Hk Hop Hfee Hthr Hdebt accrued Hb HU (Hf & Hg0 & Hg).
  assert (0 <= instant_sub (oi_elapsed_at i) (op_last_updated (ow_fee w)) / NANOS)
    by (apply Z.div_pos; [unfold instant_sub; lia|done]).
  assert (0 <= accrued) by (subst accrued; nia).
  unfold tick_operator_payments. destruct (settings_eth_private_key s); [|done]. rewrite Hop. unfold accumulate.
  fold accrued. rewrite u_mul_exact by (fold accrued; lia256). fold accrued. cbn [mbind option_bind].
  rewrite u_add_exact by lia256. cbn [mbind option_bind operator_debt op_last_updated].
  set (amount := operator_debt (ow_fee w) + accrued) in *.
  destruct (should_pay s i amount) eqn:Ep; [|by eexists _, _; repeat split; cbn; try lia].
  destruct (oi_sent i) as [id|]; [|by eexists _, _; repeat split; cbn; try lia].
  assert (0 <= amount / simulated_transaction_fee s <= amount) as Hdiv.
  { split; [apply Z.div_pos; lia|]. apply Z.div_le_upper_bound; nia. }
  unfold add_tx_to_total. rewrite u_div_exact by lia256. cbn [mbind option_bind].
  rewrite u_add_exact by lia256. cbn [mbind option_bind]. rewrite u_sub_exact by lia256. cbn [mbind option_bind].
  unfold should_pay in Ep. apply andb_true_iff in Ep as [Ht%Z.ltb_lt Hbal%Z.leb_le].
  rewrite to_int256_spec in Ht by lia256.
  eexists _, _. split; [reflexivity|]. cbn. split; [done|]. split; [lia|]. split; [lia|]. split; [lia|]. split.
  - split; [done|]. cbn. rewrite get_owed_insert. lia.
  - intros q [= <-]. split; [done|]. cbn. split; [|done].
    destruct (is_i256 amount); cbn in Ht; [done|lia].
Qed.

(** The operator is paid exactly what has added up: over any number of ticks
    what is still owed and what was paid together are what was owed at first and
    the fee for the whole seconds counted; every payment is above the threshold,
    covered by the balance, and goes to the operator. *)
Theorem operator_fee_adds_up our_id address l w :
  settings_eth_private_key s <> None -> operator_address op = Some address ->
  0 <= operator_fee op -> 0 <= get_pay_thresh s -> 0 <= operator_debt (ow_fee w) ->
  let total := operator_debt (ow_fee w) + counted (op_last_updated (ow_fee w)) l * operator_fee op in
  total <= U256_MAX -> fees_fit w total ->
  exists w' ps, operator_ticks netns s op our_id l w = Some (w', ps)
    /\ operator_debt (ow_fee w') + paid_to ps = total
    /\ Forall (fun q => tx_to q = operator_identity address /\ get_pay_thresh s < tx_amount q
                        /\ exists i, i ∈ l /\ tx_amount q <= default 0 (oi_balance i)) ps.
Proof.
  intros Hk Hop Hfee Hthr Hdebt total HU Hfit.
  assert (exists budget, total <= budget /\ budget <= U256_MAX /\ fees_fit w budget) as (budget & Hle & HbU & Hfb) by (exists total; split; [lia|done]).
  clear HU Hfit. subst total. revert w budget Hdebt Hle HbU Hfb.
  induction l as [|i l IH]; intros w budget Hdebt Hle HbU Hfb.
  { exists w, []. cbn. split; [done|]. split; [lia|constructor]. }
  cbn [counted] in *. set (t := instant_sub (oi_elapsed_at i) (op_last_updated (ow_fee w)) / NANOS) in *.
  pose proof (counted_nonneg (oi_now i) l) as Hc.
  destruct (operator_tick_exact our_id address i w budget Hk Hop Hfee Hthr Hdebt) as (w1 & p & E & Hl & Hsum & Hd1 & Hp0 & Hf1 & Hq);
    [fold t; nia|done|done|]. fold t in Hsum.
  destruct (IH w1 (budget - paid_to (option_list p)) Hd1) as (w' & ps & E' & Hsum' & Hps); [rewrite Hl; nia|lia|done|].
  cbn [operator_ticks]. rewrite E. cbn [mbind option_bind]. rewrite E'. cbn [mbind option_bind].
  eexists _, _. split; [done|]. rewrite Hl in Hsum'. split.
  - rewrite Z.mul_add_distr_r, Z.add_assoc, <- Hsum. unfold paid_to in *. destruct p; cbn; lia.
  - assert (Forall (fun q => tx_to q = operator_identity address /\ get_pay_thresh s < tx_amount q
              /\ exists j, j ∈ i :: l /\ tx_amount q <= default 0 (oi_balance j)) ps) as Hps'.
    { eapply Forall_impl; [exact Hps|]. cbn. intros q (? & ? & j & ? & ?). repeat split; [done|done|].
      exists j. split; [by right|done]. }
    destruct p as [q|]; [|done]. constructor; [|done]. destruct (Hq q eq_refl) as (? & ? & ?).
    repeat split; [done|done|]. exists i. split; [left|done].
Qed.

(** The fee lags behind the clock: the part of a second that had begun at a tick
    is dropped, so that ticks less than a second apart never owe the operator
    anything, however long they go on. *)
Lemma short_ticks_count_nothing last l :
  Forall (fun i => oi_now i = oi_elapsed_at i) l ->
  (forall i, head l = Some i -> oi_elapsed_at i - last < NANOS) ->
  (forall n i j, l !! n = Some i -> l !! S n = Some j -> oi_elapsed_at j - oi_elapsed_at i < NANOS) ->
  counted last l = 0.
Proof.
  intros Hnow. revert last. induction Hnow as [|i l Hi _ IH]; intros last Hh Hg; [done|]. cbn.
  rewrite IH.
  - rewrite Z.div_small; [done|]. specialize (Hh i eq_refl). unfold instant_sub, NANOS in *. lia.
  - intros j Hj. rewrite Hi. apply (Hg 0%nat); [done|]. by destruct l.
  - intros n j k Hj Hk. by apply (Hg (S n)).
Qed.
End operator.

(** Three ticks, ten seconds apart: the threshold is reached at the second one,
    whose transaction fails, and paid at the third. *)
Definition operator_demo_payment : PaymentSettings := {|
  max_fee := 200000000; balance_warning_level := 0; payment_threshold := 1500; enable_enforcement := true;
  settings_eth_private_key := Some 1; settings_eth_address := Some 1; althea_l1_accepted_denoms := [];
  althea_l1_payment_denom := default_althea_l1_payment_denom; system_chain := Xdai; debts_file := "";
  apply_incoming_credit_immediately := false; debt_limit_enabled := true; simulated_transaction_fee_address := 0;
  simulated_transaction_fee := 10; forgive_on_reboot := true |}.
Definition operator_demo : OperatorSettings := {| operator_address := Some 77; operator_fee := 100 |}.
Definition operator_tick_at (t : Z) (sent : option Z) : operator_inputs := {|
  oi_elapsed_at := secs t; oi_now := secs t + 5; oi_balance := Some 5000; oi_sent := sent; oi_hour := None |}.
Definition operator_demo_ticks : list operator_inputs :=
  [operator_tick_at 10 None; operator_tick_at 20 None; operator_tick_at 30 (Some 9)].
Definition operator_demo_world : OperatorWorld := {|
  ow_fee := OperatorFeeManager_new 0; ow_usage := blank_usage_tracker; ow_owed := ∅ |}.
Definition operator_node : Identity := {| mesh_ip := V6 5; eth_address := 1; wg_public_key := 5; nickname := None |}.

Lemma operator_fee_adds_up_witness :
  exists w' ps, operator_ticks (N := Num256_panicking) 0 operator_demo_payment operator_demo operator_node operator_demo_ticks operator_demo_world
      = Some (w', ps)
    /\ operator_debt (ow_fee w') + paid_to ps = 2800
    /\ Forall (fun q => tx_to q = operator_identity 77 /\ get_pay_thresh operator_demo_payment < tx_amount q
                        /\ exists i, i ∈ operator_demo_ticks /\ tx_amount q <= default 0 (oi_balance i)) ps.
Proof.
  refine (operator_fee_adds_up (N := Num256_panicking) 0 operator_demo_payment operator_demo operator_node 77
            operator_demo_ticks operator_demo_world _ eq_refl _ _ _ _ _);
    [discriminate|vm_compute; discriminate..|].
  split; [reflexivity|]. split; vm_compute; discriminate.
Defined.
