(* ===== verification/RegistrationDb.v ===== *)
(** Reading and writing the registration contract
    (rita_client_registration/src/client_db.rs): the requests for AltheaDB.sol
    and the parsers of its answers.  The clarity and web30 crates are classes
    with the laws the code relies on.  A word is a list of bytes, a [usize] has
    64 bits, and a slice or an index out of range is a panic. *)
From S2P Require Import Prelude Types Text PeerMessage Forwarding Regions ExitManager.

(** The errors: [BadInput] and [BadResponse] of the parsers, the error of reading a number, and
    those web30 returns of its own. *)
Inductive Web3Error := BadInput | ParseIntError | BadResponse | Web3Failure (e : string).

(** The clarity crate: tokens, the encoding of calls, and bytes; the operations
    of num256 on bytes.  A [None] of [u256_from_be_bytes] is a panic. *)
Class Clarity := {
  AbiToken : Type;
  token_uint : Z -> AbiToken;
  token_address : Z -> AbiToken;
  token_struct : list AbiToken -> AbiToken;
  token_dynamic : list AbiToken -> AbiToken;
  token_of_vec : list AbiToken -> AbiToken;
  encode_call : string -> list AbiToken -> Web3Error + byte_list;
  bytes_to_hex_str : byte_list -> text;
  address_from_slice : byte_list -> option Z;
  u256_from_be_bytes : byte_list -> option Z;
  u256_to_be_bytes : Z -> byte_list;
}.

Definition hex_digit (n : Z) : ascii :=
  Ascii.ascii_of_nat (Z.to_nat (if n <? 10 then 48 + n else 87 + n)).
Definition hex_of (l : byte_list) : text := l ≫= fun b => [hex_digit (b / 16); hex_digit (b mod 16)].

Class ClarityLaws (C : Clarity) : Prop := {
  bytes_to_hex_str_spec l : bytes_to_hex_str l = hex_of l;
  address_from_slice_spec l :
    address_from_slice l = if (length l =? 20)%nat then Some (be_value l) else None;
  u256_from_be_bytes_spec l : (length l <= 32)%nat -> u256_from_be_bytes l = Some (be_value l);
  u256_to_be_bytes_spec x : is_u256 x = true -> u256_to_be_bytes x = octets 32 x;
}.

(** The web30 crate, as the code sees it during one call: the answer to a
    simulated transaction, and what preparing, sending and waiting for a
    transaction return. *)
Record Web3 := {
  simulate_transaction : byte_list -> Web3Error + byte_list;
  prepare_transaction : byte_list -> option Web3Error;
  send_prepared_transaction : byte_list -> Web3Error + Z;
  wait_for_transaction : Z -> option Web3Error;
}.

Module RegistrationDb.

Definition WORD_SIZE : nat := 32.

(** [m] with its error turned into a value, as a [match] that continues. *)
Definition attempt {S E A} (m : M S E A) : M S E (option A) := fun s =>
  match m s with Done s' a => Done s' (Some a) | Fail s' _ => Done s' None | Panic => Panic end.
(** [r?]. *)
Definition try_sum {S E A} (r : E + A) : M S E A := match r with inr a => ret a | inl e => throw e end.
Definition try_opt {S E} (r : option E) : M S E unit := match r with None => ret tt | Some e => throw e end.

(** [l.chunks(n)]. *)
Fixpoint chunks_fuel (fuel n : nat) (l : byte_list) : list byte_list :=
  match fuel, l with
  | _, [] => []
  | O, _ => []
  | S fuel, _ => take n l :: chunks_fuel fuel n (drop n l)
  end.
Definition to_evm_words (input : byte_list) : list byte_list := chunks_fuel (length input) WORD_SIZE input.

(** [l.get(i)], [l.get(i..)] and [l.iter().take(n).skip(m)] with a [usize]. *)
Definition get_at {A} (i : Z) (l : list A) : option A :=
  if i <? Z.of_nat (length l) then l !! Z.to_nat i else None.
Definition get_from {A} (i : Z) (l : list A) : option (list A) :=
  if i <=? Z.of_nat (length l) then Some (drop (Z.to_nat i) l) else None.
Definition take_skip {A} (n m : Z) (l : list A) : list A :=
  let clip i := Z.to_nat (Z.min i (Z.of_nat (length l))) in drop (clip m) (take (clip n) l).

Section parsers.
Context `{C : Clarity} `{N : Num256} `{P : Profile} {St : Type}.
Abbreviation R A := (M St Web3Error A).

(** [u16::from_be_bytes] or [usize::from_be_bytes] of [a[from..32]]: the slice
    panics when the word is short, and has the length of the array otherwise. *)
Definition be_tail (from : Z) (a : byte_list) : R Z :=
  let! b := unwrap (slice from 32 a) in ret (be_value b).

Definition parse_identity_abi (byte_chunks : list byte_list) : R Identity :=
  if negb (length byte_chunks =? 3)%nat then throw BadInput
  else
    let! a := ok_or (byte_chunks !! 0%nat) BadInput in
    let! mesh_ip := be_tail 16 a in
    if mesh_ip =? 0 then throw BadInput
    else
      let! a := ok_or (byte_chunks !! 1%nat) BadInput in
      let! wg_public_key := unwrap (u256_from_be_bytes a) in
      let! a := ok_or (byte_chunks !! 2%nat) BadInput in
      let! a := unwrap (slice 12 (len_of a) a) in
      let! eth_address := ok_or (address_from_slice a) BadInput in
      ret {| mesh_ip := V6 mesh_ip; eth_address := eth_address;
             wg_public_key := wg_public_key; nickname := None |}.

(** The loop of [parse_identity_array_abi]: [rest] is [byte_chunks[index..]]. *)
Fixpoint identity_entries (arr_len : Z) (rest : list byte_list) : R (list Identity) :=
  if arr_len <=? 0 then ret []
  else
    match rest with
    | a :: b :: c :: rest =>
        let! entry := attempt (parse_identity_abi [a; b; c]) in
        let! more := identity_entries (arr_len - 1) rest in
        ret (match entry with Some id => id :: more | None => more end)
    | _ => throw BadInput
    end.

Definition parse_identity_array_abi (bytes : byte_list) : R (list Identity) :=
  let byte_chunks := to_evm_words bytes in
  if (length byte_chunks =? 2)%nat then ret []
  else if (length byte_chunks <? 5)%nat then throw BadInput
  else
    let! a := ok_or (byte_chunks !! 1%nat) BadInput in
    let! arr_len := ok_or (parse_uint 16 U64_MAX (bytes_to_hex_str a)) ParseIntError in
    identity_entries arr_len (drop 2 byte_chunks).

(** A position in bytes read as one in words: [Uint256::from_be_bytes(w) / 32],
    of which the last eight bytes are kept. *)
Definition word_position (w : byte_list) : R Z :=
  let! v := unwrap (u256_from_be_bytes w) in
  let! q := unwrap (u_div v (Z.of_nat WORD_SIZE)) in
  be_tail 24 (u256_to_be_bytes q).

(** The port in a word: its last two bytes. *)
Definition port_of (w : byte_list) : R Z :=
  let! v := unwrap (u256_from_be_bytes w) in be_tail 30 (u256_to_be_bytes v).

(** [HashSet::insert] on the elements of a set in the order they came in. *)
Definition set_insert {A} `{EqDecision A} (x : A) (s : list A) : list A := if decide (x ∈ s) then s else s ++ [x].

(** The loops over the elements of an array: the code is the last byte. *)
Fixpoint codes_into {A} `{EqDecision A} (of_u8 : Z -> A) (words : list byte_list) (s : list A) : R (list A) :=
  match words with
  | [] => ret s
  | w :: words =>
      let! code := unwrap (w !! (WORD_SIZE - 1)%nat) in
      codes_into of_u8 words (set_insert (of_u8 code) s)
  end.

Definition array_len (start : Z) (byte_chunks : list byte_list) : R Z :=
  let! a := ok_or (get_at start byte_chunks) BadInput in be_tail 24 a.

(** [byte_chunks.iter().take(len + start + 1).skip(start + 1)]. *)
Definition array_words (len start : Z) (byte_chunks : list byte_list) : R (list byte_list) :=
  let! n := unwrap (usize_of (len + start)) in
  let! n := unwrap (usize_of (n + 1)) in
  let! m := unwrap (usize_of (start + 1)) in
  ret (take_skip n m byte_chunks).

Definition parse_exit_identity_abi (byte_chunks : list byte_list) : R ExitIdentity :=
  if (length byte_chunks <? 9)%nat then throw BadInput
  else
    let! exit_id := parse_identity_abi (take 3 byte_chunks) in
    let! w := unwrap (byte_chunks !! 3%nat) in
    let! registration_port := port_of w in
    let! w := unwrap (byte_chunks !! 4%nat) in
    let! wg_exit_listen_port := port_of w in
    let! w := unwrap (byte_chunks !! 5%nat) in
    let! regions_start := word_position w in
    let! w := unwrap (byte_chunks !! 6%nat) in
    let! payment_start := word_position w in
    let! regions_arr_len := array_len regions_start byte_chunks in
    let! payment_arr_len := array_len payment_start byte_chunks in
    let! n := unwrap (usize_of (9 + regions_arr_len)) in
    let! n := unwrap (usize_of (n + payment_arr_len)) in
    if Z.of_nat (length byte_chunks) <? n then
      (* the message adds up 7 and the two lengths *)
      let! n := unwrap (usize_of (7 + regions_arr_len)) in
      let! _ := unwrap (usize_of (n + payment_arr_len)) in
      throw BadInput
    else
      let! words := array_words regions_arr_len regions_start byte_chunks in
      let! reg_arr := codes_into region_of_u8 words [] in
      let! words := array_words payment_arr_len payment_start byte_chunks in
      let! payment_arr := codes_into chain_of_u8 words [] in
      ret {| ei_mesh_ip := mesh_ip exit_id; ei_wg_key := wg_public_key exit_id;
             ei_eth_addr := eth_address exit_id; ei_registration_port := registration_port;
             ei_wg_exit_listen_port := wg_exit_listen_port;
             allowed_regions := reg_arr; payment_types := payment_arr |}.

(** The loop of [parse_exit_identity_array_abi] from [i] to [last]: [rest] is
    [byte_chunks[i..]]. *)
Fixpoint exit_entries (byte_chunks : list byte_list) (last i : Z) (rest : list byte_list) : R (list ExitIdentity) :=
  if last <=? i then ret []
  else
    match rest with
    | [] => throw BadInput
    | w :: rest =>
        let! next_index_pos := word_position w in
        let! from := unwrap (usize_of (2 + next_index_pos)) in
        let! entry := match get_from from byte_chunks with
                      | Some a => attempt (parse_exit_identity_abi a)
                      | None => ret None
                      end in
        let! more := exit_entries byte_chunks last (i + 1) rest in
        ret (match entry with Some e => e :: more | None => more end)
    end.

Definition parse_exit_identity_array_abi (bytes : byte_list) : R (list ExitIdentity) :=
  let byte_chunks := to_evm_words bytes in
  if (length byte_chunks =? 2)%nat then ret []
  else if (length byte_chunks <? 11)%nat then throw BadInput
  else
    let! w := unwrap (byte_chunks !! 1%nat) in
    let! num_entries := be_tail 24 w in
    let! last := unwrap (usize_of (2 + num_entries)) in
    exit_entries byte_chunks last 2 (drop 2 byte_chunks).
End parsers.

(** * Requests

    The state of these calls is the list of transactions sent, newest first. *)
Section requests.
Context `{C : Clarity} `{N : Num256} `{P : Profile}.
Abbreviation T A := (M (list byte_list) Web3Error A).

Definition get_all_regsitered_clients (web30 : Web3) : T (list Identity) :=
  let! payload := try_sum (encode_call "getAllRegisteredUsers()" []) in
  let! res := try_sum (simulate_transaction web30 payload) in
  parse_identity_array_abi res.

Definition get_registered_client_using_wgkey (web30 : Web3) (key : Z) : T Identity :=
  let! payload := try_sum (encode_call "getRegisteredClientWithWgKey(uint256)" [token_uint key]) in
  let! res := try_sum (simulate_transaction web30 payload) in
  parse_identity_abi (to_evm_words res).

Definition get_exits_list (web30 : Web3) : T (list ExitIdentity) :=
  let! payload := try_sum (encode_call "getAllRegisteredExits()" []) in
  let! res := try_sum (simulate_transaction web30 payload) in
  parse_exit_identity_array_abi res.

(** Preparing and sending a call, and waiting for it when a timeout is given. *)
Definition send_call (web30 : Web3) (signature : string) (tokens : list AbiToken) (wait : bool) : T Z :=
  let! payload := try_sum (encode_call signature tokens) in
  let! _ := try_opt (prepare_transaction web30 payload) in
  let! tx_hash := try_sum (send_prepared_transaction web30 payload) in
  let! _ := modify (cons payload) in
  let! _ := (if wait then try_opt (wait_for_transaction web30 tx_hash) else ret tt) in
  ret tx_hash.

Fixpoint encode_clients (users : list Identity) : Web3Error + list AbiToken :=
  match users with
  | [] => inr []
  | user :: users =>
      match mesh_ip user with
      | V6 mesh_ip_v6 =>
          match encode_clients users with
          | inr l => inr (token_struct [token_uint mesh_ip_v6; token_uint (wg_public_key user);
                                        token_address (eth_address user)] :: l)
          | inl e => inl e
          end
      | V4 _ => inl BadInput
      end
  end.

Definition add_users_to_registered_list (web30 : Web3) (users : list Identity) (wait : bool) : T Z :=
  let! encoded_clients := try_sum (encode_clients users) in
  send_call web30 "addRegisteredUsersBulk((uint128,uint256,address)[])" [token_dynamic encoded_clients] wait.

Definition allowed_regions_abi_array (allowed_regions : list Regions) : list AbiToken :=
  (fun reg => token_uint (u8_of_region reg)) <$> allowed_regions.
Definition payment_types_abi_array (payment_types : list SystemChain) : list AbiToken :=
  (fun payment_type => token_uint (chain_to_u8 payment_type)) <$> payment_types.

Fixpoint encode_exits (exits : list ExitIdentity) : Web3Error + list AbiToken :=
  match exits with
  | [] => inr []
  | exit :: exits =>
      match ei_mesh_ip exit with
      | V6 mesh_ip_v6 =>
          match encode_exits exits with
          | inr l => inr (token_struct [token_uint mesh_ip_v6; token_uint (ei_wg_key exit);
                            token_address (ei_eth_addr exit); token_uint (ei_registration_port exit);
                            token_uint (ei_wg_exit_listen_port exit);
                            token_of_vec (allowed_regions_abi_array (allowed_regions exit));
                            token_of_vec (payment_types_abi_array (payment_types exit))] :: l)
          | inl e => inl e
          end
      | V4 _ => inl BadInput
      end
  end.

Definition add_exits_to_registration_list (web30 : Web3) (exits : list ExitIdentity) (wait : bool) : T Z :=
  let! encoded_exits := try_sum (encode_exits exits) in
  send_call web30 "addRegisteredExitsBulk((uint128,uint256,address,uint16,uint16,uint256[],uint256[])[])"
    [token_dynamic encoded_exits] wait.

(** The answer of [isUserAdmin] and [isExitAdmin]: its first word is one. *)
Definition first_word_is_one (res : byte_list) : T bool :=
  let! w := unwrap (to_evm_words res !! 0%nat) in
  let! v := unwrap (u256_from_be_bytes w) in ret (v =? 1).

Definition check_user_admin (web30 : Web3) (user_admin : Z) : T bool :=
  let! payload := try_sum (encode_call "isUserAdmin(address)" [token_address user_admin]) in
  let! res := try_sum (simulate_transaction web30 payload) in
  if bool_decide (res = []) then ret false else first_word_is_one res.

Definition check_and_add_user_admin (web30 : Web3) (user_admin : Z) (wait : bool) : T unit :=
  let! is_admin := check_user_admin web30 user_admin in
  if is_admin then ret tt
  else let! _ := send_call web30 "addUserAdmin(address)" [token_address user_admin] wait in ret tt.

Definition check_exit_admin (web30 : Web3) (exit_admin : Z) : T bool :=
  let! payload := try_sum (encode_call "isExitAdmin(address)" [token_address exit_admin]) in
  let! res := try_sum (simulate_transaction web30 payload) in
  first_word_is_one res.

Definition add_exit_admin (web30 : Web3) (exit_admin : Z) (wait : bool) : T unit :=
  let! is_admin := check_exit_admin web30 exit_admin in
  if is_admin then ret tt
  else let! _ := send_call web30 "addExitAdmin(address)" [token_address exit_admin] wait in ret tt.
End requests.

End RegistrationDb.
Export RegistrationDb.
