(* ===== verification/AltheaDB.v ===== *)
(** The registration contract (solidity/contracts/AltheaDB.sol): the users and
    exits that are registered, the marks against duplicates and the admins, with
    every function that changes them.  A call that reverts leaves the state as it
    was.  The constructor's admin is a field that no call changes. *)
From S2P Require Import Prelude Types PeerMessage Forwarding.
Module AltheaDB.

(** [struct Identity] and [struct ExitIdentity] of the contract. *)
Record SolIdentity := { sol_mesh_ip : Z; sol_wg_key : Z; sol_eth_addr : Z }.
Record SolExitIdentity := {
  sol_exit : SolIdentity;
  sol_registration_port : Z;
  sol_wg_exit_listen_port : Z;
  sol_allowed_regions : list Z;
  sol_payment_types : list Z;
}.
#[export] Instance SolIdentity_eq_dec : EqDecision SolIdentity.
Proof. solve_decision. Defined.

Inductive db_error := UnathorizedCaller | DuplicateUser | DuplicateAdmin | IdentityNotFound | AdminNotFound.

(** A mapping to booleans is the set of keys that are mapped to [true]. *)
Record AltheaDB := {
  state_admin : Z;
  state_UserAdmins : list Z;
  state_ExitAdmins : list Z;
  state_registeredUsers : list SolIdentity;
  state_registeredExits : list SolExitIdentity;
  state_registeredIps : gset Z;
  state_registeredKey : gset Z;
  state_registeredAddr : gset Z;
}.

(** The constructor. *)
Definition deploy (admin : Z) : AltheaDB := {|
  state_admin := admin; state_UserAdmins := []; state_ExitAdmins := [];
  state_registeredUsers := []; state_registeredExits := [];
  state_registeredIps := ∅; state_registeredKey := ∅; state_registeredAddr := ∅ |}.

Abbreviation call := (M AltheaDB db_error unit).

(** Field updates. *)
Definition set_users (l : list SolIdentity) (d : AltheaDB) : AltheaDB := {|
  state_admin := state_admin d; state_UserAdmins := state_UserAdmins d; state_ExitAdmins := state_ExitAdmins d;
  state_registeredUsers := l; state_registeredExits := state_registeredExits d;
  state_registeredIps := state_registeredIps d; state_registeredKey := state_registeredKey d;
  state_registeredAddr := state_registeredAddr d |}.
Definition set_exits (l : list SolExitIdentity) (d : AltheaDB) : AltheaDB := {|
  state_admin := state_admin d; state_UserAdmins := state_UserAdmins d; state_ExitAdmins := state_ExitAdmins d;
  state_registeredUsers := state_registeredUsers d; state_registeredExits := l;
  state_registeredIps := state_registeredIps d; state_registeredKey := state_registeredKey d;
  state_registeredAddr := state_registeredAddr d |}.
Definition set_admins (users exits : list Z) (d : AltheaDB) : AltheaDB := {|
  state_admin := state_admin d; state_UserAdmins := users; state_ExitAdmins := exits;
  state_registeredUsers := state_registeredUsers d; state_registeredExits := state_registeredExits d;
  state_registeredIps := state_registeredIps d; state_registeredKey := state_registeredKey d;
  state_registeredAddr := state_registeredAddr d |}.
(** The three marks of an identity, set to [true] and to [false]. *)
Definition mark (e : SolIdentity) (d : AltheaDB) : AltheaDB := {|
  state_admin := state_admin d; state_UserAdmins := state_UserAdmins d; state_ExitAdmins := state_ExitAdmins d;
  state_registeredUsers := state_registeredUsers d; state_registeredExits := state_registeredExits d;
  state_registeredIps := {[sol_mesh_ip e]} ∪ state_registeredIps d;
  state_registeredKey := {[sol_wg_key e]} ∪ state_registeredKey d;
  state_registeredAddr := {[sol_eth_addr e]} ∪ state_registeredAddr d |}.
Definition unmark (e : SolIdentity) (d : AltheaDB) : AltheaDB := {|
  state_admin := state_admin d; state_UserAdmins := state_UserAdmins d; state_ExitAdmins := state_ExitAdmins d;
  state_registeredUsers := state_registeredUsers d; state_registeredExits := state_registeredExits d;
  state_registeredIps := state_registeredIps d ∖ {[sol_mesh_ip e]};
  state_registeredKey := state_registeredKey d ∖ {[sol_wg_key e]};
  state_registeredAddr := state_registeredAddr d ∖ {[sol_eth_addr e]} |}.

(** * Utilities *)

Definition exitIdToId (e : SolExitIdentity) : SolIdentity := sol_exit e.
Definition getNullIdentity : SolIdentity := {| sol_mesh_ip := 0; sol_wg_key := 0; sol_eth_addr := 0 |}.
Definition identitiesAreEqual (a b : SolIdentity) : bool :=
  if negb (sol_mesh_ip a =? sol_mesh_ip b) then false
  else if negb (sol_wg_key a =? sol_wg_key b) then false
  else if negb (sol_eth_addr a =? sol_eth_addr b) then false
  else true.
Definition isUserAdmin (a : Z) (d : AltheaDB) : bool := existsb (Z.eqb a) (state_UserAdmins d).
Definition isExitAdmin (a : Z) (d : AltheaDB) : bool := existsb (Z.eqb a) (state_ExitAdmins d).

(** [deleteArrayEntry]: the last element takes the place of the deleted one;
    [None] is the failed [require]. *)
Definition deleteArrayEntry {A} (index : nat) (array : list A) : option (list A) :=
  if (index <? length array)%nat then
    let array := if negb (index =? length array - 1)%nat
                 then match array !! (length array - 1)%nat with
                      | Some e => <[index := e]> array
                      | None => array
                      end
                 else array in
    Some (take (length array - 1) array)
  else None.

(** [getIndexOfId] and [getIndexOfAdmin]. *)
Fixpoint index_of {A} (same : A -> bool) (array : list A) : option nat :=
  match array with
  | [] => None
  | a :: array => if same a then Some O else S <$> index_of same array
  end.

Definition checkForAnyDuplicates (e : SolIdentity) (d : AltheaDB) : bool :=
  bool_decide (sol_mesh_ip e ∈ state_registeredIps d)
  || bool_decide (sol_wg_key e ∈ state_registeredKey d)
  || bool_decide (sol_eth_addr e ∈ state_registeredAddr d).

(** * Users and exits *)

Definition addRegisteredUser (sender : Z) (entry : SolIdentity) : call :=
  let! d := get_st in
  if isUserAdmin sender d then
    if checkForAnyDuplicates entry d then throw DuplicateUser
    else modify (mark entry) ;! modify (fun d => set_users (state_registeredUsers d ++ [entry]) d)
  else throw UnathorizedCaller.

Definition removeRegisteredUser (sender : Z) (entry : SolIdentity) : call :=
  let! d := get_st in
  if isUserAdmin sender d then
    let! index := ok_or (index_of (fun a => identitiesAreEqual a entry) (state_registeredUsers d)) IdentityNotFound in
    let! l := unwrap (deleteArrayEntry index (state_registeredUsers d)) in
    modify (set_users l) ;! modify (unmark entry)
  else throw UnathorizedCaller.

Definition addRegisteredExit (sender : Z) (entry : SolExitIdentity) : call :=
  let! d := get_st in
  if isExitAdmin sender d then
    if checkForAnyDuplicates (exitIdToId entry) d then throw DuplicateUser
    else modify (mark (exitIdToId entry)) ;! modify (fun d => set_exits (state_registeredExits d ++ [entry]) d)
  else throw UnathorizedCaller.

Definition removeRegisteredExit (sender : Z) (entry : SolExitIdentity) : call :=
  let! d := get_st in
  if isExitAdmin sender d then
    let! index := ok_or (index_of (fun a => identitiesAreEqual (exitIdToId a) (exitIdToId entry))
                           (state_registeredExits d)) IdentityNotFound in
    let! l := unwrap (deleteArrayEntry index (state_registeredExits d)) in
    modify (set_exits l) ;! modify (unmark (exitIdToId entry))
  else throw UnathorizedCaller.

(** The four functions in bulk. *)
Fixpoint bulk {A} (f : A -> call) (l : list A) : call :=
  match l with [] => ret tt | a :: l => f a ;! bulk f l end.
Definition addRegisteredUsersBulk (sender : Z) : list SolIdentity -> call := bulk (addRegisteredUser sender).
Definition removeRegisteredUsersBulk (sender : Z) : list SolIdentity -> call := bulk (removeRegisteredUser sender).
Definition addRegisteredExitsBulk (sender : Z) : list SolExitIdentity -> call := bulk (addRegisteredExit sender).
Definition removeRegisteredExitsBulk (sender : Z) : list SolExitIdentity -> call := bulk (removeRegisteredExit sender).

(** * Admins *)

Definition addUserAdmin (sender entry : Z) : call :=
  let! d := get_st in
  if state_admin d =? sender then
    if isUserAdmin entry d then throw DuplicateAdmin
    else modify (set_admins (state_UserAdmins d ++ [entry]) (state_ExitAdmins d))
  else throw UnathorizedCaller.
Definition removeUserAdmin (sender entry : Z) : call :=
  let! d := get_st in
  if state_admin d =? sender then
    let! index := ok_or (index_of (Z.eqb entry) (state_UserAdmins d)) AdminNotFound in
    let! l := unwrap (deleteArrayEntry index (state_UserAdmins d)) in
    modify (set_admins l (state_ExitAdmins d))
  else throw UnathorizedCaller.
Definition addExitAdmin (sender entry : Z) : call :=
  let! d := get_st in
  if state_admin d =? sender then
    if isExitAdmin entry d then throw DuplicateAdmin
    else modify (set_admins (state_UserAdmins d) (state_ExitAdmins d ++ [entry]))
  else throw UnathorizedCaller.
Definition removeExitAdmin (sender entry : Z) : call :=
  let! d := get_st in
  if state_admin d =? sender then
    let! index := ok_or (index_of (Z.eqb entry) (state_ExitAdmins d)) AdminNotFound in
    let! l := unwrap (deleteArrayEntry index (state_ExitAdmins d)) in
    modify (set_admins (state_UserAdmins d) l)
  else throw UnathorizedCaller.

(** * Queries *)

Definition getAllRegisteredUsers (d : AltheaDB) : list SolIdentity := state_registeredUsers d.
Definition getAllRegisteredExits (d : AltheaDB) : list SolExitIdentity := state_registeredExits d.
Definition getRegisteredClientWithWgKey (wg_key : Z) (d : AltheaDB) : SolIdentity :=
  match List.find (fun u => sol_wg_key u =? wg_key) (state_registeredUsers d) with
  | Some u => u
  | None => getNullIdentity
  end.

(** * Transactions *)

Inductive Tx :=
| AddUsers (l : list SolIdentity) | RemoveUsers (l : list SolIdentity)
| AddExits (l : list SolExitIdentity) | RemoveExits (l : list SolExitIdentity)
| AddUserAdmin (a : Z) | RemoveUserAdmin (a : Z) | AddExitAdmin (a : Z) | RemoveExitAdmin (a : Z).
Definition run_tx (sender : Z) (t : Tx) : call :=
  match t with
  | AddUsers l => addRegisteredUsersBulk sender l
  | RemoveUsers l => removeRegisteredUsersBulk sender l
  | AddExits l => addRegisteredExitsBulk sender l
  | RemoveExits l => removeRegisteredExitsBulk sender l
  | AddUserAdmin a => addUserAdmin sender a
  | RemoveUserAdmin a => removeUserAdmin sender a
  | AddExitAdmin a => addExitAdmin sender a
  | RemoveExitAdmin a => removeExitAdmin sender a
  end.
(** A transaction in a block: all of it, or nothing when it reverts. *)
Definition reverts (sender : Z) (t : Tx) (d : AltheaDB) : bool :=
  match run_tx sender t d with Done _ _ => false | _ => true end.
Definition execute (sender : Z) (t : Tx) (d : AltheaDB) : AltheaDB :=
  match run_tx sender t d with Done d' _ => d' | _ => d end.

End AltheaDB.
Export AltheaDB.

(** * The books of the contract

    The books of the registration contract (AltheaDB.v): whatever is sent to it,
    no two registered users or exits share an address or a key, the marks are
    exactly those of the registered ones, and only admins change anything. *)

(** * Deleting from an array *)

Lemma index_of_spec {A} (same : A -> bool) l i :
  index_of same l = Some i -> exists a, l !! i = Some a /\ same a = true.
Proof.
  revert i. induction l as [|a l IH]; intros i; cbn; [done|]. destruct (same a) eqn:E.
  - intros [= <-]. eauto.
  - destruct (index_of same l) as [j|]; intros [= <-]. by apply IH.
Qed.

(** The elements that stay, in some order. *)
Lemma deleteArrayEntry_perm {A} i (l : list A) a :
  l !! i = Some a -> exists l', deleteArrayEntry i l = Some l' /\ l ≡ₚ a :: l'.
Proof.
  intros Hi. pose proof (lookup_lt_Some _ _ _ Hi) as Hlt. unfold deleteArrayEntry.
  rewrite (proj2 (Nat.ltb_lt _ _)) by done. eexists; split; [done|].
  destruct l as [|z l _] using rev_ind; [done|].
  rewrite length_app in *. cbn [length] in *.
  replace (length l + 1 - 1)%nat with (length l) by lia.
  rewrite lookup_app_r, Nat.sub_diag by done. cbn [lookup list_lookup].
  destruct (Nat.eqb_spec i (length l)) as [->|Hne]; cbn [negb].
  - rewrite lookup_app_r, Nat.sub_diag in Hi by done. injection Hi as ->.
    rewrite length_app. cbn [length]. replace (length l + 1 - 1)%nat with (length l) by lia.
    rewrite take_app_length. by rewrite Permutation_app_comm.
  - rewrite length_insert, length_app. cbn [length]. replace (length l + 1 - 1)%nat with (length l) by lia.
    rewrite lookup_app_l in Hi by lia. rewrite insert_app_l by lia. rewrite take_app_length' by (by rewrite length_insert).
    rewrite <- (take_drop_middle l i a Hi) at 1. rewrite insert_take_drop by lia.
    rewrite <- Permutation_cons_append, <- !Permutation_middle. apply perm_swap.
Qed.

(** Deleting what [index_of] found. *)
Lemma delete_found {A} (same : A -> bool) l i :
  index_of same l = Some i ->
  exists a l', deleteArrayEntry i l = Some l' /\ l ≡ₚ a :: l' /\ same a = true.
Proof.
  intros (a & Ha & Hs)%index_of_spec. destruct (deleteArrayEntry_perm _ _ _ Ha) as (l' & ? & ?). eauto.
Qed.

Lemma identitiesAreEqual_spec a b : identitiesAreEqual a b = true -> a = b.
Proof.
  unfold identitiesAreEqual. destruct a, b; cbn.
  repeat (match goal with |- context [?a =? ?b] => destruct (Z.eqb_spec a b) end; cbn [negb]; subst; try done).
Qed.

(** * The invariant *)

(** The marks [s] on a field [f] are those of the registered, each once. *)
Definition field_ok (f : SolIdentity -> Z) (s : gset Z) (l : list SolIdentity) : Prop :=
  NoDup (f <$> l) /\ forall x, x ∈ s <-> x ∈ f <$> l.

#[export] Instance field_ok_proper f s : Proper ((≡ₚ) ==> iff) (field_ok f s).
Proof.
  intros l l' Hl. unfold field_ok. assert (Hf : f <$> l ≡ₚ f <$> l') by by apply fmap_Permutation.
  split; (intros [Hn Hs]; split; [by rewrite Hf in * || by rewrite <- Hf in *|]);
    intros x; rewrite Hs; by rewrite Hf.
Qed.

Lemma field_ok_add f s l e : f e ∉ s -> field_ok f s l -> field_ok f ({[f e]} ∪ s) (e :: l).
Proof.
  intros He [Hn Hs]. split.
  - rewrite fmap_cons. apply NoDup_cons. by rewrite <- Hs.
  - intros x. rewrite fmap_cons, elem_of_cons, elem_of_union, elem_of_singleton. by rewrite Hs.
Qed.

Lemma field_ok_remove f s l e : field_ok f s (e :: l) -> field_ok f (s ∖ {[f e]}) l.
Proof.
  intros [Hn Hs]. rewrite fmap_cons in Hn, Hs. apply NoDup_cons in Hn as [He Hn]. split; [done|].
  intros x. rewrite elem_of_difference, elem_of_singleton, Hs, elem_of_cons. split; [naive_solver|].
  intros Hx. split; [by right|]. by intros ->.
Qed.

Definition registered (d : AltheaDB) : list SolIdentity :=
  state_registeredUsers d ++ (exitIdToId <$> state_registeredExits d).

Record db_wf (d : AltheaDB) : Prop := {
  wf_ips : field_ok sol_mesh_ip (state_registeredIps d) (registered d);
  wf_keys : field_ok sol_wg_key (state_registeredKey d) (registered d);
  wf_addrs : field_ok sol_eth_addr (state_registeredAddr d) (registered d);
  wf_user_admins : NoDup (state_UserAdmins d);
  wf_exit_admins : NoDup (state_ExitAdmins d);
}.


Lemma db_wf_deploy admin : db_wf (deploy admin).
Proof. repeat constructor; cbn; set_solver. Qed.

Lemma duplicates_none e d : checkForAnyDuplicates e d = false ->
  (sol_mesh_ip e ∉ state_registeredIps d) /\ (sol_wg_key e ∉ state_registeredKey d)
  /\ (sol_eth_addr e ∉ state_registeredAddr d).
Proof.
  unfold checkForAnyDuplicates. rewrite !orb_false_iff, !bool_decide_eq_false. tauto.
Qed.

(** Registering an identity, and removing one, in whichever list. *)
Lemma db_wf_add e d d' :
  db_wf d -> checkForAnyDuplicates e d = false -> registered d' ≡ₚ e :: registered d ->
  state_registeredIps d' = state_registeredIps (mark e d) ->
  state_registeredKey d' = state_registeredKey (mark e d) ->
  state_registeredAddr d' = state_registeredAddr (mark e d) ->
  state_UserAdmins d' = state_UserAdmins d -> state_ExitAdmins d' = state_ExitAdmins d -> db_wf d'.
Proof.
  intros [] (? & ? & ?)%duplicates_none Hr Hi Hk Ha Hu He.
  constructor; rewrite ?Hr, ?Hi, ?Hk, ?Ha, ?Hu, ?He; try done; by apply field_ok_add.
Qed.

Lemma db_wf_remove e d d' :
  db_wf d -> registered d ≡ₚ e :: registered d' ->
  state_registeredIps d' = state_registeredIps (unmark e d) ->
  state_registeredKey d' = state_registeredKey (unmark e d) ->
  state_registeredAddr d' = state_registeredAddr (unmark e d) ->
  state_UserAdmins d' = state_UserAdmins d -> state_ExitAdmins d' = state_ExitAdmins d -> db_wf d'.
Proof.
  intros [] Hr Hi Hk Ha Hu He.
  constructor; rewrite ?Hi, ?Hk, ?Ha, ?Hu, ?He; try done; apply field_ok_remove; by rewrite <- Hr.
Qed.

(** * Every call keeps the invariant *)

(** A call that keeps [db_wf] when it returns. *)
Definition keeps (m : M AltheaDB db_error unit) : Prop := forall d d' u, db_wf d -> m d = Done d' u -> db_wf d'.

Lemma bulk_keeps {A} (f : A -> M AltheaDB db_error unit) l : (forall a, keeps (f a)) -> keeps (bulk f l).
Proof.
  intros Hf. induction l as [|a l IH]; intros d d' u Hd; cbn.
  - by intros [= <- <-].
  - intros (d1 & u1 & H1 & H2)%bind_done. eapply IH; [|done]. by eapply Hf.
Qed.

Lemma addRegisteredUser_keeps s e : keeps (addRegisteredUser s e).
Proof.
  intros d d' u Hd. unfold addRegisteredUser. intros Hr. run_monad.
  eapply (db_wf_add e d); try done. unfold registered. cbn. by rewrite <- Permutation_cons_append.
Qed.
Lemma addRegisteredExit_keeps s e : keeps (addRegisteredExit s e).
Proof.
  intros d d' u Hd. unfold addRegisteredExit. intros Hr. run_monad.
  eapply (db_wf_add (exitIdToId e) d); try done. unfold registered. cbn.
  rewrite fmap_app, app_assoc. cbn. by rewrite <- Permutation_cons_append.
Qed.

Lemma removeRegisteredUser_keeps s e : keeps (removeRegisteredUser s e).
Proof.
  intros d d' u Hd. unfold removeRegisteredUser. intros Hr. run_monad.
  match goal with H : index_of _ _ = Some _ |- _ =>
    apply delete_found in H as (x & l' & Hdel & Hperm & <-%identitiesAreEqual_spec) end.
  simplify_eq. eapply (db_wf_remove x); [exact Hd|..|done|done|done|done|done]. unfold registered. cbn. by rewrite Hperm.
Qed.
Lemma removeRegisteredExit_keeps s e : keeps (removeRegisteredExit s e).
Proof.
  intros d d' u Hd. unfold removeRegisteredExit. intros Hr. run_monad.
  match goal with H : index_of _ _ = Some _ |- _ =>
    apply delete_found in H as (x & l' & Hdel & Hperm & Heq%identitiesAreEqual_spec) end.
  simplify_eq. eapply (db_wf_remove (exitIdToId e)); [exact Hd|..|done|done|done|done|done]. unfold registered. cbn.
  rewrite Hperm, fmap_cons, Heq. by rewrite Permutation_middle.
Qed.

(** The lists of admins. *)
Lemma db_wf_admins d lu le : db_wf d -> NoDup lu -> NoDup le -> db_wf (set_admins lu le d).
Proof. intros [] Hu He. by constructor. Qed.
Lemma existsb_eqb_false a l : existsb (Z.eqb a) l = false -> a ∉ l.
Proof.
  intros H Ha. assert (existsb (Z.eqb a) l = true); [|congruence].
  apply existsb_exists. exists a. split; [by apply list_elem_of_In|apply Z.eqb_refl].
Qed.
Lemma NoDup_snoc_new a (l : list Z) : existsb (Z.eqb a) l = false -> NoDup l -> NoDup (l ++ [a]).
Proof.
  intros Ha%existsb_eqb_false Hl. rewrite <- Permutation_cons_append. by apply NoDup_cons.
Qed.
Lemma NoDup_deleted f i (l l' : list Z) :
  index_of f l = Some i -> deleteArrayEntry i l = Some l' -> NoDup l -> NoDup l'.
Proof.
  intros (a & l1 & H1 & Hp & _)%delete_found H2 Hl. simplify_eq. rewrite Hp in Hl. by apply NoDup_cons in Hl as [].
Qed.
Lemma admin_calls_keep s a :
  keeps (addUserAdmin s a) /\ keeps (removeUserAdmin s a) /\ keeps (addExitAdmin s a) /\ keeps (removeExitAdmin s a).
Proof.
  split_and!; intros d d' u Hd;
    unfold addUserAdmin, removeUserAdmin, addExitAdmin, removeExitAdmin; intros Hr; run_monad;
    pose proof Hd as []; apply db_wf_admins; eauto using NoDup_snoc_new, NoDup_deleted.
Qed.

Lemma run_tx_keeps s t : keeps (run_tx s t).
Proof.
  destruct t; cbn; try (apply bulk_keeps; intros); try apply admin_calls_keep;
    auto using addRegisteredUser_keeps, removeRegisteredUser_keeps, addRegisteredExit_keeps, removeRegisteredExit_keeps.
Qed.
Lemma execute_keeps s t d : db_wf d -> db_wf (execute s t d).
Proof. intros Hd. unfold execute. destruct (run_tx s t d) eqn:E; try done. by eapply run_tx_keeps. Qed.

(** The state after transactions, oldest first, each with its sender. *)
Definition history (d : AltheaDB) (txs : list (Z * Tx)) : AltheaDB :=
  foldl (fun d st => execute (fst st) (snd st) d) d txs.

Lemma history_wf txs d : db_wf d -> db_wf (history d txs).
Proof. revert d. induction txs as [|[s t] txs IH]; intros d Hd; cbn; [done|]. by apply IH, execute_keeps. Qed.

(** C21 Whatever transactions reach the contract, from whatever senders, no two
    registered users or exits share a mesh address, a key or an eth address, the
    three mappings mark exactly the registered ones, and no admin is listed
    twice. *)
Theorem contract_books admin txs : db_wf (history (deploy admin) txs).
Proof. apply history_wf, db_wf_deploy. Qed.

(** * Who may change what *)

(** What a call on users or exits leaves alone. *)
Definition framed (s : Z) (d d' : AltheaDB) : Prop :=
  (state_admin d' = state_admin d /\ state_UserAdmins d' = state_UserAdmins d
   /\ state_ExitAdmins d' = state_ExitAdmins d)
  /\ (state_registeredUsers d' = state_registeredUsers d \/ isUserAdmin s d = true)
  /\ (state_registeredExits d' = state_registeredExits d \/ isExitAdmin s d = true).

#[export] Instance framed_preorder s : PreOrder (framed s).
Proof.
  split; red; unfold framed, isUserAdmin, isExitAdmin.
  - auto.
  - intros d1 d2 d3 ((A1 & A2 & A3) & U1 & E1) ((B1 & B2 & B3) & U2 & E2). rewrite A2 in U2. rewrite A3 in E2.
    split_and!; try congruence; intuition congruence.
Qed.

Lemma bulk_framed {A} s (f : A -> M AltheaDB db_error unit) l :
  (forall a d d' u, f a d = Done d' u -> framed s d d') ->
  forall d d' u, bulk f l d = Done d' u -> framed s d d'.
Proof.
  intros Hf. induction l as [|a l IH]; intros d d' u; cbn.
  - by intros [= <- <-].
  - intros (d1 & u1 & H1 & H2)%bind_done. etrans; [by eapply Hf|by eapply IH].
Qed.

Lemma register_framed s :
  (forall e d d' u, addRegisteredUser s e d = Done d' u -> framed s d d')
  /\ (forall e d d' u, removeRegisteredUser s e d = Done d' u -> framed s d d')
  /\ (forall e d d' u, addRegisteredExit s e d = Done d' u -> framed s d d')
  /\ (forall e d d' u, removeRegisteredExit s e d = Done d' u -> framed s d d').
Proof.
  split_and!; intros e d d' u;
    unfold addRegisteredUser, removeRegisteredUser, addRegisteredExit, removeRegisteredExit; intros Hr;
    run_monad; unfold framed; cbn; by split_and!; auto.
Qed.

(** Only a user admin changes the registered users, only an exit admin the
    registered exits, and only the admin of the contract the two lists of
    admins; nobody changes that admin. *)
Theorem access_control s t d :
  state_admin (execute s t d) = state_admin d
  /\ (state_registeredUsers (execute s t d) = state_registeredUsers d \/ isUserAdmin s d = true)
  /\ (state_registeredExits (execute s t d) = state_registeredExits d \/ isExitAdmin s d = true)
  /\ ((state_UserAdmins (execute s t d) = state_UserAdmins d
       /\ state_ExitAdmins (execute s t d) = state_ExitAdmins d) \/ state_admin d = s).
Proof.
  unfold execute. destruct (run_tx s t d) as [d' u| |] eqn:E; [|by split_and!; auto|by split_and!; auto].
  pose proof (register_framed s) as (F1 & F2 & F3 & F4). destruct t; cbn in E;
    try (apply (bulk_framed s) in E as ((? & ? & ?) & ? & ?); [by split_and!; auto|done]);
    unfold addUserAdmin, removeUserAdmin, addExitAdmin, removeExitAdmin in E; run_monad;
    match goal with H : (_ =? _) = true |- _ => apply Z.eqb_eq in H end; by split_and!; auto.
Qed.
