(* ===== verification/RegistrationAbi.v ===== *)
(** What the parsers of client_db.rs read (RegistrationDb.v): the words the
    contract answers with, the registered users and exits read back from them,
    and when a parser panics. *)
From S2P Require Import Prelude Types Text PeerMessage Forwarding ForwardingSpec Regions ExitManager RegistrationDb.
From S2P Require Import AltheaDB.

(** * The encoding of an answer

    The layout the comments of the parsers show: words of 32 bytes, an array as
    its length and its elements, with positions in bytes where the elements have
    no fixed size. *)
Definition word (x : Z) : byte_list := octets 32 x.
Definition id_words (i : SolIdentity) : list byte_list := [word (sol_mesh_ip i); word (sol_wg_key i); word (sol_eth_addr i)].
Definition abi_id (i : SolIdentity) : byte_list := concat (id_words i).
Definition abi_users (l : list SolIdentity) : byte_list :=
  concat ([word 32; word (Z.of_nat (length l))] ++ (l ≫= id_words)).

Definition array_of (l : list Z) : list byte_list := word (Z.of_nat (length l)) :: (word <$> l).
Definition exit_words (e : SolExitIdentity) : list byte_list :=
  id_words (sol_exit e)
  ++ [word (sol_registration_port e); word (sol_wg_exit_listen_port e);
      word (7 * 32); word ((8 + Z.of_nat (length (sol_allowed_regions e))) * 32)]
  ++ array_of (sol_allowed_regions e) ++ array_of (sol_payment_types e).
(** The positions of the entries, the first at [at_] words. *)
Fixpoint entry_positions (at_ : nat) (l : list SolExitIdentity) : list byte_list :=
  match l with
  | [] => []
  | e :: l => word (Z.of_nat at_ * 32) :: entry_positions (at_ + length (exit_words e)) l
  end.
Definition exits_words (l : list SolExitIdentity) : list byte_list :=
  [word 32; word (Z.of_nat (length l))] ++ entry_positions (length l) l ++ (l ≫= exit_words).
Definition abi_exits (l : list SolExitIdentity) : byte_list := concat (exits_words l).
Definition abi_bool (b : bool) : byte_list := word (if b then 1 else 0).

(** The values fit the types of the contract. *)
Definition sol_ok (i : SolIdentity) : Prop :=
  0 <= sol_mesh_ip i < 2 ^ 128 /\ 0 <= sol_wg_key i < 2 ^ 256 /\ 0 <= sol_eth_addr i < 2 ^ 160.
Definition sol_exit_ok (e : SolExitIdentity) : Prop :=
  sol_ok (sol_exit e) /\ 0 <= sol_registration_port e < 2 ^ 16 /\ 0 <= sol_wg_exit_listen_port e < 2 ^ 16.

(** What a registered user and exit are in the program. *)
Definition client_of (i : SolIdentity) : Identity := {|
  mesh_ip := V6 (sol_mesh_ip i); eth_address := sol_eth_addr i; wg_public_key := sol_wg_key i; nickname := None |}.
Definition set_of {A} `{EqDecision A} (l : list A) : list A := foldl (fun s x => set_insert x s) [] l.
Definition exit_of (e : SolExitIdentity) : ExitIdentity := {|
  ei_mesh_ip := V6 (sol_mesh_ip (sol_exit e)); ei_wg_key := sol_wg_key (sol_exit e);
  ei_eth_addr := sol_eth_addr (sol_exit e); ei_registration_port := sol_registration_port e;
  ei_wg_exit_listen_port := sol_wg_exit_listen_port e;
  allowed_regions := set_of ((fun r => region_of_u8 (r mod 256)) <$> sol_allowed_regions e);
  payment_types := set_of ((fun p => chain_of_u8 (p mod 256)) <$> sol_payment_types e) |}.
(** The entries the parsers return: those with a mesh address. *)
Definition visible (i : SolIdentity) : bool := negb (sol_mesh_ip i =? 0).
Definition clients_of (l : list SolIdentity) : list Identity := client_of <$> List.filter visible l.
Definition exits_of (l : list SolExitIdentity) : list ExitIdentity :=
  exit_of <$> List.filter (fun e => visible (sol_exit e)) l.

(** * Words *)

Lemma word_length x : length (word x) = 32%nat.
Proof. apply octets_length. Qed.

Lemma octets_app m n x : octets (m + n) x = octets m (x / 256 ^ Z.of_nat n) ++ octets n x.
Proof.
  revert x. induction n as [|n IH]; intros x.
  - rewrite Nat.add_0_r. cbn [octets]. change (256 ^ Z.of_nat 0) with 1. by rewrite Z.div_1_r, app_nil_r.
  - rewrite Nat.add_succ_r, !octets_snoc, IH, app_assoc, Z.div_div by lia. do 3 f_equal.
    rewrite Nat2Z.inj_succ, Z.pow_succ_r by lia. lia.
Qed.
Lemma be_value_octets_mod n x : be_value (octets n x) = x mod 256 ^ Z.of_nat n.
Proof.
  revert x. induction n as [|n IH]; intros x; [cbn; by rewrite Z.mod_1_r|].
  rewrite octets_snoc, be_value_snoc, IH, Nat2Z.inj_succ, Z.pow_succ_r by lia.
  rewrite Z.rem_mul_r by lia. lia.
Qed.

(** The end of a word is its value up to the bytes that are kept. *)
Lemma slice_word (from : nat) x :
  (from <= 32)%nat -> slice (Z.of_nat from) 32 (word x) = Some (octets (32 - from) x).
Proof.
  intros Hf. unfold word. replace 32%nat with (from + (32 - from))%nat at 1 by lia. rewrite octets_app.
  rewrite <- (app_nil_r (octets (32 - from) x)) at 1. apply slice_at; rewrite !len_of_octets; lia.
Qed.

(** An answer of whole words. *)
Definition whole (ws : list byte_list) : Prop := Forall (fun w => length w = WORD_SIZE) ws.

Lemma chunks_words ws fuel :
  whole ws -> (length ws <= fuel)%nat ->
  chunks_fuel fuel WORD_SIZE (concat ws) = ws.
Proof.
  revert fuel. induction ws as [|w ws IH]; intros fuel; [by destruct fuel|].
  intros [Hw Hws]%Forall_cons Hf. destruct fuel as [|fuel]; [cbn in Hf; lia|]. cbn [concat chunks_fuel].
  destruct (w ++ concat ws) as [|b l] eqn:E; [by destruct w|]. rewrite <- E.
  rewrite take_app_length', drop_app_length' by done. f_equal. apply IH; [done|]. cbn in Hf. lia.
Qed.
Lemma concat_length_words ws :
  whole ws -> length (concat ws) = (WORD_SIZE * length ws)%nat.
Proof.
  induction 1 as [|w ws Hw _ IH]; [done|]. cbn [concat length]. rewrite length_app, Hw, IH. lia.
Qed.
Lemma to_evm_words_concat ws :
  whole ws -> to_evm_words (concat ws) = ws.
Proof.
  intros Hws. apply chunks_words; [done|]. rewrite concat_length_words by done. unfold WORD_SIZE. lia.
Qed.

(** * Numbers *)

Lemma be_value_cons b l : be_value (b :: l) = b * 256 ^ Z.of_nat (length l) + be_value l.
Proof.
  unfold be_value. cbn [foldl]. rewrite Z.mul_0_l, Z.add_0_l. revert b.
  induction l as [|c l IH]; intros b; cbn [foldl length]; [lia|].
  rewrite IH, (IH (0 * 256 + c)), Nat2Z.inj_succ, Z.pow_succ_r by lia. lia.
Qed.
Lemma is_byte_octets n x : Forall (fun b => 0 <= b < 256) (octets n x).
Proof.
  revert x. induction n as [|n IH]; intros x; [constructor|]. rewrite octets_snoc.
  apply Forall_app. split; [apply IH|]. constructor; [|constructor]. apply Z.mod_pos_bound. lia.
Qed.
Lemma be_value_bound l : Forall (fun b => 0 <= b < 256) l -> 0 <= be_value l < 256 ^ Z.of_nat (length l).
Proof.
  induction 1 as [|b l Hb _ IH]; [cbn; lia|]. rewrite be_value_cons. cbn [length].
  rewrite Nat2Z.inj_succ, Z.pow_succ_r by lia. nia.
Qed.

Lemma digit_hex n : 0 <= n < 16 -> digit 16 (hex_digit n) = Some n.
Proof.
  intros Hn. assert (H : n ∈ seqZ 0 16) by (apply elem_of_seqZ; lia). revert n H Hn.
  assert (H : Forall (fun n => digit 16 (hex_digit n) = Some n) (seqZ 0 16)) by (repeat constructor).
  rewrite Forall_forall in H. auto.
Qed.
(** The digits read so far only grow. *)
Lemma parse_hex_digits max l acc :
  Forall (fun b => 0 <= b < 256) l -> 0 <= acc ->
  acc * 256 ^ Z.of_nat (length l) + be_value l <= max ->
  parse_digits 16 max acc (hex_of l) = Some (acc * 256 ^ Z.of_nat (length l) + be_value l).
Proof.
  intros Hl. revert acc. induction Hl as [|b l Hb Hl IH]; intros acc Ha Hm; [cbn in *; f_equal; lia|].
  pose proof (be_value_bound l Hl) as Hv. rewrite be_value_cons in *. cbn [length] in *.
  rewrite Nat2Z.inj_succ, Z.pow_succ_r in * by lia.
  assert (Hp : 0 < 256 ^ Z.of_nat (length l)) by (apply Z.pow_pos_nonneg; lia).
  pose proof (Z.div_mod b 16 ltac:(lia)) as Hd. pose proof (Z.mod_pos_bound b 16 ltac:(lia)).
  assert (0 <= b / 16 < 16) by (split; [apply Z.div_pos; lia|apply Z.div_lt_upper_bound; lia]).
  change (hex_of (b :: l)) with (hex_digit (b / 16) :: hex_digit (b mod 16) :: hex_of l).
  cbn [parse_digits]. rewrite !digit_hex by lia. cbn [mbind option_bind].
  assert (Hle : acc * 256 + b <= max) by nia.
  rewrite (proj2 (Z.leb_le (acc * 16 + b / 16) max)) by nia. cbn [mbind option_bind].
  replace ((acc * 16 + b / 16) * 16 + b mod 16) with (acc * 256 + b) by lia.
  rewrite (proj2 (Z.leb_le _ max)) by done. rewrite IH by nia. f_equal. lia.
Qed.
Lemma parse_hex max l :
  Forall (fun b => 0 <= b < 256) l -> l <> [] -> be_value l <= max ->
  parse_uint 16 max (hex_of l) = Some (be_value l).
Proof.
  intros Hl Hne Hm. pose proof (parse_hex_digits max l 0 Hl ltac:(lia) ltac:(lia)) as H.
  destruct l as [|b l]; [done|]. apply Forall_cons in Hl as [Hb _].
  change (hex_of (b :: l)) with (hex_digit (b / 16) :: hex_digit (b mod 16) :: hex_of l) in *.
  unfold parse_uint. assert (He : Ascii.eqb (hex_digit (b / 16)) "+"%char = false).
  { assert (Hq : 0 <= b / 16 < 16) by (split; [apply Z.div_pos; lia|apply Z.div_lt_upper_bound; lia]).
    apply Ascii.eqb_neq. intros He. pose proof (digit_hex _ Hq) as Hd. by rewrite He in Hd. }
  rewrite He, H. by f_equal.
Qed.

(** * Users *)

Section read_users.
Context `{C : Clarity} `{CL : !ClarityLaws C} `{N : Num256} `{NL : !Num256Laws N} `{P : Profile} {St : Type}.
Implicit Types s : St.

Lemma be_tail_word (from : nat) x s :
  (from <= 32)%nat -> be_tail (Z.of_nat from) (word x) s = Done s (x mod 256 ^ Z.of_nat (32 - from)).
Proof.
  intros Hf. unfold be_tail, bind, unwrap. by rewrite slice_word, be_value_octets_mod.
Qed.
Lemma u256_word x : u256_from_be_bytes (word x) = Some (x mod 2 ^ 256).
Proof. rewrite u256_from_be_bytes_spec by by rewrite word_length. unfold word. by rewrite be_value_octets_mod. Qed.

Lemma parse_identity_words i s : sol_ok i ->
  parse_identity_abi (id_words i) s = if visible i then Done s (client_of i) else Fail s BadInput.
Proof.
  intros (Hip & Hk & Ha). unfold parse_identity_abi, visible, bind, ok_or, unwrap, ret, throw. cbn [length id_words Nat.eqb negb lookup list_lookup].
  change 16 with (Z.of_nat 16). rewrite be_tail_word by lia.
  change (256 ^ Z.of_nat (32 - 16)) with (2 ^ 128). rewrite Z.mod_small by done.
  destruct (sol_mesh_ip i =? 0) eqn:E; cbn [negb]; [done|].
  rewrite u256_word, Z.mod_small by done. cbn [lookup list_lookup].
  change (slice 12) with (slice (Z.of_nat 12)). unfold len_of. rewrite word_length.
  change (Z.of_nat 32) with 32. rewrite slice_word by lia.
  rewrite address_from_slice_spec, octets_length. change (Nat.eqb (32 - 12) 20) with true. cbn iota.
  rewrite be_value_octets_mod. change (256 ^ Z.of_nat (32 - 12)) with (2 ^ 160).
  by rewrite Z.mod_small.
Qed.

Lemma attempt_identity i s : sol_ok i ->
  attempt (parse_identity_abi (id_words i)) s = Done s (if visible i then Some (client_of i) else None).
Proof. intros Hi. unfold attempt. rewrite parse_identity_words by done. by destruct (visible i). Qed.

Lemma identity_entries_words l n s :
  Forall sol_ok l -> n = Z.of_nat (length l) -> identity_entries n (l ≫= id_words) s = Done s (clients_of l).
Proof.
  intros Hl. revert n. induction Hl as [|i l Hi Hl IH]; intros n ->; [done|].
  cbn [length]. change ((i :: l) ≫= id_words)
    with (word (sol_mesh_ip i) :: word (sol_wg_key i) :: word (sol_eth_addr i) :: (l ≫= id_words)).
  cbn [identity_entries]. rewrite (proj2 (Z.leb_gt _ 0)) by lia. unfold bind.
  change [word (sol_mesh_ip i); word (sol_wg_key i); word (sol_eth_addr i)] with (id_words i).
  rewrite attempt_identity by done. rewrite IH by lia. unfold clients_of, ret. cbn [List.filter].
  by destruct (visible i).
Qed.

Lemma whole_users l : whole ([word 32; word (Z.of_nat (length l))] ++ (l ≫= id_words)).
Proof.
  unfold whole. repeat (constructor; [apply word_length|]). cbn [app].
  induction l as [|i l IH]; [constructor|]. by repeat (constructor; [apply word_length|]).
Qed.
Lemma users_words_length l : length (l ≫= id_words) = (3 * length l)%nat.
Proof. induction l as [|i l IH]; [done|]. cbn. cbn in IH. rewrite IH. lia. Qed.

Lemma registry_read l s :
  Forall sol_ok l -> Z.of_nat (length l) <= U64_MAX ->
  parse_identity_array_abi (abi_users l) s = Done s (clients_of l).
Proof.
  intros Hl Hn. unfold parse_identity_array_abi, abi_users. rewrite to_evm_words_concat by apply whole_users.
  rewrite length_app, users_words_length. destruct l as [|i l']; [done|]. set (l := i :: l') in *.
  assert (length l <> 0)%nat by done. cbn [length].
  rewrite (proj2 (Nat.eqb_neq _ 2)), (proj2 (Nat.ltb_ge _ 5)) by lia.
  cbn [app lookup list_lookup drop]. unfold bind, ok_or. rewrite bytes_to_hex_str_spec.
  assert (Hv : be_value (word (Z.of_nat (length l))) = Z.of_nat (length l)).
  { unfold word. rewrite be_value_octets_mod, Z.mod_small; [done|]. unfold U64_MAX in Hn.
    split; [lia|]. change (256 ^ Z.of_nat 32) with (2 ^ 256). lia. }
  rewrite parse_hex, Hv; [|apply is_byte_octets| |by rewrite Hv].
  - by apply identity_entries_words.
  - intros E. by apply (f_equal length) in E.
Qed.
End read_users.

(** * Exits *)

Section read_exits.
Context `{C : Clarity} `{CL : !ClarityLaws C} `{N : Num256} `{NL : !Num256Laws N} `{P : Profile} {St : Type}.
Implicit Types s : St.

Lemma port_of_word x s : 0 <= x < 2 ^ 16 -> port_of (word x) s = Done s x.
Proof.
  intros Hx. unfold port_of, bind, unwrap. rewrite u256_word, Z.mod_small by lia.
  rewrite u256_to_be_bytes_spec by lia256. change 30 with (Z.of_nat 30). change (octets 32 x) with (word x).
  rewrite be_tail_word by lia. change (256 ^ Z.of_nat (32 - 30)) with (2 ^ 16). by rewrite Z.mod_small.
Qed.
Lemma word_position_word k s : 0 <= k <= U64_MAX -> word_position (word (k * 32)) s = Done s k.
Proof.
  intros Hk. unfold U64_MAX in Hk. unfold word_position, bind, unwrap. rewrite u256_word, Z.mod_small by lia.
  assert (is_u256 (k * 32) = true) by lia256.
  rewrite u_div_exact by (done || reflexivity). change (Z.of_nat WORD_SIZE) with 32. rewrite Z.div_mul by lia.
  rewrite u256_to_be_bytes_spec by lia256. change 24 with (Z.of_nat 24). change (octets 32 k) with (word k).
  rewrite be_tail_word by lia. change (256 ^ Z.of_nat (32 - 24)) with (2 ^ 64). rewrite Z.mod_small by lia. done.
Qed.
Lemma array_len_word (k : nat) ws n s :
  ws !! k = Some (word n) -> 0 <= n <= U64_MAX -> array_len (Z.of_nat k) ws s = Done s n.
Proof.
  intros Hk Hn. unfold U64_MAX in Hn. pose proof (lookup_lt_Some _ _ _ Hk). unfold array_len, bind, ok_or, get_at.
  rewrite (proj2 (Z.ltb_lt _ _)) by lia. rewrite Nat2Z.id, Hk. change 24 with (Z.of_nat 24).
  rewrite be_tail_word by lia. change (256 ^ Z.of_nat (32 - 24)) with (2 ^ 64). rewrite Z.mod_small by lia. done.
Qed.
(** The elements behind the length of an array. *)
Lemma array_words_at pre h mid post n k s :
  n = Z.of_nat (length mid) -> k = Z.of_nat (length pre) -> n + k + 1 <= U64_MAX ->
  array_words n k (pre ++ h :: mid ++ post) s = Done s mid.
Proof.
  intros -> -> Hb. unfold array_words, bind, unwrap, usize_of, ret. rewrite !native_exact by lia. f_equal.
  unfold take_skip. rewrite !length_app. cbn [length]. rewrite length_app.
  rewrite !Z.min_l by lia.
  replace (Z.to_nat (Z.of_nat (length mid) + Z.of_nat (length pre) + 1)) with (length (pre ++ h :: mid))
    by (rewrite length_app; cbn; lia).
  replace (Z.to_nat (Z.of_nat (length pre) + 1)) with (length (pre ++ [h])) by (rewrite length_app; cbn; lia).
  change (pre ++ h :: mid ++ post) with (pre ++ (h :: mid) ++ post). rewrite app_assoc, take_app_length.
  change (pre ++ h :: mid) with (pre ++ [h] ++ mid). by rewrite (app_assoc pre), drop_app_length.
Qed.
Lemma word_last x : word x !! (WORD_SIZE - 1)%nat = Some (x mod 256).
Proof.
  unfold word. rewrite octets_snoc. apply list_lookup_middle. by rewrite octets_length.
Qed.
Lemma codes_into_words {A} `{EqDecision A} (f : Z -> A) l acc s :
  codes_into f (word <$> l) acc s = Done s (foldl (fun r x => set_insert x r) acc ((fun x => f (x mod 256)) <$> l)).
Proof.
  revert acc. induction l as [|x l IH]; intros acc; [done|].
  cbn [fmap list_fmap codes_into foldl]. unfold bind at 1, unwrap at 1. rewrite word_last. apply IH.
Qed.

Lemma exit_words_length e :
  length (exit_words e) = (9 + length (sol_allowed_regions e) + length (sol_payment_types e))%nat.
Proof. unfold exit_words, array_of. rewrite !length_app. cbn [length]. rewrite !length_fmap. cbn. lia. Qed.

(** Where the two arrays of an entry are. *)
Definition exit_head (e : SolExitIdentity) : list byte_list :=
  id_words (sol_exit e)
  ++ [word (sol_registration_port e); word (sol_wg_exit_listen_port e);
      word (7 * 32); word ((8 + Z.of_nat (length (sol_allowed_regions e))) * 32)].
Lemma exit_regions_at e rest :
  exit_words e ++ rest
  = exit_head e ++ word (Z.of_nat (length (sol_allowed_regions e))) :: (word <$> sol_allowed_regions e)
    ++ (array_of (sol_payment_types e) ++ rest).
Proof. unfold exit_words, exit_head, array_of. by rewrite <- !app_assoc. Qed.
Lemma exit_payments_at e rest :
  exit_words e ++ rest
  = (exit_head e ++ array_of (sol_allowed_regions e))
    ++ word (Z.of_nat (length (sol_payment_types e))) :: (word <$> sol_payment_types e) ++ rest.
Proof. rewrite exit_regions_at, <- app_assoc. done. Qed.
Lemma exit_head_regions_length e :
  length (exit_head e ++ array_of (sol_allowed_regions e)) = (8 + length (sol_allowed_regions e))%nat.
Proof. unfold array_of. rewrite length_app. cbn. by rewrite length_fmap. Qed.

Lemma exit_array_lens e rest s :
  Z.of_nat (length (exit_words e ++ rest)) < 2 ^ 59 ->
  array_len 7 (exit_words e ++ rest) s = Done s (Z.of_nat (length (sol_allowed_regions e)))
  /\ array_len (8 + Z.of_nat (length (sol_allowed_regions e))) (exit_words e ++ rest) s
     = Done s (Z.of_nat (length (sol_payment_types e))).
Proof.
  intros Hlen. rewrite length_app, exit_words_length in Hlen. unfold U64_MAX. split.
  - apply (array_len_word 7); [|unfold U64_MAX; lia]. by rewrite exit_regions_at.
  - replace (8 + Z.of_nat (length (sol_allowed_regions e)))
      with (Z.of_nat (length (exit_head e ++ array_of (sol_allowed_regions e))))
      by (rewrite exit_head_regions_length; lia).
    apply array_len_word; [|unfold U64_MAX; lia].
    rewrite exit_payments_at, lookup_app_r, Nat.sub_diag by lia. done.
Qed.
Lemma exit_array_words e rest s :
  Z.of_nat (length (exit_words e ++ rest)) < 2 ^ 59 ->
  array_words (Z.of_nat (length (sol_allowed_regions e))) 7 (exit_words e ++ rest) s
  = Done s (word <$> sol_allowed_regions e)
  /\ array_words (Z.of_nat (length (sol_payment_types e))) (8 + Z.of_nat (length (sol_allowed_regions e)))
       (exit_words e ++ rest) s
     = Done s (word <$> sol_payment_types e).
Proof.
  intros Hlen. rewrite length_app, exit_words_length in Hlen. split.
  - rewrite exit_regions_at. apply array_words_at; [by rewrite length_fmap|done|unfold U64_MAX; lia].
  - rewrite exit_payments_at. apply array_words_at; [by rewrite length_fmap| |unfold U64_MAX; lia].
    rewrite exit_head_regions_length. lia.
Qed.

(** One entry, with whatever follows it. *)
Lemma parse_exit_words e rest s :
  sol_exit_ok e -> Z.of_nat (length (exit_words e ++ rest)) < 2 ^ 59 ->
  parse_exit_identity_abi (exit_words e ++ rest) s
  = if visible (sol_exit e) then Done s (exit_of e) else Fail s BadInput.
Proof.
  intros (Hid & Hr & Hw) Hlen. pose proof (exit_array_lens e rest s Hlen) as [L1 L2].
  pose proof (exit_array_words e rest s Hlen) as [W1 W2].
  unfold parse_exit_identity_abi. pose proof Hlen as Hlen'. rewrite length_app, exit_words_length in Hlen'.
  rewrite (proj2 (Nat.ltb_ge _ 9)) by (rewrite length_app, exit_words_length; lia).
  unfold bind, unwrap, usize_of, ret, throw.
  change (take 3 (exit_words e ++ rest)) with (id_words (sol_exit e)).
  rewrite parse_identity_words by done. destruct (visible (sol_exit e)) eqn:Ev; [|done].
  change ((exit_words e ++ rest) !! 3%nat) with (Some (word (sol_registration_port e))). cbn beta iota.
  rewrite port_of_word by done.
  change ((exit_words e ++ rest) !! 4%nat) with (Some (word (sol_wg_exit_listen_port e))). cbn beta iota.
  rewrite port_of_word by done.
  change ((exit_words e ++ rest) !! 5%nat) with (Some (word (7 * 32))). cbn beta iota.
  rewrite word_position_word by (unfold U64_MAX; lia).
  change ((exit_words e ++ rest) !! 6%nat) with (Some (word ((8 + Z.of_nat (length (sol_allowed_regions e))) * 32))).
  cbn beta iota.   rewrite word_position_word by (unfold U64_MAX; lia).
  rewrite L1, L2, !native_exact by (unfold U64_MAX; lia).
  rewrite (proj2 (Z.ltb_ge _ _)) by (rewrite length_app, exit_words_length; lia).
  rewrite W1, codes_into_words, W2, codes_into_words. done.
Qed.

(** All entries: those that are left begin at [pos]. *)
Lemma exit_entries_words chunks l pos i last rest s :
  Forall sol_exit_ok l -> Z.of_nat (length chunks) < 2 ^ 59 ->
  (2 + pos <= length chunks)%nat -> drop (2 + pos) chunks = l ≫= exit_words ->
  last = i + Z.of_nat (length l) ->
  exit_entries chunks last i (entry_positions pos l ++ rest) s = Done s (exits_of l).
Proof.
  intros Hl Hlen. revert pos i. induction Hl as [|e l He Hl IH]; intros pos i Hpos Hdrop ->.
  { cbn. destruct rest; cbn; by rewrite (proj2 (Z.leb_le _ i)) by lia. }
  cbn [entry_positions app exit_entries length]. rewrite (proj2 (Z.leb_gt _ i)) by lia.
  unfold bind, unwrap, usize_of. rewrite word_position_word by (unfold U64_MAX; lia).
  rewrite native_exact by (unfold U64_MAX; lia). unfold get_from.
  rewrite (proj2 (Z.leb_le _ _)) by lia. replace (Z.to_nat (2 + Z.of_nat pos)) with (2 + pos)%nat by lia.
  change ((e :: l) ≫= exit_words) with (exit_words e ++ (l ≫= exit_words)) in Hdrop.
  assert (Hlen' : Z.of_nat (length (exit_words e ++ (l ≫= exit_words))) < 2 ^ 59).
  { rewrite <- Hdrop, length_drop. lia. }
  rewrite Hdrop. unfold attempt. rewrite parse_exit_words by done.
  assert (Hnext : drop (2 + (pos + length (exit_words e))) chunks = l ≫= exit_words).
  { rewrite Nat.add_assoc, <- drop_drop, Hdrop. apply drop_app_length. }
  assert (Hpos' : (2 + (pos + length (exit_words e)) <= length chunks)%nat).
  { apply (f_equal length) in Hdrop. rewrite length_drop, length_app in Hdrop. lia. }
  destruct (visible (sol_exit e)) eqn:Ev; rewrite IH by (done || (cbn [length]; lia)); unfold exits_of; cbn [List.filter];
    by rewrite Ev.
Qed.

Lemma whole_exit_words e : whole (exit_words e).
Proof.
  unfold exit_words, array_of. repeat (constructor; [apply word_length|]).
  apply Forall_app. split; [|constructor; [apply word_length|]]; by apply Forall_fmap, Forall_true; intros; apply word_length.
Qed.
Lemma whole_exits l : whole (exits_words l).
Proof.
  unfold exits_words. repeat (constructor; [apply word_length|]). apply Forall_app. split.
  - generalize (length l) as p. induction l as [|e l IH]; intros p; [constructor|].
    constructor; [apply word_length|apply IH].
  - induction l as [|e l IH]; [constructor|]. rewrite bind_cons. apply Forall_app. split; [apply whole_exit_words|apply IH].
Qed.
Lemma entry_positions_length p l : length (entry_positions p l) = length l.
Proof. revert p. induction l as [|e l IH]; intros p; cbn; [done|]. by rewrite IH. Qed.

Lemma exits_read l s :
  Forall sol_exit_ok l -> Z.of_nat (length (exits_words l)) < 2 ^ 59 ->
  parse_exit_identity_array_abi (abi_exits l) s = Done s (exits_of l).
Proof.
  intros Hl Hlen. unfold parse_exit_identity_array_abi, abi_exits. rewrite to_evm_words_concat by apply whole_exits.
  destruct l as [|e l']; [done|]. set (l := e :: l') in *.
  assert (Hge : (12 <= length (exits_words l))%nat).
  { unfold exits_words, l. rewrite !length_app, entry_positions_length. cbn [mbind list_bind].
    rewrite length_app, exit_words_length. cbn. lia. }
  assert (Hn : (length l <= length (exits_words l))%nat).
  { unfold exits_words. rewrite !length_app, entry_positions_length. lia. }
  rewrite (proj2 (Nat.eqb_neq _ 2)), (proj2 (Nat.ltb_ge _ 11)) by lia.
  change (exits_words l !! 1%nat) with (Some (word (Z.of_nat (length l)))).
  unfold bind, unwrap, usize_of. change 24 with (Z.of_nat 24). rewrite be_tail_word by lia.
  change (256 ^ Z.of_nat (32 - 24)) with (2 ^ 64). rewrite Z.mod_small by lia.
  rewrite native_exact by (unfold U64_MAX; lia).
  change (drop 2 (exits_words l)) with (entry_positions (length l) l ++ (l ≫= exit_words)).
  apply exit_entries_words; try done.
  - unfold exits_words. rewrite !length_app, entry_positions_length. cbn. lia.
  - unfold exits_words. rewrite app_assoc. apply drop_app_length'.
    rewrite length_app, entry_positions_length. done.
Qed.
End read_exits.

(** * Panics *)

(** [m] does not panic, and what it returns satisfies [Q]. *)
Definition safe {S E A} (Q : A -> Prop) (m : M S E A) : Prop :=
  forall s, match m s with Done _ a => Q a | Fail _ _ => True | Panic => False end.
Abbreviation total := (safe (fun _ => True)).

Lemma safe_bind {S E A B} (Q : A -> Prop) (R : B -> Prop) (m : M S E A) k :
  safe Q m -> (forall a, Q a -> safe R (k a)) -> safe R (bind m k).
Proof. intros Hm Hk s. specialize (Hm s). unfold bind. destruct (m s); [by apply Hk|done..]. Qed.
Lemma safe_ret {S E A} (Q : A -> Prop) (a : A) : Q a -> safe (S := S) (E := E) Q (ret a).
Proof. by intros Ha s. Qed.
Lemma safe_throw {S E A} (Q : A -> Prop) (e : E) : safe (S := S) Q (throw e).
Proof. done. Qed.
Lemma safe_ok_or {S E A} (Q : A -> Prop) (o : option A) (e : E) :
  (forall a, o = Some a -> Q a) -> safe (S := S) Q (ok_or o e).
Proof. intros Ho s. unfold ok_or. destruct o; [by apply Ho|done]. Qed.
Lemma safe_unwrap {S E A} (Q : A -> Prop) (o : option A) a :
  o = Some a -> Q a -> safe (S := S) (E := E) Q (unwrap o).
Proof. intros -> Ha s. done. Qed.
Lemma safe_attempt {S E A} (m : M S E A) : total m -> total (attempt m).
Proof. intros Hm s. specialize (Hm s). unfold attempt. by destruct (m s). Qed.
Lemma safe_if {S E A} (Q : A -> Prop) (b : bool) (m m' : M S E A) :
  safe Q m -> safe Q m' -> safe Q (if b then m else m').
Proof. by destruct b. Qed.
Create HintDb safe.
#[export] Hint Resolve safe_ret safe_throw safe_attempt safe_if : safe.

Section total_parsers.
Context `{C : Clarity} `{CL : !ClarityLaws C} `{N : Num256} `{NL : !Num256Laws N} `{P : Profile} {St : Type}.
Hypothesis release : overflow_checks = false.

(** A whole word of bytes. *)
Definition good_word (w : byte_list) : Prop := length w = WORD_SIZE /\ Forall (fun b => 0 <= b < 256) w.

Lemma slice_total a b l : 0 <= a <= b -> b <= len_of l -> exists x, slice a b l = Some x.
Proof.
  intros Hab Hb. unfold slice, len_of in *.
  rewrite (proj2 (Z.leb_le 0 a)), (proj2 (Z.leb_le a b)), (proj2 (Z.leb_le b _)) by lia. by eexists.
Qed.
Lemma good_value w : good_word w -> is_u256 (be_value w) = true.
Proof.
  intros [Hl Hb]. pose proof (be_value_bound w Hb) as Hv. rewrite Hl in Hv.
  change (256 ^ Z.of_nat WORD_SIZE) with (U256_MAX + 1) in Hv. apply in_range_spec. lia.
Qed.
Lemma be_tail_safe a w : 0 <= a <= 32 -> length w = WORD_SIZE -> total (be_tail (St := St) a w).
Proof.
  intros Ha Hw. destruct (slice_total a 32 w) as [x Hx]; [lia|unfold len_of; by rewrite Hw|].
  eapply (safe_bind (fun _ => True)); [by eapply safe_unwrap|]. auto with safe.
Qed.
Lemma usize_safe x : total (unwrap (S := St) (E := Web3Error) (usize_of x)).
Proof.
  unfold usize_of, native. rewrite release. destruct (in_range 0 U64_MAX x); done.
Qed.
Lemma u256_safe w : good_word w ->
  safe (S := St) (E := Web3Error) (fun v => is_u256 v = true) (unwrap (u256_from_be_bytes w)).
Proof.
  intros Hw. eapply safe_unwrap; [|by apply good_value]. apply u256_from_be_bytes_spec.
  destruct Hw as [-> _]. done.
Qed.
Lemma port_of_safe w : good_word w -> total (port_of (St := St) w).
Proof.
  intros Hw. eapply safe_bind; [by apply u256_safe|]. intros v Hv. cbn beta.
  rewrite u256_to_be_bytes_spec by done. apply be_tail_safe; [lia|apply octets_length].
Qed.
Lemma word_position_safe w : good_word w -> total (word_position (St := St) w).
Proof.
  intros Hw. eapply safe_bind; [by apply u256_safe|]. intros v Hv. cbn beta.
  eapply (safe_bind (fun q => is_u256 q = true)).
  - eapply safe_unwrap; [by apply u_div_exact|]. apply in_range_spec in Hv. apply in_range_spec.
    change (Z.of_nat WORD_SIZE) with 32. split; [apply Z.div_pos; lia|].
    etrans; [apply Z.div_le_upper_bound with (q := v); lia|lia].
  - intros q Hq. rewrite u256_to_be_bytes_spec by done. apply be_tail_safe; [lia|apply octets_length].
Qed.

Lemma parse_identity_safe ws : Forall good_word ws -> total (parse_identity_abi (St := St) ws).
Proof.
  intros Hws. rewrite Forall_lookup in Hws. unfold parse_identity_abi. apply safe_if; [auto with safe|].
  eapply (safe_bind good_word); [by apply safe_ok_or; eauto|]. intros a [Ha _].
  eapply safe_bind; [apply be_tail_safe; [lia|done]|]. intros ip _. apply safe_if; [auto with safe|].
  eapply (safe_bind good_word); [by apply safe_ok_or; eauto|]. intros b Hb.
  eapply safe_bind; [by apply u256_safe|]. intros key _.
  eapply (safe_bind good_word); [by apply safe_ok_or; eauto|]. intros c [Hc _].
  destruct (slice_total 12 (len_of c) c) as [x Hx]; [unfold len_of; rewrite Hc; unfold WORD_SIZE; lia|lia|].
  eapply (safe_bind (fun _ => True)); [by eapply safe_unwrap|]. intros x' _.
  eapply (safe_bind (fun _ => True)); [by apply safe_ok_or|]. auto with safe.
Qed.
Lemma identity_entries_safe n ws : Forall good_word ws -> total (identity_entries (St := St) n ws).
Proof.
  revert n ws. fix IH 2. intros n [|a [|b [|c ws]]] Hws; cbn [identity_entries]; try by auto with safe.
  inversion_clear Hws as [|? ? Ha Hws']. inversion_clear Hws' as [|? ? Hb Hws'']. inversion_clear Hws'' as [|? ? Hc Hws].
  apply safe_if; [auto with safe|]. eapply safe_bind.
  - apply safe_attempt, parse_identity_safe. rewrite !Forall_cons. done.
  - intros entry _. eapply safe_bind; [by apply IH|]. auto with safe.
Qed.
Lemma codes_safe {A} `{EqDecision A} (f : Z -> A) ws acc :
  Forall good_word ws -> total (codes_into (St := St) f ws acc).
Proof.
  intros Hws. revert acc. induction Hws as [|w ws [Hw _] _ IH]; intros acc; cbn [codes_into]; [auto with safe|].
  destruct (lookup_lt_is_Some_2 w (WORD_SIZE - 1)) as [b Hb]; [rewrite Hw; unfold WORD_SIZE; lia|].
  eapply (safe_bind (fun _ => True)); [by eapply safe_unwrap|]. intros; apply IH.
Qed.
Lemma array_len_safe k ws : Forall good_word ws -> total (array_len (St := St) k ws).
Proof.
  intros Hws. rewrite Forall_lookup in Hws. eapply (safe_bind good_word).
  - apply safe_ok_or. intros a. unfold get_at. case_match; [|done]. apply Hws.
  - intros a [Ha _]. apply be_tail_safe; [lia|done].
Qed.
Lemma array_words_safe n k ws : Forall good_word ws -> safe (Forall good_word) (array_words (St := St) n k ws).
Proof.
  intros Hws. unfold array_words. do 3 (eapply safe_bind; [apply usize_safe|]; intros ? _).
  apply safe_ret. unfold take_skip. by apply Forall_drop, Forall_take.
Qed.

(** Taking the next word. *)
Ltac next_word ws Hws k :=
  let w := fresh "w" in let Hw := fresh "Hw" in
  destruct (lookup_lt_is_Some_2 ws k ltac:(lia)) as [w Hw];
  eapply (safe_bind good_word); [by eapply safe_unwrap; [exact Hw|eapply Hws]|]; clear w Hw; intros w Hw.

Lemma parse_exit_identity_safe ws : Forall good_word ws -> total (parse_exit_identity_abi (St := St) ws).
Proof.
  intros Hws. pose proof Hws as Hat. rewrite Forall_lookup in Hat. unfold parse_exit_identity_abi.
  destruct (Nat.ltb_spec (length ws) 9) as [|Hlen]; [auto with safe|].
  eapply safe_bind; [by apply parse_identity_safe, Forall_take|]. intros id _.
  next_word ws Hat 3%nat. eapply safe_bind; [by apply port_of_safe|]. intros rp _.
  next_word ws Hat 4%nat. eapply safe_bind; [by apply port_of_safe|]. intros wp _.
  next_word ws Hat 5%nat. eapply safe_bind; [by apply word_position_safe|]. intros rs _.
  next_word ws Hat 6%nat. eapply safe_bind; [by apply word_position_safe|]. intros ps _.
  do 2 (eapply safe_bind; [by apply array_len_safe|]; intros ? _).
  do 2 (eapply safe_bind; [apply usize_safe|]; intros ? _). apply safe_if.
  { do 2 (eapply safe_bind; [apply usize_safe|]; intros ? _). auto with safe. }
  eapply safe_bind; [by apply array_words_safe|]. intros rw Hrw.
  eapply safe_bind; [by apply codes_safe|]. intros ra _.
  eapply safe_bind; [by apply array_words_safe|]. intros pw Hpw.
  eapply safe_bind; [by apply codes_safe|]. auto with safe.
Qed.
Lemma exit_entries_safe chunks last i ws :
  Forall good_word chunks -> Forall good_word ws -> total (exit_entries (St := St) chunks last i ws).
Proof.
  intros Hc Hws. revert i. induction Hws as [|w ws Hw _ IH]; intros i; cbn [exit_entries]; [auto with safe|].
  apply safe_if; [auto with safe|]. eapply safe_bind; [by apply word_position_safe|]. intros next _.
  eapply safe_bind; [apply usize_safe|]. intros from _. eapply (safe_bind (fun _ => True)).
  - unfold get_from. destruct (_ <=? Z.of_nat (length chunks)); [|by apply safe_ret].
    by apply safe_attempt, parse_exit_identity_safe, Forall_drop.
  - intros entry _. eapply safe_bind; [apply IH|]. auto with safe.
Qed.

Lemma parsers_safe bytes :
  Forall good_word (to_evm_words bytes) ->
  total (parse_identity_array_abi (St := St) bytes) /\ total (parse_exit_identity_array_abi (St := St) bytes).
Proof.
  intros Hws. pose proof Hws as Hat. rewrite Forall_lookup in Hat. split.
  - unfold parse_identity_array_abi. do 2 (apply safe_if; [by auto with safe|]).
    do 2 (eapply (safe_bind (fun _ => True)); [by apply safe_ok_or|]; intros ? _).
    by apply identity_entries_safe, Forall_drop.
  - unfold parse_exit_identity_array_abi. apply safe_if; [by auto with safe|].
    destruct (Nat.ltb_spec (length (to_evm_words bytes)) 11) as [|Hlen]; [auto with safe|].
    next_word (to_evm_words bytes) Hat 1%nat. destruct Hw as [Hw _]. eapply safe_bind; [by apply be_tail_safe; [lia|]|]. intros n _.
    eapply safe_bind; [apply usize_safe|]. intros l _. by apply exit_entries_safe; [|apply Forall_drop].
Qed.
End total_parsers.

(** The words of an answer whose length is a multiple of 32. *)
Lemma chunks_good fuel l (k : nat) :
  Forall (fun b => 0 <= b < 256) l -> length l = (WORD_SIZE * k)%nat -> Forall good_word (chunks_fuel fuel WORD_SIZE l).
Proof.
  revert l k. induction fuel as [|fuel IH]; intros l k Hb Hl; destruct l as [|b l]; cbn [chunks_fuel]; try constructor.
  - split; [|by apply Forall_take]. rewrite length_take. destruct k; [by rewrite Nat.mul_0_r in Hl|]. lia.
  - destruct k; [by rewrite Nat.mul_0_r in Hl|]. apply (IH _ k); [by apply Forall_drop|].
    rewrite length_drop. lia.
Qed.
