(* ===== verification/RegistrationQueue.v ===== *)
(** Registering clients (rita_client_registration/src/lib.rs and
    register_client_batch_loop.rs): confirming a phone number, the queue of
    confirmed clients, and the pass that sends them to the contract in batches;
    and the contract at the other end of the requests.  The phonenumber crate is
    a parameter, the answers of the text message service are arguments. *)
From S2P Require Import Prelude Types Text PeerMessage Forwarding Regions ExitManager ExitDatabase.
From S2P Require Import RegistrationDb AltheaDB RegistrationAbi.
(** The phonenumber crate. *)
Class PhoneNumbers := {
  PhoneNumber : Type;
  phone_eqb : PhoneNumber -> PhoneNumber -> bool;
  parse_phone : string -> option PhoneNumber;
}.

Module RegistrationQueue.

(** * Data *)

Record ExitRegistrationDetails := {
  email : option string;
  email_code : option string;
  phone : option string;
  phone_code : option string;
  sequence_number : option Z;
}.
Record ExitClientIdentity := {
  ec_wg_port : Z;
  ec_global : Identity;
  reg_details : ExitRegistrationDetails;
}.

Inductive TextApiError := TextBadPhoneNumber | TextInternalServerError (error : string) | SendRequestError (error : string).

(** TEXTS_SENT and REGISTER_QUEUE. *)
Record RegState := { texts_sent : gmap Z Z; register_queue : gmap id_key Identity }.

Definition reg_init : RegState := {| texts_sent := ∅; register_queue := ∅ |}.
Definition set_texts (m : gmap Z Z) (st : RegState) : RegState := {|
  texts_sent := m; register_queue := register_queue st |}.
Definition set_queue (q : gmap id_key Identity) (st : RegState) : RegState := {|
  texts_sent := texts_sent st; register_queue := q |}.

(** * Counters and queue *)

Section counters.
Context `{P : Profile}.
(** [None] is the overflow of the [u8]. *)
Definition increment_texts_sent (key : Z) (st : RegState) : option RegState :=
  match texts_sent st !! key with
  | Some val => val ← u8_of (val + 1); Some (set_texts (<[key := val]> (texts_sent st)) st)
  | None => Some (set_texts (<[key := 1]> (texts_sent st)) st)
  end.
Definition reset_texts_sent (key : Z) (st : RegState) : RegState := set_texts (delete key (texts_sent st)) st.
Definition get_texts_sent (key : Z) (st : RegState) : Z := default 0 (texts_sent st !! key).

Definition add_client_to_reg_queue (id : Identity) (st : RegState) : RegState :=
  set_queue (hs_insert id (register_queue st)) st.
Definition remove_client_from_reg_queue (id : Identity) (st : RegState) : RegState :=
  set_queue (hs_remove id (register_queue st)) st.
End counters.

(** * Text messages *)

Definition return_api_error (e : TextApiError) : ExitSignupReturn :=
  match e with
  | TextBadPhoneNumber => BadPhoneNumber
  | TextInternalServerError error => InternalServerError error
  | SendRequestError error => InternalServerError error
  end.

Section sms.
Context `{PN : PhoneNumbers} `{P : Profile}.

(** The service: the status of its answers, or the error of the request. *)
Record sms_service := {
  verify_answer : PhoneNumber -> string -> string + Z;
  send_answer : PhoneNumber -> string + Z;
}.
Definition is_success (status : Z) : bool := (200 <=? status) && (status <? 300).
Definition check_sms_auth_result (srv : sms_service) (number : PhoneNumber) (code : string) : TextApiError + bool :=
  match verify_answer srv number code with
  | inr status => inr (is_success status)
  | inl e => inl (SendRequestError e)
  end.
Definition start_sms_auth_flow (srv : sms_service) (number : PhoneNumber) : TextApiError + unit :=
  match send_answer srv number with inr _ => inr tt | inl e => inl (SendRequestError e) end.

(** What is asked of the service. *)
Inductive sms_call := SendText (number : PhoneNumber) | CheckCode (number : PhoneNumber) (code : string).

(** A client that submits a code; the two branches of the source are the same. *)
Definition submit_code (srv : sms_service) (magic : option PhoneNumber) (client : Identity) (number : PhoneNumber)
    (code : string) (st : RegState) : RegState * list sms_call * ExitSignupReturn :=
  let is_magic := match magic with Some m => phone_eqb m number | None => false end in
  let calls := if is_magic then [] else [CheckCode number code] in
  let result := if is_magic then inr true else check_sms_auth_result srv number code in
  match result with
  | inl e => (st, calls, return_api_error e)
  | inr true => (reset_texts_sent (wg_public_key client) (add_client_to_reg_queue client st), calls, RegistrationOk)
  | inr false => (st, calls, PendingRegistration)
  end.

Definition handle_sms_registration (srv : sms_service) (magic : option PhoneNumber) (client : ExitClientIdentity)
    (st : RegState) : option (RegState * list sms_call * ExitSignupReturn) :=
  let key := wg_public_key (ec_global client) in
  let text_num := get_texts_sent key st in
  let sent_more_than_allowed_texts := 10 <? text_num in
  match phone (reg_details client) with
  | Some number =>
      match parse_phone number with
      | Some number =>
          match phone_code (reg_details client), sent_more_than_allowed_texts with
          | Some code, true => Some (submit_code srv magic (ec_global client) number code st)
          | None, true => Some (st, [], PendingRegistration)
          | None, false =>
              match start_sms_auth_flow srv number with
              | inl e => Some (st, [SendText number], return_api_error e)
              | inr _ => st ← increment_texts_sent key st; Some (st, [SendText number], PendingRegistration)
              end
          | Some code, false => Some (submit_code srv magic (ec_global client) number code st)
          end
      | None => Some (st, [], BadPhoneNumber)
      end
  | None => Some (st, [], BadPhoneNumber)
  end.
End sms.

(** * The batches *)

Definition MAX_BATCH_SIZE : nat := 75.

Definition get_clients_hashset (input : list Identity) : gmap id_key Identity :=
  foldl (fun output i => hs_insert i output) ∅ input.

Fixpoint clients_to_register (all_clients : gmap id_key Identity) (waiting acc : list Identity) : list Identity :=
  match waiting with
  | [] => acc
  | client :: waiting =>
      if negb (hs_contains client all_clients) then
        let acc := acc ++ [client] in
        if (MAX_BATCH_SIZE <? length acc)%nat then acc else clients_to_register all_clients waiting acc
      else clients_to_register all_clients waiting acc
  end.

Inductive pass_result := QueueEmpty | ListFailed | AllRegistered | BatchRegistered (batch : list Identity) | BatchFailed.

Section pass.
Context `{C : Clarity} `{N : Num256} `{P : Profile}.
(** One pass of the loop of [register_client_batch_loop]; [waiting] is the queue in
    the order its set is walked, and [sent] the transactions sent, newest first. *)
Definition registration_pass (web3 : Web3) (waiting : list Identity) (st : RegState) (sent : list byte_list)
    : option (RegState * list byte_list * pass_result) :=
  match waiting with
  | [] => Some (st, sent, QueueEmpty)
  | _ =>
      match get_all_regsitered_clients web3 sent with
      | Panic => None
      | Fail sent _ => Some (st, sent, ListFailed)
      | Done sent all_clients =>
          let all_clients := get_clients_hashset all_clients in
          match clients_to_register all_clients waiting [] with
          | [] => Some (st, sent, AllRegistered)
          | batch =>
              match add_users_to_registered_list web3 batch true sent with
              | Panic => None
              | Fail sent _ => Some (st, sent, BatchFailed)
              | Done sent _ =>
                  Some (foldl (fun st c => remove_client_from_reg_queue c st) st batch, sent, BatchRegistered batch)
              end
          end
      end
  end.
End pass.

End RegistrationQueue.
Export RegistrationQueue.

(** * The contract behind the requests *)

(** What a call of the contract asks for, read from its data as the contract
    reads it. *)
Inductive Request := QueryUsers | QueryExits | QueryClient (key : Z) | Transact (t : Tx).

Section tokens.
Context `{C : Clarity}.
Definition user_token (i : SolIdentity) : AbiToken :=
  token_struct [token_uint (sol_mesh_ip i); token_uint (sol_wg_key i); token_address (sol_eth_addr i)].
Definition exit_token (e : SolExitIdentity) : AbiToken :=
  token_struct [token_uint (sol_mesh_ip (sol_exit e)); token_uint (sol_wg_key (sol_exit e));
    token_address (sol_eth_addr (sol_exit e)); token_uint (sol_registration_port e);
    token_uint (sol_wg_exit_listen_port e); token_of_vec (token_uint <$> sol_allowed_regions e);
    token_of_vec (token_uint <$> sol_payment_types e)].
End tokens.

(** The encoding of the calls the program makes is the one the contract reads. *)
Class AbiCalls `(C : Clarity) := { calldata : byte_list -> option Request }.
Class AbiCallsLaws `(A : AbiCalls) : Prop := {
  calldata_users : exists p, encode_call "getAllRegisteredUsers()" [] = inr p /\ calldata p = Some QueryUsers;
  calldata_exits : exists p, encode_call "getAllRegisteredExits()" [] = inr p /\ calldata p = Some QueryExits;
  calldata_client k : 0 <= k < 2 ^ 256 ->
    exists p, encode_call "getRegisteredClientWithWgKey(uint256)" [token_uint k] = inr p
              /\ calldata p = Some (QueryClient k);
  calldata_add_users l : Forall sol_ok l ->
    exists p, encode_call "addRegisteredUsersBulk((uint128,uint256,address)[])" [token_dynamic (user_token <$> l)] = inr p
              /\ calldata p = Some (Transact (AddUsers l));
  calldata_add_exits l : Forall sol_exit_ok l ->
    exists p, encode_call "addRegisteredExitsBulk((uint128,uint256,address,uint16,uint16,uint256[],uint256[])[])"
                [token_dynamic (exit_token <$> l)] = inr p
              /\ calldata p = Some (Transact (AddExits l));
}.

(** What becomes of a transaction: it is in a block before the wait ends, after
    it, never, or the node does not take it. *)
Inductive fate := Mined | Late | Dropped | Refused.
Definition executed (f : fate) : bool := match f with Mined | Late => true | _ => false end.

Section node.
Context `{A : AbiCalls}.
(** A node in front of the contract: queries are answered in the encoding of
    RegistrationAbi.v, and preparing a transaction estimates its gas, which fails
    for one that reverts.  Its queries never fail: a pass whose query fails ends
    before anything is sent. *)
Definition node (server : Z) (f : fate) (d : AltheaDB) : Web3 := {|
  simulate_transaction p :=
    match calldata p with
    | Some QueryUsers => inr (abi_users (getAllRegisteredUsers d))
    | Some QueryExits => inr (abi_exits (getAllRegisteredExits d))
    | Some (QueryClient k) => inr (abi_id (getRegisteredClientWithWgKey k d))
    | _ => inl (Web3Failure "execution reverted")
    end;
  prepare_transaction p :=
    match calldata p with
    | Some (Transact t) => if reverts server t d then Some (Web3Failure "execution reverted") else None
    | _ => Some (Web3Failure "execution reverted")
    end;
  send_prepared_transaction p := match f with Refused => inl (Web3Failure "not accepted") | _ => inr 0 end;
  wait_for_transaction _ := match f with Mined => None | _ => Some (Web3Failure "timeout") end;
|}.
(** The contract after the transactions that were sent. *)
Definition settle (server : Z) (f : fate) (sent : list byte_list) (d : AltheaDB) : AltheaDB :=
  if executed f
  then foldr (fun p d => match calldata p with Some (Transact t) => execute server t d | _ => d end) d sent
  else d.
End node.

(** * Text messages

    Text messages of the registration server (RegistrationQueue.v): how many are
    sent, and who gets into the queue of clients to register. *)

Section sms.
Context `{PN : PhoneNumbers} `{P : Profile}.

(** A request as it arrives, with what the service will answer. *)
Record request := { rq_service : sms_service; rq_magic : option PhoneNumber; rq_client : ExitClientIdentity }.
Definition rq_key (r : request) : Z := wg_public_key (ec_global (rq_client r)).

(** What is kept of a handled request: its key, the texts that were sent for it,
    and whether it ended the registration. *)
Record handled := { h_key : Z; h_texts : nat; h_ok : bool }.
Definition texts_in (srv : sms_service) (calls : list sms_call) : nat :=
  length (List.filter (fun c => match c with
                                | SendText n => match send_answer srv n with inr _ => true | inl _ => false end
                                | CheckCode _ _ => false
                                end) calls).
Definition is_ok (r : ExitSignupReturn) : bool := match r with RegistrationOk => true | _ => false end.
Definition handle_request (r : request) (st : RegState) : option (RegState * handled) :=
  '(st, calls, reply) ← handle_sms_registration (rq_service r) (rq_magic r) (rq_client r) st;
  Some (st, {| h_key := rq_key r; h_texts := texts_in (rq_service r) calls; h_ok := is_ok reply |}).

(** Requests one after the other; the newest of what is kept comes first. *)
Fixpoint handle_requests (rs : list request) (st : RegState) (log : list handled) : option (RegState * list handled) :=
  match rs with
  | [] => Some (st, log)
  | r :: rs => '(st, h) ← handle_request r st; handle_requests rs st (h :: log)
  end.

(** The texts sent for a key since it was last confirmed. *)
Fixpoint texts_since (k : Z) (log : list handled) : nat :=
  match log with
  | [] => 0
  | h :: log => if h_key h =? k then if h_ok h then 0%nat else (h_texts h + texts_since k log)%nat
                else texts_since k log
  end.

(** The counters say what was sent, and stay under the limit of the handler. *)
Definition counters_ok (st : RegState) (log : list handled) : Prop :=
  forall k, get_texts_sent k st = Z.of_nat (texts_since k log) /\ get_texts_sent k st <= 11.

(** Other keys are left alone. *)
Lemma counters_step st st' log h :
  counters_ok st log ->
  (forall k, k <> h_key h -> get_texts_sent k st' = get_texts_sent k st) ->
  get_texts_sent (h_key h) st' = (if h_ok h then 0 else Z.of_nat (h_texts h) + get_texts_sent (h_key h) st) ->
  get_texts_sent (h_key h) st' <= 11 -> counters_ok st' (h :: log).
Proof.
  intros Hc Hne Heq Hle k. destruct (Hc k) as [H1 H2]. cbn. destruct (Z.eqb_spec (h_key h) k) as [<-|Hk].
  - split; [|done]. rewrite Heq, H1. destruct (h_ok h); lia.
  - by rewrite Hne by congruence.
Qed.
Lemma counters_same st log h :
  counters_ok st log -> h_texts h = 0%nat -> h_ok h = false -> counters_ok st (h :: log).
Proof. intros Hc Ht Ho. apply (counters_step st); try done; rewrite ?Ho, ?Ht; [lia|apply Hc]. Qed.

Lemma return_api_error_not_ok e : is_ok (return_api_error e) = false.
Proof. by destruct e. Qed.

Lemma submit_counters srv magic c n code st log st' calls reply :
  counters_ok st log -> submit_code srv magic c n code st = (st', calls, reply) ->
  counters_ok st' ({| h_key := wg_public_key c; h_texts := texts_in srv calls; h_ok := is_ok reply |} :: log).
Proof.
  intros Hc. unfold submit_code. set (m := match magic with Some _ => _ | None => _ end).
  assert (Ht : texts_in srv (if m then [] else [CheckCode n code]) = 0%nat) by by destruct m.
  destruct (if m then inr true else check_sms_auth_result srv n code) as [e|[]]; intros [= <- <- <-].
  - apply counters_same; [done|done|]. apply return_api_error_not_ok.
  - apply (counters_step st); cbn; unfold get_texts_sent; cbn; [done| | |].
    + intros k Hk. by rewrite lookup_delete_ne by congruence.
    + by rewrite lookup_delete_eq.
    + rewrite lookup_delete_eq. cbn. lia.
  - by apply counters_same.
Qed.

Lemma handle_request_total r st log :
  counters_ok st log -> exists st' h, handle_request r st = Some (st', h) /\ counters_ok st' (h :: log).
Proof.
  intros Hc. unfold handle_request, handle_sms_registration.
  destruct (phone (reg_details (rq_client r))) as [txt|]; [|by eexists _, _; split; [done|by apply counters_same]].
  destruct (parse_phone txt) as [n|]; [|by eexists _, _; split; [done|by apply counters_same]].
  destruct (phone_code (reg_details (rq_client r))) as [code|].
  { destruct (submit_code _ _ _ n code st) as [[st' calls] reply] eqn:E.
    pose proof (submit_counters _ _ _ _ _ _ _ _ _ _ Hc E).
    destruct (10 <? _); (eexists _, _; split; [done|done]). }
  destruct (Z.ltb_spec 10 (get_texts_sent (wg_public_key (ec_global (rq_client r))) st)) as [|Hle];
    [by eexists _, _; split; [done|by apply counters_same]|].
  unfold start_sms_auth_flow. destruct (send_answer (rq_service r) n) as [e|status] eqn:Es.
  { eexists _, _; split; [done|]. apply counters_same; [done|cbn; unfold texts_in; cbn; by rewrite Es|done]. }
  unfold increment_texts_sent. set (k := wg_public_key (ec_global (rq_client r))) in *.
  assert (Hstep : counters_ok (set_texts (<[k := get_texts_sent k st + 1]> (texts_sent st)) st)
    ({| h_key := k; h_texts := texts_in (rq_service r) [SendText n]; h_ok := false |} :: log)).
  { apply (counters_step st); cbn; unfold get_texts_sent in *; cbn; [done| | |].
    - intros k' Hk. by rewrite lookup_insert_ne by congruence.
    - rewrite lookup_insert_eq. unfold texts_in. cbn. rewrite Es. cbn. lia.
    - rewrite lookup_insert_eq. cbn. lia. }
  unfold get_texts_sent in *. destruct (texts_sent st !! k) as [v|] eqn:Ek; cbn in *.
  - destruct (Hc k) as [Hv Hv']. unfold get_texts_sent in Hv. rewrite Ek in Hv. cbn in Hv.
    unfold u8_of. rewrite native_exact by (unfold U8_MAX; lia). cbn. by eexists _, _.
  - by eexists _, _.
Qed.

Lemma handle_requests_total rs st log :
  counters_ok st log -> exists st' log', handle_requests rs st log = Some (st', log') /\ counters_ok st' log'.
Proof.
  revert st log. induction rs as [|r rs IH]; intros st log Hc; [by eexists _, _|].
  destruct (handle_request_total r st log Hc) as (st1 & h & E & H1). cbn. rewrite E. cbn. by apply IH.
Qed.

(** Whatever requests a registration server handles, whatever the service
    answers, in any build: it does not panic, and for every key the counter is
    the number of texts sent since that key was last confirmed, at most eleven. *)
Theorem texts_limited rs :
  exists st log, handle_requests rs reg_init [] = Some (st, log)
    /\ forall k, get_texts_sent k st = Z.of_nat (texts_since k log) /\ (texts_since k log <= 11)%nat.
Proof.
  destruct (handle_requests_total rs reg_init []) as (st & log & E & Hc).
  { intros k. unfold get_texts_sent. cbn. rewrite lookup_empty. cbn. lia. }
  exists st, log. split; [done|]. intros k. destruct (Hc k). lia.
Qed.
End sms.
