(* ===== verification/RegistrationSpec.v ===== *)
(** What the registration server and the contract do together
    (RegistrationQueue.v, AltheaDB.v): the effect of one pass, which batches the
    contract takes, and how exits are published. *)
From S2P Require Import Prelude Types Text PeerMessage Forwarding Regions ExitManager ExitDatabase.
From S2P Require Import RegistrationDb AltheaDB RegistrationAbi RegistrationQueue.

(** * Clients as the contract stores them *)

Definition ip_value (ip : IpAddr) : Z := match ip with V4 a | V6 a => a end.
Definition is_v6 (c : Identity) : bool := match mesh_ip c with V6 _ => true | V4 _ => false end.
Definition sol_of (c : Identity) : SolIdentity := {|
  sol_mesh_ip := ip_value (mesh_ip c); sol_wg_key := wg_public_key c; sol_eth_addr := eth_address c |}.
(** The values of an identity fit their types. *)
Definition typed (c : Identity) : Prop := sol_ok (sol_of c).
(** The contract's values fit theirs, and its answers the parser's [usize]. *)
Definition db_ok (d : AltheaDB) : Prop :=
  Forall sol_ok (state_registeredUsers d) /\ Z.of_nat (length (state_registeredUsers d)) <= U64_MAX.

Lemma client_of_sol c : is_v6 c = true -> identity_key (client_of (sol_of c)) = identity_key c.
Proof. unfold is_v6, identity_key. cbn. by destruct (mesh_ip c). Qed.
Lemma sol_of_client i : sol_of (client_of i) = i.
Proof. by destruct i. Qed.

(** * The batch of a pass *)

Lemma hashset_keys (l : list Identity) (c : Identity) (m : gmap id_key Identity) :
  hs_contains c (foldl (fun output i => hs_insert i output) m l) = true
  <-> hs_contains c m = true \/ identity_key c ∈ identity_key <$> l.
Proof.
  revert m. induction l as [|i l IH]; intros m; cbn [foldl fmap list_fmap].
  - rewrite elem_of_nil. tauto.
  - rewrite IH, elem_of_cons. unfold hs_contains, hs_insert. rewrite !bool_decide_eq_true.
    change (key i) with (identity_key i). change (key c) with (identity_key c).
    destruct (m !! identity_key i) as [x|] eqn:E.
    + split; [tauto|]. intros [?|[->|?]]; [tauto| |tauto]. left. by rewrite E.
    + rewrite lookup_insert_is_Some. destruct (decide (identity_key i = identity_key c)); intuition congruence.
Qed.
(** Whether a client is among the registered users the parser returns. *)
Definition is_registered (d : AltheaDB) (c : Identity) : bool :=
  bool_decide (identity_key c ∈ identity_key <$> clients_of (state_registeredUsers d)).
Lemma hashset_contains d c :
  hs_contains c (get_clients_hashset (clients_of (state_registeredUsers d))) = is_registered d c.
Proof.
  apply eq_bool_prop_intro. rewrite !Is_true_true. unfold get_clients_hashset, is_registered.
  rewrite hashset_keys, bool_decide_eq_true. split; [|tauto].
  intros [H|H]; [|done]. unfold hs_contains in H. rewrite lookup_empty in H. by apply bool_decide_eq_true in H as [].
Qed.

(** The first 76 of the queue that are not registered. *)
Definition unregistered (d : AltheaDB) (waiting : list Identity) : list Identity :=
  List.filter (fun c => negb (is_registered d c)) waiting.
Definition batch_of (d : AltheaDB) (waiting : list Identity) : list Identity :=
  take (S MAX_BATCH_SIZE) (unregistered d waiting).

Lemma clients_to_register_spec d waiting acc :
  (length acc <= MAX_BATCH_SIZE)%nat ->
  clients_to_register (get_clients_hashset (clients_of (state_registeredUsers d))) waiting acc
  = acc ++ take (S MAX_BATCH_SIZE - length acc) (unregistered d waiting).
Proof.
  revert acc. induction waiting as [|c waiting IH]; intros acc Hacc; cbn [clients_to_register unregistered List.filter].
  - by rewrite take_nil, app_nil_r.
  - rewrite hashset_contains. destruct (is_registered d c); cbn [negb]; [by apply IH|].
    rewrite length_app. cbn [length]. destruct (Nat.ltb_spec MAX_BATCH_SIZE (length acc + 1)).
    + by replace (S MAX_BATCH_SIZE - length acc)%nat with 1%nat by lia.
    + rewrite IH by (rewrite length_app; cbn; lia). rewrite length_app. cbn [length].
      replace (S MAX_BATCH_SIZE - length acc)%nat with (S (S MAX_BATCH_SIZE - (length acc + 1))) by lia.
      cbn [take]. by rewrite <- app_assoc.
Qed.

(** * Encoding the batch *)

Section encode.
Context `{C : Clarity}.
Lemma encode_clients_v6 l :
  forallb is_v6 l = true -> encode_clients l = inr (user_token <$> (sol_of <$> l)).
Proof.
  induction l as [|c l IH]; [done|]. cbn [forallb encode_clients fmap list_fmap]. intros [Hc Hl]%andb_true_iff.
  unfold is_v6 in Hc. unfold user_token at 1, sol_of at 1. cbn. destruct (mesh_ip c); [done|].
  by rewrite IH.
Qed.
Lemma encode_clients_v4 l : forallb is_v6 l = false -> encode_clients l = inl BadInput.
Proof.
  induction l as [|c l IH]; [done|]. cbn [forallb encode_clients]. unfold is_v6 at 1.
  destruct (mesh_ip c); [done|]. cbn [andb]. intros Hl. by rewrite IH.
Qed.
End encode.

(** * One pass *)

(** The server and the contract. *)
Record world := { w_reg : RegState; w_db : AltheaDB }.
Abbreviation queue w := (register_queue (w_reg w)).

Section world.
Context `{C : Clarity} `{CL : !ClarityLaws C} `{A : !AbiCalls C} `{AL : !AbiCallsLaws A}.
Context `{N : Num256} `{NL : !Num256Laws N} `{P : Profile} (server : Z).

Definition world_pass (f : fate) (waiting : list Identity) (w : world) : option (world * pass_result) :=
  '(st, sent, r) ← registration_pass (node server f (w_db w)) waiting (w_reg w) [];
  Some ({| w_reg := st; w_db := settle server f sent (w_db w) |}, r).

(** What a pass means to do: register the batch when the contract takes it. *)
Definition accepts (d : AltheaDB) (batch : list Identity) : bool :=
  forallb is_v6 batch && negb (reverts server (AddUsers (sol_of <$> batch)) d).
Definition pass_effect (f : fate) (waiting : list Identity) (w : world) : world :=
  let batch := batch_of (w_db w) waiting in
  if bool_decide (batch = []) || negb (accepts (w_db w) batch) then w
  else {| w_reg := match f with
                   | Mined => foldl (fun st c => remove_client_from_reg_queue c st) (w_reg w) batch
                   | _ => w_reg w
                   end;
          w_db := if executed f then execute server (AddUsers (sol_of <$> batch)) (w_db w) else w_db w |}.

Lemma list_registered f d s : db_ok d ->
  get_all_regsitered_clients (node server f d) s = Done s (clients_of (state_registeredUsers d)).
Proof.
  intros [Hd Hn]. unfold get_all_regsitered_clients, bind, try_sum. destruct calldata_users as (p & -> & Hp).
  cbn. rewrite Hp. by apply registry_read.
Qed.

Lemma add_users_node f d l s : Forall typed l ->
  exists p, calldata p = Some (Transact (AddUsers (sol_of <$> l)))
  /\ add_users_to_registered_list (node server f d) l true s
     = if accepts d l then
         match f with
         | Mined => Done (p :: s) 0
         | Late | Dropped => Fail (p :: s) (Web3Failure "timeout")
         | Refused => Fail s (Web3Failure "not accepted")
         end
       else Fail s (if forallb is_v6 l then Web3Failure "execution reverted" else BadInput).
Proof.
  intros Hl. destruct (calldata_add_users (sol_of <$> l)) as (p & Hp & Hc); [by apply Forall_fmap|].
  exists p. split; [done|]. unfold add_users_to_registered_list, accepts, bind.
  destruct (forallb is_v6 l) eqn:E; cbn [andb].
  - rewrite encode_clients_v6 by done. cbn [try_sum ret]. unfold send_call, bind. rewrite Hp. cbn. rewrite Hc.
    destruct (reverts server _ d); cbn; [done|]. by destruct f.
  - by rewrite encode_clients_v4.
Qed.

Lemma pass_refines_exact f waiting w :
  db_ok (w_db w) -> Forall typed waiting ->
  exists r, world_pass f waiting w = Some (pass_effect f waiting w, r).
Proof.
  intros Hd Hw. unfold world_pass, registration_pass, pass_effect. destruct waiting as [|c0 waiting].
  { eexists. destruct w. cbn. by destruct f. }
  set (l := c0 :: waiting) in *. rewrite list_registered by done.
  rewrite clients_to_register_spec by (cbn; lia). cbn [app length]. rewrite Nat.sub_0_r. fold (batch_of (w_db w) l).
  assert (Hb : Forall typed (batch_of (w_db w) l)).
  { apply Forall_take. rewrite Forall_forall in *. intros x Hx. apply Hw. unfold unregistered in Hx.
    apply list_elem_of_In, filter_In in Hx as [Hx _]. by apply list_elem_of_In. }
  destruct (batch_of (w_db w) l) as [|b batch]; [by eexists; destruct w; destruct f|].
  rewrite bool_decide_eq_false_2 by done. cbn [orb].
  destruct (add_users_node f (w_db w) (b :: batch) [] Hb) as (p & Hp & ->).
  destruct (accepts (w_db w) (b :: batch)); cbn [negb]; [|by eexists; destruct w; destruct f].
  destruct f; eexists; cbn [mbind option_bind]; unfold settle; cbn [executed foldr]; rewrite ?Hp; by destruct w.
Qed.
End world.

(** * What the contract takes *)

Lemma mark_admin s e l d : isUserAdmin s (set_users l (mark e d)) = isUserAdmin s d.
Proof. done. Qed.

(** A mark stays while users are added. *)
Lemma duplicates_grow e x d l :
  checkForAnyDuplicates x d = true -> checkForAnyDuplicates x (set_users l (mark e d)) = true.
Proof.
  unfold checkForAnyDuplicates. cbn. rewrite !orb_true_iff, !bool_decide_eq_true. set_solver.
Qed.

Lemma add_user_done s e d d' u :
  addRegisteredUser s e d = Done d' u ->
  isUserAdmin s d = true /\ checkForAnyDuplicates e d = false
  /\ d' = set_users (state_registeredUsers d ++ [e]) (mark e d).
Proof. unfold addRegisteredUser. intros H. run_monad. done. Qed.

(** One user that shares a mesh address, a key or an eth address with a
    registered one makes the whole transaction revert. *)
Lemma bulk_reverts s l x d :
  x ∈ l -> checkForAnyDuplicates x d = true -> reverts s (AddUsers l) d = true.
Proof.
  intros Hx Hd. unfold reverts. destruct (run_tx s (AddUsers l) d) as [d' u| |] eqn:E; [|done..]. exfalso.
  revert d d' u Hx Hd E. cbn. unfold addRegisteredUsersBulk.
  induction l as [|e l IH]; intros d d' u; [by intros ?%elem_of_nil|].
  intros Hx Hd (d1 & u1 & H1 & H2)%bind_done. apply add_user_done in H1 as (_ & Hn & ->).
  apply elem_of_cons in Hx as [->|Hx]; [congruence|].
  eapply IH; [done| |exact H2]. by apply duplicates_grow.
Qed.

(** The users of a batch that the contract can take: none overlaps with another
    or with a registered user or exit. *)
Definition fresh_in (f : SolIdentity -> Z) (s : gset Z) (l : list SolIdentity) : Prop :=
  NoDup (f <$> l) /\ Forall (fun e => f e ∉ s) l.
Definition disjoint_users (d : AltheaDB) (l : list SolIdentity) : Prop :=
  fresh_in sol_mesh_ip (state_registeredIps d) l /\ fresh_in sol_wg_key (state_registeredKey d) l
  /\ fresh_in sol_eth_addr (state_registeredAddr d) l.

#[export] Instance fresh_in_proper f s : Proper ((≡ₚ) ==> iff) (fresh_in f s).
Proof.
  intros l l' Hl. unfold fresh_in. assert (Hf : f <$> l ≡ₚ f <$> l') by by apply fmap_Permutation.
  by rewrite Hf, Hl.
Qed.
#[export] Instance disjoint_users_proper d : Proper ((≡ₚ) ==> iff) (disjoint_users d).
Proof. intros l l' Hl. unfold disjoint_users. by rewrite Hl. Qed.

Lemma fresh_in_cons f s e l : fresh_in f s (e :: l) -> (f e ∉ s) /\ fresh_in f ({[f e]} ∪ s) l.
Proof.
  intros [Hn Hs]. rewrite fmap_cons in Hn. apply NoDup_cons in Hn as [He Hn]. apply Forall_cons in Hs as [Hse Hs].
  split; [done|]. split; [done|]. rewrite Forall_forall in *. intros x Hx. specialize (Hs x Hx).
  rewrite elem_of_union, elem_of_singleton. intros [H|H]; [|done]. apply He. rewrite <- H.
  by apply list_elem_of_fmap_2.
Qed.
Lemma fresh_in_split f s l l' :
  fresh_in f s (l ++ l') -> fresh_in f s l /\ fresh_in f (list_to_set (f <$> l) ∪ s) l'.
Proof.
  revert s. induction l as [|e l IH]; intros s H; cbn.
  - split; [split; constructor|]. by rewrite (left_id_L ∅ (∪)).
  - pose proof H as [Hn Hs]. cbn in Hn. apply NoDup_cons in Hn as [He _]. apply Forall_cons in Hs as [Hs _].
    apply fresh_in_cons in H as [_ H]. apply IH in H as [[Hn1 Hs1] H2]. split.
    + split.
      * rewrite fmap_cons. apply NoDup_cons. split; [|done]. intros Hin. apply He. rewrite fmap_app. set_solver.
      * constructor; [done|]. eapply Forall_impl; [exact Hs1|]. set_solver.
    + by replace ({[f e]} ∪ list_to_set (f <$> l) ∪ s) with (list_to_set (f <$> l) ∪ ({[f e]} ∪ s) : gset Z) by set_solver.
Qed.

(** A list of users registered one after the other. *)
Definition registered_all (d : AltheaDB) (l : list SolIdentity) (d' : AltheaDB) : Prop :=
  state_registeredUsers d' = state_registeredUsers d ++ l
  /\ state_registeredExits d' = state_registeredExits d
  /\ state_UserAdmins d' = state_UserAdmins d /\ state_ExitAdmins d' = state_ExitAdmins d
  /\ state_registeredIps d' = list_to_set (sol_mesh_ip <$> l) ∪ state_registeredIps d
  /\ state_registeredKey d' = list_to_set (sol_wg_key <$> l) ∪ state_registeredKey d
  /\ state_registeredAddr d' = list_to_set (sol_eth_addr <$> l) ∪ state_registeredAddr d.

Lemma bulk_accepts s l d :
  isUserAdmin s d = true -> disjoint_users d l ->
  exists d', run_tx s (AddUsers l) d = Done d' tt /\ registered_all d l d'.
Proof.
  cbn. unfold addRegisteredUsersBulk. revert d. induction l as [|e l IH]; intros d Hs (Hi & Hk & Ha).
  { exists d. split; [done|]. unfold registered_all. cbn. rewrite app_nil_r, !(left_id_L ∅ (∪)). done. }
  apply fresh_in_cons in Hi as [Hi0 Hi], Hk as [Hk0 Hk], Ha as [Ha0 Ha].
  set (d1 := set_users (state_registeredUsers d ++ [e]) (mark e d)).
  destruct (IH d1) as (d' & Hd' & (H1 & H2 & H3 & H4 & H5 & H6 & H7)); [done|by split_and!|].
  exists d'. cbn [bulk]. unfold bind. split.
  - unfold addRegisteredUser at 1, bind, get_st. rewrite Hs.
    assert (Hc : checkForAnyDuplicates e d = false).
    { unfold checkForAnyDuplicates. by rewrite !orb_false_iff, !bool_decide_eq_false. }
    rewrite Hc. exact Hd'.
  - unfold registered_all. rewrite H1, H2, H3, H4, H5, H6, H7. cbn. rewrite <- app_assoc.
    split_and!; try done; set_solver.
Qed.
