(* ===== verification/RegistrationSafety.v ===== *)
(** The properties of registration: the effect of a pass, the queue that empties
    and the one that is stuck, who gets registered, and the exits that are
    published. *)
From S2P Require Import Prelude Types Text PeerMessage Forwarding Regions ExitManager ExitDatabase.
From S2P Require Import RegistrationDb AltheaDB RegistrationAbi RegistrationQueue.
From S2P Require Import RegistrationSpec.

Section passes.
Context `{C : Clarity} `{CL : !ClarityLaws C} `{A : !AbiCalls C} `{AL : !AbiCallsLaws A}.
Context `{N : Num256} `{NL : !Num256Laws N} `{P : Profile} (server : Z).

(** C19 A pass of the registration server against the contract takes the first 76
    clients of the queue that are not registered.  When the contract takes them
    they are registered, and leave the queue if the transaction was seen in a
    block in time; in every other case, and for a transaction that does not
    arrive, nothing changes.  The pass never panics.  The node answers the query
    for the registered clients. *)
Theorem pass_refines f waiting w :
  db_ok (w_db w) -> Forall typed waiting ->
  exists r, world_pass server f waiting w = Some (pass_effect server f waiting w, r).
Proof. apply pass_refines_exact. Qed.

(** * A stuck queue *)

Lemma elem_of_unregistered d x waiting :
  x ∈ unregistered d waiting <-> x ∈ waiting /\ is_registered d x = false.
Proof.
  unfold unregistered. rewrite list_elem_of_In, filter_In, list_elem_of_In, negb_true_iff. done.
Qed.

Lemma refused_batch d l x :
  x ∈ l -> is_v6 x = false \/ checkForAnyDuplicates (sol_of x) d = true -> accepts server d l = false.
Proof.
  intros Hx Hbad. unfold accepts. destruct (forallb is_v6 l) eqn:E; [|done]. cbn [andb].
  rewrite forallb_forall in E. destruct Hbad as [Hv|Hd].
  - rewrite E in Hv by by apply list_elem_of_In. done.
  - erewrite bulk_reverts; [done| |exact Hd]. by apply list_elem_of_fmap_2.
Qed.

(** C23 One client in the queue that the registry does not hold but that shares
    its mesh address, key or eth address with a registered user or exit, or that
    has an IPv4 mesh address, stops registration: as long as at most 76 clients
    are left to register, no pass changes anything, whatever becomes of its
    transaction. *)
Theorem poisoned_queue f waiting w x :
  db_ok (w_db w) -> Forall typed waiting ->
  x ∈ waiting -> is_registered (w_db w) x = false ->
  is_v6 x = false \/ checkForAnyDuplicates (sol_of x) (w_db w) = true ->
  (length (unregistered (w_db w) waiting) <= 76)%nat ->
  exists r, world_pass server f waiting w = Some (w, r).
Proof.
  intros Hd Ht Hx Hr Hbad Hlen. destruct (pass_refines_exact server f waiting w Hd Ht) as [r Hr'].
  exists r. rewrite Hr'. unfold pass_effect, batch_of. rewrite take_ge by (unfold MAX_BATCH_SIZE; lia).
  rewrite (refused_batch _ _ x); [by rewrite orb_true_r|by apply elem_of_unregistered|done].
Qed.

(** * A queue that empties *)

(** Removing clients from the queue. *)
Lemma register_queue_removed l st :
  register_queue (foldl (fun st c => remove_client_from_reg_queue c st) st l)
  = foldl (fun q c => hs_remove c q) (register_queue st) l.
Proof. revert st. induction l as [|c l IH]; intros st; [done|]. cbn. by rewrite IH. Qed.

Lemma remove_elements (l rest : list Identity) (q : gmap id_key Identity) :
  hs_wf q -> hs_elements q ≡ₚ l ++ rest ->
  hs_wf (foldl (fun q c => hs_remove c q) q l) /\ hs_elements (foldl (fun q c => hs_remove c q) q l) ≡ₚ rest.
Proof.
  revert q. induction l as [|c l IH]; intros q Hq Hp; [done|]. cbn [foldl]. apply IH; [by apply hs_wf_remove|].
  assert (Hc : q !! key c = Some c).
  { apply elem_of_hs_elements; [done|]. rewrite Hp. by left. }
  assert (Hd : hs_elements q ≡ₚ c :: hs_elements (hs_remove c q)).
  { unfold hs_elements, hs_remove. rewrite <- (map_to_list_delete q (key c) c Hc). done. }
  rewrite Hd in Hp. cbn in Hp. by apply Permutation_cons_inv in Hp.
Qed.

(** A server that may register users, and a queue the contract can take. *)
Record ready (w : world) : Prop := {
  ready_queue : hs_wf (queue w);
  ready_typed : Forall (fun c => typed c /\ is_v6 c = true /\ ip_value (mesh_ip c) <> 0) (hs_elements (queue w));
  ready_disjoint : disjoint_users (w_db w) (sol_of <$> hs_elements (queue w));
  ready_admin : isUserAdmin server (w_db w) = true;
  ready_db : db_wf (w_db w);
  ready_users : Forall sol_ok (state_registeredUsers (w_db w));
  ready_room : Z.of_nat (length (state_registeredUsers (w_db w)) + length (hs_elements (queue w))) <= U64_MAX;
}.

Lemma is_registered_in d c :
  is_registered d c = true -> is_v6 c = true -> sol_of c ∈ state_registeredUsers d.
Proof.
  unfold is_registered. intros H Hv. apply bool_decide_eq_true in H.
  apply list_elem_of_fmap in H as (i & Hi & Hin). unfold clients_of in Hin.
  apply list_elem_of_fmap in Hin as (u & -> & Hu). apply list_elem_of_In, filter_In in Hu as [Hu _].
  apply list_elem_of_In in Hu. replace (sol_of c) with u; [done|].
  destruct c as [[a|a] ? ? ?]; [done|]. unfold identity_key in Hi. cbn in Hi. destruct u. cbn in *. by injection Hi as -> -> ->.
Qed.

(** No client of a ready queue is registered. *)
Lemma ready_unregistered w waiting :
  ready w -> waiting ≡ₚ hs_elements (queue w) -> unregistered (w_db w) waiting = waiting.
Proof.
  intros [Hq Ht Hd _ Hb _ _] Hp. unfold unregistered. rewrite <- Hp in Ht, Hd. destruct Hd as ((_ & Hi) & _).
  destruct Hb as [[_ Hm] _ _ _ _]. clear Hp. induction waiting as [|c l IH]; [done|]. cbn [List.filter].
  apply Forall_cons in Ht as [(_ & Hv & _) Ht]. cbn in Hi. apply Forall_cons in Hi as [Hc Hi].
  destruct (is_registered (w_db w) c) eqn:E; cbn [negb]; [|by rewrite IH].
  exfalso. apply Hc, Hm. apply list_elem_of_fmap_2. unfold registered. apply elem_of_app. left. by apply is_registered_in.
Qed.

(** The contract takes a part of a ready queue, and what is left stays apart from
    what it then holds. *)
Lemma ready_batch w b rest :
  ready w -> hs_elements (queue w) ≡ₚ b ++ rest ->
  exists d', run_tx server (AddUsers (sol_of <$> b)) (w_db w) = Done d' tt
    /\ registered_all (w_db w) (sol_of <$> b) d' /\ disjoint_users d' (sol_of <$> rest)
    /\ accepts server (w_db w) b = true.
Proof.
  intros [Hq Ht Hd Ha Hb Hus Hroom] Hsplit. rewrite Hsplit, fmap_app in Hd. destruct Hd as (D1 & D2 & D3).
  apply fresh_in_split in D1 as [D1 E1], D2 as [D2 E2], D3 as [D3 E3].
  destruct (bulk_accepts server (sol_of <$> b) (w_db w) Ha) as (d' & Hd' & R); [by split_and!|].
  exists d'. split_and!; [done|done| |].
  - destruct R as (_ & _ & _ & _ & R5 & R6 & R7). unfold disjoint_users. rewrite R5, R6, R7. by split_and!.
  - unfold accepts, reverts. rewrite Hd'. cbn [negb]. rewrite andb_true_r. apply forallb_forall. intros c Hc.
    apply list_elem_of_In in Hc. rewrite Hsplit, Forall_app in Ht. destruct Ht as [Ht _].
    rewrite Forall_forall in Ht. by destruct (Ht c Hc) as (_ & ? & _).
Qed.

Lemma ready_pass w waiting :
  ready w -> waiting ≡ₚ hs_elements (queue w) ->
  exists w' r, world_pass server Mined waiting w = Some (w', r) /\ ready w'
    /\ hs_elements (queue w') ≡ₚ drop 76 waiting
    /\ state_registeredUsers (w_db w') = state_registeredUsers (w_db w) ++ (sol_of <$> take 76 waiting).
Proof.
  intros Hr Hp. pose proof (ready_unregistered w waiting Hr Hp) as Hu. pose proof Hr as [Hq Ht _ Ha Hb Hus Hroom].
  destruct (pass_refines_exact server Mined waiting w) as [r Hw].
  { split; [done|lia]. } { rewrite Hp. eapply Forall_impl; [exact Ht|]. by intros c [? _]. }
  set (b := take 76 waiting) in *. set (rest := drop 76 waiting).
  assert (Hsplit : hs_elements (queue w) ≡ₚ b ++ rest) by (by rewrite <- Hp; unfold b, rest; rewrite take_drop).
  destruct (ready_batch w b rest Hr Hsplit) as (d' & Hd' & R & Hdis & Hacc).
  rewrite Hsplit in Ht. apply Forall_app in Ht as [Tb Tr].
  assert (Heff : pass_effect server Mined waiting w
    = if bool_decide (b = []) then w
      else {| w_reg := foldl (fun st c => remove_client_from_reg_queue c st) (w_reg w) b; w_db := d' |}).
  { unfold pass_effect, batch_of. rewrite Hu. change (take (S MAX_BATCH_SIZE) waiting) with b.
    rewrite Hacc, orb_false_r. cbn [executed]. unfold execute. by rewrite Hd'. }
  case_bool_decide as Hbe.
  { exists w, r. rewrite Hw, Heff. split_and!; [done|done| |by rewrite Hbe, app_nil_r].
    assert (waiting = []) as E by (unfold b in Hbe; by destruct waiting). unfold rest. by rewrite <- Hp, E. }
  destruct (remove_elements b rest (queue w) Hq Hsplit) as [Hq' Hel].
  eexists _, r. rewrite Hw, Heff. split; [done|]. destruct R as (R1 & R2 & R3 & R4 & _).
  cbn [w_reg w_db]. rewrite register_queue_removed. split; [|by split].
  constructor; cbn [w_reg w_db]; rewrite ?register_queue_removed, ?Hel; try done.
  - unfold isUserAdmin. by rewrite R3.
  - eapply run_tx_keeps; [exact Hb|exact Hd'].
  - rewrite R1. apply Forall_app. split; [done|]. apply Forall_fmap. eapply Forall_impl; [exact Tb|]. by intros c [? _].
  - rewrite R1, length_app, length_fmap. rewrite Hsplit, length_app in Hroom. lia.
Qed.

(** Passes one after the other, each with its own order of the queue. *)
Abbreviation walk := (gmap id_key Identity -> list Identity).
Definition walks (o : walk) : Prop := forall q, o q ≡ₚ hs_elements q.
Fixpoint passes (orders : list walk) (w : world) : option world :=
  match orders with
  | [] => Some w
  | o :: orders => '(w, _) ← world_pass server Mined (o (queue w)) w; passes orders w
  end.

Lemma passes_ready orders w :
  ready w -> Forall walks orders ->
  exists w', passes orders w = Some w' /\ ready w'
    /\ length (hs_elements (queue w')) = (length (hs_elements (queue w)) - 76 * length orders)%nat
    /\ (forall c, c ∈ hs_elements (queue w) ->
          c ∈ hs_elements (queue w') \/ sol_of c ∈ state_registeredUsers (w_db w'))
    /\ (forall u, u ∈ state_registeredUsers (w_db w) -> u ∈ state_registeredUsers (w_db w')).
Proof.
  intros Hr Ho. revert w Hr. induction Ho as [|o orders Ho _ IH]; intros w Hr.
  { exists w. split_and!; [done|done|cbn; lia|by left|done]. }
  destruct (ready_pass w (o (queue w)) Hr (Ho _)) as (w1 & r & E & Hr1 & He1 & Hu1).
  destruct (IH w1 Hr1) as (w' & Ew & Hr' & Hlen & Hin & Hus). exists w'. cbn [passes]. rewrite E. cbn.
  split_and!; [done|done| | |].
  - rewrite Hlen, He1, length_drop, (Ho (queue w)). lia.
  - intros c Hc. rewrite <- (Ho (queue w)), <- (take_drop 76 (o (queue w))), elem_of_app in Hc. destruct Hc as [Hc|Hc].
    + right. apply Hus. rewrite Hu1. apply elem_of_app. right. by apply list_elem_of_fmap_2.
    + apply Hin. by rewrite He1.
  - intros u Hu. apply Hus. rewrite Hu1. apply elem_of_app. by left.
Qed.

Lemma registered_seen d c :
  sol_of c ∈ state_registeredUsers d -> is_v6 c = true -> ip_value (mesh_ip c) <> 0 -> is_registered d c = true.
Proof.
  intros Hc Hv Hz. unfold is_registered. apply bool_decide_eq_true. rewrite <- (client_of_sol c Hv).
  apply list_elem_of_fmap_2. unfold clients_of. apply list_elem_of_fmap_2.
  apply list_elem_of_In, filter_In. split; [by apply list_elem_of_In|].
  unfold visible. apply negb_true_iff, Z.eqb_neq. done.
Qed.

(** C22 When no two clients of the queue overlap with each other or with anyone
    registered, and the transactions arrive, the queue empties at 76 clients a
    pass whatever order it is walked in, and every client is registered: once
    there were enough passes the queue is empty and the contract lists them
    all. *)
Theorem queue_drains orders w :
  ready w -> Forall walks orders ->
  exists w', passes orders w = Some w'
    /\ length (hs_elements (queue w')) = (length (hs_elements (queue w)) - 76 * length orders)%nat
    /\ ((length (hs_elements (queue w)) <= 76 * length orders)%nat ->
        hs_elements (queue w') = []
        /\ forall c, c ∈ hs_elements (queue w) -> is_registered (w_db w') c = true).
Proof.
  intros Hr Ho. destruct (passes_ready orders w Hr Ho) as (w' & E & _ & Hlen & Hin & _).
  exists w'. split_and!; [done|done|]. intros Hle.
  assert (He : hs_elements (queue w') = []) by (apply nil_length_inv; lia). split; [done|].
  intros c Hc. destruct (Hin c Hc) as [H|H]; [rewrite He in H; by apply elem_of_nil in H|].
  pose proof (ready_typed w Hr) as Ht. rewrite Forall_forall in Ht. destruct (Ht c Hc) as (_ & Hv & Hz).
  by apply registered_seen.
Qed.
End passes.
