(* ===== verification/RegistrationTrust.v ===== *)
(** Who gets registered: over any sequence of requests, passes and transactions
    of others, the server registers only clients whose phone number was
    confirmed; and an exit that is published is read back as it was sent. *)
From S2P Require Import Prelude Types Text PeerMessage Forwarding Regions ExitManager ExitDatabase.
From S2P Require Import RegistrationDb AltheaDB RegistrationAbi RegistrationQueue.
From S2P Require Import RegistrationSpec RegistrationSafety.

(** * The users after a transaction *)

Definition added_users (t : Tx) : list SolIdentity := match t with AddUsers l => l | _ => [] end.

Lemma bulk_users {B} (f : B -> M AltheaDB db_error unit) (g : B -> list SolIdentity) l :
  (forall a d d' u x, f a d = Done d' u -> x ∈ state_registeredUsers d' -> x ∈ state_registeredUsers d \/ x ∈ g a) ->
  forall d d' u x, bulk f l d = Done d' u -> x ∈ state_registeredUsers d' ->
    x ∈ state_registeredUsers d \/ x ∈ (l ≫= g).
Proof.
  intros Hf. induction l as [|a l IH]; intros d d' u x; cbn [bulk].
  - intros [= <- _]. auto.
  - intros (d1 & u1 & H1 & H2)%bind_done Hx. rewrite bind_cons, elem_of_app.
    destruct (IH _ _ _ _ H2 Hx) as [H|H]; [|auto]. destruct (Hf _ _ _ _ _ H1 H); auto.
Qed.

Lemma remove_user_users s e d d' u x :
  removeRegisteredUser s e d = Done d' u -> x ∈ state_registeredUsers d' -> x ∈ state_registeredUsers d.
Proof.
  unfold removeRegisteredUser. intros H. run_monad.
  match goal with H : index_of _ _ = Some _ |- _ => apply delete_found in H as (y & l' & Hdel & Hperm & _) end.
  simplify_eq. rewrite Hperm. by right.
Qed.

(** Calls that add no user, in bulk. *)
Lemma bulk_adds_none {B} (f : B -> M AltheaDB db_error unit) l :
  (forall a d d' u x, f a d = Done d' u -> x ∈ state_registeredUsers d' -> x ∈ state_registeredUsers d) ->
  forall d d' u x, bulk f l d = Done d' u -> x ∈ state_registeredUsers d' -> x ∈ state_registeredUsers d.
Proof.
  intros Hf d d' u x E Hx. destruct (bulk_users f (fun _ => []) l) with d d' u x as [H|H]; eauto.
  apply list_elem_of_bind in H as (? & H & _). by apply elem_of_nil in H.
Qed.
Lemma exit_calls_users s e d d' u x :
  addRegisteredExit s e d = Done d' u \/ removeRegisteredExit s e d = Done d' u ->
  x ∈ state_registeredUsers d' -> x ∈ state_registeredUsers d.
Proof. unfold addRegisteredExit, removeRegisteredExit. by intros [E|E]; run_monad. Qed.

Lemma run_tx_users s t d d' u x :
  run_tx s t d = Done d' u -> x ∈ state_registeredUsers d' -> x ∈ state_registeredUsers d \/ x ∈ added_users t.
Proof.
  destruct t; cbn; intros E Hx;
    try (unfold addUserAdmin, removeUserAdmin, addExitAdmin, removeExitAdmin in E; run_monad; by auto).
  - replace l with (l ≫= fun e => [e]) by (clear; induction l; cbn; congruence).
    eapply bulk_users; [|exact E|exact Hx]. clear. intros e d d' u x (_ & _ & ->)%add_user_done. cbn. set_solver.
  - left. eapply bulk_adds_none; [|exact E|exact Hx]. eauto using remove_user_users.
  - left. eapply bulk_adds_none; [|exact E|exact Hx]. eauto using exit_calls_users.
  - left. eapply bulk_adds_none; [|exact E|exact Hx]. eauto using exit_calls_users.
Qed.
Lemma execute_users s t d x :
  x ∈ state_registeredUsers (execute s t d) -> x ∈ state_registeredUsers d \/ x ∈ added_users t.
Proof. unfold execute. destruct (run_tx s t d) eqn:E; [by eapply run_tx_users|auto..]. Qed.

(** * Sequences of events *)

Section trust.
Context `{C : Clarity} `{CL : !ClarityLaws C} `{A : !AbiCalls C} `{AL : !AbiCallsLaws A}.
Context `{N : Num256} `{P : Profile} `{PN : PhoneNumbers} (server : Z).

(** A request, a pass with the order its queue is walked in, and a transaction
    of someone. *)
Inductive event :=
| Asked (r : request)
| Passed (f : fate) (o : gmap id_key Identity -> list Identity)
| Other (sender : Z) (t : Tx).
Definition event_ok (e : event) : Prop :=
  match e with
  | Asked r => typed (ec_global (rq_client r))
  | Passed _ o => walks o
  | Other _ _ => True
  end.

Definition happen (e : event) (w : world) : option world :=
  match e with
  | Asked r =>
      '(st, _, _) ← handle_sms_registration (rq_service r) (rq_magic r) (rq_client r) (w_reg w);
      Some {| w_reg := st; w_db := w_db w |}
  | Passed f o => '(w, _) ← world_pass server f (o (queue w)) w; Some w
  | Other s t => Some {| w_reg := w_reg w; w_db := execute s t (w_db w) |}
  end.
Fixpoint happen_all (es : list event) (w : world) : option world :=
  match es with [] => Some w | e :: es => w ← happen e w; happen_all es w end.

(** The request confirms its client: it has a code for a number that is the magic
    number, or the service accepts the code. *)
Definition confirms (r : request) : Prop :=
  exists txt n code, phone (reg_details (rq_client r)) = Some txt /\ parse_phone txt = Some n
    /\ phone_code (reg_details (rq_client r)) = Some code
    /\ ((exists m, rq_magic r = Some m /\ phone_eqb m n = true)
        \/ exists status, verify_answer (rq_service r) n code = inr status /\ is_success status = true).
Definition confirmed (es : list event) (c : Identity) : Prop :=
  exists r, Asked r ∈ es /\ ec_global (rq_client r) = c /\ confirms r.

(** The clients of the queue were confirmed, and the users of the contract were
    there before, added by others, or confirmed. *)
Record trusted (es : list event) (d0 : AltheaDB) (w : world) : Prop := {
  t_queue : hs_wf (queue w);
  t_confirmed : forall k c, queue w !! k = Some c -> confirmed es c /\ typed c;
  t_users : forall u, u ∈ state_registeredUsers (w_db w) ->
    u ∈ state_registeredUsers d0 \/ (exists s t, Other s t ∈ es /\ u ∈ added_users t)
    \/ exists c, confirmed es c /\ sol_of c = u;
}.

Lemma submit_queue srv magic c n code st st' calls reply :
  submit_code srv magic c n code st = (st', calls, reply) ->
  register_queue st' = register_queue st
  \/ (register_queue st' = hs_insert c (register_queue st)
      /\ ((exists m, magic = Some m /\ phone_eqb m n = true)
          \/ exists status, verify_answer srv n code = inr status /\ is_success status = true)).
Proof.
  unfold submit_code, check_sms_auth_result. destruct magic as [m|]; [destruct (phone_eqb m n) eqn:Em|];
    try (destruct (verify_answer srv n code) as [e|status] eqn:Ev; [|destruct (is_success status) eqn:Es]);
    intros [= <- <- <-]; cbn; eauto 10.
Qed.
Lemma handle_queue r st st' calls reply :
  handle_sms_registration (rq_service r) (rq_magic r) (rq_client r) st = Some (st', calls, reply) ->
  register_queue st' = register_queue st
  \/ (register_queue st' = hs_insert (ec_global (rq_client r)) (register_queue st) /\ confirms r).
Proof.
  unfold handle_sms_registration, confirms. destruct (phone _) as [txt|] eqn:Ep; [|intros [= <- _ _]; auto].
  destruct (parse_phone txt) as [n|] eqn:En; [|intros [= <- _ _]; auto].
  destruct (phone_code _) as [code|] eqn:Ec; destruct (10 <? _).
  1, 2: intros [= E]; apply submit_queue in E as [E|[E Hc]]; [by left|right; split; [done|]; eauto 10].
  - intros [= <- _ _]. auto.
  - destruct (start_sms_auth_flow _ n); [intros [= <- _ _]; auto|]. unfold increment_texts_sent.
    destruct (texts_sent st !! _); [destruct (u8_of _); [|done]|]; cbn; intros [= <- _ _]; auto.
Qed.

(** What a pass sends comes from the queue. *)
Lemma batch_from_queue m waiting acc x :
  x ∈ clients_to_register m waiting acc -> x ∈ acc \/ x ∈ waiting.
Proof.
  revert acc. induction waiting as [|c l IH]; intros acc; cbn [clients_to_register]; [auto|].
  rewrite (elem_of_cons l). destruct (negb _); [|by intros [?|?]%IH; auto].
  assert (Hs : x ∈ acc ++ [c] -> x ∈ acc \/ x = c) by (rewrite elem_of_app, list_elem_of_singleton; done).
  destruct (MAX_BATCH_SIZE <? _)%nat; [intros H|intros [H|H]%IH; [|auto]]; apply Hs in H; tauto.
Qed.

(** Calls that send nothing. *)
Definition readonly {S E B} (m : M S E B) : Prop := forall s s', outcome_state (m s) = Some s' -> s' = s.
Lemma readonly_bind {S E B D} (m : M S E B) (k : B -> M S E D) :
  readonly m -> (forall a, readonly (k a)) -> readonly (bind m k).
Proof.
  intros Hm Hk s s'. specialize (Hm s). unfold bind. destruct (m s) as [s1 a|s1 e|]; cbn; [|by auto..].
  intros H. apply Hk in H as ->. by apply Hm.
Qed.
Lemma readonly_attempt {S E B} (m : M S E B) : readonly m -> readonly (attempt m).
Proof. intros Hm s s'. specialize (Hm s s'). unfold attempt. by destruct (m s). Qed.
Lemma readonly_ret {S E B} (a : B) : readonly (S := S) (E := E) (ret a).
Proof. intros s s'. cbn. congruence. Qed.
Lemma readonly_throw {S E B} (e : E) : readonly (S := S) (B := B) (throw e).
Proof. intros s s'. cbn. congruence. Qed.
Lemma readonly_unwrap {S E B} (o : option B) : readonly (S := S) (E := E) (unwrap o).
Proof. intros s s'. destruct o; cbn; congruence. Qed.
Lemma readonly_ok_or {S E B} (o : option B) (e : E) : readonly (S := S) (ok_or o e).
Proof. intros s s'. destruct o; cbn; congruence. Qed.
Lemma readonly_try {S E B} (r : E + B) : readonly (S := S) (try_sum r).
Proof. intros s s'. destruct r; cbn; congruence. Qed.
Ltac readonly_tac :=
  repeat (first [apply readonly_ret | apply readonly_throw | apply readonly_unwrap | apply readonly_ok_or
                | apply readonly_try | apply readonly_attempt | apply readonly_bind; [|intros ?] | case_match]).

Lemma parse_identity_readonly {S} ws : readonly (parse_identity_abi (St := S) ws).
Proof. unfold parse_identity_abi, be_tail. readonly_tac. Qed.
Lemma identity_entries_readonly {S} n ws : readonly (identity_entries (St := S) n ws).
Proof.
  revert n ws. fix IH 2. intros n [|a [|b [|c ws]]]; cbn [identity_entries]; destruct (n <=? 0);
    try apply readonly_ret; try apply readonly_throw. apply readonly_bind; [apply readonly_attempt, parse_identity_readonly|].
  intros o. apply readonly_bind; [apply IH|]. intros more. apply readonly_ret.
Qed.
Lemma list_readonly web3 : readonly (get_all_regsitered_clients web3).
Proof.
  unfold get_all_regsitered_clients, parse_identity_array_abi. readonly_tac. apply identity_entries_readonly.
Qed.

Lemma pass_sends f waiting w w' r :
  Forall typed waiting -> world_pass server f waiting w = Some (w', r) ->
  (w_reg w' = w_reg w \/ exists b, w_reg w' = foldl (fun st c => remove_client_from_reg_queue c st) (w_reg w) b)
  /\ (w_db w' = w_db w \/ exists b, (forall c, c ∈ b -> c ∈ waiting)
                           /\ w_db w' = execute server (AddUsers (sol_of <$> b)) (w_db w)).
Proof.
  intros Ht. assert (Hset : forall g d, settle server g [] d = d) by (intros g d; unfold settle; by destruct (executed g)).
  unfold world_pass, registration_pass. destruct waiting as [|c0 l]; [intros [= <- _]; cbn; rewrite Hset; auto|].
  set (waiting := c0 :: l) in *. pose proof (list_readonly (node server f (w_db w)) []) as Hro.
  destruct (get_all_regsitered_clients _ []) as [s all|s e|]; cbn in Hro; [| |done];
    rewrite (Hro s eq_refl); [|intros [= <- _]; cbn; rewrite Hset; auto].
  destruct (clients_to_register _ waiting []) as [|b0 bs] eqn:Eb; [intros [= <- _]; cbn; rewrite Hset; auto|].
  assert (Hb : forall c, c ∈ b0 :: bs -> c ∈ waiting).
  { intros c. rewrite <- Eb. intros [H|H]%batch_from_queue; [by apply elem_of_nil in H|done]. }
  set (b := b0 :: bs) in *. destruct (add_users_node server f (w_db w) b []) as (p & Hp & ->).
  { rewrite Forall_forall in *. auto. }
  destruct (accepts server (w_db w) b); [|intros [= <- _]; cbn; rewrite Hset; auto].
  destruct f; intros [= <- _]; cbn [w_reg w_db]; unfold settle; cbn [executed foldr]; rewrite ?Hp;
    (split; first [by left|right; by exists b]).
Qed.

(** * What holds over time *)

Lemma confirmed_more es es' c : confirmed es c -> (forall e, e ∈ es -> e ∈ es') -> confirmed es' c.
Proof. intros (r & Hr & H) Hsub. exists r. auto. Qed.
Lemma trusted_more es es' d0 w : trusted es d0 w -> (forall e, e ∈ es -> e ∈ es') -> trusted es' d0 w.
Proof.
  intros [Hq Hc Hu] Hsub. constructor; [done| |].
  - intros k c Hk. destruct (Hc k c Hk). eauto using confirmed_more.
  - intros u [H|[(s & t & H & H')|(c & H & H')]]%Hu; eauto 10 using confirmed_more.
Qed.

Lemma removed_sub (b : list Identity) (q : gmap id_key Identity) :
  hs_wf q -> hs_wf (foldl (fun q c => hs_remove c q) q b)
  /\ forall k c, foldl (fun q c => hs_remove c q) q b !! k = Some c -> q !! k = Some c.
Proof.
  revert q. induction b as [|x b IH]; intros q Hq; [done|]. cbn [foldl].
  destruct (IH (hs_remove x q)) as [H1 H2]; [by apply hs_wf_remove|]. split; [done|].
  intros k c Hk%H2. unfold hs_remove in Hk. by apply lookup_delete_Some in Hk as [_ ?].
Qed.

Lemma asked_trusted es d0 w r st calls reply :
  trusted es d0 w -> Asked r ∈ es -> typed (ec_global (rq_client r)) ->
  handle_sms_registration (rq_service r) (rq_magic r) (rq_client r) (w_reg w) = Some (st, calls, reply) ->
  trusted es d0 {| w_reg := st; w_db := w_db w |}.
Proof.
  intros [Hq Hc Hu] Hr Ht E. constructor; cbn [w_reg w_db]; [| |done];
    apply handle_queue in E as [->|[-> Hconf]]; try done; [by apply hs_wf_insert|].
  intros k c. unfold hs_insert. destruct (queue w !! _); [apply Hc|].
  rewrite lookup_insert_Some. intros [[_ <-]|[_ Hk]]; [|by eapply Hc]. split; [|done]. by exists r.
Qed.
Lemma passed_trusted es d0 w f o w' r :
  trusted es d0 w -> walks o -> world_pass server f (o (queue w)) w = Some (w', r) -> trusted es d0 w'.
Proof.
  intros [Hq Hc Hu] Ho E.
  assert (Hel : forall c, c ∈ o (queue w) -> confirmed es c /\ typed c).
  { intros c. rewrite (Ho (queue w)), elem_of_hs_elements by done. apply Hc. }
  apply pass_sends in E as [Hreg Hdb]; [|rewrite Forall_forall; intros c Hin; by apply Hel]. constructor.
  - destruct Hreg as [->|[b ->]]; [done|]. rewrite register_queue_removed. by apply removed_sub.
  - destruct Hreg as [->|[b ->]]; [done|]. rewrite register_queue_removed. intros k c Hk. apply (Hc k).
    by apply (removed_sub b).
  - destruct Hdb as [->|(b & Hb & ->)]; [done|]. intros u [H|H]%execute_users; [by apply Hu|].
    cbn in H. apply list_elem_of_fmap in H as (c & -> & Hin). right. right. exists c. split; [|done].
    by apply Hel, Hb.
Qed.
Lemma happen_trusted e es d0 w w' :
  trusted es d0 w -> event_ok e -> e ∈ es -> happen e w = Some w' -> trusted es d0 w'.
Proof.
  intros Ht He Hin. destruct e as [r|f o|s t]; cbn.
  - destruct (handle_sms_registration _ _ _ _) as [[[st calls] reply]|] eqn:E; cbn; [|done]. intros [= <-].
    by eapply asked_trusted.
  - destruct (world_pass _ _ _ _) as [[w1 r]|] eqn:E; cbn; [|done]. intros [= <-]. by eapply passed_trusted.
  - intros [= <-]. destruct Ht as [Hq Hc Hu]. constructor; [done|done|]. cbn.
    intros u [H|H]%execute_users; [by apply Hu|]. right. left. eauto.
Qed.

Lemma happen_all_trusted es0 es d0 w w' :
  trusted es0 d0 w -> Forall event_ok es -> (forall e, e ∈ es -> e ∈ es0) ->
  happen_all es w = Some w' -> trusted es0 d0 w'.
Proof.
  intros Ht He. revert w Ht. induction He as [|e es He _ IH]; intros w Ht Hsub; cbn; [by intros [= <-]|].
  destruct (happen e w) as [w1|] eqn:E; cbn; [|done]. apply IH.
  - eapply happen_trusted; [done|done| |done]. apply Hsub. by left.
  - intros e' H'. apply Hsub. by right.
Qed.

(** C20 Whatever requests the server handles, however its passes go and whatever
    others send to the contract: a client is in the queue only after a request
    of its own with a code that the service accepted, or for the magic number;
    and every user of the contract was there from the start, was added by
    someone else's transaction, or is such a client. *)
Theorem registered_only_confirmed es w w' :
  register_queue (w_reg w) = ∅ -> Forall event_ok es -> happen_all es w = Some w' ->
  (forall c, c ∈ hs_elements (queue w') -> confirmed es c)
  /\ forall u, u ∈ state_registeredUsers (w_db w') ->
       u ∈ state_registeredUsers (w_db w) \/ (exists s t, Other s t ∈ es /\ u ∈ added_users t)
       \/ exists c, confirmed es c /\ sol_of c = u.
Proof.
  intros Hq He E. destruct (happen_all_trusted es es (w_db w) w w') as [H1 H2 H3]; [|done|done|done|].
  { constructor; [by rewrite Hq; intros k c H; rewrite lookup_empty in H| |auto].
    intros k c. by rewrite Hq, lookup_empty. }
  split; [|exact H3]. intros c Hc%elem_of_hs_elements; [|done]. by eapply H2.
Qed.
End trust.
