(* ===== verification/RegistrationExits.v ===== *)
(** Reading the contract through client_db.rs: exits that are published are read
    back, a client is found by its key, and whole answers never panic. *)
From S2P Require Import Prelude Types Text PeerMessage Forwarding ForwardingSpec Regions ExitManager.
From S2P Require Import ExitDatabase RegistrationDb AltheaDB RegistrationAbi RegistrationQueue.
From S2P Require Import RegistrationSpec RegistrationSafety RegistrationTrust.
(** * Exits as the contract stores them *)

Definition sol_exit_of (e : ExitIdentity) : SolExitIdentity := {|
  sol_exit := {| sol_mesh_ip := ip_value (ei_mesh_ip e); sol_wg_key := ei_wg_key e; sol_eth_addr := ei_eth_addr e |};
  sol_registration_port := ei_registration_port e; sol_wg_exit_listen_port := ei_wg_exit_listen_port e;
  sol_allowed_regions := u8_of_region <$> allowed_regions e;
  sol_payment_types := chain_to_u8 <$> payment_types e |}.
(** An exit with an IPv6 mesh address, whose values fit their types and whose
    sets have no element twice. *)
Definition exit_ok (e : ExitIdentity) : Prop :=
  (exists a, ei_mesh_ip e = V6 a /\ a <> 0) /\ sol_exit_ok (sol_exit_of e)
  /\ NoDup (allowed_regions e) /\ NoDup (payment_types e).

Lemma set_of_app {B} `{EqDecision B} (l acc : list B) :
  NoDup (acc ++ l) -> foldl (fun s x => set_insert x s) acc l = acc ++ l.
Proof.
  revert acc. induction l as [|x l IH]; intros acc H; [by rewrite app_nil_r|]. cbn [foldl].
  unfold set_insert at 2. rewrite decide_False.
  - change (acc ++ x :: l) with (acc ++ [x] ++ l) in *. rewrite app_assoc in *. by apply IH.
  - apply NoDup_app in H as (_ & H & _). intros Hx. apply (H x Hx). by left.
Qed.
Lemma set_of_nodup {B} `{EqDecision B} (l : list B) : NoDup l -> set_of l = l.
Proof. apply (set_of_app l []). Qed.

Lemma codes_back {B} (to : B -> Z) (back : Z -> B) (l : list B) :
  (forall x, back (to x mod 256) = x) -> (fun c => back (c mod 256)) <$> (to <$> l) = l.
Proof. intros H. induction l as [|x l IH]; [done|]. rewrite !fmap_cons, H. f_equal. exact IH. Qed.
Lemma region_code_back r : region_of_u8 (u8_of_region r mod 256) = r.
Proof. by destruct r. Qed.
Lemma chain_code_back c : chain_of_u8 (chain_to_u8 c mod 256) = c.
Proof. by destruct c. Qed.

Lemma exit_of_sol e : exit_ok e -> exit_of (sol_exit_of e) = e.
Proof.
  intros ((a & Ha & _) & _ & Hr & Hp). unfold exit_of, sol_exit_of. destruct e as [ip key eth rp wp rs ps].
  cbn [ei_mesh_ip allowed_regions payment_types] in Ha, Hr, Hp. subst.
  cbn [sol_exit sol_mesh_ip sol_wg_key sol_eth_addr sol_registration_port sol_wg_exit_listen_port ei_mesh_ip ei_wg_key
       ei_eth_addr ei_registration_port ei_wg_exit_listen_port sol_allowed_regions sol_payment_types allowed_regions
       payment_types ip_value].
  rewrite (codes_back u8_of_region region_of_u8), (codes_back chain_to_u8 chain_of_u8)
    by auto using region_code_back, chain_code_back.
  by rewrite !set_of_nodup.
Qed.
Lemma exits_of_app l l' : exits_of (l ++ l') = exits_of l ++ exits_of l'.
Proof. unfold exits_of. by rewrite List.filter_app, fmap_app. Qed.
Lemma exits_of_sol l : Forall exit_ok l -> exits_of (sol_exit_of <$> l) = l.
Proof.
  induction 1 as [|e l He Hl IH]; [done|]. rewrite fmap_cons. unfold exits_of. cbn [List.filter].
  pose proof He as ((a & Ha & Hz) & _). unfold visible at 1. cbn. rewrite Ha. cbn.
  rewrite (proj2 (Z.eqb_neq a 0) Hz). cbn. rewrite exit_of_sol by done. f_equal. exact IH.
Qed.

Lemma exits_typed l : Forall exit_ok l -> Forall sol_exit_ok (sol_exit_of <$> l).
Proof. intros He. apply Forall_fmap. eapply Forall_impl; [exact He|]. by intros e (_ & ? & _). Qed.

Lemma add_exits_done s l d d' u :
  run_tx s (AddExits l) d = Done d' u -> state_registeredExits d' = state_registeredExits d ++ l.
Proof.
  cbn. unfold addRegisteredExitsBulk. revert d d' u. induction l as [|e l IH]; intros d d' u; cbn [bulk].
  - intros [= <- _]. by rewrite app_nil_r.
  - intros (d1 & u1 & H1 & H2)%bind_done. rewrite (IH _ _ _ H2). unfold addRegisteredExit in H1. run_monad.
    by rewrite <- app_assoc.
Qed.

Section exits.
Context `{C : Clarity} `{CL : !ClarityLaws C} `{A : !AbiCalls C} `{AL : !AbiCallsLaws A}.
Context `{N : Num256} `{NL : !Num256Laws N} `{P : Profile}.

Lemma encode_exits_ok l : Forall exit_ok l -> encode_exits l = inr (exit_token <$> (sol_exit_of <$> l)).
Proof.
  induction 1 as [|e l ((a & Ha & _) & _) _ IH]; [done|]. cbn [encode_exits]. rewrite Ha, IH, !fmap_cons.
  do 2 f_equal. unfold exit_token, sol_exit_of, allowed_regions_abi_array, payment_types_abi_array. cbn.
  rewrite Ha. by rewrite <- !list_fmap_compose.
Qed.

(** Exits that are published with [add_exits_to_registration_list], when the
    contract takes the transaction, are returned by [get_exits_list] after those
    that were there, each with the same addresses, key, ports, regions and
    payment types. *)
Theorem exits_published server reader f exits d s s' :
  Forall exit_ok exits -> Forall sol_exit_ok (state_registeredExits d) ->
  Z.of_nat (length (exits_words (state_registeredExits d ++ (sol_exit_of <$> exits)))) < 2 ^ 59 ->
  reverts server (AddExits (sol_exit_of <$> exits)) d = false ->
  exists p, add_exits_to_registration_list (node server Mined d) exits true s = Done (p :: s) 0
    /\ get_exits_list (node reader f (settle server Mined [p] d)) s'
       = Done s' (exits_of (state_registeredExits d) ++ exits).
Proof.
  intros He Hd Hlen Hrev. destruct (calldata_add_exits (sol_exit_of <$> exits)) as (p & Hp & Hc).
  { by apply exits_typed. }
  exists p. split.
  - unfold add_exits_to_registration_list, bind. rewrite encode_exits_ok by done. cbn [try_sum ret].
    unfold send_call, bind. rewrite Hp. cbn. rewrite Hc, Hrev. done.
  - unfold settle. cbn [executed foldr]. rewrite Hc. unfold execute. unfold reverts in Hrev.
    destruct (run_tx server (AddExits _) d) as [d' u| |] eqn:E; [|done..].
    unfold get_exits_list, bind. destruct calldata_exits as (q & -> & Hq).
    cbn [try_sum ret node simulate_transaction]. rewrite Hq. unfold getAllRegisteredExits.
    rewrite (add_exits_done _ _ _ _ _ E). cbn [try_sum ret]. rewrite exits_read; [|by apply Forall_app; split; [|apply exits_typed]|done].
    by rewrite exits_of_app, exits_of_sol.
Qed.

Lemma find_key_none k l :
  k ∉ sol_wg_key <$> l ->
  List.find (fun c => wg_public_key c =? k) (client_of <$> List.filter visible l) = None.
Proof.
  induction l as [|u l IH]; [done|]. rewrite fmap_cons, not_elem_of_cons. intros [Hk Hl]. cbn [List.filter].
  destruct (visible u); cbn; [rewrite (proj2 (Z.eqb_neq _ _)) by congruence|]; by apply IH.
Qed.

(** The user with a key, with or without a mesh address. *)
Lemma find_visible k l :
  NoDup (sol_wg_key <$> l) ->
  List.find (fun c => wg_public_key c =? k) (clients_of l)
  = match List.find (fun u => sol_wg_key u =? k) l with
    | Some u => if visible u then Some (client_of u) else None
    | None => None
    end.
Proof.
  unfold clients_of. induction l as [|u l IH]; [done|]. rewrite fmap_cons. intros [Hu Hn]%NoDup_cons.
  cbn [List.filter List.find]. destruct (Z.eqb_spec (sol_wg_key u) k) as [Eu|Eu].
  - destruct (visible u) eqn:Ev.
    + rewrite fmap_cons. cbn [List.find client_of wg_public_key]. by rewrite (proj2 (Z.eqb_eq _ _) Eu).
    + apply find_key_none. by rewrite <- Eu.
  - destruct (visible u); [|by apply IH]. rewrite fmap_cons. cbn [List.find client_of wg_public_key].
    rewrite (proj2 (Z.eqb_neq _ _) Eu). by apply IH.
Qed.

(** A client is found by its key exactly when a user with that key and a mesh
    address is registered, and then it is that user; everything else is an error
    of the parser. *)
Theorem client_lookup server f k d s :
  db_wf d -> Forall sol_ok (state_registeredUsers d) -> 0 <= k < 2 ^ 256 ->
  get_registered_client_using_wgkey (node server f d) k s
  = match List.find (fun c => wg_public_key c =? k) (clients_of (state_registeredUsers d)) with
    | Some c => Done s c
    | None => Fail s BadInput
    end.
Proof.
  intros [_ [Hn _] _ _ _] Hus Hk. unfold get_registered_client_using_wgkey, bind.
  destruct (calldata_client k Hk) as (p & -> & Hp).
  cbn [try_sum ret node simulate_transaction]. rewrite Hp. cbn [try_sum ret].
  unfold abi_id. rewrite to_evm_words_concat by by repeat constructor; apply word_length.
  unfold registered in Hn. rewrite fmap_app in Hn. apply NoDup_app in Hn as [Hn _].
  assert (Hfound : getRegisteredClientWithWgKey k d = default getNullIdentity
                     (List.find (fun u => sol_wg_key u =? k) (state_registeredUsers d))).
  { unfold getRegisteredClientWithWgKey. by destruct (List.find _ _). }
  rewrite Hfound, (find_visible _ _ Hn).
  destruct (List.find _ _) as [u|] eqn:E; cbn [default from_option id].
  - apply List.find_some in E as [Hu%list_elem_of_In _]. rewrite Forall_forall in Hus.
    rewrite parse_identity_words by by apply Hus. by destruct (visible u).
  - by rewrite parse_identity_words by (unfold sol_ok; cbn; lia).
Qed.
End exits.

(** In a release build the parsers of the lists of clients and exits return or
    report an error on every answer of whole words, whatever is in them: no
    count, position or length read from the answer makes them panic. *)
Theorem whole_answers_parse `{C : Clarity} `{CL : !ClarityLaws C} `{N : Num256} `{NL : !Num256Laws N} `{P : Profile}
    (bytes : byte_list) (k : nat) (s : list byte_list) :
  overflow_checks = false -> Forall (fun b => 0 <= b < 256) bytes -> length bytes = (WORD_SIZE * k)%nat ->
  parse_identity_array_abi bytes s <> Panic /\ parse_exit_identity_array_abi bytes s <> Panic.
Proof.
  intros Hr Hb Hl. assert (Hg : Forall good_word (to_evm_words bytes)) by (by eapply chunks_good).
  destruct (parsers_safe (St := list byte_list) Hr bytes Hg) as [H1 H2]. specialize (H1 s). specialize (H2 s).
  split; intros E; [by rewrite E in H1|by rewrite E in H2].
Qed.

(** * A concrete registry

    Demonstrations of the registration properties: an encoding of calls that the
    contract reads back, and a small network with two clients and an exit. *)

(** * An encoding of calls *)

Inductive demo_token := DUint (z : Z) | DStruct (l : list demo_token) | DList (l : list demo_token).
Fixpoint flat (t : demo_token) : byte_list :=
  let flats := fix flats l := match l with [] => [] | t :: l => flat t ++ flats l end in
  match t with
  | DUint z => [z]
  | DStruct l => flats l
  | DList l => Z.of_nat (length l) :: flats l
  end.
Definition demo_code (signature : string) : Z :=
  if String.eqb signature "getAllRegisteredUsers()" then 0
  else if String.eqb signature "getAllRegisteredExits()" then 1
  else if String.eqb signature "getRegisteredClientWithWgKey(uint256)" then 2
  else if String.eqb signature "addRegisteredUsersBulk((uint128,uint256,address)[])" then 3 else 4.
Definition demo_clarity : Clarity := {|
  AbiToken := demo_token;
  token_uint := DUint; token_address := DUint; token_struct := DStruct; token_dynamic := DList; token_of_vec := DList;
  encode_call signature l := inr (demo_code signature :: flat (DStruct l));
  bytes_to_hex_str := hex_of;
  address_from_slice l := if (length l =? 20)%nat then Some (be_value l) else None;
  u256_from_be_bytes l := Some (be_value l);
  u256_to_be_bytes x := octets 32 x;
|}.
#[export] Instance demo_clarity_laws : ClarityLaws demo_clarity.
Proof. by constructor. Qed.

Fixpoint read_users (n : nat) (l : byte_list) : list SolIdentity :=
  match n, l with
  | S n, a :: b :: c :: l => {| sol_mesh_ip := a; sol_wg_key := b; sol_eth_addr := c |} :: read_users n l
  | _, _ => []
  end.
Fixpoint read_exits (n : nat) (l : byte_list) : list SolExitIdentity :=
  match n, l with
  | S n, a :: b :: c :: p :: q :: nr :: l =>
      let regions := take (Z.to_nat nr) l in
      match drop (Z.to_nat nr) l with
      | np :: l => {| sol_exit := {| sol_mesh_ip := a; sol_wg_key := b; sol_eth_addr := c |};
                      sol_registration_port := p; sol_wg_exit_listen_port := q; sol_allowed_regions := regions;
                      sol_payment_types := take (Z.to_nat np) l |} :: read_exits n (drop (Z.to_nat np) l)
      | [] => []
      end
  | _, _ => []
  end.
Definition demo_calls : AbiCalls demo_clarity := {|
  calldata p :=
    match p with
    | 0 :: _ => Some QueryUsers
    | 1 :: _ => Some QueryExits
    | [2; k] => Some (QueryClient k)
    | 3 :: n :: l => Some (Transact (AddUsers (read_users (Z.to_nat n) l)))
    | 4 :: n :: l => Some (Transact (AddExits (read_exits (Z.to_nat n) l)))
    | _ => None
    end
|}.

Definition flats (l : list demo_token) : byte_list := flat (DStruct l).
Lemma flats_cons t l : flats (t :: l) = flat t ++ flats l.
Proof. done. Qed.
Lemma flats_uints l : flats (DUint <$> l) = l.
Proof. induction l as [|z l IH]; [done|]. rewrite fmap_cons, flats_cons, IH. done. Qed.
Lemma flat_list l : flat (DList l) = Z.of_nat (length l) :: flats l.
Proof. done. Qed.
Lemma read_users_flat l : read_users (length l) (flats (@user_token demo_clarity <$> l)) = l.
Proof. induction l as [|u l IH]; [done|]. rewrite fmap_cons, flats_cons. cbn [length flat app]. destruct u. cbn. by f_equal. Qed.
Lemma exit_token_flat e :
  flat (@exit_token demo_clarity e)
  = sol_mesh_ip (sol_exit e) :: sol_wg_key (sol_exit e) :: sol_eth_addr (sol_exit e) :: sol_registration_port e
    :: sol_wg_exit_listen_port e :: Z.of_nat (length (sol_allowed_regions e)) :: sol_allowed_regions e
    ++ Z.of_nat (length (sol_payment_types e)) :: sol_payment_types e.
Proof.
  destruct e as [[a b c] p q rs ps].
  change (flats [DUint a; DUint b; DUint c; DUint p; DUint q; DList (DUint <$> rs); DList (DUint <$> ps)]
          = a :: b :: c :: p :: q :: Z.of_nat (length rs) :: rs ++ Z.of_nat (length ps) :: ps).
  rewrite !flats_cons, !flat_list, !flats_uints, !length_fmap. cbn. by rewrite app_nil_r.
Qed.
Lemma read_exits_flat l rest : read_exits (length l) (flats (@exit_token demo_clarity <$> l) ++ rest) = l.
Proof.
  induction l as [|e l IH]; [done|]. rewrite fmap_cons, flats_cons, <- app_assoc, exit_token_flat.
  destruct e as [[a b c] p q rs ps]. cbn [sol_exit sol_mesh_ip sol_wg_key sol_eth_addr
    sol_registration_port sol_wg_exit_listen_port sol_allowed_regions sol_payment_types].
  cbn [app length read_exits]. rewrite <- app_assoc. cbn [app]. rewrite !Nat2Z.id.
  rewrite take_app_length, drop_app_length. rewrite Nat2Z.id, take_app_length, drop_app_length. by f_equal.
Qed.
#[export] Instance demo_calls_laws : AbiCallsLaws demo_calls.
Proof.
  constructor; [by eexists|by eexists|by eexists|intros l _; eexists; (split; [done|])..].
  - cbn [calldata demo_calls token_dynamic demo_clarity]. change (flat (DStruct [DList ?x])) with (flats [DList x]).
    rewrite flats_cons, flat_list. cbn. rewrite app_nil_r, Nat2Z.id, length_fmap.
    by rewrite read_users_flat.
  - cbn [calldata demo_calls token_dynamic demo_clarity]. change (flat (DStruct [DList ?x])) with (flats [DList x]).
    rewrite flats_cons, flat_list. cbn. rewrite Nat2Z.id, length_fmap. by rewrite read_exits_flat.
Qed.

(** * A small network *)

#[local] Existing Instance demo_clarity.
#[local] Existing Instance demo_calls.
#[local] Existing Instance Num256_panicking.
#[local] Existing Instance release_profile.

Definition alice : Identity := {| mesh_ip := V6 1001; eth_address := 51; wg_public_key := 101; nickname := None |}.
Definition bob : Identity := {| mesh_ip := V6 1002; eth_address := 52; wg_public_key := 102; nickname := None |}.
(** Another router with the eth address of [alice]. *)
Definition mallory : Identity := {| mesh_ip := V6 1003; eth_address := 51; wg_public_key := 103; nickname := None |}.
Definition exit_one : ExitIdentity := {|
  ei_mesh_ip := V6 2001; ei_wg_key := 201; ei_eth_addr := 61; ei_registration_port := 4875;
  ei_wg_exit_listen_port := 59998; allowed_regions := [Canada; Mexico]; payment_types := [Xdai] |}.
Definition demo_server : Z := 7.
Definition demo_db : AltheaDB :=
  history (deploy 1) [(1, AddUserAdmin demo_server); (1, AddExitAdmin demo_server); (demo_server, AddUsers [sol_of alice])].
Definition demo_world (l : list Identity) : world := {|
  w_reg := foldl (fun st c => add_client_to_reg_queue c st) reg_init l; w_db := demo_db |}.
Lemma demo_db_wf : db_wf demo_db.
Proof. apply history_wf, db_wf_deploy. Qed.

Definition demo_walk (q : gmap id_key Identity) : list Identity := hs_elements q.
Lemma demo_walks : walks demo_walk.
Proof. by intros q. Qed.
Definition bob_waits : list Identity := hs_elements (queue (demo_world [bob])).
Lemma bob_waits_eq : bob_waits = [bob].
Proof. reflexivity. Qed.

(** Bob is registered by one pass. *)
Lemma pass_refines_witness :
  exists r, world_pass demo_server Mined [bob] (demo_world [bob])
  = Some (pass_effect demo_server Mined [bob] (demo_world [bob]), r).
Proof.
  refine (pass_refines demo_server Mined [bob] (demo_world [bob]) _ _).
  - split; [|vm_compute; discriminate]. change (state_registeredUsers (w_db (demo_world [bob]))) with [sol_of alice].
    repeat constructor; vm_compute; congruence.
  - repeat constructor; vm_compute; congruence.
Defined.

(** Mallory, with Alice's eth address, keeps Bob from being registered. *)
Lemma poisoned_queue_witness :
  exists r, world_pass demo_server Mined [mallory; bob]
    (demo_world [mallory; bob]) = Some (demo_world [mallory; bob], r).
Proof.
  refine (poisoned_queue demo_server Mined [mallory; bob] (demo_world [mallory; bob]) mallory _ _ _ _ _ _).
  - split; [|vm_compute; discriminate].
    change (state_registeredUsers (w_db (demo_world [mallory; bob]))) with [sol_of alice].
    repeat constructor; vm_compute; congruence.
  - repeat constructor; vm_compute; congruence.
  - by left.
  - vm_compute. reflexivity.
  - right. vm_compute. reflexivity.
  - vm_compute. lia.
Defined.

(** Bob alone, and one pass. *)
Lemma queue_drains_witness :
  exists w', passes demo_server [demo_walk] (demo_world [bob])
      = Some w'
    /\ length (hs_elements (queue w')) = (length bob_waits - 76 * 1)%nat
    /\ ((length bob_waits <= 76 * 1)%nat ->
        hs_elements (queue w') = [] /\ forall c, c ∈ bob_waits -> is_registered (w_db w') c = true).
Proof.
  refine (queue_drains demo_server [demo_walk] (demo_world [bob]) _ _); [|by constructor; [apply demo_walks|]].
  constructor.
  - apply hs_wf_insert. intros k c H. change ((∅ : gmap id_key Identity) !! k = Some c) in H. by rewrite lookup_empty in H.
  - change (hs_elements (queue (demo_world [bob]))) with bob_waits. rewrite bob_waits_eq.
    repeat constructor; vm_compute; congruence.
  - change (hs_elements (queue (demo_world [bob]))) with bob_waits. rewrite bob_waits_eq.
    split_and!; (split; [apply NoDup_singleton|]); (constructor; [|constructor]);
      (apply (bool_decide_unpack _); vm_compute; exact I).
  - vm_compute. reflexivity.
  - apply demo_db_wf.
  - change (state_registeredUsers (w_db (demo_world [bob]))) with [sol_of alice].
    repeat constructor; vm_compute; congruence.
  - vm_compute. discriminate.
Defined.

(** Bob confirms his number and a pass registers him. *)
#[local] Instance demo_phones : PhoneNumbers := {| PhoneNumber := Z; phone_eqb := Z.eqb; parse_phone s := Some 5 |}.
Definition bob_asks : request := {|
  rq_service := {| verify_answer n c := inr 200; send_answer n := inr 200 |};
  rq_magic := None;
  rq_client := {| ec_wg_port := 60000; ec_global := bob;
    reg_details := {| email := None; email_code := None; phone := Some "+15551234"; phone_code := Some "0000";
                      sequence_number := None |} |} |}.
Definition demo_events : list event := [Asked bob_asks; Passed Mined demo_walk].
Definition demo_end : world := default (demo_world []) (happen_all demo_server demo_events (demo_world [])).
Example demo_registers_bob : happen_all demo_server demo_events (demo_world []) = Some demo_end.
Proof. vm_compute. reflexivity. Qed.

Lemma registered_only_confirmed_witness :
  (forall c, c ∈ hs_elements (queue demo_end) -> confirmed demo_events c)
  /\ forall u, u ∈ state_registeredUsers (w_db demo_end) ->
       u ∈ state_registeredUsers (w_db (demo_world [])) \/ (exists s t, Other s t ∈ demo_events /\ u ∈ added_users t)
       \/ exists c, confirmed demo_events c /\ sol_of c = u.
Proof.
  refine (registered_only_confirmed demo_server demo_events (demo_world []) demo_end _ _ demo_registers_bob).
  - reflexivity.
  - constructor; [repeat split; vm_compute; congruence|]. constructor; [apply demo_walks|constructor].
Defined.

(** An exit is published and read back. *)
Lemma exits_published_witness :
  exists p, add_exits_to_registration_list (node demo_server Mined demo_db) [exit_one] true [] = Done [p] 0
    /\ get_exits_list (node 9 Mined (settle demo_server Mined [p] demo_db)) [] = Done [] [exit_one].
Proof.
  refine (exits_published demo_server 9 Mined [exit_one] demo_db [] [] _ _ _ _).
  - constructor; [|constructor]. split; [by exists 2001|]. split; [repeat split; vm_compute; congruence|].
    split; [|apply NoDup_singleton]. apply (bool_decide_unpack _). vm_compute. exact I.
  - constructor.
  - vm_compute. reflexivity.
  - vm_compute. reflexivity.
Defined.

(** Alice is found by her key. *)
Lemma client_lookup_witness :
  get_registered_client_using_wgkey (node demo_server Mined demo_db) 101 []
  = match List.find (fun c => wg_public_key c =? 101) (clients_of (state_registeredUsers demo_db)) with
    | Some c => Done [] c
    | None => Fail [] BadInput
    end.
Proof.
  refine (client_lookup demo_server Mined 101 demo_db [] demo_db_wf _ _); [|lia].
  change (state_registeredUsers demo_db) with [sol_of alice]. repeat constructor; vm_compute; congruence.
Defined.

(** Twelve words of zeros. *)
Lemma whole_answers_parse_witness :
  parse_identity_array_abi (replicate 384 0) ([] : list byte_list) <> Panic
  /\ parse_exit_identity_array_abi (replicate 384 0) ([] : list byte_list) <> Panic.
Proof.
  refine (whole_answers_parse (replicate 384 0) 12 [] eq_refl _ eq_refl). apply Forall_replicate. lia.
Defined.

(** An answer that is cut short in a word makes the parser panic, which the
    length checks do not prevent. *)
Example short_answer_panics :
  parse_identity_array_abi
    (concat [word 32; word 1; word 1001; word 101] ++ [0; 0; 0]) ([] : list byte_list) = Panic.
Proof. vm_compute. reflexivity. Qed.

(** The first pass over 80 clients sends 76 of them, one more than the limit. *)
Definition crowd : list Identity :=
  (fun i => {| mesh_ip := V6 (5000 + i); eth_address := 7000 + i; wg_public_key := 9000 + i; nickname := None |}) <$> seqZ 0 80.
Example batch_over_limit : length (batch_of demo_db crowd) = S MAX_BATCH_SIZE.
Proof. vm_compute. reflexivity. Qed.
