(* ===== verification/ExitEndpoints.v ===== *)
(** The endpoints of the exit (rita_exit/src/network_endpoints/mod.rs) with the client's
    side of the same channel (encrypt_exit_client_id, decrypt_exit_state and
    decrypt_exit_list of rita_client/src/exit_manager/mod.rs).  The boxes of sodiumoxide
    and JSON are parameters. *)
From S2P Require Import Prelude Types Text Babel Oracle DebtKeeper Regions PeerMessage Forwarding ForwardingSpec ExitManager ExitDatabase ExitClients ExitServerLoop RegistrationQueue.
Open Scope Z_scope.

(** [serde_json::to_string], [String::from_utf8] and [serde_json::from_str]. *)
Class Serde (A : Type) := { to_string : A -> byte_list; from_str : byte_list -> option A }.
Class Utf8 := is_utf8 : byte_list -> bool.
Class SerdeLaws {A} (S : Serde A) (U : Utf8) : Prop := {
  written_read a : from_str (to_string a) = Some a;
  written_utf8 a : is_utf8 (to_string a) = true;
}.

Module ExitEndpoints.
Import ExitDatabase RegistrationQueue.

Record EncryptedExitClientIdentity := { er_pubkey : Z; er_nonce : byte_list; encrypted_exit_client_id : byte_list }.
(** [EncryptedExitState] and [EncryptedExitList]. *)
Record Encrypted := { en_nonce : byte_list; en_ciphertext : byte_list }.
(** What is answered: a sealed value with status 200, or a text with status 500. *)
(** The list for older routers, with the port of the second tunnel. *)
Record ExitList := { exit_list : list Identity; list_listen_port : Z }.
Inductive reply := Sealed (e : Encrypted) | ServerError.

Section channel.
Context `{SB : SecretBox} `{U : Utf8}.

(** ** The client *)

Definition encrypt_exit_client_id `{SI : Serde ExitClientIdentity} (our_publickey our_secretkey : Z) (nonce : byte_list) (exit_pubkey : Z)
    (id : ExitClientIdentity) : EncryptedExitClientIdentity :=
  {| er_pubkey := our_publickey; er_nonce := nonce;
     encrypted_exit_client_id := seal (to_string id) nonce exit_pubkey our_secretkey |}.
(** The body that [decrypt_exit_state] and [decrypt_exit_list] share. *)
Definition decrypt_answer {A} `{SA : Serde A} (our_secretkey : Z) (exit_pubkey : Z) (e : Encrypted) : option A :=
  bytes ← box_open (en_ciphertext e) (en_nonce e) exit_pubkey our_secretkey;
  if is_utf8 bytes then from_str bytes else None.
Definition decrypt_exit_state `{SS : Serde ExitState} : Z -> Z -> Encrypted -> option ExitState := decrypt_answer.
Definition decrypt_exit_list `{SE : Serde (list ExitIdentity)} : Z -> Z -> Encrypted -> option (list ExitIdentity) := decrypt_answer.
(** What the rest of the client sees of an answer; [None] is a request that failed. *)
Definition as_answer {A} `{SA : Serde A} (our_secretkey exit_pubkey : Z) (r : option reply) : exit_answer A :=
  match r with
  | None => AnswerSendError
  | Some ServerError => AnswerNotJson
  | Some (Sealed e) =>
      match decrypt_answer our_secretkey exit_pubkey e with
      | Some a => Answer a
      | None => AnswerUndecryptable
      end
  end.

(** ** The exit *)

Context `{SI : Serde ExitClientIdentity} `{SS : Serde ExitState}.

Definition secure_return {A} `{SA : Serde A} (nonce : byte_list) (ret : A) (our_secretkey their_pubkey : Z) : Encrypted :=
  {| en_nonce := nonce; en_ciphertext := seal (to_string ret) nonce their_pubkey our_secretkey |}.
Definition secure_setup_return (nonce : byte_list) (ret : ExitState) (our_secretkey their_pubkey : Z) : Encrypted :=
  secure_return nonce ret our_secretkey their_pubkey.

Inductive DecryptResult := Success (id : ExitClientIdentity) | Failure (answer : Encrypted).
Definition decrypt_exit_client_id (nonce : byte_list) (val : EncryptedExitClientIdentity) (our_secretkey : Z) : DecryptResult :=
  let deny message := Failure (secure_setup_return nonce (Denied message) our_secretkey (er_pubkey val)) in
  match box_open (encrypted_exit_client_id val) (er_nonce val) (er_pubkey val) our_secretkey with
  | None => deny "could not decrypt your message!"%string
  | Some bytes =>
      if negb (is_utf8 bytes) then deny "could not decrypt your message!"%string
      else match from_str bytes with
           | Some id => Success id
           | None => deny "could not deserialize your message!"%string
           end
  end.

(** The keys of the settings: the old one of the exit network, the new one and the one
    of the wallet, which are unwrapped. *)
Record exit_keys := { old_secretkey : Z; new_secretkey : option Z; eth_private_key : option Z }.
Definition open_request (keys : exit_keys) (nonce : byte_list) (val : EncryptedExitClientIdentity) : option (Encrypted + ExitClientIdentity * Z) :=
  our_new_secretkey ← new_secretkey keys;
  Some match decrypt_exit_client_id nonce val our_new_secretkey, decrypt_exit_client_id nonce val (old_secretkey keys) with
       | Success val, _ => inr (val, our_new_secretkey)
       | _, Success val => inr (val, old_secretkey keys)
       | Failure e, _ => inl e
       end.

Context `{IN : IpNets} `{WH : WgHash} `{P : Profile}.

(** [socket] is the address the request came from; [None] a panic. *)
Definition secure_setup_request (keys : exit_keys) (nonce : byte_list) (s : exit_settings)
    (gateway : ExitClientIdentity -> RitaExitError + IpAddr) (api : IpAddr -> geo_answer) (registration : ExitClientIdentity -> ExitSignupReturn)
    (socket : option IpAddr) (request : EncryptedExitClientIdentity) (st : RitaExitState) : option (RitaExitState * reply) :=
  opened ← open_request keys nonce request;
  match opened with
  | inl e => Some (st, Sealed e)
  | inr (client, valid_secret_key) =>
      match socket with
      | None => Some (st, ServerError)
      | Some remote_mesh_ip =>
          if bool_decide (remote_mesh_ip = mesh_ip (ec_global client)) then
            '(st, result) ← signup_client s (gateway client) api (registration client) (ec_global client) st;
            Some (st, match result with
                      | inr exit_state => Sealed (secure_setup_return nonce exit_state valid_secret_key (er_pubkey request))
                      | inl _ => ServerError
                      end)
          else
            Some (st, Sealed (secure_setup_return nonce (Denied "The request ip does not match the signup ip") valid_secret_key (er_pubkey request)))
      end
  end.

(** [record] is what the contract holds for the client. *)
Definition secure_status_request (keys : exit_keys) (nonce : byte_list) (s : exit_settings) (record : ExitClientIdentity -> option Identity)
    (request : EncryptedExitClientIdentity) (m : IpAssignmentMap) : option (IpAssignmentMap * reply) :=
  _ ← eth_private_key keys;
  opened ← open_request keys nonce request;
  match opened with
  | inl e => Some (m, Sealed e)
  | inr (client, valid_secret_key) =>
      '(m, result) ← client_status s (record client) m;
      Some (m, match result with
               | inr state => Sealed (secure_setup_return nonce state valid_secret_key (er_pubkey request))
               | inl _ => ServerError
               end)
  end.

(** The lists of exits: [contract] is what [get_exits_list] answers. *)
Definition common {A} `{EqDecision A} (a b : list A) : bool := existsb (fun x => bool_decide (x ∈ b)) a.
Definition listed (exit_regions : list Regions) (accepted_payments : list SystemChain) (exit : ExitIdentity) : bool :=
  let exit_allowed_regions := filter (fun r => r <> UnkownRegion) (allowed_regions exit) in
  common exit_allowed_regions exit_regions && common (payment_types exit) accepted_payments.
Definition get_exit_list (keys : exit_keys) (nonce : byte_list) (our_id : option Identity) (contract : option (list ExitIdentity))
    (exit_regions : list Regions) (accepted_payments : list SystemChain) (wg_v2_tunnel_port : Z) `{SL : Serde ExitList}
    (request : EncryptedExitClientIdentity) : option reply :=
  our_id ← our_id;
  _ ← eth_private_key keys;
  let answer list := Sealed (secure_return nonce {| exit_list := list; list_listen_port := wg_v2_tunnel_port |}
                               (old_secretkey keys) (er_pubkey request)) in
  Some match contract with
       | Some a =>
           match exit_regions, accepted_payments with
           | _ :: _, _ :: _ =>
               answer ((exit_identity_to_id <$> List.filter (listed exit_regions accepted_payments) a) ++ [our_id])
           | _, _ => ServerError
           end
       | None => answer []
       end.
Definition get_exit_list_v2 (keys : exit_keys) (nonce : byte_list) (our_identity : ExitIdentity)
    (contract : option (list ExitIdentity)) `{SL : Serde (list ExitIdentity)} (request : EncryptedExitClientIdentity) : option reply :=
  match new_secretkey keys with
  | None => Some ServerError
  | Some our_secretkey =>
      _ ← eth_private_key keys;
      Some (Sealed (secure_return nonce (default [] contract ++ [our_identity]) our_secretkey (er_pubkey request)))
  end.

Definition get_exit_info_http (s : exit_settings) : ExitState := GotInfo (get_exit_info s) "Got info successfully".
End channel.
End ExitEndpoints.

(** * Properties

    What the exit answers is what the client reads, under the new and under the old key
    of the exit. *)

Module EndpointSpec.
Import ExitDatabase RegistrationQueue ExitEndpoints.

Section channel.
Context `{SB : SecretBox} {BL : SecretBoxLaws SB} `{U : Utf8}.
Context `{SI : Serde ExitClientIdentity} {IL : SerdeLaws SI U} `{SS : Serde ExitState} {SL : SerdeLaws SS U}.
Context `{IN : IpNets} `{WH : WgHash} `{P : Profile}.
(** The keys of a client and the key of the exit the client knows. *)
Context (client_pk client_sk exit_pk exit_sk : Z) (client_pair : key_pair client_pk client_sk) (exit_pair : key_pair exit_pk exit_sk).

Lemma answer_read {A} (SA : Serde A) (AL : SerdeLaws SA U) nonce (a : A) :
  decrypt_answer client_sk exit_pk (secure_return nonce a exit_sk client_pk) = Some a.
Proof.
  unfold decrypt_answer, secure_return. cbn [en_ciphertext en_nonce].
  rewrite (box_opens _ _ client_pk client_sk exit_pk exit_sk) by done. cbn [mbind option_bind].
  by rewrite written_utf8, written_read.
Qed.

Lemma common_spec {A} `{EqDecision A} (a b : list A) : common a b = true <-> exists x, x ∈ a /\ x ∈ b.
Proof.
  unfold common. rewrite existsb_exists. split; intros (x & H1 & H2); exists x; rewrite ?list_elem_of_In in *.
  - by apply bool_decide_eq_true in H2; rewrite list_elem_of_In in H2.
  - split; [done |]. apply bool_decide_eq_true. by rewrite list_elem_of_In.
Qed.
Lemma elem_of_listed regions payments a e :
  e ∈ List.filter (listed regions payments) a <->
  e ∈ a /\ (exists r, r ∈ allowed_regions e /\ r ∈ regions /\ r <> UnkownRegion) /\ (exists c, c ∈ payment_types e /\ c ∈ payments).
Proof.
  rewrite !list_elem_of_In, filter_In. unfold listed. rewrite andb_true_iff, !common_spec.
  setoid_rewrite list_elem_of_filter. naive_solver.
Qed.
Lemma filter_sublist_of {A} (f : A -> bool) l : List.filter f l `sublist_of` l.
Proof. induction l as [| x l IH]; simpl; [done |]. by destruct (f x); constructor. Qed.

(** The exit has the key: as its new one, or as its old one when the new one does not
    open the request. *)
Definition holds_key (keys : exit_keys) (request : EncryptedExitClientIdentity) : Prop :=
  new_secretkey keys = Some exit_sk \/
  exists new, new_secretkey keys = Some new /\ old_secretkey keys = exit_sk /\
    box_open (encrypted_exit_client_id request) (er_nonce request) (er_pubkey request) new = None.

Lemma request_opened keys nonce nonce' id : let request := encrypt_exit_client_id client_pk client_sk nonce' exit_pk id in
  holds_key keys request -> open_request keys nonce request = Some (inr (id, exit_sk)).
Proof.
  intros request Hk.
  assert (Ho : decrypt_exit_client_id nonce request exit_sk = Success id).
  { unfold decrypt_exit_client_id, request, encrypt_exit_client_id. cbn [encrypted_exit_client_id er_nonce er_pubkey].
    rewrite (box_opens _ _ exit_pk exit_sk client_pk client_sk) by done. by rewrite written_utf8, written_read. }
  unfold open_request. destruct Hk as [-> | (new & -> & <- & Hf)]; cbn [mbind option_bind]; [by rewrite Ho |].
  rewrite Ho. unfold decrypt_exit_client_id at 1. by rewrite Hf.
Qed.

(** What a client learns from an outcome at the exit. *)
Definition seen (result : option (RitaExitError + ExitState)) : exit_answer ExitState :=
  match result with
  | None => AnswerSendError
  | Some (inl _) => AnswerNotJson
  | Some (inr state) => Answer state
  end.

(** C34 The channel between a client and an exit is transparent: the client that asks to
    be registered reads exactly the outcome of [signup_client] for the identity it sent,
    and a refusal when the request does not come from the mesh address in it, in which
    case nothing changes at the exit. *)
Theorem setup_over_the_wire keys nonce nonce' s gateway api registration socket id st :
  let request := encrypt_exit_client_id client_pk client_sk nonce' exit_pk id in
  holds_key keys request ->
  let result := secure_setup_request keys nonce s gateway api registration (Some socket) request st in
  let signup := signup_client s (gateway id) api (registration id) (ec_global id) st in
  if bool_decide (socket = mesh_ip (ec_global id))
  then fst <$> result = fst <$> signup /\ as_answer client_sk exit_pk (snd <$> result) = seen (snd <$> signup)
  else fst <$> result = Some st /\ as_answer client_sk exit_pk (snd <$> result) = Answer (Denied "The request ip does not match the signup ip").
Proof.
  intros request Hk result signup. unfold result, secure_setup_request. unfold request in *. rewrite (request_opened keys nonce nonce' id Hk). cbn [mbind option_bind er_pubkey encrypt_exit_client_id].
  case_bool_decide.
  - fold signup. destruct signup as [[st' [x | state]] |]; cbn [mbind option_bind fmap option_fmap option_map fst snd]; [done | | done].
    split; [done |]. unfold as_answer, secure_setup_return. by rewrite (answer_read SS SL).
  - split; [done |]. cbn [fmap option_fmap option_map snd]. unfold as_answer, secure_setup_return. by rewrite (answer_read SS SL).
Qed.

Theorem status_over_the_wire keys nonce nonce' s record id m :
  let request := encrypt_exit_client_id client_pk client_sk nonce' exit_pk id in
  holds_key keys request -> eth_private_key keys <> None ->
  let result := secure_status_request keys nonce s record request m in
  fst <$> result = fst <$> client_status s (record id) m /\
  as_answer client_sk exit_pk (snd <$> result) = seen (snd <$> client_status s (record id) m).
Proof.
  intros request Hk He result. unfold result, secure_status_request. destruct (eth_private_key keys); [| done]. cbn [mbind option_bind]. unfold request in *. rewrite (request_opened keys nonce nonce' id Hk). cbn [mbind option_bind er_pubkey encrypt_exit_client_id].
  destruct (client_status s (record id) m) as [[m' [x | state]] |]; cbn [mbind option_bind fmap option_fmap option_map fst snd]; [done | | done].
  split; [done |]. unfold as_answer, secure_setup_return. by rewrite (answer_read SS SL).
Qed.

(** The whole list, with the exit itself, reaches the client. *)
Theorem list_over_the_wire `{SE : Serde (list ExitIdentity)} {EL : SerdeLaws SE U} keys nonce me contract request :
  er_pubkey request = client_pk -> new_secretkey keys = Some exit_sk -> eth_private_key keys <> None ->
  as_answer client_sk exit_pk (get_exit_list_v2 keys nonce me contract request) = Answer (default [] contract ++ [me]).
Proof.
  intros Hr Hk He. unfold get_exit_list_v2, as_answer. rewrite Hk, Hr. destruct (eth_private_key keys); [| done].
  cbn [mbind option_bind]. by rewrite (answer_read SE EL).
Qed.

(** Older routers get the exits that share a region and a chain with this one, and this
    one last; when the contract cannot be read the list is empty, this exit included. *)
Theorem old_list_over_the_wire `{SE : Serde ExitList} {EL : SerdeLaws SE U} keys nonce me contract regions payments port request :
  er_pubkey request = client_pk -> old_secretkey keys = exit_sk -> eth_private_key keys <> None -> regions <> [] -> payments <> [] ->
  exists l, as_answer client_sk exit_pk (get_exit_list keys nonce (Some me) contract regions payments port request)
      = Answer {| exit_list := l; list_listen_port := port |} /\
    match contract with
    | None => l = []
    | Some a => exists l', l = (exit_identity_to_id <$> l') ++ [me] /\ l' `sublist_of` a /\
        forall e, e ∈ l' <-> e ∈ a /\ (exists r, r ∈ allowed_regions e /\ r ∈ regions /\ r <> UnkownRegion) /\
                         (exists c, c ∈ payment_types e /\ c ∈ payments)
    end.
Proof.
  intros Hr Hk He Hreg Hpay. unfold get_exit_list. destruct (eth_private_key keys); [| done]. cbn [mbind option_bind].
  destruct regions as [| r0 regions]; [done |]. destruct payments as [| p0 payments]; [done |]. destruct contract as [a |].
  - eexists. split; [unfold as_answer; rewrite Hr, Hk; by rewrite (answer_read SE EL) |].
    eexists. split; [reflexivity |]. split; [apply filter_sublist_of |]. intros e. rewrite elem_of_listed. done.
  - exists []. split; [| done]. unfold as_answer. rewrite Hr, Hk. by rewrite (answer_read SE EL).
Qed.

(** A client that is told it is registered has the addresses the exit holds for it. *)
Theorem status_end_to_end keys nonce cs s record id m m' state w exit server :
  let request := encrypt_exit_client_id client_pk client_sk nonce exit_pk id in
  holds_key keys request -> eth_private_key keys <> None ->
  client_status s (record id) m = Some (m', inr state) ->
  exits w !! exit = Some server -> contact_info cs <> None -> our_identity cs = Some (ec_global id) ->
  let answer ip := as_answer client_sk exit_pk (snd <$> secure_status_request keys nonce s record request m) in
  exists w', exit_status_request cs answer exit w = Done w' tt /\
    info <$> exits w' !! exit = Some state.
Proof.
  intros request Hk Hw Hc He Hi Ho answer.
  assert (Ha : forall ip, answer ip = Answer state).
  { intros ip. unfold answer, request. destruct (status_over_the_wire keys nonce nonce s record id m Hk Hw) as [_ ->]. by rewrite Hc. }
  unfold exit_status_request, bind at 1, get_st. rewrite He. destruct (contact_info cs); [| done]. rewrite Ho, Ha.
  cbn -[set_exit_info reset_blacklist_warnings with_exits with_blacklist].
  unfold bind, modify, get_st. cbn [exits with_blacklist]. rewrite He.
  eexists. split; [reflexivity |]. cbn [exits with_exits]. unfold set_exit_info. cbn [exits with_blacklist]. rewrite He.
  by rewrite lookup_insert_eq.
Qed.
End channel.
End EndpointSpec.

Module EndpointDemo.
Import ExitDatabase RegistrationQueue ExitEndpoints EndpointSpec.

(** Any countable code serves for JSON. *)
Section coded.
Context {A C : Type} `{Countable C} (code : A -> C) (uncode : C -> A) (Hcode : forall a, uncode (code a) = a).
Definition coded : Serde A := {|
  to_string a := to_bits (countable.encode (code a));
  from_str b := uncode <$> countable.decode (of_bits b) |}.
Definition all_utf8 : Utf8 := fun _ => true.
Lemma coded_laws : SerdeLaws coded all_utf8.
Proof. split; [| done]. intros a. unfold from_str, to_string, coded. rewrite of_to_bits, decode_encode. cbn. by rewrite Hcode. Qed.
End coded.

Definition chain_code (c : SystemChain) : Z := match c with Ethereum => 0 | Sepolia => 1 | Xdai => 2 | AltheaL1 => 3 end.
Definition code_chain (z : Z) : SystemChain := if z =? 0 then Ethereum else if z =? 1 then Sepolia else if z =? 2 then Xdai else AltheaL1.
Definition verif_code (c : ExitVerifMode) : Z := match c with Phone => 0 | Email => 1 | Off => 2 end.
Definition code_verif (z : Z) : ExitVerifMode := if z =? 0 then Phone else if z =? 1 then Email else Off.
Definition id_code (i : Identity) := (mesh_ip i, eth_address i, wg_public_key i, nickname i).
Definition code_id '(a, b, c, d) : Identity := {| mesh_ip := a; eth_address := b; wg_public_key := c; nickname := d |}.
Definition client_code (c : ExitClientIdentity) :=
  (ec_wg_port c, id_code (ec_global c), (email (reg_details c), email_code (reg_details c), phone (reg_details c), phone_code (reg_details c), sequence_number (reg_details c))).
Definition code_client '(p, i, (a, b, c, d, e)) : ExitClientIdentity :=
  {| ec_wg_port := p; ec_global := code_id i;
     reg_details := {| email := a; email_code := b; phone := c; phone_code := d; sequence_number := e |} |}.
Lemma client_coded c : code_client (client_code c) = c.
Proof. by destruct c as [p [] []]. Qed.
Definition details_code (d : ExitDetails) :=
  (server_internal_ip d, netmask d, wg_exit_port d, exit_price d, chain_code (exit_currency d), description d, verif_code (verif_mode d)).
Definition code_details '(a, b, c, d, e, f, g) : ExitDetails :=
  {| server_internal_ip := a; netmask := b; wg_exit_port := c; exit_price := d; exit_currency := code_chain e; description := f; verif_mode := code_verif g |}.
Lemma details_coded d : code_details (details_code d) = d.
Proof. by destruct d as [? ? ? ? [] ? []]. Qed.
Definition state_code (s : ExitState) :=
  match s with
  | New => inl (inl (inl tt))
  | GotInfo g m => inl (inl (inr (details_code g, m)))
  | Pending g m a b => inl (inr (details_code g, m, a, b))
  | Registered g o m => inr (inl (details_code g, (client_internal_ip o, internet_ipv6_subnet o), m))
  | Denied m => inr (inr m)
  end.
Definition code_state (c : unit + _ + _ + (_ + _)) : ExitState :=
  match c with
  | inl (inl (inl tt)) => New
  | inl (inl (inr (g, m))) => GotInfo (code_details g) m
  | inl (inr (g, m, a, b)) => Pending (code_details g) m a b
  | inr (inl (g, (i, n), m)) => Registered (code_details g) {| client_internal_ip := i; internet_ipv6_subnet := n |} m
  | inr (inr m) => Denied m
  end.
Lemma state_coded s : code_state (state_code s) = s.
Proof. destruct s as [| | | g [] m |]; unfold code_state, state_code; by rewrite ?details_coded. Qed.

#[local] Existing Instance release_profile.
#[local] Existing Instance demo_nets.
#[local] Existing Instance demo_hash.
Definition demo_registrant : ExitClientIdentity := {|
  ec_wg_port := 59999; ec_global := client 2;
  reg_details := {| email := None; email_code := None; phone := None; phone_code := None; sequence_number := None |} |}.
Definition demo_exit : RitaExitState := {| ip_assignment_map := no_assignments; exit_geoip := ∅ |}.
Definition demo_request := encrypt_exit_client_id (SB := demo_box) (SI := coded client_code code_client) 3 (-3) [] 5 demo_registrant.
(** The new key of the exit is another one, and the client used the old one. *)
Definition demo_keys : exit_keys := {| old_secretkey := -5; new_secretkey := Some (-8); eth_private_key := Some 1 |}.

Definition from_canada (_ : IpAddr) : geo_answer := IsoCode "CA".
Lemma demo_signup : exists st g o, signup_client demo_settings (inr (V4 1)) from_canada RegistrationOk (client 2) demo_exit = Some (st, inr (Registered g o "Registration OK")).
Proof. eexists _, _, _. vm_compute. reflexivity. Qed.

Lemma setup_over_the_wire_witness :
  let result := secure_setup_request (SB := demo_box) (U := all_utf8) (SI := coded client_code code_client) (SS := coded state_code code_state)
                  demo_keys [] demo_settings (fun _ => inr (V4 1)) from_canada (fun _ => RegistrationOk) (Some (V6 2)) demo_request demo_exit in
  exists g o, as_answer (SB := demo_box) (U := all_utf8) (SA := coded state_code code_state) (-3) 5 (snd <$> result)
    = Answer (Registered g o "Registration OK").
Proof.
  intros result. destruct demo_signup as (st & g & o & E). exists g, o.
  assert (Hk : @holds_key demo_box (-5) demo_keys demo_request) by (right; exists (-8); done).
  destruct (setup_over_the_wire (BL := demo_box_laws) (IL := coded_laws client_code code_client client_coded)
    (SL := coded_laws state_code code_state state_coded) 3 (-3) 5 (-5) eq_refl eq_refl demo_keys [] [] demo_settings
    (fun _ => inr (V4 1)) from_canada (fun _ => RegistrationOk) (V6 2) demo_registrant demo_exit Hk) as [_ Ha].
  etrans; [exact Ha |]. cbn [ec_global demo_registrant]. by rewrite E.
Defined.
End EndpointDemo.
