(* ===== verification/KernelShell.v ===== *)
(** Running system commands (althea_kernel_interface/src/lib.rs), and the two
    files that talk to the packet filter: iptables.rs and netfilter.rs.  What a
    command answers may depend on all commands before it; output is ASCII text. *)
From S2P Require Import Prelude Types Text.

(** [RuntimeError] with the errors of the standard library that become one. *)
Inductive KernelInterfaceError :=
| RuntimeError (s : string)
| IoError
| AddrParseFailure
| ParseIntFailure
| NoAltheaReleaseFeedFound
| EmptyRouteString
| InvalidRouteString (s : text)
| TrafficControlError (stderr : text)
| ParseError (line : text)
| NoInterfaceError (name : text)
| AddressNotReadyError
| WgExists
| FailedToGetMemoryUsage
| FailedToGetMemoryInfo
| FailedToGetLoadAverage
| FailedToGetSystemTime
| FailedToGetSystemKernelVersion
| ParseFloatFailure.

Record Output := { out_success : bool; out_stdout : text; out_stderr : text }.
Abbreviation Command := (text * list text)%type.

(** The machine: what a command returns after the commands run before it. *)
Class Shell := { shell_answer : list Command -> text -> list text -> option Output }.

Module KernelShell.
Section shell.
Context `{SH : Shell}.
Abbreviation KI A := (M (list Command) KernelInterfaceError A).

(** The state is the history, oldest first. *)
Definition ki_run (program : text) (args : list text) : KI Output := fun h =>
  match shell_answer h program args with
  | Some o => Done (h ++ [(program, args)]) o
  | None => Fail (h ++ [(program, args)]) IoError
  end.
Definition sh (program : string) (args : list string) : KI Output := ki_run (lit program) (lit <$> args).

(** * iptables.rs *)

(** The rule turned into a test: [-I] and [-A] become [-C], and the index that
    may follow the chain of [-I] is left out; a panic when the rule is too short
    to look for it. *)
Fixpoint check_args (rule : list text) (i : nat) (i_pos_skip : option nat) (rest : list text) : option (list text) :=
  match rest with
  | [] => Some []
  | rul :: rest =>
      if bool_decide (i_pos_skip = Some i) then check_args rule (S i) i_pos_skip rest
      else if text_eqb rul (lit "-I") then
        idx ← rule !! (i + 2)%nat;
        let i_pos_skip := match parse_uint 10 U32_MAX idx with Some _ => Some (i + 2)%nat | None => i_pos_skip end in
        (lit "-C" ::.) <$> check_args rule (S i) i_pos_skip rest
      else if text_eqb rul (lit "-A") then (lit "-C" ::.) <$> check_args rule (S i) i_pos_skip rest
      else (rul ::.) <$> check_args rule (S i) i_pos_skip rest
  end.

Definition has_flag (flag : string) (rule : list text) : bool := existsb (text_eqb (lit flag)) rule.

Definition add_iptables_rule (command : text) (rule : list text) : KI unit :=
  if has_flag "-A" rule || has_flag "-I" rule || has_flag "-D" rule then
    let! new_command := unwrap (check_args rule 0 None rule) in
    let! check := ki_run command new_command in
    if negb (out_success check) then let! _ := ki_run command rule in ret tt else ret tt
  else panic.
Definition check_iptable_rule (command : text) (rule : list text) : KI bool :=
  if has_flag "-C" rule then let! check := ki_run command rule in ret (out_success check) else panic.

(** * netfilter.rs *)

Definition does_nftables_exist : KI bool := fun h =>
  match sh "nft" ["-v"] h with
  | Done h out => Done h (contains (lit "nftables") (out_stdout out))
  | Fail h _ => Done h false
  | Panic => Panic
  end.
Definition create_fwd_rule : KI unit :=
  let! _ := sh "nft" ["insert"; "rule"; "inet"; "fw4"; "forward_lan"; "accept"] in ret tt.
Definition create_nft_set (set_name : text) : KI unit :=
  ignore_err (ki_run (lit "nft") ((lit <$> ["add"; "set"; "inet"; "fw4"]) ++ [set_name]
    ++ (lit <$> ["{"; "type"; "ipv6_addr"; "."; "ifname;"; "flags"; "dynamic;"; "counter;"; "size"; "65535;"; "}"]))).
Definition create_nat_table (ex_nic : text) : KI unit :=
  let! _ := sh "nft" ["create"; "table"; "ip"; "nat"] in
  let! _ := sh "nft" ["create"; "chain"; "ip"; "nat"; "postrouting"; "{"; "type"; "nat"; "hook"; "postrouting";
                      "priority"; "100"; ";"; "policy"; "accept"; ";"; "}"] in
  let! _ := ki_run (lit "nft") ((lit <$> ["add"; "rule"; "ip"; "nat"; "postrouting"; "oifname"]) ++ [ex_nic; lit "masquerade"]) in
  ret tt.
Definition is_lan_fwd_present : KI bool :=
  let! out := sh "nft" ["list"; "chain"; "inet"; "fw4"; "forward_lan"] in
  ret (existsb (fun line => text_eqb (trim_text line) (lit "accept")) (lines (out_stdout out))).

(** The last word of the first line with a reject rule. *)
Fixpoint reject_handle (ls : list text) : option Z :=
  match ls with
  | [] => None
  | line :: ls =>
      if contains (lit "reject") line
      then match last (split_on space line) with Some a => parse_uint 10 U32_MAX a | None => None end
      else reject_handle ls
  end.
Definition get_reject_rule_handle : KI (option Z) :=
  let! out := sh "nft" ["-a"; "list"; "chain"; "inet"; "fw4"; "forward_lan"] in
  ret (reject_handle (lines (out_stdout out))).
Definition is_nat_table_present : KI bool :=
  let! out := sh "nft" ["list"; "table"; "ip"; "nat"] in ret (out_success out).

Definition insert_reject_rule : KI unit :=
  let! handle := get_reject_rule_handle in
  match handle with
  | None => let! _ := sh "nft" ["insert"; "rule"; "inet"; "fw4"; "forward_lan"; "reject"] in ret tt
  | Some _ => ret tt
  end.
Definition delete_reject_rule : KI unit :=
  let! handle := get_reject_rule_handle in
  match handle with
  | Some handle =>
      let! _ := ki_run (lit "nft") ((lit <$> ["delete"; "rule"; "inet"; "fw4"; "forward_lan"; "handle"]) ++ [show_uint handle]) in
      ret tt
  | None => ret tt
  end.
Definition init_nat_chain (ex_nic : text) : KI unit :=
  let! present := is_nat_table_present in
  if negb present then create_nat_table ex_nic else ret tt.
Definition set_nft_lan_fwd_rule : KI unit :=
  let! present := is_lan_fwd_present in
  if negb present then create_fwd_rule else ret tt.

Definition exit_forward_line (interface ex_nic : text) : text :=
  lit "iifname " ++ interface ++ lit " oifname " ++ ex_nic.
Definition are_nft_exit_forward_rules_present (interface ex_nic : text) : KI bool :=
  let! out := sh "nft" ["list"; "chain"; "inet"; "fw4"; "forward"] in
  ret (existsb (contains (exit_forward_line interface ex_nic)) (lines (out_stdout out))).
(** [external_v6] is the text of the network. *)
Definition insert_nft_exit_forward_rules (interface ex_nic : text) (external_v6 : option text) : KI unit :=
  let! present := are_nft_exit_forward_rules_present interface ex_nic in
  if negb present then
    let! _ := ki_run (lit "nft") ((lit <$> ["add"; "rule"; "inet"; "fw4"; "forward"; "iifname"])
                ++ [interface; lit "oifname"; ex_nic; lit "counter"; lit "accept"]) in
    let! _ := ki_run (lit "nft") ((lit <$> ["add"; "rule"; "inet"; "fw4"; "forward"; "meta"; "nfproto"; "ipv4"; "iifname"])
                ++ [ex_nic; lit "oifname"; interface]
                ++ (lit <$> ["ct"; "state"; "related,established"; "counter"; "accept"])) in
    match external_v6 with
    | Some network =>
        let! _ := ki_run (lit "nft") ((lit <$> ["add"; "rule"; "inet"; "fw4"; "forward"; "iifname"])
                    ++ [ex_nic; lit "oifname"; interface; lit "ip"; lit "daddr"; network; lit "counter"; lit "accept"]) in
        ret tt
    | None => ret tt
    end
  else ret tt.

(** [expect] panics when the command cannot be run. *)
Definition is_nft_set_present (set_name : text) : KI bool := fun h =>
  match ki_run (lit "nft") ((lit <$> ["list"; "set"; "inet"; "fw4"]) ++ [set_name]) h with
  | Done h out => Done h (out_success out)
  | Fail _ _ => Panic
  | Panic => Panic
  end.
Definition create_nft_insert_chain (set_name chain interface : text) : KI unit :=
  let at_set := lit "@" ++ set_name in
  let! _ := ignore_err (ki_run (lit "nft") ((lit <$> ["insert"; "rule"; "inet"; "fw4"]) ++ [chain]
              ++ (lit <$> ["ip6"; "daddr"; "."; "meta"]) ++ [interface; at_set])) in
  ignore_err (ki_run (lit "nft") ((lit <$> ["insert"; "rule"; "inet"; "fw4"]) ++ [chain]
              ++ (lit <$> ["ip6"; "daddr"; "."; "meta"]) ++ [interface; lit "!="; at_set; lit "add"; at_set]
              ++ (lit <$> ["{"; "ip6"; "daddr"; "."; "meta"]) ++ [interface; lit "counter"; lit "}"])).
Definition nft_init_counters (set_name chain interface : text) : KI unit :=
  let! present := is_nft_set_present set_name in
  if negb present then
    let! _ := create_nft_set set_name in create_nft_insert_chain set_name chain interface
  else ret tt.

(** * Properties *)

Lemma ki_run_done program args h h' o :
  ki_run program args h = Done h' o -> h' = h ++ [(program, args)] /\ shell_answer h program args = Some o.
Proof. unfold ki_run. destruct (shell_answer h program args); by intros [= <- <-]. Qed.

End shell.

(** ** Rules are added once

    A packet filter that keeps a list of rules, where [-C] tests for a rule and
    [-A] appends one; an index after [-I] is not part of the rule. *)
Definition rule_body (args : list text) : list text := filter (fun a => a <> lit "-A" /\ a <> lit "-C") args.
Definition adds_rule (c : Command) : bool := has_flag "-A" c.2.
Definition table_of (command : text) (h : list Command) : list (list text) :=
  omap (fun c => if text_eqb c.1 command && adds_rule c then Some (rule_body c.2) else None) h.
Definition filter_shell : Shell := {|
  shell_answer h program args :=
    Some {| out_success := if has_flag "-C" args then bool_decide (rule_body args ∈ table_of program h) else true;
            out_stdout := []; out_stderr := [] |} |}.
#[local] Existing Instance filter_shell.

Lemma table_app command h h' : table_of command (h ++ h') = table_of command h ++ table_of command h'.
Proof. unfold table_of. by rewrite omap_app. Qed.

Lemma check_args_append rule i rest :
  has_flag "-I" rest = false ->
  check_args rule i None rest = Some ((fun a => if text_eqb a (lit "-A") then lit "-C" else a) <$> rest).
Proof.
  revert i. induction rest as [|a rest IH]; intros i; [done|]. unfold has_flag. cbn [existsb check_args].
  intros [Ha Hr]%orb_false_iff. rewrite bool_decide_eq_false_2 by done.
  assert (Hc : text_eqb a (lit "-I") = false).
  { unfold text_eqb in *. apply bool_decide_eq_false in Ha. apply bool_decide_eq_false. congruence. }
  rewrite Hc, IH, fmap_cons by done. by destruct (text_eqb a (lit "-A")) eqn:E; cbn [fmap option_fmap option_map]; rewrite ?E.
Qed.
Lemma rule_body_check rest :
  rule_body ((fun a => if text_eqb a (lit "-A") then lit "-C" else a) <$> rest) = rule_body rest.
Proof.
  induction rest as [|a rest IH]; [done|]. unfold rule_body in *. rewrite fmap_cons, !filter_cons, IH.
  unfold text_eqb. case_bool_decide as Ha; [|done]. subst a. by rewrite !decide_False by (intros [? ?]; done).
Qed.
Lemma check_flag rest :
  has_flag "-A" rest = true -> has_flag "-C" ((fun a => if text_eqb a (lit "-A") then lit "-C" else a) <$> rest) = true.
Proof.
  induction rest as [|a rest IH]; [done|]. unfold has_flag in *. cbn [existsb fmap list_fmap].
  intros [Ha|Hr]%orb_true_iff; [|by rewrite IH, orb_true_r].
  apply bool_decide_eq_true in Ha as <-. done.
Qed.
Lemma check_no_add rest :
  adds_rule (lit "x", (fun a => if text_eqb a (lit "-A") then lit "-C" else a) <$> rest) = false.
Proof.
  unfold adds_rule, has_flag. cbn [snd]. induction rest as [|a rest IH]; [done|]. cbn [existsb fmap list_fmap].
  rewrite IH, orb_false_r. unfold text_eqb. destruct (decide (a = lit "-A")) as [->|Ha]; [reflexivity|].
  rewrite (bool_decide_eq_false_2 (a = _)) by done. apply bool_decide_eq_false. congruence.
Qed.

(** Adding a rule is idempotent: afterwards the filter has the rule, it has one
    more rule than before only if it did not have it, and adding it again changes
    nothing. *)
Theorem rule_added_once command rule h :
  has_flag "-A" rule = true -> has_flag "-I" rule = false -> has_flag "-C" rule = false ->
  exists h1 h2, add_iptables_rule command rule h = Done h1 tt /\ add_iptables_rule command rule h1 = Done h2 tt
    /\ table_of command h1 = (if decide (rule_body rule ∈ table_of command h) then table_of command h
                              else table_of command h ++ [rule_body rule])
    /\ rule_body rule ∈ table_of command h1
    /\ table_of command h2 = table_of command h1.
Proof.
  intros HA HI HC.
  set (chk := (fun a => if text_eqb a (lit "-A") then lit "-C" else a) <$> rule).
  assert (Hflag : has_flag "-C" chk = true) by (by apply check_flag).
  assert (Hbody : rule_body chk = rule_body rule) by apply rule_body_check.
  assert (Hstep : forall h, add_iptables_rule command rule h
    = Done (h ++ [(command, chk)] ++ if decide (rule_body rule ∈ table_of command h) then [] else [(command, rule)]) tt).
  { intros h0. unfold add_iptables_rule. rewrite HA. cbn [orb]. rewrite check_args_append by done.
    unfold bind, unwrap, ki_run. cbn [shell_answer filter_shell]. fold chk. rewrite Hflag, Hbody. cbn [out_success].
    destruct (decide (rule_body rule ∈ table_of command h0)).
    - rewrite bool_decide_eq_true_2 by done. done.
    - rewrite bool_decide_eq_false_2 by done. cbn. by rewrite <- app_assoc. }
  assert (Hchk : table_of command [(command, chk)] = []).
  { unfold table_of. cbn [omap list_omap fst snd]. unfold adds_rule, chk. cbn [snd].
    pose proof (check_no_add rule) as Hn. unfold adds_rule in Hn. cbn [snd] in Hn. by rewrite Hn, andb_false_r. }
  assert (Hrule : table_of command [(command, rule)] = [rule_body rule]).
  { unfold table_of. cbn [omap list_omap fst snd]. unfold adds_rule. cbn [snd]. rewrite HA.
    unfold text_eqb. by rewrite bool_decide_eq_true_2. }
  do 2 eexists. split; [apply Hstep|]. split; [apply Hstep|].
  assert (Htab : table_of command (h ++ [(command, chk)] ++ if decide (rule_body rule ∈ table_of command h) then [] else [(command, rule)])
    = (if decide (rule_body rule ∈ table_of command h) then table_of command h else table_of command h ++ [rule_body rule])).
  { rewrite !table_app, Hchk. case_decide; cbn [app]; [by rewrite app_nil_r|by rewrite Hrule]. }
  split; [done|].
  assert (Hin : rule_body rule ∈ table_of command (h ++ [(command, chk)] ++ if decide (rule_body rule ∈ table_of command h) then [] else [(command, rule)])).
  { rewrite Htab. case_decide; [done|]. apply elem_of_app. right. by left. }
  split; [done|]. set (h1 := h ++ _) in *. rewrite (table_app _ h1), table_app, Hchk, decide_True by done. by rewrite app_nil_r.
Qed.

End KernelShell.
