(* ===== verification/KernelCounters.v ===== *)
(** The byte counters of the packet filter
    (althea_kernel_interface/src/counter.rs): setting them up, reading them with
    ipset or nftables, and parsing what those commands print. *)
From S2P Require Import Prelude Types Text IpText Babel TrafficWatcher KernelShell.
Import KernelShell.

Inductive FilterTarget := FilterInput | FilterOutput | ForwardInput | ForwardOutput.

Module KernelCounters.

Definition interface (self : FilterTarget) : string :=
  match self with FilterInput | ForwardInput => "src" | FilterOutput | ForwardOutput => "dst" end.
Definition nft_interface (self : FilterTarget) : string :=
  match self with FilterInput | ForwardInput => "iifname" | FilterOutput | ForwardOutput => "oifname" end.
Definition set_name (self : FilterTarget) : string :=
  match self with
  | FilterInput => "rita_input" | FilterOutput => "rita_output"
  | ForwardInput => "rita_fwd_input" | ForwardOutput => "rita_fwd_output" end.
Definition table (self : FilterTarget) : string :=
  match self with FilterInput => "INPUT" | FilterOutput => "OUTPUT" | ForwardOutput | ForwardInput => "FORWARD" end.
Definition chain (self : FilterTarget) : string :=
  match self with FilterInput => "input" | FilterOutput => "output" | ForwardOutput | ForwardInput => "forward" end.

(** * Reading ipset

    The regular expression, at the start of a line: [add], a word, an address
    and an interface of WireGuard, packets and bytes.  Every part ends where a
    character follows that is not in its class, so there is nothing to try
    twice. *)
Fixpoint expect (p l : text) : option text :=
  match p, l with
  | [], _ => Some l
  | a :: p, b :: l => if Ascii.eqb a b then expect p l else None
  | _ :: _, [] => None
  end.
Fixpoint span (f : ascii -> bool) (l : text) : text * text :=
  match l with
  | [] => ([], [])
  | c :: rest => if f c then let '(a, r) := span f rest in (c :: a, r) else ([], l)
  end.
(** One or more characters of a class. *)
Definition some_of (f : ascii -> bool) (l : text) : option (text * text) :=
  match span f l with ([], _) => None | (a, r) => Some (a, r) end.
Definition is_digit (c : ascii) : bool :=
  let n := Ascii.nat_of_ascii c in (Nat.leb 48 n && Nat.leb n 57)%nat.
Definition in_address (c : ascii) : bool :=
  let n := Ascii.nat_of_ascii c in is_digit c || (Nat.leb 97 n && Nat.leb n 102)%nat || Ascii.eqb c ":".
Definition not_space (c : ascii) : bool := negb (is_whitespace c).

Definition match_ipset (l : text) : option (text * text * text * text) :=
  l ← expect (lit "add ") l;
  '(_, l) ← some_of not_space l;
  l ← expect (lit " ") l;
  '(addr, l) ← some_of in_address l;
  l ← expect (lit ",wg") l;
  '(num, l) ← some_of is_digit l;
  l ← expect (lit " packets ") l;
  '(packets, l) ← some_of is_digit l;
  l ← expect (lit " bytes ") l;
  '(bytes, _) ← some_of is_digit l;
  Some (addr, lit "wg" ++ num, packets, bytes).

Section counters.
Context `{P : Profile}.

(** Bytes with the headers of the packets, in a [u64]. *)
Definition with_headers {St : Type} (packets bytes : Z) : M St KernelInterfaceError Z :=
  let! headers := unwrap (u64_of (packets * 40)) in unwrap (u64_of (bytes + headers)).

Fixpoint ipset_lines {St : Type} (ls : list text) (map : Counters) : M St KernelInterfaceError Counters :=
  match ls with
  | [] => ret map
  | l :: ls =>
      match match_ipset l with
      | None => ipset_lines ls map
      | Some (addr, iface, packets, bytes) =>
          let! ip := ok_or (parse_ip addr) AddrParseFailure in
          let! bytes := ok_or (parse_uint 10 U64_MAX bytes) ParseIntFailure in
          let! packets := ok_or (parse_uint 10 U64_MAX packets) ParseIntFailure in
          let! total := with_headers packets bytes in
          ipset_lines ls (<[(ip, iface) := total]> map)
      end
  end.
Definition parse_ipset {St : Type} (input : text) : M St KernelInterfaceError Counters :=
  ipset_lines (split_on newline input) ∅.

(** * Reading nftables *)

(** [str::replace]. *)
Fixpoint replace_fuel (fuel : nat) (from to l : text) : text :=
  match fuel, l with
  | O, _ => l
  | _, [] => []
  | S fuel, c :: rest =>
      match expect from l with
      | Some r => to ++ replace_fuel fuel from to r
      | None => c :: replace_fuel fuel from to rest
      end
  end.
Definition replace (from to l : text) : text := replace_fuel (length l) from to l.
(** [split_ascii_whitespace]. *)
Definition words (l : text) : list text :=
  filter (fun w => w <> []) (foldr (fun c acc => match acc with
                                                 | w :: ws => if is_whitespace c then [] :: w :: ws else (c :: w) :: ws
                                                 | [] => [[c]]
                                                 end) [[]] l).

(** One line: an address, a dot, an interface in quotes, two words, the packets, a
    word and the bytes. *)
Definition nft_line {St : Type} (line : text) : M St KernelInterfaceError (IpAddr * text * Z) :=
  let w i := default [] (words (replace (lit "elements = { ") [] line) !! i) in
  let! ip_addr := ok_or (parse_ip (w 0%nat)) AddrParseFailure in
  let! iface := ok_or (words (replace (lit "elements = { ") [] line) !! 2%nat) (ParseError line) in
  let iface := replace [Ascii.ascii_of_nat 34] [] iface in
  let! packets := ok_or (parse_uint 10 U64_MAX (w 5%nat)) ParseIntFailure in
  let! bytes := ok_or (parse_uint 10 U64_MAX (replace (lit ",") [] (w 7%nat))) ParseIntFailure in
  let! headers := unwrap (u64_of (packets * 40)) in
  let! total_bytes := unwrap (u64_of (headers + bytes)) in
  ret (ip_addr, iface, total_bytes).
Fixpoint nft_lines {St : Type} (ls : list text) (ret_map : Counters) : M St KernelInterfaceError Counters :=
  match ls with
  | [] => ret ret_map
  | line :: ls =>
      if contains (lit "packets") line then
        let! (ip_addr, iface, total_bytes) := nft_line line in
        nft_lines ls (<[(ip_addr, iface) := total_bytes]> ret_map)
      else nft_lines ls ret_map
  end.

Context `{SH : Shell}.
Abbreviation KI A := (M (list Command) KernelInterfaceError A).

Definition parse_nft_set_counters (set_name : string) : KI Counters :=
  let! out := sh "nft" ["list"; "set"; "inet"; "fw4"; set_name] in
  let! _ := sh "nft" ["flush"; "set"; "inet"; "fw4"; set_name] in
  nft_lines (lines (out_stdout out)) ∅.

Definition init_counter (target : FilterTarget) : KI unit :=
  let! nft := does_nftables_exist in
  if (nft : bool) then nft_init_counters (lit (set_name target)) (lit (chain target)) (lit (nft_interface target))
  else
    let! _ := sh "ipset" ["create"; set_name target; "hash:net,iface"; "family"; "inet6"; "counters"] in
    add_iptables_rule (lit "ip6tables")
      (lit <$> ["-w"; "-I"; table target; "1"; "-m"; "set"; "!"; "--match-set"; set_name target;
                "dst," +:+ interface target; "-j"; "SET"; "--add-set"; set_name target; "dst," +:+ interface target]).

Definition tmp_name (target : FilterTarget) : string := "tmp_" +:+ set_name target.
Definition read_counters (target : FilterTarget) : KI Counters :=
  let! nft := does_nftables_exist in
  if (nft : bool) then parse_nft_set_counters (set_name target)
  else
    let! _ := sh "ipset" ["create"; tmp_name target; "hash:net,iface"; "family"; "inet6"; "counters"] in
    let! _ := sh "ipset" ["swap"; tmp_name target; set_name target] in
    let! output := sh "ipset" ["save"; tmp_name target] in
    let! res := (fun h => match parse_ipset (St := list Command) (out_stdout output) h with
                          | Done h m => Done h (inr m) | Fail h e => Done h (inl e) | Panic => Panic end) in
    let! _ := sh "ipset" ["destroy"; tmp_name target] in
    match res with inr m => ret m | inl e => throw e end.

End counters.

End KernelCounters.

(** * Properties

    What reading the byte counters means (KernelCounters.v): the counters that are
    printed are the counters that are read, and no byte is lost between two reads
    with ipset, while with nftables the ones between two commands are. *)

Import KernelShell KernelCounters.

(** * Reading what is printed *)

Lemma expect_app p l : expect p (p ++ l) = Some l.
Proof. induction p as [|a p IH]; [done|]. cbn [expect app]. by rewrite Ascii.eqb_refl. Qed.
(** The text after a run does not continue it. *)
Definition stops (f : ascii -> bool) (l : text) : Prop := match l with [] => True | c :: _ => f c = false end.
Lemma span_app f a l : Forall (fun c => f c = true) a -> stops f l -> span f (a ++ l) = (a, l).
Proof.
  intros Ha Hl. induction Ha as [|c a Hc _ IH]; cbn.
  - destruct l as [|c l]; [done|]. cbn in *. by rewrite Hl.
  - by rewrite Hc, IH.
Qed.
Lemma some_of_app f a l :
  a <> [] -> Forall (fun c => f c = true) a -> stops f l -> some_of f (a ++ l) = Some (a, l).
Proof. intros Hne Ha Hl. unfold some_of. rewrite span_app by done. by destruct a. Qed.

Lemma digit_char_is_digit d : 0 <= d < 10 -> is_digit (digit_char d) = true.
Proof.
  intros Hd. assert (d = 0 \/ d = 1 \/ d = 2 \/ d = 3 \/ d = 4 \/ d = 5 \/ d = 6 \/ d = 7 \/ d = 8 \/ d = 9) as H by lia.
  by repeat destruct H as [->|H]; [..|subst].
Qed.
Lemma decimal_digits_are fuel n : 0 <= n -> Forall (fun c => is_digit c = true) (decimal_digits fuel n).
Proof.
  revert n. induction fuel as [|fuel IH]; intros n Hn; cbn [decimal_digits]; [constructor|].
  destruct (Z.ltb_spec n 10).
  - constructor; [|constructor]. apply digit_char_is_digit. lia.
  - apply Forall_app. split; [apply IH, Z.div_pos; lia|]. constructor; [|constructor].
    apply digit_char_is_digit. apply Z.mod_pos_bound. lia.
Qed.
Lemma decimal_digits_nonempty fuel n : (0 < fuel)%nat -> decimal_digits fuel n <> [].
Proof. destruct fuel; [lia|]. intros _. cbn. destruct (n <? 10); [done|]. by destruct (decimal_digits fuel (n / 10)). Qed.

(** A counter: the text of its address, the number of its interface, packets and
    bytes. *)
Record entry := { en_addr : text; en_ip : IpAddr; en_num : text; en_packets : Z; en_bytes : Z }.
Definition entry_ok (e : entry) : Prop :=
  en_addr e <> [] /\ Forall (fun c => in_address c = true) (en_addr e) /\ parse_ip (en_addr e) = Some (en_ip e)
  /\ en_num e <> [] /\ Forall (fun c => is_digit c = true) (en_num e)
  /\ 0 <= en_packets e /\ 0 <= en_bytes e /\ en_bytes e + en_packets e * 40 <= U64_MAX.
Definition entry_key (e : entry) : IpAddr * text := (en_ip e, lit "wg" ++ en_num e).
Definition entry_total (e : entry) : Z := en_bytes e + en_packets e * 40.
Definition entry_line (set : text) (e : entry) : text :=
  lit "add " ++ set ++ lit " " ++ en_addr e ++ lit ",wg" ++ en_num e
  ++ lit " packets " ++ show_uint (en_packets e) ++ lit " bytes " ++ show_uint (en_bytes e).
Definition totals (es : list entry) : Counters := foldl (fun m e => <[entry_key e := entry_total e]> m) ∅ es.

Lemma match_entry_line set e :
  set <> [] -> Forall (fun c => not_space c = true) set -> entry_ok e ->
  match_ipset (entry_line set e)
  = Some (en_addr e, lit "wg" ++ en_num e, show_uint (en_packets e), show_uint (en_bytes e)).
Proof.
  intros Hs Hsf (Ha & Haf & _ & Hn & Hnf & Hp & Hb & _). unfold match_ipset, entry_line.
  rewrite expect_app. cbn [mbind option_bind]. rewrite some_of_app by done. cbn [mbind option_bind].
  rewrite expect_app. cbn [mbind option_bind]. rewrite some_of_app by done. cbn [mbind option_bind].
  rewrite expect_app. cbn [mbind option_bind]. rewrite some_of_app by done. cbn [mbind option_bind].
  rewrite expect_app. cbn [mbind option_bind].
  rewrite some_of_app by first [done | apply decimal_digits_nonempty; lia | by apply decimal_digits_are]. cbn [mbind option_bind].
  rewrite expect_app. cbn [mbind option_bind]. rewrite <- (app_nil_r (show_uint (en_bytes e))).
  rewrite some_of_app by first [done | apply decimal_digits_nonempty; lia | by apply decimal_digits_are].
  cbn [mbind option_bind]. by rewrite app_nil_r.
Qed.

Section parse.
Context `{P : Profile}.

(** One line of the output: a counter, or something else that is passed over. *)
Inductive shown (set : text) : list text -> list entry -> Prop :=
| shown_nil : shown set [] []
| shown_entry e ls es : entry_ok e -> shown set ls es -> shown set (entry_line set e :: ls) (e :: es)
| shown_other l ls es : match_ipset l = None -> shown set ls es -> shown set (l :: ls) es.

Lemma ipset_lines_shown {St : Type} set ls es m (s : St) :
  set <> [] -> Forall (fun c => not_space c = true) set -> shown set ls es ->
  ipset_lines ls m s = Done s (foldl (fun m e => <[entry_key e := entry_total e]> m) m es).
Proof.
  intros Hs Hsf Hsh. revert m. induction Hsh as [|e ls es He _ IH|l ls es Hl _ IH]; intros m; cbn [ipset_lines foldl]; [done| |].
  - rewrite match_entry_line by done. destruct He as (_ & _ & Hip & _ & _ & Hp & Hb & Ht).
    unfold bind, ok_or. rewrite Hip. unfold U64_MAX in *.
    rewrite !parse_show_uint by lia. unfold with_headers, bind, unwrap, u64_of.
    rewrite !native_exact by (unfold U64_MAX; lia). apply IH.
  - rewrite Hl. apply IH.
Qed.

(** Reading back what ipset prints: for any output whose lines are counters and
    other lines, the map holds for each address and interface its bytes and the
    headers of its packets, the later line when there are two. *)
Theorem ipset_roundtrip {St : Type} set ls es (s : St) :
  set <> [] -> Forall (fun c => not_space c = true) set -> ls <> [] -> Forall (fun l => newline ∉ l) ls ->
  shown set ls es ->
  parse_ipset (join newline ls) s = Done s (totals es).
Proof.
  intros Hs Hsf Hne Hnl Hsh. unfold parse_ipset. rewrite split_join by done. by eapply ipset_lines_shown.
Qed.
End parse.

(** * No byte is lost

    A machine on which traffic keeps arriving: the set that counts, and the
    temporary one.  Before command number [n] of its history the traffic
    [arrive n] is counted; only sets of the target are modelled, and no command
    fails. *)
Abbreviation Traffic := (gmap ckey (Z * Z)).
Definition add_traffic (m a : Traffic) : Traffic := union_with (fun x y => Some (x.1 + y.1, x.2 + y.2)) m a.
Definition count (m : Traffic) (k : ckey) : Z := match m !! k with Some x => x.2 + x.1 * 40 | None => 0 end.
Definition read_of (m : Counters) (k : ckey) : Z := default 0 (m !! k).
Definition counters_of (m : Traffic) : Counters := (fun x => x.2 + x.1 * 40) <$> m.

(** What [ipset save] prints of a set: the line that creates it and one line per
    counter, with the address as text. *)
Definition counter_line (set : text) (c : ckey * (Z * Z)) : text :=
  lit "add " ++ set ++ lit " " ++ show_ip c.1.1 ++ lit "," ++ c.1.2
  ++ lit " packets " ++ show_uint c.2.1 ++ lit " bytes " ++ show_uint c.2.2.
Definition ipset_save (set : text) (m : Traffic) : text :=
  join newline ([lit "create " ++ set ++ lit " hash:net,iface family inet6 counters"]
                ++ (counter_line set <$> map_to_list m) ++ [[]]).

(** The interfaces the reader knows: [wg] and a number. *)
Definition wg_number (iface : text) : option text :=
  match expect (lit "wg") iface with
  | Some (c :: num) => if forallb is_digit (c :: num) then Some (c :: num) else None
  | _ => None
  end.

(** A counter that can be printed: an IPv6 address whose text has no IPv4 part, an
    interface name without blanks, and a total that fits 64 bits. *)
Definition printable (c : ckey * (Z * Z)) : Prop :=
  ip_ok c.1.1 /\ Forall (fun x => in_address x = true) (show_ip c.1.1)
  /\ c.1.2 <> [] /\ Forall (fun x => not_space x = true) c.1.2
  /\ 0 <= c.2.1 /\ 0 <= c.2.2 /\ c.2.2 + c.2.1 * 40 <= U64_MAX.

Lemma span_split f l a b : span f l = (a, b) -> l = a ++ b /\ Forall (fun c => f c = true) a /\ stops f b.
Proof.
  revert a b. induction l as [|c l IH]; intros a b; cbn; [by intros [= <- <-]|].
  destruct (f c) eqn:Ec; [|intros [= <- <-]; by split_and!].
  destruct (span f l) as [a' b']. intros [= <- <-]. destruct (IH _ _ eq_refl) as (-> & Ha & Hb). split_and!; [done|by constructor|done].
Qed.

Lemma expect_wg i rest :
  Forall (fun c => not_space c = true) i ->
  expect (lit "wg") (i ++ " "%char :: rest) = (fun r => r ++ " "%char :: rest) <$> expect (lit "wg") i.
Proof.
  intros Hi. destruct i as [|a [|b i]]; [done| |].
  - cbn -[Ascii.eqb]. by destruct (Ascii.eqb "w" a).
  - cbn -[Ascii.eqb]. destruct (Ascii.eqb "w" a); [|done]. by destruct (Ascii.eqb "g" b).
Qed.

(** The part of the expression for the interface. *)
Lemma match_iface i rest :
  Forall (fun c => not_space c = true) i ->
  (l ← expect (lit "wg") (i ++ lit " packets " ++ rest); '(num, l) ← some_of is_digit l; l ← expect (lit " packets ") l; Some (num, l))
  = (fun num => (num, rest)) <$> wg_number i.
Proof.
  intros Hi. change (lit " packets " ++ rest) with (" "%char :: lit "packets " ++ rest). rewrite expect_wg by done.
  unfold wg_number. destruct (expect (lit "wg") i) as [r|] eqn:Ei; [|done]. cbn [fmap option_fmap option_map mbind option_bind].
  assert (Hr : Forall (fun c => not_space c = true) r).
  { destruct i as [|a [|b i]]; cbn -[Ascii.eqb] in Ei; [done|by destruct (Ascii.eqb "w" a)|].
    destruct (Ascii.eqb "w" a); [|done]. destruct (Ascii.eqb "g" b); [|done]. injection Ei as ->.
    by apply Forall_cons_1 in Hi as [_ [_ ?]%Forall_cons_1]. }
  destruct (span is_digit r) as [d t] eqn:Es. apply span_split in Es as (-> & Hd & Ht).
  destruct t as [|c t].
  - rewrite app_nil_r. destruct d as [|c d]; [done|].
    rewrite some_of_app by done. cbn [mbind option_bind]. change (" "%char :: lit "packets " ++ rest) with (lit " packets " ++ rest).
    rewrite expect_app. cbn [mbind option_bind].
    assert (forallb is_digit (c :: d) = true) as ->; [|done].
    apply forallb_forall. intros x Hx%list_elem_of_In. rewrite Forall_forall in Hd. by apply Hd.
  - assert (Hnot : forallb is_digit (d ++ c :: t) = false).
    { rewrite forallb_app. cbn in Ht |- *. rewrite Ht. by rewrite andb_false_r. }
    assert (Hc : not_space c = true) by (rewrite Forall_app in Hr; destruct Hr as [_ [? _]%Forall_cons_1]; done).
    rewrite <- app_assoc. destruct d as [|x d].
    + cbn [app]. unfold some_of. cbn [span]. cbn in Ht. rewrite Ht. cbn. by rewrite Ht.
    + rewrite some_of_app by done. cbn [mbind option_bind]. cbn [app] in Hnot |- *. rewrite Hnot.
      assert (Ascii.eqb " " c = false) as E by (destruct (Ascii.eqb_spec " "%char c) as [<-|]; [done|done]).
      cbn [expect lit String.list_ascii_of_string]. by rewrite E.
Qed.

(** A line is read back, and passed over when its interface is not WireGuard's. *)
Lemma match_counter_line set c :
  set <> [] -> Forall (fun x => not_space x = true) set -> printable c ->
  match_ipset (counter_line set c)
  = (fun num => (show_ip c.1.1, lit "wg" ++ num, show_uint c.2.1, show_uint c.2.2)) <$> wg_number c.1.2.
Proof.
  intros Hs Hsf (Hip & Ha & Hi & Hif & Hp & Hb & _). unfold match_ipset, counter_line.
  rewrite expect_app. cbn [mbind option_bind]. rewrite some_of_app by done. cbn [mbind option_bind].
  rewrite expect_app. cbn [mbind option_bind]. rewrite some_of_app by (done || by apply show_ip_nonempty). cbn [mbind option_bind].
  pose proof (match_iface c.1.2 (show_uint c.2.1 ++ lit " bytes " ++ show_uint c.2.2) Hif) as Hm.
  assert (Hx : forall l, expect (lit ",wg") (lit "," ++ l) = expect (lit "wg") l) by done. rewrite Hx. clear Hx.
  destruct (expect (lit "wg") _) as [l|]; cbn [mbind option_bind] in Hm |- *; [|by destruct (wg_number c.1.2)].
  destruct (some_of is_digit l) as [[num l']|]; cbn [mbind option_bind] in Hm |- *; [|by destruct (wg_number c.1.2)].
  destruct (expect (lit " packets ") l') as [l''|]; cbn [mbind option_bind] in Hm |- *; [|by destruct (wg_number c.1.2)].
  destruct (wg_number c.1.2) as [num'|]; [|done]. cbn [fmap option_fmap option_map] in Hm |- *.
  assert (num = num' /\ l'' = show_uint c.2.1 ++ lit " bytes " ++ show_uint c.2.2) as [-> ->] by (split; congruence).
  rewrite some_of_app by first [done | apply decimal_digits_nonempty; lia | by apply decimal_digits_are]. cbn [mbind option_bind].
  rewrite expect_app. cbn [mbind option_bind]. rewrite <- (app_nil_r (show_uint c.2.2)).
  rewrite some_of_app by first [done | apply decimal_digits_nonempty; lia | by apply decimal_digits_are].
  cbn. by rewrite app_nil_r.
Qed.

Lemma expect_inv p l rest : expect p l = Some rest -> l = p ++ rest.
Proof.
  revert l. induction p as [|a p IH]; intros l; cbn [expect]; [by intros [= ->]|].
  destruct l as [|b l]; [done|]. destruct (Ascii.eqb_spec a b) as [<-|]; [|done]. intros ->%IH. done.
Qed.
Lemma wg_number_name i num : wg_number i = Some num -> lit "wg" ++ num = i.
Proof.
  unfold wg_number. destruct (expect (lit "wg") i) as [[|c r]|] eqn:E; [done| |done].
  destruct (forallb _ _); [|done]. intros [= <-]. by apply expect_inv in E.
Qed.

(** What is kept of the counters that were printed. *)
Definition keep_counter (m : Counters) (c : ckey * (Z * Z)) : Counters :=
  match wg_number c.1.2 with Some _ => <[c.1 := c.2.2 + c.2.1 * 40]> m | None => m end.

Lemma ipset_lines_counters `{P : Profile} {St : Type} set L m (s : St) :
  set <> [] -> Forall (fun x => not_space x = true) set -> Forall printable L ->
  ipset_lines ((counter_line set <$> L) ++ [[]]) m s = Done s (foldl keep_counter m L).
Proof.
  intros Hs Hsf HL. revert m. induction HL as [|c L Hc _ IH]; intros m; [done|].
  rewrite fmap_cons. cbn [app ipset_lines foldl]. rewrite match_counter_line by done. unfold keep_counter at 2.
  destruct (wg_number c.1.2) as [num|] eqn:En; [|apply IH]. cbn [fmap option_fmap option_map].
  destruct Hc as (Hip & _ & _ & _ & Hp & Hb & Ht). unfold bind, ok_or. rewrite parse_show_ip by done. unfold U64_MAX in *.
  rewrite !parse_show_uint by lia. unfold with_headers, bind, unwrap, u64_of.
  rewrite !native_exact by (unfold U64_MAX; lia). rewrite (wg_number_name _ _ En), <- surjective_pairing. apply IH.
Qed.

Lemma kept_lookup L m k : NoDup L.*1 ->
  foldl keep_counter m L !! k
  = match (list_to_map L : Traffic) !! k, wg_number k.2 with Some x, Some _ => Some (x.2 + x.1 * 40) | _, _ => m !! k end.
Proof.
  revert m. induction L as [|[k0 x0] L IH]; intros m Hnd; [done|]. cbn [foldl list_to_map foldr uncurry].
  rewrite fmap_cons in Hnd. apply NoDup_cons in Hnd as [Hk0 Hnd]. rewrite IH by done.
  assert (Hl : (list_to_map L : Traffic) !! k0 = None) by (by apply not_elem_of_list_to_map).
  change ((list_to_map ((k0, x0) :: L) : Traffic)) with (<[k0 := x0]> (list_to_map L : Traffic)).
  rewrite lookup_insert. unfold keep_counter. cbn [fst snd]. case_decide as Hk.
  - subst k0. rewrite Hl. destruct (wg_number k.2); [|done]. by rewrite lookup_insert_eq.
  - destruct (wg_number k0.2); [|done]. by rewrite lookup_insert_ne.
Qed.

Lemma counter_line_plain set c : newline ∉ set -> printable c -> newline ∉ counter_line set c.
Proof.
  intros Hs (_ & Ha & _ & Hi & Hp & Hb & _). unfold counter_line. rewrite !not_elem_of_app.
  assert (Hd : forall n, 0 <= n -> newline ∉ show_uint n).
  { intros n Hn Hin. pose proof (decimal_digits_are 40 n Hn) as Hf. rewrite Forall_forall in Hf. by specialize (Hf _ Hin). }
  assert (forall w, newline ∉ lit w <-> bool_decide (newline ∈ lit w) = false) as Hw by (intros; by rewrite bool_decide_eq_false).
  split_and!; try (by apply Hw); auto.
  - intros Hin. rewrite Forall_forall in Ha. by specialize (Ha _ Hin).
  - intros Hin. rewrite Forall_forall in Hi. by specialize (Hi _ Hin).
Qed.

(** Reading back a set: the counters of the WireGuard interfaces, with the
    headers of their packets; nothing of the others. *)
Lemma ipset_save_read `{P : Profile} {St : Type} (set : text) (t : Traffic) :
  set <> [] -> Forall (fun x => not_space x = true) set -> newline ∉ set -> Forall printable (map_to_list t) ->
  exists m, (forall s : St, parse_ipset (ipset_save set t) s = Done s m)
    /\ forall k, m !! k = match t !! k, wg_number k.2 with Some x, Some _ => Some (x.2 + x.1 * 40) | _, _ => None end.
Proof.
  intros Hs Hsf Hn Ht. exists (foldl keep_counter ∅ (map_to_list t)). split.
  - intros s. unfold parse_ipset, ipset_save. rewrite split_join.
    + cbn [app ipset_lines]. by apply ipset_lines_counters.
    + done.
    + apply Forall_app. split; [|apply Forall_app; split].
      * apply Forall_singleton. rewrite !not_elem_of_app. split_and!; [|done|]; by apply (bool_decide_unpack (newline ∉ _)).
      * apply Forall_fmap. eapply Forall_impl; [exact Ht|]. intros c Hc. by apply counter_line_plain.
      * apply Forall_singleton. by apply not_elem_of_nil.
  - intros k. rewrite kept_lookup by apply NoDup_fst_map_to_list. by rewrite list_to_map_to_list, lookup_empty.
Qed.

Lemma count_add m a k : count (add_traffic m a) k = count m k + count a k.
Proof.
  unfold count, add_traffic. rewrite lookup_union_with. destruct (m !! k), (a !! k); cbn; lia.
Qed.
Lemma count_empty k : count ∅ k = 0.
Proof. unfold count. by rewrite lookup_empty. Qed.
Lemma read_counters_of m k : read_of (counters_of m) k = count m k.
Proof. unfold read_of, counters_of, count. rewrite lookup_fmap. by destruct (m !! k). Qed.

Record machine := { live : Traffic; tmp : option Traffic }.

Section machine.
Context `{P : Profile} (target : FilterTarget) (arrive : nat -> Traffic) (nft : bool) (print : Traffic -> text).

Definition on_arrival (n : nat) (s : machine) : machine := {| live := add_traffic (live s) (arrive n); tmp := tmp s |}.
(** The commands of [read_counters]; others change nothing. *)
Definition exec (c : Command) (s : machine) : machine :=
  if bool_decide (c = (lit "ipset", lit <$> ["create"; tmp_name target; "hash:net,iface"; "family"; "inet6"; "counters"]))
  then {| live := live s; tmp := Some (default ∅ (tmp s)) |}
  else if bool_decide (c = (lit "ipset", lit <$> ["swap"; tmp_name target; set_name target]))
  then match tmp s with Some t => {| live := t; tmp := Some (live s) |} | None => s end
  else if bool_decide (c = (lit "ipset", lit <$> ["destroy"; tmp_name target]))
  then {| live := live s; tmp := None |}
  else if bool_decide (c = (lit "nft", lit <$> ["flush"; "set"; "inet"; "fw4"; set_name target]))
  then {| live := ∅; tmp := tmp s |}
  else s.
Definition output (c : Command) (s : machine) : text :=
  if bool_decide (c = (lit "ipset", lit <$> ["save"; tmp_name target])) then ipset_save (lit (tmp_name target)) (default ∅ (tmp s))
  else if bool_decide (c = (lit "nft", lit <$> ["list"; "set"; "inet"; "fw4"; set_name target])) then print (live s)
  else if bool_decide (c = (lit "nft", [lit "-v"])) then (if nft then lit "nftables v1.0" else [])
  else [].
Fixpoint machine_from (n : nat) (s : machine) (h : list Command) : machine :=
  match h with [] => s | c :: h => machine_from (S n) (exec c (on_arrival n s)) h end.
Definition machine_at (s0 : machine) (h : list Command) : machine := machine_from 0 s0 h.

Lemma machine_from_app n s h h' : machine_from n s (h ++ h') = machine_from (n + length h) (machine_from n s h) h'.
Proof. revert n s. induction h as [|c h IH]; intros n s; cbn; [by rewrite Nat.add_0_r|]. rewrite IH. f_equal. lia. Qed.
Lemma machine_at_snoc s0 h c : machine_at s0 (h ++ [c]) = exec c (on_arrival (length h) (machine_at s0 h)).
Proof. unfold machine_at. by rewrite machine_from_app. Qed.

Context (s0 : machine).
Definition machine_shell : Shell := {|
  shell_answer h program args :=
    Some {| out_success := true; out_stdout := output (program, args) (on_arrival (length h) (machine_at s0 h));
            out_stderr := [] |} |}.
#[local] Existing Instance machine_shell.

Lemma sh_machine program args h :
  sh program args h
  = Done (h ++ [(lit program, lit <$> args)])
      {| out_success := true;
         out_stdout := output (lit program, lit <$> args) (on_arrival (length h) (machine_at s0 h)); out_stderr := [] |}.
Proof. reflexivity. Qed.

(** What arrives during the commands numbered from [n]. *)
Definition arrived (n len : nat) (k : ckey) : Z := foldr (fun i acc => count (arrive i) k + acc) 0 (seq n len).

Lemma exec_probe s : exec (lit "nft", [lit "-v"]) s = s.
Proof. unfold exec. by rewrite !bool_decide_eq_false_2 by (destruct target; discriminate). Qed.
Lemma exec_create s :
  exec (lit "ipset", lit <$> ["create"; tmp_name target; "hash:net,iface"; "family"; "inet6"; "counters"]) s
  = {| live := live s; tmp := Some (default ∅ (tmp s)) |}.
Proof. unfold exec. by rewrite bool_decide_eq_true_2. Qed.
Lemma exec_swap s t :
  tmp s = Some t -> exec (lit "ipset", lit <$> ["swap"; tmp_name target; set_name target]) s
  = {| live := t; tmp := Some (live s) |}.
Proof.
  intros Ht. unfold exec. rewrite bool_decide_eq_false_2 by (destruct target; discriminate).
  rewrite bool_decide_eq_true_2 by done. by rewrite Ht.
Qed.
Lemma exec_save s : exec (lit "ipset", lit <$> ["save"; tmp_name target]) s = s.
Proof. unfold exec. by rewrite !bool_decide_eq_false_2 by (destruct target; discriminate). Qed.
Lemma exec_destroy s : exec (lit "ipset", lit <$> ["destroy"; tmp_name target]) s = {| live := live s; tmp := None |}.
Proof.
  unfold exec. rewrite !(bool_decide_eq_false_2 (_ = _)) by (destruct target; discriminate).
  rewrite bool_decide_eq_true_2 by done. done.
Qed.
Definition c_probe : Command := (lit "nft", [lit "-v"]).
Definition c_create : Command :=
  (lit "ipset", lit <$> ["create"; tmp_name target; "hash:net,iface"; "family"; "inet6"; "counters"]).
Definition c_swap : Command := (lit "ipset", lit <$> ["swap"; tmp_name target; set_name target]).
Definition c_save : Command := (lit "ipset", lit <$> ["save"; tmp_name target]).
Definition c_destroy : Command := (lit "ipset", lit <$> ["destroy"; tmp_name target]).
Definition c_list : Command := (lit "nft", lit <$> ["list"; "set"; "inet"; "fw4"; set_name target]).
Definition c_flush : Command := (lit "nft", lit <$> ["flush"; "set"; "inet"; "fw4"; set_name target]).

Lemma probe_exact h : does_nftables_exist h = Done (h ++ [c_probe]) nft.
Proof.
  unfold does_nftables_exist. rewrite sh_machine. cbn [out_stdout].
  assert (Ho : forall s, output (lit "nft", lit <$> ["-v"]) s = if nft then lit "nftables v1.0" else []).
  { intros s. unfold output. rewrite !(bool_decide_eq_false_2 (_ = _)) by (destruct target; discriminate).
    by rewrite bool_decide_eq_true_2. }
  rewrite Ho. by destruct nft.
Qed.
Lemma output_save s : output c_save s = ipset_save (lit (tmp_name target)) (default ∅ (tmp s)).
Proof. unfold output. by rewrite bool_decide_eq_true_2. Qed.
Lemma output_list s : output c_list s = print (live s).
Proof. unfold output. rewrite bool_decide_eq_false_2 by (destruct target; discriminate). by rewrite bool_decide_eq_true_2. Qed.
Lemma exec_list s : exec c_list s = s.
Proof. unfold exec. by rewrite !bool_decide_eq_false_2 by (destruct target; discriminate). Qed.
Lemma exec_flush s : exec c_flush s = {| live := ∅; tmp := tmp s |}.
Proof.
  unfold exec. rewrite !(bool_decide_eq_false_2 (_ = _)) by (destruct target; discriminate).
  by rewrite bool_decide_eq_true_2.
Qed.

(** What has been counted when the sets are swapped. *)
Definition at_swap (h : list Command) : Traffic :=
  add_traffic (add_traffic (add_traffic (live (machine_at s0 h)) (arrive (length h))) (arrive (S (length h))))
    (arrive (S (S (length h)))).

Lemma ipset_states h :
  tmp (machine_at s0 h) = None ->
  machine_at s0 (h ++ [c_probe] ++ [c_create] ++ [c_swap])
  = {| live := ∅; tmp := Some (at_swap h) |}.
Proof.
  intros Ht. unfold machine_at. rewrite machine_from_app. cbn [machine_from app]. fold (machine_at s0 h).
  rewrite exec_probe, exec_create. rewrite (exec_swap _ ∅) by (cbn; by rewrite Ht). done.
Qed.

Lemma tmp_name_plain : lit (tmp_name target) <> [] /\ Forall (fun x => not_space x = true) (lit (tmp_name target))
  /\ newline ∉ lit (tmp_name target).
Proof.
  split; [by destruct target|]. split; [destruct target; repeat constructor|].
  destruct target; by apply (bool_decide_unpack (newline ∉ _)).
Qed.

(** C33 Reading with ipset, on a machine where its commands succeed and that prints
    the counters of a set one per line: the read succeeds, and for every address
    and every interface called [wg] and a number, what is reported (the bytes and
    40 for each packet) and what the set holds afterwards are together what it
    held before and everything that arrived meanwhile, however the traffic falls
    between the commands. Counters of other interfaces are not reported: what the
    set held of them at the swap is gone. Needed are counters that can be printed
    at the swap: totals that fit 64 bits, and IPv6 addresses whose text has no
    IPv4 part. *)
Theorem ipset_read_conserves h :
  nft = false -> tmp (machine_at s0 h) = None -> Forall printable (map_to_list (at_swap h)) ->
  exists h' m, read_counters target h = Done h' m /\ tmp (machine_at s0 h') = None
    /\ (forall k num, wg_number k.2 = Some num ->
          read_of m k + count (live (machine_at s0 h')) k = count (live (machine_at s0 h)) k + arrived (length h) 5 k)
    /\ (forall k, wg_number k.2 = None ->
          m !! k = None /\ count (live (machine_at s0 h')) k = arrived (length h + 3) 2 k).
Proof.
  intros Hn Ht Hp. pose proof (ipset_states h Ht) as Hst. destruct tmp_name_plain as (Ht1 & Ht2 & Ht3).
  set (h4 := (((h ++ [c_probe]) ++ [c_create]) ++ [c_swap]) ++ [c_save]).
  destruct (ipset_save_read (St := list Command) (lit (tmp_name target)) (at_swap h) Ht1 Ht2 Ht3 Hp) as (m & Hm & Hk).
  exists (h4 ++ [c_destroy]), m. unfold read_counters. unfold bind at 1. rewrite probe_exact, Hn.
  unfold bind at 1. rewrite sh_machine. fold c_create. unfold bind at 1. rewrite sh_machine. fold c_swap.
  unfold bind at 1. rewrite sh_machine. fold c_save. cbn [out_stdout]. rewrite output_save.
  rewrite !app_assoc in Hst. rewrite Hst. cbn [on_arrival tmp default]. unfold bind at 1. rewrite Hm. unfold bind at 1.
  rewrite sh_machine. fold c_destroy. split; [done|].
  assert (Hfin : machine_at s0 (h4 ++ [c_destroy])
    = {| live := add_traffic (add_traffic ∅ (arrive (length h + 3))) (arrive (length h + 4)); tmp := None |}).
  { unfold h4. rewrite machine_at_snoc, exec_destroy, machine_at_snoc, exec_save, Hst. cbn [on_arrival live tmp].
    rewrite !length_app. cbn [length app]. f_equal. f_equal; [f_equal|]; f_equal; lia. }
  rewrite Hfin. split; [done|]. cbn [live]. split.
  - intros k num Hnum. assert (read_of m k = count (at_swap h) k) as ->.
    { unfold read_of, count. rewrite Hk, Hnum. by destruct (at_swap h !! k). }
    rewrite !count_add, count_empty. unfold at_swap, arrived.
    rewrite !count_add. cbn [seq foldr]. replace (S (S (S (length h)))) with (length h + 3)%nat by lia.
    replace (S (length h + 3)) with (length h + 4)%nat by lia. lia.
  - intros k Hnum. split; [rewrite Hk, Hnum; by destruct (at_swap h !! k)|].
    rewrite !count_add, count_empty. unfold arrived. cbn [seq foldr].
    replace (S (length h + 3)) with (length h + 4)%nat by lia. lia.
Qed.

(** Reading with nftables: what arrives between the list and the flush is in
    neither. *)
Theorem nft_read_loses h h' m k :
  nft = true ->
  let listed := add_traffic (add_traffic (live (machine_at s0 h)) (arrive (length h))) (arrive (length h + 1)) in
  (forall l, nft_lines (lines (print listed)) ∅ l = Done (l : list Command) (counters_of listed)) ->
  read_counters target h = Done h' m ->
  read_of m k + count (live (machine_at s0 h')) k + count (arrive (length h + 2)) k
  = count (live (machine_at s0 h)) k + arrived (length h) 3 k.
Proof.
  intros Hn listed Hp. unfold read_counters, bind at 1. rewrite probe_exact, Hn.
  unfold parse_nft_set_counters, bind at 1. rewrite sh_machine. fold c_list. unfold bind at 1. rewrite sh_machine. fold c_flush.
  cbn [out_stdout]. rewrite output_list.
  assert (Hl : live (on_arrival (length (h ++ [c_probe])) (machine_at s0 (h ++ [c_probe]))) = listed).
  { rewrite machine_at_snoc, exec_probe. cbn [on_arrival live]. by rewrite length_app. }
  rewrite Hl, Hp. intros [= <- <-]. rewrite machine_at_snoc, exec_flush. cbn [live].
  rewrite read_counters_of, count_empty. unfold listed, arrived. rewrite !count_add. cbn [seq foldr].
  replace (S (length h)) with (length h + 1)%nat by lia. replace (S (length h + 1)) with (length h + 2)%nat by lia. lia.
Qed.
End machine.

(** * Demonstrations *)

#[local] Existing Instance release_profile.
Definition demo_entry : entry := {|
  en_addr := lit "fd00::1"; en_ip := V6 0xfd00_0000_0000_0000_0000_0000_0000_0001; en_num := lit "0";
  en_packets := 28; en_bytes := 2212 |}.
Lemma demo_entry_ok : entry_ok demo_entry.
Proof. repeat split; try done; repeat constructor. Qed.

Lemma ipset_roundtrip_witness :
  parse_ipset (join newline [lit "create tmp"; entry_line (lit "tmp") demo_entry; []]) tt
  = Done tt (totals [demo_entry]).
Proof.
  apply (ipset_roundtrip (lit "tmp") [lit "create tmp"; entry_line (lit "tmp") demo_entry; []] [demo_entry] tt).
  - done.
  - repeat constructor.
  - done.
  - repeat constructor; vm_compute; intros H; repeat (apply elem_of_cons in H as [H|H]; [discriminate H|]);
      by apply elem_of_nil in H.
  - apply shown_other; [reflexivity|]. apply shown_entry; [exact demo_entry_ok|]. apply shown_other; [reflexivity|].
    constructor.
Defined.

Definition demo_key : ckey := (V6 1, lit "wg0").
Definition demo_arrive (n : nat) : Traffic := if bool_decide (n = 3%nat) then {[ demo_key := (2, 10) ]} else ∅.
Definition demo_machine : machine := {| live := {[ demo_key := (1, 100) ]}; tmp := None |}.
Definition demo_shell : Shell := machine_shell FilterInput demo_arrive false (fun _ => []) demo_machine.

(** The set held 140 bytes, 90 arrive after the swap; 140 are reported and 90
    left. *)
Definition demo_history : list Command :=
  [c_probe; c_create FilterInput; c_swap FilterInput; c_save FilterInput; c_destroy FilterInput].
Lemma counters_demo_read : @read_counters release_profile demo_shell FilterInput [] = Done demo_history {[ demo_key := 140 ]}.
Proof. vm_cast_no_check (eq_refl (@Done (list Command) KernelInterfaceError Counters demo_history {[ demo_key := 140 ]})). Qed.
Lemma demo_printable : Forall printable (map_to_list (at_swap FilterInput demo_arrive demo_machine [])).
Proof.
  assert (map_to_list (at_swap FilterInput demo_arrive demo_machine []) = [(demo_key, (1, 100))]) as -> by (vm_compute; reflexivity).
  apply Forall_singleton. split_and!; try done; repeat constructor.
Qed.
Lemma ipset_read_conserves_witness :
  exists h' m, @read_counters release_profile demo_shell FilterInput [] = Done h' m
    /\ read_of m demo_key + count (live (machine_at FilterInput demo_arrive demo_machine h')) demo_key = 140 + 90.
Proof.
  destruct (ipset_read_conserves FilterInput demo_arrive false (fun _ => []) demo_machine [] eq_refl eq_refl demo_printable)
    as (h' & m & E & _ & H & _).
  exists h', m. split; [exact E|]. rewrite (H demo_key (lit "0") eq_refl). vm_compute. reflexivity.
Defined.
