(* ===== verification/IpRoute.v ===== *)
(** The routes of the system (althea_kernel_interface/src/ip_route.rs): reading
    and printing a route, the default route in use, and the copy of it kept in
    the settings while the exit tunnel replaces it. *)
From S2P Require Import Prelude Types Text IpText Babel TrafficWatcher KernelShell KernelCounters.
Import KernelShell KernelCounters.

Module IpRoute.

Record DefaultRoute := {
  dr_via : IpAddr;
  dr_nic : text;
  dr_proto : option text;
  dr_src : option IpAddr;
  dr_metric : option Z;
}.
Record ToSubnet := {
  ts_dst : IpAddr;
  ts_subnet : Z;
  ts_via : option IpAddr;
  ts_nic : text;
  ts_proto : option text;
  ts_src : option IpAddr;
  ts_metric : option Z;
  ts_scope : option text;
}.
Inductive IpRoute := RouteDefault (r : DefaultRoute) | RouteSubnet (r : ToSubnet).

Definition lower (c : ascii) : ascii :=
  let n := Ascii.nat_of_ascii c in
  if Nat.leb 65 n && Nat.leb n 90 then Ascii.ascii_of_nat (n + 32) else c.
(** [a.to_lowercase().contains(&item.to_lowercase())] *)
Definition has_key (item a : text) : bool := contains (lower <$> item) (lower <$> a).

Definition is_althea_default_route (self : DefaultRoute) : bool := has_key (lit "wg_exit") (dr_nic self).
Definition route_is_althea (self : IpRoute) : bool :=
  match self with RouteDefault r => has_key (lit "wg_exit") (dr_nic r) | RouteSubnet _ => false end.

(** The word after the first that contains the tag. *)
Fixpoint get_item (item : string) (list : list text) : option text :=
  match list with
  | [] => None
  | value :: rest => if has_key (lit item) value then head rest else get_item item rest
  end.
Definition get_and_parse_item {T} (parse : text -> option T) (item : string) (list : list text) : option T :=
  string_val ← get_item item list; parse string_val.

Definition route_from_str (s : text) : KernelInterfaceError + IpRoute :=
  let list := words s in
  match list with
  | [] => inl EmptyRouteString
  | first :: _ =>
      let proto := get_item "proto" list in
      let src := get_and_parse_item parse_ip "src" list in
      let metric := get_and_parse_item (parse_uint 10 U16_MAX) "metric" list in
      if existsb (has_key (lit "default")) list then
        match get_item "via" list, get_item "dev" list with
        | Some via, Some nic =>
            match parse_ip via with
            | Some via => inr (RouteDefault {| dr_via := via; dr_nic := nic; dr_proto := proto; dr_src := src; dr_metric := metric |})
            | None => inl AddrParseFailure
            end
        | _, _ => inl (InvalidRouteString (s ++ lit " does not contain via, nic"))
        end
      else
        let addr_and_subnet := split_on "/"%char first in
        match parse_ip (default [] (addr_and_subnet !! 0%nat)) with
        | None => inl AddrParseFailure
        | Some dst =>
            match (match addr_and_subnet !! 1%nat with Some subnet => parse_uint 10 U16_MAX subnet | None => Some 32 end) with
            | None => inl ParseIntFailure
            | Some subnet =>
                match get_item "dev" list with
                | Some nic =>
                    inr (RouteSubnet {| ts_dst := dst; ts_subnet := subnet; ts_via := get_and_parse_item parse_ip "via" list;
                                        ts_nic := nic; ts_proto := proto; ts_src := src; ts_metric := metric;
                                        ts_scope := get_item "scope" list |})
                | None => inl (InvalidRouteString (s ++ lit " does not contain nic"))
                end
            end
        end
  end.

(** [Display]: the arguments of [ip route add]. *)
Definition src_text (src : option IpAddr) : text := match src with Some src => lit " src " ++ show_ip src | None => [] end.
Definition route_to_string (r : IpRoute) : text :=
  match r with
  | RouteDefault r => lit "default via " ++ show_ip (dr_via r) ++ lit " dev " ++ dr_nic r ++ lit " proto static" ++ src_text (dr_src r)
  | RouteSubnet r =>
      (if ts_subnet r =? 32 then show_ip (ts_dst r) else show_ip (ts_dst r) ++ lit "/" ++ show_uint (ts_subnet r))
      ++ (match ts_via r with Some via => lit " via " ++ show_ip via | None => [] end)
      ++ lit " dev " ++ ts_nic r ++ lit " proto static" ++ src_text (ts_src r)
  end.

Abbreviation KI A := (M (list Command) KernelInterfaceError A).

Section kernel.
Context `{SH : Shell}.

(** The first line that is a default route. *)
Fixpoint first_default (ls : list text) : option DefaultRoute :=
  match ls with
  | [] => None
  | line :: ls => match route_from_str line with inr (RouteDefault r) => Some r | _ => first_default ls end
  end.
Definition get_default_route : KI (option DefaultRoute) :=
  let! output := sh "ip" ["route"; "list"; "default"] in ret (first_default (lines (out_stdout output))).
Definition set_route (to : IpRoute) : KI unit :=
  let! _ := ki_run (lit "ip") (lit "route" :: lit "add" :: words (route_to_string to)) in ret tt.

(** The functions that change the route kept in the settings: the state is the
    history of commands and that route. *)
Definition RM (A : Type) : Type := M (list Command * option DefaultRoute) KernelInterfaceError A.
Definition kernel {A} (m : KI A) : RM A := fun s =>
  match m s.1 with Done h a => Done (h, s.2) a | Fail h e => Fail (h, s.2) e | Panic => Panic end.
Definition save_route (r : DefaultRoute) : RM unit := fun s => Done (s.1, Some r) tt.
Definition saved_route : RM (option DefaultRoute) := fun s => Done s s.2.

Definition update_settings_route : RM bool :=
  let! route := kernel get_default_route in
  match route with
  | None => ret false
  | Some def_route =>
      if negb (is_althea_default_route def_route) then let! _ := save_route def_route in ret true else ret false
  end.
Definition manual_peers_route (endpoint_ip : IpAddr) : RM bool :=
  let! changed := update_settings_route in
  let! settings_default_route := saved_route in
  match settings_default_route with
  | Some d =>
      let! _ := kernel (set_route (RouteSubnet {| ts_dst := endpoint_ip; ts_subnet := 32; ts_via := Some (dr_via d);
        ts_nic := dr_nic d; ts_proto := Some (lit "static"); ts_metric := None; ts_src := None; ts_scope := None |})) in
      ret changed
  | None => ret changed
  end.
Definition restore_saved : RM unit :=
  let! settings_default_route := saved_route in
  match settings_default_route with Some route => kernel (set_route (RouteDefault route)) | None => ret tt end.
Definition restore_default_route : RM unit :=
  let! current_route := kernel get_default_route in
  match current_route with
  | Some d => if is_althea_default_route d then restore_saved else save_route d
  | None => restore_saved
  end.
End kernel.
End IpRoute.

(** * Properties

    Routes: a printed route is read back, the kept default route is never the
    exit tunnel's, and what was kept is what is restored. *)

Import KernelShell KernelCounters IpRoute.

(** * Words *)

Definition word (w : text) : Prop := w <> [] /\ Forall (fun c => is_whitespace c = false) w.

Abbreviation cut := (foldr (fun c acc => match acc with
                                         | w :: ws => if is_whitespace c then [] :: w :: ws else (c :: w) :: ws
                                         | [] => [[c]]
                                         end) [[]]).
Lemma cut_cons l : exists h t, cut l = h :: t.
Proof.
  induction l as [|c l (h & t & IH)]; [by do 2 eexists|]. cbn [foldr]. rewrite IH. destruct (is_whitespace c); by do 2 eexists.
Qed.
Lemma cut_word w l h t : Forall (fun c => is_whitespace c = false) w -> cut l = h :: t -> cut (w ++ l) = (w ++ h) :: t.
Proof. intros Hw Hl. induction Hw as [|c w Hc _ IH]; [done|]. cbn [app foldr]. by rewrite IH, Hc. Qed.
Lemma words_join ws : Forall word ws -> words (join space ws) = ws.
Proof.
  intros Hws. unfold words. enough (ws = [] \/ cut (join space ws) = ws) as [->| ->]; [done| |].
  - induction Hws as [|w ws [Hw _] _ IH]; [done|]. by rewrite filter_cons_True, IH.
  - induction Hws as [|w ws [_ Hw] Hws IH]; [by left|]. right. destruct ws as [|w' ws].
    + cbn [join]. rewrite <- (app_nil_r w) at 1. rewrite (cut_word w [] [] []) by done. by rewrite app_nil_r.
    + change (join space (w :: w' :: ws)) with (w ++ space :: join space (w' :: ws)).
      destruct IH as [IH|IH]; [done|]. rewrite (cut_word w _ [] (w' :: ws)); [by rewrite app_nil_r|done|].
      cbn [foldr]. by rewrite IH.
Qed.

(** * Keys *)

(** Text of addresses and masks has no letter after [f]. *)
Definition addr_char (c : ascii) : bool :=
  bool_decide (is_Some (digit 16 c)) || Ascii.eqb c ":" || Ascii.eqb c "." || Ascii.eqb c "/".
Definition late_letter (c : ascii) : bool := existsb (Ascii.eqb c) ["u"; "v"; "p"; "s"; "m"]%char.
Lemma addr_char_plain c : addr_char c = true -> is_whitespace c = false /\ late_letter (lower c) = false.
Proof. destruct c as [[] [] [] [] [] [] [] []]; (intros H; vm_compute in H; discriminate H) || done. Qed.

Lemma has_key_address item l c :
  Forall (fun c => addr_char c = true) l -> c ∈ lower <$> lit item -> late_letter c = true -> has_key (lit item) l = false.
Proof.
  intros Hl Hc Hlate. destruct (has_key (lit item) l) eqn:E; [|done]. apply (contains_char _ _ c Hc) in E.
  apply list_elem_of_fmap in E as (x & -> & Hx). rewrite Forall_forall in Hl.
  destruct (addr_char_plain x (Hl x Hx)) as [_ H]. congruence.
Qed.
Lemma show_ip_chars ip : ip_ok ip -> Forall (fun c => addr_char c = true) (show_ip ip).
Proof.
  intros Hip. apply Forall_forall. intros c Hc. destruct (addr_char c) eqn:E; [done|]. exfalso. revert Hc.
  unfold addr_char in E. rewrite !orb_false_iff, bool_decide_eq_false in E. destruct E as [[[Hd H1] H2] H3].
  apply show_ip_plain; [done|by destruct (digit 16 c); [destruct Hd|]|by apply Ascii.eqb_neq..].
Qed.
Lemma show_uint_chars n : 0 <= n -> Forall (fun c => addr_char c = true) (show_uint n).
Proof.
  intros Hn. apply Forall_forall. intros c Hc. destruct (addr_char c) eqn:E; [done|]. exfalso. revert Hc.
  apply show_uint_plain; [done|]. unfold addr_char in E. rewrite !orb_false_iff, bool_decide_eq_false in E.
  destruct E as [[[Hd _] _] _]. unfold digit in *. destruct (digit_value c) as [d|]; [|done].
  cbn [mbind option_bind] in *. destruct (Z.ltb_spec d 10); [|done].
  rewrite (proj2 (Z.ltb_lt d 16)) in Hd by lia. by destruct Hd.
Qed.
Lemma address_word l : l <> [] -> Forall (fun c => addr_char c = true) l -> word l.
Proof. intros Hne Hl. split; [done|]. eapply Forall_impl; [exact Hl|]. intros c Hc. by apply addr_char_plain. Qed.

(** * Reading what was printed *)

(** The name of an interface that holds none of the keys. *)
Definition nic_ok (nic : text) : Prop :=
  word nic /\ Forall (fun k => has_key (lit k) nic = false) ["default"; "proto"; "src"; "metric"; "scope"].
Definition route_ok (r : IpRoute) : Prop :=
  match r with
  | RouteDefault r => ip_ok (dr_via r) /\ nic_ok (dr_nic r) /\ from_option ip_ok True (dr_src r)
  | RouteSubnet r =>
      ip_ok (ts_dst r) /\ 0 <= ts_subnet r <= U16_MAX /\ from_option ip_ok True (ts_via r) /\ nic_ok (ts_nic r)
      /\ from_option ip_ok True (ts_src r)
  end.
(** What the text says of a route. *)
Definition as_static (r : IpRoute) : IpRoute :=
  match r with
  | RouteDefault r =>
      RouteDefault {| dr_via := dr_via r; dr_nic := dr_nic r; dr_proto := Some (lit "static"); dr_src := dr_src r; dr_metric := None |}
  | RouteSubnet r =>
      RouteSubnet {| ts_dst := ts_dst r; ts_subnet := ts_subnet r; ts_via := ts_via r; ts_nic := ts_nic r;
                     ts_proto := Some (lit "static"); ts_src := ts_src r; ts_metric := None; ts_scope := None |}
  end.

Definition src_words (src : option IpAddr) : list text :=
  match src with Some src => [lit "src"; show_ip src] | None => [] end.
Definition dst_word (r : ToSubnet) : text :=
  if ts_subnet r =? 32 then show_ip (ts_dst r) else show_ip (ts_dst r) ++ lit "/" ++ show_uint (ts_subnet r).
Definition route_words (r : IpRoute) : list text :=
  match r with
  | RouteDefault r =>
      [lit "default"; lit "via"; show_ip (dr_via r); lit "dev"; dr_nic r; lit "proto"; lit "static"] ++ src_words (dr_src r)
  | RouteSubnet r =>
      dst_word r :: match ts_via r with Some via => [lit "via"; show_ip via] | None => [] end
      ++ [lit "dev"; ts_nic r; lit "proto"; lit "static"] ++ src_words (ts_src r)
  end.
Lemma route_to_string_words r : route_to_string r = join space (route_words r).
Proof.
  destruct r as [r|r]; cbn [route_to_string route_words].
  - destruct (dr_src r); cbn; by rewrite ?app_nil_r.
  - fold (dst_word r). destruct (ts_via r), (ts_src r); cbn; by rewrite ?app_nil_r.
Qed.

Lemma lit_word s : bool_decide (word (lit s)) = true -> word (lit s).
Proof. apply bool_decide_eq_true_1. Qed.
Lemma ip_word ip : ip_ok ip -> word (show_ip ip).
Proof. intros H. apply address_word; [by apply show_ip_nonempty|by apply show_ip_chars]. Qed.
Lemma dst_chars r : ip_ok (ts_dst r) -> 0 <= ts_subnet r -> Forall (fun c => addr_char c = true) (dst_word r).
Proof.
  intros Hd Hs. unfold dst_word. pose proof (show_ip_chars _ Hd). case_match; [done|].
  rewrite !Forall_app. split_and!; [done|by constructor|by apply show_uint_chars].
Qed.
Lemma dst_word_word r : ip_ok (ts_dst r) -> 0 <= ts_subnet r -> word (dst_word r).
Proof.
  intros Hd Hs. apply address_word; [|by apply dst_chars]. unfold dst_word. pose proof (show_ip_nonempty _ Hd).
  case_match; [done|]. by destruct (show_ip (ts_dst r)).
Qed.
Lemma route_words_ok r : route_ok r -> Forall word (route_words r).
Proof.
  assert (Hsrc : forall src, from_option ip_ok True src -> Forall word (src_words src)).
  { intros [s|] H; [|constructor]. repeat constructor; try done; by apply ip_word. }
  destruct r as [r|r]; cbn [route_ok route_words].
  - intros (Hv & [Hn _] & Hs). repeat first [apply Forall_cons; split | by apply ip_word | by apply Hsrc | done | by apply lit_word].
  - intros (Hd & Hm & Hv & [Hn _] & Hs). apply Forall_cons. split; [apply dst_word_word; [done|lia]|].
    destruct (ts_via r); repeat first [apply Forall_cons; split | by apply ip_word | by apply Hsrc | done | by apply lit_word].
Qed.

Lemma get_item_skip item w l : has_key (lit item) w = false -> get_item item (w :: l) = get_item item l.
Proof. cbn [get_item]. by intros ->. Qed.
Lemma get_item_hit item w l : has_key (lit item) w = true -> get_item item (w :: l) = head l.
Proof. cbn [get_item]. by intros ->. Qed.

(** A key in a word: computed for a literal, excluded by the letters of an
    address, or by what is known of the interface. *)
Ltac key_of_address c :=
  apply (has_key_address _ _ c); [assumption|apply (bool_decide_unpack _); by vm_compute|reflexivity].
Ltac solve_key :=
  solve [ reflexivity | assumption
        | key_of_address "u"%char | key_of_address "v"%char | key_of_address "p"%char
        | key_of_address "s"%char | key_of_address "m"%char ].
Ltac find_items :=
  repeat match goal with
  | |- context [get_item ?k (?w :: ?l)] =>
      first [ rewrite (get_item_skip k w l) by solve_key | rewrite (get_item_hit k w l) by reflexivity ]; cbn [head]
  end.

Lemma split_dst r :
  ip_ok (ts_dst r) -> 0 <= ts_subnet r <= U16_MAX ->
  parse_ip (default [] (split_on "/"%char (dst_word r) !! 0%nat)) = Some (ts_dst r)
  /\ match split_on "/"%char (dst_word r) !! 1%nat with Some subnet => parse_uint 10 U16_MAX subnet | None => Some 32 end
     = Some (ts_subnet r).
Proof.
  intros Hd Hs. assert (Hp : "/"%char ∉ show_ip (ts_dst r)) by (apply show_ip_plain; done).
  unfold dst_word. destruct (Z.eqb_spec (ts_subnet r) 32) as [->|].
  - rewrite split_on_single by done. cbn. by rewrite parse_show_ip.
  - change (lit "/" ++ show_uint (ts_subnet r)) with ("/"%char :: show_uint (ts_subnet r)).
    rewrite split_on_app, split_on_single by (done || (apply show_uint_plain; [lia|done])). cbn [lookup list_lookup from_option id].
    by rewrite parse_show_ip, parse_show_uint by (done || unfold U16_MAX in *; lia).
Qed.

Lemma nic_keys nic : nic_ok nic ->
  has_key (lit "default") nic = false /\ has_key (lit "proto") nic = false /\ has_key (lit "src") nic = false
  /\ has_key (lit "metric") nic = false /\ has_key (lit "scope") nic = false.
Proof. intros [_ H]. rewrite !Forall_cons in H. tauto. Qed.

Lemma read_default r : route_ok (RouteDefault r) -> route_from_str (route_to_string (RouteDefault r)) = inr (as_static (RouteDefault r)).
Proof.
  intros Hok. rewrite route_to_string_words. unfold route_from_str. rewrite words_join by (by apply route_words_ok).
  destruct Hok as (Hv & (Hk1 & Hk2 & Hk3 & Hk4 & Hk5)%nic_keys & Hs). pose proof (show_ip_chars _ Hv) as Hc.
  destruct r as [via nic proto [src|] metric]; cbn [dr_via dr_nic dr_src from_option route_words src_words app as_static] in *;
    unfold get_and_parse_item; [pose proof (show_ip_chars _ Hs) as Hc'|]; find_items; cbn [existsb];
    change (has_key (lit "default") (lit "default")) with true; cbn [orb mbind option_bind];
    by rewrite !parse_show_ip by done.
Qed.
(** Without a gateway no address follows a word with [via] in it. *)
Lemma no_via nic l :
  get_item "via" l = None -> (get_item "via" (nic :: lit "proto" :: lit "static" :: l) ≫= fun string_val => parse_ip string_val) = None.
Proof. intros Hl. cbn [get_item]. destruct (has_key (lit "via") nic); [reflexivity|]. cbn. by rewrite Hl. Qed.
Lemma read_subnet r : route_ok (RouteSubnet r) -> route_from_str (route_to_string (RouteSubnet r)) = inr (as_static (RouteSubnet r)).
Proof.
  intros Hok. rewrite route_to_string_words. unfold route_from_str. rewrite words_join by (by apply route_words_ok).
  destruct Hok as (Hd & Hm & Hv & (Hk1 & Hk2 & Hk3 & Hk4 & Hk5)%nic_keys & Hs).
  pose proof (dst_chars r Hd ltac:(lia)) as Hc. destruct (split_dst r Hd Hm) as [H1 H2].
  assert (Hva : forall ip, ts_via r = Some ip -> Forall (fun c => addr_char c = true) (show_ip ip))
    by (intros ip Hip; apply show_ip_chars; by rewrite Hip in Hv).
  assert (Hsa : forall ip, ts_src r = Some ip -> Forall (fun c => addr_char c = true) (show_ip ip))
    by (intros ip Hip; apply show_ip_chars; by rewrite Hip in Hs).
  cbn [route_words as_static]. unfold get_and_parse_item.
  destruct (ts_via r) as [via|], (ts_src r) as [src|]; cbn [src_words app from_option existsb] in *;
    try specialize (Hva _ eq_refl); try specialize (Hsa _ eq_refl); find_items;
    (match goal with |- context [if ?b then _ else _] =>
       replace b with false by (symmetry; rewrite !orb_false_iff; split_and!; solve_key) end);
    rewrite H1, H2; rewrite ?no_via by (by find_items); cbn [mbind option_bind];
    by rewrite ?parse_show_ip.
Qed.

(** A printed route is read back with the protocol static, and without the
    metric and the scope, which are not printed. *)
Theorem route_roundtrip r : route_ok r -> route_from_str (route_to_string r) = inr (as_static r).
Proof. destruct r as [r|r]; [apply read_default|apply read_subnet]. Qed.

(** * The route that is kept *)

Section kept.
Context `{SH : Shell}.

Inductive route_op := OpUpdate | OpManual (endpoint : IpAddr) | OpRestore.
(** The state an operation leaves, whether it succeeds or fails; the operations
    never panic. *)
Definition run_route_op (o : route_op) (s : list Command * option DefaultRoute) : list Command * option DefaultRoute :=
  default s (match o with
             | OpUpdate => outcome_state (update_settings_route s)
             | OpManual e => outcome_state (manual_peers_route e s)
             | OpRestore => outcome_state (restore_default_route s)
             end).
Definition run_route_ops (os : list route_op) (s : list Command * option DefaultRoute) := foldl (fun s o => run_route_op o s) s os.

Definition not_tunnel (r : option DefaultRoute) : Prop := forall d, r = Some d -> is_althea_default_route d = false.
(** Every end of a computation satisfies [Q]. *)
Definition ends {A} (m : RM A) (Q : list Command * option DefaultRoute -> Prop) (s : list Command * option DefaultRoute) : Prop :=
  exists s', outcome_state (m s) = Some s' /\ Q s'.

Lemma ends_bind {A B} (m : RM A) (k : A -> RM B) Q s :
  ends m Q s -> (forall s' a, m s = Done s' a -> Q s' -> ends (k a) Q s') -> ends (bind m k) Q s.
Proof.
  unfold ends, bind. intros (s' & Hm & HQ) Hk. destruct (m s) as [s1 a|s1 e|]; [|by exists s'|done].
  injection Hm as ->. by apply Hk.
Qed.
Lemma ends_kernel {A} (m : KI A) Q s :
  (forall h, m h <> Panic) -> (forall h, Q (h, s.2)) -> ends (kernel m) Q s.
Proof.
  intros Hp HQ. unfold ends, kernel. specialize (Hp s.1). destruct (m s.1); [by eexists|by eexists|done].
Qed.
Lemma ki_run_no_panic p a h : ki_run p a h <> Panic.
Proof. unfold ki_run. by destruct (shell_answer h p a). Qed.
Lemma get_default_no_panic h : get_default_route h <> Panic.
Proof.
  unfold get_default_route, bind, sh. pose proof (ki_run_no_panic (lit "ip") (lit <$> ["route"; "list"; "default"]) h).
  by destruct (ki_run _ _ h).
Qed.
Lemma set_route_no_panic r h : set_route r h <> Panic.
Proof.
  unfold set_route, bind. match goal with |- context [ki_run ?p ?a h] => pose proof (ki_run_no_panic p a h); by destruct (ki_run p a h) end.
Qed.
Lemma update_ends s : not_tunnel s.2 -> ends update_settings_route (fun s => not_tunnel s.2) s.
Proof.
  intros Hs. apply ends_bind; [apply ends_kernel; [apply get_default_no_panic|done]|]. intros s' [d|] _ Hs'; [|by eexists].
  destruct (is_althea_default_route d) eqn:E; cbn [negb]; [by eexists|]. eexists. split; [done|]. by intros d' [= <-].
Qed.
Lemma restore_saved_ends s : not_tunnel s.2 -> ends restore_saved (fun s => not_tunnel s.2) s.
Proof.
  intros Hs. unfold restore_saved, ends, bind, saved_route. destruct s as [h [r|]]; [|by eexists].
  apply (ends_kernel (set_route (RouteDefault r)) (fun s => not_tunnel s.2)); [apply set_route_no_panic|done].
Qed.
Lemma run_route_op_keeps o s : not_tunnel s.2 -> not_tunnel (run_route_op o s).2.
Proof.
  intros Hs. assert (He : forall A (m : RM A), ends m (fun s => not_tunnel s.2) s -> not_tunnel (default s (outcome_state (m s))).2).
  { intros A m (s' & Hm & Hs'). by rewrite Hm. }
  destruct o as [|e|]; cbn [run_route_op]; apply He.
  - by apply update_ends.
  - apply ends_bind; [by apply update_ends|]. intros s' b _ Hs'. unfold bind at 1, saved_route, ends.
    destruct (s'.2) as [d|] eqn:E; [|eexists; split; [done|by rewrite E]].
    apply ends_bind; [apply ends_kernel; [apply set_route_no_panic|by rewrite E]|]. intros s2 [] _ H. by eexists.
  - apply ends_bind; [apply ends_kernel; [apply get_default_no_panic|done]|].
    intros s' [d|] _ Hs'; [|by apply restore_saved_ends]. destruct (is_althea_default_route d) eqn:E; [by apply restore_saved_ends|].
    eexists. split; [done|]. by intros d' [= <-].
Qed.

(** The default route kept in the settings is never the one of the exit tunnel,
    whatever the operations and whatever the system answers. *)
Theorem kept_route_never_tunnel os s : not_tunnel s.2 -> not_tunnel (run_route_ops os s).2.
Proof.
  revert s. induction os as [|o os IH]; intros s Hs; [done|]. cbn [run_route_ops foldl].
  apply IH, run_route_op_keeps, Hs.
Qed.

(** ** Keeping and restoring *)

Definition list_default : Command := (lit "ip", lit <$> ["route"; "list"; "default"]).
(** The default route the system shows. *)
Definition shown_default (h : list Command) (r : option DefaultRoute) : Prop :=
  exists o, shell_answer h list_default.1 list_default.2 = Some o /\ first_default (lines (out_stdout o)) = r.
Lemma get_default_shown h r : shown_default h r -> get_default_route h = Done (h ++ [list_default]) r.
Proof. intros (o & Ho & <-). unfold get_default_route, bind, sh, ki_run. cbn [list_default fst snd] in Ho. by rewrite Ho. Qed.

Definition added (h : list Command) (args : list text) : Prop := is_Some (shell_answer h (lit "ip") (lit "route" :: lit "add" :: args)).

(** The route in use is kept when it is not the tunnel's; when later the system
    has the tunnel's default route, or none, one command adds a default route,
    and its arguments read as the kept one. *)
Theorem kept_route_restored h h' r cur s1 :
  shown_default h (Some r) -> is_althea_default_route r = false -> route_ok (RouteDefault r) ->
  shown_default h' cur -> from_option (fun d => is_althea_default_route d = true) True cur ->
  added (h' ++ [list_default]) (route_words (RouteDefault r)) ->
  update_settings_route (h, s1) = Done (h ++ [list_default], Some r) true
  /\ restore_default_route (h', Some r)
     = Done (h' ++ [list_default] ++ [(lit "ip", lit "route" :: lit "add" :: route_words (RouteDefault r))], Some r) tt
  /\ route_from_str (join space (route_words (RouteDefault r))) = inr (as_static (RouteDefault r)).
Proof.
  intros Hsh Hna Hok Hsh' Hcur [o Ho]. split_and!.
  - unfold update_settings_route, bind, kernel. cbn [fst snd]. by rewrite (get_default_shown h _ Hsh), Hna.
  - unfold restore_default_route, bind at 1, kernel at 1. cbn [fst snd]. rewrite (get_default_shown h' cur Hsh').
    assert (Hre : restore_saved (h' ++ [list_default], Some r)
      = Done (h' ++ [list_default] ++ [(lit "ip", lit "route" :: lit "add" :: route_words (RouteDefault r))], Some r) tt).
    { unfold restore_saved, bind at 1, saved_route, kernel, set_route, bind, ki_run. cbn [fst snd].
      rewrite route_to_string_words, words_join by (by apply route_words_ok). by rewrite Ho, <- app_assoc. }
    destruct cur as [d|]; [|done]. cbn in Hcur. by rewrite Hcur.
  - rewrite <- route_to_string_words. by apply read_default.
Qed.
End kept.

(** * Demonstrations *)

Definition demo_route : DefaultRoute := {|
  dr_via := V4 3232237569; dr_nic := lit "eth0"; dr_proto := Some (lit "dhcp"); dr_src := Some (V6 0xfd00_0000_0000_0000_0000_0000_0000_0001);
  dr_metric := Some 600 |}.
Lemma demo_route_ok : route_ok (RouteDefault demo_route).
Proof. repeat split; cbn; try lia; try done; repeat constructor. Qed.
Lemma route_roundtrip_witness :
  route_from_str (lit "default via 192.168.8.1 dev eth0 proto static src fd00::1") = inr (as_static (RouteDefault demo_route)).
Proof.
  change (lit "default via 192.168.8.1 dev eth0 proto static src fd00::1") with (route_to_string (RouteDefault demo_route)).
  apply (route_roundtrip (RouteDefault demo_route)), demo_route_ok.
Defined.

(** The route of the machine is kept; then the machine has no default route. *)
Definition route_shell : Shell := {|
  shell_answer h program args :=
    Some {| out_success := true; out_stderr := [];
            out_stdout := match h with [] => lit "default via 192.168.8.1 dev eth0 proto dhcp src fd00::1 metric 600" | _ => [] end |} |}.
Lemma kept_route_restored_witness :
  @restore_default_route route_shell ([list_default], Some demo_route)
  = Done ([list_default] ++ [list_default] ++ [(lit "ip", lit "route" :: lit "add" :: route_words (RouteDefault demo_route))],
          Some demo_route) tt.
Proof.
  apply (@kept_route_restored route_shell [] [list_default] demo_route None None).
  - eexists. split; [reflexivity|]. vm_compute. reflexivity.
  - reflexivity.
  - exact demo_route_ok.
  - eexists. split; [reflexivity|]. reflexivity.
  - exact I.
  - by eexists.
Defined.
Lemma kept_route_never_tunnel_witness :
  not_tunnel (@run_route_ops route_shell [OpUpdate; OpManual (V4 16843009); OpRestore] ([], None)).2.
Proof. apply kept_route_never_tunnel. done. Defined.
