(* ===== verification/TrafficControl.v ===== *)
(** Traffic control (althea_kernel_interface/src/traffic_control.rs): the queueing
    disciplines of an interface, and on the exit a class per client with the
    filters that send a client's traffic into it.  An error carries what the
    command wrote to its error output. *)
From S2P Require Import Prelude Types Oracle TxFee DebtKeeper DebtKeeperSpec DebtKeeperSafety DebtRound.
From S2P Require Import TunnelManager TunnelTable TunnelManagerSpec TunnelEnforcement.
From S2P Require Import Text IpText Babel TrafficWatcher KernelShell KernelCounters IpRoute.
Import KernelShell KernelCounters.

Module TrafficControl.
Abbreviation KI A := (M (list Command) KernelInterfaceError A).

(** Clients get a class by their address, a hash into 9999 values. *)
Definition get_class_id (ip : Z) : Z := ip mod 9999.
Definition class_name (class_id : Z) : text := lit "1:" ++ show_uint class_id.
Definition show_net (n : IpNetwork) : text :=
  match n with
  | NetV4 ip p => show_ip (V4 ip) ++ lit "/" ++ show_uint p
  | NetV6 ip p => show_ip (V6 ip) ++ lit "/" ++ show_uint p
  end.

Section tc.
Context `{SH : Shell} `{P : Profile}.

Definition tc (args : list text) : KI Output := ki_run (lit "tc") args.
Definition tc_show (kind : string) (iface_name : text) : list text := [lit kind; lit "show"; lit "dev"; iface_name].
(** [if !result.status.success() { return Err(..) }], then the output. *)
Definition tc_checked (args : list text) : KI text :=
  let! result := tc args in
  if negb (out_success result) then throw (TrafficControlError (out_stderr result)) else ret (out_stdout result).

Definition has_qdisc (iface_name : text) : KI bool :=
  let! stdout := tc_checked (tc_show "qdisc" iface_name) in ret (negb (contains (lit "noqueue") stdout)).
Definition has_flow (ip : Z) (iface_name : text) : KI bool :=
  let! stdout := tc_checked (tc_show "filter" iface_name) in ret (contains (class_name (get_class_id ip)) stdout).
Definition get_flows (iface_name : text) : KI text := tc_checked (tc_show "filter" iface_name).
Definition has_flow_bulk (ip : Z) (tc_out : text) : bool := contains (class_name (get_class_id ip)) tc_out.
Definition has_class (ip : Z) (iface_name : text) : KI bool :=
  let! stdout := tc_checked (tc_show "class" iface_name) in
  ret (existsb (fun line => existsb (text_eqb (class_name (get_class_id ip))) (words line)) (lines stdout)).
Definition has_limit (iface_name : text) : KI bool :=
  let! stdout := tc_checked (tc_show "qdisc" iface_name) in
  ret ((contains (lit "htb") stdout || contains (lit "tbf") stdout)
       && negb (contains (lit "codel") stdout) && negb (contains (lit "cake") stdout) && negb (contains (lit "noqueue") stdout)).
Definition has_cake (iface_name : text) : KI bool :=
  let! stdout := tc_checked (tc_show "qdisc" iface_name) in
  ret ((contains (lit "codel") stdout || contains (lit "cake") stdout)
       && negb (contains (lit "tbf") stdout) && negb (contains (lit "noqueue") stdout) && negb (contains (lit "htb") stdout)).

(** Cake, or fq_codel where the system does not know cake, or a plain queue. *)
Definition qdisc_root (operator : string) (iface_name : text) : list text :=
  [lit "qdisc"; lit operator; lit "dev"; iface_name; lit "root"; lit "handle"; lit "1:"].
Definition cake_args (operator : string) (iface_name : text) (speed : option Z) : list text :=
  qdisc_root operator iface_name ++ [lit "cake"]
  ++ match speed with Some val => [lit "bandwidth"; show_uint val ++ lit "mbit"] | None => [lit "unlimited"] end
  ++ [lit "internet"; lit "diffserv4"].
Definition codel_args (operator : string) (iface_name : text) : list text :=
  qdisc_root operator iface_name ++ [lit "fq_codel"; lit "target"; lit "100ms"].
Definition fifo_args (operator : string) (iface_name : text) : list text := qdisc_root operator iface_name ++ [lit "fifo"].
Definition set_codel_shaping (iface_name : text) (speed : option Z) : KI unit :=
  let! present := has_qdisc iface_name in
  let operator := if present then "change"%string else "add"%string in
  let! output := tc (cake_args operator iface_name speed) in
  if negb (out_success output) then
    let! output := tc (codel_args operator iface_name) in
    if negb (out_success output) then
      let! output := tc (fifo_args operator iface_name) in
      if negb (out_success output) then throw (TrafficControlError (out_stderr output)) else ret tt
    else ret tt
  else ret tt.

Definition delete_qdisc (iface_name : text) : KI unit :=
  let! output := tc [lit "qdisc"; lit "del"; lit "dev"; iface_name; lit "root"] in
  if out_success output then ret tt else throw (TrafficControlError (lit "Failed to delete qdisc limit")).

(** [bw] and [burst] are [u32]. *)
Definition classless_args (iface_name : text) (burst bw : Z) : list text :=
  qdisc_root "add" iface_name
  ++ [lit "tbf"; lit "latency"; lit "40ms"; lit "burst"; show_uint burst; lit "rate"; show_uint bw ++ lit "kbit"].
Definition set_classless_limit (iface_name : text) (bw : Z) : KI unit :=
  let! present := has_qdisc iface_name in
  let! _ := (if present then delete_qdisc iface_name else ret tt) in
  let! burst := unwrap (u32_of (bw * 1000)) in
  let! _ := tc_checked (classless_args iface_name burst bw) in ret tt.

Definition create_root_classful_limit (iface_name : text) : KI unit :=
  let! _ := tc_checked (qdisc_root "add" iface_name
              ++ (lit <$> ["htb"; "default"; "0"; "r2q"; "1"; "direct_qlen"; "1000000"])) in ret tt.

Definition class_args (operator : string) (iface_name : text) (class_id : Z) : list text :=
  [lit "class"; lit operator; lit "dev"; iface_name; lit "parent"; lit "1:"; lit "classid"; class_name class_id].
(** The status of the deletion is not looked at. *)
Definition delete_class (iface_name : text) (ip : Z) : KI unit :=
  let! present := has_class ip iface_name in
  if present then let! _ := tc (class_args "del" iface_name (get_class_id ip)) in ret tt else ret tt.
Definition limit_args (min_bw max_bw : Z) : list text :=
  [lit "htb"; lit "rate"; show_uint min_bw ++ lit "kbit"; lit "ceil"; show_uint max_bw ++ lit "kbit"].
Definition set_class_limit (iface_name : text) (min_bw max_bw : Z) (ip : Z) : KI unit :=
  let! present := has_class ip iface_name in
  let modifier := if present then "change"%string else "add"%string in
  let! _ := tc_checked (class_args modifier iface_name (get_class_id ip) ++ limit_args min_bw max_bw) in ret tt.

Definition filter_args (iface_name : text) (protocol family : string) (dst : text) (class_id : Z) : list text :=
  [lit "filter"; lit "add"; lit "dev"; iface_name; lit "parent"; lit "1:"; lit "protocol"; lit protocol; lit "u32";
   lit "match"; lit family; lit "dst"; dst; lit "flowid"; class_name class_id].
Definition create_flow_by_ipv6 (iface_name : text) (ip_net : IpNetwork) (ip : Z) : KI unit :=
  let! _ := tc_checked (filter_args iface_name "ipv6" "ip6" (show_net ip_net) (get_class_id ip)) in ret tt.
Definition create_flow_by_ip (iface_name : text) (ip : Z) : KI unit :=
  let! _ := tc_checked (filter_args iface_name "ip" "ip" (show_ip (V4 ip) ++ lit "/32") (get_class_id ip)) in ret tt.
End tc.
End TrafficControl.

(** * Properties

    Traffic control against a machine that keeps classes and filters: setting a
    limit creates or replaces one class, classes are shared by addresses that
    are equal modulo 9999, and looking for a filter by text finds those of
    other classes. *)

Import KernelShell KernelCounters TrafficControl.

(** * The machine *)

Record tc_machine := { classes : gmap text (list text); flows : list (text * text) }.
Definition answer (ok : bool) (out : text) : Output := {| out_success := ok; out_stdout := out; out_stderr := [] |}.

Definition class_line (c : text * list text) : text := join space (lit "class" :: lit "htb" :: c.1 :: lit "root" :: c.2).
Definition flow_line (f : text * text) : text := join space [lit "filter"; lit "match"; f.1; lit "flowid"; f.2].

(** A class is added when it is new and changed when it is there. *)
Definition class_command (m : tc_machine) (op name : text) (limits : list text) : tc_machine * bool :=
  let known := bool_decide (is_Some (classes m !! name)) in
  let set cs := {| classes := cs; flows := flows m |} in
  if text_eqb op (lit "add") then if known then (m, false) else (set (<[name := limits]> (classes m)), true)
  else if text_eqb op (lit "change") then if known then (set (<[name := limits]> (classes m)), true) else (m, false)
  else if text_eqb op (lit "del") then if known then (set (delete name (classes m)), true) else (m, false)
  else (m, false).
Definition tc_exec (m : tc_machine) (args : list text) : tc_machine * Output :=
  match args with
  | [kind; op; _; _] =>
      if text_eqb op (lit "show") then
        (m, answer true (if text_eqb kind (lit "class") then join newline (class_line <$> map_to_list (classes m))
                         else join newline (flow_line <$> flows m)))
      else (m, answer false [])
  | kind :: op :: _ :: _ :: _ :: _ :: a :: b :: rest =>
      if text_eqb kind (lit "class") then let '(m', ok) := class_command m op b rest in (m', answer ok [])
      else match rest with
           | [_; _; _; _; dst; _; name] => ({| classes := classes m; flows := flows m ++ [(dst, name)] |}, answer true [])
           | _ => (m, answer false [])
           end
  | _ => (m, answer false [])
  end.

Section machine.
Context (m0 : tc_machine) `{P : Profile}.
Definition tc_at (h : list Command) : tc_machine := foldl (fun m c => (tc_exec m c.2).1) m0 h.
Definition tc_shell : Shell := {| shell_answer h _ args := Some (tc_exec (tc_at h) args).2 |}.
#[local] Existing Instance tc_shell.

Lemma tc_run args h : tc args h = Done (h ++ [(lit "tc", args)]) (tc_exec (tc_at h) args).2.
Proof. reflexivity. Qed.
Lemma tc_at_snoc h c : tc_at (h ++ [c]) = (tc_exec (tc_at h) c.2).1.
Proof. unfold tc_at. by rewrite foldl_app. Qed.
Lemma tc_checked_run args h :
  out_success (tc_exec (tc_at h) args).2 = true ->
  tc_checked args h = Done (h ++ [(lit "tc", args)]) (out_stdout (tc_exec (tc_at h) args).2).
Proof. intros Hs. unfold tc_checked, bind. rewrite tc_run, Hs. done. Qed.

(** ** Names and lines *)

(** A limit is a word without a colon, as the limits set are. *)
Definition limit_word (w : text) : Prop := word w /\ ":"%char ∉ w.
Definition machine_ok (m : tc_machine) : Prop :=
  map_Forall (fun name limits => word name /\ Forall limit_word limits) (classes m).

Lemma word_plain w c : word w -> is_whitespace c = true -> c ∉ w.
Proof. intros [_ Hw] Hc Hin. rewrite Forall_forall in Hw. specialize (Hw c Hin). congruence. Qed.
Lemma class_name_word id : 0 <= id -> word (class_name id).
Proof.
  intros Hid. apply address_word; [done|]. unfold class_name. apply Forall_app. split; [by repeat constructor|by apply show_uint_chars].
Qed.
Lemma class_name_inj a b : 0 <= a < 10 ^ 30 -> 0 <= b < 10 ^ 30 -> class_name a = class_name b -> a = b.
Proof.
  intros Ha Hb H. apply (app_inv_head (lit "1:")) in H. pose proof (parse_show_uint (10 ^ 30) a) as Pa.
  rewrite H, parse_show_uint in Pa by lia. assert (Some b = Some a) as [= ->] by (apply Pa; lia). done.
Qed.
Lemma class_id_range ip : 0 <= get_class_id ip < 9999.
Proof. apply Z.mod_pos_bound. lia. Qed.

Lemma limit_words l : Forall limit_word l -> Forall word l.
Proof. intros H. eapply Forall_impl; [exact H|]. by intros w []. Qed.
Lemma class_line_words name limits : word name -> Forall limit_word limits -> words (class_line (name, limits)) = lit "class" :: lit "htb" :: name :: lit "root" :: limits.
Proof. intros Hn Hl%limit_words. apply words_join. repeat (apply Forall_cons; split; [by (apply lit_word || apply Hn)|]). done. Qed.
Lemma line_plain ws c : Forall word ws -> c <> space -> is_whitespace c = true -> c ∉ join space ws.
Proof.
  intros Hws Hc Hw Hin. destruct (elem_of_join _ _ _ Hin) as [?|(w & Hwin & Hx)]; [done|].
  rewrite Forall_forall in Hws. by apply (word_plain w c (Hws w Hwin) Hw).
Qed.

(** A class is found exactly when the machine has it. *)
Lemma has_class_run ip iface h :
  machine_ok (tc_at h) ->
  has_class ip iface h
  = Done (h ++ [(lit "tc", tc_show "class" iface)]) (bool_decide (is_Some (classes (tc_at h) !! class_name (get_class_id ip)))).
Proof.
  intros Hok. unfold has_class, bind. rewrite tc_checked_run by done. cbn [tc_show tc_exec answer snd out_stdout].
  change (text_eqb (lit "show") (lit "show")) with true. change (text_eqb (lit "class") (lit "class")) with true.
  cbn [answer snd out_stdout]. unfold ret. f_equal.
  assert (Hw : Forall (fun c => word c.1 /\ Forall limit_word c.2) (map_to_list (classes (tc_at h)))).
  { apply Forall_forall. intros [n l] Hin%elem_of_map_to_list. by apply (Hok n l). }
  rewrite lines_join.
  2: { apply Forall_fmap. eapply Forall_impl; [exact Hw|]. intros [n l] [Hn Hl%limit_words]. cbn [fst snd] in *.
       assert (Hall : Forall word (lit "class" :: lit "htb" :: n :: lit "root" :: l))
         by (repeat (apply Forall_cons; split; [by (apply lit_word || apply Hn)|]); done).
       split_and!; [done|by apply line_plain..]. }
  apply Bool.eq_iff_eq_true. rewrite bool_decide_eq_true, existsb_exists. split.
  - intros (line & Hl & Hx). apply list_elem_of_In, list_elem_of_fmap in Hl as ([n l] & -> & Hc).
    rewrite Forall_forall in Hw. destruct (Hw _ Hc) as [Hn Hls]. rewrite class_line_words in Hx by done.
    apply elem_of_map_to_list in Hc. apply existsb_exists in Hx as (w & Hin & <-%bool_decide_eq_true).
    apply list_elem_of_In in Hin. rewrite !elem_of_cons in Hin. cbn [fst snd] in *.
    destruct Hin as [Hin|[Hin|[->|[Hin|Hin]]]]; [done|done|by eexists|done|].
    rewrite Forall_forall in Hls. destruct (Hls _ Hin) as [_ Hcol]. exfalso. apply Hcol. right. by left.
  - intros [l Hl]. exists (class_line (class_name (get_class_id ip), l)). split.
    + apply list_elem_of_In, list_elem_of_fmap. eexists. split; [done|]. by apply elem_of_map_to_list.
    + destruct (Hok _ _ Hl) as [Hn Hls]. rewrite class_line_words by done. cbn [existsb].
      unfold text_eqb at 3. rewrite (bool_decide_eq_true_2 (class_name _ = _)) by done. by rewrite !orb_true_r.
Qed.

(** ** Limits *)

Lemma limit_args_ok lo hi : 0 <= lo -> 0 <= hi -> Forall limit_word (limit_args lo hi).
Proof.
  intros Hlo Hhi. assert (Hk : forall n, 0 <= n -> limit_word (show_uint n ++ lit "kbit")).
  { intros n Hn. split.
    - split; [by destruct (show_uint n)|]. apply Forall_app. split; [|by repeat constructor].
      eapply Forall_impl; [by apply show_uint_chars|]. intros c Hc. by apply addr_char_plain.
    - rewrite not_elem_of_app. split; [by apply show_uint_plain|]. apply (bool_decide_unpack _). by vm_compute. }
  unfold limit_args. repeat (apply Forall_cons; split; [first [by apply Hk | apply (bool_decide_unpack _); by vm_compute]|]). done.
Qed.

Lemma class_command_run h op iface name limits :
  (tc_exec (tc_at h) ([lit "class"; lit op; lit "dev"; iface; lit "parent"; lit "1:"; lit "classid"; name] ++ limits))
  = (let '(m', ok) := class_command (tc_at h) (lit op) name limits in (m', answer ok [])).
Proof. reflexivity. Qed.
Lemma show_class_state h iface : tc_at (h ++ [(lit "tc", tc_show "class" iface)]) = tc_at h.
Proof. by rewrite tc_at_snoc. Qed.

(** Setting a client's limit succeeds, and the machine then has the client's
    class with these limits and every other class as it was. *)
Theorem class_limit_set iface lo hi ip h :
  machine_ok (tc_at h) -> 0 <= lo -> 0 <= hi ->
  exists h', set_class_limit (SH := tc_shell) iface lo hi ip h = Done h' tt
    /\ classes (tc_at h') = <[class_name (get_class_id ip) := limit_args lo hi]> (classes (tc_at h))
    /\ machine_ok (tc_at h').
Proof.
  intros Hok Hlo Hhi. unfold set_class_limit, bind at 1. rewrite has_class_run by done.
  set (name := class_name (get_class_id ip)). set (h1 := h ++ [(lit "tc", tc_show "class" iface)]).
  assert (Hst : tc_at h1 = tc_at h) by apply show_class_state.
  set (op := if bool_decide (is_Some (classes (tc_at h) !! name)) then "change"%string else "add"%string).
  assert (Hc : class_command (tc_at h) (lit op) name (limit_args lo hi)
    = ({| classes := <[name := limit_args lo hi]> (classes (tc_at h)); flows := flows (tc_at h) |}, true)).
  { unfold class_command, op. destruct (bool_decide (is_Some _)); reflexivity. }
  eexists. split; [|split].
  - unfold bind. rewrite tc_checked_run; [reflexivity|]. unfold class_args. fold name op. by rewrite class_command_run, Hst, Hc.
  - rewrite tc_at_snoc. cbn [snd]. unfold class_args. fold name. by rewrite class_command_run, Hst, Hc.
  - unfold machine_ok. rewrite tc_at_snoc. cbn [snd]. unfold class_args. fold name. rewrite class_command_run, Hst, Hc.
    cbn [fst classes]. apply map_Forall_insert_2; [|done]. split; [apply class_name_word, class_id_range|by apply limit_args_ok].
Qed.

(** Deleting a client's class leaves every other class as it was. *)
Theorem class_deleted iface ip h :
  machine_ok (tc_at h) ->
  exists h', delete_class (SH := tc_shell) iface ip h = Done h' tt
    /\ classes (tc_at h') = delete (class_name (get_class_id ip)) (classes (tc_at h)).
Proof.
  intros Hok. unfold delete_class, bind at 1. rewrite has_class_run by done.
  set (name := class_name (get_class_id ip)). set (h1 := h ++ [(lit "tc", tc_show "class" iface)]).
  assert (Hst : tc_at h1 = tc_at h) by apply show_class_state.
  case_bool_decide as Hin.
  - eexists. split; [reflexivity|]. rewrite tc_at_snoc. cbn [snd]. unfold class_args. fold name.
    rewrite <- (app_nil_r (lit "class" :: _)), class_command_run, Hst. unfold class_command.
    rewrite bool_decide_eq_true_2 by done. reflexivity.
  - eexists. split; [reflexivity|]. rewrite Hst, delete_id; [done|]. by apply eq_None_not_Some.
Qed.

(** Two clients share a class exactly when their addresses are equal modulo
    9999: the limits of one are then the limits of the other. *)
Theorem class_shared a b :
  class_name (get_class_id a) = class_name (get_class_id b) <-> (a - b) mod 9999 = 0.
Proof.
  pose proof (class_id_range a). pose proof (class_id_range b). split.
  - intros H1%class_name_inj; [|lia..]. unfold get_class_id in H1. by rewrite Zminus_mod, H1, Z.sub_diag.
  - intros H1. f_equal. unfold get_class_id. replace a with (b + (a - b)) at 1 by lia.
    rewrite Zplus_mod, H1, Z.add_0_r. apply Zmod_mod.
Qed.

(** ** Filters *)

Lemma join_suffix c w ws : exists p, join c (ws ++ [w]) = p ++ w.
Proof.
  induction ws as [|x ws [p IH]]; [by exists []|]. destruct ws as [|y ws].
  - exists (x ++ [c]). cbn. by rewrite <- app_assoc.
  - exists (x ++ c :: p). cbn [app] in IH |- *. change (join c (x :: y :: ws ++ [w])) with (x ++ c :: join c (y :: ws ++ [w])).
    rewrite IH. by rewrite <- app_assoc.
Qed.
Lemma contains_elem (f : text) ls pat : f ∈ ls -> contains pat f = true -> contains pat (join newline ls) = true.
Proof.
  intros Hin Hc. induction ls as [|l ls IH]; [by apply elem_of_nil in Hin|]. apply elem_of_cons in Hin.
  destruct ls as [|l' ls].
  - destruct Hin as [->|Hin]; [done|by apply elem_of_nil in Hin].
  - change (join newline (l :: l' :: ls)) with (l ++ newline :: join newline (l' :: ls)).
    destruct Hin as [->|Hin]; [by apply contains_app_l|]. rewrite cons_middle, app_assoc. by apply contains_app_r, IH.
Qed.

(** A client is reported to have a filter when another client has one whose
    class number starts with the same digits, so none is added for it. *)
Theorem flow_of_another a b dst t iface h :
  (dst, class_name (get_class_id b)) ∈ flows (tc_at h) ->
  show_uint (get_class_id b) = show_uint (get_class_id a) ++ t ->
  has_flow (SH := tc_shell) a iface h = Done (h ++ [(lit "tc", tc_show "filter" iface)]) true.
Proof.
  intros Hin Hp. unfold has_flow, bind. rewrite tc_checked_run by done. cbn [tc_show tc_exec].
  change (text_eqb (lit "show") (lit "show")) with true. change (text_eqb (lit "filter") (lit "class")) with false.
  cbn [answer snd out_stdout]. unfold ret. f_equal.
  apply (contains_elem (flow_line (dst, class_name (get_class_id b)))); [by apply list_elem_of_fmap_2|].
  unfold flow_line. cbn [fst snd].
  destruct (join_suffix space (class_name (get_class_id b)) [lit "filter"; lit "match"; dst; lit "flowid"]) as [p Hj].
  cbn [app] in Hj. rewrite Hj.
  unfold class_name. rewrite Hp, (app_assoc (lit "1:")). apply contains_app.
Qed.
End machine.

(** * The burst of a limit *)

(** Up to 4294967 kbit/s the burst asked for is a thousand times the rate; above,
    the product leaves 32 bits: a panic where overflow is checked, otherwise a
    wrapped burst. *)
Theorem classless_burst `{SH : Shell} `{P : Profile} iface bw h h' :
  0 <= bw <= U32_MAX -> set_classless_limit iface bw h = Done h' tt ->
  exists burst, u32_of (bw * 1000) = Some burst
    /\ last h' = Some (lit "tc", classless_args iface burst bw)
    /\ (bw <= 4294967 -> burst = bw * 1000) /\ (4294967 < bw -> 0 <= burst < bw * 1000).
Proof.
  intros Hbw. unfold set_classless_limit. intros (h1 & q & _ & H)%bind_done. apply bind_done in H as (h2 & [] & _ & H).
  apply bind_done in H as (h3 & burst & [-> Hb]%unwrap_done & H). exists burst. split; [done|]. split.
  - apply bind_done in H as (h4 & out & H4 & [= <-]). unfold tc_checked in H4.
    apply bind_done in H4 as (h5 & o & H5 & H6). unfold tc in H5. apply ki_run_done in H5 as [-> _].
    destruct (negb (out_success o)); [done|]. injection H6 as <- _. apply last_snoc.
  - unfold u32_of in Hb. split; intros Hlim.
    + rewrite native_exact in Hb by (unfold U32_MAX; lia). congruence.
    + apply native_range in Hb; unfold U32_MAX in *; lia.
Qed.

(** * The limits of the tunnel manager

    The tunnel manager's calls of this file's code, over the commands run so far:
    the other calls are those of a kernel [K0]. A panic, which only a rate whose
    burst leaves 32 bits causes, shows as an error; the theorem excludes it. *)

Section kernel.
Context {W0 : Type} (K0 : Kernel W0) `{SH : Shell} `{P : Profile}.

Definition on_history {A : Type} (m : KI A) (w : W0 * list Command) : (W0 * list Command) * (KernelError + A) :=
  match m w.2 with
  | Done h a => ((w.1, h), inr a)
  | Fail h _ => ((w.1, h), inl (TunnelManager.RuntimeError "TrafficControlError"))
  | Panic => (w, inl (TunnelManager.RuntimeError "panic"))
  end.
Definition on_rest {A : Type} (f : W0 -> W0 * A) (w : W0 * list Command) : (W0 * list Command) * A :=
  let '(w0, a) := f w.1 in ((w0, w.2), a).
Definition tc_kernel : Kernel (W0 * list Command) := {|
  k_now w := k_now w.1;
  k_used_ports w := k_used_ports w.1;
  k_get_interfaces w := k_get_interfaces w.1;
  k_create_blank_wg_interface i := on_rest (k_create_blank_wg_interface i);
  k_open_tunnel a := on_rest (k_open_tunnel a);
  k_del_interface i := on_rest (k_del_interface i);
  k_set_codel_shaping i speed := on_history (set_codel_shaping i speed);
  k_has_limit i := on_history (has_limit i);
  k_set_classless_limit i bw := on_history (set_classless_limit i bw);
  k_babel c := on_rest (k_babel c);
|}.
End kernel.

(** What is relied on of [tc]: [roots] are the root queueing disciplines after a
    history of commands, for the interfaces that have one. For a [live]
    interface, showing names the kind and changes nothing, what is there can be
    deleted, a token bucket can be added where nothing is, and a command that
    adds or changes the root either does so or leaves it alone. *)
Definition kinds : list text :=
  lit <$> ["htb"; "tbf"; "cake"; "fq_codel"; "fifo"; "pfifo"; "bfifo"; "pfifo_fast"; "mq"; "fq"].
Definition marks : list text := lit <$> ["htb"; "tbf"; "codel"; "cake"; "noqueue"].
Definition limit_kinds : list text := lit <$> ["htb"; "tbf"].

Class TcLaws (SH : Shell) (live : text -> Prop) (roots : list Command -> gmap text text) : Prop := {
  tc_kinds h i k : roots h !! i = Some k -> k ∈ kinds;
  tc_shows h i : live i -> exists o, shell_answer h (lit "tc") (tc_show "qdisc" i) = Some o /\ out_success o = true
    /\ (forall m, m ∈ marks -> contains m (out_stdout o) = contains m (default (lit "noqueue") (roots h !! i)))
    /\ roots (h ++ [(lit "tc", tc_show "qdisc" i)]) = roots h;
  tc_deletes h i k : live i -> roots h !! i = Some k ->
    let args := [lit "qdisc"; lit "del"; lit "dev"; i; lit "root"] in
    exists o, shell_answer h (lit "tc") args = Some o /\ out_success o = true
      /\ roots (h ++ [(lit "tc", args)]) = delete i (roots h);
  tc_adds_tbf h i bw : live i -> roots h !! i = None -> 0 < bw ->
    let args := classless_args i (bw * 1000) bw in
    exists o, shell_answer h (lit "tc") args = Some o /\ out_success o = true
      /\ roots (h ++ [(lit "tc", args)]) = <[i := lit "tbf"]> (roots h);
  tc_sets h i op kind params : live i -> kind ∈ kinds ->
    let args := qdisc_root op i ++ kind :: params in
    exists o, shell_answer h (lit "tc") args = Some o
      /\ roots (h ++ [(lit "tc", args)]) = if out_success o then <[i := kind]> (roots h) else roots h;
}.

(** [tc qdisc change] can turn a limit into cake. *)
Definition tc_lifts (SH : Shell) (live : text -> Prop) (roots : list Command -> gmap text text) : Prop :=
  forall h i k, live i -> roots h !! i = Some k -> k ∈ limit_kinds ->
  exists o, shell_answer h (lit "tc") (cake_args "change" i None) = Some o /\ out_success o = true.

Section limits.
Context `{SH : Shell} `{P : Profile} (live : text -> Prop) (roots : list Command -> gmap text text) `{TL : !TcLaws SH live roots}.
Context {W0 : Type} (K0 : Kernel W0) (bw : Z) (Hbw : 0 < bw <= 4294967).
#[local] Existing Instance tc_kernel.

Definition limited_by_tc (w : W0 * list Command) : gset text := dom (filter (fun x => x.2 ∈ limit_kinds) (roots w.2)).

Lemma limited_by_tc_spec w i : i ∈ limited_by_tc w <-> exists k, roots w.2 !! i = Some k /\ k ∈ limit_kinds.
Proof.
  unfold limited_by_tc. rewrite elem_of_dom. split.
  - intros [k [H1 H2]%map_lookup_filter_Some]. by exists k.
  - intros (k & H1 & H2). exists k. by apply map_lookup_filter_Some.
Qed.

(** The marks of a kind tell whether it limits, and that it is a queue. *)
Lemma marks_of_kind k : k ∈ kinds ->
  ((contains (lit "htb") k || contains (lit "tbf") k) && negb (contains (lit "codel") k) && negb (contains (lit "cake") k)
    && negb (contains (lit "noqueue") k)) = bool_decide (k ∈ limit_kinds)
  /\ contains (lit "noqueue") k = false.
Proof. revert k. apply Forall_forall. vm_compute. by repeat constructor. Qed.

Lemma has_qdisc_run i h : live i ->
  has_qdisc i h = Done (h ++ [(lit "tc", tc_show "qdisc" i)]) (bool_decide (is_Some (roots h !! i))).
Proof.
  intros Hl. destruct (tc_shows h i Hl) as (o & Eo & Hs & Hm & _).
  unfold has_qdisc, tc_checked, tc, bind, ki_run. rewrite Eo, Hs. cbn [negb]. unfold ret. rewrite Hm by (vm_compute; set_solver).
  destruct (roots h !! i) as [k|] eqn:E; cbn [default from_option id]; [|done].
  by rewrite (proj2 (marks_of_kind k (tc_kinds h i k E))).
Qed.

Lemma has_limit_run i h : live i ->
  has_limit i h = Done (h ++ [(lit "tc", tc_show "qdisc" i)])
    (match roots h !! i with Some k => bool_decide (k ∈ limit_kinds) | None => false end).
Proof.
  intros Hl. destruct (tc_shows h i Hl) as (o & Eo & Hs & Hm & _).
  unfold has_limit, tc_checked, tc, bind, ki_run. rewrite Eo, Hs. cbn [negb]. unfold ret.
  rewrite !Hm by (vm_compute; set_solver). destruct (roots h !! i) as [k|] eqn:E; cbn [default from_option id].
  - by rewrite (proj1 (marks_of_kind k (tc_kinds h i k E))).
  - reflexivity.
Qed.

Lemma set_limit_run i h : live i ->
  exists h', set_classless_limit i bw h = Done h' tt /\ roots h' = <[i := lit "tbf"]> (roots h).
Proof.
  intros Hl. unfold set_classless_limit. unfold bind at 1. rewrite has_qdisc_run by done.
  destruct (tc_shows h i Hl) as (_ & _ & _ & _ & Hr). set (h1 := h ++ _) in *.
  assert (exists h2, (if bool_decide (is_Some (roots h !! i)) then delete_qdisc i else ret tt) h1 = Done h2 tt
    /\ roots h2 = delete i (roots h)) as (h2 & E2 & Hr2).
  { case_bool_decide as Hs.
    - destruct Hs as [k Hk]. rewrite <- Hr in Hk. destruct (tc_deletes h1 i k Hl Hk) as (o & Eo & Ho & Hd).
      eexists. unfold delete_qdisc, tc, bind, ki_run. rewrite Eo, Ho. split; [done|]. by rewrite Hd, Hr.
    - exists h1. split; [done|]. rewrite Hr, delete_id; [done|]. by apply eq_None_not_Some. }
  unfold bind at 1. rewrite E2. unfold bind at 1, u32_of. rewrite native_exact by (unfold U32_MAX; lia). cbn [unwrap].
  destruct (tc_adds_tbf h2 i bw Hl) as (o & Eo & Ho & Ha); [by rewrite Hr2, lookup_delete_eq|lia|].
  eexists. unfold tc_checked, tc, bind, ki_run, ret. rewrite Eo, Ho. split; [done|]. rewrite Ha, Hr2. apply insert_delete_eq.
Qed.

Lemma codel_run i h : live i ->
  let op := if bool_decide (is_Some (roots h !! i)) then "change"%string else "add"%string in
  exists h', (set_codel_shaping i None h = Done h' tt
              /\ (exists k, k ∈ kinds /\ (k ∉ limit_kinds) /\ roots h' = <[i := k]> (roots h)))
          \/ ((exists e, set_codel_shaping i None h = Fail h' e) /\ roots h' = roots h
              /\ exists h1 o, roots h1 = roots h /\ shell_answer h1 (lit "tc") (cake_args op i None) = Some o /\ out_success o = false).
Proof.
  intros Hl op. remember (set_codel_shaping i None h) as r eqn:Er.
  unfold set_codel_shaping, bind at 1 in Er. rewrite has_qdisc_run in Er by done. fold op in Er.
  destruct (tc_shows h i Hl) as (_ & _ & _ & _ & Hr). set (h1 := h ++ _) in *.
  destruct (tc_sets h1 i op (lit "cake") [lit "unlimited"; lit "internet"; lit "diffserv4"] Hl) as (o1 & E1 & R1);
    [vm_compute; set_solver|]. change (qdisc_root op i ++ _) with (cake_args op i None) in E1, R1.
  unfold bind at 1, tc at 1, ki_run in Er. rewrite E1 in Er. set (h2 := h1 ++ _) in *.
  destruct (out_success o1) eqn:S1; cbn [negb] in Er.
  { exists h2. left. split; [done|]. exists (lit "cake"). rewrite R1, Hr. split_and!; [vm_compute; set_solver| |done].
    vm_compute. set_solver. }
  destruct (tc_sets h2 i op (lit "fq_codel") [lit "target"; lit "100ms"] Hl) as (o2 & E2 & R2); [vm_compute; set_solver|].
  change (qdisc_root op i ++ _) with (codel_args op i) in E2, R2.
  unfold bind at 1, tc at 1, ki_run in Er. rewrite E2 in Er. set (h3 := h2 ++ _) in *.
  destruct (out_success o2) eqn:S2; cbn [negb] in Er.
  { exists h3. left. split; [done|]. exists (lit "fq_codel"). rewrite R2, R1, Hr. split_and!; [vm_compute; set_solver| |done].
    vm_compute. set_solver. }
  destruct (tc_sets h3 i op (lit "fifo") [] Hl) as (o3 & E3 & R3); [vm_compute; set_solver|].
  change (qdisc_root op i ++ _) with (fifo_args op i) in E3, R3.
  unfold bind, tc, ki_run in Er. rewrite E3 in Er. set (h4 := h3 ++ _) in *. exists h4.
  destruct (out_success o3) eqn:S3; cbn [negb] in Er.
  - left. split; [done|]. exists (lit "fifo"). rewrite R3, R2, R1, Hr. split_and!; [vm_compute; set_solver| |done].
    vm_compute. set_solver.
  - right. split; [by eexists|]. split; [by rewrite R3, R2, R1, Hr|]. exists h1, o1. done.
Qed.

(** The code of this file keeps the laws the tunnel manager relies on. *)
#[export] Instance tc_kernel_laws : LimitLaws (K := tc_kernel K0) bw live limited_by_tc (tc_lifts SH live roots).
Proof.
  split; intros i [w0 h] Hl; simpl; unfold on_history; cbn [fst snd].
  - rewrite has_limit_run by done. exists (w0, h ++ [(lit "tc", tc_show "qdisc" i)]). split; [|split; [|done]].
    + do 2 f_equal. pose proof (limited_by_tc_spec (w0, h) i) as Hi. simpl in Hi.
      destruct (roots h !! i) as [k|]; [|rewrite bool_decide_eq_false_2 by naive_solver; done].
      apply bool_decide_ext. naive_solver.
    + unfold limited_by_tc. cbn [snd]. destruct (tc_shows h i Hl) as (_ & _ & _ & _ & E). by rewrite E.
  - destruct (set_limit_run i h Hl) as (h' & -> & Hr). eexists. split; [done|]. split; [|done].
    apply set_eq. intros j. rewrite elem_of_union, elem_of_singleton, !limited_by_tc_spec. simpl. rewrite Hr.
    destruct (decide (j = i)) as [->|Hne].
    + rewrite lookup_insert_eq. split; [by left|intros _]. exists (lit "tbf"). split; [done|]. vm_compute. set_solver.
    + rewrite lookup_insert_ne by done. naive_solver.
  - intros (k & Hk & Hlim)%limited_by_tc_spec. simpl in Hk.
    destruct (codel_run i h Hl) as (h' & [(-> & k' & _ & Hk' & Hr)|([e ->] & Hr & h1 & o & Hr1 & Eo & So)]);
      eexists _, _; (split; [done|]); (split; [done|]).
    + left. split; [done|]. apply set_eq. intros j. rewrite elem_of_difference, elem_of_singleton, !limited_by_tc_spec. simpl. rewrite Hr.
      destruct (decide (j = i)) as [->|Hne]; [rewrite lookup_insert_eq|rewrite lookup_insert_ne by done]; naive_solver.
    + right. split; [|split; [by eexists|unfold limited_by_tc; simpl; by rewrite Hr]].
      intros Hlift. rewrite bool_decide_eq_true_2 in Eo by (by eexists). rewrite <- Hr1 in Hk.
      destruct (Hlift h1 i k Hl Hk Hlim) as (o' & Eo' & So'). congruence.
Qed.
End limits.


(** * Demonstrations *)

Definition demo_tc : tc_machine := {| classes := ∅; flows := [(lit "0.0.0.123/32", class_name 123)] |}.
Lemma class_limit_set_witness :
  exists h', set_class_limit (SH := tc_shell demo_tc) (lit "wg_exit") 1000 5000 3232235777 [] = Done h' tt
    /\ classes (tc_at demo_tc h') = <[class_name (get_class_id 3232235777) := limit_args 1000 5000]> ∅
    /\ machine_ok (tc_at demo_tc h').
Proof. apply (class_limit_set demo_tc (lit "wg_exit") 1000 5000 3232235777 []); [apply map_Forall_empty|lia|lia]. Defined.
(** The client 0.0.0.12 has no filter; the one of 0.0.0.123 is taken for it. *)
Lemma flow_of_another_witness :
  has_flow (SH := tc_shell demo_tc) 12 (lit "wg_exit") [] = Done [(lit "tc", tc_show "filter" (lit "wg_exit"))] true.
Proof.
  apply (flow_of_another demo_tc 12 123 (lit "0.0.0.123/32") (lit "3") (lit "wg_exit") []); [by left|reflexivity].
Defined.
(** Without checks a limit of 4294968 kbit/s asks for a burst of 704 bytes. *)
Definition burst_shell : Shell := {| shell_answer _ _ _ := Some (answer true (lit "noqueue")) |}.
Definition burst_history : list Command :=
  [(lit "tc", tc_show "qdisc" (lit "eth0")); (lit "tc", classless_args (lit "eth0") 704 4294968)].
Lemma classless_burst_witness :
  exists burst, @u32_of release_profile (4294968 * 1000) = Some burst
    /\ last burst_history = Some (lit "tc", classless_args (lit "eth0") burst 4294968)
    /\ (4294968 <= 4294967 -> burst = 4294968 * 1000) /\ (4294967 < 4294968 -> 0 <= burst < 4294968 * 1000).
Proof.
  apply (@classless_burst burst_shell release_profile (lit "eth0") 4294968 [] burst_history).
  - unfold U32_MAX. lia.
  - vm_compute. reflexivity.
Defined.

(** A [tc] that keeps the kind of the root of every interface. *)
Definition qd_line (k : text) : text := lit "qdisc " ++ k ++ lit " 1: root refcnt 2".
Definition qd_exec (m : gmap text text) (args : list text) : gmap text text * Output :=
  match args with
  | [_; _; _; i] => (m, answer true (qd_line (default (lit "noqueue") (m !! i))))
  | [_; _; _; i; _] => (delete i m, answer (bool_decide (is_Some (m !! i))) [])
  | _ :: op :: _ :: i :: _ :: _ :: _ :: kind :: _ =>
      if bool_decide (kind ∈ kinds) && (text_eqb op (lit "change") || bool_decide (m !! i = None))
      then (<[i := kind]> m, answer true []) else (m, answer false [])
  | _ => (m, answer false [])
  end.
Definition qd_roots (h : list Command) : gmap text text := foldl (fun m c => (qd_exec m c.2).1) ∅ h.
Definition qd_shell : Shell := {| shell_answer h _ args := Some (qd_exec (qd_roots h) args).2 |}.

Lemma qd_roots_snoc h c : qd_roots (h ++ [c]) = (qd_exec (qd_roots h) c.2).1.
Proof. unfold qd_roots. by rewrite foldl_app. Qed.

Lemma qd_exec_kinds m args : map_Forall (fun _ k => k ∈ kinds) m -> map_Forall (fun _ k => k ∈ kinds) (qd_exec m args).1.
Proof.
  intros Hm. unfold qd_exec. repeat (case_match; simpl; try done); subst.
  - by apply map_Forall_delete.
  - apply map_Forall_insert_2; [|done]. match goal with H : _ && _ = true |- _ => by apply andb_prop in H as [?%bool_decide_eq_true _] end.
Qed.

Lemma qd_shows k m : k ∈ lit "noqueue" :: kinds -> m ∈ marks -> contains m (qd_line k) = contains m k.
Proof.
  intros Hk Hm. assert (H : Forall (fun k => Forall (fun m => contains m (qd_line k) = contains m k) marks) (lit "noqueue" :: kinds))
    by (vm_compute; by repeat constructor).
  rewrite Forall_forall in H. specialize (H k Hk). rewrite Forall_forall in H. by apply H.
Qed.

#[export] Instance qd_laws : TcLaws qd_shell (fun _ => True) qd_roots.
Proof.
  assert (Hk : forall h, map_Forall (fun _ k => k ∈ kinds) (qd_roots h)).
  { intros h. induction h as [|c h IH] using rev_ind; [apply map_Forall_empty|]. rewrite qd_roots_snoc. by apply qd_exec_kinds. }
  split; intros h i.
  - intros k. apply Hk.
  - intros _. rewrite ?qd_roots_snoc. eexists. split; [reflexivity|]. split; [done|]. split; [|done].
    intros m Hm. apply qd_shows; [|done]. destruct (qd_roots h !! i) as [k|] eqn:E; [right; by apply (Hk h i)|left].
  - intros k _ Hi args. rewrite ?qd_roots_snoc. eexists. split; [reflexivity|]. simpl. rewrite Hi. done.
  - intros bw _ Hi _ args. rewrite ?qd_roots_snoc. eexists. split; [reflexivity|]. simpl. rewrite Hi. done.
  - intros op kind params _ Hkind args. rewrite ?qd_roots_snoc. eexists. split; [reflexivity|].
    subst args. cbn [qdisc_root app qd_exec snd]. by destruct (_ && _).
Qed.

Lemma qd_lifts : tc_lifts qd_shell (fun _ => True) qd_roots.
Proof. intros h i k _ _ _. eexists. split; [reflexivity|]. reflexivity. Qed.

Definition demo_tc_node : Node (demo_sys * list Command) := Build_Node (tm demo_node) (sys demo_node, []).

