(* ===== verification/Uci.v ===== *)
(** The configuration system of OpenWRT
    (althea_kernel_interface/src/manipulate_uci.rs): the commands that set, delete,
    read, commit and revert variables, and the parser of what [uci show] prints;
    then a machine with a committed and a staged configuration that answers them. *)
From S2P Require Import Prelude Types Text IpText Babel TrafficWatcher KernelShell KernelCounters IpRoute.
Import KernelShell.

Module Uci.
Abbreviation KI A := (M (list Command) KernelInterfaceError A).
(** A [HashMap<String, String>]. *)
Abbreviation Entries := (gmap text text).

Definition runtime_error (message stderr : text) : KernelInterfaceError :=
  RuntimeError (String.string_of_list_ascii (message ++ stderr)).
(** [Display] of a runtime error. *)
Definition error_text (e : KernelInterfaceError) : text :=
  match e with RuntimeError s => lit "Runtime Error: " ++ lit s | _ => [] end.

(** The regular expression [(.+)=(.+)]: greedy, so the line is cut at the last
    equals sign that has something before and behind it. *)
Fixpoint last_cut (before after : text) : option (text * text) :=
  match after with
  | [] => None
  | c :: after =>
      match last_cut (before ++ [c]) after with
      | Some r => Some r
      | None => if Ascii.eqb c "=" && bool_decide (before <> []) && bool_decide (after <> []) then Some (before, after) else None
      end
  end.
Definition uci_match (line : text) : option (text * text) := last_cut [] line.
Definition quote : ascii := Ascii.ascii_of_nat 39.

Fixpoint uci_lines {St : Type} (ls : list text) (retval : Entries) : M St KernelInterfaceError Entries :=
  match ls with
  | [] => ret retval
  | line :: ls =>
      match uci_match line with
      | None => throw (runtime_error (lit "uci_show: Could not match regex on line ") line)
      | Some (k, v) => uci_lines ls (<[k := trim_by (Ascii.eqb quote) v]> retval)
      end
  end.

Section uci.
Context `{SH : Shell}.

Definition run_uci (command : text) (args : list text) : KI unit :=
  let! output := ki_run command args in
  if bool_decide (out_stderr output <> [])
  then throw (runtime_error (lit "received error while setting UCI: ") (out_stderr output)) else ret tt.
Definition set_uci_var (key value : text) : KI unit := run_uci (lit "uci") [lit "set"; key ++ lit "=" ++ value].
Definition add_uci_var (key value : text) : KI unit := run_uci (lit "uci") [lit "add"; key; value].
Definition del_uci_var (key : text) : KI unit := run_uci (lit "uci") [lit "delete"; key].
Fixpoint add_list (key : text) (value : list text) : KI unit :=
  match value with
  | [] => ret tt
  | v :: value => let! _ := run_uci (lit "uci") [lit "add_list"; key ++ lit "=" ++ v] in add_list key value
  end.
Definition set_uci_list (key : text) (value : list text) : KI unit :=
  let! _ := ignore_err (del_uci_var key) in add_list key value.
Definition get_uci_var (key : text) : KI text :=
  let! output := ki_run (lit "uci") [lit "get"; key] in
  if bool_decide (out_stderr output <> [])
  then throw (runtime_error (lit "received error while getting UCI: ") (out_stderr output))
  else ret (trim_text (out_stdout output)).
(** A command that has to exit with success. *)
Definition run_successfully (message : text) (command : text) (args : list text) : KI unit :=
  let! output := ki_run command args in
  if negb (out_success output) then throw (runtime_error message (out_stderr output)) else ret tt.
Definition uci_commit (subsection : text) : KI unit :=
  run_successfully (lit "received error while commiting UCI: ") (lit "uci") [lit "commit"; subsection].
Definition uci_revert (section : text) : KI unit :=
  run_successfully (lit "received error while reverting UCI: ") (lit "uci") [lit "revert"; section].
Definition refresh_initd (program : text) : KI unit :=
  run_successfully (lit "received error while refreshing " ++ program ++ lit ": ") (lit "/etc/init.d/" ++ program) [lit "reload"].
Definition uci_show (section : option text) : KI Entries :=
  let! output := ki_run (lit "uci") (match section with Some s => [lit "show"; s] | None => [lit "show"] end) in
  if negb (out_success output) then throw (runtime_error (lit "`uci show` experienced a problem: ") (out_stderr output))
  else uci_lines (lines (out_stdout output)) ∅.
Definition openwrt_reset_wireless : KI unit := let! _ := sh "wifi" [] in ret tt.
Definition openwrt_reset_network : KI unit := let! _ := sh "/etc/init.d/network" ["restart"] in ret tt.
Definition openwrt_reset_dnsmasq : KI unit := let! _ := sh "/etc/init.d/dnsmasq" ["restart"] in ret tt.
End uci.

(** * A machine with a configuration

    [config] is what is committed and [staged] what the commands see: the package
    that is being configured.  Any command, counted from the start, may fail, a
    commit, a revert and the restart of a service too: it cannot be started at
    all, or it is refused and says so.  A command that fails changes nothing. *)
Inductive Fault := NotStarted | Refused.
Record uci_machine := { config : Entries; staged : Entries }.

Definition below (section k : text) : bool := text_eqb k section || starts_with (section ++ lit ".") k.
Definition uci_answer (ok : bool) (out err : text) : Output := {| out_success := ok; out_stdout := out; out_stderr := err |}.
Definition show_line (e : text * text) : text := e.1 ++ lit "=" ++ [quote] ++ e.2 ++ [quote].
Definition not_found : text := lit "uci: Entry not found".

(** A variable is set at the first equals sign; an empty value deletes it. *)
Fixpoint cut_first (l : text) : option (text * text) :=
  match l with
  | [] => None
  | c :: l => if Ascii.eqb c "=" then Some ([], l) else '(k, v) ← cut_first l; Some (c :: k, v)
  end.
Definition uci_set (k v : text) (m : Entries) : Entries := if bool_decide (v = []) then delete k m else <[k := v]> m.
Definition uci_delete (section : text) (m : Entries) : Entries := filter (fun e => below section e.1 = false) m.
Definition uci_run (m : uci_machine) (program : text) (args : list text) : uci_machine * Output :=
  if negb (text_eqb program (lit "uci")) then (m, uci_answer true [] []) else
  match args with
  | [op; a] =>
      if text_eqb op (lit "set") then
        match cut_first a with
        | Some (k, v) => ({| config := config m; staged := uci_set k v (staged m) |}, uci_answer true [] [])
        | None => (m, uci_answer false [] (lit "uci: Invalid argument"))
        end
      else if text_eqb op (lit "delete") then
        if bool_decide (filter (fun e => below a e.1 = true) (staged m) = ∅) then (m, uci_answer false [] not_found)
        else ({| config := config m; staged := uci_delete a (staged m) |}, uci_answer true [] [])
      else if text_eqb op (lit "get") then
        match staged m !! a with
        | Some v => (m, uci_answer true (v ++ [newline]) [])
        | None => (m, uci_answer false [] not_found)
        end
      else if text_eqb op (lit "show") then
        (m, uci_answer true (join newline (show_line <$> map_to_list (filter (fun e => below a e.1 = true) (staged m)))) [])
      else if text_eqb op (lit "commit") then ({| config := staged m; staged := staged m |}, uci_answer true [] [])
      else if text_eqb op (lit "revert") then ({| config := config m; staged := config m |}, uci_answer true [] [])
      else (m, uci_answer false [] [])
  | _ => (m, uci_answer false [] [])
  end.
Definition refusal : Output := uci_answer false [] (lit "uci: I/O error").
Definition uci_exec (f : option Fault) (m : uci_machine) (program : text) (args : list text) : uci_machine * option Output :=
  match f with
  | Some NotStarted => (m, None)
  | Some Refused => (m, Some refusal)
  | None => let '(m, o) := uci_run m program args in (m, Some o)
  end.

Section machine.
Context (fault : nat -> option Fault) (m0 : uci_machine).
Definition uci_step (st : nat * uci_machine) (c : Command) : nat * uci_machine :=
  (S st.1, (uci_exec (fault st.1) st.2 c.1 c.2).1).
Definition uci_at (h : list Command) : uci_machine := (foldl uci_step (0%nat, m0) h).2.
Definition uci_shell : Shell := {|
  shell_answer h program args := (uci_exec (fault (length h)) (uci_at h) program args).2 |}.
#[local] Existing Instance uci_shell.

Lemma uci_at_snoc h c : uci_at (h ++ [c]) = (uci_exec (fault (length h)) (uci_at h) c.1 c.2).1.
Proof.
  unfold uci_at. rewrite foldl_app. cbn [foldl]. unfold uci_step at 1. cbn [snd].
  assert (Hl : forall n m, (foldl uci_step (n, m) h).1 = (n + length h)%nat).
  { induction h as [|c' h IH]; intros n m; cbn [foldl length]; [cbn; lia|]. unfold uci_step at 2. cbn [fst snd]. rewrite IH. lia. }
  by rewrite Hl.
Qed.
Lemma ki_run_machine p a h :
  ki_run p a h
  = match (uci_exec (fault (length h)) (uci_at h) p a).2 with
    | Some o => Done (h ++ [(p, a)]) o
    | None => Fail (h ++ [(p, a)]) IoError
    end.
Proof. reflexivity. Qed.
(** A command that fails leaves the configuration alone. *)
Lemma uci_at_fault h c : fault (length h) <> None -> uci_at (h ++ [c]) = uci_at h.
Proof. intros Hf. rewrite uci_at_snoc. by destruct (fault (length h)) as [[|]|]. Qed.
Lemma uci_at_good h c : fault (length h) = None -> uci_at (h ++ [c]) = (uci_run (uci_at h) c.1 c.2).1.
Proof. intros Hf. rewrite uci_at_snoc, Hf. cbn [uci_exec]. by destruct (uci_run _ _ _). Qed.
Lemma ki_run_good p a h :
  fault (length h) = None -> ki_run p a h = Done (h ++ [(p, a)]) (uci_run (uci_at h) p a).2.
Proof. intros Hf. rewrite ki_run_machine, Hf. cbn [uci_exec]. by destruct (uci_run _ _ _). Qed.

(** ** The commands one by one *)

Lemma run_show m a :
  uci_run m (lit "uci") [lit "show"; a]
  = (m, uci_answer true (join newline (show_line <$> map_to_list (filter (fun e => below a e.1 = true) (staged m)))) []).
Proof. reflexivity. Qed.
Lemma run_get m a :
  uci_run m (lit "uci") [lit "get"; a]
  = match staged m !! a with Some v => (m, uci_answer true (v ++ [newline]) []) | None => (m, uci_answer false [] not_found) end.
Proof. reflexivity. Qed.
Lemma run_commit m a : uci_run m (lit "uci") [lit "commit"; a] = ({| config := staged m; staged := staged m |}, uci_answer true [] []).
Proof. reflexivity. Qed.
Lemma run_revert m a : uci_run m (lit "uci") [lit "revert"; a] = ({| config := config m; staged := config m |}, uci_answer true [] []).
Proof. reflexivity. Qed.
Lemma cut_first_at k v : "="%char ∉ k -> cut_first (k ++ lit "=" ++ v) = Some (k, v).
Proof.
  induction k as [|c k IH]; intros Hk; [done|]. apply not_elem_of_cons in Hk as [Hc Hk].
  cbn [app cut_first]. rewrite (proj2 (Ascii.eqb_neq c "=")) by done. by rewrite IH.
Qed.
Lemma run_set m k v :
  "="%char ∉ k ->
  uci_run m (lit "uci") [lit "set"; k ++ lit "=" ++ v]
  = ({| config := config m; staged := uci_set k v (staged m) |}, uci_answer true [] []).
Proof.
  intros Hk. pose proof (cut_first_at k v Hk) as Hc.
  change (uci_run m (lit "uci") [lit "set"; k ++ lit "=" ++ v]) with
    (match cut_first (k ++ lit "=" ++ v) with
     | Some (k, v) => ({| config := config m; staged := uci_set k v (staged m) |}, uci_answer true [] [])
     | None => (m, uci_answer false [] (lit "uci: Invalid argument"))
     end). by rewrite Hc.
Qed.
Lemma run_delete m a :
  uci_run m (lit "uci") [lit "delete"; a]
  = if bool_decide (filter (fun e => below a e.1 = true) (staged m) = ∅) then (m, uci_answer false [] not_found)
    else ({| config := config m; staged := uci_delete a (staged m) |}, uci_answer true [] []).
Proof. reflexivity. Qed.

(** ** Reading what is printed *)

(** Keys and values that can be printed and read again. *)
Definition readable (t : text) : Prop :=
  t <> [] /\ Forall (fun c => c <> "="%char /\ c <> newline /\ c <> cr /\ c <> quote) t.
Definition store_ok (m : Entries) : Prop := map_Forall (fun k v => readable k /\ readable v) m.

Lemma readable_plain t c : readable t -> c = "="%char \/ c = newline \/ c = cr \/ c = quote -> c ∉ t.
Proof. intros [_ Ht] Hc Hin. rewrite Forall_forall in Ht. destruct (Ht c Hin) as (? & ? & ? & ?). by destruct Hc as [|[|[|]]]. Qed.

Lemma last_cut_none b l : "="%char ∉ l -> last_cut b l = None.
Proof.
  revert b. induction l as [|c l IH]; intros b Hl; [done|]. apply not_elem_of_cons in Hl as [Hc Hl].
  cbn [last_cut]. rewrite IH by done. by rewrite (proj2 (Ascii.eqb_neq c "=")) by done.
Qed.
Lemma last_cut_at b k v : "="%char ∉ v -> v <> [] -> b ++ k <> [] -> last_cut b (k ++ "="%char :: v) = Some (b ++ k, v).
Proof.
  intros Hv Hne. revert b. induction k as [|c k IH]; intros b Hb.
  - cbn [app last_cut]. rewrite last_cut_none by done. rewrite app_nil_r in *.
    by rewrite !bool_decide_eq_true_2 by done.
  - cbn [app last_cut]. rewrite IH by (rewrite <- app_assoc; by destruct b). by rewrite <- app_assoc.
Qed.
Lemma drop_while_none f l : Forall (fun c => f c = false) l -> drop_while f l = l.
Proof. destruct 1 as [|c l Hc _]; [done|]. cbn. by rewrite Hc. Qed.
Lemma trim_quotes v : readable v -> trim_by (Ascii.eqb quote) ([quote] ++ v ++ [quote]) = v.
Proof.
  intros Hv. assert (Hf : Forall (fun c => Ascii.eqb quote c = false) v).
  { destruct Hv as [_ Hv]. eapply Forall_impl; [exact Hv|]. intros c (_ & _ & _ & Hc). by apply Ascii.eqb_neq. }
  unfold trim_by. cbn [app drop_while]. rewrite Ascii.eqb_refl.
  assert (H1 : drop_while (Ascii.eqb quote) (v ++ [quote]) = v ++ [quote]).
  { destruct Hv as [Hne _]. destruct v as [|c v]; [done|]. apply Forall_cons in Hf as [Hc _]. cbn. by rewrite Hc. }
  rewrite H1, rev_app_distr. cbn [rev app drop_while]. rewrite Ascii.eqb_refl.
  rewrite drop_while_none, rev_involutive; [done|]. by apply Forall_rev.
Qed.
Lemma show_line_match k v : readable k -> readable v -> uci_match (show_line (k, v)) = Some (k, [quote] ++ v ++ [quote]).
Proof.
  intros Hk Hv. unfold uci_match, show_line. cbn [fst snd]. change (lit "=" ++ ?x) with ("="%char :: x).
  apply (last_cut_at [] k).
  - rewrite !not_elem_of_app, list_elem_of_singleton. split_and!; [done|apply readable_plain; auto|done].
  - done.
  - by destruct Hk.
Qed.
Lemma show_line_plain k v : readable k -> readable v -> show_line (k, v) <> [] /\ (newline ∉ show_line (k, v)) /\ cr ∉ show_line (k, v).
Proof.
  intros Hk Hv. split; [by destruct k|]. unfold show_line. cbn [fst snd]. change (lit "=") with ["="%char].
  rewrite !not_elem_of_app, !list_elem_of_singleton. split_and!; try done; apply readable_plain; auto.
Qed.
Lemma uci_lines_shown {St} l acc (s : St) :
  Forall (fun e => readable e.1 /\ readable e.2) l ->
  uci_lines (show_line <$> l) acc s = Done s (foldl (fun m e => <[e.1 := e.2]> m) acc l).
Proof.
  intros Hl. revert acc. induction Hl as [|[k v] l [Hk Hv] _ IH]; intros acc; [done|]. cbn [fmap list_fmap uci_lines foldl].
  rewrite show_line_match by done. cbn [fst snd] in *. by rewrite trim_quotes, IH.
Qed.
Lemma foldl_insert_list (l : list (text * text)) (acc : Entries) :
  NoDup l.*1 -> foldl (fun m e => <[e.1 := e.2]> m) acc l = list_to_map l ∪ acc.
Proof.
  revert acc. induction l as [|[k v] l IH]; intros acc; cbn [fmap list_fmap foldl list_to_map foldr].
  - intros _. by rewrite (left_id_L ∅ (∪)).
  - intros [Hk Hl]%NoDup_cons. rewrite IH by done. cbn [fst snd].
    rewrite <- insert_union_r by (by apply not_elem_of_list_to_map_1). by rewrite insert_union_l.
Qed.

(** [uci show] of a section gives exactly its entries. *)
Lemma uci_show_exact section h :
  fault (length h) = None -> store_ok (staged (uci_at h)) ->
  uci_show (Some section) h
  = Done (h ++ [(lit "uci", [lit "show"; section])]) (filter (fun e => below section e.1 = true) (staged (uci_at h))).
Proof.
  intros Hf Hok. unfold uci_show, bind. rewrite ki_run_good, run_show by done. cbn [snd uci_answer out_success out_stdout negb].
  set (sub := filter _ _).
  assert (Hs : Forall (fun e => readable e.1 /\ readable e.2) (map_to_list sub)).
  { apply Forall_forall. intros [k v] [Hin _]%elem_of_map_to_list%map_lookup_filter_Some. by apply (Hok k v). }
  rewrite lines_join.
  2: { apply Forall_fmap. eapply Forall_impl; [exact Hs|]. intros [k v] [Hk Hv]. by apply show_line_plain. }
  rewrite uci_lines_shown by done. f_equal. rewrite foldl_insert_list by apply NoDup_fst_map_to_list.
  by rewrite list_to_map_to_list, (right_id_L ∅ (∪)).
Qed.
End machine.
End Uci.
