(* ===== verification/KernelLinks.v ===== *)
(** Network links (althea_kernel_interface/src): regular expressions as the regex
    crate runs them; interface_tools.rs, get_neighbors.rs, link_local_tools.rs,
    ip_addr.rs, udp_socket_table.rs and open_tunnel.rs, with the
    files under /proc and /sys they read. *)
From S2P Require Import Prelude Types Text IpText Babel TrafficWatcher KernelShell KernelCounters IpRoute.
From S2P Require Import TrafficControl Uci.
Import KernelShell KernelCounters Uci.

(** * Regular expressions

    Leftmost-first matching with backtracking; [Group] keeps what it matched.
    The continuation gets the groups, the text matched so far and the rest. *)
Inductive regex :=
| Cls (p : ascii -> bool)
| Star (p : ascii -> bool)
| LazyStar (p : ascii -> bool)
| Seq (a b : regex)
| Alt (a b : regex)
| Rep (lo hi : nat) (r : regex)
| Group (r : regex)
| Empty.

Module Regex.
Section match_.
Context {R : Type}.
Definition cont : Type := list text -> text -> text -> option R.
Definition or_else (a : option R) (b : option R) : option R := match a with Some r => Some r | None => b end.
Fixpoint star (p : ascii -> bool) (k : cont) (caps : list text) (acc l : text) : option R :=
  match l with
  | c :: l' => if p c then match star p k caps (acc ++ [c]) l' with Some r => Some r | None => k caps acc l end else k caps acc l
  | [] => k caps acc l
  end.
Fixpoint lazy_star (p : ascii -> bool) (k : cont) (caps : list text) (acc l : text) : option R :=
  match k caps acc l with
  | Some r => Some r
  | None => match l with c :: l' => if p c then lazy_star p k caps (acc ++ [c]) l' else None | [] => None end
  end.
Fixpoint run (r : regex) (k : cont) (caps : list text) (acc l : text) {struct r} : option R :=
  match r with
  | Empty => k caps acc l
  | Cls p => match l with c :: l => if p c then k caps (acc ++ [c]) l else None | [] => None end
  | Star p => star p k caps acc l
  | LazyStar p => lazy_star p k caps acc l
  | Seq a b => run a (run b k) caps acc l
  | Alt a b => match run a k caps acc l with Some r => Some r | None => run b k caps acc l end
  | Rep lo hi a =>
      (fix rep (hi lo : nat) (caps : list text) (acc l : text) : option R :=
         match hi with
         | O => k caps acc l
         | S hi =>
             match run a (rep hi (pred lo)) caps acc l with
             | Some r => Some r
             | None => match lo with O => k caps acc l | S _ => None end
             end
         end) hi lo caps acc l
  | Group a => run a (fun caps got l => k (caps ++ [got]) (acc ++ got) l) caps [] l
  end.
End match_.

(** A match at the start of a text: the groups, what matched, the rest. *)
Definition match_here (r : regex) (l : text) : option (list text * text * text) :=
  run r (fun caps got rest => Some (caps, got, rest)) [] [] l.
(** [Regex::captures]: the first place with a match. *)
Fixpoint captures (r : regex) (l : text) : option (list text * text * text) :=
  match match_here r l with
  | Some m => Some m
  | None => match l with [] => None | _ :: l => captures r l end
  end.
(** [Regex::captures_iter]; the fuel is the length of the text, and none of the
    expressions here matches the empty text. *)
Fixpoint captures_iter (fuel : nat) (r : regex) (l : text) : list (list text) :=
  match fuel with
  | O => []
  | S fuel => match captures r l with Some (caps, _, rest) => caps :: captures_iter fuel r rest | None => [] end
  end.

Definition chr (c : ascii) : regex := Cls (Ascii.eqb c).
Fixpoint str (s : text) : regex := match s with [] => Empty | c :: s => Seq (chr c) (str s) end.
Fixpoint seqs (rs : list regex) : regex := match rs with [] => Empty | r :: rs => Seq r (seqs rs) end.
Fixpoint alts (r : regex) (rs : list regex) : regex := match rs with [] => r | r' :: rs => Alt r (alts r' rs) end.
Definition dot (c : ascii) : bool := negb (Ascii.eqb c newline).
Definition non_space (c : ascii) : bool := negb (is_whitespace c).
Definition dec (c : ascii) : bool := match digit 10 c with Some _ => true | None => false end.
Definition hex (c : ascii) : bool := match digit 16 c with Some _ => true | None => false end.
Definition plus (p : ascii -> bool) : regex := Seq (Cls p) (Star p).

(** A greedy repetition takes the longest run when the rest of the expression
    matches behind it. *)
Definition stopped (p : ascii -> bool) (rest : text) : Prop := match rest with [] => True | c :: _ => p c = false end.
Lemma star_run {R} p (k : cont (R := R)) caps acc w rest r :
  Forall (fun c => p c = true) w -> stopped p rest -> k caps (acc ++ w) rest = Some r -> star p k caps acc (w ++ rest) = Some r.
Proof.
  intros Hw Hs. revert acc. induction Hw as [|c w Hc _ IH]; intros acc Hk; cbn [app].
  - rewrite app_nil_r in Hk. destruct rest as [|c rest]; cbn [star]; [done|]. cbn in Hs. by rewrite Hs.
  - cbn [star]. rewrite Hc, IH; [done|]. by rewrite <- app_assoc.
Qed.
Lemma plus_run {R} p (k : cont (R := R)) caps acc w rest r :
  w <> [] -> Forall (fun c => p c = true) w -> stopped p rest -> k caps (acc ++ w) rest = Some r ->
  run (plus p) k caps acc (w ++ rest) = Some r.
Proof.
  intros Hne Hw Hs Hk. destruct w as [|c w]; [done|]. apply Forall_cons in Hw as [Hc Hw]. cbn [plus run app]. rewrite Hc.
  apply star_run; [done..|]. by rewrite <- app_assoc.
Qed.
End Regex.

(** * The links of the machine *)

(** Files and the directory of links, after the commands run so far. *)
Class Files := {
  file_lines : list Command -> text -> option (list text);
  link_names : list Command -> option (list text);
}.

Record InterfaceUsageStats := {
  interface_name : text;
  recieve_bytes : Z; transmit_bytes : Z;
  recieve_packets : Z; transmit_packets : Z;
  recieve_errors : Z; transmit_errors : Z;
  recieve_dropped : Z;
  recieve_fifo_errors : Z; transmit_fifo_errors : Z;
  recieve_frame_errors : Z;
  recieve_multicast_erorrs : Z;
  transmit_collission_erorrs : Z;
  tranmist_carrier_errors : Z;
}.

(** [SocketAddr], without flow and scope. *)
Record SocketAddr := { sock_ip : IpAddr; sock_port : Z }.

Module KernelLinks.
Import Regex.
Abbreviation KI A := (M (list Command) KernelInterfaceError A).

(** [str::parse::<Ipv4Addr>] and [str::parse::<Ipv6Addr>]. *)
Definition parse_v4 (l : text) : option Z := match read_ipv4_addr l with Some (a, []) => Some a | _ => None end.
Definition parse_v6 (l : text) : option Z := match read_ipv6_addr l with Some (a, []) => Some a | _ => None end.

Section links.
Context `{SH : Shell} `{FI : Files}.

Definition read_lines (filename : text) : KI (list text) := fun h =>
  match file_lines h filename with Some ls => Done h ls | None => Fail h IoError end.

(** A command that fails when it writes an error. *)
Definition run_silent (message : text) (program : text) (args : list text) : KI unit :=
  let! output := ki_run program args in
  if bool_decide (out_stderr output <> []) then throw (runtime_error message (out_stderr output)) else ret tt.

(** ** interface_tools.rs *)

Definition get_helper {S} (input : option text) : M S KernelInterfaceError text :=
  ok_or input (ParseError (lit "Missing field in /proc/net/dev!")).
Definition usage_field {S} (parts : list text) (i : nat) : M S KernelInterfaceError Z :=
  let! v := get_helper (parts !! i) in ok_or (parse_uint 10 U64_MAX v) ParseIntFailure.
Definition trim_end_matches (c : ascii) (l : text) : text := rev (drop_while (Ascii.eqb c) (rev l)).
Definition usage_line (line : text) : KI InterfaceUsageStats :=
  let parts := words line in
  let! name := get_helper (parts !! 0%nat) in
  let! f1 := usage_field parts 1 in
  let! f2 := usage_field parts 2 in
  let! f3 := usage_field parts 3 in
  let! f4 := usage_field parts 4 in
  let! f5 := usage_field parts 5 in
  let! f6 := usage_field parts 6 in
  let! f8 := usage_field parts 8 in
  let! f9 := usage_field parts 9 in
  let! f10 := usage_field parts 10 in
  let! f11 := usage_field parts 11 in
  let! f12 := usage_field parts 12 in
  let! f13 := usage_field parts 13 in
  let! f14 := usage_field parts 14 in
  ret {| interface_name := trim_end_matches ":" name;
         recieve_bytes := f1; recieve_packets := f2; recieve_errors := f3; recieve_dropped := f4;
         recieve_fifo_errors := f5; recieve_frame_errors := f6; recieve_multicast_erorrs := f8;
         transmit_bytes := f9; transmit_packets := f10; transmit_errors := f11;
         transmit_fifo_errors := f12; transmit_collission_erorrs := f13; tranmist_carrier_errors := f14 |}.
Fixpoint usage_lines (ls : list text) (acc : list InterfaceUsageStats) : KI (list InterfaceUsageStats) :=
  match ls with
  | [] => ret acc
  | line :: ls => let! u := usage_line line in usage_lines ls (acc ++ [u])
  end.
Definition get_per_interface_usage : KI (list InterfaceUsageStats) :=
  let! ls := read_lines (lit "/proc/net/dev") in usage_lines (drop 2 ls) [].

Definition link_interfaces : KI (list text) := fun h =>
  match link_names h with Some vec => Done h vec | None => Fail h IoError end.

(** The number in the first line of a file of the link. *)
Definition link_number (if_name : text) (file : string) : KI Z :=
  let! ls := read_lines (lit "/sys/class/net/" ++ if_name ++ lit file) in
  match ls with
  | v :: _ => ok_or (parse_uint 10 U64_MAX v) ParseIntFailure
  | [] => throw (NoInterfaceError if_name)
  end.
Definition get_mtu (if_name : text) : KI Z := link_number if_name "/mtu".
Definition get_ifindex (if_name : text) : KI Z := link_number if_name "/ifindex".
Definition get_iflink (if_name : text) : KI Z := link_number if_name "/iflink".

Fixpoint find_ifindex (interfaces : list text) (ifindex : Z) : KI text :=
  match interfaces with
  | [] => throw (NoInterfaceError (show_uint ifindex))
  | interface :: interfaces =>
      let! found_ifindex := get_ifindex interface in
      if ifindex =? found_ifindex then ret interface else find_ifindex interfaces ifindex
  end.
Definition ifindex_to_interface_name (ifindex : Z) : KI text :=
  let! interfaces := link_interfaces in find_ifindex interfaces ifindex.

Definition del_interface (name : text) : KI unit :=
  let! _ := ki_run (lit "ip") [lit "link"; lit "del"; lit "dev"; name] in ret tt.
Definition trim_end (l : text) : text := rev (drop_while is_whitespace (rev l)).
Definition iface_status (iface : text) : KI text :=
  let! output := ki_run (lit "cat") [lit "/sys/class/net/" ++ iface ++ lit "/operstate"] in
  ret (trim_end (out_stdout output)).
Definition set_if_up_down (if_name up_down : text) : KI unit :=
  run_silent (lit "received error setting wg interface up: ") (lit "ip") [lit "link"; lit "set"; lit "dev"; if_name; up_down].

(** The parent of a link of a switch gets room for the header; the fuel bounds the
    number of parents. *)
Definition DSA_VLAN_HEADER_SIZE : Z := 8.
Definition run_mtu (if_name : text) (mtu : Z) : KI unit :=
  run_silent (lit "received error setting interface mtu: ") (lit "ip")
    [lit "link"; lit "set"; lit "dev"; if_name; lit "mtu"; show_uint mtu].
Fixpoint set_mtu (fuel : nat) (if_name : text) (mtu : Z) : KI (option unit) :=
  match fuel with
  | O => ret None
  | S fuel =>
      let! ifindex := get_ifindex if_name in
      let! iflink := get_iflink if_name in
      let! parent :=
        (if negb (ifindex =? iflink) then
           let! parent_if_name := ifindex_to_interface_name iflink in
           set_mtu fuel parent_if_name (mtu + DSA_VLAN_HEADER_SIZE)
         else ret (Some tt)) in
      match parent with
      | Some _ => let! _ := run_mtu if_name mtu in ret (Some tt)
      | None => ret None
      end
  end.

Definition wg_remote_re : regex :=
  Alt (Seq (Group (plus (fun c => dec c || existsb (Ascii.eqb c) (lit "abcdef:")))) (chr "%"))
      (Seq (Group (plus (fun c => dec c || Ascii.eqb c "."))) (chr ":")).
Definition get_wg_remote_ip (name : text) : KI IpAddr :=
  let! output := ki_run (lit "wg") [lit "show"; name; lit "endpoints"] in
  match captures wg_remote_re (out_stdout output) with
  | Some (ip_str :: _, _, _) => ok_or (parse_ip ip_str) AddrParseFailure
  | _ => throw (runtime_error (lit "Cannot parse endpoints ") (out_stdout output))
  end.

(** Of the groups only the whole match holds a slash. *)
Definition v4_net_re : regex :=
  seqs [Rep 3 3 (Seq (Rep 1 3 (Cls dec)) (chr ".")); Rep 1 3 (Cls dec); chr "/"; Rep 1 3 (Cls dec)].
Definition hex14 : regex := Rep 1 4 (Cls hex).
Definition hexc : regex := Seq hex14 (chr ":").
Definition chex : regex := Seq (chr ":") hex14.
Definition octet_re : regex :=
  Alt (Seq (str (lit "25")) (Cls (fun c => existsb (Ascii.eqb c) (lit "012345"))))
      (Seq (Rep 0 1 (Alt (Seq (chr "2") (Cls (fun c => existsb (Ascii.eqb c) (lit "01234")))) (Seq (Rep 0 1 (chr "1")) (Cls dec))))
           (Cls dec)).
Definition quad_re : regex := Seq (Rep 3 3 (Seq octet_re (chr "."))) octet_re.
Definition v6_re : regex :=
  alts (Seq (Rep 7 7 hexc) hex14)
    [Seq (Rep 1 7 hexc) (chr ":");
     seqs [Rep 1 6 hexc; chr ":"; hex14];
     Seq (Rep 1 5 hexc) (Rep 1 2 chex);
     Seq (Rep 1 4 hexc) (Rep 1 3 chex);
     Seq (Rep 1 3 hexc) (Rep 1 4 chex);
     Seq (Rep 1 2 hexc) (Rep 1 5 chex);
     seqs [hex14; chr ":"; Rep 1 6 chex];
     Seq (chr ":") (Alt (Rep 1 7 chex) (chr ":"));
     seqs [str (lit "fe80:"); Rep 0 4 (Seq (chr ":") (Rep 0 4 (Cls hex))); chr "%";
           plus (fun c => match digit 36 c with Some _ => true | None => false end)];
     seqs [str (lit "::"); Rep 0 1 (seqs [str (lit "ffff"); Rep 0 1 (Seq (chr ":") (Rep 1 4 (chr "0"))); chr ":"]); quad_re];
     seqs [Rep 1 4 hexc; chr ":"; quad_re]].
Definition v6_net_re : regex := seqs [v6_re; chr "/"; Rep 1 3 (Cls dec)].

Definition net_of_line (r : regex) (parse : text -> option Z) (line : text) : option (Z * Z) :=
  '(_, m, _) ← captures r line;
  match split_on "/" m with
  | ip_str :: netmask :: _ => ip ← parse ip_str; n ← parse_uint 10 U8_MAX netmask; Some (ip, n)
  | _ => None
  end.
Definition nets_from_iface (r : regex) (parse : text -> option Z) (name : text) : KI (list (Z * Z)) :=
  let! output := ki_run (lit "ip") [lit "address"; lit "show"; lit "dev"; name] in
  ret (omap (net_of_line r parse) (lines (out_stdout output))).
Definition get_ip_from_iface : text -> KI (list (Z * Z)) := nets_from_iface v4_net_re parse_v4.
Definition get_ipv6_from_iface : text -> KI (list (Z * Z)) := nets_from_iface v6_net_re parse_v6.

(** ** get_neighbors.rs *)

Definition neighbor_re : regex :=
  seqs [Group (Star non_space); Star dot; str (lit "dev "); Group (Star non_space); Star dot; str (lit "lladdr ");
        Group (Star non_space); Star dot; Group (alts (str (lit "REACHABLE")) [str (lit "STALE"); str (lit "DELAY")])].
Fixpoint neighbors_of (caps : list (list text)) (vec : list (IpAddr * text)) : KI (list (IpAddr * text)) :=
  match caps with
  | [] => ret vec
  | cap :: caps =>
      let! ip := ok_or (parse_ip (default [] (cap !! 0%nat))) AddrParseFailure in
      neighbors_of caps (vec ++ [(ip, default [] (cap !! 1%nat))])
  end.
Definition get_neighbors : KI (list (IpAddr * text)) :=
  let! output := sh "ip" ["neigh"] in
  neighbors_of (captures_iter (length (out_stdout output)) neighbor_re (out_stdout output)) [].
Fixpoint trigger_neighbor_disc (interfaces : list text) : KI unit :=
  match interfaces with
  | [] => ret tt
  | interface :: interfaces =>
      let! _ := ki_run (lit "ping6") [lit "-c1"; lit "-I"; interface; lit "ff02::1"] in trigger_neighbor_disc interfaces
  end.

(** ** link_local_tools.rs *)

Fixpoint with_colons (i : nat) (l : text) : text :=
  match l with
  | [] => []
  | c :: l => (if negb (i =? 0)%nat && (i mod 4 =? 0)%nat then [":"%char; c] else [c]) ++ with_colons (S i) l
  end.
Definition parse_if_inet6_addr (line : text) (is_local : bool) : KernelInterfaceError + Z :=
  if Bool.eqb is_local (starts_with (lit "fe80") line) then
    let addr_str := with_colons 0 (take 32 line) in
    match parse_v6 addr_str with Some a => inr a | None => inl (ParseError addr_str) end
  else inl (RuntimeError "Cannot find request ip on interface").
Fixpoint get_link_local_device_ip_internal (ls : list text) (dev : text) (is_local : bool) : KernelInterfaceError + Z :=
  match ls with
  | [] => inl AddressNotReadyError
  | line :: ls =>
      if bool_decide (last (words line) = Some dev) then
        match parse_if_inet6_addr line is_local with
        | inr a => inr a
        | inl _ => get_link_local_device_ip_internal ls dev is_local
        end
      else get_link_local_device_ip_internal ls dev is_local
  end.
Definition device_ip (is_local : bool) (dev : text) : KI Z :=
  let! ls := read_lines (lit "/proc/net/if_inet6") in
  match get_link_local_device_ip_internal ls dev is_local with inr a => ret a | inl e => throw e end.
Definition get_link_local_device_ip : text -> KI Z := device_ip true.
Definition get_global_device_ip : text -> KI Z := device_ip false.

Definition global_v4_re : regex :=
  seqs [str (lit "inet "); Group (LazyStar non_space); Rep 0 1 (Seq (chr "/") (plus dec)); str (lit " scope global")].
Definition get_global_device_ip_v4 (dev : text) : KI Z :=
  let! output := ki_run (lit "ip") [lit "addr"; lit "show"; lit "dev"; dev; lit "scope"; lit "global"] in
  match captures global_v4_re (out_stdout output) with
  | Some (cap :: _, _, _) => ok_or (parse_v4 cap) AddrParseFailure
  | _ => throw (RuntimeError "No global found or no interface found")
  end.
Definition neighbor_device (their_ip : IpAddr) (neigh : list (IpAddr * text)) : option text :=
  snd <$> List.find (fun n => bool_decide (n.1 = their_ip)) neigh.
Definition get_device_name (their_ip : IpAddr) : KI text :=
  let! neigh := get_neighbors in
  ok_or (neighbor_device their_ip neigh) (RuntimeError "Address not found in neighbors").
Definition get_reply_ip (their_ip : Z) (external_interface : option text) : KI Z :=
  let! neigh := get_neighbors in
  match neighbor_device (V6 their_ip) neigh with
  | Some dev => get_link_local_device_ip dev
  | None =>
      match external_interface with
      | Some external_interface => get_global_device_ip external_interface
      | None => throw (RuntimeError "Address not found in neighbors")
      end
  end.

(** ** ip_addr.rs *)

Definition is_iface_up (dev : text) : KI (option bool) := fun h =>
  Done h (match file_lines h (lit "/sys/class/net/" ++ dev ++ lit "/operstate") with
          | Some (is_up :: _) => Some (contains (lit "up") is_up)
          | _ => None
          end).
(** Panics when the command cannot be run. *)
Definition run_unwrap (program : text) (args : list text) : KI Output := fun h =>
  match ki_run program args h with Done h o => Done h o | _ => Panic end.
Definition add_ipv4_mask (ip mask : Z) (dev : text) : KI bool :=
  let! output := run_unwrap (lit "ip") [lit "addr"; lit "add"; show_v4 ip ++ lit "/" ++ show_uint mask; lit "dev"; dev] in
  match lines (out_stderr output) with
  | line :: _ => if contains (lit "File exists") line then ret false else throw (runtime_error (lit "Error setting ip ") line)
  | [] => ret true
  end.
Definition add_ipv4 (ip : Z) (dev : text) : KI bool := add_ipv4_mask ip 32 dev.

Definition network_text (n : Z * Z) : text := show_v6 n.1 ++ lit "/" ++ show_uint n.2.
(** Removing the addresses of an interface until the wanted one is found; the
    result says whether it was.  [wanted] fails for an address that is no network. *)
Fixpoint remove_until (wanted : Z * Z -> option bool) (named : Z * Z -> text) (dev : text) (addrs : list (Z * Z)) : KI bool :=
  match addrs with
  | [] => ret false
  | n :: addrs =>
      let! w := unwrap (wanted n) in
      if w : bool then ret true
      else
        let! _ := (if negb (is_link_local (V6 n.1))
                   then ignore_err (ki_run (lit "ip") [lit "addr"; lit "del"; named n; lit "dev"; dev]) else ret tt) in
        remove_until wanted named dev addrs
  end.
(** The addresses of an interface, or nothing when they cannot be read. *)
Definition addrs_of (dev : text) : KI (option (list (Z * Z))) := fun h =>
  match get_ipv6_from_iface dev h with
  | Done h a => Done h (Some a) | Fail h _ => Done h None | Panic => Panic
  end.
(** [IpNetwork::new] fails for a mask longer than the address. *)
Definition valid_net (n : Z * Z) : bool := n.2 <=? 128.
Definition setup_ipv6_slaac (router_ipv6_str : Z * Z) : KI unit :=
  let! v6_addrs := addrs_of (lit "br-lan") in
  match v6_addrs with
  | None => ret tt
  | Some v6_addrs =>
      let! _ := remove_until (fun n => if valid_net n then Some (bool_decide (n = router_ipv6_str)) else None)
                  network_text (lit "br-lan") v6_addrs in
      ignore_err (ki_run (lit "ip") [lit "addr"; lit "add"; network_text router_ipv6_str; lit "dev"; lit "br-lan"]);!
      let! v6_addrs := addrs_of (lit "wg_exit") in
      match v6_addrs with
      | None => ret tt
      | Some v6_addrs =>
          let! found := remove_until (fun n => Some (n.1 =? router_ipv6_str.1)) (fun n => show_v6 n.1) (lit "wg_exit") v6_addrs in
          if found : bool then ret tt
          else ignore_err (ki_run (lit "ip") [lit "addr"; lit "add"; show_v6 router_ipv6_str.1; lit "dev"; lit "wg_exit"])
      end
  end.

(** ** udp_socket_table.rs *)

Definition parse_local_port (s : text) : option Z :=
  local_addr ← words s !! 1%nat;
  port ← split_on ":" local_addr !! 1%nat;
  parse_uint 16 U16_MAX port.
Fixpoint take_lines (ls : list text) : list text :=
  match ls with [] => [] | line :: ls => match line with [] => [] | _ => line :: take_lines ls end end.
Definition used_ports (udp_sockets_table : text) : gset Z :=
  list_to_set (omap parse_local_port (take_lines (drop 1 (split_on newline udp_sockets_table)))).

(** ** open_tunnel.rs *)

Definition to_wg_local (ip : IpAddr) : option IpAddr :=
  match ip with
  | V6 a => if Z.land (Z.shiftr a 112) 64768 =? 64768 then Some (V6 (Z.lor (Z.shiftl 65152 112) (a mod 2 ^ 64))) else None
  | V4 _ => None
  end.
Definition socket_to_string (endpoint : SocketAddr) (interface_name : option text) : KernelInterfaceError + text :=
  let port := lit ":" ++ show_uint (sock_port endpoint) in
  match sock_ip endpoint with
  | V6 a =>
      if is_link_local (V6 a) then
        match interface_name with
        | Some interface_name => inr (lit "[" ++ show_v6 a ++ lit "%" ++ interface_name ++ lit "]" ++ port)
        | None => inl (NoInterfaceError (lit "Endpoint is ipv6 link local and should have an interaface name"))
        end
      else inr (lit "[" ++ show_v6 a ++ lit "]" ++ port)
  | V4 a => inr (show_v4 a ++ port)
  end.

Record KernelTunnelArgs := {
  to_interface : text;
  to_port : Z;
  to_endpoint : SocketAddr;
  to_remote_pub_key : text;
  to_private_key_path : text;
  to_own_ip : IpAddr;
  to_own_ip_v2 : option IpAddr;
  to_external_nic : option text;
}.
(** The key is given as text; the default route kept in the settings is the state
    besides the history. *)
Definition kernel_open_tunnel (args : KernelTunnelArgs) : IpRoute.RM unit :=
  let ip_add a := let! _ := ki_run (lit "ip") [lit "address"; lit "add"; a; lit "dev"; to_interface args] in ret tt in
  let! (phy_name, external_peer) :=
    (if is_link_local (sock_ip (to_endpoint args)) then
       let! dev := IpRoute.kernel (get_device_name (sock_ip (to_endpoint args))) in ret (dev, false)
     else match to_external_nic args with
          | Some external_nic => ret (external_nic, true)
          | None => throw (NoInterfaceError (lit "Endpoint is not link local and should have an interaface name"))
          end) in
  let! socket_connect_str :=
    (match socket_to_string (to_endpoint args) (Some phy_name) with inr s => ret s | inl e => throw e end) in
  IpRoute.kernel (run_silent (lit "received error from wg command: ") (lit "wg")
    [lit "set"; to_interface args; lit "listen-port"; show_uint (to_port args); lit "private-key"; to_private_key_path args;
     lit "peer"; to_remote_pub_key args; lit "endpoint"; socket_connect_str; lit "allowed-ips"; lit "::/0";
     lit "persistent-keepalive"; lit "5"]);!
  IpRoute.kernel (ip_add (show_ip (to_own_ip args)));!
  (match to_own_ip_v2 args with Some ip => IpRoute.kernel (ip_add (show_ip ip)) | None => ret tt end);!
  let! local := unwrap (to_wg_local (to_own_ip args)) in
  IpRoute.kernel (ip_add (show_ip local ++ lit "/64"));!
  (if external_peer : bool then let! _ := IpRoute.manual_peers_route (sock_ip (to_endpoint args)) in ret tt else ret tt);!
  IpRoute.kernel (run_silent (lit "received error setting wg interface up: ") (lit "ip")
    [lit "link"; lit "set"; lit "dev"; to_interface args; lit "up"]).
End links.
End KernelLinks.

(** * Properties *)

Import Regex KernelLinks.

(** A machine whose commands all answer with the same text. *)
Definition answering (out : text) : Shell :=
  {| shell_answer _ _ _ := Some {| out_success := true; out_stdout := out; out_stderr := [] |} |}.
Definition result_of {S E A} (o : outcome S E A) : option A := match o with Done _ a => Some a | _ => None end.
Definition text_lines (ls : list string) : text := join newline (lit <$> ls).

(** The neighbours of a real machine: those without a hardware address are passed
    over, the device is the word behind [dev]. *)
Definition some_neighbors : text := text_lines
  ["10.0.2.2 dev eth0 lladdr 00:00:00:aa:00:03 STALE";
   "10.0.0.2 dev eth0  FAILED";
   "2001::2 dev eth0 lladdr 00:00:00:aa:00:56 REACHABLE";
   "fe80::433:25ff:fe8c:e1ea dev eth2 lladdr 1a:32:06:78:05:0a STALE";
   "2001::2 dev eth0  FAILED"]%string.
Example neighbors_read :
  result_of (get_neighbors (SH := answering some_neighbors) []) =
  Some [(V4 167772674, lit "eth0"); (V6 (Z.shiftl 8193 112 + 2), lit "eth0");
        (default (V4 0) (parse_ip (lit "fe80::433:25ff:fe8c:e1ea")), lit "eth2")].
Proof. vm_compute. reflexivity. Qed.
Example device_found :
  result_of (get_device_name (SH := answering some_neighbors) (default (V4 0) (parse_ip (lit "fe80::433:25ff:fe8c:e1ea"))) [])
  = Some (lit "eth2").
Proof. vm_compute. reflexivity. Qed.

Definition tab : ascii := Ascii.ascii_of_nat 9.
Definition endpoints_of (endpoint : string) : Shell :=
  answering (lit "v5yFYZVfl98N/LRVDK3hbyt5/dK/00VnEGHRBikHHXs=" ++ [tab] ++ lit endpoint).
Example remote_v4 :
  result_of (get_wg_remote_ip (SH := endpoints_of "71.8.186.226:60000") (lit "wg0") []) = parse_ip (lit "71.8.186.226").
Proof. vm_compute. reflexivity. Qed.
Example remote_local :
  result_of (get_wg_remote_ip (SH := endpoints_of "[fe80::78e4:1cff:fe61:560d%veth-1-6]:60000") (lit "wg0") [])
  = parse_ip (lit "fe80::78e4:1cff:fe61:560d").
Proof. vm_compute. reflexivity. Qed.
(** An endpoint with an IPv6 address that is not link local is not understood: the
    digits before its first colon are taken for an IPv4 address. *)
Lemma remote_v6_refused :
  exists h, get_wg_remote_ip (SH := endpoints_of "[2602:fbad::1]:60000") (lit "wg0") [] = Fail h AddrParseFailure.
Proof. eexists. vm_compute. reflexivity. Qed.

Definition some_addresses : text := text_lines
  ["13: eth8: <BROADCAST,MULTICAST,UP,LOWER_UP> mtu 1500 qdisc fq_codel state UP group default qlen 1000";
   "    link/ether 00:e0:4c:67:a1:57 brd ff:ff:ff:ff:ff:ff";
   "    inet 192.168.1.203/32 scope global eth8";
   "       valid_lft forever preferred_lft forever";
   "    inet6 fde6::1/128 scope global";
   "    inet6 fe80::2e0:4cff:fe67:a157/64 scope link"]%string.
Example addresses_v4 :
  result_of (get_ip_from_iface (SH := answering some_addresses) (lit "eth8") []) = Some [(3232235979, 32)].
Proof. vm_compute. reflexivity. Qed.
Example addresses_v6 :
  result_of (get_ipv6_from_iface (SH := answering some_addresses) (lit "eth8") [])
  = Some [(default 0 (parse_v6 (lit "fde6::1")), 128); (default 0 (parse_v6 (lit "fe80::2e0:4cff:fe67:a157")), 64)].
Proof. vm_compute. reflexivity. Qed.
Example address_global_v4 :
  result_of (get_global_device_ip_v4 (SH := answering some_addresses) (lit "eth8") []) = Some 3232235979.
Proof. vm_compute. reflexivity. Qed.

Definition some_inet6 : list text := lit <$>
  ["26003c01e002f1000000000000000000 06 3c 00 80   br-lan"; "fde60000000000000000000000000001 08 80 00 80     lan1";
   "fe8000000000000002e04cfffe67a154 08 40 20 80     lan1"; "fe800000000000009683c4fffe0deeb4 06 40 20 80   br-lan"]%string.
Example inet6_read :
  get_link_local_device_ip_internal some_inet6 (lit "br-lan") false = inr (default 0 (parse_v6 (lit "2600:3c01:e002:f100::")))
  /\ get_link_local_device_ip_internal some_inet6 (lit "br-lan") true = inr (default 0 (parse_v6 (lit "fe80::9683:c4ff:fe0d:eeb4")))
  /\ get_link_local_device_ip_internal some_inet6 (lit "lan1") true = inr (default 0 (parse_v6 (lit "fe80::2e0:4cff:fe67:a154"))).
Proof. split_and!; vm_compute; reflexivity. Qed.

(** The columns of /proc/net/dev: sixteen numbers behind the name.  The three read
    for fifo errors, collisions and carrier errors of what was sent are the columns
    of the dropped packets, the fifo errors and the collisions. *)
Record dev_columns := {
  rx : (Z * Z * Z * Z) * (Z * Z * Z * Z); (* bytes packets errs drop, fifo frame compressed multicast *)
  tx : (Z * Z * Z * Z) * (Z * Z * Z * Z); (* bytes packets errs drop, fifo colls carrier compressed *)
}.
Definition quad (q : Z * Z * Z * Z) : list Z := let '(a, b, c, d) := q in [a; b; c; d].
Definition columns (d : dev_columns) : list Z := quad (rx d).1 ++ quad (rx d).2 ++ quad (tx d).1 ++ quad (tx d).2.
Definition dev_line (name : text) (d : dev_columns) : text := join space ((name ++ lit ":") :: (show_uint <$> columns d)).

Lemma usage_field_shown {S} (parts : list text) i n (s : S) :
  parts !! i = Some (show_uint n) -> 0 <= n <= U64_MAX -> usage_field parts i s = Done s n.
Proof.
  intros Hi Hn. unfold usage_field, get_helper, bind. rewrite Hi. cbn [ok_or ret]. by rewrite parse_show_uint by (unfold U64_MAX in *; lia).
Qed.
Lemma show_uint_word n : 0 <= n -> word (show_uint n).
Proof. intros Hn. apply address_word; [|by apply show_uint_chars]. unfold show_uint.
  destruct (decimal_digits_cons 39 n) as (d & rest & [H _]%(fun f => f Hn)). by rewrite H.
Qed.
Lemma trim_end_colon (name : text) : ":"%char ∉ name -> trim_end_matches ":" (name ++ lit ":") = name.
Proof.
  intros Hc. unfold trim_end_matches. rewrite rev_app_distr. cbn [rev app lit String.list_ascii_of_string drop_while].
  rewrite Ascii.eqb_refl, drop_while_none; [apply rev_involutive|]. apply Forall_rev, Forall_forall.
  intros c Hin. apply Ascii.eqb_neq. by intros <-.
Qed.
Lemma usage_columns name d h :
  word name -> ":"%char ∉ name -> Forall (fun n => 0 <= n <= U64_MAX) (columns d) ->
  let '((rb, rp, re, rd), (rf, rfr, _, rm), (tb, tp, te, td), (tf, tc, _, _)) := ((rx d).1, (rx d).2, (tx d).1, (tx d).2) in
  usage_line (dev_line name d) h = Done h
    {| interface_name := name;
       recieve_bytes := rb; recieve_packets := rp; recieve_errors := re; recieve_dropped := rd;
       recieve_fifo_errors := rf; recieve_frame_errors := rfr; recieve_multicast_erorrs := rm;
       transmit_bytes := tb; transmit_packets := tp; transmit_errors := te;
       transmit_fifo_errors := td; transmit_collission_erorrs := tf; tranmist_carrier_errors := tc |}.
Proof.
  intros Hname Hcolon Hd. destruct d as [[[[[rb rp] re] rd] [[[rf rfr] rc] rm]] [[[[tb tp] te] td] [[[tf tc] tca] tco]]].
  cbn [rx tx fst snd]. unfold usage_line, dev_line.
  assert (Hnc : word (name ++ lit ":")).
  { destruct Hname as [Hne Hn]. split; [by destruct name|]. apply Forall_app. split; [done|by constructor]. }
  rewrite words_join.
  2: { constructor; [done|]. apply Forall_fmap. eapply Forall_impl; [exact Hd|]. intros n [Hn _]. by apply show_uint_word. }
  cbn [columns quad app fst snd rx tx] in *. rewrite !Forall_cons in Hd. destruct_and!.
  cbn [fmap list_fmap]. unfold bind at 1. cbn [get_helper ok_or lookup list_lookup ret].
  repeat (unfold bind at 1; erewrite usage_field_shown by first [reflexivity | lia]).
  unfold ret. f_equal. f_equal. by apply trim_end_colon.
Qed.

(** A machine where every command runs and writes no error. *)
Definition silent (SH : Shell) : Prop :=
  forall h p a, exists o, shell_answer h p a = Some o /\ out_stderr o = [].
Lemma run_silent_done `{SH : Shell} message p a h : silent SH -> run_silent message p a h = Done (h ++ [(p, a)]) tt.
Proof.
  intros Hs. destruct (Hs h p a) as (o & Ho & He). unfold run_silent, ki_run, bind. rewrite Ho, He. rewrite bool_decide_eq_false_2; [done|by intros []].
Qed.
Lemma kernel_bind `{SH : Shell} {A} (m : M (list Command) KernelInterfaceError A) h h' a r :
  m h = Done h' a -> IpRoute.kernel m (h, r) = Done (h', r) a.
Proof. intros Hm. unfold IpRoute.kernel. cbn. by rewrite Hm. Qed.

(** Opening a tunnel to a neighbour on a link: wireguard is given the endpoint with
    the device the neighbour was seen on and every address is allowed; the tunnel
    gets the mesh address and the link local address with the same lower half, and
    the default route in the settings is not touched. *)
Theorem open_tunnel_to_neighbor `{SH : Shell} args a o dev h h1 r :
  silent SH ->
  sock_ip (to_endpoint args) = V6 a -> is_link_local (V6 a) = true ->
  to_own_ip args = V6 o -> Z.shiftr o 112 = 64768 ->
  get_device_name (V6 a) h = Done h1 dev ->
  let ip_add x := (lit "ip", [lit "address"; lit "add"; x; lit "dev"; to_interface args]) in
  kernel_open_tunnel args (h, r) = Done (h1 ++
    [(lit "wg", [lit "set"; to_interface args; lit "listen-port"; show_uint (to_port args); lit "private-key"; to_private_key_path args;
        lit "peer"; to_remote_pub_key args; lit "endpoint";
        lit "[" ++ show_v6 a ++ lit "%" ++ dev ++ lit "]:" ++ show_uint (sock_port (to_endpoint args));
        lit "allowed-ips"; lit "::/0"; lit "persistent-keepalive"; lit "5"]);
     ip_add (show_v6 o)]
    ++ (match to_own_ip_v2 args with Some ip => [ip_add (show_ip ip)] | None => [] end)
    ++ [ip_add (show_v6 (Z.lor (Z.shiftl 65152 112) (o mod 2 ^ 64)) ++ lit "/64");
        (lit "ip", [lit "link"; lit "set"; lit "dev"; to_interface args; lit "up"])], r) tt.
Proof.
  intros Hs Hip Hll Ho Hfd Hdev ip_add. unfold kernel_open_tunnel. rewrite Hip, Hll, Ho. unfold bind at 1 2. cbn [fst snd].
  rewrite (kernel_bind _ _ _ _ r Hdev). cbn [ret fst snd].
  unfold socket_to_string. rewrite Hip, Hll. unfold bind at 1. cbn [ret].
  assert (Hadd : forall x h, (let! _ := ki_run (lit "ip") [lit "address"; lit "add"; x; lit "dev"; to_interface args] in ret tt) h
                             = Done (h ++ [ip_add x]) tt).
  { intros x h'. unfold ki_run, bind. destruct (Hs h' (lit "ip") [lit "address"; lit "add"; x; lit "dev"; to_interface args]) as (out & -> & _). done. }
  unfold bind at 1. rewrite (kernel_bind _ _ _ _ r (run_silent_done _ _ _ h1 Hs)).
  unfold bind at 1. rewrite (kernel_bind _ _ _ _ r (Hadd _ _)).
  assert (Hloc : to_wg_local (V6 o) = Some (V6 (Z.lor (Z.shiftl 65152 112) (o mod 2 ^ 64)))) by (unfold to_wg_local; by rewrite Hfd).
  rewrite Hloc. cbn [unwrap show_ip].
  destruct (to_own_ip_v2 args) as [ip2|].
  - unfold bind at 1. rewrite (kernel_bind _ _ _ _ r (Hadd _ _)). unfold bind at 1. cbn [unwrap show_ip].
    unfold bind at 1. rewrite (kernel_bind _ _ _ _ r (Hadd _ _)). unfold bind at 1. cbn [ret].
    rewrite (kernel_bind _ _ _ _ r (run_silent_done _ _ _ _ Hs)). by rewrite <- !app_assoc.
  - unfold bind at 1. cbn [ret]. unfold bind at 1. cbn [unwrap show_ip]. unfold bind at 1.
    rewrite (kernel_bind _ _ _ _ r (Hadd _ _)). unfold bind at 1. cbn [ret].
    rewrite (kernel_bind _ _ _ _ r (run_silent_done _ _ _ _ Hs)). by rewrite <- !app_assoc.
Qed.
