(* ===== verification/HardwareInfo.v ===== *)
(** What a router reports of itself: the statistics of its wireless networks
    (althea_types/src/wifi_info.rs), its hardware
    (althea_kernel_interface/src/hardware_info.rs) and the devices on its local network
    (rita_client/src/dashboard/devices_on_lan.rs, althea_kernel_interface/src/ip_neigh.rs). *)
From S2P Require Import Prelude Types Text IpText Babel TrafficWatcher PeerMessage KernelShell KernelCounters IpRoute Uci KernelLinks.
Import KernelShell KernelCounters KernelLinks Uci.
Local Open Scope Z_scope.

Definition is_word (w : string) (t : text) : bool := text_eqb t (lit w).
(** [parse::<i32>], as for every signed type. *)
Definition parse_int (min max : Z) (l : text) : option Z :=
  match l with
  | c :: rest =>
      if Ascii.eqb c "-" then
        match rest with [] => None | _ => d ← parse_digits 10 (- min) 0 rest; Some (- d) end
      else parse_uint 10 max l
  | [] => None
  end.

(** * wifi_info.rs *)

Module WifiInfo.

(** The numbers of a survey and of a station, each with its type. *)
Inductive survey_field := FrequencyMhz | ChannelActiveTime | ChannelBusyTime | ChannelReceiveTime | ChannelTransmitTime.
Inductive station_field :=
| InactiveTimeMs | RxBytes | RxPackets | TxBytes | TxPackets | TxRetries | TxFailed | RxDropMisc
| TxDurationUs | RxDurationUs | DtimPeriod | BeaconInterval | ConnectedTimeSec.
Inductive station_flag := Authorized | Authenticated | Associated | WmmWme | Mfp | TdlsPeer | ShortSlotTime.
#[export] Instance survey_field_dec : EqDecision survey_field.
Proof. solve_decision. Defined.
#[export] Instance station_field_dec : EqDecision station_field.
Proof. solve_decision. Defined.
#[export] Instance station_flag_dec : EqDecision station_flag.
Proof. solve_decision. Defined.

Record WifiSurveyData := { survey_num : survey_field -> Z; noise_dbm : Z }.
Definition survey_default : WifiSurveyData := {| survey_num := fun _ => 0; noise_dbm := 0 |}.
(** The bit rates are [f32], kept as their bits. *)
Record WifiStationData := {
  station : text;
  station_num : station_field -> Z;
  station_is : station_flag -> bool;
  signal_dbm : text; signal_avg_dbm : text; preamble : text;
  tx_bitrate : Z; rx_bitrate : Z;
  airtime_weight : option Z; associated_at_boottime_sec : option text; associated_at_ms : option Z; current_time_ms : option Z;
}.
Definition station_default : WifiStationData := {|
  station := []; station_num := fun _ => 0; station_is := fun _ => false; signal_dbm := []; signal_avg_dbm := []; preamble := [];
  tx_bitrate := 0; rx_bitrate := 0; airtime_weight := None; associated_at_boottime_sec := None; associated_at_ms := None; current_time_ms := None |}.

Definition update {K A} `{EqDecision K} (k : K) (v : A) (f : K -> A) : K -> A := fun k' => if decide (k' = k) then v else f k'.
Definition survey_max (k : survey_field) : Z := match k with FrequencyMhz => U16_MAX | _ => U64_MAX end.
Definition station_max (k : station_field) : Z :=
  match k with TxRetries | TxFailed | RxDropMisc | DtimPeriod | BeaconInterval | ConnectedTimeSec => U16_MAX | _ => U64_MAX end.
(** [parse().unwrap_or(0)]. *)
Definition or_zero (max : Z) (w : text) : Z := default 0 (parse_uint 10 max w).

(** ** Surveys *)

Definition survey_key (str : text) : option survey_field :=
  if is_word "frequency" str then Some FrequencyMhz
  else if is_word "activetime" str then Some ChannelActiveTime
  else if is_word "busytime" str then Some ChannelBusyTime
  else if is_word "receivetime" str then Some ChannelReceiveTime
  else if is_word "transmittime" str then Some ChannelTransmitTime else None.
(** [None] is the panic of [unwrap] behind the last word. *)
Fixpoint survey_loop (iter : list text) (ret : WifiSurveyData) : option WifiSurveyData :=
  match iter with
  | [] => Some ret
  | str :: iter =>
      if is_word "noise" str then
        match iter with
        | [] => None
        | w :: iter => survey_loop iter {| survey_num := survey_num ret; noise_dbm := default 0 (parse_int (- 2 ^ 31) (2 ^ 31 - 1) w) |}
        end
      else
        match survey_key str with
        | Some k =>
            match iter with
            | [] => None
            | w :: iter => survey_loop iter {| survey_num := update k (or_zero (survey_max k) w) (survey_num ret); noise_dbm := noise_dbm ret |}
            end
        | None => survey_loop iter ret
        end
  end.
Definition get_struct_sur (survey : list text) : option WifiSurveyData := survey_loop survey survey_default.

(** [slice::split]. *)
Fixpoint split_at (sep : text) (l : list text) : list (list text) :=
  match l with
  | [] => [[]]
  | x :: l =>
      if text_eqb x sep then [] :: split_at sep l
      else match split_at sep l with h :: t => (x :: h) :: t | [] => [[x]] end
  end.
Definition survey_text (survey_str : text) : text :=
  let freq_list := replace (lit "Survey data from ") [] survey_str in
  let freq_list := replace (lit "active time") (lit "activetime") freq_list in
  let freq_list := replace (lit "busy time") (lit "busytime") freq_list in
  let freq_list := replace (lit "transmit time") (lit "transmittime") freq_list in
  let freq_list := replace (lit "receive time") (lit "receivetime") freq_list in
  replace (lit ":") (lit " ") freq_list.
Definition gather {A} (read : list text -> option A) (keep : A -> bool) (pieces : list (list text)) : option (list A) :=
  (fun rs => List.filter keep rs) <$> mapM read pieces.
Definition extract_wifi_survey_data (survey_str dev_name : text) : option (list WifiSurveyData) :=
  gather get_struct_sur (fun s => negb (survey_num s ChannelActiveTime =? 0)) (split_at dev_name (words (survey_text survey_str))).

(** ** Stations *)

Section stations.
Context (parse_f32 : text -> option Z).

Definition stat_result : Type := option (list text * WifiStationData).
Definition next (iter : list text) (k : text -> WifiStationData -> WifiStationData) (ret : WifiStationData) : stat_result :=
  match iter with [] => None | w :: iter => Some (iter, k w ret) end.
Definition set_num (f : station_field) (v : Z) (r : WifiStationData) : WifiStationData := {|
  station := station r; station_num := update f v (station_num r); station_is := station_is r; signal_dbm := signal_dbm r;
  signal_avg_dbm := signal_avg_dbm r; preamble := preamble r; tx_bitrate := tx_bitrate r; rx_bitrate := rx_bitrate r;
  airtime_weight := airtime_weight r; associated_at_boottime_sec := associated_at_boottime_sec r;
  associated_at_ms := associated_at_ms r; current_time_ms := current_time_ms r |}.
Definition set_flag (f : station_flag) (v : bool) (r : WifiStationData) : WifiStationData := {|
  station := station r; station_num := station_num r; station_is := update f v (station_is r); signal_dbm := signal_dbm r;
  signal_avg_dbm := signal_avg_dbm r; preamble := preamble r; tx_bitrate := tx_bitrate r; rx_bitrate := rx_bitrate r;
  airtime_weight := airtime_weight r; associated_at_boottime_sec := associated_at_boottime_sec r;
  associated_at_ms := associated_at_ms r; current_time_ms := current_time_ms r |}.
Definition set_station_texts (signal avg pre : text) (r : WifiStationData) : WifiStationData := {|
  station := station r; station_num := station_num r; station_is := station_is r; signal_dbm := signal;
  signal_avg_dbm := avg; preamble := pre; tx_bitrate := tx_bitrate r; rx_bitrate := rx_bitrate r;
  airtime_weight := airtime_weight r; associated_at_boottime_sec := associated_at_boottime_sec r;
  associated_at_ms := associated_at_ms r; current_time_ms := current_time_ms r |}.
Definition set_rates (tx rx : Z) (r : WifiStationData) : WifiStationData := {|
  station := station r; station_num := station_num r; station_is := station_is r; signal_dbm := signal_dbm r;
  signal_avg_dbm := signal_avg_dbm r; preamble := preamble r; tx_bitrate := tx; rx_bitrate := rx;
  airtime_weight := airtime_weight r; associated_at_boottime_sec := associated_at_boottime_sec r;
  associated_at_ms := associated_at_ms r; current_time_ms := current_time_ms r |}.
Definition set_options (weight : option Z) (boot : option text) (at_ms current : option Z) (r : WifiStationData) : WifiStationData := {|
  station := station r; station_num := station_num r; station_is := station_is r; signal_dbm := signal_dbm r;
  signal_avg_dbm := signal_avg_dbm r; preamble := preamble r; tx_bitrate := tx_bitrate r; rx_bitrate := rx_bitrate r;
  airtime_weight := weight; associated_at_boottime_sec := boot; associated_at_ms := at_ms; current_time_ms := current |}.

Definition number (f : station_field) (iter : list text) : WifiStationData -> stat_result := next iter (fun w => set_num f (or_zero (station_max f) w)).
Definition yes (f : station_flag) (iter : list text) : WifiStationData -> stat_result := next iter (fun w => set_flag f (is_word "yes" w)).
(** The strengths up to the unit, at most ten of them. *)
Fixpoint signal_loop (sig_arr : list text) (iter : list text) : list text * list text :=
  match iter with
  | [] => (sig_arr, [])
  | next :: iter =>
      if is_word "dBm" next then (sig_arr ++ [next], iter)
      else if (10 <? length (sig_arr ++ [next]))%nat then ([lit "Error with signal parsing logic, please fix"], iter)
      else signal_loop (sig_arr ++ [next]) iter
  end.
Definition signal (iter : list text) (k : text -> WifiStationData -> WifiStationData) (ret : WifiStationData) : stat_result :=
  match iter with
  | [] => None
  | w :: iter => let '(sig_arr, iter) := signal_loop [w] iter in Some (iter, k (concat sig_arr) ret)
  end.

Definition rx_step (next_str : text) (iter : list text) (ret : WifiStationData) : stat_result :=
  if is_word "bytes:" next_str then number RxBytes iter ret
  else if is_word "packets:" next_str then number RxPackets iter ret
  else if is_word "drop" next_str then number RxDropMisc (drop 1 iter) ret
  else if is_word "bitrate:" next_str then next iter (fun w r => set_rates (tx_bitrate r) (default 0 (parse_f32 w)) r) ret
  else if is_word "duration:" next_str then number RxDurationUs iter ret
  else Some (iter, ret).
Definition tx_step (next_str : text) (iter : list text) (ret : WifiStationData) : stat_result :=
  if is_word "bytes:" next_str then number TxBytes iter ret
  else if is_word "packets:" next_str then number TxPackets iter ret
  else if is_word "retries:" next_str then number TxRetries iter ret
  else if is_word "failed:" next_str then number TxFailed iter ret
  else if is_word "bitrate:" next_str then next iter (fun w r => set_rates (default 0 (parse_f32 w)) (rx_bitrate r) r) ret
  else if is_word "duration:" next_str then number TxDurationUs iter ret
  else Some (iter, ret).
Definition with_next (iter : list text) (k : text -> list text -> WifiStationData -> stat_result) (ret : WifiStationData) : stat_result :=
  match iter with [] => None | next_str :: iter => k next_str iter ret end.

(** The branches of the [match]; what is left of the words, and the new values. *)
Definition stat_step (str : text) (iter : list text) (ret : WifiStationData) : stat_result :=
  if is_word "inactive" str then number InactiveTimeMs (drop 1 iter) ret
  else if is_word "rx" str then with_next iter rx_step ret
  else if is_word "tx" str then with_next iter tx_step ret
  else if is_word "signal:" str then signal iter (fun s r => set_station_texts s (signal_avg_dbm r) (preamble r) r) ret
  else if is_word "avg:" str then signal iter (fun s r => set_station_texts (signal_dbm r) s (preamble r) r) ret
  else if is_word "airtime" str then
    next (drop 1 iter) (fun w r => set_options (Some (or_zero U16_MAX w)) (associated_at_boottime_sec r) (associated_at_ms r) (current_time_ms r) r) ret
  else if is_word "authorized:" str then yes Authorized iter ret
  else if is_word "authenticated:" str then yes Authenticated iter ret
  else if is_word "[boottime]:" str then
    next iter (fun w r => set_options (airtime_weight r) (Some w) (associated_at_ms r) (current_time_ms r) r) ret
  else if is_word "at:" str then
    next iter (fun w r => set_options (airtime_weight r) (associated_at_boottime_sec r) (Some (or_zero U64_MAX w)) (current_time_ms r) r) ret
  else if is_word "associated:" str then yes Associated iter ret
  else if is_word "preamble:" str then next iter (fun w r => set_station_texts (signal_dbm r) (signal_avg_dbm r) w r) ret
  else if is_word "WMM/WME:" str then yes WmmWme iter ret
  else if is_word "MFP:" str then yes Mfp iter ret
  else if is_word "peer:" str then yes TdlsPeer iter ret
  else if is_word "period:" str then number DtimPeriod iter ret
  else if is_word "beacon" str then next iter (fun w => set_num BeaconInterval (or_zero U16_MAX (replace (lit "interval:") [] w))) ret
  else if is_word "slot" str then next iter (fun w => set_flag ShortSlotTime (contains (lit "yes") w)) ret
  else if is_word "connected" str then number ConnectedTimeSec (drop 1 iter) ret
  else if is_word "current" str then
    next (drop 1 iter) (fun w r => set_options (airtime_weight r) (associated_at_boottime_sec r) (associated_at_ms r) (Some (or_zero U64_MAX w)) r) ret
  else Some (iter, ret).
(** The words shrink with every stat_result, so their number is enough fuel. *)
Fixpoint stat_loop (fuel : nat) (iter : list text) (ret : WifiStationData) : option WifiStationData :=
  match iter with
  | [] => Some ret
  | str :: iter =>
      match fuel with
      | O => None
      | S fuel => '(iter, ret) ← stat_step str iter ret; stat_loop fuel iter ret
      end
  end.
Definition get_struct_stat (words : list text) : option WifiStationData :=
  match words with
  | [] => Some station_default
  | name :: iter =>
      stat_loop (length iter) iter {|
        station := name; station_num := fun _ => 0; station_is := fun _ => false; signal_dbm := []; signal_avg_dbm := []; preamble := [];
        tx_bitrate := 0; rx_bitrate := 0; airtime_weight := None; associated_at_boottime_sec := None; associated_at_ms := None; current_time_ms := None |}
  end.
Definition extract_wifi_station_data (station_str : text) : option (list WifiStationData) :=
  gather get_struct_stat (fun s => bool_decide (station s <> [])) (split_at (lit "Station") (words station_str)).
End stations.
End WifiInfo.

(** * hardware_info.rs *)

Module HardwareInfo.
Import WifiInfo.
Abbreviation KI A := (M (list Command) KernelInterfaceError A).

Inductive EthOperationMode :=
| FullDup40GBase | FullDup25GBase | FullDup10GBase | FullDup5GBase | FullDup1000MBBase | HalfDup1000MBBase
| FullDup100MBBase | HalfDup100MBBase | FullDup10MBBase | HalfDup10MBBase | Unknown.
Record SensorReading := { sensor_name : text; sensor_reading : Z; sensor_min : option Z; sensor_crit : option Z; sensor_max : option Z }.
Record EthernetStats := {
  is_up : bool; mode_of_operation : EthOperationMode; tx_packet_count : Z; es_tx_errors : Z; rx_packet_count : Z; es_rx_errors : Z }.
Record ConntrackInfo := { max_conns : Z; current_conns : Z }.
(** [WifiDevice]. *)
Record WifiRadio := {
  wd_name : text; survey_data : list WifiSurveyData; station_data : list WifiStationData;
  wd_ssid : option text; wd_channel : option Z; wd_enabled : option bool }.
(** The load averages are [f32], kept as their bits; times are in seconds. *)
Record HardwareInfo := {
  logical_processors : Z; load_avg_one_minute : Z; load_avg_five_minute : Z; load_avg_fifteen_minute : Z;
  system_memory : Z; allocated_memory : Z; model : text; sensor_readings : option (list SensorReading); system_uptime : Z;
  system_kernel_version : text; entire_system_kernel_version : text; ethernet_stats : option (list EthernetStats);
  wifi_devices : list WifiRadio; extender_list : option (list Z); conntrack : option ConntrackInfo }.

(** The words of the line, two at a time but for the version. *)
Fixpoint kernel_loop (times : list text) (kernel_ver kernel_ver_entire : text) : text * text :=
  match times with
  | [] => (kernel_ver_entire, kernel_ver)
  | val :: times =>
      if is_word "Linux" val then
        match times with
        | [] => (kernel_ver_entire, kernel_ver)
        | val :: times =>
            if is_word "version" val then
              match times with
              | [] => (kernel_ver_entire, kernel_ver)
              | [val] => (kernel_ver_entire, kernel_ver ++ val)
              | val :: val' :: times => kernel_loop times (kernel_ver ++ val) (kernel_ver_entire ++ val')
              end
            else
              match times with
              | [] => (kernel_ver_entire, kernel_ver)
              | val :: times => kernel_loop times kernel_ver (kernel_ver_entire ++ val)
              end
        end
      else
        match times with
        | [] => (kernel_ver_entire, kernel_ver)
        | val :: times => kernel_loop times kernel_ver (kernel_ver_entire ++ val)
        end
  end.
Definition parse_kernel_version (line : text) : text * text := kernel_loop (words line) [] [].

Definition get_ethernet_operation_mode (speed : Z) (duplex : text) : EthOperationMode :=
  let full := contains (lit "full") duplex in
  if speed =? 40000 then FullDup40GBase
  else if speed =? 25000 then FullDup25GBase
  else if speed =? 10000 then FullDup10GBase
  else if speed =? 5000 then FullDup5GBase
  else if speed =? 1000 then if full then FullDup1000MBBase else HalfDup1000MBBase
  else if speed =? 100 then if full then FullDup100MBBase else HalfDup100MBBase
  else if speed =? 10 then if full then FullDup10GBase else HalfDup10MBBase
  else Unknown.

Section hardware.
Context `{SH : Shell} `{FI : Files} (parse_f32 : text -> option Z) (is_openwrt : bool).
(** [fs::metadata(path).is_ok()]. *)
Context (path_exists : text -> bool).

Definition first_line (e : KernelInterfaceError) (path : string) : KI text :=
  let! ls := read_lines (lit path) in ok_or (head ls) e.
Definition get_kernel_version : KI text := first_line FailedToGetSystemKernelVersion "/proc/version".
Definition get_sys_uptime : KI Z :=
  let! line := first_line FailedToGetSystemTime "/proc/uptime" in
  let! val := ok_or (head (words line)) FailedToGetSystemTime in
  let! val := ok_or (head (split_on "." val)) FailedToGetSystemTime in
  ok_or (parse_uint 10 U64_MAX val) ParseIntFailure.
Definition load_field (load_avg : list text) (i : nat) : KI Z :=
  let! val := ok_or (load_avg !! i) FailedToGetLoadAverage in ok_or (parse_f32 val) ParseFloatFailure.
Definition get_load_avg : KI (Z * Z * Z) :=
  let! line := first_line FailedToGetLoadAverage "/proc/loadavg" in
  let! one := load_field (words line) 0 in
  let! five := load_field (words line) 1 in
  let! fifteen := load_field (words line) 2 in
  ret (one, five, fifteen).
Definition memory_field (ls : list text) (i : nat) : KI Z :=
  let! line := ok_or (ls !! i) FailedToGetMemoryInfo in
  let! val := ok_or (words line !! 1%nat) FailedToGetMemoryInfo in
  ok_or (parse_uint 10 U64_MAX val) ParseIntFailure.
Definition get_memory_info : KI (Z * Z) :=
  let! ls := read_lines (lit "/proc/meminfo") in
  let! mem_total := memory_field ls 0 in
  let! mem_free := memory_field ls 1 in
  ret (mem_total, mem_free).
Definition get_numcpus : KI Z :=
  let! ls := read_lines (lit "/proc/cpuinfo") in ret (Z.of_nat (length (List.filter (contains (lit "processor")) ls))).

(** Reading files changes nothing. *)
Definition peek {A} (f : list Command -> A) : KI A := fun h => Done h (f h).
Definition maybe_get_single_line_string (h : list Command) (path : text) : option text := file_lines h path ≫= head.
Definition maybe_get_single_line_u64 (h : list Command) (path : text) : option Z :=
  maybe_get_single_line_string h path ≫= parse_uint 10 U64_MAX.

(** The directories with the numbers 0, 1, ... as long as there is one; [None] when the
    fuel runs out before. *)
Fixpoint numbered_loop {A} (fuel : nat) (dir : text) (body : text -> option A) (n : nat) (ret : list A) : option (list A) :=
  let path := dir ++ show_uint (Z.of_nat n) in
  if path_exists path then
    match fuel with
    | O => None
    | S fuel => numbered_loop fuel dir body (S n) (ret ++ option_list (body path))
    end
  else Some ret.
Definition none_if_empty {A} (l : list A) : option (list A) := match l with [] => None | _ => Some l end.
Definition sensor_at (h : list Command) (path : text) : option SensorReading :=
  reading ← maybe_get_single_line_u64 h (path ++ lit "/temp1_input");
  name ← maybe_get_single_line_string h (path ++ lit "/name");
  Some {| sensor_name := name; sensor_reading := reading;
          sensor_min := maybe_get_single_line_u64 h (path ++ lit "/temp1_min");
          sensor_crit := maybe_get_single_line_u64 h (path ++ lit "/temp1_crit");
          sensor_max := maybe_get_single_line_u64 h (path ++ lit "/temp1_max") |}.
Definition get_sensor_readings (fuel : nat) (h : list Command) : option (option (list SensorReading)) :=
  none_if_empty <$> numbered_loop fuel (lit "/sys/class/hwmon/hwmon") (sensor_at h) 0 [].
Definition ethernet_at (h : list Command) (path : text) : option EthernetStats :=
  is_up ← maybe_get_single_line_string h (path ++ lit "/operstate");
  speed ← maybe_get_single_line_u64 h (path ++ lit "/speed");
  duplex ← maybe_get_single_line_string h (path ++ lit "/duplex");
  tx_errors ← maybe_get_single_line_u64 h (path ++ lit "/statistics/tx_errors");
  rx_errors ← maybe_get_single_line_u64 h (path ++ lit "/statistics/rx_errors");
  tx_packets ← maybe_get_single_line_u64 h (path ++ lit "/statistics/tx_packets");
  rx_packets ← maybe_get_single_line_u64 h (path ++ lit "/statistics/rx_packets");
  Some {| is_up := contains (lit "up") is_up; mode_of_operation := get_ethernet_operation_mode speed duplex;
          tx_packet_count := tx_packets; es_tx_errors := tx_errors; rx_packet_count := rx_packets; es_rx_errors := rx_errors |}.
Definition get_ethernet_stats (fuel : nat) (h : list Command) : option (option (list EthernetStats)) :=
  none_if_empty <$> numbered_loop fuel (lit "/sys/class/net/eth") (ethernet_at h) 0 [].

(** The first line of the limit is indexed: a file without one is a panic. *)
Definition get_conntrack_info : KI (option ConntrackInfo) := fun h =>
  match file_lines h (lit "/proc/net/nf_conntrack"), file_lines h (lit "/proc/sys/net/netfilter/nf_conntrack_max") with
  | Some conns, Some max_lines =>
      match max_lines with
      | [] => Panic
      | line :: _ =>
          Done h (match parse_uint 10 (2 ^ 32 - 1) line with
                  | Some max => Some {| max_conns := max; current_conns := Z.of_nat (length conns) mod 2 ^ 32 |}
                  | None => None
                  end)
      end
  | _, _ => Done h None
  end.

(** ** Wireless devices *)

Definition uci_device (line : text) : option text :=
  if contains (lit "wireless.default_radio") line && contains (lit "ifname") line
  then (fun name => replace [quote] [] name) <$> last (split_on "=" line) else None.
Definition proc_device (line : text) : option text :=
  if contains (lit ":") line then (fun name => replace (lit " ") [] name) <$> head (split_on ":" line) else None.
Definition parse_wifi_device_names : KI (list text) :=
  if is_openwrt then let! o := sh "uci" ["show"; "wireless"] in ret (omap uci_device (lines (out_stdout o)))
  else let! ls := read_lines (lit "/proc/net/wireless") in ret (omap proc_device ls).
(** [iw], whose errors lead to an empty list. *)
Definition iw_dump {A} (dev : text) (what : string) (extract : text -> option (list A)) : KI (list A) := fun h =>
  match ki_run (lit "iw") [dev; lit what; lit "dump"] h with
  | Done h o => match extract (out_stdout o) with Some l => Done h l | None => Panic end
  | Fail h _ => Done h []
  | Panic => Panic
  end.
Definition get_wifi_survey_info (dev : text) : KI (list WifiSurveyData) := iw_dump dev "survey" (fun out => extract_wifi_survey_data out dev).
Definition get_wifi_station_info (dev : text) : KI (list WifiStationData) := iw_dump dev "station" (extract_wifi_station_data parse_f32).
Definition uci_ok (key : text) : KI (option text) := fun h =>
  match get_uci_var key h with Done h a => Done h (Some a) | Fail h _ => Done h None | Panic => Panic end.
Definition radio_of (radio : text) : text := replace (lit "wlan") (lit "radio") radio.
Definition get_radio_ssid (radio : text) : KI (option text) := uci_ok (lit "wireless.default_" ++ radio_of radio ++ lit ".ssid").
Definition get_radio_channel (radio : text) : KI (option Z) :=
  let! a := uci_ok (lit "wireless." ++ radio_of radio ++ lit ".channel") in ret (a ≫= parse_uint 10 U16_MAX).
Definition get_radio_enabled (radio : text) : KI (option bool) :=
  let! a := uci_ok (lit "wireless." ++ radio_of radio ++ lit ".disabled") in ret (contains (lit "0") <$> a).
Definition wifi_device (dev : text) : KI WifiRadio :=
  let! survey := get_wifi_survey_info dev in
  let! stations := get_wifi_station_info dev in
  let! ssid := get_radio_ssid dev in
  let! channel := get_radio_channel dev in
  let! enabled := get_radio_enabled dev in
  ret {| wd_name := dev; survey_data := survey; station_data := stations; wd_ssid := ssid; wd_channel := channel; wd_enabled := enabled |}.
Fixpoint wifi_loop (devices : list text) : KI (list WifiRadio) :=
  match devices with
  | [] => ret []
  | dev :: devices => let! d := wifi_device dev in let! ds := wifi_loop devices in ret (d :: ds)
  end.
Definition get_wifi_devices : KI (list WifiRadio) := fun h =>
  match parse_wifi_device_names h with
  | Done h devices => wifi_loop devices h
  | Fail h _ => Done h []
  | Panic => Panic
  end.

(** [None] when the fuel of a loop over directories runs out. *)
Definition get_hardware_info (fuel : nat) (device_name : option text) : KI (option HardwareInfo) :=
  let! (one, five, fifteen) := get_load_avg in
  let! (mem_total, mem_free) := get_memory_info in
  let! num_cpus := get_numcpus in
  let! sensors := peek (get_sensor_readings fuel) in
  let! allocated := (if mem_total <? mem_free then throw FailedToGetMemoryUsage else ret (mem_total - mem_free)) in
  let! uptime := get_sys_uptime in
  let! version := get_kernel_version in
  let '(entire, version) := parse_kernel_version version in
  let! ethernet := peek (get_ethernet_stats fuel) in
  let! wifi := get_wifi_devices in
  let! connections := get_conntrack_info in
  ret (sensors ← sensors; ethernet ← ethernet;
       Some {| logical_processors := num_cpus; load_avg_one_minute := one; load_avg_five_minute := five; load_avg_fifteen_minute := fifteen;
               system_memory := mem_total; allocated_memory := allocated; model := default (lit "Unknown Device") device_name;
               sensor_readings := sensors; system_uptime := uptime; system_kernel_version := version; entire_system_kernel_version := entire;
               ethernet_stats := ethernet; wifi_devices := wifi; extender_list := None; conntrack := connections |}).
End hardware.
End HardwareInfo.

(** * ip_neigh.rs and devices_on_lan.rs *)

Module LanDevices.
Import WifiInfo HardwareInfo.

(** A [MacAddress] is its 48 bits; its parser and its text belong to another crate. *)
Class MacText := { parse_mac : text -> option Z; show_mac : Z -> text }.
Record LanDevice := {
  wired : bool; ld_ip_addr : gset IpAddr; ld_mac_addr : Z; ld_name : text;
  signal_strength : option text; upload_bytes_used : option Z; download_bytes_used : option Z }.

Section lan.
Context `{SH : Shell} `{FI : Files} `{MT : MacText} `{P : Profile}.

(** ** ip_neigh.rs *)

Record neigh_entry := { ne_ip : option IpAddr; ne_mac : option Z; ne_reachable : option bool }.
Definition neigh_word (e : neigh_entry) (entry : text) : neigh_entry :=
  let reachable := if is_word "STALE" entry then Some false else if is_word "REACHABLE" entry then Some true else ne_reachable e in
  match parse_ip entry, parse_mac entry with
  | Some ip, _ => {| ne_ip := Some ip; ne_mac := ne_mac e; ne_reachable := reachable |}
  | None, Some mac => {| ne_ip := ne_ip e; ne_mac := Some mac; ne_reachable := reachable |}
  | None, None => {| ne_ip := ne_ip e; ne_mac := ne_mac e; ne_reachable := reachable |}
  end.
Definition neigh_line (line : text) : option (IpAddr * Z) :=
  match foldl neigh_word {| ne_ip := None; ne_mac := None; ne_reachable := None |} (words line) with
  | {| ne_ip := Some ip; ne_mac := Some mac; ne_reachable := Some true |} => Some (ip, mac)
  | _ => None
  end.
Definition parse_ip_neigh (command : text) : list (IpAddr * Z) := omap neigh_line (lines command).
Definition grab_ip_neigh : KI (list (IpAddr * Z)) :=
  let! output := sh "ip" ["neigh"] in
  match out_stdout output with [] => throw IoError | out => ret (parse_ip_neigh out) end.

(** ** devices_on_lan.rs *)

Definition consolidate_wlan_arp_table (arp_table : list (IpAddr * Z)) : gmap Z (gset IpAddr) :=
  foldl (fun (m : gmap Z (gset IpAddr)) '(ip_addr, mac_addr) => <[mac_addr := {[ip_addr]} ∪ default ∅ (m !! mac_addr)]> m) ∅ arp_table.

(** [x << n] of [u8]: a shift by eight or more overflows. *)
Definition shl_u8 (x n : Z) : option Z :=
  if n <? 8 then Some ((x * 2 ^ n) mod 256) else if overflow_checks then None else Some ((x * 2 ^ (n mod 8)) mod 256).
Definition apply_subnet_mask_to_ip_octet (octet subnet_mask : Z) : option Z :=
  if subnet_mask =? 0 then Some octet
  else bitmask_octet ← shl_u8 2 (if 8 <? subnet_mask then 8 else subnet_mask); Some (Z.land octet bitmask_octet).
Fixpoint masked_octets (index : Z) (octets : list Z) (subnet_mask : Z) : option (list Z) :=
  match octets with
  | [] => Some []
  | x :: octets =>
      m ← native 0 255 (subnet_mask - index * 8);
      y ← apply_subnet_mask_to_ip_octet x m;
      ys ← masked_octets (index + 1) octets subnet_mask;
      Some (y :: ys)
  end.
Definition check_ip_in_subnet (address1 address2 : IpAddr) (subnet_mask : Z) : option bool :=
  let same n ip1 ip2 :=
    octets1 ← masked_octets 0 (octets n ip1) subnet_mask;
    octets2 ← masked_octets 0 (octets n ip2) subnet_mask;
    Some (bool_decide (octets1 = octets2)) in
  match address1, address2 with
  | V4 ip1, V4 ip2 => same 4%nat ip1 ip2
  | V6 ip1, V6 ip2 => same 16%nat ip1 ip2
  | _, _ => Some false
  end.

(** [find] stops at the first address that does not match. *)
Fixpoint outside_of_one (ip : IpAddr) (nets : list (IpAddr * Z)) : option bool :=
  match nets with
  | [] => Some false
  | (net, bitmask) :: nets => inside ← check_ip_in_subnet ip net bitmask; if inside : bool then outside_of_one ip nets else Some true
  end.
Fixpoint retain_by (nets : list (IpAddr * Z)) (arp_table : list (IpAddr * Z)) : option (list (IpAddr * Z)) :=
  match arp_table with
  | [] => Some []
  | (ip, mac) :: arp_table =>
      keep ← outside_of_one ip nets;
      rest ← retain_by nets arp_table;
      Some (if keep : bool then (ip, mac) :: rest else rest)
  end.
Definition result_ok {A} (m : KI A) : KI (option A) := fun h =>
  match m h with Done h a => Done h (Some a) | Fail h _ => Done h None | Panic => Panic end.
Definition prune_non_lan_entries (arp_table : list (IpAddr * Z)) : KI (list (IpAddr * Z)) :=
  let! ip4 := result_ok (get_ip_from_iface (lit "br-lan")) in
  let! ip6 := result_ok (get_ipv6_from_iface (lit "br-lan")) in
  let valid4 := prod_map V4 id <$> default [] ip4 in
  let valid6 := prod_map V6 id <$> default [] ip6 in
  unwrap match ip4, ip6 with
         | Some _, Some _ => retain_by valid4 arp_table ≫= retain_by valid6
         | Some _, None => retain_by valid4 arp_table
         | None, Some _ => retain_by valid6 arp_table
         | None, None => Some arp_table
         end.

(** One lease: the address is the third word, the name the fourth. *)
Definition lease_name (ip_addresses : gset IpAddr) (mac_addr : Z) (line : text) : option text :=
  entry ← words line !! 2%nat;
  val ← parse_ip entry;
  if bool_decide (val ∈ ip_addresses) then
    name ← words line !! 3%nat; Some (if (length name <=? 3)%nat then show_mac mac_addr else name)
  else None.
Definition resolve_name (ip_addresses : gset IpAddr) (mac_addr : Z) : KI text := fun h =>
  match sh "cat" ["/tmp/dhcp.leases"] h with
  | Done h output => Done h (default (show_mac mac_addr) (head (omap (lease_name ip_addresses mac_addr) (lines (out_stdout output)))))
  | Fail h _ => Done h (show_mac mac_addr)
  | Panic => Panic
  end.

(** The first station of a wireless device with the address. *)
Definition station_of (mac_addr : Z) (d : WifiRadio) : option WifiStationData :=
  List.find (fun s => match parse_mac (station s) with Some m => m =? mac_addr | None => false end) (station_data d).
Fixpoint wireless_entries (mac_addr : Z) (ip_addr : gset IpAddr) (devices : list WifiRadio) : KI (list LanDevice) :=
  match devices with
  | [] => ret []
  | d :: devices =>
      match station_of mac_addr d with
      | Some s =>
          let! name := resolve_name ip_addr mac_addr in
          let! more := wireless_entries mac_addr ip_addr devices in
          ret ({| wired := false; ld_ip_addr := ip_addr; ld_mac_addr := mac_addr; ld_name := name; signal_strength := Some (signal_dbm s);
                  upload_bytes_used := Some (station_num s RxBytes); download_bytes_used := Some (station_num s TxBytes) |} :: more)
      | None => wireless_entries mac_addr ip_addr devices
      end
  end.
Definition entries_of (devices : list WifiRadio) (mac_addr : Z) (ip_addr : gset IpAddr) : KI (list LanDevice) :=
  let! found := wireless_entries mac_addr ip_addr devices in
  match found with
  | [] =>
      let! name := resolve_name ip_addr mac_addr in
      ret [{| wired := true; ld_ip_addr := ip_addr; ld_mac_addr := mac_addr; ld_name := name; signal_strength := None;
              upload_bytes_used := None; download_bytes_used := None |}]
  | _ => ret found
  end.
(** [lan_arp_table] in the order the map is walked in. *)
Fixpoint generate_lan_device (lan_arp_table : list (Z * gset IpAddr)) (hardware_to_check : HardwareInfo) : KI (list LanDevice) :=
  match lan_arp_table with
  | [] => ret []
  | (mac_addr, ip_addr) :: table =>
      let! found := entries_of (wifi_devices hardware_to_check) mac_addr ip_addr in
      let! more := generate_lan_device table hardware_to_check in
      ret (found ++ more)
  end.

(** The extenders that have checked in. *)
Definition extend_hardware_info (extenders : list Z) (info : HardwareInfo) : HardwareInfo := {|
  logical_processors := logical_processors info; load_avg_one_minute := load_avg_one_minute info;
  load_avg_five_minute := load_avg_five_minute info; load_avg_fifteen_minute := load_avg_fifteen_minute info;
  system_memory := system_memory info; allocated_memory := allocated_memory info; model := model info;
  sensor_readings := sensor_readings info; system_uptime := system_uptime info; system_kernel_version := system_kernel_version info;
  entire_system_kernel_version := entire_system_kernel_version info; ethernet_stats := ethernet_stats info;
  wifi_devices := wifi_devices info; extender_list := Some extenders; conntrack := conntrack info |}.

Context (parse_f32 : text -> option Z) (is_openwrt : bool) (path_exists : text -> bool).
Definition get_devices_lan_endpoint (fuel : nat) (order : gmap Z (gset IpAddr) -> list (Z * gset IpAddr)) (device : option text)
    (extenders : list Z) : KI (option (list LanDevice)) :=
  let! arp_table := grab_ip_neigh in
  let! lan_arp_table := prune_non_lan_entries arp_table in
  let consolidated := consolidate_wlan_arp_table lan_arp_table in
  let! info := get_hardware_info parse_f32 is_openwrt path_exists fuel device in
  match info with
  | Some info => let! l := generate_lan_device (order consolidated) (extend_hardware_info extenders info) in ret (Some l)
  | None => ret None
  end.
End lan.
End LanDevices.

(** * Properties *)

Module HardwareSpec.
Import WifiInfo HardwareInfo.

(** ** The version of the kernel *)

Fixpoint every_other {A} (l : list A) : list A :=
  match l with x :: _ :: l => x :: every_other l | l => l end.

Lemma kernel_loop_pairs ws v e : lit "Linux" ∉ ws -> kernel_loop ws v e = (e ++ concat (every_other (tail ws)), v).
Proof.
  remember (length ws) as n eqn:Hl. revert ws Hl e. induction n as [n IH] using lt_wf_ind. intros ws -> e Hn.
  destruct ws as [| a [| b ws]]; cbn [kernel_loop tail every_other concat].
  - by rewrite app_nil_r.
  - rewrite app_nil_r. unfold is_word, text_eqb. case_bool_decide; [| done]. subst. set_solver.
  - unfold is_word at 1, text_eqb. case_bool_decide; [subst; set_solver |]. rewrite (IH (length ws)); [| simpl; lia | done | set_solver].
    f_equal. destruct ws as [| c ws]; cbn [tail every_other concat]; by rewrite <- ?app_assoc.
Qed.

(** The version is the third word; of the words behind it only every second one gets into
    what is reported as the whole line, and without the spaces between them. *)
Theorem kernel_version_read line v rest : words line = lit "Linux" :: lit "version" :: v :: rest -> lit "Linux" ∉ rest ->
  parse_kernel_version line = (concat (every_other rest), v).
Proof.
  intros Hw Hn. unfold parse_kernel_version. rewrite Hw. cbn [kernel_loop]. destruct rest as [| r rest]; [done |].
  change (kernel_loop rest ([] ++ v) ([] ++ r) = (concat (every_other (r :: rest)), v)). rewrite kernel_loop_pairs by set_solver.
  f_equal. destruct rest as [| c rest]; cbn [tail every_other concat app]; [by rewrite app_nil_r | done].
Qed.

(** ** Numbered directories *)

Lemma numbered_loop_from {A} (path_exists : text -> bool) dir (body : text -> option A) fuel n k acc :
  let path i := dir ++ show_uint (Z.of_nat i) in
  (forall i, n <= i < n + k -> path_exists (path i) = true)%nat -> path_exists (path (n + k)%nat) = false -> (k <= fuel)%nat ->
  numbered_loop path_exists fuel dir body n acc = Some (acc ++ omap body (path <$> seq n k)).
Proof.
  intros path. revert n fuel acc. induction k as [| k IH]; intros n fuel acc He Hn Hf.
  - rewrite Nat.add_0_r in Hn. destruct fuel; cbn [numbered_loop]; fold (path n); by rewrite Hn, app_nil_r.
  - destruct fuel as [| fuel]; [lia |]. cbn [numbered_loop]. fold (path n). rewrite He by lia.
    rewrite IH; [| intros i Hi; apply He; lia | by rewrite Nat.add_succ_r in Hn | lia].
    rewrite <- app_assoc. cbn [seq fmap list_fmap omap list_omap]. by destruct (body (path n)).
Qed.

(** The sensors are read up to the first number without a directory, and the search ends
    there; a sensor without a name or a reading is passed over. *)
Theorem sensors_read `{FI : Files} path_exists h fuel k : let path i := lit "/sys/class/hwmon/hwmon" ++ show_uint (Z.of_nat i) in
  (forall i, i < k -> path_exists (path i) = true)%nat -> path_exists (path k) = false -> (k <= fuel)%nat ->
  get_sensor_readings path_exists fuel h = Some (none_if_empty (omap (sensor_at h) (path <$> seq 0 k))).
Proof.
  intros path He Hn Hf. unfold get_sensor_readings.
  rewrite (numbered_loop_from path_exists _ _ fuel 0 k); [done | intros i Hi; apply He; lia | done | done].
Qed.

(** ** Stations *)

Section stations.
Context (parse_f32 : text -> option Z).

Definition run_words (iter : list text) (ret : WifiStationData) : option WifiStationData := stat_loop parse_f32 (length iter) iter ret.

Lemma next_shorter iter k ret iter' ret' : next iter k ret = Some (iter', ret') -> (length iter' <= length iter)%nat.
Proof. destruct iter; [done |]. intros [= <- _]. simpl. lia. Qed.
Lemma signal_loop_shorter arr iter arr' iter' : signal_loop arr iter = (arr', iter') -> (length iter' <= length iter)%nat.
Proof.
  revert arr. induction iter as [| w iter IH]; intros arr; cbn [signal_loop]; [by intros [= _ <-] |].
  destruct (is_word _ w); [intros [= _ <-]; simpl; lia |]. destruct (_ <? _)%nat; [intros [= _ <-]; simpl; lia |].
  intros H%IH. simpl. lia.
Qed.
Lemma signal_shorter iter k ret iter' ret' : signal iter k ret = Some (iter', ret') -> (length iter' <= length iter)%nat.
Proof.
  destruct iter as [| w iter]; [done |]. cbn [signal]. destruct (signal_loop [w] iter) as [arr it] eqn:E. intros [= <- _].
  apply signal_loop_shorter in E. simpl. lia.
Qed.
Lemma stat_step_shorter str iter ret iter' ret' : stat_step parse_f32 str iter ret = Some (iter', ret') -> (length iter' <= length iter)%nat.
Proof.
  unfold stat_step, with_next, rx_step, tx_step, number, yes.
  repeat match goal with
  | |- (if ?b then _ else _) = _ -> _ => destruct b
  | |- (match ?l with [] => _ | _ => _ end) = _ -> _ => destruct l as [| w it]; [done |]
  end; (intros H; first [apply next_shorter in H | apply signal_shorter in H | injection H as <- _]);
    try rewrite length_drop in H; cbn [length] in *; lia.
Qed.

(** Any fuel from the number of words on gives the same result. *)
Lemma stat_loop_fuel fuel iter ret : (length iter <= fuel)%nat -> stat_loop parse_f32 fuel iter ret = run_words iter ret.
Proof.
  unfold run_words. remember (length iter) as n eqn:Hn. revert fuel iter Hn ret. induction n as [n IH] using lt_wf_ind.
  intros fuel iter -> ret Hf. destruct iter as [| s iter]; [by destruct fuel |]. destruct fuel as [| fuel]; [simpl in Hf; lia |].
  cbn [length stat_loop] in *. destruct (stat_step parse_f32 s iter ret) as [[iter' ret'] |] eqn:E; [| done]. cbn [mbind option_bind].
  apply stat_step_shorter in E. rewrite (IH (length iter')) by (lia || done). symmetry. apply (IH (length iter')); [lia | done | lia].
Qed.
Lemma run_cons s iter ret : run_words (s :: iter) ret = ('(iter, ret) ← stat_step parse_f32 s iter ret; run_words iter ret).
Proof.
  unfold run_words at 1. cbn [length stat_loop]. destruct (stat_step parse_f32 s iter ret) as [[iter' ret'] |] eqn:E; [| done].
  cbn [mbind option_bind]. apply stat_loop_fuel. by apply stat_step_shorter in E.
Qed.

(** Words that start no branch. *)
Definition keys : list text := lit <$> ["inactive"; "rx"; "tx"; "signal:"; "avg:"; "airtime"; "authorized:"; "authenticated:"; "[boottime]:"; "at:";
  "associated:"; "preamble:"; "WMM/WME:"; "MFP:"; "peer:"; "period:"; "beacon"; "slot"; "connected"; "current"]%string.
Lemma is_word_not w s : lit w ∈ keys -> s ∉ keys -> is_word w s = false.
Proof. intros Hk Hs. unfold is_word, text_eqb. apply bool_decide_eq_false. intros ->. by apply Hs. Qed.
Lemma not_key s iter ret : s ∉ keys -> stat_step parse_f32 s iter ret = Some (iter, ret).
Proof. intros H. unfold stat_step. by rewrite !is_word_not by (done || by refine (bool_decide_eq_true_1 _ _)). Qed.

(** [reads frag f]: the words [frag] change the result by [f]. *)
Definition reads (frag : list text) (f : WifiStationData -> WifiStationData) : Prop :=
  forall rest ret, run_words (frag ++ rest) ret = run_words rest (f ret).
Lemma reads_nil : reads [] id.
Proof. done. Qed.
Lemma reads_app a b f g : reads a f -> reads b g -> reads (a ++ b) (fun r => g (f r)).
Proof. intros Ha Hb rest ret. by rewrite <- app_assoc, Ha, Hb. Qed.
Lemma reads_skip ws : Forall (fun w => w ∉ keys) ws -> reads ws id.
Proof.
  intros Hw rest ret. revert ret. induction Hw as [| w ws Hw _ IH]; intros ret; [done |]. cbn [app]. rewrite run_cons, not_key by done.
  cbn [mbind option_bind]. apply IH.
Qed.
Lemma reads_then ws f extra : reads ws f -> Forall (fun w => w ∉ keys) extra -> reads (ws ++ extra) f.
Proof. intros Hw He rest ret. rewrite <- app_assoc, Hw. by rewrite (reads_skip extra He). Qed.

(** A number that does not fit is read as 0. *)
Definition fitting (max n : Z) : Z := if n <=? max then n else 0.
Lemma parse_digits_mono max max' acc l v : max <= max' -> parse_digits 10 max acc l = Some v -> parse_digits 10 max' acc l = Some v.
Proof.
  intros Hm. revert acc. induction l as [| c l IH]; intros acc; cbn [parse_digits]; [done |]. destruct (digit 10 c) as [d |]; [| done].
  cbn [mbind option_bind]. destruct (Z.leb_spec (acc * 10 + d) max); [| done]. intros H'%IH. by rewrite (proj2 (Z.leb_le _ _)) by lia.
Qed.
Lemma parse_digits_max max acc l v : acc <= max -> parse_digits 10 max acc l = Some v -> v <= max.
Proof.
  revert acc. induction l as [| c l IH]; intros acc Ha; cbn [parse_digits]; [by intros [= <-] |]. destruct (digit 10 c) as [d |]; [| done].
  cbn [mbind option_bind]. destruct (Z.leb_spec (acc * 10 + d) max); [| done]. by apply IH.
Qed.
Lemma or_zero_shown max n : 0 <= max -> 0 <= n < 10 ^ 40 -> max < 10 ^ 40 -> or_zero max (show_uint n) = fitting max n.
Proof.
  intros Hm Hn Hm'. unfold or_zero, fitting. destruct (Z.leb_spec n max); [by rewrite parse_show_uint by lia |].
  destruct (parse_uint 10 max (show_uint n)) as [v |] eqn:E; [exfalso | done].
  pose proof (parse_show_uint n n ltac:(lia) ltac:(lia)) as Hs. revert E Hs. unfold parse_uint.
  destruct (show_uint n) as [| c l]; [done |]. destruct (if Ascii.eqb c "+" then l else c :: l) as [| c' l'] eqn:Eb; [done |].
  intros E Hs. pose proof (parse_digits_max _ _ _ _ Hm E). apply (parse_digits_mono max n) in E; [| lia]. rewrite E in Hs. injection Hs as ->. lia.
Qed.

(** What [iw] prints for a station: its lines, each with the change it makes. *)
Record report := {
  rp_name : text; rp_dev : text; rp_num : station_field -> Z; rp_is : station_flag -> bool;
  rp_signal : text * list text; rp_avg : text * list text; rp_tx : text * list text; rp_rx : text * list text; rp_preamble : text;
  rp_weight : option Z; rp_boot : option text; rp_at : option Z; rp_current : option Z }.
Abbreviation line := (list text * (WifiStationData -> WifiStationData))%type.
Definition number_line (d : report) (head : list string) (f : station_field) (unit : list string) : line :=
  ((lit <$> head) ++ show_uint (rp_num d f) :: (lit <$> unit), set_num f (fitting (station_max f) (rp_num d f))).
Definition flag_word (b : bool) : text := lit (if b then "yes" else "no").
Definition flag_line (d : report) (head : list string) (f : station_flag) : line := ((lit <$> head) ++ [flag_word (rp_is d f)], set_flag f (rp_is d f)).
Definition strength (s : text * list text) : text := concat (s.1 :: s.2 ++ [lit "dBm"]).
Definition option_line {A} (o : option A) (f : A -> line) : list line := match o with Some a => [f a] | None => [] end.
Definition report_lines (d : report) : list line := [
  ([lit "(on"; rp_dev d], id);
  number_line d ["inactive"; "time:"] InactiveTimeMs ["ms"];
  number_line d ["rx"; "bytes:"] RxBytes []; number_line d ["rx"; "packets:"] RxPackets [];
  number_line d ["tx"; "bytes:"] TxBytes []; number_line d ["tx"; "packets:"] TxPackets [];
  number_line d ["tx"; "retries:"] TxRetries []; number_line d ["tx"; "failed:"] TxFailed [];
  number_line d ["rx"; "drop"; "misc:"] RxDropMisc [];
  (lit "signal:" :: (rp_signal d).1 :: (rp_signal d).2 ++ [lit "dBm"], fun r => set_station_texts (strength (rp_signal d)) (signal_avg_dbm r) (preamble r) r);
  (lit "signal" :: lit "avg:" :: (rp_avg d).1 :: (rp_avg d).2 ++ [lit "dBm"], fun r => set_station_texts (signal_dbm r) (strength (rp_avg d)) (preamble r) r);
  (lit "tx" :: lit "bitrate:" :: (rp_tx d).1 :: (rp_tx d).2, fun r => set_rates (default 0 (parse_f32 (rp_tx d).1)) (rx_bitrate r) r);
  number_line d ["tx"; "duration:"] TxDurationUs ["us"];
  (lit "rx" :: lit "bitrate:" :: (rp_rx d).1 :: (rp_rx d).2, fun r => set_rates (tx_bitrate r) (default 0 (parse_f32 (rp_rx d).1)) r);
  number_line d ["rx"; "duration:"] RxDurationUs ["us"] ]
  ++ option_line (rp_weight d) (fun w => ([lit "airtime"; lit "weight:"; show_uint w],
       fun r => set_options (Some (fitting U16_MAX w)) (associated_at_boottime_sec r) (associated_at_ms r) (current_time_ms r) r)) ++ [
  flag_line d ["authorized:"] Authorized; flag_line d ["authenticated:"] Authenticated; flag_line d ["associated:"] Associated;
  ([lit "preamble:"; rp_preamble d], fun r => set_station_texts (signal_dbm r) (signal_avg_dbm r) (rp_preamble d) r);
  flag_line d ["WMM/WME:"] WmmWme; flag_line d ["MFP:"] Mfp; flag_line d ["TDLS"; "peer:"] TdlsPeer;
  number_line d ["DTIM"; "period:"] DtimPeriod [];
  ([lit "beacon"; lit "interval:" ++ show_uint (rp_num d BeaconInterval)], set_num BeaconInterval (fitting U16_MAX (rp_num d BeaconInterval)));
  ([lit "short"; lit "slot"; lit "time:" ++ flag_word (rp_is d ShortSlotTime)], set_flag ShortSlotTime (rp_is d ShortSlotTime));
  number_line d ["connected"; "time:"] ConnectedTimeSec ["seconds"] ]
  ++ option_line (rp_boot d) (fun b => ([lit "associated"; lit "at"; lit "[boottime]:"; b],
       fun r => set_options (airtime_weight r) (Some b) (associated_at_ms r) (current_time_ms r) r))
  ++ option_line (rp_at d) (fun t => ([lit "associated"; lit "at:"; show_uint t; lit "ms"],
       fun r => set_options (airtime_weight r) (associated_at_boottime_sec r) (Some (fitting U64_MAX t)) (current_time_ms r) r))
  ++ option_line (rp_current d) (fun t => ([lit "current"; lit "time:"; show_uint t; lit "ms"],
       fun r => set_options (airtime_weight r) (associated_at_boottime_sec r) (associated_at_ms r) (Some (fitting U64_MAX t)) r)).
Definition report_words (d : report) : list text := rp_name d :: concat (fst <$> report_lines d).

Definition no_key_words (ws : list text) : Prop := Forall (fun w => w ∉ keys) ws.
Definition strengths_ok (s : text * list text) : Prop := Forall (fun w => w <> lit "dBm") s.2 /\ (length s.2 <= 9)%nat.
Definition count_ok (n : Z) : Prop := 0 <= n < 10 ^ 40.
Definition report_ok (d : report) : Prop :=
  no_key_words [rp_dev d] /\ no_key_words (rp_tx d).2 /\ no_key_words (rp_rx d).2 /\ strengths_ok (rp_signal d) /\ strengths_ok (rp_avg d) /\
  (forall f, count_ok (rp_num d f)) /\ (forall w, rp_weight d = Some w \/ rp_at d = Some w \/ rp_current d = Some w -> count_ok w).

Lemma shown_reads (head : list text) n max (set : Z -> WifiStationData -> WifiStationData) : 0 <= max < 10 ^ 40 -> count_ok n ->
  (forall w iter ret, run_words (head ++ w :: iter) ret = run_words iter (set (or_zero max w) ret)) -> reads (head ++ [show_uint n]) (set (fitting max n)).
Proof. intros [Hm Hm'] Hn Hh rest ret. rewrite <- app_assoc. cbn [app]. by rewrite Hh, or_zero_shown. Qed.
Lemma number_line_reads d head f unit : count_ok (rp_num d f) -> no_key_words (lit <$> unit) ->
  (forall w iter ret, run_words ((lit <$> head) ++ w :: iter) ret = run_words iter (set_num f (or_zero (station_max f) w) ret)) ->
  reads (number_line d head f unit).1 (number_line d head f unit).2.
Proof.
  intros Hn Hu Hh. unfold number_line. cbn [fst snd]. rewrite cons_middle, app_assoc. apply reads_then; [| done].
  apply (shown_reads _ _ (station_max f) (set_num f)); [by destruct f | done..].
Qed.

Lemma flag_line_reads d head f :
  (forall w iter ret, run_words ((lit <$> head) ++ w :: iter) ret = run_words iter (set_flag f (is_word "yes" w) ret)) ->
  reads (flag_line d head f).1 (flag_line d head f).2.
Proof. intros Hh rest ret. unfold flag_line. cbn [fst snd]. rewrite <- app_assoc. cbn [app]. rewrite Hh. by destruct (rp_is d f). Qed.
Lemma signal_loop_reads arr more iter : Forall (fun w => w <> lit "dBm") more -> (length arr + length more <= 10)%nat ->
  signal_loop arr (more ++ lit "dBm" :: iter) = (arr ++ more ++ [lit "dBm"], iter).
Proof.
  intros Hm. revert arr. induction Hm as [| w more Hw _ IH]; intros arr Hl; cbn [app signal_loop]; [done |].
  unfold is_word at 1, text_eqb. rewrite bool_decide_eq_false_2 by done. cbn [length] in Hl.
  rewrite (proj2 (Nat.ltb_ge _ _)) by (rewrite length_app; simpl; lia).
  rewrite IH by (rewrite length_app; simpl; lia). by rewrite <- app_assoc.
Qed.
Lemma signal_reads (sig : text * list text) k iter ret : strengths_ok sig ->
  signal ((sig.1 :: sig.2 ++ [lit "dBm"]) ++ iter) k ret = Some (iter, k (strength sig) ret).
Proof.
  intros [Hs Hl]. cbn [app signal]. rewrite <- app_assoc. cbn [app]. by rewrite signal_loop_reads by (done || (simpl; lia)).
Qed.
Lemma replace_absent n (c : ascii) (from l : text) : c ∉ l -> (length l <= n)%nat -> replace_fuel n (c :: from) [] l = l.
Proof.
  revert n. induction l as [| x l IH]; intros n Hc Hn; [by destruct n |]. destruct n as [| n]; [simpl in Hn; lia |]. cbn [replace_fuel expect].
  rewrite (proj2 (Ascii.eqb_neq _ _)) by set_solver. rewrite IH; [done | set_solver | simpl in Hn; lia].
Qed.
Lemma interval_removed n : 0 <= n -> replace (lit "interval:") [] (lit "interval:" ++ show_uint n) = show_uint n.
Proof.
  intros Hn. change (replace_fuel (8 + length (show_uint n)) (lit "interval:") [] (show_uint n) = show_uint n).
  apply replace_absent; [by apply show_uint_plain | lia].
Qed.

Lemma run_skip s iter ret : s ∉ keys -> run_words (s :: iter) ret = run_words iter ret.
Proof. intros Hs. by rewrite run_cons, not_key. Qed.
Ltac no_key := by refine (bool_decide_eq_true_1 _ _).
Ltac no_keys := repeat constructor; no_key.
Ltac first_key := intros; cbn [fmap list_fmap app fst snd]; repeat rewrite run_skip by no_key; rewrite run_cons.
Lemma rate_reads (s : string) (rate : text * list text) k rest ret : no_key_words rate.2 ->
  (forall w iter ret, run_words (lit s :: lit "bitrate:" :: w :: iter) ret = run_words iter (k w ret)) ->
  run_words ((lit s :: lit "bitrate:" :: rate.1 :: rate.2) ++ rest) ret = run_words rest (k rate.1 ret).
Proof. intros Hp Hk. cbn [app]. rewrite Hk. apply (reads_skip rate.2 Hp). Qed.

Lemma strength_reads key (sig : text * list text) k : strengths_ok sig -> (forall it ret, stat_step parse_f32 (lit key) it ret = signal it k ret) ->
  reads (lit key :: sig.1 :: sig.2 ++ [lit "dBm"]) (k (strength sig)).
Proof. intros Hs Hk rest ret. cbn [app]. rewrite run_cons, Hk. pose proof (signal_reads sig k rest ret Hs) as E. cbn [app] in E. by rewrite E. Qed.

Lemma report_lines_read d : report_ok d -> Forall (fun l => reads l.1 l.2) (report_lines d).
Proof.
  intros (Hdev & Htx & Hrx & Hsig & Havg & Hnum & Hopt). unfold report_lines.
  rewrite !Forall_app. repeat match goal with |- _ /\ _ => split | |- Forall _ (_ :: _) => constructor | |- Forall _ [] => constructor end;
    first [apply number_line_reads; [apply Hnum | no_keys | first_key; reflexivity] | apply flag_line_reads; first_key; reflexivity | idtac].
  - apply (reads_skip [lit "(on"; rp_dev d]). apply Forall_cons in Hdev as [Hdev _]. constructor; [no_key | by constructor].
  - by apply (strength_reads "signal:" (rp_signal d) (fun s r => set_station_texts s (signal_avg_dbm r) (preamble r) r)).
  - intros rest ret. cbn [fst snd app]. rewrite run_skip by no_key.
    by apply (strength_reads "avg:" (rp_avg d) (fun s r => set_station_texts (signal_dbm r) s (preamble r) r)).
  - intros rest ret. apply (rate_reads "tx" (rp_tx d) (fun w r => set_rates (default 0 (parse_f32 w)) (rx_bitrate r) r)); [done |].
    first_key. reflexivity.
  - intros rest ret. apply (rate_reads "rx" (rp_rx d) (fun w r => set_rates (tx_bitrate r) (default 0 (parse_f32 w)) r)); [done |].
    first_key. reflexivity.
  - destruct (rp_weight d) as [w |] eqn:E; repeat constructor.
    apply (shown_reads [lit "airtime"; lit "weight:"] w U16_MAX
      (fun v r => set_options (Some v) (associated_at_boottime_sec r) (associated_at_ms r) (current_time_ms r) r));
      [done | apply Hopt; auto | first_key; reflexivity].
  - intros rest ret. first_key. reflexivity.
  - intros rest ret. first_key.
    change (run_words rest (set_num BeaconInterval (or_zero U16_MAX (replace (lit "interval:") [] (lit "interval:" ++ show_uint (rp_num d BeaconInterval)))) ret)
      = run_words rest (set_num BeaconInterval (fitting U16_MAX (rp_num d BeaconInterval)) ret)).
    rewrite interval_removed by apply Hnum. by rewrite or_zero_shown by (apply Hnum || done).
  - intros rest ret. first_key. by destruct (rp_is d ShortSlotTime).
  - destruct (rp_boot d); repeat constructor. intros rest ret. first_key. reflexivity.
  - destruct (rp_at d) as [t |] eqn:E; repeat constructor. apply (reads_then [lit "associated"; lit "at:"; show_uint t] _ [lit "ms"]); [| no_keys].
    apply (shown_reads [lit "associated"; lit "at:"] t U64_MAX
      (fun v r => set_options (airtime_weight r) (associated_at_boottime_sec r) (Some v) (current_time_ms r) r));
      [done | apply Hopt; auto | first_key; reflexivity].
  - destruct (rp_current d) as [t |] eqn:E; repeat constructor. apply (reads_then [lit "current"; lit "time:"; show_uint t] _ [lit "ms"]); [| no_keys].
    apply (shown_reads [lit "current"; lit "time:"] t U64_MAX
      (fun v r => set_options (airtime_weight r) (associated_at_boottime_sec r) (associated_at_ms r) (Some v) r));
      [done | apply Hopt; auto | first_key; reflexivity].
Qed.

Lemma reads_lines (ls : list line) : Forall (fun l => reads l.1 l.2) ls ->
  forall ret, run_words (concat (fst <$> ls)) ret = Some (foldl (fun r f => f r) ret (snd <$> ls)).
Proof.
  induction 1 as [| [w f] ls Hl _ IH]; intros ret; [done |]. cbn [fmap list_fmap concat fst snd foldl]. rewrite (Hl _ ret). apply IH.
Qed.

(** Everything [iw] prints of a station is read back, except that a number too large for
    its type is read as 0. *)
Theorem station_read_back d : report_ok d ->
  exists r, get_struct_stat parse_f32 (report_words d) = Some r /\ station r = rp_name d /\
    (forall f, station_num r f = fitting (station_max f) (rp_num d f)) /\ (forall f, station_is r f = rp_is d f) /\
    signal_dbm r = strength (rp_signal d) /\ signal_avg_dbm r = strength (rp_avg d) /\ preamble r = rp_preamble d /\
    tx_bitrate r = default 0 (parse_f32 (rp_tx d).1) /\ rx_bitrate r = default 0 (parse_f32 (rp_rx d).1) /\
    airtime_weight r = fitting U16_MAX <$> rp_weight d /\ associated_at_boottime_sec r = rp_boot d /\
    associated_at_ms r = fitting U64_MAX <$> rp_at d /\ current_time_ms r = fitting U64_MAX <$> rp_current d.
Proof.
  intros Hd. unfold get_struct_stat, report_words. eexists. split; [apply reads_lines, report_lines_read, Hd |].
  unfold report_lines. destruct (rp_weight d), (rp_boot d), (rp_at d), (rp_current d); repeat split; by intros [].
Qed.

Lemma split_at_block sep (b rest : list text) : sep ∉ b ->
  split_at sep (b ++ rest) = match split_at sep rest with h :: t => (b ++ h) :: t | [] => [b] end.
Proof.
  induction b as [| x b IH]; intros Hs; cbn [app]; [by destruct (split_at sep rest) eqn:E; [destruct rest as [| y r]; simpl in E; [| destruct (text_eqb _ _), (split_at sep r)] |] |].
  cbn [split_at]. unfold text_eqb. rewrite bool_decide_eq_false_2 by set_solver. rewrite IH by set_solver. by destruct (split_at sep rest).
Qed.
Lemma split_at_blocks sep (bs : list (list text)) : Forall (fun b => sep ∉ b) bs ->
  split_at sep (concat ((fun b => sep :: b) <$> bs)) = [] :: bs.
Proof.
  induction 1 as [| b bs Hb _ IH]; [done |]. rewrite fmap_cons. cbn [concat app split_at]. unfold text_eqb at 1.
  rewrite bool_decide_eq_true_2 by done. rewrite split_at_block by done. rewrite IH. by rewrite app_nil_r.
Qed.

(** A dump of any number of stations is read station by station. *)
Theorem stations_read_back ds out : words out = concat ((fun d => lit "Station" :: report_words d) <$> ds) ->
  Forall report_ok ds -> Forall (fun d => (lit "Station" ∉ report_words d) /\ rp_name d <> []) ds ->
  exists rs, extract_wifi_station_data parse_f32 out = Some rs /\
    Forall2 (fun d r => get_struct_stat parse_f32 (report_words d) = Some r) ds rs.
Proof.
  intros Hw Hok Hst. unfold extract_wifi_station_data. rewrite Hw.
  assert (E : concat ((fun d => lit "Station" :: report_words d) <$> ds) = concat ((fun b => lit "Station" :: b) <$> (report_words <$> ds)))
    by (by rewrite <- list_fmap_compose).
  rewrite E, split_at_blocks by (apply Forall_fmap; eapply Forall_impl; [exact Hst |]; by intros ? [? _]).
  assert (H : exists rs, mapM (get_struct_stat parse_f32) (report_words <$> ds) = Some rs /\
    Forall2 (fun d r => get_struct_stat parse_f32 (report_words d) = Some r) ds rs /\ Forall (fun r => station r <> []) rs).
  { clear Hw E. induction ds as [| d ds IH]; [by exists [] |]. apply Forall_cons in Hok as [Hd Hok], Hst as [[_ Hn] Hst].
    destruct (IH Hok Hst) as (rs & Hm & Hf & Hs). destruct (station_read_back d Hd) as (r & Hr & Hname & _).
    exists (r :: rs). cbn [fmap list_fmap]. split; [| split; constructor; [done.. | by rewrite Hname | done]].
    apply mapM_Some. constructor; [done |]. by apply mapM_Some. }
  destruct H as (rs & Hm & Hf & Hs). exists rs. split; [| done]. unfold gather. cbn [mapM mbind option_bind].
  rewrite Hm. change (Some (List.filter (fun r => bool_decide (station r <> [])) rs) = Some rs). f_equal.
  clear Hm Hf. induction Hs as [| r rs Hr _ IH]; [done |]. cbn [List.filter]. rewrite bool_decide_eq_true_2 by done. by rewrite IH.
Qed.
End stations.
End HardwareSpec.

Module LanSpec.
Import WifiInfo HardwareInfo LanDevices.

Section lan.
Context `{SH : Shell} `{MT : MacText}.

(** Every address of the table is filed under its device, and nothing else is. *)
Theorem consolidated t mac ip : ip ∈ default ∅ (consolidate_wlan_arp_table t !! mac) <-> (ip, mac) ∈ t.
Proof.
  unfold consolidate_wlan_arp_table. induction t as [| [ip' mac'] t IH] using rev_ind; [cbn; rewrite lookup_empty; set_solver |].
  rewrite foldl_app, elem_of_app, <- IH, list_elem_of_singleton. cbn [foldl]. destruct (decide (mac = mac')) as [-> | Hm].
  - rewrite lookup_insert_eq. cbn [default]. set_solver.
  - rewrite lookup_insert_ne by done. set_solver.
Qed.

Definition is_wireless (mac : Z) (d : WifiRadio) : bool := bool_decide (is_Some (station_of mac d)).

Lemma resolve_name_done ips mac h : exists h' name, resolve_name ips mac h = Done h' name.
Proof. unfold resolve_name, sh, ki_run. destruct (shell_answer _ _ _); eauto. Qed.
Lemma wireless_entries_done mac ips ds h : exists h' l, wireless_entries mac ips ds h = Done h' l /\
  length l = length (List.filter (is_wireless mac) ds) /\ Forall (fun e => ld_mac_addr e = mac /\ ld_ip_addr e = ips /\ wired e = false) l.
Proof.
  revert h. induction ds as [| d ds IH]; intros h; [by exists h, [] |]. cbn [wireless_entries List.filter]. unfold is_wireless at 1.
  destruct (station_of mac d) as [s |]; [| rewrite bool_decide_eq_false_2 by (by intros []); apply IH].
  rewrite bool_decide_eq_true_2 by eauto. destruct (resolve_name_done ips mac h) as (h1 & name & E1). destruct (IH h1) as (h2 & l & E2 & Hl & Hf).
  unfold bind. rewrite E1, E2. eexists h2, _. split; [reflexivity |]. cbn [length]. split; [by rewrite Hl | by constructor].
Qed.

(** Every device of the table is listed: once as wired when no radio knows it, and otherwise
    once for each radio that does. *)
Theorem devices_listed table hw h : exists h' l, generate_lan_device table hw h = Done h' l /\
  ld_mac_addr <$> l = flat_map (fun e => replicate (Nat.max 1 (length (List.filter (is_wireless e.1) (wifi_devices hw)))) e.1) table /\
  Forall (fun e => (ld_mac_addr e, ld_ip_addr e) ∈ table /\ wired e = negb (existsb (is_wireless (ld_mac_addr e)) (wifi_devices hw))) l.
Proof.
  revert h. induction table as [| [mac ips] table IH]; intros h; [by exists h, [] |]. cbn [generate_lan_device flat_map fst].
  assert (He : exists h1 found, entries_of (wifi_devices hw) mac ips h = Done h1 found /\
    length found = Nat.max 1 (length (List.filter (is_wireless mac) (wifi_devices hw))) /\
    Forall (fun e => ld_mac_addr e = mac /\ ld_ip_addr e = ips /\ wired e = negb (existsb (is_wireless mac) (wifi_devices hw))) found).
  { unfold entries_of, bind. destruct (wireless_entries_done mac ips (wifi_devices hw) h) as (h1 & l & -> & Hl & Hf).
    assert (Hx : existsb (is_wireless mac) (wifi_devices hw) = negb (length l =? 0)%nat).
    { rewrite Hl. clear Hl Hf IH. induction (wifi_devices hw) as [| d ds IHd]; [done |]. cbn [existsb List.filter].
      destruct (is_wireless mac d); [done | apply IHd]. }
    destruct l as [| e l].
    - destruct (resolve_name_done ips mac h1) as (h2 & name & ->). eexists h2, _. split; [reflexivity |]. cbn [length] in *. rewrite <- Hl, Hx.
      split; [done |]. by repeat constructor.
    - exists h1, (e :: l). split; [done |]. rewrite <- Hl, Hx. split; [cbn [length]; lia |]. eapply Forall_impl; [exact Hf |]. by intros ? (? & ? & ?). }
  destruct He as (h1 & found & E1 & Hl & Hf). destruct (IH h1) as (h2 & more & E2 & Hm & Hg). unfold bind. rewrite E1, E2.
  exists h2, (found ++ more). split; [done |]. rewrite fmap_app, Hm, <- Hl. split.
  - f_equal. clear -Hf. induction Hf as [| e found [He _] _ IH]; [done |]. cbn [length replicate fmap list_fmap]. by rewrite He, IH.
  - apply Forall_app. split; [eapply Forall_impl; [exact Hf |] | eapply Forall_impl; [exact Hg |]].
    + intros e (-> & -> & ->). split; [by left | done].
    + intros e [Hin ->]. split; [by right | done].
Qed.
End lan.

(** The check of a network: a build that checks for overflow panics at any two addresses of
    version 4, and a release build compares one bit of each octet of a /24 but the last, and
    that one as a whole. *)
Theorem subnet_check_panics `{P : Profile} a b mask : overflow_checks = true -> 0 <= mask <= 255 ->
  check_ip_in_subnet (V4 a) (V4 b) mask = None.
Proof.
  intros Ho Hm. cbn [check_ip_in_subnet].
  assert (H : forall x y l, masked_octets 0 (x :: y :: l) mask = None).
  2: { pose proof (octets_length 4 a) as Hl. destruct (octets 4 a) as [| x [| y l]]; [done..|]. by rewrite H. }
  intros x y l. cbn [masked_octets]. unfold native. rewrite Ho.
  destruct (Z.le_gt_cases 8 mask).
  - destruct (in_range 0 255 (mask - 0 * 8)); [| done]. cbn [mbind option_bind]. unfold apply_subnet_mask_to_ip_octet.
    rewrite (proj2 (Z.eqb_neq _ _)) by lia. replace (if 8 <? mask - 0 * 8 then 8 else mask - 0 * 8) with 8 by (destruct (Z.ltb_spec 8 (mask - 0 * 8)); lia).
    unfold shl_u8. by rewrite Ho.
  - destruct (in_range 0 255 (mask - 0 * 8)); [| done]. cbn [mbind option_bind]. destruct (apply_subnet_mask_to_ip_octet _ _); [| done].
    cbn [mbind option_bind]. replace (in_range 0 255 (mask - (0 + 1) * 8)) with false; [done |]. symmetry. unfold in_range.
    apply andb_false_iff. left. apply Z.leb_gt. lia.
Qed.
Theorem subnet_check_release a b x y z w x' y' z' w' : octets 4 a = [x; y; z; w] -> octets 4 b = [x'; y'; z'; w'] ->
  check_ip_in_subnet (P := release_profile) (V4 a) (V4 b) 24 =
  Some (bool_decide ([Z.land x 2; Z.land y 2; Z.land z 2; w] = [Z.land x' 2; Z.land y' 2; Z.land z' 2; w'])).
Proof. intros Ha Hb. cbn [check_ip_in_subnet]. by rewrite Ha, Hb. Qed.

(** A neighbour of the router with another last octet is taken for a stranger, and one far
    away with the same last octet and the same bits for a neighbour. *)
Example subnet_examples :
  check_ip_in_subnet (P := release_profile) (V4 0xc0a80a01) (V4 0xc0a80a02) 24 = Some false /\
  check_ip_in_subnet (P := release_profile) (V4 0x08080a01) (V4 0xc0a80a01) 24 = Some true.
Proof. vm_compute. done. Qed.
End LanSpec.

(** * Demonstrations *)

Module HardwareDemo.
Import WifiInfo HardwareInfo HardwareSpec.

(** The bit rates do not matter here. *)
Definition no_floats (_ : text) : option Z := None.
Definition demo_report : report := {|
  rp_name := lit "08:66:98:b6:bd:6d"; rp_dev := lit "wlan1)";
  rp_num := fun f => match f with InactiveTimeMs => 22430 | RxBytes => 718014 | BeaconInterval => 100 | ConnectedTimeSec => 70000 | _ => 7 end;
  rp_is := fun f => match f with Mfp | TdlsPeer => false | _ => true end;
  rp_signal := (lit "-63", lit <$> ["[-86,"; "-63,"; "-100,"; "-100]"]); rp_avg := (lit "-64", []);
  rp_tx := (lit "702.0", lit <$> ["MBit/s"; "VHT-MCS"; "8"; "80MHz"; "VHT-NSS"; "2"]); rp_rx := (lit "24.0", [lit "MBit/s"]);
  rp_preamble := lit "long"; rp_weight := Some 256; rp_boot := Some (lit "42.228s"); rp_at := Some 1645652326500; rp_current := Some 1645656582641 |}.
Lemma demo_report_ok : report_ok demo_report.
Proof.
  repeat split; try ((repeat constructor; by refine (bool_decide_eq_true_1 _ _)) || (repeat constructor; discriminate) || (simpl; lia)).
  - destruct f; cbn; lia.
  - destruct f; cbn; lia.
  - by destruct H as [[= <-] | [[= <-] | [= <-]]].
  - by destruct H as [[= <-] | [[= <-] | [= <-]]].
Qed.
(** A station that has been connected for more than 18 hours is reported with 0 seconds. *)
Lemma station_read_back_witness : exists r, get_struct_stat no_floats (report_words no_floats demo_report) = Some r /\ station_num r RxBytes = 718014 /\
  station_num r ConnectedTimeSec = 0.
Proof.
  destruct (station_read_back no_floats demo_report demo_report_ok) as (r & E & _ & Hn & _). exists r. split; [done |].
  by rewrite !Hn.
Defined.
(** The end of an older dump: the preamble is reported as the answer of another line. *)
Example old_preamble : exists r, get_struct_stat no_floats (lit <$> ["mac"; "preamble:"; "short"; "WMM/WME:"; "yes"; "short"; "preamble:"; "yes"]%string) = Some r /\
  preamble r = lit "yes".
Proof. eexists. vm_compute. done. Qed.
Example survey_example :
  option_map (List.map (fun s => (survey_num s FrequencyMhz, noise_dbm s, survey_num s ChannelBusyTime))) (extract_wifi_survey_data (text_lines
    ["Survey data from wlan0"; "    frequency:            2412 MHz"; "Survey data from wlan0"; "    frequency:            2462 MHz [in use]";
     "    noise:                -102 dBm"; "    channel active time:        4172127 ms"; "    channel busy time:        828107 ms";
     "    channel receive time:        1448 ms"; "    channel transmit time:        20225 ms"]) (lit "wlan0"))
  = Some [(2462, -102, 828107)].
Proof. vm_compute. reflexivity. Qed.
Example ten_megabit : get_ethernet_operation_mode 10 (lit "full") = FullDup10GBase.
Proof. reflexivity. Qed.
End HardwareDemo.
