(* ===== verification/Wireguard.v ===== *)
(** Wireguard and the two ends of the exit tunnel (althea_kernel_interface/src:
    setup_wg_if.rs, wg_iface_counter.rs, exit_client_tunnel.rs and
    exit_server_tunnel.rs; the text of a key is althea_types/src/wg_key.rs), then a
    machine with wireguard interfaces and one with a packet filter. *)
From S2P Require Import Prelude Types Text IpText Babel TrafficWatcher ExitDatabase ExitTraffic KernelShell KernelCounters IpRoute.
From S2P Require Import TrafficControl Uci KernelLinks.
Import KernelShell KernelCounters Uci KernelLinks Regex.

(** The base64 crate on the thirty-two bytes of a key, given as a number. *)
Class Base64 := { b64_encode : Z -> text; b64_decode : text -> option Z }.
Definition key_ok (k : Z) : Prop := 0 <= k < 2 ^ 256.
Definition key_char (c : ascii) : bool :=
  existsb (Ascii.eqb c) (lit "+/=") || match digit 36 c with Some _ => true | None => false end.
(** What is relied on: the text of a key has 44 characters of the alphabet and is
    decoded to the key. *)
Class Base64Laws `(B : Base64) : Prop := {
  b64_length k : key_ok k -> length (b64_encode k) = 44%nat;
  b64_chars k : key_ok k -> Forall (fun c => key_char c = true) (b64_encode k);
  b64_roundtrip k : key_ok k -> b64_decode (b64_encode k) = Some k;
}.
Lemma key_char_plain c : key_char c = true -> is_whitespace c = false.
Proof. destruct c as [[] [] [] [] [] [] [] []]; vm_compute; congruence. Qed.
Lemma b64_plain `{BL : Base64Laws} k : key_ok k -> Forall (fun c => is_whitespace c = false) (b64_encode k).
Proof. intros Hk. eapply Forall_impl; [by apply b64_chars|]. apply key_char_plain. Qed.

Module Wireguard.
Abbreviation KI A := (M (list Command) KernelInterfaceError A).
Definition bad_key : KernelInterfaceError := RuntimeError "Base64DecodeError".

Record ClientExitTunnelConfig := {
  ct_endpoint : SocketAddr;
  ct_pubkey : Z;
  ct_private_key_path : text;
  ct_listen_port : Z;
  ct_local_ip : IpAddr;
  ct_netmask : Z;
  ct_rita_hello_port : Z;
  ct_user_specified_speed : option Z;
}.

Section wireguard.
Context `{SH : Shell} `{FI : Files} `{B64 : Base64} `{P : Profile}.

Definition wg_key_from_str (s : text) : option Z := if (length s =? 44)%nat then b64_decode s else None.

(** ** setup_wg_if.rs *)

Definition get_peers (iface_name : text) : KI (list Z) :=
  let! output := ki_run (lit "wg") [lit "show"; iface_name; lit "peers"] in
  ret (omap wg_key_from_str (lines (out_stdout output))).
Definition create_blank_wg_interface (name : text) : KI unit :=
  let! output := ki_run (lit "ip") [lit "link"; lit "add"; name; lit "type"; lit "wireguard"] in
  let stderr := out_stderr output in
  if bool_decide (stderr <> []) then
    if contains (lit "exists") stderr then throw WgExists
    else throw (runtime_error (lit "received error adding wg link: ") stderr)
  else ret tt.

Definition tab : ascii := Ascii.ascii_of_nat 9.
(** [UNIX_EPOCH + Duration::from_secs(t)] as seconds; a panic beyond the range of
    the system time. *)
Definition from_epoch {S} (t : Z) : M S KernelInterfaceError Z := unwrap (if t <=? 9223372036854775807 then Some t else None).
(** [now] in nanoseconds; the count is a [u32], more than the number of lines. *)
Fixpoint count_online (now : Z) (ls : list text) (num : Z) : KI Z :=
  match ls with
  | [] => ret num
  | line :: ls =>
      let! timestamp := ok_or (split_on tab line !! 1%nat) (RuntimeError "Option did not contain a value.") in
      let! t := ok_or (parse_uint 10 U64_MAX timestamp) ParseIntFailure in
      let! d := from_epoch t in
      if now <? d * 1000000000 then throw (RuntimeError "SystemTimeError")
      else count_online now ls (if now - d * 1000000000 <? 600 * 1000000000 then num + 1 else num)
  end.
Definition get_wg_exit_clients_online (now : Z) (interface : text) : KI Z :=
  let! output := ki_run (lit "wg") [lit "show"; interface; lit "latest-handshakes"] in
  count_online now (lines (out_stdout output)) 0.
(** A line: the key and the seconds. *)
Definition handshake_line {S} (line : text) : M S KernelInterfaceError (Z * Z) :=
  let itr := split_on tab line in
  let! wg_key := ok_or (itr !! 0%nat) (RuntimeError "Invalid line!") in
  let! wg_key := ok_or (wg_key_from_str wg_key) bad_key in
  let! timestamp := ok_or (itr !! 1%nat) (RuntimeError "Invalid line!") in
  let! timestamp := ok_or (parse_uint 10 U64_MAX timestamp) ParseIntFailure in
  ret (wg_key, timestamp).
Fixpoint handshakes (active_only : bool) (ls : list text) (timestamps : list (Z * Z)) : KI (list (Z * Z)) :=
  match ls with
  | [] => ret timestamps
  | line :: ls =>
      let! (wg_key, timestamp) := handshake_line line in
      if active_only && (timestamp =? 0) then handshakes active_only ls timestamps
      else let! d := from_epoch timestamp in handshakes active_only ls (timestamps ++ [(wg_key, d)])
  end.
Definition handshake_times (active_only : bool) (ifname : text) : KI (list (Z * Z)) :=
  let! output := ki_run (lit "wg") [lit "show"; ifname; lit "latest-handshakes"] in
  handshakes active_only (lines (out_stdout output)) [].
Definition get_last_handshake_time : text -> KI (list (Z * Z)) := handshake_times false.
Definition get_last_active_handshake_time : text -> KI (list (Z * Z)) := handshake_times true.

(** ** wg_iface_counter.rs *)

Definition transfer_re : regex :=
  seqs [Group (plus key_char); chr tab; Group (plus dec); chr tab; Group (plus dec); Star (Ascii.eqb newline)].
Fixpoint transfer_items (items : list (list text)) (result : gmap Z WgUsage) : KI (gmap Z WgUsage) :=
  match items with
  | [] => ret result
  | item :: items =>
      let! up := ok_or (parse_uint 10 U64_MAX (default [] (item !! 2%nat))) ParseIntFailure in
      let! down := ok_or (parse_uint 10 U64_MAX (default [] (item !! 1%nat))) ParseIntFailure in
      transfer_items items
        (match wg_key_from_str (default [] (item !! 0%nat)) with
         | Some key => <[key := {| upload := up; download := down |}]> result
         | None => result
         end)
  end.
Definition read_wg_counters (wg_name : text) : KI (gmap Z WgUsage) :=
  let! output := ki_run (lit "wg") [lit "show"; wg_name; lit "transfer"] in
  if bool_decide (out_stderr output <> [])
  then throw (runtime_error (lit "received error from wg command: ") (out_stderr output))
  else transfer_items (captures_iter (length (out_stdout output)) transfer_re (out_stdout output)) ∅.

(** ** exit_client_tunnel.rs *)

(** Removing every peer that is not wanted. *)
Fixpoint remove_peers (if_name : text) (wanted : Z -> bool) (peers : list Z) : KI unit :=
  match peers with
  | [] => ret tt
  | i :: peers =>
      let! _ := (if negb (wanted i)
                 then let! _ := ki_run (lit "wg") [lit "set"; if_name; lit "peer"; b64_encode i; lit "remove"] in ret tt
                 else ret tt) in
      remove_peers if_name wanted peers
  end.
Definition wg_exit : text := lit "wg_exit".
Definition ip_address (action : string) (a : text) (interface : text) : KI unit :=
  let! _ := ki_run (lit "ip") [lit "address"; lit action; a; lit "dev"; interface] in ret tt.
Definition with_mask (ip : IpAddr) (netmask : Z) : text := show_ip ip ++ lit "/" ++ show_uint netmask.
Definition set_local_ip (args : ClientExitTunnelConfig) : KI unit := fun h =>
  let address := with_mask (ct_local_ip args) (ct_netmask args) in
  match get_global_device_ip_v4 wg_exit h with
  | Done h prev_ip =>
      (if bool_decide (V4 prev_ip <> ct_local_ip args) then
         let! _ := ip_address "delete" (with_mask (V4 prev_ip) (ct_netmask args)) wg_exit in
         ip_address "add" address wg_exit
       else ret tt) h
  | Fail h _ => ip_address "add" address wg_exit h
  | Panic => Panic
  end.
Definition set_link_local (local_mesh : option IpAddr) : KI unit := fun h =>
  match get_link_local_device_ip wg_exit h with
  | Done h _ => Done h tt
  | Fail h _ =>
      match local_mesh with
      | Some mesh =>
          (let! local := unwrap (to_wg_local mesh) in
           ignore_err (ip_address "add" (show_ip local ++ lit "/64") wg_exit)) h
      | None => Done h tt
      end
  | Panic => Panic
  end.
Definition set_client_exit_tunnel_config (args : ClientExitTunnelConfig) (local_mesh : option IpAddr) : KI unit :=
  let! _ := ki_run (lit "wg")
    [lit "set"; wg_exit; lit "listen-port"; show_uint (ct_listen_port args); lit "private-key"; ct_private_key_path args;
     lit "peer"; b64_encode (ct_pubkey args); lit "endpoint";
     lit "[" ++ show_ip (sock_ip (ct_endpoint args)) ++ lit "]:" ++ show_uint (sock_port (ct_endpoint args));
     lit "allowed-ips"; lit "0.0.0.0/0, ::/0"; lit "persistent-keepalive"; lit "5"] in
  let! peers := get_peers wg_exit in
  remove_peers wg_exit (fun i => i =? ct_pubkey args) peers;!
  set_local_ip args;!
  set_link_local local_mesh;!
  run_silent (lit "received error adding wg link: ") (lit "ip") (lit <$> ["link"; "set"; "dev"; "wg_exit"; "mtu"; "1340"]);!
  run_silent (lit "received error setting wg interface up: ") (lit "ip") (lit <$> ["link"; "set"; "dev"; "wg_exit"; "up"]);!
  ignore_err (TrafficControl.set_codel_shaping (lit "br-lan") (ct_user_specified_speed args)).

Definition set_route_to_tunnel (gateway : IpAddr) : KI unit :=
  ignore_err (sh "ip" ["route"; "del"; "default"]);!
  run_silent (lit "received error setting ip route: ") (lit "ip")
    [lit "route"; lit "add"; lit "default"; lit "via"; show_ip gateway; lit "dev"; wg_exit].
Definition set_ipv6_route_to_tunnel : KI unit :=
  ignore_err (sh "ip" ["-6"; "route"; "del"; "default"]);!
  run_silent (lit "received error setting ip -6 route: ") (lit "ip") (lit <$> ["-6"; "route"; "add"; "default"; "dev"; "wg_exit"]).

Definition clamp_rule : list text :=
  lit <$> ["-I"; "FORWARD"; "-p"; "tcp"; "--tcp-flags"; "SYN,RST"; "SYN"; "-j"; "TCPMSS"; "--clamp-mss-to-pmtu"].
Definition create_client_nat_rules : KI unit :=
  let! nft := does_nftables_exist in
  let use_iptables := negb nft in
  (if use_iptables then
     add_iptables_rule (lit "iptables") (lit <$> ["-t"; "nat"; "-A"; "POSTROUTING"; "-o"; "wg_exit"; "-j"; "MASQUERADE"]);!
     add_iptables_rule (lit "iptables") (lit <$> ["-A"; "zone_lan_forward"; "-j"; "ACCEPT"])
   else init_nat_chain wg_exit;! set_nft_lan_fwd_rule);!
  (if use_iptables then add_iptables_rule (lit "iptables") clamp_rule;! add_iptables_rule (lit "ip6tables") clamp_rule else ret tt).
Definition reject_rule (flag : string) : list text := lit <$> [flag; "zone_lan_forward"; "-j"; "REJECT"].
Definition block_client_nat : KI unit :=
  let! nft := does_nftables_exist in
  if negb nft then add_iptables_rule (lit "iptables") (reject_rule "-I") else insert_reject_rule.
Definition restore_client_nat : KI unit :=
  let! nft := does_nftables_exist in
  if negb nft then add_iptables_rule (lit "iptables") (reject_rule "-D") else delete_reject_rule.

(** ** exit_server_tunnel.rs *)

Definition client_allowed_ips (c : ExitClient) : text :=
  show_ip (ec_internal_ip c) ++ match ec_internet_ipv6 c with Some n => lit "," ++ TrafficControl.show_net n | None => [] end.
Definition client_endpoint (c : ExitClient) : text := lit "[" ++ show_ip (ec_mesh_ip c) ++ lit "]:" ++ show_uint (ec_port c).
Definition client_args (c : ExitClient) : list text :=
  [lit "peer"; b64_encode (ec_public_key c); lit "endpoint"; client_endpoint c; lit "allowed-ips"; client_allowed_ips c].
(** The clients in the order of the set. *)
Definition set_exit_wg_config (clients : list ExitClient) (listen_port : Z) (private_key_path if_name : text) : KI unit :=
  let args := [lit "set"; if_name; lit "listen-port"; show_uint listen_port; lit "private-key"; private_key_path]
              ++ concat (client_args <$> clients) in
  let client_pubkeys : gset Z := list_to_set (ec_public_key <$> clients) in
  let! _ := ki_run (lit "wg") args in
  let! wg_peers := get_peers if_name in
  remove_peers if_name (fun i => bool_decide (i ∈ client_pubkeys)) wg_peers.

(** Commands that must run. *)
Definition run_expect (program : text) (args : list text) : KI Output := run_unwrap program args.
Definition setup_individual_client_routes (client_internal_ip exit_internal_v4 : IpAddr) (interface : text) : KI unit :=
  let! output := run_expect (lit "ip") [lit "route"; lit "show"; show_ip client_internal_ip] in
  if negb (contains (interface ++ lit " ") (out_stdout output)) then
    let! _ := run_expect (lit "ip") [lit "route"; lit "del"; show_ip client_internal_ip] in
    let! _ := run_expect (lit "ip") [lit "route"; lit "add"; show_ip client_internal_ip; lit "dev"; interface; lit "src"; show_ip exit_internal_v4] in
    ret tt
  else ret tt.
Definition teardown_individual_client_routes (client_internal_ip : IpAddr) : KI unit :=
  let! output := run_expect (lit "ip") [lit "route"; lit "show"; show_ip client_internal_ip] in
  if bool_decide (out_stdout output <> [])
  then let! _ := run_expect (lit "ip") [lit "route"; lit "del"; show_ip client_internal_ip] in ret tt else ret tt.

Definition assert_ {S E} (b : bool) : M S E unit := if b then ret tt else panic.
Definition is_v4 (ip : IpAddr) : bool := match ip with V4 _ => true | V6 _ => false end.
Definition one_time_exit_setup (local_v4 external_v6 : option (IpAddr * Z)) (exit_mesh : IpAddr) (interface : text)
    (enable_enforcement : bool) : KI unit :=
  (match local_v4 with
   | Some (ip, netmask) => assert_ (is_v4 ip);! assert_ (netmask <? 32);! ip_address "add" (with_mask ip netmask) interface
   | None => ret tt
   end);!
  (match external_v6 with
   | Some (ip, netmask) => assert_ (negb (is_v4 ip));! assert_ (netmask <? 128);! ip_address "add" (with_mask ip netmask) interface
   | None => ret tt
   end);!
  let! local_link := unwrap (to_wg_local exit_mesh) in
  ip_address "add" (show_ip local_link ++ lit "/64") interface;!
  run_silent (lit "received error adding wg link: ") (lit "ip") [lit "link"; lit "set"; lit "dev"; interface; lit "mtu"; lit "1500"];!
  run_silent (lit "received error setting wg interface up: ") (lit "ip") [lit "link"; lit "set"; lit "dev"; interface; lit "up"];!
  let! limited := TrafficControl.has_limit interface in
  if negb limited && enable_enforcement then
    fun h => match TrafficControl.create_root_classful_limit interface h with Done h _ => Done h tt | _ => Panic end
  else ret tt.

Definition forward_rule (table_args : list string) (ends : list text) (rest : list string) : list text :=
  (lit <$> table_args) ++ ends ++ (lit <$> rest).
Definition setup_nat (external_interface interface : text) (external_v6 : option (IpAddr * Z)) : KI unit :=
  let! nft := does_nftables_exist in
  (if negb nft then
     add_iptables_rule (lit "iptables")
       (forward_rule ["-w"; "-t"; "nat"; "-A"; "POSTROUTING"; "-o"] [external_interface] ["-j"; "MASQUERADE"])
   else init_nat_chain external_interface);!
  let! nft := does_nftables_exist in
  if negb nft then
    add_iptables_rule (lit "iptables")
      (forward_rule ["-w"; "-t"; "filter"; "-A"; "FORWARD"; "-o"] [external_interface; lit "-i"; interface] ["-j"; "ACCEPT"]);!
    add_iptables_rule (lit "iptables")
      (forward_rule ["-w"; "-t"; "filter"; "-A"; "FORWARD"; "-o"] [interface; lit "-i"; external_interface]
         ["-m"; "state"; "--state"; "RELATED,ESTABLISHED"; "-j"; "ACCEPT"]);!
    add_iptables_rule (lit "ip6tables")
      (forward_rule ["-A"; "FORWARD"; "-i"] [interface; lit "-o"; external_interface] ["-j"; "ACCEPT"]);!
    match external_v6 with
    | Some (ip, netmask) =>
        add_iptables_rule (lit "ip6tables")
          (forward_rule ["-A"; "FORWARD"; "-d"] [with_mask ip netmask; lit "-i"; external_interface; lit "-o"; interface] ["-j"; "ACCEPT"])
    | None => ret tt
    end
  else insert_nft_exit_forward_rules interface external_interface ((fun n => with_mask n.1 n.2) <$> external_v6).
End wireguard.
End Wireguard.

(** * A machine with wireguard interfaces

    Every interface has peers under the text of their key. *)
Record wg_peer := { peer_endpoint : text; peer_allowed : text }.
Abbreviation Peers := (gmap text wg_peer).
Abbreviation wg_machine := (gmap text Peers).

Module WgMachine.
Import Wireguard.

Definition new_peer : wg_peer := {| peer_endpoint := []; peer_allowed := [] |}.
(** The arguments of [wg set] come in pairs, those behind a peer are its own.  The
    machine carries out every command it is given, and [peer_allowed] is what was
    last asked for: that an address belongs to one peer at a time, so that a later
    peer takes it from an earlier one, is not part of it. *)
Fixpoint wg_set (args : list text) (current : option text) (peers : Peers) : Peers :=
  match args with
  | attribute :: value :: args =>
      if text_eqb attribute (lit "peer") then wg_set args (Some value) (<[value := default new_peer (peers !! value)]> peers)
      else
        wg_set args current
          (match current with
           | Some k =>
               let p := default new_peer (peers !! k) in
               if text_eqb attribute (lit "endpoint") then <[k := {| peer_endpoint := value; peer_allowed := peer_allowed p |}]> peers
               else if text_eqb attribute (lit "allowed-ips") then <[k := {| peer_endpoint := peer_endpoint p; peer_allowed := value |}]> peers
               else peers
           | None => peers
           end)
  | [attribute] =>
      match current with Some k => if text_eqb attribute (lit "remove") then delete k peers else peers | None => peers end
  | [] => peers
  end.
Definition peers_of (m : wg_machine) (if_name : text) : Peers := default ∅ (m !! if_name).
Definition wg_exec (m : wg_machine) (c : Command) : wg_machine :=
  match c.2 with
  | op :: if_name :: args =>
      if text_eqb c.1 (lit "wg") && text_eqb op (lit "set")
      then <[if_name := wg_set args None (peers_of m if_name)]> m else m
  | _ => m
  end.
Definition shown (keys : list text) : text := join newline keys.
Definition wg_out (m : wg_machine) (c : Command) : text :=
  match c.2 with
  | [op; if_name; what] =>
      if text_eqb c.1 (lit "wg") && text_eqb op (lit "show") && text_eqb what (lit "peers")
      then shown (map_to_list (peers_of m if_name)).*1 else []
  | _ => []
  end.

Section machine.
Context (m0 : wg_machine).
Definition wg_at (h : list Command) : wg_machine := foldl wg_exec m0 h.
Definition wg_shell : Shell := {|
  shell_answer h program args :=
    Some {| out_success := true; out_stdout := wg_out (wg_at h) (program, args); out_stderr := [] |} |}.
#[local] Existing Instance wg_shell.
Context `{FI : Files} `{B64 : Base64} `{BL : !Base64Laws B64}.

Lemma wg_at_snoc h c : wg_at (h ++ [c]) = wg_exec (wg_at h) c.
Proof. unfold wg_at. by rewrite foldl_app. Qed.
Lemma peers_insert m i p j : peers_of (<[i := p]> m) j = if decide (i = j) then p else peers_of m j.
Proof. unfold peers_of. destruct (decide (i = j)) as [->|]; [by rewrite lookup_insert_eq|by rewrite lookup_insert_ne]. Qed.

(** Interfaces whose peers have valid keys. *)
Definition keys_valid (p : Peers) : Prop := forall t, is_Some (p !! t) -> exists k, key_ok k /\ t = b64_encode k.

Lemma encode_inj k k' : key_ok k -> key_ok k' -> b64_encode k = b64_encode k' -> k = k'.
Proof. intros Hk Hk' E. apply (f_equal b64_decode) in E. rewrite !b64_roundtrip in E by done. congruence. Qed.
Lemma encode_line k : key_ok k -> b64_encode k <> [] /\ (newline ∉ b64_encode k) /\ cr ∉ b64_encode k.
Proof.
  intros Hk. pose proof (b64_length k Hk) as Hl. pose proof (b64_plain k Hk) as Hp. rewrite Forall_forall in Hp.
  split; [by destruct (b64_encode k)|]. split; intros Hin; by specialize (Hp _ Hin).
Qed.
Lemma encode_from_str k : key_ok k -> wg_key_from_str (b64_encode k) = Some k.
Proof. intros Hk. unfold wg_key_from_str. by rewrite b64_length, Nat.eqb_refl, b64_roundtrip. Qed.

(** The peers that are read are those of the interface. *)
Lemma get_peers_exact if_name h :
  keys_valid (peers_of (wg_at h) if_name) ->
  exists ks, get_peers if_name h = Done (h ++ [(lit "wg", [lit "show"; if_name; lit "peers"])]) ks
    /\ Forall key_ok ks /\ forall t, is_Some (peers_of (wg_at h) if_name !! t) <-> exists k, k ∈ ks /\ t = b64_encode k.
Proof.
  intros Hv. set (p := peers_of (wg_at h) if_name) in *.
  assert (Hl : exists ks, (map_to_list p).*1 = b64_encode <$> ks /\ Forall key_ok ks).
  { assert (Ha : forall t, t ∈ (map_to_list p).*1 -> exists k, key_ok k /\ t = b64_encode k).
    { intros t ([t' q] & -> & Hin)%list_elem_of_fmap. apply elem_of_map_to_list in Hin. by apply Hv; eexists. }
    induction (map_to_list p).*1 as [|t l IH]; [by exists []|].
    destruct (Ha t) as (k & Hk & ->); [by left|]. destruct IH as (ks & -> & Hks); [intros; apply Ha; by right|].
    exists (k :: ks). by split; [|constructor]. }
  destruct Hl as (ks & Hks & Hok). exists ks. split_and!; [|done|].
  - unfold get_peers, bind, ki_run. cbn [shell_answer wg_shell out_stdout].
    change (wg_out (wg_at h) (lit "wg", [lit "show"; if_name; lit "peers"])) with (shown (map_to_list p).*1).
    unfold shown. rewrite Hks, lines_join.
    2: { apply Forall_fmap. eapply Forall_impl; [exact Hok|]. intros k Hk. by apply encode_line. }
    unfold ret. f_equal. clear Hks. induction Hok as [|k ks Hk _ IH]; [done|]. cbn [fmap list_fmap omap list_omap].
    by rewrite encode_from_str, IH.
  - intros t. assert (Ht : is_Some (p !! t) <-> t ∈ (map_to_list p).*1).
    { split.
      - intros [q Hq]. apply list_elem_of_fmap. exists (t, q). split; [done|]. by apply elem_of_map_to_list.
      - intros ([t' q] & -> & Hin)%list_elem_of_fmap. apply elem_of_map_to_list in Hin. by eexists. }
    rewrite Ht, Hks, list_elem_of_fmap. naive_solver.
Qed.

(** Removing what is not wanted leaves the wanted peers of the interface as they
    are and touches no other interface. *)
Lemma wg_exec_remove m if_name k :
  wg_exec m (lit "wg", [lit "set"; if_name; lit "peer"; k; lit "remove"]) = <[if_name := delete k (peers_of m if_name)]> m.
Proof.
  change (wg_exec m (lit "wg", [lit "set"; if_name; lit "peer"; k; lit "remove"]))
    with (<[if_name := delete k (<[k := default new_peer (peers_of m if_name !! k)]> (peers_of m if_name))]> m).
  by rewrite delete_insert_eq.
Qed.
Lemma remove_peers_exact if_name wanted ks h :
  exists h', remove_peers if_name wanted ks h = Done h' tt
    /\ (forall t, peers_of (wg_at h') if_name !! t
        = if decide (t ∈ b64_encode <$> filter (fun k => wanted k = false) ks) then None else peers_of (wg_at h) if_name !! t)
    /\ forall j, j <> if_name -> peers_of (wg_at h') j = peers_of (wg_at h) j.
Proof.
  revert h. induction ks as [|k ks IH]; intros h.
  - exists h. split_and!; [done| |done]. intros t. by rewrite decide_False by (by apply not_elem_of_nil).
  - cbn [remove_peers]. rewrite filter_cons. destruct (wanted k) eqn:Hw; cbn [negb].
    + unfold bind. cbn [ret]. rewrite decide_False by done. apply IH.
    + set (h1 := h ++ [(lit "wg", [lit "set"; if_name; lit "peer"; b64_encode k; lit "remove"])]).
      assert (H1 : wg_at h1 = <[if_name := delete (b64_encode k) (peers_of (wg_at h) if_name)]> (wg_at h)).
      { unfold h1. by rewrite wg_at_snoc, wg_exec_remove. }
      destruct (IH h1) as (h' & Hr & Ht & Hj). exists h'. split_and!; [exact Hr| |].
      * intros t. rewrite Ht, H1, peers_insert, !(decide_True (P := _ = _) _ _ eq_refl). cbn [fmap list_fmap].
        destruct (decide (t = b64_encode k)) as [->|Hne].
        -- rewrite lookup_delete_eq, (decide_True _ _ (list_elem_of_here _ _)). by destruct (decide _).
        -- rewrite lookup_delete_ne by done. apply decide_ext. rewrite elem_of_cons. naive_solver.
      * intros j Hne. rewrite Hj, H1, peers_insert, decide_False by done. done.
Qed.

(** ** The exit *)

Definition peer_of (c : ExitClient) : wg_peer := {| peer_endpoint := client_endpoint c; peer_allowed := client_allowed_ips c |}.
Definition key_of (c : ExitClient) : text := b64_encode (ec_public_key c).
Definition with_clients (p : Peers) (clients : list ExitClient) : Peers := foldl (fun p c => <[key_of c := peer_of c]> p) p clients.
Lemma wg_set_client c rest cur p : wg_set (client_args c ++ rest) cur p = wg_set rest (Some (key_of c)) (<[key_of c := peer_of c]> p).
Proof.
  unfold key_of, peer_of. set (k := b64_encode _).
  change (wg_set (client_args c ++ rest) cur p) with
    (let p1 := <[k := default new_peer (p !! k)]> p in
     let p2 := <[k := {| peer_endpoint := client_endpoint c; peer_allowed := peer_allowed (default new_peer (p1 !! k)) |}]> p1 in
     wg_set rest (Some k) (<[k := {| peer_endpoint := peer_endpoint (default new_peer (p2 !! k)); peer_allowed := client_allowed_ips c |}]> p2)).
  cbv zeta. by rewrite lookup_insert_eq, !insert_insert_eq.
Qed.
Lemma wg_set_clients clients cur p :
  wg_set (concat (client_args <$> clients)) cur p = with_clients p clients.
Proof.
  revert cur p. induction clients as [|c clients IH]; intros cur p; [done|]. unfold with_clients in *. cbn [fmap list_fmap concat foldl].
  by rewrite wg_set_client, IH.
Qed.
Lemma clients_some clients p t :
  is_Some (with_clients p clients !! t) <-> (exists c, c ∈ clients /\ t = key_of c) \/ is_Some (p !! t).
Proof.
  revert p. induction clients as [|c clients IH]; intros p; unfold with_clients in *; cbn [foldl]; [set_solver|].
  rewrite IH, lookup_insert_is_Some'. set_solver.
Qed.
Lemma clients_lookup clients p c :
  c ∈ clients -> (forall c', c' ∈ clients -> key_of c' = key_of c -> c' = c) ->
  with_clients p clients !! key_of c = Some (peer_of c).
Proof.
  induction clients as [|c0 clients IH] using rev_ind; [set_solver|]. intros Hc Hu. unfold with_clients in *. rewrite foldl_app. cbn [foldl].
  destruct (decide (key_of c0 = key_of c)) as [He|Hne].
  - rewrite (Hu c0) by (done || set_solver). apply lookup_insert_eq.
  - rewrite lookup_insert_ne by done. apply IH; [|intros; apply Hu; set_solver]. apply elem_of_app in Hc as [|Hc]; [done|]. set_solver.
Qed.

Lemma exit_wg_args m clients port path if_name :
  wg_exec m (lit "wg", [lit "set"; if_name; lit "listen-port"; show_uint port; lit "private-key"; path] ++ concat (client_args <$> clients))
  = <[if_name := with_clients (peers_of m if_name) clients]> m.
Proof. rewrite <- (wg_set_clients clients None). reflexivity. Qed.

(** C35 The tunnel of an exit has exactly the clients it is configured with as peers:
    everybody else who was one is removed, and a client is given the endpoint and
    the addresses of its entry; the other interfaces are not touched.  The
    machine carries out every command, and a peer keeps the addresses it was last
    given: WireGuard taking an address that two clients share from the earlier one
    is not modelled. *)
Theorem exit_peers_exact clients port path if_name h :
  Forall (fun c => key_ok (ec_public_key c)) clients ->
  keys_valid (peers_of (wg_at h) if_name) ->
  exists h', set_exit_wg_config clients port path if_name h = Done h' tt
    /\ (forall t, is_Some (peers_of (wg_at h') if_name !! t) <-> exists c, c ∈ clients /\ t = key_of c)
    /\ (forall c, c ∈ clients -> (forall c', c' ∈ clients -> ec_public_key c' = ec_public_key c -> c' = c) ->
          peers_of (wg_at h') if_name !! key_of c = Some (peer_of c))
    /\ forall j, j <> if_name -> peers_of (wg_at h') j = peers_of (wg_at h) j.
Proof.
  intros Hok Hv. rewrite Forall_forall in Hok. unfold set_exit_wg_config. set (args := _ ++ concat _). unfold bind at 1, ki_run. cbn [shell_answer wg_shell].
  set (h1 := h ++ [(lit "wg", args)]).
  assert (H1 : wg_at h1 = <[if_name := with_clients (peers_of (wg_at h) if_name) clients]> (wg_at h))
    by (unfold h1; rewrite wg_at_snoc; apply exit_wg_args).
  assert (Hp1 : peers_of (wg_at h1) if_name = with_clients (peers_of (wg_at h) if_name) clients)
    by (by rewrite H1, peers_insert, decide_True).
  destruct (get_peers_exact if_name h1) as (ks & Hg & Hks & Hin).
  { rewrite Hp1. intros t [(c & Hc & ->)|Ht]%clients_some; [|by apply Hv]. exists (ec_public_key c). split; [by apply Hok|done]. }
  unfold bind. rewrite Hg. set (h2 := h1 ++ [_]) in *. assert (H2 : wg_at h2 = wg_at h1) by (unfold h2; by rewrite wg_at_snoc).
  set (wanted := fun i => bool_decide _).
  destruct (remove_peers_exact if_name wanted ks h2) as (h' & Hr & Ht & Hj). exists h'.
  assert (Hkeep : forall c, c ∈ clients -> (key_of c ∉ b64_encode <$> filter (fun k => wanted k = false) ks)).
  { intros c Hc (k & He & [Hw Hk]%list_elem_of_filter)%list_elem_of_fmap. rewrite Forall_forall in Hks.
    apply encode_inj in He; [|by apply Hok|by apply Hks]. subst k. unfold wanted in Hw. apply bool_decide_eq_false in Hw.
    apply Hw, elem_of_list_to_set, list_elem_of_fmap. by exists c. }
  split_and!; [exact Hr| | |].
  - intros t. rewrite Ht, H2. split.
    + intros Hs. case_decide as Hd; [by destruct Hs|]. destruct (proj1 (Hin t) Hs) as (k & Hk & ->).
      destruct (decide (wanted k = true)) as [Hw|Hw].
      * apply bool_decide_eq_true, elem_of_list_to_set, list_elem_of_fmap in Hw as (c & -> & Hc). by exists c.
      * exfalso. apply Hd, list_elem_of_fmap. exists k. split; [done|]. apply list_elem_of_filter. by apply not_true_is_false in Hw.
    + intros (c & Hc & ->). rewrite decide_False by (by apply Hkeep). rewrite Hp1. apply clients_some. left. by exists c.
  - intros c Hc Hu. rewrite Ht, H2, decide_False by (by apply Hkeep). rewrite Hp1. apply clients_lookup; [done|].
    intros c' Hc' He. apply Hu; [done|]. apply encode_inj in He; [done|by apply Hok|by apply Hok].
  - intros j Hne. rewrite Hj, H2, H1, peers_insert, decide_False by done. done.
Qed.

(** ** The client *)

(** Steps that return and leave the wireguard interfaces alone. *)
Definition quiet {A} (m : KI A) : Prop := forall h, exists h' a, m h = Done h' a /\ wg_at h' = wg_at h.
(** The same, with an error allowed. *)
Definition quiet_try {A} (m : KI A) : Prop :=
  forall h, match m h with Done h' _ | Fail h' _ => wg_at h' = wg_at h | Panic => False end.

Lemma quiet_ret {A} (a : A) : quiet (ret a).
Proof. intros h. by exists h, a. Qed.
Lemma quiet_bind {A B} (m : KI A) (k : A -> KI B) : quiet m -> (forall a, quiet (k a)) -> quiet (bind m k).
Proof.
  intros Hm Hk h. destruct (Hm h) as (h1 & a & E & H1). destruct (Hk a h1) as (h2 & b & E2 & H2).
  exists h2, b. unfold bind. by rewrite E, E2, H2, H1.
Qed.
Lemma quiet_run p args : text_eqb p (lit "wg") = false -> quiet (ki_run p args).
Proof.
  intros Hp h. do 2 eexists. split; [reflexivity|]. rewrite wg_at_snoc. unfold wg_exec. cbn [fst snd]. rewrite Hp.
  by destruct args as [|? [|? ?]].
Qed.
Lemma quiet_silent message p args : text_eqb p (lit "wg") = false -> quiet (run_silent message p args).
Proof.
  intros Hp h. destruct (quiet_run p args Hp h) as (h' & o & E & Hw). exists h', tt. split; [|done].
  unfold run_silent, bind. rewrite E. injection E as _ <-. cbn [out_stderr]. by rewrite bool_decide_eq_false_2 by (intros []; done).
Qed.
Lemma quiet_address action a interface : quiet (ip_address action a interface).
Proof. apply quiet_bind; [by apply quiet_run|]. intros _. apply quiet_ret. Qed.
Lemma try_quiet {A} (m : KI A) : quiet m -> quiet_try m.
Proof. intros Hm h. by destruct (Hm h) as (h' & a & -> & ?). Qed.
Lemma try_throw {A} e : quiet_try (throw e : KI A).
Proof. by intros h. Qed.
Lemma try_bind {A B} (m : KI A) (k : A -> KI B) : quiet_try m -> (forall a, quiet_try (k a)) -> quiet_try (bind m k).
Proof.
  intros Hm Hk h. specialize (Hm h). unfold bind. destruct (m h) as [h1 a|h1 e|]; [|done|done].
  specialize (Hk a h1). rewrite Hm in Hk. exact Hk.
Qed.
Lemma try_run p args : text_eqb p (lit "wg") = false -> quiet_try (ki_run p args).
Proof. intros Hp. by apply try_quiet, quiet_run. Qed.
Lemma quiet_ignore {A} (m : KI A) : quiet_try m -> quiet (ignore_err m).
Proof. intros Hm h. specialize (Hm h). unfold ignore_err. destruct (m h) as [h1 a|h1 e|]; [by exists h1, tt|by exists h1, tt|done]. Qed.
Lemma try_ok_or {A} (o : option A) e : quiet_try (ok_or o e : KI A).
Proof. intros h. by destruct o. Qed.
Ltac quiet_step :=
  lazymatch goal with
  | |- forall _ : _, _ => intro
  | |- quiet_try (bind _ _) => apply try_bind
  | |- quiet_try (ki_run _ _) => by apply try_run
  | |- quiet_try (throw _) => apply try_throw
  | |- quiet_try (ok_or _ _) => apply try_ok_or
  | |- quiet_try (ret _) => apply try_quiet, quiet_ret
  | |- quiet_try _ => case_match
  end.

Lemma quiet_shaping iface speed : quiet (ignore_err (TrafficControl.set_codel_shaping iface speed)).
Proof. apply quiet_ignore. unfold TrafficControl.set_codel_shaping, TrafficControl.has_qdisc, TrafficControl.tc_checked, TrafficControl.tc. repeat quiet_step. Qed.
Lemma try_global dev : quiet_try (get_global_device_ip_v4 dev).
Proof. unfold get_global_device_ip_v4. repeat quiet_step. Qed.
Lemma quiet_local_ip args : quiet (set_local_ip args).
Proof.
  intros h. unfold set_local_ip. pose proof (try_global wg_exit h) as Hg. destruct (get_global_device_ip_v4 wg_exit h) as [h1 a|h1 e|]; [| |done].
  - rewrite <- Hg. case_bool_decide; [|apply quiet_ret]. apply quiet_bind; intros; apply quiet_address.
  - rewrite <- Hg. apply quiet_address.
Qed.
Definition mesh_ok (mesh : option IpAddr) : Prop := match mesh with Some ip => is_Some (to_wg_local ip) | None => True end.
Lemma quiet_link_local mesh : mesh_ok mesh -> quiet (set_link_local mesh).
Proof.
  intros Hm h. unfold set_link_local, get_link_local_device_ip, device_ip, read_lines, bind.
  destruct (file_lines h _) as [ls|]; cbn [throw ret].
  1: destruct (get_link_local_device_ip_internal ls wg_exit true); cbn [throw ret]; [|by do 2 eexists].
  all: destruct mesh as [mesh|]; [|by do 2 eexists]; destruct Hm as [local Hm]; rewrite Hm; cbn [unwrap ret].
  all: apply quiet_ignore, try_quiet, quiet_address.
Qed.

Definition exit_peer (args : ClientExitTunnelConfig) : wg_peer :=
  {| peer_endpoint := lit "[" ++ show_ip (sock_ip (ct_endpoint args)) ++ lit "]:" ++ show_uint (sock_port (ct_endpoint args));
     peer_allowed := lit "0.0.0.0/0, ::/0" |}.
Lemma client_wg_args m args :
  wg_exec m (lit "wg",
    [lit "set"; wg_exit; lit "listen-port"; show_uint (ct_listen_port args); lit "private-key"; ct_private_key_path args;
     lit "peer"; b64_encode (ct_pubkey args); lit "endpoint"; peer_endpoint (exit_peer args);
     lit "allowed-ips"; peer_allowed (exit_peer args); lit "persistent-keepalive"; lit "5"])
  = <[wg_exit := <[b64_encode (ct_pubkey args) := exit_peer args]> (peers_of m wg_exit)]> m.
Proof.
  set (k := b64_encode _). set (p := peers_of m wg_exit).
  change (wg_exec m _) with
    (let p1 := <[k := default new_peer (p !! k)]> p in
     let p2 := <[k := {| peer_endpoint := peer_endpoint (exit_peer args); peer_allowed := peer_allowed (default new_peer (p1 !! k)) |}]> p1 in
     <[wg_exit := <[k := {| peer_endpoint := peer_endpoint (default new_peer (p2 !! k)); peer_allowed := peer_allowed (exit_peer args) |}]> p2]> m).
  cbv zeta. by rewrite lookup_insert_eq, !insert_insert_eq.
Qed.

(** The client's tunnel leads to one exit: whatever peers it had, after it is
    configured the exit is the only one, with the exit's endpoint and every address
    allowed; the other interfaces are not touched. *)
Theorem client_single_exit args mesh h :
  key_ok (ct_pubkey args) -> mesh_ok mesh -> keys_valid (peers_of (wg_at h) wg_exit) ->
  exists h', set_client_exit_tunnel_config args mesh h = Done h' tt
    /\ peers_of (wg_at h') wg_exit = {[ b64_encode (ct_pubkey args) := exit_peer args ]}
    /\ forall j, j <> wg_exit -> peers_of (wg_at h') j = peers_of (wg_at h) j.
Proof.
  intros Hk Hmesh Hv. unfold set_client_exit_tunnel_config. unfold bind at 1, ki_run. cbn [shell_answer wg_shell].
  set (h1 := h ++ [_]). set (k := b64_encode (ct_pubkey args)) in *.
  assert (H1 : wg_at h1 = <[wg_exit := <[k := exit_peer args]> (peers_of (wg_at h) wg_exit)]> (wg_at h))
    by (unfold h1; rewrite wg_at_snoc; apply client_wg_args).
  assert (Hp1 : peers_of (wg_at h1) wg_exit = <[k := exit_peer args]> (peers_of (wg_at h) wg_exit)) by (by rewrite H1, peers_insert, decide_True).
  destruct (get_peers_exact wg_exit h1) as (ks & Hg & Hks & Hin).
  { rewrite Hp1. intros t [<-|Ht]%lookup_insert_is_Some'; [by exists (ct_pubkey args)|by apply Hv]. }
  unfold bind at 1. rewrite Hg. set (h2 := h1 ++ [_]) in *. assert (H2 : wg_at h2 = wg_at h1) by (unfold h2; by rewrite wg_at_snoc).
  destruct (remove_peers_exact wg_exit (fun i => i =? ct_pubkey args) ks h2) as (h3 & Hr & Ht & Hj).
  unfold bind at 1. rewrite Hr.
  assert (Hq : quiet (set_local_ip args;! set_link_local mesh;!
    run_silent (lit "received error adding wg link: ") (lit "ip") (lit <$> ["link"; "set"; "dev"; "wg_exit"; "mtu"; "1340"]);!
    run_silent (lit "received error setting wg interface up: ") (lit "ip") (lit <$> ["link"; "set"; "dev"; "wg_exit"; "up"]);!
    ignore_err (TrafficControl.set_codel_shaping (lit "br-lan") (ct_user_specified_speed args)))).
  { apply quiet_bind; [apply quiet_local_ip|intros _]. apply quiet_bind; [by apply quiet_link_local|intros _].
    apply quiet_bind; [by apply quiet_silent|intros _]. apply quiet_bind; [by apply quiet_silent|intros _]. apply quiet_shaping. }
  destruct (Hq h3) as (h' & [] & Hrun & Hw). exists h'. split; [exact Hrun|]. rewrite Hw. split.
  - apply map_eq. intros t. rewrite Ht, H2, Hp1. rewrite Forall_forall in Hks.
    destruct (decide (t = k)) as [->|Hne].
    + rewrite lookup_singleton_eq, lookup_insert_eq. rewrite decide_False; [done|].
      intros (i & He & [Hi Hin']%list_elem_of_filter)%list_elem_of_fmap.
      apply encode_inj in He; [|done|by apply Hks]. subst i. by rewrite Z.eqb_refl in Hi.
    + rewrite lookup_singleton_ne, lookup_insert_ne by done. case_decide as Hd; [done|].
      destruct (peers_of (wg_at h) wg_exit !! t) as [q|] eqn:Eq; [|done]. exfalso. apply Hd.
      destruct (proj1 (Hin t)) as (i & Hi & ->); [rewrite Hp1, lookup_insert_ne by done; by eexists|].
      apply list_elem_of_fmap. exists i. split; [done|]. apply list_elem_of_filter. split; [|done]. apply Z.eqb_neq. by intros ->.
  - intros j Hne. rewrite Hj, H2, H1, peers_insert, decide_False by done. done.
Qed.
End machine.
End WgMachine.

(** * Handshakes *)

Module Handshakes.
Import Wireguard.
Section handshakes.
Context `{B64 : Base64} `{BL : !Base64Laws B64}.
(** What wireguard prints: a key and the seconds of its last handshake. *)
Definition handshake_text (e : Z * Z) : text := b64_encode e.1 ++ [tab] ++ show_uint e.2.
Definition handshake_shell (es : list (Z * Z)) : Shell := answering (join newline (handshake_text <$> es)).
Definition handshake_ok (e : Z * Z) : Prop := key_ok e.1 /\ 0 <= e.2 <= 9223372036854775807.

Lemma plain_char k c : key_ok k -> is_whitespace c = true -> c ∉ b64_encode k.
Proof. intros Hk Hc Hin. pose proof (b64_plain k Hk) as Hp. rewrite Forall_forall in Hp. by rewrite (Hp c Hin) in Hc. Qed.
Lemma handshake_read {S} e (s : S) : handshake_ok e -> handshake_line (handshake_text e) s = Done s e.
Proof.
  intros [Hk Ht]. destruct e as [k t]. cbn [fst snd] in *. unfold handshake_line, handshake_text. cbn [fst snd].
  change ([tab] ++ show_uint t) with (tab :: show_uint t).
  rewrite split_on_app by (by apply plain_char). rewrite split_on_single by (apply show_uint_plain; [lia|done]).
  unfold bind, ok_or, ret. cbn [lookup list_lookup]. unfold wg_key_from_str. rewrite b64_length, b64_roundtrip by done. cbn [Nat.eqb].
  by rewrite parse_show_uint by (unfold U64_MAX; lia).
Qed.
Lemma handshake_plain e : handshake_ok e -> handshake_text e <> [] /\ (newline ∉ handshake_text e) /\ cr ∉ handshake_text e.
Proof.
  intros [Hk Ht]. unfold handshake_text. split; [by destruct (b64_encode e.1)|].
  assert (H : forall c, is_whitespace c = true -> digit 10 c = None -> c <> tab -> c ∉ b64_encode e.1 ++ [tab] ++ show_uint e.2).
  { intros c Hw Hd Hne. rewrite !not_elem_of_app, list_elem_of_singleton. split_and!; [by apply plain_char|done|apply show_uint_plain; [lia|done]]. }
  split; by apply H.
Qed.
Lemma handshakes_read active es acc h :
  Forall handshake_ok es ->
  handshakes active (handshake_text <$> es) acc h
  = Done h (acc ++ filter (fun e => active = true -> e.2 <> 0) es).
Proof.
  intros Hes. revert acc. induction Hes as [|e es He _ IH]; intros acc; cbn [fmap list_fmap handshakes].
  - by rewrite app_nil_r.
  - unfold bind at 1. rewrite handshake_read by done. destruct e as [k t]. cbn [fst snd]. rewrite filter_cons. cbn [snd].
    destruct (active && (t =? 0)) eqn:E.
    + apply andb_true_iff in E as [-> ->%Z.eqb_eq]. rewrite decide_False by (intros H; by apply H). by rewrite IH.
    + rewrite decide_True by (intros -> ->; done). destruct He as [_ Ht]. cbn [snd] in Ht. unfold bind, from_epoch.
      rewrite (proj2 (Z.leb_le _ _)) by lia. cbn [unwrap ret]. rewrite IH. by rewrite <- app_assoc.
Qed.

(** The handshakes read are those wireguard printed, in order; the active ones are
    those that are not zero. *)
Theorem handshake_roundtrip es ifname h :
  Forall handshake_ok es ->
  let h' := h ++ [(lit "wg", [lit "show"; ifname; lit "latest-handshakes"])] in
  get_last_handshake_time (SH := handshake_shell es) ifname h = Done h' es
  /\ get_last_active_handshake_time (SH := handshake_shell es) ifname h = Done h' (filter (fun e => e.2 <> 0) es).
Proof.
  intros Hes h'.
  assert (Hl : lines (join newline (handshake_text <$> es)) = handshake_text <$> es).
  { apply lines_join, Forall_fmap. eapply Forall_impl; [exact Hes|]. intros e He. by apply handshake_plain. }
  assert (Hr : forall active, handshake_times (SH := handshake_shell es) active ifname h
                              = Done h' (filter (fun e => active = true -> e.2 <> 0) es)).
  { intros active. unfold handshake_times, bind, ki_run. cbn [shell_answer handshake_shell answering out_stdout]. rewrite Hl.
    apply (handshakes_read active es []). done. }
  split.
  - unfold get_last_handshake_time. rewrite Hr. f_equal. clear. induction es as [|e es IH]; [done|].
    rewrite filter_cons, decide_True by done. by rewrite IH.
  - unfold get_last_active_handshake_time. rewrite Hr. f_equal. apply list_filter_iff. naive_solver.
Qed.
End handshakes.
End Handshakes.

(** * Counters *)

Module Transfer.
Import Wireguard.
Section transfer.
Context `{B64 : Base64} `{BL : !Base64Laws B64}.
(** What wireguard prints: a key, the bytes received and the bytes sent. *)
Definition transfer_text (e : Z * WgUsage) : text :=
  b64_encode e.1 ++ tab :: show_uint (download e.2) ++ tab :: show_uint (upload e.2) ++ [newline].
Definition transfer_output (es : list (Z * WgUsage)) : text := concat (transfer_text <$> es).
Definition transfer_ok (e : Z * WgUsage) : Prop :=
  key_ok e.1 /\ 0 <= download e.2 <= U64_MAX /\ 0 <= upload e.2 <= U64_MAX.

Lemma dec_shown n : 0 <= n -> show_uint n <> [] /\ Forall (fun c => dec c = true) (show_uint n).
Proof.
  intros Hn. destruct (show_uint_word n Hn) as [Hne _]. split; [done|]. apply Forall_forall. intros c Hc. unfold dec.
  destruct (digit 10 c) eqn:E; [done|]. exfalso. by apply (show_uint_plain n c).
Qed.
Lemma transfer_stopped es : Forall transfer_ok es -> stopped (Ascii.eqb newline) (transfer_output es).
Proof.
  destruct 1 as [|e es He _]; [done|]. unfold transfer_output. cbn [fmap list_fmap concat]. unfold transfer_text.
  destruct He as (Hk & _ & _). pose proof (b64_length _ Hk) as Hl. pose proof (b64_chars _ Hk) as Hc.
  destruct (b64_encode e.1) as [|c l]; [done|]. apply Forall_cons in Hc as [Hc _]. cbn. apply Ascii.eqb_neq. by intros <-.
Qed.
Lemma transfer_here e es :
  transfer_ok e -> Forall transfer_ok es ->
  exists m, match_here transfer_re (transfer_text e ++ transfer_output es)
    = Some ([b64_encode e.1; show_uint (download e.2); show_uint (upload e.2)], m, transfer_output es).
Proof.
  intros (Hk & Hd & Hu) Hes. eexists.
  assert (Ht : transfer_text e ++ transfer_output es
    = b64_encode e.1 ++ tab :: show_uint (download e.2) ++ tab :: show_uint (upload e.2) ++ [newline] ++ transfer_output es).
  { unfold transfer_text. repeat (rewrite <- app_assoc; cbn [app]). done. }
  rewrite Ht. unfold match_here, transfer_re. cbn [seqs run]. apply plus_run.
  - pose proof (b64_length _ Hk). by destruct (b64_encode e.1).
  - by apply b64_chars.
  - done.
  - cbn [app chr run]. rewrite Ascii.eqb_refl. apply plus_run; [by apply dec_shown; lia|by apply dec_shown; lia|done|].
    cbn [app]. rewrite Ascii.eqb_refl. apply plus_run; [by apply dec_shown; lia|by apply dec_shown; lia|done|].
    apply (star_run _ _ _ _ [newline]); [by repeat constructor|by apply transfer_stopped|]. reflexivity.
Qed.
Lemma transfer_captures es fuel :
  Forall transfer_ok es -> (length es <= fuel)%nat ->
  captures_iter fuel transfer_re (transfer_output es)
  = (fun e => [b64_encode e.1; show_uint (download e.2); show_uint (upload e.2)]) <$> es.
Proof.
  intros Hes. revert fuel. induction Hes as [|e es He Hes IH]; intros fuel Hf.
  - destruct fuel as [|fuel]; [done|]. reflexivity.
  - destruct fuel as [|fuel]; [cbn in Hf; lia|]. cbn [captures_iter].
    destruct (transfer_here e es He Hes) as (m & Hm).
    assert (Hc : captures transfer_re (transfer_output (e :: es))
                 = Some ([b64_encode e.1; show_uint (download e.2); show_uint (upload e.2)], m, transfer_output es)).
    { change (transfer_output (e :: es)) with (transfer_text e ++ transfer_output es).
      destruct (transfer_text e ++ transfer_output es) eqn:E; cbn [captures]; by rewrite Hm. }
    rewrite Hc, IH by (cbn in Hf; lia). done.
Qed.
Lemma transfer_items_read es result h :
  Forall transfer_ok es ->
  transfer_items ((fun e => [b64_encode e.1; show_uint (download e.2); show_uint (upload e.2)]) <$> es) result h
  = Done h (foldl (fun m e => <[e.1 := e.2]> m) result es).
Proof.
  intros Hes. revert result. induction Hes as [|e es (Hk & Hd & Hu) _ IH]; intros result; [done|].
  cbn [fmap list_fmap transfer_items foldl]. cbn [lookup list_lookup from_option id]. unfold bind.
  rewrite !parse_show_uint by (unfold U64_MAX in *; lia). cbn [ok_or ret].
  unfold wg_key_from_str. rewrite b64_length, b64_roundtrip by done. cbn [Nat.eqb]. rewrite IH. by destruct e as [k []].
Qed.
Lemma transfer_length es : (length es <= length (transfer_output es))%nat.
Proof.
  induction es as [|e es IH]; [done|]. change (transfer_output (e :: es)) with (transfer_text e ++ transfer_output es).
  rewrite length_app. unfold transfer_text. rewrite length_app. cbn [length]. lia.
Qed.

(** The counters a machine prints for its peers are the counters that are billed:
    for different keys, every peer with what it received and sent. *)
Theorem transfer_roundtrip es wg_name h :
  Forall transfer_ok es -> NoDup es.*1 ->
  read_wg_counters (SH := answering (transfer_output es)) wg_name h
  = Done (h ++ [(lit "wg", [lit "show"; wg_name; lit "transfer"])]) (list_to_map es).
Proof.
  intros Hes Hnd. unfold read_wg_counters, bind, ki_run. cbn [shell_answer answering out_stderr out_stdout].
  rewrite bool_decide_eq_false_2 by (intros []; done). rewrite transfer_captures by (done || apply transfer_length).
  rewrite transfer_items_read by done. f_equal.
  assert (Hf : forall m : gmap Z WgUsage, foldl (fun m e => <[e.1 := e.2]> m) m es = list_to_map es ∪ m).
  { clear Hes. induction es as [|[k u] es IH]; intros m; cbn [foldl list_to_map foldr]; [by rewrite (left_id_L ∅ (∪))|].
    apply NoDup_cons in Hnd as [Hk Hnd]. rewrite IH by done. cbn [fst snd].
    rewrite <- insert_union_r by (by apply not_elem_of_list_to_map_1). by rewrite insert_union_l. }
  rewrite Hf. by rewrite (right_id_L ∅ (∪)).
Qed.
End transfer.
End Transfer.

(** * Base64

    The encoding itself for thirty-two bytes: forty-three digits of six bits, the last
    two bits zero, and a padding character. *)
Module B64.
Definition alphabet : text := lit "ABCDEFGHIJKLMNOPQRSTUVWXYZabcdefghijklmnopqrstuvwxyz0123456789+/".
Definition b64_char (d : Z) : ascii := default "A"%char (alphabet !! Z.to_nat d).
Definition b64_value (c : ascii) : option Z := (fun x => Z.of_nat x.1) <$> list_find (eq c) alphabet.
Definition encode (k : Z) : text := (b64_char <$> places 64 43 (k * 4)) ++ lit "=".
Definition decode (s : text) : option Z :=
  match mapM b64_value (take 43 s) with
  | Some ds => let n := number_of 64 ds in if text_eqb (drop 43 s) (lit "=") && (n mod 4 =? 0) then Some (n / 4) else None
  | None => None
  end.
#[local] Instance base64 : Base64 := {| b64_encode := encode; b64_decode := decode |}.

Definition char_ok (d : Z) : bool :=
  bool_decide (b64_value (b64_char d) = Some d) && key_char (b64_char d).
Lemma char_ok_all d : 0 <= d < 64 -> char_ok d = true.
Proof.
  intros Hd. assert (Hall : forallb char_ok (Z.of_nat <$> seq 0 64) = true) by (vm_compute; reflexivity).
  rewrite forallb_forall in Hall. apply Hall, list_elem_of_In, list_elem_of_fmap. exists (Z.to_nat d).
  split; [lia|]. apply elem_of_seq. lia.
Qed.
Lemma encode_length k : length (encode k) = 44%nat.
Proof. unfold encode. by rewrite length_app, length_fmap, places_length. Qed.
Lemma decode_digits ds : Forall (fun d => 0 <= d < 64) ds -> mapM b64_value (b64_char <$> ds) = Some ds.
Proof.
  induction 1 as [|d ds Hd _ IH]; [done|]. cbn [fmap list_fmap]. apply char_ok_all in Hd. unfold char_ok in Hd.
  apply andb_true_iff in Hd as [Hd%bool_decide_eq_true _]. cbn [mapM]. by rewrite Hd, IH.
Qed.
#[local] Instance base64_laws : Base64Laws base64.
Proof.
  split; cbn [b64_encode b64_decode base64]; intros k Hk.
  - apply encode_length.
  - unfold encode. apply Forall_app. split; [|by repeat constructor]. apply Forall_fmap.
    eapply Forall_impl; [by apply (places_range 64 43 (k * 4))|]. intros d Hd%char_ok_all. unfold char_ok in Hd. cbn.
    by apply andb_true_iff in Hd as [_ Hd].
  - unfold decode, encode. assert (Hl : length (b64_char <$> places 64 43 (k * 4)) = 43%nat) by (by rewrite length_fmap, places_length).
    rewrite (take_app_length' _ _ _ (eq_sym Hl)), (drop_app_length' _ _ _ (eq_sym Hl)).
    rewrite decode_digits by (by apply places_range). cbv zeta.
    rewrite places_number by (unfold key_ok in Hk; lia). rewrite Z.mod_mul, Z.div_mul by lia. done.
Qed.
End B64.

(** * A packet filter and the block of unpaid clients

    A chain is a list of rules, tried in order. *)
Module NatBlock.
Import Wireguard.

Abbreviation chains := (gmap text (list (list text))).
Definition chain_of (m : chains) (name : text) : list (list text) := default [] (m !! name).
Fixpoint remove_first (r : list text) (l : list (list text)) : option (list (list text)) :=
  match l with
  | [] => None
  | x :: l => if decide (x = r) then Some l else (x ::.) <$> remove_first r l
  end.
(** The rules of the filter table; other programs and tables change nothing. *)
Definition ipt_exec (m : chains) (c : Command) : chains * bool :=
  match c.2 with
  | flag :: name :: rule =>
      if negb (text_eqb c.1 (lit "iptables")) then (m, true)
      else if text_eqb flag (lit "-C") then (m, bool_decide (rule ∈ chain_of m name))
      else if text_eqb flag (lit "-A") then (<[name := chain_of m name ++ [rule]]> m, true)
      else if text_eqb flag (lit "-I") then (<[name := rule :: chain_of m name]> m, true)
      else if text_eqb flag (lit "-D") then
        match remove_first rule (chain_of m name) with Some l => (<[name := l]> m, true) | None => (m, false) end
      else (m, true)
  | _ => (m, true)
  end.

Section machine.
Context (m0 : chains).
Definition ipt_at (h : list Command) : chains := foldl (fun m c => (ipt_exec m c).1) m0 h.
(** [nft] is not installed. *)
Definition ipt_shell : Shell := {|
  shell_answer h program args :=
    if text_eqb program (lit "nft") then None
    else Some {| out_success := (ipt_exec (ipt_at h) (program, args)).2; out_stdout := []; out_stderr := [] |} |}.
#[local] Existing Instance ipt_shell.
Definition lan : text := lit "zone_lan_forward".
Definition reject : list text := [lit "-j"; lit "REJECT"].

Lemma ipt_at_snoc h c : ipt_at (h ++ [c]) = (ipt_exec (ipt_at h) c).1.
Proof. unfold ipt_at. by rewrite foldl_app. Qed.
Lemma no_nft h : does_nftables_exist h = Done (h ++ [(lit "nft", [lit "-v"])]) false.
Proof. reflexivity. Qed.
Lemma run_iptables args h :
  ki_run (lit "iptables") args h
  = Done (h ++ [(lit "iptables", args)])
      {| out_success := (ipt_exec (ipt_at h) (lit "iptables", args)).2; out_stdout := []; out_stderr := [] |}.
Proof. reflexivity. Qed.

(** The two commands of a rule: the test, then the rule when the test fails. *)
Lemma block_steps h :
  exists h', block_client_nat h = Done h' tt
    /\ ipt_at h' = if decide (reject ∈ chain_of (ipt_at h) lan) then ipt_at h else <[lan := reject :: chain_of (ipt_at h) lan]> (ipt_at h).
Proof.
  set (h1 := h ++ [(lit "nft", [lit "-v"])]).
  assert (H1 : ipt_at h1 = ipt_at h) by (unfold h1; by rewrite ipt_at_snoc).
  set (chk := [lit "-C"; lan; lit "-j"; lit "REJECT"]).
  assert (Hb : block_client_nat h = (let! check := ki_run (lit "iptables") chk in
    if negb (out_success check) then let! _ := ki_run (lit "iptables") (reject_rule "-I") in ret tt else ret tt) h1)
    by reflexivity.
  rewrite Hb. unfold bind. rewrite run_iptables.
  change (ipt_exec (ipt_at h1) (lit "iptables", chk)) with (ipt_at h1, bool_decide (reject ∈ chain_of (ipt_at h1) lan)). cbn [out_success snd].
  assert (H2 : ipt_at (h1 ++ [(lit "iptables", chk)]) = ipt_at h) by (rewrite ipt_at_snoc; exact H1).
  rewrite H1. destruct (decide (reject ∈ chain_of (ipt_at h) lan)) as [Hin|Hin].
  - rewrite bool_decide_eq_true_2 by done. eexists. split; [reflexivity|]. done.
  - rewrite bool_decide_eq_false_2 by done. cbn [negb]. rewrite run_iptables. eexists. split; [reflexivity|].
    rewrite ipt_at_snoc, H2. reflexivity.
Qed.
Lemma restore_steps h :
  exists h', restore_client_nat h = Done h' tt
    /\ ipt_at h' = match remove_first reject (chain_of (ipt_at h) lan) with Some l => <[lan := l]> (ipt_at h) | None => ipt_at h end.
Proof.
  set (h1 := h ++ [(lit "nft", [lit "-v"])]).
  assert (H1 : ipt_at h1 = ipt_at h) by (unfold h1; by rewrite ipt_at_snoc).
  assert (Hb : restore_client_nat h = (let! check := ki_run (lit "iptables") (reject_rule "-D") in
    if negb (out_success check) then let! _ := ki_run (lit "iptables") (reject_rule "-D") in ret tt else ret tt) h1)
    by reflexivity.
  assert (Hx : forall m, ipt_exec m (lit "iptables", reject_rule "-D")
    = match remove_first reject (chain_of m lan) with Some l => (<[lan := l]> m, true) | None => (m, false) end) by reflexivity.
  rewrite Hb. unfold bind. rewrite run_iptables, Hx, H1. cbn [out_success].
  destruct (remove_first reject (chain_of (ipt_at h) lan)) as [l|] eqn:E; cbn [snd negb].
  - eexists. split; [reflexivity|]. by rewrite ipt_at_snoc, Hx, H1, E.
  - rewrite run_iptables. eexists. split; [reflexivity|].
    assert (H2 : ipt_at (h1 ++ [(lit "iptables", reject_rule "-D")]) = ipt_at h) by (by rewrite ipt_at_snoc, Hx, H1, E).
    by rewrite ipt_at_snoc, Hx, H2, E.
Qed.

(** Blocking the clients of a router without a block puts the rejecting rule before
    every other rule of the forward chain; blocking again changes nothing; lifting
    the block gives back the filter as it was; lifting it again changes nothing
    either and is no error. *)
Theorem block_restore h :
  (reject ∉ chain_of (ipt_at h) lan) -> is_Some (ipt_at h !! lan) ->
  exists h1 h2 h3 h4,
    block_client_nat h = Done h1 tt /\ chain_of (ipt_at h1) lan = reject :: chain_of (ipt_at h) lan
    /\ block_client_nat h1 = Done h2 tt /\ ipt_at h2 = ipt_at h1
    /\ restore_client_nat h2 = Done h3 tt /\ ipt_at h3 = ipt_at h
    /\ restore_client_nat h3 = Done h4 tt /\ ipt_at h4 = ipt_at h.
Proof.
  intros Hno [l Hl]. assert (Hc : chain_of (ipt_at h) lan = l) by (unfold chain_of; by rewrite Hl).
  destruct (block_steps h) as (h1 & E1 & S1). rewrite decide_False in S1 by done.
  assert (C1 : chain_of (ipt_at h1) lan = reject :: l) by (rewrite S1, Hc; unfold chain_of; by rewrite lookup_insert_eq).
  destruct (block_steps h1) as (h2 & E2 & S2). rewrite decide_True in S2 by (rewrite C1; by left).
  destruct (restore_steps h2) as (h3 & E3 & S3). rewrite S2, C1 in S3. cbn [remove_first] in S3. rewrite decide_True in S3 by done.
  assert (S3' : ipt_at h3 = ipt_at h) by (by rewrite S3, S1, insert_insert_eq, insert_id).
  destruct (restore_steps h3) as (h4 & E4 & S4). rewrite S3', Hc in S4.
  assert (Hr : remove_first reject l = None).
  { rewrite Hc in Hno. clear -Hno. induction l as [|x l IH]; [done|]. apply not_elem_of_cons in Hno as [Hx Hl]. cbn [remove_first].
    rewrite decide_False by done. by rewrite IH. }
  rewrite Hr in S4. exists h1, h2, h3, h4. rewrite C1, Hc. done.
Qed.
End machine.
End NatBlock.

(** * Concrete machines *)

Module WgDemo.
Import Wireguard WgMachine B64 NatBlock Handshakes.
#[local] Existing Instance base64.
#[local] Existing Instance base64_laws.

Example key_text : wg_key_from_str (encode 12345) = Some 12345.
Proof. vm_compute. reflexivity. Qed.

Definition client (k : Z) : ExitClient :=
  {| ec_internal_ip := V4 (2886729728 + k); ec_internet_ipv6 := None; ec_public_key := k;
     ec_mesh_ip := V6 (Z.shiftl 64768 112 + k); ec_port := 59999 |}.
Definition wg_exit_v2 : text := lit "wg_exit_v2".
(** A client that is no longer registered is a peer. *)
Definition stale : wg_machine := {[ wg_exit_v2 := {[ encode 5 := new_peer ]} ]}.

Lemma single_valid k (q : wg_peer) : key_ok k -> keys_valid {[ encode k := q ]}.
Proof. intros Hk t [p [<- _]%lookup_singleton_Some]. by exists k. Qed.
Lemma exit_peers_exact_witness :
  exists h', set_exit_wg_config (SH := wg_shell stale) [client 7; client 9] 59998 (lit "key") wg_exit_v2 [] = Done h' tt
    /\ peers_of (wg_at stale h') wg_exit_v2 !! encode 5 = None
    /\ peers_of (wg_at stale h') wg_exit_v2 !! encode 7 = Some (peer_of (client 7)).
Proof.
  destruct (exit_peers_exact stale [client 7; client 9] 59998 (lit "key") wg_exit_v2 []) as (h' & Hr & Hp & Hc & _).
  - repeat constructor; cbn; lia.
  - change (keys_valid (default ∅ (stale !! wg_exit_v2))). unfold stale. rewrite lookup_singleton_eq. by apply single_valid.
  - exists h'. split_and!; [exact Hr| |].
    + destruct (peers_of (wg_at stale h') wg_exit_v2 !! encode 5) eqn:E; [|done]. exfalso.
      destruct (proj1 (Hp (encode 5))) as (c & Hin & He); [by rewrite E|].
      rewrite !elem_of_cons in Hin. destruct Hin as [->|[->|[]%not_elem_of_nil]]; vm_compute in He; discriminate He.
    + apply (Hc (client 7)); [by left|]. intros c' Hin. rewrite !elem_of_cons in Hin.
      destruct Hin as [->|[->|[]%not_elem_of_nil]]; [done|]. intros He. vm_compute in He. discriminate He.
Defined.

#[local] Instance no_files : Files := {| file_lines _ _ := None; link_names _ := None |}.
Definition exit_config : ClientExitTunnelConfig :=
  {| ct_endpoint := {| sock_ip := V6 (Z.shiftl 64768 112 + 1); sock_port := 59998 |}; ct_pubkey := 7;
     ct_private_key_path := lit "key"; ct_listen_port := 59999; ct_local_ip := V4 2886729730; ct_netmask := 16;
     ct_rita_hello_port := 4876; ct_user_specified_speed := None |}.
(** The tunnel led to another exit before. *)
Definition switched : wg_machine := {[ wg_exit := {[ encode 5 := new_peer ]} ]}.
Lemma client_single_exit_witness :
  exists h', set_client_exit_tunnel_config (SH := wg_shell switched) exit_config (Some (V6 (Z.shiftl 64768 112 + 3))) [] = Done h' tt
    /\ peers_of (wg_at switched h') wg_exit = {[ encode 7 := exit_peer exit_config ]}.
Proof.
  destruct (client_single_exit switched exit_config (Some (V6 (Z.shiftl 64768 112 + 3))) []) as (h' & Hr & Hp & _).
  - split; cbn; lia.
  - by eexists.
  - change (keys_valid (default ∅ (switched !! wg_exit))). unfold switched. rewrite lookup_singleton_eq. by apply single_valid.
  - exists h'. split; [exact Hr|exact Hp].
Defined.

Definition lan_chain : chains := {[ lan := [[lit "-j"; lit "ACCEPT"]] ]}.
Lemma block_restore_witness :
  exists h1 h2, block_client_nat (SH := ipt_shell lan_chain) [] = Done h1 tt
    /\ chain_of (ipt_at lan_chain h1) lan = [reject; [lit "-j"; lit "ACCEPT"]]
    /\ ipt_at lan_chain h2 = lan_chain.
Proof.
  destruct (block_restore lan_chain []) as (h1 & h2 & h3 & h4 & E1 & C1 & _ & _ & _ & S3 & _).
  - intros Hin. vm_compute in Hin. apply list_elem_of_singleton in Hin. discriminate Hin.
  - by eexists.
  - exists h1, h3. split; [exact E1|]. split; [exact C1|exact S3].
Defined.
Lemma handshake_roundtrip_witness :
  get_last_active_handshake_time (SH := handshake_shell [(7, 1536936247); (9, 0)]) (lit "wg1") []
  = Done [(lit "wg", [lit "show"; lit "wg1"; lit "latest-handshakes"])] [(7, 1536936247)].
Proof. apply (handshake_roundtrip [(7, 1536936247); (9, 0)] (lit "wg1") []). repeat constructor; cbn; lia. Defined.
Lemma transfer_roundtrip_witness :
  read_wg_counters (SH := answering (Transfer.transfer_output [(7, {| upload := 100; download := 2000 |}); (9, {| upload := 0; download := 5 |})]))
    (lit "wg_exit") []
  = Done [(lit "wg", [lit "show"; lit "wg_exit"; lit "transfer"])]
      (list_to_map [(7, {| upload := 100; download := 2000 |}); (9, {| upload := 0; download := 5 |})]).
Proof.
  apply (Transfer.transfer_roundtrip [(7, {| upload := 100; download := 2000 |}); (9, {| upload := 0; download := 5 |})] (lit "wg_exit") []).
  - repeat constructor; cbn; unfold U64_MAX; lia.
  - cbn. by repeat constructor; set_solver.
Defined.
End WgDemo.
