(* ===== verification/Interfaces.v ===== *)
(** The ports of a router (rita_client/src/dashboard/interfaces.rs): reading the
    mode of every port from the configuration, moving a port from one mode to
    another, and switching the wireless networks on and off. *)
From S2P Require Import Prelude Types Text IpText Babel TrafficWatcher KernelShell KernelCounters IpRoute.
From S2P Require Import TrafficControl Uci.
Import KernelShell Uci.

Inductive InterfaceMode :=
| Mesh
| Lan
| Wan
| StaticWan (netmask ipaddr gateway : Z)
| LTE
| UnknownMode.
#[export] Instance InterfaceMode_eq_dec : EqDecision InterfaceMode.
Proof. solve_decision. Defined.

Module Interfaces.

Definition mode_text (m : InterfaceMode) : string :=
  match m with
  | Mesh => "mesh" | Lan => "LAN" | Wan => "WAN" | StaticWan _ _ _ => "StaticWAN" | UnknownMode => "unknown" | LTE => "LTE"
  end.

Inductive IfError :=
| IfKernel (e : KernelInterfaceError)
| IfAddrParse
| InterfaceModeError (t : text)
| MiscStringError (t : text)
| InterfaceToggleError (main_error : list KernelInterfaceError) (revert_status : option KernelInterfaceError)
| IfSettingsError.

(** The network settings the ports are kept in; the state is the history of
    commands with them. *)
Record IfNet := { external_nic : option text; peer_interfaces : gset text }.
Definition IfState : Type := list Command * IfNet.
Abbreviation IM A := (M IfState IfError A).
Abbreviation KI A := (M (list Command) KernelInterfaceError A).

(** A command whose error is passed on. *)
Definition kernel {A} (m : KI A) : IM A := fun s =>
  match m s.1 with Done h a => Done (h, s.2) a | Fail h e => Fail (h, s.2) (IfKernel e) | Panic => Panic end.
(** A command whose result is kept. *)
Definition result {A} (m : KI A) : IM (KernelInterfaceError + A) := fun s =>
  match m s.1 with Done h a => Done (h, s.2) (inr a) | Fail h e => Done (h, s.2) (inl e) | Panic => Panic end.
Definition get_network : IM IfNet := fun s => Done s s.2.
Definition set_network (n : IfNet) : IM unit := fun s => Done (s.1, n) tt.

(** [str::parse::<Ipv4Addr>]. *)
Definition parse_v4 (l : text) : option Z := match read_ipv4_addr l with Some (a, []) => Some a | _ => None end.

(** * Lists of ports *)

Definition list_add (list entry : text) : text :=
  match list with [] => entry | _ => list ++ lit " " ++ entry end.
Fixpoint list_rest (entry : text) (items : list text) (new_list : text) (first : bool) : text :=
  match items with
  | [] => new_list
  | item :: items =>
      let filtered_item := trim_text item in
      if negb (contains entry item) then
        list_rest entry items (new_list ++ (if first then filtered_item else lit " " ++ filtered_item)) false
      else list_rest entry items new_list first
  end.
Definition list_remove (list entry : text) : text :=
  match list with [] => [] | _ => list_rest entry (split_on space list) [] true end.

Section interfaces.
Context `{SH : Shell} (is_openwrt saved : bool).

(** * The modes of the ports *)

(** A variable of a section. *)
Definition under (section : text) (x : string) : text := section ++ lit x.
Definition backhaul : text := lit "network.backhaul".
Definition ethernet2mode (ifname setting_name : text) : IM InterfaceMode :=
  let s := KernelCounters.replace (lit ".ifname") [] setting_name in
  if contains (lit "rita_") s then ret Mesh
  else if contains (lit "lan") s then ret Lan
  else if contains (lit "lte") s then ret LTE
  else if contains (lit "backhaul") s then
    let! entries := kernel (uci_show (Some backhaul)) in
    match entries !! (under backhaul ".proto") with
    | None => throw (InterfaceModeError (lit "WAN network with no proto?"))
    | Some proto =>
        if contains (lit "dhcp") proto then ret Wan
        else if contains (lit "static") proto then
          match entries !! (under backhaul ".netmask"), entries !! (under backhaul ".ipaddr"), entries !! (under backhaul ".gateway") with
          | Some netmask, Some ipaddr, Some gateway =>
              let! netmask := ok_or (parse_v4 netmask) IfAddrParse in
              let! ipaddr := ok_or (parse_v4 ipaddr) IfAddrParse in
              let! gateway := ok_or (parse_v4 gateway) IfAddrParse in
              ret (StaticWan netmask ipaddr gateway)
          | _, _, _ => throw (InterfaceModeError (lit "Failed to parse static wan!"))
          end
        else throw (InterfaceModeError (lit "Failed to parse backhaul entry!"))
    end
  else ret UnknownMode.

Definition is_port_setting (setting_name value : text) : bool :=
  contains (lit "ifname") setting_name && negb (contains (lit "backhaul") value) && negb (text_eqb value (lit "lo")).
Fixpoint list_ports (value setting_name : text) (members : list text) (retval : gmap text InterfaceMode)
    : IM (gmap text InterfaceMode) :=
  match members with
  | [] => ret retval
  | list_member :: members =>
      if contains (lit "pbs-wlan") list_member then list_ports value setting_name members retval
      else
        let! mode := ethernet2mode value setting_name in
        list_ports value setting_name members (<[KernelCounters.replace (lit " ") [] list_member := mode]> retval)
  end.
Fixpoint collect_interfaces (entries : list (text * text)) (retval : gmap text InterfaceMode) : IM (gmap text InterfaceMode) :=
  match entries with
  | [] => ret retval
  | (setting_name, value) :: entries =>
      if is_port_setting setting_name value then
        let! retval :=
          (if contains (lit " ") value then list_ports value setting_name (split_on space value) retval
           else if contains (lit "pbs-wlan") value then ret retval
           else let! mode := ethernet2mode value setting_name in ret (<[value := mode]> retval)) in
        collect_interfaces entries retval
      else collect_interfaces entries retval
  end.
Definition get_interfaces : IM (gmap text InterfaceMode) :=
  let! entries := kernel (uci_show (Some (lit "network"))) in collect_interfaces (map_to_list entries) ∅.

(** The mode of the first port whose name contains the name. *)
Fixpoint first_mode (target_iface : text) (interfaces : list (text * InterfaceMode)) : InterfaceMode :=
  match interfaces with
  | [] => UnknownMode
  | (iface, mode) :: interfaces => if contains target_iface iface then mode else first_mode target_iface interfaces
  end.
Definition get_current_interface_mode (interfaces : gmap text InterfaceMode) (target_iface : text) : InterfaceMode :=
  first_mode target_iface (map_to_list interfaces).

(** * Moving a port *)

Definition filtered_ifname (ifname : text) : text := lit "network.rita_" ++ KernelCounters.replace (lit ".") [] ifname.
(** Setting variables one after the other, keeping every error. *)
Fixpoint set_vars (vars : list (text * text)) : IM (list KernelInterfaceError) :=
  match vars with
  | [] => ret []
  | (k, v) :: vars =>
      let! r := result (set_uci_var k v) in
      let! es := set_vars vars in
      ret (match r with inl e => e :: es | inr _ => es end)
  end.
Definition delete_var (k : text) : IM (list KernelInterfaceError) :=
  let! r := result (del_uci_var k) in ret (match r with inl e => [e] | inr _ => [] end).

(** Taking the port out of its mode, on the copy of the settings. *)
Definition leave_mode (ifname : text) (a : InterfaceMode) (network : IfNet) : IM (list KernelInterfaceError * IfNet) :=
  match a with
  | Wan | StaticWan _ _ _ =>
      let! es := delete_var backhaul in ret (es, {| external_nic := None; peer_interfaces := peer_interfaces network |})
  | LTE =>
      let! es := delete_var (lit "network.lte") in ret (es, {| external_nic := None; peer_interfaces := peer_interfaces network |})
  | Lan =>
      let! list := kernel (get_uci_var (lit "network.lan.ifname")) in
      let! es := set_vars [(lit "network.lan.ifname", list_remove list ifname)] in ret (es, network)
  | Mesh =>
      let! es := delete_var (filtered_ifname ifname) in
      ret (es, {| external_nic := external_nic network; peer_interfaces := peer_interfaces network ∖ {[ ifname ]} |})
  | UnknownMode => panic
  end.
Definition mode_vars (ifname : text) (b : InterfaceMode) : list (text * text) :=
  let wan proto := [(backhaul, lit "interface"); (under backhaul ".ifname", ifname); (under backhaul ".proto", lit proto)] in
  match b with
  | Wan => wan "dhcp"
  | StaticWan netmask ipaddr gateway =>
      wan "static" ++ [(under backhaul ".netmask", show_v4 netmask); (under backhaul ".ipaddr", show_v4 ipaddr);
                       (under backhaul ".gateway", show_v4 gateway)]
  | LTE => [(lit "network.lte", lit "interface"); (lit "network.lte.ifname", ifname); (lit "network.lte.proto", lit "dhcp")]
  | Mesh =>
      [(filtered_ifname ifname, lit "interface"); (under (filtered_ifname ifname) ".ifname", ifname);
       (under (filtered_ifname ifname) ".proto", lit "static")]
  | Lan | UnknownMode => []
  end.
Definition enter_mode (ifname : text) (b : InterfaceMode) (network : IfNet) : IM (list KernelInterfaceError * IfNet) :=
  match b with
  | Wan | StaticWan _ _ _ | LTE =>
      let! es := set_vars (mode_vars ifname b) in
      ret (es, {| external_nic := Some ifname; peer_interfaces := peer_interfaces network |})
  | Lan =>
      let! r := result (get_uci_var (lit "network.lan.ifname")) in
      let! es := (match r with
                  | inr list => set_vars [(lit "network.lan.ifname", list_add list ifname)]
                  | inl e =>
                      if contains (lit "Entry not found") (error_text e)
                      then set_vars [(lit "network.lan.ifname", ifname)] else ret [e]
                  end) in
      ret (es, network)
  | Mesh =>
      let! es := set_vars (mode_vars ifname b) in
      ret (es, {| external_nic := external_nic network; peer_interfaces := peer_interfaces network ∪ {[ ifname ]} |})
  | UnknownMode => panic
  end.
Definition fs_sync : KI unit := let! _ := sh "sync" [] in ret tt.
Definition ethernet_transform_mode (ifname : text) (a b : InterfaceMode) : IM unit :=
  if bool_decide (a = b) then ret tt
  else if bool_decide (a = UnknownMode) || bool_decide (b = UnknownMode)
  then throw (InterfaceModeError (lit "We can't change Unknown interfaces!"))
  else
    let! old_network_settings := get_network in
    let! (errors, network) := leave_mode ifname a old_network_settings in
    let! (more, network) := enter_mode ifname b network in
    match errors ++ more with
    | e :: es =>
        let! res := result (uci_revert (lit "network")) in
        let! _ := set_network old_network_settings in
        throw (InterfaceToggleError (e :: es) (match res with inl re => Some re | inr _ => None end))
    | [] =>
        let! _ := kernel (uci_commit (lit "network")) in
        let! _ := kernel openwrt_reset_network in
        let! _ := set_network network in
        if negb saved then throw IfSettingsError else kernel fs_sync
    end.

Definition set_interface_mode (iface_name : text) (target_mode : InterfaceMode) : IM unit :=
  let! interfaces := get_interfaces in
  let current_mode := get_current_interface_mode interfaces iface_name in
  match interfaces !! iface_name with
  | None => throw (InterfaceModeError (lit "Attempted to configure non-existant or unavailable interface!"))
  | Some _ =>
      if bool_decide (target_mode = Wan) && existsb (fun e => bool_decide (e.2 = Wan)) (map_to_list interfaces)
      then throw (InterfaceModeError (lit "There can only be one WAN interface!"))
      else ethernet_transform_mode iface_name current_mode target_mode
  end.

Definition is_wan (m : InterfaceMode) : bool := match m with Wan | StaticWan _ _ _ => true | _ => false end.
(** The loop; any error is reported with the name of the port. *)
Fixpoint set_each (ports : list (text * InterfaceMode)) : IM unit :=
  match ports with
  | [] => ret tt
  | (iface, mode) :: ports => fun s =>
      match set_interface_mode iface mode s with
      | Done s _ => set_each ports s
      | Fail s _ => Fail s (InterfaceModeError iface)
      | Panic => Panic
      end
  end.
Definition multiset_interfaces (iface_name : list text) (mode : list InterfaceMode) : IM unit :=
  if negb (length iface_name =? length mode)%nat then throw (MiscStringError (lit "Extra mode or iface found!"))
  else if (1 <? length (filter (fun m => is_wan m = true) mode))%nat then throw (MiscStringError (lit "Only one WAN interface allowed!"))
  else
    let! _ := set_each (zip iface_name mode) in
    let! _ := kernel (sh "reboot" []) in ret tt.

(** * Wireless networks *)

Definition disabled_state (current_state : text) : option bool :=
  if contains (lit "0") current_state then Some true else if contains (lit "1") current_state then Some false else None.
Definition bad_wireless : IfError := MiscStringError (lit "Wireless config not correct").
Definition wlan_toggle_get (uci_spec : text) : IM bool :=
  if negb is_openwrt then throw (MiscStringError (lit "Not an OpenWRT device!")) else
  let! current_state := kernel (uci_show (Some uci_spec)) in
  let! current_state := ok_or (current_state !! uci_spec) bad_wireless in
  ok_or (disabled_state current_state) bad_wireless.
Definition wlan_toggle_set (uci_spec : text) (enabled : bool) : IM unit :=
  if negb is_openwrt then throw (MiscStringError (lit "Not an OpenWRT device!")) else
  let! current_state := kernel (uci_show (Some uci_spec)) in
  let! current_state := ok_or (current_state !! uci_spec) bad_wireless in
  let! current_state := ok_or (disabled_state current_state) bad_wireless in
  if Bool.eqb enabled current_state then ret tt else
  let! res := result (set_uci_var uci_spec (if enabled then lit "0" else lit "1")) in
  match res with
  | inl e =>
      let! res_b := result (uci_revert (lit "wireless")) in
      throw (InterfaceToggleError [e] (match res_b with inl re => Some re | inr _ => None end))
  | inr _ =>
      let! _ := kernel (uci_commit (lit "wireless")) in
      let! _ := kernel openwrt_reset_wireless in
      let! _ := kernel fs_sync in
      let! _ := kernel (sh "reboot" []) in ret tt
  end.

(** * The endpoints *)

(** The status code and what is answered. *)
Definition respond {A B} (m : IM A) (good : A -> B) (bad : B) : M IfState Empty_set (Z * B) := fun s =>
  match m s with Done s a => Done s (200, good a) | Fail s _ => Done s (500, bad) | Panic => Panic end.
Definition wlan_mesh_get := respond (wlan_toggle_get (lit "wireless.mesh.disabled")) Some None.
Definition wlan_lightclient_get := respond (wlan_toggle_get (lit "wireless.lightclient.disabled")) Some None.
Definition wlan_mesh_set (enabled : bool) := respond (wlan_toggle_set (lit "wireless.mesh.disabled") enabled) id tt.
Definition wlan_lightclient_set (enabled : bool) := respond (wlan_toggle_set (lit "wireless.lightclient.disabled") enabled) id tt.
Definition get_interfaces_endpoint := respond get_interfaces Some None.
Definition set_interfaces_endpoint (interfaces : list text) (modes : list InterfaceMode) :=
  respond (multiset_interfaces interfaces modes) id tt.
End interfaces.
End Interfaces.

(** * Properties

    The ports of a router: a change of mode is applied as a whole or not at all,
    and the mode that was set is the mode that is read. *)

Import KernelShell Uci Interfaces.

Definition lan_ifname : text := lit "network.lan.ifname".

(** * What a change does to the configuration *)

Definition set_all (vars : list (text * text)) (m : Entries) : Entries := foldl (fun m kv => uci_set kv.1 kv.2 m) m vars.
(** A value as [uci get] gives it. *)
Definition got (v : text) : text := trim_text (v ++ [newline]).
Definition leave_store (i : text) (a : InterfaceMode) (m : Entries) : Entries :=
  match a with
  | Wan | StaticWan _ _ _ => uci_delete backhaul m
  | LTE => uci_delete (lit "network.lte") m
  | Lan => match m !! lan_ifname with Some v => uci_set lan_ifname (list_remove (got v) i) m | None => m end
  | Mesh => uci_delete (filtered_ifname i) m
  | UnknownMode => m
  end.
Definition enter_store (i : text) (b : InterfaceMode) (m : Entries) : Entries :=
  match b with
  | Lan => uci_set lan_ifname (match m !! lan_ifname with Some v => list_add (got v) i | None => i end) m
  | _ => set_all (mode_vars i b) m
  end.
Definition leave_net (i : text) (a : InterfaceMode) (n : IfNet) : IfNet :=
  match a with
  | Wan | StaticWan _ _ _ | LTE => {| external_nic := None; peer_interfaces := peer_interfaces n |}
  | Mesh => {| external_nic := external_nic n; peer_interfaces := peer_interfaces n ∖ {[ i ]} |}
  | Lan | UnknownMode => n
  end.
Definition enter_net (i : text) (b : InterfaceMode) (n : IfNet) : IfNet :=
  match b with
  | Wan | StaticWan _ _ _ | LTE => {| external_nic := Some i; peer_interfaces := peer_interfaces n |}
  | Mesh => {| external_nic := external_nic n; peer_interfaces := peer_interfaces n ∪ {[ i ]} |}
  | Lan | UnknownMode => n
  end.

Section machine.
Context (fault : nat -> option Fault) (m0 : uci_machine) (saved : bool).
#[local] Hint Extern 0 Shell => exact (uci_shell fault m0) : typeclass_instances.
Abbreviation at_ := (uci_at fault m0).

(** * The steps of a change *)

(** A step leaves what is committed alone; without errors it has done [f]. *)
Definition edits {A} (h h' : list Command) (es : list A) (f : Entries -> Entries) : Prop :=
  config (at_ h') = config (at_ h) /\ (es = [] -> staged (at_ h') = f (staged (at_ h))).

Lemma run_uci_answer args h :
  run_uci (lit "uci") args h
  = match (uci_exec (fault (length h)) (at_ h) (lit "uci") args).2 with
    | None => Fail (h ++ [(lit "uci", args)]) IoError
    | Some o =>
        if bool_decide (out_stderr o <> [])
        then Fail (h ++ [(lit "uci", args)]) (runtime_error (lit "received error while setting UCI: ") (out_stderr o))
        else Done (h ++ [(lit "uci", args)]) tt
    end.
Proof. unfold run_uci, bind. rewrite ki_run_machine. destruct (uci_exec _ _ _ _).2; [|done]. by case_bool_decide. Qed.
(** A command that cannot be run ends in an error and has no effect. *)
Lemma run_uci_fault args h :
  fault (length h) <> None ->
  exists e, run_uci (lit "uci") args h = Fail (h ++ [(lit "uci", args)]) e /\ at_ (h ++ [(lit "uci", args)]) = at_ h.
Proof.
  intros Hf. rewrite run_uci_answer, uci_at_fault by done.
  destruct (fault (length h)) as [[|]|]; [by eexists|by eexists|done].
Qed.

Lemma set_var_run k v h n :
  "="%char ∉ k ->
  exists h' r, result (set_uci_var k v) (h, n) = Done (h', n) r
    /\ config (at_ h') = config (at_ h) /\ (forall u, r = inr u -> staged (at_ h') = uci_set k v (staged (at_ h))).
Proof.
  intros Hk. unfold result, set_uci_var. cbn [fst snd]. set (c := [lit "set"; k ++ lit "=" ++ v]).
  exists (h ++ [(lit "uci", c)]). destruct (fault (length h)) eqn:Ef.
  - destruct (run_uci_fault c h) as (e & -> & ->); [congruence|]. exists (inl e). done.
  - rewrite run_uci_answer, Ef, uci_at_good by done. cbn [fst snd uci_exec]. unfold c. rewrite run_set by done.
    exists (inr tt). done.
Qed.
Lemma delete_var_run k h n :
  exists h' es, delete_var k (h, n) = Done (h', n) es /\ edits h h' es (uci_delete k).
Proof.
  unfold delete_var, bind, result, del_uci_var. cbn [fst snd]. set (c := [lit "delete"; k]).
  exists (h ++ [(lit "uci", c)]). unfold edits. destruct (fault (length h)) eqn:Ef.
  - destruct (run_uci_fault c h) as (e & -> & ->); [congruence|]. exists [e]. done.
  - rewrite run_uci_answer, Ef, uci_at_good by done. cbn [fst snd uci_exec]. unfold c. rewrite run_delete.
    case_bool_decide as Hb; eexists; (split; [reflexivity|]); done.
Qed.
Lemma set_vars_run vars h n :
  Forall (fun kv => "="%char ∉ kv.1) vars ->
  exists h' es, set_vars vars (h, n) = Done (h', n) es /\ edits h h' es (set_all vars).
Proof.
  intros Hv. revert h. induction Hv as [|[k v] vars Hk _ IH]; intros h; [by exists h, []|]. cbn [set_vars fst] in *.
  destruct (set_var_run k v h n Hk) as (h1 & r & Hr & Hc1 & Hs1). destruct (IH h1) as (h2 & es & He & Hc2 & Hs2).
  exists h2, (match r with inl e => e :: es | inr _ => es end). split.
  - unfold bind at 1. rewrite Hr. unfold bind. by rewrite He.
  - split; [congruence|]. intros Hnil. destruct r as [e|u]; [done|]. rewrite Hs2 by done. by rewrite (Hs1 u eq_refl).
Qed.
(** Reading a variable: its value, that it is missing, or a command that failed. *)
Lemma get_var_run k h :
  exists e, get_uci_var k h
  = match fault (length h), staged (at_ h) !! k with
    | None, Some v => Done (h ++ [(lit "uci", [lit "get"; k])]) (got v)
    | None, None => Fail (h ++ [(lit "uci", [lit "get"; k])]) (runtime_error (lit "received error while getting UCI: ") not_found)
    | Some _, _ => Fail (h ++ [(lit "uci", [lit "get"; k])]) e
    end /\ contains (lit "Entry not found") (error_text e) = false.
Proof.
  unfold get_uci_var, bind. rewrite ki_run_machine. destruct (fault (length h)) as [[|]|]; cbn [uci_exec snd].
  - by exists IoError.
  - eexists. split; [reflexivity|]. by vm_compute.
  - exists IoError. rewrite run_get. by destruct (staged (at_ h) !! k).
Qed.
Lemma get_var_state k h : at_ (h ++ [(lit "uci", [lit "get"; k])]) = at_ h.
Proof.
  destruct (fault (length h)) eqn:Ef; [apply uci_at_fault; congruence|].
  rewrite uci_at_good by done. cbn [fst snd]. rewrite run_get. by destruct (staged (at_ h) !! k).
Qed.

(** A name that can be part of a variable. *)
Definition port_name (i : text) : Prop := readable i.
Lemma replace_plain from l c : c ∉ l -> c ∉ KernelCounters.replace from [] l.
Proof.
  unfold KernelCounters.replace. generalize (length l) as fuel. intros fuel. revert l.
  induction fuel as [|fuel IH]; intros l Hl; [done|]. destruct l as [|x l]; [done|]. cbn [KernelCounters.replace_fuel].
  destruct (KernelCounters.expect from (x :: l)) as [r|] eqn:E.
  - cbn [app]. apply IH. intros Hr. apply Hl.
    assert (Hsuf : forall p l r, KernelCounters.expect p l = Some r -> exists q, l = q ++ r).
    { clear. induction p as [|a p IH]; intros l r; [intros [= <-]; by exists []|]. destruct l as [|b l]; [done|].
      cbn [KernelCounters.expect]. destruct (Ascii.eqb a b); [|done]. intros H. destruct (IH _ _ H) as [q ->]. by exists (b :: q). }
    destruct (Hsuf _ _ _ E) as [q ->]. apply elem_of_app. by right.
  - apply not_elem_of_cons in Hl as [Hx Hl]. apply not_elem_of_cons. split; [done|by apply IH].
Qed.
Lemma filtered_plain i c : c ∉ i -> c ∉ lit "network.rita_" -> c ∉ filtered_ifname i.
Proof. intros Hi Hn. unfold filtered_ifname. rewrite not_elem_of_app. split; [done|by apply replace_plain]. Qed.
Lemma mode_vars_keys i b : "="%char ∉ i -> Forall (fun kv => "="%char ∉ kv.1) (mode_vars i b).
Proof.
  intros Hi. assert (Hf : "="%char ∉ filtered_ifname i) by (apply filtered_plain; [done|]; apply (bool_decide_unpack _); by vm_compute).
  destruct b; cbn [mode_vars app]; repeat (apply Forall_cons; split; cbn [fst]);
    try (apply (bool_decide_unpack _); by vm_compute); try done;
    unfold under; rewrite not_elem_of_app; (split; [done|]); apply (bool_decide_unpack _); by vm_compute.
Qed.

Lemma leave_lan i n h :
  (exists h' e, leave_mode i Lan n (h, n) = Fail (h', n) e /\ at_ h' = at_ h)
  \/ (exists h' es, leave_mode i Lan n (h, n) = Done (h', n) (es, n) /\ edits h h' es (leave_store i Lan)).
Proof.
  remember (leave_mode i Lan n (h, n)) as r eqn:Hr. cbn [leave_mode] in Hr. unfold bind at 1, kernel in Hr. cbn [fst snd] in Hr.
  destruct (get_var_run (lit "network.lan.ifname") h) as (e & Hget & _). rewrite Hget in Hr. clear Hget.
  change (lit "network.lan.ifname") with lan_ifname in Hr. set (h1 := h ++ _) in Hr.
  assert (Hat : at_ h1 = at_ h) by apply get_var_state.
  destruct (fault (length h)); [left; exists h1; by eexists|].
  destruct (staged (at_ h) !! lan_ifname) as [v|] eqn:E; [|left; exists h1; by eexists]. right.
  destruct (set_vars_run [(lan_ifname, list_remove (got v) i)] h1 n) as (h' & es & Hd & Hc & Hs).
  { apply Forall_singleton. apply (bool_decide_unpack _). by vm_compute. }
  unfold bind in Hr. rewrite Hd in Hr. exists h', es. split; [done|]. unfold edits. rewrite Hat in *.
  split; [done|]. intros Hnil. rewrite Hs by done. cbn [leave_store]. by rewrite E.
Qed.
Lemma leave_mode_run i a n h :
  a <> UnknownMode -> port_name i ->
  (exists h' e, leave_mode i a n (h, n) = Fail (h', n) e /\ at_ h' = at_ h)
  \/ (exists h' es, leave_mode i a n (h, n) = Done (h', n) (es, leave_net i a n) /\ edits h h' es (leave_store i a)).
Proof.
  intros Ha Hi. destruct a; [|exact (leave_lan i n h)|..]; cbn [leave_mode leave_net leave_store]; try done.
  - right. destruct (delete_var_run (filtered_ifname i) h n) as (h' & es & Hd & He). exists h', es. unfold bind. by rewrite Hd.
  - right. destruct (delete_var_run backhaul h n) as (h' & es & Hd & He). exists h', es. unfold bind. by rewrite Hd.
  - right. destruct (delete_var_run backhaul h n) as (h' & es & Hd & He). exists h', es. unfold bind. by rewrite Hd.
  - right. destruct (delete_var_run (lit "network.lte") h n) as (h' & es & Hd & He). exists h', es. unfold bind. by rewrite Hd.
Qed.
Lemma enter_lan i n n' h :
  exists h' es, enter_mode i Lan n' (h, n) = Done (h', n) (es, n') /\ edits h h' es (enter_store i Lan).
Proof.
  cbn [enter_mode]. unfold bind at 1, result. cbn [fst snd]. destruct (get_var_run (lit "network.lan.ifname") h) as (e & -> & He).
  change (lit "network.lan.ifname") with lan_ifname. set (h1 := h ++ _). assert (Hat : at_ h1 = at_ h) by apply get_var_state.
  destruct (fault (length h)).
  { rewrite He. exists h1, [e]. split; [done|]. split; [by rewrite Hat|done]. }
  assert (Hset : forall v, exists h' es, set_vars [(lan_ifname, v)] (h1, n) = Done (h', n) es
    /\ edits h h' es (uci_set lan_ifname v)).
  { intros v. destruct (set_vars_run [(lan_ifname, v)] h1 n) as (h' & es & Hd & Hc & Hs).
    { apply Forall_singleton. apply (bool_decide_unpack _). by vm_compute. }
    exists h', es. split; [done|]. unfold edits. by rewrite Hat in *. }
  destruct (staged (at_ h) !! lan_ifname) as [v|] eqn:E.
  - destruct (Hset (list_add (got v) i)) as (h' & es & Hd & Hc & Hs). exists h', es. unfold bind. rewrite Hd. split; [done|].
    split; [done|]. intros Hnil. rewrite Hs by done. cbn [enter_store]. by rewrite E.
  - change (contains (lit "Entry not found") (error_text (runtime_error (lit "received error while getting UCI: ") not_found)))
      with true. cbv iota. destruct (Hset i) as (h' & es & Hd & Hc & Hs). exists h', es. unfold bind. rewrite Hd. split; [done|].
    split; [done|]. intros Hnil. rewrite Hs by done. cbn [enter_store]. by rewrite E.
Qed.
Lemma enter_mode_run i b n n' h :
  b <> UnknownMode -> port_name i ->
  exists h' es, enter_mode i b n' (h, n) = Done (h', n) (es, enter_net i b n') /\ edits h h' es (enter_store i b).
Proof.
  intros Hb Hi. assert (Hk : Forall (fun kv => "="%char ∉ kv.1) (mode_vars i b)) by (apply mode_vars_keys, readable_plain; auto).
  destruct b; [|exact (enter_lan i n n' h)|..]; cbn [enter_mode enter_net enter_store] in *; try done.
  all: destruct (set_vars_run _ h n Hk) as (h' & es & Hd & He); exists h', es; unfold bind; by rewrite Hd.
Qed.

(** * A change as a whole *)

(** The history ends with this command, which failed; which could not be started. *)
Definition broke_at (h : list Command) (p : text) (a : list text) : Prop :=
  exists h0, h = h0 ++ [(p, a)] /\ fault (length h0) <> None.
Definition not_started (h : list Command) (p : text) (a : list text) : Prop :=
  exists h0, h = h0 ++ [(p, a)] /\ fault (length h0) = Some NotStarted.
Definition both (m : Entries) : uci_machine := {| config := m; staged := m |}.

Lemma revert_run h n :
  exists r, result (uci_revert (lit "network")) (h, n) = Done (h ++ [(lit "uci", [lit "revert"; lit "network"])], n) r
    /\ at_ (h ++ [(lit "uci", [lit "revert"; lit "network"])])
       = match fault (length h) with None => both (config (at_ h)) | Some _ => at_ h end.
Proof.
  unfold result, uci_revert, run_successfully, bind. cbn [fst snd]. rewrite ki_run_machine, uci_at_snoc. cbn [fst snd].
  destruct (fault (length h)) as [[|]|]; cbn [uci_exec fst snd]; [by eexists..|]. rewrite run_revert. by eexists.
Qed.
Lemma commit_run h n :
  let h' := h ++ [(lit "uci", [lit "commit"; lit "network"])] in
  (fault (length h) <> None /\ (exists e, kernel (uci_commit (lit "network")) (h, n) = Fail (h', n) e) /\ at_ h' = at_ h)
  \/ (fault (length h) = None /\ kernel (uci_commit (lit "network")) (h, n) = Done (h', n) tt /\ at_ h' = both (staged (at_ h))).
Proof.
  cbv zeta. unfold kernel, uci_commit, run_successfully, bind. cbn [fst snd]. rewrite ki_run_machine, uci_at_snoc. cbn [fst snd].
  destruct (fault (length h)) as [[|]|]; cbn [uci_exec fst snd]; [left..|right].
  - split; [done|]. split; [by eexists|done].
  - split; [done|]. split; [by eexists|done].
  - rewrite run_commit. done.
Qed.
(** Any other program leaves the configuration alone; only one that cannot be
    started is noticed. *)
Lemma other_run p a (h : list Command) (n : IfNet) :
  text_eqb p (lit "uci") = false ->
  at_ (h ++ [(p, a)]) = at_ h
  /\ ((fault (length h) = Some NotStarted /\ kernel (let! _ := ki_run p a in ret tt) (h, n) = Fail (h ++ [(p, a)], n) (IfKernel IoError))
      \/ (fault (length h) <> Some NotStarted /\ kernel (let! _ := ki_run p a in ret tt) (h, n) = Done (h ++ [(p, a)], n) tt)).
Proof.
  intros Hp. unfold kernel, bind. cbn [fst snd]. rewrite ki_run_machine, uci_at_snoc. cbn [fst snd].
  destruct (fault (length h)) as [[|]|]; cbn [uci_exec fst snd].
  - split; [done|]. by left.
  - split; [done|]. by right.
  - unfold uci_run. rewrite Hp. split; [done|]. by right.
Qed.

(** How a change ends: [old] is the configuration before it and [m] the one of the
    new mode, [n] the settings before it and [n2] those of the new mode. *)
Definition change_ends (old : uci_machine) (m : Entries) (n n2 : IfNet) (o : outcome IfState IfError unit) : Prop :=
  match o with
  | Done (h', n') _ => at_ h' = both m /\ n' = n2
  | Fail (h', n') e =>
      (at_ h' = old /\ n' = n)
      \/ (config (at_ h') = config old /\ n' = n
          /\ (broke_at h' (lit "uci") [lit "commit"; lit "network"] \/ broke_at h' (lit "uci") [lit "revert"; lit "network"]))
      \/ (at_ h' = both m /\ n' = n /\ not_started h' (lit "/etc/init.d/network") [lit "restart"])
      \/ (at_ h' = both m /\ n' = n2 /\ ((saved = false /\ e = IfSettingsError) \/ not_started h' (lit "sync") []))
  | Panic => False
  end.
Lemma finish_run h n n2 old m :
  config (at_ h) = config old -> staged (at_ h) = m ->
  change_ends old m n n2 ((kernel (uci_commit (lit "network"));! kernel openwrt_reset_network;! set_network n2;!
      if negb saved then throw IfSettingsError else kernel fs_sync) (h, n)).
Proof.
  intros Hc <-. unfold bind at 1. destruct (commit_run h n) as [(Hf & [e ->] & Hat)|(_ & -> & Hat)].
  { right. left. rewrite Hat. split; [done|]. split; [done|]. left. by eexists. }
  set (h1 := h ++ _) in *. unfold bind at 1. unfold openwrt_reset_network, sh.
  destruct (other_run (lit "/etc/init.d/network") (lit <$> ["restart"%string]) h1 n) as [Hat2 [[Hf ->]|[_ ->]]]; [done|..].
  { right. right. left. rewrite Hat2. split; [done|]. split; [done|]. by eexists. }
  set (h2 := h1 ++ _) in *. unfold bind at 1, set_network at 1. cbn [fst]. destruct saved eqn:Es; cbn [negb].
  - unfold fs_sync, sh. destruct (other_run (lit "sync") (lit <$> []) h2 n2) as [Hat3 [[Hf ->]|[_ ->]]]; [done|..].
    + right. right. right. rewrite Hat3, Hat2. split; [done|]. split; [done|]. right. by eexists.
    + split; [|done]. by rewrite Hat3, Hat2.
  - right. right. right. rewrite Hat2. split; [done|]. split; [done|]. by left.
Qed.
Lemma transform_run i a b h n :
  port_name i -> a <> b -> a <> UnknownMode -> b <> UnknownMode -> staged (at_ h) = config (at_ h) ->
  change_ends (at_ h) (enter_store i b (leave_store i a (config (at_ h)))) n (enter_net i b (leave_net i a n))
    (ethernet_transform_mode saved i a b (h, n)).
Proof.
  intros Hi Hab Ha Hb Hclean. unfold ethernet_transform_mode.
  rewrite !bool_decide_eq_false_2 by done. cbn [orb]. unfold bind at 1, get_network. cbn [snd].
  destruct (leave_mode_run i a n h Ha Hi) as [(h1 & e & H1 & Hat)|(h1 & es1 & H1 & Hc1 & Hs1)]; unfold bind at 1; rewrite H1.
  { by left. }
  destruct (enter_mode_run i b n (leave_net i a n) h1 Hb Hi) as (h2 & es2 & H2 & Hc2 & Hs2). unfold bind at 1. rewrite H2.
  destruct (es1 ++ es2) as [|e es] eqn:Ees.
  - apply app_nil in Ees as [-> ->]. specialize (Hs1 eq_refl). specialize (Hs2 eq_refl).
    apply finish_run; [congruence|]. by rewrite Hs2, Hs1, Hclean.
  - destruct (revert_run h2 n) as (rv & H3 & Hat3). unfold bind at 1. rewrite H3.
    unfold bind, set_network, throw. cbn [fst change_ends]. rewrite Hat3.
    destruct (fault (length h2)) eqn:Ef.
    + right. left. split; [congruence|]. split; [done|]. right. exists h2. by rewrite Ef.
    + left. split; [|done]. rewrite Hc2, Hc1. destruct (at_ h) as [c s]. cbn in Hclean. by subst.
Qed.

(** C39 Whichever commands fail while a port is moved to another mode, whether
    they cannot be started or are refused (a failing command changes nothing, and
    nothing was staged before), the committed configuration is never half changed
    and there is no panic.  When success is reported, the configuration and the
    settings are those of the new mode.  When an error is reported: (1) the
    configuration, committed and staged, and the settings are what they were; or
    (2) the commit or the revert itself failed: committed configuration and
    settings are what they were, but the staged changes are left behind; or
    (3) the command that restarts the network could not be started: the new
    configuration is committed with the old settings; or (4) both are those of
    the new mode, and only writing the settings to disk or the final sync failed. *)
Theorem mode_change_atomic i a b h n :
  port_name i -> a <> b -> a <> UnknownMode -> b <> UnknownMode -> staged (at_ h) = config (at_ h) ->
  let new_config := enter_store i b (leave_store i a (config (at_ h))) in
  let new_network := enter_net i b (leave_net i a n) in
  match ethernet_transform_mode saved i a b (h, n) with
  | Done (h', n') _ => at_ h' = both new_config /\ n' = new_network
  | Fail (h', n') e =>
      (at_ h' = at_ h /\ n' = n)
      \/ (config (at_ h') = config (at_ h) /\ n' = n
          /\ (broke_at h' (lit "uci") [lit "commit"; lit "network"] \/ broke_at h' (lit "uci") [lit "revert"; lit "network"]))
      \/ (at_ h' = both new_config /\ n' = n /\ not_started h' (lit "/etc/init.d/network") [lit "restart"])
      \/ (at_ h' = both new_config /\ n' = new_network /\ ((saved = false /\ e = IfSettingsError) \/ not_started h' (lit "sync") []))
  | Panic => False
  end.
Proof. exact (transform_run i a b h n). Qed.
End machine.

(** * Lists of ports *)

Lemma split_words L : L <> [] -> Forall word L -> split_on space (join space L) = L.
Proof.
  intros Hne HL. apply split_join; [done|]. eapply Forall_impl; [exact HL|]. intros w Hw. by apply (word_plain w space).
Qed.
Lemma trim_word w : word w -> trim_text w = w.
Proof.
  intros [_ Hw]. unfold trim_text, trim_by. rewrite (drop_while_none is_whitespace w) by done.
  rewrite (drop_while_none is_whitespace (rev w)) by (by apply Forall_rev). apply rev_involutive.
Qed.
Lemma list_rest_words i L acc first :
  Forall word L ->
  list_rest i L acc first
  = acc ++ match filter (fun w => contains i w = false) L with
           | [] => []
           | ws => if first : bool then join space ws else concat ((space ::.) <$> ws)
           end.
Proof.
  intros HL. revert acc first. induction HL as [|w L Hw _ IH]; intros acc first; cbn [list_rest]; [by rewrite app_nil_r|].
  rewrite filter_cons. destruct (contains i w); cbn [negb].
  - rewrite decide_False by done. apply IH.
  - rewrite decide_True, IH by done. rewrite trim_word by done. rewrite <- app_assoc. f_equal.
    destruct first; cbn [fmap list_fmap concat]; destruct (filter _ L) as [|w' ws]; cbn [app]; rewrite ?app_nil_r; try done.
    by rewrite join_cons.
Qed.
(** Removing a port removes every entry that contains its name. *)
Lemma list_remove_words i L : Forall word L -> list_remove (join space L) i = join space (filter (fun w => contains i w = false) L).
Proof.
  intros HL. destruct L as [|w L]; [done|]. unfold list_remove.
  assert (Hne : join space (w :: L) <> []).
  { apply Forall_cons in HL as [[Hw _] _]. rewrite join_cons. by destruct w. }
  destruct (join space (w :: L)) as [|c l] eqn:E; [done|]. rewrite <- E, split_words, list_rest_words by done.
  by destruct (filter _ (w :: L)).
Qed.
Lemma list_add_words i L : L <> [] -> Forall word L -> list_add (join space L) i = join space (L ++ [i]).
Proof.
  intros Hne HL. destruct L as [|w L]; [done|]. apply Forall_cons in HL as [[Hw _] _]. cbn [app]. rewrite !join_cons.
  unfold list_add. destruct (w ++ concat ((space ::.) <$> L)) as [|c l] eqn:E; [by destruct w|]. rewrite <- E.
  rewrite fmap_app, concat_app. cbn [fmap list_fmap concat app]. rewrite app_nil_r. by rewrite <- app_assoc.
Qed.
(** Adding a port and removing it gives the list back, when no entry contains its
    name. *)
Theorem list_add_remove i L :
  L <> [] -> Forall word L -> word i -> Forall (fun w => contains i w = false) L ->
  list_remove (list_add (join space L) i) i = join space L.
Proof.
  intros Hne HL Hi Hc. rewrite list_add_words by done. rewrite list_remove_words by (apply Forall_app; by split; [|apply Forall_singleton]).
  rewrite filter_app, filter_cons_False by (by rewrite contains_refl). rewrite filter_nil, app_nil_r. f_equal.
  clear Hne HL. induction Hc as [|w L Hw _ IH]; [done|]. by rewrite filter_cons_True, IH.
Qed.

Lemma got_words L : L <> [] -> Forall word L -> got (join space L) = join space L.
Proof.
  intros Hne HL. unfold got, trim_text, trim_by.
  assert (Hd : forall l, drop_while is_whitespace (join space L ++ l) = join space L ++ l).
  { intros l. destruct L as [|w L]; [done|]. apply Forall_cons in HL as [[Hw Hws] _]. rewrite join_cons.
    destruct w as [|c w]; [done|]. apply Forall_cons in Hws as [Hc _]. cbn. by rewrite Hc. }
  rewrite Hd, rev_app_distr. cbn [rev app drop_while]. change (is_whitespace newline) with true. cbn [app].
  assert (Hr : drop_while is_whitespace (rev (join space L)) = rev (join space L)).
  { destruct (exists_last Hne) as (L' & w & ->). apply Forall_app in HL as [_ [Hw Hws]%Forall_singleton].
    destruct (join_suffix space w L') as [p ->]. rewrite rev_app_distr.
    destruct (exists_last Hw) as (w' & c & ->). apply Forall_app in Hws as [_ Hc]. apply Forall_inv in Hc.
    rewrite rev_app_distr. cbn [rev app drop_while]. cbn beta in Hc. by rewrite Hc. }
  by rewrite Hr, rev_involutive.
Qed.

(** * Reading the modes *)

(** The mode a section stands for by its name; [None] for the one that has to be
    looked at. *)
Definition simple_mode (setting_name : text) : option InterfaceMode :=
  let s := KernelCounters.replace (lit ".ifname") [] setting_name in
  if contains (lit "rita_") s then Some Mesh
  else if contains (lit "lan") s then Some Lan
  else if contains (lit "lte") s then Some LTE
  else if contains (lit "backhaul") s then None else Some UnknownMode.
Definition backhaul_mode (m : Entries) : option InterfaceMode :=
  proto ← m !! (under backhaul ".proto");
  if contains (lit "dhcp") proto then Some Wan
  else if contains (lit "static") proto then
    netmask ← m !! (under backhaul ".netmask") ≫= parse_v4;
    ipaddr ← m !! (under backhaul ".ipaddr") ≫= parse_v4;
    gateway ← m !! (under backhaul ".gateway") ≫= parse_v4;
    Some (StaticWan netmask ipaddr gateway)
  else None.
Definition mode_at (m : Entries) (k : text) : option InterfaceMode :=
  match simple_mode k with Some md => Some md | None => backhaul_mode m end.
(** A variable that lists the port. *)
Definition lists (k v i : text) : Prop :=
  is_port_setting k v = true /\ i ∈ split_on space v /\ contains (lit "pbs-wlan") i = false.

Section reading.
Context (fault : nat -> option Fault) (m0 : uci_machine).
#[local] Hint Extern 0 Shell => exact (uci_shell fault m0) : typeclass_instances.
Abbreviation at_ := (uci_at fault m0).

(** From here on commands can be run, and what they see can be printed. *)
Definition ready (h : list Command) : Prop :=
  store_ok (staged (at_ h)) /\ forall k, (length h <= k)%nat -> fault k = None.
(** Reading changes nothing. *)
Definition same_from (h h' : list Command) : Prop := at_ h' = at_ h /\ (length h <= length h')%nat.
Lemma same_refl h : same_from h h.
Proof. by split. Qed.
Lemma same_trans h h1 h2 : same_from h h1 -> same_from h1 h2 -> same_from h h2.
Proof. intros [H1 ?] [H2 ?]. split; [congruence|lia]. Qed.
Lemma ready_same h h' : ready h -> same_from h h' -> ready h'.
Proof. intros [Hok Hg] [Hat Hl]. split; [by rewrite Hat|]. intros k Hk. apply Hg. lia. Qed.
Lemma show_state h a : ready h -> same_from h (h ++ [(lit "uci", [lit "show"; a])]).
Proof. intros [_ Hg]. split; [by rewrite uci_at_good by (apply Hg; lia)|]. rewrite length_app. lia. Qed.
Lemma show_ready section h :
  ready h ->
  uci_show (Some section) h
  = Done (h ++ [(lit "uci", [lit "show"; section])]) (filter (fun e => below section e.1 = true) (staged (at_ h))).
Proof. intros [Hok Hg]. apply uci_show_exact; [by apply Hg|done]. Qed.
Lemma ethernet2mode_run v k h n md :
  ready h -> mode_at (staged (at_ h)) k = Some md ->
  exists h', ethernet2mode v k (h, n) = Done (h', n) md /\ same_from h h'.
Proof.
  intros Hok. unfold mode_at, simple_mode, ethernet2mode.
  destruct (contains (lit "rita_") _); [intros [= <-]; by exists h|].
  destruct (contains (lit "lan") _); [intros [= <-]; by exists h|].
  destruct (contains (lit "lte") _); [intros [= <-]; by exists h|].
  destruct (contains (lit "backhaul") _); [|intros [= <-]; by exists h].
  unfold bind at 1, kernel. cbn [fst snd]. rewrite show_ready by done.
  set (sub := filter _ (staged (at_ h))).
  assert (Hsub : forall key, below backhaul key = true -> sub !! key = staged (at_ h) !! key).
  { intros key Hk. apply option_eq. intros x. unfold sub. rewrite map_lookup_filter_Some. cbn [fst]. tauto. }
  do 4 rewrite Hsub by reflexivity. intros Hmd. exists (h ++ [(lit "uci", [lit "show"; backhaul])]). split; [|by apply show_state].
  revert Hmd. unfold backhaul_mode. destruct (staged (at_ h) !! (under backhaul ".proto")) as [proto|]; [cbn [mbind option_bind]|done].
  destruct (contains (lit "dhcp") proto); [by intros [= <-]|]. destruct (contains (lit "static") proto); [|done].
  destruct (staged (at_ h) !! (under backhaul ".netmask")) as [nm|]; [cbn [mbind option_bind]|done].
  destruct (parse_v4 nm) as [nm'|]; [cbn [mbind option_bind]|done].
  destruct (staged (at_ h) !! (under backhaul ".ipaddr")) as [ip|]; [cbn [mbind option_bind]|done].
  destruct (parse_v4 ip) as [ip'|]; [cbn [mbind option_bind]|done].
  destruct (staged (at_ h) !! (under backhaul ".gateway")) as [gw|]; [cbn [mbind option_bind]|done].
  destruct (parse_v4 gw) as [gw'|]; [cbn [mbind option_bind]|done].
  by intros [= <-].
Qed.

(** What reading has found so far: only ports that are listed, with the mode of
    the variable that lists them, and every one of them. *)
Definition found (m : Entries) (l : list (text * text)) (acc r : gmap text InterfaceMode) : Prop :=
  (forall i md, r !! i = Some md -> acc !! i = Some md \/ exists k v, (k, v) ∈ l /\ lists k v i /\ mode_at m k = Some md)
  /\ (forall i, is_Some (acc !! i) -> is_Some (r !! i))
  /\ (forall i k v, (k, v) ∈ l -> lists k v i -> is_Some (r !! i)).

Lemma replace_none c l : c ∉ l -> KernelCounters.replace [c] [] l = l.
Proof.
  intros Hl. unfold KernelCounters.replace. assert (H : (length l <= length l)%nat) by lia. revert H. generalize (length l) at 2 3.
  intros fuel. revert l Hl. induction fuel as [|fuel IH]; intros l Hl Hf; [by destruct l; [|cbn in Hf; lia]|].
  destruct l as [|x l]; [done|]. apply not_elem_of_cons in Hl as [Hx Hl]. cbn [KernelCounters.replace_fuel KernelCounters.expect].
  rewrite (proj2 (Ascii.eqb_neq c x)) by done. rewrite IH by (done || (cbn in Hf; lia)). done.
Qed.

Lemma list_ports_run v k md members acc h n :
  ready h -> mode_at (staged (at_ h)) k = Some md -> Forall (fun w => space ∉ w) members ->
  exists h' r, list_ports v k members acc (h, n) = Done (h', n) r /\ same_from h h'
    /\ (forall i, r !! i = if decide (i ∈ members /\ contains (lit "pbs-wlan") i = false) then Some md else acc !! i).
Proof.
  intros Hok Hmd Hm. revert acc h Hok Hmd. induction Hm as [|w members Hw _ IH]; intros acc h Hok Hmd; cbn [list_ports].
  - exists h, acc. split; [done|]. split; [done|]. intros i. rewrite decide_False; [done|]. by intros [?%elem_of_nil _].
  - destruct (contains (lit "pbs-wlan") w) eqn:Ew.
    + destruct (IH acc h Hok Hmd) as (h' & r & Hr & Hat & Hl). exists h', r. split; [done|]. split; [done|]. intros i.
      rewrite Hl. apply decide_ext. rewrite elem_of_cons. split; [tauto|]. intros [[->|?] ?]; [congruence|done].
    + destruct (ethernet2mode_run v k h n md Hok Hmd) as (h1 & H1 & Hat1). unfold bind. rewrite H1.
      change (KernelCounters.replace (lit " ") [] w) with (KernelCounters.replace [space] [] w). rewrite (replace_none space w) by done.
      destruct (IH (<[w := md]> acc) h1) as (h' & r & Hr & Hat & Hl);
        [by eapply ready_same|by rewrite (proj1 Hat1)|].
      exists h', r. split; [done|]. split; [by eapply same_trans|]. intros i. rewrite Hl.
      destruct (decide (i = w)) as [->|Hne].
      * rewrite lookup_insert_eq. destruct (decide (w ∈ w :: members /\ _)) as [_|Hn]; [by case_decide|].
        exfalso. apply Hn. split; [by left|done].
      * rewrite lookup_insert_ne by done. apply decide_ext. rewrite elem_of_cons. split; [tauto|]. intros [[?|?] ?]; done.
Qed.

Lemma split_space_plain v : Forall (fun w => space ∉ w) (split_on space v).
Proof.
  induction v as [|c v IH]; cbn [split_on]; [apply Forall_singleton, not_elem_of_nil|].
  destruct (Ascii.eqb_spec c space) as [->|Hc]; [constructor; [apply not_elem_of_nil|done]|].
  destruct (split_on space v) as [|w ws]; [apply Forall_singleton, not_elem_of_cons; split; [done|apply not_elem_of_nil]|]. apply Forall_cons in IH as [Hw Hws]. constructor; [|done].
  apply not_elem_of_cons. by split.
Qed.
Lemma contains_space v : contains (lit " ") v = false -> space ∉ v.
Proof.
  intros Hc Hin. apply list_elem_of_split in Hin as (a & b & ->). change (lit " ") with [space] in Hc.
  pose proof (contains_app [space] a b) as H. cbn [app] in H. congruence.
Qed.
Lemma one_port v k md acc h n :
  ready h -> mode_at (staged (at_ h)) k = Some md ->
  exists h' r,
    (if contains (lit " ") v then list_ports v k (split_on space v) acc
     else if contains (lit "pbs-wlan") v then ret acc
     else let! mode := ethernet2mode v k in ret (<[v := mode]> acc)) (h, n) = Done (h', n) r
    /\ same_from h h'
    /\ (forall i, r !! i = if decide (i ∈ split_on space v /\ contains (lit "pbs-wlan") i = false) then Some md else acc !! i).
Proof.
  intros Hok Hmd. destruct (contains (lit " ") v) eqn:Es.
  { apply list_ports_run; [done..|apply split_space_plain]. }
  rewrite split_on_single by (by apply contains_space). destruct (contains (lit "pbs-wlan") v) eqn:Ep.
  - exists h, acc. split; [done|]. split; [done|]. intros i. rewrite decide_False; [done|]. intros [->%list_elem_of_singleton ?]. congruence.
  - destruct (ethernet2mode_run v k h n md Hok Hmd) as (h1 & H1 & Hat1). exists h1, (<[v := md]> acc). unfold bind. rewrite H1.
    split; [done|]. split; [done|]. intros i. destruct (decide (i = v)) as [->|Hne].
    + rewrite lookup_insert_eq, decide_True; [done|]. split; [by left|done].
    + rewrite lookup_insert_ne, decide_False by (done || (intros [?%list_elem_of_singleton ?]; congruence)). done.
Qed.
Lemma collect_ports_run l acc h n :
  ready h ->
  (forall k v, (k, v) ∈ l -> is_port_setting k v = true -> is_Some (mode_at (staged (at_ h)) k)) ->
  exists h' r, collect_interfaces l acc (h, n) = Done (h', n) r /\ same_from h h' /\ found (staged (at_ h)) l acc r.
Proof.
  revert acc h. induction l as [|[k v] l IH]; intros acc h Hok Hall; cbn [collect_interfaces].
  { exists h, acc. split; [done|]. split; [done|]. split_and!; [by left|done|by intros i k v ?%elem_of_nil]. }
  assert (Hall' : forall k v, (k, v) ∈ l -> is_port_setting k v = true -> is_Some (mode_at (staged (at_ h)) k))
    by (intros k' v' Hin; apply Hall; by right).
  destruct (is_port_setting k v) eqn:Ek.
  - destruct (Hall k v ltac:(by left) Ek) as [md Hmd].
    destruct (one_port v k md acc h n Hok Hmd) as (h1 & acc1 & H1 & Hat1 & Hl1). unfold bind at 1. rewrite H1.
    destruct (IH acc1 h1) as (h2 & r & H2 & Hat2 & Hf1 & Hf2 & Hf3);
      [by eapply ready_same|by rewrite (proj1 Hat1)|]. rewrite (proj1 Hat1) in *.
    exists h2, r. split; [done|]. split; [by eapply same_trans|].
    assert (Hacc : forall i, is_Some (acc !! i) -> is_Some (acc1 !! i)) by (intros i Hi; rewrite Hl1; by case_decide).
    split_and!.
    + intros i md' Hi. destruct (Hf1 i md' Hi) as [Ha|(k' & v' & Hin & Hlk & Hm)].
      * rewrite Hl1 in Ha. case_decide as Hd; [|by left]. injection Ha as <-. right. exists k, v. split; [by left|]. done.
      * right. exists k', v'. split; [by right|done].
    + auto.
    + intros i k' v' [[= -> ->]|Hin]%elem_of_cons Hlk; [|by apply (Hf3 i k' v')]. apply Hf2. rewrite Hl1.
      destruct Hlk as (_ & Hin & Hp). by rewrite decide_True.
  - destruct (IH acc h Hok Hall') as (h2 & r & H2 & Hat2 & Hf1 & Hf2 & Hf3). exists h2, r. split; [done|]. split; [done|].
    split_and!; [|done|].
    + intros i md Hi. destruct (Hf1 i md Hi) as [?|(k' & v' & Hin & Hr)]; [by left|]. right. exists k', v'. split; [by right|done].
    + intros i k' v' [[= -> ->]|Hin]%elem_of_cons Hlk; [destruct Hlk; congruence|]. by apply (Hf3 i k' v').
Qed.

(** A port that is listed in one variable only has the mode of that variable. *)
Lemma get_interfaces_run h n :
  ready h ->
  (forall k v, staged (at_ h) !! k = Some v -> is_port_setting k v = true -> is_Some (mode_at (staged (at_ h)) k)) ->
  exists h' r, get_interfaces (h, n) = Done (h', n) r /\ same_from h h'
    /\ forall i k v md, staged (at_ h) !! k = Some v -> below (lit "network") k = true -> lists k v i ->
         (forall k' v', staged (at_ h) !! k' = Some v' -> lists k' v' i -> k' = k) ->
         mode_at (staged (at_ h)) k = Some md -> r !! i = Some md.
Proof.
  intros Hok Hall. unfold get_interfaces, bind, kernel. cbn [fst snd]. rewrite show_ready by done.
  set (sub := filter _ (staged (at_ h))). set (h1 := h ++ _).
  assert (Hsame : same_from h h1) by (by apply show_state). pose proof (proj1 Hsame) as Hat.
  assert (Hsub : forall k v, (k, v) ∈ map_to_list sub <-> staged (at_ h) !! k = Some v /\ below (lit "network") k = true)
    by (intros k v; unfold sub; by rewrite elem_of_map_to_list, map_lookup_filter_Some).
  destruct (collect_ports_run (map_to_list sub) ∅ h1 n) as (h2 & r & H2 & Hat2 & Hf1 & Hf2 & Hf3).
  { by eapply ready_same. } { intros k v [Hk _]%Hsub. rewrite Hat. by apply Hall. }
  rewrite Hat in *. exists h2, r. split; [exact H2|]. split; [by eapply same_trans|]. intros i k v md Hk Hb Hl Huniq Hmd.
  destruct (Hf3 i k v) as [md' Hr]; [by apply Hsub|done|]. rewrite Hr.
  destruct (Hf1 i md' Hr) as [?|(k' & v' & [Hk' _]%Hsub & Hl' & Hmd')]; [by rewrite lookup_empty in *|].
  rewrite (Huniq k' v' Hk' Hl') in Hmd'. congruence.
Qed.
End reading.

(** * The mode that was set is read *)

Definition port_ok (i : text) : Prop :=
  word i /\ readable i /\ i <> lit "interface" /\ i <> lit "static" /\ i <> lit "lo"
  /\ contains (lit "pbs-wlan") i = false /\ contains (lit "backhaul") i = false.
Definition mode_ok (b : InterfaceMode) : Prop :=
  match b with
  | StaticWan nm ip gw => 0 <= nm < 2 ^ 32 /\ 0 <= ip < 2 ^ 32 /\ 0 <= gw < 2 ^ 32
  | UnknownMode => False
  | _ => True
  end.
(** The variable that lists a port of a mode. *)
Definition location (i : text) (b : InterfaceMode) : text :=
  match b with
  | Wan | StaticWan _ _ _ => under backhaul ".ifname"
  | LTE => lit "network.lte.ifname"
  | Mesh => under (filtered_ifname i) ".ifname"
  | Lan | UnknownMode => lan_ifname
  end.
Definition only_at (m : Entries) (i k0 : text) : Prop := forall k v, m !! k = Some v -> lists k v i -> k = k0.
Definition lan_ok (m : Entries) : Prop :=
  forall v, m !! lan_ifname = Some v -> exists L, L <> [] /\ Forall word L /\ v = join space L /\ contains (lit "backhaul") v = false.
(** A configuration that can be read: only the section of the uplink needs to be
    looked at to tell a mode, and the ports of the LAN are a list of names. *)
Definition config_ok (m : Entries) : Prop :=
  store_ok m
  /\ (forall k v, m !! k = Some v -> is_port_setting k v = true -> simple_mode k = None ->
        below backhaul k = true /\ is_Some (backhaul_mode m))
  /\ lan_ok m.

Lemma uci_set_lookup k v m k' :
  uci_set k v m !! k' = if decide (k = k') then (if bool_decide (v = []) then None else Some v) else m !! k'.
Proof.
  unfold uci_set. case_bool_decide; case_decide; subst; by rewrite ?lookup_delete_eq, ?lookup_delete_ne, ?lookup_insert_eq, ?lookup_insert_ne by done.
Qed.
Lemma set_all_lookup vars m (k v : text) : set_all vars m !! k = Some v -> (k, v) ∈ vars \/ m !! k = Some v.
Proof.
  revert m. induction vars as [|[k0 v0] vars IH]; intros m; cbn; [by right|]. intros H. destruct (IH _ H) as [?|H1]; [left; by right|].
  rewrite uci_set_lookup in H1. case_decide; [|by right]. subst. case_bool_decide; [done|]. injection H1 as <-. left. by left.
Qed.
Lemma set_all_other vars m k : k ∉ vars.*1 -> set_all vars m !! k = m !! k.
Proof.
  revert m. induction vars as [|[k0 v0] vars IH]; intros m Hk; cbn; [done|]. apply not_elem_of_cons in Hk as [Hk Hks].
  change (foldl _ _ vars) with (set_all vars (uci_set k0 v0 m)). rewrite IH by done. rewrite uci_set_lookup. by rewrite decide_False.
Qed.
Lemma set_all_at vars1 vars2 (k v : text) m : v <> [] -> k ∉ vars2.*1 -> set_all (vars1 ++ (k, v) :: vars2) m !! k = Some v.
Proof.
  intros Hv Hk. unfold set_all. rewrite foldl_app. cbn [foldl fst snd]. change (foldl _ ?x vars2) with (set_all vars2 x).
  rewrite set_all_other by done. rewrite uci_set_lookup, decide_True by done. by rewrite bool_decide_eq_false_2.
Qed.
Lemma uci_delete_lookup s m (k v : text) : uci_delete s m !! k = Some v <-> m !! k = Some v /\ below s k = false.
Proof. unfold uci_delete. by rewrite map_lookup_filter_Some. Qed.
Lemma below_under s x : below s (under s (String "." x)) = true.
Proof.
  unfold below, under. change (lit (String "." x)) with (lit "." ++ lit x). rewrite app_assoc, starts_with_app. by rewrite orb_true_r.
Qed.

Lemma filter_words i L : Forall word L -> Forall word (filter (fun w => contains i w = false) L).
Proof. rewrite !Forall_forall. intros HL w [_ Hin]%list_elem_of_filter. auto. Qed.

(** After leaving its mode the port is listed nowhere. *)
Lemma leave_unlists i a m k v :
  a <> UnknownMode -> config_ok m -> only_at m i (location i a) -> leave_store i a m !! k = Some v -> ~ lists k v i.
Proof.
  intros Ha (_ & _ & HL) Honly Hk Hl.
  assert (Hdel : forall s, location i a = under s ".ifname" -> leave_store i a m = uci_delete s m -> False).
  { intros s Hloc Hls. rewrite Hls in Hk. apply uci_delete_lookup in Hk as [Hk Hb].
    rewrite (Honly k v Hk Hl), Hloc, below_under in Hb. done. }
  destruct a; cbn [location leave_store] in *; try done; try (by eapply Hdel); [|by apply (Hdel (lit "network.lte"))].
  - destruct (m !! lan_ifname) as [v0|] eqn:E.
    + destruct (HL v0 E) as (L & Hne & Hw & -> & _). rewrite got_words, list_remove_words in Hk by done.
      rewrite uci_set_lookup in Hk. case_decide as Hd; [subst k|].
      * case_bool_decide as Hj; [done|]. injection Hk as <-. destruct Hl as (_ & Hin & _).
        rewrite split_words in Hin; [|by intros He; rewrite He in Hj|by apply filter_words].
        apply list_elem_of_filter in Hin as [Hc _]. by rewrite contains_refl in Hc.
      * apply Hd. symmetry. by apply (Honly k v).
    + apply (Honly k v Hk) in Hl as ->. congruence.
Qed.

Lemma starts_with_sep p a c b : c ∉ p -> starts_with p (a ++ c :: b) = starts_with p a.
Proof.
  revert a. induction p as [|x p IH]; intros a Hp; [by destruct a|]. apply not_elem_of_cons in Hp as [Hx Hp].
  destruct a as [|y a]; cbn [app starts_with]; [by rewrite (proj2 (Ascii.eqb_neq x c)) by done|]. by rewrite IH.
Qed.
Lemma contains_sep p a c b : p <> [] -> c ∉ p -> contains p (a ++ c :: b) = contains p a || contains p b.
Proof.
  intros Hp Hc. induction a as [|y a IH].
  - cbn [app contains]. destruct p as [|x p]; [done|]. apply not_elem_of_cons in Hc as [Hx Hc]. cbn [starts_with].
    by rewrite (proj2 (Ascii.eqb_neq x c)) by done.
  - cbn [app contains]. rewrite IH. rewrite <- (starts_with_sep p (y :: a) c b) by done. cbn [app]. by rewrite orb_assoc.
Qed.
Lemma is_port_simple k i : contains (lit "ifname") k = true -> port_ok i -> is_port_setting k i = true.
Proof.
  intros Hk (_ & _ & _ & _ & Hlo & _ & Hb). unfold is_port_setting, text_eqb. rewrite Hk, Hb. by rewrite bool_decide_eq_false_2.
Qed.
Lemma lists_alone k i : contains (lit "ifname") k = true -> port_ok i -> lists k i i.
Proof.
  intros Hk Hi. pose proof Hi as (Hw & _ & _ & _ & _ & Hp & _). split; [by apply is_port_simple|]. split; [|done].
  rewrite split_on_single by (by apply (word_plain i space)). by left.
Qed.
Lemma lists_word k v i : word v -> lists k v i -> v = i.
Proof. intros Hv (_ & Hin & _). rewrite split_on_single in Hin by (by apply (word_plain v space)). by apply list_elem_of_singleton in Hin. Qed.
Lemma under_ne s x y : lit x <> lit y -> under s x <> under s y.
Proof. intros Hne H. by apply app_inv_head in H. Qed.
Lemma contains_under p s x : contains p (lit x) = true -> contains p (under s x) = true.
Proof. apply contains_app_r. Qed.

(** After entering a mode the port is listed in its variable and nowhere else. *)
Lemma enter_lists i b m :
  b <> UnknownMode -> port_ok i ->
  (b = Lan -> lan_ok m) ->
  (forall k v, m !! k = Some v -> ~ lists k v i) ->
  (exists v, enter_store i b m !! location i b = Some v /\ lists (location i b) v i)
  /\ only_at (enter_store i b m) i (location i b).
Proof.
  intros Hb Hi HL Hnone. pose proof Hi as (Hw & Hrd & Hn1 & Hn2 & Hlo & Hp & Hbk). destruct Hw as [Hne Hws].
  assert (Hnil : i <> []) by done.
  assert (Hvars : forall vars1 vars2 k0, mode_vars i b = vars1 ++ (k0, i) :: vars2 -> enter_store i b m = set_all (mode_vars i b) m ->
    location i b = k0 -> contains (lit "ifname") k0 = true -> k0 ∉ vars2.*1 ->
    Forall (fun kv => contains (lit "ifname") kv.1 = false \/ (word kv.2 /\ kv.2 <> i)) (vars1 ++ vars2) ->
    (exists v, enter_store i b m !! location i b = Some v /\ lists (location i b) v i)
    /\ only_at (enter_store i b m) i (location i b)).
  { intros vars1 vars2 k0 Hv -> -> Hk0 Hni Hall. split.
    - exists i. split; [|by apply lists_alone]. rewrite Hv. by apply set_all_at.
    - intros k v Hk Hl. apply set_all_lookup in Hk as [Hk|Hk]; [|by destruct (Hnone k v Hk)]. rewrite Hv in Hk.
      apply elem_of_app in Hk. rewrite elem_of_cons in Hk. destruct (decide (k = k0)) as [|Hne0]; [done|].
      assert (Hin : (k, v) ∈ vars1 ++ vars2) by (rewrite elem_of_app; destruct Hk as [?|[[= ? ?]|?]]; [by left|done|by right]).
      rewrite Forall_forall in Hall. destruct (Hall _ Hin) as [Hc|[Hw Hni']]; cbn [fst snd] in *.
      + destruct Hl as [Hp' _]. unfold is_port_setting in Hp'. by rewrite Hc in Hp'.
      + by apply lists_word in Hl. }
  destruct b; try done.
  - apply (Hvars [_] [_] (under (filtered_ifname i) ".ifname") eq_refl eq_refl eq_refl).
    + by apply contains_under.
    + cbn [fmap list_fmap fst]. apply not_elem_of_cons. split; [by apply under_ne|apply not_elem_of_nil].
    + cbn [app]. repeat (apply Forall_cons; split; [right; cbn [snd]; split; [by apply lit_word|congruence]|]). done.
  - cbn [enter_store location].
    set (new := match m !! lan_ifname with Some v => list_add (got v) i | None => i end).
    assert (Hnew : new <> [] /\ lists lan_ifname new i).
    { unfold new. unfold lan_ok in HL. destruct (m !! lan_ifname) as [v|]; [|split; [done|by apply lists_alone]].
      destruct (HL eq_refl v eq_refl) as (L & HLne & HLw & -> & Hbl). rewrite got_words by done. pose proof (list_add_words i L HLne HLw) as Hadd.
      assert (HLi : Forall word (L ++ [i])) by (apply Forall_app; split; [done|by apply Forall_singleton]).
      assert (Hform : exists p, list_add (join space L) i = p ++ space :: i /\ p = join space L /\ p <> []).
      { unfold list_add. destruct (join space L) as [|c l] eqn:E; [|by eexists].
        destruct L as [|w L]; [done|]. apply Forall_cons in HLw as [[? _] _]. rewrite join_cons in E. by destruct w. }
      destruct Hform as (p & Hf & -> & Hpne). split; [rewrite Hf; by destruct (join space L)|]. split; [|split; [|done]].
      - unfold is_port_setting, text_eqb. rewrite Hf. rewrite contains_sep, Hbl, Hbk by (done || (apply (bool_decide_unpack _); by vm_compute)).
        rewrite bool_decide_eq_false_2; [done|]. intros He. assert (Hsp : space ∈ lit "lo") by (rewrite <- He; apply elem_of_app; right; by left).
        revert Hsp. apply (bool_decide_unpack _). by vm_compute.
      - rewrite Hadd, split_words by (done || by destruct L). apply elem_of_app. right. by left. }
    destruct Hnew as [Hn Hl]. split.
    + exists new. rewrite uci_set_lookup, decide_True by done. by rewrite bool_decide_eq_false_2.
    + intros k v Hk Hl'. rewrite uci_set_lookup in Hk. case_decide; [done|]. by destruct (Hnone k v Hk).
  - apply (Hvars [_] [_] (under backhaul ".ifname") eq_refl eq_refl eq_refl eq_refl).
    + apply (bool_decide_unpack _). by vm_compute.
    + cbn [app]. repeat (apply Forall_cons; split; [by left|]). done.
  - apply (Hvars [_] [_; _; _; _] (under backhaul ".ifname") eq_refl eq_refl eq_refl eq_refl).
    + cbn [fmap list_fmap fst]. rewrite !not_elem_of_cons. split_and!; (by apply under_ne) || apply not_elem_of_nil.
    + cbn [app]. repeat (apply Forall_cons; split; [by left|]). done.
  - apply (Hvars [_] [_] (lit "network.lte.ifname") eq_refl eq_refl eq_refl eq_refl).
    + apply (bool_decide_unpack _). by vm_compute.
    + cbn [app]. repeat (apply Forall_cons; split; [by left|]). done.
Qed.

(** ** The new configuration can be read *)

Lemma parse_show_v4 a : 0 <= a < 2 ^ 32 -> parse_v4 (show_v4 a) = Some a.
Proof. intros Ha. unfold parse_v4. rewrite <- (app_nil_r (show_v4 a)). by rewrite read_v4. Qed.
Lemma show_v4_readable a : 0 <= a < 2 ^ 32 -> readable (show_v4 a).
Proof.
  intros Ha. split; [apply (show_ip_nonempty (V4 a) Ha)|]. apply Forall_forall. intros c Hc.
  split_and!; intros ->; revert Hc; by apply (show_ip_plain (V4 a)).
Qed.
Lemma readable_lit s : bool_decide (readable (lit s)) = true -> readable (lit s).
Proof. apply bool_decide_eq_true_1. Qed.
Lemma readable_app a b : readable a -> Forall (fun c => c <> "="%char /\ c <> newline /\ c <> cr /\ c <> quote) b -> readable (a ++ b).
Proof. intros [Hne Ha] Hb. split; [by destruct a|]. by apply Forall_app. Qed.
Lemma readable_all t : readable t -> Forall (fun c => c <> "="%char /\ c <> newline /\ c <> cr /\ c <> quote) t.
Proof. by intros []. Qed.
Lemma replace_forall (P : ascii -> Prop) from l : Forall P l -> Forall P (KernelCounters.replace from [] l).
Proof.
  rewrite !Forall_forall. intros Hl c Hc. apply Hl. destruct (decide (c ∈ l)) as [|Hn]; [done|].
  by destruct (replace_plain from l c Hn).
Qed.
Lemma filtered_readable i : readable i -> readable (filtered_ifname i).
Proof. intros Hi. apply readable_app; [by apply readable_lit|]. by apply replace_forall, readable_all. Qed.
Lemma mode_vars_readable i b : readable i -> mode_ok b -> Forall (fun kv => readable kv.1 /\ readable kv.2) (mode_vars i b).
Proof.
  intros Hi Hb. pose proof (filtered_readable i Hi) as Hf.
  assert (Hu : forall x, readable (lit x) -> readable (under (filtered_ifname i) x))
    by (intros x Hx; apply readable_app; [done|by apply readable_all]).
  destruct b; cbn [mode_vars app mode_ok] in *; try done;
    repeat (apply Forall_cons; split; [cbn [fst snd]; split|]); try done;
    first [by apply readable_lit | by apply Hu, readable_lit | apply show_v4_readable; tauto | by apply (readable_lit "network.backhaul.ifname")
          | by apply (readable_lit "network.backhaul") | by apply (readable_lit "network.backhaul.proto")
          | by apply (readable_lit "network.backhaul.netmask") | by apply (readable_lit "network.backhaul.ipaddr")
          | by apply (readable_lit "network.backhaul.gateway") | idtac ].
Qed.
Lemma store_ok_set k v m : readable k -> (v <> [] -> readable v) -> store_ok m -> store_ok (uci_set k v m).
Proof.
  intros Hk Hv Hm k' v'. rewrite uci_set_lookup. case_decide; [|apply Hm]. subst. case_bool_decide; [done|]. intros [= <-]. auto.
Qed.
Lemma store_ok_set_all vars m : Forall (fun kv => readable kv.1 /\ readable kv.2) vars -> store_ok m -> store_ok (set_all vars m).
Proof.
  intros Hv. revert m. induction Hv as [|[k v] vars [Hk Hr] _ IH]; intros m Hm; [done|]. cbn. apply IH. by apply store_ok_set.
Qed.
Lemma store_ok_delete s m : store_ok m -> store_ok (uci_delete s m).
Proof. intros Hm k v [Hk _]%uci_delete_lookup. by apply (Hm k v). Qed.
Lemma join_readable L L' : readable (join space L) -> join space L' <> [] -> (forall w, w ∈ L' -> w ∈ L) -> readable (join space L').
Proof.
  intros [_ HL] Hne Hsub. split; [done|]. apply Forall_forall. intros c Hc. rewrite Forall_forall in HL.
  destruct (elem_of_join _ _ _ Hc) as [->|(w & Hw & Hcw)]; [by split_and!|]. apply HL.
  apply Hsub in Hw. clear -Hw Hcw. induction L as [|x L IH]; [by apply elem_of_nil in Hw|]. apply elem_of_cons in Hw as [<-|Hw].
  - rewrite join_cons. apply elem_of_app. by left.
  - destruct L as [|y L]; [by apply elem_of_nil in Hw|].
    change (join space (x :: y :: L)) with (x ++ space :: join space (y :: L)). apply elem_of_app. right. right. by apply IH.
Qed.

Lemma leave_store_ok i a m : config_ok m -> store_ok (leave_store i a m).
Proof.
  intros (Hm & _ & HL). destruct a; cbn [leave_store]; try by apply store_ok_delete. 2: done.
  destruct (m !! lan_ifname) as [v|] eqn:E; [|done]. destruct (HL v E) as (L & Hne & Hw & -> & _).
  rewrite got_words, list_remove_words by done. apply store_ok_set; [by apply (readable_lit "network.lan.ifname")| |done].
  intros Hj. apply (join_readable L); [by apply (Hm lan_ifname)|done|]. by intros w [_ ?]%list_elem_of_filter.
Qed.
Lemma enter_store_ok i b m :
  readable i -> mode_ok b ->
  (b = Lan -> lan_ok m) ->
  store_ok m -> store_ok (enter_store i b m).
Proof.
  intros Hi Hb HL Hm. destruct b; try (by apply store_ok_set_all, Hm; apply mode_vars_readable).
  cbn [enter_store]. apply store_ok_set; [by apply (readable_lit "network.lan.ifname")| |done]. intros _.
  destruct (m !! lan_ifname) as [v|] eqn:E; [|done]. destruct (HL eq_refl v E) as (L & Hne & Hw & -> & _). rewrite got_words by done.
  destruct (Hm _ _ E) as [_ Hr]. unfold list_add. destruct (join space L) as [|c l] eqn:Ej; [done|]. apply readable_app.
  - done.
  - change (lit " " ++ i) with (space :: i). apply Forall_cons. split; [by split_and!|by apply readable_all].
Qed.

(** ** The modes of the new configuration *)

Definition backhaul_keys : list text := under backhaul <$> [".proto"; ".netmask"; ".ipaddr"; ".gateway"]%string.
Lemma backhaul_mode_ext m m' : (forall k, k ∈ backhaul_keys -> m !! k = m' !! k) -> backhaul_mode m = backhaul_mode m'.
Proof.
  intros He. unfold backhaul_mode.
  rewrite (He (under backhaul ".proto")), (He (under backhaul ".netmask")), (He (under backhaul ".ipaddr")),
    (He (under backhaul ".gateway")); [done|..]; apply (bool_decide_unpack _); by vm_compute.
Qed.
Lemma backhaul_key_prefix k : k ∈ backhaul_keys -> exists t, k = lit "network.b" ++ t.
Proof. unfold backhaul_keys. rewrite list_elem_of_fmap. intros (x & -> & _). eexists. reflexivity. Qed.
Lemma not_below_rita i k : k ∈ backhaul_keys -> below (filtered_ifname i) k = false.
Proof.
  intros [t ->]%backhaul_key_prefix. unfold below, text_eqb. rewrite bool_decide_eq_false_2 by (intros [=]). reflexivity.
Qed.
Lemma leave_backhaul i a m k : is_wan a = false -> k ∈ backhaul_keys -> leave_store i a m !! k = m !! k.
Proof.
  intros Ha Hk. assert (Hd : forall s, below s k = false -> uci_delete s m !! k = m !! k)
    by (intros s Hs; apply option_eq; intros v; rewrite uci_delete_lookup; tauto).
  destruct (backhaul_key_prefix k Hk) as [t ->]. destruct a; cbn [leave_store]; try done.
  - by apply Hd, not_below_rita.
  - case_match; [|done]. rewrite uci_set_lookup, decide_False by (intros [=]). done.
  - apply Hd. unfold below, text_eqb. rewrite bool_decide_eq_false_2 by (intros [=]). reflexivity.
Qed.
Lemma enter_backhaul i b m k : is_wan b = false -> k ∈ backhaul_keys -> enter_store i b m !! k = m !! k.
Proof.
  intros Hb [t ->]%backhaul_key_prefix. destruct b; cbn [enter_store]; try done.
  - apply set_all_other. cbn [mode_vars fmap list_fmap fst]. rewrite !not_elem_of_cons. split_and!; try (intros [=]). apply not_elem_of_nil.
  - rewrite uci_set_lookup, decide_False by (intros [=]). done.
  - apply set_all_other. cbn [mode_vars fmap list_fmap fst]. rewrite !not_elem_of_cons. split_and!; try (intros [=]). apply not_elem_of_nil.
Qed.
Lemma simple_rita i x : simple_mode (under (filtered_ifname i) x) = Some Mesh.
Proof.
  unfold simple_mode. assert (Hr : exists t, KernelCounters.replace (lit ".ifname") [] (under (filtered_ifname i) x) = lit "network." ++ lit "rita_" ++ t)
    by (unfold under, filtered_ifname; rewrite <- app_assoc; eexists; reflexivity).
  destruct Hr as [t ->]. by rewrite contains_app.
Qed.
Lemma mode_var_at n i b m (k v : text) :
  mode_vars i b !! n = Some (k, v) -> v <> [] -> bool_decide (k ∈ (drop (S n) (mode_vars i b)).*1) = false ->
  set_all (mode_vars i b) m !! k = Some v.
Proof. intros Hn Hv Hk%bool_decide_eq_false. rewrite <- (take_drop_middle _ _ _ Hn). by apply set_all_at. Qed.
Lemma enter_mode_at i b m : port_ok i -> mode_ok b -> mode_at (enter_store i b m) (location i b) = Some b.
Proof.
  intros Hi Hb. destruct b as [| | |nm ip gw| |]; cbn [location mode_ok] in *; try done; unfold mode_at;
    change (simple_mode (under backhaul ".ifname")) with (@None InterfaceMode); unfold backhaul_mode; cbn [enter_store].
  - by rewrite (mode_var_at 2 i Wan m (under backhaul ".proto") (lit "dhcp")).
  - pose proof (show_v4_readable nm ltac:(tauto)) as [? _]. pose proof (show_v4_readable ip ltac:(tauto)) as [? _].
    pose proof (show_v4_readable gw ltac:(tauto)) as [? _]. set (b := StaticWan nm ip gw).
    rewrite (mode_var_at 2 i b m (under backhaul ".proto") (lit "static")),
      (mode_var_at 3 i b m (under backhaul ".netmask") (show_v4 nm)),
      (mode_var_at 4 i b m (under backhaul ".ipaddr") (show_v4 ip)),
      (mode_var_at 5 i b m (under backhaul ".gateway") (show_v4 gw)) by done.
    cbn [mbind option_bind]. change (contains (lit "dhcp") (lit "static")) with false. change (contains (lit "static") (lit "static")) with true.
    by rewrite !parse_show_v4 by tauto.
Qed.

Lemma leave_keeps i a m (k v : text) :
  leave_store i a m !! k = Some v -> k <> lan_ifname -> m !! k = Some v /\ (is_wan a = true -> below backhaul k = false).
Proof.
  intros Hk Hne. destruct a; cbn [leave_store is_wan] in *; try (apply uci_delete_lookup in Hk as [? ?]; by split); [|done].
  split; [|done]. destruct (m !! lan_ifname); [|done]. rewrite uci_set_lookup, decide_False in Hk by done. done.
Qed.
Lemma leave_lan_ok i a m : a <> Lan -> lan_ok m -> lan_ok (leave_store i a m).
Proof.
  intros Ha HL v. destruct a; cbn [leave_store]; try done; try apply HL; intros [Hv _]%uci_delete_lookup; by apply HL.
Qed.
Lemma new_modes i a b m k v :
  a <> UnknownMode -> port_ok i -> mode_ok b -> config_ok m ->
  enter_store i b (leave_store i a m) !! k = Some v -> is_port_setting k v = true ->
  is_Some (mode_at (enter_store i b (leave_store i a m)) k).
Proof.
  intros Ha Hi Hb (_ & Hmodes & _) Hk Hport. set (m1 := leave_store i a m) in *.
  unfold mode_at. destruct (simple_mode k) as [md|] eqn:Es; [by eexists|].
  assert (Hlan : k <> lan_ifname) by (intros ->; by vm_compute in Es).
  destruct (is_wan b) eqn:Ewb.
  { pose proof (enter_mode_at i b m1 Hi Hb) as Hat. exists b. unfold mode_at in Hat.
    destruct b; try done; cbn [location] in Hat;
      by change (simple_mode (under backhaul ".ifname")) with (@None InterfaceMode) in Hat. }
  assert (Hk1 : m1 !! k = Some v).
  { destruct b; cbn [enter_store is_wan mode_ok] in *; try done.
    - apply set_all_lookup in Hk as [Hk|Hk]; [|done]. exfalso. cbn [mode_vars] in Hk. rewrite !elem_of_cons in Hk.
      destruct Hk as [[= -> ->]|[[= -> ->]|[[= -> ->]|Hk]]]; [|by rewrite simple_rita in Es..|by apply elem_of_nil in Hk].
      pose proof (simple_rita i "") as H. unfold under in H. change (lit "") with (@nil ascii) in H. rewrite app_nil_r in H. congruence.
    - rewrite uci_set_lookup, decide_False in Hk by done. done.
    - apply set_all_lookup in Hk as [Hk|Hk]; [|done]. exfalso. cbn [mode_vars] in Hk. rewrite !elem_of_cons in Hk.
      destruct Hk as [[= -> ->]|[[= -> ->]|[[= -> ->]|Hk]]]; [by vm_compute in Es..|by apply elem_of_nil in Hk]. }
  destruct (leave_keeps i a m k v Hk1 Hlan) as [Hk0 Hwan]. destruct (Hmodes k v Hk0 Hport Es) as [Hbel Hbm].
  destruct (is_wan a) eqn:Ewa; [rewrite Hwan in Hbel by done; done|].
  rewrite (backhaul_mode_ext _ m); [done|]. intros x Hx. rewrite enter_backhaul by done. by apply leave_backhaul.
Qed.
Lemma location_below i b : below (lit "network") (location i b) = true.
Proof. by destruct b. Qed.

Section readback.
Context (fault : nat -> option Fault) (m0 : uci_machine) (saved : bool).
#[local] Hint Extern 0 Shell => exact (uci_shell fault m0) : typeclass_instances.

(** When a port listed for its mode only is moved to another mode, reading the
    modes afterwards, with commands that can be run, shows the port in the new one. *)
Theorem mode_read_back i a b h n h' n' u :
  port_ok i -> mode_ok b -> a <> b -> a <> UnknownMode -> staged (uci_at fault m0 h) = config (uci_at fault m0 h) ->
  config_ok (config (uci_at fault m0 h)) -> only_at (config (uci_at fault m0 h)) i (location i a) ->
  ethernet_transform_mode saved i a b (h, n) = Done (h', n') u ->
  (forall k, (length h' <= k)%nat -> fault k = None) ->
  exists h'' r, get_interfaces (h', n') = Done (h'', n') r /\ r !! i = Some b.
Proof.
  intros Hi Hb Hab Ha Hclean Hok Honly Hrun Hgood. pose proof Hi as (_ & Hrd & _).
  assert (Hbu : b <> UnknownMode) by (by destruct b).
  pose proof (transform_run fault m0 saved i a b h n Hrd Hab Ha Hbu Hclean) as Hends.
  rewrite Hrun in Hends. destruct Hends as [Hat _].
  set (m := config (uci_at fault m0 h)) in *.
  assert (HL1 : b = Lan -> lan_ok (leave_store i a m)) by (intros ->; apply leave_lan_ok; [done|apply Hok]).
  destruct (enter_lists i b (leave_store i a m) Hbu Hi HL1) as [(v & Hv & Hl) Hon].
  { intros k w. by apply leave_unlists. }
  destruct (get_interfaces_run fault m0 h' n') as (h2 & r & Hr & _ & Hspec); rewrite ?Hat in *; cbn [staged both] in *.
  { split; [|done]. rewrite Hat. apply enter_store_ok; [done|done|done|]. by apply leave_store_ok. }
  { intros k w Hk Hp. by apply (new_modes i a b m k w). }
  exists h2, r. split; [done|]. apply (Hspec i (location i b) v b); [done|apply location_below|done|exact Hon|].
  by apply enter_mode_at.
Qed.
End readback.

(** Asking for the uplink again on the port that has it is refused, although it
    would change nothing: the port itself is counted as another one. *)
Theorem wan_resubmitted `{SH : Shell} saved i s s' r :
  get_interfaces s = Done s' r -> r !! i = Some Wan ->
  set_interface_mode saved i Wan s = Fail s' (InterfaceModeError (lit "There can only be one WAN interface!")).
Proof.
  intros Hr Hi. unfold set_interface_mode, bind. rewrite Hr, Hi. rewrite bool_decide_eq_true_2 by done. cbn [andb].
  assert (He : existsb (fun e => bool_decide (e.2 = Wan)) (map_to_list r) = true).
  { apply existsb_exists. exists (i, Wan). split; [by apply list_elem_of_In, elem_of_map_to_list|]. by apply bool_decide_eq_true_2. }
  by rewrite He.
Qed.

(** * Demonstrations *)

Definition two_ports : Entries := {[ lan_ifname := lit "eth0 eth1" ]}.
Definition ports_machine : uci_machine := {| config := two_ports; staged := two_ports |}.
Lemma two_ports_lookup k v : two_ports !! k = Some v -> lan_ifname = k /\ lit "eth0 eth1" = v.
Proof. unfold two_ports. by rewrite lookup_singleton_Some. Qed.
Definition no_peers : IfNet := {| external_nic := None; peer_interfaces := ∅ |}.
Definition all_good (_ : nat) : option Fault := None.
Definition moved_history : list Command :=
  [(lit "uci", [lit "get"; lan_ifname]); (lit "uci", [lit "set"; lit "network.lan.ifname=eth0"]);
   (lit "uci", [lit "set"; lit "network.rita_eth1=interface"]); (lit "uci", [lit "set"; lit "network.rita_eth1.ifname=eth1"]);
   (lit "uci", [lit "set"; lit "network.rita_eth1.proto=static"]); (lit "uci", [lit "commit"; lit "network"]);
   (lit "/etc/init.d/network", [lit "restart"]); (lit "sync", [])].

Lemma two_ports_ok : config_ok two_ports.
Proof.
  split_and!.
  - apply map_Forall_singleton. split; [by apply (readable_lit "network.lan.ifname")|by apply readable_lit].
  - intros k v [<- <-]%two_ports_lookup _ Hs. by vm_compute in Hs.
  - intros v [_ <-]%two_ports_lookup. exists [lit "eth0"; lit "eth1"]. split_and!; [done| |reflexivity|reflexivity].
    repeat (apply Forall_cons; split; [by apply lit_word|]). done.
Qed.
Lemma eth1_ok : port_ok (lit "eth1").
Proof. split_and!; try done; [by apply lit_word|by apply readable_lit]. Qed.

Lemma mode_read_back_witness :
  exists h'' r, @get_interfaces (uci_shell all_good ports_machine) (moved_history, {| external_nic := None; peer_interfaces := {[ lit "eth1" ]} |})
    = Done (h'', {| external_nic := None; peer_interfaces := {[ lit "eth1" ]} |}) r /\ r !! lit "eth1" = Some Mesh.
Proof.
  apply (mode_read_back all_good ports_machine true (lit "eth1") Lan Mesh [] no_peers moved_history
           {| external_nic := None; peer_interfaces := {[ lit "eth1" ]} |} tt).
  - exact eth1_ok.
  - exact I.
  - done.
  - done.
  - reflexivity.
  - exact two_ports_ok.
  - intros k v [<- _]%two_ports_lookup _. reflexivity.
  - vm_compute. reflexivity.
  - done.
Defined.

(** The second write is refused, and so is the revert: an error is reported, the
    committed configuration and the settings are what they were, and the port is
    already gone from the staged list. *)
Definition refused_twice (k : nat) : option Fault :=
  if (k =? 2)%nat then Some Refused else if (k =? 5)%nat then Some Refused else None.
Lemma mode_change_atomic_witness :
  exists h' n' e,
    @ethernet_transform_mode (uci_shell refused_twice ports_machine) true (lit "eth1") Lan Mesh ([], no_peers) = Fail (h', n') e
    /\ config (uci_at refused_twice ports_machine h') = two_ports /\ n' = no_peers
    /\ staged (uci_at refused_twice ports_machine h') !! lan_ifname = Some (lit "eth0").
Proof.
  pose proof (mode_change_atomic refused_twice ports_machine true (lit "eth1") Lan Mesh [] no_peers
                (proj1 (proj2 eth1_ok)) ltac:(done) ltac:(done) ltac:(done) eq_refl) as Hends.
  destruct (@ethernet_transform_mode (uci_shell refused_twice ports_machine) true (lit "eth1") Lan Mesh ([], no_peers))
    as [[h' n'] u|[h' n'] e|] eqn:E; vm_compute in E; try discriminate E.
  exists h', n', e. split; [done|]. injection E as <- <- <-. cbv zeta in Hends.
  destruct Hends as [[H _]|[(Hc & Hn & _)|[(H & _ & _)|(H & _ & _)]]].
  - exfalso. vm_compute in H. discriminate H.
  - split; [exact Hc|]. split; [exact Hn|]. vm_compute. reflexivity.
  - exfalso. vm_compute in H. discriminate H.
  - exfalso. vm_compute in H. discriminate H.
Defined.
