(* ===== verification/RouterUpgrade.v ===== *)
(** Updating the software of a router: the instructions of the operator and the
    conversion of the old ones (althea_types/src/interop.rs), the system commands
    they become (althea_kernel_interface/src/upgrade.rs, opkg_feeds.rs), carrying
    them out (rita_client/src/operator_update/updater.rs) and the endpoints of the
    dashboard (rita_client/src/dashboard/router.rs). *)
From S2P Require Import Prelude Types Text KernelShell.

Record SysupgradeCommand := { su_url : text; su_flags : option (list text) }.
Inductive OpkgCommand :=
| Install (packages arguments : list text)
| Remove (packages arguments : list text)
| Update (feed feed_name : text) (arguments : list text).
Inductive UpdateType :=
| Sysupgrade (command : SysupgradeCommand)
| Opkg (commands : list OpkgCommand).

Inductive OpkgCommandTypeLegacy := InstallLegacy | UpdateLegacy.
Record OpkgCommandLegacy := {
  ol_opkg_command : OpkgCommandTypeLegacy;
  ol_packages : option (list text);
  ol_arguments : option (list text);
}.
Record OpkgCommandListLegacy := { ol_feed : text; ol_command_list : list OpkgCommandLegacy }.
Inductive UpdateTypeLegacy :=
| SysupgradeLegacy (command : SysupgradeCommand)
| OpkgLegacy (commands : OpkgCommandListLegacy).

Module RouterUpgrade.

Definition FEED_NAME : text := lit "althea".

(** One entry of the old list; an install without packages is passed over. *)
Definition command_of_legacy (feed : text) (item : OpkgCommandLegacy) : list OpkgCommand :=
  match ol_opkg_command item with
  | InstallLegacy =>
      match ol_packages item with
      | None => []
      | Some packages => [Install packages (default [] (ol_arguments item))]
      end
  | UpdateLegacy => [Update feed FEED_NAME (default [] (ol_arguments item))]
  end.
Definition update_of_legacy (legacy : UpdateTypeLegacy) : UpdateType :=
  match legacy with
  | SysupgradeLegacy command => Sysupgrade command
  | OpkgLegacy legacy_opkg =>
      Opkg (ol_command_list legacy_opkg ≫= command_of_legacy (ol_feed legacy_opkg))
  end.

(** * The system

    Its state is the lines of the file of custom feeds ([None] when it cannot be
    read) and the commands that were run, oldest first; [runs] says what a
    command returns: an error, or the exit code if there is one. *)
Record Router := { customfeeds : option (list text); commands_run : list (text * list text) }.
Record Kernel := {
  is_openwrt : bool;
  runs : text -> list text -> option (option Z);
  feeds_writable : bool;
}.
Abbreviation K A := (M Router KernelInterfaceError A).

Definition router_run (k : Kernel) (program : text) (args : list text) : K (option Z) := fun s =>
  let s := {| customfeeds := customfeeds s; commands_run := commands_run s ++ [(program, args)] |} in
  match runs k program args with Some code => Done s code | None => Fail s IoError end.

Definition get_lines : K (list text) := fun s =>
  match customfeeds s with Some ls => Done s ls | None => Fail s IoError end.
Definition write_out (k : Kernel) (ls : list text) : K unit := fun s =>
  if feeds_writable k then Done {| customfeeds := Some ls; commands_run := commands_run s |} tt else Fail s IoError.

Fixpoint first_feed (feed_name : text) (ls : list text) : option text :=
  match ls with
  | [] => None
  | line :: ls => if negb (contains feed_name line) then first_feed feed_name ls else Some line
  end.
Definition get_release_feed (feed_name : text) : K text :=
  let! ls := get_lines in
  match first_feed feed_name ls with Some line => ret line | None => throw NoAltheaReleaseFeedFound end.

Definition set_feed_line (val feed_name line : text) : text :=
  if contains feed_name line then lit "src/gz althea " ++ val else line.
Definition set_release_feed (k : Kernel) (val feed_name : text) : K unit :=
  let! ls := get_lines in write_out k (set_feed_line val feed_name <$> ls).

Definition handle_release_feed_update (k : Kernel) (new_feed feed_name : text) : K unit := fun s =>
  match get_release_feed feed_name s with
  | Fail s _ => set_release_feed k new_feed feed_name s
  | Done s old_feed => if negb (contains new_feed old_feed) then set_release_feed k new_feed feed_name s else Done s tt
  | Panic => Panic
  end.

Definition perform_sysupgrade (k : Kernel) (command : SysupgradeCommand) : K (option Z) :=
  match su_url command with
  | [] => throw (RuntimeError "Empty url given to sysupgrade")
  | _ =>
      let args := match su_flags command with Some flags => flags | None => [] end ++ [su_url command] in
      router_run k (lit "/sbin/sysupgrade") args
  end.
Definition perform_opkg (k : Kernel) (command : OpkgCommand) : K (option Z) :=
  match command with
  | Install packages arguments => router_run k (lit "opkg") (lit "install" :: arguments ++ packages)
  | Remove packages arguments => router_run k (lit "opkg") (lit "remove" :: arguments ++ packages)
  | Update feed feed_name arguments =>
      let! _ := handle_release_feed_update k feed feed_name in
      router_run k (lit "opkg") (lit "update" :: arguments)
  end.

(** The loop over the commands; the exit code is only logged. *)
Fixpoint perform_all (k : Kernel) (commands : list OpkgCommand) : K unit :=
  match commands with
  | [] => ret tt
  | cmd :: commands => let! _ := perform_opkg k cmd in perform_all k commands
  end.
Definition update_system (k : Kernel) (instruction : UpdateType) : K unit :=
  if is_openwrt k then
    match instruction with
    | Sysupgrade command => let! _ := perform_sysupgrade k command in ret tt
    | Opkg commands =>
        let! _ := perform_all k commands in
        let! _ := ignore_err (router_run k (lit "/etc/init.d/rita") [lit "restart"]) in
        let! _ := ignore_err (router_run k (lit "/etc/init.d/rita_tower") [lit "restart"]) in
        ret tt
    end
  else throw (RuntimeError "Not an openwrt device, not updating").

(** * The endpoints *)

Inductive RouterReply := ReplyUnit | ReplyNotOpenwrt | ReplyNoInstruction | ReplyUpdateError | ReplyRebootError.

Definition reboot_router (k : Kernel) : K (Z * RouterReply) := fun s =>
  if is_openwrt k then
    match router_run k (lit "reboot") [] s with
    | Done s _ => Done s (200, ReplyUnit)
    | Fail s _ => Done s (500, ReplyRebootError)
    | Panic => Panic
    end
  else Done s (200, ReplyNotOpenwrt).
(** [instruction] is the static the operator update sets. *)
Definition update_router (k : Kernel) (instruction : option UpdateType) : K (Z * RouterReply) := fun s =>
  if is_openwrt k then
    match instruction with
    | None => Done s (200, ReplyNoInstruction)
    | Some i =>
        match update_system k i s with
        | Done s _ => Done s (200, ReplyUnit)
        | Fail s _ => Done s (200, ReplyUpdateError)
        | Panic => Panic
        end
    end
  else Done s (200, ReplyNotOpenwrt).

(** * Properties *)

(** The commands of an instruction, in order. *)
Definition argv (c : OpkgCommand) : text * list text :=
  match c with
  | Install packages arguments => (lit "opkg", lit "install" :: arguments ++ packages)
  | Remove packages arguments => (lit "opkg", lit "remove" :: arguments ++ packages)
  | Update _ _ arguments => (lit "opkg", lit "update" :: arguments)
  end.
Definition restarts : list (text * list text) :=
  [(lit "/etc/init.d/rita", [lit "restart"]); (lit "/etc/init.d/rita_tower", [lit "restart"])].

Lemma contains_feed_line val feed_name line :
  contains FEED_NAME (set_feed_line val feed_name line) = true \/ set_feed_line val feed_name line = line.
Proof.
  unfold set_feed_line. destruct (contains feed_name line); [left|by right].
  change (contains FEED_NAME (lit "src/gz " ++ FEED_NAME ++ [space] ++ val) = true). apply contains_app.
Qed.

(** Once a feed of that name is listed, an update to a new feed puts it in the
    place of every line with the name, and of no other line. *)
Lemma feed_set k new_feed feed_name old ls s :
  customfeeds s = Some ls -> first_feed feed_name ls = Some old -> contains new_feed old = false ->
  feeds_writable k = true ->
  handle_release_feed_update k new_feed feed_name s
  = Done {| customfeeds := Some (set_feed_line new_feed feed_name <$> ls); commands_run := commands_run s |} tt.
Proof.
  intros Hc Hf Hn Hw. unfold handle_release_feed_update, get_release_feed, set_release_feed, get_lines, write_out, bind.
  rewrite Hc, Hf. cbn. rewrite Hn. cbn. by rewrite Hc, Hw.
Qed.

(** A feed that is not listed is never added: the update reports success and the
    file stays as it is. *)
Theorem feed_never_added k new_feed feed_name ls s :
  customfeeds s = Some ls -> Forall (fun line => contains feed_name line = false) ls -> feeds_writable k = true ->
  handle_release_feed_update k new_feed feed_name s = Done s tt.
Proof.
  intros Hc Hall Hw.
  assert (Hf : first_feed feed_name ls = None).
  { clear Hc. induction Hall as [|l ls Hl _ IH]; cbn; [done|]. by rewrite Hl. }
  assert (Hm : set_feed_line new_feed feed_name <$> ls = ls).
  { clear Hc Hf. induction Hall as [|l ls Hl _ IH]; [done|]. cbn [fmap list_fmap]. unfold set_feed_line at 1. by rewrite Hl, IH. }
  unfold handle_release_feed_update, get_release_feed, set_release_feed, get_lines, write_out, bind.
  rewrite Hc, Hf. cbn. rewrite Hc, Hw. cbn. rewrite Hm. destruct s; cbn in *; by subst.
Qed.

Lemma handle_feed_commands k f n s s' :
  outcome_state (handle_release_feed_update k f n s) = Some s' -> commands_run s' = commands_run s.
Proof.
  unfold handle_release_feed_update, get_release_feed, set_release_feed, get_lines, write_out. unfold_monad.
  destruct (customfeeds s) as [ls|] eqn:Hc; cbn; [|rewrite Hc; intros [= <-]; done].
  destruct (first_feed n ls); cbn; [destruct (negb _)|]; rewrite ?Hc; destruct (feeds_writable k); intros [= <-]; done.
Qed.

Lemma router_run_runs k p a s s' :
  outcome_state (router_run k p a s) = Some s' -> commands_run s' = commands_run s ++ [(p, a)].
Proof. unfold router_run. destruct (runs k p a); intros [= <-]; done. Qed.
Lemma perform_opkg_runs k c s s' u : perform_opkg k c s = Done s' u -> commands_run s' = commands_run s ++ [argv c].
Proof.
  destruct c as [p a|p a|f n a]; cbn [perform_opkg argv].
  1, 2: intros H; eapply router_run_runs; by rewrite H.
  unfold bind. pose proof (handle_feed_commands k f n s) as Hh.
  destruct (handle_release_feed_update k f n s) as [s1 []|s1 e|]; [|done..].
  intros H. rewrite <- (Hh s1 eq_refl). eapply router_run_runs. by rewrite H.
Qed.
Lemma perform_all_runs k cs s s' u : perform_all k cs s = Done s' u -> commands_run s' = commands_run s ++ (argv <$> cs).
Proof.
  revert s. induction cs as [|c cs IH]; intros s; cbn [perform_all]; [intros [= <- _]; by rewrite app_nil_r|].
  unfold bind. destruct (perform_opkg k c s) as [s1 u1|s1 e|] eqn:E; [|done..]. intros H%IH.
  rewrite H, (perform_opkg_runs _ _ _ _ _ E). by rewrite <- app_assoc.
Qed.

(** A package update that succeeds has run exactly its commands, in their order,
    and then restarted both services. *)
Theorem opkg_update_runs k cs s s' :
  update_system k (Opkg cs) s = Done s' tt -> commands_run s' = commands_run s ++ (argv <$> cs) ++ restarts.
Proof.
  unfold update_system. destruct (is_openwrt k); [|done]. unfold bind at 1.
  destruct (perform_all k cs s) as [s1 u1|s1 e|] eqn:E; [|done..]. apply perform_all_runs in E.
  unfold bind, ignore_err.
  destruct (router_run k (lit "/etc/init.d/rita") [lit "restart"] s1) as [s2 c2|s2 e2|] eqn:E2; [..|done];
    assert (H2 : commands_run s2 = commands_run s1 ++ [(lit "/etc/init.d/rita", [lit "restart"])])
      by (eapply router_run_runs; by rewrite E2);
    (destruct (router_run k (lit "/etc/init.d/rita_tower") [lit "restart"] s2) as [s3 c3|s3 e3|] eqn:E3; [..|done];
     assert (H3 : commands_run s3 = commands_run s2 ++ [(lit "/etc/init.d/rita_tower", [lit "restart"])])
      by (eapply router_run_runs; by rewrite E3);
     intros [= <-]; by rewrite H3, H2, E, <- !app_assoc).
Qed.

(** An old instruction is carried out with the same feed for every update, and
    without the installs that name no package. *)
Theorem legacy_update_runs k l s s' :
  update_system k (update_of_legacy (OpkgLegacy l)) s = Done s' tt ->
  commands_run s' = commands_run s
    ++ (ol_command_list l ≫= fun i =>
          match ol_opkg_command i, ol_packages i with
          | InstallLegacy, None => []
          | InstallLegacy, Some ps => [(lit "opkg", lit "install" :: default [] (ol_arguments i) ++ ps)]
          | UpdateLegacy, _ => [(lit "opkg", lit "update" :: default [] (ol_arguments i))]
          end) ++ restarts.
Proof.
  intros H%opkg_update_runs. rewrite H. apply (f_equal (fun x => commands_run s ++ x ++ restarts)).
  clear H. induction (ol_command_list l) as [|i cs IH]; [done|].
  rewrite !bind_cons, fmap_app, IH. f_equal. unfold command_of_legacy. by destruct (ol_opkg_command i), (ol_packages i).
Qed.

End RouterUpgrade.
