(* ===== verification/ContactInfo.v ===== *)
(** Contact details: the conversions between the forms in which they are stored,
    sent and shown (althea_types/src/contact_info.rs), the endpoints that change
    them (rita_client/src/dashboard/contact_info.rs, installation_details.rs) and
    the test whether the operator's copy is newer
    (rita_client/src/operator_update/mod.rs).  The phonenumber and lettre crates
    are parameters. *)
From S2P Require Import Prelude Types Text PeerMessage RegistrationQueue.

(** The lettre crate, and the printing of phone numbers. *)
Class Contacts `(PN : PhoneNumbers) := {
  EmailAddress : Type;
  parse_email : string -> option EmailAddress;
  email_to_string : EmailAddress -> string;
  phone_to_string : PhoneNumber -> string;
}.
(** What is printed is read back. *)
Class ContactsLaws `(CT : Contacts) : Prop := {
  parse_phone_to_string n : parse_phone (phone_to_string n) = Some n;
  parse_email_to_string e : parse_email (email_to_string e) = Some e;
}.

Module ContactInfo.
Import RegistrationQueue.

Section contact.
Context `{CT : Contacts} `{P : Profile}.

Record ContactDetails := { cd_phone : option string; cd_email : option string }.

Inductive ContactType :=
| Phone (number : PhoneNumber) (sequence_number : option Z)
| Email (email : EmailAddress) (sequence_number : option Z)
| Both (number : PhoneNumber) (email : EmailAddress) (sequence_number : option Z)
| Bad (invalid_number invalid_email : option string) (sequence_number : option Z).

Record ContactStorage := {
  cs_number : option PhoneNumber;
  cs_email : option EmailAddress;
  cs_invalid_number : option string;
  cs_invalid_email : option string;
  cs_sequence_number : Z;
}.

Definition details_of_type (val : ContactType) : ContactDetails :=
  match val with
  | Phone number _ => {| cd_phone := Some (phone_to_string number); cd_email := None |}
  | Email email _ => {| cd_phone := None; cd_email := Some (email_to_string email) |}
  | Both number email _ => {| cd_phone := Some (phone_to_string number); cd_email := Some (email_to_string email) |}
  | Bad invalid_number invalid_email _ => {| cd_phone := invalid_number; cd_email := invalid_email |}
  end.
Definition details_of_option (val : option ContactType) : ContactDetails :=
  match val with Some val => details_of_type val | None => {| cd_phone := None; cd_email := None |} end.

Definition get_sequence (self : ContactType) : option Z :=
  match self with Phone _ s => s | Email _ s => s | Both _ _ s => s | Bad _ _ _ => None end.
Definition get_phone (self : ContactType) : option PhoneNumber :=
  match self with Phone number _ => Some number | Email _ _ => None | Both number _ _ => Some number | Bad _ _ _ => None end.
Definition get_email (self : ContactType) : option EmailAddress :=
  match self with Phone _ _ => None | Email email _ => Some email | Both _ email _ => Some email | Bad _ _ _ => None end.

Definition get_sequence_num (cs : ContactStorage) : Z := cs_sequence_number cs.

Definition storage_of_type (val : ContactType) : ContactStorage :=
  match val with
  | Both number email s => {| cs_number := Some number; cs_email := Some email; cs_invalid_number := None;
                              cs_invalid_email := None; cs_sequence_number := default 0 s |}
  | Phone number s => {| cs_number := Some number; cs_email := None; cs_invalid_number := None;
                         cs_invalid_email := None; cs_sequence_number := default 0 s |}
  | Email email s => {| cs_number := None; cs_email := Some email; cs_invalid_number := None;
                        cs_invalid_email := None; cs_sequence_number := default 0 s |}
  | Bad val_p val_e s => {| cs_number := None; cs_email := None; cs_invalid_number := val_p;
                            cs_invalid_email := val_e; cs_sequence_number := default 0 s |}
  end.

Definition type_of_storage (storage : ContactStorage) : ContactType :=
  let s := Some (cs_sequence_number storage) in
  match cs_number storage, cs_email storage, cs_invalid_email storage, cs_invalid_number storage with
  | Some phone, Some email, _, _ => Both phone email s
  | Some phone, None, _, _ => Phone phone s
  | None, Some email, _, _ => Email email s
  | None, None, Some val, None => Bad None (Some val) s
  | None, None, None, Some val => Bad (Some val) None s
  | None, None, Some val_e, Some val_p => Bad (Some val_p) (Some val_e) s
  | None, None, None, None => Bad None None s
  end.

(** [ContactStorage::convert]. *)
Definition storage_convert (old : ExitRegistrationDetails) : option ContactStorage :=
  let s := default 0 (sequence_number old) in
  match phone old, email old with
  | Some phone, Some email =>
      match parse_phone phone, parse_email email with
      | Some validated_phone, Some validated_email =>
          Some {| cs_number := Some validated_phone; cs_email := Some validated_email;
                  cs_invalid_email := None; cs_invalid_number := None; cs_sequence_number := s |}
      | None, Some validated_email =>
          Some {| cs_number := None; cs_email := Some validated_email;
                  cs_invalid_email := None; cs_invalid_number := None; cs_sequence_number := s |}
      | Some validated_phone, None =>
          Some {| cs_number := Some validated_phone; cs_email := None;
                  cs_invalid_email := None; cs_invalid_number := None; cs_sequence_number := s |}
      | None, None =>
          Some {| cs_number := None; cs_email := None;
                  cs_invalid_email := Some email; cs_invalid_number := Some phone; cs_sequence_number := s |}
      end
  | Some phone, None =>
      match parse_phone phone with
      | Some validated_phone =>
          Some {| cs_number := Some validated_phone; cs_email := None;
                  cs_invalid_email := None; cs_invalid_number := None; cs_sequence_number := s |}
      | None =>
          Some {| cs_number := None; cs_email := None;
                  cs_invalid_email := None; cs_invalid_number := Some phone; cs_sequence_number := s |}
      end
  | None, Some email =>
      match parse_email email with
      | Some validated_email =>
          Some {| cs_number := None; cs_email := Some validated_email;
                  cs_invalid_email := None; cs_invalid_number := None; cs_sequence_number := s |}
      | None =>
          Some {| cs_number := None; cs_email := None;
                  cs_invalid_email := Some email; cs_invalid_number := None; cs_sequence_number := s |}
      end
  | None, None =>
      Some {| cs_number := None; cs_email := None;
              cs_invalid_email := None; cs_invalid_number := None; cs_sequence_number := s |}
  end.

(** [ContactType::convert]. *)
Definition type_convert (val : ContactDetails) (seq : option Z) : option ContactType :=
  let same := {| phone := cd_phone val; email := cd_email val; phone_code := None; email_code := None;
                 sequence_number := seq |} in
  type_of_storage <$> storage_convert same.

Definition registration_of_type (ct : ContactType) : ExitRegistrationDetails :=
  match ct with
  | Both number email s => {| phone := Some (phone_to_string number); email := Some (email_to_string email);
                              email_code := None; phone_code := None; sequence_number := s |}
  | Email email s => {| phone := None; email := Some (email_to_string email);
                        email_code := None; phone_code := None; sequence_number := s |}
  | Phone number s => {| phone := Some (phone_to_string number); email := None;
                         email_code := None; phone_code := None; sequence_number := s |}
  | Bad invalid_number invalid_email s => {| phone := invalid_number; email := invalid_email;
                                             email_code := None; phone_code := None; sequence_number := s |}
  end.
Definition registration_of_storage (cs : ContactStorage) : ExitRegistrationDetails :=
  registration_of_type (type_of_storage cs).

(** * The endpoints

    The state is the contact information of the settings; the first component of
    a result is the status code, where [saved] says whether the settings could be
    written to disk.  [None] is a panic. *)

Definition clean_quotes (val : text) : text :=
  trim_by (Ascii.eqb "\") (trim_by (Ascii.eqb (Ascii.ascii_of_nat 34)) (trim_text val)).

Definition add_to_sequence (sequence : option Z) : option Z :=
  match sequence with Some seq => u32_of (seq + 1) | None => Some 1 end.

(** The merge of a new number into the current information. *)
Definition merge_phone (phone_number : PhoneNumber) (cur : option ContactType) : option ContactType :=
  match cur with
  | Some (Phone _ s) => n ← add_to_sequence s; Some (Phone phone_number (Some n))
  | Some (Email email s) => n ← add_to_sequence s; Some (Both phone_number email (Some n))
  | Some (Both _ email s) => n ← add_to_sequence s; Some (Both phone_number email (Some n))
  | Some (Bad _ _ s) => n ← add_to_sequence s; Some (Phone phone_number (Some n))
  | None => Some (Phone phone_number (Some 0))
  end.
Definition set_phone_number (saved : bool) (req : text) (info : option ContactStorage)
    : option (Z * option ContactStorage) :=
  match parse_phone (String.string_of_list_ascii (clean_quotes req)) with
  | None => Some (400, info)
  | Some phone_number =>
      res ← merge_phone phone_number (type_of_storage <$> info);
      Some (if saved then 200 else 500, Some (storage_of_type res))
  end.
Definition get_phone_number (info : option ContactStorage) : option string :=
  match type_of_storage <$> info with
  | Some (Phone number _) => Some (phone_to_string number)
  | Some (Both number _ _) => Some (phone_to_string number)
  | _ => None
  end.

(** The merge of a new address; the second arm binds the name of the new address
    to the current one. *)
Definition merge_email (new_email : EmailAddress) (cur : option ContactType) : option ContactType :=
  match cur with
  | Some (Phone number s) => n ← add_to_sequence s; Some (Both number new_email (Some n))
  | Some (Email email s) => n ← add_to_sequence s; Some (Email email (Some n))
  | Some (Both number _ s) => n ← add_to_sequence s; Some (Both number new_email (Some n))
  | Some (Bad _ _ s) => n ← add_to_sequence s; Some (Email new_email (Some n))
  | None => Some (Email new_email (Some 0))
  end.
Definition set_email (saved : bool) (req : text) (info : option ContactStorage)
    : option (Z * option ContactStorage) :=
  match parse_email (String.string_of_list_ascii (clean_quotes req)) with
  | None => Some (400, info)
  | Some email =>
      res ← merge_email email (type_of_storage <$> info);
      Some (if saved then 200 else 500, Some (storage_of_type res))
  end.
Definition get_email_endpoint (info : option ContactStorage) : option string :=
  match type_of_storage <$> info with
  | Some (Email email _) => Some (email_to_string email)
  | Some (Both _ email _) => Some (email_to_string email)
  | _ => None
  end.

(** The contact part of [set_installation_details]; [None] is a bad request. *)
Definition installation_contact (phone email : option string) : option ContactType :=
  match phone, email with
  | None, None => None
  | Some phone, Some email =>
      match parse_phone phone, parse_email email with
      | Some p, Some e => Some (Both p e (Some 0))
      | _, _ => None
      end
  | None, Some email => match parse_email email with Some e => Some (Email e (Some 0)) | None => None end
  | Some phone, None => match parse_phone phone with Some p => Some (Phone p (Some 0)) | None => None end
  end.

(** Is the information of the operator newer? *)
Definition check_contacts_update (current : option ContactStorage) (incoming : option ContactType) : bool :=
  let current_sequence := match current with Some storage => get_sequence_num storage | None => 0 end in
  match incoming with
  | Some info =>
      let seq := match info with Phone _ s => s | Email _ s => s | Both _ _ s => s | Bad _ _ s => s end in
      current_sequence <? default 0 seq
  | None => false
  end.

(** * Properties *)

(** What storing forgets: a missing sequence number becomes zero. *)
Definition numbered (ct : ContactType) : ContactType :=
  match ct with
  | Phone n s => Phone n (Some (default 0 s))
  | Email e s => Email e (Some (default 0 s))
  | Both n e s => Both n e (Some (default 0 s))
  | Bad p e s => Bad p e (Some (default 0 s))
  end.
Definition raw_sequence (ct : ContactType) : Z :=
  default 0 (match ct with Phone _ s => s | Email _ s => s | Both _ _ s => s | Bad _ _ s => s end).

Lemma storage_roundtrip ct : type_of_storage (storage_of_type ct) = numbered ct.
Proof. by destruct ct as [n s|e s|n e s|[p|] [e|] s]. Qed.
Lemma storage_sequence ct : cs_sequence_number (storage_of_type ct) = raw_sequence ct.
Proof. by destruct ct. Qed.
Lemma raw_sequence_of_storage cs : raw_sequence (type_of_storage cs) = cs_sequence_number cs.
Proof. destruct cs as [[n|] [e|] [p|] [q|] s]; done. Qed.

Context `{CL : !ContactsLaws CT}.

(** A bad entry is one whose texts are in fact invalid. *)
Definition honest (ct : ContactType) : Prop :=
  match ct with
  | Bad p e _ => (forall t, p = Some t -> parse_phone t = None) /\ (forall t, e = Some t -> parse_email t = None)
  | _ => True
  end.

(** Contact information survives every form it takes: stored and read back, and
    sent to an exit as registration details, converted and read back, it is what
    it was, but for a missing sequence number, which becomes zero. *)
Theorem contact_forms_roundtrip ct :
  honest ct ->
  type_of_storage (storage_of_type ct) = numbered ct
  /\ type_of_storage <$> storage_convert (registration_of_type ct) = Some (numbered ct)
  /\ type_convert (details_of_type ct) (match ct with Phone _ s => s | Email _ s => s | Both _ _ s => s | Bad _ _ s => s end)
     = Some (numbered ct).
Proof.
  intros Hh. split; [apply storage_roundtrip|].
  destruct ct as [n s|e s|n e s|p e s]; unfold type_convert, storage_convert; cbn;
    rewrite ?parse_phone_to_string, ?parse_email_to_string; [done..|].
  destruct Hh as [Hp He]. destruct p as [p|], e as [e|]; cbn; rewrite ?(Hp _ eq_refl), ?(He _ eq_refl); done.
Qed.

(** The conversion keeps every valid text, and never invents one. *)
Theorem convert_keeps_valid old cs :
  storage_convert old = Some cs ->
  cs_number cs = (phone old ≫= parse_phone) /\ cs_email cs = (email old ≫= parse_email)
  /\ cs_sequence_number cs = default 0 (sequence_number old).
Proof.
  unfold storage_convert. destruct (phone old) as [p|], (email old) as [e|]; cbn;
    try destruct (parse_phone p); try destruct (parse_email e); intros [= <-]; done.
Qed.

(** An invalid text next to a valid one is lost, although the form has a place
    for it and keeps it when both are invalid. *)
Theorem convert_loses_invalid old cs p e n :
  phone old = Some p -> email old = Some e -> parse_phone p = None -> parse_email e = Some n ->
  storage_convert old = Some cs -> cs_invalid_number cs = None /\ cd_phone (details_of_type (type_of_storage cs)) = None.
Proof. intros Hp He Hn Hv. unfold storage_convert. rewrite Hp, He, Hn, Hv. by intros [= <-]. Qed.

Lemma merged_sequence ct ct' :
  0 <= raw_sequence ct < U32_MAX ->
  (exists n, merge_phone n (Some ct) = Some ct') \/ (exists e, merge_email e (Some ct) = Some ct') ->
  raw_sequence ct' = raw_sequence ct + 1.
Proof.
  intros Hs Hor. destruct ct as [n [s|]|e [s|]|n e [s|]|p e [s|]]; cbn in *; unfold u32_of in Hor;
    rewrite ?native_exact in Hor by lia; destruct Hor as [[? [= <-]]|[? [= <-]]]; done.
Qed.

(** A change on the dashboard counts as newer than everything the operator has
    seen: its sequence number is one more, so that the next update does not undo
    it.  Only the very first entry starts at zero. *)
Theorem local_change_wins saved req info code info' incoming :
  0 <= cs_sequence_number info < U32_MAX ->
  set_phone_number saved req (Some info) = Some (code, info') \/ set_email saved req (Some info) = Some (code, info') ->
  code <> 400 -> raw_sequence incoming <= cs_sequence_number info + 1 ->
  check_contacts_update info' (Some incoming) = false.
Proof.
  intros Hs Hset Hc Hin.
  assert (H : exists ct', info' = Some (storage_of_type ct')
    /\ ((exists n, merge_phone n (Some (type_of_storage info)) = Some ct')
        \/ (exists e, merge_email e (Some (type_of_storage info)) = Some ct'))).
  { destruct Hset as [H|H]; revert H; [unfold set_phone_number; destruct (parse_phone _) as [n|]
      |unfold set_email; destruct (parse_email _) as [n|]]; cbn [fmap option_fmap option_map];
      [|by intros [= <- _]| |by intros [= <- _]].
    - destruct (merge_phone n _) as [ct|] eqn:E; [|done]. intros [= _ <-]. exists ct. eauto.
    - destruct (merge_email n _) as [ct|] eqn:E; [|done]. intros [= _ <-]. exists ct. eauto. }
  destruct H as (ct' & -> & Hm). apply merged_sequence in Hm; rewrite raw_sequence_of_storage in *; [|done].
  unfold check_contacts_update, get_sequence_num. rewrite storage_sequence, Hm.
  change (default 0 _) with (raw_sequence incoming). apply Z.ltb_ge. lia.
Qed.

(** The number that is set is the number that is shown. *)
Theorem phone_set_is_shown saved req info n code info' :
  parse_phone (String.string_of_list_ascii (clean_quotes req)) = Some n ->
  set_phone_number saved req info = Some (code, info') -> get_phone_number info' = Some (phone_to_string n).
Proof.
  unfold set_phone_number. intros ->. destruct (merge_phone n _) as [ct|] eqn:E; [|done]. intros [= _ <-].
  unfold get_phone_number. cbn. rewrite storage_roundtrip. revert E. unfold merge_phone.
  destruct (type_of_storage <$> info) as [[? s|? s|? ? s|? ? s]|]; try destruct (add_to_sequence s); by intros [= <-].
Qed.

(** An address that replaces an address is not set: when only an address was
    stored, the endpoint answers 200 and the old one stays. *)
Theorem email_not_replaced saved req old s new :
  parse_email (String.string_of_list_ascii (clean_quotes req)) = Some new -> 0 <= default 0 s < U32_MAX ->
  exists info', set_email saved req (Some (storage_of_type (Email old s))) = Some (if saved then 200 else 500, Some info')
    /\ cs_email info' = Some old /\ cs_sequence_number info' = default 0 s + 1.
Proof.
  intros Hp Hs. unfold set_email. rewrite Hp. cbn. unfold u32_of. rewrite native_exact by lia. cbn. eauto.
Qed.

(** Entering the installation details starts the numbering again at zero: an
    older entry of the operator with a number then overwrites the new one. *)
Theorem installation_undone phone email ct incoming :
  installation_contact phone email = Some ct -> 0 < raw_sequence incoming ->
  check_contacts_update (Some (storage_of_type ct)) (Some incoming) = true.
Proof.
  intros Hi Hin. assert (raw_sequence ct = 0) as H0.
  { revert Hi. unfold installation_contact.
    destruct phone as [p|], email as [e|]; try destruct (parse_phone p); try destruct (parse_email e); by intros [= <-]. }
  unfold check_contacts_update, get_sequence_num. rewrite storage_sequence, H0.
  change (default 0 _) with (raw_sequence incoming). by apply Z.ltb_lt.
Qed.

End contact.

Arguments ContactType {PN} CT.
Arguments ContactStorage {PN} CT.

(** * Demonstrations

    Numbers and addresses are texts, printed with a sign in front. *)
Section demo.
Import RegistrationQueue.
Definition plus (t : string) : string := "+" +:+ t.
Definition plus_phones : PhoneNumbers := {|
  PhoneNumber := string; phone_eqb := String.eqb;
  parse_phone t := match t with String _ t => Some t | EmptyString => None end |}.
Definition plus_contacts : Contacts plus_phones :=
  Build_Contacts plus_phones string (fun t => match t with String _ t => Some t | EmptyString => None end) plus plus.
#[local] Existing Instance plus_phones.
#[local] Existing Instance plus_contacts.
#[local] Existing Instance release_profile.
#[local] Instance plus_contacts_laws : ContactsLaws plus_contacts.
Proof. by constructor. Qed.

Definition by_phone (t : string) (s : option Z) : ContactType plus_contacts := Phone (t : @PhoneNumber plus_phones) s.
Definition by_email (t : string) (s : option Z) : ContactType plus_contacts := Email (t : @EmailAddress _ plus_contacts) s.
Definition by_nothing (s : option Z) : ContactType plus_contacts := Bad (Some EmptyString) None s.

Lemma contact_forms_roundtrip_witness :
  type_of_storage <$> storage_convert (registration_of_type (by_nothing None))
  = Some (by_nothing (Some 0)).
Proof. apply (contact_forms_roundtrip (by_nothing None)). split; by intros t [= <-]. Defined.

Definition demo_storage : ContactStorage plus_contacts := storage_of_type (by_phone "1" (Some 4)).
Lemma local_change_wins_witness :
  check_contacts_update (Some (storage_of_type (by_phone "234" (Some 5)))) (Some (by_email "a" (Some 5))) = false.
Proof.
  apply (local_change_wins true (lit "+234") demo_storage 200 (Some (storage_of_type (by_phone "234" (Some 5)))) (by_email "a" (Some 5))).
  - by vm_compute.
  - left. reflexivity.
  - done.
  - by vm_compute.
Defined.

Lemma email_not_replaced_witness :
  exists info', set_email true (lit "+new@b") (Some (storage_of_type (by_email "old@b" (Some 3)))) = Some (200, Some info')
    /\ cs_email info' = Some ("old@b" : @EmailAddress _ plus_contacts) /\ cs_sequence_number info' = 4.
Proof. apply (email_not_replaced (CT := plus_contacts) true (lit "+new@b") "old@b" (Some 3) "new@b"); [reflexivity|by vm_compute]. Defined.

Lemma installation_undone_witness :
  check_contacts_update (Some (storage_of_type (by_phone "1" (Some 0)))) (Some (by_phone "2" (Some 1))) = true.
Proof. apply (installation_undone (Some "+1") None (by_phone "1" (Some 0)) (by_phone "2" (Some 1))); done. Defined.
End demo.

End ContactInfo.
