(* ===== verification/OperatorUpdate.v ===== *)
(** The check in with the operator (rita_client/src/operator_update/mod.rs and
    update_loop.rs): what is reported, how the answer changes the settings, the
    merging of arbitrary settings (settings/src/lib.rs, client.rs), the keys for
    remote access and the pace of the loop; and the endpoints that set the chain,
    the operator and the installation details (rita_client/src/dashboard).  The
    serialization of the settings and the parser of ssh keys are parameters, what
    the other parts report and what the server answers are arguments. *)
From S2P Require Import Prelude Types Text Babel TunnelManager PeerMessage RegistrationQueue ContactInfo RouterUpgrade.

(** * JSON *)
Inductive Value :=
| VNull
| VBool (b : bool)
| VNumber (n : Z)
| VString (s : text)
| VArray (l : list Value)
| VObject (m : list (text * Value)).

Module OperatorUpdate.
Import ContactInfo RouterUpgrade.

(** A map of serde_json: the entry of a key, and inserting it. *)
Fixpoint obj_get (k : text) (m : list (text * Value)) : option Value :=
  match m with
  | [] => None
  | (k', v) :: m => if text_eqb k' k then Some v else obj_get k m
  end.
Fixpoint obj_set (k : text) (v : Value) (m : list (text * Value)) : list (text * Value) :=
  match m with
  | [] => [(k, v)]
  | (k', v') :: m => if text_eqb k' k then (k', v) :: m else (k', v') :: obj_set k v m
  end.

Fixpoint json_merge (a b : Value) {struct b} : Value :=
  match a, b with
  | VObject a, VObject b =>
      VObject ((fix entries (a b : list (text * Value)) {struct b} : list (text * Value) :=
                  match b with
                  | [] => a
                  | (k, v) :: b => entries (obj_set k (json_merge (default VNull (obj_get k a)) v) a) b
                  end) a b)
  | _, _ => b
  end.

Definition FORBIDDEN_MERGE_VALUES : list text :=
  [lit "eth_private_key"; lit "eth_address"; lit "mesh_ip"; lit "external_nic"; lit "peer_interfaces"].

(** Any forbidden key in the object or in an object below it; arrays are not
    searched. *)
Fixpoint contains_forbidden_key (forbidden_values : list text) (map : Value) : bool :=
  match map with
  | VObject m =>
      existsb (fun item => match obj_get item m with Some _ => true | None => false end) forbidden_values
      || (fix results (m : list (text * Value)) : bool :=
            match m with
            | [] => false
            | (_, new_obj) :: m => contains_forbidden_key forbidden_values new_obj || results m
            end) m
  | _ => false
  end.

(** * Settings *)

Record BabeldConfig := {
  bc_kernel_check_interval : option Z;
  bc_local_fee : Z;
  bc_metric_factor : Z;
  bc_interface_defaults : BabeldInterfaceConfig;
}.
Record MailingAddress := {
  ma_country : text; ma_postal_code : text; ma_state : option text; ma_city : text; ma_street : text }.
Record BillingDetails := {
  user_first_name : text; user_last_name : text; mailing_address : MailingAddress; billing_sequence : Z }.
Record InstallationDetails := {
  client_antenna_ip : option Z; relay_antennas : list Z; physical_address : option text; equipment_details : text }.

Section update.
Context `{CT : Contacts} `{P : Profile}.

(** The settings the update reads and writes; [cs_rest] stands for the others. *)
Record ClientPayment := {
  cp_max_fee : Z;
  cp_balance_warning_level : Z;
  cp_system_chain : SystemChain;
  cp_withdraw_chain : SystemChain;
  cp_eth_node_list : list text;
  cp_min_gas : Z;
  cp_eth_private_key : option Z;
}.
Record ClientOperator := {
  co_operator_address : option Z;
  co_operator_fee : Z;
  co_use_operator_price : bool;
  co_force_use_operator_price : bool;
  co_installation_details : option InstallationDetails;
  co_billing_details : option BillingDetails;
  co_display_operator_setup : bool;
}.
Record ClientNetwork := {
  cn_babeld_settings : BabeldConfig;
  cn_shaper_settings : ShaperSettings;
  cn_rita_dashboard_password : option text;
  cn_user_bandwidth_limit : option Z;
  cn_mesh_ip : option IpAddr;
  cn_peer_interfaces : list text;
}.
Record ClientSettings := {
  rc_payment : ClientPayment;
  rc_log_enabled : bool;
  rc_operator : ClientOperator;
  rc_network : ClientNetwork;
  rc_contact_info : option (ContactStorage CT);
  rc_rest : Value;
}.

Definition set_payment (p : ClientPayment) (s : ClientSettings) : ClientSettings := {|
  rc_payment := p; rc_log_enabled := rc_log_enabled s; rc_operator := rc_operator s; rc_network := rc_network s;
  rc_contact_info := rc_contact_info s; rc_rest := rc_rest s |}.
Definition set_operator (o : ClientOperator) (s : ClientSettings) : ClientSettings := {|
  rc_payment := rc_payment s; rc_log_enabled := rc_log_enabled s; rc_operator := o; rc_network := rc_network s;
  rc_contact_info := rc_contact_info s; rc_rest := rc_rest s |}.
Definition set_network (n : ClientNetwork) (s : ClientSettings) : ClientSettings := {|
  rc_payment := rc_payment s; rc_log_enabled := rc_log_enabled s; rc_operator := rc_operator s; rc_network := n;
  rc_contact_info := rc_contact_info s; rc_rest := rc_rest s |}.
Definition set_contact (c : option (ContactStorage CT)) (s : ClientSettings) : ClientSettings := {|
  rc_payment := rc_payment s; rc_log_enabled := rc_log_enabled s; rc_operator := rc_operator s;
  rc_network := rc_network s; rc_contact_info := c; rc_rest := rc_rest s |}.

Definition set_chain (c : SystemChain) (nodes : list text) (p : ClientPayment) : ClientPayment := {|
  cp_max_fee := cp_max_fee p; cp_balance_warning_level := cp_balance_warning_level p; cp_system_chain := c;
  cp_withdraw_chain := c; cp_eth_node_list := nodes; cp_min_gas := cp_min_gas p;
  cp_eth_private_key := cp_eth_private_key p |}.
Definition set_limits (max warning : Z) (p : ClientPayment) : ClientPayment := {|
  cp_max_fee := max; cp_balance_warning_level := warning; cp_system_chain := cp_system_chain p;
  cp_withdraw_chain := cp_withdraw_chain p; cp_eth_node_list := cp_eth_node_list p; cp_min_gas := cp_min_gas p;
  cp_eth_private_key := cp_eth_private_key p |}.
Definition set_withdraw_chain (c : SystemChain) (p : ClientPayment) : ClientPayment := {|
  cp_max_fee := cp_max_fee p; cp_balance_warning_level := cp_balance_warning_level p;
  cp_system_chain := cp_system_chain p; cp_withdraw_chain := c; cp_eth_node_list := cp_eth_node_list p;
  cp_min_gas := cp_min_gas p; cp_eth_private_key := cp_eth_private_key p |}.
Definition set_min_gas (g : Z) (p : ClientPayment) : ClientPayment := {|
  cp_max_fee := cp_max_fee p; cp_balance_warning_level := cp_balance_warning_level p;
  cp_system_chain := cp_system_chain p; cp_withdraw_chain := cp_withdraw_chain p;
  cp_eth_node_list := cp_eth_node_list p; cp_min_gas := g; cp_eth_private_key := cp_eth_private_key p |}.
Definition set_babeld (b : BabeldConfig) (n : ClientNetwork) : ClientNetwork := {|
  cn_babeld_settings := b; cn_shaper_settings := cn_shaper_settings n;
  cn_rita_dashboard_password := cn_rita_dashboard_password n; cn_user_bandwidth_limit := cn_user_bandwidth_limit n;
  cn_mesh_ip := cn_mesh_ip n; cn_peer_interfaces := cn_peer_interfaces n |}.
Definition set_shaper (b : ShaperSettings) (n : ClientNetwork) : ClientNetwork := {|
  cn_babeld_settings := cn_babeld_settings n; cn_shaper_settings := b;
  cn_rita_dashboard_password := cn_rita_dashboard_password n; cn_user_bandwidth_limit := cn_user_bandwidth_limit n;
  cn_mesh_ip := cn_mesh_ip n; cn_peer_interfaces := cn_peer_interfaces n |}.
Definition set_password (pw : option text) (n : ClientNetwork) : ClientNetwork := {|
  cn_babeld_settings := cn_babeld_settings n; cn_shaper_settings := cn_shaper_settings n;
  cn_rita_dashboard_password := pw; cn_user_bandwidth_limit := cn_user_bandwidth_limit n;
  cn_mesh_ip := cn_mesh_ip n; cn_peer_interfaces := cn_peer_interfaces n |}.
Definition set_local_fee (fee : Z) (b : BabeldConfig) : BabeldConfig := {|
  bc_kernel_check_interval := bc_kernel_check_interval b; bc_local_fee := fee; bc_metric_factor := bc_metric_factor b;
  bc_interface_defaults := bc_interface_defaults b |}.

(** * The answer *)

Inductive OperatorAction :=
| ResetRouterPassword
| ResetWiFiPassword
| SetWifi (token : list text)
| ResetShaper
| Reboot
| SoftReboot
| UpdateV2 (instruction : UpdateType)
| UpdateAction (instruction : UpdateTypeLegacy)
| ChangeOperatorAddress (new_address : option Z)
| SetMinGas (new_min_gas : Z)
| UpdateAuthorizedKeys (add_list drop_list : list text).

Record OperatorUpdateMessage := {
  um_relay : Z;
  um_gateway : Z;
  um_phone_relay : Z;
  um_max : Z;
  um_operator_fee : Z;
  um_warning : Z;
  um_system_chain : option SystemChain;
  um_withdraw_chain : option SystemChain;
  um_merge_json : Value;
  um_operator_action : option OperatorAction;
  um_local_update_instruction : option UpdateTypeLegacy;
  um_local_update_instruction_v2 : option UpdateType;
  um_shaper_settings : option ShaperSettings;
  um_babeld_settings : option BabeldConfig;
  um_contact_info : option (ContactType CT);
  um_billing_details : option BillingDetails;
  um_ops_last_seen_usage_hour : Z;
}.

(** What an update sets off outside of the settings. *)
Inductive OperatorEffect :=
| EffResetShaper
| EffReboot
| EffRestartRita
| EffResetWifiPass
| EffSetWifi (token : list text)
| EffUpdateSystem (instruction : UpdateType)
| EffUpdateKeys (add_list drop_list : list text)
| EffOracleBalance (balance : option Z).

(** The nodes of [set_system_blockchain]; the balance of the oracle is reset. *)
Definition chain_nodes (id : SystemChain) : list text :=
  match id with
  | Ethereum => [lit "https://eth.althea.org:443"; lit "https://mainnet.infura.io/v3/6b080f02d7004a8394444cdf232a7081"]
  | Xdai => [lit "https://dai.althea.org/"]
  | Sepolia => [lit "https://ethereum-sepolia-rpc.publicnode.com"]
  | AltheaL1 => [lit "https://rpc.althea.zone:8545"]
  end.
Definition set_system_blockchain (id : SystemChain) (payment : ClientPayment) : ClientPayment * list OperatorEffect :=
  (set_chain id (chain_nodes id) payment, [EffOracleBalance (Some 0)]).

Definition update_payment_and_network_settings (payment : ClientPayment) (network : ClientNetwork)
    (use_operator_price is_gateway : bool) (new_settings : OperatorUpdateMessage)
    : ClientPayment * ClientNetwork * list OperatorEffect :=
  let network :=
    if use_operator_price then
      set_babeld (set_local_fee (if is_gateway then um_gateway new_settings else um_relay new_settings)
                    (cn_babeld_settings network)) network
    else network in
  let payment := set_limits (um_max new_settings) (um_warning new_settings) payment in
  let '(payment, effects) :=
    match um_system_chain new_settings with
    | Some new_chain =>
        if bool_decide (cp_system_chain payment = new_chain) then (payment, [])
        else set_system_blockchain new_chain payment
    | None => (payment, [])
    end in
  let payment :=
    match um_withdraw_chain new_settings with Some new_chain => set_withdraw_chain new_chain payment | None => payment end in
  (payment, network, effects).

Definition check_billing_update (current incoming : option BillingDetails) : bool :=
  let current_sequence := match current with Some details => billing_sequence details | None => 0 end in
  match incoming with
  | Some details => current_sequence <? billing_sequence details
  | None => false
  end.

(** serde_json on the settings. *)
Class SettingsJson := {
  to_value : ClientSettings -> option Value;
  from_value : Value -> option ClientSettings;
}.
Context `{SJ : SettingsJson}.

(** [RitaClientSettings::merge]. *)
Definition merge (self : ClientSettings) (changed_settings : Value) : option ClientSettings :=
  settings_value ← to_value self; from_value (json_merge settings_value changed_settings).

Definition merge_settings_safely (client_settings : ClientSettings) (new_settings : Value) : ClientSettings :=
  match new_settings with
  | VObject _ =>
      if contains_forbidden_key FORBIDDEN_MERGE_VALUES new_settings then client_settings
      else match merge client_settings new_settings with Some s => s | None => client_settings end
  | _ => client_settings
  end.

(** The action, with the settings and the copy of the network settings taken
    before the update. *)
Definition act (a : option OperatorAction) (rita_client : ClientSettings) (network : ClientNetwork)
    : ClientSettings * ClientNetwork * list OperatorEffect :=
  match a with
  | Some ResetShaper => (rita_client, network, [EffResetShaper])
  | Some Reboot => (rita_client, network, [EffReboot])
  | Some SoftReboot => (rita_client, network, [EffRestartRita])
  | Some ResetRouterPassword => (rita_client, set_password None network, [])
  | Some ResetWiFiPassword => (rita_client, network, [EffResetWifiPass])
  | Some (SetWifi token) => (rita_client, network, [EffSetWifi token])
  | Some (ChangeOperatorAddress new_address) =>
      let o := rc_operator rita_client in
      (set_operator {| co_operator_address := new_address; co_operator_fee := co_operator_fee o;
          co_use_operator_price := co_use_operator_price o; co_force_use_operator_price := co_force_use_operator_price o;
          co_installation_details := co_installation_details o; co_billing_details := co_billing_details o;
          co_display_operator_setup := co_display_operator_setup o |} rita_client, network, [])
  | Some (UpdateV2 instruction) => (rita_client, network, [EffUpdateSystem instruction])
  | Some (UpdateAction instruction) => (rita_client, network, [EffUpdateSystem (update_of_legacy instruction)])
  | Some (SetMinGas new_min_gas) => (set_payment (set_min_gas new_min_gas (rc_payment rita_client)) rita_client, network, [])
  | Some (UpdateAuthorizedKeys add_list drop_list) => (rita_client, network, [EffUpdateKeys add_list drop_list])
  | None => (rita_client, network, [])
  end.
(** The settings that are written, and what was set off. *)
Definition perform_operator_update (new_settings : OperatorUpdateMessage) (rita_client : ClientSettings)
    (network : ClientNetwork) : ClientSettings * list OperatorEffect :=
  let '(rita_client, network, effects) := act (um_operator_action new_settings) rita_client network in
  let network := match um_shaper_settings new_settings with Some s => set_shaper s network | None => network end in
  let network := match um_babeld_settings new_settings with Some b => set_babeld b network | None => network end in
  (set_network network rita_client, effects).

(** * The check in *)

(** The hours of one map that the server has not seen, without the current one. *)
Definition unseen (min_send_hour current_hour : Z) (usage : gmap Z Usage) : gmap Z Usage :=
  filter (fun e => min_send_hour < e.1 < current_hour) usage.
Record UsageTrackerTransfer := { client_bandwidth : gmap Z Usage; relay_bandwidth : gmap Z Usage; exit_bandwidth : gmap Z Usage }.

(** The outside during one check in: [ce_meanwhile] is what the other threads do
    to the settings while the answer is awaited. *)
Record CheckinEnv := {
  ce_identity : option Identity;
  ce_is_gateway : bool;
  ce_current_hour : option Z;
  ce_client_usage : gmap Z Usage;
  ce_relay_usage : gmap Z Usage;
  ce_hardware_info : option Value;
  ce_report : Value;
  ce_answer : OperatorUpdateMessage + bool;
  ce_meanwhile : ClientSettings -> ClientSettings;
}.
Inductive CheckinError := SendRequestFailed | BadAnswer | TimeError.

Record OperatorCheckinMessage := {
  cm_id : Identity;
  cm_operator_address : option Z;
  cm_system_chain : SystemChain;
  cm_contact_info : option (ContactType CT);
  cm_install_details : option InstallationDetails;
  cm_billing_details : option BillingDetails;
  cm_hardware_info : option Value;
  cm_user_bandwidth_limit : option Z;
  cm_user_bandwidth_usage_v2 : option UsageTrackerTransfer;
  cm_report : Value;
}.

Record OpWorld := {
  ow_settings : ClientSettings;
  ow_update_instruction : option UpdateType;
  ow_sent : list OperatorCheckinMessage;
  ow_effects : list OperatorEffect;
}.

Definition prepare_usage_data_for_upload (e : CheckinEnv) (ops_last_seen_hour : option Z)
    : M OpWorld CheckinError (option UsageTrackerTransfer) :=
  match ops_last_seen_hour with
  | Some ops_last_seen_hour =>
      let! current_hour := ok_or (ce_current_hour e) TimeError in
      ret (Some {| client_bandwidth := unseen ops_last_seen_hour current_hour (ce_client_usage e);
                   relay_bandwidth := unseen ops_last_seen_hour current_hour (ce_relay_usage e);
                   exit_bandwidth := ∅ |})
  | None => ret None
  end.

(** The contact information and the operator settings after the answer. *)
Definition update_contact (rita_client : ClientSettings) (new_settings : OperatorUpdateMessage) : ClientSettings :=
  if check_contacts_update (rc_contact_info rita_client) (um_contact_info new_settings)
  then set_contact (storage_of_type <$> um_contact_info new_settings) rita_client else rita_client.
Definition use_operator_price (operator : ClientOperator) : bool :=
  co_use_operator_price operator || co_force_use_operator_price operator.
Definition update_operator (operator : ClientOperator) (new_settings : OperatorUpdateMessage) : ClientOperator :=
  let new_operator_fee := um_operator_fee new_settings in {|
    co_operator_address := co_operator_address operator;
    co_operator_fee := if use_operator_price operator || (co_operator_fee operator <? new_operator_fee)
                       then new_operator_fee else co_operator_fee operator;
    co_use_operator_price := co_use_operator_price operator;
    co_force_use_operator_price := co_force_use_operator_price operator;
    co_installation_details := None;
    co_billing_details := if check_billing_update (co_billing_details operator) (um_billing_details new_settings)
                          then um_billing_details new_settings else co_billing_details operator;
    co_display_operator_setup := co_display_operator_setup operator |}.

(** The part after the answer, on the settings read before the request.  The
    network settings are copied before they are updated. *)
Definition apply_answer (e : CheckinEnv) (rita_client : ClientSettings) (new_settings : OperatorUpdateMessage)
    : ClientSettings * option UpdateType * list OperatorEffect :=
  let rita_client := update_contact rita_client new_settings in
  let operator := rc_operator rita_client in
  let rita_client := set_operator (update_operator operator new_settings) rita_client in
  let network := rc_network rita_client in
  let '(payment, new_network, effects) :=
    update_payment_and_network_settings (rc_payment rita_client) (rc_network rita_client)
      (use_operator_price operator) (ce_is_gateway e) new_settings in
  let rita_client := set_network new_network (set_payment payment rita_client) in
  let rita_client := merge_settings_safely rita_client (um_merge_json new_settings) in
  let update_instructions :=
    match um_local_update_instruction new_settings, um_local_update_instruction_v2 new_settings with
    | None, None => None
    | Some legacy, None => Some (update_of_legacy legacy)
    | _, Some new => Some new
    end in
  let '(written, more) := perform_operator_update new_settings rita_client network in
  (written, update_instructions, effects ++ more).

Definition operator_update (e : CheckinEnv) (ops_last_seen_usage_hour : option Z) : M OpWorld CheckinError Z :=
  let! rita_client := (fun w => Done w (ow_settings w)) in
  let! id := unwrap (ce_identity e) in
  let operator_settings := rc_operator rita_client in
  if bool_decide (co_operator_address operator_settings = None) && negb (rc_log_enabled rita_client)
  then ret (default 0 ops_last_seen_usage_hour) else
  let! usage := prepare_usage_data_for_upload e ops_last_seen_usage_hour in
  let message := {|
    cm_id := id; cm_operator_address := co_operator_address operator_settings;
    cm_system_chain := cp_system_chain (rc_payment rita_client);
    cm_contact_info := type_of_storage <$> rc_contact_info rita_client;
    cm_install_details := co_installation_details operator_settings;
    cm_billing_details := co_billing_details operator_settings;
    cm_hardware_info := if rc_log_enabled rita_client then ce_hardware_info e else None;
    cm_user_bandwidth_limit := cn_user_bandwidth_limit (rc_network rita_client);
    cm_user_bandwidth_usage_v2 := usage; cm_report := ce_report e |} in
  let! _ := modify (fun w => {| ow_settings := ce_meanwhile e (ow_settings w);
                                ow_update_instruction := ow_update_instruction w;
                                ow_sent := ow_sent w ++ [message]; ow_effects := ow_effects w |}) in
  match ce_answer e with
  | inr true => throw SendRequestFailed
  | inr false => throw BadAnswer
  | inl new_settings =>
      let '(written, instruction, effects) := apply_answer e rita_client new_settings in
      let! _ := modify (fun w => {| ow_settings := written; ow_update_instruction := instruction;
                                    ow_sent := ow_sent w; ow_effects := ow_effects w ++ effects |}) in
      ret (um_ops_last_seen_usage_hour new_settings)
  end.

End update.

(** * Keys for remote access *)

(** The openssh_keys crate: reading a key and printing it again. *)
Class SshKeys := { canonical_key : text -> option text }.

Record AuthorizedKeys := { ak_key : text; ak_managed : bool; ak_flush : bool }.
#[export] Instance AuthorizedKeys_eq_dec : EqDecision AuthorizedKeys.
Proof. solve_decision. Defined.

(** What the file operations return.  [ko_lines] is the file as it was read, one
    entry per line with [None] for a line that cannot be read; [None] when it
    cannot be opened. *)
Record KeyOps := {
  ko_lines : option (list (option text));
  ko_create : bool;
  ko_open_temp : bool;
  ko_metadata : bool;
  ko_write : bool;
  ko_rename : bool;
  ko_remove : bool;
}.
(** What is in the file afterwards. *)
Inductive KeysAfter := KeysUnchanged | KeysEmptied | KeysReplaced (lines : list text) | KeysReplacedPartly.

Section keys.
Context `{SSH : SshKeys}.

Definition managed_key (k : text) : AuthorizedKeys := {| ak_key := k; ak_managed := true; ak_flush := false |}.
(** A set of keys, in the order of insertion. *)
Definition key_insert (k : AuthorizedKeys) (s : list AuthorizedKeys) : list AuthorizedKeys :=
  if decide (k ∈ s) then s else s ++ [k].
Definition key_remove (k : AuthorizedKeys) (s : list AuthorizedKeys) : list AuthorizedKeys :=
  filter (fun k' => k' <> k) s.

(** The loop over the lines; the flag says that the file was created anew after
    a line that could not be read, [None] that creating it failed. *)
Fixpoint collect_keys (o : KeyOps) (ls : list (option text)) (existing : list AuthorizedKeys) (emptied : bool)
    : option (list AuthorizedKeys * bool) :=
  match ls with
  | [] => Some (existing, emptied)
  | Some line :: ls =>
      collect_keys o ls (match canonical_key line with Some k => key_insert (managed_key k) existing | None => existing end) emptied
  | None :: ls => if ko_create o then collect_keys o ls existing true else None
  end.
Definition add_keys (add_list : list text) (existing : list AuthorizedKeys) : list AuthorizedKeys :=
  foldl (fun s pubkey => match canonical_key pubkey with Some k => key_insert (managed_key k) s | None => s end)
    existing add_list.
Definition drop_keys (drop_list : list text) (existing : list AuthorizedKeys) : list AuthorizedKeys :=
  foldl (fun s pubkey => key_remove {| ak_key := pubkey; ak_managed := false; ak_flush := true |} s) existing drop_list.

(** The result is true for [Ok]. *)
Definition update_authorized_keys (o : KeyOps) (add_list drop_list : list text) : KeysAfter * bool :=
  let read :=
    match ko_lines o with
    | Some ls => collect_keys o ls [] false
    | None => if ko_create o then Some ([], true) else None
    end in
  match read with
  | None => (KeysUnchanged, false)
  | Some (existing, emptied) =>
      let before := if emptied : bool then KeysEmptied else KeysUnchanged in
      let existing := drop_keys drop_list (add_keys add_list existing) in
      if negb (ko_open_temp o) then (before, false)
      else if negb (ko_metadata o) then (before, true)
      else
        let write_data := ak_key <$> filter (fun k => ak_flush k = false) existing in
        if ko_rename o then (if ko_write o then KeysReplaced write_data else KeysReplacedPartly, true)
        else (before, ko_remove o)
  end.
End keys.

(** * The pace of the loop

    Times are in nanoseconds; [random] is the random factor of a failed check in. *)
Definition TARGET_UPDATE_FREQUENCY : Z := 5 * 10 ^ 9.
Definition UPDATE_FREQUENCY_CAP : Z := 3600 * 10 ^ 9.
Definition checkin_timeout (wait_unti_next_update : Z) : Z := Z.min (120 * 10 ^ 9) wait_unti_next_update.
Definition next_wait (success : bool) (random wait_unti_next_update : Z) : Z :=
  if success then Z.max (wait_unti_next_update / 2) TARGET_UPDATE_FREQUENCY
  else Z.min (wait_unti_next_update * random) UPDATE_FREQUENCY_CAP.
(** The check ins of one run of the inner thread: the wait and the last hour the
    server has seen. *)
Definition update_round (r : (option Z) * Z) (st : option Z * Z) : option Z * Z :=
  match r.1 with
  | Some last_ => (Some last_, next_wait true r.2 st.2)
  | None => (st.1, next_wait false r.2 st.2)
  end.
Definition update_loop (rounds : list (option Z * Z)) : option Z * Z :=
  foldl (fun st r => update_round r st) (None, TARGET_UPDATE_FREQUENCY) rounds.

End OperatorUpdate.
