(* ===== verification/Startup.v ===== *)
(** Starting a router: the store of its settings (settings/src/lib.rs), what is generated at
    the first start (clu/src/lib.rs, althea_kernel_interface/src/create_wg_key.rs), and the
    middleware in front of its dashboard (rita_common/src/middleware.rs). *)
From S2P Require Import Prelude Types Text IpText Babel TrafficWatcher Regions KernelShell KernelCounters IpRoute Uci KernelLinks Wireguard ContactInfo OperatorUpdate.
Local Open Scope Z_scope.

(** * The settings *)

(** The part of the settings of clients and exits that every router has. *)
Record RitaSettingsOf (Net Pay Rest : Type) := { set_network_of : Net; set_payment_of : Pay; set_rest : Rest }.
Arguments set_network_of {_ _ _} _. Arguments set_payment_of {_ _ _} _. Arguments set_rest {_ _ _} _.

(** [WrappedSettingsAdaptor]: the settings kept by another program, whose state is
    [adaptor]; an error is [None]. *)
Class WrappedSettingsAdaptor (client adaptor : Type) := {
  get_client : adaptor -> option client;
  set_client : client -> adaptor -> option adaptor;
  adaptor_write_config : adaptor -> option adaptor;
  merge_client_json : Value -> adaptor -> option adaptor;
  adaptor_get_config_json : adaptor -> option Value;
}.
(** What is kept can be read, and what was set is read. *)
Class AdaptorLaws {client adaptor} (A : WrappedSettingsAdaptor client adaptor) : Prop := {
  always_set c a : is_Some (set_client c a);
  set_then_get c a a' : set_client c a = Some a' -> get_client a' = Some c;
}.
(** [serde] for one kind of settings. *)
Class SerdeValue (A : Type) := { sv_to_value : A -> option Value; sv_from_value : Value -> option A; sv_to_toml : A -> option text }.

Module SettingsStore.
Section store.
Context {Net Pay RestC RestE adaptor : Type}.
Abbreviation Client := (RitaSettingsOf Net Pay RestC).
Abbreviation Exit := (RitaSettingsOf Net Pay RestE).
Context `{WA : WrappedSettingsAdaptor Client adaptor} `{SC : SerdeValue Client} `{SE : SerdeValue Exit}.
(** [get_identity] looks at the network and the payment settings. *)
Context (identity_of : Net -> Pay -> option Identity).

Inductive Settings := SClient (c : Client) | SExit (e : Exit) | SAdaptor (a : adaptor).
(** [SETTINGS] and [FLAG_CONFIG] by network namespace, and the files written. *)
Record Store := { SETTINGS : gmap Z Settings; FLAG_CONFIG : gmap Z text; disk : gmap text text }.
Definition with_settings (n : Z) (s : Settings) (st : Store) : Store :=
  {| SETTINGS := <[n := s]> (SETTINGS st); FLAG_CONFIG := FLAG_CONFIG st; disk := disk st |}.

(** Every function may panic ([None]); [netns] is the namespace it runs in. *)
Definition set_adaptor (netns : Z) (a : adaptor) (st : Store) : option Store :=
  match SETTINGS st !! netns with Some _ => None | None => Some (with_settings netns (SAdaptor a) st) end.

Definition write_file {A} `{SerdeValue A} (writable : text -> bool) (filename : text) (a : A) (st : Store) : Store * bool :=
  match sv_to_toml a with
  | Some ser =>
      if writable filename
      then ({| SETTINGS := SETTINGS st; FLAG_CONFIG := FLAG_CONFIG st; disk := <[filename := ser]> (disk st) |}, true)
      else (st, false)
  | None => (st, false)
  end.
(** The result says whether it succeeded. *)
Definition write_config (writable : text -> bool) (netns : Z) (st : Store) : option (Store * bool) :=
  match SETTINGS st !! netns with
  | Some (SAdaptor a) =>
      match adaptor_write_config a with Some a => Some (with_settings netns (SAdaptor a) st, true) | None => Some (st, false) end
  | Some (SClient settings) =>
      Some match FLAG_CONFIG st !! netns with Some filename => write_file writable filename settings st | None => (st, true) end
  | Some (SExit settings) =>
      Some match FLAG_CONFIG st !! netns with Some filename => write_file writable filename settings st | None => (st, true) end
  | None => None
  end.
Definition save_settings_on_shutdown (writable : text -> bool) (netns : Z) (st : Store) : option Store := fst <$> write_config writable netns st.

Definition get_config_json (netns : Z) (st : Store) : option (option Value) :=
  match SETTINGS st !! netns with
  | Some (SAdaptor a) => Some (adaptor_get_config_json a)
  | Some (SClient settings) => Some (sv_to_value settings)
  | Some (SExit settings) => Some (sv_to_value settings)
  | None => None
  end.
(** [merge]: the settings are replaced only when the result is read back. *)
Definition merge_value {A} `{SerdeValue A} (self : A) (changed_settings : Value) : option A :=
  settings_value ← sv_to_value self; sv_from_value (OperatorUpdate.json_merge settings_value changed_settings).
Definition merge_config_json (changed_settings : Value) (netns : Z) (st : Store) : option (Store * bool) :=
  let done (s : option Settings) := match s with Some s => (with_settings netns s st, true) | None => (st, false) end in
  match SETTINGS st !! netns with
  | Some (SAdaptor a) => Some (done (SAdaptor <$> merge_client_json changed_settings a))
  | Some (SClient c) => Some (done (SClient <$> merge_value c changed_settings))
  | Some (SExit e) => Some (done (SExit <$> merge_value e changed_settings))
  | None => None
  end.

Record RitaSettings := { rs_payment : Pay; rs_network : Net; rs_identity : option Identity }.
Definition set_common {R} (input : RitaSettings) (s : RitaSettingsOf Net Pay R) : RitaSettingsOf Net Pay R :=
  {| set_network_of := rs_network input; set_payment_of := rs_payment input; set_rest := set_rest s |}.
Definition set_rita_common (input : RitaSettings) (netns : Z) (st : Store) : option Store :=
  match SETTINGS st !! netns with
  | Some (SAdaptor a) =>
      client_settings ← get_client a;
      a ← set_client (set_common input client_settings) a;
      Some (with_settings netns (SAdaptor a) st)
  | Some (SClient c) => Some (with_settings netns (SClient (set_common input c)) st)
  | Some (SExit e) => Some (with_settings netns (SExit (set_common input e)) st)
  | None => None
  end.
Definition common_of {R} (s : RitaSettingsOf Net Pay R) : RitaSettings :=
  {| rs_payment := set_payment_of s; rs_network := set_network_of s; rs_identity := identity_of (set_network_of s) (set_payment_of s) |}.
Definition get_rita_common (netns : Z) (st : Store) : option RitaSettings :=
  match SETTINGS st !! netns with
  | Some (SAdaptor a) => common_of <$> get_client a
  | Some (SClient c) => Some (common_of c)
  | Some (SExit e) => Some (common_of e)
  | None => None
  end.

Definition set_flag_config (flag_config : text) (netns : Z) (st : Store) : Store :=
  {| SETTINGS := SETTINGS st; FLAG_CONFIG := <[netns := flag_config]> (FLAG_CONFIG st); disk := disk st |}.
Definition get_flag_config (netns : Z) (st : Store) : option text := FLAG_CONFIG st !! netns.

Definition set_rita_client (client_setting : Client) (netns : Z) (st : Store) : option Store :=
  match SETTINGS st !! netns with
  | Some (SAdaptor a) => a ← set_client client_setting a; Some (with_settings netns (SAdaptor a) st)
  | Some (SClient _) => Some (with_settings netns (SClient client_setting) st)
  | Some (SExit _) => None
  | None => Some (with_settings netns (SClient client_setting) st)
  end.
Definition get_rita_client (netns : Z) (st : Store) : option Client :=
  match SETTINGS st !! netns with
  | Some (SAdaptor a) => get_client a
  | Some (SClient settings) => Some settings
  | Some (SExit _) => None
  | None => None
  end.
Definition set_rita_exit (exit_setting : Exit) (netns : Z) (st : Store) : Store := with_settings netns (SExit exit_setting) st.
Definition get_rita_exit (netns : Z) (st : Store) : option Exit :=
  match SETTINGS st !! netns with Some (SExit val) => Some val | _ => None end.
Definition check_if_exit (netns : Z) (st : Store) : bool :=
  match SETTINGS st !! netns with Some (SExit _) => true | _ => false end.
End store.
End SettingsStore.

(** * The first start *)

Module Clu.
Import KernelShell KernelCounters KernelLinks IpRoute Wireguard.

Inductive NewCluError := KernelError (e : KernelInterfaceError) | CluIoError | NoDeviceName (line : text) | BadEthKey.

(** What is read and set at the start. *)
Record NetworkStart := {
  mesh_ip_of : option IpAddr; wg_public_key_of : option Z; wg_private_key_of : option Z; wg_private_key_path : text;
  device : option text; external_nic_of : option text; peer_interfaces_of : gset text; last_default_route_of : option DefaultRoute }.
Record PaymentStart := { eth_private_key_of : option Z; eth_address_of : option Z }.
Record StartSettings := { ss_network : NetworkStart; ss_payment : PaymentStart }.
(** For an exit also the key of the exit network and its file. *)
Record ExitKey := { exit_private_key : Z; exit_private_key_path : text }.

(** The machine: the commands run and the key files written. *)
Abbreviation SM A := (M (list Command * gmap text Z) NewCluError A).

Definition validate_mesh_ip (ip : IpAddr) : bool := match ip with V6 a => negb (a =? 0) | V4 _ => false end.

Section clu.
Context `{SH : Shell} `{FI : Files} `{B64 : Base64}.
(** ipgen on a random seed, the two calls of [wg] that make a pair of keys, which 32 bytes
    are a private key and the address of one. *)
Context (ipgen : option IpAddr) (wg_genkey : option text) (wg_pubkey : text -> option text) (valid_eth_key : Z -> bool) (to_address : Z -> Z).
(** The files that can be written, and the release file: [None] when it cannot be opened,
    [Some None] when it cannot be read. *)
Context (writable : text -> bool) (release_file : option (option text)).

(** [?] on a call of the kernel interface. *)
Definition in_kernel {A} (m : M (list Command) KernelInterfaceError A) : SM A := fun s =>
  match m s.1 with Done h a => Done (h, s.2) a | Fail h e => Fail (h, s.2) (KernelError e) | Panic => Panic end.

(** [^wg[0-9]+$]. *)
Definition is_hop_tunnel (i : text) : bool :=
  match i with
  | "w"%char :: "g"%char :: (_ :: _ as n) => forallb Regex.dec n
  | _ => false
  end.
(** The deletions run in threads of their own and their results are not looked at; here
    they are in the order they are started in. *)
Fixpoint del_multiple_interfaces (interfaces : list text) : SM unit :=
  match interfaces with
  | [] => ret tt
  | name :: interfaces => ignore_err (in_kernel (del_interface name)) ;! del_multiple_interfaces interfaces
  end.
Definition cleanup : SM unit :=
  let! all := in_kernel link_interfaces in
  del_multiple_interfaces (List.filter is_hop_tunnel all ++ [lit "wg_exit"; lit "wg_exit_v2"]).

Definition generate_mesh_ip : SM IpAddr := unwrap ipgen.
Definition start_mesh_ip (existing : option IpAddr) : SM (option IpAddr) :=
  match existing with
  | Some existing_mesh_ip => if validate_mesh_ip existing_mesh_ip then ret existing else let! ip := generate_mesh_ip in ret (Some ip)
  | None => let! ip := generate_mesh_ip in ret (Some ip)
  end.
(** create_wg_key.rs. *)
Definition create_wg_keypair : SM (Z * Z) :=
  let! privkey_str := unwrap wg_genkey in
  let! pubkey_str := unwrap (wg_pubkey privkey_str) in
  let! private := unwrap (wg_key_from_str (take 44 privkey_str)) in
  let! public := unwrap (wg_key_from_str (take 44 pubkey_str)) in
  ret (public, private).
Definition create_wg_key (path : text) (private_key : Z) : SM unit := fun s =>
  if writable path then Done (s.1, <[path := private_key]> s.2) tt else Fail s CluIoError.
Definition start_keys (n : NetworkStart) : SM (Z * Z) :=
  match wg_private_key_of n, wg_public_key_of n with
  | Some private, Some public => ret (public, private)
  | _, _ => create_wg_keypair
  end.

(** The first line of the release file with the name of the device. *)
Fixpoint device_line (ls : list text) : SM (option text) :=
  match ls with
  | [] => ret None
  | line :: ls =>
      if starts_with (lit "device:") line
      then let! device := ok_or (split_on " " line !! 1%nat) (NoDeviceName line) in ret (Some device)
      else device_line ls
  end.
Definition start_device (existing : option text) : SM (option text) :=
  match existing with
  | Some d => ret (Some d)
  | None =>
      match release_file with
      | None => ret None
      | Some None => throw CluIoError
      | Some (Some contents) => device_line (lines contents)
      end
  end.

(** [generate_eth_key]: [random k] is what the [k]-th try draws; [None] when the fuel runs
    out. *)
Fixpoint generate_eth_key (fuel : nat) (random : nat -> Z) (k : nat) : option Z :=
  match fuel with
  | O => None
  | S fuel => if valid_eth_key (random k) then Some (random k) else generate_eth_key fuel random (S k)
  end.
Definition get_identity (s : StartSettings) : option (IpAddr * Z * Z) :=
  ip ← mesh_ip_of (ss_network s); address ← eth_address_of (ss_payment s); key ← wg_public_key_of (ss_network s); Some (ip, address, key).

Definition in_route {A} (m : IpRoute.RM A) (route : option DefaultRoute) : SM (A * option DefaultRoute) := fun s =>
  match m (s.1, route) with
  | Done (h, r) a => Done (h, s.2) (a, r)
  | Fail (h, _) e => Fail (h, s.2) (KernelError e)
  | Panic => Panic
  end.

(** [new_key] is what [generate_eth_key] returns; the last line is the [assert!]. *)
Definition linux_init (new_key : Z) (settings : StartSettings) : SM StartSettings :=
  let n := ss_network settings in
  let! _ := cleanup in
  let! (_, route) := in_route restore_default_route (last_default_route_of n) in
  let! mesh_ip := start_mesh_ip (mesh_ip_of n) in
  let! dev := start_device (device n) in
  let! (public, private) := start_keys n in
  let! _ := create_wg_key (wg_private_key_path n) private in
  let peers := match external_nic_of n with Some nic => peer_interfaces_of n ∖ {[nic]} | None => peer_interfaces_of n end in
  let network := {| mesh_ip_of := mesh_ip; wg_public_key_of := Some public; wg_private_key_of := Some private;
                    wg_private_key_path := wg_private_key_path n; device := dev; external_nic_of := external_nic_of n;
                    peer_interfaces_of := peers; last_default_route_of := route |} in
  let key := default new_key (eth_private_key_of (ss_payment settings)) in
  let settings := {| ss_network := network; ss_payment := {| eth_private_key_of := Some key; eth_address_of := Some (to_address key) |} |} in
  match get_identity settings with Some _ => ret settings | None => panic end.

(** An exit draws only once, and keeps_settings its route and its interfaces. *)
Definition linux_exit_init (random : Z) (exit : ExitKey) (settings : StartSettings) : SM StartSettings :=
  let n := ss_network settings in
  let! _ := cleanup in
  let! mesh_ip := start_mesh_ip (mesh_ip_of n) in
  let! (public, private) := start_keys n in
  let! _ := create_wg_key (wg_private_key_path n) private in
  let! _ := create_wg_key (exit_private_key_path exit) (exit_private_key exit) in
  let! key := match eth_private_key_of (ss_payment settings) with
              | Some key => ret key
              | None => if valid_eth_key random then ret random else throw BadEthKey
              end in
  let network := {| mesh_ip_of := mesh_ip; wg_public_key_of := Some public; wg_private_key_of := Some private;
                    wg_private_key_path := wg_private_key_path n; device := device n; external_nic_of := external_nic_of n;
                    peer_interfaces_of := peer_interfaces_of n; last_default_route_of := last_default_route_of n |} in
  let settings := {| ss_network := network; ss_payment := {| eth_private_key_of := Some key; eth_address_of := Some (to_address key) |} |} in
  match get_identity settings with Some _ => ret settings | None => panic end.

(** [init] and [exit_init] unwrap the result. *)
Definition unwrap_result {A} (r : outcome (list Command * gmap text Z) NewCluError A) : option A := match r with Done _ a => Some a | _ => None end.
Definition init (new_key : Z) (settings : StartSettings) (s : list Command * gmap text Z) : option StartSettings :=
  unwrap_result (linux_init new_key settings s).
Definition exit_init (random : Z) (exit : ExitKey) (settings : StartSettings) (s : list Command * gmap text Z) : option StartSettings :=
  unwrap_result (linux_exit_init random exit settings s).
End clu.
End Clu.

(** * The dashboard *)

Module Middleware.

(** A request as the middleware sees it; the host has been taken from its headers. *)
Record http_request := {
  req_path : text; req_host : text; req_origin : option text; req_is_options : bool;
  req_auth : option (text * option text) }.
Record response (body : Type) := { resp_status : Z; resp_body : body; resp_headers : list (text * text) }.
Arguments resp_status {_} _. Arguments resp_body {_} _. Arguments resp_headers {_} _.

(** The regular expression is greedy and takes all up to the last colon; [None] is the
    panic without one. *)
Fixpoint before_last_colon (l : text) : option text :=
  match l with
  | [] => None
  | c :: l => match before_last_colon l with
              | Some r => Some (c :: r)
              | None => if Ascii.eqb c ":" then Some [] else None
              end
  end.

Section middleware.
Context {world body : Type}.
(** A service changes the world when its future is awaited; [None] is an error of it. *)
Abbreviation service := (http_request -> world -> world * option (response body)).

Definition origin_of (req : http_request) : option text :=
  url_no_port ← before_last_colon (req_host req);
  Some match req_origin req with
       | Some origin =>
           if text_eqb origin (lit "http://althea.net") then lit "althea.net"
           else if text_eqb origin (lit "http://althearouter.net") then lit "althearouter.net"
           else url_no_port
       | None => url_no_port
       end.
Definition headers_call (inner : service) (req : http_request) (w : world) : option (world * option (response body)) :=
  origin ← origin_of req;
  let '(w, resp) := inner req w in
  Some (w, (fun r => {|
    resp_status := if req_is_options req then 200 else resp_status r; resp_body := resp_body r;
    resp_headers := resp_headers r
      ++ match origin with [] => [] | _ => [(lit "access-control-allow-origin", lit "http://" ++ origin)] end
      ++ [(lit "access-control-allow-headers", lit "authorization, content-type")] |}) <$> resp).

(** What comes back: the response of the service, the text [Unauthorized] with status 403, or
    an [AuthenticationError]. *)
Inductive auth_result := Served (r : option (response body)) | Forbidden | AuthenticationError.
Definition auth_call (inner : service) (password : option text) (req : http_request) (w : world) : world * auth_result :=
  match password with
  | None => let '(w, r) := inner req w in (w, Served r)
  | Some password =>
      if text_eqb (req_path req) (lit "/exits") then let '(w, r) := inner req w in (w, Served r)
      else
        match req_auth req with
        | None => let '(w, r) := inner req w in (w, match r with Some _ => Forbidden | None => Served None end)
        | Some (user_id, auth_pass) =>
            if text_eqb user_id (lit "rita") && bool_decide (auth_pass = Some password)
            then let '(w, r) := inner req w in (w, Served r) else (w, AuthenticationError)
        end
  end.
End middleware.
End Middleware.

(** * Properties of the store *)

Module SettingsSpec.
Import SettingsStore.

Section store.
Context {Net Pay RestC RestE adaptor : Type}.
Abbreviation Client := (RitaSettingsOf Net Pay RestC).
Abbreviation Exit := (RitaSettingsOf Net Pay RestE).
Abbreviation Store := (@Store Net Pay RestC RestE adaptor).
Context `{WA : WrappedSettingsAdaptor Client adaptor} {AL : AdaptorLaws WA} `{SC : SerdeValue Client} `{SE : SerdeValue Exit}.
Context (identity_of : Net -> Pay -> option Identity) (writable : text -> bool).

Inductive op := OpAdaptor (a : adaptor) | OpWrite | OpMerge (v : Value) | OpCommon (i : @RitaSettings Net Pay) | OpFlag (f : text)
  | OpClient (c : Client) | OpExit (e : Exit).
Definition operate (o : op) (n : Z) (st : Store) : option Store :=
  match o with
  | OpAdaptor a => set_adaptor n a st
  | OpWrite => fst <$> write_config writable n st
  | OpMerge v => fst <$> merge_config_json v n st
  | OpCommon i => set_rita_common i n st
  | OpFlag f => Some (set_flag_config f n st)
  | OpClient c => set_rita_client c n st
  | OpExit e => Some (set_rita_exit e n st)
  end.

Inductive kind := IsClient | IsExit | IsAdaptor.
Definition kind_of (s : @Settings Net Pay RestC RestE adaptor) : kind :=
  match s with SClient _ => IsClient | SExit _ => IsExit | SAdaptor _ => IsAdaptor end.

Lemma write_file_settings {A} `{SerdeValue A} f (a : A) (st : Store) : SETTINGS (write_file writable f a st).1 = SETTINGS st.
Proof. unfold write_file. destruct (sv_to_toml a); [| done]. by destruct (writable f). Qed.

(** An operation changes the settings of its namespace only, and what kind of settings these
    are is never changed but by saving the settings of an exit. *)
Lemma operate_at o n (st st' : Store) : operate o n st = Some st' ->
  SETTINGS st' = SETTINGS st \/ exists s, SETTINGS st' = <[n := s]> (SETTINGS st) /\
    (forall s0, SETTINGS st !! n = Some s0 -> kind_of s = kind_of s0 \/ kind_of s = IsExit /\ exists e, o = OpExit e).
Proof.
  assert (Hsame : forall s, (forall s0, SETTINGS st !! n = Some s0 -> kind_of s = kind_of s0) -> with_settings n s st = st' ->
    exists s, SETTINGS st' = <[n := s]> (SETTINGS st) /\
    (forall s0, SETTINGS st !! n = Some s0 -> kind_of s = kind_of s0 \/ kind_of s = IsExit /\ exists e, o = OpExit e)).
  { intros s Hk <-. exists s. split; [done |]. intros s0 Hs. left. by apply Hk. }
  destruct o as [a | | v | i | f | c | e]; cbn [operate].
  - unfold set_adaptor. destruct (SETTINGS st !! n) eqn:E; [done |]. intros [= H]. right. eapply Hsame; [| exact H]. done.
  - unfold write_config. destruct (SETTINGS st !! n) as [[c | e | a] |] eqn:E; [| | | done].
    + destruct (FLAG_CONFIG st !! n); intros [= <-]; left; [apply write_file_settings | done].
    + destruct (FLAG_CONFIG st !! n); intros [= <-]; left; [apply write_file_settings | done].
    + destruct (adaptor_write_config a); intros [= H]; [right | left; by rewrite H]. eapply Hsame; [| exact H]. by intros ? [= <-].
  - unfold merge_config_json. destruct (SETTINGS st !! n) as [[c | e | a] |] eqn:E; [| | | done].
    + destruct (merge_value c v); intros [= H]; [right | left; by rewrite H]. eapply Hsame; [| exact H]. by intros ? [= <-].
    + destruct (merge_value e v); intros [= H]; [right | left; by rewrite H]. eapply Hsame; [| exact H]. by intros ? [= <-].
    + destruct (merge_client_json v a); intros [= H]; [right | left; by rewrite H]. eapply Hsame; [| exact H]. by intros ? [= <-].
  - unfold set_rita_common. destruct (SETTINGS st !! n) as [[c | e | a] |] eqn:E; [| | | done].
    + intros [= H]. right. eapply Hsame; [| exact H]. by intros ? [= <-].
    + intros [= H]. right. eapply Hsame; [| exact H]. by intros ? [= <-].
    + destruct (get_client a) as [c |]; [| done]. cbn [mbind option_bind]. destruct (set_client _ a) as [a' |]; [| done].
      intros [= H]. right. eapply Hsame; [| exact H]. by intros ? [= <-].
  - intros [= <-]. by left.
  - unfold set_rita_client. destruct (SETTINGS st !! n) as [[c' | e | a] |] eqn:E; [| done | |].
    + intros [= H]. right. eapply Hsame; [| exact H]. by intros ? [= <-].
    + destruct (set_client c a) as [a' |]; [| done]. intros [= H]. right. eapply Hsame; [| exact H]. by intros ? [= <-].
    + intros [= H]. right. eapply Hsame; [| exact H]. done.
  - intros [= <-]. right. eexists. split; [reflexivity |]. right. split; [done |]. by exists e.
Qed.
Theorem namespaces_independent o n m (st st' : Store) : operate o n st = Some st' -> m <> n -> SETTINGS st' !! m = SETTINGS st !! m.
Proof. intros [-> | (s & -> & _)]%operate_at Hm; [done | by apply lookup_insert_ne]. Qed.
Theorem kind_kept o n s (st st' : Store) : operate o n st = Some st' -> SETTINGS st !! n = Some s -> (forall e, o <> OpExit e) ->
  kind_of <$> SETTINGS st' !! n = Some (kind_of s).
Proof.
  intros [-> | (s' & -> & Hk)]%operate_at Hs Ho; [by rewrite Hs |]. rewrite lookup_insert_eq. cbn.
  destruct (Hk s Hs) as [-> | [_ [e He]]]; [done | by destruct (Ho e)].
Qed.

(** ** An adaptor cannot be told from settings kept in memory *)

Inductive same_settings : option (@Settings Net Pay RestC RestE adaptor) -> option (@Settings Net Pay RestC RestE adaptor) -> Prop :=
| same_client c a : get_client a = Some c -> same_settings (Some (SClient c)) (Some (SAdaptor a)).

Theorem adaptor_transparent n (local wrapped : Store) : same_settings (SETTINGS local !! n) (SETTINGS wrapped !! n) ->
  get_rita_client n local = get_rita_client n wrapped /\ get_rita_common identity_of n local = get_rita_common identity_of n wrapped /\
  check_if_exit n local = check_if_exit n wrapped /\
  (forall c, exists local' wrapped', set_rita_client c n local = Some local' /\ set_rita_client c n wrapped = Some wrapped' /\
    same_settings (SETTINGS local' !! n) (SETTINGS wrapped' !! n) /\ get_rita_client n wrapped' = Some c) /\
  (forall i, exists local' wrapped', set_rita_common i n local = Some local' /\ set_rita_common i n wrapped = Some wrapped' /\
    same_settings (SETTINGS local' !! n) (SETTINGS wrapped' !! n) /\
    rs_network <$> get_rita_common identity_of n wrapped' = Some (rs_network i)).
Proof.
  intros H. inversion H as [c a Ha E1 E2]. symmetry in E1, E2. unfold get_rita_client, get_rita_common, check_if_exit, set_rita_client, set_rita_common.
  rewrite E1, E2, Ha. do 3 (split; [done |]). split.
  - intros c'. destruct (always_set c' a) as [a' Hs]. rewrite Hs. eexists _, _. split; [reflexivity |]. split; [reflexivity |].
    cbn [with_settings SETTINGS]. rewrite !lookup_insert_eq. split; [constructor |]; by eapply set_then_get.
  - intros i. cbn [mbind option_bind]. destruct (always_set (set_common i c) a) as [a' Hs]. rewrite Hs. eexists _, _.
    split; [reflexivity |]. split; [reflexivity |]. cbn [with_settings SETTINGS]. rewrite !lookup_insert_eq.
    rewrite (set_then_get _ _ _ Hs). split; [by constructor; eapply set_then_get | done].
Qed.

(** ** Two threads that read, change and write *)

(** A thread reads the settings, and later writes its changed copy. *)
Inductive thread_event := Reads (t : nat) | Writes (t : nat).
Definition threads : Type := nat -> Client -> Client.
Fixpoint run_schedule (change : threads) (n : Z) (es : list thread_event) (copies : gmap nat Client) (st : Store) : option Store :=
  match es with
  | [] => Some st
  | Reads t :: es => c ← get_rita_client n st; run_schedule change n es (<[t := c]> copies) st
  | Writes t :: es => c ← copies !! t; st ← set_rita_client (change t c) n st; run_schedule change n es copies st
  end.

(** One after the other both changes are kept; when the second thread runs between the read
    and the write of the first its change is lost, also when the first thread changes
    nothing. *)
Theorem stale_write change n c (st : Store) : get_rita_client n st = Some c ->
  (exists st', run_schedule change n [Reads 0; Writes 0; Reads 1; Writes 1] ∅ st = Some st' /\ get_rita_client n st' = Some (change 1%nat (change 0%nat c))) /\
  (exists st', run_schedule change n [Reads 0; Reads 1; Writes 1; Writes 0] ∅ st = Some st' /\ get_rita_client n st' = Some (change 0%nat c)).
Proof.
  assert (Hset : forall c0 c' (s0 : Store), get_rita_client n s0 = Some c0 -> exists st' : Store, set_rita_client c' n s0 = Some st' /\ get_rita_client n st' = Some c').
  { intros c0 c' s0 Hg. unfold get_rita_client, set_rita_client in *. destruct (SETTINGS s0 !! n) as [[c1 | e | a] |]; [| done | | done].
    - eexists. split; [reflexivity |]. cbn [with_settings SETTINGS]. by rewrite lookup_insert_eq.
    - destruct (always_set c' a) as [a' Hs]. rewrite Hs. eexists. split; [reflexivity |]. cbn [with_settings SETTINGS].
      rewrite lookup_insert_eq. by eapply set_then_get. }
  intros Hg. split; cbn [run_schedule]; rewrite Hg; cbn [mbind option_bind].
  - rewrite lookup_insert_eq. cbn [mbind option_bind]. destruct (Hset c (change 0%nat c) st Hg) as (s1 & -> & G1). cbn [mbind option_bind].
    rewrite G1. cbn [mbind option_bind]. rewrite lookup_insert_eq. cbn [mbind option_bind].
    destruct (Hset _ (change 1%nat (change 0%nat c)) s1 G1) as (s2 & -> & G2). by exists s2.
  - rewrite lookup_insert_eq. cbn [mbind option_bind]. destruct (Hset c (change 1%nat c) st Hg) as (s1 & -> & G1). cbn [mbind option_bind].
    rewrite lookup_insert_ne by done. rewrite lookup_insert_eq. cbn [mbind option_bind].
    destruct (Hset _ (change 0%nat c) s1 G1) as (s2 & -> & G2). by exists s2.
Qed.
End store.
End SettingsSpec.

(** * Properties of the first start *)

Module CluSpec.
Import KernelShell KernelCounters KernelLinks IpRoute Wireguard Clu.

(** The search for a private key ends as soon as a draw is one. *)
Theorem eth_key_found valid random k j : (k <= j)%nat -> valid (random j) = true ->
  exists key, generate_eth_key valid (S (j - k)) random k = Some key /\ valid key = true.
Proof.
  intros Hk Hv. remember (j - k)%nat as n eqn:Hn. revert k Hk Hn. induction n as [| n IH]; intros k Hk Hn; cbn [generate_eth_key].
  - replace k with j by lia. rewrite Hv. eauto.
  - destruct (valid (random k)) eqn:E; [eauto |]. apply IH; lia.
Qed.

Section start.
Context `{SH : Shell} `{FI : Files} `{B64 : Base64} (to_address : Z -> Z) (writable : text -> bool).

(** What one start draws and finds; ipgen makes addresses of [fd00::/8]. *)
Record draw := {
  dr_ip : option IpAddr; dr_genkey : option text; dr_pubkey : text -> option text; dr_release : option (option text); dr_key : Z }.
Definition good_draw (d : draw) : Prop := forall ip, dr_ip d = Some ip -> validate_mesh_ip ip = true.
Definition start (d : draw) : StartSettings -> SM StartSettings :=
  linux_init (dr_ip d) (dr_genkey d) (dr_pubkey d) to_address writable (dr_release d) (dr_key d).

(** A bind that returned. *)
Ltac next_step H s E := apply bind_done in H; destruct H as (s & ? & E & H).

Lemma start_mesh_ip_done ip existing s s' r : (forall a, ip = Some a -> validate_mesh_ip a = true) ->
  start_mesh_ip ip existing s = Done s' r -> exists a, r = Some a /\ validate_mesh_ip a = true /\
    (forall b, existing = Some b -> validate_mesh_ip b = true -> r = existing).
Proof.
  intros Hip. unfold start_mesh_ip, generate_mesh_ip, bind, unwrap, ret.
  destruct existing as [b |]; [destruct (validate_mesh_ip b) eqn:E |].
  - intros [= <- <-]. by exists b.
  - destruct ip as [a |]; [| done]. intros [= <- <-]. exists a. split; [done |]. split; [by apply Hip |]. intros b' [= <-]. congruence.
  - destruct ip as [a |]; [| done]. intros [= <- <-]. exists a. split; [done |]. split; [by apply Hip | done].
Qed.
Lemma start_keys_done gen pub n s s' public private : start_keys gen pub n s = Done s' (public, private) ->
  forall a b, wg_public_key_of n = Some a -> wg_private_key_of n = Some b -> public = a /\ private = b.
Proof. unfold start_keys, ret. intros H a b Ha Hb. rewrite Ha, Hb in H. by injection H. Qed.

(** What a start leaves: an identity with a usable mesh address, the private key on disk,
    and no peers on the port to the internet; whatever usable was there is kept. *)
Definition keeps_settings (s s' : StartSettings) : Prop :=
  (forall ip, mesh_ip_of (ss_network s) = Some ip -> validate_mesh_ip ip = true -> mesh_ip_of (ss_network s') = Some ip) /\
  (forall a b, wg_public_key_of (ss_network s) = Some a -> wg_private_key_of (ss_network s) = Some b ->
    wg_public_key_of (ss_network s') = Some a /\ wg_private_key_of (ss_network s') = Some b) /\
  (forall k, eth_private_key_of (ss_payment s) = Some k -> eth_private_key_of (ss_payment s') = Some k) /\
  wg_private_key_path (ss_network s') = wg_private_key_path (ss_network s) /\ external_nic_of (ss_network s') = external_nic_of (ss_network s) /\
  (forall p, p ∈ peer_interfaces_of (ss_network s') <-> p ∈ peer_interfaces_of (ss_network s) /\ Some p <> external_nic_of (ss_network s)).
Definition started (s : StartSettings) (files : gmap text Z) : Prop :=
  exists ip public private key, mesh_ip_of (ss_network s) = Some ip /\ validate_mesh_ip ip = true /\
    wg_public_key_of (ss_network s) = Some public /\ wg_private_key_of (ss_network s) = Some private /\
    files !! wg_private_key_path (ss_network s) = Some private /\
    ss_payment s = {| eth_private_key_of := Some key; eth_address_of := Some (to_address key) |}.

Lemma start_leaves d s st st' s' : good_draw d -> start d s st = Done st' s' -> started s' st'.2 /\ keeps_settings s s'.
Proof.
  intros Hd H. unfold start, linux_init in H.
  next_step H s1 E1. next_step H s2 E2. destruct x0 as [u route]. next_step H s3 E3. next_step H s4 E4. next_step H s5 E5. destruct x2 as [public private].
  next_step H s6 E6. destruct (start_mesh_ip_done _ _ _ _ _ Hd E3) as (ip & -> & Hv & Hkeep).
  unfold create_wg_key in E6. destruct (writable _); [| done]. injection E6 as <- <-. unfold get_identity, ret in H. cbn in H. injection H as <- <-.
  split; [eexists ip, public, private, _; cbn; rewrite lookup_insert_eq; by repeat split |]. split; [| split; [| split; [| split; [done | split; [done |]]]]].
  - intros ip' H1 H2. cbn. rewrite (Hkeep ip' H1 H2). exact H1.
  - intros a b Ha Hb. cbn. by destruct (start_keys_done _ _ _ _ _ _ _ E5 a b Ha Hb) as [-> ->].
  - intros k Hk. cbn. by rewrite Hk.
  - intros p. cbn. destruct (external_nic_of (ss_network s)); set_solver.
Qed.
(** A router keeps_settings its identity over every restart, whatever is drawn then. *)
Theorem identity_survives d d' s st st1 s1 st' st2 s2 : good_draw d -> good_draw d' ->
  start d s st = Done st1 s1 -> start d' s1 st' = Done st2 s2 ->
  get_identity s2 = get_identity s1 /\ is_Some (get_identity s1) /\
  wg_private_key_of (ss_network s2) = wg_private_key_of (ss_network s1) /\ ss_payment s2 = ss_payment s1 /\
  peer_interfaces_of (ss_network s2) = peer_interfaces_of (ss_network s1).
Proof.
  intros Hd Hd' H1 H2. destruct (start_leaves _ _ _ _ _ Hd H1) as [(ip & pub & priv & key & Hip & Hv & Hpub & Hpriv & _ & Hpay) K1].
  destruct (start_leaves _ _ _ _ _ Hd' H2) as [(ip2 & pub2 & priv2 & key2 & Hip2 & _ & Hpub2 & Hpriv2 & _ & Hpay2) K2].
  destruct K1 as (_ & _ & _ & _ & Hnic & Hpeers). destruct K2 as (K2ip & K2key & K2eth & _ & _ & K2peers).
  specialize (K2ip ip Hip Hv). destruct (K2key pub priv Hpub Hpriv) as [K2pub K2priv].
  assert (Hk : ss_payment s2 = ss_payment s1).
  { rewrite Hpay, Hpay2. rewrite Hpay in K2eth. specialize (K2eth key eq_refl). rewrite Hpay2 in K2eth. by injection K2eth as ->. }
  unfold get_identity. rewrite K2ip, Hip, Hk, K2pub, Hpub, Hpay. cbn. repeat split; [eauto | by rewrite Hpriv |].
  apply set_eq. intros p. rewrite K2peers, Hpeers, Hnic. tauto.
Qed.

(** ** No panic *)

Definition no_panic {S E A} (m : M S E A) : Prop := forall s, m s <> Panic.
Lemma no_panic_bind {S E A B} (m : M S E A) (k : A -> M S E B) : no_panic m -> (forall a, no_panic (k a)) -> no_panic (bind m k).
Proof. intros Hm Hk s. unfold bind. specialize (Hm s). destruct (m s); [apply Hk | done | done]. Qed.
Lemma no_panic_bind_post {S E A B} (m : M S E A) (k : A -> M S E B) (Q : A -> Prop) :
  no_panic m -> (forall s s' a, m s = Done s' a -> Q a) -> (forall a, Q a -> no_panic (k a)) -> no_panic (bind m k).
Proof. intros Hm Hq Hk s. unfold bind. specialize (Hm s). destruct (m s) eqn:Em; [by apply (Hk _ (Hq _ _ _ Em)) | done | done]. Qed.
Lemma no_panic_ret {S E A} (a : A) : no_panic (S := S) (E := E) (ret a).
Proof. done. Qed.
Lemma no_panic_run p a : no_panic (ki_run p a).
Proof. intros s. unfold ki_run. by destruct (shell_answer _ _ _). Qed.
Lemma no_panic_in_kernel {A} (m : M (list Command) KernelInterfaceError A) : no_panic m -> no_panic (in_kernel m).
Proof. intros Hm s. unfold in_kernel. specialize (Hm s.1). by destruct (m s.1). Qed.
Lemma no_panic_kernel {A} (m : M (list Command) KernelInterfaceError A) : no_panic m -> no_panic (IpRoute.kernel m).
Proof. intros Hm s. unfold IpRoute.kernel. specialize (Hm s.1). by destruct (m s.1). Qed.
Lemma no_panic_ignore {S E A} (m : M S E A) : no_panic m -> no_panic (ignore_err m).
Proof. intros Hm s. unfold ignore_err. specialize (Hm s). by destruct (m s). Qed.
Lemma no_panic_del names : no_panic (del_multiple_interfaces names).
Proof.
  induction names as [| n names IH]; [done |]. cbn [del_multiple_interfaces]. apply no_panic_bind; [| done].
  apply no_panic_ignore, no_panic_in_kernel. unfold del_interface. apply no_panic_bind; [apply no_panic_run | done].
Qed.
Lemma no_panic_cleanup : no_panic cleanup.
Proof.
  apply no_panic_bind; [apply no_panic_in_kernel; intros h; unfold link_interfaces; by destruct (link_names h) |]. intros l. apply no_panic_del.
Qed.
Lemma no_panic_restore : no_panic restore_default_route.
Proof.
  assert (Hs : no_panic restore_saved).
  { apply no_panic_bind; [done |]. intros [r |]; [| done]. apply no_panic_kernel. unfold set_route. apply no_panic_bind; [apply no_panic_run | done]. }
  apply no_panic_bind; [apply no_panic_kernel; unfold get_default_route; apply no_panic_bind; [apply no_panic_run | done] |].
  intros [r |]; [| done]. by destruct (is_althea_default_route r).
Qed.
Lemma no_panic_device release existing : no_panic (start_device release existing).
Proof.
  unfold start_device. destruct existing; [done |]. destruct release as [[contents |] |]; [| done..].
  induction (lines contents) as [| line ls IH]; [done |]. cbn [device_line]. destruct (starts_with _ line); [| done].
  apply no_panic_bind; [| done]. intros s. unfold ok_or. by destruct (split_on _ line !! 1%nat).
Qed.

(** When addresses and keys can be made the start does not panic; in particular the assertion
    at its end holds. *)
Theorem start_never_panics d s : is_Some (dr_ip d) -> no_panic (create_wg_keypair (dr_genkey d) (dr_pubkey d)) -> no_panic (start d s).
Proof.
  intros [ip Hip] Hkeys. unfold start, linux_init. apply no_panic_bind; [apply no_panic_cleanup |]. intros _.
  apply no_panic_bind; [intros st; unfold in_route; pose proof (no_panic_restore (st.1, last_default_route_of (ss_network s))) as Hr;
    by destruct (restore_default_route _) as [[] | [] |] |]. intros [_ route].
  assert (Hm : forall st, exists ip', start_mesh_ip (dr_ip d) (mesh_ip_of (ss_network s)) st = Done st (Some ip')).
  { intros st. unfold start_mesh_ip, generate_mesh_ip, bind, unwrap, ret. rewrite Hip. destruct (mesh_ip_of _) as [b |]; [| eauto].
    destruct (validate_mesh_ip b); eauto. }
  apply (no_panic_bind_post _ _ is_Some); [intros st; by destruct (Hm st) as [? ->] | intros st st' r; destruct (Hm st) as [? ->]; intros [= _ <-]; eauto |].
  intros r [ip' ->]. apply no_panic_bind; [apply no_panic_device |]. intros dev.
  apply no_panic_bind; [unfold start_keys; by destruct (wg_private_key_of (ss_network s)), (wg_public_key_of (ss_network s)) |]. intros [public private].
  apply no_panic_bind; [intros st; unfold create_wg_key; by destruct (writable _) |]. done.
Qed.
End start.
End CluSpec.

(** * Properties of the dashboard *)

Module MiddlewareSpec.
Import Middleware.

Section middleware.
Context {world body : Type} (inner : http_request -> world -> world * option (response body)).

Definition accepted (password : text) (req : http_request) : Prop := req_auth req = Some (lit "rita", Some password).

(** With a password set, an answer of the service gets out only for that password, apart from
    the list of exits. *)
Theorem answers_protected password req w w' r : auth_call inner (Some password) req w = (w', Served (Some r)) ->
  accepted password req \/ req_path req = lit "/exits".
Proof.
  unfold auth_call, text_eqb. case_bool_decide; [by right |]. destruct (req_auth req) as [[user pass] |] eqn:E.
  - destruct (bool_decide (user = _) && _) eqn:Ea; [| done]. apply andb_true_iff in Ea as [->%bool_decide_eq_true ->%bool_decide_eq_true]. by left.
  - destruct (inner req w) as [w1 [resp |]]; [by intros [= _ [=]] | by intros [=]].
Qed.
(** A request with a wrong password changes nothing. *)
Theorem wrong_password_blocked password req w auth : req_auth req = Some auth -> ~ accepted password req -> req_path req <> lit "/exits" ->
  auth_call inner (Some password) req w = (w, AuthenticationError).
Proof.
  intros Ha Hn Hp. unfold auth_call, text_eqb. rewrite bool_decide_eq_false_2 by done. rewrite Ha. destruct auth as [user pass].
  destruct (bool_decide (user = _) && _) eqn:Ea; [| done]. exfalso. apply Hn. unfold accepted. rewrite Ha.
  by apply andb_true_iff in Ea as [->%bool_decide_eq_true ->%bool_decide_eq_true].
Qed.
(** A request without any is carried out before it is refused. *)
Theorem missing_password_executed password req w : req_auth req = None -> (auth_call inner (Some password) req w).1 = (inner req w).1.
Proof.
  intros Ha. unfold auth_call. rewrite Ha. destruct (inner req w) as [w' r]. by destruct (text_eqb _ _).
Qed.
End middleware.
End MiddlewareSpec.

Module StartDemo.
Import KernelShell KernelLinks Wireguard Clu CluSpec.

(** A machine that answers every command with nothing. *)
#[local] Instance quiet : Shell := {| shell_answer := fun _ _ _ => Some {| out_success := true; out_stdout := []; out_stderr := [] |} |}.
#[local] Instance links : Files := {| file_lines := fun _ _ => None; link_names := fun _ => Some [lit "eth0"; lit "wg7"; lit "wg_exit"] |}.
#[local] Instance no_base64 : Base64 := {| b64_encode := fun _ => []; b64_decode := fun _ => None |}.
Definition first_draw : draw := {|
  dr_ip := Some (V6 (0xfd00 * 2 ^ 112 + 7)); dr_genkey := None; dr_pubkey := fun _ => None;
  dr_release := Some (Some (lit "device: gl-b1300")); dr_key := 5 |}.
Definition second_draw : draw := {| dr_ip := Some (V6 1); dr_genkey := None; dr_pubkey := fun _ => None; dr_release := None; dr_key := 6 |}.
Definition fresh : StartSettings := {|
  ss_network := {| mesh_ip_of := None; wg_public_key_of := Some 1; wg_private_key_of := Some 2; wg_private_key_path := lit "/tmp/priv";
    device := None; external_nic_of := Some (lit "eth0"); peer_interfaces_of := {[lit "eth0"; lit "eth1"]}; last_default_route_of := None |};
  ss_payment := {| eth_private_key_of := None; eth_address_of := None |} |}.
Definition run_start (d : draw) (s : StartSettings) := start Z.opp (fun _ => true) d s ([], ∅).
Definition first_settings : StartSettings := match run_start first_draw fresh with Done _ s => s | _ => fresh end.
Example first_start_done : exists st, run_start first_draw fresh = Done st first_settings /\ device (ss_network first_settings) = Some (lit "gl-b1300").
Proof. eexists. vm_compute. done. Qed.
Example second_start_done : exists st s, run_start second_draw first_settings = Done st s.
Proof. eexists _, _. vm_compute. reflexivity. Qed.
Lemma identity_survives_witness : exists st s, run_start second_draw first_settings = Done st s /\ get_identity s = get_identity first_settings.
Proof.
  destruct first_start_done as (st1 & E1 & _), second_start_done as (st2 & s2 & E2). exists st2, s2. split; [done |].
  apply (identity_survives Z.opp (fun _ => true) first_draw second_draw fresh _ _ _ _ _ _ ltac:(by intros ? [= <-]) ltac:(by intros ? [= <-]) E1 E2).
Defined.
End StartDemo.
