(* ===== verification/Wifi.v ===== *)
(** Wireless settings of a router (rita_client/src/dashboard/wifi.rs): the channels,
    the modes of encryption, the checks on what a user asks for, several changes in
    one request and reading the configuration; with the nickname the first network
    name becomes (rita_common/src/dashboard/nickname.rs).  The parser of JSON is a
    parameter. *)
From S2P Require Import Prelude Types Text IpText Babel TrafficWatcher ContactInfo RouterUpgrade OperatorUpdate ExitDatabase.
From S2P Require Import KernelShell KernelCounters IpRoute TrafficControl Uci KernelLinks Wireguard Interfaces.
Import KernelShell Uci.

Inductive EncryptionModes := Sae | SaeMixed | Psk2TkipCcmp | Psk2MixedTkipCcmp | NoEncryption.

(** What a user may change. *)
Inductive WifiToken :=
| WifiChannel (radio : text) (channel : Z)
| WifiSsid (radio ssid : text)
| WifiPass (radio pass : text)
| WifiDisabled (radio : text) (disabled : bool)
| WifiSecurity (radio encryption : text).

Module Wifi.

(** * Channels *)

Definition ALLOWED_TWO : list Z := [1; 6; 11].
Definition ALLOWED_FIVE_20 : list Z :=
  [36; 40; 44; 48; 52; 56; 60; 64; 100; 104; 108; 112; 116; 132; 136; 140; 144; 149; 153; 157; 161; 165].
Definition ALLOWED_FIVE_40 : list Z := [36; 44; 52; 60; 100; 108; 116; 124; 132; 140; 149; 157].
Definition ALLOWED_FIVE_80 : list Z := [36; 52; 100; 116; 132; 149].
Definition ALLOWED_FIVE_80_IPQ40XX : list Z := [36; 149].
Definition ALLOWED_FIVE_80_MT7621 : list Z := [36].
Definition ALLOWED_FIVE_80_LOW : list Z := [36].
Definition ALLOWED_FIVE_80_HIGH : list Z := [149].
Definition ALLOWED_FIVE_40_LOW : list Z := [36; 44; 52; 60].
Definition ALLOWED_FIVE_40_HIGH : list Z := [100; 108; 116; 124; 132; 140; 149; 157].
Definition ALLOWED_NONE : list Z := [].
Definition ALLOWED_FIVE_160 : list Z := [36; 100].

Definition FORBIDDEN_CHARS : list ascii := [Ascii.ascii_of_nat 39; Ascii.ascii_of_nat 47; Ascii.ascii_of_nat 34; Ascii.ascii_of_nat 92].
Definition MINIMUM_PASS_CHARS : nat := 8.

(** * Encryption *)

Definition as_config_value (m : EncryptionModes) : text :=
  match m with
  | NoEncryption => lit "none" | Sae => lit "sae" | SaeMixed => lit "sae-mixed"
  | Psk2TkipCcmp => lit "psk2" | Psk2MixedTkipCcmp => lit "psk-mixed"
  end.
Definition mode_display (m : EncryptionModes) : text :=
  match m with
  | NoEncryption => lit "none" | Sae => lit "WPA3" | SaeMixed => lit "WPA2+WPA3"
  | Psk2TkipCcmp => lit "WPA2" | Psk2MixedTkipCcmp => lit "WPA+WPA2"
  end.
Definition one_of (s : text) (names : list string) : bool := existsb (fun n => text_eqb s (lit n)) names.
Definition mode_from_str (s : text) : option EncryptionModes :=
  if one_of s ["none"; "NONE"] then Some NoEncryption
  else if one_of s ["sae"; "WPA3"] then Some Sae
  else if one_of s ["sae-mixed"; "WPA2+WPA3"] then Some SaeMixed
  else if one_of s ["psk2+tkip+ccmp"; "psk2+tkip+aes"; "psk2+tkip"; "psk2+ccmp"; "psk2+aes"; "psk2"; "WPA2"] then Some Psk2TkipCcmp
  else if one_of s ["psk-mixed+tkip+ccmp"; "psk-mixed+tkip+aes"; "psk-mixed+tkip"; "psk-mixed+ccmp"; "psk-mixed+aes";
                    "psk-mixed"; "WPA+WPA2"] then Some Psk2MixedTkipCcmp
  else None.

(** * Checks *)

Inductive ValidationError :=
| IllegalCharacter (pos : Z) (c : text)
| EmptyValue
| BadChannel (width : string) (allowed : list Z)
| WrongRadio
| TooShort (n : nat)
| InvalidChoice.

(** The characters of a text, each with its bytes: a byte 10xxxxxx continues the
    character before it. *)
Definition is_continuation (c : ascii) : bool := Z.of_N (Ascii.N_of_ascii c) / 64 =? 2.
Fixpoint chars_from (s : text) : text * list text :=
  match s with
  | [] => ([], [])
  | c :: s => let '(tail, cs) := chars_from s in if is_continuation c then (c :: tail, cs) else ([], (c :: tail) :: cs)
  end.
Definition chars (s : text) : list text := (chars_from s).2.
(** The position that is found is that of a byte, and is taken for that of a
    character: a panic when the text has no such character. *)
Definition validate_config_value {St} (s : text) : M St ValidationError unit :=
  match s with
  | [] => throw EmptyValue
  | _ =>
      match list_find (fun c => c ∈ FORBIDDEN_CHARS) s with
      | Some (pos, _) => let! c := unwrap (chars s !! pos) in throw (IllegalCharacter (Z.of_nat pos + 1) c)
      | None => ret tt
      end
  end.

Definition mem (c : Z) (l : list Z) : bool := existsb (Z.eqb c) l.
Definition is_ipq40xx (mdl : text) : bool := contains (lit "gl-b1300") mdl || contains (lit "linksys_ea6350v3") mdl.
Definition is_mt7621 (mdl : text) : bool :=
  contains (lit "tplink_archer-a6-v3") mdl || contains (lit "cudy_wr2100") mdl || contains (lit "linksys_e5600") mdl.
Definition is_mr8300 (mdl : text) : bool := contains (lit "linksys_mr8300") mdl.
Definition validate_channel (model : option text) (old_val new_val : Z) (channel_width radio : text) : option ValidationError :=
  let old_is_two := old_val <? 20 in
  let old_is_five := negb old_is_two in
  let new_is_two := new_val <? 20 in
  let new_is_five := negb new_is_two in
  let width_is w := contains (lit w) channel_width in
  if (old_is_two && new_is_five) || (old_is_five && new_is_two) then Some WrongRadio
  else if new_is_two && negb (mem new_val ALLOWED_TWO) then Some (BadChannel "20" ALLOWED_TWO)
  else if new_is_five && width_is "20"%string && negb (mem new_val ALLOWED_FIVE_20) then Some (BadChannel "20" ALLOWED_FIVE_20)
  else if new_is_five && width_is "40"%string && negb (mem new_val ALLOWED_FIVE_40) then Some (BadChannel "40" ALLOWED_FIVE_40)
  else if new_is_five && width_is "80"%string && negb (mem new_val ALLOWED_FIVE_80) then Some (BadChannel "80" ALLOWED_FIVE_80)
  else if new_is_five && width_is "160"%string && negb (mem new_val ALLOWED_FIVE_160) then Some (BadChannel "160" ALLOWED_FIVE_160)
  else match model with
       | Some mdl =>
           if is_ipq40xx mdl && new_is_five && width_is "80"%string && negb (mem new_val ALLOWED_FIVE_80_IPQ40XX)
           then Some (BadChannel "80" ALLOWED_FIVE_80_IPQ40XX)
           else if is_mt7621 mdl && new_is_five && width_is "80"%string && negb (mem new_val ALLOWED_FIVE_80_MT7621)
           then Some (BadChannel "80" ALLOWED_FIVE_80_MT7621)
           else if is_mr8300 mdl && new_is_five
                   && ((text_eqb radio (lit "radio0") && (64 <? new_val)) || (text_eqb radio (lit "radio2") && (new_val <? 100)))
           then Some InvalidChoice
           else None
       | None => None
       end.

(** The channels a user is offered, [None] when the radio is not understood. *)
Definition allowed_channels (model : option text) (current_channel : Z) (five_channel_width radio : text) : option (list Z) :=
  let width_is w := contains (lit w) five_channel_width in
  let is_model p := match model with Some mdl => p mdl | None => false end in
  if current_channel <? 20 then Some ALLOWED_TWO
  else if is_model is_mr8300 then
    if width_is "80"%string && text_eqb radio (lit "radio0") then Some ALLOWED_FIVE_80_LOW
    else if width_is "80"%string && text_eqb radio (lit "radio2") then Some ALLOWED_FIVE_80_HIGH
    else if width_is "40"%string && text_eqb radio (lit "radio0") then Some ALLOWED_FIVE_40_LOW
    else if width_is "40"%string && text_eqb radio (lit "radio2") then Some ALLOWED_FIVE_40_HIGH
    else Some ALLOWED_NONE
  else if is_model is_ipq40xx && width_is "80"%string then Some ALLOWED_FIVE_80_IPQ40XX
  else if is_model is_mt7621 && width_is "80"%string then Some ALLOWED_FIVE_80_MT7621
  else if width_is "20"%string then Some ALLOWED_FIVE_20
  else if width_is "40"%string then Some ALLOWED_FIVE_40
  else if width_is "80"%string then Some ALLOWED_FIVE_80
  else if width_is "160"%string then Some ALLOWED_FIVE_160
  else None.

(** * Changing the settings *)

Inductive WifiError :=
| WifiKernel (e : KernelInterfaceError)
| WifiValidation (e : ValidationError)
| WifiParseInt
| WifiMisc (s : string)
| WifiConversion (s : string)
| WifiSerde.

(** The history of commands and the nickname in the settings. *)
Definition WifiState : Type := list Command * option text.
Abbreviation WM A := (M WifiState WifiError A).
Definition kernel {A} (m : M (list Command) KernelInterfaceError A) : WM A := fun s =>
  match m s.1 with Done h a => Done (h, s.2) a | Fail h e => Fail (h, s.2) (WifiKernel e) | Panic => Panic end.
Definition check (e : option ValidationError) : WM unit := match e with Some e => throw (WifiValidation e) | None => ret tt end.
Definition checked (m : M WifiState ValidationError unit) : WM unit := fun s =>
  match m s with Done s a => Done s a | Fail s e => Fail s (WifiValidation e) | Panic => Panic end.

(** An [ArrayString<32>]. *)
Definition array_string (s : text) : option text := if (length s <=? 32)%nat then Some s else None.
(** The result is not looked at by the caller. *)
Definition maybe_set_nickname (new_nick : text) : WM unit := fun s =>
  match s.2 with
  | None =>
      if negb (text_eqb new_nick (lit "AltheaHome-2.4")) || negb (text_eqb new_nick (lit "AltheaHome-5")) then
        match array_string new_nick with Some new => Done (s.1, Some new) tt | None => Done s tt end
      else Done s tt
  | Some _ => Done s tt
  end.

Section wifi.
Context `{SH : Shell} (model : option text).

Definition default_section (radio : text) (key : string) : text := lit "wireless.default_" ++ radio ++ lit key.
Definition radio_section (radio : text) (key : string) : text := lit "wireless." ++ radio ++ lit key.

Definition set_ssid (radio ssid : text) : WM unit :=
  checked (validate_config_value ssid);!
  kernel (set_uci_var (default_section radio ".ssid") ssid);!
  kernel (uci_commit (lit "wireless"));!
  kernel Interfaces.fs_sync;!
  maybe_set_nickname ssid.
Definition set_pass (radio pass : text) : WM unit :=
  if (length pass <? MINIMUM_PASS_CHARS)%nat then throw (WifiValidation (TooShort MINIMUM_PASS_CHARS))
  else checked (validate_config_value pass);! kernel (set_uci_var (default_section radio ".key") pass).
Definition set_channel (radio : text) (channel : Z) : WM unit :=
  let! current := kernel (get_uci_var (radio_section radio ".channel")) in
  let! current_channel := ok_or (parse_uint 10 U16_MAX current) WifiParseInt in
  let! channel_width := kernel (get_uci_var (radio_section radio ".htmode")) in
  check (validate_channel model current_channel channel channel_width radio);!
  kernel (set_uci_var (radio_section radio ".channel") (show_uint channel)).
Definition set_security (radio encryption : text) : WM unit :=
  match mode_from_str encryption with
  | Some parsed => kernel (set_uci_var (default_section radio ".encryption") (as_config_value parsed))
  | None => throw (WifiMisc "Could not set wifi encryption; invalid encryption mode")
  end.
(** Whether a reboot is needed. *)
Definition set_disabled (radio : text) (disabled : bool) : WM bool :=
  let! v := kernel (get_uci_var (radio_section radio ".disabled")) in
  let current_disabled := text_eqb v (lit "1") in
  if Bool.eqb current_disabled disabled then ret false
  else kernel (set_uci_var (radio_section radio ".disabled") (if disabled then lit "1" else lit "0"));! ret true.

Inductive body := ErrorBody (message : string) (e : WifiError) | RebootBody | UnitBody.
(** A step of the handler: go on, or answer with a status. *)
Definition orelse {A B} (m : WM A) (status : Z) (message : string) (k : A -> M WifiState Empty_set (Z * B)) (err : string -> WifiError -> B)
    : M WifiState Empty_set (Z * B) := fun s =>
  match m s with Done s a => k a s | Fail s e => Done s (status, err message e) | Panic => Panic end.
Definition BAD_REQUEST : Z := 400.
Definition INTERNAL_SERVER_ERROR : Z := 500.
Fixpoint apply_tokens (wifi_changes : list WifiToken) (needs_reboot : bool) (k : bool -> M WifiState Empty_set (Z * body))
    : M WifiState Empty_set (Z * body) :=
  match wifi_changes with
  | [] => k needs_reboot
  | token :: wifi_changes =>
      match token with
      | WifiChannel radio channel =>
          orelse (set_channel radio channel) BAD_REQUEST "Failed to set channel: " (fun _ => apply_tokens wifi_changes needs_reboot k) ErrorBody
      | WifiPass radio pass =>
          orelse (set_pass radio pass) BAD_REQUEST "Failed to set password: " (fun _ => apply_tokens wifi_changes needs_reboot k) ErrorBody
      | WifiSsid radio ssid =>
          orelse (set_ssid radio ssid) BAD_REQUEST "Failed to set SSID: " (fun _ => apply_tokens wifi_changes needs_reboot k) ErrorBody
      | WifiDisabled radio disabled =>
          orelse (set_disabled radio disabled) INTERNAL_SERVER_ERROR ""
            (fun reboot => apply_tokens wifi_changes (if reboot : bool then true else needs_reboot) k) ErrorBody
      | WifiSecurity radio encryption =>
          orelse (set_security radio encryption) BAD_REQUEST "Failed to set encryption: "
            (fun _ => apply_tokens wifi_changes needs_reboot k) ErrorBody
      end
  end.
Definition finish_changes (needs_reboot : bool) : M WifiState Empty_set (Z * body) :=
  orelse (kernel (uci_commit (lit "wireless"))) INTERNAL_SERVER_ERROR "" (fun _ =>
  orelse (kernel openwrt_reset_wireless) INTERNAL_SERVER_ERROR "" (fun _ =>
  orelse (kernel Interfaces.fs_sync) INTERNAL_SERVER_ERROR "" (fun _ =>
  orelse (kernel Wireguard.create_client_nat_rules) INTERNAL_SERVER_ERROR "" (fun _ =>
  if needs_reboot then
    orelse (kernel (sh "reboot" [])) INTERNAL_SERVER_ERROR "" (fun _ s => Done s (200, RebootBody)) ErrorBody
  else fun s => Done s (200, UnitBody)) ErrorBody) ErrorBody) ErrorBody) ErrorBody.
Definition set_wifi_multi_internal (wifi_changes : list WifiToken) : M WifiState Empty_set (Z * body) :=
  apply_tokens wifi_changes false finish_changes.
Definition set_wifi_multi (wifi_changes : list WifiToken) : M WifiState Empty_set (Z * body) := set_wifi_multi_internal wifi_changes.

(** * What the dashboard asks *)

Definition get_allowed_encryption_modes : list text :=
  mode_display <$> [NoEncryption; Sae; SaeMixed; Psk2TkipCcmp; Psk2MixedTkipCcmp].
Inductive channels_body := Channels (l : list Z) | ChannelsError (e : WifiError) | NoRadio.
Definition get_allowed_wifi_channels (radio : text) : M WifiState Empty_set (Z * channels_body) :=
  orelse (let! uci := kernel (get_uci_var (radio_section radio ".channel")) in ok_or (parse_uint 10 U16_MAX uci) WifiParseInt)
    INTERNAL_SERVER_ERROR "" (fun current_channel =>
  orelse (kernel (get_uci_var (radio_section radio ".htmode"))) INTERNAL_SERVER_ERROR "" (fun five_channel_width s =>
    Done s (match allowed_channels model current_channel five_channel_width radio with
            | Some l => (200, Channels l)
            | None => (BAD_REQUEST, NoRadio)
            end)) (fun _ => ChannelsError)) (fun _ => ChannelsError).

(** * Reading the configuration *)

Record WifiDevice := {
  dev_section_name : text; dev_type : text; dev_channel : text; dev_path : text; dev_htmode : text; dev_disabled : text;
  dev_radio_type : text;
}.
Record WifiInterface := {
  if_section_name : text; if_network : text; if_mesh : bool; if_mode : text; if_ssid : text;
  if_encryption : EncryptionModes; if_key : option text; if_device : WifiDevice;
}.
Context (from_str : text -> option Value).

(** [v\[k\]]: null for what is no object or has no such entry. *)
Definition index (v : Value) (k : string) : Value :=
  match v with VObject m => default VNull (OperatorUpdate.obj_get (lit k) m) | _ => VNull end.
Definition is_string (v : Value) (s : string) : bool := match v with VString t => text_eqb t (lit s) | _ => false end.
Definition string_of (v : Value) : option text := match v with VString t => Some t | _ => None end.
(** A field that may be missing. *)
Definition string_or_default (m : list (text * Value)) (k : string) : option text :=
  match OperatorUpdate.obj_get (lit k) m with None => Some [] | Some v => string_of v end.
Definition required (m : list (text * Value)) (k : string) : option text :=
  v ← OperatorUpdate.obj_get (lit k) m; string_of v.
Definition device_of (v : Value) : option WifiDevice :=
  match v with
  | VObject m =>
      section_name ← string_or_default m "section_name"; i_type ← required m "type"; channel ← required m "channel";
      path ← required m "path"; htmode ← required m "htmode"; disabled ← required m "disabled";
      radio_type ← string_or_default m "radio_type";
      Some {| dev_section_name := section_name; dev_type := i_type; dev_channel := channel; dev_path := path;
              dev_htmode := htmode; dev_disabled := disabled; dev_radio_type := radio_type |}
  | _ => None
  end.
Definition device_default : WifiDevice :=
  {| dev_section_name := []; dev_type := []; dev_channel := []; dev_path := []; dev_htmode := []; dev_disabled := []; dev_radio_type := [] |}.
Definition interface_of (v : Value) : option WifiInterface :=
  match v with
  | VObject m =>
      section_name ← string_or_default m "section_name"; network ← required m "network";
      mesh ← (match OperatorUpdate.obj_get (lit "mesh") m with None => Some false | Some (VBool b) => Some b | Some _ => None end);
      mode ← required m "mode"; ssid ← required m "ssid";
      encryption ← (e ← required m "encryption"; mode_from_str e);
      key ← (match OperatorUpdate.obj_get (lit "key") m with
             | None | Some VNull => Some None | Some (VString k) => Some (Some k) | Some _ => None end);
      Some {| if_section_name := section_name; if_network := network; if_mesh := mesh; if_mode := mode; if_ssid := ssid;
              if_encryption := encryption; if_key := key; if_device := device_default |}
  | _ => None
  end.
Definition strip_string_quotes (name : text) : text :=
  KernelCounters.replace [Ascii.ascii_of_nat 34] [] (KernelCounters.replace [Ascii.ascii_of_nat 39] [] name).

Fixpoint collect_devices (items : list (text * Value)) (devices : gmap text WifiDevice) : WM (gmap text WifiDevice) :=
  match items with
  | [] => ret devices
  | (k, v) :: items =>
      if is_string (index v ".type") "wifi-device" then
        let! device := ok_or (device_of v) WifiSerde in
        let! channel := ok_or (string_of (index v "channel")) WifiSerde in
        let! channel := ok_or (parse_uint 10 U8_MAX channel) WifiParseInt in
        let section_name := strip_string_quotes k in
        collect_devices items
          (<[section_name := {| dev_section_name := section_name; dev_type := dev_type device; dev_channel := dev_channel device;
               dev_path := dev_path device; dev_htmode := dev_htmode device; dev_disabled := dev_disabled device;
               dev_radio_type := if 20 <? channel then lit "5ghz" else lit "2ghz" |}]> devices)
      else collect_devices items devices
  end.
(** A device that is not there panics. *)
Fixpoint collect_wifi (devices : gmap text WifiDevice) (items : list (text * Value)) (interfaces : list WifiInterface) : WM (list WifiInterface) :=
  match items with
  | [] => ret interfaces
  | (k, v) :: items =>
      if is_string (index v ".type") "wifi-iface" && negb (is_string (index v "mode") "mesh") then
        let! i := ok_or (interface_of v) WifiSerde in
        let! device_name := ok_or (string_of (index v "device")) WifiSerde in
        let! device := unwrap (devices !! device_name) in
        collect_wifi devices items (interfaces ++
          [{| if_section_name := strip_string_quotes k; if_network := if_network i; if_mesh := contains (lit "adhoc") (if_mode i);
              if_mode := if_mode i; if_ssid := if_ssid i; if_encryption := if_encryption i; if_key := if_key i; if_device := device |}])
      else collect_wifi devices items interfaces
  end.
Definition ubus_call (namespace function argument : text) : M (list Command) KernelInterfaceError text :=
  let! output := ki_run (lit "ubus") [lit "call"; namespace; function; argument] in ret (out_stdout output).
Definition get_config_argument : text := lit "{ " ++ [Ascii.ascii_of_nat 34] ++ lit "config" ++ [Ascii.ascii_of_nat 34] ++ lit ": "
  ++ [Ascii.ascii_of_nat 34] ++ lit "wireless" ++ [Ascii.ascii_of_nat 34] ++ lit "}".
Definition get_wifi_config_internal : WM (list WifiInterface) :=
  let! config := kernel (ubus_call (lit "uci") (lit "get") get_config_argument) in
  let! val := ok_or (from_str config) WifiSerde in
  match index val "values" with
  | VObject items =>
      let! devices := collect_devices items ∅ in
      collect_wifi devices items []
  | _ => throw (WifiConversion "No values key in parsed wifi config!")
  end.
Definition get_wifi_config : M WifiState Empty_set (Z * (WifiError + list WifiInterface)) :=
  orelse get_wifi_config_internal INTERNAL_SERVER_ERROR "" (fun config s => Done s (200, inr config)) (fun _ => inl).

Fixpoint reset_each (config : list WifiInterface) : WM unit :=
  match config with
  | [] => ret tt
  | i :: config => set_pass (dev_section_name (if_device i)) (lit "ChangeMe");! reset_each config
  end.
Definition reset_wifi_pass : WM unit :=
  let! config := get_wifi_config_internal in
  reset_each config;!
  kernel (uci_commit (lit "wireless"));!
  kernel openwrt_reset_wireless;!
  kernel Interfaces.fs_sync;!
  kernel Wireguard.create_client_nat_rules.
End wifi.
End Wifi.

(** * Properties *)

Import Wifi.

(** ** Channels *)

(** The widths a radio is configured with. *)
Definition widths : list text :=
  lit <$> ["HT20"; "HT40"; "VHT20"; "VHT40"; "VHT80"; "VHT160"; "HE20"; "HE40"; "HE80"; "HE160"]%string.
Definition one_width (w : text) : bool :=
  match contains (lit "20") w, contains (lit "40") w, contains (lit "80") w, contains (lit "160") w with
  | true, false, false, false | false, true, false, false | false, false, true, false | false, false, false, true => true
  | _, _, _, _ => false
  end.
Lemma widths_apart w : w ∈ widths -> one_width w = true.
Proof.
  intros Hw. assert (Hall : forallb one_width widths = true) by (vm_compute; reflexivity).
  rewrite forallb_forall in Hall. by apply Hall, list_elem_of_In.
Qed.
(** A model is of one kind at most. *)
Definition models_apart (model : option text) : Prop :=
  match model with
  | Some mdl => is_ipq40xx mdl && is_mt7621 mdl = false /\ is_mr8300 mdl && is_mt7621 mdl = false
  | None => True
  end.
Definition mr8300 (model : option text) : bool := match model with Some mdl => is_mr8300 mdl | None => false end.

Lemma mem_elem c l : mem c l = true <-> c ∈ l.
Proof.
  unfold mem. rewrite existsb_exists. split.
  - intros (x & Hx & ->%Z.eqb_eq). by apply list_elem_of_In.
  - intros Hc. exists c. split; [by apply list_elem_of_In|apply Z.eqb_refl].
Qed.
Lemma mem_large c l : forallb (fun x => 20 <=? x) l = true -> mem c l = true -> (c <? 20) = false.
Proof.
  intros Hl Hc%mem_elem. rewrite forallb_forall in Hl. apply list_elem_of_In, Hl in Hc. apply Z.ltb_ge. lia.
Qed.

Lemma all_accepted (l : list Z) (V : Z -> option ValidationError) :
  forallb (fun c => match V c with None => true | Some _ => false end) l = true -> forall c, c ∈ l -> V c = None.
Proof. intros Hl c Hc. rewrite forallb_forall in Hl. apply list_elem_of_In, Hl in Hc. by destruct (V c). Qed.
Ltac menu_exact Hv :=
  apply mem_elem; cbn [negb andb orb] in Hv; rewrite ?andb_false_r, ?andb_true_r, ?orb_false_r in Hv;
  repeat match type of Hv with context [if ?b then _ else _] => destruct b eqn:?; try discriminate Hv end;
  repeat match goal with H : _ && _ = false |- _ => apply andb_false_iff in H as [H|H] end;
  repeat match goal with H : negb _ = _ |- _ => apply negb_false_iff in H || apply negb_true_iff in H end;
  try congruence.

Ltac menu_cases Hw Hm Ha :=
  apply widths_apart in Hw; unfold one_width in Hw; unfold allowed_channels in Ha; unfold validate_channel; cbv zeta in *;
  destruct (contains (lit "20") _), (contains (lit "40") _), (contains (lit "80") _), (contains (lit "160") _);
    try discriminate Hw; clear Hw;
  (match type of Hm with models_apart ?model => destruct model as [?|]; cbn [models_apart mr8300] in * end;
  [match type of Hm with context [is_ipq40xx ?mdl] => destruct (is_ipq40xx mdl), (is_mt7621 mdl), (is_mr8300 mdl) end;
   try (destruct Hm; discriminate); clear Hm|clear Hm]).
Lemma menu_accepted model cur w radio l :
  w ∈ widths -> models_apart model -> allowed_channels model cur w radio = Some l ->
  forall c, c ∈ l -> validate_channel model cur c w radio = None.
Proof.
  intros Hw Hm Ha.
  assert (Hr : text_eqb radio (lit "radio0") && text_eqb radio (lit "radio2") = false).
  { unfold text_eqb. case_bool_decide as E; [|done]. subst radio. reflexivity. }
  menu_cases Hw Hm Ha.
  all: destruct (text_eqb radio (lit "radio0")), (text_eqb radio (lit "radio2")); try discriminate Hr; clear Hr.
  all: destruct (cur <? 20); cbn in Ha; try discriminate Ha; injection Ha as <-; apply all_accepted; reflexivity.
Qed.
Lemma accepted_offered model cur w radio l :
  w ∈ widths -> models_apart model -> mr8300 model = false -> allowed_channels model cur w radio = Some l ->
  forall c, validate_channel model cur c w radio = None -> c ∈ l.
Proof.
  intros Hw Hm Hr Ha c Hv. revert Hv. menu_cases Hw Hm Ha; try discriminate Hr; clear Hr.
  all: destruct (cur <? 20); cbn in Ha; try discriminate Ha; injection Ha as <-; intros Hv; destruct (c <? 20); menu_exact Hv.
Qed.

(** Every channel a user is offered is accepted; and where the router is not of the
    model with two radios for 5 GHz, no other channel is: the menu and the check
    agree. *)
Theorem channel_menu model cur w radio l :
  w ∈ widths -> models_apart model -> allowed_channels model cur w radio = Some l ->
  (forall c, c ∈ l -> validate_channel model cur c w radio = None)
  /\ (mr8300 model = false -> forall c, validate_channel model cur c w radio = None -> c ∈ l).
Proof.
  intros Hw Hm Ha. split; [by apply menu_accepted|]. intros Hr. by apply (accepted_offered model cur w radio).
Qed.

(** A menu on a real model: the 80 MHz channels of an IPQ40xx. *)
Lemma channel_menu_witness :
  validate_channel (Some (lit "gl-b1300")) 36 149 (lit "VHT80") (lit "radio1") = None
  /\ (validate_channel (Some (lit "gl-b1300")) 36 52 (lit "VHT80") (lit "radio1") = None -> 52 ∈ [36; 149]).
Proof.
  assert (Hw : lit "VHT80" ∈ widths) by (apply list_elem_of_In; cbn; tauto).
  assert (Hm : models_apart (Some (lit "gl-b1300"))) by (split; reflexivity).
  destruct (channel_menu (Some (lit "gl-b1300")) 36 (lit "VHT80") (lit "radio1") [36; 149] Hw Hm eq_refl) as [Hs He]. split.
  - apply Hs. right. by left.
  - apply He. reflexivity.
Defined.
(** The model with two radios is offered nothing at 20 MHz, although channels would
    be accepted; and a width that is none of the four switches the check off. *)
Lemma mr8300_offered_nothing :
  allowed_channels (Some (lit "linksys_mr8300")) 36 (lit "VHT20") (lit "radio0") = Some []
  /\ validate_channel (Some (lit "linksys_mr8300")) 36 40 (lit "VHT20") (lit "radio0") = None.
Proof. split; reflexivity. Qed.
Lemma unknown_width_unchecked : validate_channel None 36 9999 (lit "NOHT") (lit "radio0") = None.
Proof. reflexivity. Qed.

(** ** Encryption *)

(** What is shown to a user and what is written to the configuration are both read
    back as the mode. *)
Lemma encryption_roundtrip m : mode_from_str (mode_display m) = Some m /\ mode_from_str (as_config_value m) = Some m.
Proof. by destruct m. Qed.

(** ** Values in the configuration *)

Definition safe_value (v : text) : Prop := v <> [] /\ Forall (fun c => c ∉ FORBIDDEN_CHARS) v.
(** A command that sets a variable sets it to a safe value. *)
Definition safe_write (c : Command) : Prop :=
  forall kv, c = (lit "uci", [lit "set"; kv]) -> exists k v, cut_first kv = Some (k, v) /\ safe_value v.
Definition writes_safely (h h' : list Command) : Prop := exists ext, h' = h ++ ext /\ Forall safe_write ext.
Lemma writes_refl h : writes_safely h h.
Proof. exists []. by rewrite app_nil_r. Qed.
Lemma writes_trans h1 h2 h3 : writes_safely h1 h2 -> writes_safely h2 h3 -> writes_safely h1 h3.
Proof.
  intros (e1 & -> & H1) (e2 & -> & H2). exists (e1 ++ e2). rewrite app_assoc. split; [done|]. by apply Forall_app.
Qed.

(** Programs that return or fail and write safely. *)
Definition well {A} (m : M (list Command) KernelInterfaceError A) : Prop :=
  forall h, match m h with Done h' _ | Fail h' _ => writes_safely h h' | Panic => False end.
Definition well_wifi {A} (m : WM A) : Prop :=
  forall s, match m s with Done s' _ | Fail s' _ => writes_safely s.1 s'.1 | Panic => False end.

Section safety.
Context `{SH : Shell} (model : option text).

Lemma well_ret {A} (a : A) : well (ret a).
Proof. intros h. apply writes_refl. Qed.
Lemma well_throw {A} e : well (throw e : M (list Command) KernelInterfaceError A).
Proof. intros h. apply writes_refl. Qed.
Lemma well_bind {A B} (m : M (list Command) KernelInterfaceError A) (k : A -> M (list Command) KernelInterfaceError B) :
  well m -> (forall a, well (k a)) -> well (bind m k).
Proof.
  intros Hm Hk h. specialize (Hm h). unfold bind. destruct (m h) as [h1 a|h1 e|]; [|done|done].
  specialize (Hk a h1). destruct (k a h1); [by eapply writes_trans|by eapply writes_trans|done].
Qed.
Lemma well_run p args : safe_write (p, args) -> well (ki_run p args).
Proof.
  intros Hs h. unfold ki_run. destruct (shell_answer h p args); (exists [(p, args)]; split; [done|by constructor]).
Qed.
Lemma safe_other p args : text_eqb p (lit "uci") = false -> safe_write (p, args).
Proof. intros Hp kv [= -> ->]. discriminate Hp. Qed.
Lemma safe_op op args : text_eqb op (lit "set") = false -> safe_write (lit "uci", op :: args).
Proof. intros Hp kv [= -> ->]. discriminate Hp. Qed.
Lemma safe_set k v : ("="%char ∉ k) -> safe_value v -> safe_write (lit "uci", [lit "set"; k ++ lit "=" ++ v]).
Proof. intros Hk Hv kv [= <-]. exists k, v. split; [by apply cut_first_at|done]. Qed.
Lemma well_add_rule command rule nc :
  text_eqb command (lit "uci") = false -> has_flag "-A" rule || has_flag "-I" rule || has_flag "-D" rule = true ->
  check_args rule 0 None rule = Some nc -> well (add_iptables_rule command rule).
Proof.
  intros Hc Hf Hn. unfold add_iptables_rule. rewrite Hf, Hn. intros h.
  change (match (let! check := ki_run command nc in
                 if negb (out_success check) then let! _ := ki_run command rule in ret tt else ret tt) h with
          | Done h' _ | Fail h' _ => writes_safely h h' | Panic => False end).
  revert h. change (well (let! check := ki_run command nc in
                 if negb (out_success check) then let! _ := ki_run command rule in ret tt else ret tt)).
  apply well_bind; [by apply well_run, safe_other|]. intros o. destruct (negb (out_success o)); [|apply well_ret].
  apply well_bind; [by apply well_run, safe_other|]. intros _. apply well_ret.
Qed.
Lemma well_nft : well does_nftables_exist.
Proof.
  intros h. unfold does_nftables_exist, sh. assert (Hr : well (ki_run (lit "nft") (lit <$> ["-v"%string]))) by (by apply well_run, safe_other).
  specialize (Hr h). by destruct (ki_run _ _ h).
Qed.
Ltac well_step :=
  lazymatch goal with
  | |- forall _ : _, _ => intro
  | |- well (bind _ _) => apply well_bind
  | |- well (ki_run _ _) => first [by apply well_run, safe_other | by apply well_run, safe_op]
  | |- well (sh _ _) => by apply well_run, safe_other
  | |- well (throw _) => apply well_throw
  | |- well (ret _) => apply well_ret
  | |- well does_nftables_exist => apply well_nft
  | |- well (add_iptables_rule _ _) => by eapply well_add_rule
  | |- well _ => case_match
  end.
Lemma well_nat_rules : well Wireguard.create_client_nat_rules.
Proof.
  unfold Wireguard.create_client_nat_rules, init_nat_chain, is_nat_table_present, create_nat_table, set_nft_lan_fwd_rule, is_lan_fwd_present, create_fwd_rule.
  repeat well_step.
Qed.
Lemma well_get key : well (get_uci_var key).
Proof. unfold get_uci_var. repeat well_step. Qed.
Lemma well_commit section : well (uci_commit section).
Proof. unfold uci_commit, run_successfully. repeat well_step. Qed.
Lemma well_reset : well openwrt_reset_wireless.
Proof. unfold openwrt_reset_wireless. repeat well_step. Qed.
Lemma well_sync : well Interfaces.fs_sync.
Proof. unfold Interfaces.fs_sync. repeat well_step. Qed.
Lemma well_set k v : ("="%char ∉ k) -> safe_value v -> well (set_uci_var k v).
Proof.
  intros Hk Hv. unfold set_uci_var, run_uci. apply well_bind; [by apply well_run, safe_set|]. repeat well_step.
Qed.

Lemma wifi_kernel {A} (m : M (list Command) KernelInterfaceError A) : well m -> well_wifi (kernel m).
Proof. intros Hm s. specialize (Hm s.1). unfold kernel. by destruct (m s.1). Qed.
Lemma wifi_ret {A} (a : A) : well_wifi (ret a).
Proof. intros s. apply writes_refl. Qed.
Lemma wifi_throw {A} e : well_wifi (throw e : WM A).
Proof. intros s. apply writes_refl. Qed.
Lemma wifi_bind {A B} (m : WM A) (k : A -> WM B) : well_wifi m -> (forall a, well_wifi (k a)) -> well_wifi (bind m k).
Proof.
  intros Hm Hk s. specialize (Hm s). unfold bind. destruct (m s) as [s1 a|s1 e|]; [|done|done].
  specialize (Hk a s1). destruct (k a s1); [by eapply writes_trans|by eapply writes_trans|done].
Qed.
Lemma wifi_ok_or {A} (o : option A) e : well_wifi (ok_or o e).
Proof. intros s. destruct o; apply writes_refl. Qed.
Lemma wifi_check e : well_wifi (check e).
Proof. destruct e; [apply wifi_throw|apply wifi_ret]. Qed.
(** A refusal names the character at the position that was found: there is one. *)
Definition answerable (v : text) : Prop :=
  forall pos c, list_find (fun c => c ∈ FORBIDDEN_CHARS) v = Some (pos, c) -> (pos < length (chars v))%nat.
Lemma validate_panics {St} v (s : St) : ~ answerable v -> validate_config_value v s = Panic.
Proof.
  intros Hv. unfold validate_config_value. destruct v as [|x v]; [by destruct Hv|].
  destruct (list_find _ _) as [[pos c]|] eqn:E.
  - destruct (chars (x :: v) !! pos) as [y|] eqn:Ey; [|done]. destruct Hv. intros pos' c' E'.
    rewrite E in E'. injection E' as <- _. by apply lookup_lt_Some in Ey.
  - destruct Hv. intros pos c E'. by rewrite E in E'.
Qed.
Lemma chars_single v : Forall (fun c => is_continuation c = false) v -> chars_from v = ([], (fun c => [c]) <$> v).
Proof. induction 1 as [|c v Hc _ IH]; [done|]. cbn [chars_from]. by rewrite IH, Hc. Qed.
Lemma ascii_answerable v : Forall (fun c => is_continuation c = false) v -> answerable v.
Proof.
  intros Hv pos c [Hp _]%list_find_Some. unfold chars. rewrite chars_single by done. cbn [snd].
  rewrite length_fmap. by apply lookup_lt_Some in Hp.
Qed.
Lemma wifi_checked {A} v (k : WM A) :
  answerable v -> (safe_value v -> well_wifi k) -> well_wifi (checked (validate_config_value v);! k).
Proof.
  intros Hv Hk s. unfold bind at 1, checked, validate_config_value. destruct v as [|x v]; [apply writes_refl|].
  destruct (list_find _ _) as [[pos c]|] eqn:E.
  - specialize (Hv pos c E). apply lookup_lt_is_Some in Hv as [y Hy]. unfold bind. rewrite Hy. apply writes_refl.
  - apply Hk. split; [done|]. by apply list_find_None in E.
Qed.
Lemma wifi_nickname n : well_wifi (maybe_set_nickname n).
Proof. intros [h nick]. unfold maybe_set_nickname. repeat case_match; simplify_eq; apply writes_refl. Qed.

Lemma decimal_safe n : 0 <= n -> safe_value (show_uint n).
Proof.
  intros Hn. destruct (show_uint_word n Hn) as [Hne _]. split; [done|]. apply Forall_forall. intros c Hc Hf.
  unfold FORBIDDEN_CHARS in Hf. rewrite !elem_of_cons in Hf.
  destruct Hf as [->|[->|[->|[->|[]%not_elem_of_nil]]]]; by apply (show_uint_plain n _ Hn) in Hc.
Qed.
Lemma config_value_safe m : safe_value (as_config_value m).
Proof.
  assert (H : forall v, v <> [] -> forallb (fun c => bool_decide (c ∉ FORBIDDEN_CHARS)) v = true -> safe_value v).
  { intros v Hne Hv. split; [done|]. apply Forall_forall. intros c Hc. rewrite forallb_forall in Hv.
    by apply list_elem_of_In, Hv, bool_decide_eq_true in Hc. }
  destruct m; apply H; done.
Qed.
Lemma section_plain (prefix : string) (radio : text) (key : string) :
  forallb (fun c => negb (Ascii.eqb c "=")) (lit prefix ++ lit key) = true -> ("="%char ∉ radio) -> "="%char ∉ lit prefix ++ radio ++ lit key.
Proof.
  intros Hp Hr. rewrite forallb_forall in Hp. rewrite !not_elem_of_app. split_and!; [|done|]; intros Hin;
    assert (Hx : In "="%char (lit prefix ++ lit key)) by (apply in_app_iff; rewrite <- !list_elem_of_In; tauto);
    specialize (Hp _ Hx); by rewrite Ascii.eqb_refl in Hp.
Qed.
Definition token_radio (t : WifiToken) : text :=
  match t with WifiChannel r _ | WifiSsid r _ | WifiPass r _ | WifiDisabled r _ | WifiSecurity r _ => r end.
Definition token_ok (t : WifiToken) : Prop :=
  ("="%char ∉ token_radio t)
  /\ match t with WifiChannel _ c => 0 <= c | WifiSsid _ v | WifiPass _ v => answerable v | _ => True end.

Lemma ssid_well radio ssid : ("="%char ∉ radio) -> answerable ssid -> well_wifi (set_ssid radio ssid).
Proof.
  intros Hr Ha. unfold set_ssid. apply wifi_checked; [done|]. intros Hv.
  apply wifi_bind; [apply wifi_kernel, well_set; [by apply section_plain|done]|intros _].
  apply wifi_bind; [apply wifi_kernel, well_commit|intros _].
  apply wifi_bind; [apply wifi_kernel, well_sync|intros _]. apply wifi_nickname.
Qed.
Lemma pass_well radio pass : ("="%char ∉ radio) -> answerable pass -> well_wifi (set_pass radio pass).
Proof.
  intros Hr Ha. unfold set_pass. destruct (length pass <? MINIMUM_PASS_CHARS)%nat; [apply wifi_throw|].
  apply wifi_checked; [done|]. intros Hv. apply wifi_kernel, well_set; [by apply section_plain|done].
Qed.
Lemma channel_well radio c : ("="%char ∉ radio) -> 0 <= c -> well_wifi (set_channel model radio c).
Proof.
  intros Hr Hc. unfold set_channel. apply wifi_bind; [apply wifi_kernel, well_get|intros cur].
  apply wifi_bind; [apply wifi_ok_or|intros n]. apply wifi_bind; [apply wifi_kernel, well_get|intros w].
  apply wifi_bind; [apply wifi_check|intros _]. apply wifi_kernel, well_set; [by apply section_plain|by apply decimal_safe].
Qed.
Lemma security_well radio e : ("="%char ∉ radio) -> well_wifi (set_security radio e).
Proof.
  intros Hr. unfold set_security. destruct (mode_from_str e) as [m|]; [|apply wifi_throw].
  apply wifi_kernel, well_set; [by apply section_plain|apply config_value_safe].
Qed.
Lemma disabled_well radio b : ("="%char ∉ radio) -> well_wifi (set_disabled radio b).
Proof.
  intros Hr. unfold set_disabled. apply wifi_bind; [apply wifi_kernel, well_get|intros v].
  destruct (Bool.eqb _ _); [apply wifi_ret|]. apply wifi_bind; [|intros _; apply wifi_ret].
  apply wifi_kernel, well_set; [by apply section_plain|]. assert (H : safe_value (show_uint (if b then 1 else 0))) by (by apply decimal_safe; destruct b).
  by destruct b.
Qed.

(** The answer to a request is always given, and the commands it took write safely. *)
Definition answered {B} (m : M WifiState Empty_set (Z * B)) : Prop :=
  forall s, exists s' r, m s = Done s' r /\ writes_safely s.1 s'.1.
Lemma answered_orelse {A B} (m : WM A) status message (k : A -> M WifiState Empty_set (Z * B)) err :
  well_wifi m -> (forall a, answered (k a)) -> answered (orelse m status message k err).
Proof.
  intros Hm Hk s. specialize (Hm s). unfold orelse. destruct (m s) as [s1 a|s1 e|]; [| |done].
  - destruct (Hk a s1) as (s' & r & -> & Hw). exists s', r. split; [done|]. by eapply writes_trans.
  - by exists s1, (status, err message e).
Qed.
Lemma answered_finish b : answered (finish_changes b).
Proof.
  assert (Hd : forall r : Z * body, answered (fun s => Done s r)) by (intros r s; exists s, r; split; [done|apply writes_refl]).
  unfold finish_changes. apply answered_orelse; [apply wifi_kernel, well_commit|intros _].
  apply answered_orelse; [apply wifi_kernel, well_reset|intros _]. apply answered_orelse; [apply wifi_kernel, well_sync|intros _].
  apply answered_orelse; [apply wifi_kernel, well_nat_rules|intros _]. destruct b; [|apply Hd].
  apply answered_orelse; [by apply wifi_kernel, well_run, safe_other|intros _; apply Hd].
Qed.
Lemma answered_tokens tokens b : Forall token_ok tokens -> answered (apply_tokens model tokens b finish_changes).
Proof.
  intros Ht. revert b. induction Ht as [|t tokens [Hr Hc] _ IH]; intros b; [apply answered_finish|].
  destruct t; cbn [apply_tokens token_radio] in *; apply answered_orelse; try (intros ?; apply IH).
  - by apply channel_well.
  - by apply ssid_well.
  - by apply pass_well.
  - by apply disabled_well.
  - by apply security_well.
Qed.

(** C40 However many wireless changes a request asks for and whatever the machine
    answers, the request is answered, and no value that is empty or holds a quote, a
    slash or a backslash is written to the configuration.  This is so when the names
    of the radios hold no equals sign and when every network name and password that
    holds such a character is answerable: it has more characters than there are
    bytes before that character, as any text of one-byte characters does.  A
    network name that is not answerable, as one with a character of several bytes
    can be, is a panic. *)
Theorem wifi_values_safe tokens s :
  (Forall token_ok tokens ->
   exists s' status b ext, set_wifi_multi model tokens s = Done s' (status, b) /\ s'.1 = s.1 ++ ext /\ Forall safe_write ext)
  /\ (forall v, Forall (fun c => is_continuation c = false) v -> answerable v)
  /\ (forall radio ssid, ~ answerable ssid -> set_wifi_multi model (WifiSsid radio ssid :: tokens) s = Panic).
Proof.
  split_and!.
  - intros Ht. destruct (answered_tokens tokens false Ht s) as (s' & [status b] & Hr & ext & Hx & Hs).
    by exists s', status, b, ext.
  - apply ascii_answerable.
  - intros radio ssid Hp. unfold set_wifi_multi, set_wifi_multi_internal. cbn [apply_tokens].
    unfold orelse, set_ssid, bind at 1, checked. by rewrite validate_panics.
Qed.
End safety.

(** * A router *)

Module WifiDemo.
Definition radio0 : text := lit "radio0".
Definition stored : Entries := list_to_map
  [(lit "wireless.radio0.channel", lit "36"); (lit "wireless.radio0.htmode", lit "VHT80"); (lit "wireless.radio0.disabled", lit "0");
   (lit "wireless.default_radio0.ssid", lit "AltheaHome-5"); (lit "wireless.default_radio0.key", lit "ChangeMe")].
Definition router : uci_machine := {| config := stored; staged := stored |}.
#[local] Instance router_shell : Shell := uci_shell (fun _ => None) router.
Definition status_of {E B} (o : outcome WifiState E (Z * B)) : option Z := match o with Done _ (st, _) => Some st | _ => None end.
Definition after {E B} (o : outcome WifiState E B) : WifiState := match o with Done s _ | Fail s _ => s | Panic => ([], None) end.
Definition committed (s : WifiState) (k : string) : option text := config (uci_at (fun _ => None) router s.1) !! lit k.

Definition changes : list WifiToken :=
  [WifiChannel radio0 149; WifiPass radio0 (lit "a long password"); WifiSsid radio0 (lit "home"); WifiDisabled radio0 true;
   WifiSecurity radio0 (lit "WPA2+WPA3")].
(** The two bytes of an e with an acute accent: a name with one is accepted, with a
    quote behind it the wrong character is reported or there is a panic. *)
Definition e_acute : text := [Ascii.ascii_of_nat 195; Ascii.ascii_of_nat 169].
Definition accented : list WifiToken :=
  [WifiChannel radio0 149; WifiPass radio0 (lit "a long password"); WifiSsid radio0 (lit "caf" ++ e_acute); WifiDisabled radio0 true;
   WifiSecurity radio0 (lit "WPA2+WPA3"); WifiSsid radio0 (e_acute ++ lit "'x")].
Lemma wifi_values_safe_witness :
  (exists s' status b ext, set_wifi_multi None accented ([], None) = Done s' (status, b) /\ s'.1 = [] ++ ext /\ Forall safe_write ext)
  /\ set_wifi_multi None [WifiSsid radio0 (e_acute ++ lit "'")] ([], None) = Panic.
Proof.
  split.
  - apply (proj1 (wifi_values_safe None accented ([], None))). unfold accented.
    repeat (apply Forall_cons; split; [split; [apply (bool_decide_eq_true_1 _); vm_compute; reflexivity|]|]);
      [lia|..|apply Forall_nil; exact I]; try exact I;
      intros pos c E; vm_compute in E; first [discriminate E|injection E as <- <-; vm_compute; lia].
  - apply (proj2 (proj2 (wifi_values_safe None [] ([], None)))). intros H.
    specialize (H 2%nat (Ascii.ascii_of_nat 39) eq_refl). vm_compute in H. lia.
Defined.
Example changes_answered : status_of (set_wifi_multi None changes ([], None)) = Some 200.
Proof. vm_compute. reflexivity. Qed.
Example changes_committed :
  let s := after (set_wifi_multi None changes ([], None)) in
  committed s "wireless.radio0.channel" = Some (lit "149") /\ committed s "wireless.default_radio0.key" = Some (lit "a long password")
  /\ committed s "wireless.default_radio0.encryption" = Some (lit "sae-mixed") /\ committed s "wireless.radio0.disabled" = Some (lit "1")
  /\ s.2 = Some (lit "home").
Proof. vm_compute. split_and!; reflexivity. Qed.

(** A request that is refused leaves the changes before the refused one staged: the
    next request carries them out. *)
Definition refused : list WifiToken := [WifiPass radio0 (lit "forgotten"); WifiSsid radio0 (lit "it's")].
Lemma refused_change_carried_out :
  let s1 := after (set_wifi_multi None refused ([], None)) in
  let s2 := after (set_wifi_multi None [] s1) in
  status_of (set_wifi_multi None refused ([], None)) = Some 400
  /\ committed s1 "wireless.default_radio0.key" = Some (lit "ChangeMe")
  /\ committed s2 "wireless.default_radio0.key" = Some (lit "forgotten").
Proof. vm_compute. split_and!; reflexivity. Qed.

(** The name of the radio is not checked: with an equals sign in it any value can be
    written to any variable, a quote included. *)
Definition injected : list WifiToken := [WifiSsid (lit "radio0.key=it's") (lit "x")].
Lemma radio_name_injects :
  let s := after (set_wifi_multi None injected ([], None)) in
  status_of (set_wifi_multi None injected ([], None)) = Some 200
  /\ committed s "wireless.default_radio0.key" = Some (lit "it's.ssid=x").
Proof. vm_compute. split_and!; reflexivity. Qed.

(** The names of the stock networks are not to become the nickname; they do. *)
Lemma stock_name_becomes_nickname : (after (set_ssid radio0 (lit "AltheaHome-5") ([], None))).2 = Some (lit "AltheaHome-5").
Proof. vm_compute. reflexivity. Qed.
End WifiDemo.
