(* ===== verification/ClientLoop.v ===== *)
(** The loop of the client (rita_client/src/rita_loop/mod.rs): noticing that the router is
    a gateway and keeping the routes to its name servers, the billing corner case, the name
    servers of the router, and the reboot that rescues a router without a connection; and
    the heartbeat (rita_client/src/heartbeat/mod.rs). *)
From Stdlib Require Import SpecFloat.
From S2P Require Import Prelude Types Text IpText Oracle Babel TrafficWatcher NetworkMonitor PeerMessage PeerListener Forwarding ForwardingSpec ExitManager ExitLoop ExitEndpoints KernelShell KernelCounters IpRoute Uci KernelLinks Interfaces.
Open Scope Z_scope.

Module ClientLoop.
Import KernelShell KernelCounters KernelLinks IpRoute Uci.

(** * Metrics and the clock *)

Definition metrics_permitted (log_enabled : bool) (operator_address : option Z) : bool :=
  log_enabled || bool_decide (is_Some operator_address).

Section machine.
Context `{SH : Shell} `{FI : Files}.

(** [KI.run_command] whose result is only logged. *)
Definition run_logged (program : string) (args : list text) : KI unit := ignore_err (let! _ := ki_run (lit program) args in ret tt).
(** The multiplication is one of [u64]: [None] when it overflows. *)
Definition update_system_time `{P : Profile} (current_hour : option Z) (last_saved : Z) : KI unit :=
  if default 0 current_hour <? last_saved then
    let! seconds := unwrap (u64_of (last_saved * 3600)) in
    run_logged "date" [lit "-s"; lit "@" ++ show_uint seconds]
  else ret tt.

(** * The gateway *)

(** [get_resolv_servers] (althea_kernel_interface/src/dns.rs); [None] when the file cannot
    be read. *)
Definition resolv_line (line : text) : option IpAddr :=
  if starts_with (lit "nameserver") line then match words line with _ :: ip :: _ => parse_ip ip | _ => None end else None.
Definition get_resolv_servers (h : list Command) : option (list IpAddr) :=
  match file_lines h (lit "/etc/resolv.conf") with Some ls => Some (omap resolv_line ls) | None => None end.

(** The settings that are read and changed, and the flag [IS_GATEWAY]. *)
Record GatewayState := {
  gs_history : list Command;
  gs_network : Interfaces.IfNet;
  last_default_route : option DefaultRoute;
  is_gateway : bool;
}.
Definition wan_mode (mode : option InterfaceMode) : bool :=
  match mode with Some Wan | Some (StaticWan _ _ _) => true | _ => false end.
(** The loop over the name servers; an error of a route is unwrapped. *)
Fixpoint resolv_routes (servers : list IpAddr) (s : list Command * option DefaultRoute) : option (list Command * option DefaultRoute) :=
  match servers with
  | [] => Some s
  | ip :: servers => match manual_peers_route ip s with Done s _ => resolv_routes servers s | _ => None end
  end.
Definition manage_gateway (s : GatewayState) : option GatewayState :=
  match Interfaces.external_nic (gs_network s) with
  | None => Some s
  | Some external_nic =>
      if match is_iface_up external_nic (gs_history s) with Done _ (Some up) => up | _ => false end then
        match Interfaces.get_interfaces (gs_history s, gs_network s) with
        | Done (h, _) interfaces =>
            if wan_mode (interfaces !! external_nic) then
              match get_resolv_servers h with
              | Some servers =>
                  '(h, route) ← resolv_routes servers (h, last_default_route s);
                  Some {| gs_history := h; gs_network := gs_network s; last_default_route := route; is_gateway := true |}
              | None => Some {| gs_history := h; gs_network := gs_network s; last_default_route := last_default_route s; is_gateway := true |}
              end
            else Some {| gs_history := h; gs_network := gs_network s; last_default_route := last_default_route s; is_gateway := true |}
        | Fail (h, _) _ => Some {| gs_history := h; gs_network := gs_network s; last_default_route := last_default_route s; is_gateway := is_gateway s |}
        | Panic => None
        end
      else Some s
  end.

(** * The name servers of the router *)

Definition exit_nameserver : text := lit "nameserver 172.168.0.254".
Definition updated_config : text := join newline (lit <$> ["nameserver 172.168.0.254"; "nameserver 1.0.0.1"; "nameserver 8.8.8.8";
  "nameserver 74.82.42.42"; "nameserver 149.112.112.10"; "nameserver 64.6.65.6"]).
(** The content of resolv.conf, [None] when it cannot be opened. *)
Definition update_resolv (writable : bool) (content : option text) : option text :=
  match content with
  | Some c =>
      if existsb (fun line => text_eqb (trim_text line) exit_nameserver) (lines c) then Some c
      else if writable then Some updated_config else Some c
  | None => if writable then Some updated_config else None
  end.

(** An error kept as a value. *)
Definition attempt {A} (m : KI A) : KI (KernelInterfaceError + A) := fun h =>
  match m h with Done h a => Done h (inr a) | Fail h e => Done h (inl e) | Panic => Panic end.
Definition maybe_parse_ip (input : KernelInterfaceError + text) : KernelInterfaceError + IpAddr :=
  match input with
  | inr s => match parse_ip s with Some ip => inr ip | None => inl AddrParseFailure end
  | inl e => inl e
  end.
Definition parse_list_to_ip (input : KernelInterfaceError + text) : KernelInterfaceError + list IpAddr :=
  match input with
  | inr s => match mapM parse_ip (words s) with Some l => inr l | None => inl AddrParseFailure end
  | inl e => inl e
  end.
Definition DHCP_DNS_LIST_KEY : text := lit "dhcp.@dnsmasq[0].server".
Definition LAN_IP_KEY : text := lit "network.lan.ipaddr".
Definition DHCP_RESOLV_FILE_KEY : text := lit "dhcp.@dnsmasq[0].resolvfile".
Definition DHCP_RESOLV_FILE_VALUE : text := lit "/etc/resolv.conf".
(** The list to write, if any. *)
Definition dns_change (servers : KernelInterfaceError + text) (router : KernelInterfaceError + text) : option (list IpAddr) :=
  match parse_list_to_ip servers, maybe_parse_ip router with
  | inr dns_server_list, inr router_internal_ip =>
      match dns_server_list with
      | first :: _ => if bool_decide (first <> router_internal_ip) then Some (router_internal_ip :: dns_server_list) else None
      | [] => None
      end
  | _, _ => None
  end.
Definition overwrite_dns_server_and_restart_dhcp (key : text) (ips : list IpAddr) : KI unit :=
  ignore_err (
    let! _ := set_uci_list key (show_ip <$> ips) in
    let! _ := uci_commit key in
    openwrt_reset_dnsmasq).
Definition ensure_dhcp_resolvfile : KI unit :=
  ignore_err (
    let! resolv_file := get_uci_var DHCP_RESOLV_FILE_KEY in
    if text_eqb resolv_file DHCP_RESOLV_FILE_VALUE then ret tt
    else
      let! _ := set_uci_var DHCP_RESOLV_FILE_KEY DHCP_RESOLV_FILE_VALUE in
      let! _ := uci_commit DHCP_RESOLV_FILE_KEY in
      openwrt_reset_dnsmasq).
Definition update_dhcp : KI unit :=
  let! servers := attempt (get_uci_var DHCP_DNS_LIST_KEY) in
  let! router := attempt (get_uci_var LAN_IP_KEY) in
  match dns_change servers router with
  | Some l => overwrite_dns_server_and_restart_dhcp DHCP_DNS_LIST_KEY l
  | None => ret tt
  end;!
  ensure_dhcp_resolvfile.
Definition update_dns_conf (is_openwrt writable : bool) (content : option text) (h : list Command)
    : option text * outcome (list Command) KernelInterfaceError unit :=
  (update_resolv writable content, if is_openwrt then update_dhcp h else Done h tt).
End machine.

(** * The billing corner case *)

(** The flag of the namespace; [None] is the panic of [expect]. *)
Definition is_gateway_client (netns : Z) (flags : gmap Z bool) : bool := default false (flags !! netns).
Definition set_gateway_client (netns : Z) (input : bool) (flags : gmap Z bool) : gmap Z bool := <[netns := input]> flags.
Fixpoint find_exit_neighbor (current_exit : option IpAddr) (exit : ExitServer) (neighbors : list Neighbor) : option bool :=
  match neighbors with
  | [] => Some false
  | neigh :: neighbors =>
      current_ip ← current_exit;
      if bool_decide (mesh_ip (global (nb_identity neigh)) = current_ip)
         && (eth_address (global (nb_identity neigh)) =? eth_address (exit_id exit))
      then Some true
      else find_exit_neighbor current_exit exit neighbors
  end.
Definition check_for_gateway_client_billing_corner_case (netns : Z) (w : ExitWorld) (neighbors : list Neighbor) (flags : gmap Z bool)
    : option (gmap Z bool) :=
  match get_selected_exit_server w with
  | Some exit =>
      match info exit with
      | Registered _ _ _ =>
          found ← find_exit_neighbor (get_current_exit w) exit neighbors;
          Some (set_gateway_client netns found flags)
      | _ => Some flags
      end
  | None => Some flags
  end.

(** * The rescue reboot *)

Definition PING_TEST_SPEED : Z := secs 100.
Definition REBOOT_TIMEOUT : Z := secs 600.
Definition load_limit : spec_float := S754_finite false 8388608 (-21).
Inductive Reboot := NoConnection | LoadTooHigh.
(** [now] is the time of the check, [later] the time after the ping; [load] is the load
    average of fifteen minutes as an IEEE number, [None] when it is not known. *)
Definition ping_check (now later : Z) (ping : bool) (last_successful_ping : Z) : Z * list Reboot :=
  if PING_TEST_SPEED <? now - last_successful_ping then
    if ping then (later, [])
    else (last_successful_ping, if REBOOT_TIMEOUT <? later - last_successful_ping then [NoConnection] else [])
  else (last_successful_ping, []).
Definition load_check (model : option text) (load : option spec_float) : list Reboot :=
  match model, load with
  | Some mdl, Some load => if contains (lit "mikrotik_hap-ac2") mdl && SFltb load_limit load then [LoadTooHigh] else []
  | _, _ => []
  end.
Definition check_for_rescue_reboot (now later : Z) (ping : bool) (model : option text) (load : option spec_float)
    (last_successful_ping : Z) : Z * list Reboot :=
  let '(last, reboots) := ping_check now later ping last_successful_ping in (last, reboots ++ load_check model load).
End ClientLoop.

(** * Properties

    Name servers of a gateway are reached around the exit tunnel, a healthy router is not
    rebooted and an unhealthy one is, the configuration of the name servers settles, and
    the flag of the corner case says what its name says. *)

Module ClientLoopSpec.
Import KernelShell KernelCounters KernelLinks IpRoute Uci ClientLoop.

(** ** Routes to the name servers *)

Section gateway.
Context `{SH : Shell} `{FI : Files}.

(** The command that adds a route to one address over the given default route. *)
Definition route_command (ip : IpAddr) (d : DefaultRoute) : Command :=
  (lit "ip", lit "route" :: lit "add" :: words (route_to_string (RouteSubnet {| ts_dst := ip; ts_subnet := 32;
    ts_via := Some (dr_via d); ts_nic := dr_nic d; ts_proto := Some (lit "static"); ts_metric := None; ts_src := None; ts_scope := None |}))).

Lemma sh_history p a h h' o : sh p a h = Done h' o -> exists k, h' = h ++ k.
Proof. unfold sh, ki_run. destruct (shell_answer _ _ _); intros [= <- _]. by eexists. Qed.
Lemma update_route_done s s' b : update_settings_route s = Done s' b ->
  (exists k, s'.1 = s.1 ++ k) /\ (is_Some s.2 -> is_Some s'.2).
Proof.
  unfold update_settings_route, IpRoute.kernel, bind, get_default_route.
  unfold bind. destruct (sh "ip" ["route"; "list"; "default"] s.1) as [h o | |] eqn:E; [| done..]. apply sh_history in E as [k ->]. cbn.
  destruct (first_default _) as [d |]; [destruct (negb _) |]; cbn; intros [= <- _]; cbn; eauto.
Qed.
Lemma manual_route_done ip s s' b : manual_peers_route ip s = Done s' b ->
  (exists k, s'.1 = s.1 ++ k) /\ (is_Some s.2 -> is_Some s'.2) /\ forall d, s'.2 = Some d -> route_command ip d ∈ s'.1.
Proof.
  unfold manual_peers_route, bind at 1. destruct (update_settings_route s) as [s1 c | |] eqn:E; [| done..].
  apply update_route_done in E as [[k Hk] Hs]. unfold bind at 1, saved_route. destruct (s1.2) as [d |] eqn:Ed.
  - unfold bind, IpRoute.kernel, set_route, bind, ki_run. destruct (shell_answer _ _ _); [| done].
    intros [= <- _]. cbn. rewrite Hk, Ed. split; [eexists; by rewrite <- app_assoc |]. split; [done |].
    intros d' [= <-]. apply elem_of_app. right. by left.
  - intros [= <- _]. rewrite Ed. split; [by exists k |]. split; [done | by intros d].
Qed.
Lemma resolv_routes_done servers : forall s s', resolv_routes servers s = Some s' -> is_Some s.2 -> not_tunnel s.2 ->
  (exists k, s'.1 = s.1 ++ k) /\ is_Some s'.2 /\ not_tunnel s'.2 /\
  forall ip, ip ∈ servers -> exists d, is_althea_default_route d = false /\ route_command ip d ∈ s'.1.
Proof.
  induction servers as [| ip servers IH]; intros s s' H Hs Ht; simpl in H.
  { injection H as <-. split_and!; [exists []; by rewrite app_nil_r | done | done | by intros ip Hip%elem_of_nil]. }
  destruct (manual_peers_route ip s) as [s1 b | |] eqn:E; [| done..].
  assert (Ht1 : not_tunnel s1.2) by (pose proof (run_route_op_keeps (OpManual ip) s Ht) as K; unfold run_route_op in K; rewrite E in K; exact K).
  apply manual_route_done in E as ([k Hk] & Hs1 & Hr). specialize (Hs1 Hs).
  destruct (IH s1 s' H Hs1 Ht1) as ([k' Hk'] & Hs' & Ht' & Hall). split_and!; [| done | done |].
  - exists (k ++ k'). by rewrite Hk', Hk, app_assoc.
  - intros ip' [-> | Hip]%elem_of_cons; [| by apply Hall]. destruct Hs1 as [d Hd]. exists d. split; [by apply Ht1 |].
    rewrite Hk'. apply elem_of_app. left. by apply Hr.
Qed.

(** On a gateway whose default route is known every name server gets a route of its own
    over a default route that is not the exit tunnel. *)
Theorem nameservers_bypass_tunnel s s' nic h net interfaces servers :
  manage_gateway s = Some s' ->
  Interfaces.external_nic (gs_network s) = Some nic ->
  is_iface_up nic (gs_history s) = Done (gs_history s) (Some true) ->
  Interfaces.get_interfaces (gs_history s, gs_network s) = Done (h, net) interfaces ->
  wan_mode (interfaces !! nic) = true ->
  get_resolv_servers h = Some servers ->
  is_Some (last_default_route s) -> not_tunnel (last_default_route s) ->
  is_gateway s' = true /\
  forall ip, ip ∈ servers -> exists d, is_althea_default_route d = false /\ route_command ip d ∈ gs_history s'.
Proof.
  intros H Hn Hu Hi Hw Hr Hs Ht. unfold manage_gateway in H. rewrite Hn, Hu, Hi, Hw, Hr in H.
  destruct (resolv_routes servers (h, last_default_route s)) as [[h' r] |] eqn:E; [| done]. injection H as <-. split; [done |].
  destruct (resolv_routes_done _ _ _ E Hs Ht) as (_ & _ & _ & Hall). exact Hall.
Qed.
End gateway.

(** ** The rescue reboot *)

(** A pass of the loop: the time of the check, the time after the ping and its result. *)
Record pass := { p_now : Z; p_later : Z; p_ping : bool }.
(** What came of the test: it was not due, it succeeded, or it failed and led to the
    reboots given. *)
Inductive verdict := NotDue | Reached | Unreached (reboots : list Reboot).
Definition verdict_of (p : pass) (last : Z) : verdict :=
  if PING_TEST_SPEED <? p_now p - last then
    if p_ping p then Reached else Unreached (ping_check (p_now p) (p_later p) (p_ping p) last).2
  else NotDue.
Fixpoint verdicts (ps : list pass) (last : Z) : list verdict :=
  match ps with
  | [] => []
  | p :: ps => verdict_of p last :: verdicts ps (ping_check (p_now p) (p_later p) (p_ping p) last).1
  end.
Fixpoint clock_ok (t : Z) (ps : list pass) : Prop :=
  match ps with [] => True | p :: ps => t <= p_now p <= p_later p /\ clock_ok (p_later p) ps end.

(** A pass reboots exactly when the test failed and neither the start nor any test that
    succeeded since is within the last ten minutes. *)
Definition out_of_reach (ps : list pass) (last : Z) (vs : list verdict) (i : nat) (p : pass) : Prop :=
  REBOOT_TIMEOUT < p_later p - last /\
  forall j q, (j < i)%nat -> ps !! j = Some q -> vs !! j = Some Reached -> REBOOT_TIMEOUT < p_later p - p_later q.

Lemma verdicts_spec ps : forall t last i p reboots, clock_ok t ps -> last <= t -> ps !! i = Some p ->
  verdicts ps last !! i = Some (Unreached reboots) ->
  (reboots = [NoConnection] /\ out_of_reach ps last (verdicts ps last) i p) \/
  (reboots = [] /\ ~ out_of_reach ps last (verdicts ps last) i p).
Proof.
  induction ps as [| p0 ps IH]; intros t last i p reboots Hc Ht Hp Hv; [done |]. destruct Hc as [Hc0 Hc]. destruct i as [| i].
  - simpl in Hp, Hv. injection Hp as ->. unfold verdict_of, ping_check in Hv.
    destruct (PING_TEST_SPEED <? p_now p - last); [| done]. destruct (p_ping p); [done |]. simpl in Hv.
    destruct (Z.ltb_spec REBOOT_TIMEOUT (p_later p - last)) as [H | H]; injection Hv as <-; [left | right]; (split; [done |]).
    + split; [done |]. intros j q Hj. lia.
    + intros [H' _]. lia.
  - simpl in Hp, Hv. set (last' := (ping_check (p_now p0) (p_later p0) (p_ping p0) last).1) in *.
    assert (Hlast : (verdict_of p0 last = Reached /\ last' = p_later p0) \/ (verdict_of p0 last <> Reached /\ last' = last)).
    { unfold last', verdict_of, ping_check. destruct (PING_TEST_SPEED <? p_now p0 - last), (p_ping p0); simpl; auto. }
    assert (Hle : last <= last' <= p_later p0) by (destruct Hlast as [[_ ->] | [_ ->]]; lia).
    assert (Heq : out_of_reach (p0 :: ps) last (verdicts (p0 :: ps) last) (S i) p
                  <-> out_of_reach ps last' (verdicts ps last') i p).
    { unfold out_of_reach. simpl verdicts. fold last'. split; intros [H1 H2].
      - split; [destruct Hlast as [[Hr ->] | [_ ->]]; [apply (H2 0%nat p0); [lia | done | by rewrite Hr] | done] |].
        intros j q Hj Hq Hr. apply (H2 (S j) q); [lia | done | done].
      - split; [lia |]. intros [| j] q Hj Hq Hr; simpl in Hq, Hr.
        + injection Hq as <-. injection Hr as Hr. destruct Hlast as [[_ Hl] | [Hn _]]; [lia | done].
        + apply (H2 j q); [lia | done | done]. }
    rewrite Heq. apply (IH (p_later p0) last'); [done | lia | done | done].
Qed.

(** While the clock does not go back, a failed test reboots the router exactly when the
    last contact, or the start of the loop, is more than ten minutes ago. *)
Theorem rescue_reboot_exact ps start i p reboots :
  clock_ok start ps -> ps !! i = Some p -> verdicts ps start !! i = Some (Unreached reboots) ->
  reboots = [NoConnection] <-> out_of_reach ps start (verdicts ps start) i p.
Proof.
  intros Hc Hp Hv. destruct (verdicts_spec ps start start i p reboots Hc (Z.le_refl _) Hp Hv) as [[-> H] | [-> H]]; by split.
Qed.

(** ** Name servers *)

(** A second run leaves resolv.conf alone, and after a run that could write it the name
    server of the exit is in it. *)
Theorem resolv_settles content w :
  let c := update_resolv true content in
  update_resolv w c = c /\ exists t, c = Some t /\ existsb (fun line => text_eqb (trim_text line) exit_nameserver) (lines t) = true.
Proof.
  assert (Hu : existsb (fun line => text_eqb (trim_text line) exit_nameserver) (lines updated_config) = true) by (vm_compute; done).
  cbv zeta. destruct content as [t |]; unfold update_resolv at 2 3.
  - destruct (existsb _ (lines t)) eqn:E; unfold update_resolv; rewrite ?E, ?Hu; eauto.
  - unfold update_resolv. rewrite Hu. eauto.
Qed.

Lemma parse_printed l : Forall ip_ok l -> parse_list_to_ip (inr (join space (show_ip <$> l))) = inr l.
Proof.
  intros Hl. unfold parse_list_to_ip. rewrite words_join; [| apply Forall_fmap; eapply Forall_impl; [exact Hl | exact ip_word]].
  rewrite (proj2 (mapM_Some parse_ip (show_ip <$> l) l)); [done |].
  apply Forall2_fmap_l. induction Hl as [| ip l Hip Hl IH]; constructor; [by apply parse_show_ip | done].
Qed.
(** What is written to the list of dnsmasq is not written again: read back, it already
    starts with the address of the router. *)
Theorem dns_list_settles servers router l ip :
  dns_change servers router = Some l -> maybe_parse_ip router = inr ip -> Forall ip_ok l ->
  head l = Some ip /\ dns_change (inr (join space (show_ip <$> l))) router = None.
Proof.
  unfold dns_change. intros H Hr Hl. rewrite parse_printed by done. rewrite Hr in *.
  destruct (parse_list_to_ip servers) as [| [| first rest]]; [done | done |].
  case_bool_decide; [| done]. injection H as <-. split; [done |]. by rewrite bool_decide_false by naive_solver.
Qed.

(** ** The corner case *)

(** The flag says whether a neighbour is the selected exit; nothing panics.  Without a
    registered exit the flag is left as it was. *)
Theorem corner_case_exact netns w neighbors flags :
  check_for_gateway_client_billing_corner_case netns w neighbors flags =
  Some match get_selected_exit_server w with
       | Some exit =>
           match info exit with
           | Registered _ _ _ =>
               set_gateway_client netns (existsb (fun n => bool_decide (Some (mesh_ip (global (nb_identity n))) = get_current_exit w)
                 && (eth_address (global (nb_identity n)) =? eth_address (exit_id exit))) neighbors) flags
           | _ => flags
           end
       | None => flags
       end.
Proof.
  unfold check_for_gateway_client_billing_corner_case, get_selected_exit_server.
  destruct (get_current_exit w) as [ip |]; [| done]. destruct (exits w !! ip) as [exit |]; [| done].
  destruct (info exit); try done.
  assert (Hf : forall l, find_exit_neighbor (Some ip) exit l = Some (existsb (fun n => bool_decide (Some (mesh_ip (global (nb_identity n))) = Some ip)
    && (eth_address (global (nb_identity n)) =? eth_address (exit_id exit))) l)); [| by rewrite Hf].
  induction l as [| n l IH]; [done |]. simpl. rewrite IH.
  rewrite (bool_decide_ext (Some (mesh_ip (global (nb_identity n))) = Some ip) (mesh_ip (global (nb_identity n)) = ip)) by naive_solver.
  by destruct (_ && _).
Qed.
End ClientLoopSpec.

Module ClientLoopDemo.
Import ClientLoop ClientLoopSpec.

(** A test every thirty seconds, all failing: the reboot comes with the first test more
    than ten minutes after the start. *)
Definition failing (n : nat) : list pass :=
  (fun k => {| p_now := secs (30 * Z.of_nat k); p_later := secs (30 * Z.of_nat k + 5); p_ping := false |}) <$> seq 1 n.
Example reboot_in_time : last (verdicts (failing 19) 0) = Some (Unreached []) /\ last (verdicts (failing 20) 0) = Some (Unreached [NoConnection]).
Proof. vm_compute. done. Qed.
Lemma rescue_reboot_exact_witness : out_of_reach (failing 20) 0 (verdicts (failing 20) 0) 19 {| p_now := secs 600; p_later := secs 605; p_ping := false |}.
Proof.
  apply (rescue_reboot_exact (failing 20) 0 19 {| p_now := secs 600; p_later := secs 605; p_ping := false |} [NoConnection]);
    [vm_compute; repeat split; discriminate | reflexivity | vm_compute; reflexivity | reflexivity].
Defined.
Example router_put_first :
  dns_change (inr (lit "172.168.0.254 8.8.8.8")) (inr (lit "192.168.10.1")) = Some [V4 0xc0a80a01; V4 0xaca800fe; V4 0x08080808].
Proof. vm_compute. reflexivity. Qed.
End ClientLoopDemo.

(** * The heartbeat

    rita_client/src/heartbeat/mod.rs, in a build without the features [operator_debug] and
    [dev_env]. *)

Module Heartbeat.
Import NetworkMonitor.NetworkMonitor.

Record HeartbeatCache := {
  hc_dns : list PeerListener.SocketAddr; hc_exit_route : Route; hc_exit_neighbor_babel : BabelNeighbor; hc_exit_neighbor_rita : Neighbor }.
Record HeartbeatMessage := {
  hb_id : Identity; organizer_address : option Z; hb_balance : option Z; exit_dest_price : Z; upstream_id : Identity;
  hb_exit_route : Route; hb_exit_neighbor : BabelNeighbor; notify_balance : bool; version : text }.
(** What is read of the settings; [hs_rest] stands for the others. *)
Record hb_settings (rest : Type) := {
  hs_public_key : option Z; hs_private_key : option Z; low_balance_notification : bool; hs_operator_address : option Z; hs_rest : rest }.
Arguments hs_public_key {_} _. Arguments hs_private_key {_} _. Arguments low_balance_notification {_} _.
Arguments hs_operator_address {_} _. Arguments hs_rest {_} _.

Definition get_rita_neighbor (neigh : BabelNeighbor) (rita_neighbors : list Neighbor) : option Neighbor :=
  List.find (fun n => contains (bn_iface neigh) (iface_name n)) rita_neighbors.
Definition get_rita_neigh_option (neigh : option BabelNeighbor) (rita_neighbors : list Neighbor) : option (BabelNeighbor * Neighbor) :=
  neigh ← neigh; rita_neigh ← get_rita_neighbor neigh rita_neighbors; Some (neigh, rita_neigh).
(** The error is only logged. *)
Definition get_selected_exit_route (w : ExitWorld) (route_dump : list Route) : option Route :=
  exit_mesh_ip ← get_current_exit w;
  match get_installed_route exit_mesh_ip route_dump with inr route => Some route | inl _ => None end.

(** The cache after a round: [dns] is the answer for the name of the server. *)
Definition update_cache (dns : option (list PeerListener.SocketAddr)) (w : ExitWorld) (network_info : NetworkInfo) (cache : option HeartbeatCache)
    : option HeartbeatCache :=
  match dns, get_selected_exit_route w (babel_routes network_info) with
  | Some dnsresult, Some route =>
      match get_rita_neigh_option (get_neigh_given_route route (babel_neighbors network_info)) (rita_neighbors network_info) with
      | Some (neigh, rita_neigh) =>
          Some {| hc_dns := match dnsresult, cache with [], Some c => hc_dns c | _, _ => dnsresult end;
                  hc_exit_route := route; hc_exit_neighbor_babel := neigh; hc_exit_neighbor_rita := rita_neigh |}
      | None => cache
      end
  | _, _ => cache
  end.

Section packets.
Context `{SB : SecretBox} `{SM : Serde HeartbeatMessage} `{P : Profile} {rest : Type}.
Context (HEARTBEAT_SERVER_KEY : Z) (CARGO_PKG_VERSION : text).

(** What the sockets answer. *)
Record send_view := { sw_bind : bool; sw_timeout : bool; sw_nonce : byte_list }.
(** Sent bytes, with their destination and the port they leave from, and the settings that
    are written. *)
Record sent := { st_to : PeerListener.SocketAddr; st_from : Z; st_bytes : byte_list }.

(** The settings are read four times, and another thread may change them in between:
    [settings k] is what the read [k] finds.  [None] is a panic. *)
Definition send_udp_heartbeat_packet (settings : nat -> hb_settings rest) (balance : option Z) (v : send_view) (dns_socket : PeerListener.SocketAddr)
    (our_id : Identity) (exit_price : Z) (exit_route : Route) (exit_neighbor : BabelNeighbor) (exit_neighbor_id : Identity)
    : option (option (sent * hb_settings rest)) :=
  our_publickey ← hs_public_key (settings 0%nat);
  our_secretkey ← hs_private_key (settings 0%nat);
  local_port ← native 0 U16_MAX (so_port dns_socket + 2);
  if negb (sw_bind v) then Some None else
  price ← u64_of (exit_price + rt_price exit_route);
  let message := {| hb_id := our_id; organizer_address := hs_operator_address (settings 3%nat); hb_balance := balance; exit_dest_price := price;
                    upstream_id := exit_neighbor_id; hb_exit_route := exit_route; hb_exit_neighbor := exit_neighbor;
                    notify_balance := low_balance_notification (settings 1%nat); version := CARGO_PKG_VERSION |} in
  let ciphertext := seal (to_string message) (sw_nonce v) HEARTBEAT_SERVER_KEY our_secretkey in
  let packet_contents := octets 32 our_publickey ++ sw_nonce v ++ ciphertext in
  if negb (sw_timeout v) then Some None
  else Some (Some ({| st_to := dns_socket; st_from := local_port; st_bytes := packet_contents |}, settings 2%nat)).

(** To every address of the server; [settings] and the views by the number of the packet. *)
Fixpoint send_to_all (settings : nat -> nat -> hb_settings rest) (balance : option Z) (view : nat -> send_view) (k : nat) (our_id : Identity)
    (exit_price : Z) (c : HeartbeatCache) (dns : list PeerListener.SocketAddr) : option (list (sent * hb_settings rest)) :=
  match dns with
  | [] => Some []
  | dns_socket :: more =>
      r ← send_udp_heartbeat_packet (settings k) balance (view k) dns_socket our_id exit_price (hc_exit_route c) (hc_exit_neighbor_babel c)
            (global (nb_identity (hc_exit_neighbor_rita c)));
      rs ← send_to_all settings balance view (S k) our_id exit_price c more;
      Some (option_list r ++ rs)
  end.

(** What a round finds. *)
Record hb_round := {
  hr_dns : option (list PeerListener.SocketAddr); hr_identity : option Identity; hr_world : ExitWorld; hr_network : RitaCommonError + NetworkInfo;
  hr_settings : nat -> nat -> hb_settings rest; hr_balance : option Z; hr_view : nat -> send_view }.
(** The cache outlives a panic. *)
Definition send_udp_heartbeat (r : hb_round) (cache : option HeartbeatCache) : option HeartbeatCache * option (list (sent * hb_settings rest)) :=
  match hr_identity r, get_selected_exit_server (hr_world r) with
  | Some our_id, Some exit =>
      match general_details (info exit), hr_network r with
      | Some selected_exit_details, inr network_info =>
          let cache := update_cache (hr_dns r) (hr_world r) network_info cache in
          (cache, match cache with
                  | Some hb_cache =>
                      send_to_all (hr_settings r) (hr_balance r) (hr_view r) 0 our_id (ExitManager.exit_price selected_exit_details) hb_cache (hc_dns hb_cache)
                  | None => Some []
                  end)
      | _, _ => (cache, Some [])
      end
  | _, _ => (cache, Some [])
  end.
End packets.
End Heartbeat.

Module HeartbeatSpec.
Import NetworkMonitor.NetworkMonitor Heartbeat.

Section packets.
Context `{SB : SecretBox} {BL : SecretBoxLaws SB} `{U : Utf8} `{SM : Serde HeartbeatMessage} {ML : SerdeLaws SM U} `{P : Profile} {rest : Type}.
Context (server_key server_secret : Z) (server_pair : key_pair server_key server_secret) (pkg_version : text).

Definition ready (cache : option HeartbeatCache) : Prop := match cache with Some c => hc_dns c <> [] | None => False end.

(** The rounds one after the other. *)
Fixpoint rounds (rs : list (hb_round (rest := rest))) (cache : option HeartbeatCache) : option HeartbeatCache :=
  match rs with
  | [] => cache
  | r :: rs => rounds rs (send_udp_heartbeat server_key pkg_version r cache).1
  end.

Lemma update_cache_ready dns w n cache : ready cache -> ready (update_cache dns w n cache).
Proof.
  intros H. unfold update_cache. destruct dns as [d |]; [| done]. destruct (get_selected_exit_route _ _); [| done].
  destruct (get_rita_neigh_option _ _) as [[]|]; [| done]. simpl. by destruct d, cache.
Qed.

(** Once an address of the server is known there is one in every later round, also while
    the name cannot be resolved, or resolves to nothing. *)
Theorem cache_stays_ready rs cache : ready cache -> ready (rounds rs cache).
Proof.
  revert cache. induction rs as [| r rs IH]; intros cache H; [done |]. apply IH. unfold send_udp_heartbeat.
  destruct (hr_identity r); [| done]. destruct (get_selected_exit_server (hr_world r)) as [e |]; [| done].
  destruct (general_details (info e)); [| done]. destruct (hr_network r) as [| n]; [done |]. by apply update_cache_ready.
Qed.

(** What the server reads in a packet. *)
Definition read_heartbeat (packet : byte_list) : option HeartbeatMessage :=
  bytes ← box_open (drop 56 packet) (take 24 (drop 32 packet)) (be_value (take 32 packet)) server_secret; from_str bytes.

Definition good_view (v : send_view) : Prop := sw_bind v = true /\ sw_timeout v = true /\ length (sw_nonce v) = 24%nat.
Definition good_keys (s : hb_settings rest) : Prop :=
  exists pk sk, hs_public_key s = Some pk /\ hs_private_key s = Some sk /\ key_pair pk sk /\ 0 <= pk < 256 ^ 32.

Lemma packet_read settings balance v socket id price route neigh up p :
  good_view v -> good_keys (settings 0%nat) -> u64_of (price + rt_price route) = Some p -> is_Some (native 0 U16_MAX (so_port socket + 2)) ->
  exists s m, send_udp_heartbeat_packet (rest := rest) server_key pkg_version settings balance v socket id price route neigh up = Some (Some (s, settings 2%nat)) /\
    st_to s = socket /\ read_heartbeat (st_bytes s) = Some m /\
    hb_id m = id /\ exit_dest_price m = p /\ upstream_id m = up /\ hb_exit_route m = route /\ hb_balance m = balance.
Proof.
  intros (Hb & Ht & Hn) (pk & sk & Hpk & Hsk & Hpair & Hr) Hp [port Hport]. unfold send_udp_heartbeat_packet.
  rewrite Hpk, Hsk, Hport, Hb, Hp, Ht. cbn [mbind option_bind negb].
  eexists _, _. split; [reflexivity |]. split; [reflexivity |]. split.
  { unfold read_heartbeat. cbn [st_bytes]. rewrite take_octets, be_value_octets by done.
    change 56%nat with (32 + 24)%nat. rewrite <- drop_drop, (drop_octets 32 32) by done.
    rewrite take_app_length', drop_app_length' by done.
    rewrite (box_opens _ _ server_key server_secret pk sk) by done. cbn [mbind option_bind]. apply written_read. }
  by repeat split.
Qed.

(** In a round of a router with its keys, a selected exit and working sockets every address
    of the server gets one packet, in order; the server reads in it who sent it and the full
    price, and each packet writes back the settings as they were before it was built. *)
Theorem heartbeat_received (r : hb_round (rest := rest)) cache c id exit details n p :
  hr_identity r = Some id -> get_selected_exit_server (hr_world r) = Some exit -> general_details (info exit) = Some details ->
  hr_network r = inr n -> update_cache (hr_dns r) (hr_world r) n cache = Some c ->
  (forall k, good_view (hr_view r k)) -> (forall k, good_keys (hr_settings r k 0%nat)) ->
  Forall (fun a => is_Some (native 0 U16_MAX (so_port a + 2))) (hc_dns c) ->
  u64_of (ExitManager.exit_price details + rt_price (hc_exit_route c)) = Some p ->
  exists packets, send_udp_heartbeat server_key pkg_version r cache = (Some c, Some packets) /\
    st_to ∘ fst <$> packets = hc_dns c /\
    snd <$> packets = (fun k => hr_settings r k 2%nat) <$> seq 0 (length (hc_dns c)) /\
    Forall (fun s => exists m, read_heartbeat (st_bytes s.1) = Some m /\ hb_id m = id /\ exit_dest_price m = p /\
      upstream_id m = global (nb_identity (hc_exit_neighbor_rita c))) packets.
Proof.
  intros Hid Hs Hd Hn Hc Hv Hk Hports Hp. unfold send_udp_heartbeat. rewrite Hid, Hs, Hd, Hn, Hc.
  enough (H : forall dns k, Forall (fun a => is_Some (native 0 U16_MAX (so_port a + 2))) dns ->
    exists packets, send_to_all server_key pkg_version (hr_settings r) (hr_balance r) (hr_view r) k id (ExitManager.exit_price details) c dns = Some packets /\
    st_to ∘ fst <$> packets = dns /\ snd <$> packets = (fun k => hr_settings r k 2%nat) <$> seq k (length dns) /\
    Forall (fun s => exists m, read_heartbeat (st_bytes s.1) = Some m /\ hb_id m = id /\ exit_dest_price m = p /\
      upstream_id m = global (nb_identity (hc_exit_neighbor_rita c))) packets).
  { destruct (H (hc_dns c) 0%nat Hports) as (packets & -> & H1). by exists packets. }
  induction dns as [| a dns IH]; intros k Hd'; [by exists [] |]. apply Forall_cons in Hd' as [Ha Hd'].
  destruct (IH (S k) Hd') as (packets & E & H1 & H2 & H3).
  destruct (packet_read (hr_settings r k) (hr_balance r) (hr_view r k) a id (ExitManager.exit_price details) (hc_exit_route c)
    (hc_exit_neighbor_babel c) (global (nb_identity (hc_exit_neighbor_rita c))) p (Hv k) (Hk k) Hp Ha)
    as (s & m & Es & Hto & Hm & Hi & Hpr & Hup & _).
  cbn [send_to_all]. rewrite Es, E. cbn [mbind option_bind option_list app]. eexists. split; [reflexivity |].
  split; [by apply (f_equal2 cons) |]. split; [by apply (f_equal (cons _)) |]. constructor; [by exists m | done].
Qed.
End packets.
End HeartbeatSpec.
