(* ===== verification/OperatorUpdateSpec.v ===== *)
(** What a check in with the operator does to a router (OperatorUpdate.v): which
    settings an answer can reach, which it loses, what becomes of access keys,
    and how often the router asks. *)
From S2P Require Import Prelude Types Text Babel TunnelManager PeerMessage RegistrationQueue RouterUpgrade.
From S2P Require Import ContactInfo OperatorUpdate.
Import ContactInfo RouterUpgrade OperatorUpdate.

(** * Merging *)

(** The value at a path of keys. *)
Fixpoint at_path (p : list text) (v : Value) : option Value :=
  match p with
  | [] => Some v
  | k :: p => match v with VObject m => obj_get k m ≫= at_path p | _ => None end
  end.
(** An entry of [b] replaces something above the end of the path as a whole. *)
Fixpoint replaced_above (p : list text) (b : Value) : Prop :=
  match p with
  | [] => False
  | k :: p => match b with VObject m => exists v, (k, v) ∈ m /\ replaced_above p v | _ => True end
  end.

(** The entries of a merge, as a function of its own. *)
Fixpoint merge_entries (a b : list (text * Value)) : list (text * Value) :=
  match b with
  | [] => a
  | (k, v) :: b => merge_entries (obj_set k (json_merge (default VNull (obj_get k a)) v) a) b
  end.
Lemma json_merge_objects a b : json_merge (VObject a) (VObject b) = VObject (merge_entries a b).
Proof. reflexivity. Qed.
Lemma json_merge_replaces a b :
  (forall m, a <> VObject m) \/ (forall m, b <> VObject m) -> json_merge a b = b.
Proof. intros H. destruct a, b; try done; exfalso; destruct H as [H|H]; by eapply H. Qed.

Lemma text_eqb_refl k : text_eqb k k = true.
Proof. by apply bool_decide_eq_true. Qed.
Lemma obj_get_set k k' v m : obj_get k (obj_set k' v m) = if text_eqb k' k then Some v else obj_get k m.
Proof.
  induction m as [|[k1 v1] m IH]; cbn; [done|]. destruct (text_eqb k1 k') eqn:E1; cbn.
  - apply bool_decide_eq_true in E1 as ->. by destruct (text_eqb k' k).
  - rewrite IH. destruct (text_eqb k1 k) eqn:E2; [|done]. apply bool_decide_eq_true in E2 as ->.
    unfold text_eqb in *. rewrite bool_decide_eq_false in E1. by rewrite bool_decide_eq_false_2.
Qed.

Section forbidden.
Context (forbidden : list text).

Definition harmless (m : list (text * Value)) : Prop :=
  Forall (fun e => (e.1 ∉ forbidden) /\ contains_forbidden_key forbidden e.2 = false) m.

Lemma obj_get_none k m : obj_get k m = None -> Forall (fun e => e.1 <> k) m.
Proof.
  induction m as [|[k' v] m IH]; cbn; [constructor|]. destruct (text_eqb k' k) eqn:E; [done|].
  apply bool_decide_eq_false in E. intros H. constructor; [done|by apply IH].
Qed.
Lemma no_forbidden_harmless m : contains_forbidden_key forbidden (VObject m) = false -> harmless m.
Proof.
  cbn [contains_forbidden_key]. intros [H1 H2]%orb_false_iff. apply Forall_and. split.
  - rewrite Forall_forall. intros [k v] Hin Hk. cbn in Hk.
    assert (Hnone : obj_get k m = None).
    { destruct (obj_get k m) eqn:E; [|done]. exfalso. apply not_true_iff_false in H1. apply H1.
      apply existsb_exists. exists k. split; [by apply list_elem_of_In|]. by rewrite E. }
    apply obj_get_none in Hnone. rewrite Forall_forall in Hnone. by apply (Hnone _ Hin).
  - clear H1. induction m as [|[k v] m IH]; [constructor|]. apply orb_false_iff in H2 as [Hv Hm]. constructor; [done|by apply IH].
Qed.
Lemma harmless_get k v m : harmless m -> obj_get k m = Some v -> (k ∉ forbidden) /\ contains_forbidden_key forbidden v = false.
Proof.
  intros Hm. induction Hm as [|[k' v'] m [Hk Hv] _ IH]; cbn; [done|]. destruct (text_eqb k' k) eqn:E; [|done].
  apply bool_decide_eq_true in E as ->. by intros [= <-].
Qed.

(** No path of the merged value with a forbidden key. *)
Lemma forbidden_path_absent p b :
  contains_forbidden_key forbidden b = false -> Exists (fun k => k ∈ forbidden) p -> at_path p b = None.
Proof.
  revert b. induction p as [|k p IH]; intros b Hb Hp; [by apply Exists_nil in Hp|]. destruct b as [| | | | |m]; try done.
  cbn [at_path]. destruct (obj_get k m) as [v|] eqn:E; [|done]. cbn.
  destruct (harmless_get k v m (no_forbidden_harmless m Hb) E) as [Hk Hv].
  apply Exists_cons in Hp as [Hp|Hp]; [done|by apply IH].
Qed.

Lemma merge_entries_spares k p :
  (forall a b, contains_forbidden_key forbidden b = false -> Exists (fun k => k ∈ forbidden) p ->
     at_path p (json_merge a b) = at_path p a \/ replaced_above p b) ->
  Exists (fun k => k ∈ forbidden) (k :: p) ->
  forall b a, harmless b ->
    at_path (k :: p) (VObject (merge_entries a b)) = at_path (k :: p) (VObject a)
    \/ replaced_above (k :: p) (VObject b).
Proof.
  intros IHp Hp. induction b as [|[k0 v0] b IHb]; intros a Hb; [by left|].
  apply Forall_cons in Hb as [[Hk0 Hv0] Hb]. cbn [merge_entries fst snd] in *.
  destruct (IHb (obj_set k0 (json_merge (default VNull (obj_get k0 a)) v0) a) Hb) as [E|(v & Hin & Hr)].
  2: { right. exists v. split; [by right|done]. }
  rewrite E. cbn [at_path]. rewrite obj_get_set. destruct (text_eqb k0 k) eqn:Ek; [|by left].
  apply bool_decide_eq_true in Ek as ->. apply Exists_cons in Hp as [Hp|Hp]; [done|].
  cbn [mbind option_bind]. destruct (IHp (default VNull (obj_get k a)) v0 Hv0 Hp) as [E2|Hr].
  - left. rewrite E2. destruct (obj_get k a); [done|]. cbn. by destruct p; [apply Exists_nil in Hp|].
  - right. exists v0. split; [by left|done].
Qed.

(** Merging a value without a forbidden key changes nothing at or below such a
    key, unless an entry of it replaces an object above the key as a whole. *)
Lemma merge_spares_exact p a b :
  contains_forbidden_key forbidden b = false -> Exists (fun k => k ∈ forbidden) p ->
  at_path p (json_merge a b) = at_path p a \/ replaced_above p b.
Proof.
  revert a b. induction p as [|k p IH]; intros a b Hb Hp; [by apply Exists_nil in Hp|].
  destruct b as [| | | | |bm]; try (by right). destruct a as [| | | | |am].
  6: { rewrite json_merge_objects. apply merge_entries_spares; [exact IH|done|by apply no_forbidden_harmless]. }
  all: left; rewrite json_merge_replaces by (left; done); by apply forbidden_path_absent.
Qed.
End forbidden.

(** The merge of the operator's settings cannot reach a protected setting: keys,
    addresses and interfaces keep their value, unless the text replaces a whole
    section by something that is not an object. *)
Theorem merge_spares_forbidden p a b :
  contains_forbidden_key FORBIDDEN_MERGE_VALUES b = false -> Exists (fun k => k ∈ FORBIDDEN_MERGE_VALUES) p ->
  at_path p (json_merge a b) = at_path p a \/ replaced_above p b.
Proof. apply merge_spares_exact. Qed.

(** What is merged is there afterwards: a value that is not an object is found at
    its path. *)
Lemma merge_entries_get k b a :
  NoDup (b.*1) ->
  obj_get k (merge_entries a b)
  = match obj_get k b with Some v => Some (json_merge (default VNull (obj_get k a)) v) | None => obj_get k a end.
Proof.
  revert a. induction b as [|[k0 v0] b IH]; intros a; cbn [merge_entries obj_get]; [done|].
  intros [Hk Hb]%NoDup_cons. rewrite IH by done. rewrite obj_get_set. destruct (text_eqb k0 k) eqn:E; [|by destruct (obj_get k b)].
  apply bool_decide_eq_true in E as ->. assert (Hn : obj_get k b = None).
  { clear -Hk. induction b as [|[k1 v1] b IH]; cbn in *; [done|]. apply not_elem_of_cons in Hk as [H1 H2].
    unfold text_eqb. rewrite bool_decide_eq_false_2 by done. by apply IH. }
  by rewrite Hn.
Qed.

(** * Keys for remote access *)

Section keys.
Context `{SSH : SshKeys}.

Lemma elem_of_key_insert k k' s : k ∈ key_insert k' s <-> k = k' \/ k ∈ s.
Proof.
  unfold key_insert. destruct (decide (k' ∈ s)); [naive_solver|]. rewrite elem_of_app, list_elem_of_singleton. tauto.
Qed.
Lemma elem_of_add_keys k l s :
  k ∈ add_keys l s <-> k ∈ s \/ exists t c, t ∈ l /\ canonical_key t = Some c /\ k = managed_key c.
Proof.
  unfold add_keys. revert s. induction l as [|t l IH]; intros s; cbn; [split; [by left|]; intros [H|(? & ? & ?%elem_of_nil & _)]; done|].
  rewrite IH. destruct (canonical_key t) as [c|] eqn:E; rewrite ?elem_of_key_insert; setoid_rewrite elem_of_cons; naive_solver.
Qed.
Definition all_managed (s : list AuthorizedKeys) : Prop := Forall (fun k => ak_managed k = true /\ ak_flush k = false) s.
Lemma drop_keys_nothing l s : all_managed s -> drop_keys l s = s.
Proof.
  unfold drop_keys. intros Hs. induction l as [|t l IH]; cbn; [done|].
  replace (key_remove _ s) with s; [done|]. unfold key_remove. clear IH. induction Hs as [|k s [Hk _] _ IH]; [done|].
  rewrite filter_cons_True by (intros ->; done). by rewrite <- IH.
Qed.
Lemma key_insert_managed c s : all_managed s -> all_managed (key_insert (managed_key c) s).
Proof.
  intros Hs. unfold key_insert. case_decide; [done|]. apply Forall_app. split; [done|]. by repeat constructor.
Qed.
Lemma add_keys_managed l s : all_managed s -> all_managed (add_keys l s).
Proof.
  unfold add_keys. revert s. induction l as [|t l IH]; intros s Hs; cbn; [done|]. apply IH.
  destruct (canonical_key t); [by apply key_insert_managed|done].
Qed.
Lemma collect_keys_exact o ls s e s' e' :
  collect_keys o ls s e = Some (s', e') -> all_managed s ->
  all_managed s' /\ forall k, k ∈ s' <-> k ∈ s \/ exists t c, Some t ∈ ls /\ canonical_key t = Some c /\ k = managed_key c.
Proof.
  revert s e. induction ls as [|[t|] ls IH]; intros s e; cbn [collect_keys].
  - intros [= <- _] Hs. split; [done|]. intros k. split; [by left|]. intros [H|(? & ? & ?%elem_of_nil & _)]; done.
  - intros H Hs. apply IH in H as [Hm H].
    + split; [done|]. intros k. rewrite H. destruct (canonical_key t) eqn:E; rewrite ?elem_of_key_insert; setoid_rewrite elem_of_cons; naive_solver.
    + destruct (canonical_key t); [by apply key_insert_managed|done].
  - destruct (ko_create o); [|done]. intros H Hs. apply IH in H as [Hm H]; [|done]. split; [done|].
    intros k. rewrite H. setoid_rewrite elem_of_cons. naive_solver.
Qed.

(** No key is ever removed: when the file is rewritten it holds exactly the keys
    that were there and the ones to add, whatever is to be dropped. *)
Theorem dropped_keys_stay o add_list drop_list keys ok :
  update_authorized_keys o add_list drop_list = (KeysReplaced keys, ok) ->
  forall c, c ∈ keys <-> exists t, canonical_key t = Some c /\ (t ∈ add_list \/ exists ls, ko_lines o = Some ls /\ Some t ∈ ls).
Proof.
  unfold update_authorized_keys. intros Hu c.
  destruct (match ko_lines o with Some ls => _ | None => _ end) as [[existing emptied]|] eqn:Er; [|done].
  assert (Hex : all_managed existing /\ forall k, k ∈ existing <->
    exists t c, (exists ls, ko_lines o = Some ls /\ Some t ∈ ls) /\ canonical_key t = Some c /\ k = managed_key c).
  { destruct (ko_lines o) as [ls|].
    - apply collect_keys_exact in Er as [Hm H]; [|constructor]. split; [done|]. intros k. rewrite H, elem_of_nil. naive_solver.
    - destruct (ko_create o); [|done]. injection Er as <- _. split; [constructor|]. intros k. rewrite elem_of_nil. naive_solver. }
  destruct Hex as [Hm Hex]. rewrite drop_keys_nothing in Hu by (by apply add_keys_managed).
  destruct (ko_open_temp o); cbn in Hu; [|by destruct emptied]. destruct (ko_metadata o); cbn in Hu; [|by destruct emptied].
  destruct (ko_rename o); [|by destruct emptied]. destruct (ko_write o); [|done]. injection Hu as <- _.
  rewrite list_elem_of_fmap. split.
  - intros (k & -> & [_ Hk]%list_elem_of_filter). apply elem_of_add_keys in Hk as [Hk|(t & c & Ht & Hc & ->)]; [|eauto].
    apply Hex in Hk as (t & c & Hls & Hc & ->). eauto.
  - intros (t & Hc & Ht). exists (managed_key c). split; [done|]. apply list_elem_of_filter. split; [done|].
    apply elem_of_add_keys. destruct Ht as [Ht|Ht]; [right; eauto|left]. apply Hex. eauto 10.
Qed.
End keys.

(** * The pace *)

Definition random_factor (r : option Z * Z) : Prop := 1 <= r.2 < 4.

Lemma checkin_bounds rounds :
  Forall random_factor rounds ->
  let wait := (update_loop rounds).2 in
  TARGET_UPDATE_FREQUENCY <= wait <= UPDATE_FREQUENCY_CAP /\ 0 < checkin_timeout wait <= 120 * 10 ^ 9.
Proof.
  intros Hr. cbv zeta. assert (H : TARGET_UPDATE_FREQUENCY <= (update_loop rounds).2 <= UPDATE_FREQUENCY_CAP).
  { unfold update_loop.
    assert (forall st, TARGET_UPDATE_FREQUENCY <= st.2 <= UPDATE_FREQUENCY_CAP ->
      TARGET_UPDATE_FREQUENCY <= (foldl (fun st r => update_round r st) st rounds).2 <= UPDATE_FREQUENCY_CAP) as H.
    { induction Hr as [|r rounds Hr _ IH]; intros st Hst; cbn [foldl]; [done|]. apply IH. unfold random_factor in Hr.
      unfold update_round, next_wait, TARGET_UPDATE_FREQUENCY, UPDATE_FREQUENCY_CAP in *.
      destruct r.1; cbn [snd]; [|nia]. pose proof (Z.div_le_upper_bound st.2 2 st.2). lia. }
    apply H. done. }
  split; [done|]. unfold checkin_timeout, TARGET_UPDATE_FREQUENCY in *. lia.
Qed.

(** However check ins end, the router waits between five seconds and an hour, and
    never longer than two minutes for an answer; after ten successful check ins in
    a row the pace is back to five seconds. *)
Theorem checkin_pace rounds oks :
  Forall random_factor rounds -> Forall (fun r => is_Some r.1) oks -> (10 <= length oks)%nat ->
  (TARGET_UPDATE_FREQUENCY <= (update_loop rounds).2 <= UPDATE_FREQUENCY_CAP
   /\ 0 < checkin_timeout (update_loop rounds).2 <= 120 * 10 ^ 9)
  /\ (update_loop (rounds ++ oks)).2 = TARGET_UPDATE_FREQUENCY.
Proof.
  intros Hr Hok Hlen. split; [by apply checkin_bounds|]. unfold update_loop. rewrite foldl_app. change (foldl _ (None, _) rounds) with (update_loop rounds).
  set (st := update_loop rounds).
  assert (Hst : TARGET_UPDATE_FREQUENCY <= st.2 <= TARGET_UPDATE_FREQUENCY * 2 ^ Z.of_nat (length oks)).
  { destruct (checkin_bounds rounds Hr) as [[H1 H2] _]. split; [done|]. etransitivity; [exact H2|].
    transitivity (TARGET_UPDATE_FREQUENCY * 2 ^ 10); [done|]. apply Z.mul_le_mono_nonneg_l; [done|].
    apply Z.pow_le_mono_r; lia. }
  clearbody st. clear Hlen. revert st Hst. induction Hok as [|r oks [x Hx] _ IH]; intros st Hst; cbn [foldl].
  - cbn in Hst. lia.
  - apply IH. cbn [length] in Hst. rewrite Nat2Z.inj_succ, Z.pow_succ_r in Hst by lia.
    unfold update_round, next_wait. rewrite Hx. cbn [snd].
    pose proof (Z.pow_pos_nonneg 2 (Z.of_nat (length oks))). unfold TARGET_UPDATE_FREQUENCY in *.
    pose proof (Z.div_le_upper_bound st.2 2 (5 * 10 ^ 9 * 2 ^ Z.of_nat (length oks))). lia.
Qed.

(** * Settings *)

Section settings.
Context `{CT : Contacts} `{P : Profile} `{SJ : !SettingsJson}.
Implicit Types (s : ClientSettings) (m : OperatorUpdateMessage).

(** The network settings after an update: those before it, with the password, the
    shaper and the babel settings the answer names. *)
Definition network_after m (n : ClientNetwork) : ClientNetwork := {|
  cn_babeld_settings := default (cn_babeld_settings n) (um_babeld_settings m);
  cn_shaper_settings := default (cn_shaper_settings n) (um_shaper_settings m);
  cn_rita_dashboard_password := match um_operator_action m with
                                | Some ResetRouterPassword => None
                                | _ => cn_rita_dashboard_password n
                                end;
  cn_user_bandwidth_limit := cn_user_bandwidth_limit n; cn_mesh_ip := cn_mesh_ip n;
  cn_peer_interfaces := cn_peer_interfaces n |}.

Lemma perform_network m s n :
  rc_network (perform_operator_update m s n).1 = network_after m n.
Proof.
  unfold perform_operator_update, network_after. destruct n.
  destruct (um_operator_action m) as [[]|], (um_shaper_settings m), (um_babeld_settings m); done.
Qed.
Lemma update_contact_keeps s m :
  rc_operator (update_contact s m) = rc_operator s /\ rc_network (update_contact s m) = rc_network s
  /\ rc_payment (update_contact s m) = rc_payment s.
Proof. unfold update_contact. by destruct (check_contacts_update _ _). Qed.
Lemma apply_answer_written e s m written i eff :
  apply_answer e s m = (written, i, eff) -> rc_network written = network_after m (rc_network s).
Proof.
  unfold apply_answer. cbv zeta. destruct (update_payment_and_network_settings _ _ _ _ _) as [[p n] eff1].
  set (s' := merge_settings_safely _ _). set (n0 := rc_network (set_operator _ _)).
  pose proof (perform_network m s' n0) as H. destruct (perform_operator_update m s' n0) as [w eff2].
  intros [= <- _ _]. cbn [fst] in H. rewrite H. subst n0. cbn. by destruct (update_contact_keeps s m) as (_ & -> & _).
Qed.

Lemma operator_update_done e hour w w' last_ :
  operator_update e hour w = Done w' last_ -> co_operator_address (rc_operator (ow_settings w)) <> None ->
  exists m, ce_answer e = inl m /\ ow_settings w' = (apply_answer e (ow_settings w) m).1.1.
Proof.
  intros H Ha. revert H. unfold operator_update. unfold bind at 1. unfold bind at 1.
  destruct (ce_identity e) as [id|]; cbn [unwrap]; [|done].
  rewrite bool_decide_eq_false_2 by done. cbn [andb]. unfold bind at 1.
  destruct (prepare_usage_data_for_upload e hour w) as [w1 u|w1 er|]; [|done..]. unfold bind at 1. cbn [modify].
  destruct (ce_answer e) as [m|[]]; [|done..]. exists m. split; [done|]. revert H.
  destruct (apply_answer e (ow_settings w) m) as [[written i] eff]. unfold bind. cbn. by intros [= <- _].
Qed.

(** The prices of the operator never take effect: after an update the price of a
    router is the one it had, unless the answer replaces its babel settings as a
    whole; and nothing the operator merges into the network settings remains. *)
Theorem operator_price_lost e hour w w' last_ m :
  operator_update e hour w = Done w' last_ -> ce_answer e = inl m ->
  co_operator_address (rc_operator (ow_settings w)) <> None ->
  rc_network (ow_settings w') = network_after m (rc_network (ow_settings w))
  /\ (um_babeld_settings m = None ->
      bc_local_fee (cn_babeld_settings (rc_network (ow_settings w')))
      = bc_local_fee (cn_babeld_settings (rc_network (ow_settings w)))).
Proof.
  intros H Hm Ha.
  assert (Hn : rc_network (ow_settings w') = network_after m (rc_network (ow_settings w))).
  { apply operator_update_done in H as (m' & E & ->); [|done]. rewrite Hm in E. injection E as <-.
    destruct (apply_answer e (ow_settings w) m) as [[written i] eff] eqn:E. by eapply apply_answer_written. }
  split; [done|]. intros Hb. rewrite Hn. unfold network_after. cbn. by rewrite Hb.
Qed.

Lemma apply_answer_env e e' s m : ce_is_gateway e = ce_is_gateway e' -> apply_answer e s m = apply_answer e' s m.
Proof. unfold apply_answer. by intros ->. Qed.
(** A change another thread makes to the settings while the answer is awaited is
    overwritten: what is written does not depend on it. *)
Theorem concurrent_change_lost e e' hour w w1 w2 last1 last2 :
  e' = {| ce_identity := ce_identity e; ce_is_gateway := ce_is_gateway e; ce_current_hour := ce_current_hour e;
          ce_client_usage := ce_client_usage e; ce_relay_usage := ce_relay_usage e;
          ce_hardware_info := ce_hardware_info e; ce_report := ce_report e; ce_answer := ce_answer e;
          ce_meanwhile := fun s => s |} ->
  co_operator_address (rc_operator (ow_settings w)) <> None ->
  operator_update e hour w = Done w1 last1 -> operator_update e' hour w = Done w2 last2 ->
  ow_settings w1 = ow_settings w2.
Proof.
  intros -> Ha H1 H2. apply operator_update_done in H1 as (m1 & E1 & ->), H2 as (m2 & E2 & ->); [|done..].
  cbn in E2. rewrite E1 in E2. injection E2 as ->. by erewrite apply_answer_env.
Qed.

Lemma perform_keeps m s n :
  let w := (perform_operator_update m s n).1 in
  co_operator_fee (rc_operator w) = co_operator_fee (rc_operator s)
  /\ co_billing_details (rc_operator w) = co_billing_details (rc_operator s)
  /\ co_installation_details (rc_operator w) = co_installation_details (rc_operator s)
  /\ cp_max_fee (rc_payment w) = cp_max_fee (rc_payment s)
  /\ cp_balance_warning_level (rc_payment w) = cp_balance_warning_level (rc_payment s)
  /\ cp_eth_private_key (rc_payment w) = cp_eth_private_key (rc_payment s)
  /\ rc_contact_info w = rc_contact_info s.
Proof. unfold perform_operator_update. destruct (um_operator_action m) as [[]|]; by repeat split. Qed.
Lemma update_payment_limits p n b g m p' n' eff :
  update_payment_and_network_settings p n b g m = (p', n', eff) ->
  cp_max_fee p' = um_max m /\ cp_balance_warning_level p' = um_warning m /\ cp_eth_private_key p' = cp_eth_private_key p.
Proof.
  unfold update_payment_and_network_settings, set_system_blockchain.
  destruct (um_system_chain m) as [c|]; [destruct (bool_decide _)|]; destruct (um_withdraw_chain m); intros [= <- _ _]; done.
Qed.

(** What the answer does reach.  The fee follows the operator when the router
    follows the operator's prices and otherwise only rises; the limits are the
    operator's; and the contact information and the billing details are replaced
    exactly by newer ones.  Without settings to merge. *)
Theorem update_applies e s m written i eff :
  apply_answer e s m = (written, i, eff) -> (forall o, um_merge_json m <> VObject o) ->
  let op := rc_operator s in
  let follows := co_use_operator_price op || co_force_use_operator_price op in
  co_operator_fee (rc_operator written)
    = (if follows then um_operator_fee m else Z.max (co_operator_fee op) (um_operator_fee m))
  /\ cp_max_fee (rc_payment written) = um_max m /\ cp_balance_warning_level (rc_payment written) = um_warning m
  /\ cp_eth_private_key (rc_payment written) = cp_eth_private_key (rc_payment s)
  /\ rc_contact_info written
     = (if check_contacts_update (rc_contact_info s) (um_contact_info m)
        then storage_of_type <$> um_contact_info m else rc_contact_info s)
  /\ co_billing_details (rc_operator written)
     = (if check_billing_update (co_billing_details op) (um_billing_details m)
        then um_billing_details m else co_billing_details op)
  /\ co_installation_details (rc_operator written) = None.
Proof.
  intros H Hj. cbv zeta. revert H. unfold apply_answer. cbv zeta.
  destruct (update_contact_keeps s m) as (Ho & Hn & Hp).
  destruct (update_payment_and_network_settings _ _ _ _ _) as [[p n] eff1] eqn:Eu.
  apply update_payment_limits in Eu as (Hmax & Hwarn & Hkey). set (s' := merge_settings_safely _ _).
  assert (Hs' : s' = set_network n (set_payment p (set_operator (update_operator (rc_operator (update_contact s m)) m) (update_contact s m)))).
  { subst s'. unfold merge_settings_safely. destruct (um_merge_json m) eqn:Ej; [done..|by destruct (Hj m0)]. }
  destruct (perform_keeps m s' (rc_network (set_operator (update_operator (rc_operator (update_contact s m)) m) (update_contact s m))))
    as (Kf & Kb & Ki & Km & Kw & Kk & Kc).
  destruct (perform_operator_update m s' _) as [w eff2]. intros [= <- _ _]. cbn [fst] in *.
  rewrite Kf, Kb, Ki, Km, Kw, Kk, Kc, Hs'. cbn in *. rewrite Ho, Hmax, Hwarn, Hkey, Hp. unfold use_operator_price.
  split; [|by repeat split; unfold update_contact; destruct (check_contacts_update _ _)].
  destruct (co_use_operator_price _ || co_force_use_operator_price _); cbn; [done|]. destruct (Z.ltb_spec (co_operator_fee (rc_operator s)) (um_operator_fee m)); lia.
Qed.
End settings.

(** * The dashboard of the operator

    The endpoints of the dashboard around the operator
    (rita_client/src/dashboard/installation_details.rs, operator.rs,
    system_chain.rs): entering the installation details, the operator and its
    fee, and the chain.  A handler takes the settings and says whether they could
    be written to disk; it returns the status code and the settings left. *)

Import ContactInfo RouterUpgrade OperatorUpdate.

Module OperatorDashboard.

Record InstallationDetailsPost := {
  ip_first_name : text;
  ip_last_name : text;
  ip_country : text;
  ip_postal_code : text;
  ip_state : option text;
  ip_city : text;
  ip_street : text;
  ip_phone : option text;
  ip_email : option text;
  ip_client_antenna_ip : option text;
  ip_relay_antennas : option text;
  ip_phone_client_antennas : option text;
  ip_physical_address : option text;
  ip_equipment_details : text;
}.

(** [str::parse::<Ipv4Addr>]. *)
Definition parse_ipv4 (l : text) : option Z :=
  match read_ipv4_addr l with Some (a, []) => Some a | _ => None end.

Section dashboard.
Context `{CT : Contacts} `{P : Profile}.
Implicit Types s : ClientSettings (CT := CT).

Definition saved_code (saved : bool) : Z := if saved then 200 else 500.
Definition str (t : text) : string := String.string_of_list_ascii t.

Definition post_installation (req : InstallationDetailsPost) (client : option Z) (relays : list Z) : InstallationDetails := {|
  client_antenna_ip := client; relay_antennas := relays; physical_address := ip_physical_address req;
  equipment_details := ip_equipment_details req |}.
Definition post_billing (req : InstallationDetailsPost) : BillingDetails := {|
  user_first_name := ip_first_name req; user_last_name := ip_last_name req;
  mailing_address := {| ma_country := ip_country req; ma_postal_code := ip_postal_code req; ma_state := ip_state req;
                        ma_city := ip_city req; ma_street := ip_street req |};
  billing_sequence := 1 |}.

Definition set_details (i : option InstallationDetails) (b : option BillingDetails) (display : bool)
    (o : ClientOperator) : ClientOperator := {|
  co_operator_address := co_operator_address o; co_operator_fee := co_operator_fee o;
  co_use_operator_price := co_use_operator_price o; co_force_use_operator_price := co_force_use_operator_price o;
  co_installation_details := i; co_billing_details := b; co_display_operator_setup := display |}.

Definition set_installation_details (saved : bool) (req : InstallationDetailsPost) s : Z * ClientSettings :=
  match installation_contact (str <$> ip_phone req) (str <$> ip_email req) with
  | None => (400, s)
  | Some contact_details =>
      match (match ip_relay_antennas req with
             | Some val => mapM parse_ipv4 (split_on "," val)
             | None => Some []
             end) with
      | None => (400, s)
      | Some parsed_relay_antenna_ips =>
          match (match ip_client_antenna_ip req with
                 | Some ip_str => Some <$> parse_ipv4 ip_str
                 | None => Some None
                 end) with
          | None => (400, s)
          | Some parsed_client_antenna_ip =>
              let s := set_contact (Some (storage_of_type contact_details)) s in
              let operator := set_details (Some (post_installation req parsed_client_antenna_ip parsed_relay_antenna_ips))
                                (Some (post_billing req)) false (rc_operator s) in
              (saved_code saved, set_operator operator s)
          end
      end
  end.
Definition get_installation_details s : option InstallationDetails := co_installation_details (rc_operator s).
Definition display_operator_setup s : bool := co_display_operator_setup (rc_operator s).
Definition set_display_operator_setup (saved val : bool) s : Z * ClientSettings :=
  let o := rc_operator s in
  (saved_code saved, set_operator (set_details (co_installation_details o) (co_billing_details o) val o) s).
Definition get_billing_details s : option BillingDetails := co_billing_details (rc_operator s).
Definition set_billing_details (req : BillingDetails) s : Z * ClientSettings :=
  let o := rc_operator s in
  (200, set_operator (set_details (co_installation_details o) (Some req) (co_display_operator_setup o) o) s).

Definition set_address (a : option Z) (o : ClientOperator) : ClientOperator := {|
  co_operator_address := a; co_operator_fee := co_operator_fee o;
  co_use_operator_price := co_use_operator_price o; co_force_use_operator_price := co_force_use_operator_price o;
  co_installation_details := co_installation_details o; co_billing_details := co_billing_details o;
  co_display_operator_setup := co_display_operator_setup o |}.
Definition get_operator s : option Z := co_operator_address (rc_operator s).
Definition change_operator (saved : bool) (provided_address : Z) s : Z * ClientSettings :=
  (saved_code saved, set_operator (set_address (Some provided_address) (rc_operator s)) s).
Definition remove_operator (saved : bool) s : Z * ClientSettings :=
  (saved_code saved, set_operator (set_address None (rc_operator s)) s).
Definition get_operator_fee s : Z := co_operator_fee (rc_operator s).
Definition set_operator_fee (saved : bool) (op_fee : Z) s : Z * ClientSettings :=
  let o := rc_operator s in
  (saved_code saved, set_operator {|
     co_operator_address := co_operator_address o; co_operator_fee := op_fee;
     co_use_operator_price := op_fee =? 0; co_force_use_operator_price := co_force_use_operator_price o;
     co_installation_details := co_installation_details o; co_billing_details := co_billing_details o;
     co_display_operator_setup := co_display_operator_setup o |} s).

Definition set_system_blockchain_endpoint (saved : bool) (id : string) s : Z * ClientSettings * list OperatorEffect :=
  match chain_from_str id with
  | None => (400, s, [])
  | Some id =>
      let '(payment, effects) := set_system_blockchain id (rc_payment s) in
      (saved_code saved, set_payment payment s, effects)
  end.
Definition get_system_blockchain s : SystemChain := cp_system_chain (rc_payment s).

(** * Properties *)

(** A form with anything that cannot be read changes nothing; one that is accepted
    is stored as a whole, with every antenna address it lists. *)
Theorem installation_form_atomic saved req s code s' :
  set_installation_details saved req s = (code, s') ->
  (code = 400 /\ s' = s)
  \/ (code = saved_code saved
      /\ (exists ct, installation_contact (str <$> ip_phone req) (str <$> ip_email req) = Some ct
           /\ rc_contact_info s' = Some (storage_of_type ct))
      /\ (exists i, get_installation_details s' = Some i
           /\ physical_address i = ip_physical_address req
           /\ forall val, ip_relay_antennas req = Some val ->
                Forall2 (fun t a => parse_ipv4 t = Some a) (split_on "," val) (relay_antennas i))
      /\ display_operator_setup s' = false).
Proof.
  unfold set_installation_details. destruct (installation_contact _ _) as [ct|]; [|intros [= <- <-]; by left].
  destruct (ip_relay_antennas req) as [val|].
  - destruct (mapM parse_ipv4 (split_on "," val)) as [ips|] eqn:Em; [|intros [= <- <-]; by left]. apply mapM_Some in Em.
    destruct (match ip_client_antenna_ip req with Some _ => _ | None => _ end); [|intros [= <- <-]; by left].
    intros [= <- <-]. right. split; [done|]. split; [by eexists|]. split; [|done].
    eexists. split; [done|]. split; [done|]. by intros val' [= <-].
  - destruct (match ip_client_antenna_ip req with Some _ => _ | None => _ end); [|intros [= <- <-]; by left].
    intros [= <- <-]. right. split; [done|]. split; [by eexists|]. split; [|done]. by eexists.
Qed.

(** Changing the chain changes both chains and the nodes together, for every name
    of a chain, and an unknown name changes nothing. *)
Theorem chain_endpoint_exact saved name s code s' eff :
  set_system_blockchain_endpoint saved name s = (code, s', eff) ->
  match chain_from_str name with
  | Some id => code = saved_code saved /\ get_system_blockchain s' = id
      /\ cp_withdraw_chain (rc_payment s') = id /\ cp_eth_node_list (rc_payment s') = chain_nodes id
      /\ eff = [EffOracleBalance (Some 0)]
  | None => code = 400 /\ s' = s /\ eff = []
  end.
Proof. unfold set_system_blockchain_endpoint. destruct (chain_from_str name); by intros [= <- <- <-]. Qed.

End dashboard.

End OperatorDashboard.

(** * Demonstrations

    Demonstrations of the operator properties: a router with a price of its own
    that is told another one. *)

Import ContactInfo RouterUpgrade OperatorUpdate.
#[local] Existing Instance plus_phones.
#[local] Existing Instance plus_contacts.
#[local] Existing Instance release_profile.

Definition demo_babeld : BabeldConfig := {|
  bc_kernel_check_interval := None; bc_local_fee := 1000; bc_metric_factor := 1900;
  bc_interface_defaults := {| link_quality := true; max_rtt_penalty := 500; rtt_min := 60; rtt_max := 1000;
                              hello_interval := 4; update_interval := 16; split_horizon := false |} |}.
Definition demo_settings : ClientSettings (CT := plus_contacts) := {|
  rc_payment := {| cp_max_fee := 1; cp_balance_warning_level := 2; cp_system_chain := Xdai; cp_withdraw_chain := Xdai;
                   cp_eth_node_list := []; cp_min_gas := 3; cp_eth_private_key := Some 4 |};
  rc_log_enabled := true;
  rc_operator := {| co_operator_address := Some 5; co_operator_fee := 6; co_use_operator_price := true;
                    co_force_use_operator_price := false; co_installation_details := None; co_billing_details := None;
                    co_display_operator_setup := false |};
  rc_network := {| cn_babeld_settings := demo_babeld;
                   cn_shaper_settings := {| shaper_enabled := true; max_speed := 10; min_speed := 1 |};
                   cn_rita_dashboard_password := None; cn_user_bandwidth_limit := None; cn_mesh_ip := None;
                   cn_peer_interfaces := [] |};
  rc_contact_info := None; rc_rest := VNull |}.
Definition demo_json : SettingsJson (CT := plus_contacts) := {|
  to_value _ := Some VNull; from_value _ := Some demo_settings |}.
#[local] Existing Instance demo_json.
Definition demo_answer : OperatorUpdateMessage (CT := plus_contacts) := {|
  um_relay := 77; um_gateway := 88; um_phone_relay := 0; um_max := 9; um_operator_fee := 10; um_warning := 11;
  um_system_chain := None; um_withdraw_chain := None; um_merge_json := VString []; um_operator_action := None;
  um_local_update_instruction := None; um_local_update_instruction_v2 := None; um_shaper_settings := None;
  um_babeld_settings := None; um_contact_info := None; um_billing_details := None; um_ops_last_seen_usage_hour := 12 |}.
Definition demo_identity : Identity := {|
  mesh_ip := V6 1; eth_address := 2; wg_public_key := 3; nickname := None |}.
Definition demo_env : CheckinEnv (CT := plus_contacts) := {|
  ce_identity := Some demo_identity; ce_is_gateway := true; ce_current_hour := Some 20; ce_client_usage := ∅;
  ce_relay_usage := ∅; ce_hardware_info := None; ce_report := VNull; ce_answer := inl demo_answer;
  ce_meanwhile := fun s => s |}.
Definition demo_world : OpWorld (CT := plus_contacts) := {|
  ow_settings := demo_settings; ow_update_instruction := None; ow_sent := []; ow_effects := [] |}.

Definition demo_after : OpWorld (CT := plus_contacts) :=
  match operator_update demo_env None demo_world with Done w _ => w | _ => demo_world end.
Lemma operator_price_lost_witness :
  operator_update demo_env None demo_world = Done demo_after 12
  /\ bc_local_fee (cn_babeld_settings (rc_network (ow_settings demo_after))) = 1000.
Proof.
  assert (H : operator_update demo_env None demo_world = Done demo_after 12) by (vm_compute; reflexivity).
  split; [exact H|].
  destruct (operator_price_lost demo_env None demo_world demo_after 12 demo_answer H eq_refl ltac:(discriminate)) as [_ Hf].
  apply Hf. reflexivity.
Defined.

Lemma update_applies_witness :
  co_operator_fee (rc_operator (apply_answer demo_env demo_settings demo_answer).1.1) = 10.
Proof.
  destruct (apply_answer demo_env demo_settings demo_answer) as [[w i] eff] eqn:E.
  destruct (update_applies demo_env demo_settings demo_answer w i eff E ltac:(discriminate)) as [H _]. exact H.
Defined.

(** A key that is to be dropped stays. *)
Definition demo_ssh : SshKeys := {| canonical_key t := Some t |}.
#[local] Existing Instance demo_ssh.
Lemma dropped_keys_stay_witness :
  update_authorized_keys {| ko_lines := Some [Some (lit "old")]; ko_create := true; ko_open_temp := true;
     ko_metadata := true; ko_write := true; ko_rename := true; ko_remove := true |} [lit "new"] [lit "old"]
  = (KeysReplaced [lit "old"; lit "new"], true) /\ lit "old" ∈ [lit "old"; lit "new"].
Proof.
  split; [reflexivity|].
  refine (proj2 (dropped_keys_stay {| ko_lines := Some [Some (lit "old")]; ko_create := true; ko_open_temp := true;
     ko_metadata := true; ko_write := true; ko_rename := true; ko_remove := true |} [lit "new"] [lit "old"]
     [lit "old"; lit "new"] true eq_refl (lit "old")) _).
  exists (lit "old"). split; [done|]. right. eexists. split; [reflexivity|]. by left.
Defined.

Lemma checkin_pace_witness :
  (update_loop (replicate 9 (None, 3) ++ replicate 10 (Some 1, 1))).2 = TARGET_UPDATE_FREQUENCY.
Proof.
  apply (checkin_pace (replicate 9 (None, 3)) (replicate 10 (Some 1, 1))); [..|cbn; lia];
    repeat constructor; cbn; try lia; eauto.
Defined.

Definition demo_config : Value :=
  VObject [(lit "payment", VObject [(lit "eth_private_key", VString (lit "secret")); (lit "max_fee", VNumber 1)])].
Definition demo_merge : Value := VObject [(lit "payment", VObject [(lit "max_fee", VNumber 2)])].
Lemma merge_spares_forbidden_witness :
  at_path [lit "payment"; lit "eth_private_key"] (json_merge demo_config demo_merge)
  = at_path [lit "payment"; lit "eth_private_key"] demo_config.
Proof.
  destruct (merge_spares_forbidden [lit "payment"; lit "eth_private_key"] demo_config demo_merge) as [H|H];
    [reflexivity| |exact H|].
  - right. left. by left.
  - exfalso. destruct H as (v & Hv%list_elem_of_singleton & Hr). injection Hv as ->. by destruct Hr as (v' & _ & []).
Defined.
