(* ===== verification/AutoBridge.v ===== *)
(** The calls of the xDai bridge (auto_bridge/src/lib.rs): the transactions that
    move money between the chains, the search for withdraw events and the
    parsers of what the chains answer.  The web30 and clarity crates are
    parameters; an index or a slice out of range and an [unwrap] of an error are
    panics. *)
From S2P Require Import Prelude Types Text PeerMessage Forwarding RegistrationDb.

(** The byte tokens of clarity. *)
Class ClarityBytes `(C : Clarity) := {
  token_bytes : byte_list -> AbiToken;
  token_unbounded_bytes : byte_list -> AbiToken;
}.

Record Log := {
  log_data : byte_list;
  transaction_hash : option byte_list;
}.
Inductive TransactionResponse :=
| Eip1559 (from : Z)
| Eip2930 (from : Z)
| Legacy (from : Z).

(** A client of one chain ([web30::client::Web3]), as the code sees it during one
    tick.  The search for events has the number of the attempt as an argument,
    since the code asks again after an error. *)
Record ChainClient := {
  cl_simulate : Z -> Z -> byte_list -> Web3Error + byte_list;
  cl_prepare : Z -> byte_list -> Z -> Z -> option Web3Error;
  cl_send : Z -> byte_list -> Z -> Web3Error + Z;
  cl_wait : Z -> option Web3Error;
  cl_erc20_balance : Z -> Z -> Web3Error + Z;
  cl_block_number : Web3Error + Z;
  cl_check_for_events : nat -> Z -> option Z -> list Z -> list string -> Web3Error + list Log;
  cl_transaction_by_hash : Z -> Web3Error + option TransactionResponse;
}.

(** What is handed to a chain: a signed transaction, or a swap on uniswap. *)
Inductive Chain := OnEth | OnXdai.
Inductive ChainRequest :=
| Transaction (chain : Chain) (to : Z) (payload : byte_list) (value : Z)
| SwapUniswapV3 (token_in token_out fee amount min_out : Z).

Inductive TokenBridgeError :=
| TBWeb3Error (e : Web3Error)
| BadUniswapOutput (s : string)
| HelperMessageNotReady
| HelperMessageIncorrect.

Record TokenBridgeAddresses := {
  addr_xdai_bridge_on_eth : Z;
  addr_helper_on_xdai : Z;
  addr_xdai_bridge_on_xdai : Z;
  eth_full_node_url : string;
  xdai_full_node_url : string;
}.

Record HelperWithdrawInfo := {
  hw_msg : byte_list;
  hw_sigs : byte_list;
}.

Record WithdrawEvent := {
  we_sender : Z;
  we_receiver : Z;
  we_amount : Z;
  we_txid : Z;
}.

Record TokenBridge := {
  xdai_web3 : ChainClient;
  eth_web3 : ChainClient;
  xdai_bridge_on_eth : Z;
  helper_on_xdai : Z;
  xdai_bridge_on_xdai : Z;
  own_address : Z;
  eth_privatekey : Z;
}.

Definition MINIMUM_DAI_TO_SEND : Z := 2000000000000000000.
Definition MINIMUM_USDC_TO_CONVERT : Z := 15000000.
Definition get_usdt_address : Z := 0xdAC17F958D2ee523a2206206994597C13D831ec7.
(** The addresses the web30 crate declares. *)
Class Web30Constants := {
  DAI_CONTRACT_ADDRESS : Z;
  USDC_CONTRACT_ADDRESS : Z;
}.

Definition XDAI_BRIDGE_ON_ETH_ADDRESS : Z := 0x4aa42145Aa6Ebf72e164C9bBC74fbD3788045016.
Definition HELPER_ON_XDAI_ADDRESS : Z := 0x6A92e97A568f5F58590E8b1f56484e6268CdDC51.
Definition XDAI_BRIDGE_ON_XDAI_ADDRESS : Z := 0x7301CFA0e1756B71869E93d4e4Dca5c7d0eb0AA6.

Definition default_bridge_addresses : TokenBridgeAddresses := {|
  addr_helper_on_xdai := HELPER_ON_XDAI_ADDRESS;
  addr_xdai_bridge_on_eth := XDAI_BRIDGE_ON_ETH_ADDRESS;
  addr_xdai_bridge_on_xdai := XDAI_BRIDGE_ON_XDAI_ADDRESS;
  eth_full_node_url := "https://eth.althea.org";
  xdai_full_node_url := "https://dai.althea.org";
|}.

Module AutoBridge.
Import RegistrationDb.

(** [r?] where the error of the callee is converted. *)
Definition map_err {S E F A} (f : E -> F) (m : M S E A) : M S F A := fun s =>
  match m s with Done s' a => Done s' a | Fail s' e => Fail s' (f e) | Panic => Panic end.

Definition TokenBridge_new (connect : string -> ChainClient) (addresses : TokenBridgeAddresses)
    (own_address eth_privatekey : Z) (eth_full_node_url xdai_full_node_url : string) : TokenBridge := {|
  xdai_bridge_on_xdai := addr_xdai_bridge_on_xdai addresses;
  helper_on_xdai := addr_helper_on_xdai addresses;
  xdai_bridge_on_eth := addr_xdai_bridge_on_eth addresses;
  own_address := own_address;
  eth_privatekey := eth_privatekey;
  xdai_web3 := connect xdai_full_node_url;
  eth_web3 := connect eth_full_node_url;
|}.

(** * Sending

    The state is the list of the requests handed to the chains, newest first. *)
Section sending.
Context `{C : Clarity} `{CB : !ClarityBytes C} `{K : Web30Constants} `{N : Num256} `{P : Profile}.
Abbreviation B A := (M (list ChainRequest) TokenBridgeError A).
Abbreviation W A := (M (list ChainRequest) Web3Error A).

(** [prepare_transaction(..)?] and [send_prepared_transaction(..)?]. *)
Definition prepare_and_send (chain : Chain) (web3 : ChainClient) (to : Z) (payload : byte_list) (value key : Z) : W Z :=
  let! _ := try_opt (cl_prepare web3 to payload value key) in
  let! _ := modify (cons (Transaction chain to payload value)) in
  try_sum (cl_send web3 to payload value).

Definition dai_to_xdai_bridge (self : TokenBridge) (dai_amount : Z) : B Z :=
  let secret := eth_privatekey self in
  let! payload := unwrap (match encode_call "transfer(address,uint256)"
                                  [token_address (xdai_bridge_on_eth self); token_uint dai_amount] with
                          | inr p => Some p | inl _ => None end) in
  let! tx_hash := map_err TBWeb3Error
                    (prepare_and_send OnEth (eth_web3 self) DAI_CONTRACT_ADDRESS payload 0 secret) in
  let! _ := map_err TBWeb3Error (try_opt (cl_wait (eth_web3 self) tx_hash)) in
  ret dai_amount.

Definition get_dai_balance (self : TokenBridge) : TokenBridgeError + Z :=
  match cl_erc20_balance (eth_web3 self) DAI_CONTRACT_ADDRESS (own_address self) with
  | inr b => inr b | inl e => inl (TBWeb3Error e) end.
Definition get_usdc_balance (self : TokenBridge) : TokenBridgeError + Z :=
  match cl_erc20_balance (eth_web3 self) USDC_CONTRACT_ADDRESS (own_address self) with
  | inr b => inr b | inl e => inl (TBWeb3Error e) end.
Definition get_usdt_balance (self : TokenBridge) : TokenBridgeError + Z :=
  match cl_erc20_balance (eth_web3 self) get_usdt_address (own_address self) with
  | inr b => inr b | inl e => inl (TBWeb3Error e) end.

Definition get_payload_for_funds_unlock (data : HelperWithdrawInfo) : option byte_list :=
  match encode_call "executeSignatures(bytes,bytes)"
          [token_unbounded_bytes (hw_msg data); token_unbounded_bytes (hw_sigs data)] with
  | inr p => Some p | inl _ => None end.

(** The result of waiting is discarded. *)
Definition submit_signatures_to_unlock_funds (self : TokenBridge) (data : HelperWithdrawInfo) : B Z :=
  let! payload := unwrap (get_payload_for_funds_unlock data) in
  map_err TBWeb3Error
    (prepare_and_send OnEth (eth_web3 self) (xdai_bridge_on_eth self) payload 0 (eth_privatekey self)).

Definition encode_relaytokens (bridge : TokenBridge) (dest_address amount : Z) : B unit :=
  let! payload := unwrap (match encode_call "relayTokens(address)" [token_address dest_address] with
                          | inr p => Some p | inl _ => None end) in
  let! tx_hash := map_err TBWeb3Error
                    (prepare_and_send OnXdai (xdai_web3 bridge) (xdai_bridge_on_xdai bridge) payload amount
                       (eth_privatekey bridge)) in
  map_err TBWeb3Error (try_opt (cl_wait (xdai_web3 bridge) tx_hash)).

(** * What the helper contract answers *)

Definition START : Z := 2 * 32.

(** [encode_call(..)] with its error turned into [BadInput]. *)
Definition encode_or_bad_input (signature : string) (tokens : list AbiToken) : Web3Error + byte_list :=
  match encode_call signature tokens with inr p => inr p | inl _ => inl BadInput end.

Definition not_ready (answer : byte_list) : bool :=
  bool_decide (answer = [0]) || (len_of answer <=? 64).

Definition get_relay_message_hash (own_address : Z) (xdai_web3 : ChainClient)
    (helper_on_xdai dest_address xdai_withdraw_txid amount_sent : Z) : B HelperWithdrawInfo :=
  let call payload := map_err TBWeb3Error (try_sum (cl_simulate xdai_web3 own_address helper_on_xdai payload)) in
  let encode signature tokens := map_err TBWeb3Error (try_sum (encode_or_bad_input signature tokens)) in
  let! payload := encode "getMessageHash(address,uint256,bytes32)"
                    [token_address dest_address; token_uint amount_sent;
                     token_bytes (u256_to_be_bytes xdai_withdraw_txid)] in
  let! msg_hash := call payload in
  let! payload := encode "getMessage(bytes32)" [token_bytes msg_hash] in
  let! msg := call payload in
  if not_ready msg then throw HelperMessageNotReady else
  let! payload := encode "getSignatures(bytes32)" [token_bytes msg_hash] in
  let! sigs_payload := call payload in
  if not_ready sigs_payload then throw HelperMessageNotReady else
  let! msg_word := unwrap (slice 32 64 msg) in
  let! msg_len := unwrap (u256_from_be_bytes msg_word) in
  let! sigs_word := unwrap (slice 32 64 sigs_payload) in
  let! sigs_len := unwrap (u256_from_be_bytes sigs_word) in
  if (U64_MAX <? msg_len) || (U64_MAX <? sigs_len) then throw HelperMessageIncorrect else
  let! msg_end := unwrap (usize_of (START + msg_len)) in
  let! sigs_end := unwrap (usize_of (START + sigs_len)) in
  if (len_of msg <? msg_end) || (len_of sigs_payload <? sigs_end) then throw HelperMessageIncorrect else
  let! cleaned_msg := unwrap (slice START msg_end msg) in
  let! cleaned_sigs := unwrap (slice START sigs_end sigs_payload) in
  ret {| hw_msg := cleaned_msg; hw_sigs := cleaned_sigs |}.

(** The last byte of the answer; [res[res.len() - 1]] panics on an empty one. *)
Definition check_relayed_message (tx_hash : Z) (web3 : ChainClient) (own_address contract : Z) : W bool :=
  let! payload := try_sum (encode_or_bad_input "relayedMessages(bytes32)" [token_uint tx_hash]) in
  let! res := try_sum (cl_simulate web3 own_address contract payload) in
  let! b := unwrap (last res) in
  ret (b =? 1).

(** * The search for withdraw events *)

Definition compute_start_end (iter latest_block total_blocks max_iter : Z) : option (Z * Z) :=
  base ← u_sub latest_block total_blocks;
  offset ← u64_of (max_iter * iter);
  start_block ← u_add base offset;
  next ← u_add start_block max_iter;
  if latest_block <? next then Some (start_block, latest_block)
  else next ← u_add start_block max_iter; Some (start_block, next).

Definition parse_receiver_data (data : byte_list) : W (Z * Z) :=
  if len_of data <? 64 then throw BadInput else
  let! address_bytes := unwrap (slice 12 32 data) in
  let! address := ok_or (address_from_slice address_bytes) (Web3Failure "clarity") in
  let! ammount_bytes := unwrap (slice 32 64 data) in
  let! ammount := unwrap (u256_from_be_bytes ammount_bytes) in
  ret (address, ammount).

Definition parse_sender_data (data : byte_list) (client : ChainClient) : W (Z * Z) :=
  if len_of data <? 32 then throw BadInput else
  let! tx_hash := unwrap (u256_from_be_bytes data) in
  let! response := try_sum (cl_transaction_by_hash client tx_hash) in
  let! tx_res := ok_or response BadResponse in
  let sender := match tx_res with Eip1559 from => from | Eip2930 from => from | Legacy from => from end in
  ret (sender, tx_hash).

Definition parse_withdraw_event (log : Log) (client : ChainClient) : W WithdrawEvent :=
  let! sender_data := ok_or (transaction_hash log) BadResponse in
  let! (receiver, amount) := parse_receiver_data (log_data log) in
  let! (sender, tx_hash) := parse_sender_data sender_data client in
  ret {| we_sender := sender; we_receiver := receiver; we_amount := amount; we_txid := tx_hash |}.

Definition MAX_ITER : Z := 500.
Definition phrase_sig : string := "UserRequestForSignature(address,uint256)".

(** Asking again after an error, while there is time: [retries] is how many
    times the deadline allows. *)
Fixpoint retry_events (ask : nat -> Web3Error + list Log) (attempt retries : nat) : Web3Error + list Log :=
  match ask attempt, retries with
  | inl _, S retries => retry_events ask (S attempt) retries
  | r, _ => r
  end.

(** The inner loop over the addresses, with the pushes in order. *)
Definition matching (search_addresses : list Z) (e : WithdrawEvent) : list WithdrawEvent :=
  search_addresses ≫= fun a => if we_sender e =? a then [e] else [].

Fixpoint collect (search_addresses : list Z) (client : ChainClient) (logs : list Log)
    (vec_of_withdraws : list WithdrawEvent) : W (list WithdrawEvent) :=
  match logs with
  | [] => ret vec_of_withdraws
  | log :: logs =>
      let! withdraw_event := parse_withdraw_event log client in
      collect search_addresses client logs (vec_of_withdraws ++ matching search_addresses withdraw_event)
  end.

(** The loop.  Without fuel it does not return, which [check_withdrawals_fuel]
    in TokenBridgeSpec.v rules out for the fuel chosen below. *)
Fixpoint scan_loop (fuel : nat) (blocks_to_check contract : Z) (client : ChainClient) (search_addresses : list Z)
    (retry_timeout : option (nat -> nat)) (xdai_latest_block : Z)
    (blocks_left : Z) (iter : nat) (vec_of_withdraws : list WithdrawEvent) : W (list WithdrawEvent) :=
  match fuel with
  | O => panic
  | S fuel =>
      let! (start, end_) := unwrap (compute_start_end (Z.of_nat iter) xdai_latest_block blocks_to_check MAX_ITER) in
      let ask attempt := cl_check_for_events client attempt start (Some end_) [contract] [phrase_sig] in
      let retries := match retry_timeout with Some in_time => in_time iter | None => O end in
      let! logs := try_sum (retry_events ask 0 retries) in
      let! vec_of_withdraws := collect search_addresses client logs vec_of_withdraws in
      if blocks_left <? MAX_ITER then ret vec_of_withdraws
      else scan_loop fuel blocks_to_check contract client search_addresses retry_timeout xdai_latest_block
             (blocks_left - MAX_ITER) (S iter) vec_of_withdraws
  end.

(** [retry_timeout] is, when given, how many more requests the deadline allows
    in each round. *)
Definition check_withdrawals (blocks_to_check contract : Z) (xdai_web3 : ChainClient) (search_addresses : list Z)
    (retry_timeout : option (nat -> nat)) : W (list WithdrawEvent) :=
  let! xdai_latest_block := try_sum (cl_block_number xdai_web3) in
  scan_loop (S (Z.to_nat (blocks_to_check / MAX_ITER))) blocks_to_check contract xdai_web3 search_addresses
    retry_timeout xdai_latest_block blocks_to_check 0 [].

End sending.

End AutoBridge.
