(* ===== verification/TokenBridge.v ===== *)
(** The token bridge (rita_common/src/token_bridge/mod.rs, xdai_bridge.rs) and
    the withdraw endpoints of the dashboard (rita_common/src/dashboard/wallet.rs,
    token_bridge.rs): the state of the bridge behind its lock, the conveyor belt
    from stable coins over DAI to xDai that runs in every slow loop, and the
    withdrawals.  The calls to the chains are those of AutoBridge.v. *)
From S2P Require Import Prelude Types Text PeerMessage Forwarding RegistrationDb AutoBridge.

Record Withdraw := {
  wd_to : Z;
  wd_amount : Z;
}.
Inductive DetailedBridgeState :=
| Swap
| DaiToXdai (amount : Z)
| XdaiToDai (amount : Z)
| DaiToDest (amount_of_dai dest_address : Z)
| NoOp.

Record TokenBridgeState := {
  withdraw_in_progress : bool;
  withdraw_details : option Withdraw;
  detailed_state : DetailedBridgeState;
}.
Definition TokenBridgeState_default : TokenBridgeState := {|
  withdraw_in_progress := false; withdraw_details := None; detailed_state := NoOp |}.

Record BridgeStatus := {
  bs_withdraw_chain : SystemChain;
  bs_state : DetailedBridgeState;
}.

(** The settings the bridge reads. *)
Record BridgeSettings := {
  bset_system_chain : SystemChain;
  bset_withdraw_chain : SystemChain;
  bset_bridge_enabled : bool;
  bset_bridge_addresses : TokenBridgeAddresses;
  bset_eth_address : option Z;
  bset_eth_private_key : option Z;
}.

(** What is outside: the settings, the clients of the chains and the random
    number of the tick. *)
Record BridgeEnv := {
  benv_settings : BridgeSettings;
  benv_connect : string -> ChainClient;
  benv_random : Z;
}.

Inductive BridgeError := WithdrawInProgress | NotOnXdai.

(** The shared static and what was handed to the chains, newest first. *)
Record BridgeWorld := {
  bw_state : TokenBridgeState;
  bw_sent : list ChainRequest;
}.
Definition bw_init : BridgeWorld := {| bw_state := TokenBridgeState_default; bw_sent := [] |}.

Definition set_in_progress (b : bool) (s : TokenBridgeState) : TokenBridgeState := {|
  withdraw_in_progress := b; withdraw_details := withdraw_details s; detailed_state := detailed_state s |}.
Definition set_withdraw_details (d : option Withdraw) (s : TokenBridgeState) : TokenBridgeState := {|
  withdraw_in_progress := withdraw_in_progress s; withdraw_details := d; detailed_state := detailed_state s |}.
Definition set_detailed_state (d : DetailedBridgeState) (s : TokenBridgeState) : TokenBridgeState := {|
  withdraw_in_progress := withdraw_in_progress s; withdraw_details := withdraw_details s; detailed_state := d |}.

Module TokenBridge.
Import RegistrationDb AutoBridge.

Definition WEI_PER_ETH : Z := 1000000000000000000.
Definition BLOCKS : Z := 720.

(** A [u64] times [10^18] stays below [2^128], so the product is exact. *)
Definition eth_to_wei (eth : Z) : Z := eth * WEI_PER_ETH.

(** A call of AutoBridge.v inside the world of the bridge. *)
Definition on_chain {E A} (m : M (list ChainRequest) E A) : M BridgeWorld E A := fun w =>
  match m (bw_sent w) with
  | Done l a => Done {| bw_state := bw_state w; bw_sent := l |} a
  | Fail l e => Fail {| bw_state := bw_state w; bw_sent := l |} e
  | Panic => Panic
  end.
(** The error of [m] as a value, its state kept. *)
Definition caught {S E F A} (m : M S E A) : M S F (E + A) := fun s =>
  match m s with Done s' a => Done s' (inr a) | Fail s' e => Done s' (inl e) | Panic => Panic end.

Section bridge.
Context `{C : Clarity} `{CB : !ClarityBytes C} `{K : Web30Constants} `{N : Num256} `{P : Profile}.

Definition get_bridge_state {E} : M BridgeWorld E TokenBridgeState := fun w => Done w (bw_state w).
Definition set_bridge_state {E} (s : TokenBridgeState) : M BridgeWorld E unit :=
  modify (fun w => {| bw_state := s; bw_sent := bw_sent w |}).
Definition detailed_state_change {E} (msg : DetailedBridgeState) : M BridgeWorld E unit :=
  modify (fun w => {| bw_state := set_detailed_state msg (bw_state w); bw_sent := bw_sent w |}).

Definition setup_withdraw (msg : Withdraw) : M BridgeWorld BridgeError unit :=
  let! writer := get_bridge_state in
  if withdraw_in_progress writer then throw WithdrawInProgress
  else set_bridge_state (set_withdraw_details (Some {| wd_to := wd_to msg; wd_amount := wd_amount msg |})
                           (set_in_progress true writer)).

(** The two [unwrap]s of the settings are panics. *)
Definition token_bridge_core_from_settings {E} (e : BridgeEnv) : M BridgeWorld E AutoBridge.TokenBridge :=
  let payment_settings := benv_settings e in
  let addresses := bset_bridge_addresses payment_settings in
  let! eth_address := unwrap (bset_eth_address payment_settings) in
  let! eth_private_key := unwrap (bset_eth_private_key payment_settings) in
  ret (TokenBridge_new (benv_connect e) addresses eth_address eth_private_key
         (eth_full_node_url addresses) (xdai_full_node_url addresses)).

Definition withdraw (e : BridgeEnv) (msg : Withdraw) : M BridgeWorld BridgeError unit :=
  let! token_bridge := token_bridge_core_from_settings e in
  let to := wd_to msg in
  let amount := wd_amount msg in
  match bset_system_chain (benv_settings e) with
  | Xdai =>
      let! writer := get_bridge_state in
      if negb (withdraw_in_progress writer) then
        let writer := set_in_progress true writer in
        let! _ := set_bridge_state writer in
        let! _res := caught (on_chain (encode_relaytokens token_bridge to amount)) in
        let! _ := detailed_state_change (XdaiToDai amount) in
        let writer := set_in_progress false writer in
        set_bridge_state writer
      else throw WithdrawInProgress
  | _ => throw NotOnXdai
  end.

Definition get_bridge_status (e : BridgeEnv) (w : BridgeWorld) : BridgeStatus := {|
  bs_withdraw_chain := bset_withdraw_chain (benv_settings e);
  bs_state := detailed_state (bw_state w) |}.

(** * xdai_bridge.rs *)

(** Multiply by [10^12], and take a fortieth off. *)
Definition get_min_amount_out (input : Z) : option Z :=
  input ← u_mul input 1000000000000;
  fee ← u_div input 40;
  u_sub input fee.

(** [some_wei] is the random number. *)
Definition transfer_dai (bridge : AutoBridge.TokenBridge) (some_wei dai_balance : Z)
    : M BridgeWorld TokenBridgeError unit :=
  let! _ := detailed_state_change (DaiToXdai dai_balance) in
  let! amount := unwrap (u_sub dai_balance some_wei) in
  let! _ := on_chain (dai_to_xdai_bridge bridge amount) in
  ret tt.

(** The body of the loop over the events; a [continue] is [ret tt]. *)
Definition unlock_event (bridge : AutoBridge.TokenBridge) (event : WithdrawEvent)
    : M BridgeWorld TokenBridgeError unit :=
  let txid := we_txid event in
  let amount := we_amount event in
  let! withdraw_info := on_chain (get_relay_message_hash (own_address bridge) (xdai_web3 bridge)
                                    (helper_on_xdai bridge) (we_receiver event) txid amount) in
  let! res := caught (on_chain (check_relayed_message (we_txid event) (eth_web3 bridge)
                                  (own_address bridge) (xdai_bridge_on_eth bridge))) in
  match res with
  | inl _ => ret tt
  | inr true => ret tt
  | inr false =>
      let! _res := on_chain (submit_signatures_to_unlock_funds bridge withdraw_info) in
      detailed_state_change (DaiToDest amount (we_receiver event))
  end.

Fixpoint unlock_events (bridge : AutoBridge.TokenBridge) (events : list WithdrawEvent)
    : M BridgeWorld TokenBridgeError unit :=
  match events with
  | [] => ret tt
  | event :: events => let! _ := unlock_event bridge event in unlock_events bridge events
  end.

Definition simulated_withdrawal_on_eth (bridge : AutoBridge.TokenBridge) : M BridgeWorld TokenBridgeError unit :=
  let! events := on_chain (map_err TBWeb3Error
                   (check_withdrawals BLOCKS (xdai_bridge_on_xdai bridge) (xdai_web3 bridge)
                      [own_address bridge] None)) in
  unlock_events bridge events.

(** Returns true if a withdrawal was taken off the static. *)
Definition process_withdraws {E} (e : BridgeEnv) (bridge : AutoBridge.TokenBridge) : M BridgeWorld E bool :=
  let! writer := get_bridge_state in
  if withdraw_in_progress writer then
    match withdraw_details writer with
    | None =>
        let! _ := set_bridge_state (set_in_progress false writer) in ret false
    | Some withdraw_details =>
        let! _ := caught (withdraw e withdraw_details) in
        let! _ := set_bridge_state (set_withdraw_details None (set_in_progress false writer)) in
        ret true
    end
  else
    let! _ := caught (simulated_withdrawal_on_eth bridge) in
    ret false.

(** The token that is swapped in this iteration, and how much of it. *)
Definition token_to_swap (our_usdc_balance our_usdt_balance : Z) : option (Z * Z) :=
  if MINIMUM_USDC_TO_CONVERT <=? our_usdc_balance then Some (USDC_CONTRACT_ADDRESS, our_usdc_balance)
  else if MINIMUM_USDC_TO_CONVERT <=? our_usdt_balance then Some (get_usdt_address, our_usdt_balance)
  else None.

(** The swap is a request; what uniswap answers is only logged. *)
Definition swap_for_dai {E} (token token_amount : Z) : M BridgeWorld E unit :=
  let! min_out := unwrap (get_min_amount_out token_amount) in
  let! _ := modify (fun w => {| bw_state := bw_state w;
                bw_sent := SwapUniswapV3 token DAI_CONTRACT_ADDRESS 100 token_amount min_out :: bw_sent w |}) in
  detailed_state_change Swap.

Definition xdai_bridge {E} (e : BridgeEnv) (bridge : AutoBridge.TokenBridge) : M BridgeWorld E unit :=
  match get_dai_balance bridge, get_usdc_balance bridge, get_usdt_balance bridge with
  | inr our_dai_balance, inr our_usdc_balance, inr our_usdt_balance =>
      let! processed := process_withdraws e bridge in
      if (processed : bool) then ret tt else
      let! _ := match token_to_swap our_usdc_balance our_usdt_balance with
                | Some (token, token_amount) => swap_for_dai token token_amount
                | None => ret tt
                end in
      if MINIMUM_DAI_TO_SEND <=? our_dai_balance then
        let! _res := caught (transfer_dai bridge (benv_random e) our_dai_balance) in
        ret tt
      else detailed_state_change NoOp
  | _, _, _ => ret tt
  end.

Definition tick_token_bridge {E} (e : BridgeEnv) : M BridgeWorld E unit :=
  let payment_settings := benv_settings e in
  if negb (bset_bridge_enabled payment_settings) then ret tt else
  let! core := token_bridge_core_from_settings e in
  match bset_system_chain payment_settings with
  | Xdai => xdai_bridge e core
  | AltheaL1 => ret tt
  | Ethereum => ret tt
  | Sepolia => ret tt
  end.

(** Dead code of the module, kept for simulations. *)
Definition simulate_signature_submission (bridge : AutoBridge.TokenBridge) (data : HelperWithdrawInfo)
    : option (Web3Error + byte_list) :=
  payload ← get_payload_for_funds_unlock data;
  Some (cl_simulate (eth_web3 bridge) (own_address bridge) (xdai_bridge_on_eth bridge) payload).

(** * The endpoints *)

Inductive ResponseBody :=
| NoBody
| SuccessfulWithdraw (amount dest : Z)
| WithdrawFailed (e : Web3Error)
| ViewEndpoints
| BridgeFailure (e : BridgeError)
| WithdrawImpossible (system_chain withdraw_chain : SystemChain).
Record HttpResponse := { status_code : Z; response_body : ResponseBody }.
Definition finish (code : Z) : HttpResponse := {| status_code := code; response_body := NoBody |}.
Definition json (code : Z) (b : ResponseBody) : HttpResponse := {| status_code := code; response_body := b |}.

(** What the handler reads: the settings, the balance and the gas price of the
    oracle's chain, and the client of the full node. *)
Record WalletEnv := {
  wal_env : BridgeEnv;
  wal_balance : option Z;
  wal_gas_price : Web3Error + Z;
  wal_node : ChainClient;
}.

Definition eth_compatible_withdraw (e : WalletEnv) (dest amount : Z) : M BridgeWorld BridgeError HttpResponse :=
  let! key := unwrap (bset_eth_private_key (benv_settings (wal_env e))) in
  let chain := match bset_system_chain (benv_settings (wal_env e)) with Xdai => OnXdai | _ => OnEth end in
  let! res := caught (on_chain (prepare_and_send chain (wal_node e) dest [] amount key)) in
  match res with
  | inr _ => ret (json 200 (SuccessfulWithdraw amount dest))
  | inl err => ret (json 500 (WithdrawFailed err))
  end.

Definition xdai_to_eth_withdraw (address amount : Z) : M BridgeWorld BridgeError HttpResponse :=
  let! r := caught (setup_withdraw {| wd_to := address; wd_amount := amount |}) in
  match r with
  | inr _ => ret (json 200 ViewEndpoints)
  | inl err => ret (json 500 (BridgeFailure err))
  end.

(** The cost reserved for the transaction. *)
Definition withdraw_cost (system_chain withdraw_chain : SystemChain) (gas_price : Z) : option Z :=
  match system_chain, withdraw_chain with
  | Xdai, Ethereum => u_mul 10000000000 80000
  | _, _ => u_mul gas_price 21000
  end.

Definition withdraw_handler (e : WalletEnv) (address : Z) (amount : option Z) : M BridgeWorld BridgeError HttpResponse :=
  let system_chain := bset_system_chain (benv_settings (wal_env e)) in
  let withdraw_chain := bset_withdraw_chain (benv_settings (wal_env e)) in
  let balance := wal_balance e in
  match wal_gas_price e with
  | inl _ => ret (finish 500)
  | inr gas_price =>
      match (match amount with Some amount => Some amount | None => balance end) with
      | None => ret (finish 400)
      | Some amount =>
          let! tx_cost := unwrap (withdraw_cost system_chain withdraw_chain gas_price) in
          let! amount := match balance with
                         | Some value =>
                             let! total := unwrap (u_add amount tx_cost) in
                             if value <=? total then unwrap (u_sub value tx_cost) else ret amount
                         | None => ret amount
                         end in
          match system_chain, withdraw_chain with
          | Ethereum, Ethereum => eth_compatible_withdraw e address amount
          | Sepolia, Sepolia => eth_compatible_withdraw e address amount
          | Xdai, Xdai => eth_compatible_withdraw e address amount
          | Xdai, Ethereum => xdai_to_eth_withdraw address amount
          | _, _ => ret (json 500 (WithdrawImpossible system_chain withdraw_chain))
          end
      end
  end.

Definition withdraw_endpoint (e : WalletEnv) (address amount : Z) := withdraw_handler e address (Some amount).
Definition withdraw_all (e : WalletEnv) (address : Z) := withdraw_handler e address None.

End bridge.

End TokenBridge.
