(* ===== verification/TokenBridgeSpec.v ===== *)
(** What the token bridge does (AutoBridge.v, TokenBridge.v): which requests
    reach the chains, what becomes of a withdrawal, and what an iteration of the
    conveyor belt moves. *)
From S2P Require Import Prelude Types Text PeerMessage Forwarding RegistrationDb AutoBridge TokenBridge.
Import RegistrationDb AutoBridge TokenBridge.

(** * Calls that move the state along a preorder *)

Definition moves {S E A} (R : S -> S -> Prop) (m : M S E A) : Prop :=
  forall s s', outcome_state (m s) = Some s' -> R s s'.

Section moves.
Context {S E : Type} (R : S -> S -> Prop) `{!PreOrder R}.

Lemma moves_bind {A B} (m : M S E A) (k : A -> M S E B) :
  moves R m -> (forall a, moves R (k a)) -> moves R (bind m k).
Proof.
  intros Hm Hk s s'. specialize (Hm s). unfold bind. destruct (m s) as [s1 a|s1 e|]; cbn; [|by auto..].
  intros H. transitivity s1; [by apply Hm|by eapply Hk].
Qed.
Lemma moves_ret {A} (a : A) : moves R (ret (E := E) a).
Proof. intros s s' [= ->]. reflexivity. Qed.
Lemma moves_throw {A} (e : E) : moves R (throw (A := A) e).
Proof. intros s s' [= ->]. reflexivity. Qed.
Lemma moves_panic {A} : moves R (panic (E := E) (A := A)).
Proof. intros s s'. done. Qed.
Lemma moves_unwrap {A} (o : option A) : moves R (unwrap (E := E) o).
Proof. intros s s'. destruct o; [intros [= ->]; reflexivity|done]. Qed.
Lemma moves_ok_or {A} (o : option A) (e : E) : moves R (ok_or o e).
Proof. intros s s'. destruct o; intros [= ->]; reflexivity. Qed.
Lemma moves_try_sum {A} (r : E + A) : moves R (try_sum r).
Proof. intros s s'. destruct r; intros [= ->]; reflexivity. Qed.
Lemma moves_try_opt (r : option E) : moves R (try_opt r).
Proof. intros s s'. destruct r; intros [= ->]; reflexivity. Qed.
Lemma moves_modify (f : S -> S) : (forall s, R s (f s)) -> moves R (modify (E := E) f).
Proof. intros H s s' [= <-]. apply H. Qed.
Lemma moves_caught {F A} (m : M S E A) : moves R m -> moves R (caught (F := F) m).
Proof. intros Hm s s'. specialize (Hm s s'). unfold caught. by destruct (m s). Qed.
Lemma moves_map_err {F A} (f : E -> F) (m : M S E A) : moves R m -> moves R (map_err f m).
Proof. intros Hm s s'. specialize (Hm s s'). unfold map_err. by destruct (m s). Qed.
End moves.

(** The requests that one call adds all satisfy [Q]. *)
Definition adds (Q : ChainRequest -> Prop) (l l' : list ChainRequest) : Prop :=
  exists new, l' = new ++ l /\ Forall Q new.
#[export] Instance adds_preorder Q : PreOrder (adds Q).
Proof.
  split.
  - intros l. exists []. done.
  - intros l1 l2 l3 (n1 & -> & H1) (n2 & -> & H2). exists (n2 ++ n1). rewrite <- app_assoc. by rewrite Forall_app.
Qed.
Definition adds_sent (Q : ChainRequest -> Prop) (w w' : BridgeWorld) : Prop := adds Q (bw_sent w) (bw_sent w').
#[export] Instance adds_sent_preorder Q : PreOrder (adds_sent Q).
Proof.
  split; [intros w; unfold adds_sent; reflexivity|]. intros w1 w2 w3. unfold adds_sent. apply transitivity.
Qed.
(** Nothing is handed to a chain. *)
Definition silent : ChainRequest -> Prop := fun _ => False.

Lemma adds_weaken Q Q' l l' : (forall r, Q r -> Q' r) -> adds Q l l' -> adds Q' l l'.
Proof. intros H (n & -> & Hn). exists n. split; [done|]. eapply Forall_impl; [exact Hn|done]. Qed.
Lemma adds_silent l l' : adds silent l l' -> l' = l.
Proof. intros (n & -> & Hn). destruct n as [|r n]; [done|]. by apply Forall_cons in Hn as [? _]. Qed.
Lemma moves_weaken {E A} Q Q' (m : M _ E A) : (forall r, Q r -> Q' r) -> moves (adds Q) m -> moves (adds Q') m.
Proof. intros H Hm s s' Hs. eapply adds_weaken; [exact H|]. by apply Hm. Qed.

Lemma moves_on_chain {E A} Q (m : M (list ChainRequest) E A) : moves (adds Q) m -> moves (adds_sent Q) (on_chain m).
Proof.
  intros Hm w w'. specialize (Hm (bw_sent w)). unfold on_chain, adds_sent.
  destruct (m (bw_sent w)); cbn in *; [intros [= <-]; by apply Hm..|done].
Qed.

Create HintDb bridge.
#[export] Hint Resolve moves_ret moves_throw moves_panic moves_unwrap moves_ok_or moves_try_sum moves_try_opt : bridge.
#[export] Hint Resolve adds_preorder adds_sent_preorder : typeclass_instances.
Ltac moves_tac :=
  repeat first [ solve [eauto with bridge typeclass_instances]
               | match goal with
                 | |- moves _ (bind _ _) => apply moves_bind; [typeclasses eauto| |intros ?]
                 | |- moves _ (map_err _ _) => apply moves_map_err
                 | |- moves _ (caught _) => apply moves_caught
                 | |- moves _ (on_chain _) => apply moves_on_chain
                 end
               | progress cbv zeta
               | case_match ].

Section spec.
Context `{C : Clarity} `{CB : !ClarityBytes C} `{K : Web30Constants} `{N : Num256} `{P : Profile}.
Implicit Types (b : AutoBridge.TokenBridge) (w : BridgeWorld).

(** * Which requests a call makes *)

Lemma parse_withdraw_event_silent log cl : moves (adds silent) (parse_withdraw_event log cl).
Proof. unfold parse_withdraw_event, parse_receiver_data, parse_sender_data. moves_tac. Qed.
Lemma collect_silent addrs cl logs acc : moves (adds silent) (collect addrs cl logs acc).
Proof.
  revert acc. induction logs as [|l logs IH]; intros acc; cbn [collect]; [moves_tac|].
  apply moves_bind; [typeclasses eauto|apply parse_withdraw_event_silent|done].
Qed.
Lemma scan_loop_silent fuel n c cl addrs rt latest left_ iter acc :
  moves (adds silent) (scan_loop fuel n c cl addrs rt latest left_ iter acc).
Proof.
  revert left_ iter acc. induction fuel as [|fuel IH]; intros left_ iter acc; cbn [scan_loop]; [moves_tac|].
  moves_tac. apply collect_silent.
Qed.
Lemma check_withdrawals_silent n c cl addrs rt : moves (adds silent) (check_withdrawals n c cl addrs rt).
Proof. unfold check_withdrawals. moves_tac. apply scan_loop_silent. Qed.
Lemma get_relay_message_hash_silent a cl h d t x : moves (adds silent) (get_relay_message_hash a cl h d t x).
Proof. unfold get_relay_message_hash. moves_tac. Qed.
Lemma check_relayed_message_silent t cl a c : moves (adds silent) (check_relayed_message t cl a c).
Proof. unfold check_relayed_message. moves_tac. Qed.

Lemma prepare_and_send_adds (Q : ChainRequest -> Prop) chain cl to payload value key :
  Q (Transaction chain to payload value) -> moves (adds Q) (prepare_and_send chain cl to payload value key).
Proof.
  intros HQ. unfold prepare_and_send. moves_tac. apply moves_modify. intros l. by exists [Transaction chain to payload value]; eauto.
Qed.

(** * Withdrawals

    [transfer_dai] and the unlocking of funds send on Ethereum; the only call
    that sends on xDai is [encode_relaytokens]. *)
Definition on_ethereum (r : ChainRequest) : Prop :=
  match r with Transaction OnXdai _ _ _ => False | _ => True end.

Lemma dai_to_xdai_bridge_adds b x : moves (adds on_ethereum) (dai_to_xdai_bridge b x).
Proof. unfold dai_to_xdai_bridge. moves_tac. by apply prepare_and_send_adds. Qed.
Lemma submit_signatures_adds b d : moves (adds on_ethereum) (submit_signatures_to_unlock_funds b d).
Proof. unfold submit_signatures_to_unlock_funds. moves_tac. by apply prepare_and_send_adds. Qed.
Lemma silent_on_ethereum {E A} (m : M _ E A) : moves (adds silent) m -> moves (adds on_ethereum) m.
Proof. apply moves_weaken. by intros r []. Qed.

Lemma set_bridge_state_adds {E} s Q : moves (adds_sent Q) (set_bridge_state (E := E) s).
Proof. unfold set_bridge_state. apply moves_modify. intros w. unfold adds_sent. cbn. reflexivity. Qed.
Lemma detailed_state_change_adds {E} d Q : moves (adds_sent Q) (detailed_state_change (E := E) d).
Proof. unfold detailed_state_change. apply moves_modify. intros w. unfold adds_sent. cbn. reflexivity. Qed.
Lemma get_bridge_state_adds {E} Q : moves (adds_sent Q) (get_bridge_state (E := E)).
Proof. intros w w' [= ->]. reflexivity. Qed.
Lemma core_adds {E} e Q : moves (adds_sent Q) (token_bridge_core_from_settings (E := E) e).
Proof. unfold token_bridge_core_from_settings. moves_tac. Qed.
#[local] Hint Resolve set_bridge_state_adds detailed_state_change_adds get_bridge_state_adds core_adds : bridge.
#[local] Hint Resolve silent_on_ethereum check_withdrawals_silent get_relay_message_hash_silent
  check_relayed_message_silent submit_signatures_adds dai_to_xdai_bridge_adds : bridge.

Lemma unlock_event_adds b ev : moves (adds_sent on_ethereum) (unlock_event b ev).
Proof. unfold unlock_event. moves_tac. Qed.
Lemma unlock_events_adds b evs : moves (adds_sent on_ethereum) (unlock_events b evs).
Proof.
  induction evs as [|ev evs IH]; cbn [unlock_events]; [moves_tac|].
  apply moves_bind; [typeclasses eauto|apply unlock_event_adds|done].
Qed.
Lemma simulated_withdrawal_adds b : moves (adds_sent on_ethereum) (simulated_withdrawal_on_eth b).
Proof. unfold simulated_withdrawal_on_eth. moves_tac. apply unlock_events_adds. Qed.
Lemma swap_for_dai_adds {E} t x : moves (adds_sent on_ethereum) (swap_for_dai (E := E) t x).
Proof.
  unfold swap_for_dai. moves_tac. apply moves_modify. intros w. unfold adds_sent. cbn.
  eexists [_]. split; [done|]. by constructor.
Qed.
Lemma transfer_dai_adds b x y : moves (adds_sent on_ethereum) (transfer_dai b x y).
Proof. unfold transfer_dai. moves_tac. Qed.

(** While a withdrawal is in progress [withdraw] refuses, and touches nothing. *)
Lemma withdraw_locked e d w w' :
  withdraw_in_progress (bw_state w) = true -> outcome_state (withdraw e d w) = Some w' -> w' = w.
Proof.
  intros Hp. unfold withdraw, token_bridge_core_from_settings.
  destruct (bset_eth_address _), (bset_eth_private_key _); try done.
  unfold_monad. destruct (bset_system_chain _); cbn; try congruence. rewrite Hp. cbn. congruence.
Qed.
Lemma process_withdraws_adds {E} e b : moves (adds_sent on_ethereum) (process_withdraws (E := E) e b).
Proof.
  intros w w'. unfold process_withdraws, bind, get_bridge_state.
  destruct (withdraw_in_progress (bw_state w)) eqn:Hp; [destruct (withdraw_details (bw_state w)) as [d|]|].
  - pose proof (withdraw_locked e d w) as Hl. unfold caught.
    destruct (withdraw e d w) as [w1 []|w1 er|]; cbn in *; [..|done];
      rewrite (Hl w1 Hp eq_refl); intros [= <-]; unfold adds_sent; reflexivity.
  - intros [= <-]. unfold adds_sent. reflexivity.
  - pose proof (simulated_withdrawal_adds b w) as Hs. unfold caught.
    destruct (simulated_withdrawal_on_eth b w); cbn in *; [intros [= <-]; by apply Hs..|done].
Qed.
Lemma xdai_bridge_adds {E} e b : moves (adds_sent on_ethereum) (xdai_bridge (E := E) e b).
Proof.
  unfold xdai_bridge. moves_tac; [apply process_withdraws_adds|apply swap_for_dai_adds|apply transfer_dai_adds].
Qed.
Lemma tick_adds {E} e : moves (adds_sent on_ethereum) (tick_token_bridge (E := E) e).
Proof. unfold tick_token_bridge. moves_tac. apply xdai_bridge_adds. Qed.

(** The runs of a router whose money is on xDai and is withdrawn to Ethereum:
    requests of the user and ticks of the bridge, in any order. *)
Inductive bridge_step : BridgeWorld -> BridgeWorld -> Prop :=
| step_request e address amount w w' reply :
    bset_system_chain (benv_settings (wal_env e)) = Xdai ->
    bset_withdraw_chain (benv_settings (wal_env e)) = Ethereum ->
    withdraw_handler e address amount w = Done w' reply -> bridge_step w w'
| step_tick e w w' :
    tick_token_bridge (E := BridgeError) e w = Done w' tt -> bridge_step w w'.
Definition bridge_reachable : BridgeWorld -> Prop := rtc bridge_step bw_init.

Lemma setup_withdraw_adds d Q : moves (adds_sent Q) (setup_withdraw d).
Proof. unfold setup_withdraw. moves_tac. Qed.
Lemma handler_adds e address amount :
  bset_system_chain (benv_settings (wal_env e)) = Xdai ->
  bset_withdraw_chain (benv_settings (wal_env e)) = Ethereum ->
  moves (adds_sent silent) (withdraw_handler e address amount).
Proof.
  intros Hs Hw. unfold withdraw_handler. rewrite Hs, Hw. unfold xdai_to_eth_withdraw.
  moves_tac; apply setup_withdraw_adds.
Qed.

Lemma reachable_on_ethereum w : bridge_reachable w -> Forall on_ethereum (bw_sent w).
Proof.
  unfold bridge_reachable. intros Hr.
  assert (H : adds_sent on_ethereum bw_init w).
  { induction Hr as [w|w1 w2 w3 Hstep _ IH]; [reflexivity|]. transitivity w2; [|exact IH].
    destruct Hstep as [e address amount w w' reply Hs Hw H|e w w' H].
    - eapply (adds_weaken silent); [by intros r []|]. apply (handler_adds e address amount Hs Hw). by rewrite H.
    - apply (tick_adds (E := BridgeError) e). by rewrite H. }
  destruct H as (new & -> & Hn). cbn. by rewrite app_nil_r.
Qed.

(** The three balances an iteration starts with. *)
Definition balances b (dai usdc usdt : Z) : Prop :=
  get_dai_balance b = inr dai /\ get_usdc_balance b = inr usdc /\ get_usdt_balance b = inr usdt.

(** The environment in which an iteration runs. *)
Definition bridge_on e b : Prop :=
  bset_bridge_enabled (benv_settings e) = true /\ bset_system_chain (benv_settings e) = Xdai
  /\ exists own key, bset_eth_address (benv_settings e) = Some own /\ bset_eth_private_key (benv_settings e) = Some key
     /\ b = TokenBridge_new (benv_connect e) (bset_bridge_addresses (benv_settings e)) own key
              (eth_full_node_url (bset_bridge_addresses (benv_settings e)))
              (xdai_full_node_url (bset_bridge_addresses (benv_settings e))).

Lemma tick_on {E} e b w : bridge_on e b -> tick_token_bridge (E := E) e w = xdai_bridge e b w.
Proof.
  intros (Hen & Hch & own & key & Hown & Hkey & ->). unfold tick_token_bridge, token_bridge_core_from_settings.
  rewrite Hen, Hch, Hown, Hkey. done.
Qed.

(** An accepted withdrawal is dropped: the request is in the state, the next tick
    that reads the balances takes it out and hands nothing to a chain. *)
Theorem accepted_withdrawal_dropped e b dai usdc usdt d w w1 :
  bridge_on e b -> balances b dai usdc usdt -> setup_withdraw d w = Done w1 tt ->
  withdraw_details (bw_state w1) = Some d
  /\ tick_token_bridge (E := BridgeError) e w1
     = Done {| bw_state := {| withdraw_in_progress := false; withdraw_details := None;
                              detailed_state := detailed_state (bw_state w) |};
               bw_sent := bw_sent w |} tt.
Proof.
  intros Hon (Hd & Hc & Ht). unfold setup_withdraw, bind, get_bridge_state.
  destruct (withdraw_in_progress (bw_state w)); [done|]. intros [= <-]. destruct d as [to amount].
  split; [done|]. rewrite (tick_on e b) by done. unfold xdai_bridge. rewrite Hd, Hc, Ht.
  destruct Hon as (_ & Hch & own & key & Hown & Hkey & _).
  unfold process_withdraws, bind, get_bridge_state, caught, withdraw, token_bridge_core_from_settings, unwrap, ret.
  cbn. by rewrite Hown, Hkey, Hch.
Qed.

(** * The conveyor belt *)

Context `{NL : !Num256Laws N}.

(** * Withdrawals from xDai to Ethereum *)

(** The cost the handler keeps back, and the amount it stores: what was asked for,
    or what the balance leaves after the cost. *)
Definition bridge_cost : Z := 10000000000 * 80000.
Definition stored_amount (balance : option Z) (amount : Z) : Z :=
  match balance with
  | Some value => if value <=? amount + bridge_cost then value - bridge_cost else amount
  | None => amount
  end.
(** A request that needs no arithmetic out of range. *)
Definition request_fits (balance : option Z) (amount : Z) : Prop :=
  0 <= amount /\ amount + bridge_cost <= U256_MAX
  /\ match balance with Some value => bridge_cost <= value <= U256_MAX | None => True end.

Lemma request_stored e address amount gas_price w :
  bset_system_chain (benv_settings (wal_env e)) = Xdai -> bset_withdraw_chain (benv_settings (wal_env e)) = Ethereum ->
  wal_gas_price e = inr gas_price -> request_fits (wal_balance e) amount -> withdraw_in_progress (bw_state w) = false ->
  exists w', withdraw_handler e address (Some amount) w = Done w' (json 200 ViewEndpoints)
    /\ withdraw_details (bw_state w') = Some {| wd_to := address; wd_amount := stored_amount (wal_balance e) amount |}
    /\ bw_sent w' = bw_sent w.
Proof.
  intros Hs Hw Hg (H0 & Hmax & Hbal) Hp. unfold withdraw_handler. rewrite Hs, Hw, Hg. cbn zeta. unfold withdraw_cost.
  rewrite u_mul_exact by lia256. change (10000000000 * 80000) with bridge_cost.
  assert (Hamt : (match wal_balance e with
                  | Some value => let! total := unwrap (u_add amount bridge_cost) in
                                  if value <=? total then unwrap (u_sub value bridge_cost) else ret amount
                  | None => ret amount
                  end : M BridgeWorld BridgeError Z) w = Done w (stored_amount (wal_balance e) amount)).
  { unfold bridge_cost in *. destruct (wal_balance e) as [value|]; [|done]. unfold bind, unwrap, ret.
    rewrite u_add_exact by lia256. unfold stored_amount, bridge_cost.
    destruct (Z.leb_spec value (amount + 10000000000 * 80000)); [|done]. by rewrite u_sub_exact by lia256. }
  unfold bind at 1. cbn [unwrap]. unfold bind at 1. rewrite Hamt.
  unfold xdai_to_eth_withdraw, setup_withdraw, caught, bind, get_bridge_state. rewrite Hp. cbn. eexists. split; [done|]. done.
Qed.

(** C31 Withdrawals of a router whose money is on xDai and whose withdraw chain is
    set to Ethereum: in any run of requests of its user and ticks of its bridge,
    no transaction ever reaches the xDai chain, so none of the withdrawals is
    sent; and yet, whenever no request is waiting, a request with amounts in range
    is stored and answered with 200 and the word to watch its progress. (With the
    withdraw chain set to xDai, the default there, the handler sends the
    transaction itself; that path is not concerned.) *)
Theorem withdrawals_never_sent w :
  bridge_reachable w ->
  Forall on_ethereum (bw_sent w)
  /\ forall e address amount gas_price,
       bset_system_chain (benv_settings (wal_env e)) = Xdai -> bset_withdraw_chain (benv_settings (wal_env e)) = Ethereum ->
       wal_gas_price e = inr gas_price -> request_fits (wal_balance e) amount -> withdraw_in_progress (bw_state w) = false ->
       exists w', withdraw_handler e address (Some amount) w = Done w' (json 200 ViewEndpoints)
         /\ withdraw_details (bw_state w') = Some {| wd_to := address; wd_amount := stored_amount (wal_balance e) amount |}
         /\ bw_sent w' = bw_sent w /\ bridge_reachable w'.
Proof.
  intros Hr. split; [by apply reachable_on_ethereum|]. intros e address amount gas_price Hs Hw Hg Hf Hp.
  destruct (request_stored e address amount gas_price w Hs Hw Hg Hf Hp) as (w' & E & Hd & Hse).
  exists w'. split_and!; [done..|]. eapply rtc_r; [exact Hr|]. by eapply step_request.
Qed.

(** The least DAI accepted for a stable coin with six decimals: 39 parts of 40. *)
Definition min_out (x : Z) : Z := x * 10 ^ 12 - x * 10 ^ 12 / 40.
Lemma get_min_amount_out_exact x : 0 <= x -> x * 10 ^ 12 <= U256_MAX -> get_min_amount_out x = Some (min_out x).
Proof.
  intros Hx Hm. unfold get_min_amount_out. change 1000000000000 with (10 ^ 12).
  rewrite u_mul_exact by lia256. cbn -[Z.pow Z.div]. rewrite u_div_exact by lia256. cbn -[Z.pow Z.div].
  rewrite u_sub_exact; [done|]. pose proof (Z.div_pos (x * 10 ^ 12) 40). pose proof (Z.div_le_upper_bound (x * 10 ^ 12) 40 (x * 10 ^ 12)).
  lia256.
Qed.

(** The swap asks for 97.5% of the face value, rounded up: never less, and less
    than one unit of DAI more. *)
Theorem min_amount_out_bounds x :
  0 <= x -> x * 10 ^ 12 <= U256_MAX ->
  exists out, get_min_amount_out x = Some out
    /\ 39 * (x * 10 ^ 12) <= 40 * out < 39 * (x * 10 ^ 12) + 40.
Proof.
  intros Hx Hm. exists (min_out x). split; [by apply get_min_amount_out_exact|]. unfold min_out.
  pose proof (Z.div_mod (x * 10 ^ 12) 40 ltac:(lia)). pose proof (Z.mod_pos_bound (x * 10 ^ 12) 40 ltac:(lia)). lia.
Qed.

(** What an iteration of the belt asks of Ethereum, newest first: a swap of one
    stable coin, USDC first, and a transfer of the DAI that was there before. *)
Definition belt_swap (usdc usdt : Z) : list ChainRequest :=
  if 15 * 10 ^ 6 <=? usdc then [SwapUniswapV3 USDC_CONTRACT_ADDRESS DAI_CONTRACT_ADDRESS 100 usdc (min_out usdc)]
  else if 15 * 10 ^ 6 <=? usdt then [SwapUniswapV3 get_usdt_address DAI_CONTRACT_ADDRESS 100 usdt (min_out usdt)]
  else [].
Definition belt_transfer b (payload : byte_list) (dai : Z) : list ChainRequest :=
  if 2 * 10 ^ 18 <=? dai then
    match cl_prepare (eth_web3 b) DAI_CONTRACT_ADDRESS payload 0 (eth_privatekey b) with
    | None => [Transaction OnEth DAI_CONTRACT_ADDRESS payload 0]
    | Some _ => []
    end
  else [].
Definition belt_state (dai : Z) : DetailedBridgeState := if 2 * 10 ^ 18 <=? dai then DaiToXdai dai else NoOp.

Lemma swap_exact {E} usdc usdt w :
  0 <= usdc -> usdc * 10 ^ 12 <= U256_MAX -> 0 <= usdt -> usdt * 10 ^ 12 <= U256_MAX ->
  exists d, (match token_to_swap usdc usdt with
   | Some (token, token_amount) => swap_for_dai (E := E) token token_amount
   | None => ret tt
   end) w = Done {| bw_state := set_detailed_state d (bw_state w); bw_sent := belt_swap usdc usdt ++ bw_sent w |} tt.
Proof.
  intros Hc Hcm Ht Htm. unfold token_to_swap, belt_swap. change (15 * 10 ^ 6) with MINIMUM_USDC_TO_CONVERT.
  destruct (MINIMUM_USDC_TO_CONVERT <=? usdc); [|destruct (MINIMUM_USDC_TO_CONVERT <=? usdt)];
    unfold swap_for_dai; try (rewrite get_min_amount_out_exact by done; by exists Swap).
  exists (detailed_state (bw_state w)). by destruct w as [[] ?].
Qed.
Lemma transfer_exact {E} b payload x dai w :
  0 <= x <= U16_MAX -> 2 * 10 ^ 18 <= dai <= U256_MAX ->
  encode_call "transfer(address,uint256)" [token_address (xdai_bridge_on_eth b); token_uint (dai - x)] = inr payload ->
  (let! _ := caught (F := E) (transfer_dai b x dai) in ret tt) w
  = Done {| bw_state := set_detailed_state (DaiToXdai dai) (bw_state w);
            bw_sent := belt_transfer b payload dai ++ bw_sent w |} tt.
Proof.
  intros Hx Hd He. unfold belt_transfer. rewrite (proj2 (Z.leb_le _ _) (proj1 Hd)).
  unfold transfer_dai, caught, on_chain, dai_to_xdai_bridge, map_err, prepare_and_send, detailed_state_change, bind, modify.
  unfold unwrap at 1. unfold U16_MAX in Hx. rewrite u_sub_exact by lia256. cbn. rewrite He. cbn.
  destruct (cl_prepare _ _ _ _ _); cbn; [done|]. destruct (cl_send _ _ _ _); cbn; [done|]. by destruct (cl_wait _ _).
Qed.

(** One iteration without a withdrawal: after the unlocking of funds the belt
    makes exactly the requests above.  The transfer takes the whole balance but
    for the random part, and the swap never starts below the minimum. *)
Theorem conveyor_belt_exact e b dai usdc usdt payload w w1 :
  bridge_on e b -> balances b dai usdc usdt ->
  0 <= dai <= U256_MAX -> 0 <= usdc -> usdc * 10 ^ 12 <= U256_MAX -> 0 <= usdt -> usdt * 10 ^ 12 <= U256_MAX ->
  0 <= benv_random e <= U16_MAX ->
  encode_call "transfer(address,uint256)"
    [token_address (xdai_bridge_on_eth b); token_uint (dai - benv_random e)] = inr payload ->
  withdraw_in_progress (bw_state w) = false ->
  outcome_state (simulated_withdrawal_on_eth b w) = Some w1 ->
  tick_token_bridge (E := BridgeError) e w
  = Done {| bw_state := set_detailed_state (belt_state dai) (bw_state w1);
            bw_sent := belt_transfer b payload dai ++ belt_swap usdc usdt ++ bw_sent w1 |} tt.
Proof.
  intros Hon (Hd & Hc & Ht) Hdr Hcr Hcm Htr Htm Hx He Hp Hsim. rewrite (tick_on e b) by done.
  unfold xdai_bridge. rewrite Hd, Hc, Ht. unfold bind at 1.
  assert (Hpw : process_withdraws (E := BridgeError) e b w = Done w1 false).
  { unfold process_withdraws, bind, get_bridge_state, ret. rewrite Hp. unfold caught.
    destruct (simulated_withdrawal_on_eth b w); cbn in Hsim |- *; congruence. }
  rewrite Hpw. unfold bind at 1.
  destruct (swap_exact (E := BridgeError) usdc usdt w1 Hcr Hcm Htr Htm) as (d & ->).
  unfold belt_state. change MINIMUM_DAI_TO_SEND with (2 * 10 ^ 18). destruct (2 * 10 ^ 18 <=? dai) eqn:Hm.
  - apply Z.leb_le in Hm. rewrite (transfer_exact b payload) by (done || lia). by destruct w1 as [[] ?].
  - unfold belt_transfer. rewrite Hm. by destruct w1 as [[] ?].
Qed.

(** * The withdraw endpoint *)

(** What the handler leaves behind when it asks for [x]: nothing, a transaction
    of [x], or [x] queued for the bridge. *)
Definition asks_for (x address : Z) (w w' : BridgeWorld) : Prop :=
  w' = w
  \/ (exists chain, w' = {| bw_state := bw_state w; bw_sent := Transaction chain address [] x :: bw_sent w |})
  \/ w' = {| bw_state := {| withdraw_in_progress := true;
                            withdraw_details := Some {| wd_to := address; wd_amount := x |};
                            detailed_state := detailed_state (bw_state w) |};
             bw_sent := bw_sent w |}.

Lemma eth_compatible_asks e dest x w w' r :
  eth_compatible_withdraw e dest x w = Done w' r -> asks_for x dest w w'.
Proof.
  unfold eth_compatible_withdraw, asks_for, caught, on_chain, prepare_and_send. unfold_monad.
  destruct (bset_eth_private_key _); [|done]. destruct (cl_prepare _ _ _ _ _); cbn.
  - intros [= <- _]. left. by destruct w.
  - destruct (cl_send _ _ _ _); cbn; intros [= <- _]; right; left; eauto.
Qed.
Lemma xdai_to_eth_asks dest x w w' r : xdai_to_eth_withdraw dest x w = Done w' r -> asks_for x dest w w'.
Proof.
  unfold xdai_to_eth_withdraw, asks_for, caught, setup_withdraw, get_bridge_state. unfold_monad.
  destruct (withdraw_in_progress (bw_state w)); cbn; intros [= <- _]; auto.
Qed.

(** The handler asks for what was requested, or for the balance less the cost of
    the transaction if that is less: with its cost it never exceeds the balance. *)
Theorem withdraw_within_balance e address amount value gas cost a w w' reply :
  wal_balance e = Some value -> wal_gas_price e = inr gas ->
  withdraw_cost (bset_system_chain (benv_settings (wal_env e))) (bset_withdraw_chain (benv_settings (wal_env e))) gas
    = Some cost ->
  0 <= cost <= value -> value <= U256_MAX ->
  a = default value amount -> 0 <= a -> a + cost <= U256_MAX ->
  withdraw_handler e address amount w = Done w' reply ->
  asks_for (Z.min a (value - cost)) address w w'.
Proof.
  intros Hb Hg Hcost Hc Hv Ha Ha0 Hac. unfold withdraw_handler. rewrite Hb, Hg.
  replace (match amount with Some amount => Some amount | None => Some value end) with (Some a) by (by destruct amount; subst).
  cbv zeta beta iota. rewrite Hcost. unfold bind at 1. cbn [unwrap]. unfold bind at 1 2.
  rewrite u_add_exact by lia256. cbn [unwrap].
  assert (Hx : (if value <=? a + cost then unwrap (E := BridgeError) (u_sub value cost) else ret a) w
               = Done w (Z.min a (value - cost))).
  { destruct (Z.leb_spec value (a + cost)).
    - rewrite u_sub_exact by lia256. cbn [unwrap]. f_equal. lia.
    - unfold ret. f_equal. lia. }
  rewrite Hx. destruct (bset_system_chain _), (bset_withdraw_chain _);
    first [apply eth_compatible_asks | apply xdai_to_eth_asks | intros [= <- _]; by left].
Qed.

End spec.
