(* ===== verification/TokenBridgeSearch.v ===== *)
(** The search of the token bridge for withdraw events, and what it reads from
    the helper contract (AutoBridge.v): the rounds of the search and the blocks
    they cover, the message and the signatures cut out of an answer, and the
    events whose funds are unlocked. *)
From S2P Require Import Prelude Types Text PeerMessage Forwarding ForwardingSpec RegistrationDb.
From S2P Require Import RegistrationAbi AutoBridge TokenBridge TokenBridgeSpec.
Import RegistrationDb AutoBridge TokenBridge.

Lemma bind_bind {A B D} (f : A -> list B) (g : B -> list D) (l : list A) :
  (l ≫= f) ≫= g = l ≫= fun x => f x ≫= g.
Proof. induction l as [|x l IH]; [done|]. by rewrite !bind_cons, bind_app, IH. Qed.

Section search.
Context `{C : Clarity} `{CB : !ClarityBytes C} `{K : Web30Constants} `{N : Num256} `{P : Profile}.
Context `{NL : !Num256Laws N} `{CL : !ClarityLaws C}.

(** * The rounds *)

Lemma compute_start_end_exact iter latest n max_iter :
  0 <= iter -> 0 <= max_iter -> max_iter * iter <= n -> n <= U64_MAX -> n <= latest -> latest + max_iter <= U256_MAX ->
  compute_start_end iter latest n max_iter
  = Some (latest - n + max_iter * iter, Z.min latest (latest - n + max_iter * iter + max_iter)).
Proof.
  intros Hi Hm Hin Hn Hl Hb. unfold U64_MAX in Hn. unfold compute_start_end, u64_of. rewrite u_sub_exact by lia256. cbn [mbind option_bind].
  rewrite native_exact by (unfold U64_MAX; nia). cbn [mbind option_bind].
  rewrite u_add_exact by (apply in_range_spec; nia). cbn [mbind option_bind].
  rewrite u_add_exact by (apply in_range_spec; nia). cbn [mbind option_bind].
  destruct (Z.ltb_spec latest (latest - n + max_iter * iter + max_iter)); repeat f_equal; lia.
Qed.

(** A chain whose answer to a search is the log entries of the blocks asked for,
    in order, each of them a withdraw event that can be read. *)
Context (client : ChainClient) (contract latest : Z) (logs_at : Z -> list Log) (event_of : Log -> WithdrawEvent).
Definition blocks (start end_ : Z) : list Z := seqZ start (end_ - start + 1).
Context (Hlatest : cl_block_number client = inr latest).
Context (Hanswers : forall attempt start end_,
  cl_check_for_events client attempt start (Some end_) [contract] [phrase_sig] = inr (blocks start end_ ≫= logs_at)).
Context (Hreads : forall k log sent, log ∈ logs_at k -> parse_withdraw_event log client sent = Done sent (event_of log)).

(** The events of a range of blocks that were sent from one of the addresses. *)
Definition events_in (addrs : list Z) (start end_ : Z) : list WithdrawEvent :=
  blocks start end_ ≫= fun k => logs_at k ≫= fun log => matching addrs (event_of log).
(** Round [i] of a search over the last [n] blocks. *)
Definition round (n : Z) (addrs : list Z) (i : nat) : list WithdrawEvent :=
  events_in addrs (latest - n + MAX_ITER * Z.of_nat i) (Z.min latest (latest - n + MAX_ITER * Z.of_nat i + MAX_ITER)).

Lemma collect_exact addrs logs acc sent :
  (forall log, log ∈ logs -> exists k, log ∈ logs_at k) ->
  collect addrs client logs acc sent = Done sent (acc ++ (logs ≫= fun log => matching addrs (event_of log))).
Proof.
  revert acc. induction logs as [|l logs IH]; intros acc Hl; cbn [collect]; [by rewrite app_nil_r|].
  destruct (Hl l ltac:(by left)) as [k Hk]. unfold bind. rewrite (Hreads k l sent Hk), IH.
  - by rewrite <- app_assoc.
  - intros log Hlog. apply Hl. by right.
Qed.

Lemma scan_round n addrs rt fuel left_ iter acc sent :
  MAX_ITER * Z.of_nat iter <= n -> n <= U64_MAX -> n <= latest -> latest + MAX_ITER <= U256_MAX ->
  scan_loop (S fuel) n contract client addrs rt latest left_ iter acc sent
  = if left_ <? MAX_ITER then Done sent (acc ++ round n addrs iter)
    else scan_loop fuel n contract client addrs rt latest (left_ - MAX_ITER) (S iter) (acc ++ round n addrs iter) sent.
Proof.
  intros Hi Hn Hl Hb. cbn [scan_loop]. unfold bind at 1.
  rewrite compute_start_end_exact by (try done; unfold MAX_ITER in *; lia). cbn [unwrap]. unfold bind at 1.
  assert (Hr : forall ask retries x, (forall i, ask i = inr x) -> retry_events ask 0 retries = inr x)
    by (intros ask [|r] x Hx; cbn; by rewrite Hx).
  erewrite Hr by (intros i; apply Hanswers). cbn [try_sum]. unfold ret at 1, bind at 1. rewrite collect_exact.
  2: { intros log (k & Hlog & _)%list_elem_of_bind. eauto. }
  replace ((blocks _ _ ≫= logs_at) ≫= _) with (round n addrs iter) by (unfold round, events_in; by rewrite bind_bind).
  by destruct (left_ <? MAX_ITER).
Qed.
Lemma scan_loop_exact n addrs rt k left_ iter acc sent :
  0 <= left_ -> left_ = n - MAX_ITER * Z.of_nat iter -> k = Z.to_nat (left_ / MAX_ITER) ->
  n <= U64_MAX -> n <= latest -> latest + MAX_ITER <= U256_MAX ->
  scan_loop (S k) n contract client addrs rt latest left_ iter acc sent
  = Done sent (acc ++ (seq iter (S k) ≫= round n addrs)).
Proof.
  revert left_ iter acc. induction k as [|k IH]; intros left_ iter acc Hl Hleft Hk Hn Hla Hb;
    rewrite scan_round by (try done; lia); unfold MAX_ITER in *.
  - pose proof (Z.mul_succ_div_gt left_ 500 ltac:(lia)). pose proof (Z.div_pos left_ 500 ltac:(lia) ltac:(lia)). rewrite (proj2 (Z.ltb_lt _ _)) by lia.
    cbn [seq mbind list_bind]. by rewrite app_nil_r.
  - assert (Hk' : left_ / 500 = Z.of_nat (S k)) by lia. pose proof (Z.mul_div_le left_ 500).
    rewrite (proj2 (Z.ltb_ge _ _)) by lia. rewrite IH; try done; try lia.
    + change (seq iter (S (S k))) with (iter :: seq (S iter) (S k)). rewrite bind_cons. by rewrite app_assoc.
    + replace (left_ - 500) with (left_ + (-1) * 500) by lia. rewrite Z.div_add by lia. lia.
Qed.

(** The search over the last [n] blocks returns, and finds in [n / 500 + 1]
    rounds exactly the events of those blocks from the addresses. *)
Lemma check_withdrawals_exact n addrs rt sent :
  0 <= n <= U64_MAX -> n <= latest -> latest + MAX_ITER <= U256_MAX ->
  check_withdrawals n contract client addrs rt sent
  = Done sent (seq 0 (S (Z.to_nat (n / MAX_ITER))) ≫= round n addrs).
Proof.
  intros Hn Hl Hb. unfold check_withdrawals, bind. rewrite Hlatest. cbn [try_sum ret].
  unfold ret. rewrite scan_loop_exact with (k := Z.to_nat (n / MAX_ITER)); try done; unfold MAX_ITER in *; lia.
Qed.

Lemma elem_of_events_in addrs start end_ ev :
  ev ∈ events_in addrs start end_
  <-> exists k log, start <= k <= end_ /\ log ∈ logs_at k /\ ev = event_of log /\ we_sender ev ∈ addrs.
Proof.
  unfold events_in, blocks, matching. rewrite list_elem_of_bind. split.
  - intros (k & Hev & Hk%elem_of_seqZ). apply list_elem_of_bind in Hev as (log & Hev & Hlog).
    apply list_elem_of_bind in Hev as (a & Hev & Ha). destruct (Z.eqb_spec (we_sender (event_of log)) a); [|by apply elem_of_nil in Hev].
    apply list_elem_of_singleton in Hev as ->. exists k, log. subst a. split_and!; try done; lia.
  - intros (k & log & Hk & Hlog & -> & Ha). exists k. split; [|apply elem_of_seqZ; lia].
    apply list_elem_of_bind. exists log. split; [|done]. apply list_elem_of_bind. eexists. split; [|exact Ha].
    rewrite Z.eqb_refl. by apply list_elem_of_singleton.
Qed.

(** C32 The search is complete and exact: an event is returned if and only if it is
    logged in one of the last [n] blocks or the block before them, and was sent
    from one of the addresses. *)
Theorem search_complete n addrs rt sent :
  0 <= n <= U64_MAX -> n <= latest -> latest + MAX_ITER <= U256_MAX ->
  exists found, check_withdrawals n contract client addrs rt sent = Done sent found
    /\ forall ev, ev ∈ found <->
         exists k log, latest - n <= k <= latest /\ log ∈ logs_at k /\ ev = event_of log /\ we_sender ev ∈ addrs.
Proof.
  intros Hn Hl Hb. eexists. split; [by apply check_withdrawals_exact|]. intros ev.
  rewrite list_elem_of_bind. unfold round, MAX_ITER. pose proof (Z.mul_div_le n 500 ltac:(lia)).
  pose proof (Z.mul_succ_div_gt n 500 ltac:(lia)). pose proof (Z.div_pos n 500 ltac:(lia) ltac:(lia)). split.
  - intros (i & Hev & Hi%elem_of_seq). apply elem_of_events_in in Hev as (k & log & Hk & Hrest).
    exists k, log. split; [lia|done].
  - intros (k & log & Hk & Hlog). exists (Z.to_nat ((k - (latest - n)) / 500)).
    pose proof (Z.mul_div_le (k - (latest - n)) 500 ltac:(lia)).
    pose proof (Z.mul_succ_div_gt (k - (latest - n)) 500 ltac:(lia)).
    pose proof (Z.div_pos (k - (latest - n)) 500 ltac:(lia) ltac:(lia)).
    pose proof (Z.div_le_mono (k - (latest - n)) n 500 ltac:(lia) ltac:(lia)).
    split; [|apply elem_of_seq; lia]. apply elem_of_events_in. exists k, log. split; [lia|done].
Qed.

(** The search of a tick takes two rounds, and the block where they meet is read
    in both: an event there is returned twice. *)
Theorem search_meets_twice own sent :
  720 <= latest -> latest + MAX_ITER <= U256_MAX ->
  check_withdrawals BLOCKS contract client [own] None sent
  = Done sent (events_in [own] (latest - 720) (latest - 221) ++ events_in [own] (latest - 220) (latest - 220)
               ++ events_in [own] (latest - 220) (latest - 220) ++ events_in [own] (latest - 219) latest).
Proof.
  intros Hl Hb. rewrite check_withdrawals_exact by (unfold BLOCKS, U64_MAX; lia || done).
  change (seq 0 (S (Z.to_nat (BLOCKS / MAX_ITER)))) with [0; 1]%nat. rewrite !bind_cons.
  unfold round, events_in, blocks, BLOCKS, MAX_ITER. cbn [mbind list_bind]. rewrite app_nil_r.
  rewrite Z.min_r, Z.min_l by lia. f_equal.
  assert (Hsplit : forall m n, 0 <= n -> seqZ m (1 + n) = seqZ m 1 ++ seqZ (m + 1) n) by (intros m n ?; by rewrite seqZ_app by lia).
  assert (Hsnoc : forall m n, 0 <= n -> seqZ m (n + 1) = seqZ m n ++ seqZ (m + n) 1) by (intros m n ?; by rewrite seqZ_app by lia).
  replace (latest - 720 + 500 * Z.of_nat 0 + 500 - (latest - 720 + 500 * Z.of_nat 0) + 1) with (500 + 1) by lia.
  replace (latest - (latest - 720 + 500 * Z.of_nat 1) + 1) with (1 + 220) by lia.
  rewrite Hsnoc, Hsplit, !bind_app, <- app_assoc by lia.
  replace (latest - 221 - (latest - 720) + 1) with 500 by lia. replace (latest - 220 - (latest - 220) + 1) with 1 by lia.
  replace (latest - (latest - 219) + 1) with 220 by lia. replace (latest - 720 + 500 * Z.of_nat 0) with (latest - 720) by lia.
  replace (latest - 720 + 500 * Z.of_nat 1) with (latest - 220) by lia. replace (latest - 720 + 500) with (latest - 220) by lia.
  replace (latest - 220 + 1) with (latest - 219) by lia. done.
Qed.

End search.

Section answers.
Context `{C : Clarity} `{CB : !ClarityBytes C} `{K : Web30Constants} `{N : Num256} `{P : Profile}.
Context `{NL : !Num256Laws N} `{CL : !ClarityLaws C}.

(** * Reading a withdraw event *)

(** The log entry of an event: the receiver and the amount in words, and the
    hash of the transaction. *)
Definition withdraw_log (receiver amount txid : Z) : Log := {|
  log_data := word receiver ++ word amount; transaction_hash := Some (word txid) |}.
Definition tx_from (t : TransactionResponse) : Z :=
  match t with Eip1559 from => from | Eip2930 from => from | Legacy from => from end.

Lemma len_of_word x : len_of (word x) = 32.
Proof. unfold len_of. by rewrite word_length. Qed.
Lemma u256_word_exact x : 0 <= x <= U256_MAX -> u256_from_be_bytes (word x) = Some x.
Proof.
  intros Hx. rewrite u256_word. f_equal. apply Z.mod_small. change (2 ^ 256) with (U256_MAX + 1). lia.
Qed.

(** Reading back what is logged: the receiver, the amount and the hash of the
    entry, and the sender of its transaction. *)
Theorem withdraw_event_read client receiver amount txid tx sent :
  0 <= receiver < 2 ^ 160 -> 0 <= amount <= U256_MAX -> 0 <= txid <= U256_MAX ->
  cl_transaction_by_hash client txid = inr (Some tx) ->
  parse_withdraw_event (withdraw_log receiver amount txid) client sent
  = Done sent {| we_sender := tx_from tx; we_receiver := receiver; we_amount := amount; we_txid := txid |}.
Proof.
  intros Hr Ha Ht Htx. unfold parse_withdraw_event, parse_receiver_data, parse_sender_data, withdraw_log.
  cbn [log_data transaction_hash ok_or]. unfold bind at 1, ok_or at 1.
  assert (Hlen : len_of (word receiver ++ word amount) = 64) by (rewrite len_of_app, !len_of_word; done).
  rewrite Hlen, len_of_word. change (64 <? 64) with false. change (32 <? 32) with false. cbv iota.
  assert (H1 : slice 12 32 (word receiver ++ word amount) = Some (octets 20 receiver)).
  { unfold word at 1. change 32%nat with (12 + 20)%nat. rewrite octets_app, <- app_assoc.
    apply slice_at; by rewrite len_of_octets. }
  assert (H2 : slice 32 64 (word receiver ++ word amount) = Some (word amount)).
  { rewrite <- (app_nil_r (word amount)) at 1. apply slice_at; by rewrite len_of_word. }
  rewrite H1, H2. unfold bind, unwrap, ok_or.
  rewrite address_from_slice_spec, octets_length. cbn [Nat.eqb].
  rewrite be_value_octets by (change (256 ^ Z.of_nat 20) with (2 ^ 160); lia).
  rewrite !u256_word_exact by done. rewrite Htx. cbn [try_sum]. by destruct tx.
Qed.

(** * Reading the helper contract *)

(** What the helper answers: a type word, the length, the bytes and padding. *)
Definition helper_answer (body padding : byte_list) : byte_list :=
  word 32 ++ word (len_of body) ++ body ++ padding.

Lemma helper_answer_len body padding : len_of (helper_answer body padding) = 64 + len_of body + len_of padding.
Proof. unfold helper_answer. rewrite !len_of_app, !len_of_word. lia. Qed.
Lemma helper_answer_ready body padding :
  0 < len_of body + len_of padding -> not_ready (helper_answer body padding) = false.
Proof.
  intros H. unfold not_ready. rewrite bool_decide_eq_false_2.
  - apply Z.leb_gt. rewrite helper_answer_len. lia.
  - intros E. apply (f_equal len_of) in E. rewrite helper_answer_len in E. unfold len_of at 3 in E. cbn in E. lia.
Qed.
Lemma helper_answer_length_word body padding :
  slice 32 64 (helper_answer body padding) = Some (word (len_of body)).
Proof. unfold helper_answer. apply slice_at; by rewrite ?len_of_word. Qed.
Lemma helper_answer_body body padding :
  slice 64 (64 + len_of body) (helper_answer body padding) = Some body.
Proof. unfold helper_answer. rewrite app_assoc. apply slice_at; by rewrite len_of_app, !len_of_word. Qed.

(** A helper that answers three calls: the hash, the message and the signatures. *)
Definition helper_says (client : ChainClient) (own helper dest txid amount : Z) (msg sigs : byte_list) : Prop :=
  exists p1 p2 p3 hash,
    encode_call "getMessageHash(address,uint256,bytes32)"
      [token_address dest; token_uint amount; token_bytes (u256_to_be_bytes txid)] = inr p1
    /\ cl_simulate client own helper p1 = inr hash
    /\ encode_call "getMessage(bytes32)" [token_bytes hash] = inr p2
    /\ cl_simulate client own helper p2 = inr msg
    /\ encode_call "getSignatures(bytes32)" [token_bytes hash] = inr p3
    /\ cl_simulate client own helper p3 = inr sigs.

(** The reading of the answers, after the three calls. *)
Definition cut_answers (msg sigs_payload : byte_list) : M (list ChainRequest) TokenBridgeError HelperWithdrawInfo :=
  if not_ready msg then throw HelperMessageNotReady else
  if not_ready sigs_payload then throw HelperMessageNotReady else
  let! msg_word := unwrap (slice 32 64 msg) in
  let! msg_len := unwrap (u256_from_be_bytes msg_word) in
  let! sigs_word := unwrap (slice 32 64 sigs_payload) in
  let! sigs_len := unwrap (u256_from_be_bytes sigs_word) in
  if (U64_MAX <? msg_len) || (U64_MAX <? sigs_len) then throw HelperMessageIncorrect else
  let! msg_end := unwrap (usize_of (START + msg_len)) in
  let! sigs_end := unwrap (usize_of (START + sigs_len)) in
  if (len_of msg <? msg_end) || (len_of sigs_payload <? sigs_end) then throw HelperMessageIncorrect else
  let! cleaned_msg := unwrap (slice START msg_end msg) in
  let! cleaned_sigs := unwrap (slice START sigs_end sigs_payload) in
  ret {| hw_msg := cleaned_msg; hw_sigs := cleaned_sigs |}.

Lemma run_try {S E F A B} (f : E -> F) (a : A) (k : A -> M S F B) (s : S) :
  bind (map_err f (try_sum (inr a))) k s = k a s.
Proof. reflexivity. Qed.
Lemma helper_calls client own helper dest txid amount msg sigs sent :
  helper_says client own helper dest txid amount msg sigs ->
  get_relay_message_hash own client helper dest txid amount sent = cut_answers msg sigs sent.
Proof.
  intros (p1 & p2 & p3 & hash & E1 & S1 & E2 & S2 & E3 & S3).
  unfold get_relay_message_hash, cut_answers, encode_or_bad_input.
  rewrite E1, run_try, S1, run_try, E2, run_try, S2, run_try. destruct (not_ready msg); [done|].
  by rewrite E3, run_try, S3, run_try.
Qed.

(** The message and the signatures are cut out exactly, whatever the padding. *)
Theorem relay_message_read client own helper dest txid amount msg pad sigs pad' sent :
  helper_says client own helper dest txid amount (helper_answer msg pad) (helper_answer sigs pad') ->
  0 < len_of msg + len_of pad -> 0 < len_of sigs + len_of pad' ->
  64 + len_of msg <= U64_MAX -> 64 + len_of sigs <= U64_MAX ->
  get_relay_message_hash own client helper dest txid amount sent = Done sent {| hw_msg := msg; hw_sigs := sigs |}.
Proof.
  intros Hs Hm Hg Hml Hgl. rewrite (helper_calls _ _ _ _ _ _ _ _ _ Hs). unfold cut_answers.
  rewrite !helper_answer_ready, !helper_answer_length_word by done. pose proof (len_of_nonneg msg). pose proof (len_of_nonneg sigs).
  pose proof (len_of_nonneg pad). pose proof (len_of_nonneg pad').
  assert (U64_MAX <= U256_MAX) by done. unfold bind, unwrap. rewrite !u256_word_exact by lia.
  rewrite (proj2 (Z.ltb_ge U64_MAX (len_of msg))), (proj2 (Z.ltb_ge U64_MAX (len_of sigs))) by lia. cbn [orb].
  unfold usize_of. change START with 64. rewrite !native_exact by lia. rewrite !helper_answer_len.
  rewrite (proj2 (Z.ltb_ge _ (64 + len_of msg))), (proj2 (Z.ltb_ge _ (64 + len_of sigs))) by lia. cbn [orb].
  by rewrite !helper_answer_body.
Qed.

(** The length is checked against the width of a [usize] before 64 is added to
    it: a message that claims one of the 64 largest lengths crashes the tick,
    with and without overflow checks. *)
Theorem relay_message_length_panics client own helper dest txid amount l rest sigs pad' sent :
  helper_says client own helper dest txid amount (word 32 ++ word l ++ rest) (helper_answer sigs pad') ->
  U64_MAX - 64 < l <= U64_MAX -> rest <> [] -> 0 < len_of sigs + len_of pad' -> 64 + len_of sigs <= U64_MAX ->
  get_relay_message_hash own client helper dest txid amount sent = Panic.
Proof.
  intros Hs Hl Hrest Hg Hgl. rewrite (helper_calls _ _ _ _ _ _ _ _ _ Hs). unfold cut_answers.
  pose proof (len_of_pos rest Hrest) as Hr. pose proof (len_of_nonneg sigs). pose proof (len_of_nonneg pad').
  assert (Hlen : len_of (word 32 ++ word l ++ rest) = 64 + len_of rest) by (rewrite !len_of_app, !len_of_word; lia).
  assert (Hready : not_ready (word 32 ++ word l ++ rest) = false).
  { unfold not_ready. rewrite Hlen. rewrite bool_decide_eq_false_2; [apply Z.leb_gt; lia|].
    intros E. apply (f_equal len_of) in E. rewrite Hlen in E. unfold len_of at 2 in E. cbn in E. lia. }
  rewrite Hready, helper_answer_ready, helper_answer_length_word by done.
  assert (Hw : slice 32 64 (word 32 ++ word l ++ rest) = Some (word l)) by (apply slice_at; by rewrite ?len_of_word).
  assert (U64_MAX <= U256_MAX) by done. assert (64 <= U64_MAX) by done.
  rewrite Hw. unfold bind, unwrap. rewrite !u256_word_exact by lia.
  rewrite (proj2 (Z.ltb_ge U64_MAX l)), (proj2 (Z.ltb_ge U64_MAX (len_of sigs))) by lia. cbn [orb].
  unfold usize_of. change START with 64. rewrite (native_exact 0 U64_MAX (64 + len_of sigs)) by lia.
  unfold native. rewrite (proj2 (in_range_false 0 U64_MAX (64 + l))) by lia. destruct overflow_checks; [done|].
  assert (Hwrap : wrap_i 0 U64_MAX (64 + l) = 64 + l - (U64_MAX + 1)).
  { unfold wrap_i. replace (64 + l - 0) with (64 + l - (U64_MAX + 1) + 1 * (U64_MAX - 0 + 1)) by lia.
    rewrite Z.mod_add, Z.mod_small by lia. lia. }
  rewrite Hwrap, Hlen, helper_answer_len.
  rewrite (proj2 (Z.ltb_ge _ (64 + l - (U64_MAX + 1)))), (proj2 (Z.ltb_ge _ (64 + len_of sigs))) by lia. cbn [orb].
  unfold slice at 1. by rewrite (proj2 (Z.leb_gt 64 (64 + l - (U64_MAX + 1)))) by lia.
Qed.

(** * Unlocking *)

(** The request that unlocks the funds of an event, when the helper has its
    signatures and the other side has not relayed it. *)
Definition unlocks (b : AutoBridge.TokenBridge) (evs : list WithdrawEvent) (r : ChainRequest) : Prop :=
  exists ev info payload l1 l2 l3,
    ev ∈ evs
    /\ get_relay_message_hash (own_address b) (xdai_web3 b) (helper_on_xdai b) (we_receiver ev) (we_txid ev)
         (we_amount ev) l1 = Done l2 info
    /\ check_relayed_message (we_txid ev) (eth_web3 b) (own_address b) (xdai_bridge_on_eth b) l2 = Done l3 false
    /\ get_payload_for_funds_unlock info = Some payload
    /\ r = Transaction OnEth (xdai_bridge_on_eth b) payload 0.

Lemma on_chain_done {E A} (m : M (list ChainRequest) E A) w w' a :
  on_chain m w = Done w' a -> m (bw_sent w) = Done (bw_sent w') a /\ bw_state w' = bw_state w.
Proof. unfold on_chain. destruct (m (bw_sent w)) eqn:E1; intros [= <- <-]; done. Qed.

Lemma submit_unlocks b info payload w w' :
  get_payload_for_funds_unlock info = Some payload ->
  outcome_state (on_chain (submit_signatures_to_unlock_funds b info) w) = Some w' ->
  adds_sent (fun r => r = Transaction OnEth (xdai_bridge_on_eth b) payload 0) w w'.
Proof.
  intros Hp. apply (moves_on_chain (fun r => r = Transaction OnEth (xdai_bridge_on_eth b) payload 0)).
  intros s s'. unfold submit_signatures_to_unlock_funds. rewrite Hp. unfold bind at 1. cbn [unwrap].
  apply moves_map_err, prepare_and_send_adds. done.
Qed.

Lemma unlock_event_unlocks b ev evs w w' :
  ev ∈ evs -> outcome_state (unlock_event b ev w) = Some w' -> adds_sent (unlocks b evs) w w'.
Proof.
  intros Hev. unfold unlock_event. cbv zeta. unfold bind at 1.
  pose proof (moves_on_chain silent _ (get_relay_message_hash_silent (own_address b) (xdai_web3 b) (helper_on_xdai b)
                (we_receiver ev) (we_txid ev) (we_amount ev)) w) as H1.
  destruct (on_chain (get_relay_message_hash _ _ _ _ _ _) w) as [w1 info|w1 er|] eqn:E1; [..|done];
    apply on_chain_done in E1 as [E1 _] || clear E1;
    specialize (H1 w1 eq_refl); apply (adds_weaken silent (unlocks b evs)) in H1; [|by intros r []|intros [= <-]; exact H1|by intros r []].
  intros H. etransitivity; [exact H1|]. revert H. unfold bind at 1, caught at 1.
  pose proof (moves_on_chain silent _ (check_relayed_message_silent (we_txid ev) (eth_web3 b) (own_address b)
                (xdai_bridge_on_eth b)) w1) as H2.
  destruct (on_chain (check_relayed_message _ _ _ _) w1) as [w2 rel|w2 er|] eqn:E2; [..|done];
    specialize (H2 w2 eq_refl); apply (adds_weaken silent (unlocks b evs)) in H2; try (by intros r []).
  - apply on_chain_done in E2 as [E2 _]. destruct rel; [intros [= <-]; exact H2|].
    intros H. etransitivity; [exact H2|]. revert H. unfold bind at 1.
    destruct (get_payload_for_funds_unlock info) as [payload|] eqn:Hp.
    + pose proof (fun w3 => submit_unlocks b info payload w2 w3 Hp) as H3.
      destruct (on_chain (submit_signatures_to_unlock_funds b info) w2) as [w3 tx|w3 er|]; [..|done];
        specialize (H3 w3 eq_refl); intros [= <-]; (eapply adds_weaken; [|exact H3]); intros r ->; by repeat eexists.
    + unfold submit_signatures_to_unlock_funds, on_chain, bind. by rewrite Hp.
  - intros [= <-]. exact H2.
Qed.

(** What a tick submits on Ethereum for withdrawals is only the signatures of
    events it was given that the other side has not relayed. *)
Theorem unlocks_only_unrelayed b evs w w' :
  outcome_state (unlock_events b evs w) = Some w' -> adds_sent (unlocks b evs) w w'.
Proof.
  intros H. cut (forall l w, l ⊆ evs -> outcome_state (unlock_events b l w) = Some w' -> adds_sent (unlocks b evs) w w').
  { intros Hc. by apply (Hc evs). }
  clear w H. induction l as [|ev l IH]; intros w Hl; cbn [unlock_events]; [intros [= ->]; reflexivity|].
  unfold bind. pose proof (fun w1 => unlock_event_unlocks b ev evs w w1 (Hl ev ltac:(by left))) as H1.
  destruct (unlock_event b ev w) as [w1 []|w1 er|]; [|intros [= ->]; by apply H1|done].
  intros H. etransitivity; [by apply H1|]. apply IH; [|done]. intros x Hx. apply Hl. by right.
Qed.

End answers.

(** * Demonstrations

    Demonstrations of the token bridge properties: a chain with one withdraw
    event, and a router that holds some coins. *)

Import RegistrationDb AutoBridge TokenBridge.

Definition bridge_code (signature : string) : Z :=
  if String.eqb signature "getMessageHash(address,uint256,bytes32)" then 0
  else if String.eqb signature "getMessage(bytes32)" then 1
  else if String.eqb signature "getSignatures(bytes32)" then 2 else 3.
Definition bridge_clarity : Clarity := {|
  AbiToken := byte_list;
  token_uint x := [x]; token_address x := [x]; token_struct l := concat l; token_dynamic l := concat l;
  token_of_vec l := concat l;
  encode_call signature l := inr (bridge_code signature :: concat l);
  bytes_to_hex_str := hex_of;
  address_from_slice l := if (length l =? 20)%nat then Some (be_value l) else None;
  u256_from_be_bytes l := Some (be_value l);
  u256_to_be_bytes x := octets 32 x;
|}.
Definition bridge_bytes : ClarityBytes bridge_clarity := Build_ClarityBytes bridge_clarity (fun l => l) (fun l => l).
#[local] Existing Instance bridge_clarity.
#[local] Existing Instance bridge_bytes.
#[local] Instance bridge_clarity_laws : ClarityLaws bridge_clarity.
Proof. by constructor. Qed.
Definition bridge_constants : Web30Constants := {| DAI_CONTRACT_ADDRESS := 100; USDC_CONTRACT_ADDRESS := 101 |}.
#[local] Existing Instance bridge_constants.
#[local] Existing Instance Num256_panicking.
#[local] Existing Instance release_profile.

(** The chain: block 5000 is the latest, block 4800 has the event of a withdrawal
    by address 7 to address 8. *)
Definition event_log : Log := withdraw_log 8 1000 77.
Definition bridge_logs (k : Z) : list Log := if k =? 4800 then [event_log] else [].
Definition demo_answer (body : Z) : byte_list := helper_answer [body; body] [0; 0].
Definition demo_client : ChainClient := {|
  cl_simulate _ _ p := match p with
                       | 0 :: _ => inr [9]
                       | 1 :: _ => inr (demo_answer 11)
                       | 2 :: _ => inr (demo_answer 12)
                       | _ => inr [0]
                       end;
  cl_prepare _ _ _ _ := None;
  cl_send _ _ _ := inr 1;
  cl_wait _ := None;
  cl_erc20_balance token _ := inr (if token =? 100 then 3 * 10 ^ 18 else if token =? 101 then 20000000 else 0);
  cl_block_number := inr 5000;
  cl_check_for_events _ start end_ _ _ := inr (match end_ with Some e => blocks start e ≫= bridge_logs | None => [] end);
  cl_transaction_by_hash _ := inr (Some (Legacy 7));
|}.
Definition demo_event : WithdrawEvent := {| we_sender := 7; we_receiver := 8; we_amount := 1000; we_txid := 77 |}.

Definition bridge_env (withdraw_chain : SystemChain) : BridgeEnv := {|
  benv_settings := {| bset_system_chain := Xdai; bset_withdraw_chain := withdraw_chain; bset_bridge_enabled := true;
                      bset_bridge_addresses := default_bridge_addresses; bset_eth_address := Some 7;
                      bset_eth_private_key := Some 1 |};
  benv_connect _ := demo_client; benv_random := 12 |}.
Definition demo_bridge : AutoBridge.TokenBridge :=
  TokenBridge_new (fun _ => demo_client) default_bridge_addresses 7 1 "https://eth.althea.org" "https://dai.althea.org".
Definition wallet_env (withdraw_chain : SystemChain) : WalletEnv := {|
  wal_env := bridge_env withdraw_chain; wal_balance := Some (10 ^ 18); wal_gas_price := inr (10 ^ 9); wal_node := demo_client |}.

Lemma demo_bridge_on c : bridge_on (bridge_env c) demo_bridge.
Proof. split; [done|]. split; [done|]. by exists 7, 1. Qed.

Definition asked_world : BridgeWorld := {|
  bw_state := {| withdraw_in_progress := true; withdraw_details := Some {| wd_to := 8; wd_amount := 1000 |};
                 detailed_state := NoOp |}; bw_sent := [] |}.
Lemma demo_asks : withdraw_handler (wallet_env Ethereum) 8 (Some 1000) bw_init = Done asked_world (json 200 ViewEndpoints).
Proof. reflexivity. Qed.
Lemma demo_tick_drops : tick_token_bridge (E := BridgeError) (bridge_env Ethereum) asked_world = Done bw_init tt.
Proof. reflexivity. Qed.

Lemma withdrawals_never_sent_witness :
  Forall on_ethereum (bw_sent bw_init)
  /\ exists w', withdraw_handler (wallet_env Ethereum) 8 (Some 1000) bw_init = Done w' (json 200 ViewEndpoints)
       /\ withdraw_details (bw_state w') = Some {| wd_to := 8; wd_amount := 1000 |}.
Proof.
  assert (H : bridge_reachable bw_init).
  { unfold bridge_reachable. eapply rtc_l; [|eapply rtc_l; [|apply rtc_refl]].
    - by apply (step_request (wallet_env Ethereum) 8 (Some 1000) bw_init asked_world (json 200 ViewEndpoints)).
    - by apply (step_tick (bridge_env Ethereum)). }
  destruct (withdrawals_never_sent bw_init H) as [Hs Hreq]. split; [exact Hs|].
  destruct (Hreq (wallet_env Ethereum) 8 1000 (10 ^ 9) eq_refl eq_refl eq_refl) as (w' & E & Hd & _);
    [split; [lia|vm_compute; split; [|split]; congruence]|reflexivity|].
  exists w'. split; [exact E|exact Hd].
Defined.

Lemma accepted_withdrawal_dropped_witness :
  withdraw_details (bw_state asked_world) = Some {| wd_to := 8; wd_amount := 1000 |}
  /\ tick_token_bridge (E := BridgeError) (bridge_env Ethereum) asked_world = Done bw_init tt.
Proof.
  apply (accepted_withdrawal_dropped (bridge_env Ethereum) demo_bridge (3 * 10 ^ 18) 20000000 0
           {| wd_to := 8; wd_amount := 1000 |} bw_init asked_world (demo_bridge_on _)); done.
Defined.

(** After the funds of the event are unlocked. *)
Definition unlocked_world : BridgeWorld := {|
  bw_state := set_detailed_state (DaiToDest 1000 8) TokenBridgeState_default;
  bw_sent := [Transaction OnEth XDAI_BRIDGE_ON_ETH_ADDRESS [3; 11; 11; 12; 12] 0] |}.

Lemma conveyor_belt_exact_witness :
  tick_token_bridge (E := BridgeError) (bridge_env Xdai) bw_init
  = Done {| bw_state := set_detailed_state (DaiToXdai (3 * 10 ^ 18)) (bw_state unlocked_world);
            bw_sent := [Transaction OnEth DAI_CONTRACT_ADDRESS
                          [3; XDAI_BRIDGE_ON_ETH_ADDRESS; 3 * 10 ^ 18 - 12] 0;
                        SwapUniswapV3 USDC_CONTRACT_ADDRESS DAI_CONTRACT_ADDRESS 100 20000000 (195 * 10 ^ 17)]
                       ++ bw_sent unlocked_world |} tt.
Proof.
  assert (Hsim : outcome_state (simulated_withdrawal_on_eth demo_bridge bw_init) = Some unlocked_world)
    by (vm_compute; reflexivity).
  assert (Hbal : balances demo_bridge (3 * 10 ^ 18) 20000000 0) by done.
  rewrite (conveyor_belt_exact (bridge_env Xdai) demo_bridge (3 * 10 ^ 18) 20000000 0
    [3; XDAI_BRIDGE_ON_ETH_ADDRESS; 3 * 10 ^ 18 - 12] bw_init unlocked_world (demo_bridge_on Xdai) Hbal)
    by first [exact Hsim | reflexivity | vm_compute; split; discriminate | vm_compute; discriminate].
  vm_compute. reflexivity.
Defined.

Definition paid_world : BridgeWorld := {|
  bw_state := TokenBridgeState_default; bw_sent := [Transaction OnXdai 8 [] (10 ^ 18 - 21000 * 10 ^ 9)] |}.
Lemma withdraw_within_balance_witness :
  asks_for (Z.min (10 ^ 18) (10 ^ 18 - 21000 * 10 ^ 9)) 8 bw_init paid_world.
Proof.
  assert (H : withdraw_handler (wallet_env Xdai) 8 None bw_init
              = Done paid_world (json 200 (SuccessfulWithdraw (10 ^ 18 - 21000 * 10 ^ 9) 8)))
    by (vm_compute; reflexivity).
  apply (withdraw_within_balance (wallet_env Xdai) 8 None (10 ^ 18) (10 ^ 9) (21000 * 10 ^ 9) (10 ^ 18) bw_init paid_world
           (json 200 (SuccessfulWithdraw (10 ^ 18 - 21000 * 10 ^ 9) 8)));
    first [exact H | vm_compute; reflexivity | vm_compute; split; discriminate | vm_compute; discriminate].
Defined.

Lemma min_amount_out_bounds_witness :
  exists out, get_min_amount_out 15000000 = Some out /\ 39 * (15000000 * 10 ^ 12) <= 40 * out < 39 * (15000000 * 10 ^ 12) + 40.
Proof. apply (min_amount_out_bounds 15000000); vm_compute; discriminate. Defined.

(** The same chain with nothing logged but the event. *)
Lemma demo_reads k log sent : log ∈ bridge_logs k -> parse_withdraw_event log demo_client sent = Done sent demo_event.
Proof.
  unfold bridge_logs. destruct (k =? 4800); [|by intros ?%elem_of_nil]. intros ->%list_elem_of_singleton.
  vm_compute. reflexivity.
Qed.

Lemma search_complete_witness :
  exists found, check_withdrawals BLOCKS 3 demo_client [7] None [] = Done [] found /\ demo_event ∈ found.
Proof.
  destruct (search_complete demo_client 3 5000 bridge_logs (fun _ => demo_event) eq_refl (fun _ _ _ => eq_refl)
              (fun k log sent H => demo_reads k log sent H) BLOCKS [7] None []) as (found & Hf & Hin);
    [vm_compute; split; discriminate|vm_compute; discriminate..|].
  exists found. split; [exact Hf|]. apply Hin. exists 4800, event_log.
  split; [vm_compute; split; discriminate|]. repeat split; by left.
Defined.

Lemma withdraw_event_read_witness : parse_withdraw_event event_log demo_client [] = Done [] demo_event.
Proof.
  apply (withdraw_event_read demo_client 8 1000 77 (Legacy 7) []);
    first [reflexivity | vm_compute; split; discriminate | vm_compute; split; [discriminate|reflexivity]].
Defined.

Lemma relay_message_read_witness :
  get_relay_message_hash 7 demo_client 6 8 77 1000 [] = Done [] {| hw_msg := [11; 11]; hw_sigs := [12; 12] |}.
Proof.
  apply (relay_message_read demo_client 7 6 8 77 1000 [11; 11] [0; 0] [12; 12] [0; 0] []);
    first [reflexivity | vm_compute; discriminate | idtac].
  by eexists _, _, _, [9].
Defined.
